(* ===== verification/_CoqProject ===== *)
-Q . S2P
Prelude.v
CMem.v
Cells.v
CType.v
Words.v
StrScan.v
StrCmp.v
StrCopy.v
StrFind.v
StrTo.v
Calendar.v
Sort.v
Prng.v
HashMap.v
WMem.v
WMemLogic.v
WMemChunks.v
WMemOps.v
WMemSpec.v
WMemHeap.v
Malloc.v
Alloc.v
Tree.v
Stdio.v
Streams.v
Output.v
Printf.v
PrintfSpec.v
PrintfWrite.v
PrintfParse.v
PrintfCore.v
Formatted.v
StrAsm.v
Typed.v
Inet.v
InetSpec.v
InetRead.v
InetWrite.v
InetAton.v
Addresses.v
StdioIn.v
Input.v
Reads.v
Hashes.v
Tables.v
Resources.v
UnixSockets.v
