(* ===== verification/Prelude.v ===== *)
(** * A verification library for clib4

    clib4 is the C library of AmigaOS 4: it runs on 32-bit big-endian PowerPC,
    above exec.library, dos.library, utility.library and the other libraries
    of the system.  This development models the parts of it that compute (the
    string and memory functions, the conversions, the calendar, sorting and
    searching, the random number generators, the hash map of the resource
    tables, the allocator behind malloc, search trees, streams, formatted
    output and the text of Internet addresses) and proves what makes
    them correct.  The source is under
    [src/library/]; definitions have the names of the C functions they
    translate, and the loops of a function [f] are definitions [f_body].

    ** The machine

    - [Prelude] (this file): machine integers as [Z] with their wrap-around
      written out ([u32], [s32], [u8]), the tactics [zb], [dd], [zlia], [fcons]
      and [len], the hint databases [clib], [len] and [cm], statements about
      all bytes decided by running them, and positions in lists.
    - [CMem]: a flat byte memory as a finite map, [errno], and the
      state-and-failure monad the C functions are written in.  A load or store
      of an unmapped or misaligned address, or another act that C leaves
      undefined, is a [Fault], so a theorem that a function returns [Ok] also
      says that its accesses stay inside the objects its hypotheses give.  A C loop is [loop body]: one iteration per
      call of [body], at most 2^40 of them, more than the 32-bit indices and
      pointers of the library can take; exceeding it is a [Timeout], so the
      same theorems say that the loops end.  [bytes_at], [cstr], [mapped],
      [disj] and [write_bytes] state what is in memory; [loop_inv] and [lrun]
      prove loops.
    - [Cells]: arrays of 32-bit words in memory ([words_at]) and what a
      computation leaves alone ([only_in]).
    - [Words]: the tests for a zero byte in a word that the string functions
      use, with what each of them detects.

    ** The components

    - [CType] ([ctype/], [include/ctype.h]): the classifiers and the case
      conversions, with a locale (the services of locale.library are a record
      of functions) and without.
    - [StrScan] ([string/strlen.c], [strchr.c] and its PowerPC assembly,
      [strchrnul.c], [strrchr.c], [memchr.c], [memrchr.c] ...): scans by words
      against the position of the first or last occurrence.
    - [StrCmp] ([string/strcmp.c], [memcmp.c], [strverscmp.c],
      [strings_strcasecmp.c] ...): comparisons against the lexicographic
      order; the state tables of [strverscmp] against a reference order that
      does not mention them.
    - [StrCopy] ([string/memcpy.c], [memmove.c], [memset.c], [strncpy.c],
      [strlcpy.c], [stpcpy.c], [mempcpy.c], [memccpy.c] ...): the bytes
      written, and nothing else.  The block services of exec.library and
      utility.library are the class [SysMem], with what they document as
      [SysMemLaws] and an instance that satisfies them.
    - [StrFind] ([string/strspn.c], [strpbrk.c], [strstr.c], [strsep.c],
      [strtok_r.c] ...): searches; whole runs of [strsep] and [strtok] against
      the fields of the string.
    - [StrTo] ([stdlib/strtol.c], [strtoul.c], [strtoll.c], [strtoull.c],
      [inttypes/]): the integer conversions, one definition over what the six
      files differ in; the overflow of a signed sum is undefined, a [Fault].
    - [Calendar] ([time/]): seconds, broken-down time, DateStamps, weekdays,
      against the proleptic Gregorian calendar by days; the services of the
      clock are the class of its parameters.
    - [Sort] ([stdlib/qsort.c], [bsearch.c], [search/lfind.c], [lsearch.c]):
      arrays of elements of any size, the callback a function of the two
      elements' bytes with the laws [CompareLaws] where order matters.  The
      recursion of [qsort] has fuel: one more than the number of elements.
    - [Prng] ([prng/]): the congruential generators, tempering, the additive
      generator and the switching of its states.
    - [HashMap] ([misc/map.c]): the robin-hood hash map, on a list of buckets
      as long as the block; allocations succeed or fail as their boolean
      arguments say, in the sequences of [hashmap_refines] too.  Its loops have one round more than there are buckets.
    - The block allocator of [wmem/] ([wmem_allocator_block.c],
      [wmem_core.c]), in seven files: [WMem] is the code, on a memory of 32-bit
      words, with exec.library as the class [OsMem]; [WMemLogic] a program
      logic for it in two layers, words seen as headers and links, links seen
      as a stack and a ring; [WMemChunks] the invariant of the chunks and the
      splitting and merging of free ones; [WMemOps] the steps of allocation,
      freeing and reallocation on chunks; [WMemSpec] the blocks, what is asked
      of exec.library ([OsLaws]) and the state [Heap I h A], in which the
      memory [h] implements the map [A] of allocations; [WMemHeap] the
      operations on [A] and the programs that use them; [Malloc] the theorems
      and a system that satisfies [OsLaws].

    - [Alloc]: what [malloc] and [free] promise to the code that calls them,
      as a class over the word memory of [WMem]; the block allocator keeps it
      ([wmem_laws]).
    - [Tree] ([search/tsearch.c], [tfind.c], [tdelete.c], [twalk.c],
      [tdestroy.c]): trees of nodes in allocated memory, over any allocator of
      that class, against the tree they represent; the recursions have fuel,
      and any fuel above the height of the tree is enough.
    - Output streams, in three files: [Stdio] is the code of [stdio/fputc.c],
      [fputs.c], [puts.c], [fwrite.c], [fflush.c], of the macros of
      [stdio.h] and [stdio_headers.h], of the actions of files and strings
      and of [fcntl/write.c], with dos.library as the class [Dos]; [Streams]
      the invariant [Stream cap s f sent held] and what each function adds to
      [sent ++ held]; [Output] sequences of calls and the theorems.
    - Formatted output, in six files: [Printf] is the code of
      [stdio/vfprintf.c], [wchar/wchar_wprintf_core.h], [vsprintf.c] and
      [vsnprintf.c]; [PrintfSpec] the grammar of formats and what they mean;
      [PrintfWrite] padding and fields on a stream; [PrintfParse] the reading
      of a conversion; [PrintfCore] the conversions, the rounds of the loop
      and [vfprintf]; [Formatted] the theorems on [fprintf], [sprintf] and
      [snprintf].
    - [StrAsm] ([string/strcpy.c], [strcat.c], [cpu/generic/strcpy.S],
      [strcat.S]): the assembly routines, a definition per label.
    - [Typed]: lemmas on what every call keeps of the memory, the mapped cells
      and that each holds a byte; the services of the system promise the same
      in the classes [SysTyped] and [DosTyped].
    - Internet addresses, in six files: [Inet] is the code of
      [socket/inet_ntop.c], [inet_pton.c], [inet_ntoa.c], [inet_aton.c],
      [inet_addr.c] and of the network classes, over [sprintf], [snprintf]
      and [strcpy]; [InetSpec] the text of addresses and the parsers on
      lists; [InetRead] and [InetWrite] that [inet_pton] and [inet_ntop]
      compute them, with [only], what a call leaves alone; [InetAton] the
      numbers of [inet_aton]; [Addresses] the theorems.
    - Input streams, in three files: [StdioIn] is the code of [stdio/fgetc.c],
      [filliobreadbuffer.c], [ungetc.c], [fgets.c], [gets.c], [fread.c],
      [flush_all_files.c], of the [getc] macros and of [fcntl/read.c], on the
      streams of [Stdio]; [Input] the invariant [Input s p unread later], that
      the buffer holds [unread] and the file still has [later], and what each
      loop takes from [unread ++ later]; [Reads] the theorems.  What a read of
      a file delivers is a function [amount] of the class [DosReadLaws]; only
      [fread] needs it to be all that was asked for.
    - [Hashes] (the second half of [misc/map.c]): the three hash functions and,
      on lists of bytes, SipHash, XXH64 and MurmurHash3.
    - [Tables]: the class [KeyLaws], what the callbacks of a hash map promise
      about a key, and that the map is then a finite map from keys to items
      ([Table]).  [Resources] ([shared_library/clib4.c]): the items of the
      resource tables in memory and their callbacks, which keep [KeyLaws].
      [UnixSockets] ([socket/bind.c], [connect.c], the closing of
      [hook_entry.c]): the table of Unix sockets, through [Table] only, and
      the step relation it follows.  Its loops have fuel for every bucket and
      every port.

    Later files require the earlier ones they use: every component uses
    [CMem]; [Sort] calls [memcpy] of [StrCopy]; [StrFind] and [StrCopy] call
    the scans of [StrScan]; [StrCmp], [StrFind] and [StrTo] ask [CType];
    [Resources] calls the hash functions, [strlen] and [strcmp];
    [Stdio] and [StdioIn] call [memchr] and [memmove], [Printf] puts its characters into
    the streams of [Stdio], [Inet] calls [Printf], [StrAsm] and [StrScan].

    ** What the theorems show

    Equivalence of optimised code with a plain definition: the word loops of
    the string functions ([strchr_correct], [strlen_correct],
    [memchr_correct], [memcmp_correct], [mempcpy_memccpy_correct],
    [strcpy_strcat_correct], ...), at any alignment.  Functional behaviour on every branch, errors included:
    the comparisons, copies, searches and conversions.  Whole runs of stateful
    functions: [strtok_correct], [strsep_correct], [random_refines],
    [initstate_setstate].  Refinement of an abstract object: [hashmap_refines]
    (a list of items with distinct keys), [random_refines] (a shift register),
    [strverscmp_correct] (an order), [wmem_alloc_correct], [wmem_free_correct]
    and [wmem_realloc_correct] (a map of allocations), [tsearch_correct] and
    [tdelete_correct] (a tree and its in-order list), [fprintf_correct],
    [sprintf_correct] and [snprintf_correct] (the meaning of a format),
    [inet_pton_correct] and [inet_aton_correct] (parsers on lists),
    [unix_sockets_correct] (a step relation on a map from paths to sockets,
    with the invariant that ports differ).  Between the tables and memory:
    [table_callbacks_correct], [hash_functions_correct].
    Invariants of whole program runs, by induction on their steps:
    [heap_safety] and [heap_coalesced] (while the system has memory, and
    without reallocation of jumbo allocations), [stream_refines],
    [fgets_all_lines].
    Reading from the front of the input, whatever the refills:
    [fgetc_ungetc_correct], [fgets_correct], [fread_correct].  Round trips:
    [timegm_correct], [datestamp_roundtrip], [initstate_setstate],
    [printf_strto_roundtrip], [inet_ntop_pton_roundtrip],
    [inet_ntoa_aton_roundtrip].  Error paths: [output_errors], [hashmap_memory], [strto_limits].  Termination:
    [qsort_correct], [hashmap_new_capacity] and, through [Timeout] and
    [Spin], every theorem that says a function returns.  Full periods of the
    random number generators: [prng_periods].

    Where the code does not do what it means to, the theorem states what it
    does: the overflow test of [strtol], which comes too late
    for a signed sum, and that of [strtoul] ([strto_limits]), weekdays from 2100
    ([calculate_weekday_correct]), DateStamps from 2038
    ([datestamp_roundtrip]), [gmtime_r] under daylight saving time
    ([localtime_gmtime_correct]), [strncmp] and [strncpy] beyond 2^31
    ([strcmp_family_correct], [bounded_copies_correct]), [strnstr]
    behind the end of its string ([substring_search_correct]), the zero test of [stpcpy]
    ([stp_copies_correct]), empty copies reported as errors
    ([memmove_memset_correct]), capacities above 2^31
    ([hashmap_new_capacity]), a system out of memory
    ([wmem_alloc_out_of_memory]), [fwrite] on a full buffer
    ([stream_refines]), the second NUL of [sprintf] ([sprintf_correct]), which
    overruns the array of [inet_ntop4], and the terminator [inet_ntop] does
    not count ([inet_ntop_correct]), numbers
    [inet_aton] takes modulo 2^32 ([inet_aton_correct]), the second NUL of
    [gets] ([gets_overruns]), [ungetc] at the end of the input
    ([fgetc_ungetc_correct]), the path of a Unix socket whose [bind] failed
    ([unix_sockets_correct]).

    ** Not modelled

    Debug output, the checks for a break signal ([__check_abort]) and the
    semaphores around shared state, which do not change results in one task.
    The reset and the garbage collection of the block allocator, its
    self-check, reallocation of jumbo blocks (the code is translated; it loses
    the contents, so that no theorem is stated) and the other allocators of
    [wmem/].  Of streams, opening, closing and seeking; of formatted
    output, the floating-point conversions ([fmt_fp], a parameter), and
    [wctomb] and [strerror], which are parameters too; the theorems are about
    formats without numbered arguments, [%n], [%m] and wide characters, whose
    code is translated.  The vectors of [argz/] and [envz/], the hash tables
    of [search/], the formatting and parsing of times, [scanf], files,
    processes, threads, sockets and the resolver: either left for later or almost entirely
    calls of the system.  Floating point ([math/]), wide-character tables, the
    regular expressions, DES and the database files are third-party code. *)

From stdpp Require Export base numbers list gmap fin_maps.
From Stdlib Require Export ZArith Lia.

#[global] Open Scope Z_scope.

(** ** Machine integers

    The target is 32-bit big-endian PowerPC: [int], [long], [size_t] and
    pointers have 32 bits, [long long] has 64.  A value of an unsigned C type
    is kept as a [Z] in [0, 2^w); one of a signed type as a [Z] in
    [-2^(w-1), 2^(w-1)). *)

Definition uwrap (w x : Z) : Z := x mod 2 ^ w.
Definition swrap (w x : Z) : Z := (x + 2 ^ (w - 1)) mod 2 ^ w - 2 ^ (w - 1).

Definition u32 (x : Z) : Z := x mod 4294967296.
Definition s32 (x : Z) : Z := (x + 2147483648) mod 4294967296 - 2147483648.
Definition u8 (x : Z) : Z := x mod 256.
Definition u64 (x : Z) : Z := x mod 18446744073709551616.

(** [ADDR_MAX] is the size of the address space: an object occupies
    addresses below it. *)
Definition ADDR_MAX : Z := 4294967296.

Definition is_byte (b : Z) : Prop := 0 <= b < 256.
Definition is_u32 (x : Z) : Prop := 0 <= x < 4294967296.

(** A byte of a C string proper: neither out of range nor the terminator. *)
Definition is_char (c : Z) : Prop := 0 < c < 256.

Create HintDb clib.
#[export] Hint Unfold is_byte is_u32 is_char u32 s32 u8 ADDR_MAX : clib.

Lemma u32_id x : 0 <= x < 4294967296 -> u32 x = x.
Proof. intros. unfold u32. by rewrite Z.mod_small. Qed.

Lemma u32_range x : 0 <= u32 x < 4294967296.
Proof. unfold u32. apply Z.mod_pos_bound. lia. Qed.

Lemma u8_range x : 0 <= u8 x < 256.
Proof. unfold u8. apply Z.mod_pos_bound. lia. Qed.

Lemma u8_id x : 0 <= x < 256 -> u8 x = x.
Proof. intros. unfold u8. by rewrite Z.mod_small. Qed.

Lemma s32_id x : -2147483648 <= x < 2147483648 -> s32 x = x.
Proof. intros. unfold s32. rewrite Z.mod_small; lia. Qed.

Lemma s32_range x : -2147483648 <= s32 x < 2147483648.
Proof.
  unfold s32. pose proof (Z.mod_pos_bound (x + 2147483648) 4294967296 ltac:(lia)). lia.
Qed.

Lemma s32_pos_small n : 0 <= n < 4294967296 -> 0 < s32 n -> n < 2147483648.
Proof.
  intros Hn Hp. destruct (Z_lt_dec n 2147483648); [done|].
  unfold s32 in Hp.
  replace (n + 2147483648) with (n - 2147483648 + 1 * 4294967296) in Hp by lia.
  rewrite Z_mod_plus_full, Z.mod_small in Hp by lia. lia.
Qed.

Lemma uwrap_id w x : 0 <= w -> 0 <= x < 2 ^ w -> uwrap w x = x.
Proof. intros. unfold uwrap. by rewrite Z.mod_small. Qed.

Lemma swrap_id w x : 0 < w -> - 2 ^ (w - 1) <= x < 2 ^ (w - 1) -> swrap w x = x.
Proof.
  intros Hw Hx. unfold swrap. assert (2 ^ w = 2 * 2 ^ (w - 1)).
  { rewrite <- Z.pow_succ_r by lia. f_equal. lia. }
  rewrite Z.mod_small; lia.
Qed.

(** A value shifted up, with bits put into the place that became free. *)
Lemma lor_shiftl v d n : 0 <= n -> 0 <= d < 2 ^ n -> Z.lor (Z.shiftl v n) d = v * 2 ^ n + d.
Proof.
  intros Hn Hd. pose proof (Z.add_lor_land (Z.shiftl v n) d) as E.
  replace (Z.land (Z.shiftl v n) d) with 0 in E; [by rewrite Z.shiftl_mul_pow2 in E |- * by done; lia|].
  assert (Ed : d = Z.land (Z.ones n) d).
  { by rewrite Z.land_comm, Z.land_ones, Z.mod_small by lia. }
  rewrite Ed, Z.land_assoc, Z.land_ones, Z.shiftl_mul_pow2 by lia. by rewrite Z.mod_mul by lia.
Qed.

Lemma u8_shiftr_u32 v k : 0 <= k <= 24 -> u8 (Z.shiftr (u32 v) k) = u8 (Z.shiftr v k).
Proof.
  intros Hk. unfold u8, u32. change 256 with (2 ^ 8). change 4294967296 with (2 ^ 32).
  apply Z.bits_inj'. intros i Hi. destruct (Z.ltb_spec i 8).
  - rewrite !Z.mod_pow2_bits_low, !Z.shiftr_spec, Z.mod_pow2_bits_low by lia. done.
  - by rewrite !Z.mod_pow2_bits_high by lia.
Qed.

#[export] Hint Resolve u32_range u8_range s32_range u32_id u8_id s32_id : clib.

#[global] Arguments Z.eqb : simpl never.
#[global] Arguments Z.ltb : simpl never.
#[global] Arguments Z.leb : simpl never.
#[global] Arguments Z.of_nat : simpl never.

(** ** Tactics *)

(** Splits the booleans on [Z] comparisons that block a computation. *)
Ltac zb :=
  repeat match goal with
  | |- context [Z.eqb ?a ?b] => destruct (Z.eqb_spec a b)
  | |- context [Z.ltb ?a ?b] => destruct (Z.ltb_spec a b)
  | |- context [Z.leb ?a ?b] => destruct (Z.leb_spec a b)
  | |- context [Z.gtb ?a ?b] => rewrite (Z.gtb_ltb a b)
  | |- context [Z.geb ?a ?b] => rewrite (Z.geb_leb a b)
  | H : context [Z.eqb ?a ?b] |- _ => destruct (Z.eqb_spec a b)
  | H : context [Z.ltb ?a ?b] |- _ => destruct (Z.ltb_spec a b)
  | H : context [Z.leb ?a ?b] |- _ => destruct (Z.leb_spec a b)
  | H : context [Z.gtb ?a ?b] |- _ => rewrite (Z.gtb_ltb a b) in H
  | H : context [Z.geb ?a ?b] |- _ => rewrite (Z.geb_leb a b) in H
  end.

(** Breaks up the conjunctions and existentials of the context. *)
Ltac dd :=
  repeat match goal with
  | H : _ /\ _ |- _ => destruct H
  | H : exists _, _ |- _ => destruct H
  end.

(** Unfolds the width predicates and calls [lia]. *)
Ltac zlia := unfold is_byte, is_u32, is_char, ADDR_MAX in *; lia.

(** Takes apart the [Forall]s over non-empty lists of the context. *)
Ltac fcons :=
  repeat match goal with
  | H : Forall _ (_ :: _) |- _ => apply Forall_cons in H as [? ?]
  | H : Forall _ (_ ++ _) |- _ => apply Forall_app in H as [? ?]
  | H : Forall _ [] |- _ => clear H
  end.

(** [lia] on goals with 0/1 truth values of C. *)
Lemma b2z_cases b : (b = true /\ Z.b2z b = 1) \/ (b = false /\ Z.b2z b = 0).
Proof. destruct b; auto. Qed.
Ltac blia :=
  repeat match goal with
  | |- context [Z.b2z ?b] =>
      let v := fresh "v" in let H := fresh in
      pose proof (b2z_cases b) as H; set (v := Z.b2z b) in *; clearbody v
  end; lia.

(** Normalises [length] over the list operations of the development. *)
Create Rewrite HintDb len.
#[export] Hint Rewrite @length_app @length_cons @length_nil @length_replicate
  @length_take @length_drop @length_reverse @length_fmap @length_insert
  Nat2Z.inj_add Nat2Z.inj_succ : len.
Ltac len := autorewrite with len in *; simpl length in *.

(** ** Finite universes

    A statement about every byte is decided by running it on the 256 of
    them. *)
Definition all_bytes : list Z := seqZ 0 256.

Lemma forall_bytes (P : Z -> bool) :
  forallb P all_bytes = true -> forall b, is_byte b -> P b = true.
Proof.
  intros H b Hb. rewrite forallb_forall in H. apply H.
  apply list_elem_of_In, elem_of_seqZ. zlia.
Qed.

Lemma forall_bytes2 (P : Z -> Z -> bool) :
  forallb (fun a => forallb (P a) all_bytes) all_bytes = true ->
  forall a b, is_byte a -> is_byte b -> P a b = true.
Proof.
  intros H a b Ha Hb. pose proof (forall_bytes _ H a Ha) as H'.
  by apply (forall_bytes _ H').
Qed.

(** Bounded ranges are decided the same way. *)
Lemma forall_range (P : Z -> bool) lo n :
  forallb P (seqZ lo n) = true -> forall x, lo <= x < lo + n -> P x = true.
Proof.
  intros H x Hx. rewrite forallb_forall in H. apply H.
  apply list_elem_of_In, elem_of_seqZ. lia.
Qed.

(** ** Lists in groups of four *)

Lemma list4_ind {A} (P : list A -> Prop) :
  P [] -> (forall a, P [a]) -> (forall a b, P [a; b]) -> (forall a b c, P [a; b; c]) ->
  (forall a b c d l, P l -> P (a :: b :: c :: d :: l)) -> forall l, P l.
Proof.
  intros H0 H1 H2 H3 H4.
  fix F 1. intros [|a [|b [|c [|d l]]]]; [done|auto|auto|auto|apply H4, F].
Qed.

Lemma list4_split {A} (l : list A) :
  (length l mod 4 = 0)%nat -> l <> [] ->
  exists a b c d l', l = a :: b :: c :: d :: l' /\ (length l' mod 4 = 0)%nat.
Proof.
  intros Hl Hn. destruct l as [|a [|b [|c [|d l]]]]; try done.
  exists a, b, c, d, l. split; [done|]. simpl length in Hl.
  by replace (S (S (S (S (length l))))) with (length l + 1 * 4)%nat in Hl by lia;
    rewrite Nat.Div0.mod_add in Hl.
Qed.

(** The position of the first occurrence of a value. *)
Fixpoint find_byte (c : Z) (l : list Z) : option nat :=
  match l with
  | [] => None
  | x :: l' => if x =? c then Some 0%nat else S <$> find_byte c l'
  end.

Lemma find_byte_Some c l i :
  find_byte c l = Some i <->
  l !! i = Some c /\ forall j x, (j < i)%nat -> l !! j = Some x -> x <> c.
Proof.
  revert i. induction l as [|x l IH]; intros i; simpl.
  - split; [done|]. intros [H _]. done.
  - destruct (Z.eqb_spec x c) as [->|Hne].
    + split.
      * intros [= <-]. split; [done|]. lia.
      * intros [Hi Hj]. destruct i as [|i]; [done|].
        by specialize (Hj 0%nat c ltac:(lia) eq_refl).
    + destruct i as [|i].
      * split; [by destruct (find_byte c l)|]. intros [[= ->] _]. done.
      * transitivity (find_byte c l = Some i).
        { destruct (find_byte c l); simpl; split; intros; by simplify_eq. }
        rewrite IH. simpl. split; intros [Hi Hj]; (split; [done|]).
        -- intros [|j] y Hlt Hy; simpl in Hy; [congruence|]. eapply Hj; [|done]. lia.
        -- intros j y Hlt Hy. eapply (Hj (S j)); [lia|done].
Qed.

Lemma find_byte_None c l : find_byte c l = None <-> c ∉ l.
Proof.
  induction l as [|x l IH]; simpl; [split; [intros _ H; inversion H|done]|].
  rewrite not_elem_of_cons. destruct (Z.eqb_spec x c).
  - split; [done|]. intros [? _]. congruence.
  - rewrite fmap_None, IH. split; [|by intros [_ ?]]. intros. split; [congruence|done].
Qed.

Lemma find_byte_app c l1 l2 :
  find_byte c (l1 ++ l2) =
  match find_byte c l1 with
  | Some i => Some i
  | None => (fun i => length l1 + i)%nat <$> find_byte c l2
  end.
Proof.
  induction l1 as [|x l1 IH]; simpl.
  - by destruct (find_byte c l2).
  - rewrite IH. destruct (x =? c); [done|].
    destruct (find_byte c l1); [done|]. by destruct (find_byte c l2).
Qed.

(** The position of the last occurrence of a value. *)
Fixpoint rfind_byte (c : Z) (l : list Z) : option nat :=
  match l with
  | [] => None
  | x :: l' =>
      match rfind_byte c l' with
      | Some i => Some (S i)
      | None => if x =? c then Some 0%nat else None
      end
  end.

Lemma rfind_byte_snoc c l x :
  rfind_byte c (l ++ [x]) = if x =? c then Some (length l) else rfind_byte c l.
Proof.
  induction l as [|y l IH]; simpl; [by destruct (x =? c)|].
  rewrite IH. by destruct (x =? c).
Qed.

Lemma rfind_byte_Some c l i :
  rfind_byte c l = Some i <->
  l !! i = Some c /\ forall j x, (i < j)%nat -> l !! j = Some x -> x <> c.
Proof.
  revert i. induction l as [|x l IH] using rev_ind; intros i.
  - simpl. split; [done|]. intros [H _]. done.
  - rewrite rfind_byte_snoc. destruct (Z.eqb_spec x c) as [->|Hne].
    + split.
      * intros [= <-]. split; [by apply list_lookup_middle|].
        intros j y Hj Hy. apply lookup_lt_Some in Hy. rewrite length_app in Hy. simpl in Hy. lia.
      * intros [Hi Hj]. destruct (decide (i = length l)) as [->|Hni]; [done|].
        pose proof (lookup_lt_Some _ _ _ Hi) as Hlt. rewrite length_app in Hlt. simpl in Hlt.
        exfalso. apply (Hj (length l) c); [lia|by apply list_lookup_middle|done].
    + rewrite IH. split; intros [Hi Hj].
      * split; [by apply lookup_app_l_Some|]. intros j y Hlt Hy.
        apply lookup_app_Some in Hy as [Hy|[Hge Hy]]; [eauto|].
        by apply list_lookup_singleton_Some in Hy as [_ <-].
      * apply lookup_app_Some in Hi as [Hi|[Hge Hi]].
        -- split; [done|]. intros j y Hlt Hy. eapply Hj; [done|]. by apply lookup_app_l_Some.
        -- apply list_lookup_singleton_Some in Hi as [_ ->]. done.
Qed.
