(* ===== verification/CMem.v ===== *)
(** * The machine the C code runs on

    A flat byte memory, [errno], what has been written to files, and the
    state-and-failure monad in which every function of the library is
    written.  A load or store outside the mapped addresses, a misaligned
    word access, or an overflow of signed arithmetic, which C leaves
    undefined, is a [Fault]; a loop that exceeds its bound is a
    [Timeout]. *)

From Stdlib Require Import Ascii String.
From S2P Require Import Prelude.

(** ** States and outcomes *)

Record state := mkState {
  mem : gmap Z Z;     (** address -> byte *)
  errno : Z;
  files : gmap Z (list Z);    (** file -> the bytes written to it *)
}.

Definition set_mem (s : state) (m : gmap Z Z) : state :=
  mkState m (errno s) (files s).
Definition put_errno (s : state) (e : Z) : state :=
  mkState (mem s) e (files s).

Inductive outcome (A : Type) : Type :=
  | Ok (a : A) (s : state)
  | Fault
  | Timeout.
Arguments Ok {A} a s.
Arguments Fault {A}.
Arguments Timeout {A}.

Definition M (A : Type) : Type := state -> outcome A.

Definition ret {A} (a : A) : M A := fun s => Ok a s.
Definition fault {A} : M A := fun _ => Fault.
Definition bind {A B} (c : M A) (k : A -> M B) : M B := fun s =>
  match c s with
  | Ok a s' => k a s'
  | Fault => Fault
  | Timeout => Timeout
  end.

Declare Scope c_scope.
Delimit Scope c_scope with C.
Notation "'let*' x ':=' c 'in' k" := (bind c (fun x => k))
  (at level 10, x pattern, c at level 100, k at level 200,
   format "'[v' 'let*'  x  ':='  c  'in' '/' k ']'") : c_scope.
Notation "c1 ;; c2" := (bind c1 (fun _ => c2))
  (at level 100, right associativity) : c_scope.
#[global] Open Scope c_scope.

(** ** Error numbers ([include/errno.h]) *)

Definition NULL : Z := 0.
Definition ENOMEM : Z := 12.
Definition EFAULT : Z := 14.
Definition EINVAL : Z := 22.
Definition ENOSPC : Z := 28.
Definition ERANGE : Z := 34.
Definition EAFNOSUPPORT : Z := 47.
Definition EOVERFLOW : Z := 84.

Definition set_errno (e : Z) : M unit := fun s => Ok tt (put_errno s e).

(** ** Byte and word accesses *)

Definition load8 (p : Z) : M Z := fun s =>
  match mem s !! p with Some b => Ok b s | None => Fault end.

Definition store8 (p v : Z) : M unit := fun s =>
  match mem s !! p with
  | Some _ => Ok tt (set_mem s (<[p := u8 v]> (mem s)))
  | None => Fault
  end.

(** The big-endian value of four bytes. *)
Definition word_of (b0 b1 b2 b3 : Z) : Z :=
  b0 * 16777216 + b1 * 65536 + b2 * 256 + b3.

Definition load32 (p : Z) : M Z :=
  if p mod 4 =? 0 then
    let* b0 := load8 p in
    let* b1 := load8 (p + 1) in
    let* b2 := load8 (p + 2) in
    let* b3 := load8 (p + 3) in
    ret (word_of b0 b1 b2 b3)
  else fault.

Definition load16 (p : Z) : M Z :=
  if p mod 2 =? 0 then
    let* b0 := load8 p in
    let* b1 := load8 (p + 1) in
    ret (b0 * 256 + b1)
  else fault.

Definition store32 (p v : Z) : M unit :=
  if p mod 4 =? 0 then
    store8 p (v / 16777216) ;;
    store8 (p + 1) (v / 65536) ;;
    store8 (p + 2) (v / 256) ;;
    store8 (p + 3) v
  else fault.

(** ** Loops

    [loop body x] runs one iteration of a C loop per call of [body]: [inl y]
    goes round again with the local variables [y], [inr a] leaves it with
    [a].  The bound is 2^40 iterations, counted in binary so that the loop
    evaluates; no loop of the library can exceed it, since each moves a
    32-bit index or pointer. *)

Definition LOOP_MAX : positive := 1099511627776.

Fixpoint loop_pos {S A} (p : positive) (body : S -> M (S + A)) (x : S)
    : M (S + A) :=
  match p with
  | xH => body x
  | xO q =>
      let* r := loop_pos q body x in
      match r with
      | inl y => loop_pos q body y
      | inr a => ret (inr a)
      end
  | xI q =>
      let* r := body x in
      match r with
      | inl y =>
          let* r' := loop_pos q body y in
          match r' with
          | inl z => loop_pos q body z
          | inr a => ret (inr a)
          end
      | inr a => ret (inr a)
      end
  end.

Definition loop {S A} (body : S -> M (S + A)) (x : S) : M A :=
  let* r := loop_pos LOOP_MAX body x in
  match r with
  | inl _ => fun _ => Timeout
  | inr a => ret a
  end.

(** [continue] and [break] of a loop body. *)
Definition again {S A} (x : S) : M (S + A) := ret (inl x).
Definition leave {S A} (a : A) : M (S + A) := ret (inr a).

(** [runs body n x s a s']: from locals [x] and state [s], the loop leaves
    with [a] in state [s'] at its [n]th iteration. *)
Inductive runs {S A} (body : S -> M (S + A))
    : nat -> S -> state -> A -> state -> Prop :=
  | runs_done x s a s' :
      body x s = Ok (inr a) s' -> runs body 1 x s a s'
  | runs_next n x s y s1 a s' :
      body x s = Ok (inl y) s1 ->
      runs body n y s1 a s' ->
      runs body (Datatypes.S n) x s a s'.

Inductive goes {S A} (body : S -> M (S + A))
    : nat -> S -> state -> S -> state -> Prop :=
  | goes_refl x s : goes body 0 x s x s
  | goes_next n x s y s1 z s2 :
      body x s = Ok (inl y) s1 ->
      goes body n y s1 z s2 ->
      goes body (Datatypes.S n) x s z s2.

Section Loops.
Context {L A : Type} (body : L -> M (L + A)).

Lemma bind_ok {B D} (c : M B) (k : B -> M D) s a s' :
  c s = Ok a s' -> bind c k s = k a s'.
Proof. unfold bind. by intros ->. Qed.

Lemma goes_split n k x s y s1 :
  goes body (k + n) x s y s1 ->
  exists z s2, goes body k x s z s2 /\ goes body n z s2 y s1.
Proof.
  revert x s. induction k as [|k IH]; intros x s H; simpl in H.
  - exists x, s. split; [constructor|done].
  - inversion H; subst. edestruct IH as (z' & s2' & ? & ?); [eassumption|].
    exists z', s2'. split; [econstructor|]; eauto.
Qed.

Lemma goes_runs k n x s y s1 a s2 :
  goes body k x s y s1 -> runs body n y s1 a s2 -> runs body (k + n) x s a s2.
Proof. induction 1; [done|]. intros. simpl. econstructor; eauto. Qed.

Lemma runs_split n k x s a s' :
  runs body n x s a s' -> (k < n)%nat ->
  exists y s1, goes body k x s y s1 /\ runs body (n - k) y s1 a s'.
Proof.
  revert n x s. induction k as [|k IH]; intros n x s H Hk.
  - exists x, s. split; [constructor|]. by rewrite Nat.sub_0_r.
  - inversion H; subst; [lia|].
    edestruct IH as (y1 & s2 & ? & ?); [eassumption|lia|].
    exists y1, s2. simpl. split; [econstructor|]; eauto.
Qed.

Lemma loop_pos_goes p x s y s1 :
  goes body (Pos.to_nat p) x s y s1 -> loop_pos p body x s = Ok (inl y) s1.
Proof.
  revert x s y s1. induction p as [q IH|q IH|]; intros x s y s1 H; simpl.
  - replace (Pos.to_nat q~1) with (S (Pos.to_nat q + Pos.to_nat q)) in H by lia.
    inversion H; subst.
    edestruct goes_split as (z' & s2' & ? & ?); [eassumption|].
    erewrite bind_ok by eassumption. simpl.
    erewrite bind_ok by (apply IH; eassumption). simpl. by apply IH.
  - replace (Pos.to_nat q~0) with (Pos.to_nat q + Pos.to_nat q)%nat in H by lia.
    edestruct goes_split as (z' & s2' & ? & ?); [eassumption|].
    erewrite bind_ok by (apply IH; eassumption). simpl. by apply IH.
  - rewrite Pos2Nat.inj_1 in H. inversion H as [|? ? ? ? ? ? ? Hb Hg]; subst.
    inversion Hg; subst. exact Hb.
Qed.

Lemma loop_pos_runs p n x s a s' :
  runs body n x s a s' -> (n <= Pos.to_nat p)%nat ->
  loop_pos p body x s = Ok (inr a) s'.
Proof.
  revert n x s. induction p as [q IH|q IH|]; intros n x s H Hn; simpl.
  - rewrite Pos2Nat.inj_xI in Hn. inversion H as [|n' ? ? ? ? ? ? ? Hr]; subst.
    { by erewrite bind_ok by eassumption. }
    erewrite bind_ok by eassumption. simpl.
    destruct (decide (n' <= Pos.to_nat q)%nat).
    { by erewrite bind_ok by (eapply IH; eassumption). }
    edestruct runs_split with (k := Pos.to_nat q) as (y2 & s2 & ? & ?);
      [eassumption|lia|].
    erewrite bind_ok by (apply loop_pos_goes; eassumption). simpl.
    eapply IH; [eassumption|lia].
  - rewrite Pos2Nat.inj_xO in Hn.
    destruct (decide (n <= Pos.to_nat q)%nat).
    { by erewrite bind_ok by (eapply IH; eassumption). }
    edestruct runs_split with (k := Pos.to_nat q) as (y2 & s2 & ? & ?);
      [eassumption|lia|].
    erewrite bind_ok by (apply loop_pos_goes; eassumption). simpl.
    eapply IH; [eassumption|lia].
  - rewrite Pos2Nat.inj_1 in Hn. inversion H as [|n' ? ? ? ? ? ? ? Hr]; subst; [done|].
    inversion Hr; lia.
Qed.

Lemma loop_pos_fault p n x s y s1 :
  goes body n x s y s1 -> body y s1 = Fault -> (n < Pos.to_nat p)%nat -> loop_pos p body x s = Fault.
Proof.
  revert n x s. induction p as [q IH|q IH|]; intros n x s Hg Hf Hn; simpl.
  - rewrite Pos2Nat.inj_xI in Hn. inversion Hg as [|n' ? ? x1 s2 ? ? Hb Hg']; subst.
    { unfold bind. by rewrite Hf. }
    erewrite bind_ok by exact Hb. simpl. destruct (decide (n' < Pos.to_nat q)%nat).
    { unfold bind. by erewrite IH. }
    replace n' with (Pos.to_nat q + (n' - Pos.to_nat q))%nat in Hg' by lia.
    destruct (goes_split _ _ _ _ _ _ Hg') as (z & s3 & H1 & H2).
    erewrite bind_ok by (apply loop_pos_goes; exact H1). eapply IH; [exact H2|done|lia].
  - rewrite Pos2Nat.inj_xO in Hn. destruct (decide (n < Pos.to_nat q)%nat).
    { unfold bind. by erewrite IH. }
    replace n with (Pos.to_nat q + (n - Pos.to_nat q))%nat in Hg by lia.
    destruct (goes_split _ _ _ _ _ _ Hg) as (z & s3 & H1 & H2).
    erewrite bind_ok by (apply loop_pos_goes; exact H1). eapply IH; [exact H2|done|lia].
  - rewrite Pos2Nat.inj_1 in Hn. inversion Hg; subst; [done|lia].
Qed.

(** A loop that leaves within the bound returns what it leaves with. *)
Lemma loop_runs n x s a s' :
  runs body n x s a s' -> Z.of_nat n <= 1099511627776 ->
  loop body x s = Ok a s'.
Proof.
  intros H Hn. unfold loop.
  erewrite bind_ok; [|eapply loop_pos_runs; [eassumption|unfold LOOP_MAX; lia]].
  done.
Qed.

(** Total correctness from an invariant with a decreasing measure. *)
Lemma loop_inv (I : nat -> L -> state -> Prop) (Q : A -> state -> Prop) :
  (forall n x s, I n x s ->
     match body x s with
     | Ok (inl y) s' => exists n', (n' < n)%nat /\ I n' y s'
     | Ok (inr a) s' => Q a s'
     | _ => False
     end) ->
  forall n x s, I n x s -> Z.of_nat n < 1099511627776 ->
  exists a s', loop body x s = Ok a s' /\ Q a s'.
Proof.
  intros Hstep n x s HI Hn.
  assert (exists k a s', (k <= S n)%nat /\ runs body k x s a s' /\ Q a s')
    as (k & a & s' & Hk & Hr & HQ).
  { clear Hn. revert x s HI. induction (lt_wf n) as [n _ IH]. intros x s HI.
    specialize (Hstep n x s HI).
    destruct (body x s) as [[y|a] s1| |] eqn:E; try done.
    - destruct Hstep as (n' & Hlt & HI').
      destruct (IH n' Hlt y s1 HI') as (k & a & s' & Hk & Hr & HQ).
      exists (S k), a, s'. split; [lia|]. split; [|done]. econstructor; eauto.
    - exists 1%nat, a, s1. split; [lia|]. split; [|done]. by constructor. }
  exists a, s'. split; [|done]. eapply loop_runs; [eassumption|lia].
Qed.
End Loops.

#[export] Hint Constructors runs goes : clib.

(** ** Bytes in memory *)

(** [bytes_at m p l]: the bytes [l] are at address [p] and on. *)
Fixpoint bytes_at (m : gmap Z Z) (p : Z) (l : list Z) : Prop :=
  match l with
  | [] => True
  | x :: l' => m !! p = Some x /\ bytes_at m (p + 1) l'
  end.

(** The memory after the bytes [l] are written at [p] and on. *)
Fixpoint write_bytes (m : gmap Z Z) (p : Z) (l : list Z) : gmap Z Z :=
  match l with
  | [] => m
  | x :: l' => write_bytes (<[p := x]> m) (p + 1) l'
  end.

(** The [n] addresses from [p] on are mapped. *)
Definition mapped (m : gmap Z Z) (p n : Z) : Prop :=
  forall a, p <= a < p + n -> is_Some (m !! a).

(** [n] bytes at [p] and [k] bytes at [q] do not overlap. *)
Definition disj (p n q k : Z) : Prop := p + n <= q \/ q + k <= p.

(** An object of [n] bytes at [p] lies inside the address space, and not at
    the null address. *)
Definition in_space (p n : Z) : Prop := 0 < p /\ p + n <= ADDR_MAX.

(** A NUL-terminated string whose characters are [s]. *)
Definition cstr (m : gmap Z Z) (p : Z) (s : list Z) : Prop :=
  bytes_at m p (s ++ [0]) /\ Forall is_char s /\ in_space p (Z.of_nat (length s) + 1).

(** Every mapped cell holds a byte. *)
Definition mem_wf (m : gmap Z Z) : Prop := map_Forall (fun _ b => is_byte b) m.

Lemma bytes_at_app m p l1 l2 :
  bytes_at m p (l1 ++ l2) <->
  bytes_at m p l1 /\ bytes_at m (p + Z.of_nat (length l1)) l2.
Proof.
  revert p. induction l1 as [|x l1 IH]; intros p; simpl.
  - rewrite Z.add_0_r. tauto.
  - rewrite IH. replace (p + 1 + Z.of_nat (length l1))
      with (p + Z.of_nat (S (length l1))) by lia. tauto.
Qed.

Lemma bytes_at_lookup m p l i x :
  bytes_at m p l -> l !! i = Some x -> m !! (p + Z.of_nat i) = Some x.
Proof.
  revert p i. induction l as [|y l IH]; intros p i H Hi; [done|].
  destruct H as [Hy H]. destruct i as [|i]; simpl in Hi.
  - rewrite Z.add_0_r. congruence.
  - replace (p + Z.of_nat (S i)) with (p + 1 + Z.of_nat i) by lia. eauto.
Qed.

Lemma bytes_at_intro m p l :
  (forall i x, l !! i = Some x -> m !! (p + Z.of_nat i) = Some x) -> bytes_at m p l.
Proof.
  revert p. induction l as [|y l IH]; intros p H; [done|]. split.
  - specialize (H 0%nat y eq_refl). by rewrite Z.add_0_r in H.
  - apply IH. intros i x Hi. specialize (H (S i) x Hi).
    by replace (p + 1 + Z.of_nat i) with (p + Z.of_nat (S i)) by lia.
Qed.

Lemma bytes_at_inj m p l1 l2 :
  bytes_at m p l1 -> bytes_at m p l2 -> length l1 = length l2 -> l1 = l2.
Proof.
  revert p l2. induction l1 as [|x l1 IH]; intros p [|y l2] H1 H2 Hl; try done.
  destruct H1, H2. f_equal; [congruence|]. eapply IH; eauto.
Qed.

Lemma bytes_at_mapped m p l : bytes_at m p l -> mapped m p (Z.of_nat (length l)).
Proof.
  intros H a Ha.
  destruct (lookup_lt_is_Some_2 l (Z.to_nat (a - p))) as [x Hx]; [lia|].
  exists x. replace a with (p + Z.of_nat (Z.to_nat (a - p))) by lia.
  eauto using bytes_at_lookup.
Qed.

Lemma mapped_bytes_at m p n :
  mapped m p (Z.of_nat n) -> exists l, length l = n /\ bytes_at m p l.
Proof.
  revert p. induction n as [|n IH]; intros p H.
  - by exists [].
  - destruct (H p) as [x Hx]; [lia|].
    destruct (IH (p + 1)) as (l & Hl & Hb). { intros a Ha. apply H. lia. }
    exists (x :: l). simpl. auto.
Qed.

Lemma mapped_sub m p n q k : mapped m p n -> p <= q -> q + k <= p + n -> mapped m q k.
Proof. intros H ?? a Ha. apply H. lia. Qed.

Lemma bytes_at_wf m p l : mem_wf m -> bytes_at m p l -> Forall is_byte l.
Proof.
  intros Hwf. revert p. induction l as [|x l IH]; intros p H; constructor.
  - destruct H as [H _]. exact (Hwf _ _ H).
  - destruct H as [_ H]. eauto.
Qed.

(** *** C strings *)

Lemma cstr_nil m p : cstr m p [] -> m !! p = Some 0.
Proof. intros [H _]. apply H. Qed.

Lemma cstr_cons m p c s :
  cstr m p (c :: s) -> m !! p = Some c /\ is_char c /\ cstr m (p + 1) s.
Proof.
  intros (H & Hf & Hp). inversion Hf; subst. destruct H.
  split; [done|]. split; [done|]. split; [done|]. split; [done|].
  unfold in_space in *. simpl in *. zlia.
Qed.

Lemma cstr_app m p s1 s2 :
  cstr m p (s1 ++ s2) -> cstr m (p + Z.of_nat (length s1)) s2.
Proof.
  revert p. induction s1 as [|c s1 IH]; intros p H.
  - by rewrite Z.add_0_r.
  - apply cstr_cons in H as (_ & _ & H). apply IH in H.
    by replace (p + Z.of_nat (length (c :: s1)))
      with (p + 1 + Z.of_nat (length s1)) by (simpl; lia).
Qed.

Lemma cstr_pos m p s : cstr m p s -> 0 < p.
Proof. intros (_ & _ & ? & _). done. Qed.

Lemma cstr_len m p s : cstr m p s -> p + Z.of_nat (length s) < ADDR_MAX.
Proof. intros (_ & _ & ? & ?). lia. Qed.

Lemma cstr_chars m p s : cstr m p s -> Forall is_char s.
Proof. intros (_ & ? & _). done. Qed.

Lemma cstr_bytes m p s : cstr m p s -> bytes_at m p (s ++ [0]).
Proof. intros (? & _). done. Qed.

Lemma cstr_nonnull m p s : cstr m p s -> (p =? NULL) = false.
Proof. intros H. apply cstr_pos in H. unfold NULL. lia. Qed.

Lemma cstr_lookup m p s i c :
  cstr m p s -> s !! i = Some c -> m !! (p + Z.of_nat i) = Some c.
Proof.
  intros (H & _) Hi. eapply bytes_at_lookup; [done|]. by apply lookup_app_l_Some.
Qed.

Lemma cstr_end m p s : cstr m p s -> m !! (p + Z.of_nat (length s)) = Some 0.
Proof.
  intros H. apply cstr_nil. apply (cstr_app _ _ s []). by rewrite app_nil_r.
Qed.

#[export] Hint Resolve cstr_pos cstr_len cstr_chars cstr_bytes cstr_nonnull : clib.

(** *** Reading back what was written *)

Lemma write_bytes_lookup m p l a :
  write_bytes m p l !! a =
  if decide (p <= a < p + Z.of_nat (length l)) then l !! Z.to_nat (a - p) else m !! a.
Proof.
  revert m p. induction l as [|x l IH]; intros m p; simpl.
  - case_decide; [lia|done].
  - rewrite IH. repeat case_decide; try lia.
    + replace (Z.to_nat (a - p)) with (S (Z.to_nat (a - (p + 1)))) by lia. done.
    + replace a with p by lia. rewrite lookup_insert_eq.
      by replace (Z.to_nat (p - p)) with 0%nat by lia.
    + rewrite lookup_insert_ne by lia. done.
Qed.

Lemma write_bytes_app m p l1 l2 :
  write_bytes m p (l1 ++ l2) =
  write_bytes (write_bytes m p l1) (p + Z.of_nat (length l1)) l2.
Proof.
  revert m p. induction l1 as [|x l1 IH]; intros m p; simpl.
  - by rewrite Z.add_0_r.
  - rewrite IH. f_equal. lia.
Qed.

Lemma write_bytes_at m p l : bytes_at (write_bytes m p l) p l.
Proof.
  apply bytes_at_intro. intros i x Hi. rewrite write_bytes_lookup.
  pose proof (lookup_lt_Some _ _ _ Hi). rewrite decide_True by lia.
  by replace (Z.to_nat (p + Z.of_nat i - p)) with i by lia.
Qed.

Lemma write_bytes_frame m p l q k :
  bytes_at m q k -> disj p (Z.of_nat (length l)) q (Z.of_nat (length k)) ->
  bytes_at (write_bytes m p l) q k.
Proof.
  intros H Hd. apply bytes_at_intro. intros i x Hi. rewrite write_bytes_lookup.
  pose proof (lookup_lt_Some _ _ _ Hi). unfold disj in Hd.
  rewrite decide_False by lia. eauto using bytes_at_lookup.
Qed.

Lemma write_bytes_outside m p l a :
  ~ (p <= a < p + Z.of_nat (length l)) -> write_bytes m p l !! a = m !! a.
Proof. intros. rewrite write_bytes_lookup. by rewrite decide_False. Qed.

Lemma cstr_frame m p l q s :
  cstr m q s -> disj p (Z.of_nat (length l)) q (Z.of_nat (length s) + 1) ->
  cstr (write_bytes m p l) q s.
Proof.
  intros (H & Hf & Hp) Hd. split; [|done]. apply write_bytes_frame; [done|].
  unfold disj in *. rewrite length_app. simpl. lia.
Qed.

Lemma mapped_write m p l q n : mapped m q n -> mapped (write_bytes m p l) q n.
Proof.
  intros H a Ha. rewrite write_bytes_lookup. case_decide; [|auto].
  apply lookup_lt_is_Some_2. lia.
Qed.

Lemma mem_wf_write m p l : mem_wf m -> Forall is_byte l -> mem_wf (write_bytes m p l).
Proof.
  intros Hm Hl a b Hb. rewrite write_bytes_lookup in Hb. case_decide.
  - by eapply Forall_lookup_1 in Hb.
  - eapply Hm; eauto.
Qed.

Lemma write_bytes_id m p l : bytes_at m p l -> write_bytes m p l = m.
Proof.
  intros H. apply map_eq. intros a. rewrite write_bytes_lookup. case_decide; [|done].
  destruct (lookup_lt_is_Some_2 l (Z.to_nat (a - p))) as [x Hx]; [lia|].
  rewrite Hx. symmetry. replace a with (p + Z.of_nat (Z.to_nat (a - p))) by lia.
  eauto using bytes_at_lookup.
Qed.

Lemma write_bytes_same m p l1 l2 :
  length l1 = length l2 -> write_bytes (write_bytes m p l1) p l2 = write_bytes m p l2.
Proof.
  intros Hl. apply map_eq. intros a. rewrite !write_bytes_lookup, Hl.
  by case_decide.
Qed.

(** ** The effect of the primitives *)

Lemma load8_ok p s b : mem s !! p = Some b -> load8 p s = Ok b s.
Proof. unfold load8. by intros ->. Qed.

Lemma store8_ok p v s :
  is_Some (mem s !! p) -> store8 p v s = Ok tt (set_mem s (<[p := u8 v]> (mem s))).
Proof. unfold store8. by intros [? ->]. Qed.

Lemma load32_ok p s b0 b1 b2 b3 :
  p mod 4 = 0 -> bytes_at (mem s) p [b0; b1; b2; b3] ->
  load32 p s = Ok (word_of b0 b1 b2 b3) s.
Proof.
  intros Hp (H0 & H1 & H2 & H3 & _). unfold load32. rewrite Hp. simpl.
  replace (p + 1 + 1) with (p + 2) in * by lia.
  replace (p + 2 + 1) with (p + 3) in * by lia.
  by rewrite !(bind_ok _ _ _ _ _ (load8_ok _ _ _ H0)), !(bind_ok _ _ _ _ _ (load8_ok _ _ _ H1)),
    !(bind_ok _ _ _ _ _ (load8_ok _ _ _ H2)), !(bind_ok _ _ _ _ _ (load8_ok _ _ _ H3)).
Qed.

(** The bytes of a word, most significant first. *)
Definition word_bytes (v : Z) : list Z :=
  [u8 (v / 16777216); u8 (v / 65536); u8 (v / 256); u8 v].

Lemma word_bytes_value v :
  is_u32 v -> word_of (u8 (v / 16777216)) (u8 (v / 65536)) (u8 (v / 256)) (u8 v) = v.
Proof. unfold is_u32, word_of, u8. intros. Z.div_mod_to_equations. lia. Qed.

Lemma word_bytes_u32 v : word_bytes (u32 v) = word_bytes v.
Proof.
  assert (E : forall k, 0 <= k <= 24 -> u8 (u32 v / 2 ^ k) = u8 (v / 2 ^ k)).
  { intros k Hk. rewrite <- !Z.shiftr_div_pow2 by lia. by apply u8_shiftr_u32. }
  pose proof (E 0 ltac:(lia)) as E0. rewrite !Z.div_1_r in E0. unfold word_bytes. rewrite E0.
  change 16777216 with (2 ^ 24). change 65536 with (2 ^ 16). change 256 with (2 ^ 8).
  by rewrite !E by lia.
Qed.

Lemma store32_ok p v s :
  p mod 4 = 0 -> mapped (mem s) p 4 ->
  store32 p v s = Ok tt (set_mem s (write_bytes (mem s) p (word_bytes v))).
Proof.
  intros Hp Hm. unfold store32. rewrite Hp. simpl. unfold bind.
  assert (K : forall a, p <= a < p + 4 -> forall (b v' : Z) (m : gmap Z Z), is_Some (m !! a) ->
    is_Some (<[b := v']> m !! a)).
  { intros a Ha b v' m ?. destruct (decide (b = a)) as [->|].
    - rewrite lookup_insert_eq. eauto.
    - by rewrite lookup_insert_ne. }
  rewrite store8_ok by (apply Hm; lia). rewrite store8_ok by (apply K; [lia|apply Hm; lia]).
  rewrite store8_ok by (apply K; [lia|apply K; [lia|apply Hm; lia]]).
  rewrite store8_ok by (apply K; [lia|apply K; [lia|apply K; [lia|apply Hm; lia]]]).
  unfold set_mem. simpl.
  replace (p + 1 + 1) with (p + 2) by lia. by replace (p + 2 + 1) with (p + 3) by lia.
Qed.

Lemma load32_store p v s m :
  is_u32 v -> p mod 4 = 0 -> mem s = write_bytes m p (word_bytes v) -> load32 p s = Ok v s.
Proof.
  intros Hv Hp Hm. erewrite load32_ok; [by rewrite word_bytes_value|done|].
  rewrite Hm. apply write_bytes_at.
Qed.

Lemma set_mem_id s : set_mem s (mem s) = s.
Proof. by destruct s. Qed.
Lemma set_mem_set s m1 m2 : set_mem (set_mem s m1) m2 = set_mem s m2.
Proof. done. Qed.
Lemma mem_set_mem s m : mem (set_mem s m) = m.
Proof. done. Qed.

Create Rewrite HintDb cm.
#[export] Hint Rewrite set_mem_id set_mem_set mem_set_mem : cm.
#[export] Hint Resolve load8_ok store8_ok load32_ok : clib.

(** Runs the first command of a sequence, by a load of a known byte, a store
    to a mapped address, or a lemma about a called function. *)
Ltac mstep := first
  [ erewrite bind_ok by (first [apply load8_ok; eassumption | apply store8_ok; eassumption])
  | erewrite bind_ok by (eauto with clib) ]; simpl.
Tactic Notation "mcall" uconstr(H) := erewrite bind_ok by (apply H; eauto with clib); simpl.

(** [lrun body N x s a s']: the loop leaves with [a] within [N] iterations. *)
Definition lrun {S A} (body : S -> M (S + A)) (N : Z) x s a s' : Prop :=
  exists n, Z.of_nat n <= N /\ runs body n x s a s'.

Lemma lrun_done {S A} (body : S -> M (S + A)) N x s a s' :
  body x s = Ok (inr a) s' -> 1 <= N -> lrun body N x s a s'.
Proof. intros. exists 1%nat. split; [lia|]. by constructor. Qed.

Lemma lrun_next {S A} (body : S -> M (S + A)) N x s y s1 a s' :
  body x s = Ok (inl y) s1 -> lrun body (N - 1) y s1 a s' -> lrun body N x s a s'.
Proof.
  intros ? (n & Hn & Hr). exists (Datatypes.S n). split; [lia|]. econstructor; eauto.
Qed.

Lemma loop_lrun {S A} (body : S -> M (S + A)) N x s a s' :
  lrun body N x s a s' -> N <= 1099511627776 -> loop body x s = Ok a s'.
Proof. intros (n & Hn & Hr) HN. eapply loop_runs; [exact Hr|lia]. Qed.

Lemma lrun_weaken {S A} (body : S -> M (S + A)) N N' x s a s' :
  lrun body N x s a s' -> N <= N' -> lrun body N' x s a s'.
Proof. intros (n & Hn & Hr) HN. exists n. split; [lia|done]. Qed.

(** [lfault body N x s]: the loop faults within [N] iterations. *)
Definition lfault {S A} (body : S -> M (S + A)) (N : Z) x s : Prop :=
  exists n y s1, Z.of_nat n < N /\ goes body n x s y s1 /\ body y s1 = Fault.

Lemma lfault_done {S A} (body : S -> M (S + A)) N x s : body x s = Fault -> 1 <= N -> lfault body N x s.
Proof. intros. exists 0%nat, x, s. split; [lia|]. split; [constructor|done]. Qed.

Lemma lfault_next {S A} (body : S -> M (S + A)) N x s y s1 :
  body x s = Ok (inl y) s1 -> lfault body (N - 1) y s1 -> lfault body N x s.
Proof.
  intros Hb (n & z & s2 & Hn & Hg & Hf). exists (Datatypes.S n), z, s2. split; [lia|]. split; [|done].
  econstructor; eauto.
Qed.

Lemma lfault_weaken {S A} (body : S -> M (S + A)) N N' x s : lfault body N x s -> N <= N' -> lfault body N' x s.
Proof. intros (n & y & s1 & Hn & Hr) HN. exists n, y, s1. split; [lia|done]. Qed.

Lemma loop_lfault {S A} (body : S -> M (S + A)) N x s :
  lfault body N x s -> N <= 1099511627776 -> loop body x s = Fault.
Proof.
  intros (n & y & s1 & Hn & Hg & Hf) HN. unfold loop, bind.
  erewrite loop_pos_fault; [done|exact Hg|exact Hf|unfold LOOP_MAX; lia].
Qed.

(** Runs the commands of a function as far as the context allows: loads of
    known bytes and the tests on their values. *)
Ltac msimp :=
  repeat first
    [ match goal with
      | |- context [bind (load8 ?p) ?k ?s] =>
          erewrite (bind_ok (load8 p) k s) by (apply load8_ok; eassumption)
      end
    | progress (unfold ret, again, leave)
    | progress cbn beta iota match
    | match goal with
      | H : ?x <> ?y |- context [?x =? ?y] => rewrite (proj2 (Z.eqb_neq x y) H)
      | |- context [?x =? ?x] => rewrite (Z.eqb_refl x)
      end
    | progress simpl ].

(** A pointer into the object at [p], or the null pointer. *)
Definition ptr_at (p : Z) (o : option nat) : Z :=
  match o with Some i => p + Z.of_nat i | None => NULL end.

(** ** Concrete states

    Decision procedures for the predicates above, used to run the code on
    given memories. *)

(** The bytes of a string literal. *)
Definition bytes (s : string) : list Z :=
  map (fun a => Z.of_N (N_of_ascii a)) (list_ascii_of_string s).

(** A C string: the literal and its terminator. *)
Definition zstr (s : string) : list Z := bytes s ++ [0].

Definition memory (segs : list (Z * list Z)) : gmap Z Z :=
  foldl (fun m '(p, l) => write_bytes m p l) ∅ segs.

Definition boot (segs : list (Z * list Z)) : state := mkState (memory segs) 0 ∅.

Fixpoint bytes_atb (m : gmap Z Z) (p : Z) (l : list Z) : bool :=
  match l with
  | [] => true
  | x :: l' =>
      match m !! p with Some y => y =? x | None => false end && bytes_atb m (p + 1) l'
  end.

Lemma bytes_atb_spec m p l : bytes_atb m p l = true -> bytes_at m p l.
Proof.
  revert p. induction l as [|x l IH]; intros p; simpl; [done|].
  rewrite andb_true_iff. intros [H1 H2]. destruct (m !! p) as [y|] eqn:E; [|done].
  apply Z.eqb_eq in H1 as ->. split; [done|auto].
Qed.

Definition cstrb (m : gmap Z Z) (p : Z) (s : list Z) : bool :=
  bytes_atb m p (s ++ [0]) && forallb (fun c => (0 <? c) && (c <? 256)) s &&
  (0 <? p) && (p + (Z.of_nat (length s) + 1) <=? ADDR_MAX).

Lemma cstrb_spec m p s : cstrb m p s = true -> cstr m p s.
Proof.
  unfold cstrb. rewrite !andb_true_iff. intros [[[H1 H2] H3] H4].
  split; [by apply bytes_atb_spec|]. split; [|split; lia].
  apply Forall_forall. intros c Hc. rewrite forallb_forall in H2.
  apply list_elem_of_In, H2 in Hc. unfold is_char. lia.
Qed.

Definition mappedb (m : gmap Z Z) (p n : Z) : bool :=
  forallb (fun a => bool_decide (is_Some (m !! a))) (seqZ p n).

Lemma mappedb_spec m p n : mappedb m p n = true -> mapped m p n.
Proof.
  unfold mappedb. intros H a Ha. rewrite forallb_forall in H.
  assert (Hin : In a (seqZ p n)) by (apply list_elem_of_In, elem_of_seqZ; lia).
  by apply H, bool_decide_eq_true in Hin.
Qed.

Lemma mappedb_true m p n : mapped m p n -> mappedb m p n = true.
Proof.
  intros H. unfold mappedb. apply forallb_forall. intros a Ha.
  apply list_elem_of_In, elem_of_seqZ in Ha. apply bool_decide_eq_true, H. lia.
Qed.

Definition mem_wfb (m : gmap Z Z) : bool :=
  forallb (fun kv => (0 <=? kv.2) && (kv.2 <? 256)) (map_to_list m).

Lemma mem_wfb_spec m : mem_wfb m = true -> mem_wf m.
Proof.
  unfold mem_wfb. intros H a b Hb. rewrite forallb_forall in H.
  assert (Hin : In (a, b) (map_to_list m)) by by apply list_elem_of_In, elem_of_map_to_list.
  apply H in Hin. simpl in Hin. unfold is_byte. lia.
Qed.

(** Discharges such a predicate on a concrete memory. *)
Ltac ground :=
  first [ apply cstrb_spec | apply bytes_atb_spec | apply mappedb_spec
        | apply mem_wfb_spec ]; vm_compute; reflexivity.
