(* ===== verification/Cells.v ===== *)
(** * Arrays of words in memory

    [words_at m p ws]: the 32-bit words [ws] are stored from address [p] on,
    most significant byte first.  Shared by the components that keep
    pointers or counters in memory. *)

From S2P Require Import Prelude CMem.

Fixpoint words_at (m : gmap Z Z) (p : Z) (ws : list Z) : Prop :=
  match ws with
  | [] => True
  | w :: ws' => is_u32 w /\ bytes_at m p (word_bytes w) /\ words_at m (p + 4) ws'
  end.

Lemma words_at_app m p ws1 ws2 :
  words_at m p (ws1 ++ ws2) <->
  words_at m p ws1 /\ words_at m (p + 4 * Z.of_nat (length ws1)) ws2.
Proof.
  revert p. induction ws1 as [|w ws1 IH]; intros p.
  - simpl. replace (p + 4 * Z.of_nat 0) with p by lia. tauto.
  - simpl app. cbn [words_at length]. rewrite IH.
    replace (p + 4 + 4 * Z.of_nat (length ws1))
      with (p + 4 * Z.of_nat (S (length ws1))) by lia. tauto.
Qed.

Lemma words_at_u32 m p ws : words_at m p ws -> Forall is_u32 ws.
Proof.
  revert p. induction ws as [|w ws IH]; intros p H; [done|].
  destruct H as (? & _ & ?). constructor; eauto.
Qed.

Lemma words_at_lookup m p ws i w :
  words_at m p ws -> ws !! i = Some w ->
  is_u32 w /\ bytes_at m (p + 4 * Z.of_nat i) (word_bytes w).
Proof.
  revert p i. induction ws as [|w' ws IH]; intros p i H Hi; [done|].
  destruct H as (Hw & Hb & H). destruct i as [|i]; simpl in Hi.
  - simplify_eq. by replace (p + 4 * Z.of_nat 0) with p by lia.
  - replace (p + 4 * Z.of_nat (S i)) with (p + 4 + 4 * Z.of_nat i) by lia. eauto.
Qed.

Lemma words_at_intro m p ws :
  Forall is_u32 ws ->
  (forall i w, ws !! i = Some w -> bytes_at m (p + 4 * Z.of_nat i) (word_bytes w)) ->
  words_at m p ws.
Proof.
  revert p. induction ws as [|w ws IH]; intros p Hf H; [done|].
  apply Forall_cons in Hf as [Hw Hf]. split; [done|]. split.
  - specialize (H 0%nat w eq_refl). by replace (p + 4 * Z.of_nat 0) with p in H by lia.
  - apply IH; [done|]. intros i w' Hi. specialize (H (S i) w' Hi).
    by replace (p + 4 + 4 * Z.of_nat i) with (p + 4 * Z.of_nat (S i)) by lia.
Qed.

Lemma load32_bytes s p v :
  p mod 4 = 0 -> is_u32 v -> bytes_at (mem s) p (word_bytes v) -> load32 p s = Ok v s.
Proof. intros. erewrite load32_ok; [by rewrite word_bytes_value|done|done]. Qed.

Lemma words_load s p ws i w :
  words_at (mem s) p ws -> p mod 4 = 0 -> ws !! i = Some w ->
  load32 (p + 4 * Z.of_nat i) s = Ok w s.
Proof.
  intros H Hp Hi. destruct (words_at_lookup _ _ _ _ _ H Hi).
  apply load32_bytes; [|done..]. rewrite Z.mul_comm, Z.mod_add by lia. done.
Qed.

Lemma words_at_mapped m p ws :
  words_at m p ws -> mapped m p (4 * Z.of_nat (length ws)).
Proof.
  intros H a Ha. destruct (lookup_lt_is_Some_2 ws (Z.to_nat ((a - p) / 4))) as [w Hw].
  { Z.div_mod_to_equations. lia. }
  destruct (words_at_lookup _ _ _ _ _ H Hw) as [_ Hb].
  apply (bytes_at_mapped _ _ _ Hb). change (length (word_bytes w)) with 4%nat.
  Z.div_mod_to_equations. lia.
Qed.

Lemma mapped_words_at m p n :
  mem_wf m -> mapped m p (4 * Z.of_nat n) -> exists ws, length ws = n /\ words_at m p ws.
Proof.
  intros Hwf. revert p. induction n as [|n IH]; intros p Hm; [by exists []|].
  destruct (mapped_bytes_at m p 4) as (l & Hl & Hb). { intros a Ha. apply Hm. lia. }
  destruct (IH (p + 4)) as (ws & Hlen & Hws). { intros a Ha. apply Hm. lia. }
  destruct l as [|b0 [|b1 [|b2 [|b3 [|]]]]]; try done.
  pose proof (bytes_at_wf _ _ _ Hwf Hb). fcons.
  exists (word_of b0 b1 b2 b3 :: ws). split; [by simpl; f_equal|].
  split; [unfold word_of; zlia|]. split; [|done].
  replace (word_bytes (word_of b0 b1 b2 b3)) with [b0; b1; b2; b3]; [done|].
  unfold word_bytes, u8, word_of, is_byte in *. repeat f_equal; Z.div_mod_to_equations; lia.
Qed.

Lemma words_frame m p l q ws :
  words_at m q ws -> disj p (Z.of_nat (length l)) q (4 * Z.of_nat (length ws)) ->
  words_at (write_bytes m p l) q ws.
Proof.
  intros H Hd. apply words_at_intro; [by eapply words_at_u32|].
  intros i w Hi. destruct (words_at_lookup _ _ _ _ _ H Hi). apply write_bytes_frame; [done|].
  pose proof (lookup_lt_Some _ _ _ Hi). unfold disj in *.
  change (length (word_bytes w)) with 4%nat. lia.
Qed.

Lemma words_store m p ws i v :
  words_at m p ws -> (i < length ws)%nat -> is_u32 v ->
  words_at (write_bytes m (p + 4 * Z.of_nat i) (word_bytes v)) p (<[i := v]> ws).
Proof.
  intros H Hi Hv. apply words_at_intro.
  { apply Forall_insert; [by eapply words_at_u32|done]. }
  intros k w Hk. destruct (decide (k = i)) as [->|Hne].
  - rewrite list_lookup_insert_eq in Hk by done. simplify_eq. apply write_bytes_at.
  - rewrite list_lookup_insert_ne in Hk by done.
    destruct (words_at_lookup _ _ _ _ _ H Hk). apply write_bytes_frame; [done|].
    unfold disj. change (length (word_bytes w)) with 4%nat.
    change (length (word_bytes v)) with 4%nat. lia.
Qed.

Lemma words_at_eq m m' p ws :
  words_at m p ws ->
  (forall a, p <= a < p + 4 * Z.of_nat (length ws) -> m' !! a = m !! a) ->
  words_at m' p ws.
Proof.
  intros H He. apply words_at_intro; [by eapply words_at_u32|].
  intros i w Hi. destruct (words_at_lookup _ _ _ _ _ H Hi) as [_ Hb].
  pose proof (lookup_lt_Some _ _ _ Hi). apply bytes_at_intro. intros k x Hk.
  pose proof (lookup_lt_Some _ _ _ Hk) as Hk'. change (length (word_bytes w)) with 4%nat in Hk'.
  rewrite He by lia. by eapply bytes_at_lookup in Hk.
Qed.

(** Storing into a cell of an array: the state after [store32]. *)
Lemma words_store_ok s p ws i v :
  words_at (mem s) p ws -> p mod 4 = 0 -> (i < length ws)%nat ->
  store32 (p + 4 * Z.of_nat i) v s =
    Ok tt (set_mem s (write_bytes (mem s) (p + 4 * Z.of_nat i) (word_bytes v))).
Proof.
  intros H Hp Hi. apply store32_ok.
  - rewrite Z.mul_comm, Z.mod_add by lia. done.
  - eapply mapped_sub; [by eapply words_at_mapped|lia|lia].
Qed.

(** Decides [words_at] on a concrete memory. *)
Fixpoint words_atb (m : gmap Z Z) (p : Z) (ws : list Z) : bool :=
  match ws with
  | [] => true
  | w :: ws' => (0 <=? w) && (w <? 4294967296) && bytes_atb m p (word_bytes w) && words_atb m (p + 4) ws'
  end.

Lemma words_atb_spec m p ws : words_atb m p ws = true -> words_at m p ws.
Proof.
  revert p. induction ws as [|w ws IH]; intros p; cbn [words_atb words_at]; [done|].
  rewrite !andb_true_iff. intros [[[H1 H2] H3] H4].
  split; [zlia|]. split; [by apply bytes_atb_spec|auto].
Qed.

(** ** What a computation leaves alone *)

(** [m'] differs from [m] at most in the [n] bytes at [p]. *)
Definition only_in (m m' : gmap Z Z) (p n : Z) : Prop :=
  forall a, ~ (p <= a < p + n) -> m' !! a = m !! a.

Lemma only_in_refl m p n : only_in m m p n.
Proof. done. Qed.

Lemma only_in_trans m1 m2 m3 p n : only_in m1 m2 p n -> only_in m2 m3 p n -> only_in m1 m3 p n.
Proof. intros H1 H2 a Ha. by rewrite H2, H1. Qed.

Lemma only_in_write m p n q l :
  p <= q -> q + Z.of_nat (length l) <= p + n -> only_in m (write_bytes m q l) p n.
Proof. intros ?? a Ha. apply write_bytes_outside. lia. Qed.

Lemma only_in_weaken m m' p n q k :
  only_in m m' p n -> q <= p -> p + n <= q + k -> only_in m m' q k.
Proof. intros H ?? a Ha. apply H. lia. Qed.

Lemma only_in_words m m' p n q ws :
  only_in m m' p n -> disj p n q (4 * Z.of_nat (length ws)) ->
  words_at m q ws -> words_at m' q ws.
Proof. intros H Hd Hw. eapply words_at_eq; [done|]. intros a Ha. apply H. unfold disj in Hd. lia. Qed.

Lemma only_in_mapped m m' p n q k :
  only_in m m' p n -> disj p n q k -> mapped m q k -> mapped m' q k.
Proof. intros H Hd Hm a Ha. rewrite H; [by apply Hm|]. unfold disj in Hd. lia. Qed.

#[export] Hint Resolve only_in_refl only_in_trans : clib.
