(* ===== verification/CType.v ===== *)
(** * Character classification ([library/ctype], [include/ctype.h])

    Every classifier consults the [LC_CTYPE] entry of the locale table: when
    one is installed it asks locale.library, otherwise it applies the rules
    of the C locale.  Most of the library does not reach these functions,
    because [ctype.h] shadows them by macros that use the C locale only; the
    macros are the [m_] definitions. *)

From S2P Require Import Prelude.

(** The services of locale.library, which is not part of the repository: the
    classifiers it offers for a locale object, on a code between 0 and
    255. *)
Record Locale := {
  IsAlNum : Z -> Z;  IsAlpha : Z -> Z;  IsCntrl : Z -> Z;  IsDigit : Z -> Z;
  IsGraph : Z -> Z;  IsLower : Z -> Z;  IsPrint : Z -> Z;  IsPunct : Z -> Z;
  IsSpace : Z -> Z;  IsUpper : Z -> Z;  IsXDigit : Z -> Z;
  ConvToLower : Z -> Z;  ConvToUpper : Z -> Z;
}.

Definition EOF : Z := -1.
Definition UCHAR_MAX : Z := 255.

(** [c != EOF && ((0 <= c && c <= UCHAR_MAX) || ((c + 256) <= UCHAR_MAX))] *)
Definition ctype_arg_ok (c : Z) : bool :=
  negb (c =? EOF) && (((0 <=? c) && (c <=? UCHAR_MAX)) || (s32 (c + 256) <=? UCHAR_MAX)).

Definition between (lo c hi : Z) : bool := (lo <=? c) && (c <=? hi).

(** ** The macros of [ctype.h] *)
Module Macros.
Definition m_isspace (c : Z) : bool := (c =? 32) || (u32 (u32 c - 9) <? 5).
Definition m_isalpha (c : Z) : bool := u32 (Z.lor (u32 c) 32 - 97) <? 26.
Definition m_isdigit (c : Z) : bool := u32 (u32 c - 48) <? 10.
Definition m_islower (c : Z) : bool := u32 (u32 c - 97) <? 26.
Definition m_isupper (c : Z) : bool := u32 (u32 c - 65) <? 26.
Definition m_isprint (c : Z) : bool := u32 (u32 c - 32) <? 95.
Definition m_isgraph (c : Z) : bool := u32 (u32 c - 33) <? 94.
End Macros.
Export Macros.

(** ** The functions *)
Section CType.
(** [__clib4->__locale_table[LC_CTYPE]]: [None] is the null pointer. *)
Context (lc : option Locale).

Definition isalpha (c : Z) : Z :=
  match lc with
  | Some l => if ctype_arg_ok c then IsAlpha l (Z.land c 255) else 0
  | None => Z.b2z (between 97 c 122 || between 65 c 90)
  end.

Definition isdigit_r (c : Z) : Z :=
  match lc with
  | Some l => if ctype_arg_ok c then IsDigit l (Z.land c 255) else 0
  | None => Z.b2z (between 48 c 57)
  end.
Definition isdigit (c : Z) : Z := isdigit_r c.

(** [isalnum.c] undefines the macros: it calls the functions. *)
Definition isalnum (c : Z) : Z :=
  match lc with
  | Some l => if ctype_arg_ok c then IsAlNum l (Z.land c 255) else 0
  | None => Z.b2z (negb (isalpha c =? 0) || negb (isdigit c =? 0))
  end.

Definition iscntrl (c : Z) : Z :=
  match lc with
  | Some l => if ctype_arg_ok c then IsCntrl l (Z.land c 255) else 0
  | None => Z.b2z (((0 <=? c) && (c <? 32)) || (c =? 127))
  end.

Definition isgraph (c : Z) : Z :=
  match lc with
  | Some l => if ctype_arg_ok c then IsGraph l (Z.land c 255) else 0
  | None => Z.b2z ((32 <? c) && (c <? 127))
  end.

Definition islower (c : Z) : Z :=
  match lc with
  | Some l => if ctype_arg_ok c then IsLower l (Z.land c 255) else 0
  | None => Z.b2z (between 97 c 122)
  end.

Definition isprint (c : Z) : Z :=
  match lc with
  | Some l => if ctype_arg_ok c then IsPrint l (Z.land c 255) else 0
  | None => Z.b2z (between 32 c 126)
  end.

Definition ispunct (c : Z) : Z :=
  match lc with
  | Some l => if ctype_arg_ok c then IsPunct l (Z.land c 255) else 0
  | None => Z.b2z (between 33 c 47 || between 58 c 64 ||
                   between 91 c 96 || between 123 c 126)
  end.

Definition isspace_r (c : Z) : Z :=
  match lc with
  | Some l => if ctype_arg_ok c then IsSpace l (Z.land c 255) else 0
  | None => Z.b2z ((c =? 9) || (c =? 13) || (c =? 10) ||
                   (c =? 11) || (c =? 12) || (c =? 32))
  end.
Definition isspace (c : Z) : Z := isspace_r c.

Definition isupper (c : Z) : Z :=
  match lc with
  | Some l => if ctype_arg_ok c then IsUpper l (Z.land c 255) else 0
  | None => Z.b2z (between 65 c 90)
  end.

Definition isxdigit (c : Z) : Z :=
  match lc with
  | Some l => if ctype_arg_ok c then IsXDigit l (Z.land c 255) else 0
  | None => Z.b2z (between 48 c 57 || between 97 c 102 || between 65 c 70)
  end.

Definition tolower (c : Z) : Z :=
  match lc with
  | Some l => if ctype_arg_ok c then ConvToLower l (Z.land c 255) else c
  | None => if between 65 c 90 then c + 32 else c
  end.

Definition toupper (c : Z) : Z :=
  match lc with
  | Some l => if ctype_arg_ok c then ConvToUpper l (Z.land c 255) else c
  | None => if between 97 c 122 then c - 32 else c
  end.
End CType.

Definition isblank (c : Z) : Z := Z.b2z ((c =? 9) || (c =? 32)).
Definition isascii (c : Z) : Z := Z.b2z ((0 <=? c) && (c <? 128)).
Definition toascii (c : Z) : Z := Z.land c 127.

(** ** Proofs *)

Ltac ctype := unfold isalnum, isalpha, isdigit, isdigit_r, iscntrl, isgraph,
  islower, isprint, ispunct, isspace, isspace_r, isupper, isxdigit, tolower,
  toupper, isblank, isascii, between, m_isspace, m_isdigit, m_islower,
  m_isupper, m_isprint, m_isgraph in *.

(** An unsigned comparison below a small bound is a two-sided one. *)
Lemma u32_window lo n c :
  -2147483648 <= c < 2147483648 -> 0 <= lo -> 0 <= n -> lo + n <= 2147483648 ->
  (u32 (u32 c - lo) <? n) = (lo <=? c) && (c <? lo + n).
Proof.
  intros Hc Hlo Hn Hb. unfold u32. rewrite Zminus_mod_idemp_l.
  destruct (Z_lt_dec c lo).
  - replace ((c - lo) mod 4294967296) with (c - lo + 4294967296).
    + zb; simpl; lia.
    + rewrite <- (Z_mod_plus_full (c - lo) 1), Z.mod_small; lia.
  - rewrite Z.mod_small by lia. zb; simpl; lia.
Qed.

(** A truth value tested against zero. *)
Lemma b2z_nonzero b : negb (Z.b2z b =? 0) = b.
Proof. by destruct b. Qed.

(** Setting bit 5 moves an upper-case letter onto its lower-case one. *)
Lemma lor_32 x : Z.lor x 32 = if Z.testbit x 5 then x else x + 32.
Proof.
  destruct (Z.testbit x 5) eqn:E.
  - apply Z.bits_inj'. intros n Hn. rewrite Z.lor_spec.
    change 32 with (2 ^ 5). destruct (Z.eq_dec n 5) as [->|Hne].
    + by rewrite E.
    + rewrite Z.pow2_bits_false by lia. apply orb_false_r.
  - rewrite <- Z.lxor_lor.
    + rewrite Z.add_nocarry_lxor; [done|]. apply Z.bits_inj'. intros n Hn.
      rewrite Z.land_spec, Z.bits_0. change 32 with (2 ^ 5).
      destruct (Z.eq_dec n 5) as [->|Hne]; [by rewrite E|].
      rewrite Z.pow2_bits_false by lia. apply andb_false_r.
    + apply Z.bits_inj'. intros n Hn.
      rewrite Z.land_spec, Z.bits_0. change 32 with (2 ^ 5).
      destruct (Z.eq_dec n 5) as [->|Hne]; [by rewrite E|].
      rewrite Z.pow2_bits_false by lia. apply andb_false_r.
Qed.

Lemma m_isalpha_spec c :
  -2147483648 <= c < 2147483648 ->
  m_isalpha c = between 97 c 122 || between 65 c 90.
Proof.
  intros Hc. unfold m_isalpha.
  destruct (decide (0 <= c < 256)) as [Hb|Hb].
  { assert (H : forall b, is_byte b ->
      Bool.eqb (u32 (Z.lor (u32 b) 32 - 97) <? 26)
               (between 97 b 122 || between 65 b 90) = true).
    { apply forall_bytes. by vm_compute. }
    by apply Bool.eqb_prop, H. }
  pose proof (u32_range c) as Hr.
  assert (Hbig : 256 <= u32 c).
  { unfold u32. destruct (Z_lt_dec c 0).
    - rewrite <- (Z_mod_plus_full c 1), Z.mod_small; lia.
    - rewrite Z.mod_small; lia. }
  assert (Hlo : u32 c <= Z.lor (u32 c) 32).
  { rewrite lor_32. destruct (Z.testbit (u32 c) 5); lia. }
  assert (Hhi : Z.lor (u32 c) 32 < 4294967296).
  { apply Z.log2_lt_cancel. rewrite Z.log2_lor by lia.
    apply Z.max_lub_lt; [|done]. change (Z.log2 4294967296) with 32.
    apply Z.log2_lt_pow2; lia. }
  rewrite u32_id by lia. unfold between. zb; simpl; lia.
Qed.

(** The macros that shadow the classifiers in [ctype.h] agree with the
    functions in the C locale on every [int] argument. *)
Lemma ctype_macros_agree c :
  -2147483648 <= c < 2147483648 ->
  isalpha None c = Z.b2z (m_isalpha c) /\
  isdigit None c = Z.b2z (m_isdigit c) /\
  islower None c = Z.b2z (m_islower c) /\
  isupper None c = Z.b2z (m_isupper c) /\
  isprint None c = Z.b2z (m_isprint c) /\
  isgraph None c = Z.b2z (m_isgraph c) /\
  isspace None c = Z.b2z (m_isspace c).
Proof.
  intros Hc. rewrite m_isalpha_spec by done. ctype.
  rewrite !u32_window by lia. repeat split; f_equal; lia.
Qed.

(** In the C locale the classes fit together on every [int]: letters are
    the disjoint union of the cases, graphic characters that of letters,
    digits and punctuation, printing characters add the blank, and control
    characters are exactly the other ASCII codes. *)
Lemma ctype_partition c :
  isalpha None c = islower None c + isupper None c /\
  isalnum None c = isalpha None c + isdigit None c /\
  isgraph None c = isalnum None c + ispunct None c /\
  isprint None c = isgraph None c + Z.b2z (c =? 32) /\
  isascii c = isprint None c + iscntrl None c.
Proof.
  ctype. cbv beta iota. rewrite !b2z_nonzero. repeat split; blia.
Qed.

(** The arguments a locale is asked about. *)
Definition ctype_defined (c : Z) : Prop := c <> EOF /\ -2147483648 <= c < 256.

Lemma ctype_arg_ok_spec c :
  -2147483648 <= c < 2147483648 - 256 -> ctype_arg_ok c = bool_decide (ctype_defined c).
Proof.
  intros Hc. unfold ctype_arg_ok, ctype_defined, EOF, UCHAR_MAX. rewrite s32_id by lia.
  destruct (bool_decide_reflect (c <> -1 /\ -2147483648 <= c < 256)); zb; simpl; lia.
Qed.

(** Splits on the letter ranges before the tests that depend on them. *)
Ltac letters := ctype;
  repeat match goal with |- context [Z.leb ?lo ?x] =>
    is_var x; destruct (Z.leb_spec lo x) | |- context [Z.leb ?x ?hi] => is_var x; destruct (Z.leb_spec x hi) end;
  cbn [andb orb].

(** Case conversion.  In the C locale [toupper] and [tolower] undo each other
    on letters and change nothing else, and their results are in the case they
    name.  With a locale installed they, like the classifiers, ask it about the
    low byte of every argument up to 255 but [EOF], negative ones included,
    and return any other argument as it is. *)
Theorem ctype_case c l :
  -2147483648 <= c < 2147483648 - 256 ->
  toupper None c = (if m_islower c then c - 32 else c) /\
  tolower None c = (if m_isupper c then c + 32 else c) /\
  (isalpha None c = 1 -> islower None (tolower None c) = 1 /\ isupper None (toupper None c) = 1) /\
  tolower None (toupper None c) = tolower None c /\ toupper None (tolower None c) = toupper None c /\
  (ctype_defined c ->
     toupper (Some l) c = ConvToUpper l (u8 c) /\ tolower (Some l) c = ConvToLower l (u8 c) /\
     isalpha (Some l) c = IsAlpha l (u8 c)) /\
  (~ ctype_defined c ->
     toupper (Some l) c = c /\ tolower (Some l) c = c /\ isalpha (Some l) c = 0).
Proof.
  intros Hc. assert (Hl : Z.land c 255 = u8 c) by (apply (Z.land_ones c 8); lia).
  split; [|split; [|split; [|split; [|split]]]].
  - ctype. rewrite u32_window by lia. zb; simpl; lia.
  - ctype. rewrite u32_window by lia. zb; simpl; lia.
  - letters; zb; simpl; lia.
  - letters; zb; simpl; lia.
  - letters; zb; simpl; lia.
  - ctype. rewrite ctype_arg_ok_spec, Hl by done. split; intros Hd.
    + by rewrite bool_decide_true.
    + by rewrite bool_decide_false.
Qed.

(** A locale whose letters are those of ASCII. *)
Definition sample_locale : Locale := {|
  IsAlNum := isalnum None; IsAlpha := isalpha None; IsCntrl := iscntrl None;
  IsDigit := isdigit None; IsGraph := isgraph None; IsLower := islower None;
  IsPrint := isprint None; IsPunct := ispunct None; IsSpace := isspace None;
  IsUpper := isupper None; IsXDigit := isxdigit None;
  ConvToLower := tolower None; ConvToUpper := toupper None
|}.

Lemma ctype_case_witness :
  toupper None 113 = 81 /\ islower None (tolower None 113) = 1 /\
  toupper (Some sample_locale) (113 - 256) = 81 /\ toupper (Some sample_locale) EOF = EOF.
Proof.
  destruct (ctype_case 113 sample_locale ltac:(lia)) as (H1 & _ & H3 & _).
  destruct (ctype_case (113 - 256) sample_locale ltac:(lia)) as (_ & _ & _ & _ & _ & H4 & _).
  destruct (ctype_case EOF sample_locale ltac:(unfold EOF; lia)) as (_ & _ & _ & _ & _ & _ & H5).
  split; [exact H1|]. split; [by apply H3|]. split; [|by apply H5; unfold ctype_defined; intuition].
  apply H4. unfold ctype_defined, EOF. lia.
Defined.

(** In the C locale the macros of [ctype.h] agree with the functions on every
    [int], and the classes fit together: letters split into the two cases,
    graphic characters into alphanumerics and punctuation, ASCII into printing
    and control characters. *)
Theorem ctype_consistent :
  (forall c, -2147483648 <= c < 2147483648 ->
  isalpha None c = Z.b2z (m_isalpha c) /\
  isdigit None c = Z.b2z (m_isdigit c) /\
  islower None c = Z.b2z (m_islower c) /\
  isupper None c = Z.b2z (m_isupper c) /\
  isprint None c = Z.b2z (m_isprint c) /\
  isgraph None c = Z.b2z (m_isgraph c) /\
  isspace None c = Z.b2z (m_isspace c)) /\
  (forall c, isalpha None c = islower None c + isupper None c /\
  isalnum None c = isalpha None c + isdigit None c /\
  isgraph None c = isalnum None c + ispunct None c /\
  isprint None c = isgraph None c + Z.b2z (c =? 32) /\
  isascii c = isprint None c + iscntrl None c).
Proof.
  split; [exact ctype_macros_agree|]. exact ctype_partition.
Qed.

Lemma ctype_consistent_witness :
  (isalpha None 81 = Z.b2z (m_isalpha 81) /\ isdigit None 81 = Z.b2z (m_isdigit 81) /\
  islower None 81 = Z.b2z (m_islower 81) /\ isupper None 81 = Z.b2z (m_isupper 81) /\
  isprint None 81 = Z.b2z (m_isprint 81) /\ isgraph None 81 = Z.b2z (m_isgraph 81) /\
  isspace None 81 = Z.b2z (m_isspace 81)).
Proof.
  apply ((proj1 ctype_consistent) 81). lia.
Defined.
