(* ===== verification/Words.v ===== *)
(** * Four bytes at a time

    The string functions look for a zero byte, or for a given byte, by
    arithmetic on 32-bit words.  This file takes a word apart into bytes: the
    bit operations act bytewise, an addition propagates carries, and what is
    left of each trick is a statement about single bytes, which is decided by
    evaluation. *)

From S2P Require Import Prelude CMem.

(** [~x] and [__builtin_clz] on 32 bits. *)
Definition not32 (x : Z) : Z := u32 (Z.lnot x).
Definition clz32 (x : Z) : Z := if x =? 0 then 32 else 31 - Z.log2 x.

(** ** Bytewise operations *)

Lemma testbit_byte h l n :
  is_byte l -> 0 <= n ->
  Z.testbit (h * 256 + l) n = if n <? 8 then Z.testbit l n else Z.testbit h (n - 8).
Proof.
  intros Hl Hn. destruct (Z.ltb_spec n 8).
  - rewrite <- (Z.mod_pow2_bits_low _ 8) by lia.
    replace ((h * 256 + l) mod 2 ^ 8) with l; [done|].
    change (2 ^ 8) with 256. rewrite Z.add_comm, Z_mod_plus_full, Z.mod_small; zlia.
  - replace h with ((h * 256 + l) / 2 ^ 8) at 2.
    + rewrite Z.div_pow2_bits by lia. f_equal. lia.
    + change (2 ^ 8) with 256. rewrite Z.add_comm, Z.div_add, Z.div_small; zlia.
Qed.

Section Bytewise.
(** A binary bit operation, given by its action on bits, that keeps 0. *)
Context (op : Z -> Z -> Z) (f : bool -> bool -> bool).
Context (op_spec : forall a b n, 0 <= n -> Z.testbit (op a b) n = f (Z.testbit a n) (Z.testbit b n)).
Context (op_byte : forall a b, is_byte a -> is_byte b -> is_byte (op a b)).

Lemma op_split h1 l1 h2 l2 :
  is_byte l1 -> is_byte l2 ->
  op (h1 * 256 + l1) (h2 * 256 + l2) = op h1 h2 * 256 + op l1 l2.
Proof.
  intros H1 H2. apply Z.bits_inj'. intros n Hn.
  rewrite op_spec, !testbit_byte by eauto.
  destruct (Z.ltb_spec n 8); by rewrite op_spec by lia.
Qed.

Lemma op_word a0 a1 a2 a3 b0 b1 b2 b3 :
  is_byte a0 -> is_byte a1 -> is_byte a2 -> is_byte a3 ->
  is_byte b0 -> is_byte b1 -> is_byte b2 -> is_byte b3 ->
  op (word_of a0 a1 a2 a3) (word_of b0 b1 b2 b3) =
  word_of (op a0 b0) (op a1 b1) (op a2 b2) (op a3 b3).
Proof.
  intros. unfold word_of.
  replace (a0 * 16777216 + a1 * 65536 + a2 * 256 + a3)
    with (((a0 * 256 + a1) * 256 + a2) * 256 + a3) by lia.
  replace (b0 * 16777216 + b1 * 65536 + b2 * 256 + b3)
    with (((b0 * 256 + b1) * 256 + b2) * 256 + b3) by lia.
  rewrite !op_split by done. lia.
Qed.
End Bytewise.

Lemma bits_is_byte a : is_byte a <-> 0 <= a /\ forall n, 8 <= n -> Z.testbit a n = false.
Proof.
  split.
  - intros Ha. split; [zlia|]. intros n Hn.
    rewrite <- (Z.mod_small a (2 ^ 8)) by (change (2 ^ 8) with 256; zlia).
    apply Z.mod_pow2_bits_high. lia.
  - intros [H0 H]. destruct (decide (a < 256)); [zlia|].
    assert (Z.testbit a (Z.log2 a) = true) as Hb by (apply Z.bit_log2; lia).
    rewrite H in Hb; [done|]. change 8 with (Z.log2 256). apply Z.log2_le_mono. lia.
Qed.

Lemma land_byte a b : is_byte a -> is_byte b -> is_byte (Z.land a b).
Proof.
  rewrite !bits_is_byte. intros [? Ha] [? Hb]. split; [by apply Z.land_nonneg; left|].
  intros n Hn. by rewrite Z.land_spec, Ha.
Qed.
Lemma lor_byte a b : is_byte a -> is_byte b -> is_byte (Z.lor a b).
Proof.
  rewrite !bits_is_byte. intros [? Ha] [? Hb]. split; [by apply Z.lor_nonneg|].
  intros n Hn. by rewrite Z.lor_spec, Ha, Hb.
Qed.
Lemma lxor_byte a b : is_byte a -> is_byte b -> is_byte (Z.lxor a b).
Proof.
  rewrite !bits_is_byte. intros [? Ha] [? Hb]. split; [by apply Z.lxor_nonneg|].
  intros n Hn. by rewrite Z.lxor_spec, Ha, Hb.
Qed.
#[export] Hint Resolve land_byte lor_byte lxor_byte : clib.

Section WordOps.
Context (a0 a1 a2 a3 b0 b1 b2 b3 : Z).
Context (Ha0 : is_byte a0) (Ha1 : is_byte a1) (Ha2 : is_byte a2) (Ha3 : is_byte a3).
Context (Hb0 : is_byte b0) (Hb1 : is_byte b1) (Hb2 : is_byte b2) (Hb3 : is_byte b3).

Lemma land_word :
  Z.land (word_of a0 a1 a2 a3) (word_of b0 b1 b2 b3) =
  word_of (Z.land a0 b0) (Z.land a1 b1) (Z.land a2 b2) (Z.land a3 b3).
Proof. apply (op_word Z.land andb); [intros; apply Z.land_spec|auto with clib..]. Qed.

Lemma lor_word :
  Z.lor (word_of a0 a1 a2 a3) (word_of b0 b1 b2 b3) =
  word_of (Z.lor a0 b0) (Z.lor a1 b1) (Z.lor a2 b2) (Z.lor a3 b3).
Proof. apply (op_word Z.lor orb); [intros; apply Z.lor_spec|auto with clib..]. Qed.

Lemma lxor_word :
  Z.lxor (word_of a0 a1 a2 a3) (word_of b0 b1 b2 b3) =
  word_of (Z.lxor a0 b0) (Z.lxor a1 b1) (Z.lxor a2 b2) (Z.lxor a3 b3).
Proof. apply (op_word Z.lxor xorb); [intros; apply Z.lxor_spec|auto with clib..]. Qed.

Lemma word_of_range : 0 <= word_of a0 a1 a2 a3 < 4294967296.
Proof. unfold word_of. zlia. Qed.

Lemma not32_word :
  not32 (word_of a0 a1 a2 a3) = word_of (255 - a0) (255 - a1) (255 - a2) (255 - a3).
Proof.
  unfold not32, u32, Z.lnot, Z.pred. pose proof word_of_range.
  rewrite <- (Z_mod_plus_full _ 1), Z.mod_small; unfold word_of in *; zlia.
Qed.

(** Byte sums with the carries between them. *)
Lemma add_word :
  let c3 := (a3 + b3) / 256 in
  let c2 := (a2 + b2 + c3) / 256 in
  let c1 := (a1 + b1 + c2) / 256 in
  u32 (word_of a0 a1 a2 a3 + word_of b0 b1 b2 b3) =
  word_of (u8 (a0 + b0 + c1)) (u8 (a1 + b1 + c2)) (u8 (a2 + b2 + c3)) (u8 (a3 + b3)).
Proof.
  intros c3 c2 c1. unfold u32, u8, word_of, c1, c2, c3.
  clear c1 c2 c3. unfold is_byte in *. Z.div_mod_to_equations. lia.
Qed.

Lemma word_of_zero :
  word_of a0 a1 a2 a3 = 0 <-> a0 = 0 /\ a1 = 0 /\ a2 = 0 /\ a3 = 0.
Proof. unfold word_of. zlia. Qed.

Lemma word_of_inj :
  word_of a0 a1 a2 a3 = word_of b0 b1 b2 b3 ->
  a0 = b0 /\ a1 = b1 /\ a2 = b2 /\ a3 = b3.
Proof. unfold word_of. zlia. Qed.
End WordOps.

(** ** Is there a zero byte?

    [(x + 0xFEFEFEFF) & ~(x | 0x7F7F7F7F)], the test of [strlen]. *)
Definition zero_test (x : Z) : Z :=
  Z.land (u32 (x + 0xFEFEFEFF)) (not32 (Z.lor x 0x7F7F7F7F)).

(** [(x - 0x01010101) & ~x & 0x80808080], the test of [memchr], [memccpy],
    [stpncpy]. *)
Definition detect_null (x : Z) : Z :=
  Z.land (Z.land (u32 (x - 0x01010101)) (not32 x)) 0x80808080.

(** [~(((x & m) + m) | x | m)] with [m = 0x7F7F7F7F]: 0x80 in each zero
    byte, 0 in the others. *)
Definition zero_mask (x : Z) : Z :=
  not32 (Z.lor (Z.lor (u32 (Z.land x 0x7F7F7F7F + 0x7F7F7F7F)) x) 0x7F7F7F7F).

(** [((x + m) ^ ~x) & ~m] with [m = 0x7EFEFEFF], the test of the GNU
    [strchr]. *)
Definition hole_test (x : Z) : Z :=
  Z.land (Z.lxor (u32 (x + 0x7EFEFEFF)) (not32 x)) (not32 0x7EFEFEFF).

Definition no_zero (b0 b1 b2 b3 : Z) : Prop :=
  b0 <> 0 /\ b1 <> 0 /\ b2 <> 0 /\ b3 <> 0.

(** What one byte contributes to [zero_test], given a carry of 1 from below:
    the bit is set exactly for a zero byte, and any other byte carries on. *)
Lemma zero_test_byte b :
  is_byte b ->
  Z.land (u8 (b + 255)) (255 - Z.lor b 127) = (if b =? 0 then 128 else 0) /\
  (b + 255) / 256 = if b =? 0 then 0 else 1.
Proof.
  intros Hb.
  assert (H : forall b, is_byte b ->
    (Z.land (u8 (b + 255)) (255 - Z.lor b 127) =? (if b =? 0 then 128 else 0)) &&
    ((b + 255) / 256 =? if b =? 0 then 0 else 1) = true).
  { apply forall_bytes. by vm_compute. }
  specialize (H b Hb). apply andb_true_iff in H as [H1 H2].
  split; by apply Z.eqb_eq.
Qed.

Lemma u8_byte x : is_byte (u8 x).
Proof. apply u8_range. Qed.
Lemma comp_byte b : is_byte b -> is_byte (255 - b).
Proof. zlia. Qed.
#[export] Hint Resolve u8_byte comp_byte : clib.
#[export] Hint Extern 1 (is_byte _) => (unfold is_byte; lia) : clib.

Ltac words := rewrite ?lor_word, ?lxor_word, ?not32_word, ?land_word, ?add_word
  by eauto 6 with clib.

(** The word test is zero exactly when no byte is. *)
Lemma zero_test_spec b0 b1 b2 b3 :
  is_byte b0 -> is_byte b1 -> is_byte b2 -> is_byte b3 ->
  zero_test (word_of b0 b1 b2 b3) = 0 <-> no_zero b0 b1 b2 b3.
Proof.
  intros H0 H1 H2 H3. unfold zero_test, no_zero.
  change 0xFEFEFEFF with (word_of 254 254 254 255).
  change 0x7F7F7F7F with (word_of 127 127 127 127).
  words. cbv zeta. words. rewrite word_of_zero by eauto 6 with clib.
  destruct (zero_test_byte b3 H3) as [T3 C3]. rewrite T3, C3.
  destruct (Z.eqb_spec b3 0); [lia|].
  replace (b2 + 254 + 1) with (b2 + 255) by lia.
  destruct (zero_test_byte b2 H2) as [T2 C2]. rewrite T2, C2.
  destruct (Z.eqb_spec b2 0); [lia|].
  replace (b1 + 254 + 1) with (b1 + 255) by lia.
  destruct (zero_test_byte b1 H1) as [T1 C1]. rewrite T1, C1.
  destruct (Z.eqb_spec b1 0); [lia|].
  replace (b0 + 254 + 1) with (b0 + 255) by lia.
  destruct (zero_test_byte b0 H0) as [T0 _]. rewrite T0.
  destruct (Z.eqb_spec b0 0); lia.
Qed.

Lemma detect_null_zero_test b0 b1 b2 b3 :
  is_byte b0 -> is_byte b1 -> is_byte b2 -> is_byte b3 ->
  detect_null (word_of b0 b1 b2 b3) = zero_test (word_of b0 b1 b2 b3).
Proof.
  intros H0 H1 H2 H3. unfold detect_null, zero_test.
  replace (u32 (word_of b0 b1 b2 b3 - 0x01010101))
    with (u32 (word_of b0 b1 b2 b3 + 0xFEFEFEFF)).
  2:{ unfold u32. replace (word_of b0 b1 b2 b3 + 0xFEFEFEFF)
        with (word_of b0 b1 b2 b3 - 0x01010101 + 1 * 4294967296) by lia.
      by rewrite Z_mod_plus_full. }
  rewrite <- Z.land_assoc. f_equal.
  change 0x80808080 with (word_of 128 128 128 128).
  change 0x7F7F7F7F with (word_of 127 127 127 127).
  words.
  assert (H : forall b, is_byte b -> Z.land (255 - b) 128 = 255 - Z.lor b 127).
  { intros b Hb. apply Z.eqb_eq. revert b Hb. apply forall_bytes. by vm_compute. }
  by rewrite !H.
Qed.

Lemma detect_null_spec b0 b1 b2 b3 :
  is_byte b0 -> is_byte b1 -> is_byte b2 -> is_byte b3 ->
  detect_null (word_of b0 b1 b2 b3) = 0 <-> no_zero b0 b1 b2 b3.
Proof. intros. rewrite detect_null_zero_test by done. by apply zero_test_spec. Qed.

Lemma zero_mask_spec b0 b1 b2 b3 :
  is_byte b0 -> is_byte b1 -> is_byte b2 -> is_byte b3 ->
  let z b := if b =? 0 then 128 else 0 in
  zero_mask (word_of b0 b1 b2 b3) = word_of (z b0) (z b1) (z b2) (z b3).
Proof.
  intros H0 H1 H2 H3 z. unfold zero_mask.
  change 0x7F7F7F7F with (word_of 127 127 127 127).
  assert (H : forall b, is_byte b ->
    ((Z.land b 127 + 127) / 256 =? 0) &&
    (255 - Z.lor (Z.lor (u8 (Z.land b 127 + 127)) b) 127 =? z b) = true).
  { apply forall_bytes. by vm_compute. }
  assert (Hc : forall b, is_byte b -> (Z.land b 127 + 127) / 256 = 0).
  { intros b Hb. apply Z.eqb_eq. by apply H, andb_true_iff in Hb as [? _]. }
  assert (Hz : forall b, is_byte b ->
    255 - Z.lor (Z.lor (u8 (Z.land b 127 + 127)) b) 127 = z b).
  { intros b Hb. apply Z.eqb_eq. by apply H, andb_true_iff in Hb as [_ ?]. }
  words. cbv zeta. rewrite !Hc, !Z.add_0_r, !Hc, !Z.add_0_r, !Hc, !Z.add_0_r by done.
  words. by rewrite !Hz.
Qed.

(** [clz] of the mask counts the bytes before the first zero one. *)
Definition first_zero (b0 b1 b2 b3 : Z) : Z :=
  if b0 =? 0 then 0 else if b1 =? 0 then 1 else if b2 =? 0 then 2 else
  if b3 =? 0 then 3 else 4.

Lemma clz_zero_mask b0 b1 b2 b3 :
  is_byte b0 -> is_byte b1 -> is_byte b2 -> is_byte b3 ->
  clz32 (zero_mask (word_of b0 b1 b2 b3)) / 8 = first_zero b0 b1 b2 b3.
Proof.
  intros. rewrite zero_mask_spec by done. unfold first_zero.
  destruct (b0 =? 0), (b1 =? 0), (b2 =? 0), (b3 =? 0); by vm_compute.
Qed.

(** The GNU test has false alarms but never misses a zero byte.  In each
    byte the low test bit tells whether a carry came in from below; the top
    test bit of the leading byte tells whether that byte is zero. *)
Lemma hole_low b c :
  is_byte b -> c = 0 \/ c = 1 ->
  Z.land (Z.lxor (u8 (b + 254 + c)) (255 - b)) 1 = 1 - c.
Proof.
  intros Hb [-> | ->]; apply Z.eqb_eq; revert b Hb; apply forall_bytes; by vm_compute.
Qed.

Lemma hole_top c : c = 0 \/ c = 1 ->
  Z.land (Z.lxor (u8 (0 + 126 + c)) (255 - 0)) 129 <> 0.
Proof. intros [-> | ->]; by vm_compute. Qed.

Lemma hole_top_carry b :
  is_byte b -> Z.land (Z.lxor (u8 (b + 126 + 0)) (255 - b)) 129 <> 0.
Proof.
  intros Hb. apply Z.eqb_neq, negb_true_iff. revert b Hb.
  apply forall_bytes. by vm_compute.
Qed.

Lemma carry_01 b k c : is_byte b -> 0 <= k <= 255 -> c = 0 \/ c = 1 ->
  (b + k + c) / 256 = 0 \/ (b + k + c) / 256 = 1.
Proof.
  intros Hb Hk Hc. assert (0 <= (b + k + c) / 256 < 2); [|lia].
  split; [apply Z.div_pos; zlia|]. apply Z.div_lt_upper_bound; zlia.
Qed.

Lemma hole_test_spec b0 b1 b2 b3 :
  is_byte b0 -> is_byte b1 -> is_byte b2 -> is_byte b3 ->
  hole_test (word_of b0 b1 b2 b3) = 0 -> no_zero b0 b1 b2 b3.
Proof.
  intros H0 H1 H2 H3. unfold hole_test, no_zero.
  change 0x7EFEFEFF with (word_of 126 254 254 255).
  words. cbv zeta. words. rewrite word_of_zero by eauto 6 with clib.
  change (255 - 254) with 1. change (255 - 126) with 129.
  set (c3 := (b3 + 255) / 256). set (c2 := (b2 + 254 + c3) / 256).
  set (c1 := (b1 + 254 + c2) / 256).
  assert (K3 : c3 = 0 \/ c3 = 1).
  { unfold c3. rewrite <- (Z.add_0_r (b3 + 255)). apply carry_01; auto with lia. }
  assert (K2 : c2 = 0 \/ c2 = 1) by (apply carry_01; auto with lia).
  assert (K1 : c1 = 0 \/ c1 = 1) by (apply carry_01; auto with lia).
  rewrite !hole_low by done. intros (T0 & T1 & T2 & _).
  assert (E3 : c3 = 1) by lia. assert (E2 : c2 = 1) by lia.
  assert (E1 : c1 = 1).
  { destruct K1 as [K1|?]; [|done]. rewrite K1 in T0. by apply hole_top_carry in T0. }
  repeat split.
  - intros ->. by apply (hole_top c1 K1).
  - intros ->. unfold c1 in E1. rewrite E2 in E1. done.
  - intros ->. unfold c2 in E2. rewrite E3 in E2. done.
  - intros ->. done.
Qed.
