(* ===== verification/StrScan.v ===== *)
(** * Searching strings and buffers for a byte ([library/string])

    [strlen], [strnlen], [strchr] (the PowerPC routine behind it, and the
    GNU one kept beside it), [strchrnul], [strrchr], [memchr], [memrchr].
    Most of them read memory a word at a time. *)

From Stdlib Require Import String.
From S2P Require Import Prelude CMem Words.

(** ** The code *)

(** [(uint32) s & ~3] *)
Definition align4 (s : Z) : Z := Z.land s (not32 3).

Definition strlen_body : Z * Z -> M (Z * Z + Z * Z) := fun '(x, s32) =>
  if zero_test x =? 0 then
    let* x' := load32 (s32 + 4) in again (x', s32 + 4)
  else leave (x, s32).

Definition strlen (str : Z) : M Z :=
  let s32 := align4 str in
  let* x :=
    if s32 =? str then load32 s32
    else
      let* w := load32 s32 in
      ret (Z.lor w (u32 (Z.shiftl 0xFFFFFFFF ((3 - Z.land str 3 + 1) * 8)))) in
  let* (x, s32) := loop strlen_body (x, s32) in
  ret (u32 (s32 + clz32 (zero_mask x) / 8 - str)).

Definition strnlen_body : Z * Z -> M (Z * Z + Z) := fun '(p, n) =>
  if n =? 0 then leave p
  else
    let* c := load8 p in
    if c =? 0 then leave p else again (p + 1, n - 1).

Definition strnlen (s maxlen : Z) : M Z :=
  if s =? NULL then set_errno EFAULT ;; ret 0
  else
    let* e := loop strnlen_body (s, maxlen) in
    ret (u32 (e - s)).

(** *** [__strchr_ppc] ([cpu/generic/strchr.S]) *)
Module Ppc.
Definition rotl32 (x n : Z) : Z :=
  Z.lor (u32 (Z.shiftl x n)) (Z.shiftr x (32 - n)).

(** Bits [mb] to [me] of a word, counted from the most significant. *)
Definition mask32 (mb me : Z) : Z := Z.ones (32 - mb) - Z.ones (31 - me).

Definition rlwimi (ra rs sh mb me : Z) : Z :=
  Z.lor (Z.land (rotl32 rs sh) (mask32 mb me))
        (Z.land ra (not32 (mask32 mb me))).
Definition rlwinm (rs sh mb me : Z) : Z := Z.land (rotl32 rs sh) (mask32 mb me).
Definition nor32 (a b : Z) : Z := not32 (Z.lor a b).
Definition orc32 (a b : Z) : Z := Z.lor a (not32 b).

Definition rFEFE : Z := 0xFEFEFEFF.
Definition r7F7F : Z := 0x7F7F7F7F.
End Ppc.
Import Ppc.

(** The registers that live across the loop: [rSTR], [rWORD], [rTMP3] and
    [rTMP4]; an iteration starts at [L(loopentry)]. *)
Definition strchr_ppc_body (rCHR : Z) : Z * Z * Z * Z -> M (Z * Z * Z * Z + Z) :=
  fun '(rSTR, rWORD, rTMP3, rTMP4) =>
  let rTMP5 := Z.land (u32 (rFEFE + rTMP3)) (nor32 r7F7F rTMP3) in
  let rTMP2 := nor32 (Z.lor r7F7F rTMP3) (u32 (Z.land r7F7F rTMP3 + r7F7F)) in
  if rTMP4 =? 0 then
    let* w := load32 (rSTR + 4) in
    if negb (rTMP5 =? 0) then
      leave (rSTR + Z.shiftr (clz32 rTMP2) 3)
    else
      again (rSTR + 4, w, Z.lxor rCHR w, Z.land (u32 (rFEFE + w)) (nor32 r7F7F w))
  else if rTMP5 =? 0 then leave NULL
  else
    let zWORD := nor32 (Z.lor r7F7F rWORD) (u32 (Z.land r7F7F rWORD + r7F7F)) in
    if rTMP2 <? zWORD then leave NULL
    else leave (rSTR + Z.shiftr (clz32 rTMP2) 3).

Definition strchr_ppc (s c : Z) : M Z :=
  let rCHR := u32 c in
  let rCHR := rlwimi rCHR rCHR 8 16 23 in
  let rCHR := rlwimi rCHR rCHR 16 0 15 in
  let rIGN := rlwinm s 3 27 28 in
  let rSTR := align4 s in
  let* w := load32 rSTR in
  let rMASK := Z.shiftr 0xFFFFFFFF rIGN in
  let rWORD := orc32 w rMASK in
  let rTMP4 := Z.land (u32 (rFEFE + rWORD)) (nor32 r7F7F rWORD) in
  let rTMP3 := orc32 (Z.lxor rCHR rWORD) rMASK in
  loop (strchr_ppc_body rCHR) (rSTR, rWORD, rTMP3, rTMP4).

Definition strchr (s c : Z) : M Z := strchr_ppc s c.
Definition index (s c : Z) : M Z := strchr s c.

(** *** The GNU routines *)

(** [c | (c << 8)], doubled by a further shift. *)
Definition charmask_of (c : Z) : Z :=
  let m := Z.lor c (Z.shiftl c 8) in
  let m := Z.lor m (u32 (Z.shiftl m 16)) in
  Z.lor m (u32 (Z.shiftl (u32 (Z.shiftl m 16)) 16)).

(** The byte-by-byte test of one word: [Some r] when [r] is to be returned. *)
Definition strchr_word (cp c : Z) : M (option Z) :=
  let* b := load8 cp in
  if b =? c then ret (Some cp) else if b =? 0 then ret (Some NULL) else
  let* b := load8 (cp + 1) in
  if b =? c then ret (Some (cp + 1)) else if b =? 0 then ret (Some NULL) else
  let* b := load8 (cp + 2) in
  if b =? c then ret (Some (cp + 2)) else if b =? 0 then ret (Some NULL) else
  let* b := load8 (cp + 3) in
  if b =? c then ret (Some (cp + 3)) else if b =? 0 then ret (Some NULL) else
  ret None.

Definition strchr_align_body (c : Z) : Z -> M (Z + (Z + Z)) := fun p =>
  if negb (Z.land p 3 =? 0) then
    let* b := load8 p in
    if b =? c then leave (inr p)
    else if b =? 0 then leave (inr NULL)
    else again (p + 1)
  else leave (inl p).

Definition strchr_long_body (c charmask : Z) : Z -> M (Z + Z) := fun p =>
  let* longword := load32 p in
  if negb (hole_test longword =? 0) ||
     negb (hole_test (Z.lxor longword charmask) =? 0) then
    let* r := strchr_word p c in
    match r with Some r => leave r | None => again (p + 4) end
  else again (p + 4).

Definition glibc_strchr (s c_in : Z) : M Z :=
  let c := u8 c_in in
  let* r := loop (strchr_align_body c) s in
  match r with
  | inr r => ret r
  | inl p => loop (strchr_long_body c (charmask_of c)) p
  end.

(** [magic_bits / 0xff * 0xfe << 1 >> 1 | 1] *)
Definition magic_bits : Z :=
  Z.lor (Z.shiftr (u32 (Z.shiftl (u32 (0xFFFFFFFF / 0xff * 0xfe)) 1)) 1) 1.

Definition strchrnul_word (cp c : Z) : M (option Z) :=
  let* b := load8 cp in
  if (b =? c) || (b =? 0) then ret (Some cp) else
  let* b := load8 (cp + 1) in
  if (b =? c) || (b =? 0) then ret (Some (cp + 1)) else
  let* b := load8 (cp + 2) in
  if (b =? c) || (b =? 0) then ret (Some (cp + 2)) else
  let* b := load8 (cp + 3) in
  if (b =? c) || (b =? 0) then ret (Some (cp + 3)) else
  ret None.

Definition strchrnul_align_body (c : Z) : Z -> M (Z + (Z + Z)) := fun p =>
  if negb (Z.land p 3 =? 0) then
    let* b := load8 p in
    if (b =? c) || (b =? 0) then leave (inr p) else again (p + 1)
  else leave (inl p).

Definition strchrnul_long_body (c charmask : Z) : Z -> M (Z + Z) := fun p =>
  let hole x := Z.land (Z.lxor (u32 (x + magic_bits)) (not32 x)) (not32 magic_bits) in
  let* longword := load32 p in
  if negb (hole longword =? 0) || negb (hole (Z.lxor longword charmask) =? 0) then
    let* r := strchrnul_word p c in
    match r with Some r => leave r | None => again (p + 4) end
  else again (p + 4).

Definition strchrnul (s c_in : Z) : M Z :=
  let c := u8 c_in in
  let* r := loop (strchrnul_align_body c) s in
  match r with
  | inr r => ret r
  | inl p => loop (strchrnul_long_body c (charmask_of c)) p
  end.

Definition strrchr_body (find_this : Z) : Z * Z -> M (Z * Z + Z) := fun '(us, result) =>
  let* us_c := load8 us in
  let result := if us_c =? find_this then us else result in
  if us_c =? 0 then leave result else again (us + 1, result).

Definition strrchr_inner (s c : Z) : M Z :=
  let find_this := Z.land c 0xff in
  loop (strrchr_body find_this) (s, NULL).

Definition strrchr (s c : Z) : M Z :=
  if s =? NULL then set_errno EFAULT ;; ret NULL else strrchr_inner s c.
Definition rindex (s c : Z) : M Z := strrchr s c.

Definition memchr_align_body (c : Z) : Z * Z -> M (Z * Z + (Z * Z + Z)) := fun '(p, n) =>
  if (0 <? n) && negb (p mod 4 =? 0) then
    let* b := load8 p in
    if b =? c then leave (inr p) else again (p + 1, n - 1)
  else leave (inl (p, n)).

Definition memchr_word_body (repeated_one repeated_c : Z) : Z * Z -> M (Z * Z + Z * Z) :=
  fun '(p, n) =>
  if 4 <=? n then
    let* w := load32 p in
    let longword1 := Z.lxor w repeated_c in
    if negb (Z.land (Z.land (u32 (longword1 - repeated_one)) (not32 longword1))
                    (u32 (Z.shiftl repeated_one 7)) =? 0)
    then leave (p, n)
    else again (p + 4, n - 4)
  else leave (p, n).

Definition memchr_tail_body (c : Z) : Z * Z -> M (Z * Z + Z) := fun '(p, n) =>
  if 0 <? n then
    let* b := load8 p in
    if b =? c then leave p else again (p + 1, n - 1)
  else leave NULL.

Definition memchr_inner (s c_in n : Z) : M Z :=
  let c := u8 c_in in
  let* r := loop (memchr_align_body c) (s, n) in
  match r with
  | inr r => ret r
  | inl (p, n) =>
      let repeated_one := 0x01010101 in
      let repeated_c := Z.lor c (Z.shiftl c 8) in
      let repeated_c := Z.lor repeated_c (u32 (Z.shiftl repeated_c 16)) in
      let* (p, n) := loop (memchr_word_body repeated_one repeated_c) (p, n) in
      loop (memchr_tail_body c) (p, n)
  end.

Definition memchr (ptr val len : Z) : M Z :=
  if (ptr =? NULL) || (len <=? 0) then set_errno EFAULT ;; ret NULL
  else memchr_inner ptr (u8 (Z.land val 255)) len.

Definition memrchr_body (c : Z) : Z * Z -> M (Z * Z + Z) := fun '(cp, n) =>
  let cp := cp - 1 in
  let* b := load8 cp in
  if b =? c then leave cp
  else let n := n - 1 in
       if negb (n =? 0) then again (cp, n) else leave NULL.

Definition memrchr (s c n : Z) : M Z :=
  if negb (n =? 0) then loop (memrchr_body (u8 c)) (s + n, n) else ret NULL.

(** ** Word-at-a-time reading

    The word loops read the aligned words that an object touches, so what
    they need is that those words are mapped; [word_readable m p n] says so
    of an object of [n] bytes at [p]. *)
Definition word_readable (m : gmap Z Z) (p n : Z) : Prop :=
  mem_wf m /\ mapped m (p - p mod 4) (p mod 4) /\ mapped m (p + n) (- (p + n) mod 4).

(** The bytes of those words: some before the object and some after. *)
Lemma word_view m p l :
  word_readable m p (Z.of_nat (length l)) -> bytes_at m p l -> 0 < p ->
  exists hd tl, Z.of_nat (length hd) = p mod 4 /\
    bytes_at m (p - p mod 4) (hd ++ l ++ tl) /\
    Forall is_byte (hd ++ l ++ tl) /\ (length (hd ++ l ++ tl) mod 4 = 0)%nat /\
    (length tl < 4)%nat.
Proof.
  intros (Hwf & Hh & Ht) Hb Hp.
  pose proof (Z.mod_pos_bound p 4 ltac:(lia)).
  pose proof (Z.mod_pos_bound (- (p + Z.of_nat (length l))) 4 ltac:(lia)).
  rewrite <- (Z2Nat.id (p mod 4)) in Hh at 2 by lia.
  rewrite <- (Z2Nat.id (- _ mod 4)) in Ht by lia.
  destruct (mapped_bytes_at _ _ _ Hh) as (hd & Lh & Bh).
  destruct (mapped_bytes_at _ _ _ Ht) as (tl & Lt & Bt).
  exists hd, tl.
  assert (B : bytes_at m (p - p mod 4) (hd ++ l ++ tl)).
  { rewrite !bytes_at_app. split; [done|].
    replace (p - p mod 4 + Z.of_nat (length hd)) with p by lia. done. }
  repeat split; [lia|done|by eapply bytes_at_wf| |lia].
  apply Nat2Z.inj. rewrite Nat2Z.inj_mod, !length_app, !Nat2Z.inj_add, Lh, Lt.
  rewrite !Z2Nat.id by lia. Z.div_mod_to_equations. lia.
Qed.

Lemma align4_spec s : is_u32 s -> align4 s = s - s mod 4.
Proof.
  intros Hs. unfold align4.
  change (not32 3) with (Z.land (Z.ones 32) (Z.lnot (Z.ones 2))).
  rewrite Z.land_assoc, Z.land_ones, Z.mod_small by (change (2 ^ 32) with 4294967296; zlia).
  rewrite <- Z.ldiff_land, Z.ldiff_ones_r by lia.
  rewrite Z.shiftl_mul_pow2, Z.shiftr_div_pow2 by lia. change (2 ^ 2) with 4.
  Z.div_mod_to_equations. lia.
Qed.

Lemma align4_mod s : is_u32 s -> align4 s mod 4 = 0.
Proof. intros. rewrite align4_spec by done. Z.div_mod_to_equations. lia. Qed.

Lemma land3 s : 0 <= s -> Z.land s 3 = s mod 4.
Proof. intros. change 3 with (Z.ones 2). by rewrite Z.land_ones by lia. Qed.

(** *** [strlen] *)

(** Where the terminator lies relative to the first word of a string. *)
Lemma word_split t tl b0 b1 b2 b3 l :
  Forall is_char t -> t ++ 0 :: tl = b0 :: b1 :: b2 :: b3 :: l ->
  (no_zero b0 b1 b2 b3 /\ exists t', t = b0 :: b1 :: b2 :: b3 :: t' /\ l = t' ++ 0 :: tl) \/
  (~ no_zero b0 b1 b2 b3 /\ first_zero b0 b1 b2 b3 = Z.of_nat (length t)).
Proof.
  unfold no_zero, first_zero. intros Ht E.
  destruct t as [|a [|b [|c [|d t]]]]; simpl in E; simplify_eq; fcons;
    unfold is_char in *; [right; split; [lia|zb; simpl; lia]..|].
  left. split; [lia|]. by exists t.
Qed.

(** The loop started on the word [x] at [q], when the bytes of [x] and of the
    words that follow spell [t], a zero byte, and [tl]. *)
Lemma strlen_loop t q tl b0 b1 b2 b3 l s :
  Forall is_char t -> Forall is_byte (b0 :: b1 :: b2 :: b3 :: l) ->
  t ++ 0 :: tl = b0 :: b1 :: b2 :: b3 :: l ->
  (length l mod 4 = 0)%nat -> q mod 4 = 0 -> bytes_at (mem s) (q + 4) l ->
  exists x' q' n, runs strlen_body n (word_of b0 b1 b2 b3, q) s (x', q') s /\
    Z.of_nat n <= Z.of_nat (length t) + 1 /\
    q' + clz32 (zero_mask x') / 8 = q + Z.of_nat (length t).
Proof.
  remember (length t) as k eqn:Hk. revert t Hk q b0 b1 b2 b3 l.
  induction (lt_wf k) as [k _ IH]. intros t -> q b0 b1 b2 b3 l Ht HF El Hl Hq Hb.
  pose proof HF as HF'. apply Forall_cons in HF' as (H0 & (H1 & (H2 & (H3 & HF')%Forall_cons)%Forall_cons)%Forall_cons).
  destruct (word_split _ _ _ _ _ _ _ Ht El) as [(Hnz & t' & -> & ->)|(Hz & Hf)].
  - destruct (list4_split (t' ++ 0 :: tl)) as (c0 & c1 & c2 & c3 & l' & El' & Hl');
      [done|by destruct t'|].
    rewrite El' in *. destruct (IH (length t')) with (t := t') (q := q + 4)
      (b0 := c0) (b1 := c1) (b2 := c2) (b3 := c3) (l := l') as (x' & q' & n & Hr & Hn & He);
      [simpl; lia|done| | | |done| | |].
    + by fcons.
    + done.
    + done.
    + by rewrite <- Z.add_mod_idemp_l, Hq by lia.
    + destruct Hb as (_ & _ & _ & _ & Hb).
      by replace (q + 4 + 1 + 1 + 1 + 1) with (q + 4 + 4) in Hb by lia.
    + exists x', q', (S n). split; [|split; [simpl; lia|simpl; lia]].
      eapply runs_next; [|exact Hr]. unfold strlen_body.
      rewrite (proj2 (zero_test_spec _ _ _ _ H0 H1 H2 H3) Hnz). simpl.
      erewrite bind_ok; [done|]. apply load32_ok.
      * by rewrite <- Z.add_mod_idemp_l, Hq by lia.
      * destruct Hb as (? & ? & ? & ? & _). done.
  - exists (word_of b0 b1 b2 b3), q, 1%nat. split; [|split; [lia|]].
    + apply runs_done. unfold strlen_body.
      destruct (Z.eqb_spec (zero_test (word_of b0 b1 b2 b3)) 0) as [E|?]; [|done].
      by apply zero_test_spec in E.
    + rewrite clz_zero_mask by done. lia.
Qed.

(** *** The first word

    The [k] bytes before the object are forced to 0xFF, so that they are seen
    as neither zero nor the byte looked for. *)
Definition ff (i k b : Z) : Z := if i <? k then 255 else b.
Definition ffmask (k : Z) : Z := word_of (ff 0 k 0) (ff 1 k 0) (ff 2 k 0) 0.

Lemma ff_byte i k b : is_byte b -> is_byte (ff i k b).
Proof. unfold ff. destruct (i <? k); auto with clib. Qed.
#[local] Hint Resolve ff_byte : clib.

Lemma lor_ff i k b : is_byte b -> Z.lor b (ff i k 0) = ff i k b.
Proof.
  intros Hb. unfold ff. destruct (i <? k); [|apply Z.lor_0_r].
  apply Z.eqb_eq. revert b Hb. apply forall_bytes. by vm_compute.
Qed.

Lemma lor_ffmask k b0 b1 b2 b3 :
  is_byte b0 -> is_byte b1 -> is_byte b2 -> is_byte b3 ->
  Z.lor (word_of b0 b1 b2 b3) (ffmask k) =
  word_of (ff 0 k b0) (ff 1 k b1) (ff 2 k b2) b3.
Proof.
  intros. unfold ffmask. rewrite lor_word by eauto with clib.
  by rewrite !lor_ff, Z.lor_0_r by done.
Qed.

Lemma ff_list k (hd s : list Z) b0 b1 b2 b3 l :
  length hd = k -> (k < 4)%nat -> hd ++ s = b0 :: b1 :: b2 :: b3 :: l ->
  replicate k 255 ++ s =
  ff 0 (Z.of_nat k) b0 :: ff 1 (Z.of_nat k) b1 :: ff 2 (Z.of_nat k) b2 :: b3 :: l.
Proof.
  intros Hk Hlt E.
  destruct hd as [|h0 [|h1 [|h2 [|h3 hd]]]]; simpl in Hk; subst k; try lia;
    simpl in E; by simplify_eq.
Qed.

(** The aligned words of a string, as the word loops see them. *)
Lemma string_words p l m :
  cstr m p l -> word_readable m p (Z.of_nat (length l) + 1) ->
  exists k b0 b1 b2 b3 r tl,
    Z.of_nat k = p mod 4 /\ bytes_at m (p - p mod 4) (b0 :: b1 :: b2 :: b3 :: r) /\
    Forall is_byte (b0 :: b1 :: b2 :: b3 :: r) /\ (length r mod 4 = 0)%nat /\
    (length tl < 4)%nat /\
    (replicate k 255 ++ l) ++ 0 :: tl =
    ff 0 (p mod 4) b0 :: ff 1 (p mod 4) b1 :: ff 2 (p mod 4) b2 :: b3 :: r.
Proof.
  intros Hs Hw. pose proof (cstr_pos _ _ _ Hs).
  destruct (word_view m p (l ++ [0])) as (hd & tl & Hh & Hb & HF & H4 & Ht);
    [rewrite length_app; simpl; by rewrite Nat2Z.inj_add|auto with clib|done|].
  rewrite <- app_assoc in Hb, HF, H4. simpl in Hb, HF, H4.
  destruct (list4_split _ H4) as (b0 & b1 & b2 & b3 & r & E & Hr); [by destruct hd, l|].
  rewrite E in Hb, HF. pose proof (Z.mod_pos_bound p 4 ltac:(lia)).
  pose proof (ff_list (length hd) hd _ b0 b1 b2 b3 r eq_refl ltac:(lia) E) as E'.
  rewrite app_assoc, Hh in E'. exists (length hd), b0, b1, b2, b3, r, tl. auto 10.
Qed.

Lemma aligned_mod p : is_u32 p -> (p - p mod 4) mod 4 = 0.
Proof. intros. rewrite <- align4_spec by done. by apply align4_mod. Qed.

Lemma strlen_first p s b0 b1 b2 b3 :
  is_u32 p -> bytes_at (mem s) (p - p mod 4) [b0; b1; b2; b3] ->
  is_byte b0 -> is_byte b1 -> is_byte b2 -> is_byte b3 ->
  (if align4 p =? p then load32 (align4 p)
   else let* w := load32 (align4 p) in
        ret (Z.lor w (u32 (Z.shiftl 0xFFFFFFFF ((3 - Z.land p 3 + 1) * 8))))) s =
  Ok (word_of (ff 0 (p mod 4) b0) (ff 1 (p mod 4) b1) (ff 2 (p mod 4) b2) b3) s.
Proof.
  intros Hp Hb H0 H1 H2 H3. rewrite align4_spec, land3 by zlia.
  pose proof (Z.mod_pos_bound p 4 ltac:(lia)).
  pose proof (load32_ok _ _ _ _ _ _ (aligned_mod p Hp) Hb) as HL.
  destruct (Z.eqb_spec (p - p mod 4) p) as [E|E].
  - replace (p mod 4) with 0 in * by lia. exact HL.
  - rewrite (bind_ok _ _ _ _ _ HL). unfold ret. f_equal. rewrite <- lor_ffmask by done.
    f_equal. assert (K : p mod 4 = 1 \/ p mod 4 = 2 \/ p mod 4 = 3) by lia.
    by destruct K as [->|[->| ->]].
Qed.

Lemma strlen_ok p l s :
  cstr (mem s) p l -> word_readable (mem s) p (Z.of_nat (length l) + 1) ->
  strlen p s = Ok (Z.of_nat (length l)) s.
Proof.
  intros Hs Hw. pose proof (cstr_pos _ _ _ Hs). pose proof (cstr_len _ _ _ Hs).
  pose proof (cstr_chars _ _ _ Hs) as Hc. assert (Hp : is_u32 p) by zlia.
  destruct (string_words _ _ _ Hs Hw) as (k & b0 & b1 & b2 & b3 & r & tl & Hk & Hb & HF & Hr & Ht & E).
  pose proof (Z.mod_pos_bound p 4 ltac:(lia)). destruct Hb as (B0 & B1 & B2 & B3 & Hb). fcons.
  edestruct (strlen_loop (replicate k 255 ++ l) (p - p mod 4) tl) as (x' & q' & n & Hx & Hn & He);
    [| |exact E|exact Hr|by apply aligned_mod| |].
  - apply Forall_app. split; [by apply Forall_replicate|done].
  - rewrite !Forall_cons. auto 10 with clib.
  - replace (p - p mod 4 + 4) with (p - p mod 4 + 1 + 1 + 1 + 1) by lia. exact Hb.
  - rewrite length_app, length_replicate in *. unfold strlen.
    rewrite (bind_ok _ _ _ _ _ (strlen_first p s b0 b1 b2 b3 Hp ltac:(simpl; auto) ltac:(done) ltac:(done) ltac:(done) ltac:(done))).
    rewrite align4_spec by done.
    erewrite bind_ok; [|eapply loop_runs; [exact Hx|zlia]].
    unfold ret. f_equal. rewrite u32_id; zlia.
Qed.

(** *** Byte loops *)

Lemma strnlen_loop l p n s :
  cstr (mem s) p l -> 0 <= n ->
  lrun strnlen_body (Z.of_nat (length l) + 1) (p, n) s
    (p + Z.min n (Z.of_nat (length l))) s.
Proof.
  revert p n. induction l as [|c l IH]; intros p n Hs Hn.
  - apply cstr_nil in Hs. apply lrun_done; [|simpl; lia]. unfold strnlen_body.
    destruct (Z.eqb_spec n 0); msimp; do 2 f_equal; lia.
  - apply cstr_cons in Hs as (Hc & Hc0 & Hs). unfold is_char in Hc0.
    destruct (Z.eq_dec n 0) as [->|Hn0].
    + apply lrun_done; [|simpl; lia]. unfold strnlen_body. msimp. do 2 f_equal. lia.
    + eapply lrun_next.
      { unfold strnlen_body. msimp. destruct (Z.eqb_spec c 0); [lia|done]. }
      replace (p + Z.min n (Z.of_nat (length (c :: l))))
        with (p + 1 + Z.min (n - 1) (Z.of_nat (length l))) by (simpl; lia).
      eapply lrun_weaken; [apply IH; [done|lia]|simpl; lia].
Qed.

Lemma strnlen_ok p l n s :
  cstr (mem s) p l -> is_u32 n ->
  strnlen p n s = Ok (Z.min n (Z.of_nat (length l))) s.
Proof.
  intros Hs Hn. unfold strnlen. rewrite (cstr_nonnull _ _ _ Hs).
  pose proof (cstr_pos _ _ _ Hs). pose proof (cstr_len _ _ _ Hs).
  erewrite bind_ok; [|eapply loop_lrun; [apply strnlen_loop; [done|zlia]|zlia]].
  unfold ret. f_equal. rewrite u32_id; zlia.
Qed.

(** [strlen] returns the number of characters before the terminator, for
    a string at any alignment, and leaves the state alone, reading only
    the aligned words the string touches; [strnlen] returns that number
    cut at [maxlen], reading single bytes, and zero with [EFAULT] for a null
    pointer. *)
Theorem strlen_correct p l n s :
  cstr (mem s) p l -> word_readable (mem s) p (Z.of_nat (length l) + 1) -> is_u32 n ->
  strlen p s = Ok (Z.of_nat (length l)) s /\
  strnlen p n s = Ok (Z.min n (Z.of_nat (length l))) s /\
  strnlen NULL n s = Ok 0 (put_errno s EFAULT).
Proof. intros. split; [by apply strlen_ok|]. split; [by apply strnlen_ok|done]. Qed.

Lemma strrchr_loop l p r c s :
  cstr (mem s) p l ->
  lrun (strrchr_body c) (Z.of_nat (length l) + 1) (p, r) s
    (match rfind_byte c (l ++ [0]) with Some i => p + Z.of_nat i | None => r end) s.
Proof.
  revert p r. induction l as [|b l IH]; intros p r Hs.
  - apply cstr_nil in Hs. apply lrun_done; [|simpl; lia]. unfold strrchr_body. msimp.
    destruct (0 =? c); do 2 f_equal; simpl; lia.
  - apply cstr_cons in Hs as (Hb & Hb0 & Hs). unfold is_char in Hb0.
    eapply lrun_next.
    { unfold strrchr_body. msimp. destruct (Z.eqb_spec b 0); [lia|done]. }
    eapply lrun_weaken; [|instantiate (1 := Z.of_nat (length l) + 1); simpl; lia].
    simpl. specialize (IH (p + 1) (if b =? c then p else r) Hs).
    destruct (rfind_byte c (l ++ [0])) as [i|].
    + by replace (p + Z.of_nat (S i)) with (p + 1 + Z.of_nat i) by lia.
    + destruct (b =? c); [|done]. by rewrite Z.add_0_r.
Qed.

(** [strrchr] points to the last occurrence of the character, the
    terminator counting as one, and is null when there is none. *)
Lemma strrchr_correct p l c s :
  cstr (mem s) p l ->
  strrchr p c s = Ok (ptr_at p (rfind_byte (u8 c) (l ++ [0]))) s.
Proof.
  intros Hs. unfold strrchr. rewrite (cstr_nonnull _ _ _ Hs).
  pose proof (cstr_pos _ _ _ Hs). pose proof (cstr_len _ _ _ Hs).
  unfold strrchr_inner. change 0xff with (Z.ones 8). rewrite Z.land_ones by lia.
  eapply loop_lrun; [by apply strrchr_loop|zlia].
Qed.

Lemma memrchr_loop l p c s :
  bytes_at (mem s) p l -> l <> [] ->
  lrun (memrchr_body c) (Z.of_nat (length l))
    (p + Z.of_nat (length l), Z.of_nat (length l)) s (ptr_at p (rfind_byte c l)) s.
Proof.
  induction l as [|x l IH] using rev_ind; intros Hb Hn; [done|].
  rewrite rfind_byte_snoc, length_app. apply bytes_at_app in Hb as [Hb [Hx _]].
  replace (p + Z.of_nat (length l + length [x])) with (p + Z.of_nat (length l) + 1)
    by (simpl; lia).
  set (q := p + Z.of_nat (length l)) in *.
  assert (Hq : mem s !! (q + 1 - 1) = Some x) by (by replace (q + 1 - 1) with q by lia).
  destruct (Z.eqb_spec x c) as [->|Hne].
  - apply lrun_done; [|simpl; lia]. unfold memrchr_body. msimp. do 2 f_equal. lia.
  - destruct l as [|y l'] eqn:El.
    + apply lrun_done; [|simpl; lia]. unfold memrchr_body. msimp.
      by replace (Z.of_nat 1 - 1) with 0 by lia.
    + eapply lrun_next.
      { unfold memrchr_body. msimp.
        destruct (Z.eqb_spec (Z.of_nat (S (length l' + 1)) - 1) 0); [lia|done]. }
      simpl length. replace (Z.of_nat (S (length l') + 1) - 1)
        with (Z.of_nat (S (length l'))) by lia.
      replace (Z.of_nat (S (length l' + 1)) - 1) with (Z.of_nat (S (length l'))) by lia.
      replace (q + 1 - 1) with q by lia. by apply IH.
Qed.

(** [memrchr] points to the last occurrence of the byte in the buffer, is
    null when there is none, and reads nothing outside it. *)
Lemma memrchr_correct p l c s :
  bytes_at (mem s) p l -> in_space p (Z.of_nat (length l)) ->
  memrchr p c (Z.of_nat (length l)) s = Ok (ptr_at p (rfind_byte (u8 c) l)) s.
Proof.
  intros Hb Hp. unfold memrchr, in_space in *. destruct l as [|x l]; [done|].
  eapply loop_lrun; [by apply memrchr_loop|zlia].
Qed.

(** *** [memchr] *)

Lemma repeated_c_spec c :
  is_byte c ->
  Z.lor (Z.lor c (Z.shiftl c 8)) (u32 (Z.shiftl (Z.lor c (Z.shiftl c 8)) 16)) = word_of c c c c.
Proof. intros Hc. apply Z.eqb_eq. revert c Hc. apply forall_bytes. by vm_compute. Qed.

Lemma lxor_zero a b : Z.lxor a b = 0 <-> a = b.
Proof. apply Z.lxor_eq_0_iff. Qed.

(** The word test tells whether the byte looked for is in the word. *)
Lemma memchr_test c b0 b1 b2 b3 :
  is_byte c -> is_byte b0 -> is_byte b1 -> is_byte b2 -> is_byte b3 ->
  detect_null (Z.lxor (word_of b0 b1 b2 b3) (word_of c c c c)) = 0 <->
  find_byte c [b0; b1; b2; b3] = None.
Proof.
  intros. rewrite lxor_word, detect_null_spec by auto with clib. unfold no_zero.
  rewrite !lxor_zero. simpl. zb; simpl; split; intros; dd; try done; congruence.
Qed.

Lemma memchr_align_loop c l p s :
  bytes_at (mem s) p l ->
  (exists i, find_byte c l = Some i /\
     lrun (memchr_align_body c) (Z.of_nat (length l) + 1) (p, Z.of_nat (length l)) s
       (inr (p + Z.of_nat i)) s) \/
  (exists l1 l2, l = l1 ++ l2 /\ find_byte c l1 = None /\
     (l2 = [] \/ (p + Z.of_nat (length l1)) mod 4 = 0) /\
     lrun (memchr_align_body c) (Z.of_nat (length l) + 1) (p, Z.of_nat (length l)) s
       (inl (p + Z.of_nat (length l1), Z.of_nat (length l2))) s).
Proof.
  revert p. induction l as [|x l IH]; intros p Hb.
  - right. exists [], []. do 3 (split; [auto|]). apply lrun_done; [|done].
    simpl. by rewrite Z.add_0_r.
  - destruct Hb as [Hx Hb]. destruct (Z.eq_dec (p mod 4) 0) as [Hp|Hp].
    + right. exists [], (x :: l). rewrite Z.add_0_r. do 3 (split; [auto|]).
      apply lrun_done; [|simpl; lia]. unfold memchr_align_body. rewrite Hp.
      rewrite andb_false_r. done.
    + assert (Hn : (0 <? Z.of_nat (length (x :: l))) = true) by (apply Z.ltb_lt; simpl; lia).
      assert (Hstep : memchr_align_body c (p, Z.of_nat (length (x :: l))) s =
        if x =? c then Ok (inr (inr p)) s
        else Ok (inl (p + 1, Z.of_nat (length l))) s).
      { unfold memchr_align_body. rewrite Hn. msimp.
        destruct (x =? c); [done|]. do 3 f_equal. lia. }
      simpl find_byte. destruct (x =? c) eqn:E.
      * left. exists 0%nat. split; [done|]. rewrite Z.add_0_r.
        apply lrun_done; [done|simpl; lia].
      * destruct (IH (p + 1) Hb) as [(i & Hf & Hr)|(l1 & l2 & -> & Hf & Hl2 & Hr)].
        -- left. exists (S i). rewrite Hf. split; [done|]. eapply lrun_next; [done|].
           replace (p + Z.of_nat (S i)) with (p + 1 + Z.of_nat i) by lia.
           eapply lrun_weaken; [done|simpl; lia].
        -- right. exists (x :: l1), l2. simpl. rewrite E, Hf. split; [done|]. split; [done|].
           replace (p + Z.of_nat (S (length l1))) with (p + 1 + Z.of_nat (length l1)) by lia.
           split; [done|]. eapply lrun_next; [done|]. eapply lrun_weaken; [done|simpl; lia].
Qed.

Lemma memchr_word_loop c l p s :
  is_byte c -> bytes_at (mem s) p l -> Forall is_byte l -> l = [] \/ p mod 4 = 0 ->
  exists l1 l2, l = l1 ++ l2 /\ find_byte c l1 = None /\
     lrun (memchr_word_body 0x01010101 (word_of c c c c)) (Z.of_nat (length l) + 1)
       (p, Z.of_nat (length l)) s (p + Z.of_nat (length l1), Z.of_nat (length l2)) s.
Proof.
  intros Hc. revert p.
  assert (Hshort : forall l p, (length l < 4)%nat -> bytes_at (mem s) p l ->
    exists l1 l2, l = l1 ++ l2 /\ find_byte c l1 = None /\
     lrun (memchr_word_body 0x01010101 (word_of c c c c)) (Z.of_nat (length l) + 1)
       (p, Z.of_nat (length l)) s (p + Z.of_nat (length l1), Z.of_nat (length l2)) s).
  { intros l' p Hl _. exists [], l'. split; [done|]. split; [done|].
    apply lrun_done; [|lia]. unfold memchr_word_body. rewrite Z.add_0_r.
    destruct (Z.leb_spec 4 (Z.of_nat (length l'))); [lia|done]. }
  induction l as [| | | |b0 b1 b2 b3 l IH] using list4_ind; intros p Hb HF Hp;
    [apply Hshort; [simpl; lia|done]..|].
  assert (Hp' : p mod 4 = 0) by (by destruct Hp).
  destruct Hb as (H0 & H1 & H2 & H3 & Hb). fcons.
  assert (HL : load32 p s = Ok (word_of b0 b1 b2 b3) s) by (apply load32_ok; simpl; auto).
  assert (Hstep : memchr_word_body 0x01010101 (word_of c c c c)
      (p, Z.of_nat (length (b0 :: b1 :: b2 :: b3 :: l))) s =
    if detect_null (Z.lxor (word_of b0 b1 b2 b3) (word_of c c c c)) =? 0
    then Ok (inl (p + 4, Z.of_nat (length l))) s
    else Ok (inr (p, Z.of_nat (length (b0 :: b1 :: b2 :: b3 :: l)))) s).
  { unfold memchr_word_body. destruct (Z.leb_spec 4 (Z.of_nat (length (b0 :: b1 :: b2 :: b3 :: l))));
      [|simpl in *; lia].
    rewrite (bind_ok _ _ _ _ _ HL). unfold detect_null, again, leave, ret.
    change (u32 (Z.shiftl 0x01010101 7)) with 0x80808080.
    destruct (_ =? 0); simpl; [|done]. do 3 f_equal. lia. }
  destruct (Z.eqb_spec (detect_null (Z.lxor (word_of b0 b1 b2 b3) (word_of c c c c))) 0) as [Hz|Hz].
  - apply memchr_test in Hz; [|done..].
    destruct (IH (p + 4)) as (l1 & l2 & -> & Hf & Hr); [|done| |].
    + by replace (p + 4) with (p + 1 + 1 + 1 + 1) by lia.
    + right. by rewrite <- Z.add_mod_idemp_l, Hp' by lia.
    + exists ([b0; b1; b2; b3] ++ l1), l2. rewrite find_byte_app, Hz, Hf.
      split; [by rewrite <- app_assoc|]. split; [done|].
      eapply lrun_next; [exact Hstep|].
      replace (p + Z.of_nat (length ([b0; b1; b2; b3] ++ l1)))
        with (p + 4 + Z.of_nat (length l1)) by (rewrite length_app; simpl; lia).
      eapply lrun_weaken; [done|simpl; lia].
  - exists [], (b0 :: b1 :: b2 :: b3 :: l). split; [done|]. split; [done|].
    apply lrun_done; [|lia]. rewrite Hstep. by rewrite Z.add_0_r.
Qed.

Lemma memchr_tail_loop c l p s :
  bytes_at (mem s) p l ->
  lrun (memchr_tail_body c) (Z.of_nat (length l) + 1) (p, Z.of_nat (length l)) s
    (ptr_at p (find_byte c l)) s.
Proof.
  revert p. induction l as [|x l IH]; intros p Hb; [by apply lrun_done|].
  destruct Hb as [Hx Hb].
  assert (Hn : (0 <? Z.of_nat (length (x :: l))) = true) by (apply Z.ltb_lt; simpl; lia).
  simpl find_byte. destruct (x =? c) eqn:E.
  - apply lrun_done; [|simpl; lia]. unfold memchr_tail_body. rewrite Hn. msimp. rewrite E.
    by rewrite Z.add_0_r.
  - apply (lrun_next _ _ _ _ (p + 1, Z.of_nat (length l)) s).
    { unfold memchr_tail_body. rewrite Hn. msimp. rewrite E. do 3 f_equal. lia. }
    specialize (IH (p + 1) Hb). simpl length.
    eapply lrun_weaken; [|instantiate (1 := Z.of_nat (length l) + 1); lia].
    destruct (find_byte c l) as [i|]; simpl in *; [|done].
    by replace (p + Z.of_nat (S i)) with (p + 1 + Z.of_nat i) by lia.
Qed.

Lemma memchr_ok p l c s :
  bytes_at (mem s) p l -> Forall is_byte l -> l <> [] -> in_space p (Z.of_nat (length l)) ->
  memchr p c (Z.of_nat (length l)) s = Ok (ptr_at p (find_byte (u8 c) l)) s.
Proof.
  intros Hb HF Hn [Hp Hl]. unfold memchr.
  assert (0 < Z.of_nat (length l)) by (destruct l; simpl; [done|lia]).
  unfold NULL. destruct (Z.eqb_spec p 0); [lia|].
  destruct (Z.leb_spec (Z.of_nat (length l)) 0); [lia|]. simpl.
  unfold memchr_inner. change 255 with (Z.ones 8).
  rewrite Z.land_ones by lia. change (c mod 2 ^ 8) with (u8 c).
  rewrite !(u8_id (u8 c)) by apply u8_range.
  pose proof (u8_range c) as Hc.
  destruct (memchr_align_loop (u8 c) l p s Hb) as [(i & Hf & Hr)|(l1 & l2 & -> & Hf & Hl2 & Hr)].
  { erewrite bind_ok; [|eapply loop_lrun; [exact Hr|zlia]]. by rewrite Hf. }
  rewrite length_app in *.
  erewrite bind_ok; [|eapply loop_lrun; [exact Hr|zlia]]. cbv zeta iota beta.
  rewrite repeated_c_spec by done. apply bytes_at_app in Hb as [Hb1 Hb2]. fcons.
  destruct (memchr_word_loop (u8 c) l2 _ s Hc Hb2) as (l3 & l4 & -> & Hf3 & Hr3); [done|done|].
  rewrite length_app in *.
  erewrite bind_ok; [|eapply loop_lrun; [exact Hr3|zlia]]. cbv iota beta.
  apply bytes_at_app in Hb2 as [Hb3 Hb4].
  erewrite loop_lrun; [|apply memchr_tail_loop; exact Hb4|zlia].
  rewrite !find_byte_app, Hf, Hf3. destruct (find_byte (u8 c) l4) as [i|]; simpl; [|done].
  f_equal. lia.
Qed.

(** [memchr] points to the first occurrence of the byte in the buffer and
    is null when there is none; although it scans by words, every access
    lies inside the buffer. *)
Theorem memchr_correct p l c s :
  bytes_at (mem s) p l -> Forall is_byte l -> l <> [] -> in_space p (Z.of_nat (length l)) ->
  memchr p c (Z.of_nat (length l)) s = Ok (ptr_at p (find_byte (u8 c) l)) s.
Proof. apply memchr_ok. Qed.

(** *** The GNU [strchr] and [strchrnul]

    Both look at the bytes from [p] on one by one until one of them decides
    the result; [scan f p l] is that search over the list of bytes, where
    [f q b] is the verdict on byte [b] at address [q]. *)
Fixpoint scan (f : Z -> Z -> option Z) (p : Z) (l : list Z) : option Z :=
  match l with
  | [] => None
  | b :: l' => match f p b with Some r => Some r | None => scan f (p + 1) l' end
  end.

Definition strchr_verdict (c q b : Z) : option Z :=
  if b =? c then Some q else if b =? 0 then Some NULL else None.
Definition strchrnul_verdict (c q b : Z) : option Z :=
  if (b =? c) || (b =? 0) then Some q else None.

Lemma scan_app f p l1 l2 :
  scan f p (l1 ++ l2) =
  match scan f p l1 with Some r => Some r | None => scan f (p + Z.of_nat (length l1)) l2 end.
Proof.
  revert p. induction l1 as [|b l1 IH]; intros p; simpl; [by rewrite Z.add_0_r|].
  destruct (f p b); [done|]. rewrite IH. destruct (scan f (p + 1) l1); [done|].
  f_equal. lia.
Qed.

Lemma scan_strchr c p l tl :
  Forall is_char l ->
  scan (strchr_verdict c) p (l ++ 0 :: tl) = Some (ptr_at p (find_byte c (l ++ [0]))).
Proof.
  revert p. induction l as [|b l IH]; intros p HF; simpl; unfold strchr_verdict at 1.
  - destruct (0 =? c); simpl; f_equal. lia.
  - fcons. destruct (b =? c); [simpl; f_equal; lia|].
    destruct (Z.eqb_spec b 0); [unfold is_char in *; lia|]. rewrite IH by done.
    f_equal. destruct (find_byte c (l ++ [0])); simpl; [|done]. lia.
Qed.

Lemma scan_strchrnul c p l tl :
  Forall is_char l ->
  scan (strchrnul_verdict c) p (l ++ 0 :: tl) =
  Some (p + Z.of_nat (match find_byte c l with Some i => i | None => length l end)).
Proof.
  revert p. induction l as [|b l IH]; intros p HF; simpl; unfold strchrnul_verdict at 1.
  - rewrite orb_true_r. f_equal. lia.
  - fcons. destruct (b =? c); [simpl; f_equal; lia|].
    destruct (Z.eqb_spec b 0); [unfold is_char in *; lia|]. simpl. rewrite IH by done.
    f_equal. destruct (find_byte c l); simpl; lia.
Qed.

Lemma charmask_spec c : is_byte c -> charmask_of c = word_of c c c c.
Proof. intros Hc. apply Z.eqb_eq. revert c Hc. apply forall_bytes. by vm_compute. Qed.

(** A word on which neither test fires decides nothing. *)
Lemma hole_quiet c b0 b1 b2 b3 :
  is_byte c -> is_byte b0 -> is_byte b1 -> is_byte b2 -> is_byte b3 ->
  hole_test (word_of b0 b1 b2 b3) = 0 ->
  hole_test (Z.lxor (word_of b0 b1 b2 b3) (word_of c c c c)) = 0 ->
  forall b, b ∈ [b0; b1; b2; b3] -> b <> 0 /\ b <> c.
Proof.
  intros Hc H0 H1 H2 H3 Hz Hx. rewrite lxor_word in Hx by done.
  apply hole_test_spec in Hz as (?&?&?&?); [|done..].
  apply hole_test_spec in Hx as (X0&X1&X2&X3); [|auto with clib..].
  rewrite lxor_zero in *.
  intros b Hb. repeat (apply elem_of_cons in Hb as [->|Hb]; [done|]). inversion Hb.
Qed.

Section LongLoop.
(** What the two word loops have in common: a verdict on bytes, a routine
    that applies it to the four bytes of a word, and the loop around it. *)
Context (c : Z) (Hc : is_byte c) (f : Z -> Z -> option Z).
Context (f_quiet : forall q b, b <> 0 /\ b <> c -> f q b = None).
Context (word : Z -> M (option Z)).
Context (word_ok : forall q s b0 b1 b2 b3, bytes_at (mem s) q [b0; b1; b2; b3] ->
  word q s = Ok (scan f q [b0; b1; b2; b3]) s).
Context (body : Z -> M (Z + Z)).
Context (body_ok : forall q s, body q s =
  (let* w := load32 q in
   if negb (hole_test w =? 0) || negb (hole_test (Z.lxor w (word_of c c c c)) =? 0) then
     let* r := word q in
     match r with Some r => leave r | None => again (q + 4) end
   else again (q + 4)) s).

Lemma long_loop l q r s :
  bytes_at (mem s) q l -> Forall is_byte l -> (length l mod 4 = 0)%nat -> q mod 4 = 0 ->
  scan f q l = Some r -> lrun body (Z.of_nat (length l)) q s r s.
Proof.
  revert q. induction l as [| | | |b0 b1 b2 b3 l IH] using list4_ind;
    intros q Hb HF H4 Hq Hs; try done.
  destruct Hb as (H0 & H1 & H2 & H3 & Hb). fcons.
  assert (B : bytes_at (mem s) q [b0; b1; b2; b3]) by (simpl; auto).
  pose proof (load32_ok _ _ _ _ _ _ Hq B) as HL.
  pose proof (word_ok _ _ _ _ _ _ B) as HW.
  change (b0 :: b1 :: b2 :: b3 :: l) with ([b0; b1; b2; b3] ++ l) in Hs.
  rewrite scan_app in Hs.
  assert (Hrec : scan f q [b0; b1; b2; b3] = None ->
    lrun body (Z.of_nat (length (b0 :: b1 :: b2 :: b3 :: l)) - 1) (q + 4) s r s).
  { intros Hn. rewrite Hn in Hs. eapply lrun_weaken; [apply IH|simpl; lia]; [|done| | |].
    - by replace (q + 4) with (q + 1 + 1 + 1 + 1) by lia.
    - simpl length in H4. replace (S (S (S (S (length l))))) with (length l + 1 * 4)%nat in H4 by lia.
      by rewrite Nat.Div0.mod_add in H4.
    - by rewrite <- Z.add_mod_idemp_l, Hq by lia.
    - done. }
  pose proof (body_ok q s) as HB. rewrite (bind_ok _ _ _ _ _ HL) in HB.
  destruct (Z.eqb_spec (hole_test (word_of b0 b1 b2 b3)) 0) as [Z1|Z1];
  destruct (Z.eqb_spec (hole_test (Z.lxor (word_of b0 b1 b2 b3) (word_of c c c c))) 0) as [Z2|Z2];
    simpl in HB; rewrite ?(bind_ok _ _ _ _ _ HW) in HB.
  1:{ eapply lrun_next; [exact HB|]. apply Hrec.
      pose proof (hole_quiet c b0 b1 b2 b3) as HQ. simpl.
      rewrite !f_quiet by (apply HQ; [done..|rewrite !elem_of_cons; auto 10]). done. }
  all: destruct (scan f q [b0; b1; b2; b3]) as [r'|] eqn:E; simpl in *;
    [simplify_eq; apply lrun_done; [done|lia] | eapply lrun_next; [exact HB|by apply Hrec]].
Qed.
End LongLoop.

Lemma strchr_long c l q r s :
  is_byte c -> bytes_at (mem s) q l -> Forall is_byte l -> (length l mod 4 = 0)%nat ->
  q mod 4 = 0 -> scan (strchr_verdict c) q l = Some r ->
  lrun (strchr_long_body c (word_of c c c c)) (Z.of_nat (length l)) q s r s.
Proof.
  intros Hc. eapply long_loop with (word := fun q => strchr_word q c); [done| | |done].
  - intros q' b [? ?]. unfold strchr_verdict. zb; simpl; done.
  - intros q' s' b0 b1 b2 b3 (H0 & H1 & H2 & H3 & _). unfold strchr_word, strchr_verdict. cbn [scan].
    replace (q' + 1 + 1) with (q' + 2) in * by lia.
    replace (q' + 2 + 1) with (q' + 3) in * by lia.
    msimp. destruct (b0 =? c), (b0 =? 0); try done. msimp.
    destruct (b1 =? c), (b1 =? 0); try done. msimp.
    destruct (b2 =? c), (b2 =? 0); try done. msimp.
    destruct (b3 =? c), (b3 =? 0); done.
Qed.

Lemma strchrnul_long c l q r s :
  is_byte c -> bytes_at (mem s) q l -> Forall is_byte l -> (length l mod 4 = 0)%nat ->
  q mod 4 = 0 -> scan (strchrnul_verdict c) q l = Some r ->
  lrun (strchrnul_long_body c (word_of c c c c)) (Z.of_nat (length l)) q s r s.
Proof.
  intros Hc. eapply long_loop with (word := fun q => strchrnul_word q c); [done| | |done].
  - intros q' b [? ?]. unfold strchrnul_verdict. zb; simpl; done.
  - intros q' s' b0 b1 b2 b3 (H0 & H1 & H2 & H3 & _).
    unfold strchrnul_word, strchrnul_verdict. cbn [scan].
    replace (q' + 1 + 1) with (q' + 2) in * by lia.
    replace (q' + 2 + 1) with (q' + 3) in * by lia.
    msimp. destruct ((b0 =? c) || (b0 =? 0)); [done|]. msimp.
    destruct ((b1 =? c) || (b1 =? 0)); [done|]. msimp.
    destruct ((b2 =? c) || (b2 =? 0)); [done|]. msimp.
    by destruct ((b3 =? c) || (b3 =? 0)).
Qed.

Section AlignLoop.
(** The byte loop up to the first word boundary, for either verdict. *)
Context (f : Z -> Z -> option Z) (body : Z -> M (Z + (Z + Z))).
Context (body_ok : forall q s, body q s =
  (if negb (Z.land q 3 =? 0) then
     let* b := load8 q in
     match f q b with Some r => leave (inr r) | None => again (q + 1) end
   else leave (inl q)) s).

Lemma align_loop l q r s :
  bytes_at (mem s) q l -> 0 <= q -> scan f q l = Some r ->
  lrun body (Z.of_nat (length l) + 1) q s (inr r) s \/
  exists l1 l2, l = l1 ++ l2 /\ scan f (q + Z.of_nat (length l1)) l2 = Some r /\
    (q + Z.of_nat (length l1)) mod 4 = 0 /\
    lrun body (Z.of_nat (length l) + 1) q s (inl (q + Z.of_nat (length l1))) s.
Proof.
  revert q. induction l as [|b l IH]; intros q Hb Hq Hs; [done|].
  destruct Hb as [Hx Hb]. pose proof (body_ok q s) as HB. rewrite land3 in HB by done.
  destruct (Z.eqb_spec (q mod 4) 0) as [E|E]; simpl in HB.
  - right. exists [], (b :: l). rewrite Z.add_0_r. do 3 (split; [done|]).
    apply lrun_done; [done|lia].
  - rewrite (bind_ok _ _ _ _ _ (load8_ok _ _ _ Hx)) in HB. simpl in Hs.
    destruct (f q b) as [r'|].
    + left. simplify_eq. apply lrun_done; [done|lia].
    + destruct (IH (q + 1) Hb ltac:(lia) Hs) as [Hr|(l1 & l2 & -> & Hs' & Hm & Hr)].
      * left. eapply lrun_next; [exact HB|]. eapply lrun_weaken; [done|simpl; lia].
      * right. exists (b :: l1), l2. simpl length.
        replace (q + Z.of_nat (S (length l1))) with (q + 1 + Z.of_nat (length l1)) by lia.
        do 3 (split; [done|]). eapply lrun_next; [exact HB|].
        eapply lrun_weaken; [done|simpl; lia].
Qed.
End AlignLoop.

(** The bytes from [p] to the end of the last word a string touches. *)
Lemma string_tail m p l :
  cstr m p l -> word_readable m p (Z.of_nat (length l) + 1) ->
  exists tl, bytes_at m p (l ++ 0 :: tl) /\ Forall is_byte (l ++ 0 :: tl) /\
    (p + Z.of_nat (length (l ++ 0 :: tl))) mod 4 = 0 /\ (length tl < 4)%nat.
Proof.
  intros Hs (Hwf & _ & Ht). pose proof (cstr_bytes _ _ _ Hs) as Hb.
  set (e := p + (Z.of_nat (length l) + 1)) in *.
  pose proof (Z.mod_pos_bound (- e) 4 ltac:(lia)).
  rewrite <- (Z2Nat.id (- e mod 4)) in Ht by lia.
  destruct (mapped_bytes_at _ _ _ Ht) as (tl & Lt & Bt). exists tl.
  assert (B : bytes_at m p (l ++ 0 :: tl)).
  { change (0 :: tl) with ([0] ++ tl). rewrite app_assoc, bytes_at_app. split; [done|].
    rewrite length_app. by replace (p + Z.of_nat (length l + length [0])) with e
      by (unfold e; simpl; lia). }
  split; [done|]. split; [by eapply bytes_at_wf|]. split; [|lia].
  rewrite length_app. simpl length.
  assert (He : e = p + (Z.of_nat (length l) + 1)) by done. clearbody e.
  replace (p + Z.of_nat (length l + S (length tl))) with (e + - e mod 4) by lia.
  rewrite Z.add_mod_idemp_r by lia. by replace (e + - e) with 0 by lia.
Qed.

Section GnuSearch.
Context (c : Z) (Hc : is_byte c) (f : Z -> Z -> option Z).
Context (abody : Z -> M (Z + (Z + Z))) (lbody : Z -> M (Z + Z)).
Context (abody_ok : forall q s, abody q s =
  (if negb (Z.land q 3 =? 0) then
     let* b := load8 q in
     match f q b with Some r => leave (inr r) | None => again (q + 1) end
   else leave (inl q)) s).
Context (lbody_ok : forall l q r s, bytes_at (mem s) q l -> Forall is_byte l ->
  (length l mod 4 = 0)%nat -> q mod 4 = 0 -> scan f q l = Some r ->
  lrun lbody (Z.of_nat (length l)) q s r s).

Lemma gnu_search p l r s :
  cstr (mem s) p l -> word_readable (mem s) p (Z.of_nat (length l) + 1) ->
  (forall tl, scan f p (l ++ 0 :: tl) = Some r) ->
  (let* o := loop abody p in
   match o with inr r => ret r | inl q => loop lbody q end) s = Ok r s.
Proof.
  intros Hs Hw Hf. pose proof (cstr_pos _ _ _ Hs). pose proof (cstr_len _ _ _ Hs).
  destruct (string_tail _ _ _ Hs Hw) as (tl & Hb & HF & H4 & Hl).
  assert (HN : Z.of_nat (length (l ++ 0 :: tl)) <= 4294967300)
    by (rewrite length_app; simpl; zlia).
  destruct (align_loop f abody abody_ok _ p r s Hb ltac:(lia) (Hf tl))
    as [Hr|(l1 & l2 & E & Hs2 & Hm & Hr)].
  - erewrite bind_ok; [|eapply loop_lrun; [exact Hr|lia]]. done.
  - erewrite bind_ok; [|eapply loop_lrun; [exact Hr|lia]]. rewrite E in *.
    rewrite length_app in *. fcons. apply bytes_at_app in Hb as [_ Hb].
    eapply loop_lrun; [apply lbody_ok; [done|done| |done|done]|lia].
    apply Nat2Z.inj. rewrite Nat2Z.inj_mod.
    Z.div_mod_to_equations. lia.
Qed.
End GnuSearch.

(** the GNU [strchr] kept in the library finds the first occurrence of the
    character, the terminator counting as one. *)
Lemma glibc_strchr_correct p l c s :
  cstr (mem s) p l -> word_readable (mem s) p (Z.of_nat (length l) + 1) ->
  glibc_strchr p c s = Ok (ptr_at p (find_byte (u8 c) (l ++ [0]))) s.
Proof.
  intros Hs Hw. unfold glibc_strchr. rewrite charmask_spec by auto with clib.
  eapply (gnu_search (strchr_verdict (u8 c))); [| |done|done|].
  - intros q s'. unfold strchr_align_body, strchr_verdict. destruct (negb _); [|done].
    unfold bind. destruct (load8 q s') as [b s''| |]; try done.
    by destruct (b =? u8 c), (b =? 0).
  - intros. by apply strchr_long; auto with clib.
  - intros tl. apply scan_strchr. eauto with clib.
Qed.

(** [strchrnul] points to the first occurrence of the character, or to the
    terminator when there is none. *)
Lemma strchrnul_correct p l c s :
  cstr (mem s) p l -> word_readable (mem s) p (Z.of_nat (length l) + 1) ->
  strchrnul p c s =
  Ok (p + Z.of_nat (match find_byte (u8 c) l with Some i => i | None => length l end)) s.
Proof.
  intros Hs Hw. unfold strchrnul. rewrite charmask_spec by auto with clib.
  eapply (gnu_search (strchrnul_verdict (u8 c))); [| |done|done|].
  - intros q s'. unfold strchrnul_align_body, strchrnul_verdict. destruct (negb _); [|done].
    unfold bind. destruct (load8 q s') as [b s''| |]; try done.
    by destruct (b =? u8 c), (b =? 0).
  - intros. by apply strchrnul_long; auto with clib.
  - intros tl. apply scan_strchrnul. eauto with clib.
Qed.

(** *** [strchr]: the PowerPC routine

    It carries two words: the word of the string and its exclusive-or with
    the byte looked for.  [scan2] is the search over the pairs of their
    bytes: a zero second component is a match, a zero first one the end. *)
Fixpoint scan2 (p : Z) (l : list (Z * Z)) : option Z :=
  match l with
  | [] => None
  | (b, x) :: l' =>
      if x =? 0 then Some p else if b =? 0 then Some NULL else scan2 (p + 1) l'
  end.

Lemma scan2_app p l1 l2 :
  scan2 p (l1 ++ l2) =
  match scan2 p l1 with Some r => Some r | None => scan2 (p + Z.of_nat (length l1)) l2 end.
Proof.
  revert p. induction l1 as [|[b x] l1 IH]; intros p; simpl; [by rewrite Z.add_0_r|].
  destruct (x =? 0), (b =? 0); try done. rewrite IH. destruct (scan2 (p + 1) l1); [done|].
  f_equal. lia.
Qed.

Definition with_xor (c b : Z) : Z * Z := (b, Z.lxor c b).

Lemma scan2_strchr c p l : scan2 p (with_xor c <$> l) = scan (strchr_verdict c) p l.
Proof.
  revert p. induction l as [|b l IH]; intros p; [done|]. simpl. unfold strchr_verdict at 1.
  destruct (Z.eqb_spec b c) as [->|Hne].
  - by rewrite Z.lxor_nilpotent.
  - destruct (Z.eqb_spec (Z.lxor c b) 0) as [E|_]; [by apply Z.lxor_eq in E|].
    by destruct (b =? 0).
Qed.

Lemma ppc_zero_test x : Z.land (u32 (rFEFE + x)) (nor32 r7F7F x) = zero_test x.
Proof.
  unfold zero_test, nor32, rFEFE, r7F7F. by rewrite (Z.add_comm _ x), (Z.lor_comm _ x).
Qed.

Lemma ppc_zero_mask x :
  nor32 (Z.lor r7F7F x) (u32 (Z.land r7F7F x + r7F7F)) = zero_mask x.
Proof.
  unfold zero_mask, nor32, r7F7F.
  rewrite (Z.land_comm _ x), (Z.lor_comm _ (u32 _)), (Z.lor_comm _ x).
  by rewrite Z.lor_assoc.
Qed.

(** A byte and its companion: their exclusive-or is [c], or both are a byte
    before the string, forced to 0xFF. *)
Definition paired (c b x : Z) : Prop := x = Z.lxor c b \/ (b = 255 /\ x = 255).

Lemma paired_zero c b x :
  paired c b x -> if c =? 0 then (b =? 0) = (x =? 0) else (b =? 0) && (x =? 0) = false.
Proof.
  intros [->|[-> ->]]; [|by destruct (c =? 0)].
  destruct (Z.eqb_spec c 0) as [->|Hc]; [by rewrite Z.lxor_0_l|].
  destruct (Z.eqb_spec b 0) as [->|]; [|done]. rewrite Z.lxor_0_r. simpl. lia.
Qed.

(** Which result the comparison of the two masks selects. *)
Lemma ppc_select c q b0 b1 b2 b3 x0 x1 x2 x3 :
  is_byte b0 -> is_byte b1 -> is_byte b2 -> is_byte b3 ->
  is_byte x0 -> is_byte x1 -> is_byte x2 -> is_byte x3 ->
  paired c b0 x0 -> paired c b1 x1 -> paired c b2 x2 -> paired c b3 x3 ->
  ~ no_zero b0 b1 b2 b3 ->
  scan2 q [(b0, x0); (b1, x1); (b2, x2); (b3, x3)] =
  Some (if zero_mask (word_of x0 x1 x2 x3) <? zero_mask (word_of b0 b1 b2 b3) then NULL
        else q + first_zero x0 x1 x2 x3).
Proof.
  intros ???? ???? P0%paired_zero P1%paired_zero P2%paired_zero P3%paired_zero ?.
  rewrite !zero_mask_spec by done. unfold first_zero. simpl scan2.
  assert (Hz : (b0 =? 0) || (b1 =? 0) || (b2 =? 0) || (b3 =? 0) = true)
    by (unfold no_zero in *; lia).
  destruct (c =? 0);
  destruct (b0 =? 0), (b1 =? 0), (b2 =? 0), (b3 =? 0); try done;
    destruct (x0 =? 0), (x1 =? 0), (x2 =? 0), (x3 =? 0); try done; cbv beta iota;
    match goal with |- context [?a <? ?b] =>
      let v := eval vm_compute in (a <? b) in change (a <? b) with v end;
    cbv beta iota; f_equal; lia.
Qed.

Lemma scan2_match q b0 b1 b2 b3 x0 x1 x2 x3 :
  no_zero b0 b1 b2 b3 -> ~ no_zero x0 x1 x2 x3 ->
  scan2 q [(b0, x0); (b1, x1); (b2, x2); (b3, x3)] = Some (q + first_zero x0 x1 x2 x3).
Proof.
  unfold no_zero, first_zero. intros (?&?&?&?) Hx. simpl.
  zb; try lia; f_equal; lia.
Qed.

Lemma scan2_none q b0 b1 b2 b3 x0 x1 x2 x3 :
  no_zero b0 b1 b2 b3 -> no_zero x0 x1 x2 x3 ->
  scan2 q [(b0, x0); (b1, x1); (b2, x2); (b3, x3)] = None.
Proof. unfold no_zero. intros (?&?&?&?) (?&?&?&?). simpl. by zb. Qed.

Lemma scan2_end q b0 b1 b2 b3 x0 x1 x2 x3 :
  ~ no_zero b0 b1 b2 b3 -> no_zero x0 x1 x2 x3 ->
  scan2 q [(b0, x0); (b1, x1); (b2, x2); (b3, x3)] = Some NULL.
Proof. unfold no_zero. intros ? (?&?&?&?). simpl. zb; done || lia. Qed.

Lemma no_zero_dec b0 b1 b2 b3 : no_zero b0 b1 b2 b3 \/ ~ no_zero b0 b1 b2 b3.
Proof. unfold no_zero. lia. Qed.

Lemma shiftr_clz b0 b1 b2 b3 :
  is_byte b0 -> is_byte b1 -> is_byte b2 -> is_byte b3 ->
  Z.shiftr (clz32 (zero_mask (word_of b0 b1 b2 b3))) 3 = first_zero b0 b1 b2 b3.
Proof. intros. rewrite Z.shiftr_div_pow2 by lia. by apply clz_zero_mask. Qed.

Lemma add4_mod q : q mod 4 = 0 -> (q + 4) mod 4 = 0.
Proof. intros. by rewrite <- Z.add_mod_idemp_l, H by lia. Qed.

Lemma zero_test_yes b0 b1 b2 b3 :
  is_byte b0 -> is_byte b1 -> is_byte b2 -> is_byte b3 -> no_zero b0 b1 b2 b3 ->
  (zero_test (word_of b0 b1 b2 b3) =? 0) = true.
Proof. intros. by apply Z.eqb_eq, zero_test_spec. Qed.

Lemma zero_test_no b0 b1 b2 b3 :
  is_byte b0 -> is_byte b1 -> is_byte b2 -> is_byte b3 -> ~ no_zero b0 b1 b2 b3 ->
  (zero_test (word_of b0 b1 b2 b3) =? 0) = false.
Proof. intros. apply Z.eqb_neq. by rewrite zero_test_spec. Qed.

Lemma strchr_ppc_loop c l q r b0 b1 b2 b3 x0 x1 x2 x3 s :
  is_byte c -> bytes_at (mem s) (q + 4) l -> Forall is_byte l -> (length l mod 4 = 0)%nat ->
  q mod 4 = 0 ->
  is_byte b0 -> is_byte b1 -> is_byte b2 -> is_byte b3 ->
  is_byte x0 -> is_byte x1 -> is_byte x2 -> is_byte x3 ->
  paired c b0 x0 -> paired c b1 x1 -> paired c b2 x2 -> paired c b3 x3 ->
  scan2 q ([(b0, x0); (b1, x1); (b2, x2); (b3, x3)] ++ (with_xor c <$> l)) = Some r ->
  (no_zero b0 b1 b2 b3 -> 0 ∈ l) ->
  lrun (strchr_ppc_body (word_of c c c c)) (Z.of_nat (length l) + 1)
    (q, word_of b0 b1 b2 b3, word_of x0 x1 x2 x3, zero_test (word_of b0 b1 b2 b3)) s r s.
Proof.
  intros Hc. remember (length l) as n eqn:Hn. revert l Hn q b0 b1 b2 b3 x0 x1 x2 x3.
  induction (lt_wf n) as [n _ IH].
  intros l -> q b0 b1 b2 b3 x0 x1 x2 x3 Hb HF H4 Hq ???? ???? ???? Hs Hz.
  rewrite scan2_app in Hs.
  destruct (no_zero_dec b0 b1 b2 b3) as [Nb|Nb].
  - destruct (list4_split l) as (c0 & c1 & c2 & c3 & l' & -> & Hl');
      [done|intros ->; by apply Hz, elem_of_nil in Nb|].
    specialize (Hz Nb). pose proof Hb as (B0 & B1 & B2 & B3 & Hb').
    pose proof (load32_ok (q + 4) s c0 c1 c2 c3 (add4_mod _ Hq)
      ltac:(simpl; auto)) as HL. fcons.
    destruct (no_zero_dec x0 x1 x2 x3) as [Nx|Nx].
    + rewrite scan2_none in Hs by done. eapply lrun_next.
      { unfold strchr_ppc_body. rewrite !ppc_zero_test, zero_test_yes by done.
        rewrite (bind_ok _ _ _ _ _ HL), zero_test_yes, lxor_word, ppc_zero_test by done.
        done. }
      eapply lrun_weaken; [eapply (IH (length l')); [simpl; lia|done|..]|simpl; lia];
        unfold paired; auto using add4_mod with clib.
      * by replace (q + 4 + 4) with (q + 4 + 1 + 1 + 1 + 1) by lia.
      * intros (?&?&?&?). rewrite !elem_of_cons in Hz. by intuition congruence.
    + rewrite scan2_match in Hs by done. injection Hs as <-.
      apply lrun_done; [|lia]. unfold strchr_ppc_body.
      rewrite !ppc_zero_test, ppc_zero_mask, shiftr_clz, zero_test_yes by done.
      by rewrite (bind_ok _ _ _ _ _ HL), zero_test_no by done.
  - apply lrun_done; [|lia]. unfold strchr_ppc_body.
    rewrite !ppc_zero_test, !ppc_zero_mask, shiftr_clz, zero_test_no by done.
    destruct (no_zero_dec x0 x1 x2 x3) as [Nx|Nx].
    + rewrite scan2_end in Hs by done. injection Hs as <-. by rewrite zero_test_yes by done.
    + rewrite (ppc_select c) in Hs by done. injection Hs as <-.
      rewrite zero_test_no by done. by destruct (_ <? _).
Qed.

(** Rotations by whole bytes, and insertions under a mask of whole bytes. *)
Lemma rotl32_8 a0 a1 a2 a3 :
  is_byte a0 -> is_byte a1 -> is_byte a2 -> is_byte a3 ->
  rotl32 (word_of a0 a1 a2 a3) 8 = word_of a1 a2 a3 a0.
Proof.
  intros. unfold rotl32.
  replace (u32 _) with (word_of a1 a2 a3 0).
  - replace (Z.shiftr _ _) with (word_of 0 0 0 a0).
    + rewrite lor_word by auto with clib. by rewrite !Z.lor_0_r, Z.lor_0_l.
    + rewrite Z.shiftr_div_pow2 by lia. change (2 ^ (32 - 8)) with 16777216.
      unfold word_of, is_byte in *. Z.div_mod_to_equations. lia.
  - rewrite Z.shiftl_mul_pow2 by lia. change (2 ^ 8) with 256.
    unfold u32, word_of, is_byte in *. Z.div_mod_to_equations. lia.
Qed.

Lemma rotl32_16 a0 a1 a2 a3 :
  is_byte a0 -> is_byte a1 -> is_byte a2 -> is_byte a3 ->
  rotl32 (word_of a0 a1 a2 a3) 16 = word_of a2 a3 a0 a1.
Proof.
  intros. unfold rotl32.
  replace (u32 _) with (word_of a2 a3 0 0).
  - replace (Z.shiftr _ _) with (word_of 0 0 a0 a1).
    + rewrite lor_word by auto with clib. by rewrite !Z.lor_0_r, !Z.lor_0_l.
    + rewrite Z.shiftr_div_pow2 by lia. change (2 ^ (32 - 16)) with 65536.
      unfold word_of, is_byte in *. Z.div_mod_to_equations. lia.
  - rewrite Z.shiftl_mul_pow2 by lia. change (2 ^ 16) with 65536.
    unfold u32, word_of, is_byte in *. Z.div_mod_to_equations. lia.
Qed.

Lemma land_255 b : is_byte b -> Z.land b 255 = b.
Proof.
  intros. change 255 with (Z.ones 8). rewrite Z.land_ones by lia.
  apply Z.mod_small. change (2 ^ 8) with 256. zlia.
Qed.

(** A 32-bit register by its bytes. *)
Lemma u32_bytes c :
  exists b0 b1 b2, is_byte b0 /\ is_byte b1 /\ is_byte b2 /\
    u32 c = word_of b0 b1 b2 (u8 c).
Proof.
  exists (u32 c / 16777216), (u32 c / 65536 mod 256), (u32 c / 256 mod 256).
  unfold word_of, u8, is_byte, u32. Z.div_mod_to_equations. lia.
Qed.

(** The byte looked for, repeated in every byte of a register. *)
Lemma rCHR_spread c :
  rlwimi (rlwimi (u32 c) (u32 c) 8 16 23) (rlwimi (u32 c) (u32 c) 8 16 23) 16 0 15 =
  word_of (u8 c) (u8 c) (u8 c) (u8 c).
Proof.
  destruct (u32_bytes c) as (b0 & b1 & b2 & ? & ? & ? & ->).
  pose proof (u8_range c : is_byte _). set (b3 := u8 c) in *. clearbody b3.
  assert (E : rlwimi (word_of b0 b1 b2 b3) (word_of b0 b1 b2 b3) 8 16 23 = word_of b0 b1 b3 b3).
  { unfold rlwimi. rewrite rotl32_8 by done. change (mask32 16 23) with (word_of 0 0 255 0).
    change (not32 _) with (word_of 255 255 0 255).
    rewrite !land_word by auto with clib. rewrite !Z.land_0_r, !land_255 by done.
    rewrite lor_word by auto with clib. by rewrite !Z.lor_0_r, !Z.lor_0_l. }
  rewrite E. unfold rlwimi. rewrite rotl32_16 by done.
  change (mask32 0 15) with (word_of 255 255 0 0). change (not32 _) with (word_of 0 0 255 255).
  rewrite !land_word by auto with clib. rewrite !Z.land_0_r, !land_255 by done.
  rewrite lor_word by auto with clib. by rewrite !Z.lor_0_r, !Z.lor_0_l.
Qed.

(** The mask of the bytes before the string, from the low bits of its address. *)
Lemma strchr_ppc_mask p w :
  is_u32 p -> orc32 w (Z.shiftr 0xFFFFFFFF (rlwinm p 3 27 28)) = Z.lor w (ffmask (p mod 4)).
Proof.
  intros Hp. unfold orc32. f_equal.
  assert (E : rlwinm p 3 27 28 = 8 * (p mod 4)).
  { unfold rlwinm, rotl32. change (mask32 27 28) with (Z.shiftl (Z.ones 2) 3).
    apply Z.bits_inj'. intros n Hn. rewrite Z.land_spec, Z.lor_spec.
    replace (8 * (p mod 4)) with (Z.shiftl (Z.land p (Z.ones 2)) 3)
      by (rewrite Z.land_ones, Z.shiftl_mul_pow2 by lia; change (2 ^ 2) with 4; lia).
    rewrite !Z.shiftl_spec, Z.land_spec by lia. unfold u32.
    change 4294967296 with (2 ^ 32).
    destruct (Z.testbit (Z.ones 2) (n - 3)) eqn:Et; [|by rewrite !andb_false_r].
    rewrite Z.testbit_ones in Et by lia.
    rewrite Z.mod_pow2_bits_low, Z.shiftl_spec by lia.
    rewrite Z.shiftr_spec by lia. rewrite (Z.bits_above_log2 p (n + (32 - 3))).
    - by rewrite orb_false_r.
    - zlia.
    - destruct (Z.eq_dec p 0) as [->|]; [simpl; lia|]. apply Z.log2_lt_pow2; [zlia|].
      assert (2 ^ 32 <= 2 ^ (n + (32 - 3))) by (apply Z.pow_le_mono_r; lia). zlia. }
  rewrite E. pose proof (Z.mod_pos_bound p 4 ltac:(lia)).
  assert (K : p mod 4 = 0 \/ p mod 4 = 1 \/ p mod 4 = 2 \/ p mod 4 = 3) by lia.
  by destruct K as [->|[->|[->| ->]]].
Qed.

Lemma ff_paired i k c b : paired c (ff i k b) (ff i k (Z.lxor c (ff i k b))).
Proof. unfold paired, ff. destruct (i <? k); auto. Qed.

Lemma scan2_skip k q l :
  scan2 q (replicate k (255, 255) ++ l) = scan2 (q + Z.of_nat k) l.
Proof.
  revert q. induction k as [|k IH]; intros q; simpl; [by rewrite Z.add_0_r|].
  rewrite IH. change (255 =? 0) with false. cbv iota. f_equal. lia.
Qed.

(** The search over the first word and the following ones, from the bytes of
    the string. *)
Lemma scan2_first c k l q b0 b1 b2 b3 r :
  is_byte c -> (k < 4)%nat ->
  replicate k 255 ++ l = ff 0 (Z.of_nat k) b0 :: ff 1 (Z.of_nat k) b1 :: ff 2 (Z.of_nat k) b2 :: b3 :: r ->
  scan2 q ([(ff 0 (Z.of_nat k) b0, ff 0 (Z.of_nat k) (Z.lxor c (ff 0 (Z.of_nat k) b0)));
            (ff 1 (Z.of_nat k) b1, ff 1 (Z.of_nat k) (Z.lxor c (ff 1 (Z.of_nat k) b1)));
            (ff 2 (Z.of_nat k) b2, ff 2 (Z.of_nat k) (Z.lxor c (ff 2 (Z.of_nat k) b2)));
            (b3, Z.lxor c b3)] ++ (with_xor c <$> r)) =
  scan (strchr_verdict c) (q + Z.of_nat k) l.
Proof.
  intros Hc Hk E. rewrite <- scan2_strchr, <- scan2_skip. f_equal.
  destruct k as [|[|[|[|k]]]]; try lia; simpl in E; by simplify_eq.
Qed.

Lemma strchr_ok p l c s :
  cstr (mem s) p l -> word_readable (mem s) p (Z.of_nat (length l) + 1) ->
  strchr p c s = Ok (ptr_at p (find_byte (u8 c) (l ++ [0]))) s.
Proof.
  intros Hs Hw. pose proof (cstr_pos _ _ _ Hs). pose proof (cstr_len _ _ _ Hs).
  pose proof (cstr_chars _ _ _ Hs) as Hc. assert (Hp : is_u32 p) by zlia.
  destruct (string_words _ _ _ Hs Hw) as (k & b0 & b1 & b2 & b3 & r & tl & Hk & Hb & HF & Hr & Ht & E).
  pose proof (Z.mod_pos_bound p 4 ltac:(lia)). pose proof (u8_range c : is_byte _) as Hu.
  pose proof Hb as (B0 & B1 & B2 & B3 & Hb'). fcons.
  unfold strchr, strchr_ppc. rewrite rCHR_spread, align4_spec by done.
  erewrite bind_ok; [|apply (load32_ok _ _ b0 b1 b2 b3); [by apply aligned_mod|simpl; auto]].
  rewrite !strchr_ppc_mask by done.
  rewrite lor_ffmask, lxor_word, lor_ffmask, ppc_zero_test by auto with clib.
  eapply loop_lrun; [eapply (strchr_ppc_loop (u8 c) r); auto using ff_paired, aligned_mod with clib|].
  - by replace (p - p mod 4 + 4) with (p - p mod 4 + 1 + 1 + 1 + 1) by lia.
  - by left.
  - rewrite <- app_assoc in E. rewrite <- !Hk in E |- *.
    rewrite (scan2_first _ k (l ++ 0 :: tl)) by (done || lia).
    replace (p - Z.of_nat k + Z.of_nat k) with p by lia. apply scan_strchr. done.
  - intros (?&?&?&?). assert (Hz : 0 ∈ (replicate k 255 ++ l) ++ 0 :: tl)
      by (rewrite elem_of_app, elem_of_cons; auto).
    rewrite E, !elem_of_cons in Hz. by intuition congruence.
  - assert (L : length ((replicate k 255 ++ l) ++ 0 :: tl) = S (S (S (S (length r))))) by by rewrite E.
    rewrite !length_app, length_replicate in L. simpl in L. zlia.
Qed.

(** C1: [strchr], by the PowerPC routine, finds the first occurrence of the
    character in a string at any alignment, the terminator counting as one;
    it is the same function as the GNU one. *)
Theorem strchr_correct p l c s :
  cstr (mem s) p l -> word_readable (mem s) p (Z.of_nat (length l) + 1) ->
  strchr p c s = Ok (ptr_at p (find_byte (u8 c) (l ++ [0]))) s /\
  index p c s = strchr p c s.
Proof. intros. split; [by apply strchr_ok|done]. Qed.

Lemma word_readable_intro m p n :
  mem_wf m -> mapped m (p - p mod 4) (p mod 4) -> mapped m (p + n) (- (p + n) mod 4) ->
  word_readable m p n.
Proof. done. Qed.
Ltac ground_words := apply word_readable_intro; ground.

Lemma strchr_correct_witness :
  let s := boot [(4096, [7; 7] ++ zstr "clib4" ++ [9; 9; 9; 9])] in
  strchr 4098 98 s = Ok 4101 s /\ index 4098 98 s = strchr 4098 98 s.
Proof. apply (strchr_correct 4098 (bytes "clib4") 98); [ground|ground_words]. Defined.

(** The other scans on the same memory. *)
Local Abbreviation sample := (boot [(4096, [7; 7] ++ zstr "clib4" ++ [9; 9; 9; 9])]).

Lemma strlen_correct_witness :
  strlen 4098 sample = Ok 5 sample /\ strnlen 4098 3 sample = Ok 3 sample /\
  strnlen NULL 3 sample = Ok 0 (put_errno sample EFAULT).
Proof. apply (strlen_correct 4098 (bytes "clib4") 3); [ground|ground_words|zlia]. Defined.

Lemma memchr_correct_witness : memchr 4096 98 8 sample = Ok 4101 sample.
Proof.
  apply (memchr_correct 4096 [7; 7; 99; 108; 105; 98; 52; 0] 98);
    [ground|repeat constructor; zlia|done|split; vm_compute; congruence].
Defined.

(** The GNU [strchr] kept in the library returns a pointer to the first
    occurrence of the character, the terminator counting as one, or NULL;
    [strchrnul] a pointer to the first occurrence or to the terminator.  Both
    scan by words from any alignment and change nothing. *)
Theorem strchr_variants_correct :
  (forall p l c s, cstr (mem s) p l -> word_readable (mem s) p (Z.of_nat (length l) + 1) ->
  glibc_strchr p c s = Ok (ptr_at p (find_byte (u8 c) (l ++ [0]))) s) /\
  (forall p l c s, cstr (mem s) p l -> word_readable (mem s) p (Z.of_nat (length l) + 1) ->
  strchrnul p c s =
  Ok (p + Z.of_nat (match find_byte (u8 c) l with Some i => i | None => length l end)) s).
Proof.
  split; [exact glibc_strchr_correct|]. exact strchrnul_correct.
Qed.

Lemma strchr_variants_correct_witness :
  (glibc_strchr 4098 0 sample = Ok 4103 sample) /\
  (strchrnul 4098 122 sample = Ok 4103 sample).
Proof.
  split.
  { apply ((proj1 strchr_variants_correct) 4098 (bytes "clib4") 0); [ground|ground_words]. }
  apply ((proj2 strchr_variants_correct) 4098 (bytes "clib4") 122); [ground|ground_words].
Defined.

(** [strrchr] points to the last occurrence of the character, the terminator
    counting as one, or is NULL; [memrchr] to the last occurrence of the byte
    in the buffer or is NULL, reading nothing outside it. *)
Theorem last_occurrence_correct :
  (forall p l c s, cstr (mem s) p l ->
  strrchr p c s = Ok (ptr_at p (rfind_byte (u8 c) (l ++ [0]))) s) /\
  (forall p l c s, bytes_at (mem s) p l -> in_space p (Z.of_nat (length l)) ->
  memrchr p c (Z.of_nat (length l)) s = Ok (ptr_at p (rfind_byte (u8 c) l)) s).
Proof.
  split; [exact strrchr_correct|]. exact memrchr_correct.
Qed.

Lemma last_occurrence_correct_witness :
  (strrchr 4098 108 sample = Ok 4099 sample) /\
  (memrchr 4096 7 4 sample = Ok 4097 sample).
Proof.
  split.
  { apply ((proj1 last_occurrence_correct) 4098 (bytes "clib4") 108). ground. }
  apply ((proj2 last_occurrence_correct) 4096 [7; 7; 99; 108] 7); [ground|split; vm_compute; congruence].
Defined.
