(* ===== verification/StrCmp.v ===== *)
(** * Comparing strings and buffers ([library/string])

    [strcmp], [strncmp], [strcasecmp], [strncasecmp], [strcoll], [memcmp],
    [bcmp] and [strverscmp]. *)

From Stdlib Require Import String.
From S2P Require Import Prelude CMem CType Words StrScan.

(** ** The code *)

Definition strcmp_body : Z * Z -> M (Z * Z + Z * Z) := fun '(s1, s2) =>
  let* c1 := load8 s1 in
  let* c2 := load8 s2 in
  if c1 =? c2 then
    if c1 =? 0 then leave (s1, s2) else again (s1 + 1, s2 + 1)
  else leave (s1, s2).

Definition strcmp (s1 s2 : Z) : M Z :=
  if negb (s1 =? s2) then
    let* (s1, s2) := loop strcmp_body (s1, s2) in
    let* c1 := load8 s1 in
    let* c2 := load8 s2 in
    ret (c1 - c2)
  else ret 0.

(** An iteration of [while (n-- > 0)] starts with the value of [n] it
    tests. *)
Definition strncmp_body : Z * Z * Z -> M (Z * Z * Z + Z) := fun '(s1, s2, n) =>
  if 0 <? n then
    let n := n - 1 in
    let* c1 := load8 s1 in
    let* c2 := load8 s2 in
    if c1 =? c2 then
      if c1 =? 0 then leave 0 else again (s1 + 1, s2 + 1, n)
    else leave (c1 - c2)
  else leave 0.

Definition strncmp (s1 s2 n : Z) : M Z :=
  if (s1 =? NULL) || (s2 =? NULL) then set_errno EFAULT ;; ret 0
  else if negb (s1 =? s2) && (0 <? s32 n) then loop strncmp_body (s1, s2, n)
  else ret 0.

(** [strcoll]: [collate] is [StrnCmp] of locale.library on the [LC_COLLATE]
    entry of the locale table, [None] when there is none. *)
Definition strcoll (collate : option (Z -> Z -> M Z)) (s1 s2 : Z) : M Z :=
  if (s1 =? NULL) || (s2 =? NULL) then set_errno EFAULT ;; ret 0
  else match collate with
       | Some StrnCmp => StrnCmp s1 s2
       | None => strcmp s1 s2
       end.

Section CaseCmp.
Context (lc : option Locale).

Definition strcasecmp_body : Z * Z -> M (Z * Z + Z) := fun '(s1, s2) =>
  let* b1 := load8 s1 in
  let c1 := u8 (toupper lc b1) in
  let* b2 := load8 s2 in
  let c2 := u8 (toupper lc b2) in
  if c1 =? c2 then
    if c1 =? 0 then leave (c1 - c2) else again (s1 + 1, s2 + 1)
  else leave (c1 - c2).

Definition strcasecmp (s1 s2 : Z) : M Z :=
  if (s1 =? NULL) || (s2 =? NULL) then set_errno EFAULT ;; ret 0
  else if negb (s1 =? s2) then loop strcasecmp_body (s1, s2)
  else ret 0.

Definition strncasecmp_body : Z * Z * Z -> M (Z * Z * Z + Z) := fun '(s1, s2, n) =>
  if 0 <? n then
    let n := n - 1 in
    let* b1 := load8 s1 in
    let c1 := u8 (toupper lc b1) in
    let* b2 := load8 s2 in
    let c2 := u8 (toupper lc b2) in
    if c1 =? c2 then
      if c1 =? 0 then leave 0 else again (s1 + 1, s2 + 1, n)
    else leave (c1 - c2)
  else leave 0.

Definition strncasecmp (s1 s2 n : Z) : M Z :=
  if (s1 =? NULL) || (s2 =? NULL) then set_errno EFAULT ;; ret 0
  else if negb (s1 =? s2) then loop strncasecmp_body (s1, s2, n)
  else ret 0.
End CaseCmp.

(** *** [memcmp] *)

Definition IS_UNALIGNED (a : Z) : bool := negb (Z.land a 1 =? 0).
Definition IS_SHORT_ALIGNED (a : Z) : bool := Z.land a 3 =? 2.
Definition IS_LONG_ALIGNED (a : Z) : bool := Z.land a 3 =? 0.

(** The blocks before the label [out] hand over [m1], [m2], [len] and whether
    they jumped to it. *)
Definition memcmp_odd (m1 m2 len : Z) : M (bool * (Z * Z * Z)) :=
  if IS_UNALIGNED m1 && IS_UNALIGNED m2 then
    let len := len - 1 in
    let* b1 := load8 m1 in
    let* b2 := load8 m2 in
    if negb (b1 =? b2) then ret (true, (m1, m2, len))
    else ret (false, (m1 + 1, m2 + 1, len))
  else ret (false, (m1, m2, len)).

Definition memcmp_short (m1 m2 len : Z) : M (bool * (Z * Z * Z)) :=
  if (2 <=? len) && IS_SHORT_ALIGNED m1 && IS_SHORT_ALIGNED m2 then
    let* w1 := load16 m1 in
    let* w2 := load16 m2 in
    if negb (w1 =? w2) then ret (true, (m1, m2, len))
    else ret (false, (m1 + 2, m2 + 2, len - 2))
  else ret (false, (m1, m2, len)).

Definition memcmp_long_body : Z * Z * Z -> M (Z * Z * Z + Z * Z * Z) :=
  fun '(m1, m2, len) =>
  let* w1 := load32 m1 in
  let* w2 := load32 m2 in
  if negb (w1 =? w2) then leave (m1, m2, len)
  else
    let m1 := m1 + 4 in
    let m2 := m2 + 4 in
    let len := len - 4 in
    if 4 <=? len then again (m1, m2, len) else leave (m1, m2, len).

Definition memcmp_long (m1 m2 len : Z) : M (Z * Z * Z) :=
  if (4 <=? len) && IS_LONG_ALIGNED m1 && IS_LONG_ALIGNED m2 then
    loop memcmp_long_body (m1, m2, len)
  else ret (m1, m2, len).

(** The loop at [out]; [result] is what it returns when it finds no
    difference. *)
Definition memcmp_out_body (result : Z) : Z * Z * Z -> M (Z * Z * Z + Z) :=
  fun '(m1, m2, len) =>
  if 0 <? len then
    let* b1 := load8 m1 in
    let* b2 := load8 m2 in
    if negb (b1 =? b2) then leave (b1 - b2) else again (m1 + 1, m2 + 1, len - 1)
  else leave result.

Section MemCmp.
(** Whether plain [char] is signed: the value the first block stores in
    [result] depends on it. *)
Context (char_signed : bool).
Definition char_diff (b1 b2 : Z) : Z :=
  let c b := if char_signed && (128 <=? b) then b - 256 else b in c b1 - c b2.

Definition memcmp_inner (m1 m2 len : Z) : M Z :=
  if 16 <? len then
    let* (out, (m1, m2, len)) := memcmp_odd m1 m2 len in
    if out : bool then
      let* b1 := load8 m1 in
      let* b2 := load8 m2 in
      loop (memcmp_out_body (char_diff b1 b2)) (m1, m2, len)
    else
      let* (out, (m1, m2, len)) := memcmp_short m1 m2 len in
      let* (m1, m2, len) :=
        if out : bool then ret (m1, m2, len) else memcmp_long m1 m2 len in
      loop (memcmp_out_body 0) (m1, m2, len)
  else loop (memcmp_out_body 0) (m1, m2, len).

Definition memcmp (ptr1 ptr2 len : Z) : M Z :=
  if negb (ptr1 =? ptr2) && (0 <? len) then memcmp_inner ptr1 ptr2 len
  else set_errno EFAULT ;; ret 0.
Definition bcmp (a b len : Z) : M Z := memcmp a b len.
End MemCmp.

(** *** [strverscmp] *)

Definition S_N : Z := 0.
Definition S_I : Z := 3.
Definition S_F : Z := 6.
Definition S_Z : Z := 9.
Definition CMP : Z := 2.
Definition LEN : Z := 3.

Definition next_state : list Z :=
  [S_N; S_I; S_Z;
   S_N; S_I; S_I;
   S_N; S_F; S_F;
   S_N; S_F; S_Z].

Definition result_type : list Z :=
  [CMP; CMP; CMP; CMP; LEN; CMP; CMP; CMP; CMP;
   CMP; -1; -1; 1; LEN; LEN; 1; LEN; LEN;
   CMP; CMP; CMP; CMP; CMP; CMP; CMP; CMP; CMP;
   CMP; 1; 1; -1; CMP; CMP; -1; CMP; CMP].

(** An access to a table of constants. *)
Definition table (t : list Z) (i : Z) : M Z := fun s =>
  match (if i <? 0 then None else t !! Z.to_nat i) with Some v => Ok v s | None => Fault end.

(** [(c == '0') + (isdigit(c) != 0)] *)
Definition symbol (c : Z) : Z := Z.b2z (c =? 48) + Z.b2z (m_isdigit c).

(** [p1], [p2], [c1], [c2] and [state]; it leaves when the characters differ,
    or with [None] when both strings end. *)
Definition vers_body : Z * Z * Z * Z * Z -> M (Z * Z * Z * Z * Z + option (Z * Z * Z * Z * Z)) :=
  fun '(p1, p2, c1, c2, state) =>
  if c1 - c2 =? 0 then
    if c1 =? 0 then leave None
    else
      let* state := table next_state state in
      let* c1 := load8 p1 in
      let* c2 := load8 p2 in
      again (p1 + 1, p2 + 1, c1, c2, state + symbol c1)
  else leave (Some (p1, p2, c1, c2, state)).

(** The loop of case [LEN]: it leaves with [Some p2] when the digits of the
    first string end, with [None] when those of the second do. *)
Definition vers_len_body : Z * Z -> M (Z * Z + option Z) := fun '(p1, p2) =>
  let* d1 := load8 p1 in
  if m_isdigit d1 then
    let* d2 := load8 p2 in
    if negb (m_isdigit d2) then leave None else again (p1 + 1, p2 + 1)
  else leave (Some p2).

(** The code after the main loop, where the strings differ. *)
Definition vers_end (p1 p2 c1 c2 state : Z) : M Z :=
  let diff := c1 - c2 in
  let* state := table result_type (state * 3 + symbol c2) in
  if state =? CMP then ret diff
  else if state =? LEN then
    let* r := loop vers_len_body (p1, p2) in
    match r with
    | None => ret 1
    | Some p2 => let* d := load8 p2 in ret (if m_isdigit d then -1 else diff)
    end
  else ret state.

Definition strverscmp (s1 s2 : Z) : M Z :=
  if s1 =? s2 then ret 0
  else
    let* c1 := load8 s1 in
    let* c2 := load8 s2 in
    let state := S_N + symbol c1 in
    let* r := loop vers_body (s1 + 1, s2 + 1, c1, c2, state) in
    match r with
    | None => ret 0
    | Some (p1, p2, c1, c2, state) => vers_end p1 p2 c1 c2 state
    end.

(** ** What a comparison means

    The difference of the first bytes that differ, or zero. *)
Fixpoint cmp_bytes (l1 l2 : list Z) : Z :=
  match l1, l2 with
  | a :: l1', b :: l2' => if a =? b then cmp_bytes l1' l2' else a - b
  | _, _ => 0
  end.

(** The lexicographic order on strings of unsigned characters. *)
Inductive lex : list Z -> list Z -> Prop :=
  | lex_prefix b l : lex [] (b :: l)
  | lex_lt a b l1 l2 : a < b -> lex (a :: l1) (b :: l2)
  | lex_eq a l1 l2 : lex l1 l2 -> lex (a :: l1) (a :: l2).

Lemma cmp_bytes_anti l1 l2 : cmp_bytes l2 l1 = - cmp_bytes l1 l2.
Proof.
  revert l2. induction l1 as [|a l1 IH]; intros [|b l2]; simpl; try done.
  rewrite IH. destruct (Z.eqb_spec a b), (Z.eqb_spec b a); lia.
Qed.

Lemma cmp_bytes_refl l : cmp_bytes l l = 0.
Proof. induction l; simpl; [done|]. by rewrite Z.eqb_refl. Qed.

Lemma cmp_bytes_zero l1 l2 :
  length l1 = length l2 -> cmp_bytes l1 l2 = 0 <-> l1 = l2.
Proof.
  revert l2. induction l1 as [|a l1 IH]; intros [|b l2] Hl; simpl in *; try done.
  destruct (Z.eqb_spec a b) as [->|Hne].
  - rewrite IH by lia. split; [by intros ->|by intros [= ->]].
  - split; [lia|]. by intros [= -> ->].
Qed.

Lemma cmp_strings_zero l1 l2 :
  Forall is_char l1 -> Forall is_char l2 ->
  cmp_bytes (l1 ++ [0]) (l2 ++ [0]) = 0 <-> l1 = l2.
Proof.
  revert l2. induction l1 as [|a l1 IH]; intros [|b l2] H1 H2; simpl; fcons;
    unfold is_char in *; try done.
  - destruct (Z.eqb_spec 0 b); [lia|]. split; [lia|done].
  - destruct (Z.eqb_spec a 0); [lia|]. split; [lia|done].
  - destruct (Z.eqb_spec a b) as [->|Hne].
    + rewrite IH by done. split; [by intros ->|by intros [= ->]].
    + split; [lia|]. by intros [= -> ->].
Qed.

Lemma cmp_strings_lex l1 l2 :
  Forall is_char l1 -> Forall is_char l2 ->
  cmp_bytes (l1 ++ [0]) (l2 ++ [0]) < 0 <-> lex l1 l2.
Proof.
  revert l2. induction l1 as [|a l1 IH]; intros [|b l2] H1 H2; simpl; fcons;
    unfold is_char in *.
  - split; [lia|]. intros H; inversion H.
  - destruct (Z.eqb_spec 0 b); [lia|]. split; [constructor|lia].
  - destruct (Z.eqb_spec a 0); [lia|]. split; [lia|]. intros H'; inversion H'.
  - destruct (Z.eqb_spec a b) as [->|Hne].
    + rewrite IH by done. split; [by constructor|]. intros H'; inversion H'; [lia|done].
    + split; [intros; apply lex_lt; lia|]. intros H'; inversion H'; lia.
Qed.

Lemma cstr_inj m p l1 l2 : cstr m p l1 -> cstr m p l2 -> l1 = l2.
Proof.
  revert p l2. induction l1 as [|a l1 IH]; intros p l2 H1 H2; destruct l2 as [|b l2]; [done|..].
  - apply cstr_nil in H1. apply cstr_cons in H2 as (H2 & Hc & _). unfold is_char in Hc.
    simplify_eq. lia.
  - apply cstr_nil in H2. apply cstr_cons in H1 as (H1 & Hc & _). unfold is_char in Hc.
    simplify_eq. lia.
  - apply cstr_cons in H1 as (H1 & _ & H1'). apply cstr_cons in H2 as (H2 & _ & H2').
    simplify_eq. f_equal. eauto.
Qed.

(** The first character of a string, or its terminator. *)
Lemma cstr_load m p l : cstr m p l -> m !! p = Some (hd 0 l).
Proof.
  destruct l; [apply cstr_nil|]. intros H. by apply cstr_cons in H as (H & _).
Qed.

(** ** [strcmp] and [strncmp] *)

Lemma strcmp_loop l1 l2 p1 p2 s :
  cstr (mem s) p1 l1 -> cstr (mem s) p2 l2 ->
  exists q1 q2 c1 c2, lrun strcmp_body (Z.of_nat (length l1) + 1) (p1, p2) s (q1, q2) s /\
    mem s !! q1 = Some c1 /\ mem s !! q2 = Some c2 /\
    c1 - c2 = cmp_bytes (l1 ++ [0]) (l2 ++ [0]).
Proof.
  revert l2 p1 p2. induction l1 as [|a l1 IH]; intros l2 p1 p2 H1 H2;
    pose proof (cstr_load _ _ _ H1) as L1; pose proof (cstr_load _ _ _ H2) as L2;
    pose proof (cstr_chars _ _ _ H1) as F1; pose proof (cstr_chars _ _ _ H2) as F2.
  - exists p1, p2, 0, (hd 0 l2). split; [|split; [done|split; [done|]]].
    + apply lrun_done; [|simpl; lia]. unfold strcmp_body. simpl in L1. msimp.
      by destruct (0 =? hd 0 l2).
    + destruct l2 as [|b l2]; simpl; [done|]. destruct (Z.eqb_spec 0 b); [|lia]. lia.
  - simpl in L1. destruct (Z.eq_dec a (hd 0 l2)) as [E|E].
    + destruct l2 as [|b l2]; simpl in E, L2; [fcons; unfold is_char in *; lia|]. subst b.
      apply cstr_cons in H1 as (_ & Ha & H1). apply cstr_cons in H2 as (_ & _ & H2).
      destruct (IH l2 (p1 + 1) (p2 + 1) H1 H2) as (q1 & q2 & c1 & c2 & Hr & HL1 & HL2 & Hc).
      exists q1, q2, c1, c2. split; [|split; [done|split; [done|]]].
      * eapply lrun_next; [|eapply lrun_weaken; [exact Hr|simpl; lia]].
        unfold strcmp_body. msimp. unfold is_char in Ha. by destruct (Z.eqb_spec a 0); [lia|].
      * simpl. by rewrite Z.eqb_refl.
    + exists p1, p2, a, (hd 0 l2). split; [|split; [done|split; [done|]]].
      * apply lrun_done; [|simpl; lia]. unfold strcmp_body. by msimp.
      * destruct l2 as [|b l2]; simpl in *;
          [destruct (Z.eqb_spec a 0)|destruct (Z.eqb_spec a b)]; lia.
Qed.

Lemma strcmp_ok p1 p2 l1 l2 s :
  cstr (mem s) p1 l1 -> cstr (mem s) p2 l2 ->
  strcmp p1 p2 s = Ok (cmp_bytes (l1 ++ [0]) (l2 ++ [0])) s.
Proof.
  intros H1 H2. unfold strcmp. destruct (Z.eqb_spec p1 p2) as [->|Hne]; simpl.
  - by rewrite (cstr_inj _ _ _ _ H1 H2), cmp_bytes_refl.
  - destruct (strcmp_loop _ _ _ _ _ H1 H2) as (q1 & q2 & c1 & c2 & Hr & HL1 & HL2 & <-).
    pose proof (cstr_len _ _ _ H1). pose proof (cstr_pos _ _ _ H1).
    erewrite bind_ok; [|eapply loop_lrun; [exact Hr|zlia]]. by msimp.
Qed.

Lemma strncmp_loop l1 l2 p1 p2 n s :
  cstr (mem s) p1 l1 -> cstr (mem s) p2 l2 ->
  lrun strncmp_body (Z.of_nat (length l1) + 2) (p1, p2, Z.of_nat n) s
    (cmp_bytes (take n (l1 ++ [0])) (take n (l2 ++ [0]))) s.
Proof.
  revert l2 p1 p2 n. induction l1 as [|a l1 IH]; intros l2 p1 p2 n H1 H2;
    pose proof (cstr_load _ _ _ H1) as L1; pose proof (cstr_load _ _ _ H2) as L2;
    (destruct n as [|n]; [apply lrun_done; [done|lia]|]).
  - apply lrun_done; [|simpl; lia]. unfold strncmp_body. simpl in L1.
    rewrite (proj2 (Z.ltb_lt 0 _)) by lia. msimp.
    rewrite !take_nil. destruct l2 as [|b l2]; simpl; [done|]. by destruct (0 =? b).
  - simpl in L1. destruct (Z.eq_dec a (hd 0 l2)) as [E|E].
    + apply cstr_cons in H1 as (_ & Ha & H1). unfold is_char in Ha.
      destruct l2 as [|b l2]; simpl in E, L2; [lia|]. subst b.
      apply cstr_cons in H2 as (_ & _ & H2).
      eapply lrun_next.
      { unfold strncmp_body. rewrite (proj2 (Z.ltb_lt 0 _)) by lia. msimp.
        destruct (Z.eqb_spec a 0); [lia|done]. }
      simpl. rewrite Z.eqb_refl. replace (Z.of_nat (S n) - 1) with (Z.of_nat n) by lia.
      eapply lrun_weaken; [by apply IH|lia].
    + apply lrun_done; [|simpl; lia]. unfold strncmp_body.
      rewrite (proj2 (Z.ltb_lt 0 _)) by lia. msimp.
      destruct l2 as [|b l2]; simpl in *; by rewrite (proj2 (Z.eqb_neq a _) E).
Qed.

Lemma strncmp_ok p1 p2 l1 l2 n s :
  cstr (mem s) p1 l1 -> cstr (mem s) p2 l2 -> 0 <= n < 2147483648 ->
  strncmp p1 p2 n s =
  Ok (cmp_bytes (take (Z.to_nat n) (l1 ++ [0])) (take (Z.to_nat n) (l2 ++ [0]))) s.
Proof.
  intros H1 H2 Hn. unfold strncmp.
  rewrite (cstr_nonnull _ _ _ H1), (cstr_nonnull _ _ _ H2). simpl. rewrite s32_id by lia.
  destruct (Z.eqb_spec p1 p2) as [->|Hne]; simpl.
  - by rewrite (cstr_inj _ _ _ _ H1 H2), cmp_bytes_refl.
  - destruct (Z.ltb_spec 0 n).
    + pose proof (cstr_len _ _ _ H1). pose proof (cstr_pos _ _ _ H1).
      rewrite <- (Z2Nat.id n) at 1 by lia.
      eapply loop_lrun; [by apply strncmp_loop|zlia].
    + by replace n with 0 by lia.
Qed.

(** [strcmp] returns the difference of the first characters that differ, as
    unsigned bytes and counting the terminator; its sign is the lexicographic
    order of the strings and it is zero only for equal strings. [strcoll] is
    the same function when no collating locale is installed. *)
Lemma strcmp_correct p1 p2 l1 l2 s :
  cstr (mem s) p1 l1 -> cstr (mem s) p2 l2 ->
  exists d, strcmp p1 p2 s = Ok d s /\ strcoll None p1 p2 s = Ok d s /\
    d = cmp_bytes (l1 ++ [0]) (l2 ++ [0]) /\
    (d < 0 <-> lex l1 l2) /\ (d = 0 <-> l1 = l2) /\ (0 < d <-> lex l2 l1).
Proof.
  intros H1 H2. eexists. split; [by apply strcmp_ok|].
  split. { unfold strcoll. rewrite (cstr_nonnull _ _ _ H1), (cstr_nonnull _ _ _ H2). by apply strcmp_ok. }
  pose proof (cstr_chars _ _ _ H1). pose proof (cstr_chars _ _ _ H2). split; [done|].
  split; [by apply cmp_strings_lex|]. split; [by apply cmp_strings_zero|].
  rewrite <- cmp_strings_lex, (cmp_bytes_anti (l1 ++ [0])) by done. lia.
Qed.

(** [strncmp] compares at most [n] characters, for [n] up to [INT_MAX]; above,
    where the test [(int) n > 0] fails, it calls any two strings equal. *)
Lemma strncmp_correct p1 p2 l1 l2 n s :
  cstr (mem s) p1 l1 -> cstr (mem s) p2 l2 -> is_u32 n ->
  strncmp p1 p2 n s =
  Ok (if n <? 2147483648
      then cmp_bytes (take (Z.to_nat n) (l1 ++ [0])) (take (Z.to_nat n) (l2 ++ [0]))
      else 0) s.
Proof.
  intros H1 H2 Hn. destruct (Z.ltb_spec n 2147483648).
  - apply strncmp_ok; [done|done|zlia].
  - unfold strncmp. rewrite (cstr_nonnull _ _ _ H1), (cstr_nonnull _ _ _ H2). simpl.
    destruct (Z.ltb_spec 0 (s32 n)) as [Hp|]; [|by rewrite andb_false_r].
    apply s32_pos_small in Hp; zlia.
Qed.

(** ** [strcasecmp] and [strncasecmp] *)

Section CaseProofs.
Context (lc : option Locale).
Definition upper (b : Z) : Z := u8 (toupper lc b).
(** The conversion of the locale keeps the terminator apart. *)
Context (upper_zero : forall b, is_byte b -> upper b = 0 <-> b = 0).

Lemma upper_hd m p l : cstr m p l -> upper (hd 0 l) = hd 0 (upper <$> l).
Proof. intros _. destruct l; [|done]. simpl. by apply upper_zero. Qed.

Lemma upper_char c : is_char c -> is_char (upper c).
Proof.
  intros Hc. unfold is_char in *. pose proof (u8_range (toupper lc c)).
  assert (upper c <> 0) by (rewrite upper_zero; unfold is_byte; lia). unfold upper in *. lia.
Qed.

Lemma strcasecmp_loop l1 l2 p1 p2 s :
  cstr (mem s) p1 l1 -> cstr (mem s) p2 l2 ->
  lrun (strcasecmp_body lc) (Z.of_nat (length l1) + 1) (p1, p2) s
    (cmp_bytes ((upper <$> l1) ++ [0]) ((upper <$> l2) ++ [0])) s.
Proof.
  revert l2 p1 p2. induction l1 as [|a l1 IH]; intros l2 p1 p2 H1 H2;
    pose proof (cstr_load _ _ _ H1) as L1; pose proof (cstr_load _ _ _ H2) as L2;
    pose proof (upper_hd _ _ _ H2) as U2.
  - apply lrun_done; [|simpl; lia]. unfold strcasecmp_body. simpl in L1. msimp.
    fold (upper 0) (upper (hd 0 l2)). rewrite (proj2 (upper_zero 0 ltac:(done)) eq_refl), U2.
    destruct l2 as [|b l2]; simpl; [done|].
    destruct (Z.eqb_spec 0 (upper b)) as [E|]; [by rewrite <- E|done].
  - simpl in L1. apply cstr_cons in H1 as (_ & Ha & H1). apply upper_char in Ha.
    unfold is_char in Ha. destruct (Z.eq_dec (upper a) (upper (hd 0 l2))) as [E|E].
    + destruct l2 as [|b l2]; simpl in *; [lia|]. apply cstr_cons in H2 as (_ & _ & H2).
      eapply lrun_next.
      { unfold strcasecmp_body. msimp. fold (upper a) (upper b). rewrite E, Z.eqb_refl.
        destruct (Z.eqb_spec (upper b) 0); [lia|done]. }
      rewrite E, Z.eqb_refl. eapply lrun_weaken; [by apply IH|lia].
    + apply lrun_done; [|simpl; lia]. unfold strcasecmp_body. msimp.
      fold (upper a) (upper (hd 0 l2)). rewrite (proj2 (Z.eqb_neq _ _) E).
      destruct l2 as [|b l2]; simpl in *; [rewrite U2 in E |- *|];
        by rewrite (proj2 (Z.eqb_neq _ _) E).
Qed.

Lemma strncasecmp_loop l1 l2 p1 p2 n s :
  cstr (mem s) p1 l1 -> cstr (mem s) p2 l2 ->
  lrun (strncasecmp_body lc) (Z.of_nat (length l1) + 2) (p1, p2, Z.of_nat n) s
    (cmp_bytes (take n ((upper <$> l1) ++ [0])) (take n ((upper <$> l2) ++ [0]))) s.
Proof.
  revert l2 p1 p2 n. induction l1 as [|a l1 IH]; intros l2 p1 p2 n H1 H2;
    pose proof (cstr_load _ _ _ H1) as L1; pose proof (cstr_load _ _ _ H2) as L2;
    pose proof (upper_hd _ _ _ H2) as U2;
    (destruct n as [|n]; [apply lrun_done; [done|lia]|]).
  - apply lrun_done; [|simpl; lia]. unfold strncasecmp_body. simpl in L1.
    rewrite (proj2 (Z.ltb_lt 0 _)) by lia. msimp.
    fold (upper 0) (upper (hd 0 l2)). rewrite (proj2 (upper_zero 0 ltac:(done)) eq_refl), U2.
    rewrite !take_nil. destruct l2 as [|b l2]; simpl; [done|]. by destruct (0 =? _).
  - simpl in L1. apply cstr_cons in H1 as (_ & Ha & H1). apply upper_char in Ha.
    unfold is_char in Ha. destruct (Z.eq_dec (upper a) (upper (hd 0 l2))) as [E|E].
    + destruct l2 as [|b l2]; simpl in *; [lia|]. apply cstr_cons in H2 as (_ & _ & H2).
      eapply lrun_next.
      { unfold strncasecmp_body. rewrite (proj2 (Z.ltb_lt 0 _)) by lia. msimp.
        fold (upper a) (upper b). rewrite E, Z.eqb_refl.
        destruct (Z.eqb_spec (upper b) 0); [lia|done]. }
      rewrite E, Z.eqb_refl. replace (Z.of_nat (S n) - 1) with (Z.of_nat n) by lia.
      eapply lrun_weaken; [by apply IH|lia].
    + apply lrun_done; [|simpl; lia]. unfold strncasecmp_body.
      rewrite (proj2 (Z.ltb_lt 0 _)) by lia. msimp.
      fold (upper a) (upper (hd 0 l2)). rewrite (proj2 (Z.eqb_neq _ _) E).
      destruct l2 as [|b l2]; simpl in *; [rewrite U2 in E |- *|];
        by rewrite (proj2 (Z.eqb_neq _ _) E).
Qed.

(** [strcasecmp] and [strncasecmp] compare the strings with their letters
    converted to upper case by the current locale; null pointers are
    [EFAULT]. *)
Lemma strcasecmp_correct p1 p2 l1 l2 n s :
  cstr (mem s) p1 l1 -> cstr (mem s) p2 l2 -> is_u32 n ->
  strcasecmp lc p1 p2 s = Ok (cmp_bytes ((upper <$> l1) ++ [0]) ((upper <$> l2) ++ [0])) s /\
  strncasecmp lc p1 p2 n s =
    Ok (cmp_bytes (take (Z.to_nat n) ((upper <$> l1) ++ [0]))
                  (take (Z.to_nat n) ((upper <$> l2) ++ [0]))) s /\
  strcasecmp lc NULL p2 s = Ok 0 (put_errno s EFAULT) /\
  strncasecmp lc p1 NULL n s = Ok 0 (put_errno s EFAULT).
Proof.
  intros H1 H2 Hn. unfold strcasecmp, strncasecmp. rewrite orb_true_r.
  rewrite (cstr_nonnull _ _ _ H1), (cstr_nonnull _ _ _ H2). simpl.
  pose proof (cstr_len _ _ _ H1). pose proof (cstr_pos _ _ _ H1).
  destruct (Z.eqb_spec p1 p2) as [->|Hne]; simpl.
  - rewrite (cstr_inj _ _ _ _ H1 H2), !cmp_bytes_refl. done.
  - split; [eapply loop_lrun; [by apply strcasecmp_loop|zlia]|]. split; [|done].
    rewrite <- (Z2Nat.id n) at 1 by zlia. eapply loop_lrun; [by apply strncasecmp_loop|zlia].
Qed.
End CaseProofs.

Lemma upper_zero_C b : is_byte b -> upper None b = 0 <-> b = 0.
Proof.
  intros Hb. unfold upper. rewrite u8_id; unfold toupper, between, is_byte in *; [|zb; simpl; lia].
  zb; simpl; lia.
Qed.

(** ** [memcmp] *)

Lemma cmp_bytes_app u l1 l2 : cmp_bytes (u ++ l1) (u ++ l2) = cmp_bytes l1 l2.
Proof. induction u; simpl; [done|]. by rewrite Z.eqb_refl. Qed.

Lemma memcmp_out k1 k2 p1 p2 r s :
  bytes_at (mem s) p1 k1 -> bytes_at (mem s) p2 k2 -> length k1 = length k2 ->
  lrun (memcmp_out_body r) (Z.of_nat (length k1) + 1) (p1, p2, Z.of_nat (length k1)) s
    (if bool_decide (k1 = k2) then r else cmp_bytes k1 k2) s.
Proof.
  revert k2 p1 p2. induction k1 as [|a k1 IH]; intros [|b k2] p1 p2 H1 H2 Hl; try done.
  - apply lrun_done; [done|simpl; lia].
  - destruct H1 as [L1 H1], H2 as [L2 H2]. simpl in Hl.
    destruct (Z.eq_dec a b) as [->|Hne].
    + eapply lrun_next.
      { unfold memcmp_out_body. rewrite (proj2 (Z.ltb_lt 0 _)) by (simpl; lia). by msimp. }
      replace (Z.of_nat (S (length k1)) - 1) with (Z.of_nat (length k1)) by lia.
      replace (if bool_decide (b :: k1 = b :: k2) then r else cmp_bytes (b :: k1) (b :: k2))
        with (if bool_decide (k1 = k2) then r else cmp_bytes k1 k2).
      * eapply lrun_weaken; [apply IH; [done|done|lia]|simpl; lia].
      * simpl. rewrite Z.eqb_refl. do 2 case_bool_decide; congruence.
    + apply lrun_done; [|simpl; lia]. unfold memcmp_out_body.
      rewrite (proj2 (Z.ltb_lt 0 _)) by (simpl; lia). msimp.
      by rewrite bool_decide_false by congruence.
Qed.

Lemma memcmp_out_zero k1 k2 p1 p2 s :
  bytes_at (mem s) p1 k1 -> bytes_at (mem s) p2 k2 -> length k1 = length k2 ->
  Z.of_nat (length k1) <= 4294967296 ->
  loop (memcmp_out_body 0) (p1, p2, Z.of_nat (length k1)) s = Ok (cmp_bytes k1 k2) s.
Proof.
  intros H1 H2 Hl Hb. erewrite loop_lrun; [|by apply memcmp_out|lia].
  case_bool_decide; [|done]. subst. by rewrite cmp_bytes_refl.
Qed.

(** What a block before [out] establishes: an equal prefix [u] was skipped. *)
Definition skipped (m : gmap Z Z) (k1 k2 : list Z) (m1 m2 len : Z) : Prop :=
  exists u r1 r2, k1 = u ++ r1 /\ k2 = u ++ r2 /\
    bytes_at m m1 r1 /\ bytes_at m m2 r2 /\ len = Z.of_nat (length r1).

Lemma memcmp_skipped k1 k2 m1 m2 len s :
  skipped (mem s) k1 k2 m1 m2 len -> length k1 = length k2 ->
  Z.of_nat (length k1) <= 4294967296 ->
  loop (memcmp_out_body 0) (m1, m2, len) s = Ok (cmp_bytes k1 k2) s.
Proof.
  intros (u & r1 & r2 & -> & -> & H1 & H2 & ->) Hl Hb. rewrite !length_app in *.
  rewrite (memcmp_out_zero r1 r2) by (done || lia). by rewrite cmp_bytes_app.
Qed.

Lemma memcmp_long_loop k1 k2 p1 p2 s :
  mem_wf (mem s) -> bytes_at (mem s) p1 k1 -> bytes_at (mem s) p2 k2 ->
  length k1 = length k2 -> (4 <= length k1)%nat -> p1 mod 4 = 0 -> p2 mod 4 = 0 ->
  exists q1 q2 n, lrun memcmp_long_body (Z.of_nat (length k1)) (p1, p2, Z.of_nat (length k1)) s
      (q1, q2, n) s /\ skipped (mem s) k1 k2 q1 q2 n.
Proof.
  intros Hwf. revert k2 p1 p2.
  induction k1 as [| | | |a0 a1 a2 a3 k1 IH] using list4_ind;
    intros k2 p1 p2 H1 H2 Hl H4 A1 A2; simpl in H4; try lia.
  destruct k2 as [|b0 [|b1 [|b2 [|b3 k2]]]]; try done. simpl in Hl.
  pose proof (bytes_at_wf _ _ _ Hwf H1) as F1. pose proof (bytes_at_wf _ _ _ Hwf H2) as F2. fcons.
  pose proof H1 as (B0 & B1 & B2 & B3 & H1'). pose proof H2 as (C0 & C1 & C2 & C3 & H2').
  replace (p1 + 1 + 1 + 1 + 1) with (p1 + 4) in H1' by lia.
  replace (p2 + 1 + 1 + 1 + 1) with (p2 + 4) in H2' by lia.
  pose proof (load32_ok p1 s a0 a1 a2 a3 A1 ltac:(simpl; auto)) as L1.
  pose proof (load32_ok p2 s b0 b1 b2 b3 A2 ltac:(simpl; auto)) as L2.
  destruct (Z.eq_dec (word_of a0 a1 a2 a3) (word_of b0 b1 b2 b3)) as [E|E].
  - pose proof E as E'. apply word_of_inj in E' as (-> & -> & -> & ->); [|done..].
    destruct (decide (4 <= length k1)%nat) as [Hge|Hlt].
    + destruct (IH k2 (p1 + 4) (p2 + 4)) as (q1 & q2 & n & Hr & u & r1 & r2 & -> & -> & S);
        [done|done|lia|lia|by apply add4_mod|by apply add4_mod|].
      exists q1, q2, n. split; [|exists (b0 :: b1 :: b2 :: b3 :: u), r1, r2; by simpl].
      eapply lrun_next; [|eapply lrun_weaken; [exact Hr|simpl; lia]].
      unfold memcmp_long_body. rewrite (bind_ok _ _ _ _ _ L1), (bind_ok _ _ _ _ _ L2), Z.eqb_refl.
      simpl negb. cbv iota zeta. 
      replace (Z.of_nat (length (b0 :: b1 :: b2 :: b3 :: u ++ r1)) - 4)
        with (Z.of_nat (length (u ++ r1))) by (simpl length; lia).
      by rewrite (proj2 (Z.leb_le 4 _)) by lia.
    + exists (p1 + 4), (p2 + 4), (Z.of_nat (length k1)). split.
      * apply lrun_done; [|simpl; lia]. unfold memcmp_long_body.
        rewrite (bind_ok _ _ _ _ _ L1), (bind_ok _ _ _ _ _ L2), Z.eqb_refl.
        simpl negb. cbv iota zeta.
        replace (Z.of_nat (length (b0 :: b1 :: b2 :: b3 :: k1)) - 4)
          with (Z.of_nat (length k1)) by (simpl length; lia).
        by rewrite (proj2 (Z.leb_gt 4 _)) by lia.
      * exists [b0; b1; b2; b3], k1, k2. done.
  - exists p1, p2, (Z.of_nat (length (a0 :: a1 :: a2 :: a3 :: k1))). split.
    + apply lrun_done; [|simpl; lia]. unfold memcmp_long_body.
      rewrite (bind_ok _ _ _ _ _ L1), (bind_ok _ _ _ _ _ L2).
      by rewrite (proj2 (Z.eqb_neq _ _) E).
    + by exists [], (a0 :: a1 :: a2 :: a3 :: k1), (b0 :: b1 :: b2 :: b3 :: k2).
Qed.

Lemma land3_eq p k : 0 <= p -> (Z.land p 3 =? k) = (p mod 4 =? k).
Proof. intros. by rewrite land3. Qed.

Lemma memcmp_long_ok k1 k2 p1 p2 s :
  mem_wf (mem s) -> bytes_at (mem s) p1 k1 -> bytes_at (mem s) p2 k2 ->
  length k1 = length k2 -> 0 <= p1 -> 0 <= p2 -> Z.of_nat (length k1) <= 4294967296 ->
  exists q1 q2 n, memcmp_long p1 p2 (Z.of_nat (length k1)) s = Ok (q1, q2, n) s /\
    skipped (mem s) k1 k2 q1 q2 n.
Proof.
  intros Hwf H1 H2 Hl P1 P2 Hb. unfold memcmp_long, IS_LONG_ALIGNED. rewrite !land3_eq by done.
  destruct ((4 <=? Z.of_nat (length k1)) && (p1 mod 4 =? 0) && (p2 mod 4 =? 0)) eqn:E.
  - destruct (memcmp_long_loop k1 k2 p1 p2 s) as (q1 & q2 & n & Hr & HS); [done..|lia|lia|lia|].
    exists q1, q2, n. split; [|done]. eapply loop_lrun; [exact Hr|lia].
  - exists p1, p2, (Z.of_nat (length k1)). split; [done|]. by exists [], k1, k2.
Qed.

Lemma memcmp_short_ok k1 k2 p1 p2 s :
  mem_wf (mem s) -> bytes_at (mem s) p1 k1 -> bytes_at (mem s) p2 k2 ->
  length k1 = length k2 -> 0 <= p1 -> 0 <= p2 -> (2 <= length k1)%nat ->
  exists b q1 q2 n, memcmp_short p1 p2 (Z.of_nat (length k1)) s = Ok (b, (q1, q2, n)) s /\
    skipped (mem s) k1 k2 q1 q2 n /\ 0 <= q1 /\ 0 <= q2.
Proof.
  intros Hwf H1 H2 Hl P1 P2 H2l. unfold memcmp_short, IS_SHORT_ALIGNED. rewrite !land3_eq by done.
  destruct (_ && _ && _) eqn:E.
  2:{ exists false, p1, p2, (Z.of_nat (length k1)). split; [done|]. split; [|done].
      by exists [], k1, k2. }
  destruct k1 as [|a0 [|a1 k1]], k2 as [|b0 [|b1 k2]]; try (simpl in *; lia).
  pose proof (bytes_at_wf _ _ _ Hwf H1) as F1. pose proof (bytes_at_wf _ _ _ Hwf H2) as F2. fcons.
  pose proof H1 as (A0 & A1 & H1'). pose proof H2 as (B0 & B1 & H2').
  assert (L : forall p c0 c1, p mod 4 = 2 -> mem s !! p = Some c0 -> mem s !! (p + 1) = Some c1 ->
    load16 p s = Ok (c0 * 256 + c1) s).
  { intros p c0 c1 Hp M0 M1. unfold load16.
    assert (p mod 2 = 0) as -> by (Z.div_mod_to_equations; lia). simpl. by msimp. }
  rewrite (bind_ok _ _ _ _ _ (L p1 a0 a1 ltac:(lia) A0 A1)),
    (bind_ok _ _ _ _ _ (L p2 b0 b1 ltac:(lia) B0 B1)).
  destruct (Z.eqb_spec (a0 * 256 + a1) (b0 * 256 + b1)) as [Ew|Ew]; simpl negb; cbv iota.
  - assert (a0 = b0 /\ a1 = b1) as [-> ->] by zlia.
    exists false, (p1 + 2), (p2 + 2), (Z.of_nat (length k1)).
    split; [unfold ret; do 3 f_equal; simpl; lia|]. split; [|lia].
    exists [b0; b1], k1, k2.
    replace (p1 + 2) with (p1 + 1 + 1) by lia. by replace (p2 + 2) with (p2 + 1 + 1) by lia.
  - exists true, p1, p2, (Z.of_nat (length (a0 :: a1 :: k1))). split; [done|]. split; [|done].
    by exists [], (a0 :: a1 :: k1), (b0 :: b1 :: k2).
Qed.

(** From the second block on. *)
Lemma memcmp_blocks k1 k2 p1 p2 s :
  mem_wf (mem s) -> bytes_at (mem s) p1 k1 -> bytes_at (mem s) p2 k2 ->
  length k1 = length k2 -> 0 <= p1 -> 0 <= p2 -> (2 <= length k1)%nat ->
  Z.of_nat (length k1) <= 4294967296 ->
  (let* (out, (m1, m2, len)) := memcmp_short p1 p2 (Z.of_nat (length k1)) in
   let* (m1, m2, len) := if out : bool then ret (m1, m2, len) else memcmp_long m1 m2 len in
   loop (memcmp_out_body 0) (m1, m2, len)) s = Ok (cmp_bytes k1 k2) s.
Proof.
  intros Hwf H1 H2 Hl P1 P2 L2 Hb.
  destruct (memcmp_short_ok k1 k2 p1 p2 s) as (b & q1 & q2 & n & E & HS & Q1 & Q2); [done..|].
  rewrite (bind_ok _ _ _ _ _ E). destruct b.
  - by apply memcmp_skipped.
  - destruct HS as (u & r1 & r2 & -> & -> & R1 & R2 & ->). rewrite !length_app in *.
    destruct (memcmp_long_ok r1 r2 q1 q2 s) as (q1' & q2' & n' & E' & HS'); [done..|lia|lia|lia|lia|].
    rewrite (bind_ok _ _ _ _ _ E').
    rewrite cmp_bytes_app. apply memcmp_skipped; [done|lia|lia].
Qed.

Lemma memcmp_inner_ok cs k1 k2 p1 p2 s :
  mem_wf (mem s) -> bytes_at (mem s) p1 k1 -> bytes_at (mem s) p2 k2 ->
  length k1 = length k2 -> 0 <= p1 -> 0 <= p2 -> Z.of_nat (length k1) <= 4294967296 ->
  memcmp_inner cs p1 p2 (Z.of_nat (length k1)) s = Ok (cmp_bytes k1 k2) s.
Proof.
  intros Hwf H1 H2 Hl P1 P2 Hb. unfold memcmp_inner.
  destruct (Z.ltb_spec 16 (Z.of_nat (length k1))); [|by apply memcmp_out_zero].
  unfold memcmp_odd. destruct (IS_UNALIGNED p1 && IS_UNALIGNED p2).
  2:{ rewrite (bind_ok (ret _) _ s _ s eq_refl). apply memcmp_blocks; done || lia. }
  destruct k1 as [|a k1], k2 as [|b k2]; simpl in Hl; try (simpl in *; lia).
  pose proof H1 as [A1 H1']. pose proof H2 as [A2 H2'].
  assert (N : Z.of_nat (length (a :: k1)) - 1 = Z.of_nat (length k1)) by (simpl; lia).
  rewrite N. simpl length in *.
  destruct (Z.eq_dec a b) as [->|Hne].
  - erewrite bind_ok; [|by msimp]. cbn [cmp_bytes]. rewrite Z.eqb_refl.
    apply memcmp_blocks; done || lia.
  - erewrite bind_ok; [|by msimp]. msimp.
    assert (E1 : exists k1' x, a :: k1 = (a :: k1') ++ [x] /\ length k1' = pred (length k1)).
    { destruct (exists_last (l := k1)) as (k1' & x & ->); [by destruct k1; simpl in *; [lia|]|].
      exists k1', x. by rewrite length_app, Nat.add_1_r. }
    assert (E2 : exists k2' x, b :: k2 = (b :: k2') ++ [x] /\ length k2' = pred (length k2)).
    { destruct (exists_last (l := k2)) as (k2' & x & ->); [by destruct k2; simpl in *; [lia|]|].
      exists k2', x. by rewrite length_app, Nat.add_1_r. }
    destruct E1 as (k1' & x & E1 & L1), E2 as (k2' & y & E2 & L2).
    rewrite E1 in H1. rewrite E2 in H2. apply bytes_at_app in H1 as [H1 _], H2 as [H2 _].
    replace (Z.of_nat (length k1)) with (Z.of_nat (length (a :: k1'))) by (simpl; lia).
    erewrite loop_lrun; [|by apply (memcmp_out (a :: k1') (b :: k2')); [..|simpl; lia]|simpl; lia].
    rewrite bool_decide_false by congruence. cbn [cmp_bytes].
    by rewrite (proj2 (Z.eqb_neq a b) Hne).
Qed.

(** C31: [memcmp] and [bcmp] return the difference of the first bytes that differ,
    as unsigned bytes, or zero for equal buffers, whether they compare bytes,
    halfwords or words; comparing a buffer with itself, or no bytes, is
    zero too but sets [EFAULT]. *)
Theorem memcmp_correct cs p1 p2 k1 k2 s :
  mem_wf (mem s) -> bytes_at (mem s) p1 k1 -> bytes_at (mem s) p2 k2 ->
  length k1 = length k2 -> 0 <= p1 -> 0 <= p2 -> Z.of_nat (length k1) < 4294967296 ->
  memcmp cs p1 p2 (Z.of_nat (length k1)) s =
    Ok (cmp_bytes k1 k2)
       (if (p1 =? p2) || (Z.of_nat (length k1) =? 0) then put_errno s EFAULT else s) /\
  bcmp cs p1 p2 (Z.of_nat (length k1)) s = memcmp cs p1 p2 (Z.of_nat (length k1)) s /\
  (cmp_bytes k1 k2 = 0 <-> k1 = k2).
Proof.
  intros Hwf H1 H2 Hl P1 P2 Hb. split; [|split; [done|by apply cmp_bytes_zero]]. unfold memcmp.
  destruct (Z.eqb_spec p1 p2) as [->|Hne]; simpl.
  { by rewrite (bytes_at_inj _ _ _ _ H1 H2 Hl), cmp_bytes_refl. }
  destruct (Z.eqb_spec (Z.of_nat (length k1)) 0) as [E|E].
  - rewrite E. destruct k1; simpl in *; [|lia]. by destruct k2.
  - rewrite (proj2 (Z.ltb_lt 0 _)) by lia. apply memcmp_inner_ok; done || lia.
Qed.

Lemma memcmp_correct_witness :
  let b1 := bytes "0123456789abcdefXYZ" in
  let b2 := bytes "0123456789abcdefXyZ" in
  let s := boot [(4097, b1); (8193, b2)] in
  memcmp false 4097 8193 19 s = Ok (-32) s /\
  bcmp false 4097 8193 19 s = memcmp false 4097 8193 19 s /\ (-32 = 0 <-> b1 = b2).
Proof.
  apply (memcmp_correct false 4097 8193 (bytes "0123456789abcdefXYZ") (bytes "0123456789abcdefXyZ"));
    [ground|ground|ground|reflexivity|lia|lia|by vm_compute].
Defined.

(** ** [strverscmp] *)

(** The rows of the tables, by the state after the common prefix and the kinds
    of the characters that follow it. *)
Definition vers_next (row c : Z) : Z := default 0 (next_state !! Z.to_nat (row + symbol c)).
Definition vers_type (row a b : Z) : Z :=
  default 0 (result_type !! Z.to_nat ((row + symbol a) * 3 + symbol b)).

Definition is_row (r : Z) : Prop := r = 0 \/ r = 3 \/ r = 6 \/ r = 9.

(** The number of digits a list starts with. *)
Fixpoint run (l : list Z) : nat :=
  match l with c :: l' => if m_isdigit c then S (run l') else 0 | [] => 0 end.

Definition verdict (row a b : Z) (r1 r2 : list Z) : Z :=
  let t := vers_type row a b in
  if t =? CMP then a - b
  else if t =? LEN then
    if (run r2 <? run r1)%nat then 1 else if (run r1 <? run r2)%nat then -1 else a - b
  else t.

(** The comparison of two strings with their terminators. *)
Fixpoint vers (row : Z) (k1 k2 : list Z) : Z :=
  match k1, k2 with
  | a :: k1', b :: k2' =>
      if a =? b then (if a =? 0 then 0 else vers (vers_next row a) k1' k2')
      else verdict row a b k1' k2'
  | _, _ => 0
  end.

Lemma symbol_range c : symbol c = 0 \/ symbol c = 1 \/ symbol c = 2.
Proof. unfold symbol. destruct (c =? 48), (m_isdigit c); simpl; lia. Qed.

Lemma next_row row c : is_row row -> is_row (vers_next row c).
Proof.
  unfold is_row, vers_next. intros Hr.
  destruct (symbol_range c) as [->|[->| ->]], Hr as [->|[->|[->| ->]]]; vm_compute; auto.
Qed.

Lemma table_ok t i v s : 0 <= i -> t !! Z.to_nat i = Some v -> table t i s = Ok v s.
Proof. intros Hi Ht. unfold table. destruct (Z.ltb_spec i 0); [lia|]. by rewrite Ht. Qed.

Lemma table_next row c s :
  is_row row -> table next_state (row + symbol c) s = Ok (vers_next row c) s.
Proof.
  intros Hr. unfold vers_next. unfold is_row in Hr.
  apply table_ok; destruct (symbol_range c) as [->|[->| ->]], Hr as [->|[->|[->| ->]]]; done.
Qed.

Lemma table_type row a b s :
  is_row row -> table result_type ((row + symbol a) * 3 + symbol b) s = Ok (vers_type row a b) s.
Proof.
  intros Hr. unfold vers_type. unfold is_row in Hr.
  apply table_ok; destruct (symbol_range a) as [->|[->| ->]], (symbol_range b) as [->|[->| ->]],
    Hr as [->|[->|[->| ->]]]; done.
Qed.

(** The table treats the two strings alike. *)
Lemma vers_type_anti row a b :
  is_row row ->
  (vers_type row a b = CMP /\ vers_type row b a = CMP) \/
  (vers_type row a b = LEN /\ vers_type row b a = LEN) \/
  (vers_type row a b = 1 /\ vers_type row b a = -1) \/
  (vers_type row a b = -1 /\ vers_type row b a = 1).
Proof.
  intros Hr. unfold vers_type. unfold is_row in Hr.
  destruct (symbol_range a) as [->|[->| ->]], (symbol_range b) as [->|[->| ->]],
    Hr as [->|[->|[->| ->]]]; vm_compute; tauto.
Qed.

Lemma verdict_anti row a b r1 r2 :
  is_row row -> a <> b ->
  verdict row a b r1 r2 <> 0 /\ Z.sgn (verdict row b a r2 r1) = - Z.sgn (verdict row a b r1 r2).
Proof.
  intros Hr Hne. unfold verdict.
  destruct (vers_type_anti row a b Hr) as [[-> ->]|[[-> ->]|[[-> ->]|[-> ->]]]];
    unfold CMP, LEN; simpl; try lia.
  destruct (Nat.ltb_spec (run r2) (run r1)), (Nat.ltb_spec (run r1) (run r2)); try lia; simpl; lia.
Qed.

Lemma vers_props k1 k2 row :
  is_row row -> Forall is_char k1 -> Forall is_char k2 ->
  (vers row (k1 ++ [0]) (k2 ++ [0]) = 0 <-> k1 = k2) /\
  Z.sgn (vers row (k2 ++ [0]) (k1 ++ [0])) = - Z.sgn (vers row (k1 ++ [0]) (k2 ++ [0])).
Proof.
  revert k2 row. induction k1 as [|a k1 IH]; intros [|b k2] row Hr F1 F2; fcons; simpl.
  - done.
  - unfold is_char in *. destruct (Z.eqb_spec 0 b), (Z.eqb_spec b 0); try lia.
    destruct (verdict_anti row 0 b [] (k2 ++ [0]) Hr ltac:(lia)) as [? ?]. done.
  - unfold is_char in *. destruct (Z.eqb_spec a 0), (Z.eqb_spec 0 a); try lia.
    destruct (verdict_anti row a 0 (k1 ++ [0]) [] Hr ltac:(lia)) as [? ?]. done.
  - destruct (Z.eqb_spec a b) as [->|Hne].
    + rewrite Z.eqb_refl. unfold is_char in *. destruct (Z.eqb_spec b 0); [lia|].
      destruct (IH k2 (vers_next row b) (next_row _ _ Hr)) as [IH1 IH2]; [done..|].
      rewrite IH1, IH2. split; [split; [by intros ->|by intros [= ->]]|done].
    + destruct (Z.eqb_spec b a); [lia|].
      destruct (verdict_anti row a b (k1 ++ [0]) (k2 ++ [0]) Hr Hne) as [? ?].
      split; [|done]. split; [done|]. by intros [= -> ->].
Qed.

Lemma m_isdigit_0 : m_isdigit 0 = false.
Proof. reflexivity. Qed.

(** The loop of case [LEN] measures the digits of both strings. *)
Lemma vers_len_loop l1 l2 p1 p2 s :
  cstr (mem s) p1 l1 -> cstr (mem s) p2 l2 ->
  lrun vers_len_body (Z.of_nat (length l1) + 1) (p1, p2) s
    (if (run l2 <? run l1)%nat then None else Some (p2 + Z.of_nat (run l1))) s.
Proof.
  revert l2 p1 p2. induction l1 as [|a l1 IH]; intros l2 p1 p2 H1 H2;
    pose proof (cstr_load _ _ _ H1) as L1; pose proof (cstr_load _ _ _ H2) as L2.
  - apply lrun_done; [|simpl; lia]. unfold vers_len_body. simpl in L1. msimp.
    unfold leave, ret. do 3 f_equal. lia.
  - simpl in L1. simpl run. apply cstr_cons in H1 as (_ & _ & H1).
    destruct (m_isdigit a) eqn:E.
    + destruct (m_isdigit (hd 0 l2)) eqn:E2.
      * destruct l2 as [|b l2]; [done|]. simpl in *. rewrite E2.
        apply cstr_cons in H2 as (_ & _ & H2).
        eapply lrun_next. { unfold vers_len_body. msimp. rewrite E. msimp. by rewrite E2. }
        replace (p2 + Z.of_nat (S (run l1))) with (p2 + 1 + Z.of_nat (run l1)) by lia.
        change (S (run l2) <? S (run l1))%nat with (run l2 <? run l1)%nat.
        eapply lrun_weaken; [by apply IH|lia].
      * replace (run l2) with 0%nat by (destruct l2; simpl in *; by rewrite ?E2).
        apply lrun_done; [|simpl; lia]. unfold vers_len_body. msimp. rewrite E. msimp. by rewrite E2.
    + apply lrun_done; [|simpl; lia]. unfold vers_len_body. msimp. rewrite E.
      unfold leave, ret. replace (run l2 <? 0)%nat with false by (symmetry; apply Nat.ltb_ge; lia).
      do 3 f_equal. lia.
Qed.

Lemma run_le l : (run l <= length l)%nat.
Proof. induction l; simpl; [done|]. destruct (m_isdigit a); lia. Qed.

Lemma run_drop l n :
  (n <= run l)%nat -> m_isdigit (hd 0 (drop n l)) = (n <? run l)%nat.
Proof.
  revert n. induction l as [|c l IH]; intros n Hn; simpl in *.
  - by replace n with 0%nat by lia.
  - destruct (m_isdigit c) eqn:E.
    + destruct n as [|n]; simpl; [done|]. rewrite IH by lia. done.
    + replace n with 0%nat by lia. simpl. by rewrite E.
Qed.

Lemma run_zero l : run (l ++ [0]) = run l.
Proof. induction l; simpl; [done|]. by destruct (m_isdigit a); rewrite ?IHl. Qed.

Lemma vers_type_len row a b :
  is_row row -> vers_type row a b = LEN -> m_isdigit a = true /\ m_isdigit b = true.
Proof.
  intros Hr. unfold vers_type. unfold is_row in Hr.
  assert (S : forall c, symbol c <> 0 -> m_isdigit c = true).
  { intros c. unfold symbol. destruct (Z.eqb_spec c 48) as [->|]; [done|]. by destruct (m_isdigit c). }
  assert (K : forall x y, (x = 0 \/ x = 1 \/ x = 2) -> (y = 0 \/ y = 1 \/ y = 2) ->
    default 0 (result_type !! Z.to_nat ((row + x) * 3 + y)) = LEN -> x <> 0 /\ y <> 0).
  { intros x y [->|[->| ->]] [->|[->| ->]]; destruct Hr as [->|[->|[->| ->]]];
      vm_compute; intros E; try discriminate E; split; discriminate. }
  intros E. apply K in E as [? ?]; auto using symbol_range.
Qed.

Lemma vers_end_ok row a b p1 p2 l1 l2 s :
  is_row row -> a <> b ->
  (a <> 0 -> cstr (mem s) p1 l1) -> (b <> 0 -> cstr (mem s) p2 l2) ->
  vers_end p1 p2 a b (row + symbol a) s = Ok (verdict row a b (l1 ++ [0]) (l2 ++ [0])) s.
Proof.
  intros Hr Hne H1 H2. unfold vers_end, verdict.
  rewrite (bind_ok _ _ _ _ _ (table_type row a b s Hr)).
  destruct (Z.eqb_spec (vers_type row a b) CMP); [done|].
  destruct (Z.eqb_spec (vers_type row a b) LEN) as [E|]; [|done].
  apply vers_type_len in E as [Ea Eb]; [|done].
  specialize (H1 ltac:(intros ->; done)). specialize (H2 ltac:(intros ->; done)).
  pose proof (cstr_len _ _ _ H1). pose proof (cstr_pos _ _ _ H1). rewrite !run_zero.
  erewrite bind_ok; [|eapply loop_lrun; [by apply vers_len_loop|zlia]].
  destruct (Nat.ltb_spec (run l2) (run l1)); [done|].
  assert (Hd : cstr (mem s) (p2 + Z.of_nat (run l1)) (drop (run l1) l2)).
  { pose proof (run_le l2).
    replace (p2 + Z.of_nat (run l1)) with (p2 + Z.of_nat (length (take (run l1) l2)))
      by (rewrite length_take; lia).
    apply cstr_app. by rewrite take_drop. }
  rewrite (bind_ok _ _ _ _ _ (load8_ok _ _ _ (cstr_load _ _ _ Hd))).
  rewrite run_drop by lia. by destruct (run l1 <? run l2)%nat.
Qed.

Lemma vers_loop l1 l2 p1 p2 row s :
  is_row row -> cstr (mem s) p1 l1 -> cstr (mem s) p2 l2 ->
  exists r, lrun vers_body (Z.of_nat (length l1) + 1)
      (p1 + 1, p2 + 1, hd 0 l1, hd 0 l2, row + symbol (hd 0 l1)) s r s /\
    match r with
    | None => ret 0
    | Some (p1, p2, c1, c2, state) => vers_end p1 p2 c1 c2 state
    end s = Ok (vers row (l1 ++ [0]) (l2 ++ [0])) s.
Proof.
  revert l2 p1 p2 row. induction l1 as [|a l1 IH]; intros l2 p1 p2 row Hr H1 H2.
  - destruct l2 as [|b l2].
    + exists None. split; [|done]. apply lrun_done; [done|simpl; lia].
    + pose proof (cstr_cons _ _ _ _ H2) as (_ & Hb & H2'). unfold is_char in Hb. simpl hd.
      exists (Some (p1 + 1, p2 + 1, 0, b, row + symbol 0)). split.
      * apply lrun_done; [|simpl; lia]. unfold vers_body. by destruct (Z.eqb_spec (0 - b) 0); [lia|].
      * simpl. destruct (Z.eqb_spec 0 b); [lia|].
        by apply (vers_end_ok row 0 b _ _ [] l2); [done|lia|..].
  - pose proof (cstr_cons _ _ _ _ H1) as (_ & Ha & H1'). unfold is_char in Ha. simpl hd.
    destruct (Z.eq_dec a (hd 0 l2)) as [E|E].
    + destruct l2 as [|b l2]; simpl in E; [lia|]. subst b. simpl hd.
      pose proof (cstr_cons _ _ _ _ H2) as (_ & _ & H2').
      destruct (IH l2 (p1 + 1) (p2 + 1) (vers_next row a)) as (r & Hl & He);
        [by apply next_row|done|done|].
      exists r. split.
      * eapply lrun_next; [|eapply lrun_weaken; [exact Hl|simpl; lia]].
        unfold vers_body. rewrite Z.sub_diag, Z.eqb_refl. destruct (Z.eqb_spec a 0); [lia|].
        rewrite (bind_ok _ _ _ _ _ (table_next row a s Hr)).
        rewrite (bind_ok _ _ _ _ _ (load8_ok _ _ _ (cstr_load _ _ _ H1'))).
        by rewrite (bind_ok _ _ _ _ _ (load8_ok _ _ _ (cstr_load _ _ _ H2'))).
      * rewrite He. simpl. rewrite Z.eqb_refl. by destruct (Z.eqb_spec a 0); [lia|].
    + exists (Some (p1 + 1, p2 + 1, a, hd 0 l2, row + symbol a)). split.
      * apply lrun_done; [|simpl; lia]. unfold vers_body.
        by destruct (Z.eqb_spec (a - hd 0 l2) 0); [lia|].
      * destruct l2 as [|b l2]; simpl in *.
        -- destruct (Z.eqb_spec a 0); [lia|]. by apply (vers_end_ok row a 0 _ _ l1 []).
        -- destruct (Z.eqb_spec a b); [lia|]. pose proof (cstr_cons _ _ _ _ H2) as (_ & _ & H2').
           by apply (vers_end_ok row a b _ _ l1 l2).
Qed.

Lemma strverscmp_ok p1 p2 l1 l2 s :
  cstr (mem s) p1 l1 -> cstr (mem s) p2 l2 ->
  strverscmp p1 p2 s = Ok (vers S_N (l1 ++ [0]) (l2 ++ [0])) s.
Proof.
  intros H1 H2. unfold strverscmp.
  destruct (Z.eqb_spec p1 p2) as [->|Hne].
  - rewrite (cstr_inj _ _ _ _ H1 H2). pose proof (cstr_chars _ _ _ H2) as F.
    by rewrite (proj2 (proj1 (vers_props l2 l2 S_N (or_introl eq_refl) F F)) eq_refl).
  - rewrite (bind_ok _ _ _ _ _ (load8_ok _ _ _ (cstr_load _ _ _ H1))).
    rewrite (bind_ok _ _ _ _ _ (load8_ok _ _ _ (cstr_load _ _ _ H2))).
    destruct (vers_loop l1 l2 p1 p2 S_N s (or_introl eq_refl) H1 H2) as (r & Hr & He).
    pose proof (cstr_len _ _ _ H1). pose proof (cstr_pos _ _ _ H1).
    erewrite bind_ok; [|eapply loop_lrun; [exact Hr|zlia]]. exact He.
Qed.

(** *** The order on versions

    What [strverscmp] promises, without its tables.  The digits just before
    the first difference tell in which part of a number the strings differ:
    none, the integral part, leading zeros, or a fraction (after zeros). *)
Inductive part := Text | Integral | Zeros | Fraction.

Definition number_part (u : list Z) : list Z := reverse (take (run (reverse u)) (reverse u)).

Definition phase (u : list Z) : part :=
  match number_part u with
  | [] => Text
  | c :: _ =>
      if negb (c =? 48) then Integral
      else if forallb (Z.eqb 48) (number_part u) then Zeros else Fraction
  end.

(** Numbers without leading zeros: the longer one is larger. *)
Definition by_length (a b : Z) (r1 r2 : list Z) : Z :=
  if (run (b :: r2) <? run (a :: r1))%nat then 1
  else if (run (a :: r1) <? run (b :: r2))%nat then -1 else a - b.

Definition version_order (u : list Z) (a b : Z) (r1 r2 : list Z) : Z :=
  let d := m_isdigit in
  match phase u with
  | Integral => by_length a b r1 r2
  | Text =>
      if d a && d b && negb (a =? 48) && negb (b =? 48) then by_length a b r1 r2 else a - b
  | Zeros => if d a && negb (d b) then -1 else if d b && negb (d a) then 1 else a - b
  | Fraction => a - b
  end.

Definition row_of (p : part) : Z :=
  match p with Text => S_N | Integral => S_I | Zeros => S_Z | Fraction => S_F end.

Lemma number_part_snoc u c :
  number_part (u ++ [c]) = if m_isdigit c then number_part u ++ [c] else [].
Proof.
  unfold number_part. rewrite reverse_snoc. cbn [run]. destruct (m_isdigit c); [|done].
  cbn [firstn]. by rewrite reverse_cons.
Qed.

Lemma phase_snoc u c :
  phase (u ++ [c]) =
  if m_isdigit c then
    match phase u with
    | Text => if c =? 48 then Zeros else Integral
    | Zeros => if c =? 48 then Zeros else Fraction
    | p => p
    end
  else Text.
Proof.
  unfold phase. rewrite number_part_snoc. destruct (m_isdigit c); [|done].
  destruct (number_part u) as [|x w]; simpl.
  - rewrite (Z.eqb_sym 48 c). by destruct (c =? 48).
  - rewrite forallb_app. simpl. rewrite (Z.eqb_sym 48 c), (Z.eqb_sym 48 x).
    destruct (x =? 48), (forallb (Z.eqb 48) w), (c =? 48); done.
Qed.

(** The tables compute the part and the verdict. *)
Lemma row_of_next u c : vers_next (row_of (phase u)) c = row_of (phase (u ++ [c])).
Proof.
  rewrite phase_snoc. unfold vers_next, symbol. destruct (Z.eqb_spec c 48) as [->|_].
  - by destruct (phase u).
  - destruct (m_isdigit c); by destruct (phase u).
Qed.

Lemma verdict_order u a b r1 r2 :
  verdict (row_of (phase u)) a b r1 r2 = version_order u a b r1 r2.
Proof.
  unfold verdict, version_order, vers_type, by_length, symbol. cbn [run].
  destruct (Z.eqb_spec a 48) as [->|_], (Z.eqb_spec b 48) as [->|_];
    try destruct (m_isdigit a) eqn:Ea; try destruct (m_isdigit b) eqn:Eb;
    destruct (phase u); reflexivity.
Qed.

Lemma vers_order v u a b r1 r2 :
  Forall is_char v -> a <> b ->
  vers (row_of (phase u)) (v ++ a :: r1) (v ++ b :: r2) = version_order (u ++ v) a b r1 r2.
Proof.
  intros Hv Hab. revert u. induction Hv as [|c v Hc Hv IH]; intros u; simpl.
  - destruct (Z.eqb_spec a b); [done|]. rewrite app_nil_r. apply verdict_order.
  - rewrite Z.eqb_refl. destruct (Z.eqb_spec c 0); [zlia|].
    rewrite row_of_next, IH. by rewrite <- app_assoc.
Qed.

(** C30: [strverscmp] orders strings as versions: at the first difference it
    decides by the number the difference lies in, as [version_order] says; it
    returns zero exactly on equal strings, and exchanging the strings reverses
    the sign. *)
Theorem strverscmp_correct p1 p2 l1 l2 s :
  cstr (mem s) p1 l1 -> cstr (mem s) p2 l2 ->
  exists d d', strverscmp p1 p2 s = Ok d s /\ strverscmp p2 p1 s = Ok d' s /\
    (d = 0 <-> l1 = l2) /\ Z.sgn d' = - Z.sgn d /\
    forall u a b r1 r2, l1 ++ [0] = u ++ a :: r1 -> l2 ++ [0] = u ++ b :: r2 -> a <> b ->
      d = version_order u a b r1 r2.
Proof.
  intros H1 H2. pose proof (cstr_chars _ _ _ H1) as F1. pose proof (cstr_chars _ _ _ H2) as F2.
  eexists _, _. split; [by apply strverscmp_ok|]. split; [by apply strverscmp_ok|].
  destruct (vers_props l1 l2 0) as [Z1 Z2]; [by left|done|done|].
  split; [done|]. split; [done|]. intros u a b r1 r2 E1 E2 Hab. rewrite E1, E2.
  apply (vers_order u []); [|done].
  destruct (decide (length u <= length l1)%nat) as [Hu|Hu].
  - apply (f_equal (take (length u))) in E1. rewrite take_app_le, take_app_length in E1 by done.
    rewrite <- E1. by apply Forall_take.
  - apply (f_equal length) in E1. len. lia.
Qed.

Lemma strverscmp_correct_witness :
  let s := boot [(4096, zstr "clib4-9"); (8192, zstr "clib4-10")] in
  exists d, strverscmp 4096 8192 s = Ok d s /\ d = -1.
Proof.
  destruct (strverscmp_correct 4096 8192 (bytes "clib4-9") (bytes "clib4-10")
    (boot [(4096, zstr "clib4-9"); (8192, zstr "clib4-10")])) as (d & d' & E & _ & _ & _ & H); [ground..|].
  exists d. split; [exact E|]. by rewrite (H (bytes "clib4-") 57 49 [0] [48; 0]).
Defined.

(** [strcmp] returns the difference of the first differing characters as
    unsigned numbers, so it is zero exactly on equal strings and its sign is
    the lexicographic order; [strncmp] does so on the first [n] characters
    when [n] as an [int] is positive, and returns 0 otherwise; [strcasecmp]
    and [strncasecmp] do so after mapping to upper case in the locale. *)
Theorem strcmp_family_correct :
  (forall p1 p2 l1 l2 s, cstr (mem s) p1 l1 -> cstr (mem s) p2 l2 ->
  exists d, strcmp p1 p2 s = Ok d s /\ strcoll None p1 p2 s = Ok d s /\
    d = cmp_bytes (l1 ++ [0]) (l2 ++ [0]) /\
    (d < 0 <-> lex l1 l2) /\ (d = 0 <-> l1 = l2) /\ (0 < d <-> lex l2 l1)) /\
  (forall p1 p2 l1 l2 n s, cstr (mem s) p1 l1 -> cstr (mem s) p2 l2 -> is_u32 n ->
  strncmp p1 p2 n s =
  Ok (if n <? 2147483648
      then cmp_bytes (take (Z.to_nat n) (l1 ++ [0])) (take (Z.to_nat n) (l2 ++ [0]))
      else 0) s) /\
  (forall lc, (forall b, is_byte b -> upper lc b = 0 <-> b = 0) ->
  forall p1 p2 l1 l2 n s, cstr (mem s) p1 l1 -> cstr (mem s) p2 l2 -> is_u32 n ->
  strcasecmp lc p1 p2 s =
    Ok (cmp_bytes ((upper lc <$> l1) ++ [0]) ((upper lc <$> l2) ++ [0])) s /\
  strncasecmp lc p1 p2 n s =
    Ok (cmp_bytes (take (Z.to_nat n) ((upper lc <$> l1) ++ [0]))
                  (take (Z.to_nat n) ((upper lc <$> l2) ++ [0]))) s /\
  strcasecmp lc NULL p2 s = Ok 0 (put_errno s EFAULT) /\
  strncasecmp lc p1 NULL n s = Ok 0 (put_errno s EFAULT)).
Proof.
  split; [exact strcmp_correct|]. split; [exact strncmp_correct|]. exact strcasecmp_correct.
Qed.

Lemma strcmp_family_correct_witness :
  (let s := boot [(4096, zstr "Amiga"); (8192, zstr "Amiga4000")] in
  exists d, strcmp 4096 8192 s = Ok d s /\ strcoll None 4096 8192 s = Ok d s /\
    d = cmp_bytes (zstr "Amiga") (zstr "Amiga4000") /\
    (d < 0 <-> lex (bytes "Amiga") (bytes "Amiga4000")) /\
    (d = 0 <-> bytes "Amiga" = bytes "Amiga4000") /\
    (0 < d <-> lex (bytes "Amiga4000") (bytes "Amiga"))) /\
  (let s := boot [(4096, zstr "abcX"); (8192, zstr "abcY")] in
  strncmp 4096 8192 4294967295 s = Ok 0 s) /\
  (let s := boot [(4096, zstr "WorkBench"); (8192, zstr "workbench.Info")] in
  strcasecmp None 4096 8192 s = Ok (-46) s /\ strncasecmp None 4096 8192 9 s = Ok 0 s /\
  strcasecmp None NULL 8192 s = Ok 0 (put_errno s EFAULT) /\
  strncasecmp None 4096 NULL 9 s = Ok 0 (put_errno s EFAULT)).
Proof.
  split.
  { apply ((proj1 strcmp_family_correct) 4096 8192 (bytes "Amiga") (bytes "Amiga4000")); ground. }
  split.
  { apply ((proj1 (proj2 strcmp_family_correct)) 4096 8192 (bytes "abcX") (bytes "abcY") 4294967295); [ground|ground|zlia]. }
  apply ((proj2 (proj2 strcmp_family_correct)) None upper_zero_C 4096 8192 (bytes "WorkBench") (bytes "workbench.Info") 9);
    [ground|ground|zlia].
Defined.
