(* ===== verification/StrCopy.v ===== *)
(** * Copying strings and buffers ([library/string])

    [strncpy], [strncat], [strlcpy], [strlcat], [stpcpy], [stpncpy],
    [stccpy], [mempcpy], [memccpy], and [memcpy], [memmove], [memset],
    [bcopy], [bzero] and [explicit_bzero] over the services of exec.library
    and utility.library. *)

From Stdlib Require Import String.
From S2P Require Import Prelude CMem Words StrScan.

(** ** The memory services of the operating system

    exec.library and utility.library are not part of the repository. *)
Class SysMem := {
  CopyMem : Z -> Z -> Z -> M unit;   (** source, destination, size *)
  MoveMem : Z -> Z -> Z -> M unit;
  SetMem : Z -> Z -> Z -> M Z;       (** destination, value, size *)
  ClearMem : Z -> Z -> M unit;
  has_utility : bool;                (** [__IUtility != NULL] *)
}.

(** ** The code *)

Section SysCode.
Context `{SysMem}.

Definition memcpy (dst src len : Z) : M Z :=
  (if (dst =? NULL) || (src =? NULL) then set_errno EFAULT
   else if (0 <? len) && negb (dst =? src) then CopyMem src dst len
   else set_errno EFAULT) ;;
  ret dst.

Definition memmove (dest src len : Z) : M Z :=
  (if (dest =? NULL) || (src =? NULL) then set_errno EFAULT
   else if (0 <? len) && negb (dest =? src) then MoveMem src dest len
   else set_errno EFAULT) ;;
  ret dest.

Definition memset (ptr val len : Z) : M Z :=
  if negb has_utility then set_errno EFAULT ;; ret ptr
  else if ptr =? NULL then set_errno EFAULT ;; ret ptr
  else SetMem ptr val len.

Definition bcopy (src dest len : Z) : M unit := memmove dest src len ;; ret tt.
Definition explicit_bzero (m len : Z) : M unit := memset m 0 len ;; ret tt.
Definition bzero (m len : Z) : M unit := ClearMem m len.
End SysCode.

(** [*dest++ = *src++], with the byte that was copied. *)
Definition copy8 (dest src : Z) : M Z :=
  let* c := load8 src in store8 dest c ;; ret c.

(** The loop [while (n-- > 0) *dest++ = '\0'] of [strncpy]. *)
Definition fill_body : Z * Z -> M (Z * Z + unit) := fun '(dest, n) =>
  if 0 <? n then store8 dest 0 ;; again (dest + 1, n - 1) else leave tt.

Definition strncpy_body : Z * Z * Z -> M (Z * Z * Z + unit) := fun '(dest, src, n) =>
  if 0 <? n then
    let n := n - 1 in
    let* c := copy8 dest src in
    if c =? 0 then loop fill_body (dest + 1, n) ;; leave tt
    else again (dest + 1, src + 1, n)
  else leave tt.

Definition strncpy (dest src n : Z) : M Z :=
  if (dest =? NULL) || (src =? NULL) then set_errno EFAULT ;; ret dest
  else
    (if 0 <? s32 n then loop strncpy_body (dest, src, n) else ret tt) ;;
    ret dest.

(** [while (( *dest) != '\0') dest++] *)
Definition end_body : Z -> M (Z + Z) := fun dest =>
  let* c := load8 dest in if c =? 0 then leave dest else again (dest + 1).

(** It leaves with [dest]. *)
Definition strncat_body : Z * Z * Z -> M (Z * Z * Z + Z) := fun '(dest, src, n) =>
  if 0 <? n then
    let* c := copy8 dest src in
    if c =? 0 then leave dest else again (dest + 1, src + 1, n - 1)
  else leave dest.

Definition strncat (dest src n : Z) : M Z :=
  if (dest =? NULL) || (src =? NULL) then set_errno EFAULT ;; ret dest
  else if 0 <? s32 n then
    let* d := loop end_body dest in
    let* d := loop strncat_body (d, src, n) in
    store8 d 0 ;; ret dest
  else ret dest.

(** The do-while of [strlcpy]: it leaves with [d], [s] and [n]. *)
Definition strlcpy_body : Z * Z * Z -> M (Z * Z * Z + Z * Z * Z) := fun '(d, s, n) =>
  let* c := copy8 d s in
  if c =? 0 then leave (d + 1, s + 1, n)
  else
    let n := n - 1 in
    if negb (n =? 0) then again (d + 1, s + 1, n) else leave (d + 1, s + 1, n).

(** [while ( *s++) ;] *)
Definition past_body : Z -> M (Z + Z) := fun s =>
  let* c := load8 s in if c =? 0 then leave (s + 1) else again (s + 1).

Definition strlcpy (dst src siz : Z) : M Z :=
  if negb (siz =? 0) && ((dst =? NULL) || (src =? NULL)) then set_errno EFAULT ;; ret 0
  else
    let* (d, s, n) :=
      if negb (siz =? 0) then
        let n := siz - 1 in
        if negb (n =? 0) then loop strlcpy_body (dst, src, n) else ret (dst, src, n)
      else ret (dst, src, siz) in
    let* s :=
      if n =? 0 then
        (if negb (siz =? 0) then store8 d 0 else ret tt) ;; loop past_body s
      else ret s in
    ret (u32 (s - src - 1)).

(** [while (n-- != 0 && ( *d) != '\0') d++] *)
Definition strlcat_end_body : Z * Z -> M (Z * Z + Z) := fun '(d, n) =>
  if negb (n =? 0) then
    let* c := load8 d in
    if negb (c =? 0) then again (d + 1, n - 1) else leave d
  else leave d.

(** It leaves with [d] and [s]. *)
Definition strlcat_body : Z * Z * Z -> M (Z * Z * Z + Z * Z) := fun '(d, s, n) =>
  let* c := load8 s in
  if negb (c =? 0) then
    if negb (n =? 1) then store8 d c ;; again (d + 1, s + 1, n - 1)
    else again (d, s + 1, n)
  else leave (d, s).

Definition strlcat (dst src siz : Z) : M Z :=
  if (src =? NULL) || (negb (siz =? 0) && (dst =? NULL)) then set_errno EFAULT ;; ret 0
  else
    let* d := loop strlcat_end_body (dst, siz) in
    let dlen := u32 (d - dst) in
    let n := u32 (siz - dlen) in
    if n =? 0 then
      let* l := strlen src in ret (u32 (dlen + l))
    else
      let* (d, s) := loop strlcat_body (d, src, n) in
      store8 d 0 ;; ret (u32 (dlen + u32 (s - src))).

(** *** [stpcpy] and [stpncpy] *)

(** [HIGHS], [LOWS] and [has_zero] as [stpcpy.c] writes them, over a 32-bit
    [size_t]. *)
Definition stp_highs (x : Z) : Z := u32 (x - u32 (u32 (x * 0 - 1) / 255 * 128)).
Definition stp_lows (x : Z) : Z := u32 (x * 0 - 1) / 255.
Definition has_zero (x : Z) : Z := u32 (x - Z.land (Z.land (stp_lows x) (not32 x)) (stp_highs x)).

(** It leaves with [inr dest] on [return dest]. *)
Definition stpcpy_align_body : Z * Z -> M (Z * Z + (Z * Z + Z)) := fun '(dest, src) =>
  if negb (src mod 4 =? 0) then
    let* c := copy8 dest src in
    if c =? 0 then leave (inr dest) else again (dest + 1, src + 1)
  else leave (inl (dest, src)).

Definition stpcpy_word_body : Z * Z -> M (Z * Z + Z * Z) := fun '(wd, ws) =>
  let* x := load32 ws in
  if has_zero x =? 0 then
    let* y := load32 (ws + 4) in
    store32 (wd + 4) y ;; again (wd + 4, ws + 4)
  else leave (wd, ws).

Definition stpcpy_byte_body : Z * Z -> M (Z * Z + Z) := fun '(dest, src) =>
  let* c := copy8 dest src in
  if negb (c =? 0) then again (dest + 1, src + 1) else leave dest.

Definition stpcpy (dest src : Z) : M Z :=
  if negb (src mod 4 =? dest mod 4) then loop stpcpy_byte_body (dest, src)
  else
    let* r := loop stpcpy_align_body (dest, src) in
    match r with
    | inr dest => ret dest
    | inl (dest, src) =>
        let* (dest, src) := loop stpcpy_word_body (dest, src) in
        loop stpcpy_byte_body (dest, src)
    end.

Definition stpn_align_body : Z * Z * Z -> M (Z * Z * Z + Z * Z * Z) := fun '(d, s, n) =>
  if negb (Z.land s 3 =? 0) && negb (n =? 0) then
    let* c := copy8 d s in
    if negb (c =? 0) then again (d + 1, s + 1, n - 1) else leave (d, s, n)
  else leave (d, s, n).

Definition stpn_word_body : Z * Z * Z -> M (Z * Z * Z + Z * Z * Z) := fun '(wd, ws, n) =>
  if 4 <=? n then
    let* x := load32 ws in
    if detect_null x =? 0 then store32 wd x ;; again (wd + 4, ws + 4, n - 4)
    else leave (wd, ws, n)
  else leave (wd, ws, n).

Definition stpn_byte_body : Z * Z * Z -> M (Z * Z * Z + Z * Z) := fun '(d, s, n) =>
  if negb (n =? 0) then
    let* c := copy8 d s in
    if negb (c =? 0) then again (d + 1, s + 1, n - 1) else leave (d, n)
  else leave (d, n).

Definition stpncpy `{SysMem} (d s n : Z) : M Z :=
  let tail d n := memset d 0 n ;; ret d in
  if Z.land s 3 =? Z.land d 3 then
    let* (d, s, n) := loop stpn_align_body (d, s, n) in
    let* stop := if n =? 0 then ret true else let* c := load8 s in ret (c =? 0) in
    if stop : bool then tail d n
    else
      let* (d, s, n) := loop stpn_word_body (d, s, n) in
      let* (d, n) := loop stpn_byte_body (d, s, n) in
      tail d n
  else
    let* (d, n) := loop stpn_byte_body (d, s, n) in
    tail d n.

(** *** [stccpy], [mempcpy], [memccpy] *)

Definition stccpy_body : Z * Z * Z -> M (Z * Z * Z + Z) := fun '(ptr, src, n) =>
  if 1 <? n then
    let* c := load8 src in
    if negb (c =? 0) then store8 ptr c ;; again (ptr + 1, src + 1, n - 1)
    else leave ptr
  else leave ptr.

Definition stccpy (dest src n : Z) : M Z :=
  let* ptr := loop stccpy_body (dest, src, n) in
  store8 ptr 0 ;; ret (u32 (ptr + 1 - dest)).

(** [!TOO_SMALL(len) && !UNALIGNED(src, dst)] *)
Definition word_copy_ok (dst src len : Z) : bool :=
  (4 <=? len) && (Z.lor (Z.land src 3) (Z.land dst 3) =? 0).

Definition copy32 (dst src : Z) : M unit := let* w := load32 src in store32 dst w.

Definition mempcpy_big_body : Z * Z * Z -> M (Z * Z * Z + Z * Z * Z) := fun '(dst, src, len) =>
  if 16 <=? len then
    copy32 dst src ;; copy32 (dst + 4) (src + 4) ;;
    copy32 (dst + 8) (src + 8) ;; copy32 (dst + 12) (src + 12) ;;
    again (dst + 16, src + 16, len - 16)
  else leave (dst, src, len).

Definition mempcpy_word_body : Z * Z * Z -> M (Z * Z * Z + Z * Z * Z) := fun '(dst, src, len) =>
  if 4 <=? len then copy32 dst src ;; again (dst + 4, src + 4, len - 4)
  else leave (dst, src, len).

Definition mempcpy_byte_body : Z * Z * Z -> M (Z * Z * Z + Z) := fun '(dst, src, len) =>
  if negb (len =? 0) then copy8 dst src ;; again (dst + 1, src + 1, len - 1)
  else leave dst.

Definition mempcpy (dst src len : Z) : M Z :=
  let* (dst, src, len) :=
    if word_copy_ok dst src len then
      let* (dst, src, len) := loop mempcpy_big_body (dst, src, len) in
      loop mempcpy_word_body (dst, src, len)
    else ret (dst, src, len) in
  loop mempcpy_byte_body (dst, src, len).

Definition memccpy_word_body (mask : Z) : Z * Z * Z -> M (Z * Z * Z + Z * Z * Z) :=
  fun '(dst, src, len) =>
  if 4 <=? len then
    let* w := load32 src in
    let buffer := Z.lxor w mask in
    if negb (detect_null buffer =? 0) then leave (dst, src, len)
    else store32 dst w ;; again (dst + 4, src + 4, len - 4)
  else leave (dst, src, len).

Definition memccpy_byte_body (endchar : Z) : Z * Z * Z -> M (Z * Z * Z + Z) :=
  fun '(dst, src, len) =>
  if negb (len =? 0) then
    let* c := copy8 dst src in
    if c =? endchar then leave (dst + 1) else again (dst + 1, src + 1, len - 1)
  else leave NULL.

(** [char] is unsigned, as on PowerPC. *)
Definition memccpy (dst src endchar0 len : Z) : M Z :=
  let endchar := u8 (Z.land endchar0 0xff) in
  let* (dst, src, len) :=
    if word_copy_ok dst src len then
      let mask i := u32 (Z.shiftl i 8) + endchar in
      loop (memccpy_word_body (mask (mask (mask (mask 0))))) (dst, src, len)
    else ret (dst, src, len) in
  loop (memccpy_byte_body endchar) (dst, src, len).

(** ** Proofs *)

(** The state after the bytes [l] are written at [d] and on. *)
Definition wrote (s : state) (d : Z) (l : list Z) : state :=
  set_mem s (write_bytes (mem s) d l).

Lemma wrote_nil s d : wrote s d [] = s.
Proof. apply set_mem_id. Qed.
Lemma wrote_cons s d c l : wrote (wrote s d [c]) (d + 1) l = wrote s d (c :: l).
Proof. done. Qed.
Lemma wrote_app s d l1 l2 :
  wrote (wrote s d l1) (d + Z.of_nat (length l1)) l2 = wrote s d (l1 ++ l2).
Proof. unfold wrote. by rewrite write_bytes_app. Qed.
Lemma mem_wrote s d l : mem (wrote s d l) = write_bytes (mem s) d l.
Proof. done. Qed.
#[local] Hint Rewrite wrote_nil wrote_cons mem_wrote : cm.

Lemma store8_wrote d c s :
  is_byte c -> is_Some (mem s !! d) -> store8 d c s = Ok tt (wrote s d [c]).
Proof. intros Hc Hd. rewrite store8_ok by done. unfold wrote. simpl. by rewrite u8_id. Qed.

Lemma copy8_ok d p c s :
  mem s !! p = Some c -> is_byte c -> is_Some (mem s !! d) ->
  copy8 d p s = Ok c (wrote s d [c]).
Proof.
  intros Hp Hc Hd. unfold copy8. msimp. by erewrite bind_ok by by apply store8_wrote.
Qed.

(** The string [l] at [p], and room for [n] bytes at [d] beside it. *)
Definition beside (s : state) (d : Z) (n : nat) (p : Z) (l : list Z) : Prop :=
  cstr (mem s) p l /\ mapped (mem s) d (Z.of_nat n) /\
  disj d (Z.of_nat n) p (Z.of_nat (length l) + 1).

Lemma beside_first s d n p l : beside s d (S n) p l -> is_Some (mem s !! d).
Proof. intros (_ & Hm & _). apply Hm. lia. Qed.

Lemma mapped_step s d n x :
  mapped (mem s) d (Z.of_nat (S n)) -> mapped (mem (wrote s d [x])) (d + 1) (Z.of_nat n).
Proof.
  intros Hm. rewrite mem_wrote. apply mapped_write. eapply mapped_sub; [done|lia|lia].
Qed.

(** One character copied, or only passed over in the source. *)
Lemma beside_step s d n p c l x :
  beside s d (S n) p (c :: l) -> beside (wrote s d [x]) (d + 1) n (p + 1) l.
Proof.
  intros (Hs & Hm & Hd). unfold disj in *. simpl length in Hd. split.
  - rewrite mem_wrote. apply cstr_frame; [by apply cstr_cons in Hs as (_ & _ & ?)|].
    unfold disj. simpl. lia.
  - split; [by apply mapped_step|]. unfold disj. lia.
Qed.

Lemma beside_chars s d n p l : beside s d n p l -> Forall is_char l.
Proof. intros (Hs & _). eauto with clib. Qed.

Lemma beside_load s d n p c l : beside s d n p (c :: l) -> mem s !! p = Some c /\ is_char c.
Proof. intros (Hs & _). by apply cstr_cons in Hs as (? & ? & _). Qed.

Lemma beside_end s d n p : beside s d n p [] -> mem s !! p = Some 0.
Proof. intros (Hs & _). by apply cstr_nil. Qed.

Lemma beside_less s d n k p l : beside s d n p l -> (k <= n)%nat -> beside s d k p l.
Proof.
  intros (Hs & Hm & Hd) Hk. split; [done|]. split; [eapply mapped_sub; [done|lia|lia]|].
  unfold disj in *. lia.
Qed.

(** One iteration that copies a character, or stores one. *)
Lemma copy8_beside s d n p c l :
  beside s d (S n) p (c :: l) -> copy8 d p s = Ok c (wrote s d [c]).
Proof.
  intros H. destruct (beside_load _ _ _ _ _ _ H). apply copy8_ok; [done|zlia|].
  by eapply beside_first.
Qed.

Lemma copy8_beside_end s d n p :
  beside s d (S n) p [] -> copy8 d p s = Ok 0 (wrote s d [0]).
Proof.
  intros H. apply copy8_ok; [by eapply beside_end|done|by eapply beside_first].
Qed.

Lemma lrun_wrote {L A} (body : L -> M (L + A)) N x s y d c l a :
  body x s = Ok (inl y) (wrote s d [c]) ->
  lrun body (N - 1) y (wrote s d [c]) a (wrote (wrote s d [c]) (d + 1) l) ->
  lrun body N x s a (wrote s d (c :: l)).
Proof. intros. by eapply lrun_next. Qed.

Lemma char_byte c : is_char c -> is_byte c.
Proof. zlia. Qed.
#[export] Hint Resolve char_byte : clib.

Lemma of_nat_S_pos n : (0 <? Z.of_nat (S n)) = true.
Proof. apply Z.ltb_lt. lia. Qed.
Lemma of_nat_S_ne0 n : (Z.of_nat (S n) =? 0) = false.
Proof. apply Z.eqb_neq. lia. Qed.
Lemma of_nat_S_pred n : Z.of_nat (S n) - 1 = Z.of_nat n.
Proof. lia. Qed.
#[local] Hint Rewrite of_nat_S_pos of_nat_S_ne0 of_nat_S_pred Nat2Z.inj_0 : cm.
Ltac nats := autorewrite with cm; cbv zeta.

Lemma fill_loop n d s :
  mapped (mem s) d (Z.of_nat n) ->
  lrun fill_body (Z.of_nat n + 1) (d, Z.of_nat n) s tt (wrote s d (replicate n 0)).
Proof.
  revert d s. induction n as [|n IH]; intros d s Hm.
  - rewrite wrote_nil. apply lrun_done; [done|lia].
  - eapply lrun_wrote.
    { unfold fill_body. nats.
      erewrite bind_ok by (apply store8_wrote; [auto with clib|apply Hm; lia]). reflexivity. }
    eapply lrun_weaken; [by apply IH, mapped_step|lia].
Qed.

(** [strncpy]: the string cut or padded with zeros to [n] bytes. *)
Definition padded (n : nat) (l : list Z) : list Z := take n l ++ replicate (n - length l) 0.

Lemma strncpy_loop l n d p s :
  beside s d n p l -> Z.of_nat n < 4294967296 ->
  lrun strncpy_body (Z.of_nat (length l) + 1) (d, p, Z.of_nat n) s tt (wrote s d (padded n l)).
Proof.
  revert n d p s. induction l as [|c l IH]; intros n d p s Hb Hn;
    (destruct n as [|n]; [rewrite wrote_nil; apply lrun_done; [done|lia]|]).
  - apply lrun_done; [|simpl; lia]. unfold strncpy_body. nats.
    erewrite bind_ok by by eapply copy8_beside_end. cbv iota.
    change (0 =? 0) with true. cbv iota.
    erewrite bind_ok; [|eapply loop_lrun; [apply fill_loop|lia]].
    + unfold padded. simpl. done.
    + apply mapped_step. apply Hb.
  - destruct (beside_load _ _ _ _ _ _ Hb) as [_ Hc].
    change (padded (S n) (c :: l)) with (c :: padded n l).
    eapply lrun_wrote.
    { unfold strncpy_body. nats. erewrite bind_ok by by eapply copy8_beside.
      destruct (Z.eqb_spec c 0); [zlia|reflexivity]. }
    eapply lrun_weaken; [apply IH; [by eapply beside_step|lia]|simpl; lia].
Qed.

Lemma strncpy_ok d p l n s :
  beside s d n p l -> 0 < d -> Z.of_nat n < 2147483648 ->
  strncpy d p (Z.of_nat n) s = Ok d (wrote s d (padded n l)).
Proof.
  intros Hb Hd Hn. unfold strncpy. rewrite (proj2 (Z.eqb_neq d NULL)) by (unfold NULL; lia).
  pose proof (proj1 Hb) as Hs. rewrite (cstr_nonnull _ _ _ Hs). simpl.
  rewrite s32_id by lia. destruct n as [|n]; [simpl; by rewrite wrote_nil|].
  pose proof (cstr_len _ _ _ Hs). pose proof (cstr_pos _ _ _ Hs).
  nats. erewrite bind_ok; [|eapply loop_lrun; [apply strncpy_loop; [done|lia]|zlia]]. done.
Qed.

(** [strncpy] writes exactly [n] bytes: the string cut at [n], or padded with
    zeros; a count with the top bit set, and null pointers, have no effect on
    memory. *)
Lemma strncpy_correct d p l n s :
  beside s d n p l -> 0 < d -> Z.of_nat n < 4294967296 ->
  strncpy d p (Z.of_nat n) s =
  Ok d (if Z.of_nat n <? 2147483648
        then wrote s d (take n l ++ replicate (n - length l) 0) else s).
Proof.
  intros Hb Hd Hn. destruct (Z.ltb_spec (Z.of_nat n) 2147483648); [by apply strncpy_ok|].
  unfold strncpy. rewrite (proj2 (Z.eqb_neq d NULL)) by (unfold NULL; lia).
  rewrite (cstr_nonnull _ _ _ (proj1 Hb)). simpl.
  destruct (Z.ltb_spec 0 (s32 (Z.of_nat n))) as [Hp|]; [|done].
  apply s32_pos_small in Hp; lia.
Qed.

(** *** [strlcpy] *)

Lemma past_loop l p s :
  cstr (mem s) p l ->
  lrun past_body (Z.of_nat (length l) + 1) p s (p + Z.of_nat (length l) + 1) s.
Proof.
  revert p. induction l as [|c l IH]; intros p Hs.
  - apply cstr_nil in Hs. apply lrun_done; [|simpl; lia]. unfold past_body. msimp.
    unfold leave, ret. do 2 f_equal. lia.
  - apply cstr_cons in Hs as (Hc & Hch & Hs). eapply lrun_next.
    { unfold past_body. msimp. destruct (Z.eqb_spec c 0); [zlia|reflexivity]. }
    replace (p + Z.of_nat (length (c :: l)) + 1) with (p + 1 + Z.of_nat (length l) + 1) by (simpl; lia).
    eapply lrun_weaken; [by apply IH|simpl; lia].
Qed.

Lemma strlcpy_loop l n k d p s :
  beside s d k p l -> (S n `min` S (length l) <= k)%nat ->
  lrun strlcpy_body (Z.of_nat (length l) + 1) (d, p, Z.of_nat (S n)) s
    (if (length l <=? n)%nat
     then (d + Z.of_nat (length l) + 1, p + Z.of_nat (length l) + 1, Z.of_nat (S n - length l))
     else (d + Z.of_nat (S n), p + Z.of_nat (S n), 0))
    (wrote s d (if (length l <=? n)%nat then l ++ [0] else take (S n) l)).
Proof.
  revert n k d p s. induction l as [|c l IH]; intros n k d p s Hb Hk;
    (destruct k as [|k]; [simpl in Hk; lia|]).
  - simpl. apply lrun_done; [|lia]. unfold strlcpy_body.
    erewrite bind_ok by by eapply copy8_beside_end. simpl. unfold leave, ret.
    do 4 f_equal; lia.
  - destruct (beside_load _ _ _ _ _ _ Hb) as [_ Hc]. simpl length.
    destruct n as [|n].
    + simpl. apply lrun_done; [|lia]. unfold strlcpy_body.
      erewrite bind_ok by by eapply copy8_beside.
      destruct (Z.eqb_spec c 0); [zlia|]. by destruct l.
    + change (S (length l) <=? S n)%nat with (length l <=? n)%nat.
      assert (Hstep : strlcpy_body (d, p, Z.of_nat (S (S n))) s =
        Ok (inl (d + 1, p + 1, Z.of_nat (S n))) (wrote s d [c])).
      { unfold strlcpy_body. erewrite bind_ok by by eapply copy8_beside.
        destruct (Z.eqb_spec c 0); [zlia|]. by nats. }
      specialize (IH n k (d + 1) (p + 1) (wrote s d [c]) (beside_step _ _ _ _ _ _ _ Hb)
        ltac:(simpl in Hk; lia)).
      destruct (length l <=? n)%nat.
      * eapply lrun_wrote; [exact Hstep|].
        replace (d + Z.of_nat (S (length l)) + 1) with (d + 1 + Z.of_nat (length l) + 1) by lia.
        replace (p + Z.of_nat (S (length l)) + 1) with (p + 1 + Z.of_nat (length l) + 1) by lia.
        eapply lrun_weaken; [exact IH|lia].
      * change (take (S (S n)) (c :: l)) with (c :: take (S n) l).
        eapply lrun_wrote; [exact Hstep|].
        replace (d + Z.of_nat (S (S n))) with (d + 1 + Z.of_nat (S n)) by lia.
        replace (p + Z.of_nat (S (S n))) with (p + 1 + Z.of_nat (S n)) by lia.
        eapply lrun_weaken; [exact IH|lia].
Qed.

(** The rest of the source, after a prefix of it was copied elsewhere. *)
Lemma beside_rest s d k p l n w :
  beside s d k p l -> (n <= length l)%nat -> (length w <= k)%nat ->
  cstr (mem (wrote s d w)) (p + Z.of_nat n) (drop n l).
Proof.
  intros (Hs & Hm & Hd) Hn Hw. rewrite mem_wrote.
  assert (Hs' : cstr (write_bytes (mem s) d w) p l)
    by (apply cstr_frame; [done|unfold disj in *; lia]).
  rewrite <- (take_drop n l) in Hs'. apply cstr_app in Hs'.
  rewrite length_take, Nat.min_l in Hs' by lia. done.
Qed.

(** What [strlcpy] leaves in the destination. *)
Definition truncated (n : nat) (l : list Z) : list Z :=
  match n with 0%nat => [] | S n => take n l ++ [0] end.

Lemma strlcpy_ok d p l n s :
  beside s d (n `min` S (length l)) p l -> 0 < d -> Z.of_nat n < 4294967296 ->
  strlcpy d p (Z.of_nat n) s = Ok (Z.of_nat (length l)) (wrote s d (truncated n l)).
Proof.
  intros Hb Hd Hn. pose proof (proj1 Hb) as Hs.
  pose proof (cstr_len _ _ _ Hs). pose proof (cstr_pos _ _ _ Hs).
  unfold strlcpy. rewrite (proj2 (Z.eqb_neq d NULL)) by (unfold NULL; lia).
  rewrite (cstr_nonnull _ _ _ Hs), andb_false_r. cbv iota.
  assert (Hret : forall s', ret (u32 (p + Z.of_nat (length l) + 1 - p - 1)) s' =
    Ok (Z.of_nat (length l)) s').
  { intros. unfold ret. f_equal. rewrite u32_id; zlia. }
  destruct n as [|[|n]].
  - (* no room at all *)
    rewrite wrote_nil. nats. simpl. erewrite bind_ok; [|reflexivity]. cbv iota beta.
    change (0 =? 0) with true. cbv iota. erewrite bind_ok; [|].
    2:{ erewrite bind_ok; [|reflexivity]. eapply loop_lrun; [by apply past_loop|zlia]. }
    apply Hret.
  - (* room for the terminator *)
    nats. erewrite bind_ok; [|reflexivity]. cbv iota beta. simpl.
    change (0 =? 0) with true. cbv iota.
    erewrite bind_ok.
    2:{ erewrite bind_ok by (apply store8_wrote; [done|by eapply beside_first]).
        eapply loop_lrun; [apply (past_loop l)|zlia].
        pose proof (beside_rest _ _ _ _ _ 0 [0] Hb ltac:(lia) ltac:(simpl; lia)) as Hr.
        by rewrite Z.add_0_r in Hr. }
    by rewrite Hret.
  - nats. erewrite bind_ok; [|eapply loop_lrun; [eapply (strlcpy_loop l n); [exact Hb|lia]|zlia]].
    destruct (Nat.leb_spec (length l) n) as [Hle|Hgt].
    + rewrite (proj2 (Z.eqb_neq (Z.of_nat (S n - length l)) 0)) by lia.
      erewrite bind_ok; [|reflexivity]. rewrite Hret. unfold truncated. by rewrite take_ge by lia.
    + change (0 =? 0) with true. cbv iota.
      assert (Hmap : is_Some (mem (wrote s d (take (S n) l)) !! (d + Z.of_nat (S n)))).
      { rewrite mem_wrote, write_bytes_outside by (rewrite length_take; lia).
        apply (proj1 (proj2 Hb)). lia. }
      erewrite bind_ok.
      2:{ erewrite bind_ok by (apply store8_wrote; [done|exact Hmap]).
          replace (d + Z.of_nat (S n)) with (d + Z.of_nat (length (take (S n) l)))
            by (rewrite length_take; lia).
          rewrite wrote_app. eapply loop_lrun; [apply (past_loop (drop (S n) l))|].
          - eapply beside_rest; [exact Hb|lia|]. rewrite length_app, length_take. simpl. lia.
          - rewrite length_drop. zlia. }
      rewrite length_drop.
      replace (p + Z.of_nat (S n) + Z.of_nat (length l - S n) + 1)
        with (p + Z.of_nat (length l) + 1) by lia.
      apply Hret.
Qed.

(** [strlcpy] returns the length of the source, whatever the size, writes the
    source cut to fit and always terminated, and writes nothing when the
    size is zero; the result is at least the size exactly when the string
    was cut. *)
Lemma strlcpy_correct d p l n s :
  beside s d (n `min` S (length l)) p l -> in_space d (Z.of_nat n) -> Z.of_nat n < 4294967296 ->
  strlcpy d p (Z.of_nat n) s = Ok (Z.of_nat (length l)) (wrote s d (truncated n l)) /\
  (n <> 0%nat -> cstr (mem (wrote s d (truncated n l))) d (take (n - 1) l)) /\
  (n <> 0%nat -> (n <= length l)%nat <-> take (n - 1) l <> l).
Proof.
  intros Hb [Hd Hsp] Hn. split; [by apply strlcpy_ok|]. split.
  - intros Hn0. destruct n as [|n]; [done|]. replace (S n - 1)%nat with n by lia.
    split; [|split].
    + rewrite mem_wrote. apply write_bytes_at.
    + apply Forall_take. by eapply beside_chars.
    + unfold in_space. rewrite length_take. lia.
  - intros Hn0. split; intros H.
    + intros E. apply (f_equal length) in E. rewrite length_take in E. lia.
    + destruct (decide (n <= length l)%nat); [done|]. by rewrite take_ge in H by lia.
Qed.

Lemma beside_intro s d n p l :
  cstr (mem s) p l -> mapped (mem s) d (Z.of_nat n) ->
  disj d (Z.of_nat n) p (Z.of_nat (length l) + 1) -> beside s d n p l.
Proof. by unfold beside. Qed.
Ltac ground_beside := apply beside_intro; [ground|ground|unfold disj; simpl; lia].

(** *** [strncat], [strlcat], [stccpy] *)

Lemma end_loop l p s :
  cstr (mem s) p l -> lrun end_body (Z.of_nat (length l) + 1) p s (p + Z.of_nat (length l)) s.
Proof.
  revert p. induction l as [|c l IH]; intros p Hs.
  - apply cstr_nil in Hs. apply lrun_done; [|simpl; lia]. unfold end_body. msimp.
    unfold leave, ret. do 2 f_equal. lia.
  - apply cstr_cons in Hs as (Hc & Hch & Hs). eapply lrun_next.
    { unfold end_body. msimp. destruct (Z.eqb_spec c 0); [zlia|reflexivity]. }
    replace (p + Z.of_nat (length (c :: l))) with (p + 1 + Z.of_nat (length l)) by (simpl; lia).
    eapply lrun_weaken; [by apply IH|simpl; lia].
Qed.

Lemma strncat_loop l n k d p s :
  beside s d k p l -> (S (n `min` length l) <= k)%nat ->
  lrun strncat_body (Z.of_nat (length l) + 1) (d, p, Z.of_nat n) s
    (d + Z.of_nat (n `min` length l))
    (wrote s d (take n l ++ (if (length l <? n)%nat then [0] else []))).
Proof.
  revert n k d p s. induction l as [|c l IH]; intros n k d p s Hb Hk;
    (destruct k as [|k]; [simpl in Hk; lia|]); (destruct n as [|n];
    [simpl; rewrite wrote_nil; apply lrun_done; [|lia]; unfold strncat_body, leave, ret; simpl;
     do 2 f_equal; lia|]).
  - simpl. apply lrun_done; [|lia]. unfold strncat_body. nats.
    erewrite bind_ok by by eapply copy8_beside_end. simpl. unfold leave, ret. do 2 f_equal. lia.
  - destruct (beside_load _ _ _ _ _ _ Hb) as [_ Hc]. simpl length.
    change (S (length l) <? S n)%nat with (length l <? n)%nat. simpl take. simpl app.
    eapply lrun_wrote.
    { unfold strncat_body. nats. erewrite bind_ok by by eapply copy8_beside.
      destruct (Z.eqb_spec c 0); [zlia|reflexivity]. }
    replace (d + Z.of_nat (S n `min` S (length l))) with (d + 1 + Z.of_nat (n `min` length l)) by lia.
    eapply lrun_weaken; [eapply IH; [by eapply beside_step|simpl in Hk; lia]|lia].
Qed.

(** Storing a byte after what was written, or over its last byte. *)
Lemma store8_after s d w n c k :
  mapped (mem s) d (Z.of_nat k) -> (n < k)%nat -> is_byte c -> (length w = n \/ length w = S n)%nat ->
  store8 (d + Z.of_nat n) c (wrote s d w) = Ok tt (wrote s d (take n w ++ [c])).
Proof.
  intros Hm Hn Hc Hw. rewrite store8_wrote by (done || (rewrite mem_wrote;
    apply (mapped_write _ _ _ d (Z.of_nat k)); [done|lia])).
  f_equal. destruct Hw as [Hw|Hw].
  - rewrite take_ge by lia. rewrite <- Hw. apply wrote_app.
  - unfold wrote. f_equal. rewrite <- (take_drop n w) at 1.
    destruct (drop n w) as [|x [|y r]] eqn:E; apply (f_equal length) in E as EL;
      rewrite length_drop in EL; simpl in EL; try lia.
    rewrite mem_set_mem, !write_bytes_app, length_take, Nat.min_l by lia.
    by rewrite (write_bytes_same _ _ [x] [c]).
Qed.

Lemma strncat_ok d k p l n s :
  cstr (mem s) d k -> beside s (d + Z.of_nat (length k)) (S (n `min` length l)) p l ->
  (0 < n)%nat -> Z.of_nat n < 2147483648 ->
  strncat d p (Z.of_nat n) s = Ok d (wrote s (d + Z.of_nat (length k)) (take n l ++ [0])).
Proof.
  intros Hd Hb Hn0 Hn. pose proof (proj1 Hb) as Hs.
  pose proof (cstr_len _ _ _ Hs). pose proof (cstr_pos _ _ _ Hs).
  pose proof (cstr_len _ _ _ Hd). pose proof (cstr_pos _ _ _ Hd). unfold strncat.
  rewrite (cstr_nonnull _ _ _ Hs), (cstr_nonnull _ _ _ Hd), s32_id by lia. simpl.
  rewrite (proj2 (Z.ltb_lt 0 _)) by lia.
  erewrite bind_ok; [|eapply loop_lrun; [by apply end_loop|zlia]].
  erewrite bind_ok; [|eapply loop_lrun; [eapply strncat_loop; [exact Hb|lia]|zlia]].
  erewrite bind_ok by (eapply store8_after; [apply Hb|lia|done|];
    rewrite length_app, length_take; destruct (Nat.ltb_spec (length l) n); simpl; lia).
  rewrite take_app_le by (rewrite length_take; lia).
  rewrite take_take. by replace ((n `min` length l) `min` n)%nat with (n `min` length l)%nat by lia;
    destruct (Nat.min_spec n (length l)) as [[? ->]|[? ->]]; [done|rewrite !take_ge by lia].
Qed.

Lemma strlcat_end_loop k n d s :
  cstr (mem s) d k ->
  lrun strlcat_end_body (Z.of_nat (length k) + 1) (d, Z.of_nat n) s
    (d + Z.of_nat (n `min` length k)) s.
Proof.
  revert n d. induction k as [|c k IH]; intros n d Hs;
    (destruct n as [|n]; [apply lrun_done; [|lia]; unfold strlcat_end_body, leave, ret; simpl;
      do 2 f_equal; lia|]).
  - apply cstr_nil in Hs. apply lrun_done; [|simpl; lia]. unfold strlcat_end_body. nats. msimp.
    unfold leave, ret. do 2 f_equal. lia.
  - apply cstr_cons in Hs as (Hc & Hch & Hs). eapply lrun_next.
    { unfold strlcat_end_body. nats. msimp. destruct (Z.eqb_spec c 0); [zlia|reflexivity]. }
    simpl length. replace (d + Z.of_nat (S n `min` S (length k)))
      with (d + 1 + Z.of_nat (n `min` length k)) by lia. rewrite ?of_nat_S_pred.
    eapply lrun_weaken; [by apply IH|lia].
Qed.

Lemma strlcat_loop l n k d p s :
  beside s d k p l -> (n `min` length l <= k)%nat ->
  lrun strlcat_body (Z.of_nat (length l) + 1) (d, p, Z.of_nat (S n)) s
    (d + Z.of_nat (n `min` length l), p + Z.of_nat (length l)) (wrote s d (take n l)).
Proof.
  revert n k d p s. induction l as [|c l IH]; intros n k d p s Hb Hk.
  - rewrite take_nil, wrote_nil. pose proof (beside_end _ _ _ _ Hb).
    apply lrun_done; [|simpl; lia]. unfold strlcat_body. msimp. unfold leave, ret.
    do 3 f_equal; simpl; lia.
  - destruct (beside_load _ _ _ _ _ _ Hb) as [Hl Hc]. simpl length.
    destruct n as [|n].
    + assert (Hb' : beside s d 0 (p + 1) l).
      { destruct Hb as (Hs & Hm & Hd). apply cstr_cons in Hs as (_ & _ & Hs).
        split; [done|]. split; [intros a Ha; lia|]. unfold disj in *. simpl in *. lia. }
      eapply lrun_next.
      { unfold strlcat_body. msimp. destruct (Z.eqb_spec c 0); [zlia|reflexivity]. }
      specialize (IH 0%nat 0%nat d (p + 1) s Hb' ltac:(lia)). rewrite take_0 in IH. simpl take.
      replace (p + Z.of_nat (S (length l))) with (p + 1 + Z.of_nat (length l)) by lia.
      eapply lrun_weaken; [exact IH|lia].
    + destruct k as [|k]; [simpl in Hk; lia|]. simpl take.
      eapply lrun_wrote.
      { unfold strlcat_body. msimp. destruct (Z.eqb_spec c 0); [zlia|]. simpl.
        rewrite (proj2 (Z.eqb_neq (Z.of_nat (S (S n))) 1)) by lia. simpl.
        erewrite bind_ok by (apply store8_wrote; [zlia|by eapply beside_first]). reflexivity. }
      rewrite ?of_nat_S_pred.
      replace (d + Z.of_nat (S n `min` S (length l))) with (d + 1 + Z.of_nat (n `min` length l)) by lia.
      replace (p + Z.of_nat (S (length l))) with (p + 1 + Z.of_nat (length l)) by lia.
      eapply lrun_weaken; [eapply IH; [by eapply beside_step|simpl in Hk; lia]|lia].
Qed.

Lemma strlcat_ok d k p l n s :
  cstr (mem s) d k -> word_readable (mem s) p (Z.of_nat (length l) + 1) ->
  cstr (mem s) p l -> Z.of_nat (length k) + Z.of_nat (length l) < 4294967296 ->
  ((length k < n)%nat ->
    beside s (d + Z.of_nat (length k)) (S ((n - length k - 1) `min` length l)) p l) ->
  Z.of_nat n < 4294967296 ->
  strlcat d p (Z.of_nat n) s =
  Ok (Z.of_nat (n `min` length k) + Z.of_nat (length l))
     (if (length k <? n)%nat
      then wrote s (d + Z.of_nat (length k)) (take (n - length k - 1) l ++ [0]) else s).
Proof.
  intros Hd Hw Hs Hsum Hb Hn.
  pose proof (cstr_len _ _ _ Hs). pose proof (cstr_pos _ _ _ Hs).
  pose proof (cstr_len _ _ _ Hd). pose proof (cstr_pos _ _ _ Hd). unfold strlcat.
  rewrite (cstr_nonnull _ _ _ Hs), (cstr_nonnull _ _ _ Hd), andb_false_r. simpl.
  erewrite bind_ok; [|eapply loop_lrun; [by apply strlcat_end_loop|zlia]].
  replace (d + Z.of_nat (n `min` length k) - d) with (Z.of_nat (n `min` length k)) by lia.
  rewrite (u32_id (Z.of_nat (n `min` length k))), (u32_id (Z.of_nat n - _)) by lia.
  destruct (Nat.ltb_spec (length k) n) as [Hlt|Hge].
  - specialize (Hb Hlt). replace (n `min` length k)%nat with (length k) by lia.
    rewrite (proj2 (Z.eqb_neq (Z.of_nat n - Z.of_nat (length k)) 0)) by lia.
    replace (Z.of_nat n - Z.of_nat (length k)) with (Z.of_nat (S (n - length k - 1))) by lia.
    set (j := (n - length k - 1)%nat) in *.
    erewrite bind_ok; [|eapply loop_lrun; [eapply strlcat_loop; [exact Hb|lia]|zlia]].
    cbv beta iota. erewrite bind_ok by (eapply store8_after; [apply Hb|lia|done|rewrite length_take; lia]).
    rewrite take_take. replace ((j `min` length l) `min` j)%nat with (j `min` length l)%nat by lia.
    replace (p + Z.of_nat (length l) - p) with (Z.of_nat (length l)) by lia.
    rewrite (u32_id (Z.of_nat (length l))), u32_id by zlia. unfold ret. do 3 f_equal.
    destruct (Nat.min_spec j (length l)) as [[? ->]|[? ->]]; [done|by rewrite !take_ge by lia].
  - replace (n `min` length k)%nat with n by lia. rewrite Z.sub_diag. simpl.
    erewrite bind_ok by by apply strlen_ok. unfold ret. by rewrite u32_id by lia.
Qed.

Lemma stccpy_loop l n k d p s :
  beside s d k p l -> ((n - 1) `min` length l <= k)%nat ->
  lrun stccpy_body (Z.of_nat (length l) + 1) (d, p, Z.of_nat n) s
    (d + Z.of_nat ((n - 1) `min` length l)) (wrote s d (take (n - 1) l)).
Proof.
  revert n k d p s. induction l as [|c l IH]; intros n k d p s Hb Hk.
  - rewrite take_nil, wrote_nil. pose proof (beside_end _ _ _ _ Hb).
    apply lrun_done; [|simpl; lia]. unfold stccpy_body.
    destruct (1 <? Z.of_nat n); msimp; unfold leave, ret; do 2 f_equal; simpl; lia.
  - destruct (beside_load _ _ _ _ _ _ Hb) as [Hl Hc]. simpl length.
    destruct n as [|[|n]].
    + simpl. rewrite wrote_nil. apply lrun_done; [|lia]. unfold stccpy_body, leave, ret. simpl.
      do 2 f_equal. lia.
    + simpl. rewrite wrote_nil. apply lrun_done; [|lia]. unfold stccpy_body, leave, ret. simpl.
      do 2 f_equal. lia.
    + replace (S (S n) - 1)%nat with (S n) by lia. destruct k as [|k]; [simpl in Hk; lia|].
      simpl take. eapply lrun_wrote.
      { unfold stccpy_body. rewrite (proj2 (Z.ltb_lt 1 _)) by lia. msimp.
        destruct (Z.eqb_spec c 0); [zlia|]. simpl.
        erewrite bind_ok by (apply store8_wrote; [zlia|by eapply beside_first]). reflexivity. }
      rewrite ?of_nat_S_pred.
      replace (d + Z.of_nat (S n `min` S (length l))) with (d + 1 + Z.of_nat (n `min` length l)) by lia.
      specialize (IH (S n) k (d + 1) (p + 1) (wrote s d [c]) (beside_step _ _ _ _ _ _ _ Hb)).
      replace (S n - 1)%nat with n in IH by lia.
      eapply lrun_weaken; [apply IH; simpl in Hk; lia|lia].
Qed.

Lemma stccpy_ok d p l n s :
  beside s d (S ((n - 1) `min` length l)) p l -> 0 < d -> Z.of_nat n < 4294967296 ->
  stccpy d p (Z.of_nat n) s =
  Ok (Z.of_nat ((n - 1) `min` length l) + 1) (wrote s d (take (n - 1) l ++ [0])).
Proof.
  intros Hb Hd Hn. pose proof (proj1 Hb) as Hs.
  pose proof (cstr_len _ _ _ Hs). pose proof (cstr_pos _ _ _ Hs). unfold stccpy.
  erewrite bind_ok; [|eapply loop_lrun; [eapply stccpy_loop; [exact Hb|lia]|zlia]].
  erewrite bind_ok by (eapply store8_after; [apply Hb|lia|done|rewrite length_take; lia]).
  rewrite take_take. unfold ret. rewrite u32_id by zlia.
  replace (((n - 1) `min` length l) `min` (n - 1))%nat with ((n - 1) `min` length l)%nat by lia.
  f_equal; [lia|]. do 2 f_equal.
  destruct (Nat.min_spec (n - 1) (length l)) as [[? ->]|[? ->]]; [done|by rewrite !take_ge by lia].
Qed.

(** *** [stpcpy] *)

(** The word loop of [stpcpy] is never entered: its test is never zero. *)
Lemma has_zero_never x : is_u32 x -> has_zero x <> 0.
Proof.
  intros Hx. unfold has_zero.
  assert (Hl : stp_lows x = 0x01010101) by (unfold stp_lows; by rewrite Z.mul_0_r).
  rewrite Hl, <- Z.land_assoc. set (y := Z.land 0x01010101 _).
  assert (Hy : y mod 4294967296 = y).
  { change 4294967296 with (2 ^ 32). rewrite <- Z.land_ones by lia. unfold y.
    by rewrite (Z.land_comm 0x01010101), <- Z.land_assoc. }
  assert (D : Z.land x y = 0).
  { apply Z.bits_inj'. intros n Hn. unfold y, not32, u32. change 4294967296 with (2 ^ 32).
    rewrite Z.bits_0, !Z.land_spec. destruct (Z_lt_dec n 32).
    - rewrite Z.mod_pow2_bits_low, Z.lnot_spec by lia.
      destruct (Z.testbit x n); [by rewrite andb_false_r|done].
    - rewrite Z.mod_pow2_bits_high by lia. by rewrite !andb_false_r. }
  intros E. assert (x = y) as Hxy.
  { clearbody y. unfold u32, is_u32 in *. Z.div_mod_to_equations. lia. }
  rewrite <- Hxy, Z.land_diag in D. subst x. vm_compute in E. discriminate E.
Qed.

(** A string of which the prefix [u] was copied. *)
Lemma beside_app s d n p u r :
  beside s d (length u + n) p (u ++ r) ->
  beside (wrote s d u) (d + Z.of_nat (length u)) n (p + Z.of_nat (length u)) r.
Proof.
  revert s d p. induction u as [|c u IH]; intros s d p Hb.
  - by rewrite wrote_nil, !Z.add_0_r.
  - simpl length. replace (d + Z.of_nat (S (length u))) with (d + 1 + Z.of_nat (length u)) by lia.
    replace (p + Z.of_nat (S (length u))) with (p + 1 + Z.of_nat (length u)) by lia.
    rewrite <- wrote_cons. apply IH. by eapply beside_step.
Qed.

Lemma stpcpy_byte l d p s :
  beside s d (S (length l)) p l ->
  lrun stpcpy_byte_body (Z.of_nat (length l) + 1) (d, p) s (d + Z.of_nat (length l))
    (wrote s d (l ++ [0])).
Proof.
  revert d p s. induction l as [|c l IH]; intros d p s Hb.
  - apply lrun_done; [|simpl; lia]. unfold stpcpy_byte_body.
    erewrite bind_ok by by eapply copy8_beside_end. unfold leave, ret. simpl. do 2 f_equal. lia.
  - destruct (beside_load _ _ _ _ _ _ Hb) as [_ Hc]. simpl app. eapply lrun_wrote.
    { unfold stpcpy_byte_body. erewrite bind_ok by by eapply copy8_beside.
      destruct (Z.eqb_spec c 0); [zlia|reflexivity]. }
    replace (d + Z.of_nat (length (c :: l))) with (d + 1 + Z.of_nat (length l)) by (simpl; lia).
    eapply lrun_weaken; [apply IH; by eapply beside_step|simpl; lia].
Qed.

Lemma stpcpy_align_stop l d p s :
  p mod 4 = 0 ->
  exists u r, l = u ++ r /\ (p + Z.of_nat (length u)) mod 4 = 0 /\
    lrun stpcpy_align_body (Z.of_nat (length l) + 1) (d, p) s
      (inl (d + Z.of_nat (length u), p + Z.of_nat (length u))) (wrote s d u).
Proof.
  intros E. exists [], l. split; [done|]. rewrite !Z.add_0_r, wrote_nil. split; [done|].
  apply lrun_done; [|lia]. unfold stpcpy_align_body. by rewrite E.
Qed.

Lemma stpcpy_align l d p s :
  beside s d (S (length l)) p l ->
  lrun stpcpy_align_body (Z.of_nat (length l) + 1) (d, p) s (inr (d + Z.of_nat (length l)))
    (wrote s d (l ++ [0])) \/
  exists u r, l = u ++ r /\ (p + Z.of_nat (length u)) mod 4 = 0 /\
    lrun stpcpy_align_body (Z.of_nat (length l) + 1) (d, p) s
      (inl (d + Z.of_nat (length u), p + Z.of_nat (length u))) (wrote s d u).
Proof.
  revert d p s. induction l as [|c l IH]; intros d p s Hb;
    (destruct (Z.eqb_spec (p mod 4) 0) as [E|E]; [by right; apply stpcpy_align_stop|]).
  - left. apply lrun_done; [|simpl; lia]. unfold stpcpy_align_body.
    rewrite (proj2 (Z.eqb_neq _ _) E). simpl.
    erewrite bind_ok by by eapply copy8_beside_end. unfold leave, ret. simpl. do 3 f_equal. lia.
  - destruct (beside_load _ _ _ _ _ _ Hb) as [_ Hc].
    assert (Hstep : stpcpy_align_body (d, p) s = Ok (inl (d + 1, p + 1)) (wrote s d [c])).
    { unfold stpcpy_align_body. rewrite (proj2 (Z.eqb_neq _ _) E). simpl.
      erewrite bind_ok by by eapply copy8_beside. destruct (Z.eqb_spec c 0); [zlia|reflexivity]. }
    destruct (IH (d + 1) (p + 1) (wrote s d [c])) as [Hr|(u & r & -> & Hu & Hr)];
      [by eapply beside_step|left|right].
    + simpl app. eapply lrun_wrote; [exact Hstep|].
      replace (d + Z.of_nat (length (c :: l))) with (d + 1 + Z.of_nat (length l)) by (simpl; lia).
      eapply lrun_weaken; [exact Hr|simpl; lia].
    + exists (c :: u), r. split; [done|]. simpl length.
      replace (d + Z.of_nat (S (length u))) with (d + 1 + Z.of_nat (length u)) by lia.
      replace (p + Z.of_nat (S (length u))) with (p + 1 + Z.of_nat (length u)) by lia.
      split; [done|]. eapply lrun_wrote; [exact Hstep|].
      eapply lrun_weaken; [exact Hr|simpl; lia].
Qed.

(** A word of mapped bytes can be loaded. *)
Lemma load32_mapped p s :
  mem_wf (mem s) -> p mod 4 = 0 -> mapped (mem s) p 4 ->
  exists b0 b1 b2 b3, bytes_at (mem s) p [b0; b1; b2; b3] /\
    is_byte b0 /\ is_byte b1 /\ is_byte b2 /\ is_byte b3 /\
    load32 p s = Ok (word_of b0 b1 b2 b3) s.
Proof.
  intros Hwf Hp Hm. destruct (mapped_bytes_at (mem s) p 4 Hm) as (l & Hl & Hb).
  pose proof (bytes_at_wf _ _ _ Hwf Hb) as HF.
  destruct l as [|b0 [|b1 [|b2 [|b3 [|]]]]]; try done. fcons.
  exists b0, b1, b2, b3. do 5 (split; [done|]). by apply load32_ok.
Qed.

Lemma mem_wf_wrote s d l : mem_wf (mem s) -> Forall is_byte l -> mem_wf (mem (wrote s d l)).
Proof. apply mem_wf_write. Qed.

Lemma chars_bytes l : Forall is_char l -> Forall is_byte l.
Proof. intros H. eapply Forall_impl; [exact H|]. apply char_byte. Qed.

(** The word at the address where a tail of the string starts. *)
Lemma tail_word m p l u r :
  word_readable m p (Z.of_nat (length l) + 1) -> cstr m p l -> l = u ++ r ->
  (p + Z.of_nat (length u)) mod 4 = 0 -> mapped m (p + Z.of_nat (length u)) 4.
Proof.
  intros (_ & _ & Ht) Hs -> Ha a Hin. destruct (decide (a < p + Z.of_nat (length (u ++ r)) + 1)).
  - pose proof (bytes_at_mapped _ _ _ (cstr_bytes _ _ _ Hs)) as Hm. apply Hm.
    rewrite length_app. simpl. rewrite length_app in *. simpl. lia.
  - apply Ht. rewrite length_app in *. split; [lia|].
    Z.div_mod_to_equations. lia.
Qed.

Lemma stpcpy_ok d p l s :
  beside s d (S (length l)) p l -> word_readable (mem s) p (Z.of_nat (length l) + 1) ->
  stpcpy d p s = Ok (d + Z.of_nat (length l)) (wrote s d (l ++ [0])).
Proof.
  intros Hb Hw. pose proof (proj1 Hb) as Hs.
  pose proof (cstr_len _ _ _ Hs). pose proof (cstr_pos _ _ _ Hs). unfold stpcpy.
  destruct (Z.eqb_spec (p mod 4) (d mod 4)); simpl;
    [|eapply loop_lrun; [by apply stpcpy_byte|zlia]].
  destruct (stpcpy_align l d p s Hb) as [Hr|(u & r & El & Hu & Hr)].
  { by erewrite bind_ok; [|eapply loop_lrun; [exact Hr|zlia]]. }
  erewrite bind_ok; [|eapply loop_lrun; [exact Hr|zlia]].
  assert (Hlen : length l = (length u + length r)%nat) by (subst l; by rewrite length_app).
  assert (Hb' : beside (wrote s d u) (d + Z.of_nat (length u)) (S (length r))
    (p + Z.of_nat (length u)) r).
  { apply beside_app. subst l. rewrite length_app in Hb.
    by replace (length u + S (length r))%nat with (S (length u + length r)) by lia. }
  destruct (load32_mapped (p + Z.of_nat (length u)) (wrote s d u))
    as (b0 & b1 & b2 & b3 & _ & ? & ? & ? & ? & HL).
  { apply mem_wf_wrote; [apply Hw|]. apply chars_bytes. pose proof (beside_chars _ _ _ _ _ Hb).
    subst l. by fcons. }
  { done. }
  { rewrite mem_wrote. apply mapped_write. by eapply tail_word. }
  erewrite bind_ok.
  2:{ eapply loop_lrun; [apply (lrun_done _ 1); [|lia]|lia]. unfold stpcpy_word_body.
      rewrite (bind_ok _ _ _ _ _ HL).
      pose proof (has_zero_never (word_of b0 b1 b2 b3)) as Hz.
      rewrite (proj2 (Z.eqb_neq (has_zero _) 0)) by (apply Hz, word_of_range; done).
      reflexivity. }
  cbv beta iota. rewrite (loop_lrun _ _ _ _ _ _ (stpcpy_byte _ _ _ _ Hb')) by zlia.
  rewrite wrote_app. f_equal; [lia|]. subst l. by rewrite app_assoc.
Qed.

(** [stpcpy] copies the string with its terminator and returns the address of
    the terminator it wrote.  Its word loop does nothing: the macro
    [has_zero] is never zero. *)
Lemma stpcpy_correct d p l s :
  beside s d (S (length l)) p l -> word_readable (mem s) p (Z.of_nat (length l) + 1) ->
  stpcpy d p s = Ok (d + Z.of_nat (length l)) (wrote s d (l ++ [0])) /\
  (forall x, is_u32 x -> has_zero x <> 0).
Proof. intros. split; [by apply stpcpy_ok|apply has_zero_never]. Qed.

(** *** Buffers *)

(** The bytes [k] at [p], and room for as many at [d] beside them. *)
Definition over (s : state) (d p : Z) (k : list Z) : Prop :=
  bytes_at (mem s) p k /\ Forall is_byte k /\ mapped (mem s) d (Z.of_nat (length k)) /\
  disj d (Z.of_nat (length k)) p (Z.of_nat (length k)).

Lemma over_app s d p u r :
  over s d p (u ++ r) -> over (wrote s d u) (d + Z.of_nat (length u)) (p + Z.of_nat (length u)) r.
Proof.
  intros (Hb & HF & Hm & Hd). apply bytes_at_app in Hb as [_ Hb]. fcons.
  rewrite length_app, Nat2Z.inj_add in *. split; [|split; [done|split]].
  - rewrite mem_wrote. apply write_bytes_frame; [done|]. unfold disj in *. lia.
  - rewrite mem_wrote. apply mapped_write. eapply mapped_sub; [done|lia|lia].
  - unfold disj in *. lia.
Qed.

Lemma word_bytes_of b0 b1 b2 b3 :
  is_byte b0 -> is_byte b1 -> is_byte b2 -> is_byte b3 ->
  word_bytes (word_of b0 b1 b2 b3) = [b0; b1; b2; b3].
Proof.
  unfold is_byte, word_bytes, word_of, u8. intros.
  apply (f_equal2 cons); [|apply (f_equal2 cons); [|apply (f_equal2 cons); [|apply (f_equal2 cons); [|done]]]];
    Z.div_mod_to_equations; lia.
Qed.

Lemma store32_wrote d s b0 b1 b2 b3 :
  is_byte b0 -> is_byte b1 -> is_byte b2 -> is_byte b3 -> d mod 4 = 0 -> mapped (mem s) d 4 ->
  store32 d (word_of b0 b1 b2 b3) s = Ok tt (wrote s d [b0; b1; b2; b3]).
Proof. intros. rewrite store32_ok by done. by rewrite word_bytes_of. Qed.

(** A word copied, and what remains to be copied. *)
Lemma copy32_over s d p b0 b1 b2 b3 k :
  over s d p (b0 :: b1 :: b2 :: b3 :: k) -> p mod 4 = 0 -> d mod 4 = 0 ->
  load32 p s = Ok (word_of b0 b1 b2 b3) s /\
  store32 d (word_of b0 b1 b2 b3) s = Ok tt (wrote s d [b0; b1; b2; b3]) /\
  over (wrote s d [b0; b1; b2; b3]) (d + 4) (p + 4) k.
Proof.
  intros H Hp Hd. pose proof (over_app s d p [b0; b1; b2; b3] k H) as H'.
  destruct H as (Hb & HF & Hm & _). fcons. simpl length in *.
  split; [apply load32_ok; [done|]; by destruct Hb as (? & ? & ? & ? & _)|].
  split; [|exact H']. apply store32_wrote; try done. eapply mapped_sub; [done|lia|lia].
Qed.

Lemma copy8_over s d p c k :
  over s d p (c :: k) ->
  copy8 d p s = Ok c (wrote s d [c]) /\ over (wrote s d [c]) (d + 1) (p + 1) k.
Proof.
  intros H. split; [|exact (over_app s d p [c] k H)].
  destruct H as ((Hb & _) & HF & Hm & _). fcons. apply copy8_ok; [done|done|].
  apply Hm. simpl. lia.
Qed.

Lemma copy32_ok s d p b0 b1 b2 b3 k :
  over s d p (b0 :: b1 :: b2 :: b3 :: k) -> p mod 4 = 0 -> d mod 4 = 0 ->
  copy32 d p s = Ok tt (wrote s d [b0; b1; b2; b3]) /\
  over (wrote s d [b0; b1; b2; b3]) (d + 4) (p + 4) k.
Proof.
  intros H Hp Hd. destruct (copy32_over _ _ _ _ _ _ _ _ H Hp Hd) as (HL & HS & HO).
  split; [|done]. unfold copy32. by rewrite (bind_ok _ _ _ _ _ HL).
Qed.

Lemma mempcpy_byte k d p s :
  over s d p k ->
  lrun mempcpy_byte_body (Z.of_nat (length k) + 1) (d, p, Z.of_nat (length k)) s
    (d + Z.of_nat (length k)) (wrote s d k).
Proof.
  revert d p s. induction k as [|c k IH]; intros d p s H.
  - rewrite wrote_nil, Z.add_0_r. apply lrun_done; [done|simpl; lia].
  - destruct (copy8_over _ _ _ _ _ H) as [HC HO]. eapply lrun_wrote.
    { unfold mempcpy_byte_body. simpl length. nats. simpl. rewrite (bind_ok _ _ _ _ _ HC).
      reflexivity. }
    simpl length. replace (d + Z.of_nat (S (length k))) with (d + 1 + Z.of_nat (length k)) by lia.
    rewrite ?of_nat_S_pred. eapply lrun_weaken; [by apply IH|lia].
Qed.

(** What is left to a byte loop after a word loop copied [u]. *)
Definition copied (s : state) (d p : Z) (k : list Z) (st : Z * Z * Z) (s' : state) : Prop :=
  exists u r, k = u ++ r /\ Z.of_nat (length u) mod 4 = 0 /\
    st = (d + Z.of_nat (length u), p + Z.of_nat (length u), Z.of_nat (length r)) /\
    s' = wrote s d u /\ over s' (d + Z.of_nat (length u)) (p + Z.of_nat (length u)) r.

Lemma copied_refl s d p k : over s d p k -> copied s d p k (d, p, Z.of_nat (length k)) s.
Proof.
  intros H. exists [], k. rewrite wrote_nil, !Z.add_0_r. done.
Qed.

Lemma copied_cons s d p v k st s' :
  over s d p (v ++ k) -> Z.of_nat (length v) mod 4 = 0 ->
  copied (wrote s d v) (d + Z.of_nat (length v)) (p + Z.of_nat (length v)) k st s' ->
  copied s d p (v ++ k) st s'.
Proof.
  intros H Hv (u & r & -> & Hu & -> & -> & HO). exists (v ++ u), r.
  rewrite !length_app, !Nat2Z.inj_add, !Z.add_assoc, <- wrote_app, app_assoc.
  rewrite Z.add_mod, Hv, Hu by lia. done.
Qed.

Lemma mempcpy_word k d p s :
  over s d p k -> p mod 4 = 0 -> d mod 4 = 0 ->
  exists st s', lrun mempcpy_word_body (Z.of_nat (length k) + 1) (d, p, Z.of_nat (length k)) s st s' /\
    copied s d p k st s'.
Proof.
  revert d p s. induction k as [|a|a b|a b c|b0 b1 b2 b3 k IH] using list4_ind; intros d p s H Hp Hd;
    try (eexists _, _; split; [apply lrun_done; [reflexivity|lia]|by apply copied_refl]).
  destruct (copy32_ok _ _ _ _ _ _ _ _ H Hp Hd) as [HC HO].
  destruct (IH (d + 4) (p + 4) _ HO (add4_mod _ Hp) (add4_mod _ Hd)) as (st & s' & Hr & Hcp).
  exists st, s'. split.
  - eapply lrun_next; [|eapply lrun_weaken; [exact Hr|simpl; lia]].
    unfold mempcpy_word_body. rewrite (proj2 (Z.leb_le 4 _)) by (simpl; lia).
    rewrite (bind_ok _ _ _ _ _ HC). unfold again, ret. do 3 f_equal. simpl. lia.
  - by apply (copied_cons s d p [b0; b1; b2; b3] k).
Qed.

Lemma mempcpy_big k d p s :
  over s d p k -> p mod 4 = 0 -> d mod 4 = 0 ->
  exists st s', lrun mempcpy_big_body (Z.of_nat (length k) + 1) (d, p, Z.of_nat (length k)) s st s' /\
    copied s d p k st s'.
Proof.
  remember (length k) as n eqn:Hn. revert k Hn d p s. induction (lt_wf n) as [n _ IH].
  intros k -> d p s H Hp Hd.
  destruct (Z.leb_spec 16 (Z.of_nat (length k))) as [Hge|Hlt].
  2:{ eexists _, _; split; [apply lrun_done; [|lia]|by apply copied_refl].
      unfold mempcpy_big_body. by rewrite (proj2 (Z.leb_gt 16 _)). }
  assert (Hk : exists v0 v1 v2 v3 k', k = v0 ++ v1 ++ v2 ++ v3 ++ k' /\
    length v0 = 4%nat /\ length v1 = 4%nat /\ length v2 = 4%nat /\ length v3 = 4%nat).
  { exists (take 4 k), (take 4 (drop 4 k)), (take 4 (drop 8 k)), (take 4 (drop 12 k)), (drop 16 k).
    rewrite !length_take, !length_drop. split; [|lia].
    rewrite <- (take_drop 4 k) at 1. f_equal. rewrite <- (take_drop 4 (drop 4 k)) at 1. f_equal.
    rewrite drop_drop. rewrite <- (take_drop 4 (drop (4 + 4) k)) at 1. f_equal.
    rewrite drop_drop. rewrite <- (take_drop 4 (drop (4 + 4 + 4) k)) at 1. f_equal.
    by rewrite drop_drop. }
  destruct Hk as (v0 & v1 & v2 & v3 & k' & -> & L0 & L1 & L2 & L3).
  assert (Four : forall v : list Z, length v = 4%nat -> exists a b c e, v = [a; b; c; e]).
  { intros v Hv. destruct v as [|a [|b [|c [|e [|]]]]]; try done. by exists a, b, c, e. }
  destruct (Four v0 L0) as (a0 & a1 & a2 & a3 & ->), (Four v1 L1) as (b0 & b1 & b2 & b3 & ->),
    (Four v2 L2) as (c0 & c1 & c2 & c3 & ->), (Four v3 L3) as (e0 & e1 & e2 & e3 & ->).
  destruct (copy32_ok _ _ _ _ _ _ _ _ H Hp Hd) as [C0 H0].
  pose proof (add4_mod _ Hp) as Hp1. pose proof (add4_mod _ Hd) as Hd1.
  destruct (copy32_ok _ _ _ _ _ _ _ _ H0 Hp1 Hd1) as [C1 H1].
  pose proof (add4_mod _ Hp1) as Hp2. pose proof (add4_mod _ Hd1) as Hd2.
  destruct (copy32_ok _ _ _ _ _ _ _ _ H1 Hp2 Hd2) as [C2 H2].
  pose proof (add4_mod _ Hp2) as Hp3. pose proof (add4_mod _ Hd2) as Hd3.
  destruct (copy32_ok _ _ _ _ _ _ _ _ H2 Hp3 Hd3) as [C3 H3].
  destruct (IH (length k') ltac:(simpl; lia) k' eq_refl _ _ _ H3 (add4_mod _ Hp3) (add4_mod _ Hd3))
    as (st & s' & Hr & Hcp).
  assert (Hall : copied s d p ([a0; a1; a2; a3] ++ [b0; b1; b2; b3] ++ [c0; c1; c2; c3] ++
    [e0; e1; e2; e3] ++ k') st s')
    by (do 4 (apply copied_cons; [done|done|]); exact Hcp).
  replace (d + 4 + 4 + 4) with (d + 12) in * by lia. replace (d + 4 + 4) with (d + 8) in * by lia.
  replace (p + 4 + 4 + 4) with (p + 12) in * by lia. replace (p + 4 + 4) with (p + 8) in * by lia.
  replace (d + 12 + 4) with (d + 16) in * by lia. replace (p + 12 + 4) with (p + 16) in * by lia.
  exists st, s'. split.
  - eapply lrun_next; [|eapply lrun_weaken; [exact Hr|simpl; lia]].
    unfold mempcpy_big_body. rewrite (proj2 (Z.leb_le 16 _)) by (simpl; lia).
    rewrite (bind_ok _ _ _ _ _ C0), (bind_ok _ _ _ _ _ C1), (bind_ok _ _ _ _ _ C2), (bind_ok _ _ _ _ _ C3).
    unfold again, ret. do 3 f_equal. simpl. lia.
  - exact Hall.
Qed.

Lemma word_copy_aligned d p len :
  0 <= d -> 0 <= p -> word_copy_ok d p len = true -> p mod 4 = 0 /\ d mod 4 = 0.
Proof.
  intros Hd Hp H. unfold word_copy_ok in H. apply andb_prop in H as [_ H]. apply Z.eqb_eq in H.
  apply Z.lor_eq_0_iff in H as [? ?]. rewrite !land3 in * by done. done.
Qed.

Lemma mempcpy_ok d p k s :
  over s d p k -> 0 <= d -> 0 <= p -> Z.of_nat (length k) < 4294967296 ->
  mempcpy d p (Z.of_nat (length k)) s = Ok (d + Z.of_nat (length k)) (wrote s d k).
Proof.
  intros H Hd Hp Hn. unfold mempcpy.
  assert (Hfin : forall st s', copied s d p k st s' ->
    loop mempcpy_byte_body st s' = Ok (d + Z.of_nat (length k)) (wrote s d k)).
  { intros st s' (u & r & -> & _ & -> & -> & HO). rewrite length_app in *.
    erewrite loop_lrun; [|by apply mempcpy_byte|lia]. rewrite wrote_app. f_equal. lia. }
  destruct (word_copy_ok d p (Z.of_nat (length k))) eqn:E.
  2:{ erewrite bind_ok; [|reflexivity]. by apply Hfin, copied_refl. }
  apply word_copy_aligned in E as [Ap Ad]; [|done|done].
  destruct (mempcpy_big k d p s H Ap Ad) as (st & s1 & Hr & u & r & -> & Hu & -> & -> & HO).
  rewrite length_app in *.
  assert (A : forall q, q mod 4 = 0 -> (q + Z.of_nat (length u)) mod 4 = 0)
    by (intros q Hq; by rewrite Z.add_mod, Hq, Hu by lia).
  destruct (mempcpy_word r _ _ _ HO (A _ Ap) (A _ Ad)) as (st2 & s2 & Hr2 & Hc2).
  erewrite bind_ok.
  2:{ erewrite bind_ok; [|eapply loop_lrun; [exact Hr|lia]]. eapply loop_lrun; [exact Hr2|lia]. }
  destruct st2 as [[d2 p2] n2]. apply Hfin. by apply copied_cons.
Qed.

(** *** [memccpy] *)

Lemma memccpy_byte e k d p s :
  over s d p k ->
  lrun (memccpy_byte_body e) (Z.of_nat (length k) + 1) (d, p, Z.of_nat (length k)) s
    (match find_byte e k with Some i => d + Z.of_nat i + 1 | None => NULL end)
    (wrote s d (match find_byte e k with Some i => take (S i) k | None => k end)).
Proof.
  revert d p s. induction k as [|c k IH]; intros d p s H.
  - simpl. rewrite wrote_nil. apply lrun_done; [done|lia].
  - destruct (copy8_over _ _ _ _ _ H) as [HC HO]. simpl find_byte. simpl length.
    destruct (Z.eqb_spec c e) as [->|Hne].
    + simpl. apply lrun_done; [|lia]. unfold memccpy_byte_body. nats. simpl.
      rewrite (bind_ok _ _ _ _ _ HC), Z.eqb_refl. unfold leave, ret. rewrite take_0.
      do 2 f_equal. lia.
    + specialize (IH (d + 1) (p + 1) _ HO).
      assert (Hstep : memccpy_byte_body e (d, p, Z.of_nat (S (length k))) s =
        Ok (inl (d + 1, p + 1, Z.of_nat (length k))) (wrote s d [c])).
      { unfold memccpy_byte_body. nats. simpl. rewrite (bind_ok _ _ _ _ _ HC).
        by rewrite (proj2 (Z.eqb_neq c e) Hne). }
      destruct (find_byte e k) as [i|] eqn:E; cbn [fmap option_fmap option_map].
      * change (take (S (S i)) (c :: k)) with (c :: take (S i) k). eapply lrun_wrote; [exact Hstep|].
        replace (d + Z.of_nat (S i) + 1) with (d + 1 + Z.of_nat i + 1) by lia.
        eapply lrun_weaken; [exact IH|lia].
      * eapply lrun_wrote; [exact Hstep|]. eapply lrun_weaken; [exact IH|lia].
Qed.

Lemma memccpy_word e k d p s :
  is_byte e -> over s d p k -> p mod 4 = 0 -> d mod 4 = 0 ->
  exists u r, k = u ++ r /\ (e ∉ u) /\
    lrun (memccpy_word_body (word_of e e e e)) (Z.of_nat (length k) + 1)
      (d, p, Z.of_nat (length k)) s
      (d + Z.of_nat (length u), p + Z.of_nat (length u), Z.of_nat (length r)) (wrote s d u).
Proof.
  intros He. revert d p s.
  induction k as [|a|a b|a b c|b0 b1 b2 b3 k IH] using list4_ind; intros d p s H Hp Hd;
    try (eexists [], _; split; [reflexivity|]; split; [apply not_elem_of_nil|];
         rewrite wrote_nil, !Z.add_0_r; apply lrun_done; [reflexivity|lia]).
  destruct (copy32_over _ _ _ _ _ _ _ _ H Hp Hd) as (HL & HS & HO).
  pose proof (proj1 (proj2 H)) as HF. fcons.
  assert (Hx : detect_null (Z.lxor (word_of b0 b1 b2 b3) (word_of e e e e)) = 0 <->
    b0 <> e /\ b1 <> e /\ b2 <> e /\ b3 <> e).
  { rewrite lxor_word, detect_null_spec by auto with clib. unfold no_zero.
    assert (X : forall b, Z.lxor b e = 0 <-> b = e)
      by (intros b; split; [apply Z.lxor_eq|intros ->; apply Z.lxor_nilpotent]).
    by rewrite !X. }
  destruct (Z.eqb_spec (detect_null (Z.lxor (word_of b0 b1 b2 b3) (word_of e e e e))) 0) as [E|E].
  - destruct (IH (d + 4) (p + 4) _ HO (add4_mod _ Hp) (add4_mod _ Hd)) as (u & r & -> & Hu & Hr).
    exists (b0 :: b1 :: b2 :: b3 :: u), r. split; [done|]. apply Hx in E as (? & ? & ? & ?).
    split; [rewrite !not_elem_of_cons; auto 10|].
    replace (d + Z.of_nat (length (b0 :: b1 :: b2 :: b3 :: u))) with (d + 4 + Z.of_nat (length u)) by (simpl; lia).
    replace (p + Z.of_nat (length (b0 :: b1 :: b2 :: b3 :: u))) with (p + 4 + Z.of_nat (length u)) by (simpl; lia).
    change (b0 :: b1 :: b2 :: b3 :: u) with ([b0; b1; b2; b3] ++ u).
    rewrite <- (wrote_app s d [b0; b1; b2; b3] u). change (Z.of_nat (length [b0; b1; b2; b3])) with 4.
    eapply lrun_next; [|eapply lrun_weaken; [exact Hr|simpl; lia]].
    unfold memccpy_word_body. rewrite (proj2 (Z.leb_le 4 _)) by (simpl; lia).
    rewrite (bind_ok _ _ _ _ _ HL), (proj2 (Z.eqb_eq _ 0) (proj2 Hx ltac:(done))).
    cbv beta iota delta [negb].
    rewrite (bind_ok _ _ _ _ _ HS). unfold again, ret. do 3 f_equal. simpl. lia.
  - exists [], (b0 :: b1 :: b2 :: b3 :: k). split; [done|]. split; [apply not_elem_of_nil|].
    rewrite wrote_nil, !Z.add_0_r. apply lrun_done; [|lia].
    unfold memccpy_word_body. rewrite (proj2 (Z.leb_le 4 _)) by (simpl; lia).
    by rewrite (bind_ok _ _ _ _ _ HL), (proj2 (Z.eqb_neq _ 0) E).
Qed.

Lemma memccpy_mask e :
  is_byte e ->
  u32 (Z.shiftl (u32 (Z.shiftl (u32 (Z.shiftl (u32 (Z.shiftl 0 8) + e) 8) + e) 8) + e) 8) + e =
  word_of e e e e.
Proof.
  intros He. unfold is_byte in He. rewrite !Z.shiftl_mul_pow2 by lia. change (2 ^ 8) with 256.
  change (u32 (0 * 256)) with 0. rewrite Z.add_0_l, (u32_id (e * 256)) by lia.
  rewrite (u32_id ((e * 256 + e) * 256)), u32_id by lia. unfold word_of. lia.
Qed.

Lemma memccpy_ok d p k c s :
  over s d p k -> 0 <= d -> 0 <= p -> Z.of_nat (length k) < 4294967296 ->
  memccpy d p c (Z.of_nat (length k)) s =
  Ok (match find_byte (u8 c) k with Some i => d + Z.of_nat i + 1 | None => NULL end)
     (wrote s d (match find_byte (u8 c) k with Some i => take (S i) k | None => k end)).
Proof.
  intros H Hd Hp Hn. unfold memccpy.
  assert (Ec : u8 (Z.land c 255) = u8 c).
  { change 255 with (Z.ones 8). rewrite Z.land_ones by lia. change (2 ^ 8) with 256.
    unfold u8. by rewrite Z.mod_mod by lia. }
  rewrite Ec. pose proof (u8_byte c) as He. set (e := u8 c) in *. clearbody e. clear Ec.
  destruct (word_copy_ok d p (Z.of_nat (length k))) eqn:E.
  - apply word_copy_aligned in E as [Ap Ad]; [|done|done]. cbv zeta.
    rewrite memccpy_mask by done.
    destruct (memccpy_word e k d p s He H Ap Ad) as (u & r & -> & Hu & Hr).
    erewrite bind_ok; [|eapply loop_lrun; [exact Hr|lia]]. cbv iota beta.
    rewrite length_app in *.
    erewrite loop_lrun; [|apply memccpy_byte; by apply over_app|lia].
    rewrite find_byte_app, (proj2 (find_byte_None e u) Hu).
    destruct (find_byte e r) as [i|]; cbn [fmap option_fmap option_map]; rewrite wrote_app.
    + f_equal; [lia|]. f_equal. rewrite take_app_ge by lia. f_equal. f_equal. lia.
    + done.
  - erewrite bind_ok; [|reflexivity]. cbv iota beta.
    eapply loop_lrun; [by apply memccpy_byte|lia].
Qed.

(** [mempcpy] copies the buffer, by blocks of four words, words and bytes, and
    returns the end of the copy; [memccpy] stops after the first occurrence of
    the character and returns the address after its copy, or copies the
    whole buffer and returns a null pointer. *)
Theorem mempcpy_memccpy_correct d p k c s :
  over s d p k -> 0 <= d -> 0 <= p -> Z.of_nat (length k) < 4294967296 ->
  mempcpy d p (Z.of_nat (length k)) s = Ok (d + Z.of_nat (length k)) (wrote s d k) /\
  memccpy d p c (Z.of_nat (length k)) s =
    Ok (match find_byte (u8 c) k with Some i => d + Z.of_nat i + 1 | None => NULL end)
       (wrote s d (match find_byte (u8 c) k with Some i => take (S i) k | None => k end)).
Proof. intros. split; [by apply mempcpy_ok|by apply memccpy_ok]. Qed.

Lemma mempcpy_memccpy_correct_witness :
  let k := bytes "a long line of text" in
  let s := boot [(4096, k); (8192, replicate 19 0)] in
  mempcpy 8192 4096 19 s = Ok 8211 (wrote s 8192 k) /\
  memccpy 8192 4096 105 19 s = Ok 8201 (wrote s 8192 (bytes "a long li")).
Proof.
  apply (mempcpy_memccpy_correct 8192 4096 (bytes "a long line of text") 105);
    [|lia|lia|by vm_compute].
  split; [ground|]. split; [repeat constructor; done|]. split; [ground|unfold disj; simpl; lia].
Defined.

(** *** What the operating system promises *)

Class SysMemLaws `(SysMem) : Prop := {
  CopyMem_ok s d p k : over s d p k -> CopyMem p d (Z.of_nat (length k)) s = Ok tt (wrote s d k);
  (** the regions may overlap *)
  MoveMem_ok s d p k : bytes_at (mem s) p k -> Forall is_byte k ->
    mapped (mem s) d (Z.of_nat (length k)) ->
    MoveMem p d (Z.of_nat (length k)) s = Ok tt (wrote s d k);
  SetMem_ok s d v n : mapped (mem s) d (Z.of_nat n) ->
    SetMem d v (Z.of_nat n) s = Ok d (wrote s d (replicate n (u8 v)));
  ClearMem_ok s d n : mapped (mem s) d (Z.of_nat n) ->
    ClearMem d (Z.of_nat n) s = Ok tt (wrote s d (replicate n 0));
}.

(** An operating system that keeps these promises. *)
Definition peek (m : gmap Z Z) (p n : Z) : list Z :=
  map (fun a => default 0 (m !! a)) (seqZ p n).

Definition put_mapped {A} (d : Z) (l : list Z) (r : A) : M A := fun s =>
  if mappedb (mem s) d (Z.of_nat (length l)) then Ok r (wrote s d l) else Fault.

#[export] Instance sample_mem : SysMem := {|
  CopyMem p d n s := put_mapped d (peek (mem s) p n) tt s;
  MoveMem p d n s := put_mapped d (peek (mem s) p n) tt s;
  SetMem d v n := put_mapped d (replicate (Z.to_nat n) (u8 v)) d;
  ClearMem d n := put_mapped d (replicate (Z.to_nat n) 0) tt;
  has_utility := true;
|}.

Lemma put_mapped_ok {A} d l (r : A) s :
  mapped (mem s) d (Z.of_nat (length l)) -> put_mapped d l r s = Ok r (wrote s d l).
Proof. intros H. unfold put_mapped. by rewrite mappedb_true. Qed.

Lemma peek_bytes m p k : bytes_at m p k -> peek m p (Z.of_nat (length k)) = k.
Proof.
  revert p. induction k as [|c k IH]; intros p Hb; [done|]. destruct Hb as [Hc Hb].
  unfold peek. simpl length. rewrite seqZ_cons by lia. simpl. rewrite Hc. simpl. f_equal.
  replace (Z.succ p) with (p + 1) by lia.
  replace (Z.pred (Z.of_nat (S (length k)))) with (Z.of_nat (length k)) by lia.
  by apply IH.
Qed.

#[export] Instance sample_mem_laws : SysMemLaws sample_mem.
Proof.
  split; intros; simpl; rewrite ?Nat2Z.id; try (apply put_mapped_ok; by rewrite ?length_replicate).
  - destruct H as (Hb & _ & Hm & _). by rewrite peek_bytes, put_mapped_ok.
  - by rewrite peek_bytes, put_mapped_ok.
Qed.

Section SysProofs.
Context `{SysMemLaws}.

Lemma memmove_ok d p k s :
  bytes_at (mem s) p k -> Forall is_byte k -> mapped (mem s) d (Z.of_nat (length k)) ->
  0 < d -> 0 < p -> d <> p -> k <> [] ->
  memmove d p (Z.of_nat (length k)) s = Ok d (wrote s d k).
Proof.
  intros Hb HF Hm Hd Hp Hne Hk. unfold memmove.
  rewrite (proj2 (Z.eqb_neq d NULL)), (proj2 (Z.eqb_neq p NULL)), (proj2 (Z.eqb_neq d p))
    by (unfold NULL; lia).
  assert (0 < Z.of_nat (length k)) by (destruct k; [done|simpl; lia]).
  rewrite (proj2 (Z.ltb_lt 0 _)) by done. simpl.
  by erewrite bind_ok by by apply MoveMem_ok.
Qed.

Lemma memcpy_ok d p k s :
  over s d p k -> 0 < d -> 0 < p -> k <> [] ->
  memcpy d p (Z.of_nat (length k)) s = Ok d (wrote s d k).
Proof.
  intros Ho Hd Hp Hk. unfold memcpy.
  assert (Hl : 0 < Z.of_nat (length k)) by (destruct k; [done|simpl; lia]).
  assert (Hne : d <> p) by (destruct Ho as (_ & _ & _ & Hdj); unfold disj in Hdj; lia).
  rewrite (proj2 (Z.eqb_neq d NULL)), (proj2 (Z.eqb_neq p NULL)), (proj2 (Z.eqb_neq d p))
    by (unfold NULL; lia).
  rewrite (proj2 (Z.ltb_lt 0 _)) by done. simpl.
  by erewrite bind_ok by by apply CopyMem_ok.
Qed.

Lemma memset_ok d v n s :
  has_utility = true -> mapped (mem s) d (Z.of_nat n) -> 0 < d ->
  memset d v (Z.of_nat n) s = Ok d (wrote s d (replicate n (u8 v))).
Proof.
  intros Hu Hm Hd. unfold memset. rewrite Hu, (proj2 (Z.eqb_neq d NULL)) by (unfold NULL; lia).
  by apply SetMem_ok.
Qed.

(** [memmove], [memcpy], [memset], [bcopy] and [bzero] do to memory what their
    names say, [memmove] also for overlapping buffers; null pointers are
    [EFAULT], and so, without need, are an empty buffer and a copy of a
    buffer onto itself, which change nothing. *)
Theorem memmove_memset_correct d p k v n s :
  bytes_at (mem s) p k -> Forall is_byte k -> mapped (mem s) d (Z.of_nat (length k)) ->
  mapped (mem s) d (Z.of_nat n) -> has_utility = true ->
  0 < d -> 0 < p -> d <> p -> k <> [] ->
  memmove d p (Z.of_nat (length k)) s = Ok d (wrote s d k) /\
  bcopy p d (Z.of_nat (length k)) s = Ok tt (wrote s d k) /\
  (disj d (Z.of_nat (length k)) p (Z.of_nat (length k)) ->
   memcpy d p (Z.of_nat (length k)) s = Ok d (wrote s d k)) /\
  memset d v (Z.of_nat n) s = Ok d (wrote s d (replicate n (u8 v))) /\
  bzero d (Z.of_nat n) s = Ok tt (wrote s d (replicate n 0)) /\
  explicit_bzero d (Z.of_nat n) s = Ok tt (wrote s d (replicate n 0)) /\
  memmove NULL p 1 s = Ok NULL (put_errno s EFAULT) /\
  memmove d p 0 s = Ok d (put_errno s EFAULT) /\
  memcpy d d (Z.of_nat n) s = Ok d (put_errno s EFAULT).
Proof.
  intros Hb HF Hm Hmn Hu Hd Hp Hne Hk.
  split; [by apply memmove_ok|].
  split; [unfold bcopy; by erewrite bind_ok by by apply memmove_ok|].
  split; [intros; by apply memcpy_ok|].
  split; [by apply memset_ok|]. split; [by apply ClearMem_ok|].
  split; [unfold explicit_bzero; by erewrite bind_ok by by apply memset_ok|].
  split; [done|]. unfold memmove, memcpy.
  rewrite (proj2 (Z.eqb_neq d NULL)), (proj2 (Z.eqb_neq p NULL)) by (unfold NULL; lia).
  rewrite Z.eqb_refl, andb_false_r. done.
Qed.
End SysProofs.

Lemma memmove_memset_correct_witness :
  let s := boot [(4096, bytes "abcdef")] in
  memmove 4097 4096 5 s = Ok 4097 (wrote s 4097 (bytes "abcde")) /\
  bcopy 4096 4097 5 s = Ok tt (wrote s 4097 (bytes "abcde")) /\
  (disj 4097 5 4096 5 -> memcpy 4097 4096 5 s = Ok 4097 (wrote s 4097 (bytes "abcde"))) /\
  memset 4097 300 3 s = Ok 4097 (wrote s 4097 [44; 44; 44]) /\
  bzero 4097 3 s = Ok tt (wrote s 4097 [0; 0; 0]) /\
  explicit_bzero 4097 3 s = Ok tt (wrote s 4097 [0; 0; 0]) /\
  memmove NULL 4096 1 s = Ok NULL (put_errno s EFAULT) /\
  memmove 4097 4096 0 s = Ok 4097 (put_errno s EFAULT) /\
  memcpy 4097 4097 3 s = Ok 4097 (put_errno s EFAULT).
Proof.
  apply (memmove_memset_correct 4097 4096 (bytes "abcde") 300 3);
    [ground|repeat constructor; done|ground|ground|done|lia|lia|lia|done].
Defined.

(** *** [stpncpy] *)

Lemma stpn_byte l n d p s :
  beside s d n p l ->
  lrun stpn_byte_body (Z.of_nat (length l) + 1) (d, p, Z.of_nat n) s
    (d + Z.of_nat (n `min` length l), Z.of_nat (n - length l))
    (wrote s d (take n l ++ (if (length l <? n)%nat then [0] else []))).
Proof.
  revert n d p s. induction l as [|c l IH]; intros n d p s Hb;
    (destruct n as [|n]; [simpl; rewrite wrote_nil; apply lrun_done; [|lia];
      unfold stpn_byte_body, leave, ret; simpl; do 3 f_equal; lia|]).
  - simpl. apply lrun_done; [|lia]. unfold stpn_byte_body. nats. simpl.
    erewrite bind_ok by by eapply copy8_beside_end. simpl. unfold leave, ret. do 3 f_equal. lia.
  - destruct (beside_load _ _ _ _ _ _ Hb) as [_ Hc]. simpl length.
    change (S (length l) <? S n)%nat with (length l <? n)%nat. simpl take. simpl app.
    eapply lrun_wrote.
    { unfold stpn_byte_body. nats. simpl. erewrite bind_ok by by eapply copy8_beside.
      destruct (Z.eqb_spec c 0); [zlia|reflexivity]. }
    replace (d + Z.of_nat (S n `min` S (length l))) with (d + 1 + Z.of_nat (n `min` length l)) by lia.
    replace (S n - S (length l))%nat with (n - length l)%nat by lia. rewrite ?of_nat_S_pred.
    eapply lrun_weaken; [apply IH; by eapply beside_step|lia].
Qed.

(** Zeros written over a terminator that was already there. *)
Lemma wrote_again s d u w v :
  (length v <= length w)%nat ->
  wrote (wrote s d (u ++ v)) (d + Z.of_nat (length u)) w = wrote s d (u ++ w).
Proof.
  intros Hl. unfold wrote. rewrite set_mem_set, mem_set_mem. f_equal.
  rewrite !write_bytes_app. set (m := write_bytes (mem s) d u).
  apply map_eq. intros a. rewrite !write_bytes_lookup.
  repeat case_decide; try lia; done.
Qed.

Section StpnProofs.
Context `{SysMemLaws} (Hutil : has_utility = true).

Lemma stpn_tail s d n p l :
  beside s d n p l -> 0 < d ->
  (memset (d + Z.of_nat (n `min` length l)) 0 (Z.of_nat (n - length l)) ;;
   ret (d + Z.of_nat (n `min` length l)))
    (wrote s d (take n l ++ (if (length l <? n)%nat then [0] else []))) =
  Ok (d + Z.of_nat (n `min` length l)) (wrote s d (padded n l)).
Proof.
  intros (Hs & Hm & _) Hd. erewrite bind_ok.
  2:{ apply memset_ok; [done| |lia]. rewrite mem_wrote. apply mapped_write.
      eapply mapped_sub; [done|lia|lia]. }
  unfold ret. f_equal. change (u8 0) with 0. unfold padded.
  replace (d + Z.of_nat (n `min` length l)) with (d + Z.of_nat (length (take n l)))
    by (by rewrite length_take).
  apply wrote_again. rewrite length_replicate.
  destruct (Nat.ltb_spec (length l) n); simpl; lia.
Qed.

Lemma stpn_finish s d n p l :
  beside s d n p l -> 0 < d ->
  (let* (d, n) := loop stpn_byte_body (d, p, Z.of_nat n) in memset d 0 n ;; ret d) s =
  Ok (d + Z.of_nat (n `min` length l)) (wrote s d (padded n l)).
Proof.
  intros Hb Hd. pose proof (proj1 Hb) as Hs.
  pose proof (cstr_len _ _ _ Hs). pose proof (cstr_pos _ _ _ Hs).
  erewrite bind_ok; [|eapply loop_lrun; [by apply stpn_byte|zlia]].
  by eapply stpn_tail.
Qed.

(** The first loop: it stops at the terminator, at the end of the count, or
    at an aligned address. *)
Lemma stpn_align l n d p s :
  beside s d n p l -> 0 <= p ->
  ((length l < n)%nat /\ lrun stpn_align_body (Z.of_nat (length l) + 1) (d, p, Z.of_nat n) s
     (d + Z.of_nat (length l), p + Z.of_nat (length l), Z.of_nat (n - length l))
     (wrote s d (l ++ [0]))) \/
  exists u r k, l = u ++ r /\ n = (length u + k)%nat /\
    (k = 0%nat \/ (p + Z.of_nat (length u)) mod 4 = 0) /\
    lrun stpn_align_body (Z.of_nat (length l) + 1) (d, p, Z.of_nat n) s
      (d + Z.of_nat (length u), p + Z.of_nat (length u), Z.of_nat k) (wrote s d u).
Proof.
  revert n d p s. induction l as [|c l IH]; intros n d p s Hb Hp;
    (destruct (decide (p mod 4 = 0 \/ n = 0%nat)) as [E|E];
     [right; eexists [], _, n; split; [reflexivity|]; split; [done|];
      split; [rewrite Z.add_0_r; tauto|]; rewrite wrote_nil, !Z.add_0_r;
      apply lrun_done; [|lia]; unfold stpn_align_body; rewrite land3 by done;
      destruct E as [-> | ->]; [done|]; by rewrite andb_false_r|]);
    (destruct n as [|n]; [tauto|]);
    assert (Hg : negb (Z.land p 3 =? 0) && negb (Z.of_nat (S n) =? 0) = true)
      by (rewrite land3 by done; apply andb_true_intro; split;
          apply negb_true_iff, Z.eqb_neq; [tauto|lia]).
  - left. split; [simpl; lia|]. apply lrun_done; [|simpl; lia]. unfold stpn_align_body. rewrite Hg.
    erewrite bind_ok by by eapply copy8_beside_end. unfold leave, ret. simpl. do 4 f_equal; lia.
  - destruct (beside_load _ _ _ _ _ _ Hb) as [_ Hc].
    assert (Hstep : stpn_align_body (d, p, Z.of_nat (S n)) s =
      Ok (inl (d + 1, p + 1, Z.of_nat n)) (wrote s d [c])).
    { unfold stpn_align_body. rewrite Hg. erewrite bind_ok by by eapply copy8_beside.
      destruct (Z.eqb_spec c 0); [zlia|]. rewrite of_nat_S_pred. reflexivity. }
    destruct (IH n (d + 1) (p + 1) (wrote s d [c])) as [[Hlt Hr]|(u & r & k & -> & -> & Hu & Hr)];
      [by eapply beside_step|lia|left|right].
    + split; [simpl; lia|]. simpl app. eapply lrun_wrote; [exact Hstep|].
      simpl length. replace (S n - S (length l))%nat with (n - length l)%nat by lia.
      replace (d + Z.of_nat (S (length l))) with (d + 1 + Z.of_nat (length l)) by lia.
      replace (p + Z.of_nat (S (length l))) with (p + 1 + Z.of_nat (length l)) by lia.
      eapply lrun_weaken; [exact Hr|lia].
    + exists (c :: u), r, k. split; [done|]. split; [done|]. simpl length.
      replace (d + Z.of_nat (S (length u))) with (d + 1 + Z.of_nat (length u)) by lia.
      replace (p + Z.of_nat (S (length u))) with (p + 1 + Z.of_nat (length u)) by lia.
      split; [done|]. eapply lrun_wrote; [exact Hstep|].
      eapply lrun_weaken; [exact Hr|simpl; lia].
Qed.

Lemma stpn_word l n d p s :
  beside s d n p l -> word_readable (mem s) p (Z.of_nat (length l) + 1) ->
  p mod 4 = 0 -> d mod 4 = 0 ->
  exists u r k, l = u ++ r /\ n = (length u + k)%nat /\
    lrun stpn_word_body (Z.of_nat (length l) + 1) (d, p, Z.of_nat n) s
      (d + Z.of_nat (length u), p + Z.of_nat (length u), Z.of_nat k) (wrote s d u).
Proof.
  remember (length l) as m eqn:Hm. revert l Hm n d p s. induction (lt_wf m) as [m _ IH].
  intros l -> n d p s Hb Hw Hp Hd.
  assert (Stop : (stpn_word_body (d, p, Z.of_nat n) s = Ok (inr (d, p, Z.of_nat n)) s) ->
    exists u r k, l = u ++ r /\ n = (length u + k)%nat /\
      lrun stpn_word_body (Z.of_nat (length l) + 1) (d, p, Z.of_nat n) s
        (d + Z.of_nat (length u), p + Z.of_nat (length u), Z.of_nat k) (wrote s d u)).
  { intros E. exists [], l, n. split; [done|]. split; [done|]. rewrite wrote_nil, !Z.add_0_r.
    apply lrun_done; [done|lia]. }
  destruct (Z.leb_spec 4 (Z.of_nat n)) as [Hn|Hn].
  2:{ apply Stop. unfold stpn_word_body. by rewrite (proj2 (Z.leb_gt 4 _)). }
  pose proof (proj1 Hb) as Hs.
  destruct (string_tail _ _ _ Hs Hw) as (tl & Hbt & HF & H4 & Htl).
  destruct (list4_split (l ++ 0 :: tl)) as (b0 & b1 & b2 & b3 & k & El & _).
  { apply Nat2Z.inj. rewrite Nat2Z.inj_mod. Z.div_mod_to_equations. lia. }
  { by destruct l. }
  rewrite El in Hbt, HF. destruct Hbt as (B0 & B1 & B2 & B3 & _). fcons.
  pose proof (load32_ok p s b0 b1 b2 b3 Hp ltac:(simpl; auto)) as HL.
  destruct (word_split _ _ _ _ _ _ _ (beside_chars _ _ _ _ _ Hb) El)
    as [(Hnz & t & -> & _)|(Hz & _)].
  2:{ apply Stop. unfold stpn_word_body. rewrite (proj2 (Z.leb_le 4 _)) by done.
      rewrite (bind_ok _ _ _ _ _ HL), (proj2 (Z.eqb_neq _ 0)); [done|].
      by rewrite detect_null_spec. }
  destruct n as [|[|[|[|n]]]]; try lia.
  pose proof (beside_app s d n p [b0; b1; b2; b3] t Hb) as Hb'.
  change (Z.of_nat (length [b0; b1; b2; b3])) with 4 in Hb'.
  destruct (IH (length t) ltac:(simpl; lia) t eq_refl n (d + 4) (p + 4) _ Hb')
    as (u & r & k' & -> & -> & Hr); [|by apply add4_mod|by apply add4_mod|].
  { destruct Hw as (Hwf & _ & Hend). rewrite mem_wrote. split; [|split].
    - apply mem_wf_write; [done|]. rewrite !Forall_cons. auto 10.
    - intros a Ha. rewrite (add4_mod _ Hp) in Ha. lia.
    - apply mapped_write. simpl length in Hend.
      replace (p + (Z.of_nat (S (S (S (S (length t))))) + 1)) with (p + 4 + (Z.of_nat (length t) + 1))
        in Hend by lia. done. }
  exists ([b0; b1; b2; b3] ++ u), r, k'. split; [done|]. split; [done|].
  rewrite <- (wrote_app s d [b0; b1; b2; b3] u), length_app, Nat2Z.inj_add, !Z.add_assoc.
  change (Z.of_nat (length [b0; b1; b2; b3])) with 4.
  eapply lrun_next; [|eapply lrun_weaken; [exact Hr|simpl; lia]].
  unfold stpn_word_body. rewrite (proj2 (Z.leb_le 4 _)) by lia.
  rewrite (bind_ok _ _ _ _ _ HL), (proj2 (Z.eqb_eq _ 0)) by by apply detect_null_spec.
  erewrite bind_ok by (apply store32_wrote; try done;
    destruct Hb as (_ & Hmap & _); eapply mapped_sub; [exact Hmap|lia|lia]).
  unfold again, ret. do 3 f_equal. lia.
Qed.

Lemma padded_app n u r : padded (length u + n) (u ++ r) = u ++ padded n r.
Proof.
  unfold padded. rewrite take_app_ge, length_app, app_assoc by lia.
  by replace (length u + n - length u)%nat with n by lia;
    replace (length u + n - (length u + length r))%nat with (n - length r)%nat by lia.
Qed.

(** From a state in which the prefix [u] is copied, the rest of the code
    reaches the result for the whole. *)
Lemma stpn_resume s d n p u r :
  beside s d (length u + n) p (u ++ r) -> 0 < d ->
  (let* (d, n) := loop stpn_byte_body (d + Z.of_nat (length u), p + Z.of_nat (length u), Z.of_nat n) in
   memset d 0 n ;; ret d) (wrote s d u) =
  Ok (d + Z.of_nat ((length u + n) `min` length (u ++ r))) (wrote s d (padded (length u + n) (u ++ r))).
Proof.
  intros Hb Hd. rewrite (stpn_finish _ _ _ _ _ (beside_app _ _ _ _ _ _ Hb)) by lia.
  rewrite wrote_app, padded_app, length_app. f_equal. lia.
Qed.

Lemma stpn_stop s d k p u r :
  beside s d (length u + k) p (u ++ r) -> 0 < d -> (k = 0%nat \/ r = []) ->
  (memset (d + Z.of_nat (length u)) 0 (Z.of_nat k) ;; ret (d + Z.of_nat (length u))) (wrote s d u) =
  Ok (d + Z.of_nat ((length u + k) `min` length (u ++ r))) (wrote s d (padded (length u + k) (u ++ r))).
Proof.
  intros Hb Hd E. pose proof (beside_app _ _ _ _ _ _ Hb) as Hb1.
  rewrite padded_app, length_app. unfold padded.
  erewrite bind_ok by (apply memset_ok; [done|by destruct Hb1 as (_ & ? & _)|lia]).
  unfold ret. f_equal; [destruct E as [-> | ->]; simpl; lia|].
  rewrite wrote_app. do 2 f_equal. change (u8 0) with 0.
  destruct E as [-> | ->]; [done|]. rewrite take_nil. simpl. by rewrite Nat.sub_0_r.
Qed.

Lemma stpncpy_ok d p l n s :
  beside s d n p l -> word_readable (mem s) p (Z.of_nat (length l) + 1) -> 0 < d ->
  stpncpy d p (Z.of_nat n) s = Ok (d + Z.of_nat (n `min` length l)) (wrote s d (padded n l)).
Proof.
  intros Hb Hw Hd. pose proof (proj1 Hb) as Hs.
  pose proof (cstr_len _ _ _ Hs). pose proof (cstr_pos _ _ _ Hs). unfold stpncpy.
  rewrite !land3 by lia. destruct (Z.eqb_spec (p mod 4) (d mod 4)) as [Ha|]; [|by apply stpn_finish].
  destruct (stpn_align l n d p s Hb ltac:(lia)) as [[Hlt Hr]|(u & r & k & -> & -> & Hu & Hr)].
  - erewrite bind_ok; [|eapply loop_lrun; [exact Hr|zlia]]. cbv iota beta.
    erewrite bind_ok.
    2:{ rewrite (proj2 (Z.eqb_neq _ 0)) by lia. erewrite bind_ok; [reflexivity|].
        apply load8_ok. rewrite mem_wrote. apply cstr_end.
        destruct Hb as (_ & _ & Hdj). apply cstr_frame; [done|].
        rewrite length_app. unfold disj in *. simpl. lia. }
    change (0 =? 0) with true. cbv iota.
    pose proof (stpn_tail s d n p l Hb Hd) as T.
    rewrite (proj2 (Nat.ltb_lt _ _) Hlt), take_ge in T by lia.
    by replace (n `min` length l)%nat with (length l) in * by lia.
  - erewrite bind_ok; [|eapply loop_lrun; [exact Hr|zlia]]. cbv iota beta.
    rewrite length_app in *. set (s1 := wrote s d u) in *.
    assert (Hb1 : beside s1 (d + Z.of_nat (length u)) k (p + Z.of_nat (length u)) r)
      by by apply beside_app.
    assert (Hl1 : mem s1 !! (p + Z.of_nat (length u)) = Some (hd 0 r)).
    { destruct r; [by eapply beside_end|]. by eapply beside_load. }
    assert (Ht : (if Z.of_nat k =? 0 then ret true
        else let* c := load8 (p + Z.of_nat (length u)) in ret (c =? 0)) s1 =
      Ok (if Z.of_nat k =? 0 then true else hd 0 r =? 0) s1).
    { destruct (Z.of_nat k =? 0); [done|]. by rewrite (bind_ok _ _ _ _ _ (load8_ok _ _ _ Hl1)). }
    rewrite (bind_ok _ _ _ _ _ Ht). clear Ht.
    destruct (if Z.of_nat k =? 0 then true else hd 0 r =? 0) eqn:Eb.
    + rewrite <- length_app. apply (stpn_stop _ _ _ p); [done|done|].
      destruct k as [|k]; [by left|right]. rewrite of_nat_S_ne0 in Eb.
      apply Z.eqb_eq in Eb. destruct r as [|c r]; [done|]. simpl in Eb.
      destruct (beside_load _ _ _ _ _ _ Hb1). zlia.
    + assert (Hu4 : (p + Z.of_nat (length u)) mod 4 = 0) by (destruct Hu as [->|]; done).
      destruct (stpn_word r k (d + Z.of_nat (length u)) (p + Z.of_nat (length u)) s1 Hb1)
        as (u2 & r2 & k2 & -> & -> & Hr2).
      { destruct Hw as (Hwf & _ & Hend). split; [|split].
        - apply mem_wf_wrote; [done|]. pose proof (beside_chars _ _ _ _ _ Hb) as HF. fcons.
          by apply chars_bytes.
        - intros a Ha'. rewrite Hu4 in Ha'. lia.
        - unfold s1. rewrite mem_wrote. apply mapped_write.
          replace (p + Z.of_nat (length u) + (Z.of_nat (length r) + 1))
            with (p + (Z.of_nat (length u + length r) + 1)) by lia. done. }
      { done. }
      { rewrite Z.add_mod, <- Ha, <- Z.add_mod by lia. done. }
      rewrite length_app in *.
      erewrite bind_ok; [|eapply loop_lrun; [exact Hr2|zlia]]. cbv iota beta.
      rewrite (stpn_resume s1 _ _ _ _ _ Hb1) by lia. rewrite length_app.
      unfold s1. rewrite wrote_app, <- padded_app. f_equal; lia || (do 2 f_equal; lia).
Qed.
End StpnProofs.

(** [strncat] appends at most [n] characters and always terminates; [strlcat]
    appends what fits in a buffer of [n] bytes, terminates it unless the old
    string already fills it, and returns the length it tried to make. *)
Lemma strncat_strlcat_correct d k p l n s :
  cstr (mem s) d k -> cstr (mem s) p l -> word_readable (mem s) p (Z.of_nat (length l) + 1) ->
  mapped (mem s) (d + Z.of_nat (length k)) (Z.of_nat (S (length l))) ->
  disj (d + Z.of_nat (length k)) (Z.of_nat (S (length l))) p (Z.of_nat (length l) + 1) ->
  Z.of_nat (length k) + Z.of_nat (length l) < 4294967296 -> (0 < n)%nat -> Z.of_nat n < 2147483648 ->
  strncat d p (Z.of_nat n) s = Ok d (wrote s (d + Z.of_nat (length k)) (take n l ++ [0])) /\
  strlcat d p (Z.of_nat n) s =
    Ok (Z.of_nat (n `min` length k) + Z.of_nat (length l))
       (if (length k <? n)%nat
        then wrote s (d + Z.of_nat (length k)) (take (n - length k - 1) l ++ [0]) else s).
Proof.
  intros Hd Hs Hw Hm Hdj Hsum Hn0 Hn.
  assert (Hb : beside s (d + Z.of_nat (length k)) (S (length l)) p l) by done.
  split.
  - apply strncat_ok; try done. eapply beside_less; [exact Hb|lia].
  - apply strlcat_ok; try done; [|lia]. intros _. eapply beside_less; [exact Hb|lia].
Qed.

(** [stccpy] copies at most [n - 1] characters, always terminates, even when
    [n] is zero, and returns the number of bytes it wrote. *)
Lemma stccpy_correct d p l n s :
  beside s d (S ((n - 1) `min` length l)) p l -> 0 < d -> Z.of_nat n < 4294967296 ->
  exists w, w = take (n - 1) l ++ [0] /\
    stccpy d p (Z.of_nat n) s = Ok (Z.of_nat (length w)) (wrote s d w).
Proof.
  intros Hb Hd Hn. eexists. split; [reflexivity|]. rewrite (stccpy_ok d p l) by done.
  f_equal. rewrite length_app, length_take. simpl. lia.
Qed.

(** [stpncpy] writes exactly [n] bytes, the string cut or padded with zeros,
    and returns the address of the first zero, or of the end when there is
    none, whatever mixture of bytes and words it copies. *)
Lemma stpncpy_correct `{SysMemLaws} d p l n s :
  has_utility = true ->
  beside s d n p l -> word_readable (mem s) p (Z.of_nat (length l) + 1) -> 0 < d ->
  stpncpy d p (Z.of_nat n) s =
  Ok (d + Z.of_nat (n `min` length l)) (wrote s d (take n l ++ replicate (n - length l) 0)).
Proof. intros. by apply stpncpy_ok. Qed.

(** [stpcpy] copies the string and returns the address of the terminator,
    although its word test is never zero; [stpncpy] writes exactly [n] bytes,
    cut or padded, and returns the address of the first NUL or the end;
    [stccpy] copies at most [n - 1] characters, terminates, and returns the
    number of bytes written. *)
Theorem stp_copies_correct :
  (forall d p l s, beside s d (S (length l)) p l -> word_readable (mem s) p (Z.of_nat (length l) + 1) ->
  stpcpy d p s = Ok (d + Z.of_nat (length l)) (wrote s d (l ++ [0])) /\
  (forall x, is_u32 x -> has_zero x <> 0)) /\
  (forall `{SysMemLaws} d p l n s, has_utility = true ->
  beside s d n p l -> word_readable (mem s) p (Z.of_nat (length l) + 1) -> 0 < d ->
  stpncpy d p (Z.of_nat n) s =
  Ok (d + Z.of_nat (n `min` length l)) (wrote s d (take n l ++ replicate (n - length l) 0))) /\
  (forall d p l n s, beside s d (S ((n - 1) `min` length l)) p l -> 0 < d -> Z.of_nat n < 4294967296 ->
  exists w, w = take (n - 1) l ++ [0] /\
    stccpy d p (Z.of_nat n) s = Ok (Z.of_nat (length w)) (wrote s d w)).
Proof.
  split; [exact stpcpy_correct|]. split; [exact @stpncpy_correct|]. exact stccpy_correct.
Qed.

Lemma stp_copies_correct_witness :
  (let s := boot [(4097, zstr "clib4" ++ [0; 0; 0; 0]); (8193, bytes "......")] in
  stpcpy 8193 4097 (set_mem s (<[4096 := 7]> (mem s))) =
    Ok 8198 (wrote (set_mem s (<[4096 := 7]> (mem s))) 8193 (zstr "clib4")) /\
  (forall x, is_u32 x -> has_zero x <> 0)) /\
  (let s := boot [(4096, zstr "clib4 1.0" ++ [0; 0]); (8192, replicate 16 46)] in
  stpncpy 8192 4096 12 s = Ok 8201 (wrote s 8192 (zstr "clib4 1.0" ++ [0; 0]))) /\
  (let s := boot [(4096, zstr "abcdef"); (8192, bytes "....")] in
  exists w, w = bytes "abc" ++ [0] /\ stccpy 8192 4096 4 s = Ok (Z.of_nat (length w)) (wrote s 8192 w)).
Proof.
  split.
  { apply ((proj1 stp_copies_correct) 8193 4097 (bytes "clib4")); [ground_beside|ground_words]. }
  split.
  { apply ((proj1 (proj2 stp_copies_correct)) _ _ 8192 4096 (bytes "clib4 1.0") 12%nat); [done|ground_beside|ground_words|lia]. }
  apply ((proj2 (proj2 stp_copies_correct)) 8192 4096 (bytes "abcdef") 4%nat); [ground_beside|lia|lia].
Defined.

(** C37: The bounded copies write what their length allows and nothing else.
    [strlcpy] terminates whenever [n] is positive and returns the length of
    the source; [strncpy] writes exactly [n] bytes, and none when [n] as an
    [int] is not positive; [strncat] appends at most [n] characters and a
    terminator; [strlcat] stays inside the [n] bytes of its buffer and returns
    the length it tried to make. *)
Theorem bounded_copies_correct :
  (forall d p l n s, beside s d (n `min` S (length l)) p l -> in_space d (Z.of_nat n) -> Z.of_nat n < 4294967296 ->
  strlcpy d p (Z.of_nat n) s = Ok (Z.of_nat (length l)) (wrote s d (truncated n l)) /\
  (n <> 0%nat -> cstr (mem (wrote s d (truncated n l))) d (take (n - 1) l)) /\
  (n <> 0%nat -> (n <= length l)%nat <-> take (n - 1) l <> l)) /\
  (forall d p l n s, beside s d n p l -> 0 < d -> Z.of_nat n < 4294967296 ->
  strncpy d p (Z.of_nat n) s =
  Ok d (if Z.of_nat n <? 2147483648
        then wrote s d (take n l ++ replicate (n - length l) 0) else s)) /\
  (forall d k p l n s, cstr (mem s) d k -> cstr (mem s) p l -> word_readable (mem s) p (Z.of_nat (length l) + 1) ->
  mapped (mem s) (d + Z.of_nat (length k)) (Z.of_nat (S (length l))) ->
  disj (d + Z.of_nat (length k)) (Z.of_nat (S (length l))) p (Z.of_nat (length l) + 1) ->
  Z.of_nat (length k) + Z.of_nat (length l) < 4294967296 -> (0 < n)%nat -> Z.of_nat n < 2147483648 ->
  strncat d p (Z.of_nat n) s = Ok d (wrote s (d + Z.of_nat (length k)) (take n l ++ [0])) /\
  strlcat d p (Z.of_nat n) s =
    Ok (Z.of_nat (n `min` length k) + Z.of_nat (length l))
       (if (length k <? n)%nat
        then wrote s (d + Z.of_nat (length k)) (take (n - length k - 1) l ++ [0]) else s)).
Proof.
  split; [exact strlcpy_correct|]. split; [exact strncpy_correct|]. exact strncat_strlcat_correct.
Qed.

Lemma bounded_copies_correct_witness :
  (let s := boot [(4096, zstr "RAM Disk:"); (8192, bytes "........")] in
  strlcpy 8192 4096 4 s = Ok 9 (wrote s 8192 (bytes "RAM" ++ [0])) /\
  (4%nat <> 0%nat -> cstr (mem (wrote s 8192 (bytes "RAM" ++ [0]))) 8192 (bytes "RAM")) /\
  (4%nat <> 0%nat -> (4 <= 9)%nat <-> bytes "RAM" <> bytes "RAM Disk:")) /\
  (let s := boot [(4096, zstr "ab"); (8192, bytes "....")] in
  strncpy 8192 4096 4 s = Ok 8192 (wrote s 8192 [97; 98; 0; 0])) /\
  (let s := boot [(4096, zstr "Work:"); (4102, bytes "...........");
                 (8192, zstr "Projects" ++ [0; 0; 0])] in
  strncat 4096 8192 4 s = Ok 4096 (wrote s 4101 (bytes "Proj" ++ [0])) /\
  strlcat 4096 8192 4 s = Ok 12 s).
Proof.
  split.
  { apply ((proj1 bounded_copies_correct) 8192 4096 (bytes "RAM Disk:") 4%nat);
    [ground_beside|split; unfold ADDR_MAX; lia|lia]. }
  split.
  { apply ((proj1 (proj2 bounded_copies_correct)) 8192 4096 (bytes "ab") 4%nat); [ground_beside|lia|lia]. }
  apply ((proj2 (proj2 bounded_copies_correct)) 4096 (bytes "Work:") 8192 (bytes "Projects") 4%nat);
    [ground|ground|ground_words|ground|unfold disj; simpl; lia|simpl; lia|lia|lia].
Defined.
