(* ===== verification/StrFind.v ===== *)
(** * Sets of characters, substrings and tokens ([library/string])

    [strspn], [strcspn], [strpbrk], [strsep], [strtok_r], [strtok], [strstr],
    [strcasestr] and [strnstr]. *)

From Stdlib Require Import String.
From S2P Require Import Prelude CMem CType Words StrScan StrCmp StrCopy.

(** ** The code *)

(** The loops of [strspn] and [strcspn]: [stop_on_member] tells which
    characters end the scan. *)
Definition span_body (stop_on_member : bool) (set : Z) : Z -> M (Z + Z) := fun s =>
  let* c := load8 s in
  if negb (c =? 0) then
    let* r := strchr set c in
    if Bool.eqb (negb (r =? NULL)) stop_on_member then leave s else again (s + 1)
  else leave s.

Definition strspn (s set : Z) : M Z :=
  if (s =? NULL) || (set =? NULL) then set_errno EFAULT ;; ret 0
  else let* e := loop (span_body false set) s in ret (u32 (e - s)).

Definition strcspn (s set : Z) : M Z :=
  if (s =? NULL) || (set =? NULL) then set_errno EFAULT ;; ret 0
  else let* e := loop (span_body true set) s in ret (u32 (e - s)).

Definition strpbrk_body (set : Z) : Z -> M (Z + Z) := fun s =>
  let* c := load8 s in
  if negb (c =? 0) then
    let* r := strchr set c in
    if negb (r =? NULL) then leave s else again (s + 1)
  else leave NULL.

Definition strpbrk (s set : Z) : M Z :=
  if (s =? NULL) || (set =? NULL) then set_errno EFAULT ;; ret NULL
  else loop (strpbrk_body set) s.

(** [src] is the address of the pointer. *)
Definition strsep_body (src delim : Z) : Z -> M (Z + unit) := fun string =>
  let* c := load8 string in
  let string := string + 1 in
  if c =? 0 then store32 src NULL ;; leave tt
  else
    let* r := strchr delim c in
    if negb (r =? NULL) then
      store8 (string - 1) 0 ;; store32 src string ;; leave tt
    else again string.

Definition strsep (src delim : Z) : M Z :=
  let* string := load32 src in
  if negb (string =? NULL) then loop (strsep_body src delim) string ;; ret string
  else ret NULL.

Definition strtok_r (str separator_set state_ptr : Z) : M Z :=
  let out result last :=
    (if negb (state_ptr =? NULL) then store32 state_ptr last else ret tt) ;; ret result in
  if (separator_set =? NULL) || (state_ptr =? NULL) then
    set_errno EFAULT ;; out NULL NULL
  else
    let* last := load32 state_ptr in
    let str := if str =? NULL then last else str in
    if str =? NULL then out NULL last
    else
      let* skip := strspn str separator_set in
      let str := str + skip in
      let* c := load8 str in
      if c =? 0 then out NULL NULL
      else
        let* size := strcspn str separator_set in
        if size =? 0 then out NULL NULL
        else
          let last := str + size in
          let* c := load8 last in
          let last := if negb (c =? 0) then last + 1 else last in
          store8 (str + size) 0 ;;
          out str last.

(** [last] is the address of the static variable. *)
Definition strtok (last str separator_set : Z) : M Z := strtok_r str separator_set last.






Section CaseStr.
Context (lc : option Locale).



End CaseStr.

(** ** Spans *)

Definition member (set : list Z) (c : Z) : bool := bool_decide (c ∈ set).

(** The longest prefix of characters in the set, or outside it. *)
Fixpoint prefix_while (f : Z -> bool) (l : list Z) : list Z :=
  match l with c :: l' => if f c then c :: prefix_while f l' else [] | [] => [] end.

Lemma prefix_while_length f l : (length (prefix_while f l) <= length l)%nat.
Proof. induction l as [|c l IH]; simpl; [done|]. destruct (f c); simpl; lia. Qed.

Lemma prefix_while_app f l : exists r, l = prefix_while f l ++ r /\
  Forall (fun c => f c = true) (prefix_while f l) /\
  match r with c :: _ => f c = false | [] => True end.
Proof.
  induction l as [|c l (r & IH & HF & Hr)]; simpl; [by exists []|].
  destruct (f c) eqn:E; [|by exists (c :: l)].
  exists r. simpl. split; [by f_equal|]. split; [by constructor|done].
Qed.

(** What the string functions need of the string they take the set from. *)
Definition set_at (m : gmap Z Z) (q : Z) (set : list Z) : Prop :=
  cstr m q set /\ word_readable m q (Z.of_nat (length set) + 1).

Lemma strchr_member q set c s :
  set_at (mem s) q set -> is_char c ->
  exists r, strchr q c s = Ok r s /\ negb (r =? NULL) = member set c.
Proof.
  intros [Hs Hw] Hc. eexists. split; [by apply strchr_ok|].
  rewrite u8_id by zlia. rewrite find_byte_app. pose proof (cstr_pos _ _ _ Hs).
  unfold member. destruct (find_byte c set) as [i|] eqn:E.
  - simpl. apply find_byte_Some in E as [E _]. rewrite bool_decide_true.
    + apply negb_true_iff, Z.eqb_neq. unfold NULL. lia.
    + by eapply elem_of_list_lookup_2 || by eapply list_elem_of_lookup_2.
  - apply find_byte_None in E. rewrite bool_decide_false by done. simpl.
    destruct (Z.eqb_spec 0 c); [zlia|done].
Qed.

Definition stays (stop_on_member : bool) (set : list Z) (c : Z) : bool :=
  negb (Bool.eqb (member set c) stop_on_member).

Lemma span_loop b l q set p s :
  cstr (mem s) p l -> set_at (mem s) q set ->
  lrun (span_body b q) (Z.of_nat (length l) + 1) p s
    (p + Z.of_nat (length (prefix_while (stays b set) l))) s.
Proof.
  intros Hs Hq. revert p Hs. induction l as [|c l IH]; intros p Hs.
  - apply cstr_nil in Hs. apply lrun_done; [|simpl; lia]. unfold span_body. msimp.
    unfold leave, ret. do 2 f_equal. lia.
  - pose proof (cstr_cons _ _ _ _ Hs) as (Hc & Hch & Hs').
    destruct (strchr_member q set c s Hq Hch) as (r & Hr & Hm).
    assert (Hbody : span_body b q p s =
      if stays b set c then Ok (inl (p + 1)) s else Ok (inr p) s).
    { unfold span_body. msimp. destruct (Z.eqb_spec c 0); [zlia|]. simpl.
      rewrite (bind_ok _ _ _ _ _ Hr), Hm. unfold stays. by destruct (Bool.eqb _ b). }
    simpl prefix_while. destruct (stays b set c).
    + eapply lrun_next; [exact Hbody|]. simpl length.
      replace (p + Z.of_nat (S (length (prefix_while (stays b set) l))))
        with (p + 1 + Z.of_nat (length (prefix_while (stays b set) l))) by lia.
      eapply lrun_weaken; [by apply IH|lia].
    + apply lrun_done; [|simpl; lia]. rewrite Hbody. do 2 f_equal. simpl. lia.
Qed.

Lemma span_ok b p l q set s :
  cstr (mem s) p l -> set_at (mem s) q set ->
  (if b : bool then strcspn p q s else strspn p q s) =
  Ok (Z.of_nat (length (prefix_while (stays b set) l))) s.
Proof.
  intros Hs Hq. pose proof (prefix_while_length (stays b set) l).
  pose proof (cstr_len _ _ _ Hs). pose proof (cstr_pos _ _ _ Hs).
  assert (E : (let* e := loop (span_body b q) p in ret (u32 (e - p))) s =
    Ok (Z.of_nat (length (prefix_while (stays b set) l))) s).
  { erewrite bind_ok; [|eapply loop_lrun; [by apply span_loop|zlia]].
    unfold ret. f_equal. rewrite u32_id; zlia. }
  unfold strcspn, strspn. rewrite (cstr_nonnull _ _ _ Hs), (cstr_nonnull _ _ _ (proj1 Hq)).
  by destruct b.
Qed.

Lemma strpbrk_loop l q set p s :
  cstr (mem s) p l -> set_at (mem s) q set ->
  lrun (strpbrk_body q) (Z.of_nat (length l) + 1) p s
    (let n := length (prefix_while (stays true set) l) in
     if (n <? length l)%nat then p + Z.of_nat n else NULL) s.
Proof.
  intros Hs Hq. revert p Hs. induction l as [|c l IH]; intros p Hs.
  - apply cstr_nil in Hs. apply lrun_done; [|simpl; lia]. unfold strpbrk_body. by msimp.
  - pose proof (cstr_cons _ _ _ _ Hs) as (Hc & Hch & Hs').
    destruct (strchr_member q set c s Hq Hch) as (r & Hr & Hm).
    assert (Hbody : strpbrk_body q p s =
      if stays true set c then Ok (inl (p + 1)) s else Ok (inr p) s).
    { unfold strpbrk_body. msimp. destruct (Z.eqb_spec c 0); [zlia|]. simpl.
      rewrite (bind_ok _ _ _ _ _ Hr), Hm. unfold stays. by destruct (member set c). }
    simpl prefix_while. destruct (stays true set c).
    + eapply lrun_next; [exact Hbody|]. simpl length. cbv zeta.
      change (S (length (prefix_while (stays true set) l)) <? S (length l))%nat
        with (length (prefix_while (stays true set) l) <? length l)%nat.
      replace (p + Z.of_nat (S (length (prefix_while (stays true set) l))))
        with (p + 1 + Z.of_nat (length (prefix_while (stays true set) l))) by lia.
      eapply lrun_weaken; [by apply IH|lia].
    + apply lrun_done; [|simpl; lia]. rewrite Hbody. do 2 f_equal. simpl. lia.
Qed.

(** [strspn] and [strcspn] return the length of the longest prefix of
    characters that are, or are not, in the set; [strpbrk] points to the first
    character in the set; null pointers are [EFAULT]. *)
Theorem strspn_correct p l q set s :
  cstr (mem s) p l -> set_at (mem s) q set ->
  strspn p q s = Ok (Z.of_nat (length (prefix_while (member set) l))) s /\
  strcspn p q s = Ok (Z.of_nat (length (prefix_while (fun c => negb (member set c)) l))) s /\
  strpbrk p q s =
    Ok (let n := length (prefix_while (fun c => negb (member set c)) l) in
        if (n <? length l)%nat then p + Z.of_nat n else NULL) s /\
  strspn NULL q s = Ok 0 (put_errno s EFAULT) /\ strpbrk p NULL s = Ok NULL (put_errno s EFAULT).
Proof.
  intros Hs Hq.
  assert (E0 : prefix_while (stays false set) l = prefix_while (member set) l).
  { clear. induction l as [|c l IH]; simpl; [done|]. rewrite IH. unfold stays at 1.
    by destruct (member set c). }
  assert (E1 : prefix_while (stays true set) l = prefix_while (fun c => negb (member set c)) l).
  { clear. induction l as [|c l IH]; simpl; [done|]. rewrite IH. unfold stays at 1.
    by destruct (member set c). }
  rewrite <- E0, <- E1. split; [by apply (span_ok false)|]. split; [by apply (span_ok true)|].
  split; [|unfold strpbrk; by rewrite orb_true_r].
  pose proof (cstr_len _ _ _ Hs). pose proof (cstr_pos _ _ _ Hs).
  unfold strpbrk. rewrite (cstr_nonnull _ _ _ Hs), (cstr_nonnull _ _ _ (proj1 Hq)).
  eapply loop_lrun; [by apply strpbrk_loop|zlia].
Qed.

Lemma strspn_correct_witness :
  let s := boot [(4096, zstr "0x12"); (8192, zstr "xX0" ++ [0; 0; 0])] in
  strspn 4096 8192 s = Ok 2 s /\ strcspn 4096 8192 s = Ok 0 s /\
  strpbrk 4096 8192 s = Ok 4096 s /\
  strspn NULL 8192 s = Ok 0 (put_errno s EFAULT) /\ strpbrk 4096 NULL s = Ok NULL (put_errno s EFAULT).
Proof.
  apply (strspn_correct 4096 (bytes "0x12") 8192 (bytes "xX0")); [ground|split; [ground|ground_words]].
Defined.

(** ** Substrings *)









Section CaseStrProofs.
Context (lc : option Locale).



End CaseStrProofs.






(** ** Tokens *)

Lemma set_at_write m q set a w :
  set_at m q set -> Forall is_byte w ->
  disj a (Z.of_nat (length w)) q (Z.of_nat (length set) + 1) -> set_at (write_bytes m a w) q set.
Proof.
  intros [Hs (Hwf & H1 & H2)] Hw Hd. split; [by apply cstr_frame|].
  split; [by apply mem_wf_write|]. split; by apply mapped_write.
Qed.

(** A pointer variable at [a], beside the string of [n] bytes at [p] and the set at
    [q]. *)
Definition apart (a p n q : Z) (set : list Z) : Prop :=
  disj a 4 p n /\ disj a 4 q (Z.of_nat (length set) + 1) /\ disj p n q (Z.of_nat (length set) + 1).

Definition pointer (m : gmap Z Z) (a : Z) : Prop := a mod 4 = 0 /\ 0 < a /\ mapped m a 4.
Definition pointer_to (m : gmap Z Z) (a v : Z) : Prop :=
  pointer m a /\ is_u32 v /\ bytes_at m a (word_bytes v).

Lemma pointer_load s a v : pointer_to (mem s) a v -> load32 a s = Ok v s.
Proof.
  intros ((Ha & _ & _) & Hv & Hb). erewrite load32_ok; [|done|exact Hb].
  by rewrite word_bytes_value.
Qed.

Lemma pointer_store s a v :
  pointer (mem s) a -> store32 a v s = Ok tt (wrote s a (word_bytes v)).
Proof. intros (Ha & _ & Hm). by apply store32_ok. Qed.

Lemma pointer_write m a p w : pointer m a -> pointer (write_bytes m p w) a.
Proof. intros (Ha & Hp & Hm). split; [done|]. split; [done|]. by apply mapped_write. Qed.

Lemma word_bytes_bytes v : Forall is_byte (word_bytes v).
Proof. unfold word_bytes. rewrite !Forall_cons. auto 10 using u8_byte. Qed.

Lemma pointer_to_wrote s a v : pointer (mem s) a -> is_u32 v -> pointer_to (mem (wrote s a (word_bytes v))) a v.
Proof. intros Hp Hv. split; [by apply pointer_write|]. split; [done|]. apply write_bytes_at. Qed.

(** *** [strsep] *)

(** The scan up to the first delimiter. *)
Lemma strsep_loop a q set l p s :
  cstr (mem s) p l -> set_at (mem s) q set -> pointer (mem s) a ->
  disj a 4 p (Z.of_nat (length l) + 1) ->
  let n := length (prefix_while (stays true set) l) in
  lrun (strsep_body a q) (Z.of_nat (length l) + 1) p s tt
    (if (n <? length l)%nat
     then wrote (wrote s (p + Z.of_nat n) [0]) a (word_bytes (p + Z.of_nat n + 1))
     else wrote s a (word_bytes NULL)).
Proof.
  intros Hs Hq Ha. revert p Hs. induction l as [|c l IH]; intros p Hs Hd; cbv zeta.
  - apply cstr_nil in Hs. apply lrun_done; [|simpl; lia]. unfold strsep_body. msimp.
    by erewrite bind_ok by by apply pointer_store.
  - pose proof (cstr_cons _ _ _ _ Hs) as (Hc & Hch & Hs').
    destruct (strchr_member q set c s Hq Hch) as (r & Hr & Hm).
    assert (Hz : (c =? 0) = false) by zlia. cbn [prefix_while].
    replace (stays true set c) with (negb (member set c)) by (unfold stays; by destruct (member set c)).
    destruct (member set c) eqn:E; cbv beta iota delta [negb]; cbn [length].
    + apply lrun_done; [|simpl; lia]. unfold strsep_body. msimp. rewrite Hz.
      rewrite (bind_ok _ _ _ _ _ Hr), Hm. cbv beta iota.
      replace (p + 1 - 1) with p by lia.
      erewrite bind_ok by (apply store8_wrote; [done|by eexists]).
      erewrite bind_ok by (apply pointer_store; by apply pointer_write).
      unfold leave, ret. simpl. by replace (p + Z.of_nat 0) with p by lia.
    + eapply lrun_next.
      { unfold strsep_body. msimp. rewrite Hz. rewrite (bind_ok _ _ _ _ _ Hr), Hm. reflexivity. }
      specialize (IH (p + 1) Hs' ltac:(unfold disj in *; simpl in *; lia)). cbv zeta in IH.
      change (S (length (prefix_while (stays true set) l)) <? S (length l))%nat
        with (length (prefix_while (stays true set) l) <? length l)%nat.
      replace (p + Z.of_nat (S (length (prefix_while (stays true set) l))))
        with (p + 1 + Z.of_nat (length (prefix_while (stays true set) l))) by lia.
      eapply lrun_weaken; [exact IH|lia].
Qed.

(** The fields of a string: what lies between its delimiters, empty fields
    included.  Its tokens are the fields that are not empty. *)
Fixpoint fields (set l : list Z) : list (list Z) :=
  match l with
  | [] => [[]]
  | c :: l' =>
      if member set c then [] :: fields set l'
      else match fields set l' with f :: fs => (c :: f) :: fs | [] => [[c]] end
  end.

Definition tokens (set l : list Z) : list (list Z) := filter (fun f => f <> []) (fields set l).

Local Abbreviation word set := (prefix_while (stays true set)).
Local Abbreviation gap set := (prefix_while (stays false set)).

Lemma stays_true set c : stays true set c = negb (member set c).
Proof. unfold stays. by destruct (member set c). Qed.
Lemma stays_false set c : stays false set c = member set c.
Proof. unfold stays. by destruct (member set c). Qed.

Lemma fields_step set l :
  fields set l = word set l :: match drop (length (word set l)) l with [] => [] | _ :: r => fields set r end.
Proof.
  induction l as [|c l IH]; cbn [fields prefix_while]; [done|]. rewrite stays_true.
  destruct (member set c); [done|]. cbn [negb length]. rewrite skipn_cons. by rewrite IH.
Qed.

Lemma tokens_gap set l : tokens set l = tokens set (drop (length (gap set l)) l).
Proof.
  induction l as [|c l IH]; cbn [prefix_while]; [done|]. rewrite stays_false.
  unfold tokens in *. destruct (member set c) eqn:E; [|done].
  cbn [length fields]. rewrite E, skipn_cons, filter_cons_False by naive_solver. done.
Qed.

(** After the separators are skipped the next token starts, or the string is
    over. *)
Lemma tokens_word set c l :
  stays true set c = true ->
  tokens set (c :: l) = word set (c :: l) :: tokens set (drop (S (length (word set (c :: l)))) (c :: l)).
Proof.
  intros Hc. unfold tokens. rewrite fields_step, filter_cons_True by (cbn [prefix_while]; by rewrite Hc).
  f_equal. rewrite <- Nat.add_1_r, <- drop_drop.
  by destruct (drop (length (word set (c :: l))) (c :: l)).
Qed.

(** Memory that differs from [m] only in [n] bytes at [p] and in the pointer
    at [a]. *)
Definition touches (m m' : gmap Z Z) (a p n : Z) : Prop :=
  forall x, ~ (a <= x < a + 4) -> ~ (p <= x < p + n) -> m' !! x = m !! x.

Lemma cstr_agree m m' q l :
  cstr m q l -> (forall x, q <= x < q + Z.of_nat (length l) + 1 -> m' !! x = m !! x) -> cstr m' q l.
Proof.
  intros (Hb & Hc & Hp) Hx. split; [|done]. apply bytes_at_intro. intros i x Hi.
  pose proof (lookup_lt_Some _ _ _ Hi). len. rewrite Hx by lia. by eapply bytes_at_lookup.
Qed.

Lemma cstr_cut m p l r :
  cstr m p (l ++ r) -> cstr (write_bytes m (p + Z.of_nat (length l)) [0]) p l.
Proof.
  intros (Hb & Hc & Hp & Hn). apply Forall_app in Hc as [Hc _].
  rewrite <- app_assoc in Hb. apply bytes_at_app in Hb as [Hb _].
  split; [|split; [done|]]; [|split; [done|]; revert Hn; rewrite length_app; lia].
  apply bytes_at_app. split; [|apply write_bytes_at].
  apply write_bytes_frame; [done|]. right. simpl. lia.
Qed.

(** *** [strsep], call by call *)

Lemma strsep_step a q set p l s :
  pointer_to (mem s) a p -> cstr (mem s) p l -> set_at (mem s) q set ->
  apart a p (Z.of_nat (length l) + 1) q set ->
  exists s', strsep a q s = Ok p s' /\ set_at (mem s') q set /\
    touches (mem s) (mem s') a p (Z.of_nat (length l) + 1) /\
    cstr (mem s') p (word set l) /\
    match drop (length (word set l)) l with
    | [] => pointer_to (mem s') a NULL
    | _ :: r =>
        pointer_to (mem s') a (p + Z.of_nat (length (word set l)) + 1) /\
        cstr (mem s') (p + Z.of_nat (length (word set l)) + 1) r
    end.
Proof.
  intros Ha Hl Hq (D1 & D2 & D3). pose proof (cstr_pos _ _ _ Hl). pose proof (cstr_len _ _ _ Hl).
  pose proof (strsep_loop a q set l p s Hl Hq (proj1 Ha) D1) as Hloop. cbv zeta in Hloop.
  destruct (prefix_while_app (stays true set) l) as (r & El & _ & _).
  set (w := word set l) in *. assert (Hw : length l = (length w + length r)%nat) by (rewrite El; apply length_app).
  assert (Hd : drop (length w) l = r) by (rewrite El at 1; apply drop_app_length).
  rewrite Hd. eexists. split.
  { unfold strsep. rewrite (bind_ok _ _ _ _ _ (pointer_load _ _ _ Ha)), (cstr_nonnull _ _ _ Hl).
    cbv beta iota delta [negb]. by erewrite bind_ok by (eapply loop_lrun; [exact Hloop|zlia]). }
  unfold disj in *. destruct r as [|d r].
  - replace (length w <? length l)%nat with false by (symmetry; apply Nat.ltb_ge; simpl in Hw; lia).
    rewrite app_nil_r in El. rewrite <- El. split; [apply set_at_write; [done|apply word_bytes_bytes|by simpl]|].
    split; [intros x Hx _; apply write_bytes_outside; simpl; lia|].
    split; [apply cstr_frame; [done|unfold disj; simpl; lia]|].
    apply pointer_to_wrote; [by destruct Ha|unfold NULL; zlia].
  - replace (length w <? length l)%nat with true by (symmetry; apply Nat.ltb_lt; simpl in Hw; lia).
    simpl in Hw. split.
    { apply set_at_write; [|apply word_bytes_bytes|by simpl].
      apply set_at_write; [done|by constructor|unfold disj; simpl; lia]. }
    split.
    { intros x Hx Hy. rewrite !mem_wrote, (write_bytes_outside _ a), write_bytes_outside; [done|simpl; lia..]. }
    rewrite El in Hl. split; [apply cstr_frame; [by eapply cstr_cut|unfold disj; simpl; lia]|].
    split; [apply pointer_to_wrote; [apply pointer_write; by destruct Ha|zlia]|].
    apply cstr_app in Hl. apply cstr_cons in Hl as (_ & _ & Hl).
    apply cstr_frame; [apply cstr_frame; [done|]|]; unfold disj; simpl; lia.
Qed.

(** [calls call s ps s']: calling again and again, until the null pointer is
    returned, the caller gets the pointers [ps]. *)
Inductive calls (call : M Z) : state -> list Z -> state -> Prop :=
  | calls_end s s' : call s = Ok NULL s' -> calls call s [] s'
  | calls_more s p s1 ps s' :
      call s = Ok p s1 -> p <> NULL -> calls call s1 ps s' -> calls call s (p :: ps) s'.

Lemma touches_trans m m1 m2 a p n p' n' :
  touches m m1 a p n -> touches m1 m2 a p' n' -> p <= p' -> p' + n' <= p + n -> touches m m2 a p n.
Proof. intros H1 H2 ?? x Hx Hy. rewrite H2 by lia. by apply H1. Qed.

(** The calls hand out the fields one by one and leave each terminated. *)
Lemma strsep_all a q set n p l s :
  (length l < n)%nat -> pointer_to (mem s) a p -> cstr (mem s) p l -> set_at (mem s) q set ->
  apart a p (Z.of_nat (length l) + 1) q set ->
  exists ps s', calls (strsep a q) s ps s' /\ touches (mem s) (mem s') a p (Z.of_nat (length l) + 1) /\
    Forall2 (cstr (mem s')) ps (fields set l).
Proof.
  revert p l s. induction n as [|n IH]; intros p l s Hn Ha Hl Hq Hap; [lia|].
  destruct (strsep_step a q set p l s Ha Hl Hq Hap) as (s1 & E1 & Hq1 & T1 & Hw & Hr).
  pose proof (cstr_pos _ _ _ Hl). pose proof (prefix_while_length (stays true set) l) as Hlen.
  rewrite fields_step. set (w := word set l) in *. destruct (drop (length w) l) as [|d r] eqn:Ed.
  - exists [p], s1. split; [|by split; [|constructor]].
    eapply calls_more; [exact E1|unfold NULL; lia|]. apply calls_end.
    unfold strsep. by rewrite (bind_ok _ _ _ _ _ (pointer_load _ _ _ Hr)).
  - destruct Hr as [Hp Hr].
    assert (Hk : length l = (length w + S (length r))%nat).
    { apply (f_equal length) in Ed. rewrite length_drop in Ed. simpl in Ed. lia. }
    destruct Hap as (D1 & D2 & D3). unfold disj in D1, D2, D3.
    destruct (IH _ r s1 ltac:(lia) Hp Hr Hq1) as (ps & s2 & C2 & T2 & F2).
    { unfold apart, disj. lia. }
    exists (p :: ps), s2. split; [eapply calls_more; [exact E1|unfold NULL; lia|done]|].
    split; [eapply touches_trans; [done|done|lia|lia]|]. constructor; [|done].
    eapply cstr_agree; [exact Hw|]. intros x Hx. apply T2; lia.
Qed.

(** Calling [strsep] until it returns the null pointer splits the string at
    every delimiter: the pointers returned hold exactly its fields, in order,
    empty ones included; nothing but the string and the caller's pointer is
    written. *)
Theorem strsep_correct a q set p l s :
  pointer_to (mem s) a p -> cstr (mem s) p l -> set_at (mem s) q set ->
  apart a p (Z.of_nat (length l) + 1) q set ->
  exists ps s', calls (strsep a q) s ps s' /\ touches (mem s) (mem s') a p (Z.of_nat (length l) + 1) /\
    Forall2 (cstr (mem s')) ps (fields set l).
Proof. intros. eapply strsep_all; [apply Nat.lt_succ_diag_r|done..]. Qed.

Lemma strsep_correct_witness :
  let s := boot [(512, word_bytes 4096); (4096, zstr "a:;b"); (8192, zstr ":;" ++ [0; 0])] in
  exists ps s', calls (strsep 512 8192) s ps s' /\ touches (mem s) (mem s') 512 4096 5 /\
    Forall2 (cstr (mem s')) ps [bytes "a"; []; bytes "b"].
Proof.
  apply (strsep_correct 512 8192 (bytes ":;") 4096 (bytes "a:;b")).
  - split; [split; [done|split; [lia|ground]]|]. split; [zlia|ground].
  - ground.
  - split; [ground|ground_words].
  - unfold apart, disj. vm_compute. intuition discriminate.
Defined.

(** *** [strtok_r], call by call *)

Lemma match_cons {A} (l : list A) c r (P Q : Prop) :
  l = c :: r -> Q -> match l with [] => P | _ :: _ => Q end.
Proof. by intros ->. Qed.

Lemma gap_next set l c r :
  drop (length (gap set l)) l = c :: r -> stays true set c = true.
Proof.
  destruct (prefix_while_app (stays false set) l) as (r' & El & _ & Hr').
  rewrite El at 2. rewrite drop_app_length. intros ->.
  rewrite stays_false in Hr'. by rewrite stays_true, Hr'.
Qed.

(** Ending the token: the character after it becomes the terminator. *)
Lemma strtok_r_cut a q set p w r s p' :
  let e := p + Z.of_nat (length w) in
  let s' := wrote (wrote s e [0]) a (word_bytes p') in
  cstr (mem s) p (w ++ r) -> set_at (mem s) q set -> pointer (mem s) a ->
  apart a p (Z.of_nat (length (w ++ r)) + 1) q set ->
  p' = (if (length w <? length (w ++ r))%nat then e + 1 else e) ->
  set_at (mem s') q set /\ touches (mem s) (mem s') a p (Z.of_nat (length (w ++ r))) /\
  cstr (mem s') p w /\ pointer_to (mem s') a p' /\ cstr (mem s') p' (drop (S (length w)) (w ++ r)).
Proof.
  intros e s' Hl Hq Ha (D1 & D2 & D3) Hp'. unfold disj in *.
  pose proof (cstr_pos _ _ _ Hl). pose proof (cstr_len _ _ _ Hl).
  assert (Hlen : Z.of_nat (length (w ++ r)) = Z.of_nat (length w) + Z.of_nat (length r)) by (len; lia).
  assert (Hcut : cstr (mem s') p w).
  { apply cstr_frame; [by eapply cstr_cut|unfold disj; simpl; lia]. }
  split; [|split; [|split; [done|split]]].
  - apply set_at_write; [|apply word_bytes_bytes|by simpl].
    apply set_at_write; [done|by constructor|unfold disj; simpl; lia].
  - intros x Hx Hy. unfold s'. rewrite !mem_wrote. rewrite (write_bytes_outside _ a) by (simpl; lia).
    rewrite write_bytes_lookup. case_decide as Hd; [|done]. simpl in Hd.
    assert (x = p + Z.of_nat (length (w ++ r))) as -> by lia.
    rewrite (cstr_end _ _ _ Hl). by replace (Z.to_nat _) with 0%nat by lia.
  - apply pointer_to_wrote; [by apply pointer_write|].
    destruct (Nat.ltb_spec (length w) (length (w ++ r))); subst p'; unfold e; zlia.
  - destruct r as [|d r]; simpl length in *.
    + rewrite app_nil_r, Nat.ltb_irrefl in Hp'. subst p'.
      rewrite app_nil_r, drop_ge by lia. apply (cstr_app _ _ w []). by rewrite app_nil_r.
    + replace (length w <? length (w ++ d :: r))%nat with true in Hp'
        by (symmetry; apply Nat.ltb_lt; len; simpl; lia). subst p'.
      replace (S (length w)) with (length w + 1)%nat by lia. rewrite <- drop_drop, drop_app_length.
      change (drop 1 (d :: r)) with r. apply cstr_app, cstr_cons in Hl as (_ & _ & Hl).
      apply cstr_frame; [apply cstr_frame; [done|]|]; unfold disj, e; simpl length; lia.
Qed.

Lemma strtok_r_step str a q set p l s :
  pointer (mem s) a -> (str = p \/ str = NULL /\ pointer_to (mem s) a p) ->
  cstr (mem s) p l -> set_at (mem s) q set -> apart a p (Z.of_nat (length l) + 1) q set ->
  let k := length (gap set l) in
  let l' := drop k l in
  let w := word set l' in
  let e := p + Z.of_nat k + Z.of_nat (length w) in
  let p' := if (length w <? length l')%nat then e + 1 else e in
  exists s', set_at (mem s') q set /\ touches (mem s) (mem s') a p (Z.of_nat (length l)) /\
    match l' with
    | [] => strtok_r str q a s = Ok NULL s'
    | _ :: _ =>
        strtok_r str q a s = Ok (p + Z.of_nat k) s' /\ cstr (mem s') (p + Z.of_nat k) w /\
        pointer_to (mem s') a p' /\ cstr (mem s') p' (drop (S (length w)) l')
    end.
Proof.
  intros Ha Hstr Hl Hq (D1 & D2 & D3) k l' w e p'. unfold disj in *.
  pose proof (cstr_pos _ _ _ Hl). pose proof (cstr_len _ _ _ Hl).
  pose proof (span_ok false p l q set s Hl Hq) as Hskip. cbv beta iota in Hskip. fold k in Hskip.
  assert (Hk : (k <= length l)%nat) by apply prefix_while_length.
  assert (El : l = take k l ++ l') by (symmetry; apply take_drop).
  assert (Hl' : cstr (mem s) (p + Z.of_nat k) l').
  { rewrite El in Hl. apply cstr_app in Hl. by rewrite length_take_le in Hl by done. }
  assert (Hlen : length l = (k + length l')%nat) by (unfold l'; rewrite length_drop; lia).
  destruct (mapped_bytes_at _ _ 4 (proj2 (proj2 Ha))) as (old & Ho & Hold).
  assert (Hload : exists v, load32 a s = Ok v s /\ (if str =? NULL then v else str) = p).
  { destruct Hstr as [->|[-> Hp]].
    - rewrite (cstr_nonnull _ _ _ Hl). destruct old as [|b0 [|b1 [|b2 [|b3 [|]]]]]; try done.
      eexists. split; [apply load32_ok; [apply Ha|exact Hold]|done].
    - exists p. split; [by apply pointer_load|done]. }
  destruct Hload as (v & Hload & Hv).
  unfold strtok_r. destruct (Z.eqb_spec a NULL) as [->|Hnn]; [destruct Ha as (_ & Ha & _); unfold NULL in Ha; lia|].
  rewrite (cstr_nonnull _ _ _ (proj1 Hq)). cbv beta iota delta [orb negb].
  rewrite (bind_ok _ _ _ _ _ Hload). cbv zeta. rewrite Hv, (cstr_nonnull _ _ _ Hl).
  rewrite (bind_ok _ _ _ _ _ Hskip), (bind_ok _ _ _ _ _ (load8_ok _ _ _ (cstr_load _ _ _ Hl'))).
  assert (Hcase : l' = [] \/ exists c l'', l' = c :: l'') by (destruct l'; eauto).
  destruct Hcase as [E'|(c & l'' & E')].
  - rewrite E'. cbn [hd]. rewrite Z.eqb_refl. cbv beta iota delta [negb]. rewrite (bind_ok _ _ _ _ _ (pointer_store _ _ _ Ha)).
    eexists. split; [|split; [|reflexivity]].
    + apply set_at_write; [done|apply word_bytes_bytes|done].
    + intros x Hx _. apply write_bytes_outside. simpl. lia.
  - pose proof (gap_next set l c l'' E') as Hc.
    destruct (prefix_while_app (stays true set) l') as (r & Er & _ & _). fold w in Er.
    assert (Hw : (length w =? 0)%nat = false) by (unfold w; rewrite E'; cbn [prefix_while]; by rewrite Hc).
    assert (Hhd : is_char (hd 0 l')) by (rewrite E' in Hl' |- *; apply (Forall_inv (cstr_chars _ _ _ Hl'))).
    destruct (Z.eqb_spec (hd 0 l') 0) as [Hz|_]; [zlia|].
    pose proof (span_ok true _ _ q set s Hl' Hq) as Hsize. cbv beta iota in Hsize. fold w in Hsize.
    rewrite (bind_ok _ _ _ _ _ Hsize). destruct (Z.eqb_spec (Z.of_nat (length w)) 0) as [Hz|_];
      [apply Nat.eqb_neq in Hw; lia|]. fold e.
    assert (Hr : cstr (mem s) e r) by (rewrite Er in Hl'; by apply cstr_app in Hl').
    rewrite (bind_ok _ _ _ _ _ (load8_ok _ _ _ (cstr_load _ _ _ Hr))).
    erewrite bind_ok by (apply store8_wrote; [done|eexists; by apply cstr_load]).
    erewrite bind_ok by (apply pointer_store; by apply pointer_write).
    destruct (strtok_r_cut a q set (p + Z.of_nat k) w r s p') as (G1 & G2 & G3 & G4 & G5);
      [by rewrite <- Er|done|done|rewrite <- Er; unfold apart, disj; lia|by rewrite <- Er|].
    rewrite <- Er in *. fold e in G1, G2, G3, G4, G5.
    assert (Hp' : (if negb (hd 0 r =? 0) then e + 1 else e) = p').
    { unfold p'. assert (length l' = length w + length r)%nat by (rewrite Er at 1; apply length_app).
      destruct r as [|d r]; simpl hd; simpl length in *.
      - replace (length w <? length l')%nat with false by (symmetry; apply Nat.ltb_ge; lia). done.
      - replace (length w <? length l')%nat with true by (symmetry; apply Nat.ltb_lt; lia).
        apply cstr_cons in Hr as (_ & Hd & _). destruct (Z.eqb_spec d 0); [zlia|done]. }
    cbv beta iota delta [negb] in Hp'. rewrite Hp'. eexists. split; [exact G1|].
    split; [|by eapply match_cons].
    eapply touches_trans; [by intros x ? ?|exact G2|lia|lia].
Qed.

(** Rule by rule, the calls after the first pass the null pointer. *)
Lemma strtok_r_all str a q set n p l s :
  (length l < n)%nat -> pointer (mem s) a -> (str = p \/ str = NULL /\ pointer_to (mem s) a p) ->
  cstr (mem s) p l -> set_at (mem s) q set -> apart a p (Z.of_nat (length l) + 1) q set ->
  exists s', touches (mem s) (mem s') a p (Z.of_nat (length l)) /\
    match tokens set l with
    | [] => strtok_r str q a s = Ok NULL s'
    | t :: ts => exists p1 s1 ps, strtok_r str q a s = Ok p1 s1 /\ p1 <> NULL /\
        calls (strtok_r NULL q a) s1 ps s' /\ Forall2 (cstr (mem s')) (p1 :: ps) (t :: ts)
    end.
Proof.
  revert str p l s. induction n as [|n IH]; intros str p l s Hn Ha Hstr Hl Hq Hap; [lia|].
  destruct (strtok_r_step str a q set p l s Ha Hstr Hl Hq Hap) as (s1 & Hq1 & T1 & Hcase).
  pose proof (cstr_pos _ _ _ Hl). rewrite tokens_gap.
  pose proof (prefix_while_length (stays false set) l).
  set (k := length (gap set l)) in *. destruct (drop k l) as [|c l'] eqn:E; [by exists s1|].
  destruct Hcase as (E1 & Hw & Hp & Hrest). pose proof (gap_next set l c l' E) as Hc.
  assert (Hlen : length l = (k + length (c :: l'))%nat) by (rewrite <- E, length_drop; lia).
  rewrite tokens_word by done. rewrite <- E in *.
  set (w := word set (drop k l)) in *. set (rest := drop (S (length w)) (drop k l)) in *.
  assert (Hw0 : (0 < length w)%nat) by (unfold w; rewrite E; cbn [prefix_while]; rewrite Hc; simpl; lia).
  assert (Hk : length rest = (length (drop k l) - S (length w))%nat) by apply length_drop.
  assert (Hwl : (length w <= length (drop k l))%nat) by apply prefix_while_length.
  set (e := p + Z.of_nat k + Z.of_nat (length w)) in *.
  set (p' := if (length w <? length (drop k l))%nat then e + 1 else e) in *.
  assert (Hp' : p' + Z.of_nat (length rest) <= p + Z.of_nat (length l) /\ e <= p' /\
    (rest = [] \/ e < p')).
  { unfold p', e. destruct (Nat.ltb_spec (length w) (length (drop k l))); [lia|].
    destruct rest; [|simpl in Hk]; lia || (split; [lia|]; split; [lia|by left]). }
  destruct Hap as (D1 & D2 & D3). unfold disj in D1, D2, D3.
  destruct (IH NULL p' rest s1 ltac:(lia) (proj1 Hp) (or_intror (conj eq_refl Hp)) Hrest Hq1)
    as (s2 & T2 & Hts); [unfold apart, disj, e in *; lia|].
  exists s2. split; [eapply touches_trans; [done|done|unfold e in *; lia|lia]|].
  assert (Hw2 : cstr (mem s2) (p + Z.of_nat k) w).
  { eapply cstr_agree; [exact Hw|]. fold e. intros x Hx. apply T2; [unfold e in *; lia|].
    destruct Hp' as (_ & _ & [->|]); [simpl; lia|unfold e in *; lia]. }
  exists (p + Z.of_nat k), s1. destruct (tokens set rest) as [|t ts].
  - exists []. split; [done|]. split; [unfold NULL; lia|]. split; [by apply calls_end|]. by constructor.
  - destruct Hts as (p1 & s3 & ps & E3 & Hn1 & C3 & F3). exists (p1 :: ps).
    split; [done|]. split; [unfold NULL; lia|]. split; [by eapply calls_more|]. by constructor.
Qed.

(** C23: [strtok_r] called with the string, then with the null pointer until it
    returns the null pointer, hands out exactly the tokens of the string, the
    non-empty fields between separators, in order, each a string of its own
    at the end; if there are none the first call returns the null pointer.
    Only the string's characters and the state pointer are written, and
    [strtok] is [strtok_r] on its static state. *)
Theorem strtok_correct a q set p l s :
  pointer (mem s) a -> cstr (mem s) p l -> set_at (mem s) q set ->
  apart a p (Z.of_nat (length l) + 1) q set ->
  strtok a p q s = strtok_r p q a s /\
  exists s', touches (mem s) (mem s') a p (Z.of_nat (length l)) /\
    match tokens set l with
    | [] => strtok_r p q a s = Ok NULL s'
    | t :: ts => exists p1 s1 ps, strtok_r p q a s = Ok p1 s1 /\ p1 <> NULL /\
        calls (strtok_r NULL q a) s1 ps s' /\ Forall2 (cstr (mem s')) (p1 :: ps) (t :: ts)
    end.
Proof.
  intros. split; [done|]. eapply strtok_r_all; [apply Nat.lt_succ_diag_r|done|by left|done..].
Qed.

Lemma strtok_correct_witness :
  let s := boot [(512, word_bytes 77); (4096, zstr "  ab c"); (8192, zstr " ," ++ [0; 0])] in
  exists s' p1 s1 ps, touches (mem s) (mem s') 512 4096 6 /\
    strtok_r 4096 8192 512 s = Ok p1 s1 /\ p1 <> NULL /\
    calls (strtok_r NULL 8192 512) s1 ps s' /\ Forall2 (cstr (mem s')) (p1 :: ps) [bytes "ab"; bytes "c"].
Proof.
  destruct (strtok_correct 512 8192 (bytes " ,") 4096 (bytes "  ab c")
    (boot [(512, word_bytes 77); (4096, zstr "  ab c"); (8192, zstr " ," ++ [0; 0])]))
    as (_ & s' & T & p1 & s1 & ps & H).
  - split; [done|split; [lia|ground]].
  - ground.
  - split; [ground|ground_words].
  - unfold apart, disj. vm_compute. intuition discriminate.
  - exists s', p1, s1, ps. split; [exact T|exact H].
Defined.


