(* ===== verification/StrTo.v ===== *)
(** * Numbers from strings ([library/stdlib/strto*.c], [library/inttypes])

    [strtol], [strtoul], [strtoll], [strtoull], [strtoimax] and [strtoumax]
    are six copies of one function over different integer types.  The shared
    text is [strto], over a description of what varies between the copies. *)

From Stdlib Require Import String.
From S2P Require Import Prelude CMem CType.

(** ** The code *)

(** What the copies differ in: the arithmetic of the result type, which is
    undefined where a signed type overflows, the value on overflow for a
    positive and a negative number, and whether [stop] follows the digits
    inside the loop. *)
Record int_kind := {
  arith : Z -> option Z;
  over : bool -> Z;
  tracks : bool;
}.

Definition LONG_MAX : Z := 2147483647.
Definition LONG_MIN : Z := -2147483648.
Definition ULONG_MAX : Z := 4294967295.
Definition LLONG_MAX : Z := 9223372036854775807.
Definition LLONG_MIN : Z := -9223372036854775808.
Definition ULLONG_MAX : Z := 18446744073709551615.

Definition signed (w x : Z) : option Z :=
  if (- 2 ^ (w - 1) <=? x) && (x <? 2 ^ (w - 1)) then Some x else None.
Definition unsigned (w x : Z) : option Z := Some (uwrap w x).

(** The value of an expression of the result type. *)
Definition eval (k : int_kind) (x : Z) : M Z :=
  match arith k x with Some v => ret v | None => fault end.

Section StrTo.
(** Whether plain [char] is signed, which the code does not fix. *)
Context (char_signed : bool).

Definition char_of (b : Z) : Z := if char_signed && (128 <=? b) then b - 256 else b.

Definition getc (p : Z) : M Z := let* b := load8 p in ret (char_of b).

(** The loop that skips the leading blanks. *)
Definition blanks_body : Z -> M (Z + Z * Z) := fun str =>
  let* c := getc str in
  if c =? 0 then leave (str, c)
  else if negb (m_isspace c) then leave (str, c)
  else again (str + 1).

(** A leading [0x] makes the base 16 when the base allows it. *)
Definition hex_prefix (base str c : Z) : M (Z * Z * Z) :=
  if (base =? 0) || (base =? 16) then
    if c =? 48 then
      let* c1 := getc (str + 1) in
      if (c1 =? 120) || (c1 =? 88) then
        let* c := getc (str + 2) in ret (16, str + 2, c)
      else ret (base, str, c)
    else ret (base, str, c)
  else ret (base, str, c).

Definition digit (c : Z) : option Z :=
  if (48 <=? c) && (c <=? 57) then Some (c - 48)
  else if 97 <=? c then Some (c - 87)
  else if 65 <=? c then Some (c - 55)
  else None.

(** The locals of the conversion loop: [str], [c], [sum],
    [num_digits_converted] and [stop].  It leaves with them, and with
    whether it left by [goto out] on overflow. *)
Definition digits_body (k : int_kind) (base : Z)
    : Z * Z * Z * Z * Z -> M (Z * Z * Z * Z * Z + bool * (Z * Z * Z * Z)) :=
  fun '(str, c, sum, n, stop) =>
  if negb (c =? 0) then
    match digit c with
    | None => leave (false, (str, sum, n, stop))
    | Some c =>
        if base <=? c then leave (false, (str, sum, n, stop))
        else
          let* new_sum := eval k (base * sum + c) in
          if new_sum <? sum then leave (true, (str, sum, n, stop))
          else
            let str := str + 1 in
            let* c := getc str in
            again (str, c, new_sum, u32 (n + 1), if tracks k then str else stop)
    end
  else leave (false, (str, sum, n, stop)).

(** The label [out]. *)
Definition strto_out (ptr result stop : Z) : M Z :=
  (if negb (ptr =? NULL) then store32 ptr stop else ret tt) ;; ret result.

Definition strto (k : int_kind) (str ptr base : Z) : M Z :=
  let out := strto_out ptr in
  let stop := str in
  if str =? NULL then set_errno EFAULT ;; out 0 stop
  else if base <? 0 then set_errno ERANGE ;; out 0 stop
  else
    let* (str, c) := loop blanks_body str in
    let (is_negative, str) :=
      if c =? 45 then (true, str + 1)
      else (false, if c =? 43 then str + 1 else str) in
    let* c := getc str in
    let* (base, str, c) := hex_prefix base str c in
    let base := if base =? 0 then (if c =? 48 then 8 else 10) else base in
    let* (overflow, (str, sum, n, stop)) :=
      if (1 <=? base) && (base <=? 36) then
        loop (digits_body k base) (str, c, 0, 0, stop)
      else ret (false, (str, 0, 0, stop)) in
    if overflow then set_errno ERANGE ;; out (over k is_negative) stop
    else if n =? 0 then out 0 stop
    else
      let* result := if is_negative then eval k (- sum) else ret sum in
      out result (if tracks k then stop else str).

Definition strtol : Z -> Z -> Z -> M Z :=
  strto {| arith := signed 32; over neg := if neg then LONG_MIN else LONG_MAX;
           tracks := false |}.
Definition strtoul : Z -> Z -> Z -> M Z :=
  strto {| arith := unsigned 32; over _ := ULONG_MAX; tracks := false |}.
Definition strtoll : Z -> Z -> Z -> M Z :=
  strto {| arith := signed 64; over neg := if neg then LONG_MIN else LONG_MAX;
           tracks := false |}.
Definition strtoull : Z -> Z -> Z -> M Z :=
  strto {| arith := unsigned 64; over _ := ULONG_MAX; tracks := false |}.
Definition strtoimax : Z -> Z -> Z -> M Z :=
  strto {| arith := signed 64; over neg := if neg then LLONG_MIN else LLONG_MAX;
           tracks := false |}.
Definition strtoumax : Z -> Z -> Z -> M Z :=
  strto {| arith := unsigned 64; over _ := ULLONG_MAX; tracks := true |}.
End StrTo.

(** ** What the conversion means

    The notation of a number: the blanks, the sign, the base and the digits
    of the subject sequence. *)

Definition is_space (c : Z) : bool := (c =? 32) || ((9 <=? c) && (c <=? 13)).

(** The value of a digit character in any base up to 36. *)
Definition digit_of (c : Z) : option Z :=
  if (48 <=? c) && (c <=? 57) then Some (c - 48)
  else if (97 <=? c) && (c <=? 122) then Some (c - 87)
  else if (65 <=? c) && (c <=? 90) then Some (c - 55)
  else None.

(** The longest prefix of digits of a base. *)
Fixpoint digits (base : Z) (l : list Z) : list Z :=
  match l with
  | [] => []
  | c :: l' =>
      match digit_of c with
      | Some d => if d <? base then d :: digits base l' else []
      | None => []
      end
  end.

Definition value (base : Z) (ds : list Z) : Z := foldl (fun v d => base * v + d) 0 ds.

Fixpoint skip_space (l : list Z) : list Z :=
  match l with
  | c :: l' => if is_space c then skip_space l' else l
  | [] => []
  end.

Definition sign (l : list Z) : bool * list Z :=
  match l with
  | c :: l' => if c =? 45 then (true, l') else if c =? 43 then (false, l') else (false, l)
  | [] => (false, [])
  end.

(** The base in effect, and what follows a hexadecimal prefix. *)
Definition radix (base : Z) (l : list Z) : Z * list Z :=
  match l with
  | c :: x :: l' =>
      if ((base =? 0) || (base =? 16)) && (c =? 48) && ((x =? 120) || (x =? 88))
      then (16, l')
      else (if base =? 0 then (if c =? 48 then 8 else 10) else base, l)
  | c :: _ => (if base =? 0 then (if c =? 48 then 8 else 10) else base, l)
  | [] => (if base =? 0 then 10 else base, l)
  end.

Record numeral := { negative : bool; in_base : Z; subject : list Z; after : list Z }.

Definition parse (base : Z) (l : list Z) : numeral :=
  let (neg, l1) := sign (skip_space l) in
  let (b, l2) := radix base l1 in
  let ds := if (1 <=? b) && (b <=? 36) then digits b l2 else [] in
  {| negative := neg; in_base := b; subject := ds; after := drop (length ds) l2 |}.

(** The functions of the family, with the largest value of their type. *)
Inductive strto_fun := Strtol | Strtoul | Strtoll | Strtoull | Strtoimax | Strtoumax.

Definition strto_call (cs : bool) (f : strto_fun) : Z -> Z -> Z -> M Z :=
  match f with
  | Strtol => strtol cs | Strtoul => strtoul cs | Strtoll => strtoll cs
  | Strtoull => strtoull cs | Strtoimax => strtoimax cs | Strtoumax => strtoumax cs
  end.

Definition max_of (f : strto_fun) : Z :=
  match f with
  | Strtol => LONG_MAX | Strtoul => ULONG_MAX | Strtoll | Strtoimax => LLONG_MAX
  | Strtoull | Strtoumax => ULLONG_MAX
  end.

Definition is_unsigned (f : strto_fun) : bool :=
  match f with Strtoul | Strtoull | Strtoumax => true | _ => false end.

(** The number a numeral denotes in the result type: zero without digits, and
    modulo the size of the type for a negative number in an unsigned one. *)
Definition denotes (f : strto_fun) (n : numeral) : Z :=
  let v := value (in_base n) (subject n) in
  match subject n with
  | [] => 0
  | _ => if negative n then (if is_unsigned f then (- v) mod (max_of f + 1) else - v) else v
  end.

(** The sum of digits as the loop makes it: [Sum], or [Noticed n] when after
    [n] digits the next one makes it smaller, or [Undefined]. *)
Inductive sums := Sum (v : Z) | Noticed (n : nat) | Undefined.

Fixpoint sum_digits (ar : Z -> option Z) (base v : Z) (n : nat) (ds : list Z) : sums :=
  match ds with
  | [] => Sum v
  | d :: ds =>
      match ar (base * v + d) with
      | None => Undefined
      | Some w => if w <? v then Noticed n else sum_digits ar base w (S n) ds
      end
  end.

Definition width (f : strto_fun) : Z := match f with Strtol | Strtoul => 32 | _ => 64 end.

(** What is returned when an overflow is noticed in an unsigned type. *)
Definition saturated (f : strto_fun) : Z :=
  match f with Strtoumax => ULLONG_MAX | _ => ULONG_MAX end.

(** What is left in [*ptr]. *)
Definition stop_at (p : Z) (l : list Z) (n : numeral) : Z :=
  match subject n with
  | [] => p
  | _ => p + Z.of_nat (length l) - Z.of_nat (length (after n))
  end.

(** The effect of [if (ptr != NULL) ( *ptr) = stop]. *)
Definition put_stop (s : state) (ptr stop : Z) : state :=
  if ptr =? NULL then s else set_mem s (write_bytes (mem s) ptr (word_bytes stop)).

Definition stop_ok (m : gmap Z Z) (ptr : Z) : Prop :=
  ptr = NULL \/ (ptr mod 4 = 0 /\ mapped m ptr 4).

(** ** Proofs *)

Section Proofs.
Context (cs : bool).

Lemma char_of_eqb b k : 0 <= b < 256 -> 0 <= k < 128 -> (char_of cs b =? k) = (b =? k).
Proof. intros. unfold char_of. destruct (_ && _) eqn:E; [|done]. lia. Qed.

Lemma char_of_space b : 0 <= b < 256 -> m_isspace (char_of cs b) = is_space b.
Proof.
  intros Hb. apply Bool.eqb_prop.
  assert (H : forall cs b, is_byte b -> Bool.eqb (m_isspace (char_of cs b)) (is_space b) = true)
    by (intros [|]; apply forall_bytes; by vm_compute).
  by apply H.
Qed.

Lemma digit_char b base :
  is_char b -> base <= 36 ->
  match digit (char_of cs b) with
  | Some d => if base <=? d then None else Some d
  | None => None
  end = match digit_of b with Some d => if d <? base then Some d else None | None => None end.
Proof.
  unfold is_char, digit, digit_of, char_of. intros. destruct (cs && (128 <=? b)) eqn:E;
    repeat match goal with |- context [if ?c then _ else _] => destruct c eqn:? end;
    try done; try lia; f_equal; lia.
Qed.

Lemma digit_of_nonneg b d : digit_of b = Some d -> 0 <= d.
Proof. unfold digit_of. intros. repeat case_match; simplify_eq; lia. Qed.

Lemma getc_cstr p l s :
  cstr (mem s) p l -> getc cs p s = Ok (char_of cs (hd 0 l)) s.
Proof.
  intros Hs. unfold getc. destruct l as [|c l].
  - apply cstr_nil in Hs. by erewrite bind_ok by by apply load8_ok.
  - apply cstr_cons in Hs as (Hs & _ & _). by erewrite bind_ok by by apply load8_ok.
Qed.

Lemma cstr_hd m p l : cstr m p l -> 0 <= hd 0 l < 256.
Proof. intros (_ & HF & _). destruct l; simpl; [lia|]. fcons. unfold is_char in *. lia. Qed.

Lemma hd_zero m p l : cstr m p l -> hd 0 l = 0 -> l = [].
Proof. intros (_ & HF & _). destruct l; simpl; [done|]. fcons. unfold is_char in *. lia. Qed.

Lemma skip_space_app l : exists pre, l = pre ++ skip_space l.
Proof.
  induction l as [|c l [pre IH]]; simpl; [by exists []|].
  destruct (is_space c); [exists (c :: pre); simpl; by f_equal|by exists []].
Qed.

Lemma blanks_loop l p s :
  cstr (mem s) p l ->
  lrun (blanks_body cs) (Z.of_nat (length l) + 1) p s
    (p + Z.of_nat (length l) - Z.of_nat (length (skip_space l)),
     char_of cs (hd 0 (skip_space l))) s.
Proof.
  revert p. induction l as [|c l IH]; intros p Hs; pose proof (cstr_hd _ _ _ Hs) as Hc.
  - apply lrun_done; [|simpl; lia]. unfold blanks_body.
    rewrite (bind_ok _ _ _ _ _ (getc_cstr _ _ _ Hs)). rewrite char_of_eqb by lia. simpl.
    unfold leave, ret. do 3 f_equal. lia.
  - pose proof (cstr_cons _ _ _ _ Hs) as (_ & Hc0 & Hs'). simpl in *. unfold is_char in Hc0.
    destruct (is_space c) eqn:E.
    + eapply lrun_next.
      { unfold blanks_body. rewrite (bind_ok _ _ _ _ _ (getc_cstr _ _ _ Hs)). simpl.
        rewrite char_of_eqb, char_of_space, E by lia.
        destruct (Z.eqb_spec c 0); [lia|]. done. }
      replace (p + Z.of_nat (S (length l))) with (p + 1 + Z.of_nat (length l)) by lia.
      eapply lrun_weaken; [by apply IH|lia].
    + apply lrun_done; [|lia]. unfold blanks_body.
      rewrite (bind_ok _ _ _ _ _ (getc_cstr _ _ _ Hs)). simpl.
      rewrite char_of_eqb, char_of_space, E by lia.
      destruct (Z.eqb_spec c 0); [lia|]. unfold leave, ret. simpl. do 3 f_equal. lia.
Qed.

Lemma value_mono base ds v :
  1 <= base -> 0 <= v -> Forall (fun d => 0 <= d) ds ->
  v <= foldl (fun v d => base * v + d) v ds.
Proof.
  intros Hb. revert v. induction ds as [|d ds IH]; intros v Hv HF; simpl; [lia|]. fcons.
  etransitivity; [|apply IH; [nia|done]]. nia.
Qed.

Lemma digits_length base l : (length (digits base l) <= length l)%nat.
Proof.
  induction l as [|c l IH]; simpl; [done|].
  destruct (digit_of c); [|simpl; lia]. destruct (_ <? _); simpl; lia.
Qed.

Lemma digits_nonneg base l : Forall (fun d => 0 <= d) (digits base l).
Proof.
  induction l as [|c l IH]; simpl; [done|]. destruct (digit_of c) eqn:E; [|done].
  apply digit_of_nonneg in E. destruct (_ <? _); auto.
Qed.

Lemma value_nonneg base l :
  0 <= value (in_base (parse base l)) (subject (parse base l)).
Proof.
  unfold parse. destruct (sign _) as [neg l1], (radix base l1) as [b l2]. simpl.
  destruct (_ && _) eqn:E; [|done].
  apply value_mono; [lia|done|apply digits_nonneg].
Qed.

(** The conversion loop on the digits it finds. *)
Lemma digits_loop k base l p v n m stop s :
  1 <= base <= 36 -> cstr (mem s) p l -> 0 <= n ->
  n + Z.of_nat (length l) < 4294967296 ->
  let ds := digits base l in
  let at_ i := match i with O => stop | _ => if tracks k then p + Z.of_nat i else stop end in
  match sum_digits (arith k) base v m ds with
  | Sum w =>
      lrun (digits_body cs k base) (Z.of_nat (length l) + 1) (p, char_of cs (hd 0 l), v, n, stop) s
        (false, (p + Z.of_nat (length ds), w, n + Z.of_nat (length ds), at_ (length ds))) s
  | Noticed i => exists j w, i = (m + j)%nat /\
      lrun (digits_body cs k base) (Z.of_nat (length l) + 1) (p, char_of cs (hd 0 l), v, n, stop) s
        (true, (p + Z.of_nat j, w, n + Z.of_nat j, at_ j)) s
  | Undefined =>
      lfault (digits_body cs k base) (Z.of_nat (length l) + 1) (p, char_of cs (hd 0 l), v, n, stop) s
  end.
Proof.
  intros Hb. revert p v n m stop.
  induction l as [|c l IH]; intros p v n m stop Hs Hn Hlen ds at_;
    pose proof (cstr_hd _ _ _ Hs) as Hc.
  - apply lrun_done; [|simpl; lia]. unfold digits_body. rewrite char_of_eqb by lia. simpl.
    unfold leave, ret. by rewrite !Z.add_0_r.
  - pose proof (cstr_cons _ _ _ _ Hs) as (_ & Hc0 & Hs'). simpl in Hc.
    pose proof (digit_char c base Hc0 ltac:(lia)) as Hd. simpl length in Hlen.
    assert (Body : digits_body cs k base (p, char_of cs c, v, n, stop) s =
      match digit_of c with
      | Some d => if d <? base then
          (let* new_sum := eval k (base * v + d) in
           if new_sum <? v then leave (true, (p, v, n, stop))
           else let* c := getc cs (p + 1) in
             again (p + 1, c, new_sum, u32 (n + 1), if tracks k then p + 1 else stop)) s
          else Ok (inr (false, (p, v, n, stop))) s
      | None => Ok (inr (false, (p, v, n, stop))) s
      end).
    { unfold digits_body. rewrite char_of_eqb by lia. unfold is_char in Hc0.
      destruct (Z.eqb_spec c 0); [lia|]. cbn [negb].
      destruct (digit (char_of cs c)) as [d'|], (digit_of c) as [d|];
        repeat match goal with |- context [?x <=? ?y] => destruct (Z.leb_spec x y)
          | H : context [?x <=? ?y] |- _ => destruct (Z.leb_spec x y) end;
        repeat match goal with |- context [?x <? base] => destruct (Z.ltb_spec x base)
          | H : context [?x <? base] |- _ => destruct (Z.ltb_spec x base) end; simplify_eq; done || lia. }
    assert (Stop : digits base (c :: l) = [] -> digits_body cs k base (p, char_of cs c, v, n, stop) s =
        Ok (inr (false, (p, v, n, stop))) s ->
      lrun (digits_body cs k base) (Z.of_nat (length (c :: l)) + 1) (p, char_of cs c, v, n, stop) s
        (false, (p + Z.of_nat 0, v, n + Z.of_nat 0, stop)) s).
    { intros _ E. apply lrun_done; [|simpl; lia]. rewrite E. by rewrite !Z.add_0_r. }
    subst ds at_. cbn [hd]. simpl digits in *.
    destruct (digit_of c) as [d|]; [destruct (d <? base)|]; [|by apply Stop|by apply Stop].
    clear Stop Hd. cbn [sum_digits]. unfold eval in Body. destruct (arith k (base * v + d)) as [w|] eqn:Ea.
    2:{ apply lfault_done; [by rewrite Body|simpl; lia]. }
    erewrite bind_ok in Body by reflexivity. destruct (w <? v).
    { exists 0%nat, v. split; [lia|]. apply lrun_done; [|simpl; lia]. rewrite Body. by rewrite !Z.add_0_r. }
    rewrite (bind_ok _ _ _ _ _ (getc_cstr _ _ _ Hs')), u32_id in Body by lia.
    specialize (IH (p + 1) w (n + 1) (S m) (if tracks k then p + 1 else stop) Hs' ltac:(lia) ltac:(lia)).
    cbv zeta in IH.
    replace (Z.of_nat (length (c :: l)) + 1) with (Z.of_nat (length l) + 1 + 1) by (simpl; lia).
    assert (At : forall j, match j with O => if tracks k then p + 1 else stop
        | _ => if tracks k then p + 1 + Z.of_nat j else if tracks k then p + 1 else stop end =
      if tracks k then p + Z.of_nat (S j) else stop).
    { intros [|j]; destruct (tracks k); lia. }
    destruct (sum_digits (arith k) base w (S m) (digits base l)) as [w'|i|].
    + eapply lrun_next; [exact Body|]. rewrite At in IH. simpl length.
      replace (p + Z.of_nat (S (length (digits base l)))) with (p + 1 + Z.of_nat (length (digits base l))) in * by lia.
      replace (n + Z.of_nat (S (length (digits base l)))) with (n + 1 + Z.of_nat (length (digits base l))) by lia.
      eapply lrun_weaken; [exact IH|lia].
    + destruct IH as (j & u & -> & IH). exists (S j), u. split; [lia|]. rewrite At in IH.
      eapply lrun_next; [exact Body|].
      replace (p + Z.of_nat (S j)) with (p + 1 + Z.of_nat j) in * by lia.
      replace (n + Z.of_nat (S j)) with (n + 1 + Z.of_nat j) by lia.
      eapply lrun_weaken; [exact IH|lia].
    + eapply lfault_next; [exact Body|]. eapply lfault_weaken; [exact IH|lia].
Qed.

Lemma hex_prefix_ok base p l s :
  cstr (mem s) p l ->
  exists b q r, hex_prefix cs base p (char_of cs (hd 0 l)) s = Ok (b, q, char_of cs (hd 0 r)) s /\
    (if b =? 0 then (if char_of cs (hd 0 r) =? 48 then 8 else 10) else b, r) = radix base l /\
    cstr (mem s) q r /\ q = p + Z.of_nat (length l) - Z.of_nat (length r).
Proof.
  intros Hs. pose proof (cstr_hd _ _ _ Hs) as Hc. unfold hex_prefix, radix.
  assert (Same : cstr (mem s) p l /\ p = p + Z.of_nat (length l) - Z.of_nat (length l))
    by (split; [done|lia]). destruct Same as [Same1 Same2].
  rewrite (char_of_eqb (hd 0 l) 48) by lia.
  destruct l as [|c l]; cbn [hd] in *.
  { exists base, p, []. change (0 =? 48) with false. cbn [hd]. rewrite char_of_eqb by lia.
    by destruct ((base =? 0) || (base =? 16)). }
  pose proof (cstr_cons _ _ _ _ Hs) as (_ & _ & Hs').
  destruct l as [|x l]; cbn [hd] in *.
  { exists base, p, [c]. cbn [hd]. rewrite !char_of_eqb by lia.
    destruct ((base =? 0) || (base =? 16)); [|done]. destruct (c =? 48); [|done].
    rewrite (bind_ok _ _ _ _ _ (getc_cstr _ _ _ Hs')). simpl. by rewrite !char_of_eqb by lia. }
  pose proof (cstr_cons _ _ _ _ Hs') as (_ & _ & Hs'').
  replace (p + 1 + 1) with (p + 2) in Hs'' by lia. pose proof (cstr_hd _ _ _ Hs').
  cbn [hd] in *.
  destruct ((base =? 0) || (base =? 16)), (c =? 48) eqn:E48; simpl andb;
    [destruct ((x =? 120) || (x =? 88)) eqn:Ex|..].
  - exists 16, (p + 2), l. split; [|split; [done|split; [done|simpl; lia]]].
    rewrite (bind_ok _ _ _ _ _ (getc_cstr _ _ _ Hs')). cbn [hd].
    by rewrite !char_of_eqb, Ex, (bind_ok _ _ _ _ _ (getc_cstr _ _ _ Hs'')) by lia.
  - exists base, p, (c :: x :: l). cbn [hd]. rewrite (bind_ok _ _ _ _ _ (getc_cstr _ _ _ Hs')).
    cbn [hd]. by rewrite !char_of_eqb, Ex, E48 by lia.
  - exists base, p, (c :: x :: l). cbn [hd]. by rewrite char_of_eqb, E48 by lia.
  - exists base, p, (c :: x :: l). cbn [hd]. by rewrite char_of_eqb, E48 by lia.
  - exists base, p, (c :: x :: l). cbn [hd]. by rewrite char_of_eqb, E48 by lia.
Qed.

Lemma strto_out_ok ptr r stop s :
  stop_ok (mem s) ptr -> strto_out ptr r stop s = Ok r (put_stop s ptr stop).
Proof.
  intros Hptr. unfold strto_out, put_stop. destruct Hptr as [->|[Hal Hm]]; [done|].
  destruct (Z.eqb_spec ptr NULL) as [->|]; [done|]. simpl.
  by erewrite bind_ok by by apply store32_ok.
Qed.

Lemma skip_space_cstr m p l :
  cstr m p l ->
  cstr m (p + Z.of_nat (length l) - Z.of_nat (length (skip_space l))) (skip_space l).
Proof.
  intros Hs. destruct (skip_space_app l) as [pre El].
  replace (p + Z.of_nat (length l) - Z.of_nat (length (skip_space l)))
    with (p + Z.of_nat (length pre)) by (apply (f_equal length) in El; rewrite length_app in El; lia).
  apply cstr_app. by rewrite <- El.
Qed.

Lemma sign_step m p l :
  cstr m p l ->
  exists q, (if hd 0 l =? 45 then (true, p + 1)
             else (false, if hd 0 l =? 43 then p + 1 else p)) = ((sign l).1, q) /\
    cstr m q (sign l).2 /\ q = p + Z.of_nat (length l) - Z.of_nat (length (sign l).2).
Proof.
  intros Hs. destruct l as [|c l]; cbn [hd sign].
  - exists p. split; [done|]. split; [done|]. simpl. lia.
  - pose proof (cstr_cons _ _ _ _ Hs) as (_ & _ & Hs').
    destruct (c =? 45); [|destruct (c =? 43)]; eexists; (split; [done|]);
      (split; [done|]); simpl; lia.
Qed.

(** The address of the digit [i] of a numeral, or [str]. *)
Definition digit_at (k : int_kind) (p : Z) (l : list Z) (n : numeral) (i : nat) : Z :=
  match i with
  | O => p
  | _ => if tracks k
         then p + Z.of_nat (length l) - Z.of_nat (length (after n)) - Z.of_nat (length (subject n)) + Z.of_nat i
         else p
  end.

(** [strto] in all cases. *)
Lemma strto_runs k p l ptr base s :
  cstr (mem s) p l -> 0 <= base -> stop_ok (mem s) ptr ->
  let n := parse base l in
  strto cs k p ptr base s =
  match sum_digits (arith k) (in_base n) 0 0 (subject n) with
  | Sum w =>
      match subject n with
      | [] => Ok 0 (put_stop s ptr p)
      | _ => match (if negative n then arith k (- w) else Some w) with
             | Some r => Ok r (put_stop s ptr (stop_at p l n))
             | None => Fault
             end
      end
  | Noticed i => Ok (over k (negative n)) (put_stop (put_errno s ERANGE) ptr (digit_at k p l n i))
  | Undefined => Fault
  end.
Proof.
  intros Hs Hb Hptr n. unfold strto.
  rewrite (cstr_nonnull _ _ _ Hs). destruct (Z.ltb_spec base 0); [lia|].
  pose proof (cstr_len _ _ _ Hs). pose proof (cstr_pos _ _ _ Hs).
  erewrite bind_ok; [|eapply loop_lrun; [by apply blanks_loop|zlia]].
  pose proof (skip_space_cstr _ _ _ Hs) as Hs1. set (p1 := p + _ - _) in *.
  pose proof (cstr_hd _ _ _ Hs1). cbv beta iota zeta. rewrite !char_of_eqb by lia.
  destruct (sign_step _ _ _ Hs1) as (p2 & -> & Hs2 & Hp2).
  rewrite (bind_ok _ _ _ _ _ (getc_cstr _ _ _ Hs2)).
  destruct (hex_prefix_ok base p2 _ _ Hs2) as (b & p3 & r & Hx & Er & Hs3 & Hp3).
  rewrite (bind_ok _ _ _ _ _ Hx). cbv zeta.
  assert (En : n = {| negative := (sign (skip_space l)).1; in_base := (radix base (sign (skip_space l)).2).1;
    subject := if (1 <=? (radix base (sign (skip_space l)).2).1) && ((radix base (sign (skip_space l)).2).1 <=? 36)
               then digits (radix base (sign (skip_space l)).2).1 r else [];
    after := drop (length (subject n)) r |}).
  { unfold n, parse. destruct (sign (skip_space l)) as [neg l1]. simpl in *. by rewrite <- Er. }
  set (b' := if b =? 0 then _ else b) in *. rewrite <- Er in En. simpl in En.
  set (neg := (sign (skip_space l)).1) in *. clearbody n b' neg. destruct n as [n1 n2 n3 n4].
  simpl in *. injection En as -> -> En ->. unfold stop_at, digit_at. cbn [subject after].
  destruct ((1 <=? b') && (b' <=? 36)) eqn:Eb.
  2:{ subst n3. simpl. by apply strto_out_ok. }
  pose proof (cstr_len _ _ _ Hs3). pose proof (cstr_pos _ _ _ Hs3).
  assert (Hlen : (length n3 <= length r)%nat) by (rewrite En; apply digits_length).
  pose proof (digits_loop k b' r p3 0 0 0 p s ltac:(lia) Hs3 ltac:(lia) ltac:(zlia)) as L.
  cbv zeta in L. rewrite <- En in L. destruct (sum_digits (arith k) b' 0 0 n3) as [w|i|].
  - erewrite bind_ok by (eapply loop_lrun; [exact L|zlia]). rewrite Z.add_0_l.
    destruct n3 as [|d ds]; [by apply strto_out_ok|].
    rewrite (proj2 (Z.eqb_neq _ 0)) by (simpl; lia).
    replace (p + Z.of_nat (length l) - Z.of_nat (length (drop (length (d :: ds)) r)))
      with (p3 + Z.of_nat (length (d :: ds))) by (rewrite length_drop; lia).
    destruct neg; [unfold eval; destruct (arith k (- w)) as [v|]; [|done]|];
      (erewrite bind_ok by reflexivity; rewrite strto_out_ok by done; by destruct (tracks k)).
  - destruct L as (j & w & -> & L). erewrite bind_ok by (eapply loop_lrun; [exact L|zlia]). cbv beta iota zeta.
    erewrite bind_ok by reflexivity. rewrite strto_out_ok by done. do 2 f_equal. rewrite length_drop.
    cbn [Nat.add]. destruct j; [done|]. destruct (tracks k); [|done]. lia.
  - unfold bind. by erewrite loop_lfault by (exact L || zlia).
Qed.
End Proofs.

Ltac widths := unfold LONG_MAX, ULONG_MAX, LLONG_MAX, ULLONG_MAX in *;
  change (2 ^ (32 - 1)) with 2147483648 in *; change (2 ^ 32) with 4294967296 in *;
  change (2 ^ (64 - 1)) with 9223372036854775808 in *; change (2 ^ 64) with 18446744073709551616 in *;
  lia.

(** The arithmetic of a function of the family. *)
Definition arith_of (f : strto_fun) : Z -> option Z :=
  if is_unsigned f then unsigned (width f) else signed (width f).

Lemma arith_small f x : 0 <= x <= max_of f -> arith_of f x = Some x.
Proof.
  intros Hx. unfold arith_of, signed, unsigned. destruct f; cbn [is_unsigned width max_of] in *;
    try (f_equal; apply uwrap_id; widths);
    by rewrite (proj2 (Z.leb_le _ _)), (proj2 (Z.ltb_lt _ _)) by widths.
Qed.

Lemma sum_small f base v n ds :
  1 <= base -> 0 <= v -> Forall (fun d => 0 <= d) ds ->
  foldl (fun v d => base * v + d) v ds <= max_of f ->
  sum_digits (arith_of f) base v n ds = Sum (foldl (fun v d => base * v + d) v ds).
Proof.
  intros Hb. revert v n. induction ds as [|d ds IH]; intros v n Hv HF Hm; [done|]. fcons. simpl in *.
  pose proof (value_mono base ds (base * v + d) Hb ltac:(nia) ltac:(done)).
  rewrite arith_small by nia. rewrite (proj2 (Z.ltb_ge _ _)) by nia. apply IH; [nia|done|done].
Qed.

(** Beyond the largest value of a signed type. *)
Lemma sum_large f base v n ds :
  is_unsigned f = false -> 1 <= base -> 0 <= v <= max_of f -> Forall (fun d => 0 <= d) ds ->
  max_of f < foldl (fun v d => base * v + d) v ds -> sum_digits (arith_of f) base v n ds = Undefined.
Proof.
  intros Hf Hb. revert v n. induction ds as [|d ds IH]; intros v n Hv HF Hm; simpl in *; [lia|]. fcons.
  destruct (Z_le_gt_dec (base * v + d) (max_of f)) as [Hle|Hgt].
  - rewrite arith_small by nia. rewrite (proj2 (Z.ltb_ge _ _)) by nia. apply IH; [nia|done|done].
  - unfold arith_of, signed. rewrite Hf. rewrite (proj2 (Z.ltb_ge _ _)), andb_false_r; [done|].
    destruct f; cbn [is_unsigned width max_of] in *; try done; widths.
Qed.

(** The sum of an unsigned type is right modulo its size. *)
Lemma sum_modulo f base v n ds w :
  is_unsigned f = true -> sum_digits (arith_of f) base v n ds = Sum w ->
  w mod 2 ^ width f = foldl (fun v d => base * v + d) v ds mod 2 ^ width f.
Proof.
  intros Hf. revert v n. induction ds as [|d ds IH]; intros v n E; simpl in *; [by simplify_eq|].
  unfold arith_of in *. rewrite Hf in *. unfold unsigned in *. destruct (_ <? v); [done|].
  rewrite (IH _ _ E). unfold uwrap. clear. assert (0 < 2 ^ width f) by (by destruct f).
  generalize (base * v + d). revert H. generalize (2 ^ width f). intros M HM x.
  assert (K : forall y, foldl (fun v d => base * v + d) (y mod M) ds mod M =
    foldl (fun v d => base * v + d) y ds mod M); [|apply K].
  induction ds as [|e ds IH]; intros y; simpl; [by rewrite Z.mod_mod by lia|].
  rewrite <- (IH (base * (y mod M) + e)), <- (IH (base * y + e)). do 2 f_equal.
  by rewrite <- Z.add_mod_idemp_l, Z.mul_mod_idemp_r, Z.add_mod_idemp_l by lia.
Qed.

Lemma sum_defined f base v n ds : is_unsigned f = true -> sum_digits (arith_of f) base v n ds <> Undefined.
Proof.
  intros Hf. revert v n. induction ds as [|d ds IH]; intros v n; simpl; [done|].
  unfold arith_of in *. rewrite Hf in *. unfold unsigned at 1. destruct (_ <? v); [done|apply IH].
Qed.

Lemma sum_range f base v n ds w :
  is_unsigned f = true -> 0 <= v <= max_of f -> sum_digits (arith_of f) base v n ds = Sum w ->
  0 <= w <= max_of f.
Proof.
  intros Hf. revert v n. induction ds as [|d ds IH]; intros v n Hv E; simpl in *; [by simplify_eq|].
  unfold arith_of in *. rewrite Hf in *. unfold unsigned in E at 1. destruct (_ <? v); [done|].
  eapply IH; [|exact E]. unfold uwrap. assert (0 < 2 ^ width f) by (by destruct f).
  pose proof (Z.mod_pos_bound (base * v + d) (2 ^ width f) ltac:(done)).
  destruct f; cbn [width max_of is_unsigned] in *; try done; widths.
Qed.

(** The description of a function of the family. *)
Definition kind_of (f : strto_fun) : int_kind :=
  {| arith := arith_of f;
     over neg := match f with
       | Strtol | Strtoll => if neg then LONG_MIN else LONG_MAX
       | Strtoimax => if neg then LLONG_MIN else LLONG_MAX
       | _ => saturated f
       end;
     tracks := match f with Strtoumax => true | _ => false end |}.

Lemma strto_kind cs f : strto_call cs f = strto cs (kind_of f).
Proof. by destruct f. Qed.

Lemma base_pos base l : subject (parse base l) <> [] -> 1 <= in_base (parse base l).
Proof.
  unfold parse. destruct (sign _) as [neg l1], (radix base l1) as [b l2]. cbn [subject in_base].
  destruct (Z.leb_spec 1 b); [done|]. by intros [].
Qed.

Lemma subject_nonneg base l : Forall (fun d => 0 <= d) (subject (parse base l)).
Proof.
  unfold parse. destruct (sign _) as [neg l1], (radix base l1) as [b l2]. cbn [subject].
  destruct (_ && _); [apply digits_nonneg|done].
Qed.

Lemma strto_read cs f p l ptr base s :
  cstr (mem s) p l -> 0 <= base -> stop_ok (mem s) ptr ->
  value (in_base (parse base l)) (subject (parse base l)) <= max_of f ->
  strto_call cs f p ptr base s =
  Ok (denotes f (parse base l)) (put_stop s ptr (stop_at p l (parse base l))).
Proof.
  intros Hs Hb Hptr Hv. rewrite strto_kind, (strto_runs cs _ p l ptr base s Hs Hb Hptr).
  pose proof (value_nonneg base l) as Hpos. cbn [arith kind_of].
  pose proof (base_pos base l) as Hb1. pose proof (subject_nonneg base l) as HF.
  unfold denotes, stop_at. destruct (subject (parse base l)) as [|d ds] eqn:E; [done|].
  rewrite (sum_small f) by (done || auto). fold (value (in_base (parse base l)) (d :: ds)).
  destruct (negative (parse base l)); [|done]. set (v := value _ _) in *.
  unfold arith_of, unsigned, signed. destruct f; cbn [is_unsigned width max_of] in *; try done;
    by rewrite (proj2 (Z.leb_le _ _)), (proj2 (Z.ltb_lt _ _)) by widths.
Qed.

(** C26: Every function of the family converts a number whose digits make at most
    the largest value of its type (so not the smallest value of a signed type,
    for which see [strto_limits]): it skips the blanks, takes the sign and the base prefix, returns the value of
    the longest run of digits of the base, leaves [errno] alone and stores in
    [*ptr] the address after the last digit, or [str] when there is none. *)
Theorem strto_correct cs f p l ptr base s :
  cstr (mem s) p l -> 0 <= base -> stop_ok (mem s) ptr ->
  value (in_base (parse base l)) (subject (parse base l)) <= max_of f ->
  strto_call cs f p ptr base s =
  Ok (denotes f (parse base l)) (put_stop s ptr (stop_at p l (parse base l))).
Proof. apply strto_read. Qed.

Lemma strto_correct_witness :
  let s := boot [(4096, zstr "  -0x7fZ"); (8192, [0; 0; 0; 0])] in
  strto_call false Strtol 4096 8192 0 s =
  Ok (-127) (set_mem s (write_bytes (mem s) 8192 (word_bytes 4103))).
Proof.
  apply (strto_correct false Strtol 4096 (bytes "  -0x7fZ") 8192 0);
    [ground|lia|right; split; [done|ground]|by vm_compute].
Defined.

(** The error paths: a null string is [EFAULT] and a negative base [ERANGE];
    both return 0, store [str] in [*ptr] and convert nothing. *)
Lemma strto_errors cs f p ptr base s :
  stop_ok (mem s) ptr ->
  strto_call cs f NULL ptr base s = Ok 0 (put_stop (put_errno s EFAULT) ptr NULL) /\
  (p <> NULL -> base < 0 ->
   strto_call cs f p ptr base s = Ok 0 (put_stop (put_errno s ERANGE) ptr p)).
Proof.
  intros Hptr. split.
  - destruct f; simpl; unfold strtol, strtoul, strtoll, strtoull, strtoimax, strtoumax, strto, bind;
      simpl; by apply (strto_out_ok ptr 0 NULL (put_errno s EFAULT)).
  - intros Hp Hb. apply Z.eqb_neq in Hp. apply Z.ltb_lt in Hb.
    destruct f; simpl; unfold strtol, strtoul, strtoll, strtoull, strtoimax, strtoumax, strto, bind;
      rewrite Hp, Hb; simpl; by apply (strto_out_ok ptr 0 p (put_errno s ERANGE)).
Qed.

(** C40: What the conversions do beside the numbers that fit.  A null string
    sets [EFAULT] and a negative base [ERANGE], both returning zero.  In the
    signed functions a number whose digits exceed the largest value of the
    type, also the smallest one of it, overflows the sum, which is undefined:
    the test comes too late.  In the unsigned ones the sum is taken modulo
    the size of the type; only when a digit makes it smaller is [ERANGE] set
    and the largest [unsigned long] returned, by [strtoull] too
    ([strtoumax]: the largest [uintmax_t]); otherwise the number modulo the
    size of the type is returned and [errno] left alone. *)
Theorem strto_limits :
  (forall cs f p ptr base s, stop_ok (mem s) ptr ->
   strto_call cs f NULL ptr base s = Ok 0 (put_stop (put_errno s EFAULT) ptr NULL) /\
   (p <> NULL -> base < 0 ->
    strto_call cs f p ptr base s = Ok 0 (put_stop (put_errno s ERANGE) ptr p))) /\
  (forall cs f p l ptr base s, cstr (mem s) p l -> 0 <= base -> stop_ok (mem s) ptr ->
   let n := parse base l in
   (is_unsigned f = false -> max_of f < value (in_base n) (subject n) ->
    strto_call cs f p ptr base s = Fault) /\
   (is_unsigned f = true ->
    match sum_digits (unsigned (width f)) (in_base n) 0 0 (subject n) with
    | Sum w => w = value (in_base n) (subject n) mod (max_of f + 1) /\
        strto_call cs f p ptr base s =
        Ok (if negative n then (- w) mod (max_of f + 1) else w) (put_stop s ptr (stop_at p l n))
    | Noticed i => strto_call cs f p ptr base s =
        Ok (saturated f) (put_stop (put_errno s ERANGE) ptr (digit_at (kind_of f) p l n i))
    | Undefined => False
    end)).
Proof.
  split; [exact strto_errors|]. intros cs f p l ptr base s Hs Hb Hptr n.
  rewrite strto_kind, (strto_runs cs _ p l ptr base s Hs Hb Hptr). fold n. cbn [arith kind_of].
  assert (HF : Forall (fun d => 0 <= d) (subject n)) by apply subject_nonneg. split.
  - intros Hf Hv. rewrite (sum_large f); try done.
    + apply base_pos. intros E. fold n in E. rewrite E in Hv. unfold value in Hv. simpl in Hv.
      destruct f; cbn [max_of] in Hv; widths.
    + split; [done|]. destruct f; done.
  - intros Hf. assert (Ha : arith_of f = unsigned (width f)) by (unfold arith_of; by rewrite Hf). rewrite <- Ha.
    assert (Hm : max_of f + 1 = 2 ^ width f) by (by destruct f). rewrite Hm.
    destruct (sum_digits (arith_of f) (in_base n) 0 0 (subject n)) as [w|i|] eqn:E.
    + pose proof (sum_modulo f _ _ _ _ _ Hf E) as Hw.
      pose proof (sum_range f _ 0 _ _ _ Hf ltac:(split; [done|by destruct f]) E) as Hr.
      rewrite Z.mod_small in Hw by lia. split; [exact Hw|]. unfold stop_at.
      destruct (subject n) as [|d ds]; [cbn in E; simplify_eq; by destruct (negative n)|].
      destruct (negative n); [|done]. by rewrite Ha.
    + by destruct f.
    + by apply (sum_defined f _ _ _ _ Hf) in E.
Qed.

(** 5000000000 is read as 705032704 by [strtoul] without a word; [strtoull]
    answers an overflow with the largest 32-bit number; -2147483648, a [long],
    overflows in [strtol]. *)
Example strto_overflow :
  let run f str := match f false 4096 NULL 10 (boot [(4096, zstr str)]) with
    | Ok v s => Some (v, errno s) | _ => None end in
  run strtoul "5000000000"%string = Some (705032704, 0) /\
  run strtoull "18446744073709551616"%string = Some (ULONG_MAX, ERANGE) /\
  run strtol "-2147483648"%string = None.
Proof. vm_compute. auto. Qed.

Lemma strto_limits_witness :
  (let s := boot [(4096, zstr "1")] in
   strto_call false Strtoul NULL NULL 10 s = Ok 0 (put_errno s EFAULT) /\
   strto_call false Strtoul 4096 NULL (-1) s = Ok 0 (put_errno s ERANGE)) /\
  (let s := boot [(4096, zstr "-2147483648")] in strto_call false Strtol 4096 NULL 10 s = Fault) /\
  (let s := boot [(4096, zstr "4294967296")] in
   strto_call false Strtoul 4096 NULL 10 s = Ok ULONG_MAX (put_errno s ERANGE)).
Proof.
  destruct strto_limits as [A B]. split; [split|split].
  - apply (A false Strtoul 4096 NULL 10). by left.
  - apply (A false Strtoul 4096 NULL (-1)); [by left|done|done].
  - intros s.
    assert (H : cstr (mem s) 4096 (bytes "-2147483648")) by ground.
    destruct (B false Strtol 4096 _ NULL 10 s H ltac:(done) ltac:(by left)) as [C _].
    apply C; by vm_compute.
  - intros s.
    assert (H : cstr (mem s) 4096 (bytes "4294967296")) by ground.
    destruct (B false Strtoul 4096 _ NULL 10 s H ltac:(done) ltac:(by left)) as [_ C].
    replace (sum_digits _ _ _ _ _) with (Noticed 9) in C by by vm_compute.
    by apply C.
Defined.
