(* ===== verification/Calendar.v ===== *)
(** * The calendar ([library/time])

    The conversions between seconds and broken-down time that [timegm] uses
    ([convert_time.c]), the weekday and day-of-year helpers, the conversions
    between Unix time and AmigaOS date stamps, and [mktime], [localtime_r]
    and [gmtime_r], which go through utility.library. *)

From S2P Require Import Prelude CMem.

Definition s64 (x : Z) : Z := swrap 64 x.

(** [struct tm]; [tm_zone] is the pointer, as a number. *)
Record tm := mkTm {
  tm_sec : Z; tm_min : Z; tm_hour : Z; tm_mday : Z; tm_mon : Z; tm_year : Z;
  tm_wday : Z; tm_yday : Z; tm_isdst : Z; tm_gmtoff : Z; tm_zone : Z;
}.

(** ** [convert_time.c] *)

Definition INT_MAX : Z := 2147483647.
Definition INT_MIN : Z := -2147483648.

Definition LEAPOCH : Z := 946684800 + 86400 * (31 + 29).
Definition DAYS_PER_400Y : Z := 365 * 400 + 97.
Definition DAYS_PER_100Y : Z := 365 * 100 + 24.
Definition DAYS_PER_4Y : Z := 365 * 4 + 1.

Definition secs_through_month : list Z :=
  [0; 31 * 86400; 59 * 86400; 90 * 86400; 120 * 86400; 151 * 86400; 181 * 86400;
   212 * 86400; 243 * 86400; 273 * 86400; 304 * 86400; 334 * 86400].

(** [None] is an access outside the table. *)
Definition month_to_secs (month is_leap : Z) : option Z :=
  t ← (if month <? 0 then None else secs_through_month !! Z.to_nat month);
  Some (if negb (is_leap =? 0) && (2 <=? month) then t + 86400 else t).

(** The values given to [*is_leap], [centuries] and [leaps] in year [rem] of
    a cycle of 400. *)
Definition year_of_cycle (rem : Z) : Z * Z * Z :=
  if rem =? 0 then (1, 0, 0)
  else
    let (centuries, rem) :=
      if 200 <=? rem then
        if 300 <=? rem then (3, rem - 300) else (2, rem - 200)
      else if 100 <=? rem then (1, rem - 100) else (0, rem) in
    if rem =? 0 then (0, centuries, 0)
    else (Z.b2z (rem mod 4 =? 0), centuries, rem / 4).

(** The result and the value left in [*is_leap]. *)
Definition year_to_secs (year : Z) : Z * Z :=
  if (year - 2) mod 18446744073709551616 <=? 136 then
    let y := s32 year in
    let leaps := Z.shiftr (y - 68) 2 in
    let (leaps, is_leap) :=
      if Z.land (y - 68) 3 =? 0 then (leaps - 1, 1) else (leaps, 0) in
    (s32 (31536000 * (y - 70) + 86400 * leaps), is_leap)
  else
    let cycles := s32 (Z.quot (year - 100) 400) in
    let rem := Z.rem (year - 100) 400 in
    let (cycles, rem) := if rem <? 0 then (cycles - 1, rem + 400) else (cycles, rem) in
    let '(is_leap, centuries, leaps) := year_of_cycle rem in
    let leaps := s32 (leaps + (97 * cycles + 24 * centuries - is_leap)) in
    (s64 ((year - 100) * 31536000 + leaps * 86400 + 946684800 + 86400), is_leap).

Definition tm_to_secs (t : tm) : option Z :=
  let year := tm_year t in
  let month := tm_mon t in
  let (year, month) :=
    if (12 <=? month) || (month <? 0) then
      let adj := Z.quot month 12 in
      let month := Z.rem month 12 in
      let (adj, month) := if month <? 0 then (adj - 1, month + 12) else (adj, month) in
      (year + adj, month)
    else (year, month) in
  let (secs, is_leap) := year_to_secs year in
  m ← month_to_secs month is_leap;
  Some (s64 (secs + m + 86400 * s32 (tm_mday t - 1) + 3600 * tm_hour t +
             60 * tm_min t + tm_sec t)).

Definition days_in_month : list Z := [31; 30; 31; 30; 31; 31; 30; 31; 30; 31; 31; 29].

(** The loop over [days_in_month]: the months passed and the days left;
    [None] when it runs off the table. *)
Fixpoint months_loop (table : list Z) (months remdays : Z) : option (Z * Z) :=
  match table with
  | [] => None
  | d :: table' =>
      if d <=? remdays then months_loop table' (months + 1) (remdays - d)
      else Some (months, remdays)
  end.

(** The outcome of [__secs_to_tm]: the fields it stores in [*tm], [None] when
    it returns -1 and leaves [*tm] alone; the outer option is the loop over
    the table. *)
Definition secs_to_tm (t : Z) (old : tm) : option (option tm) :=
  if (t <? INT_MIN * 31622400) || (INT_MAX * 31622400 <? t) then Some None
  else
    let secs := s64 (t - LEAPOCH) in
    let days := Z.quot secs 86400 in
    let remsecs := Z.rem secs 86400 in
    let (remsecs, days) :=
      if remsecs <? 0 then (remsecs + 86400, days - 1) else (remsecs, days) in
    let wday := Z.rem (3 + days) 7 in
    let wday := if wday <? 0 then wday + 7 else wday in
    let qc_cycles := s32 (Z.quot days DAYS_PER_400Y) in
    let remdays := Z.rem days DAYS_PER_400Y in
    let (remdays, qc_cycles) :=
      if remdays <? 0 then (remdays + DAYS_PER_400Y, qc_cycles - 1)
      else (remdays, qc_cycles) in
    let c_cycles := Z.quot remdays DAYS_PER_100Y in
    let c_cycles := if c_cycles =? 4 then c_cycles - 1 else c_cycles in
    let remdays := remdays - c_cycles * DAYS_PER_100Y in
    let q_cycles := Z.quot remdays DAYS_PER_4Y in
    let q_cycles := if q_cycles =? 25 then q_cycles - 1 else q_cycles in
    let remdays := remdays - q_cycles * DAYS_PER_4Y in
    let remyears := Z.quot remdays 365 in
    let remyears := if remyears =? 4 then remyears - 1 else remyears in
    let remdays := remdays - remyears * 365 in
    let leap := Z.b2z ((remyears =? 0) && (negb (q_cycles =? 0) || (c_cycles =? 0))) in
    let yday := remdays + 31 + 28 + leap in
    let yday := if 365 + leap <=? yday then yday - (365 + leap) else yday in
    let years := remyears + 4 * q_cycles + 100 * c_cycles + 400 * qc_cycles in
    '(months, remdays) ← months_loop days_in_month 0 remdays;
    let (months, years) := if 10 <=? months then (months - 12, years + 1) else (months, years) in
    Some (if (INT_MAX <? years + 100) || (years + 100 <? INT_MIN) then None
          else Some {| tm_year := years + 100; tm_mon := months + 2; tm_mday := remdays + 1;
                       tm_wday := wday; tm_yday := yday; tm_hour := Z.quot remsecs 3600;
                       tm_min := Z.rem (Z.quot remsecs 60) 60; tm_sec := Z.rem remsecs 60;
                       tm_isdst := tm_isdst old; tm_gmtoff := tm_gmtoff old;
                       tm_zone := tm_zone old |}).

(** ** [timegm.c]

    The result, the new [errno] if it is set, and the new [*tm]; [utc] is
    the address of the string literal. *)
Definition timegm (utc : Z) (t : tm) (fresh : tm) : option (Z * option Z * tm) :=
  secs ← tm_to_secs t;
  r ← secs_to_tm secs fresh;
  Some (match r with
        | None => (-1, Some EOVERFLOW, t)
        | Some new =>
            (secs, None,
             {| tm_sec := tm_sec new; tm_min := tm_min new; tm_hour := tm_hour new;
                tm_mday := tm_mday new; tm_mon := tm_mon new; tm_year := tm_year new;
                tm_wday := tm_wday new; tm_yday := tm_yday new; tm_isdst := 0;
                tm_gmtoff := 0; tm_zone := utc |})
        end).

(** ** [days_per_date.c], [weekday.c] *)

Definition calculate_days_per_date (year month day : Z) : Z :=
  let month := month + 9 in
  let year := year - 1 + Z.quot month 12 in
  let month := Z.rem month 12 * 306 + 5 in
  s32 (s32 (year * 365) + Z.quot year 4 - Z.quot year 100 + Z.quot year 400 +
       Z.quot month 10 + day - 1).

Definition month_skew : list Z := [0; 3; 3; 6; 1; 4; 6; 2; 5; 0; 3; 5].

Definition calculate_weekday (year month day : Z) : option Z :=
  let sum := year - 1900 in
  let sum := sum + Z.quot sum 4 in
  let sum :=
    if (month =? 1) || (month =? 2) then
      sum - (if negb (Z.rem year 4 =? 0) then 0
             else if Z.rem year 400 =? 0 then 1
             else if Z.rem year 100 =? 0 then 0
             else 1)
    else sum in
  skew ← (if month <? 1 then None else month_skew !! Z.to_nat (month - 1));
  Some (Z.rem (sum + (day + skew)) 7).

(** ** Date stamps ([convert_datestamp.c], [convert_time.c]) *)

Definition UNIX_TIME_OFFSET : Z := 252460800.
Definition TICKS_PER_SECOND : Z := 50.

Record DateStamp := mkDS { ds_Days : Z; ds_Minute : Z; ds_Tick : Z }.

(** [gmt] is [__default_locale->loc_GMTOffset], [None] without a default
    locale.  The sum is formed with 32-bit [long]s and widened afterwards. *)
Definition convert_datestamp_to_time (gmt : option Z) (ds : DateStamp) : Z :=
  let result := s32 (UNIX_TIME_OFFSET + s32 (ds_Days ds * (24 * 60 * 60)) +
                     s32 (ds_Minute ds * 60) + Z.quot (ds_Tick ds) TICKS_PER_SECOND) in
  match gmt with
  | Some off => s64 (result + s32 (60 * off))
  | None => result
  end.

Definition convert_time_to_datestamp (gmt : option Z) (time_value : Z) : DateStamp :=
  let time_value := s64 (time_value - UNIX_TIME_OFFSET) in
  let time_value :=
    match gmt with Some off => s64 (time_value - s32 (60 * off)) | None => time_value end in
  {| ds_Days := s32 (Z.quot time_value (24 * 60 * 60));
     ds_Minute := s32 (Z.quot (Z.rem time_value (24 * 60 * 60)) 60);
     ds_Tick := s32 (Z.rem time_value 60 * TICKS_PER_SECOND) |}.

(** ** [converttime.c], [localtime_r.c], [gmtime_r.c], [mktime.c]

    utility.library and timezone.library, which are not part of the
    repository, convert between seconds from 1 January 1978 and
    [struct ClockData], and tell whether daylight saving time is on. *)
Record ClockData := mkClock {
  cd_sec : Z; cd_min : Z; cd_hour : Z; cd_mday : Z; cd_month : Z; cd_year : Z; cd_wday : Z;
}.

Class Clock := {
  Date2Amiga : ClockData -> Z;
  Amiga2Date : Z -> ClockData;
  is_dst : bool;
  (** [__daylight], [__tzname[0]] and [__timezone] of the library base *)
  daylight : Z;  tzname0 : Z;  timezone : Z;
  (** [__default_locale->loc_GMTOffset] *)
  gmt_offset : option Z;
}.

Section Local.
Context `{Clock}.

Definition convert_time (seconds off : Z) : tm :=
  let seconds := if seconds <? UNIX_TIME_OFFSET then 0 else seconds - UNIX_TIME_OFFSET in
  let seconds := u32 (seconds - off) in
  let seconds := if is_dst then u32 (seconds + 60 * 60) else seconds in
  let c := Amiga2Date seconds in
  {| tm_sec := cd_sec c; tm_min := cd_min c; tm_hour := cd_hour c; tm_mday := cd_mday c;
     tm_mon := cd_month c - 1; tm_year := cd_year c - 1900; tm_wday := cd_wday c;
     tm_isdst := daylight; tm_zone := tzname0; tm_gmtoff := Z.quot timezone 60;
     tm_yday := calculate_days_per_date (cd_year c) (cd_month c) (cd_mday c) -
                calculate_days_per_date (cd_year c) 1 1 |}.

(** [t] is what the first pointer points to and [tm_ptr] tells whether the
    second is not null; the result is the new [*tm_ptr], or the error.
    [u32] is the passage of a [time_t] to the [ULONG] parameter. *)
Definition localtime_r (t : option Z) (tm_ptr : bool) : Z + tm :=
  match t, tm_ptr with
  | Some t, true =>
      inr (convert_time (u32 t)
             (match gmt_offset with Some off => s32 (60 * off) | None => 0 end))
  | _, _ => inl EFAULT
  end.
Definition gmtime_r (t : option Z) (tm_ptr : bool) : Z + tm :=
  match t, tm_ptr with
  | Some t, true => inr (convert_time (u32 t) 0)
  | _, _ => inl EFAULT
  end.

(** The result, [errno] if it is set, and the new [*tm]. *)
Definition mktime (tm_ptr : option tm) : Z * option Z * option tm :=
  match tm_ptr with None => (-1, Some EFAULT, None) | Some t =>
  let year := tm_year t + 1900 in
  let month := tm_mon t + 1 in
  let (month, year) :=
    if (month <? 0) || (12 <? month) then
      let y := Z.quot month 12 in (month - y * 12, year + y)
    else (month, year) in
  let (month, year) := if month <? 1 then (month + 12, year - 1) else (month, year) in
  if year <? 1978 then (-1, None, Some t)
  else
    let seconds := Date2Amiga {| cd_sec := 0; cd_min := 0; cd_hour := 0; cd_mday := 1;
                                 cd_month := month mod 65536; cd_year := year mod 65536;
                                 cd_wday := 0 |} in
    let combined_seconds :=
      s32 (tm_sec t + 60 * (tm_min t + 60 * (tm_hour t + 24 * (tm_mday t - 1)))) in
    if (combined_seconds <? 0) && (seconds <? u32 (- combined_seconds)) then (-1, None, Some t)
    else
      let seconds := u32 (seconds + combined_seconds) in
      let seconds :=
        match gmt_offset with Some off => u32 (seconds + 60 * off) | None => seconds end in
      let result := u32 (seconds + UNIX_TIME_OFFSET) in
      (result, None,
       match localtime_r (Some result) true with inr t => Some t | inl _ => Some t end)
  end.
End Local.

(** ** The Gregorian calendar

    The reference the code is compared with: leap years, lengths of months,
    and the number of a day counted from 1 January 1970.  Months are counted
    from 0. *)

Definition leap_year (y : Z) : bool :=
  (y mod 4 =? 0) && (negb (y mod 100 =? 0) || (y mod 400 =? 0)).

Definition month_days (y m : Z) : Z :=
  if m =? 1 then 28 + Z.b2z (leap_year y)
  else if (m =? 3) || (m =? 5) || (m =? 8) || (m =? 10) then 30 else 31.

Definition valid_date (y m d : Z) : Prop := 0 <= m < 12 /\ 1 <= d <= month_days y m.

Definition next_day (y m d : Z) : Z * Z * Z :=
  if d <? month_days y m then (y, m, d + 1)
  else if m <? 11 then (y, m + 1, 1) else (y + 1, 0, 1).

(** Leap days in the years up to [y], counted from year 0. *)
Definition leap_days (y : Z) : Z := y / 4 - y / 100 + y / 400.

Definition month_start (m : Z) : Z :=
  match m with
  | 0 => 0 | 1 => 31 | 2 => 59 | 3 => 90 | 4 => 120 | 5 => 151
  | 6 => 181 | 7 => 212 | 8 => 243 | 9 => 273 | 10 => 304 | _ => 334
  end.

Definition day_number (y m d : Z) : Z :=
  365 * (y - 1970) + leap_days (y - 1) - leap_days 1969 +
  month_start m + (if 2 <=? m then Z.b2z (leap_year y) else 0) + d - 1.

Lemma leap_days_step y : leap_days y = leap_days (y - 1) + Z.b2z (leap_year y).
Proof.
  unfold leap_days, leap_year.
  destruct (Z.eqb_spec (y mod 4) 0), (Z.eqb_spec (y mod 100) 0), (Z.eqb_spec (y mod 400) 0);
    simpl; Z.div_mod_to_equations; lia.
Qed.

Lemma leap_days_mono y y' : y <= y' -> leap_days y <= leap_days y'.
Proof.
  intros H. replace y' with (y + Z.of_nat (Z.to_nat (y' - y))) by lia.
  induction (Z.to_nat (y' - y)) as [|n IH]; [rewrite Z.add_0_r; lia|].
  rewrite (leap_days_step (y + Z.of_nat (S n))).
  replace (y + Z.of_nat (S n) - 1) with (y + Z.of_nat n) by lia.
  destruct (leap_year _); simpl; lia.
Qed.

Lemma month_cases m :
  0 <= m < 12 ->
  m = 0 \/ m = 1 \/ m = 2 \/ m = 3 \/ m = 4 \/ m = 5 \/
  m = 6 \/ m = 7 \/ m = 8 \/ m = 9 \/ m = 10 \/ m = 11.
Proof. lia. Qed.
Ltac months H := apply month_cases in H;
  destruct H as [->|[->|[->|[->|[->|[->|[->|[->|[->|[->|[->| ->]]]]]]]]]]].

(** The day numbers are those of the calendar: 1 January 1970 is day 0, and
    the following day has the following number. *)
Lemma day_number_epoch : day_number 1970 0 1 = 0.
Proof. reflexivity. Qed.

Lemma day_number_next y m d :
  valid_date y m d ->
  let '(y', m', d') := next_day y m d in
  valid_date y' m' d' /\ day_number y' m' d' = day_number y m d + 1.
Proof.
  intros [Hm Hd]. unfold next_day. destruct (Z.ltb_spec d (month_days y m)).
  { unfold valid_date, day_number. lia. }
  assert (d = month_days y m) as -> by lia. clear Hd H.
  destruct (Z.eq_dec m 11) as [->|Hne].
  - change (11 <? 11) with false. unfold valid_date, day_number.
    replace (y + 1 - 1) with y by lia. rewrite (leap_days_step y).
    unfold month_days. simpl. lia.
  - rewrite (proj2 (Z.ltb_lt m 11)) by lia.
    months Hm; try lia; unfold valid_date, day_number, month_days; simpl; try lia;
      destruct (leap_year y); simpl; lia.
Qed.

Lemma day_number_year y m d :
  valid_date y m d ->
  day_number y 0 1 <= day_number y m d < day_number (y + 1) 0 1.
Proof.
  intros [Hm Hd]. unfold day_number. replace (y + 1 - 1) with y by lia.
  rewrite (leap_days_step y). revert Hd. unfold month_days.
  months Hm; simpl; destruct (leap_year y); simpl; lia.
Qed.

Lemma day_number_mono y y' : y <= y' -> day_number y 0 1 <= day_number y' 0 1.
Proof.
  intros H. unfold day_number. pose proof (leap_days_mono (y - 1) (y' - 1) ltac:(lia)).
  simpl. lia.
Qed.

Lemma valid_date_mday y m d : valid_date y m d -> 1 <= d <= 31.
Proof.
  intros [_ Hd]. unfold month_days in Hd. pose proof (b2z_cases (leap_year y)).
  repeat case_match; lia.
Qed.

Lemma valid_first y m : 0 <= m < 12 -> valid_date y m 1.
Proof.
  intros. split; [done|]. unfold month_days. pose proof (b2z_cases (leap_year y)).
  repeat case_match; lia.
Qed.

(** A day has one date. *)
Lemma day_number_inj y m d y' m' d' :
  valid_date y m d -> valid_date y' m' d' -> day_number y m d = day_number y' m' d' ->
  y = y' /\ m = m' /\ d = d'.
Proof.
  intros V V' E. pose proof (day_number_year _ _ _ V). pose proof (day_number_year _ _ _ V').
  assert (y = y') as <-.
  { destruct (Z.lt_trichotomy y y') as [L|[?|L]]; [|done|].
    - pose proof (day_number_mono (y + 1) y' ltac:(lia)). lia.
    - pose proof (day_number_mono (y' + 1) y ltac:(lia)). lia. }
  split; [done|]. destruct V as [Hm Hd], V' as [Hm' Hd'].
  unfold day_number in E. revert Hd Hd' E. unfold month_days.
  generalize (leap_days (y - 1)). intros k.
  months Hm; months Hm'; simpl; destruct (leap_year y); simpl; lia.
Qed.

(** ** [__year_to_secs] and [__tm_to_secs] *)

Lemma leap_year_400 k r : leap_year (400 * k + r) = leap_year r.
Proof.
  unfold leap_year.
  replace ((400 * k + r) mod 4) with (r mod 4) by (Z.div_mod_to_equations; lia).
  replace ((400 * k + r) mod 100) with (r mod 100) by (Z.div_mod_to_equations; lia).
  by replace ((400 * k + r) mod 400) with (r mod 400) by (Z.div_mod_to_equations; lia).
Qed.

Lemma leap_days_400 k r : leap_days (400 * k + r) = 97 * k + leap_days r.
Proof. unfold leap_days. Z.div_mod_to_equations. lia. Qed.

Lemma year_of_cycle_spec rem :
  0 <= rem < 400 ->
  let '(is_leap, centuries, leaps) := year_of_cycle rem in
  is_leap = Z.b2z (leap_year rem) /\
  leaps + 24 * centuries - is_leap = leap_days (rem - 1) /\
  0 <= centuries < 4 /\ 0 <= leaps < 100.
Proof.
  intros H.
  assert (K : forall r, 0 <= r < 0 + 400 ->
    (let '(is_leap, centuries, leaps) := year_of_cycle r in
     (is_leap =? Z.b2z (leap_year r)) && (leaps + 24 * centuries - is_leap =? leap_days (r - 1)) &&
     (0 <=? centuries) && (centuries <? 4) && (0 <=? leaps) && (leaps <? 100)) = true)
    by (apply forall_range; vm_compute; reflexivity).
  specialize (K rem H). destruct (year_of_cycle rem) as [[l c] n]. lia.
Qed.

Lemma year_to_secs_ok year :
  -4294967296 <= year <= 4294967296 ->
  year_to_secs year =
  (86400 * day_number (year + 1900) 0 1, Z.b2z (leap_year (year + 1900))).
Proof.
  intros Hy. unfold year_to_secs.
  destruct (Z.leb_spec ((year - 2) mod 18446744073709551616) 136) as [Hs|Hs].
  - assert (Hr : 2 <= year < 2 + 137) by (Z.div_mod_to_equations; lia).
    assert (K : forall r, 2 <= r < 2 + 137 -> bool_decide (
      (let y := s32 r in
       let leaps := Z.shiftr (y - 68) 2 in
       let (leaps, is_leap) := if Z.land (y - 68) 3 =? 0 then (leaps - 1, 1) else (leaps, 0) in
       (s32 (31536000 * (y - 70) + 86400 * leaps), is_leap)) =
      (86400 * day_number (r + 1900) 0 1, Z.b2z (leap_year (r + 1900)))) = true)
      by (apply forall_range; vm_compute; reflexivity).
    exact (proj1 (bool_decide_eq_true _) (K _ Hr)).
  - assert (E : exists c r, 0 <= r < 400 /\ year = 400 * c + 100 + r /\
      (let cycles := s32 (Z.quot (year - 100) 400) in
       let rem := Z.rem (year - 100) 400 in
       if rem <? 0 then (cycles - 1, rem + 400) else (cycles, rem)) = (c, r)).
    { rewrite s32_id by (Z.quot_rem_to_equations; lia). cbv zeta.
      destruct (Z.ltb_spec (Z.rem (year - 100) 400) 0); eexists _, _;
        (split; [|split; [|reflexivity]]); Z.quot_rem_to_equations; lia. }
    destruct E as (c & r & Hr & -> & E). cbv zeta in E. rewrite E.
    pose proof (year_of_cycle_spec r Hr) as K.
    destruct (year_of_cycle r) as [[l cent] n]. destruct K as (-> & K & ? & ?).
    replace (400 * c + 100 + r + 1900) with (400 * (c + 5) + r) by lia.
    rewrite leap_year_400. f_equal. unfold day_number. simpl.
    replace (400 * (c + 5) + r - 1) with (400 * (c + 5) + (r - 1)) by lia.
    rewrite leap_days_400, <- K. change (leap_days 1969) with 477.
    pose proof (b2z_cases (leap_year r)) as B. rewrite s32_id by lia.
    unfold s64. rewrite swrap_id; [lia|lia|]. change (2 ^ (64 - 1)) with 9223372036854775808. lia.
Qed.

(** The date a month counted from January of a year falls in. *)
Lemma month_norm y m :
  -2147483648 <= m < 2147483648 ->
  (if (12 <=? m) || (m <? 0) then
     let adj := Z.quot m 12 in
     let month := Z.rem m 12 in
     let (adj, month) := if month <? 0 then (adj - 1, month + 12) else (adj, month) in
     (y + adj, month)
   else (y, m)) = (y + m / 12, m mod 12).
Proof.
  intros Hm. cbv zeta. destruct ((12 <=? m) || (m <? 0)) eqn:E.
  - destruct (Z.ltb_spec (Z.rem m 12) 0); f_equal; 
      Z.quot_rem_to_equations; Z.div_mod_to_equations; lia.
  - rewrite Z.mod_small, Z.div_small by lia. f_equal. lia.
Qed.

Lemma month_to_secs_ok y m :
  0 <= m < 12 ->
  month_to_secs m (Z.b2z (leap_year y)) =
  Some (86400 * (day_number y m 1 - day_number y 0 1)).
Proof.
  intros Hm. unfold day_number. 
  replace (_ - _) with (month_start m + (if 2 <=? m then Z.b2z (leap_year y) else 0)).
  - months Hm; destruct (leap_year y); reflexivity.
  - simpl. lia.
Qed.

Definition is_int (x : Z) : Prop := -2147483648 <= x < 2147483648.

(** The fields of a [struct tm] are [int]s; the sum of days is one too. *)
Definition tm_ints (t : tm) : Prop :=
  is_int (tm_sec t) /\ is_int (tm_min t) /\ is_int (tm_hour t) /\ is_int (tm_mday t - 1) /\
  is_int (tm_mon t) /\ is_int (tm_year t).

Lemma leap_days_bound y : -4294969396 <= y <= 4294969396 -> Z.abs (leap_days y) <= 1100000000.
Proof. unfold leap_days. intros. Z.div_mod_to_equations. lia. Qed.

Lemma tm_to_secs_ok t :
  tm_ints t ->
  tm_to_secs t =
  Some (86400 * (day_number (tm_year t + tm_mon t / 12 + 1900) (tm_mon t mod 12) 1 + tm_mday t - 1) +
        3600 * tm_hour t + 60 * tm_min t + tm_sec t).
Proof.
  intros (Hs & Hmi & Hh & Hd & Hmo & Hy). unfold is_int in *. unfold tm_to_secs.
  rewrite month_norm by done.
  assert (Hq : -178956971 <= tm_mon t / 12 <= 178956970) by (Z.div_mod_to_equations; lia).
  rewrite year_to_secs_ok by lia.
  pose proof (Z.mod_pos_bound (tm_mon t) 12 ltac:(lia)) as Hm.
  rewrite month_to_secs_ok by done. simpl. f_equal. rewrite (s32_id (tm_mday t - 1)) by lia.
  unfold s64. rewrite swrap_id; [lia|lia|]. change (2 ^ (64 - 1)) with 9223372036854775808.
  unfold day_number. simpl.
  pose proof (leap_days_bound (tm_year t + tm_mon t / 12 + 1900 - 1) ltac:(lia)).
  change (leap_days 1969) with 477.
  months Hm; simpl; pose proof (b2z_cases (leap_year (tm_year t + tm_mon t / 12 + 1900))); lia.
Qed.

(** ** [__secs_to_tm] *)

(** The start of a month of the year that begins in March. *)
Definition march_start (m : Z) : Z :=
  match m with
  | 0 => 0 | 1 => 31 | 2 => 61 | 3 => 92 | 4 => 122 | 5 => 153
  | 6 => 184 | 7 => 214 | 8 => 245 | 9 => 275 | 10 => 306 | _ => 337
  end.

Lemma months_loop_ok r :
  0 <= r <= 365 ->
  exists m d, months_loop days_in_month 0 r = Some (m, d) /\ 0 <= m < 12 /\
    r = march_start m + d /\ 0 <= d /\
    d < (if m =? 11 then 29 else if (m =? 1) || (m =? 3) || (m =? 6) || (m =? 8) then 30 else 31).
Proof.
  intros Hr.
  assert (K : forall r, 0 <= r < 0 + 366 ->
    match months_loop days_in_month 0 r with
    | Some (m, d) =>
        (0 <=? m) && (m <? 12) && (r =? march_start m + d) && (0 <=? d) &&
        (d <? (if m =? 11 then 29 else if (m =? 1) || (m =? 3) || (m =? 6) || (m =? 8) then 30 else 31))
    | None => false
    end = true) by (apply forall_range; vm_compute; reflexivity).
  specialize (K r ltac:(lia)). destruct (months_loop _ _ _) as [[m d]|]; [|done].
  rewrite !andb_true_iff, !Z.ltb_lt, !Z.leb_le, Z.eqb_eq in K. exists m, d. tauto.
Qed.

(** The year that begins in March, from the cycles of the code. *)
Definition cycle_years (qc c q y : Z) : Z := y + 4 * q + 100 * c + 400 * qc.

Section Cycles.
Context (qc c q y r : Z).
Context (Hc : 0 <= c < 4) (Hq : 0 <= q < 25) (Hy : 0 <= y < 4) (Hr : 0 <= r <= 365).
Context (Hlast : r = 365 -> y = 3 /\ (q < 24 \/ c = 3)).
Local Abbreviation years := (cycle_years qc c q y).

Lemma cycle_leap_days : leap_days (2000 + years) = 485 + 97 * qc + 24 * c + q.
Proof. unfold leap_days, cycle_years. Z.div_mod_to_equations. lia. Qed.

Lemma cycle_leap :
  leap_year (2000 + years) = (y =? 0) && (negb (q =? 0) || (c =? 0)).
Proof.
  pose proof (leap_days_step (2000 + years)) as E. rewrite cycle_leap_days in E.
  revert E. unfold leap_days, cycle_years.
  destruct (leap_year _), (Z.eqb_spec y 0), (Z.eqb_spec q 0), (Z.eqb_spec c 0);
    simpl; try done; Z.div_mod_to_equations; lia.
Qed.

Lemma cycle_feb29 : r = 365 -> leap_year (2001 + years) = true.
Proof.
  intros E. destruct (Hlast E) as [Ey Hn].
  pose proof (leap_days_step (2001 + years)) as S.
  replace (2001 + years - 1) with (2000 + years) in S by lia. rewrite cycle_leap_days in S.
  revert S. unfold leap_days, cycle_years. destruct (leap_year _); simpl; [done|].
  Z.div_mod_to_equations. lia.
Qed.

(** The date of day [r] of that year. *)
Lemma cycle_date m d :
  0 <= m < 12 -> r = march_start m + d -> 0 <= d ->
  d < (if m =? 11 then 29 else if (m =? 1) || (m =? 3) || (m =? 6) || (m =? 8) then 30 else 31) ->
  let leap := Z.b2z (leap_year (2000 + years)) in
  let yday := r + 31 + 28 + leap in
  let yday := if 365 + leap <=? yday then yday - (365 + leap) else yday in
  exists M Y, (if 10 <=? m then (m - 12, years + 1) else (m, years)) = (M, Y) /\
    valid_date (Y + 2000) (M + 2) (d + 1) /\
    day_number (Y + 2000) (M + 2) (d + 1) = 146097 * qc + 36524 * c + 1461 * q + 365 * y + r + 11017 /\
    yday = day_number (Y + 2000) (M + 2) (d + 1) - day_number (Y + 2000) 0 1.
Proof.
  intros Hm Er Hd0 Hd leap yday0 yday. pose proof cycle_leap_days as L.
  pose proof (leap_days_step (2000 + years)) as S. pose proof cycle_feb29 as F.
  pose proof (b2z_cases (leap_year (2000 + years))) as B. 
  assert (EL : Z.b2z (leap_year (2000 + years)) = leap) by done. rewrite EL in S, B. clearbody leap.
  subst yday yday0.
  destruct (Z.leb_spec 10 m).
  - exists (m - 12), (years + 1). split; [done|].
    replace (years + 1 + 2000) with (2001 + years) by lia.
    unfold valid_date, day_number. replace (2001 + years - 1) with (2000 + years) by lia.
    change (leap_days 1969) with 477.
    assert (M : m = 10 \/ m = 11) by lia.
    destruct M as [-> | ->]; unfold month_days; simpl in *;
      destruct (leap_year (2001 + years)); simpl;
      (destruct (Z.leb_spec (365 + leap) (r + 31 + 28 + leap)); [|lia]);
      unfold cycle_years in *; repeat split; try lia.
  - exists m, years. split; [done|].
    replace (years + 2000) with (2000 + years) by lia.
    unfold valid_date, day_number. change (leap_days 1969) with 477. rewrite !EL.
    destruct (Z.leb_spec (365 + leap) (r + 31 + 28 + leap)).
    + exfalso. months Hm; simpl in *; lia.
    + months Hm; try lia; unfold month_days; simpl in *; unfold cycle_years in *; repeat split; lia.
Qed.
End Cycles.

(** A valid broken-down time: its date exists and its clock runs from 0:00:00
    to 23:59:59. *)
Definition valid_tm (t : tm) : Prop :=
  valid_date (tm_year t + 1900) (tm_mon t) (tm_mday t) /\
  0 <= tm_hour t < 24 /\ 0 <= tm_min t < 60 /\ 0 <= tm_sec t < 60.

(** The second a valid time denotes, counted from 1 January 1970. *)
Definition tm_second (t : tm) : Z :=
  86400 * day_number (tm_year t + 1900) (tm_mon t) (tm_mday t) +
  3600 * tm_hour t + 60 * tm_min t + tm_sec t.

(** The derived fields: 1 January 1970 was a Thursday. *)
Definition derived_ok (t : tm) : Prop :=
  let n := day_number (tm_year t + 1900) (tm_mon t) (tm_mday t) in
  tm_wday t = (n + 4) mod 7 /\ tm_yday t = n - day_number (tm_year t + 1900) 0 1.

(** The fields computed for second [t], before the check that the year is
    an [int]. *)
Lemma secs_to_tm_fields t old :
  INT_MIN * 31622400 <= t <= INT_MAX * 31622400 ->
  exists new, valid_tm new /\ tm_second new = t /\ derived_ok new /\
    tm_isdst new = tm_isdst old /\ tm_gmtoff new = tm_gmtoff old /\ tm_zone new = tm_zone old /\
    secs_to_tm t old =
    Some (if (INT_MAX <? tm_year new) || (tm_year new <? INT_MIN) then None else Some new).
Proof.
  unfold secs_to_tm, INT_MAX, INT_MIN. intros Ht.
  rewrite (proj2 (Z.ltb_ge _ _) (proj1 Ht)), (proj2 (Z.ltb_ge _ _) (proj2 Ht)). simpl orb.
  cbv iota. unfold s64.
  rewrite swrap_id by (change (2 ^ (64 - 1)) with 9223372036854775808; unfold LEAPOCH; lia).
  assert (E1 : exists days rs, 0 <= rs < 86400 /\ t - LEAPOCH = 86400 * days + rs /\
    (if Z.rem (t - LEAPOCH) 86400 <? 0
     then (Z.rem (t - LEAPOCH) 86400 + 86400, Z.quot (t - LEAPOCH) 86400 - 1)
     else (Z.rem (t - LEAPOCH) 86400, Z.quot (t - LEAPOCH) 86400)) = (rs, days)).
  { destruct (Z.ltb_spec (Z.rem (t - LEAPOCH) 86400) 0); eexists _, _;
      (split; [|split; [|reflexivity]]); Z.quot_rem_to_equations; lia. }
  destruct E1 as (days & rs & Hrs & Ht' & ->). cbv zeta.
  assert (Hdays : -800000000000 <= days <= 800000000000) by (unfold LEAPOCH in *; lia).
  assert (Ew : (if Z.rem (3 + days) 7 <? 0 then Z.rem (3 + days) 7 + 7 else Z.rem (3 + days) 7) =
    (3 + days) mod 7).
  { destruct (Z.ltb_spec (Z.rem (3 + days) 7) 0);
      Z.quot_rem_to_equations; Z.div_mod_to_equations; lia. }
  rewrite Ew. clear Ew.
  assert (E2 : exists qc r, 0 <= r < 146097 /\ days = 146097 * qc + r /\
    (if Z.rem days DAYS_PER_400Y <? 0
     then (Z.rem days DAYS_PER_400Y + DAYS_PER_400Y, s32 (Z.quot days DAYS_PER_400Y) - 1)
     else (Z.rem days DAYS_PER_400Y, s32 (Z.quot days DAYS_PER_400Y))) = (r, qc)).
  { change DAYS_PER_400Y with 146097. rewrite s32_id by (Z.quot_rem_to_equations; lia).
    destruct (Z.ltb_spec (Z.rem days 146097) 0); eexists _, _;
      (split; [|split; [|reflexivity]]); Z.quot_rem_to_equations; lia. }
  destruct E2 as (qc & r & Hr & Hdq & ->).
  change DAYS_PER_100Y with 36524. change DAYS_PER_4Y with 1461.
  set (c := if Z.quot r 36524 =? 4 then Z.quot r 36524 - 1 else Z.quot r 36524).
  assert (Hc : 0 <= c < 4 /\ 0 <= r - c * 36524 <= 36524 /\ (r - c * 36524 = 36524 -> c = 3)).
  { unfold c. destruct (Z.eqb_spec (Z.quot r 36524) 4); Z.quot_rem_to_equations; lia. }
  clearbody c. set (r1 := r - c * 36524) in *.
  set (q := if Z.quot r1 1461 =? 25 then Z.quot r1 1461 - 1 else Z.quot r1 1461).
  assert (Hq : 0 <= q < 25 /\ 0 <= r1 - q * 1461 <= 1460 /\
    (r1 - q * 1461 = 1460 -> q < 24 \/ c = 3)).
  { unfold q. destruct (Z.eqb_spec (Z.quot r1 1461) 25); Z.quot_rem_to_equations; lia. }
  clearbody q. set (r2 := r1 - q * 1461) in *.
  set (y := if Z.quot r2 365 =? 4 then Z.quot r2 365 - 1 else Z.quot r2 365).
  assert (Hy : 0 <= y < 4 /\ 0 <= r2 - y * 365 <= 365 /\ (r2 - y * 365 = 365 -> y = 3 /\ r2 = 1460)).
  { unfold y. destruct (Z.eqb_spec (Z.quot r2 365) 4); Z.quot_rem_to_equations; lia. }
  clearbody y. set (r3 := r2 - y * 365) in *.
  destruct (months_loop_ok r3) as (m & d & -> & Hm & Er & Hd0 & Hd); [lia|].
  rewrite <- (cycle_leap qc c q y r3) by lia.
  destruct (cycle_date qc c q y r3 ltac:(lia) ltac:(lia) ltac:(lia) ltac:(lia) ltac:(lia) m d Hm Er Hd0 Hd)
    as (M & Y & EMY & Hv & Hn & Hyd). cbv zeta in Hyd.
  unfold cycle_years in EMY. cbn [mbind option_bind]. rewrite EMY.
  set (yd := if 365 + _ <=? _ then _ else _) in *.
  change (y + 4 * q + 100 * c + 400 * qc) with (cycle_years qc c q y). fold yd. clearbody yd.
  exists (mkTm (Z.rem rs 60) (Z.rem (Z.quot rs 60) 60) (Z.quot rs 3600) (d + 1) (M + 2) (Y + 100)
    ((3 + days) mod 7) yd (tm_isdst old) (tm_gmtoff old) (tm_zone old)).
  unfold valid_tm, tm_second, derived_ok. simpl.
  replace (Y + 100 + 1900) with (Y + 2000) by lia. rewrite Hn, <- Hn.
  split; [split; [done|Z.quot_rem_to_equations; lia]|].
  split; [unfold LEAPOCH in *; Z.quot_rem_to_equations; lia|].
  split; [split; [|done]|done].
  rewrite Hn. replace (146097 * qc + 36524 * c + 1461 * q + 365 * y + r3 + 11017)
    with (days + 11017) by lia. Z.div_mod_to_equations. lia.
Qed.

Lemma tm_second_range t :
  valid_tm t -> is_int (tm_year t) ->
  INT_MIN * 31622400 <= tm_second t <= INT_MAX * 31622400.
Proof.
  intros (Hdate & Hh & Hm & Hs) Hy. pose proof (day_number_year _ _ _ Hdate) as Hdn.
  unfold tm_second, INT_MIN, INT_MAX, is_int in *.
  unfold day_number at 1 4 in Hdn.
  replace (tm_year t + 1900 + 1 - 1) with (tm_year t + 1900) in Hdn by lia.
  change (leap_days 1969) with 477 in Hdn. simpl in Hdn. unfold leap_days in Hdn.
  Z.div_mod_to_equations. lia.
Qed.

(** Valid times that denote the same second agree, with their derived fields
    if those are right. *)
Lemma valid_tm_inj t t' :
  valid_tm t -> valid_tm t' -> tm_second t = tm_second t' ->
  tm_year t = tm_year t' /\ tm_mon t = tm_mon t' /\ tm_mday t = tm_mday t' /\
  tm_hour t = tm_hour t' /\ tm_min t = tm_min t' /\ tm_sec t = tm_sec t'.
Proof.
  unfold tm_second. intros (Hdate & Hh & Hm & Hs) (Hdate' & Hh' & Hm' & Hs') E.
  assert (Hn : day_number (tm_year t + 1900) (tm_mon t) (tm_mday t) =
               day_number (tm_year t' + 1900) (tm_mon t') (tm_mday t')) by lia.
  destruct (day_number_inj _ _ _ _ _ _ Hdate Hdate' Hn) as (Ey & Em & Ed). lia.
Qed.

(** C24: [__secs_to_tm] turns a second into the date and time of the Gregorian
    calendar it belongs to, with the right weekday and day of the year,
    before and after 1970, unless the year does not fit an [int]; and
    [__tm_to_secs] turns them back into that second. *)
Theorem secs_to_tm_correct t old :
  INT_MIN * 31622400 <= t <= INT_MAX * 31622400 ->
  exists new, valid_tm new /\ tm_second new = t /\ derived_ok new /\
    secs_to_tm t old =
      Some (if (INT_MAX <? tm_year new) || (tm_year new <? INT_MIN) then None else Some new) /\
    (is_int (tm_year new) -> tm_to_secs new = Some t).
Proof.
  intros Ht. destruct (secs_to_tm_fields t old Ht) as (new & Hv & Hs & Hd & _ & _ & _ & E).
  exists new. split; [done|]. split; [done|]. split; [done|]. split; [done|]. intros Hy.
  destruct Hv as (Hda & Hh & Hmi & Hsec). pose proof (valid_date_mday _ _ _ Hda).
  destruct Hda as [Hm _].
  rewrite tm_to_secs_ok by (unfold tm_ints, is_int in *; lia).
  rewrite Z.div_small, Z.mod_small by lia. f_equal. rewrite <- Hs. unfold tm_second.
  rewrite Z.add_0_r. unfold day_number. lia.
Qed.

Lemma secs_to_tm_correct_witness :
  exists new, valid_tm new /\ tm_second new = -1 /\ derived_ok new /\
    secs_to_tm (-1) (mkTm 0 0 0 0 0 0 0 0 0 0 0) =
      Some (if (INT_MAX <? tm_year new) || (tm_year new <? INT_MIN) then None else Some new) /\
    (is_int (tm_year new) -> tm_to_secs new = Some (-1)).
Proof. apply secs_to_tm_correct. unfold INT_MIN, INT_MAX. lia. Defined.

(** C25: [timegm] accepts any [int]s: the time it leaves in [*tm] is the valid one
    that denotes the second it returns, with months counted past the year and
    days, hours, minutes and seconds carried over; or that time's year is
    not an [int], and it returns -1 with [EOVERFLOW] and leaves [*tm]
    alone.  A valid time is left as it is, but for the derived fields. *)
Theorem timegm_correct utc t fresh :
  tm_ints t ->
  exists secs,
    secs = 86400 * (day_number (tm_year t + tm_mon t / 12 + 1900) (tm_mon t mod 12) 1 + tm_mday t - 1) +
           3600 * tm_hour t + 60 * tm_min t + tm_sec t /\
    ((exists new, timegm utc t fresh = Some (secs, None, new) /\
        valid_tm new /\ tm_second new = secs /\ derived_ok new /\
        tm_isdst new = 0 /\ tm_gmtoff new = 0 /\ tm_zone new = utc /\
        (valid_tm t -> tm_year new = tm_year t /\ tm_mon new = tm_mon t /\ tm_mday new = tm_mday t /\
           tm_hour new = tm_hour t /\ tm_min new = tm_min t /\ tm_sec new = tm_sec t)) \/
     (timegm utc t fresh = Some (-1, Some EOVERFLOW, t) /\
      forall new, valid_tm new -> tm_second new = secs -> ~ is_int (tm_year new))).
Proof.
  intros Hi. eexists. split; [reflexivity|]. unfold timegm. rewrite tm_to_secs_ok by done.
  set (secs := 86400 * _ + _ + _ + _). cbn [mbind option_bind].
  destruct (decide (INT_MIN * 31622400 <= secs <= INT_MAX * 31622400)) as [Hr|Hr].
  - destruct (secs_to_tm_fields secs fresh Hr) as (new & Hv & Hs & Hd & _ & _ & _ & ->).
    cbn [mbind option_bind]. destruct (_ || _) eqn:E.
    + right. split; [done|]. intros new' Hv' Hs' Hy'.
      destruct (valid_tm_inj new new' Hv Hv' ltac:(congruence)) as (Ey & _).
      unfold is_int, INT_MAX, INT_MIN in *. lia.
    + left. eexists. split; [done|]. unfold valid_tm, tm_second, derived_ok in *. simpl.
      do 6 (split; [done|]). intros Hvt. apply (valid_tm_inj new t Hv Hvt). unfold tm_second. rewrite Hs.
      destruct Hvt as ((Hm & _) & _). unfold secs.
      rewrite Z.div_small, Z.mod_small, Z.add_0_r by lia. unfold day_number. lia.
  - right. unfold secs_to_tm at 1.
    assert ((secs <? INT_MIN * 31622400) || (INT_MAX * 31622400 <? secs) = true) as -> by lia.
    split; [done|]. intros new Hv Hs Hy. apply Hr. rewrite <- Hs. by apply tm_second_range.
Qed.

Lemma timegm_correct_witness :
  let t := mkTm 70 0 0 31 13 122 0 0 0 0 0 in
  exists secs,
    secs = 86400 * (day_number (122 + 13 / 12 + 1900) (13 mod 12) 1 + 31 - 1) +
           3600 * 0 + 60 * 0 + 70 /\
    ((exists new, timegm 64 t t = Some (secs, None, new) /\
        valid_tm new /\ tm_second new = secs /\ derived_ok new /\
        tm_isdst new = 0 /\ tm_gmtoff new = 0 /\ tm_zone new = 64 /\
        (valid_tm t -> tm_year new = 122 /\ tm_mon new = 13 /\ tm_mday new = 31 /\
           tm_hour new = 0 /\ tm_min new = 0 /\ tm_sec new = 70)) \/
     (timegm 64 t t = Some (-1, Some EOVERFLOW, t) /\
      forall new, valid_tm new -> tm_second new = secs -> ~ is_int (tm_year new))).
Proof.
  apply (timegm_correct 64 (mkTm 70 0 0 31 13 122 0 0 0 0 0)).
  unfold tm_ints, is_int. simpl. lia.
Defined.

(** ** Weekdays and days of the year *)

Lemma month12_cases m :
  1 <= m <= 12 -> m = 1 \/ m = 2 \/ m = 3 \/ m = 4 \/ m = 5 \/ m = 6 \/
  m = 7 \/ m = 8 \/ m = 9 \/ m = 10 \/ m = 11 \/ m = 12.
Proof. lia. Qed.
Ltac months12 H := apply month12_cases in H;
  destruct H as [->|[->|[->|[->|[->|[->|[->|[->|[->|[->|[->| ->]]]]]]]]]]].

Lemma leap_days_quot y :
  0 <= y -> Z.quot y 4 - Z.quot y 100 + Z.quot y 400 = leap_days y.
Proof. intros. unfold leap_days. rewrite !Z.quot_div_nonneg by lia. done. Qed.

(** [__calculate_days_per_date] counts the days of the calendar from a fixed
    one on. *)
Lemma days_per_date_ok year month day :
  1 <= year <= 5000000 -> 1 <= month <= 12 -> 0 <= day <= 1000 ->
  calculate_days_per_date year month day = day_number year (month - 1) day + 719468.
Proof.
  intros Hy Hm Hd. unfold calculate_days_per_date, day_number.
  change (leap_days 1969) with 477. cbv zeta.
  set (Y := year - 1 + Z.quot (month + 9) 12).
  assert (HY : Y = if month <=? 2 then year - 1 else year).
  { unfold Y. destruct (Z.leb_spec month 2); Z.quot_rem_to_equations; lia. }
  assert (0 <= Y <= 5000000) by (destruct (Z.leb_spec month 2); lia).
  pose proof (leap_days_quot Y ltac:(lia)) as Q. 
  assert (0 <= leap_days Y <= 2000000) by (unfold leap_days; clear HY Q; clearbody Y; Z.div_mod_to_equations; lia).
  rewrite (s32_id (Y * 365)) by lia.
  assert (HM : 0 <= Z.quot (Z.rem (month + 9) 12 * 306 + 5) 10 <= 400)
    by (Z.quot_rem_to_equations; lia).
  rewrite s32_id by lia.
  replace (Y * 365 + Z.quot Y 4 - Z.quot Y 100 + Z.quot Y 400)
    with (365 * Y + leap_days Y) by lia.
  rewrite HY. pose proof (leap_days_step year). clear Q HM.
  months12 Hm; simpl; match goal with |- context [Z.quot ?a 10] =>
    let v := eval vm_compute in (Z.quot a 10) in change (Z.quot a 10) with v end; lia.
Qed.

(** The leap days of the Julian calendar the Gregorian one drops from 1900 to
    the year. *)
Definition skipped_leaps (year : Z) : Z := (year / 100 - 19) - (year / 400 - 4).

(** [__calculate_weekday] gives the weekday, Sunday being 0, of every date
    from 1900 to 2099; from 2100 on, where it still counts every fourth year
    as a leap year, it is too late by the number of leap days skipped. *)
Theorem calculate_weekday_correct year month day :
  1900 <= year < 100000000 -> valid_date year (month - 1) day ->
  calculate_weekday year month day =
    Some ((day_number year (month - 1) day + 4 + skipped_leaps year) mod 7) /\
  (year < 2100 -> skipped_leaps year = 0) /\ (2100 <= year -> 1 <= skipped_leaps year).
Proof.
  intros Hy [Hm Hd]. split; [|unfold skipped_leaps; Z.div_mod_to_equations; lia]. unfold calculate_weekday, day_number. change (leap_days 1969) with 477.
  assert (Hadj : (if negb (Z.rem year 4 =? 0) then 0 else if Z.rem year 400 =? 0 then 1
             else if Z.rem year 100 =? 0 then 0 else 1) = Z.b2z (leap_year year)).
  { rewrite !Z.rem_mod_nonneg by lia. unfold leap_year.
    destruct (Z.eqb_spec (year mod 4) 0), (Z.eqb_spec (year mod 100) 0),
      (Z.eqb_spec (year mod 400) 0); simpl; try done; Z.div_mod_to_equations; lia. }
  rewrite Hadj, Z.quot_div_nonneg by lia.
  assert (Hk : leap_days year = 460 + (year - 1900) / 4 - skipped_leaps year)
    by (unfold leap_days, skipped_leaps; Z.div_mod_to_equations; lia).
  pose proof (leap_days_step year) as S. pose proof (b2z_cases (leap_year year)) as B.
  replace (leap_days (year - 1)) with (460 + (year - 1900) / 4 - skipped_leaps year - Z.b2z (leap_year year)) by lia.
  clear Hk S Hadj. revert Hd. generalize (Z.b2z (leap_year year)) B. intros L BL Hd. clear B.
  assert (HL : 0 <= L <= 1) by lia. clear BL.
  assert (0 <= (year - 1900) / 4) by (apply Z.div_pos; lia).
  set (K := (year - 1900) / 4) in *. clearbody K.
  generalize (skipped_leaps year). intros J.
  assert (Hm' : 1 <= month <= 12) by lia. clear Hm.
  months12 Hm'; simpl; f_equal; rewrite Z.rem_mod_nonneg by lia; Z.div_mod_to_equations; lia.
Qed.

Lemma calculate_weekday_correct_witness :
  calculate_weekday 2024 2 29 = Some ((day_number 2024 1 29 + 4) mod 7) /\
  calculate_weekday 2100 3 1 = Some ((day_number 2100 2 1 + 4 + 1) mod 7).
Proof.
  split.
  - apply (calculate_weekday_correct 2024 2 29); [lia|].
    split; [lia|]. change (month_days 2024 (2 - 1)) with 29. lia.
  - apply (calculate_weekday_correct 2100 3 1); [lia|].
    split; [lia|]. change (month_days 2100 (3 - 1)) with 31. lia.
Defined.


(** ** Date stamps *)

Definition ds_valid (ds : DateStamp) : Prop :=
  0 <= ds_Days ds /\ 0 <= ds_Minute ds < 1440 /\ 0 <= ds_Tick ds < 3000 /\
  ds_Tick ds mod 50 = 0.

Lemma s32_mod x y : x mod 4294967296 = y mod 4294967296 -> s32 x = s32 y.
Proof.
  intros E. unfold s32. rewrite (Z.add_mod x), (Z.add_mod y), E by lia. done.
Qed.

Lemma s32_congr x : s32 x mod 4294967296 = x mod 4294967296.
Proof.
  unfold s32. replace ((x + 2147483648) mod 4294967296 - 2147483648)
    with (x - (x + 2147483648) / 4294967296 * 4294967296) by (Z.div_mod_to_equations; lia).
  rewrite Zminus_mod, Z_mod_mult, Z.sub_0_r. apply Z.mod_mod. lia.
Qed.

(** The stamp of a time: the days, minutes and ticks since 1 January 1978 of
    the local second. *)
Lemma datestamp_of_time gmt t :
  let off := match gmt with Some off => 60 * off | None => 0 end in
  let v := t - 252460800 - off in
  -100000 <= off <= 100000 -> 0 <= v < 86400 * 2147483648 ->
  convert_time_to_datestamp gmt t =
  {| ds_Days := v / 86400; ds_Minute := v mod 86400 / 60; ds_Tick := v mod 60 * 50 |}.
Proof.
  intros off v Hoff Ht. unfold convert_time_to_datestamp, UNIX_TIME_OFFSET, TICKS_PER_SECOND, s64.
  change (24 * 60 * 60) with 86400. cbv zeta.
  assert (Hv : match gmt with
    | Some off => swrap 64 (swrap 64 (t - 252460800) - s32 (60 * off))
    | None => swrap 64 (t - 252460800) end = v).
  { pose proof (swrap_id 64 (t - 252460800)) as W1. pose proof (swrap_id 64 v) as W2.
    change (2 ^ (64 - 1)) with 9223372036854775808 in W1, W2.
    destruct gmt as [o|]; subst off; [rewrite s32_id by lia; rewrite W1 by lia; apply W2; lia|].
    rewrite W1 by lia. lia. }
  rewrite Hv. clearbody v. pose proof (Z.mod_pos_bound v 86400 ltac:(lia)).
  rewrite (Z.quot_div_nonneg v), !(Z.rem_mod_nonneg v) by lia.
  rewrite (Z.quot_div_nonneg (v mod 86400)) by lia.
  f_equal; rewrite s32_id; Z.div_mod_to_equations; lia.
Qed.

(** [UNIX_TIME_OFFSET] is the Unix time of 1 January 1978.  A date stamp
    made from a time is valid, and converting it back gives the local second
    as a signed 32-bit number, shifted by the offset: the time itself while
    the local second is below 2^31, and a time 2^32 seconds earlier from 19
    January 2038 on, although [time_t] has 64 bits. *)
Theorem datestamp_roundtrip gmt t :
  let off := match gmt with Some off => 60 * off | None => 0 end in
  -100000 <= off <= 100000 ->
  UNIX_TIME_OFFSET <= t - off < 86400 * 2147483648 ->
  UNIX_TIME_OFFSET = 86400 * day_number 1978 0 1 /\
  ds_valid (convert_time_to_datestamp gmt t) /\
  convert_datestamp_to_time gmt (convert_time_to_datestamp gmt t) = s32 (t - off) + off /\
  (t - off < 2147483648 -> s32 (t - off) + off = t) /\
  (2147483648 <= t - off < 4294967296 -> s32 (t - off) + off = t - 4294967296).
Proof.
  intros off Hoff Ht. split; [reflexivity|]. unfold UNIX_TIME_OFFSET in *.
  rewrite datestamp_of_time by (fold off; lia). fold off.
  set (v := t - 252460800 - off) in *. assert (Hv : 0 <= v) by lia.
  split; [unfold ds_valid; simpl; clearbody v; Z.div_mod_to_equations; lia|]. split.
  - unfold convert_datestamp_to_time, UNIX_TIME_OFFSET, TICKS_PER_SECOND, s64.
    cbn [ds_Days ds_Minute ds_Tick]. change (24 * 60 * 60) with 86400.
    rewrite Z.quot_div_nonneg by (clearbody v; Z.div_mod_to_equations; lia).
    rewrite Z.div_mul by lia.
    rewrite (s32_mod _ (t - off)).
    + destruct gmt; subst off; [|lia]. rewrite (s32_id (60 * z)) by lia.
      pose proof (s32_range (t - 60 * z)).
      rewrite swrap_id; change (2 ^ (64 - 1)) with 9223372036854775808; lia.
    + replace (t - off) with (252460800 + v / 86400 * 86400 + v mod 86400 / 60 * 60 + v mod 60)
        by (unfold v; clearbody off; Z.div_mod_to_equations; lia).
      set (A := v / 86400 * 86400). set (B := v mod 86400 / 60 * 60).
      pose proof (s32_congr A) as EA. pose proof (s32_congr B) as EB.
      rewrite (Z.add_mod (252460800 + s32 A + s32 B)), (Z.add_mod (252460800 + s32 A)),
        (Z.add_mod 252460800), EA, EB by lia.
      by rewrite <- (Z.add_mod 252460800), <- (Z.add_mod (252460800 + A)),
        <- (Z.add_mod (252460800 + A + B)) by lia.
  - split; intros; [rewrite s32_id; lia|].
    rewrite (s32_mod _ (t - off - 4294967296)); [rewrite s32_id; lia|].
    replace (t - off) with (t - off - 4294967296 + 1 * 4294967296) at 1 by lia. apply Z_mod_plus_full.
Qed.

Lemma datestamp_roundtrip_witness :
  convert_datestamp_to_time (Some (-60)) (convert_time_to_datestamp (Some (-60)) 1700000000) =
  1700000000 /\
  convert_datestamp_to_time None (convert_time_to_datestamp None 2147483648) = -2147483648.
Proof.
  destruct (datestamp_roundtrip (Some (-60)) 1700000000) as (_ & _ & E & _);
    [lia|unfold UNIX_TIME_OFFSET; lia|].
  destruct (datestamp_roundtrip None 2147483648) as (_ & _ & E' & _);
    [lia|unfold UNIX_TIME_OFFSET; lia|].
  split; [exact E|exact E'].
Defined.

(** ** Local time

    What utility.library promises: its dates are those of the calendar,
    counted in seconds from 1 January 1978. *)

Definition clock_second (c : ClockData) : Z :=
  86400 * (day_number (cd_year c) (cd_month c - 1) (cd_mday c) - day_number 1978 0 1) +
  3600 * cd_hour c + 60 * cd_min c + cd_sec c.

Definition clock_valid (c : ClockData) : Prop :=
  valid_date (cd_year c) (cd_month c - 1) (cd_mday c) /\
  0 <= cd_hour c < 24 /\ 0 <= cd_min c < 60 /\ 0 <= cd_sec c < 60.

Class ClockLaws `(Clock) : Prop := {
  Amiga2Date_valid s : is_u32 s -> clock_valid (Amiga2Date s);
  Amiga2Date_second s : is_u32 s -> clock_second (Amiga2Date s) = s;
  Amiga2Date_wday s : is_u32 s ->
    cd_wday (Amiga2Date s) =
    (day_number (cd_year (Amiga2Date s)) (cd_month (Amiga2Date s) - 1) (cd_mday (Amiga2Date s)) + 4) mod 7;
  Date2Amiga_second c : clock_valid c -> is_u32 (clock_second c) -> Date2Amiga c = clock_second c;
}.

Section LocalProofs.
Context `{ClockLaws}.

(** The seconds [localtime_r] and [gmtime_r] add for daylight saving. *)
Definition dst_secs : Z := if is_dst then 3600 else 0.

Lemma convert_time_ok t off :
  UNIX_TIME_OFFSET <= t < 4294967296 ->
  0 <= t - UNIX_TIME_OFFSET - off ->
  t - UNIX_TIME_OFFSET - off + 3600 < 4294967296 ->
  let new := convert_time t off in
  valid_tm new /\ derived_ok new /\ tm_second new = t - off + dst_secs.
Proof.
  intros Ht H1 H2 new. unfold new, convert_time.
  destruct (Z.ltb_spec t UNIX_TIME_OFFSET); [lia|].
  rewrite (u32_id (t - UNIX_TIME_OFFSET - off)) by lia.
  assert (E : (if is_dst then u32 (t - UNIX_TIME_OFFSET - off + 60 * 60)
               else t - UNIX_TIME_OFFSET - off) = t - UNIX_TIME_OFFSET - off + dst_secs).
  { unfold dst_secs. destruct is_dst; [apply u32_id|]; lia. }
  rewrite E. set (s := t - UNIX_TIME_OFFSET - off + dst_secs) in *.
  assert (Hs : is_u32 s) by (unfold s, dst_secs, is_u32; destruct is_dst; lia).
  pose proof (Amiga2Date_valid s Hs) as (Hd & Hh & Hmi & Hse).
  pose proof (Amiga2Date_second s Hs) as Hsec. pose proof (Amiga2Date_wday s Hs) as Hw.
  set (c := Amiga2Date s) in *. clearbody c.
  unfold clock_second in Hsec. change (day_number 1978 0 1) with 2922 in Hsec.
  pose proof (day_number_year _ _ _ Hd) as Hyear.
  assert (Hy : 1978 <= cd_year c <= 2116).
  { unfold is_u32 in *. unfold day_number at 1 4 in Hyear.
    change (leap_days 1969) with 477 in Hyear.
    simpl in Hyear. unfold leap_days in Hyear. Z.div_mod_to_equations. lia. }
  pose proof (valid_date_mday _ _ _ Hd). destruct Hd as [Hm Hd].
  unfold valid_tm, derived_ok, tm_second, valid_date. simpl.
  replace (cd_year c - 1900 + 1900) with (cd_year c) by lia.
  split; [by repeat split; try lia|]. split.
  - split; [done|]. rewrite !days_per_date_ok by lia. replace (1 - 1) with 0 by lia. lia.
  - unfold s, UNIX_TIME_OFFSET in *. lia.
Qed.

(** The offset of local time from UTC, in seconds to the west. *)
Definition west : Z := match gmt_offset with Some off => 60 * off | None => 0 end.

Lemma localtime_r_ok t :
  -100000 <= west <= 100000 ->
  UNIX_TIME_OFFSET <= t < 4294967296 -> 0 <= t - UNIX_TIME_OFFSET - west ->
  t - UNIX_TIME_OFFSET - west + 3600 < 4294967296 ->
  exists new, localtime_r (Some t) true = inr new /\ valid_tm new /\ derived_ok new /\
    tm_second new = t - west + dst_secs.
Proof.
  intros Hw Ht H1 H2. eexists. split; [reflexivity|].
  assert (E : match gmt_offset with Some off => s32 (60 * off) | None => 0 end = west)
    by (unfold west in *; destruct gmt_offset; [apply s32_id; lia|done]).
  rewrite E, u32_id by (unfold UNIX_TIME_OFFSET in *; lia). by apply convert_time_ok.
Qed.

(** [localtime_r] gives the valid broken-down time of the second [t] in local
    time, weekday and day of the year included; [gmtime_r] that in UTC,
    but both an hour later while daylight saving is on; null pointers are
    [EFAULT]. *)
Theorem localtime_gmtime_correct t :
  -100000 <= west <= 100000 ->
  UNIX_TIME_OFFSET <= t < 4294967296 -> 0 <= t - UNIX_TIME_OFFSET - west ->
  t - UNIX_TIME_OFFSET - west + 3600 < 4294967296 ->
  (exists new, localtime_r (Some t) true = inr new /\ valid_tm new /\ derived_ok new /\
     tm_second new = t - west + dst_secs) /\
  (exists new, gmtime_r (Some t) true = inr new /\ valid_tm new /\ derived_ok new /\
     tm_second new = t + dst_secs) /\
  localtime_r None true = inl EFAULT /\ gmtime_r (Some t) false = inl EFAULT.
Proof.
  intros. split; [by apply localtime_r_ok|]. split; [|done].
  eexists. split; [reflexivity|]. rewrite u32_id by (unfold UNIX_TIME_OFFSET in *; lia).
  replace (t + dst_secs) with (t - 0 + dst_secs) by lia.
  apply convert_time_ok; unfold UNIX_TIME_OFFSET in *; lia.
Qed.

(** [mktime] inverts local time: for a valid time in range, whatever its
    derived fields, it returns the second in UTC and leaves a valid time in
    [*tm], the same one unless daylight saving is on, when it is an hour
    later; a time before 1978 is -1. *)
Theorem mktime_correct t :
  valid_tm t -> is_int (tm_year t) ->
  -100000 <= west <= 100000 ->
  UNIX_TIME_OFFSET <= tm_second t -> UNIX_TIME_OFFSET <= tm_second t + west ->
  tm_second t + west + 3600 < 4294967296 -> tm_second t + 3600 < 4294967296 ->
  exists new, mktime (Some t) = (tm_second t + west, None, Some new) /\
    valid_tm new /\ derived_ok new /\ tm_second new = tm_second t + dst_secs.
Proof.
  intros Hv Hi Hw H1 H2 H3 H4. pose proof Hv as ((Hm & Hd) & Hh & Hmi & Hs).
  destruct (localtime_r_ok (tm_second t + west)) as (new & El & Hv' & Hd' & Hs');
    [done|lia|lia|unfold UNIX_TIME_OFFSET; lia|].
  exists new. split; [|split; [done|split; [done|lia]]]. unfold mktime.
  pose proof (day_number_year _ _ _ (conj Hm Hd)) as Hyear.
  pose proof (valid_date_mday _ _ _ (conj Hm Hd)) as Hd31.
  assert (Hy : 78 <= tm_year t <= 216).
  { unfold tm_second, UNIX_TIME_OFFSET in *. unfold day_number at 1 4 in Hyear.
    change (leap_days 1969) with 477 in Hyear. simpl in Hyear. unfold leap_days in Hyear.
    Z.div_mod_to_equations. lia. }
  assert ((tm_mon t + 1 <? 0) || (12 <? tm_mon t + 1) = false) as -> by lia.
  rewrite (proj2 (Z.ltb_ge (tm_mon t + 1) 1)) by lia.
  rewrite (proj2 (Z.ltb_ge (tm_year t + 1900) 1978)) by lia.
  rewrite (Z.mod_small (tm_mon t + 1)), (Z.mod_small (tm_year t + 1900)) by lia.
  set (c := mkClock _ _ _ _ _ _ _).
  assert (Hc : clock_second c + UNIX_TIME_OFFSET =
               86400 * day_number (tm_year t + 1900) (tm_mon t) 1).
  { unfold clock_second, c. simpl. replace (tm_mon t + 1 - 1) with (tm_mon t) by lia.
    change (day_number 1978 0 1) with 2922. unfold UNIX_TIME_OFFSET. lia. }
  assert (Hd1 : day_number (tm_year t + 1900) (tm_mon t) (tm_mday t) =
                day_number (tm_year t + 1900) (tm_mon t) 1 + tm_mday t - 1)
    by (unfold day_number; lia).
  assert (H1978 : 2922 <= day_number (tm_year t + 1900) (tm_mon t) 1).
  { pose proof (day_number_mono 1978 (tm_year t + 1900) ltac:(lia)).
    change (day_number 1978 0 1) with 2922 in *.
    pose proof (day_number_year _ _ _ (valid_first (tm_year t + 1900) _ Hm)). lia. }
  assert (Hcs : clock_second c + (tm_sec t + 60 * (tm_min t + 60 * (tm_hour t + 24 * (tm_mday t - 1)))) =
    tm_second t - UNIX_TIME_OFFSET) by (unfold tm_second; lia).
  rewrite Date2Amiga_second; [|split; [|simpl; lia]|unfold is_u32, tm_second, UNIX_TIME_OFFSET in *; lia].
  2:{ simpl. replace (tm_mon t + 1 - 1) with (tm_mon t) by lia. by apply valid_first. }
  rewrite (s32_id (tm_sec t + _)) by lia. rewrite (proj2 (Z.ltb_ge (tm_sec t + _) 0)) by lia.
  simpl andb. cbv iota. rewrite Hcs, (u32_id (tm_second t - _)) by (unfold UNIX_TIME_OFFSET in *; lia).
  assert (Eg : match gmt_offset with
    | Some off => u32 (tm_second t - UNIX_TIME_OFFSET + 60 * off)
    | None => tm_second t - UNIX_TIME_OFFSET end = tm_second t - UNIX_TIME_OFFSET + west).
  { unfold west, UNIX_TIME_OFFSET in *. destruct gmt_offset; [apply u32_id|]; lia. }
  rewrite Eg, u32_id by (unfold UNIX_TIME_OFFSET in *; lia).
  replace (tm_second t - UNIX_TIME_OFFSET + west + UNIX_TIME_OFFSET) with (tm_second t + west) by lia.
  by rewrite El.
Qed.
End LocalProofs.

(** The interface can be met: a utility.library whose conversion is the one
    above. *)
Definition sample_clock (dst : bool) (gmt : option Z) : Clock := {|
  Date2Amiga := clock_second;
  Amiga2Date s :=
    match secs_to_tm (s + UNIX_TIME_OFFSET) (mkTm 0 0 0 0 0 0 0 0 0 0 0) with
    | Some (Some t) =>
        {| cd_sec := tm_sec t; cd_min := tm_min t; cd_hour := tm_hour t; cd_mday := tm_mday t;
           cd_month := tm_mon t + 1; cd_year := tm_year t + 1900; cd_wday := tm_wday t |}
    | _ => {| cd_sec := 0; cd_min := 0; cd_hour := 0; cd_mday := 1; cd_month := 1;
              cd_year := 1978; cd_wday := 0 |}
    end;
  is_dst := dst; daylight := Z.b2z dst; tzname0 := 0; timezone := 0; gmt_offset := gmt;
|}.

#[export] Instance sample_clock_laws dst gmt : ClockLaws (sample_clock dst gmt).
Proof.
  assert (K : forall s, is_u32 s -> exists t, valid_tm t /\ derived_ok t /\
    tm_second t = s + UNIX_TIME_OFFSET /\
    secs_to_tm (s + UNIX_TIME_OFFSET) (mkTm 0 0 0 0 0 0 0 0 0 0 0) = Some (Some t)).
  { intros s Hs. destruct (secs_to_tm_fields (s + UNIX_TIME_OFFSET) (mkTm 0 0 0 0 0 0 0 0 0 0 0))
      as (t & Hv & Hsec & Hd & _ & _ & _ & E);
      [unfold UNIX_TIME_OFFSET, INT_MIN, INT_MAX, is_u32 in *; lia|].
    exists t. split; [done|]. split; [done|]. split; [done|]. rewrite E. do 2 f_equal.
    pose proof (day_number_year _ _ _ (proj1 Hv)) as Hyear. unfold valid_tm in Hv.
    unfold tm_second, UNIX_TIME_OFFSET, is_u32 in *. unfold day_number at 1 4 in Hyear.
    change (leap_days 1969) with 477 in Hyear. simpl in Hyear. unfold leap_days in Hyear.
    assert (70 <= tm_year t <= 300) by (Z.div_mod_to_equations; lia).
    destruct (Z.ltb_spec INT_MAX (tm_year t)), (Z.ltb_spec (tm_year t) INT_MIN);
      unfold INT_MAX, INT_MIN in *; try lia. done. }
  split; intros s Hs; simpl; try done;
    destruct (K s Hs) as (t & (Hdate & Hh & Hm & Hse) & (Hw & _) & Hsec & ->);
    unfold clock_valid, clock_second; simpl;
    replace (tm_mon t + 1 - 1) with (tm_mon t) by lia; try done.
  unfold tm_second in Hsec. change (day_number 1978 0 1) with 2922.
  unfold UNIX_TIME_OFFSET in *. lia.
Qed.

Lemma localtime_gmtime_correct_witness :
  let C := sample_clock true (Some (-60)) in
  (exists new, @localtime_r C (Some 1700000000) true = inr new /\ valid_tm new /\ derived_ok new /\
     tm_second new = 1700000000 - -3600 + 3600) /\
  (exists new, @gmtime_r C (Some 1700000000) true = inr new /\ valid_tm new /\ derived_ok new /\
     tm_second new = 1700000000 + 3600) /\
  @localtime_r C None true = inl EFAULT /\ @gmtime_r C (Some 1700000000) false = inl EFAULT.
Proof.
  apply (@localtime_gmtime_correct (sample_clock true (Some (-60))) _ 1700000000);
    unfold west, UNIX_TIME_OFFSET; simpl; lia.
Defined.

Lemma mktime_correct_witness :
  let t := mkTm 20 13 22 14 10 123 0 0 0 0 0 in
  exists new, @mktime (sample_clock false (Some 300)) (Some t) =
      (tm_second t + 18000, None, Some new) /\
    valid_tm new /\ derived_ok new /\ tm_second new = tm_second t + 0.
Proof.
  apply (@mktime_correct (sample_clock false (Some 300)) _ (mkTm 20 13 22 14 10 123 0 0 0 0 0));
    [|unfold is_int, west, UNIX_TIME_OFFSET; by vm_compute..].
  unfold valid_tm, valid_date. simpl. change (month_days (123 + 1900) 10) with 30. lia.
Defined.
