(* ===== verification/Sort.v ===== *)
(** * Sorting and searching arrays ([library/stdlib/qsort.c], [bsearch.c],
      [library/search/lfind.c], [lsearch.c])

    The array is bytes in memory; an element is [es] bytes, and the callback
    is a function of the bytes of the two objects its pointers designate. *)

From S2P Require Import Prelude CMem StrScan StrCopy StrFind.
From Stdlib Require Import Permutation Sorted.

(** ** The code *)

Fixpoint load_bytes (p : Z) (n : nat) : M (list Z) :=
  match n with
  | O => ret []
  | S n' => let* b := load8 p in let* l := load_bytes (p + 1) n' in ret (b :: l)
  end.

(** One round of [swapcode] over a type of [w] bytes. *)
Definition swap_body (load : Z -> M Z) (store : Z -> Z -> M unit) (w : Z)
    : Z * Z * Z -> M (Z * Z * Z + unit) := fun '(pi, pj, i) =>
  let* t := load pi in
  let* u := load pj in
  store pi u ;; store pj t ;;
  if 0 <? i - 1 then again (pi + w, pj + w, i - 1) else leave tt.

Definition swapfunc (a b n swaptype : Z) : M unit :=
  if swaptype <=? 1 then loop (swap_body load32 store32 4) (a, b, u32 n / 4)
  else loop (swap_body load8 store8 1) (a, b, n).

Definition SWAPINIT (a es : Z) : Z :=
  if negb (u32 a mod 4 =? 0) || negb (es mod 4 =? 0) then 2 else if es =? 4 then 0 else 1.

Section Code.
Context (cmp : list Z -> list Z -> Z) (es : Z).

(** The call [cmp(p, q)]. *)
Definition compare (p q : Z) : M Z :=
  let* x := load_bytes p (Z.to_nat es) in
  let* y := load_bytes q (Z.to_nat es) in
  ret (cmp x y).

Definition swap (swaptype a b : Z) : M unit :=
  if swaptype =? 0 then
    let* t := load32 a in
    let* u := load32 b in
    store32 a u ;; store32 b t
  else swapfunc a b es swaptype.

Definition vecswap (swaptype a b n : Z) : M unit :=
  if 0 <? n then swapfunc a b n swaptype else ret tt.

Definition med3 (a b c : Z) : M Z :=
  let* r := compare a b in
  if r <? 0 then
    let* r := compare b c in
    if r <? 0 then ret b
    else let* r := compare a c in ret (if r <? 0 then c else a)
  else
    let* r := compare b c in
    if 0 <? r then ret b
    else let* r := compare a c in ret (if r <? 0 then a else c).

(** The insertion sort, inner and outer loop. *)
Definition insert_body (swaptype a : Z) : Z -> M (Z + unit) := fun pl =>
  if a <? pl then
    let* r := compare (pl - es) pl in
    if 0 <? r then swap swaptype pl (pl - es) ;; again (pl - es) else leave tt
  else leave tt.

Definition insertion_body (swaptype a n : Z) : Z -> M (Z + unit) := fun pm =>
  if pm <? a + n * es then loop (insert_body swaptype a) pm ;; again (pm + es) else leave tt.

(** The two scans of the partition: [pa], [pb] and [swap_cnt], and [pc], [pd]
    and [swap_cnt]. *)
Definition up_body (swaptype a pc : Z) : Z * Z * Z -> M (Z * Z * Z + Z * Z * Z) :=
  fun '(pa, pb, swap_cnt) =>
  if pb <=? pc then
    let* r := compare pb a in
    if r <=? 0 then
      if r =? 0 then swap swaptype pa pb ;; again (pa + es, pb + es, 1)
      else again (pa, pb + es, swap_cnt)
    else leave (pa, pb, swap_cnt)
  else leave (pa, pb, swap_cnt).

Definition down_body (swaptype a pb : Z) : Z * Z * Z -> M (Z * Z * Z + Z * Z * Z) :=
  fun '(pc, pd, swap_cnt) =>
  if pb <=? pc then
    let* r := compare pc a in
    if 0 <=? r then
      if r =? 0 then swap swaptype pc pd ;; again (pc - es, pd - es, 1)
      else again (pc - es, pd, swap_cnt)
    else leave (pc, pd, swap_cnt)
  else leave (pc, pd, swap_cnt).

Definition partition_body (swaptype a : Z)
    : Z * Z * Z * Z * Z -> M (Z * Z * Z * Z * Z + Z * Z * Z * Z * Z) :=
  fun '(pa, pb, pc, pd, swap_cnt) =>
  let* (pa, pb, swap_cnt) := loop (up_body swaptype a pc) (pa, pb, swap_cnt) in
  let* (pc, pd, swap_cnt) := loop (down_body swaptype a pb) (pc, pd, swap_cnt) in
  if pc <? pb then leave (pa, pb, pc, pd, swap_cnt)
  else swap swaptype pb pc ;; again (pa, pb + es, pc - es, pd, 1).

(** The choice of the pivot. *)
Definition pivot (a n : Z) : M Z :=
  let pm := a + n / 2 * es in
  if 7 <? n then
    let pl := a in
    let pn := a + (n - 1) * es in
    let* (pl, pm, pn) :=
      if 40 <? n then
        let d := s32 (n / 8 * es) in
        let* pl := med3 pl (pl + d) (pl + 2 * d) in
        let* pm := med3 (pm - d) pm (pm + d) in
        let* pn := med3 (pn - 2 * d) (pn - d) pn in
        ret (pl, pm, pn)
      else ret (pl, pm, pn) in
    med3 pl pm pn
  else ret pm.

(** [qsort]: the recursive call and the jump to [loop] both consume fuel. *)
Fixpoint qsort_fuel (fuel : nat) (a n : Z) : M unit :=
  match fuel with
  | O => fun _ => Timeout
  | S fuel =>
      let swaptype := SWAPINIT a es in
      if n <? 7 then loop (insertion_body swaptype a n) (a + es)
      else
        let* pm := pivot a n in
        swap swaptype a pm ;;
        let* (pa, pb, pc, pd, swap_cnt) :=
          loop (partition_body swaptype a)
            (a + es, a + es, a + (n - 1) * es, a + (n - 1) * es, 0) in
        if swap_cnt =? 0 then loop (insertion_body swaptype a n) (a + es)
        else
          let pn := a + n * es in
          let r := s32 (Z.min (pa - a) (pb - pa)) in
          vecswap swaptype a (pb - r) r ;;
          let r := s32 (Z.min (pd - pc) (pn - pd - es)) in
          vecswap swaptype pb (pn - r) r ;;
          let r := s32 (pb - pa) in
          (if es <? u32 r then qsort_fuel fuel a (u32 r / es) else ret tt) ;;
          let r := s32 (pd - pc) in
          if es <? u32 r then qsort_fuel fuel (pn - r) (u32 r / es) else ret tt
  end.

Definition qsort (a n : Z) : M unit := qsort_fuel (S (Z.to_nat n)) a n.

(** [bsearch]: [lower] and [upper]. *)
Definition bsearch_body (key base : Z) : Z * Z -> M (Z * Z + Z) := fun '(lower, upper) =>
  if lower <? upper then
    let position := u32 (lower + upper) / 2 in
    let current := u32 (base + u32 (position * es)) in
    let* delta := compare key current in
    if delta =? 0 then leave current
    else if delta <? 0 then again (lower, position) else again (position + 1, upper)
  else leave NULL.

Definition bsearch (key base count : Z) : M Z :=
  if (0 <? count) && (0 <? es) then
    if (key =? NULL) || (base =? NULL) then set_errno EFAULT ;; ret NULL
    else loop (bsearch_body key base) (0, count)
  else ret NULL.

(** The loop [lfind] and [lsearch] share: [None] when no element matches. *)
Definition linear_body (key limit : Z) : Z -> M (Z + option Z) := fun cur =>
  if cur <? limit then
    let* r := compare cur key in
    if r =? 0 then leave (Some cur) else again (cur + es)
  else leave None.

Definition lfind (key base nelp : Z) : M Z :=
  let* nel := load32 nelp in
  let limit := base + nel * es in
  let* r := loop (linear_body key limit) base in
  ret (match r with Some cur => cur | None => NULL end).

Definition lsearch `{SysMem} (key base nelp : Z) : M Z :=
  let* nel := load32 nelp in
  let limit := base + nel * es in
  let* r := loop (linear_body key limit) base in
  match r with
  | Some cur => ret cur
  | None =>
      let* nel := load32 nelp in
      store32 nelp (u32 (nel + 1)) ;;
      memcpy limit key es ;;
      ret limit
  end.
End Code.

(** ** Arrays in memory *)

(** [wrote s a l] is the state in which the bytes [l] are the object at [a]. *)
Lemma write_bytes_mid m a u v v' w :
  length v = length v' ->
  write_bytes (write_bytes m a (u ++ v ++ w)) (a + Z.of_nat (length u)) v' =
  write_bytes m a (u ++ v' ++ w).
Proof.
  intros Hl. apply map_eq. intros x. rewrite !write_bytes_lookup, !length_app, Hl.
  repeat case_decide; try lia; try done.
  - rewrite lookup_app_r by lia. rewrite lookup_app_l by lia. f_equal. lia.
  - destruct (decide (Z.to_nat (x - a) < length u)%nat).
    + by rewrite !lookup_app_l by lia.
    + rewrite !(lookup_app_r u) by lia. rewrite !lookup_app_r by lia. f_equal. lia.
Qed.

Lemma wrote_mid s a u v v' w p :
  length v = length v' -> p = a + Z.of_nat (length u) ->
  wrote (wrote s a (u ++ v ++ w)) p v' = wrote s a (u ++ v' ++ w).
Proof. intros Hl ->. unfold wrote. simpl. by rewrite write_bytes_mid. Qed.

Lemma wrote_bytes s a u v w p :
  p = a + Z.of_nat (length u) -> bytes_at (mem (wrote s a (u ++ v ++ w))) p v.
Proof.
  intros ->. pose proof (write_bytes_at (mem s) a (u ++ v ++ w)) as H.
  apply bytes_at_app in H as [_ H]. by apply bytes_at_app in H as [H _].
Qed.

Lemma load8_mid s a u c w p :
  p = a + Z.of_nat (length u) -> load8 p (wrote s a (u ++ c :: w)) = Ok c (wrote s a (u ++ c :: w)).
Proof. intros Hp. apply load8_ok. by apply (wrote_bytes s a u [c] w p Hp). Qed.

Lemma store8_mid s a u c d w p :
  p = a + Z.of_nat (length u) -> is_byte d ->
  store8 p d (wrote s a (u ++ c :: w)) = Ok tt (wrote s a (u ++ d :: w)).
Proof.
  intros Hp Hd. rewrite store8_wrote; [|done|].
  - f_equal. by apply (wrote_mid s a u [c] [d] w p).
  - exists c. by apply (wrote_bytes s a u [c] w p Hp).
Qed.

Lemma load32_mid s a u b0 b1 b2 b3 w p :
  let l := u ++ b0 :: b1 :: b2 :: b3 :: w in
  p = a + Z.of_nat (length u) -> p mod 4 = 0 ->
  load32 p (wrote s a l) = Ok (word_of b0 b1 b2 b3) (wrote s a l).
Proof. intros l Hp Ha. apply load32_ok; [done|]. by apply (wrote_bytes s a u [b0; b1; b2; b3] w). Qed.

Lemma store32_mid s a u c0 c1 c2 c3 b0 b1 b2 b3 w p :
  p = a + Z.of_nat (length u) -> p mod 4 = 0 -> Forall is_byte [b0; b1; b2; b3] ->
  store32 p (word_of b0 b1 b2 b3) (wrote s a (u ++ c0 :: c1 :: c2 :: c3 :: w)) =
  Ok tt (wrote s a (u ++ b0 :: b1 :: b2 :: b3 :: w)).
Proof.
  intros Hp Ha Hb. fcons. rewrite store32_wrote; [|done..|].
  - f_equal. by apply (wrote_mid s a u [c0; c1; c2; c3] [b0; b1; b2; b3] w p).
  - apply (bytes_at_mapped _ _ [c0; c1; c2; c3]). by apply (wrote_bytes s a u [c0; c1; c2; c3] w p Hp).
Qed.

Lemma load_bytes_ok p l s : bytes_at (mem s) p l -> load_bytes p (length l) s = Ok l s.
Proof.
  revert p. induction l as [|c l IH]; intros p H; [done|]. destruct H as [Hc H]. cbn [length load_bytes].
  rewrite (bind_ok _ _ _ _ _ (load8_ok _ _ _ Hc)), (bind_ok _ _ _ _ _ (IH _ H)). done.
Qed.

(** *** Exchanging blocks *)

(** [swapcode] moves cells of [w] bytes: what it needs of the loads and stores
    of its type. *)
Section Cells.
Context (load : Z -> M Z) (store : Z -> Z -> M unit) (w : nat) (val : list Z -> Z) (fits : Z -> Prop).

Definition cell (c : list Z) : Prop := length c = w /\ Forall is_byte c.

Hypothesis load_cell : forall s a u c r p, cell c -> fits p -> p = a + Z.of_nat (length u) ->
  load p (wrote s a (u ++ c ++ r)) = Ok (val c) (wrote s a (u ++ c ++ r)).
Hypothesis store_cell : forall s a u c d r p, cell c -> cell d -> fits p ->
  p = a + Z.of_nat (length u) ->
  store p (val d) (wrote s a (u ++ c ++ r)) = Ok tt (wrote s a (u ++ d ++ r)).
Hypothesis fits_next : forall p, fits p -> fits (p + Z.of_nat w).

Local Abbreviation step := (swap_body load store (Z.of_nat w)).

(** Two cells exchanged, before the code [k]. *)
Lemma exchange_cells {A} s a u c x d y p q (k : M A) :
  cell c -> cell d -> fits p -> fits q ->
  (p = a + Z.of_nat (length u) /\ q = p + Z.of_nat (w + length x) \/
   q = a + Z.of_nat (length u) /\ p = q + Z.of_nat (w + length x)) ->
  (let* t := load p in let* v := load q in store p v ;; store q t ;; k)
    (wrote s a (u ++ c ++ x ++ d ++ y)) = k (wrote s a (u ++ d ++ x ++ c ++ y)).
Proof.
  intros Hc Hd Hp Hq Hpq.
  assert (R : forall b e, u ++ b ++ x ++ e ++ y = (u ++ b ++ x) ++ e ++ y) by (intros; by rewrite <- !app_assoc).
  assert (L : forall b, cell b -> Z.of_nat (length (u ++ b ++ x)) = Z.of_nat (length u) + Z.of_nat (w + length x))
    by (intros b [? _]; len; lia).
  destruct Hpq as [[Ep Eq]|[Eq Ep]].
  - erewrite bind_ok by (by apply load_cell). rewrite R.
    erewrite bind_ok by (apply load_cell; [done|done|rewrite L by done; lia]). rewrite <- R.
    erewrite bind_ok by (by apply store_cell). rewrite R.
    erewrite bind_ok by (apply store_cell; [done|done|done|rewrite L by done; lia]). by rewrite <- R.
  - rewrite R. erewrite bind_ok by (apply load_cell; [done|done|rewrite L by done; lia]). rewrite <- R.
    erewrite bind_ok by (by apply load_cell). rewrite R.
    erewrite bind_ok by (apply store_cell; [done|done|done|rewrite L by done; lia]). rewrite <- R.
    by erewrite bind_ok by (by apply store_cell).
Qed.

(** The blocks are exchanged, whichever the first pointer designates. *)
Lemma swap_cells s a xs ys u v r p q :
  length xs = length ys -> xs <> [] -> Forall cell xs -> Forall cell ys -> fits p -> fits q ->
  (p = a + Z.of_nat (length u) /\ q = p + Z.of_nat (length (concat xs) + length v) \/
   q = a + Z.of_nat (length u) /\ p = q + Z.of_nat (length (concat xs) + length v)) ->
  lrun step (Z.of_nat (length xs)) (p, q, Z.of_nat (length xs))
    (wrote s a (u ++ concat xs ++ v ++ concat ys ++ r)) tt
    (wrote s a (u ++ concat ys ++ v ++ concat xs ++ r)).
Proof.
  revert ys u v p q. induction xs as [|c xs IH]; intros [|d ys] u v p q Hl Hx Fx Fy Hp Hq Hpq; try done.
  injection Hl as Hl. apply Forall_cons in Fx as [Cc Fx]. apply Forall_cons in Fy as [Cd Fy].
  cbn [concat]. rewrite <- !app_assoc.
  pose proof (exchange_cells s a u c (concat xs ++ v) d (concat ys ++ r) p q
    (if 0 <? Z.of_nat (length (c :: xs)) - 1
     then again (p + Z.of_nat w, q + Z.of_nat w, Z.of_nat (length (c :: xs)) - 1) else leave tt)) as E.
  rewrite <- !app_assoc in E. specialize (E Cc Cd Hp Hq).
  pose proof (proj1 Cc) as Hc. pose proof (proj1 Cd) as Hd.
  cbn [concat] in Hpq. rewrite length_app, Hc in Hpq. rewrite length_app in E.
  specialize (E ltac:(lia)). destruct xs as [|c' xs].
  - destruct ys; [|done]. apply lrun_done; [exact E|simpl; lia].
  - eapply lrun_next.
    { etrans; [exact E|]. by rewrite (proj2 (Z.ltb_lt 0 _)) by (simpl length; lia). }
    replace (Z.of_nat (length (c :: c' :: xs)) - 1) with (Z.of_nat (length (c' :: xs))) by (simpl length; lia).
    replace (u ++ d ++ concat (c' :: xs) ++ v ++ c ++ concat ys ++ r)
      with ((u ++ d) ++ concat (c' :: xs) ++ (v ++ c) ++ concat ys ++ r) by (by rewrite <- !app_assoc).
    replace (u ++ d ++ concat ys ++ v ++ c ++ concat (c' :: xs) ++ r)
      with ((u ++ d) ++ concat ys ++ (v ++ c) ++ concat (c' :: xs) ++ r) by (by rewrite <- !app_assoc).
    apply IH; [done|done|done|done|by apply fits_next|by apply fits_next|]. rewrite !length_app. lia.
Qed.

(** A block exchanged with itself stays. *)
Lemma swap_self s a xs u r p :
  xs <> [] -> Forall cell xs -> fits p -> p = a + Z.of_nat (length u) ->
  lrun step (Z.of_nat (length xs)) (p, p, Z.of_nat (length xs))
    (wrote s a (u ++ concat xs ++ r)) tt (wrote s a (u ++ concat xs ++ r)).
Proof.
  revert u p. induction xs as [|c xs IH]; intros u p Hx Fx Hp Ep; [done|].
  apply Forall_cons in Fx as [Cc Fx]. cbn [concat]. rewrite <- !app_assoc.
  assert (E : step (p, p, Z.of_nat (length (c :: xs))) (wrote s a (u ++ c ++ concat xs ++ r)) =
    (if 0 <? Z.of_nat (length (c :: xs)) - 1
     then again (p + Z.of_nat w, p + Z.of_nat w, Z.of_nat (length (c :: xs)) - 1) else leave tt)
      (wrote s a (u ++ c ++ concat xs ++ r))).
  { unfold swap_body. do 2 erewrite bind_ok by (by apply load_cell).
    do 2 erewrite bind_ok by (by apply store_cell). by destruct (0 <? _). }
  destruct xs as [|c' xs]; [apply lrun_done; [exact E|simpl; lia]|].
  eapply lrun_next.
  { rewrite E. by rewrite (proj2 (Z.ltb_lt 0 _)) by (simpl length; lia). }
  replace (Z.of_nat (length (c :: c' :: xs)) - 1) with (Z.of_nat (length (c' :: xs))) by (simpl length; lia).
  rewrite (app_assoc u). apply IH; [done|done|by apply fits_next|].
  pose proof (proj1 Cc). rewrite length_app. lia.
Qed.
End Cells.

(** Bytes and words are such cells. *)
Definition byte_val (c : list Z) : Z := hd 0 c.
Definition word_val (c : list Z) : Z :=
  match c with [b0; b1; b2; b3] => word_of b0 b1 b2 b3 | _ => 0 end.

Lemma byte_cells x : Forall is_byte x -> exists xs, concat xs = x /\ Forall (cell 1) xs /\ length xs = length x.
Proof.
  induction 1 as [|c x Hc _ (xs & E & F & L)]; [by exists []|].
  exists ([c] :: xs). simpl. rewrite E, L. split; [done|]. split; [|done].
  constructor; [|done]. split; [done|by constructor].
Qed.

Lemma word_cells x : (length x mod 4 = 0)%nat -> Forall is_byte x ->
  exists xs, concat xs = x /\ Forall (cell 4) xs /\ (4 * length xs = length x)%nat.
Proof.
  induction x as [| | | |b0 b1 b2 b3 x IH] using list4_ind; intros Hl F; try done; [by exists []|].
  assert (Hl' : (length x mod 4 = 0)%nat).
  { change (length (b0 :: b1 :: b2 :: b3 :: x)) with (4 + length x)%nat in Hl.
    rewrite Nat.add_comm in Hl. by rewrite (Nat.Div0.mod_add _ 1 4) in Hl. }
  fcons. destruct (IH Hl') as (xs & E & FX & L); [done|].
  exists ([b0; b1; b2; b3] :: xs). cbn [concat length]. rewrite E. split; [done|].
  split; [|lia]. constructor; [|done]. split; [done|]. do 4 (constructor; [done|]). constructor.
Qed.

Lemma load8_cell s a u c r p : cell 1 c -> p = a + Z.of_nat (length u) ->
  load8 p (wrote s a (u ++ c ++ r)) = Ok (byte_val c) (wrote s a (u ++ c ++ r)).
Proof. intros [Hl _] Hp. destruct c as [|b [|]]; try done. by apply load8_mid. Qed.

Lemma store8_cell s a u c d r p : cell 1 c -> cell 1 d -> p = a + Z.of_nat (length u) ->
  store8 p (byte_val d) (wrote s a (u ++ c ++ r)) = Ok tt (wrote s a (u ++ d ++ r)).
Proof.
  intros [Hc _] [Hd Fd] Hp. destruct c as [|b [|]], d as [|e [|]]; try done.
  fcons. by apply store8_mid.
Qed.

Lemma load32_cell s a u c r p : cell 4 c -> p mod 4 = 0 -> p = a + Z.of_nat (length u) ->
  load32 p (wrote s a (u ++ c ++ r)) = Ok (word_val c) (wrote s a (u ++ c ++ r)).
Proof.
  intros [Hl _] Ha Hp. destruct c as [|b0 [|b1 [|b2 [|b3 [|]]]]]; try done. by apply load32_mid.
Qed.

Lemma store32_cell s a u c d r p :
  cell 4 c -> cell 4 d -> p mod 4 = 0 -> p = a + Z.of_nat (length u) ->
  store32 p (word_val d) (wrote s a (u ++ c ++ r)) = Ok tt (wrote s a (u ++ d ++ r)).
Proof.
  intros [Hc _] [Hd Fd] Ha Hp. destruct c as [|b0 [|b1 [|b2 [|b3 [|]]]]]; try done.
  destruct d as [|e0 [|e1 [|e2 [|e3 [|]]]]]; try done. by apply store32_mid.
Qed.

(** [swapfunc] exchanges two blocks of [n] bytes, by words when the type allows
    it. *)
Lemma swapfunc_ok s a t x y u v r p q :
  length x = length y -> x <> [] -> Z.of_nat (length x) < 4294967296 ->
  Forall is_byte x -> Forall is_byte y ->
  (t <= 1 -> p mod 4 = 0 /\ q mod 4 = 0 /\ (length x mod 4 = 0)%nat) ->
  (p = a + Z.of_nat (length u) /\ q = p + Z.of_nat (length x + length v) \/
   q = a + Z.of_nat (length u) /\ p = q + Z.of_nat (length x + length v)) ->
  swapfunc p q (Z.of_nat (length x)) t (wrote s a (u ++ x ++ v ++ y ++ r)) =
  Ok tt (wrote s a (u ++ y ++ v ++ x ++ r)).
Proof.
  intros Hl Hx Hn Fx Fy Ht Hpq. unfold swapfunc. rewrite u32_id by lia.
  destruct (Z.leb_spec t 1) as [H1|H1].
  - destruct (Ht H1) as (Ap & Aq & Am).
    destruct (word_cells x Am Fx) as (xs & Ex & Cx & Lx).
    destruct (word_cells y) as (ys & Ey & Cy & Ly); [by rewrite <- Hl|done|]. subst x y.
    assert (xs <> []) by (by intros ->). rewrite <- Lx at 1.
    replace (Z.of_nat (4 * length xs) / 4) with (Z.of_nat (length xs))
      by (rewrite Nat2Z.inj_mul, Z.mul_comm, Z.div_mul; lia).
    eapply loop_lrun; [|instantiate (1 := Z.of_nat (length xs)); lia].
    apply (swap_cells load32 store32 4 word_val (fun p => p mod 4 = 0)); try done; try lia.
    + intros. by apply load32_cell.
    + intros. by apply store32_cell.
    + intros. by apply add4_mod.
  - destruct (byte_cells x Fx) as (xs & Ex & Cx & Lx), (byte_cells y Fy) as (ys & Ey & Cy & Ly).
    subst x y. assert (xs <> []) by (by intros ->). rewrite <- Lx at 1.
    eapply loop_lrun; [|instantiate (1 := Z.of_nat (length xs)); lia].
    apply (swap_cells load8 store8 1 byte_val (fun _ => True)); try done; try lia.
    + intros. by apply load8_cell.
    + intros. by apply store8_cell.
Qed.

Lemma swapfunc_self s a t x u r p :
  x <> [] -> Z.of_nat (length x) < 4294967296 -> Forall is_byte x ->
  (t <= 1 -> p mod 4 = 0 /\ (length x mod 4 = 0)%nat) -> p = a + Z.of_nat (length u) ->
  swapfunc p p (Z.of_nat (length x)) t (wrote s a (u ++ x ++ r)) = Ok tt (wrote s a (u ++ x ++ r)).
Proof.
  intros Hx Hn Fx Ht Hp. unfold swapfunc. rewrite u32_id by lia.
  destruct (Z.leb_spec t 1) as [H1|H1].
  - destruct (Ht H1) as (Ap & Am). destruct (word_cells x Am Fx) as (xs & <- & Cx & Lx).
    assert (xs <> []) by (by intros ->). rewrite <- Lx at 1.
    replace (Z.of_nat (4 * length xs) / 4) with (Z.of_nat (length xs))
      by (rewrite Nat2Z.inj_mul, Z.mul_comm, Z.div_mul; lia).
    eapply loop_lrun; [|instantiate (1 := Z.of_nat (length xs)); lia].
    apply (swap_self load32 store32 4 word_val (fun p => p mod 4 = 0)); try done.
    + intros. by apply load32_cell.
    + intros. by apply store32_cell.
    + intros. by apply add4_mod.
  - destruct (byte_cells x Fx) as (xs & <- & Cx & Lx).
    assert (xs <> []) by (by intros ->). rewrite <- Lx at 1.
    eapply loop_lrun; [|instantiate (1 := Z.of_nat (length xs)); lia].
    apply (swap_self load8 store8 1 byte_val (fun _ => True)); try done.
    + intros. by apply load8_cell.
    + intros. by apply store8_cell.
Qed.

(** ** Arrays of elements *)

(** Equalities of lists up to the association of [++]. *)
Ltac lassoc := repeat (rewrite <- app_assoc || (progress cbn [app])); done.

(** [Forall] over the parts of a list. *)
Ltac fall := repeat (rewrite Forall_app in * || rewrite Forall_cons in *); intuition.

(** What a sort needs of the callback: it compares by a total preorder. *)
Class CompareLaws (cmp : list Z -> list Z -> Z) : Prop := {
  cmp_sgn x y : Z.sgn (cmp y x) = - Z.sgn (cmp x y);
  cmp_trans x y z : cmp x y <= 0 -> cmp y z <= 0 -> cmp x z <= 0;
}.

Section Array.
Context (cmp : list Z -> list Z -> Z) (es : Z) (s : state) (a : Z).

Definition elem (x : list Z) : Prop := Z.of_nat (length x) = es /\ Forall is_byte x.

(** The state in which the array at [a] holds [xs], and the address of its
    [i]th element. *)
Definition holds (xs : list (list Z)) : state := wrote s a (concat xs).
Definition elem_at (i : nat) : Z := a + Z.of_nat i * es.

Hypothesis es_pos : 0 < es.

Lemma length_concat xs : Forall elem xs -> Z.of_nat (length (concat xs)) = Z.of_nat (length xs) * es.
Proof. induction 1 as [|x xs [Hx _] _ IH]; [done|]. cbn [concat]. len. lia. Qed.

Lemma concat_bytes xs : Forall elem xs -> Forall is_byte (concat xs).
Proof. induction 1 as [|x xs [_ Hx] _ IH]; [done|]. by apply Forall_app. Qed.

Lemma elem_nonnil x : elem x -> x <> [].
Proof. intros [H _] ->. simpl in H. lia. Qed.

Lemma elem_bytes_at P x R :
  Forall elem P -> bytes_at (mem (holds (P ++ x :: R))) (elem_at (length P)) x.
Proof.
  intros HP. unfold holds. rewrite concat_app. cbn [concat]. apply wrote_bytes.
  by rewrite length_concat.
Qed.

Lemma compare_ok xs i j x y :
  Forall elem xs -> xs !! i = Some x -> xs !! j = Some y ->
  compare cmp es (elem_at i) (elem_at j) (holds xs) = Ok (cmp x y) (holds xs).
Proof.
  intros HF Hi Hj. unfold compare.
  assert (K : forall k z, xs !! k = Some z ->
    load_bytes (elem_at k) (Z.to_nat es) (holds xs) = Ok z (holds xs)).
  { intros k z Hk. pose proof (Forall_lookup_1 _ _ _ _ HF Hk) as [Hz _].
    replace (Z.to_nat es) with (length z) by lia. apply load_bytes_ok.
    pose proof (lookup_lt_Some _ _ _ Hk).
    pose proof (elem_bytes_at (take k xs) z (drop (S k) xs)) as B.
    rewrite take_drop_middle, length_take_le in B by (done || lia). apply B. by apply Forall_take. }
  by rewrite (bind_ok _ _ _ _ _ (K _ _ Hi)), (bind_ok _ _ _ _ _ (K _ _ Hj)).
Qed.

(** The way of swapping fits the array. *)
Definition type_ok (t : Z) : Prop := t = 0 /\ es = 4 \/ t = 1 \/ t = 2.
Definition swap_fits (t : Z) : Prop := type_ok t /\ (t <= 1 -> a mod 4 = 0 /\ es mod 4 = 0).

Lemma elem_at_mod i : a mod 4 = 0 -> es mod 4 = 0 -> elem_at i mod 4 = 0.
Proof.
  intros Ha He. unfold elem_at. rewrite Z.add_mod, Ha, Z.mul_mod, He by lia.
  by rewrite Z.mul_0_r.
Qed.

Lemma SWAPINIT_fits i : swap_fits (SWAPINIT (elem_at i) es).
Proof.
  unfold SWAPINIT. assert (E : u32 (elem_at i) mod 4 = elem_at i mod 4).
  { unfold u32. apply Z.mod_mod_divide. by exists 1073741824. }
  rewrite E. clear E. unfold swap_fits, type_ok.
  destruct (Z.eqb_spec (elem_at i mod 4) 0) as [H1|H1], (Z.eqb_spec (es mod 4) 0) as [H2|H2];
    cbv beta iota delta [orb negb]; try (split; [lia|lia]).
  assert (a mod 4 = 0).
  { unfold elem_at in H1. rewrite Z.add_mod, Z.mul_mod, H2, Z.mul_0_r, Zmod_0_l, Z.add_0_r in H1 by lia.
    by rewrite Z.mod_mod in H1. }
  destruct (Z.eqb_spec es 4); split; lia.
Qed.

Lemma blocks_mod X : es mod 4 = 0 -> Forall elem X -> (length (concat X) mod 4 = 0)%nat.
Proof.
  intros He HX. apply Nat2Z.inj. rewrite Nat2Z.inj_mod, length_concat by done.
  change (Z.of_nat 4) with 4. rewrite Z.mul_mod, He by done. by rewrite Z.mul_0_r.
Qed.

(** Exchanging two equally long runs of elements. *)
Lemma vecswap_ok t P X Q Y R :
  swap_fits t -> Forall elem (P ++ X ++ Q ++ Y ++ R) -> length X = length Y ->
  Z.of_nat (length X) * es < 4294967296 ->
  vecswap t (elem_at (length P)) (elem_at (length (P ++ X ++ Q))) (Z.of_nat (length X) * es)
    (holds (P ++ X ++ Q ++ Y ++ R)) = Ok tt (holds (P ++ Y ++ Q ++ X ++ R)).
Proof.
  intros [Ht Hta] HF Hl Hn. rewrite !Forall_app in HF. destruct HF as (FP & FX & FQ & FY & FR).
  unfold vecswap. destruct X as [|x0 X0] eqn:EX.
  - destruct Y; [|done]. done.
  - rewrite <- EX in *. assert (HX : (0 < length X)%nat) by (rewrite EX; simpl; lia).
    rewrite (proj2 (Z.ltb_lt 0 _)) by nia.
    unfold holds. rewrite !concat_app. rewrite <- (length_concat X) by done.
    rewrite <- (length_concat X) in Hn by done.
    apply swapfunc_ok.
    + apply Nat2Z.inj. rewrite !length_concat by done. by rewrite Hl.
    + rewrite EX. cbn [concat]. intros E. apply app_eq_nil in E as [E _].
      rewrite EX in FX. apply Forall_inv in FX. by apply elem_nonnil in FX.
    + done.
    + by apply concat_bytes.
    + by apply concat_bytes.
    + intros H1. destruct (Hta H1). auto using elem_at_mod, blocks_mod.
    + left. unfold elem_at. rewrite !length_concat by done. split; [done|].
      rewrite Nat2Z.inj_add, !length_concat, !length_app by done. lia.
Qed.

Lemma swap_ret p q s1 :
  swap es 0 p q s1 =
  (let* t := load32 p in let* v := load32 q in store32 p v ;; store32 q t ;; ret tt) s1.
Proof.
  unfold swap, bind, ret. simpl. destruct (load32 p s1) as [t s2| |]; try done.
  destruct (load32 q s2) as [v s3| |]; try done. destruct (store32 p v s3) as [[] s4| |]; try done.
  by destruct (store32 q t s4) as [[] s5| |].
Qed.

(** Exchanging two elements, in either order of the arguments. *)
Lemma swap_ok t P x Q y R :
  swap_fits t -> Forall elem (P ++ x :: Q ++ y :: R) -> es < 4294967296 ->
  let i := elem_at (length P) in
  let j := elem_at (length (P ++ x :: Q)) in
  swap es t i j (holds (P ++ x :: Q ++ y :: R)) = Ok tt (holds (P ++ y :: Q ++ x :: R)) /\
  swap es t j i (holds (P ++ x :: Q ++ y :: R)) = Ok tt (holds (P ++ y :: Q ++ x :: R)).
Proof.
  intros [Ht Hta] HF Hn i j. rewrite Forall_app, Forall_cons, Forall_app, Forall_cons in HF.
  destruct HF as (FP & [Lx Fx] & FQ & [Ly Fy] & FR).
  unfold holds. rewrite !concat_app. cbn [concat]. rewrite !concat_app. cbn [concat].
  assert (Hi : i = a + Z.of_nat (length (concat P))) by (unfold i, elem_at; by rewrite length_concat).
  assert (Hj : j = i + Z.of_nat (length x + length (concat Q))).
  { unfold j, i, elem_at. rewrite Nat2Z.inj_add, length_concat, length_app by done. simpl length. lia. }
  assert (Hal : t <= 1 -> i mod 4 = 0 /\ j mod 4 = 0 /\ (length x mod 4 = 0)%nat).
  { intros H1. destruct (Hta H1) as [Ha He]. split; [by apply elem_at_mod|]. split; [by apply elem_at_mod|].
    apply Nat2Z.inj. rewrite Nat2Z.inj_mod. by rewrite Lx. }
  unfold swap. destruct Ht as [[-> Hes]|Ht].
  - destruct Hal as (Ai & Aj & _); [lia|]. assert (Cx : cell 4 x) by (split; [lia|done]).
    assert (Cy : cell 4 y) by (split; [lia|done]).
    assert (E : forall p q, p mod 4 = 0 -> q mod 4 = 0 -> (p = i /\ q = j \/ p = j /\ q = i) ->
      (let* t := load32 p in let* v := load32 q in store32 p v ;; store32 q t ;; ret tt)
        (wrote s a (concat P ++ x ++ concat Q ++ y ++ concat R)) =
      Ok tt (wrote s a (concat P ++ y ++ concat Q ++ x ++ concat R))).
    { intros p q Ap Aq Hpq.
      apply (exchange_cells load32 store32 4 word_val (fun p => p mod 4 = 0)); try done; try lia.
      - intros. by apply load32_cell.
      - intros. by apply store32_cell. }
    split; (etrans; [apply swap_ret|apply E; auto]).
  - replace (t =? 0) with false by (symmetry; apply Z.eqb_neq; lia). rewrite <- Lx.
    split; apply swapfunc_ok; rewrite ?Lx; try done; try lia; try (apply elem_nonnil; by split).
Qed.

Lemma swap_ok_self t P x R :
  swap_fits t -> Forall elem (P ++ x :: R) -> es < 4294967296 ->
  swap es t (elem_at (length P)) (elem_at (length P)) (holds (P ++ x :: R)) =
  Ok tt (holds (P ++ x :: R)).
Proof.
  intros [Ht Hta] HF Hn. rewrite Forall_app, Forall_cons in HF. destruct HF as (FP & [Lx Fx] & FR).
  unfold holds. rewrite concat_app. cbn [concat].
  set (i := elem_at (length P)).
  assert (Hi : i = a + Z.of_nat (length (concat P))) by (unfold i, elem_at; by rewrite length_concat).
  assert (Hal : t <= 1 -> i mod 4 = 0 /\ (length x mod 4 = 0)%nat).
  { intros H1. destruct (Hta H1) as [Ha He]. split; [by apply elem_at_mod|].
    apply Nat2Z.inj. rewrite Nat2Z.inj_mod. by rewrite Lx. }
  destruct Ht as [[-> Hes]|Ht].
  - destruct Hal as (Ai & _); [lia|]. assert (Cx : cell 4 x) by (split; [lia|done]).
    rewrite swap_ret. do 2 erewrite bind_ok by (by apply load32_cell).
    by do 2 erewrite bind_ok by (by apply store32_cell).
  - unfold swap. replace (t =? 0) with false by (symmetry; apply Z.eqb_neq; lia). rewrite <- Lx.
    apply swapfunc_self; rewrite ?Lx; try done; try lia; try (apply elem_nonnil; by split).
Qed.

(** *** The insertion sort *)

Context `{!CompareLaws cmp}.
Definition le (x y : list Z) : Prop := cmp x y <= 0.

Lemma cmp_flip x y : (cmp x y < 0 <-> 0 < cmp y x) /\ (cmp x y = 0 <-> cmp y x = 0).
Proof. pose proof (cmp_sgn x y). lia. Qed.

Lemma insert_loop t P S x R :
  swap_fits t -> Forall elem (P ++ S ++ x :: R) -> es < 4294967296 ->
  exists S1 S2, S = S1 ++ S2 /\ Forall (fun y => 0 < cmp y x) S2 /\
    (S1 = [] \/ exists S1' y, S1 = S1' ++ [y] /\ cmp y x <= 0) /\
    lrun (insert_body cmp es t (elem_at (length P))) (Z.of_nat (length S) + 1)
      (elem_at (length (P ++ S))) (holds (P ++ S ++ x :: R)) tt (holds (P ++ S1 ++ x :: S2 ++ R)).
Proof.
  intros Ht. revert R. induction S as [|y S IH] using rev_ind; intros R HF Hes.
  - exists [], []. split; [done|]. split; [done|]. split; [by left|].
    apply lrun_done; [|simpl; lia]. unfold insert_body. rewrite app_nil_r.
    by rewrite Z.ltb_irrefl.
  - assert (Hpos : (elem_at (length P) <? elem_at (length (P ++ S ++ [y]))) = true)
      by (apply Z.ltb_lt; unfold elem_at; len; nia).
    assert (Hprev : elem_at (length (P ++ S ++ [y])) - es = elem_at (length (P ++ S)))
      by (unfold elem_at; len; lia).
    rewrite <- (app_assoc S [y]) in HF |- *. cbn [app] in HF |- *.
    assert (Hc : compare cmp es (elem_at (length (P ++ S))) (elem_at (length (P ++ S ++ [y])))
      (holds (P ++ S ++ y :: x :: R)) = Ok (cmp y x) (holds (P ++ S ++ y :: x :: R))).
    { apply compare_ok; [done| |].
      - rewrite app_assoc. by apply list_lookup_middle.
      - replace (P ++ S ++ y :: x :: R) with ((P ++ S ++ [y]) ++ x :: R) by (by rewrite <- !app_assoc).
        by apply list_lookup_middle. }
    destruct (Z.ltb_spec 0 (cmp y x)) as [Hgt|Hle].
    + destruct (IH (y :: R)) as (S1 & S2 & ES & F2 & H1 & Hr).
      { rewrite !Forall_app, !Forall_cons in HF |- *. tauto. }
      { done. }
      exists S1, (S2 ++ [y]). split; [by rewrite ES, app_assoc|].
      split; [apply Forall_app; split; [done|by constructor]|]. split; [done|].
      eapply lrun_next.
      { unfold insert_body. rewrite Hpos, Hprev, (bind_ok _ _ _ _ _ Hc).
        rewrite (proj2 (Z.ltb_lt 0 _) Hgt).
        destruct (swap_ok t (P ++ S) y [] x R) as [_ E]; [done|by rewrite <- app_assoc|done|].
        rewrite <- !app_assoc in E. cbn [app] in E. by rewrite (bind_ok _ _ _ _ _ E). }
      rewrite <- (app_assoc S2 [y] R). eapply lrun_weaken; [exact Hr|len; lia].
    + exists (S ++ [y]), []. split; [by rewrite app_nil_r|]. split; [done|].
      split; [right; by exists S, y|]. apply lrun_done; [|len; lia].
      unfold insert_body. rewrite Hpos, Hprev, (bind_ok _ _ _ _ _ Hc).
      rewrite (proj2 (Z.ltb_ge 0 _) Hle). by rewrite <- app_assoc.
Qed.

Lemma insert_sorted S1 S2 x :
  StronglySorted le (S1 ++ S2) -> Forall (fun y => 0 < cmp y x) S2 ->
  (S1 = [] \/ exists S1' y, S1 = S1' ++ [y] /\ cmp y x <= 0) ->
  StronglySorted le (S1 ++ x :: S2).
Proof.
  intros HS F2 H1.
  assert (Hx : Forall (fun y => le y x) S1).
  { destruct H1 as [->|(S1' & y & -> & Hy)]; [done|]. apply Forall_app. split; [|by constructor].
    rewrite <- app_assoc in HS. clear F2. induction S1' as [|z S1' IH]; [done|].
    apply StronglySorted_inv in HS as [HS Hz]. constructor; [|by apply IH].
    apply Forall_app in Hz as [_ Hz]. apply Forall_cons in Hz as [Hz _]. unfold le in *.
    by eapply cmp_trans. }
  assert (Hx2 : Forall (le x) S2).
  { eapply Forall_impl; [exact F2|]. cbv beta. intros y Hy. unfold le. pose proof (cmp_sgn x y). lia. }
  clear H1 F2. induction S1 as [|z S1 IH]; simpl in *; [by constructor|].
  apply StronglySorted_inv in HS as [HS Hz]. apply Forall_cons in Hx as [Hzx Hx].
  constructor; [by apply IH|]. apply Forall_app in Hz as [? ?]. apply Forall_app. auto.
Qed.

Lemma insertion_loop t P S X R :
  swap_fits t -> Forall elem (P ++ S ++ X ++ R) -> es < 4294967296 -> StronglySorted le S ->
  Z.of_nat (length (S ++ X)) <= 4294967296 ->
  exists Y, Permutation (S ++ X) Y /\ StronglySorted le Y /\
    lrun (insertion_body cmp es t (elem_at (length P)) (Z.of_nat (length (S ++ X))))
      (Z.of_nat (length X) + 1) (elem_at (length (P ++ S))) (holds (P ++ S ++ X ++ R)) tt
      (holds (P ++ Y ++ R)).
Proof.
  intros Ht HF Hes HS Hb. revert S HF HS Hb. induction X as [|x X IH]; intros S HF HS Hb.
  - exists S. rewrite app_nil_r. split; [done|]. split; [done|]. apply lrun_done; [|simpl; lia].
    unfold insertion_body. rewrite (proj2 (Z.ltb_ge _ _)); [done|]. unfold elem_at. len. lia.
  - destruct (insert_loop t P S x (X ++ R)) as (S1 & S2 & ES & F2 & H1 & Hr); [done|done|done|].
    assert (HP : Permutation (S ++ x :: X) ((S1 ++ x :: S2) ++ X)).
    { rewrite ES. rewrite <- !app_assoc. cbn [app]. apply Permutation_app_head.
      symmetry. apply Permutation_middle. }
    assert (HF' : Forall elem (P ++ (S1 ++ x :: S2) ++ X ++ R)).
    { rewrite ES in HF. rewrite !Forall_app, !Forall_cons in HF |- *. tauto. }
    destruct (IH (S1 ++ x :: S2)) as (Y & PY & SY & HY);
      [done|subst S; by apply insert_sorted|by rewrite <- (Permutation_length HP)|].
    exists Y. split; [by rewrite HP|]. split; [done|].
    rewrite (Permutation_length HP). eapply lrun_next.
    { unfold insertion_body. rewrite (proj2 (Z.ltb_lt _ _)).
      - erewrite bind_ok by (eapply loop_lrun; [exact Hr|len; lia]). reflexivity.
      - rewrite <- (Permutation_length HP). unfold elem_at. len. nia. }
    replace (elem_at (length (P ++ S)) + es) with (elem_at (length (P ++ S1 ++ x :: S2)))
      by (rewrite ES; unfold elem_at; len; lia).
    replace (P ++ S1 ++ x :: S2 ++ X ++ R) with (P ++ (S1 ++ x :: S2) ++ X ++ R)
      by (by rewrite <- !app_assoc).
    eapply lrun_weaken; [exact HY|simpl; lia].
Qed.

(** *** The partition

    The array is [P], the pivot [v], elements equal to it, smaller ones,
    those not looked at, greater ones, equal ones, and [R]. *)
Definition segments P v E1 L M G E2 R : list (list Z) :=
  P ++ (v :: E1) ++ L ++ M ++ G ++ E2 ++ R.

Definition is_eq (v y : list Z) : Prop := cmp y v = 0.
Definition is_lt (v y : list Z) : Prop := cmp y v < 0.
Definition is_gt (v y : list Z) : Prop := 0 < cmp y v.

Section Partition.
Context (t : Z) (P R : list (list Z)) (v : list Z).
Hypothesis t_ok : swap_fits t.
Hypothesis es_word : es < 4294967296.

(** The positions of [pa] and [pb], and of [pc] and [pd]. *)
Definition pos_a (E1 : list (list Z)) : Z := elem_at (length P + 1 + length E1).
Definition pos_b (E1 L : list (list Z)) : Z := elem_at (length P + 1 + length E1 + length L).
Definition pos_c (E1 L M : list (list Z)) : Z := elem_at (length P + length E1 + length L + length M).
Definition pos_d (E1 L M G : list (list Z)) : Z :=
  elem_at (length P + length E1 + length L + length M + length G).

Local Abbreviation arr E1 L M G E2 := (segments P v E1 L M G E2 R).

(** Comparing an element with the pivot. *)
Lemma compare_pivot l1 x l2 :
  Forall elem (P ++ v :: l1 ++ x :: l2) ->
  compare cmp es (elem_at (length P + 1 + length l1)) (elem_at (length P)) (holds (P ++ v :: l1 ++ x :: l2)) =
  Ok (cmp x v) (holds (P ++ v :: l1 ++ x :: l2)).
Proof.
  intros HF. apply compare_ok; [done| |by apply list_lookup_middle].
  replace (P ++ v :: l1 ++ x :: l2) with ((P ++ v :: l1) ++ x :: l2) by (by rewrite <- app_assoc).
  apply list_lookup_middle. len. lia.
Qed.

(** An element equal to the pivot joins the equal ones on the left: the first
    smaller one takes its place. *)
Lemma swap_left E1 L x W :
  Forall elem (P ++ (v :: E1) ++ L ++ x :: W) ->
  exists L', Permutation L L' /\
    swap es t (pos_a E1) (pos_b E1 L) (holds (P ++ (v :: E1) ++ L ++ x :: W)) =
    Ok tt (holds (P ++ (v :: E1 ++ [x]) ++ L' ++ W)).
Proof.
  intros HF. destruct L as [|y L].
  - exists []. split; [done|]. unfold pos_a, pos_b.
    replace (length P + 1 + length E1 + length [])%nat with (length (P ++ v :: E1)) by (len; lia).
    replace (length P + 1 + length E1)%nat with (length (P ++ v :: E1)) by (len; lia).
    replace (P ++ (v :: E1) ++ [] ++ x :: W) with ((P ++ v :: E1) ++ x :: W) in * by (by rewrite <- app_assoc).
    rewrite swap_ok_self by done. lassoc.
  - exists (L ++ [y]). split; [apply Permutation_cons_append|].
    replace (P ++ (v :: E1) ++ (y :: L) ++ x :: W) with ((P ++ v :: E1) ++ y :: L ++ x :: W) in *
      by (by rewrite <- !app_assoc).
    destruct (swap_ok t (P ++ v :: E1) y L x W) as [E _]; [done|done|done|].
    unfold pos_a, pos_b.
    replace (length P + 1 + length E1)%nat with (length (P ++ v :: E1)) by (len; lia).
    replace (length (P ++ v :: E1) + length (y :: L))%nat with (length ((P ++ v :: E1) ++ y :: L)) by (len; lia).
    rewrite E. lassoc.
Qed.

Lemma up_loop E1 L M W cnt :
  Forall elem (P ++ (v :: E1) ++ L ++ M ++ W) ->
  Forall (is_eq v) E1 -> Forall (is_lt v) L ->
  exists E1' L' M' cnt', Permutation (E1 ++ L ++ M) (E1' ++ L' ++ M') /\
    Forall (is_eq v) E1' /\ Forall (is_lt v) L' /\ (exists T, M = T ++ M') /\
    (M' = [] \/ exists x M'', M' = x :: M'' /\ is_gt v x) /\
    lrun (up_body cmp es t (elem_at (length P)) (pos_c E1 L M)) (Z.of_nat (length M) + 1)
      (pos_a E1, pos_b E1 L, cnt) (holds (P ++ (v :: E1) ++ L ++ M ++ W))
      (pos_a E1', pos_b E1' L', cnt') (holds (P ++ (v :: E1') ++ L' ++ M' ++ W)).
Proof.
  revert E1 L cnt. induction M as [|x M IH]; intros E1 L cnt HF HE HL.
  - exists E1, L, [], cnt. do 3 (split; [done|]). split; [by exists []|]. split; [by left|].
    apply lrun_done; [|simpl; lia]. unfold up_body. rewrite (proj2 (Z.leb_gt _ _)); [done|].
    unfold pos_b, pos_c, elem_at. simpl length. nia.
  - assert (Hle : (pos_b E1 L <=? pos_c E1 L (x :: M)) = true).
    { apply Z.leb_le. unfold pos_b, pos_c, elem_at. simpl length. nia. }
    assert (Hc : compare cmp es (pos_b E1 L) (elem_at (length P)) (holds (P ++ (v :: E1) ++ L ++ (x :: M) ++ W)) =
      Ok (cmp x v) (holds (P ++ (v :: E1) ++ L ++ (x :: M) ++ W))).
    { pose proof (compare_pivot (E1 ++ L) x (M ++ W)) as E. rewrite <- app_assoc in E.
      unfold pos_b. replace (length P + 1 + length E1 + length L)%nat
        with (length P + 1 + length (E1 ++ L))%nat by (len; lia). by apply E. }
    destruct (Z.lt_trichotomy (cmp x v) 0) as [Hlt|[Heq|Hgt]].
    + destruct (IH E1 (L ++ [x]) cnt) as (E1' & L' & M' & cnt' & HP & HE' & HL' & (T & HT) & HM' & Hr).
      { by rewrite <- app_assoc. } { done. } { apply Forall_app; split; [done|by constructor]. }
      exists E1', L', M', cnt'. split; [rewrite <- HP; by rewrite <- !app_assoc|]. do 2 (split; [done|]).
      split; [exists (x :: T); by rewrite HT|]. split; [done|].
      eapply lrun_next.
      { unfold up_body. rewrite Hle, (bind_ok _ _ _ _ _ Hc).
        destruct (Z.leb_spec (cmp x v) 0); [|lia]. destruct (Z.eqb_spec (cmp x v) 0); [lia|]. reflexivity. }
      replace (pos_b E1 L + es) with (pos_b E1 (L ++ [x])) by (unfold pos_b, elem_at; len; lia).
      replace (pos_c E1 L (x :: M)) with (pos_c E1 (L ++ [x]) M) by (unfold pos_c, elem_at; len; f_equal; f_equal; lia).
      rewrite <- (app_assoc L [x]) in Hr. eapply lrun_weaken; [exact Hr|simpl; lia].
    + destruct (swap_left E1 L x (M ++ W)) as (L1 & HL1 & Es); [done|].
      destruct (IH (E1 ++ [x]) L1 1) as (E1' & L' & M' & cnt' & HP & HE' & HL' & (T & HT) & HM' & Hr).
      { assert (FL : Forall elem L) by fall. rewrite HL1 in FL. fall. }
      { apply Forall_app; split; [done|by constructor]. } { by rewrite <- HL1. }
      exists E1', L', M', cnt'. split.
      { rewrite <- HP, <- !app_assoc, <- HL1. cbn [app]. by rewrite <- Permutation_middle. }
      do 2 (split; [done|]). split; [exists (x :: T); by rewrite HT|]. split; [done|].
      eapply lrun_next.
      { unfold up_body. rewrite Hle, (bind_ok _ _ _ _ _ Hc).
        rewrite Heq. change (0 <=? 0) with true. change (0 =? 0) with true. cbv iota. erewrite bind_ok by exact Es. reflexivity. }
      pose proof (Permutation_length HL1) as EL.
      replace (pos_a E1 + es) with (pos_a (E1 ++ [x])) by (unfold pos_a, elem_at; len; lia).
      replace (pos_b E1 L + es) with (pos_b (E1 ++ [x]) L1) by (unfold pos_b, elem_at; len; lia).
      replace (pos_c E1 L (x :: M)) with (pos_c (E1 ++ [x]) L1 M)
        by (unfold pos_c, elem_at; len; f_equal; f_equal; lia).
      eapply lrun_weaken; [exact Hr|simpl; lia].
    + exists E1, L, (x :: M), cnt. do 3 (split; [done|]). split; [by exists []|].
      split; [right; by exists x, M|]. apply lrun_done; [|simpl; lia].
      unfold up_body. rewrite Hle, (bind_ok _ _ _ _ _ Hc). destruct (Z.leb_spec (cmp x v) 0); [lia|done].
Qed.

(** An element equal to the pivot joins those on the right. *)
Lemma swap_right l1 x G W :
  Forall elem (P ++ v :: l1 ++ x :: G ++ W) ->
  exists G', Permutation G G' /\
    swap es t (elem_at (length P + 1 + length l1)) (elem_at (length P + 1 + length l1 + length G))
      (holds (P ++ v :: l1 ++ x :: G ++ W)) = Ok tt (holds (P ++ v :: l1 ++ G' ++ x :: W)).
Proof.
  intros HF. replace (P ++ v :: l1 ++ x :: G ++ W) with ((P ++ v :: l1) ++ x :: G ++ W) in * by lassoc.
  replace (length P + 1 + length l1)%nat with (length (P ++ v :: l1)) by (len; lia).
  destruct G as [|y G _] using rev_ind.
  - exists []. split; [done|]. rewrite Nat.add_0_r, swap_ok_self by done. lassoc.
  - exists (y :: G). split; [symmetry; apply Permutation_cons_append|].
    replace ((P ++ v :: l1) ++ x :: (G ++ [y]) ++ W) with ((P ++ v :: l1) ++ x :: G ++ y :: W) in * by lassoc.
    destruct (swap_ok t (P ++ v :: l1) x G y W) as [E _]; [done|done|done|].
    replace (length (P ++ v :: l1) + length (G ++ [y]))%nat with (length ((P ++ v :: l1) ++ x :: G)) by (len; lia).
    rewrite E. lassoc.
Qed.

Lemma down_loop E1 L M G E2 W cnt :
  Forall elem (P ++ (v :: E1) ++ L ++ M ++ G ++ E2 ++ W) ->
  Forall (is_gt v) G -> Forall (is_eq v) E2 ->
  exists M' G' E2' cnt', Permutation (M ++ G ++ E2) (M' ++ G' ++ E2') /\
    Forall (is_gt v) G' /\ Forall (is_eq v) E2' /\ (exists T, M = M' ++ T) /\
    (M' = [] \/ exists M'' y, M' = M'' ++ [y] /\ is_lt v y) /\
    lrun (down_body cmp es t (elem_at (length P)) (pos_b E1 L)) (Z.of_nat (length M) + 1)
      (pos_c E1 L M, pos_d E1 L M G, cnt) (holds (P ++ (v :: E1) ++ L ++ M ++ G ++ E2 ++ W))
      (pos_c E1 L M', pos_d E1 L M' G', cnt') (holds (P ++ (v :: E1) ++ L ++ M' ++ G' ++ E2' ++ W)).
Proof.
  revert G E2 cnt. induction M as [|x M IH] using rev_ind; intros G E2 cnt HF HG HE.
  - exists [], G, E2, cnt. do 3 (split; [done|]). split; [by exists []|]. split; [by left|].
    apply lrun_done; [|simpl; lia]. unfold down_body. rewrite (proj2 (Z.leb_gt _ _)); [done|].
    unfold pos_b, pos_c, elem_at. simpl length. nia.
  - assert (Hle : (pos_b E1 L <=? pos_c E1 L (M ++ [x])) = true).
    { apply Z.leb_le. unfold pos_b, pos_c, elem_at. len. nia. }
    set (l1 := E1 ++ L ++ M).
    assert (Hpc : pos_c E1 L (M ++ [x]) = elem_at (length P + 1 + length l1)).
    { unfold pos_c, l1, elem_at. len. f_equal. f_equal. lia. }
    assert (Hpd : pos_d E1 L (M ++ [x]) G = elem_at (length P + 1 + length l1 + length G)).
    { unfold pos_d, l1, elem_at. len. f_equal. f_equal. lia. }
    assert (Hpc' : pos_c E1 L (M ++ [x]) - es = pos_c E1 L M) by (unfold pos_c, elem_at; len; lia).
    replace (P ++ (v :: E1) ++ L ++ (M ++ [x]) ++ G ++ E2 ++ W) with (P ++ v :: l1 ++ x :: G ++ E2 ++ W) in *
      by (unfold l1; lassoc).
    pose proof (compare_pivot l1 x (G ++ E2 ++ W) HF) as Hc. rewrite <- Hpc in Hc.
    destruct (Z.lt_trichotomy (cmp x v) 0) as [Hlt|[Heq|Hgt]].
    + exists (M ++ [x]), G, E2, cnt. do 3 (split; [done|]). split; [exists []; by rewrite app_nil_r|].
      split; [right; by exists M, x|]. apply lrun_done; [|len; lia].
      unfold down_body. rewrite Hle, (bind_ok _ _ _ _ _ Hc). destruct (Z.leb_spec 0 (cmp x v)); [lia|].
      unfold leave, ret, l1. f_equal. f_equal. lassoc.
    + destruct (swap_right l1 x G (E2 ++ W) HF) as (G1 & HG1 & Es). rewrite <- Hpc, <- Hpd in Es.
      destruct (IH G1 (x :: E2) 1) as (M' & G' & E2' & cnt' & HP & HG' & HE' & (T & HT) & HM' & Hr).
      { assert (FG : Forall elem G) by fall. rewrite HG1 in FG. unfold l1 in HF. fall. }
      { by rewrite <- HG1. } { by constructor. }
      exists M', G', E2', cnt'. split.
      { rewrite <- HP, <- !app_assoc, <- HG1. apply Permutation_app_head. apply (Permutation_middle G E2 x). }
      do 2 (split; [done|]). split; [exists (T ++ [x]); by rewrite HT, app_assoc|]. split; [done|].
      eapply lrun_next.
      { unfold down_body. rewrite Hle, (bind_ok _ _ _ _ _ Hc), Heq.
        change (0 <=? 0) with true. change (0 =? 0) with true. cbv iota.
        erewrite bind_ok by exact Es. reflexivity. }
      rewrite Hpc'. pose proof (Permutation_length HG1) as EL.
      replace (pos_d E1 L (M ++ [x]) G - es) with (pos_d E1 L M G1) by (unfold pos_d, elem_at; len; lia).
      replace (P ++ v :: l1 ++ G1 ++ x :: E2 ++ W) with (P ++ (v :: E1) ++ L ++ M ++ G1 ++ (x :: E2) ++ W)
        by (unfold l1; lassoc).
      eapply lrun_weaken; [exact Hr|len; lia].
    + destruct (IH (x :: G) E2 cnt) as (M' & G' & E2' & cnt' & HP & HG' & HE' & (T & HT) & HM' & Hr).
      { unfold l1 in HF. fall. } { by constructor. } { done. }
      exists M', G', E2', cnt'. split; [rewrite <- HP; by rewrite <- !app_assoc|]. do 2 (split; [done|]).
      split; [exists (T ++ [x]); by rewrite HT, app_assoc|]. split; [done|].
      eapply lrun_next.
      { unfold down_body. rewrite Hle, (bind_ok _ _ _ _ _ Hc).
        destruct (Z.leb_spec 0 (cmp x v)); [|lia]. destruct (Z.eqb_spec (cmp x v) 0); [lia|]. reflexivity. }
      rewrite Hpc'.
      replace (pos_d E1 L (M ++ [x]) G) with (pos_d E1 L M (x :: G)) by (unfold pos_d, elem_at; len; f_equal; f_equal; lia).
      replace (P ++ v :: l1 ++ x :: G ++ E2 ++ W) with (P ++ (v :: E1) ++ L ++ M ++ (x :: G) ++ E2 ++ W)
        by (unfold l1; lassoc).
      eapply lrun_weaken; [exact Hr|len; lia].
Qed.

(** Where both scans stop on an element the first is greater and the second
    smaller than the pivot, so they are different elements. *)
Lemma stops_apart M1 M2 T :
  (M1 = [] \/ exists x M'', M1 = x :: M'' /\ is_gt v x) -> M1 = M2 ++ T ->
  (M2 = [] \/ exists M'' y, M2 = M'' ++ [y] /\ is_lt v y) ->
  M2 = [] \/ exists x Q y, M2 = x :: Q ++ [y] /\ is_gt v x /\ is_lt v y.
Proof.
  intros H1 E H2. destruct H2 as [->|(Q & y & -> & Hy)]; [by left|]. right.
  destruct H1 as [->|(x & M'' & -> & Hx)]; [by destruct Q|].
  destruct Q as [|x' Q].
  - injection E as -> _. unfold is_gt, is_lt in *. lia.
  - injection E as <- _. by exists x, Q, y.
Qed.

Lemma swap_middle E1 L x Q y W :
  Forall elem (P ++ (v :: E1) ++ L ++ (x :: Q ++ [y]) ++ W) ->
  swap es t (pos_b E1 L) (pos_c E1 L (x :: Q ++ [y])) (holds (P ++ (v :: E1) ++ L ++ (x :: Q ++ [y]) ++ W)) =
  Ok tt (holds (P ++ (v :: E1) ++ (L ++ [y]) ++ Q ++ x :: W)).
Proof.
  intros HF. set (l1 := P ++ v :: E1 ++ L).
  replace (P ++ (v :: E1) ++ L ++ (x :: Q ++ [y]) ++ W) with (l1 ++ x :: Q ++ y :: W) in * by (unfold l1; lassoc).
  destruct (swap_ok t l1 x Q y W) as [E _]; [done|done|done|].
  replace (pos_b E1 L) with (elem_at (length l1)) by (unfold pos_b, l1, elem_at; len; f_equal; f_equal; lia).
  replace (pos_c E1 L (x :: Q ++ [y])) with (elem_at (length (l1 ++ x :: Q)))
    by (unfold pos_c, l1, elem_at; len; f_equal; f_equal; lia).
  rewrite E. unfold l1. lassoc.
Qed.

Definition sorted_out (E1 L G E2 : list (list Z)) : Prop :=
  Forall (is_eq v) E1 /\ Forall (is_lt v) L /\ Forall (is_gt v) G /\ Forall (is_eq v) E2.

(** One round of the partition, up to the exchange. *)
Lemma partition_round E1 L M G E2 cnt :
  Z.of_nat (length M) < 4294967296 -> Forall elem (arr E1 L M G E2) -> sorted_out E1 L G E2 ->
  exists E1' L' M' G' E2' cnt', Permutation (E1 ++ L ++ M ++ G ++ E2) (E1' ++ L' ++ M' ++ G' ++ E2') /\
    sorted_out E1' L' G' E2' /\ Forall elem (arr E1' L' M' G' E2') /\ (length M' <= length M)%nat /\
    (M' = [] \/ exists x Q y, M' = x :: Q ++ [y] /\ is_gt v x /\ is_lt v y) /\
    partition_body cmp es t (elem_at (length P))
      (pos_a E1, pos_b E1 L, pos_c E1 L M, pos_d E1 L M G, cnt) (holds (arr E1 L M G E2)) =
    (if pos_c E1' L' M' <? pos_b E1' L'
     then leave (pos_a E1', pos_b E1' L', pos_c E1' L' M', pos_d E1' L' M' G', cnt')
     else swap es t (pos_b E1' L') (pos_c E1' L' M') ;;
       again (pos_a E1', pos_b E1' L' + es, pos_c E1' L' M' - es, pos_d E1' L' M' G', 1))
      (holds (arr E1' L' M' G' E2')).
Proof.
  intros Hb HF (S1 & S2 & S3 & S4).
  destruct (up_loop E1 L M (G ++ E2 ++ R) cnt HF S1 S2)
    as (E1' & L' & M1 & cnt1 & HP1 & S1' & S2' & (T1 & HT1) & HM1 & Hup).
  assert (HF1 : Forall elem (P ++ (v :: E1') ++ L' ++ M1 ++ G ++ E2 ++ R)).
  { unfold segments in HF. assert (Forall elem (E1 ++ L ++ M)) as FE by fall. rewrite HP1 in FE. fall. }
  destruct (down_loop E1' L' M1 G E2 R cnt1 HF1 S3 S4)
    as (M2 & G' & E2' & cnt2 & HP2 & S3' & S4' & (T2 & HT2) & HM2 & Hdown).
  assert (HL1 : (length M1 <= length M)%nat) by (rewrite HT1; len; lia).
  assert (HL2 : (length M2 <= length M1)%nat) by (rewrite HT2; len; lia).
  exists E1', L', M2, G', E2', cnt2. split.
  { rewrite <- HP2, (app_assoc L), (app_assoc E1), HP1. by rewrite <- !app_assoc. }
  split; [done|]. split.
  { unfold segments. assert (Forall elem (M1 ++ G ++ E2)) as FE by fall. rewrite HP2 in FE. fall. }
  split; [lia|]. split; [by eapply stops_apart|].
  assert (Hpos : pos_c E1 L M = pos_c E1' L' M1 /\ pos_d E1 L M G = pos_d E1' L' M1 G).
  { apply Permutation_length in HP1. unfold pos_c, pos_d, elem_at. rewrite !length_app in HP1.
    split; f_equal; f_equal; lia. }
  destruct Hpos as [Hpc Hpd]. unfold partition_body, segments. rewrite Hpd, Hpc in *.
  erewrite bind_ok by (eapply loop_lrun; [exact Hup|lia]). cbv beta iota.
  by erewrite bind_ok by (eapply loop_lrun; [exact Hdown|lia]).
Qed.

Lemma partition_loop n E1 L M G E2 cnt :
  (length M < n)%nat -> Z.of_nat (length M) < 4294967296 -> Forall elem (arr E1 L M G E2) ->
  sorted_out E1 L G E2 ->
  exists E1' L' G' E2' cnt', Permutation (E1 ++ L ++ M ++ G ++ E2) (E1' ++ L' ++ G' ++ E2') /\
    sorted_out E1' L' G' E2' /\
    lrun (partition_body cmp es t (elem_at (length P))) (Z.of_nat (length M) + 1)
      (pos_a E1, pos_b E1 L, pos_c E1 L M, pos_d E1 L M G, cnt) (holds (arr E1 L M G E2))
      (pos_a E1', pos_b E1' L', pos_c E1' L' [], pos_d E1' L' [] G', cnt') (holds (arr E1' L' [] G' E2')).
Proof.
  revert E1 L M G E2 cnt. induction n as [|n IH]; intros E1 L M G E2 cnt Hn Hb HF HS; [lia|].
  destruct (partition_round E1 L M G E2 cnt Hb HF HS)
    as (E1' & L' & M' & G' & E2' & cnt' & HP & HS' & HF' & HL & [->|(x & Q & y & -> & Hx & Hy)] & Hbody).
  - exists E1', L', G', E2', cnt'. split; [exact HP|]. split; [done|].
    apply lrun_done; [|lia]. rewrite Hbody, (proj2 (Z.ltb_lt _ _)); [done|].
    unfold pos_b, pos_c, elem_at. simpl length. nia.
  - simpl length in HL. rewrite length_app in HL. simpl length in HL.
    destruct HS' as (S1 & S2 & S3 & S4).
    destruct (IH E1' (L' ++ [y]) Q (x :: G') E2' 1) as (E1'' & L'' & G'' & E2'' & cnt3 & HP3 & S' & Hr);
      [lia|lia|unfold segments in *; fall|repeat split; [done| |by constructor|done]|].
    { apply Forall_app; split; [done|by constructor]. }
    exists E1'', L'', G'', E2'', cnt3. split.
    { rewrite HP, <- HP3, <- !app_assoc. apply Permutation_app_head, Permutation_app_head.
      cbn [app]. rewrite <- !app_assoc. cbn [app].
      rewrite <- (Permutation_middle Q), <- (Permutation_middle Q). apply perm_swap. }
    split; [done|]. eapply lrun_next.
    { rewrite Hbody, (proj2 (Z.ltb_ge _ _)) by (unfold pos_b, pos_c, elem_at; len; nia).
      erewrite bind_ok by (by apply swap_middle). reflexivity. }
    replace (pos_b E1' L' + es) with (pos_b E1' (L' ++ [y])) by (unfold pos_b, elem_at; len; lia).
    replace (pos_c E1' L' (x :: Q ++ [y]) - es) with (pos_c E1' (L' ++ [y]) Q)
      by (unfold pos_c, elem_at; len; lia).
    replace (pos_d E1' L' (x :: Q ++ [y]) G') with (pos_d E1' (L' ++ [y]) Q (x :: G'))
      by (unfold pos_d, elem_at; len; f_equal; f_equal; lia).
    eapply lrun_weaken; [exact Hr|lia].
Qed.
End Partition.

(** *** The pivot *)

Lemma med3_ok xs i j k :
  Forall elem xs -> (i < length xs)%nat -> (j < length xs)%nat -> (k < length xs)%nat ->
  exists m, (m = i \/ m = j \/ m = k) /\
    med3 cmp es (elem_at i) (elem_at j) (elem_at k) (holds xs) = Ok (elem_at m) (holds xs).
Proof.
  intros HF Hi Hj Hk. apply lookup_lt_is_Some_2 in Hi as [x Hx], Hj as [y Hy], Hk as [z Hz].
  pose proof (compare_ok xs i j x y HF Hx Hy) as C1. pose proof (compare_ok xs j k y z HF Hy Hz) as C2.
  pose proof (compare_ok xs i k x z HF Hx Hz) as C3. unfold med3.
  rewrite (bind_ok _ _ _ _ _ C1).
  destruct (cmp x y <? 0); rewrite (bind_ok _ _ _ _ _ C2).
  - destruct (cmp y z <? 0); [exists j; auto|]. rewrite (bind_ok _ _ _ _ _ C3).
    destruct (cmp x z <? 0); [exists k|exists i]; auto.
  - destruct (0 <? cmp y z); [exists j; auto|]. rewrite (bind_ok _ _ _ _ _ C3).
    destruct (cmp x z <? 0); [exists i|exists k]; auto.
Qed.

Lemma elem_at_shift i k : elem_at i + Z.of_nat k * es = elem_at (i + k).
Proof. unfold elem_at. lia. Qed.

Lemma elem_at_back i k : (k <= i)%nat -> elem_at i - Z.of_nat k * es = elem_at (i - k).
Proof. intros. unfold elem_at. rewrite Nat2Z.inj_sub by lia. lia. Qed.

Lemma pivot_ok lo n xs :
  Forall elem xs -> (7 <= n)%nat -> (lo + n <= length xs)%nat -> Z.of_nat n * es < 2147483648 ->
  exists m, (lo <= m < lo + n)%nat /\
    pivot cmp es (elem_at lo) (Z.of_nat n) (holds xs) = Ok (elem_at m) (holds xs).
Proof.
  intros HF Hn Hlo Hb. unfold pivot.
  assert (H2 : Z.of_nat n / 2 = Z.of_nat (n / 2)) by (by rewrite Nat2Z.inj_div).
  assert (H8 : Z.of_nat n / 8 = Z.of_nat (n / 8)) by (by rewrite Nat2Z.inj_div).
  pose proof (Nat.div_mod_eq n 2). pose proof (Nat.mod_upper_bound n 2 ltac:(lia)).
  pose proof (Nat.div_mod_eq n 8). pose proof (Nat.mod_upper_bound n 8 ltac:(lia)).
  rewrite H2, H8, elem_at_shift. destruct (Z.ltb_spec 7 (Z.of_nat n)) as [H7|H7].
  2:{ exists (lo + n / 2)%nat. split; [lia|done]. }
  replace (Z.of_nat n - 1) with (Z.of_nat (n - 1)) by lia. rewrite elem_at_shift.
  destruct (Z.ltb_spec 40 (Z.of_nat n)) as [H40|H40].
  - rewrite s32_id by nia. set (d := (n / 8)%nat) in *.
    replace (2 * (Z.of_nat d * es)) with (Z.of_nat (2 * d) * es) by lia.
    rewrite !elem_at_shift, !elem_at_back by lia.
    destruct (med3_ok xs lo (lo + d) (lo + 2 * d)) as (i & Hi & Ei); [done|lia..|].
    destruct (med3_ok xs (lo + n / 2 - d) (lo + n / 2) (lo + n / 2 + d)) as (j & Hj & Ej); [done|lia..|].
    destruct (med3_ok xs (lo + (n - 1) - 2 * d) (lo + (n - 1) - d) (lo + (n - 1))) as (k & Hk & Ek); [done|lia..|].
    destruct (med3_ok xs i j k) as (m & Hm & Em); [done|lia..|].
    exists m. split; [lia|]. unfold bind in *. rewrite Ei, Ej, Ek. exact Em.
  - destruct (med3_ok xs lo (lo + n / 2) (lo + (n - 1))) as (m & Hm & Em); [done|lia..|].
    exists m. split; [lia|]. exact Em.
Qed.

(** The pivot is brought to the front. *)
Lemma pivot_front t P X R m :
  swap_fits t -> Forall elem (P ++ X ++ R) -> es < 4294967296 ->
  (length P <= m < length P + length X)%nat ->
  exists v X', Permutation X (v :: X') /\
    swap es t (elem_at (length P)) (elem_at m) (holds (P ++ X ++ R)) = Ok tt (holds (P ++ v :: X' ++ R)).
Proof.
  intros Ht HF Hes Hm. destruct X as [|x X]; [simpl in Hm; lia|].
  destruct (decide (m = length P)) as [->|Hne].
  - exists x, X. split; [done|]. by apply swap_ok_self.
  - destruct (lookup_lt_is_Some_2 X (m - length P - 1)) as [y Hy]; [simpl in Hm; lia|].
    apply list_elem_of_split_length in Hy as (Q & T & -> & HQ).
    exists y, (Q ++ x :: T). split.
    { rewrite <- Permutation_middle. rewrite <- Permutation_middle. apply perm_swap. }
    replace m with (length (P ++ x :: Q)) by (len; simpl in Hm; lia).
    replace (P ++ (x :: Q ++ y :: T) ++ R) with (P ++ x :: Q ++ y :: T ++ R) in * by lassoc.
    destruct (swap_ok t P x Q y (T ++ R)) as [E _]; [done|done|done|]. rewrite E. lassoc.
Qed.

(** *** Bringing the equal elements to the middle *)

Lemma vecswap_rotate t P X Y W :
  swap_fits t -> Forall elem (P ++ X ++ Y ++ W) ->
  Z.of_nat (length X + length Y) * es < 2147483648 ->
  let r := Z.min (Z.of_nat (length X) * es) (Z.of_nat (length Y) * es) in
  exists Y' X', Permutation Y Y' /\ Permutation X X' /\
    vecswap t (elem_at (length P)) (elem_at (length P + length X + length Y) - r) r
      (holds (P ++ X ++ Y ++ W)) = Ok tt (holds (P ++ Y' ++ X' ++ W)).
Proof.
  intros Ht HF Hb r. destruct (decide (length X <= length Y)%nat) as [Hle|Hgt].
  - exists (drop (length Y - length X) Y ++ take (length Y - length X) Y), X.
    set (Q := take (length Y - length X) Y). set (Y1 := drop (length Y - length X) Y).
    assert (EY : Y = Q ++ Y1) by (symmetry; apply take_drop).
    assert (LY : length Y1 = length X) by (unfold Y1; rewrite length_drop; lia).
    split; [rewrite EY at 1; apply Permutation_app_comm|]. split; [done|].
    assert (Hr : r = Z.of_nat (length X) * es) by (unfold r; nia).
    pose proof (vecswap_ok t P X Q Y1 W) as E. rewrite EY, <- app_assoc in HF |- *.
    rewrite Hr, elem_at_back by lia.
    replace (length P + length X + length (Q ++ Y1) - length X)%nat with (length (P ++ X ++ Q)) by (len; lia).
    rewrite E; [|done|done|by rewrite LY|nia]. lassoc.
  - exists Y, (drop (length Y) X ++ take (length Y) X).
    set (X1 := take (length Y) X). set (Q := drop (length Y) X).
    assert (EX : X = X1 ++ Q) by (symmetry; apply take_drop).
    assert (LX : length X1 = length Y) by (unfold X1; rewrite length_take; lia).
    split; [done|]. split; [rewrite EX at 1; apply Permutation_app_comm|].
    assert (Hr : r = Z.of_nat (length X1) * es) by (unfold r; rewrite LX; nia).
    pose proof (vecswap_ok t P X1 Q Y W) as E. rewrite EX, <- !app_assoc in HF |- *.
    rewrite Hr, elem_at_back by (rewrite LX; len; lia).
    replace (length P + length (X1 ++ Q) + length Y - length X1)%nat with (length (P ++ X1 ++ Q)) by (len; lia).
    rewrite E; [lassoc|done|done|done|]. rewrite LX. nia.
Qed.

(** *** Joining the sorted parts *)

Lemma sorted_app l1 l2 :
  StronglySorted le l1 -> StronglySorted le l2 ->
  (forall x y, x ∈ l1 -> y ∈ l2 -> le x y) -> StronglySorted le (l1 ++ l2).
Proof.
  intros H1 H2 H. induction H1 as [|x l1 H1 IH Hx]; [done|]. cbn [app]. constructor.
  - apply IH. intros. apply H; [by right|done].
  - apply Forall_app. split; [done|]. apply Forall_forall. intros y Hy. apply H; [by left|done].
Qed.

Lemma sorted_parts v A B C :
  StronglySorted le A -> Forall (is_lt v) A -> Forall (is_eq v) B ->
  StronglySorted le C -> Forall (is_gt v) C -> StronglySorted le (A ++ B ++ C).
Proof.
  intros SA FA FB SC FC.
  assert (K : forall x y, cmp x v <= 0 -> cmp y v >= 0 -> le x y).
  { intros x y Hx Hy. unfold le. eapply cmp_trans; [exact Hx|]. pose proof (cmp_sgn v y). lia. }
  rewrite Forall_forall in FA. rewrite Forall_forall in FC.
  assert (SB : StronglySorted le B).
  { clear -FB K. induction FB as [|x B Hx FB IH]; constructor; [done|].
    eapply Forall_impl; [exact FB|]. intros y Hy. unfold is_eq in *. apply K; lia. }
  rewrite Forall_forall in FB.
  apply sorted_app; [done|apply sorted_app; [done|done|]|].
  - intros x y Hx Hy. apply FB in Hx. apply FC in Hy. unfold is_eq, is_gt in *. apply K; lia.
  - intros x y Hx Hy. apply FA in Hx. apply elem_of_app in Hy.
    destruct Hy as [Hy|Hy]; [apply FB in Hy|apply FC in Hy]; unfold is_lt, is_eq, is_gt in *; apply K; lia.
Qed.

(** *** [qsort] *)

Lemma insertion_ok t P X R :
  swap_fits t -> Forall elem (P ++ X ++ R) -> es < 4294967296 -> Z.of_nat (length X) < 4294967296 ->
  exists Y, Permutation X Y /\ StronglySorted le Y /\
    loop (insertion_body cmp es t (elem_at (length P)) (Z.of_nat (length X)))
      (elem_at (length P) + es) (holds (P ++ X ++ R)) = Ok tt (holds (P ++ Y ++ R)).
Proof.
  intros Ht HF Hes Hb. destruct X as [|x X].
  - exists []. split; [done|]. split; [constructor|]. eapply loop_lrun; [|instantiate (1 := 1); lia].
    apply lrun_done; [|done]. unfold insertion_body.
    by rewrite (proj2 (Z.ltb_ge _ _)) by (simpl length; lia).
  - destruct (insertion_loop t P [x] X R) as (Y & HP & HS & Hr);
      [done|done|done|by repeat constructor|simpl in *; lia|].
    exists Y. split; [done|]. split; [done|].
    replace (elem_at (length P) + es) with (elem_at (length (P ++ [x]))) by (unfold elem_at; len; lia).
    eapply loop_lrun; [exact Hr|simpl in *; lia].
Qed.

(** Two commands in sequence, whatever follows. *)
Lemma bind2_ok {B} (c d : M unit) (k : M B) s1 s2 :
  (c ;; d) s1 = Ok tt s2 -> (c ;; d ;; k) s1 = k s2.
Proof.
  unfold bind. destruct (c s1) as [u s3| |]; try done. by intros ->.
Qed.

(** What the parts of the code after the partition are given: the array in
    its three parts, and the two recursive calls. *)
Definition sorts (call : Z -> Z -> M unit) (n : nat) : Prop :=
  forall P X R, (length X < n)%nat -> Forall elem (P ++ X ++ R) ->
    Z.of_nat (length (P ++ X ++ R)) * es < 2147483648 ->
    exists Y, Permutation X Y /\ StronglySorted le Y /\
      call (elem_at (length P)) (Z.of_nat (length X)) (holds (P ++ X ++ R)) = Ok tt (holds (P ++ Y ++ R)).

(** A call that is skipped for at most one element. *)
Lemma sorts_some call n P X R :
  sorts call n -> (length X < n)%nat -> Forall elem (P ++ X ++ R) ->
  Z.of_nat (length (P ++ X ++ R)) * es < 2147483648 ->
  exists Y, Permutation X Y /\ StronglySorted le Y /\
    (if es <? u32 (Z.of_nat (length X) * es)
     then call (elem_at (length P)) (u32 (Z.of_nat (length X) * es) / es) else ret tt) (holds (P ++ X ++ R)) =
    Ok tt (holds (P ++ Y ++ R)).
Proof.
  intros HC Hn HF Hb. assert (Z.of_nat (length X) * es < 2147483648) by (rewrite !length_app in Hb; nia).
  rewrite u32_id by nia. rewrite Z.div_mul by lia.
  destruct (Z.ltb_spec es (Z.of_nat (length X) * es)); [by apply HC|].
  exists X. split; [done|]. split; [|done]. destruct X as [|x [|y X]]; [constructor|by repeat constructor|].
  simpl length in *. nia.
Qed.

(** The distances between the pointers after the partition. *)
Lemma pos_gaps P E1 L G E2 v :
  pos_a P E1 - elem_at (length P) = Z.of_nat (length (v :: E1)) * es /\
  pos_b P E1 L - pos_a P E1 = Z.of_nat (length L) * es /\
  pos_d P E1 L [] G - pos_c P E1 L [] = Z.of_nat (length G) * es /\
  elem_at (length P + length (v :: E1 ++ L ++ G ++ E2)) - pos_d P E1 L [] G - es =
    Z.of_nat (length E2) * es /\
  pos_b P E1 L = elem_at (length P + length (v :: E1) + length L).
Proof.
  unfold pos_a, pos_b, pos_c, pos_d, elem_at. simpl length. rewrite !length_app.
  repeat split; lia.
Qed.

(** The two exchanges after the partition bring the elements equal to the
    pivot together. *)
Lemma gather_ok t P v E1 L G E2 R :
  let N := length (v :: E1 ++ L ++ G ++ E2) in
  let pn := elem_at (length P + N) in
  let pa := pos_a P E1 in let pb := pos_b P E1 L in
  let pc := pos_c P E1 L [] in let pd := pos_d P E1 L [] G in
  swap_fits t -> Forall elem (segments P v E1 L [] G E2 R) ->
  Z.of_nat N * es < 2147483648 ->
  exists L' E' G', Permutation L L' /\ Permutation (v :: E1 ++ E2) E' /\ Permutation G G' /\
    (let r := s32 (Z.min (pa - elem_at (length P)) (pb - pa)) in
     vecswap t (elem_at (length P)) (pb - r) r ;;
     let r := s32 (Z.min (pd - pc) (pn - pd - es)) in
     vecswap t pb (pn - r) r) (holds (segments P v E1 L [] G E2 R)) =
    Ok tt (holds (P ++ L' ++ E' ++ G' ++ R)).
Proof.
  intros N pn pa pb pc pd Ht HF Hb. unfold segments in *. cbn [app] in HF |- *.
  destruct (pos_gaps P E1 L G E2 v) as (Ha & Hpa & Hpc & Hpd & Hpb).
  assert (Hb' : Z.of_nat (length E1 + length L + length G + length E2 + 1) * es < 2147483648)
    by (revert Hb; unfold N; rewrite ?length_cons, ?length_app; nia).
  destruct (vecswap_rotate t P (v :: E1) L (G ++ E2 ++ R)) as (L' & E1' & HL & HE1 & V1);
    [done|done|simpl length; nia|].
  assert (FL : Forall elem L') by (rewrite <- HL; fall).
  assert (FE : Forall elem E1') by (rewrite <- HE1; fall).
  destruct (vecswap_rotate t (P ++ L' ++ E1') G E2 R) as (E2' & G' & HE2 & HG & V2);
    [done|rewrite <- !app_assoc; fall|nia|].
  pose proof (Permutation_length HL) as LL. pose proof (Permutation_length HE1) as LE1.
  simpl length in LE1. rewrite !length_app in V2.
  exists L', (E1' ++ E2'), G'. split; [done|]. split; [rewrite <- HE1, <- HE2; done|]. split; [done|].
  unfold pa, pb, pc, pd, pn, N. cbv zeta. rewrite Ha, Hpa, Hpc, Hpd. rewrite !s32_id by (simpl length in *; nia).
  rewrite Hpb. erewrite bind_ok by exact V1.
  replace (elem_at (length P + length (v :: E1) + length L)) with (elem_at (length P + (length L' + length E1')))
    by (unfold elem_at; simpl length; lia).
  replace (elem_at (length P + length (v :: E1 ++ L ++ G ++ E2)))
    with (elem_at (length P + (length L' + length E1') + length G + length E2))
    by (unfold elem_at; simpl length; rewrite !length_app; lia).
  repeat rewrite <- app_assoc in V2. rewrite V2. lassoc.
Qed.

Lemma qsort_parts call n P v L E G R :
  sorts call n -> (length (L ++ E ++ G) <= n)%nat -> E <> [] ->
  let pn := elem_at (length P + length (L ++ E ++ G)) in
  let r1 := Z.of_nat (length L) * es in let r2 := Z.of_nat (length G) * es in
  Forall elem (P ++ L ++ E ++ G ++ R) ->
  Forall (is_lt v) L -> Forall (is_eq v) E -> Forall (is_gt v) G ->
  Z.of_nat (length (P ++ L ++ E ++ G ++ R)) * es < 2147483648 ->
  exists Y, Permutation (L ++ E ++ G) Y /\ StronglySorted le Y /\
    ((if es <? u32 r1 then call (elem_at (length P)) (u32 r1 / es) else ret tt) ;;
     if es <? u32 r2 then call (pn - r2) (u32 r2 / es) else ret tt) (holds (P ++ L ++ E ++ G ++ R)) =
    Ok tt (holds (P ++ Y ++ R)).
Proof.
  intros HC Hn HE pn r1 r2 HF FL FE FG Hb. rewrite !length_app in Hn.
  assert (length E <> 0)%nat by (by destruct E).
  destruct (sorts_some call n P L (E ++ G ++ R)) as (A & HA & SA & CA); [done|lia|fall|done|].
  pose proof (Permutation_length HA) as LA.
  destruct (sorts_some call n (P ++ A ++ E) G R) as (C & HG & SC & CC);
    [done|lia|assert (Forall elem A) by (rewrite <- HA; fall); fall| |].
  { revert Hb. rewrite !length_app. lia. }
  exists (A ++ E ++ C). split; [by rewrite HA, HG|]. split.
  - apply (sorted_parts v); [done|by rewrite <- HA|done|done|by rewrite <- HG].
  - unfold r1, r2, pn. rewrite (bind_ok _ _ _ _ _ CA), elem_at_back by (len; lia).
    replace (length P + length (L ++ E ++ G) - length G)%nat with (length (P ++ A ++ E)) by (len; lia).
    repeat rewrite <- app_assoc in CC. repeat rewrite <- app_assoc. exact CC.
Qed.

(** From the exchanges on. *)
Lemma qsort_rest call n t P v E1 L G E2 R :
  let N := length (v :: E1 ++ L ++ G ++ E2) in
  let pn := elem_at (length P) + Z.of_nat N * es in
  let pa := pos_a P E1 in let pb := pos_b P E1 L in
  let pc := pos_c P E1 L [] in let pd := pos_d P E1 L [] G in
  sorts call n -> swap_fits t -> (N <= n)%nat ->
  Forall elem (segments P v E1 L [] G E2 R) -> sorted_out v E1 L G E2 ->
  Z.of_nat (length (segments P v E1 L [] G E2 R)) * es < 2147483648 ->
  exists Y, Permutation (v :: E1 ++ L ++ G ++ E2) Y /\ StronglySorted le Y /\
    (let r := s32 (Z.min (pa - elem_at (length P)) (pb - pa)) in
     vecswap t (elem_at (length P)) (pb - r) r ;;
     let r := s32 (Z.min (pd - pc) (pn - pd - es)) in
     vecswap t pb (pn - r) r ;;
     let r := s32 (pb - pa) in
     (if es <? u32 r then call (elem_at (length P)) (u32 r / es) else ret tt) ;;
     let r := s32 (pd - pc) in
     if es <? u32 r then call (pn - r) (u32 r / es) else ret tt)
      (holds (segments P v E1 L [] G E2 R)) = Ok tt (holds (P ++ Y ++ R)).
Proof.
  intros N pn pa pb pc pd HC Ht HN HF (S1 & S2 & S3 & S4) Hb.
  assert (Hseg : length (segments P v E1 L [] G E2 R) = (length P + N + length R)%nat).
  { unfold segments, N. rewrite ?length_app, ?length_cons, ?length_app. simpl length. lia. }
  rewrite Hseg in Hb.
  destruct (gather_ok t P v E1 L G E2 R) as (L' & E' & G' & HL & HE & HG & Eg); [done|done|fold N; nia|].
  assert (HPY : Permutation (v :: E1 ++ L ++ G ++ E2) (L' ++ E' ++ G')).
  { rewrite <- HL, <- HE, <- HG. solve_Permutation. }
  pose proof (Permutation_length HPY) as LN. fold N in LN.
  destruct (qsort_parts call n P v L' E' G' R) as (Y & HY & SY & EY); [done|lia|..].
  { intros ->. by apply Permutation_nil_r in HE. }
  { unfold segments in HF. cbn [app] in HF.
    assert (FX : Forall elem (v :: E1 ++ L ++ G ++ E2)) by fall. rewrite HPY in FX. fall. }
  { by rewrite <- HL. }
  { rewrite <- HE. constructor; [unfold is_eq; pose proof (cmp_sgn v v); lia|]. by apply Forall_app. }
  { by rewrite <- HG. }
  { revert Hb. rewrite LN, !length_app. lia. }
  exists Y. split; [by rewrite HPY|]. split; [done|].
  destruct (pos_gaps P E1 L G E2 v) as (_ & Hpa & Hpc & _ & _). fold pa pb pc pd N in Hpa, Hpc, Eg.
  assert (Hpn : pn = elem_at (length P + N)) by (unfold pn, elem_at; lia). rewrite Hpn.
  cbv zeta in Eg |- *. erewrite bind2_ok by exact Eg. rewrite Hpa, Hpc.
  pose proof (Permutation_length HL) as LL. pose proof (Permutation_length HG) as LG.
  rewrite !s32_id by (unfold N in Hb; simpl length in *; rewrite ?length_app in *; nia).
  rewrite LN, LL, LG. exact EY.
Qed.

Lemma qsort_fuel_ok fuel :
  es < 4294967296 -> sorts (qsort_fuel cmp es fuel) fuel.
Proof.
  intros Hes. induction fuel as [|fuel IH]; intros P X R HX HF Hb; [lia|].
  assert (HbX : Z.of_nat (length P + length X) * es < 2147483648) by (rewrite !length_app in Hb; nia).
  assert (HnX : Z.of_nat (length P + length X) < 2147483648) by nia.
  pose proof (SWAPINIT_fits (length P)) as Ht.
  cbn [qsort_fuel]. set (t := SWAPINIT (elem_at (length P)) es) in *.
  destruct (Z.ltb_spec (Z.of_nat (length X)) 7) as [H7|H7].
  { apply insertion_ok; [done|done|done|lia]. }
  destruct (pivot_ok (length P) (length X) (P ++ X ++ R)) as (m & Hm & Ep); [done|lia|len; lia|nia|].
  destruct (pivot_front t P X R m) as (v & X' & HPX & Es); [done..|].
  rewrite (bind_ok _ _ _ _ _ Ep), (bind_ok _ _ _ _ _ Es).
  pose proof (Permutation_length HPX) as LX. simpl length in LX.
  assert (HF1 : Forall elem (segments P v [] [] X' [] [] R)).
  { unfold segments. assert (Forall elem X) as FX by fall. rewrite HPX in FX. fall. }
  destruct (partition_loop t P R v Ht Hes (S (length X')) [] [] X' [] [] 0)
    as (E1 & L & G & E2 & cnt & HP & HS & Hr); [lia|lia|done|by repeat constructor|].
  rewrite app_nil_r in HP. cbn [app] in HP.
  assert (Hst : (elem_at (length P) + es, elem_at (length P) + es,
      elem_at (length P) + (Z.of_nat (length X) - 1) * es,
      elem_at (length P) + (Z.of_nat (length X) - 1) * es, 0) =
    (pos_a P [], pos_b P [] [], pos_c P [] [] X', pos_d P [] [] X' [], 0)).
  { unfold pos_a, pos_b, pos_c, pos_d, elem_at. simpl length. rewrite LX.
    repeat (apply (f_equal2 pair); [|lia]); lia. }
  rewrite Hst. erewrite bind_ok by (eapply loop_lrun; [exact Hr|lia]). cbv beta iota. clear Hst Hr.
  assert (HF2 : Forall elem (segments P v E1 L [] G E2 R)).
  { unfold segments in *. assert (Forall elem X') as FX by fall. rewrite HP in FX. fall. }
  assert (HPv : Permutation X (v :: E1 ++ L ++ G ++ E2)) by (by rewrite HPX, HP).
  assert (LN : length X = length (v :: E1 ++ L ++ G ++ E2)) by (by apply Permutation_length).
  assert (Hseg : segments P v E1 L [] G E2 R = P ++ (v :: E1 ++ L ++ G ++ E2) ++ R)
    by (unfold segments; lassoc).
  destruct (Z.eqb_spec cnt 0) as [_|_].
  - rewrite Hseg in *. rewrite LN. destruct (insertion_ok t P (v :: E1 ++ L ++ G ++ E2) R)
      as (Y & HY & SY & EY); [done|done|done|rewrite <- LN; lia|]. exists Y. by rewrite HPv.
  - destruct (qsort_rest (qsort_fuel cmp es fuel) fuel t P v E1 L G E2 R) as (Y & HY & SY & EY);
      [done|done|lia|done|done| |].
    { rewrite Hseg. revert Hb. rewrite !(length_app P), !(length_app _ R), LN. done. }
    exists Y. split; [by rewrite HPv|]. split; [done|]. rewrite LN. exact EY.
Qed.
End Array.

(** An array at [a] in the memory of [s]. *)
Definition array_at (s : state) (es a : Z) (xs : list (list Z)) : Prop :=
  bytes_at (mem s) a (concat xs) /\ Forall (elem es) xs.

Lemma array_holds s es a xs : array_at s es a xs -> holds s a xs = s.
Proof. intros [Hb _]. unfold holds, wrote. by rewrite write_bytes_id, set_mem_id. Qed.

(** C2: [qsort] returns, for any element size and alignment: the array then holds
    a permutation of its elements in ascending order by the callback, and
    nothing else has changed. *)
Theorem qsort_correct cmp es a xs s :
  CompareLaws cmp -> 0 < es < 4294967296 -> array_at s es a xs ->
  Z.of_nat (length xs) * es < 2147483648 ->
  exists ys, qsort cmp es a (Z.of_nat (length xs)) s = Ok tt (wrote s a (concat ys)) /\
    Permutation xs ys /\ StronglySorted (le cmp) ys.
Proof.
  intros HL Hes Hx Hb. unfold qsort. rewrite Nat2Z.id.
  destruct (qsort_fuel_ok cmp es s a ltac:(lia) (S (length xs)) ltac:(lia) [] xs []) as (ys & HP & HS & E);
    [lia|rewrite app_nil_r; apply Hx|by rewrite app_nil_r|].
  cbn [app length] in E. rewrite !app_nil_r, (array_holds _ _ _ _ Hx) in E.
  exists ys. split; [|done]. unfold elem_at in E. by replace (a + Z.of_nat 0 * es) with a in E by lia.
Qed.

(** Comparing big-endian words as unsigned integers. *)
Definition compare_words (x y : list Z) : Z := word_val x - word_val y.
#[export] Instance compare_words_laws : CompareLaws compare_words.
Proof. split; unfold compare_words; intros; lia. Qed.

Lemma qsort_correct_witness :
  exists ys, qsort compare_words 4 4096 9
      (boot [(4096, concat (map word_bytes [7; 3; 9; 3; 70000; 1; 0; 5; 3]))]) =
    Ok tt (wrote (boot [(4096, concat (map word_bytes [7; 3; 9; 3; 70000; 1; 0; 5; 3]))]) 4096 (concat ys)) /\
    Permutation (map word_bytes [7; 3; 9; 3; 70000; 1; 0; 5; 3]) ys /\ StronglySorted (le compare_words) ys.
Proof.
  apply (qsort_correct compare_words 4 4096 (map word_bytes [7; 3; 9; 3; 70000; 1; 0; 5; 3])).
  - exact compare_words_laws.
  - lia.
  - split; [ground|]. repeat (constructor; [by split; [|apply word_bytes_bytes]|]). constructor.
  - done.
Defined.

(** ** Searching *)

Section Search.
Context (cmp : list Z -> list Z -> Z) (es a : Z) (s : state) (xs : list (list Z)) (key : Z) (k : list Z).
Hypothesis es_pos : 0 < es.
Hypothesis array : array_at s es a xs.
Hypothesis key_at : bytes_at (mem s) key k /\ Z.of_nat (length k) = es.

Lemma load_elem i x : xs !! i = Some x -> load_bytes (elem_at es a i) (Z.to_nat es) s = Ok x s.
Proof.
  intros Hi. pose proof array as [Hb HF]. pose proof (Forall_lookup_1 _ _ _ _ HF Hi) as [Hx _].
  replace (Z.to_nat es) with (length x) by lia. apply load_bytes_ok.
  rewrite <- (take_drop_middle xs i x Hi), concat_app in Hb. cbn [concat] in Hb.
  apply bytes_at_app in Hb as [_ Hb]. rewrite (length_concat es) in Hb by by apply Forall_take.
  apply bytes_at_app in Hb as [Hb _]. pose proof (lookup_lt_Some _ _ _ Hi).
  rewrite length_take_le in Hb by lia. done.
Qed.

Lemma compare_key i x :
  xs !! i = Some x ->
  compare cmp es key (elem_at es a i) s = Ok (cmp k x) s /\
  compare cmp es (elem_at es a i) key s = Ok (cmp x k) s.
Proof.
  intros Hi. destruct key_at as [Hk Hlen]. unfold compare.
  assert (Lk : load_bytes key (Z.to_nat es) s = Ok k s).
  { replace (Z.to_nat es) with (length k) by lia. by apply load_bytes_ok. }
  pose proof (load_elem i x Hi) as Lx.
  rewrite !(bind_ok _ _ _ _ _ Lk), !(bind_ok _ _ _ _ _ Lx), !(bind_ok _ _ _ _ _ Lk). done.
Qed.

(** The order of the array as seen from the key. *)
Definition descending : Prop :=
  forall i j x y, (i < j)%nat -> xs !! i = Some x -> xs !! j = Some y ->
    Z.sgn (cmp k y) <= Z.sgn (cmp k x).

Lemma bsearch_loop n lo hi :
  (hi - lo < n)%nat -> (lo <= hi <= length xs)%nat -> descending ->
  0 <= a -> a + Z.of_nat (length xs) * es <= ADDR_MAX -> Z.of_nat (length xs) < 2147483648 ->
  (forall i x, xs !! i = Some x -> (i < lo)%nat -> 0 < cmp k x) ->
  (forall i x, xs !! i = Some x -> (hi <= i)%nat -> cmp k x < 0) ->
  exists r, lrun (bsearch_body cmp es key a) (Z.of_nat (hi - lo) + 1) (Z.of_nat lo, Z.of_nat hi) s r s /\
    ((exists i x, xs !! i = Some x /\ cmp k x = 0 /\ r = elem_at es a i) \/
     (r = NULL /\ Forall (fun x => cmp k x <> 0) xs)).
Proof.
  intros Hn Hlh HD Ha Hs Hb. revert lo hi Hn Hlh. induction n as [|n IH]; intros lo hi Hn Hlh Hlo Hhi; [lia|].
  destruct (decide (lo < hi)%nat) as [Hlt|Hge].
  2:{ exists NULL. split.
      - apply lrun_done; [|lia]. unfold bsearch_body. by rewrite (proj2 (Z.ltb_ge _ _)) by lia.
      - right. split; [done|]. apply Forall_lookup_2. intros i x Hi.
        destruct (decide (i < lo)%nat); [pose proof (Hlo i x Hi); lia|pose proof (Hhi i x Hi); lia]. }
  set (mid := ((lo + hi) / 2)%nat).
  assert (Hm : (lo <= mid < hi)%nat).
  { unfold mid. pose proof (Nat.div_mod_eq (lo + hi) 2). pose proof (Nat.mod_upper_bound (lo + hi) 2 ltac:(lia)). lia. }
  destruct (lookup_lt_is_Some_2 xs mid) as [x Hx]; [lia|].
  destruct (compare_key mid x Hx) as [Hc _].
  assert (Hbody : bsearch_body cmp es key a (Z.of_nat lo, Z.of_nat hi) s =
    if cmp k x =? 0 then Ok (inr (elem_at es a mid)) s
    else if cmp k x <? 0 then Ok (inl (Z.of_nat lo, Z.of_nat mid)) s
    else Ok (inl (Z.of_nat (S mid), Z.of_nat hi)) s).
  { unfold bsearch_body. rewrite (proj2 (Z.ltb_lt _ _)) by lia. cbv zeta.
    rewrite (u32_id (Z.of_nat lo + Z.of_nat hi)) by lia.
    replace ((Z.of_nat lo + Z.of_nat hi) / 2) with (Z.of_nat mid)
      by (unfold mid; rewrite Nat2Z.inj_div, Nat2Z.inj_add; done).
    assert (Z.of_nat mid * es < ADDR_MAX) by nia. assert (elem_at es a mid < ADDR_MAX) by (unfold elem_at; nia).
    rewrite (u32_id (_ * es)) by zlia. fold (elem_at es a mid). rewrite u32_id by (unfold elem_at in *; zlia).
    rewrite (bind_ok _ _ _ _ _ Hc). replace (Z.of_nat mid + 1) with (Z.of_nat (S mid)) by lia.
    by destruct (cmp k x =? 0), (cmp k x <? 0). }
  destruct (Z.eqb_spec (cmp k x) 0) as [E0|E0].
  { exists (elem_at es a mid). split; [apply lrun_done; [done|lia]|]. left. by exists mid, x. }
  destruct (Z.ltb_spec (cmp k x) 0) as [E1|E1].
  - destruct (IH lo mid) as (r & Hr & Hspec); [lia|lia|done| |].
    + intros i y Hi Him. destruct (decide (i = mid)) as [->|]; [congruence|].
      pose proof (HD mid i x y ltac:(lia) Hx Hi). lia.
    + exists r. split; [|done]. eapply lrun_next; [done|]. eapply lrun_weaken; [done|lia].
  - destruct (IH (S mid) hi) as (r & Hr & Hspec); [lia|lia| |done|].
    + intros i y Hi Him. destruct (decide (i = mid)) as [->|]; [replace y with x by congruence; lia|].
      pose proof (HD i mid y x ltac:(lia) Hi Hx). lia.
    + exists r. split; [|done]. eapply lrun_next; [done|]. eapply lrun_weaken; [done|lia].
Qed.

(** The first element equal to the key. *)
Fixpoint first_match (l : list (list Z)) : option nat :=
  match l with
  | [] => None
  | x :: l' => if cmp x k =? 0 then Some 0%nat else S <$> first_match l'
  end.

Lemma linear_loop i :
  (i <= length xs)%nat ->
  lrun (linear_body cmp es key (elem_at es a (length xs))) (Z.of_nat (length xs - i) + 1) (elem_at es a i) s
    ((fun j => elem_at es a (i + j)) <$> first_match (drop i xs)) s.
Proof.
  intros Hi. remember (length xs - i)%nat as n eqn:En. revert i Hi En. induction n as [|n IH]; intros i Hi En.
  - rewrite drop_ge by lia. apply lrun_done; [|lia]. unfold linear_body.
    by rewrite (proj2 (Z.ltb_ge _ _)) by (unfold elem_at; nia).
  - destruct (lookup_lt_is_Some_2 xs i) as [x Hx]; [lia|]. destruct (compare_key i x Hx) as [_ Hc].
    rewrite (drop_S xs x i Hx). cbn [first_match].
    assert (Hbody : linear_body cmp es key (elem_at es a (length xs)) (elem_at es a i) s =
      if cmp x k =? 0 then Ok (inr (Some (elem_at es a i))) s else Ok (inl (elem_at es a (S i))) s).
    { unfold linear_body. rewrite (proj2 (Z.ltb_lt _ _)) by (unfold elem_at; nia).
      rewrite (bind_ok _ _ _ _ _ Hc). replace (elem_at es a i + es) with (elem_at es a (S i)) by (unfold elem_at; lia).
      by destruct (cmp x k =? 0). }
    destruct (cmp x k =? 0).
    + apply lrun_done; [|lia]. rewrite Hbody. simpl. by rewrite Nat.add_0_r.
    + eapply lrun_next; [exact Hbody|]. specialize (IH (S i) ltac:(lia) ltac:(lia)).
      replace ((fun j => elem_at es a (i + j)) <$> (S <$> first_match (drop (S i) xs)))
        with ((fun j => elem_at es a (S i + j)) <$> first_match (drop (S i) xs))
        by (destruct (first_match (drop (S i) xs)); simpl; [do 2 f_equal; lia|done]).
      eapply lrun_weaken; [exact IH|lia].
Qed.
End Search.

(** A sorted array is in order as seen from any key. *)
Lemma sorted_descending cmp xs k :
  CompareLaws cmp -> StronglySorted (le cmp) xs -> descending cmp xs k.
Proof.
  intros HL HS i j x y Hij Hi Hj. assert (Hle : cmp x y <= 0).
  { revert i j Hij Hi Hj. induction HS as [|z xs HS IH Hz]; intros i j Hij Hi Hj; [done|].
    destruct j as [|j]; [lia|]. destruct i as [|i]; simpl in *; [|by eapply (IH i j); [lia|..]].
    injection Hi as ->. by apply (Forall_lookup_1 _ _ _ _ Hz Hj). }
  pose proof (cmp_trans k x y) as T1. pose proof (cmp_trans x y k) as T2. pose proof (cmp_trans y k x) as T3.
  pose proof (cmp_sgn k x). pose proof (cmp_sgn k y). pose proof (cmp_sgn x y). lia.
Qed.

(** [bsearch] on an array in ascending order, as seen from the key, returns a
    matching element if and only if there is one, and reads only; an empty
    array has none, and a null key is [EFAULT]. *)
Theorem bsearch_correct cmp es a s xs key k :
  0 < es -> array_at s es a xs -> bytes_at (mem s) key k -> Z.of_nat (length k) = es ->
  descending cmp xs k -> 0 < a -> a + Z.of_nat (length xs) * es <= ADDR_MAX ->
  Z.of_nat (length xs) < 2147483648 -> key <> NULL ->
  (exists r, bsearch cmp es key a (Z.of_nat (length xs)) s = Ok r s /\
    ((exists i x, xs !! i = Some x /\ cmp k x = 0 /\ r = elem_at es a i) \/
     (r = NULL /\ Forall (fun x => cmp k x <> 0) xs))) /\
  (xs <> [] -> bsearch cmp es NULL a (Z.of_nat (length xs)) s = Ok NULL (put_errno s EFAULT)).
Proof.
  intros Hes Hx Hk Lk HD Ha Hs Hb Hkey. unfold bsearch. destruct xs as [|x0 xs0] eqn:Exs.
  { split; [|done]. exists NULL. split; [done|]. right. by split. }
  rewrite <- Exs in *. assert (Hl : (0 < length xs)%nat) by (rewrite Exs; simpl; lia).
  rewrite (proj2 (Z.ltb_lt 0 _)), (proj2 (Z.ltb_lt 0 es)) by lia. split; [|done].
  rewrite (proj2 (Z.eqb_neq key NULL)), (proj2 (Z.eqb_neq a NULL)) by (done || (unfold NULL; lia)).
  cbv beta iota delta [andb orb].
  destruct (bsearch_loop cmp es a s xs key k Hes Hx (conj Hk Lk) (S (length xs)) 0 (length xs))
    as (r & Hr & Hspec); [lia|lia|done|lia|done|done|lia| |].
  { intros i x Hi Hge. apply lookup_lt_Some in Hi. lia. }
  exists r. split; [|done]. eapply loop_lrun; [exact Hr|lia].
Qed.

Lemma bsearch_correct_witness :
  let s := boot [(4096, concat (map word_bytes [2; 3; 5; 7; 11])); (8192, word_bytes 7)] in
  exists r, bsearch compare_words 4 8192 4096 5 s = Ok r s /\ r = 4108.
Proof.
  destruct (bsearch_correct compare_words 4 4096
    (boot [(4096, concat (map word_bytes [2; 3; 5; 7; 11])); (8192, word_bytes 7)])
    (map word_bytes [2; 3; 5; 7; 11]) 8192 (word_bytes 7)) as [(r & E & Hr) _].
  - lia.
  - split; [ground|]. repeat (constructor; [by split; [|apply word_bytes_bytes]|]). constructor.
  - ground.
  - done.
  - apply sorted_descending; [exact compare_words_laws|].
    repeat (constructor; [|repeat (constructor; [vm_compute; congruence|]); constructor]). constructor.
  - lia.
  - vm_compute. congruence.
  - vm_compute. congruence.
  - done.
  - exists r. split; [exact E|]. destruct Hr as [(i & x & Hi & Hx & ->)|[_ HF]].
    + do 5 (destruct i as [|i]; [injection Hi as <-; vm_compute in Hx |- *; congruence|]). discriminate Hi.
    + rewrite Forall_forall in HF. exfalso. apply (HF (word_bytes 7)); [|done]. simpl. set_solver.
Defined.

(** [lfind] returns the first matching element or the null pointer; [lsearch]
    does the same but appends the key, and counts it, when there is none. *)
Theorem lsearch_correct `{SysMemLaws} cmp es a s xs key k nelp :
  0 < es -> array_at s es a xs -> bytes_at (mem s) key k -> Z.of_nat (length k) = es ->
  Forall is_byte k -> 0 < a -> 0 < key -> pointer_to (mem s) nelp (Z.of_nat (length xs)) ->
  Z.of_nat (length xs) + 1 < 4294967296 ->
  let limit := elem_at es a (length xs) in
  mapped (mem s) limit es -> disj limit es key es -> disj nelp 4 limit es -> disj nelp 4 key es ->
  match first_match cmp k xs with
  | Some i =>
      lfind cmp es key a nelp s = Ok (elem_at es a i) s /\
      lsearch cmp es key a nelp s = Ok (elem_at es a i) s
  | None =>
      lfind cmp es key a nelp s = Ok NULL s /\
      lsearch cmp es key a nelp s =
        Ok limit (wrote (wrote s nelp (word_bytes (Z.of_nat (length xs) + 1))) limit k)
  end.
Proof.
  intros Hes Hx Hk Lk Fk Ha Hkey Hn Hb limit Hm D1 D2 D3. unfold lfind, lsearch.
  rewrite !(bind_ok _ _ _ _ _ (pointer_load _ _ _ Hn)). fold (elem_at es a (length xs)). fold limit.
  pose proof (linear_loop cmp es a s xs key k Hes Hx (conj Hk Lk) 0 ltac:(lia)) as Hr.
  rewrite drop_0 in Hr. unfold elem_at at 2 in Hr. replace (a + Z.of_nat 0 * es) with a in Hr by lia.
  assert (El : loop (linear_body cmp es key limit) a s = Ok ((fun j => elem_at es a j) <$> first_match cmp k xs) s).
  { eapply loop_lrun; [exact Hr|lia]. }
  rewrite !(bind_ok _ _ _ _ _ El). destruct (first_match cmp k xs) as [i|]; [done|]. split; [done|].
  simpl. rewrite (bind_ok _ _ _ _ _ (pointer_load _ _ _ Hn)), u32_id by lia.
  rewrite (bind_ok _ _ _ _ _ (pointer_store _ _ _ (proj1 Hn))). rewrite <- Lk.
  erewrite bind_ok; [done|]. apply memcpy_ok; [|unfold limit, elem_at; nia|done|by intros ->; simpl in Lk; lia].
  split; [apply write_bytes_frame; [done|by rewrite Lk]|]. split; [done|]. rewrite Lk.
  split; [by apply mapped_write|done].
Qed.

Lemma lsearch_correct_witness :
  let s := boot [(512, word_bytes 2); (4096, word_bytes 8 ++ word_bytes 6 ++ [0; 0; 0; 0]); (8192, word_bytes 7)] in
  lfind compare_words 4 8192 4096 512 s = Ok NULL s /\
  lsearch compare_words 4 8192 4096 512 s =
    Ok 4104 (wrote (wrote s 512 (word_bytes 3)) 4104 (word_bytes 7)).
Proof.
  apply (lsearch_correct compare_words 4 4096
    (boot [(512, word_bytes 2); (4096, word_bytes 8 ++ word_bytes 6 ++ [0; 0; 0; 0]); (8192, word_bytes 7)])
    [word_bytes 8; word_bytes 6] 8192 (word_bytes 7) 512).
  - lia.
  - split; [ground|]. repeat (constructor; [by split; [|apply word_bytes_bytes]|]). constructor.
  - ground.
  - done.
  - apply word_bytes_bytes.
  - lia.
  - lia.
  - split; [split; [done|split; [lia|ground]]|]. split; [done|ground].
  - done.
  - ground.
  - left. vm_compute. congruence.
  - left. vm_compute. congruence.
  - left. vm_compute. congruence.
Defined.

(** Sorting and searching together: after [qsort], [bsearch] with the same
    callback finds a key exactly when an element of the array as it was
    matches it. *)
Theorem qsort_bsearch cmp es a s xs key k :
  CompareLaws cmp -> 0 < es < 4294967296 -> array_at s es a xs ->
  bytes_at (mem s) key k -> Z.of_nat (length k) = es -> 0 < a -> key <> NULL ->
  a + Z.of_nat (length xs) * es <= ADDR_MAX -> Z.of_nat (length xs) * es < 2147483648 ->
  disj a (Z.of_nat (length xs) * es) key es ->
  exists s' r, (qsort cmp es a (Z.of_nat (length xs)) ;;
      bsearch cmp es key a (Z.of_nat (length xs))) s = Ok r s' /\
    (r = NULL <-> Forall (fun x => cmp k x <> 0) xs) /\
    (r <> NULL -> exists x, x ∈ xs /\ cmp k x = 0 /\ bytes_at (mem s') r x).
Proof.
  intros HL Hes Hx Hk Lk Ha Hkey Hs Hb Hd.
  destruct (qsort_fuel_ok cmp es s a ltac:(lia) (S (length xs)) ltac:(lia) [] xs []) as (ys & HP & HS & E);
    [lia|rewrite app_nil_r; apply Hx|by rewrite app_nil_r|].
  cbn [app length] in E. rewrite !app_nil_r, (array_holds _ _ _ _ Hx) in E.
  unfold elem_at in E. replace (a + Z.of_nat 0 * es) with a in E by lia.
  unfold qsort. rewrite Nat2Z.id, (bind_ok _ _ _ _ _ E). clear E.
  assert (FY : Forall (elem es) ys) by (rewrite <- HP; apply Hx).
  assert (Hy : array_at (holds s a ys) es a ys) by (split; [apply write_bytes_at|done]).
  pose proof (Permutation_length HP) as LP.
  assert (Hk' : bytes_at (mem (holds s a ys)) key k).
  { apply write_bytes_frame; [done|]. rewrite (length_concat es), <- LP by done. by rewrite Lk. }
  rewrite LP in *. clear Hx Hd.
  destruct ys as [|y0 ys0] eqn:Ey; [|rewrite <- Ey in *].
  { exists (holds s a []), NULL. split; [done|]. symmetry in HP. apply Permutation_nil in HP as ->. done. }
  destruct (bsearch_loop cmp es a (holds s a ys) ys key k ltac:(lia) Hy (conj Hk' Lk) (S (length ys)) 0 (length ys))
    as (r & Hr & Hspec); [lia|lia|by apply sorted_descending|lia|done|nia|lia| |].
  { intros i x Hi Hge. apply lookup_lt_Some in Hi. lia. }
  exists (holds s a ys), r. split.
  { unfold bsearch. assert (0 < length ys)%nat by (rewrite Ey; simpl; lia).
    rewrite (proj2 (Z.ltb_lt 0 _)), (proj2 (Z.ltb_lt 0 es)) by lia.
    rewrite (proj2 (Z.eqb_neq key NULL)), (proj2 (Z.eqb_neq a NULL)) by (done || (unfold NULL; lia)).
    eapply loop_lrun; [exact Hr|nia]. }
  destruct Hspec as [(i & x & Hi & Hc & ->)|[-> HF]].
  - pose proof (list_elem_of_lookup_2 _ _ _ Hi) as Hin. rewrite <- HP in Hin. split.
    + split; [unfold elem_at, NULL; nia|]. intros HF. rewrite Forall_forall in HF. by apply HF in Hin.
    + intros _. exists x. split; [done|]. split; [done|].
      rewrite <- (take_drop_middle ys i x Hi). pose proof (lookup_lt_Some _ _ _ Hi).
      replace i with (length (take i ys)) at 3 by (rewrite length_take; lia).
      apply elem_bytes_at. by apply Forall_take.
  - split; [|done]. split; [|done]. intros _. by rewrite HP.
Qed.

Lemma qsort_bsearch_witness :
  let s := boot [(4096, concat (map word_bytes [5; 2; 3])); (8192, word_bytes 4)] in
  exists s' r, (qsort compare_words 4 4096 3 ;; bsearch compare_words 4 8192 4096 3) s = Ok r s' /\ r = NULL.
Proof.
  destruct (qsort_bsearch compare_words 4 4096
    (boot [(4096, concat (map word_bytes [5; 2; 3])); (8192, word_bytes 4)])
    (map word_bytes [5; 2; 3]) 8192 (word_bytes 4)) as (s' & r & E & Hr & _).
  - exact compare_words_laws.
  - lia.
  - split; [ground|]. repeat (constructor; [by split; [|apply word_bytes_bytes]|]). constructor.
  - ground.
  - done.
  - lia.
  - done.
  - vm_compute. congruence.
  - done.
  - left. vm_compute. congruence.
  - exists s', r. split; [exact E|]. apply Hr. repeat (constructor; [vm_compute; congruence|]). constructor.
Defined.
