(* ===== verification/Prng.v ===== *)
(** * Pseudo-random numbers ([library/prng])

    The 48-bit generators ([__rand48_step], [nrand48], [jrand48], [erand48],
    [seed48], [srand48], [lcong48] and the variants on the library's own
    state), [rand], [srand], [rand_r], and the additive generator ([random],
    [srandom], [initstate], [setstate]). *)

From S2P Require Import Prelude CMem Cells.

(** ** The code *)

Definition u16 (x : Z) : Z := x mod 65536.
Definition u64 (x : Z) : Z := x mod 18446744073709551616.

(** *** The 48-bit generators

    A generator's state is three 16-bit words; the multiplier has three and
    the increment one, kept together in [__seed48]. *)
Record words48 := mk48 { w0 : Z; w1 : Z; w2 : Z }.
Record seed := mkSeed { xi : words48; lc : words48; add : Z }.

Definition __seed48 : seed := mkSeed (mk48 0 0 0) (mk48 0xe66d 0xdeec 0x5) 0xb.

Definition join48 (w : words48) : Z :=
  Z.lor (Z.lor (w0 w) (u32 (Z.shiftl (w1 w) 16))) (Z.shiftl (w2 w) 32).

(** [__rand48_step(xi, lc)]: the result and the new [xi]. *)
Definition rand48_step (x l : words48) (c : Z) : Z * words48 :=
  let a := join48 l in
  let x := u64 (a * join48 x + c) in
  (Z.land x 0xffffffffffff, mk48 (u16 x) (u16 (Z.shiftr x 16)) (u16 (Z.shiftr x 32))).

(** The functions on a caller's state use the multiplier of the library. *)
Definition nrand48 (g : seed) (s : words48) : Z * words48 :=
  let (r, s) := rand48_step s (lc g) (add g) in (Z.shiftr r 17, s).
Definition jrand48 (g : seed) (s : words48) : Z * words48 :=
  let (r, s) := rand48_step s (lc g) (add g) in (s32 (Z.shiftr r 16), s).
(** A double with exponent field 1023, in units of 2^-52. *)
Definition double_in_1_2 (u : Z) : Z := 2 ^ 52 + Z.land u (Z.ones 52).

(** The double [x.f - 1.0] in units of 2^-52; the difference is exact. *)
Definition erand48 (g : seed) (s : words48) : Z * words48 :=
  let (r, s) := rand48_step s (lc g) (add g) in
  let u := Z.lor 0x3ff0000000000000 (u64 (Z.shiftl r 4)) in
  (double_in_1_2 u - 2 ^ 52, s).

Definition with_xi (g : seed) (x : words48) : seed := mkSeed x (lc g) (add g).
Definition lrand48 (g : seed) : Z * seed := let (r, x) := nrand48 g (xi g) in (r, with_xi g x).
Definition mrand48 (g : seed) : Z * seed := let (r, x) := jrand48 g (xi g) in (r, with_xi g x).
Definition drand48 (g : seed) : Z * seed := let (r, x) := erand48 g (xi g) in (r, with_xi g x).

(** [seed48] returns the address of its static [p], which then holds the old
    state; the argument may be that address, which is [None]. *)
Definition seed48 (g : seed) (s : option words48) : words48 * seed :=
  let p := xi g in
  let s := match s with Some s => s | None => p end in
  (p, with_xi g s).
Definition srand48 (g : seed) (s : Z) : seed :=
  snd (seed48 g (Some (mk48 0x330e (u16 s) (u16 (Z.shiftr s 16))))).
Definition lcong48 (p : seed) : seed := p.

(** *** [rand], [srand], [rand_r] *)

Definition lcg64 (x : Z) : Z := u64 (6364136223846793005 * x + 1).
Definition lcg31 (x : Z) : Z := Z.land (u32 (1103515245 * x + 12345)) 0x7fffffff.

(** [__random_seed] *)
Definition srand (seed : Z) : Z := u32 (seed - 1).
Definition rand (random_seed : Z) : Z * Z :=
  let random_seed := u64 (6364136223846793005 * random_seed + 1) in
  (s32 (Z.shiftr random_seed 33), random_seed).

Definition temper (x : Z) : Z :=
  let x := Z.lxor x (Z.shiftr x 11) in
  let x := Z.lxor x (Z.land (u32 (Z.shiftl x 7)) 0x9D2C5680) in
  let x := Z.lxor x (Z.land (u32 (Z.shiftl x 15)) 0xEFC60000) in
  Z.lxor x (Z.shiftr x 18).

Definition rand_r (seed : Z) : Z * Z :=
  let seed := u32 (seed * 1103515245 + 12345) in
  (s32 (temper seed / 2), seed).

(** *** The additive generator

    The fields [n], [i], [j] and [x] of the library base. *)
Record rng := mkRng { rng_n : Z; rng_i : Z; rng_j : Z; rng_x : Z }.

Definition savestate (g : rng) : M Z :=
  store32 (rng_x g - 4)
    (u32 (Z.lor (Z.lor (Z.shiftl (rng_n g) 16) (Z.shiftl (rng_i g) 8)) (rng_j g))) ;;
  ret (rng_x g - 4).

Definition loadstate (state : Z) : M rng :=
  let x := state + 4 in
  let* w := load32 (x - 4) in
  let n := Z.shiftr w 16 in
  let* w := load32 (x - 4) in
  let i := Z.land (Z.shiftr w 8) 0xff in
  let* w := load32 (x - 4) in
  let j := Z.land w 0xff in
  ret (mkRng n i j x).

Definition random (g : rng) : M (Z * rng) :=
  let '(mkRng n i j x) := g in
  if n =? 0 then
    let* v := load32 x in
    let k := lcg31 v in
    store32 x k ;; ret (s32 k, g)
  else
    let* a := load32 (x + 4 * i) in
    let* b := load32 (x + 4 * j) in
    store32 (x + 4 * i) (u32 (a + b)) ;;
    let* v := load32 (x + 4 * i) in
    let k := Z.shiftr v 1 in
    let i := if i + 1 =? n then 0 else i + 1 in
    let j := if j + 1 =? n then 0 else j + 1 in
    ret (k, mkRng n i j x).

(** The loop of [__srandom] over [k], with the 64-bit [s]. *)
Definition srandom_body (n x : Z) : Z * Z -> M (Z * Z + unit) := fun '(k, s) =>
  if k <? n then
    let s := lcg64 s in
    store32 (x + 4 * k) (Z.shiftr s 32) ;; again (k + 1, s)
  else leave tt.

Definition srandom (g : rng) (seed : Z) : M rng :=
  let '(mkRng n i j x) := g in
  if n =? 0 then store32 x seed ;; ret g
  else
    let i := if (n =? 31) || (n =? 7) then 3 else 1 in
    let j := 0 in
    loop (srandom_body n x) (0, seed) ;;
    let* v := load32 x in
    store32 x (Z.lor v 1) ;;
    ret (mkRng n i j x).

(** The old state's address, or 0 for a buffer that is too small. *)
Definition initstate (g : rng) (seed state size : Z) : M (Z * rng) :=
  if size <? 8 then ret (0, g)
  else
    let* old := savestate g in
    let n := if size <? 32 then 0 else if size <? 64 then 7 else if size <? 128 then 15
             else if size <? 256 then 31 else 63 in
    let g := mkRng n (rng_i g) (rng_j g) (state + 4) in
    let* g := srandom g seed in
    savestate g ;;
    ret (old, g).

Definition setstate (g : rng) (state : Z) : M (Z * rng) :=
  let* old := savestate g in
  let* g := loadstate state in
  ret (old, g).


(** ** Linear congruential sequences

    The step [x := a x + c] modulo a power of two has full period when [a] is
    1 modulo 4 and [c] is odd. *)

Section Lcg.
Context (a c : Z).

Fixpoint geom (n : nat) : Z := match n with O => 0 | S n' => 1 + a * geom n' end.

Lemma geom_add m n : geom (m + n) = geom m + a ^ Z.of_nat m * geom n.
Proof.
  induction m as [|m IH]; cbn [geom Nat.add]; [rewrite Z.pow_0_r; lia|].
  rewrite IH, Nat2Z.inj_succ, Z.pow_succ_r by lia. ring.
Qed.

Lemma geom_pow n : (a - 1) * geom n = a ^ Z.of_nat n - 1.
Proof.
  induction n as [|n IH]; cbn [geom]; [rewrite Z.pow_0_r; lia|].
  rewrite Nat2Z.inj_succ, Z.pow_succ_r by lia.
  replace ((a - 1) * (1 + a * geom n)) with (a - 1 + a * ((a - 1) * geom n)) by ring.
  rewrite IH. ring.
Qed.

Lemma iter_lcg m n x :
  0 < m -> 0 <= x < m ->
  Nat.iter n (fun x => (a * x + c) mod m) x = (a ^ Z.of_nat n * x + c * geom n) mod m.
Proof.
  intros Hm Hx. induction n as [|n IH].
  - simpl. rewrite Z.pow_0_r, Z.mod_small; lia.
  - rewrite Nat.iter_succ, IH, Zplus_mod, Zmult_mod_idemp_r, <- Zplus_mod.
    f_equal. cbn [geom]. rewrite Nat2Z.inj_succ, Z.pow_succ_r by lia. 
    pose proof (geom_add 1 n) as G. pose proof (geom_add n 1) as G'.
    rewrite Nat.add_comm, G in G'. cbn [geom] in G'. rewrite Z.mul_0_r, Z.add_0_r in G'.
    change (Z.of_nat 1) with 1 in G'. rewrite Z.pow_1_r in G'. nia.
Qed.

Hypothesis Ha : a mod 4 = 1.

Lemma pow_mod4 n : a ^ Z.of_nat n mod 4 = 1.
Proof.
  induction n as [|n IH]; [done|].
  rewrite Nat2Z.inj_succ, Z.pow_succ_r, Zmult_mod, IH, Ha by lia. done.
Qed.

Lemma geom_odd n : Nat.Odd n -> Z.Odd (geom n).
Proof.
  intros [k ->]. exists (a * geom (2 * k) / 2). rewrite Nat.add_1_r. cbn [geom].
  assert (E : Z.Even (geom (2 * k))).
  { induction k as [|k IH]; [by exists 0|].
    replace (2 * S k)%nat with (S (S (2 * k))) by lia. cbn [geom]. destruct IH as [z ->].
    exists ((1 + a) / 2 + a * a * z). Z.div_mod_to_equations. nia. }
  destruct E as [z ->]. replace (a * (2 * z)) with (a * z * 2) by ring.
  rewrite Z.div_mul by lia. lia.
Qed.

Lemma pow2_div_odd k u v : Z.Odd u -> (2 ^ Z.of_nat k | u * v) <-> (2 ^ Z.of_nat k | v).
Proof.
  intros [t ->]. split; [|by apply Z.divide_mul_r]. revert v.
  induction k as [|k IH]; intros v; [intros _; apply Z.divide_1_l|].
  rewrite Nat2Z.inj_succ, Z.pow_succ_r by lia. intros [w Hw].
  destruct (Z.Even_or_Odd v) as [[v' ->]|[v' ->]]; [|nia].
  apply Z.mul_divide_mono_l, IH. exists w. nia.
Qed.

Lemma geom_pow2 k n : (2 ^ Z.of_nat k | geom n) <-> (2 ^ Z.of_nat k | Z.of_nat n).
Proof.
  revert k. induction (lt_wf n) as [n _ IH]. intros k.
  destruct (Nat.Even_or_Odd n) as [[m ->]|Hodd].
  - destruct m as [|m]; [split; intros _; apply Z.divide_0_r|].
    replace (2 * S m)%nat with (S m + S m)%nat by lia.
    destruct k as [|k]; [split; intros _; apply Z.divide_1_l|].
    assert (E : exists t, 1 + a ^ Z.of_nat (S m) = 2 * (2 * t + 1)).
    { exists (a ^ Z.of_nat (S m) / 4). pose proof (pow_mod4 (S m)). Z.div_mod_to_equations. lia. }
    destruct E as [t E]. rewrite geom_add.
    replace (geom (S m) + a ^ Z.of_nat (S m) * geom (S m))
      with ((1 + a ^ Z.of_nat (S m)) * geom (S m)) by ring.
    rewrite E, <- Z.mul_assoc, Nat2Z.inj_add, Z.add_diag, Nat2Z.inj_succ, Z.pow_succ_r by lia.
    rewrite !Z.mul_divide_cancel_l, pow2_div_odd by (done || by exists t).
    apply IH. lia.
  - destruct k as [|k]; [split; intros _; apply Z.divide_1_l|].
    rewrite Nat2Z.inj_succ, Z.pow_succ_r by lia. destruct (geom_odd n Hodd) as [t ->].
    destruct Hodd as [t' ->]. split; intros [w Hw]; nia.
Qed.

Hypothesis Hc : Z.Odd c.

(** The sequence is back at [x] after [n] steps exactly when [2^k] divides [n]. *)
Lemma lcg_period k n x :
  0 <= x < 2 ^ Z.of_nat k ->
  Nat.iter n (fun x => (a * x + c) mod 2 ^ Z.of_nat k) x = x <-> (2 ^ Z.of_nat k | Z.of_nat n).
Proof.
  intros Hx. assert (0 < 2 ^ Z.of_nat k) by lia.
  rewrite iter_lcg by lia. rewrite <- (geom_pow2 k n), <- (pow2_div_odd k ((a - 1) * x + c)).
  - set (m := 2 ^ Z.of_nat k) in *. replace (((a - 1) * x + c) * geom n)
      with (a ^ Z.of_nat n * x + c * geom n - x).
    2: { transitivity (((a - 1) * geom n) * x + c * geom n); [rewrite geom_pow|]; ring. }
    generalize (a ^ Z.of_nat n * x + c * geom n). intros y. split; intros E.
    + exists (y / m). pose proof (Z.div_mod y m ltac:(lia)). lia.
    + destruct E as [z E]. replace y with (x + z * m) by lia.
      rewrite Z.mod_add, Z.mod_small by lia. done.
  - destruct Hc as [t ->]. exists (2 * (a / 4) * x + t).
    pose proof (Z.div_mod a 4 ltac:(lia)). nia.
Qed.
End Lcg.

(** ** The 48-bit generators are such sequences *)

Definition val48 (w : words48) : Z := w0 w + 65536 * w1 w + 4294967296 * w2 w.
Definition ok48 (w : words48) : Prop := 0 <= w0 w < 65536 /\ 0 <= w1 w < 65536 /\ 0 <= w2 w < 65536.
Definition split48 (x : Z) : words48 := mk48 (x mod 65536) (x / 65536 mod 65536) (x / 4294967296 mod 65536).

Lemma val48_range w : ok48 w -> 0 <= val48 w < 2 ^ 48.
Proof. unfold ok48, val48. lia. Qed.

Lemma split48_val w : ok48 w -> split48 (val48 w) = w.
Proof. destruct w as [a b d]. unfold ok48, val48, split48. simpl. intros. f_equal; Z.div_mod_to_equations; lia. Qed.

Lemma val48_split x : val48 (split48 x) = x mod 2 ^ 48.
Proof. unfold val48, split48. simpl. Z.div_mod_to_equations. lia. Qed.

Lemma split48_ok x : ok48 (split48 x).
Proof. unfold ok48, split48. simpl. Z.div_mod_to_equations. lia. Qed.

Lemma split48_mod x : split48 (x mod 2 ^ 48) = split48 x.
Proof. by rewrite <- val48_split, split48_val by apply split48_ok. Qed.

(** A sum whose terms occupy separate bits is their union. *)
Lemma lor_add_low lo hi k : 0 <= k -> 0 <= lo < 2 ^ k -> Z.lor lo (hi * 2 ^ k) = lo + hi * 2 ^ k.
Proof.
  intros Hk Hlo. rewrite Z.add_comm, <- Z.shiftl_mul_pow2 by lia. rewrite Z.lor_comm.
  symmetry. apply Z.add_nocarry_lor. apply Z.bits_inj'. intros i Hi.
  rewrite Z.land_spec, Z.bits_0, Z.shiftl_spec by lia.
  destruct (Z.ltb_spec i k).
  - by rewrite (Z.testbit_neg_r hi) by lia.
  - rewrite <- (Z.mod_small lo (2 ^ k)), Z.mod_pow2_bits_high by lia. by rewrite andb_false_r.
Qed.

Lemma join48_val w : ok48 w -> join48 w = val48 w.
Proof.
  intros (H0 & H1 & H2). unfold join48, val48. rewrite !Z.shiftl_mul_pow2 by lia.
  rewrite u32_id by lia. rewrite (lor_add_low (w0 w)) by lia. rewrite lor_add_low by lia. lia.
Qed.

(** The sequence of a generator with the multiplier and increment of [g]. *)
Definition next48 (g : seed) (x : Z) : Z := (val48 (lc g) * x + add g) mod 2 ^ 48.
Definition seed_ok (g : seed) : Prop := ok48 (xi g) /\ ok48 (lc g) /\ 0 <= add g < 65536.

Lemma rand48_step_next g s :
  seed_ok g -> ok48 s ->
  rand48_step s (lc g) (add g) = (next48 g (val48 s), split48 (next48 g (val48 s))).
Proof.
  intros (_ & Hl & Ha) Hs. unfold rand48_step, next48.
  rewrite !join48_val, split48_mod by done. set (y := _ + _).
  assert (E : u64 y mod 2 ^ 48 = y mod 2 ^ 48).
  { unfold u64. change 18446744073709551616 with (65536 * 2 ^ 48).
    rewrite Z.mul_comm, Z.rem_mul_r by lia. rewrite (Z.mul_comm (2 ^ 48)), Z.mod_add by lia.
    by rewrite Z.mod_mod. }
  f_equal.
  - change 0xffffffffffff with (Z.ones 48). by rewrite Z.land_ones, E by lia.
  - rewrite <- (split48_mod y), <- E, split48_mod. unfold split48, u16.
    by rewrite !Z.shiftr_div_pow2 by lia.
Qed.

Lemma next48_range g x : 0 <= next48 g x < 2 ^ 48.
Proof. apply Z.mod_pos_bound. lia. Qed.

(** Each function's value and new state in terms of the sequence. *)
Definition draws48 (g : seed) (s : words48) : Prop :=
  let x := next48 g (val48 s) in
  nrand48 g s = (x / 2 ^ 17, split48 x) /\
  jrand48 g s = (s32 (x / 2 ^ 16), split48 x) /\
  erand48 g s = (16 * x, split48 x) /\
  val48 (split48 x) = x /\ ok48 (split48 x) /\ 0 <= x / 2 ^ 17 < 2 ^ 31.

Lemma draws48_ok g s : seed_ok g -> ok48 s -> draws48 g s.
Proof.
  intros Hg Hs. unfold draws48, nrand48, jrand48, erand48.
  rewrite rand48_step_next by done. pose proof (next48_range g (val48 s)) as Hr.
  set (x := next48 g (val48 s)) in *. rewrite !Z.shiftr_div_pow2 by lia.
  do 2 (split; [done|]). split.
  { f_equal. rewrite Z.shiftl_mul_pow2 by lia. unfold u64, double_in_1_2.
    rewrite (Z.mod_small (x * 2 ^ 4)), Z.lor_comm by lia.
    change 0x3ff0000000000000 with (1023 * 2 ^ 52). rewrite lor_add_low, Z.land_ones by lia.
    rewrite Z.mod_add, Z.mod_small by lia. lia. }
  split; [rewrite val48_split; by apply Z.mod_small|]. split; [apply split48_ok|].
  Z.div_mod_to_equations. lia.
Qed.

(** For a generator state of 48 bits and any multiplier and increment that
    [lcong48] can set, [nrand48] returns the top 31 bits of the next member
    [a x + c mod 2^48] of the sequence, [jrand48] its top 32 as a signed
    number, and [erand48] subtracts 1 from the double whose fraction is that
    member, so its result is the member over [2^48] (16 of its units of
    2^-52 each); each stores the member
    back.  [lrand48], [mrand48] and [drand48] are the same on the library's
    own state and keep its multiplier.  [seed48] gives back the state it
    replaces: a second call with a copy of it resumes the interrupted
    sequence, one with the returned pointer itself changes nothing, since the
    function overwrites what it points to first.  [srand48] starts at the
    seed above 0x330e. *)
Theorem rand48_correct g s n :
  seed_ok g -> ok48 s ->
  draws48 g s /\
  (let x := next48 g (val48 (xi g)) in
   lrand48 g = (x / 2 ^ 17, with_xi g (split48 x)) /\
   mrand48 g = (s32 (x / 2 ^ 16), with_xi g (split48 x)) /\
   drand48 g = (16 * x, with_xi g (split48 x)) /\
   seed_ok (with_xi g (split48 x))) /\
  (let (old, g') := seed48 g (Some s) in
   xi g' = s /\ snd (seed48 g' (Some old)) = g /\ snd (seed48 g' None) = g') /\
  seed_ok (srand48 g n) /\ val48 (xi (srand48 g n)) = 0x330e + 2 ^ 16 * u32 n.
Proof.
  intros Hg Hs. split; [by apply draws48_ok|]. split; [|split; [|split]].
  - destruct (draws48_ok g (xi g)) as (E1 & E2 & E3 & _ & Hok & _); [done|apply Hg|].
    unfold lrand48, mrand48, drand48. rewrite E1, E2, E3.
    destruct Hg as (_ & ? & ?). do 3 (split; [done|]). by split.
  - by destruct g.
  - destruct Hg as (_ & ? & ?). split; [|done]. unfold ok48. cbn [srand48 seed48 snd with_xi xi w0 w1 w2].
    unfold u16. Z.div_mod_to_equations. lia.
  - unfold val48. cbn [srand48 seed48 snd with_xi xi w0 w1 w2]. unfold u16, u32.
    rewrite Z.shiftr_div_pow2 by lia. Z.div_mod_to_equations. lia.
Qed.

Lemma rand48_correct_witness :
  draws48 __seed48 (mk48 1 2 3) /\ snd (lrand48 (srand48 __seed48 (-5))) <> __seed48.
Proof.
  split; [|vm_compute; congruence].
  apply (rand48_correct __seed48 (mk48 1 2 3) (-5)); vm_compute; repeat split; congruence.
Defined.

(** ** Tempering loses nothing

    [temper] is linear over exclusive or, so that a left inverse need only be
    checked on the 32 powers of two. *)

Definition linear (f : Z -> Z) : Prop := forall x y, f (Z.lxor x y) = Z.lxor (f x) (f y).

Lemma linear_basis f n :
  linear f -> (forall i, 0 <= i < Z.of_nat n -> f (2 ^ i) = 2 ^ i) ->
  forall x, 0 <= x < 2 ^ Z.of_nat n -> f x = x.
Proof.
  intros Hf. induction n as [|n IH]; intros Hb x Hx.
  - change (2 ^ Z.of_nat 0) with 1 in Hx.
    replace x with (Z.lxor 0 0) by (change (Z.lxor 0 0) with 0; lia).
    by rewrite Hf, Z.lxor_nilpotent.
  - rewrite Nat2Z.inj_succ, Z.pow_succ_r in Hx by lia.
    destruct (Z.ltb_spec x (2 ^ Z.of_nat n)); [apply IH; auto with lia|].
    replace x with (Z.lxor (2 ^ Z.of_nat n) (x - 2 ^ Z.of_nat n)).
    + rewrite Hf, (IH ltac:(auto with lia) (x - _)), Hb by lia. done.
    + rewrite <- Z.add_nocarry_lxor; [lia|]. apply Z.bits_inj'. intros i Hi.
      rewrite Z.land_spec, Z.bits_0, Z.pow2_bits_eqb by lia.
      destruct (Z.eqb_spec (Z.of_nat n) i) as [<-|]; [|done].
      rewrite <- (Z.mod_small (x - _) (2 ^ Z.of_nat n)) by lia.
      by rewrite Z.mod_pow2_bits_high by lia.
Qed.

Lemma linear_shiftr k : 0 <= k -> linear (fun x => Z.shiftr x k).
Proof. intros Hk x y. by rewrite Z.shiftr_lxor. Qed.

Lemma linear_mask k m : 0 <= k -> linear (fun x => Z.land (u32 (Z.shiftl x k)) m).
Proof.
  intros Hk x y. apply Z.bits_inj'. intros i Hi. unfold u32.
  change 4294967296 with (2 ^ 32). rewrite <- !Z.land_ones by lia.
  rewrite !Z.lxor_spec, !Z.land_spec, !Z.shiftl_spec, Z.lxor_spec by lia.
  by destruct (Z.testbit x _), (Z.testbit y _), (Z.testbit m _), (Z.testbit (Z.ones 32) _).
Qed.

Lemma linear_step f : linear f -> linear (fun x => Z.lxor x (f x)).
Proof.
  intros Hf x y. rewrite Hf. apply Z.bits_inj'. intros i Hi. rewrite !Z.lxor_spec.
  by destruct (Z.testbit x i), (Z.testbit y i), (Z.testbit (f x) i), (Z.testbit (f y) i).
Qed.

Lemma linear_comp f g : linear f -> linear g -> linear (fun x => f (g x)).
Proof. intros Hf Hg x y. by rewrite Hg, Hf. Qed.

(** One step [x ^= f x] and the steps of [temper] and of its inverse. *)
Definition xstep (f : Z -> Z) (x : Z) : Z := Z.lxor x (f x).
Definition t1 (x : Z) : Z := Z.shiftr x 11.
Definition t2 (x : Z) : Z := Z.land (u32 (Z.shiftl x 7)) 0x9D2C5680.
Definition t3 (x : Z) : Z := Z.land (u32 (Z.shiftl x 15)) 0xEFC60000.
Definition t4 (x : Z) : Z := Z.shiftr x 18.

(** [y = x ^ f x] is undone by [n] rounds of [x = y ^ f x]. *)
Fixpoint undo (f : Z -> Z) (n : nat) (y : Z) : Z :=
  match n with O => y | S n' => Z.lxor y (f (undo f n' y)) end.

Lemma linear_undo f n : linear f -> linear (undo f n).
Proof.
  intros Hf. induction n as [|n IH]; intros x y; simpl; [done|].
  rewrite IH, Hf. apply Z.bits_inj'. intros i Hi. rewrite !Z.lxor_spec.
  by destruct (Z.testbit x i), (Z.testbit y i), (Z.testbit (f (undo f n x)) i),
    (Z.testbit (f (undo f n y)) i).
Qed.

Definition untemper (y : Z) : Z := undo t1 2 (undo t2 4 (undo t3 2 (undo t4 1 y))).

Lemma temper_steps x : temper x = xstep t4 (xstep t3 (xstep t2 (xstep t1 x))).
Proof. done. Qed.

Lemma untemper_temper x : is_u32 x -> untemper (temper x) = x.
Proof.
  intros Hx. apply (linear_basis (fun x => untemper (temper x)) 32).
  2: { intros i Hi. apply Z.eqb_eq. revert i Hi.
       apply (forall_range (fun i => untemper (temper (2 ^ i)) =? 2 ^ i) 0 32). by vm_compute. }
  2: zlia.
  assert (linear t1 /\ linear t2 /\ linear t3 /\ linear t4) as (H1 & H2 & H3 & H4)
    by (repeat split; first [apply linear_shiftr; lia | apply linear_mask; lia]).
  intros a b. rewrite !temper_steps. unfold xstep, untemper.
  rewrite (linear_step _ H1), (linear_step _ H2), (linear_step _ H3), (linear_step _ H4).
  by rewrite (linear_undo _ 1 H4), (linear_undo _ 2 H3), (linear_undo _ 4 H2), (linear_undo _ 2 H1).
Qed.

Lemma iter_ext {A} (f g : A -> A) n x : (forall x, f x = g x) -> Nat.iter n f x = Nat.iter n g x.
Proof. intros E. induction n as [|n IH]; [done|]. by rewrite !Nat.iter_succ, IH, E. Qed.

Lemma iter48 g n s :
  seed_ok g -> ok48 s ->
  Nat.iter n (fun s => snd (nrand48 g s)) s = split48 (Nat.iter n (next48 g) (val48 s)) /\
  0 <= Nat.iter n (next48 g) (val48 s) < 2 ^ 48.
Proof.
  intros Hg Hs. induction n as [|n [IH Hr]].
  - simpl. split; [by rewrite split48_val|by apply val48_range].
  - rewrite !Nat.iter_succ. split; [|apply next48_range].
    set (x := Nat.iter n (next48 g) (val48 s)) in *. rewrite IH.
    destruct (draws48_ok g (split48 x)) as [E _]; [done|apply split48_ok|].
    rewrite E, val48_split. simpl snd. by rewrite (Z.mod_small x).
Qed.

(** C33: Every generator of the congruential kind runs through all the states
    of its width before it repeats one: the state of [rand] (64 bits), the
    seed of [rand_r] (32), the word of [random] in its smallest configuration
    (31) and the state of the 48-bit functions with the default multiplier
    come back after [n] calls exactly when the number of states divides [n].
    [temper], which [rand_r] applies to its seed, is injective on words. *)
Theorem prng_periods n :
  (forall x, 0 <= x < 2 ^ 64 ->
     Nat.iter n (fun x => snd (rand x)) x = x <-> (2 ^ 64 | Z.of_nat n)) /\
  (forall x, 0 <= x < 2 ^ 32 ->
     Nat.iter n (fun x => snd (rand_r x)) x = x <-> (2 ^ 32 | Z.of_nat n)) /\
  (forall x, 0 <= x < 2 ^ 31 -> Nat.iter n lcg31 x = x <-> (2 ^ 31 | Z.of_nat n)) /\
  (forall s, ok48 s ->
     Nat.iter n (fun s => snd (nrand48 __seed48 s)) s = s <-> (2 ^ 48 | Z.of_nat n)) /\
  (forall x y, is_u32 x -> is_u32 y -> temper x = temper y -> x = y).
Proof.
  assert (Hodd : Z.Odd 12345) by (by exists 6172). repeat split_and.
  - intros x Hx. apply (lcg_period 6364136223846793005 1 eq_refl ltac:(by exists 0) 64). done.
  - intros x Hx. rewrite (iter_ext _ (fun x => (1103515245 * x + 12345) mod 2 ^ Z.of_nat 32)).
    + by apply lcg_period.
    + intros y. unfold rand_r, u32. simpl snd. by rewrite (Z.mul_comm y).
  - intros x Hx. rewrite (iter_ext _ (fun x => (1103515245 * x + 12345) mod 2 ^ Z.of_nat 31)).
    + by apply lcg_period.
    + intros y. unfold lcg31, u32. change 0x7fffffff with (Z.ones 31). rewrite Z.land_ones by lia.
      change 4294967296 with (2 ^ Z.of_nat 31 * 2). rewrite Z.rem_mul_r by lia.
      change (Z.of_nat 31) with 31.
      by rewrite (Z.mul_comm (2 ^ 31)), Z.mod_add, Z.mod_mod by lia.
  - intros s Hs. destruct (iter48 __seed48 n s) as [-> Hr]; [by repeat split|done|].
    rewrite <- (lcg_period 0x5deece66d 0xb eq_refl ltac:(by exists 5) 48 n (val48 s))
      by (by apply val48_range).
    change (fun x : Z => (0x5deece66d * x + 0xb) mod 2 ^ Z.of_nat 48) with (next48 __seed48).
    split; intros E; [|by rewrite E, split48_val].
    rewrite <- E at 2. by rewrite val48_split, Z.mod_small.
  - intros x y Hx Hy E. by rewrite <- (untemper_temper x), <- (untemper_temper y), E.
Qed.

(** ** The additive generator is a shift register *)

(** [gen m g ws]: the words [ws] of generator [g] are in [m], with room for
    the header in front. *)
Definition gen (m : gmap Z Z) (g : rng) (ws : list Z) : Prop :=
  rng_x g mod 4 = 0 /\ words_at m (rng_x g) ws /\ mapped m (rng_x g - 4) 4 /\
  Z.of_nat (length ws) = Z.max 1 (rng_n g) /\ 0 <= rng_n g < 256 /\
  0 <= rng_i g < 256 /\ 0 <= rng_j g < 256 /\
  (rng_n g <> 0 -> rng_i g < rng_n g /\ rng_j g < rng_n g).

(** The words oldest first, and how far the second summand is behind. *)
Definition register (g : rng) (ws : list Z) : list Z :=
  drop (Z.to_nat (rng_i g)) ws ++ take (Z.to_nat (rng_i g)) ws.
Definition tap (g : rng) : nat := Z.to_nat ((rng_j g - rng_i g) mod rng_n g).

(** One step of the register: the oldest word leaves, its sum with the tap
    enters, and the sum without its lowest bit is the result. *)
Definition shift (k : nat) (l : list Z) : Z * list Z :=
  let v := u32 (nth 0 l 0 + nth k l 0) in (v / 2, tail l ++ [v]).

Lemma register_insert i (ws : list Z) v :
  (i < length ws)%nat ->
  let i' := if decide (i + 1 = length ws)%nat then 0%nat else (i + 1)%nat in
  drop i' (<[i := v]> ws) ++ take i' (<[i := v]> ws) = tail (drop i ws ++ take i ws) ++ [v].
Proof.
  intros Hi. destruct (lookup_lt_is_Some_2 ws i Hi) as [w Hw].
  apply list_elem_of_split_length in Hw as (a & b & -> & ->).
  rewrite insert_app_r_alt, Nat.sub_diag, drop_app_length, take_app_length by lia. simpl.
  case_decide as Hd; len.
  - assert (b = []) as -> by (destruct b; [done|simpl in *; lia]). simpl. by rewrite app_nil_r.
  - rewrite (cons_middle v a b), app_assoc.
    rewrite drop_app_length', take_app_length' by (rewrite length_app; simpl; lia).
    by rewrite <- app_assoc.
Qed.

Lemma register_tap i j (ws : list Z) :
  (i < length ws)%nat -> (j < length ws)%nat ->
  (drop i ws ++ take i ws) !! Z.to_nat ((Z.of_nat j - Z.of_nat i) mod Z.of_nat (length ws)) = ws !! j.
Proof.
  intros Hi Hj. destruct (decide (i <= j)%nat).
  - rewrite Z.mod_small by lia. rewrite lookup_app_l by (rewrite length_drop; lia).
    rewrite lookup_drop. f_equal. lia.
  - rewrite <- (Z.mod_add _ 1), Z.mod_small by lia.
    rewrite lookup_app_r by (rewrite length_drop; lia).
    rewrite length_drop, lookup_take_lt by lia. f_equal. lia.
Qed.

Lemma tap_step i j n :
  0 < n -> 0 <= i < n -> 0 <= j < n ->
  ((if j + 1 =? n then 0 else j + 1) - (if i + 1 =? n then 0 else i + 1)) mod n = (j - i) mod n.
Proof.
  intros. zb; try (f_equal; lia).
  - replace (0 - (i + 1)) with (j - i + -1 * n) by lia. by rewrite Z.mod_add by lia.
  - replace (j + 1 - 0) with (j - i + 1 * n) by lia. by rewrite Z.mod_add by lia.
Qed.

(** What a draw keeps: the place and size of the generator and all other
    memory. *)
Definition kept (s s' : state) (g g' : rng) : Prop :=
  rng_x g' = rng_x g /\ rng_n g' = rng_n g /\ s' = set_mem s (mem s') /\
  only_in (mem s) (mem s') (rng_x g) (4 * Z.max 1 (rng_n g)).

Lemma kept_refl s g : kept s s g g.
Proof. repeat split. by rewrite set_mem_id. Qed.

Lemma kept_trans s1 s2 s3 g1 g2 g3 : kept s1 s2 g1 g2 -> kept s2 s3 g2 g3 -> kept s1 s3 g1 g3.
Proof.
  intros (E1 & E2 & E3 & H) (F1 & F2 & F3 & H'). rewrite E1, E2 in *.
  split; [done|]. split; [done|]. split; [by rewrite F3, E3|]. by eapply only_in_trans.
Qed.

Lemma random_step s g ws :
  gen (mem s) g ws -> rng_n g <> 0 ->
  exists g' ws' s', random g s = Ok ((shift (tap g) (register g ws)).1, g') s' /\
    gen (mem s') g' ws' /\ register g' ws' = (shift (tap g) (register g ws)).2 /\
    tap g' = tap g /\ kept s s' g g'.
Proof.
  destruct g as [n i j x]. unfold gen. cbn [rng_n rng_i rng_j rng_x].
  intros (Hx & Hw & Hm & Hlen & Hn & Hi & Hj & Hij) Hn0. specialize (Hij Hn0).
  rewrite Z.max_r in Hlen by lia.
  assert (Hi' : (Z.to_nat i < length ws)%nat) by lia.
  assert (Hj' : (Z.to_nat j < length ws)%nat) by lia.
  destruct (lookup_lt_is_Some_2 ws _ Hi') as [a Ha], (lookup_lt_is_Some_2 ws _ Hj') as [b Hb].
  pose proof (words_load s x ws _ a Hw Hx Ha) as La. rewrite Z2Nat.id in La by lia.
  pose proof (words_load s x ws _ b Hw Hx Hb) as Lb. rewrite Z2Nat.id in Lb by lia.
  pose proof (words_store_ok s x ws _ (u32 (a + b)) Hw Hx Hi') as St.
  pose proof (words_store _ x ws _ (u32 (a + b)) Hw Hi' (u32_range _)) as Hw'.
  rewrite Z2Nat.id in St, Hw' by lia.
  set (m' := write_bytes (mem s) (x + 4 * i) (word_bytes (u32 (a + b)))) in *.
  assert (Lv : load32 (x + 4 * i) (set_mem s m') = Ok (u32 (a + b)) (set_mem s m')).
  { eapply load32_store; [apply u32_range| |done].
    rewrite (Z.mul_comm 4), Z.mod_add by lia. done. }
  assert (Ov : only_in (mem s) m' x (4 * n)).
  { apply only_in_write; [lia|]. change (length (word_bytes _)) with 4%nat. lia. }
  set (i' := if i + 1 =? n then 0 else i + 1). set (j' := if j + 1 =? n then 0 else j + 1).
  exists (mkRng n i' j' x), (<[Z.to_nat i := u32 (a + b)]> ws), (set_mem s m').
  assert (Er : shift (tap (mkRng n i j x)) (register (mkRng n i j x) ws) =
    (u32 (a + b) / 2, tail (drop (Z.to_nat i) ws ++ take (Z.to_nat i) ws) ++ [u32 (a + b)])).
  { unfold shift, register, tap. cbn [rng_n rng_i rng_j].
    pose proof (register_tap _ _ ws Hi' Hj') as Ek. pose proof (register_tap _ _ ws Hi' Hi') as E0.
    rewrite (Z2Nat.id i), Hlen in Ek, E0 by lia. rewrite (Z2Nat.id j) in Ek by lia.
    rewrite Z.sub_diag in E0.
    change (Z.to_nat (0 mod n)) with 0%nat in E0. rewrite Ha in E0. rewrite Hb in Ek.
    by rewrite (nth_lookup_Some _ _ _ _ E0), (nth_lookup_Some _ _ _ _ Ek). }
  rewrite Er. split; [|split; [|split; [|split]]].
  - unfold random. rewrite (proj2 (Z.eqb_neq n 0) Hn0), (bind_ok _ _ _ _ _ La), (bind_ok _ _ _ _ _ Lb),
      (bind_ok _ _ _ _ _ St), (bind_ok _ _ _ _ _ Lv), Z.shiftr_div_pow2 by lia. done.
  - cbn [rng_n rng_i rng_j rng_x]. rewrite mem_set_mem, length_insert.
    assert (0 <= i' < n /\ 0 <= j' < n) as [? ?] by (unfold i', j'; zb; lia).
    split; [done|]. split; [done|]. split; [by apply mapped_write|]. lia.
  - unfold register. cbn [rng_i snd]. rewrite <- register_insert by done.
    unfold i'. case_decide; zb; try lia; [done|].
    by rewrite Z2Nat.inj_add by lia.
  - unfold tap. cbn [rng_n rng_i rng_j]. f_equal. apply tap_step; lia.
  - unfold kept. cbn [rng_n rng_x]. rewrite mem_set_mem, Z.max_r by lia. done.
Qed.

(** [N] calls of [random] in a row, and [N] steps of the register. *)
Fixpoint draws (N : nat) (g : rng) : M (list Z * rng) :=
  match N with
  | O => ret ([], g)
  | S N' =>
      let* (r, g) := random g in
      let* (rs, g) := draws N' g in
      ret (r :: rs, g)
  end.

Fixpoint stream (k N : nat) (l : list Z) : list Z * list Z :=
  match N with
  | O => ([], l)
  | S N' => let (r, l) := shift k l in let (rs, l) := stream k N' l in (r :: rs, l)
  end.

Lemma shift_odd k l :
  (0 < k < length l)%nat -> Exists Z.Odd l -> Exists Z.Odd (shift k l).2.
Proof.
  intros Hk Hl. destruct l as [|w l]; [by apply Exists_nil in Hl|]. simpl tail. unfold shift. simpl.
  apply Exists_app. destruct (decide (Exists (fun x => Z.odd x = true) l)) as [Ho|Ho].
  { left. eapply Exists_impl; [done|]. intros x Hx. by apply Z.odd_spec. }
  right. apply Exists_cons. left.
  assert (Hw : Z.Odd w).
  { apply Exists_cons in Hl as [|Hl]; [done|]. destruct Ho. eapply Exists_impl; [done|].
    intros x Hx. by apply Z.odd_spec. }
  assert (He : Z.Even (match k with O => w | S m => nth m l 0 end)).
  { destruct k as [|k]; [lia|]. simpl in Hk. destruct (Z.Even_or_Odd (nth k l 0)) as [|Hx]; [done|].
    destruct Ho. apply Exists_exists. exists (nth k l 0). split; [|by apply Z.odd_spec].
    apply list_elem_of_In, nth_In. lia. }
  destruct Hw as [a ->], He as [b ->]. unfold u32. exists ((2 * a + 1 + 2 * b) mod 4294967296 / 2).
  Z.div_mod_to_equations. lia.
Qed.

Lemma shift_length k l : l <> [] -> length (shift k l).2 = length l.
Proof. destruct l as [|w l]; [done|]. intros _. simpl. rewrite length_app. simpl. lia. Qed.

Lemma register_length g ws : length (register g ws) = length ws.
Proof. unfold register. rewrite length_app, length_drop, length_take. lia. Qed.

Lemma Exists_register g ws : Exists Z.Odd (register g ws) <-> Exists Z.Odd ws.
Proof.
  unfold register. rewrite <- (take_drop (Z.to_nat (rng_i g)) ws) at 3. rewrite !Exists_app. tauto.
Qed.

Lemma draws_register N s g ws :
  gen (mem s) g ws -> rng_n g <> 0 ->
  exists g' ws' s', draws N g s = Ok ((stream (tap g) N (register g ws)).1, g') s' /\
    gen (mem s') g' ws' /\ register g' ws' = (stream (tap g) N (register g ws)).2 /\
    kept s s' g g'.
Proof.
  revert s g ws. induction N as [|N IH]; intros s g ws Hg Hn.
  { exists g, ws, s. split; [done|]. split; [done|]. split; [done|]. apply kept_refl. }
  destruct (random_step s g ws Hg Hn) as (g1 & ws1 & s1 & E1 & H1 & R1 & T1 & K1).
  destruct (IH s1 g1 ws1 H1) as (g2 & ws2 & s2 & E2 & H2 & R2 & K2). { by rewrite (proj1 (proj2 K1)). }
  exists g2, ws2, s2. cbn [draws stream]. rewrite (bind_ok _ _ _ _ _ E1).
  destruct (shift (tap g) (register g ws)) as [r l]. cbn [fst snd] in *.
  rewrite (bind_ok _ _ _ _ _ E2), R1, T1 in *.
  destruct (stream (tap g) N l) as [rs l']. cbn [fst snd] in *.
  split; [done|]. split; [done|]. split; [done|]. by eapply kept_trans.
Qed.

Lemma stream_odd k N l :
  (0 < k < length l)%nat -> Exists Z.Odd l -> Exists Z.Odd (stream k N l).2.
Proof.
  revert l. induction N as [|N IH]; intros l Hk Hl; [done|]. cbn [stream].
  pose proof (shift_odd k l Hk Hl) as Ho.
  pose proof (shift_length k l ltac:(by intros ->; simpl in Hk; lia)) as Hlen.
  destruct (shift k l) as [r l1]. cbn [snd] in *. specialize (IH l1 ltac:(lia) Ho).
  by destruct (stream k N l1).
Qed.

Lemma stream_range k N l : Forall (fun r => 0 <= r < 2 ^ 31) (stream k N l).1.
Proof.
  revert l. induction N as [|N IH]; intros l; [constructor|]. cbn [stream]. unfold shift.
  specialize (IH (tail l ++ [u32 (nth 0 l 0 + nth k l 0)])).
  destruct (stream k N _). constructor; [|done].
  pose proof (u32_range (nth 0 l 0 + nth k l 0)). Z.div_mod_to_equations. lia.
Qed.

Lemma lcg31_range x : 0 <= lcg31 x < 2 ^ 31.
Proof.
  unfold lcg31. change 0x7fffffff with (Z.ones 31). rewrite Z.land_ones by lia.
  apply Z.mod_pos_bound. lia.
Qed.

Lemma draws_lcg N s g w :
  gen (mem s) g [w] -> rng_n g = 0 ->
  exists s', draws N g s = Ok ((fun t => Nat.iter t lcg31 w) <$> seq 1 N, g) s' /\
    gen (mem s') g [Nat.iter N lcg31 w] /\ kept s s' g g.
Proof.
  revert s w. induction N as [|N IH]; intros s w Hg Hn.
  { exists s. split; [done|]. split; [done|]. apply kept_refl. }
  pose proof Hg as (Hx & Hw & Hm & Hl).
  pose proof (words_load s _ _ 0 w Hw Hx eq_refl) as L.
  pose proof (words_store_ok s _ _ 0 (lcg31 w) Hw Hx ltac:(simpl; lia)) as St.
  pose proof (words_store _ _ _ 0 (lcg31 w) Hw ltac:(simpl; lia)) as Hw'.
  replace (rng_x g + 4 * Z.of_nat 0) with (rng_x g) in * by lia.
  set (s1 := set_mem s _) in St.
  assert (K : kept s s1 g g).
  { repeat split. apply only_in_write; [lia|]. change (length (word_bytes _)) with 4%nat. lia. }
  destruct (IH s1 (lcg31 w)) as (s2 & E2 & H2 & K2); [|done|].
  { split; [done|]. split; [apply Hw'; pose proof (lcg31_range w); zlia|].
    split; [|done]. by apply mapped_write. }
  exists s2. split; [|split; [|by eapply kept_trans]].
  - cbn [draws]. assert (E1 : random g s = Ok (lcg31 w, g) s1).
    { destruct g as [n i j x]. cbn [rng_n rng_x] in *. subst n. unfold random.
      change (0 =? 0) with true. cbv iota. rewrite (bind_ok _ _ _ _ _ L), (bind_ok _ _ _ _ _ St).
      pose proof (lcg31_range w). by rewrite s32_id by lia. }
    rewrite (bind_ok _ _ _ _ _ E1). cbv beta iota. rewrite (bind_ok _ _ _ _ _ E2).
    unfold ret. repeat f_equal. simpl seq. rewrite fmap_cons. f_equal.
    rewrite <- (seq_shift N 1). change (map S (seq 1 N)) with (S <$> seq 1 N).
    rewrite <- list_fmap_compose.
    apply list_fmap_ext. intros t x _. unfold compose. by rewrite Nat.iter_succ_r.
  - by rewrite Nat.iter_succ_r.
Qed.

Lemma draws_gen N s g ws :
  gen (mem s) g ws ->
  exists outs g' ws' s', draws N g s = Ok (outs, g') s' /\ gen (mem s') g' ws' /\ kept s s' g g'.
Proof.
  intros Hg. destruct (decide (rng_n g = 0)) as [E0|E0].
  - pose proof Hg as (_ & _ & _ & Hlen & _). destruct ws as [|w [|]]; simpl in Hlen; try lia.
    destruct (draws_lcg N s g w Hg E0) as (s' & E & Hg' & K). eauto 10.
  - destruct (draws_register N s g ws Hg E0) as (g' & ws' & s' & E & Hg' & R & K). eauto 10.
Qed.

(** C32: A generator with [n] words is a shift register: any number of calls of
    [random] return, without a fault, the successive sums of the oldest word
    and the one at the fixed tap, modulo 2^32 and halved, which are numbers of
    31 bits; the indices stay inside the array, only the array is written, and
    once it has an odd word (which [srandom] sees to) it always does, if the
    two indices differ.  With no register [random] returns the members of the
    31-bit congruential sequence. *)
Theorem random_refines s g ws N :
  gen (mem s) g ws ->
  exists outs g' ws' s', draws N g s = Ok (outs, g') s' /\ gen (mem s') g' ws' /\
    kept s s' g g' /\ Forall (fun r => 0 <= r < 2 ^ 31) outs /\
    (rng_n g <> 0 -> (outs, register g' ws') = stream (tap g) N (register g ws)) /\
    (rng_n g <> 0 -> rng_i g <> rng_j g -> Exists Z.Odd ws -> Exists Z.Odd ws') /\
    (rng_n g = 0 -> forall w, ws = [w] -> outs = (fun t => Nat.iter t lcg31 w) <$> seq 1 N).
Proof.
  intros Hg. pose proof Hg as (_ & _ & _ & Hlen & Hn & Hi & Hj & Hij).
  destruct (decide (rng_n g = 0)) as [E0|E0].
  - destruct ws as [|w [|]]; simpl in Hlen; try lia.
    destruct (draws_lcg N s g w Hg E0) as (s' & E & Hg' & K).
    exists ((fun t => Nat.iter t lcg31 w) <$> seq 1 N), g, [Nat.iter N lcg31 w], s'.
    split; [done|]. split; [done|]. split; [done|]. split;
      [|split; [done|]; split; [done|]; by intros _ w' [= ->]].
    apply Forall_fmap, Forall_forall. intros t Ht. apply elem_of_seq in Ht.
    destruct t as [|t]; [lia|]. apply lcg31_range.
  - destruct (draws_register N s g ws Hg E0) as (g' & ws' & s' & E & Hg' & R & K).
    exists (stream (tap g) N (register g ws)).1, g', ws', s'.
    split; [done|]. split; [done|]. split; [done|]. split; [apply stream_range|].
    split; [by intros _; rewrite R; destruct (stream _ _ _)|]. split; [|done].
    intros _ Hne Ho. rewrite <- (Exists_register g'), R. apply stream_odd.
    + rewrite register_length. unfold tap. specialize (Hij E0).
      assert ((rng_j g - rng_i g) mod rng_n g <> 0).
      { intros Ez. apply Z.mod_divide in Ez as [z Hz]; [|done].
        destruct (Z.lt_trichotomy z 0) as [|[->|]]; nia. }
      pose proof (Z.mod_pos_bound (rng_j g - rng_i g) (rng_n g)). lia.
    + by rewrite Exists_register.
Qed.

(** ** Seeding and switching generators *)

(** The words [__srandom] stores. *)
Fixpoint seeds (n : nat) (s : Z) : list Z :=
  match n with O => [] | S n' => Z.shiftr (lcg64 s) 32 :: seeds n' (lcg64 s) end.

Lemma seeds_length n s : length (seeds n s) = n.
Proof. revert s. induction n as [|n IH]; intros s; simpl; [done|]. by rewrite IH. Qed.

Lemma lcg64_high s : is_u32 (Z.shiftr (lcg64 s) 32).
Proof.
  unfold is_u32, lcg64, u64. rewrite Z.shiftr_div_pow2 by lia.
  pose proof (Z.mod_pos_bound (6364136223846793005 * s + 1) 18446744073709551616).
  Z.div_mod_to_equations. lia.
Qed.

Lemma seeds_u32 n s : Forall is_u32 (seeds n s).
Proof. revert s. induction n; intros s; constructor; auto using lcg64_high. Qed.

(** The seeding loop replaces the words from [k] on. *)
Lemma srandom_loop s x ws k sd :
  words_at (mem s) x ws -> x mod 4 = 0 -> (k <= length ws)%nat ->
  exists s', lrun (srandom_body (Z.of_nat (length ws)) x) (Z.of_nat (length ws - k) + 1)
      (Z.of_nat k, sd) s tt s' /\
    words_at (mem s') x (take k ws ++ seeds (length ws - k) sd) /\
    s' = set_mem s (mem s') /\ only_in (mem s) (mem s') x (4 * Z.of_nat (length ws)).
Proof.
  intros Hw Hx Hk. remember (length ws - k)%nat as d eqn:Hd. revert s ws k sd Hw Hk Hd.
  induction d as [|d IH]; intros s ws k sd Hw Hk Hd.
  - exists s. rewrite take_ge, app_nil_r by lia. split; [|by rewrite set_mem_id].
    apply lrun_done; [|lia]. unfold srandom_body. by rewrite (proj2 (Z.ltb_ge _ _)) by lia.
  - set (v := Z.shiftr (lcg64 sd) 32).
    pose proof (words_store_ok s x ws k v Hw Hx ltac:(lia)) as St.
    pose proof (words_store _ x ws k v Hw ltac:(lia) (lcg64_high sd)) as Hw1.
    set (s1 := set_mem s _) in St.
    destruct (IH s1 (<[k := v]> ws) (S k) (lcg64 sd)) as (s' & R & Hw' & E & O);
      [done|rewrite length_insert; lia..|].
    rewrite length_insert in R, O. exists s'. split; [|split; [|split]].
    + eapply lrun_next.
      * unfold srandom_body. rewrite (proj2 (Z.ltb_lt _ _)) by lia. cbv beta iota zeta.
        fold v. by rewrite (bind_ok _ _ _ _ _ St).
      * replace (Z.of_nat k + 1) with (Z.of_nat (S k)) by lia.
        by replace (Z.of_nat (S d) + 1 - 1) with (Z.of_nat d + 1) by lia.
    + replace (take k ws ++ seeds (S d) sd) with (take (S k) (<[k := v]> ws) ++ seeds d (lcg64 sd)); [done|].
      rewrite (take_S_r _ _ v) by (apply list_lookup_insert_eq; lia).
      rewrite take_insert_ge, <- app_assoc by lia. done.
    + done.
    + eapply only_in_trans; [|done]. apply only_in_write; [lia|].
      change (length (word_bytes _)) with 4%nat. lia.
Qed.

Lemma lor_1 w : Z.lor w 1 = 2 * (w / 2) + 1.
Proof.
  apply Z.bits_inj'. intros i Hi. rewrite Z.lor_spec. destruct (Z.eqb_spec i 0) as [->|].
  - rewrite Z.testbit_odd_0. by rewrite orb_true_r.
  - replace i with (Z.succ (i - 1)) by lia. rewrite Z.testbit_odd_succ by lia.
    change (Z.testbit 1 _) with (Z.testbit (2 * 0 + 1) (Z.succ (i - 1))).
    rewrite Z.testbit_odd_succ, Z.bits_0, orb_false_r by lia.
    by rewrite Z.div2_bits by lia.
Qed.

Definition seeded (n sd : Z) : list Z :=
  if n =? 0 then [sd]
  else match seeds (Z.to_nat n) sd with w :: ws => Z.lor w 1 :: ws | [] => [] end.

Lemma srandom_ok s g ws sd :
  rng_x g mod 4 = 0 -> words_at (mem s) (rng_x g) ws -> mapped (mem s) (rng_x g - 4) 4 ->
  Z.of_nat (length ws) = Z.max 1 (rng_n g) -> rng_n g = 0 \/ 3 < rng_n g < 256 ->
  0 <= rng_i g < 256 -> 0 <= rng_j g < 256 -> is_u32 sd ->
  exists g' s', srandom g sd s = Ok g' s' /\ gen (mem s') g' (seeded (rng_n g) sd) /\
    kept s s' g g' /\ (rng_n g <> 0 -> rng_i g' <> rng_j g' /\ Exists Z.Odd (seeded (rng_n g) sd)).
Proof.
  destruct g as [n i j x]. cbn [rng_n rng_i rng_j rng_x]. intros Hx Hw Hm Hl Hn Hi Hj Hsd.
  unfold srandom, seeded. destruct (Z.eqb_spec n 0) as [->|Hn0].
  - destruct ws as [|w [|]]; simpl in Hl; try lia.
    pose proof (words_store_ok s x _ 0 sd Hw Hx ltac:(simpl; lia)) as St.
    pose proof (words_store _ x _ 0 sd Hw ltac:(simpl; lia) Hsd) as Hw'.
    replace (x + 4 * Z.of_nat 0) with x in * by lia. rewrite (bind_ok _ _ _ _ _ St).
    exists (mkRng 0 i j x). eexists. split; [done|]. split; [|split; [|done]].
    + split; [done|]. split; [done|]. split; [by apply mapped_write|]. done.
    + repeat split. apply only_in_write; [cbn; lia|]. change (length (word_bytes _)) with 4%nat. cbn. lia.
  - rewrite Z.max_r in Hl by lia. destruct Hn as [|Hn]; [done|].
    destruct (srandom_loop s x ws 0 sd Hw Hx ltac:(lia)) as (s1 & R & Hw1 & E1 & O1).
    apply loop_lrun in R; [|lia]. rewrite Nat.sub_0_r in Hw1. change (take 0 ws) with (@nil Z) in Hw1.
    change (Z.of_nat 0) with 0 in R. rewrite Hl in R, O1. rewrite (bind_ok _ _ _ _ _ R).
    replace (Z.to_nat n) with (length ws) by lia.
    pose proof (seeds_length (length ws) sd) as Hsl. pose proof (seeds_u32 (length ws) sd) as Hsu.
    destruct (seeds (length ws) sd) as [|w r]; [simpl in Hsl; lia|]. cbn [app] in Hw1.
    apply Forall_cons in Hsu as [Hwu _]. assert (Hlu : is_u32 (Z.lor w 1)).
    { rewrite lor_1. unfold is_u32 in *. Z.div_mod_to_equations. lia. }
    pose proof (words_load s1 x _ 0 w Hw1 Hx eq_refl) as L.
    pose proof (words_store_ok s1 x _ 0 (Z.lor w 1) Hw1 Hx ltac:(simpl; lia)) as St.
    pose proof (words_store _ x _ 0 (Z.lor w 1) Hw1 ltac:(simpl; lia) Hlu) as Hw2.
    replace (x + 4 * Z.of_nat 0) with x in * by lia.
    rewrite (bind_ok _ _ _ _ _ L), (bind_ok _ _ _ _ _ St). unfold ret.
    eexists _, _. split; [done|]. cbn [rng_n rng_i rng_j rng_x].
    split; [|split; [|split]].
    + unfold gen. cbn [rng_n rng_i rng_j rng_x]. split; [done|]. split; [done|].
      split; [apply mapped_write; rewrite E1; apply (only_in_mapped _ _ _ _ _ _ O1); [right; lia|done]|].
      simpl length in *. destruct ((n =? 31) || (n =? 7)); lia.
    + unfold kept. cbn [rng_n rng_x]. rewrite Z.max_r by lia. split; [done|]. split; [done|].
      rewrite mem_set_mem. split; [by rewrite E1|]. eapply only_in_trans; [done|].
      apply only_in_write; [lia|]. change (length (word_bytes _)) with 4%nat. lia.
    + by destruct ((n =? 31) || (n =? 7)).
    + apply Exists_cons. left. rewrite lor_1. by exists (w / 2).
Qed.

(** The header [savestate] stores in front of the words. *)
Definition header (g : rng) : Z := rng_n g * 65536 + rng_i g * 256 + rng_j g.
Definition saved (m : gmap Z Z) (g : rng) : Prop := bytes_at m (rng_x g - 4) (word_bytes (header g)).

(** The bytes a generator occupies. *)
Definition extent (g : rng) : Z := 4 + 4 * Z.max 1 (rng_n g).
Definition apart (g1 g2 : rng) : Prop := disj (rng_x g1 - 4) (extent g1) (rng_x g2 - 4) (extent g2).

Lemma gen_frame m m' g ws p n :
  gen m g ws -> only_in m m' p n -> disj p n (rng_x g - 4) (extent g) -> gen m' g ws.
Proof.
  intros (Hx & Hw & Hm & Hl & H) Ho Hd. unfold extent, disj in Hd. split; [done|].
  split; [apply (only_in_words _ _ _ _ _ _ Ho); [unfold disj; lia|done]|].
  split; [apply (only_in_mapped _ _ _ _ _ _ Ho); [unfold disj; lia|done]|done].
Qed.

Lemma saved_frame m m' g p n :
  saved m g -> only_in m m' p n -> disj p n (rng_x g - 4) (extent g) -> saved m' g.
Proof.
  intros Hs Ho Hd. unfold saved in *. apply bytes_at_intro. intros k b Hk.
  pose proof (lookup_lt_Some _ _ _ Hk) as Hlt. change (length (word_bytes _)) with 4%nat in Hlt.
  rewrite Ho; [by eapply bytes_at_lookup|]. unfold disj, extent in Hd. lia.
Qed.

Lemma header_word m g ws :
  gen m g ws ->
  u32 (Z.lor (Z.lor (Z.shiftl (rng_n g) 16) (Z.shiftl (rng_i g) 8)) (rng_j g)) = header g /\
  is_u32 (header g).
Proof.
  intros (_ & _ & _ & _ & Hn & Hi & Hj & _). unfold header, is_u32. split; [|lia].
  rewrite !Z.shiftl_mul_pow2, (Z.lor_comm (rng_n g * _)), (lor_add_low (rng_i g * 2 ^ 8)) by lia.
  replace (rng_i g * 2 ^ 8 + rng_n g * 2 ^ 16) with ((rng_n g * 256 + rng_i g) * 2 ^ 8) by lia.
  rewrite Z.lor_comm, lor_add_low, u32_id by lia. lia.
Qed.

Lemma savestate_ok s g ws :
  gen (mem s) g ws ->
  exists s', savestate g s = Ok (rng_x g - 4) s' /\ gen (mem s') g ws /\ saved (mem s') g /\
    s' = set_mem s (mem s') /\ only_in (mem s) (mem s') (rng_x g - 4) 4.
Proof.
  intros Hg. destruct (header_word _ _ _ Hg) as [Eh Hh]. pose proof Hg as (Hx & Hw & Hm & Hl & H).
  unfold savestate. rewrite Eh. erewrite bind_ok.
  2: { apply store32_ok; [|done]. Z.div_mod_to_equations. lia. }
  eexists. split; [done|]. rewrite mem_set_mem.
  assert (O : only_in (mem s) (write_bytes (mem s) (rng_x g - 4) (word_bytes (header g))) (rng_x g - 4) 4)
    by (apply only_in_write; [lia|]; change (length (word_bytes _)) with 4%nat; lia).
  split; [|split; [apply write_bytes_at|done]].
  split; [done|]. split; [apply (only_in_words _ _ _ _ _ _ O); [left; lia|done]|].
  split; [by apply mapped_write|done].
Qed.

Lemma loadstate_ok s g ws :
  gen (mem s) g ws -> saved (mem s) g -> loadstate (rng_x g - 4) s = Ok g s.
Proof.
  intros Hg Hs. destruct (header_word _ _ _ Hg) as [_ Hh]. pose proof Hg as (Hx & _ & _ & _ & Hn & Hi & Hj & _).
  assert (L : load32 (rng_x g - 4 + 4 - 4) s = Ok (header g) s).
  { replace (rng_x g - 4 + 4 - 4) with (rng_x g - 4) by lia.
    apply load32_bytes; [Z.div_mod_to_equations; lia|done|done]. }
  unfold loadstate. rewrite !(bind_ok _ _ _ _ _ L). unfold ret. f_equal.
  change 0xff with (Z.ones 8). rewrite !Z.land_ones, !Z.shiftr_div_pow2 by lia.
  destruct g as [n i j x]. unfold header. cbn [rng_n rng_i rng_j rng_x] in *.
  f_equal; Z.div_mod_to_equations; lia.
Qed.

Lemma setstate_ok s g ws g2 ws2 :
  gen (mem s) g ws -> gen (mem s) g2 ws2 -> saved (mem s) g2 -> apart g g2 ->
  exists s', setstate g (rng_x g2 - 4) s = Ok (rng_x g - 4, g2) s' /\
    gen (mem s') g ws /\ gen (mem s') g2 ws2 /\ saved (mem s') g /\ s' = set_mem s (mem s').
Proof.
  intros Hg Hg2 Hs2 Hd. destruct (savestate_ok s g ws Hg) as (s' & E & Hg' & Hs' & Es & O).
  assert (D : disj (rng_x g - 4) 4 (rng_x g2 - 4) (extent g2))
    by (unfold apart, disj, extent in *; lia).
  pose proof (gen_frame _ _ _ _ _ _ Hg2 O D) as Hg2'.
  exists s'. split; [|done]. unfold setstate. rewrite (bind_ok _ _ _ _ _ E).
  erewrite bind_ok; [done|]. eapply loadstate_ok; [done|]. eapply saved_frame; eauto.
Qed.

Definition degree (size : Z) : Z :=
  if size <? 32 then 0 else if size <? 64 then 7 else if size <? 128 then 15
  else if size <? 256 then 31 else 63.

Lemma initstate_ok s g ws sd st size :
  gen (mem s) g ws -> is_u32 sd -> st mod 4 = 0 -> mem_wf (mem s) -> mapped (mem s) st size ->
  8 <= size -> disj (rng_x g - 4) (extent g) st size ->
  exists g1 s1, initstate g sd st size s = Ok (rng_x g - 4, g1) s1 /\
    rng_x g1 = st + 4 /\ rng_n g1 = degree size /\ extent g1 <= size /\
    gen (mem s1) g1 (seeded (degree size) sd) /\ saved (mem s1) g1 /\
    gen (mem s1) g ws /\ saved (mem s1) g /\ s1 = set_mem s (mem s1) /\
    (degree size <> 0 -> rng_i g1 <> rng_j g1 /\ Exists Z.Odd (seeded (degree size) sd)).
Proof.
  intros Hg Hsd Hst Hwf Hm Hsz Hd. unfold initstate. rewrite (proj2 (Z.ltb_ge size 8)) by lia.
  destruct (savestate_ok s g ws Hg) as (s1 & E1 & Hg1 & Hs1 & F1 & O1).
  rewrite (bind_ok _ _ _ _ _ E1). fold (degree size).
  assert (Hdeg : 4 + 4 * Z.max 1 (degree size) <= size /\ (degree size = 0 \/ 3 < degree size < 256))
    by (unfold degree; zb; lia).
  assert (D1 : disj (rng_x g - 4) 4 st size) by (unfold disj, extent in *; lia).
  assert (Hm1 : mapped (mem s1) st size) by (eapply only_in_mapped; eauto).
  pose proof Hg as (Hx & _ & _ & _ & _ & Hi & Hj & _).
  destruct (mapped_words_at (mem s) (st + 4) (Z.to_nat (Z.max 1 (degree size)))) as (w0 & Hl0 & Hw0);
    [done|intros a Ha; apply Hm; lia|].
  destruct (srandom_ok s1 (mkRng (degree size) (rng_i g) (rng_j g) (st + 4)) w0 sd)
    as (g2 & s2 & E2 & Hg2 & K2 & Ho2); cbn [rng_n rng_i rng_j rng_x]; try done; try lia.
  { Z.div_mod_to_equations. lia. }
  { apply (only_in_words _ _ _ _ _ _ O1); [|done]. unfold disj in *. lia. }
  { intros a Ha. apply Hm1. lia. }
  rewrite (bind_ok _ _ _ _ _ E2). destruct K2 as (K1 & K2 & K3 & K4). cbn [rng_n rng_x] in *.
  destruct (savestate_ok s2 g2 _ Hg2) as (s3 & E3 & Hg3 & Hs3 & F3 & O3).
  rewrite (bind_ok _ _ _ _ _ E3). unfold ret. exists g2, s3. split; [done|].
  assert (X : only_in (mem s1) (mem s3) st size).
  { eapply only_in_trans; eapply only_in_weaken; [exact K4| | |exact O3| |]; lia. }
  split; [done|]. split; [done|]. split; [unfold extent; lia|]. split; [done|]. split; [done|].
  assert (D : disj st size (rng_x g - 4) (extent g)) by (unfold disj in *; lia).
  split; [by eapply gen_frame|]. split; [by eapply saved_frame|].
  split; [by rewrite F3, K3, F1|done].
Qed.

(** [initstate] on a buffer of at least eight bytes apart from the current
    generator returns the address of the current state and installs a freshly
    seeded generator of the degree the size allows, inside the buffer, with
    distinct indices and an odd word; after any number of draws from it,
    [setstate] with that address returns the buffer and resumes the first
    generator with its indices and words as they were, and another [setstate]
    resumes the second.  A smaller buffer is refused and nothing changes. *)
Theorem initstate_setstate s g ws sd st size N :
  gen (mem s) g ws -> is_u32 sd -> st mod 4 = 0 -> mem_wf (mem s) -> mapped (mem s) st size ->
  disj (rng_x g - 4) (extent g) st size ->
  if size <? 8 then initstate g sd st size s = Ok (0, g) s
  else exists g1 s1 outs g2 ws2 s2 s3 s4,
    initstate g sd st size s = Ok (rng_x g - 4, g1) s1 /\
    gen (mem s1) g1 (seeded (degree size) sd) /\ rng_n g1 = degree size /\
    (degree size <> 0 -> rng_i g1 <> rng_j g1 /\ Exists Z.Odd (seeded (degree size) sd)) /\
    draws N g1 s1 = Ok (outs, g2) s2 /\
    setstate g2 (rng_x g - 4) s2 = Ok (st, g) s3 /\ gen (mem s3) g ws /\
    setstate g st s3 = Ok (rng_x g - 4, g2) s4 /\ gen (mem s4) g2 ws2 /\ gen (mem s4) g ws.
Proof.
  intros Hg Hsd Hst Hwf Hm Hd. destruct (Z.ltb_spec size 8) as [Hs|Hs].
  { unfold initstate. by rewrite (proj2 (Z.ltb_lt size 8)) by lia. }
  destruct (initstate_ok s g ws sd st size) as
    (g1 & s1 & E1 & X1 & N1 & B1 & Hg1 & _ & Hgo & Hso & _ & Hodd); [done..|].
  destruct (draws_gen N s1 g1 _ Hg1) as (outs & g2 & ws2 & s2 & E2 & Hg2 & K1 & K2 & _ & K4).
  assert (A : apart g1 g) by (unfold apart, disj in *; rewrite X1; lia).
  assert (D : disj (rng_x g1) (4 * Z.max 1 (rng_n g1)) (rng_x g - 4) (extent g)).
  { unfold apart, disj, extent in *. lia. }
  assert (A2 : apart g2 g) by (unfold apart, extent in *; by rewrite K1, K2).
  assert (A3 : apart g g2) by (unfold apart, disj in *; lia).
  destruct (setstate_ok s2 g2 ws2 g ws) as (s3 & E3 & Hg3 & Hgo3 & Hs3 & _); try done.
  { by eapply gen_frame. } { by eapply saved_frame. }
  destruct (setstate_ok s3 g ws g2 ws2) as (s4 & E4 & Hgo4 & Hg4 & _); try done.
  replace (rng_x g2 - 4) with st in * by lia.
  exists g1, s1, outs, g2, ws2, s2, s3, s4. repeat (split; [done|]). done.
Qed.

(** A state with the library's initial register of seven words at 4100 and a
    free buffer at 8192. *)
Definition sample_rng : rng := mkRng 7 3 0 4100.
Definition sample_words : list Z := [1; 20; 300; 4000; 4294967295; 2147483648; 7].
Definition sample_prng : state :=
  boot [(4096, concat (word_bytes <$> 0 :: sample_words)); (8192, replicate 128 170)].

Ltac sample_gen :=
  unfold gen; cbn [rng_n rng_i rng_j rng_x sample_rng]; split; [done|];
  split; [apply words_atb_spec; vm_compute; reflexivity|]; split; [ground|]; by vm_compute.

Lemma random_refines_witness :
  exists outs g' ws' s', draws 9 sample_rng sample_prng = Ok (outs, g') s' /\
    (outs, register g' ws') = stream 4 9 (register sample_rng sample_words) /\ Exists Z.Odd ws'.
Proof.
  destruct (random_refines sample_prng sample_rng sample_words 9) as (outs & g' & ws' & s' & E & _ & _ & _ & R & O & _).
  { sample_gen. }
  exists outs, g', ws', s'. split; [exact E|]. split; [apply R; vm_compute; congruence|].
  apply O; [vm_compute; congruence|vm_compute; congruence|]. apply Exists_cons. left. by exists 0.
Defined.

Lemma initstate_setstate_witness :
  exists g1 s1, initstate sample_rng 42 8192 128 sample_prng = Ok (4096, g1) s1 /\ rng_n g1 = 31.
Proof.
  pose proof (initstate_setstate sample_prng sample_rng sample_words 42 8192 128 5) as H.
  change (128 <? 8) with false in H. cbv iota in H.
  destruct H as (g1 & s1 & outs & g2 & ws2 & s2 & s3 & s4 & E & _ & En & _).
  - sample_gen.
  - unfold is_u32. lia.
  - done.
  - ground.
  - ground.
  - left. vm_compute. congruence.
  - exists g1, s1. split; [exact E|exact En].
Defined.

Lemma prng_periods_witness :
  snd (rand 5) <> 5 /\ (Nat.iter 2 (fun x => snd (rand_r x)) 7 = 7 <-> (2 ^ 32 | 2)).
Proof.
  split; [vm_compute; congruence|]. apply (prng_periods 2). lia.
Defined.
