(* ===== verification/HashMap.v ===== *)
(** * The hash map behind the resource tables ([library/misc/map.c])

    An open-addressed table with robin-hood displacement.  The table of
    processes, of their children and of Unix sockets are such maps.  A bucket
    is a record of its hash, its distance to its home bucket plus one ([dib],
    zero for a free bucket, kept in 16 bits) and its item; the map's block of
    buckets is a list as long as the block is, so that an access outside the
    block is an error of the model. *)

From S2P Require Import Prelude.
From Stdlib Require Import Permutation.

(** ** The code *)

(** [Oob] is an access outside the buckets, [Spin] a loop that goes on beyond
    the iterations allowed to it. *)
Inductive result (A : Type) : Type :=
  | Val (a : A)
  | Oob
  | Spin.
Arguments Val {A} a.
Arguments Oob {A}.
Arguments Spin {A}.

Definition rbind {A B} (c : result A) (k : A -> result B) : result B :=
  match c with Val a => k a | Oob => Oob | Spin => Spin end.

Declare Scope map_scope.
Delimit Scope map_scope with map.
Notation "'let!' x ':=' c 'in' k" := (rbind c (fun x => k))
  (at level 10, x pattern, c at level 100, k at level 200,
   format "'[v' 'let!'  x  ':='  c  'in' '/' k ']'") : map_scope.
Open Scope map_scope.

(** [GROW_AT] (0.60), 0.75 and [SHRINK_AT] (0.10) as the doubles they are,
    times the number of buckets, truncated; the number is a power of two, so
    the product is exact. *)
Definition times_grow_at (n : Z) : Z := n * 5404319552844595 / 2 ^ 53.
Definition times_0_75 (n : Z) : Z := n * 3 / 4.
Definition times_shrink_at (n : Z) : Z := n * 7205759403792794 / 2 ^ 56.

Definition clip_hash (hash : Z) : Z := Z.land hash 0xFFFFFFFFFFFF.

(** The doubling of [ncap] in [hashmap_new_with_allocator]. *)
Fixpoint cap_loop (fuel : nat) (ncap cap : Z) : result Z :=
  match fuel with
  | O => Spin
  | S fuel => if ncap <? cap then cap_loop fuel (u32 (ncap * 2)) cap else Val ncap
  end.

(** The rounding of [bucketsz] to the size of a pointer. *)
Fixpoint align_loop (fuel : nat) (bucketsz : Z) : result Z :=
  match fuel with
  | O => Spin
  | S fuel => if negb (Z.land bucketsz 3 =? 0) then align_loop fuel (u32 (bucketsz + 1)) else Val bucketsz
  end.

Section Code.
Context {I : Type}.

Record bucket := mkBucket { b_hash : Z; b_dib : Z; b_item : I }.

(** [elfree] tells whether there is a function to free items. *)
Record hashmap := mkMap {
  elsize : Z; cap : Z; seed0 : Z; seed1 : Z; elfree : bool; bucketsz : Z;
  nbuckets : Z; count : Z; mask : Z; growat : Z; shrinkat : Z; growpower : Z;
  oom : bool; buckets : list bucket;
}.

(** The user's hash function, comparison (possibly NULL) and the item whose
    bytes are all zero. *)
Context (hash : I -> Z -> Z -> Z) (compare : option (I -> I -> Z)) (zero_item : I).

Definition free_bucket : bucket := mkBucket 0 0 zero_item.

Definition bucket_at (bs : list bucket) (i : Z) : result bucket :=
  match bs !! Z.to_nat i with Some b => Val b | None => Oob end.
Definition put_bucket (bs : list bucket) (i : Z) (b : bucket) : result (list bucket) :=
  if i <? Z.of_nat (length bs) then Val (<[Z.to_nat i := b]> bs) else Oob.

Definition set_dib (b : bucket) (d : Z) : bucket := mkBucket (b_hash b) (d mod 65536) (b_item b).
Definition set_item (b : bucket) (x : I) : bucket := mkBucket (b_hash b) (b_dib b) x.

Definition get_hash (m : hashmap) (key : I) : Z := clip_hash (hash key (seed0 m) (seed1 m)).

(** [!map->compare || map->compare(a, b, map->udata) == 0] *)
Definition matches (a b : I) : bool :=
  match compare with None => true | Some c => c a b =? 0 end.

(** A fresh block for [n] buckets holds as many as fit in its bytes, all
    zero. *)
Definition fresh_buckets (bsz n : Z) : list bucket :=
  replicate (Z.to_nat (u32 (bsz * n) / bsz)) free_bucket.

(** [ok1] and [ok2]: whether the two allocations succeed. *)
Definition hashmap_new_with_allocator (esize ncap s0 s1 : Z) (efree ok1 ok2 : bool)
    : result (option hashmap) :=
  let! cap := if ncap <? 16 then Val 16 else cap_loop 64 16 ncap in
  let! bsz := align_loop 4 (u32 (8 + esize)) in
  if negb ok1 then Val None
  else
    let nb := cap in
    if negb ok2 then Val None
    else Val (Some (mkMap esize cap s0 s1 efree bsz nb 0 (u32 (nb - 1))
                      (times_grow_at nb) (times_shrink_at nb) 1 false (fresh_buckets bsz nb))).

Definition hashmap_new := hashmap_new_with_allocator.

Definition hashmap_set_grow_by_power (m : hashmap) (power : Z) : hashmap :=
  mkMap (elsize m) (cap m) (seed0 m) (seed1 m) (elfree m) (bucketsz m) (nbuckets m) (count m)
    (mask m) (growat m) (shrinkat m) (if power <? 1 then 1 else if 16 <? power then 16 else power)
    (oom m) (buckets m).

(** The map with other [oom], [count] and [buckets]. *)
Definition with_table (m : hashmap) (o : bool) (c : Z) (bs : list bucket) : hashmap :=
  mkMap (elsize m) (cap m) (seed0 m) (seed1 m) (elfree m) (bucketsz m) (nbuckets m) c
    (mask m) (growat m) (shrinkat m) (growpower m) o bs.

(** The items [free_elements] hands to [elfree], in order. *)
Definition free_elements (m : hashmap) : list I :=
  if elfree m
  then b_item <$> filter (fun b => b_dib b <> 0) (take (Z.to_nat (nbuckets m)) (buckets m)) else [].

(** When the new block cannot be had, the old one stays and only its first
    [cap] buckets are used from then on. *)
Definition hashmap_clear (m : hashmap) (update_cap ok : bool) : list I * hashmap :=
  let freed := free_elements m in
  let '(cap', nb, block) :=
    if update_cap then (nbuckets m, nbuckets m, buckets m)
    else if negb (nbuckets m =? cap m) then
      (cap m, cap m,
       if ok then fresh_buckets (bucketsz m) (cap m) else take (Z.to_nat (cap m)) (buckets m))
    else (cap m, nbuckets m, buckets m) in
  (freed,
   mkMap (elsize m) cap' (seed0 m) (seed1 m) (elfree m) (bucketsz m) nb 0 (u32 (nb - 1))
     (times_0_75 nb) (times_shrink_at nb) (growpower m) (oom m)
     (replicate (length block) free_bucket)).

(** The inner loop of [resize0]: the entry goes from bucket to bucket, and
    changes places with one that is closer to its home. *)
Fixpoint rehash_loop (fuel : nat) (msk : Z) (bs : list bucket) (entry : bucket) (j : Z)
    : result (list bucket) :=
  match fuel with
  | O => Spin
  | S fuel =>
      let! b := bucket_at bs j in
      if b_dib b =? 0 then put_bucket bs j entry
      else
        let! (bs, entry) :=
          if b_dib b <? b_dib entry then let! bs := put_bucket bs j entry in Val (bs, b)
          else Val (bs, entry) in
        rehash_loop fuel msk bs (set_dib entry (b_dib entry + 1)) (Z.land (u32 (j + 1)) msk)
  end.

(** Its outer loop, over the old buckets. *)
Fixpoint rehash_all (msk : Z) (old bs : list bucket) : result (list bucket) :=
  match old with
  | [] => Val bs
  | entry :: old =>
      if b_dib entry =? 0 then rehash_all msk old bs
      else
        let entry := set_dib entry 1 in
        let! bs := rehash_loop (S (length bs)) msk bs entry (Z.land (b_hash entry) msk) in
        rehash_all msk old bs
  end.

(** [None] when the new map cannot be allocated. *)
Definition resize0 (m : hashmap) (new_cap : Z) (ok1 ok2 : bool) : result (option hashmap) :=
  let! m2 := hashmap_new_with_allocator (elsize m) new_cap (seed0 m) (seed1 m) (elfree m) ok1 ok2 in
  match m2 with
  | None => Val None
  | Some m2 =>
      let! bs := rehash_all (mask m2) (take (Z.to_nat (nbuckets m)) (buckets m)) (buckets m2) in
      Val (Some (mkMap (elsize m) (cap m) (seed0 m) (seed1 m) (elfree m) (bucketsz m)
                   (nbuckets m2) (count m) (mask m2) (growat m2) (shrinkat m2)
                   (growpower m) (oom m) bs))
  end.

Definition resize := resize0.

(** The loop of [hashmap_set_with_hash]: the buckets and the item replaced. *)
Fixpoint set_loop (fuel : nat) (msk : Z) (bs : list bucket) (entry : bucket) (i : Z)
    : result (list bucket * option I) :=
  match fuel with
  | O => Spin
  | S fuel =>
      let! b := bucket_at bs i in
      if b_dib b =? 0 then let! bs := put_bucket bs i entry in Val (bs, None)
      else if (b_hash entry =? b_hash b) && matches (b_item entry) (b_item b) then
        let! bs := put_bucket bs i (set_item b (b_item entry)) in Val (bs, Some (b_item b))
      else
        let! (bs, entry) :=
          if b_dib b <? b_dib entry then let! bs := put_bucket bs i entry in Val (bs, b)
          else Val (bs, entry) in
        set_loop fuel msk bs (set_dib entry (b_dib entry + 1)) (Z.land (u32 (i + 1)) msk)
  end.

Definition hashmap_set_with_hash (m : hashmap) (item : I) (h : Z) (ok1 ok2 : bool)
    : result (option I * hashmap) :=
  let h := clip_hash h in
  let m := with_table m false (count m) (buckets m) in
  let! grown :=
    if count m =? growat m
    then resize m (u32 (nbuckets m * Z.shiftl 1 (growpower m))) ok1 ok2
    else Val (Some m) in
  match grown with
  | None => Val (None, with_table m true (count m) (buckets m))
  | Some m =>
      let! (bs, old) := set_loop (S (Z.to_nat (nbuckets m))) (mask m) (buckets m)
                          (mkBucket h 1 item) (Z.land h (mask m)) in
      Val (old, with_table m (oom m)
                  (match old with None => u32 (count m + 1) | Some _ => count m end) bs)
  end.

Definition hashmap_set (m : hashmap) (item : I) (ok1 ok2 : bool) :=
  hashmap_set_with_hash m item (get_hash m item) ok1 ok2.

(** The search loop of [hashmap_get_with_hash] and of
    [hashmap_delete_with_hash]: the index of the bucket found. *)
Fixpoint find_loop (fuel : nat) (msk : Z) (bs : list bucket) (key : I) (h i : Z)
    : result (option Z) :=
  match fuel with
  | O => Spin
  | S fuel =>
      let! b := bucket_at bs i in
      if b_dib b =? 0 then Val None
      else if (b_hash b =? h) && matches key (b_item b) then Val (Some i)
      else find_loop fuel msk bs key h (Z.land (u32 (i + 1)) msk)
  end.

Definition hashmap_get_with_hash (m : hashmap) (key : I) (h : Z) : result (option I) :=
  let h := clip_hash h in
  let! r := find_loop (S (Z.to_nat (nbuckets m))) (mask m) (buckets m) key h
              (Z.land h (mask m)) in
  match r with
  | None => Val None
  | Some i => let! b := bucket_at (buckets m) i in Val (Some (b_item b))
  end.

Definition hashmap_get (m : hashmap) (key : I) := hashmap_get_with_hash m key (get_hash m key).

Definition hashmap_probe (m : hashmap) (position : Z) : result (option I) :=
  let! b := bucket_at (buckets m) (Z.land position (mask m)) in
  Val (if b_dib b =? 0 then None else Some (b_item b)).

(** The shift back that follows a deletion at [i]. *)
Fixpoint shift_loop (fuel : nat) (msk : Z) (bs : list bucket) (i : Z) : result (list bucket) :=
  match fuel with
  | O => Spin
  | S fuel =>
      let prev := i in
      let i := Z.land (u32 (i + 1)) msk in
      let! b := bucket_at bs i in
      if b_dib b <=? 1 then
        let! p := bucket_at bs prev in put_bucket bs prev (set_dib p 0)
      else
        let! bs := put_bucket bs prev (set_dib b (b_dib b - 1)) in
        shift_loop fuel msk bs i
  end.

Definition hashmap_delete_with_hash (m : hashmap) (key : I) (h : Z) (ok1 ok2 : bool)
    : result (option I * hashmap) :=
  let h := clip_hash h in
  let m := with_table m false (count m) (buckets m) in
  let! r := find_loop (S (Z.to_nat (nbuckets m))) (mask m) (buckets m) key h
              (Z.land h (mask m)) in
  match r with
  | None => Val (None, m)
  | Some i =>
      let! b := bucket_at (buckets m) i in
      let! bs := put_bucket (buckets m) i (set_dib b 0) in
      let! bs := shift_loop (S (Z.to_nat (nbuckets m))) (mask m) bs i in
      let m := with_table m (oom m) (u32 (count m - 1)) bs in
      let! m' :=
        if (cap m <? nbuckets m) && (count m <=? shrinkat m)
        then resize m (nbuckets m / 2) ok1 ok2 else Val (Some m) in
      Val (Some (b_item b), match m' with Some m' => m' | None => m end)
  end.

Definition hashmap_delete (m : hashmap) (key : I) (ok1 ok2 : bool) :=
  hashmap_delete_with_hash m key (get_hash m key) ok1 ok2.

Definition hashmap_count (m : hashmap) : Z := count m.
Definition hashmap_oom (m : hashmap) : bool := oom m.

(** The items handed to [elfree] before the two blocks are freed. *)
Definition hashmap_free (m : option hashmap) : list I :=
  match m with None => [] | Some m => free_elements m end.

(** The loops of [hashmap_scan] and [hashmap_scan_item] over the index [i]. *)
Fixpoint scan_loop (n : nat) (bs : list bucket) (i : Z) (iter : I -> bool) : result bool :=
  match n with
  | O => Val true
  | S n =>
      let! b := bucket_at bs i in
      if negb (b_dib b =? 0) && negb (iter (b_item b)) then Val false
      else scan_loop n bs (i + 1) iter
  end.

Definition hashmap_scan (m : hashmap) (iter : I -> bool) : result bool :=
  scan_loop (Z.to_nat (nbuckets m)) (buckets m) 0 iter.

Fixpoint scan_item_loop {A} (n : nat) (bs : list bucket) (i : Z) (iter : I -> option A)
    : result (option A) :=
  match n with
  | O => Val None
  | S n =>
      let! b := bucket_at bs i in
      if negb (b_dib b =? 0) then
        match iter (b_item b) with
        | Some a => Val (Some a)
        | None => scan_item_loop n bs (i + 1) iter
        end
      else scan_item_loop n bs (i + 1) iter
  end.

Definition hashmap_scan_item {A} (m : hashmap) (iter : I -> option A) : result (option A) :=
  scan_item_loop (Z.to_nat (nbuckets m)) (buckets m) 0 iter.

(** [hashmap_iter]: the item, if any, and the new cursor. *)
Fixpoint iter_loop (fuel : nat) (m : hashmap) (i : Z) : result (option I * Z) :=
  match fuel with
  | O => Spin
  | S fuel =>
      if nbuckets m <=? i then Val (None, i)
      else
        let! b := bucket_at (buckets m) i in
        let i := u32 (i + 1) in
        if b_dib b =? 0 then iter_loop fuel m i else Val (Some (b_item b), i)
  end.

Definition hashmap_iter (m : hashmap) (i : Z) : result (option I * Z) :=
  iter_loop (S (Z.to_nat (nbuckets m))) m i.
End Code.

Arguments bucket I : clear implicits.
Arguments hashmap I : clear implicits.

(** ** Keys

    Two items have the same key when their hashes are equal and the
    comparison, if there is one, gives zero. *)

Section Keys.
Context {I : Type} (compare : option (I -> I -> Z)).

Class MatchLaws : Prop := {
  matches_refl : forall a, matches compare a a = true;
  matches_sym : forall a b, matches compare a b = matches compare b a;
  matches_trans : forall a b c,
    matches compare a b = true -> matches compare b c = true -> matches compare a c = true;
}.

Context `{!MatchLaws}.

Definition same (a b : Z * I) : bool := (a.1 =? b.1) && matches compare a.2 b.2.

Lemma same_refl a : same a a = true.
Proof. unfold same. by rewrite Z.eqb_refl, matches_refl. Qed.
Lemma same_sym a b : same a b = same b a.
Proof. unfold same. by rewrite Z.eqb_sym, matches_sym. Qed.
Lemma same_trans a b c : same a b = true -> same b c = true -> same a c = true.
Proof.
  unfold same. rewrite !andb_true_iff, !Z.eqb_eq. intros [E1 M1] [E2 M2].
  split; [congruence|]. by eapply matches_trans.
Qed.
Lemma same_l a b c : same a b = true -> same a c = same b c.
Proof.
  intros Hab. destruct (same b c) eqn:E.
  - by eapply same_trans.
  - apply not_true_is_false. intros Hac. rewrite same_sym in Hab.
    by rewrite (same_trans _ _ _ Hab Hac) in E.
Qed.

(** No key occurs twice. *)
Fixpoint distinct (l : list (Z * I)) : Prop :=
  match l with
  | [] => True
  | a :: l => Forall (fun b => same a b = false) l /\ distinct l
  end.

Fixpoint lookup_item (q : Z * I) (l : list (Z * I)) : option I :=
  match l with
  | [] => None
  | a :: l => if same q a then Some a.2 else lookup_item q l
  end.

Lemma distinct_perm l l' : l ≡ₚ l' -> distinct l -> distinct l'.
Proof.
  induction 1 as [|a l l' P IH|a b l|l1 l2 l3 _ IH1 _ IH2]; simpl; [done| | |tauto].
  - intros [Hf Hd]. split; [by rewrite <- P|auto].
  - intros [Hb [Ha Hd]]. apply Forall_cons in Hb as [Hab Hb]. rewrite same_sym in Hab.
    split; [by constructor|]. done.
Qed.

#[export] Instance distinct_proper : Proper (Permutation ==> iff) distinct.
Proof. intros l l' P. split; apply distinct_perm; [done|by symmetry]. Qed.

Lemma lookup_None q l : lookup_item q l = None <-> Forall (fun a => same q a = false) l.
Proof.
  induction l as [|a l IH]; simpl; [done|]. rewrite Forall_cons, <- IH.
  destruct (same q a); split; [done|by intros [? _]|done|by intros [_ ?]].
Qed.

Lemma lookup_elem q a l : distinct l -> a ∈ l -> same q a = true -> lookup_item q l = Some a.2.
Proof.
  intros Hd Ha Hq. induction l as [|b l IH]; [by apply not_elem_of_nil in Ha|].
  destruct Hd as [Hf Hd]. simpl. apply elem_of_cons in Ha as [->|Ha]; [by rewrite Hq|].
  rewrite (same_l _ _ b Hq), same_sym. eapply Forall_forall in Hf as ->; [|done]. auto.
Qed.

Lemma lookup_Some q x l : lookup_item q l = Some x -> exists a, a ∈ l /\ same q a = true /\ a.2 = x.
Proof.
  induction l as [|b l IH]; simpl; [done|]. destruct (same q b) eqn:E.
  - intros [= <-]. exists b. split; [by left|done].
  - intros Hx. destruct (IH Hx) as (a & ? & ?). exists a. split; [by right|done].
Qed.

Lemma lookup_perm q l l' : distinct l -> l ≡ₚ l' -> lookup_item q l = lookup_item q l'.
Proof.
  intros Hd P. assert (Hd' : distinct l') by by rewrite <- P.
  destruct (lookup_item q l') as [x|] eqn:E.
  - apply lookup_Some in E as (a & Ha & Hq & <-). apply lookup_elem; [done|by rewrite P|done].
  - rewrite lookup_None in *. by rewrite P.
Qed.

(** The reference operations on the list of items. *)
Definition delete_item (q : Z * I) (l : list (Z * I)) : list (Z * I) :=
  List.filter (fun a => negb (same q a)) l.
Definition insert_item (q : Z * I) (l : list (Z * I)) : list (Z * I) := q :: delete_item q l.

Lemma delete_fresh q l : Forall (fun a => same q a = false) l -> delete_item q l = l.
Proof.
  induction 1 as [|a l Ha _ IH]; [done|]. unfold delete_item in *. simpl. by rewrite Ha, IH.
Qed.

Lemma delete_perm q l l' : l ≡ₚ l' -> delete_item q l ≡ₚ delete_item q l'.
Proof.
  unfold delete_item. induction 1 as [|a l l' _ IH|a b l|l1 l2 l3 _ IH1 _ IH2]; simpl; [done| | |by rewrite IH1].
  - destruct (same q a); simpl; [done|by constructor].
  - destruct (same q a), (same q b); simpl; solve_Permutation.
Qed.

Lemma delete_found q a l rest :
  distinct l -> l ≡ₚ a :: rest -> same q a = true -> delete_item q l ≡ₚ rest.
Proof.
  intros Hd P Hq. rewrite P in Hd. destruct Hd as [Hf _]. rewrite (delete_perm q _ _ P).
  unfold delete_item. simpl. rewrite Hq. simpl. fold (delete_item q rest).
  rewrite delete_fresh; [done|]. eapply Forall_impl; [exact Hf|]. intros b Hb. cbv beta in *.
  by rewrite (same_l _ _ _ Hq).
Qed.

Lemma distinct_delete q l : distinct l -> distinct (delete_item q l) /\ Forall (fun a => same q a = false) (delete_item q l).
Proof.
  unfold delete_item. induction l as [|a l IH]; simpl; [by split|]. intros [Hf Hd].
  destruct (IH Hd) as [IH1 IH2]. destruct (same q a) eqn:E; simpl; [done|]. split; [split; [|done]|by constructor].
  apply Forall_forall. intros b Hb. apply list_elem_of_In, filter_In in Hb as [Hb _].
  eapply Forall_forall in Hf; [exact Hf|]. by apply list_elem_of_In.
Qed.
End Keys.

(** ** The table as a cyclic array *)

Section Table.
Context {I : Type} (zero_item : I).
Local Abbreviation free_bucket := (free_bucket zero_item).

(** The bucket at [j], counting round the table. *)
Definition slot (bs : list (bucket I)) (j : Z) : bucket I :=
  nth (Z.to_nat (j mod Z.of_nat (length bs))) bs free_bucket.
Definition dib (bs : list (bucket I)) (j : Z) : Z := b_dib (slot bs j).
Definition upd (bs : list (bucket I)) (j : Z) (b : bucket I) : list (bucket I) :=
  <[Z.to_nat (j mod Z.of_nat (length bs)) := b]> bs.

(** What a bucket holds, and what the table holds. *)
Definition content (b : bucket I) : list (Z * I) :=
  if b_dib b =? 0 then [] else [(b_hash b, b_item b)].
Definition items (bs : list (bucket I)) : list (Z * I) := mbind content bs.

Context (n : Z) (Hn : 4 <= n).
Definition sized (bs : list (bucket I)) : Prop := Z.of_nat (length bs) = n.

Lemma upd_sized bs j b : sized bs -> sized (upd bs j b).
Proof. unfold sized, upd. by rewrite length_insert. Qed.

Lemma upd_length bs j b : length (upd bs j b) = length bs.
Proof. apply length_insert. Qed.

Lemma slot_mod bs j : sized bs -> slot bs (j mod n) = slot bs j.
Proof. unfold slot, sized. intros ->. by rewrite Z.mod_mod by lia. Qed.

Lemma slot_eq bs j j' : sized bs -> j mod n = j' mod n -> slot bs j = slot bs j'.
Proof. intros Hs E. by rewrite <- (slot_mod bs j), <- (slot_mod bs j'), E. Qed.

Lemma slot_lookup bs j : sized bs -> bs !! Z.to_nat (j mod n) = Some (slot bs j).
Proof.
  unfold slot, sized. intros Hs. rewrite Hs.
  destruct (lookup_lt_is_Some_2 bs (Z.to_nat (j mod n))) as [b Hb].
  { pose proof (Z.mod_pos_bound j n). lia. }
  by rewrite (nth_lookup_Some _ _ _ _ Hb).
Qed.

Lemma slot_upd bs j b j' :
  sized bs -> slot (upd bs j b) j' = if decide (j' mod n = j mod n) then b else slot bs j'.
Proof.
  intros Hs. pose proof (upd_sized bs j b Hs) as Hs'.
  assert (E : Some (slot (upd bs j b) j') = Some (if decide (j' mod n = j mod n) then b else slot bs j')).
  { rewrite <- slot_lookup by done. unfold upd. rewrite Hs.
    pose proof (Z.mod_pos_bound j n). pose proof (Z.mod_pos_bound j' n). unfold sized in Hs.
    case_decide as Hd.
    - rewrite Hd. apply list_lookup_insert_eq. lia.
    - rewrite list_lookup_insert_ne by lia. by apply slot_lookup. }
  by injection E.
Qed.

Lemma slot_upd_eq bs j b : sized bs -> slot (upd bs j b) j = b.
Proof. intros. rewrite slot_upd by done. by rewrite decide_True. Qed.

Lemma slot_upd_ne bs j b j' : sized bs -> j' mod n <> j mod n -> slot (upd bs j b) j' = slot bs j'.
Proof. intros. rewrite slot_upd by done. by rewrite decide_False. Qed.

Lemma dib_upd bs j b j' :
  sized bs -> dib (upd bs j b) j' = if decide (j' mod n = j mod n) then b_dib b else dib bs j'.
Proof. intros. unfold dib. rewrite slot_upd by done. by case_decide. Qed.

Lemma bucket_at_ok bs j : sized bs -> bucket_at bs (j mod n) = Val (slot bs j).
Proof. intros. unfold bucket_at. by rewrite slot_lookup. Qed.

Lemma put_bucket_ok bs j b : sized bs -> put_bucket bs (j mod n) b = Val (upd bs j b).
Proof.
  intros Hs. unfold put_bucket, upd. rewrite Hs. pose proof (Z.mod_pos_bound j n).
  rewrite (proj2 (Z.ltb_lt _ _)) by lia. done.
Qed.

Lemma mod_step j i : (i mod n + j) mod n = (i + j) mod n.
Proof. by rewrite Zplus_mod_idemp_l. Qed.

(** Two places less than a round apart are different. *)
Lemma mod_ne j d : 0 < d < n -> (j + d) mod n <> j mod n.
Proof.
  intros Hd E. assert (D : (j + d - j) mod n = 0).
  { rewrite Zminus_mod, E, Z.sub_diag. apply Z.mod_0_l. lia. }
  replace (j + d - j) with d in D by lia. rewrite Z.mod_small in D by lia. lia.
Qed.

Lemma items_upd bs j b :
  sized bs -> items (upd bs j b) ++ content (slot bs j) ≡ₚ items bs ++ content b.
Proof.
  intros Hs. pose proof (slot_lookup bs j Hs) as Hl. unfold upd. rewrite Hs.
  generalize dependent (slot bs j). intros b0 Hl. clear Hs.
  apply list_elem_of_split_length in Hl as (l1 & l2 & -> & ->).
  rewrite insert_app_r_alt, Nat.sub_diag by lia. simpl. unfold items. rewrite !bind_app. simpl.
  solve_Permutation.
Qed.

Lemma items_slot bs j :
  sized bs -> dib bs j <> 0 -> (b_hash (slot bs j), b_item (slot bs j)) ∈ items bs.
Proof.
  intros Hs Hd. unfold items. apply list_elem_of_bind. exists (slot bs j). split.
  - unfold content. unfold dib in Hd. rewrite (proj2 (Z.eqb_neq _ _) Hd). by apply list_elem_of_singleton.
  - eapply list_elem_of_lookup_2. by apply slot_lookup.
Qed.

Lemma items_elem bs h x :
  sized bs -> (h, x) ∈ items bs ->
  exists j, 0 <= j < n /\ dib bs j <> 0 /\ b_hash (slot bs j) = h /\ b_item (slot bs j) = x.
Proof.
  intros Hs Hx. unfold items in Hx. apply list_elem_of_bind in Hx as (b & Hc & Hb).
  apply list_elem_of_lookup_1 in Hb as [i Hi]. exists (Z.of_nat i).
  pose proof (lookup_lt_Some _ _ _ Hi). unfold sized in Hs.
  assert (E : slot bs (Z.of_nat i) = b).
  { unfold slot. rewrite Hs, Z.mod_small, Nat2Z.id by lia. by apply nth_lookup_Some. }
  unfold dib. rewrite E. unfold content in Hc. destruct (Z.eqb_spec (b_dib b) 0); [by apply not_elem_of_nil in Hc|].
  apply list_elem_of_singleton in Hc. injection Hc as -> ->. split; [lia|done].
Qed.

(** ** The invariant of the displacement

    Each bucket lies at most one farther from its home than the bucket before
    it lies from its own, and every item is where its hash and distance
    say. *)
Record robin (bs : list (bucket I)) : Prop := {
  robin_sized : sized bs;
  robin_nonneg : forall j, 0 <= dib bs j;
  robin_step : forall j, dib bs (j + 1) <= dib bs j + 1;
  robin_home : forall j, dib bs j <> 0 -> b_hash (slot bs j) mod n = (j - (dib bs j - 1)) mod n;
}.

(** Before a bucket the distances fall by at most one a step. *)
Lemma robin_back bs j t : robin bs -> 0 <= t -> dib bs (j + t) - t <= dib bs j.
Proof.
  intros R Ht. rewrite <- (Z2Nat.id t) by done. induction (Z.to_nat t) as [|t' IH].
  - replace (j + Z.of_nat 0) with j by lia. lia.
  - pose proof (robin_step _ R (j + Z.of_nat t')) as Hs.
    replace (j + Z.of_nat (S t')) with (j + Z.of_nat t' + 1) by lia. lia.
Qed.

Context (k : Z) (Hk : 2 <= k <= 15) (Hnk : n = 2 ^ k).

Lemma n_range : 4 <= n <= 32768.
Proof.
  rewrite Hnk. split.
  - change 4 with (2 ^ 2). apply Z.pow_le_mono_r; lia.
  - change 32768 with (2 ^ 15). apply Z.pow_le_mono_r; lia.
Qed.

Lemma land_mask x : Z.land x (n - 1) = x mod n.
Proof.
  rewrite Hnk, <- Z.land_ones by lia. f_equal. rewrite Z.ones_equiv. lia.
Qed.

Lemma next_index i : Z.land (u32 (i mod n + 1)) (n - 1) = (i + 1) mod n.
Proof.
  pose proof n_range. pose proof (Z.mod_pos_bound i n).
  rewrite land_mask, u32_id by lia. apply mod_step.
Qed.

(** The place of an entry that is looking for a bucket at [i]. *)
Record seeks (bs : list (bucket I)) (e : bucket I) (i : Z) : Prop := {
  seeks_pos : 1 <= b_dib e;
  seeks_step : b_dib e <= dib bs (i - 1) + 1;
  seeks_home : b_hash e mod n = (i - (b_dib e - 1)) mod n;
}.

Lemma seeks_start bs e :
  robin bs -> b_dib e = 1 -> seeks bs e (b_hash e).
Proof.
  intros R He. pose proof (robin_nonneg _ R (b_hash e - 1)). split; rewrite He; try lia.
  f_equal. lia.
Qed.

Lemma robin_place bs e i :
  robin bs -> seeks bs e i -> dib bs i <= b_dib e -> robin (upd bs i e).
Proof.
  intros [Hs Hp Hst Hh] [E1 E2 E3] Hd. pose proof n_range.
  split; [by apply upd_sized| | |]; intros j; rewrite ?dib_upd by done.
  - case_decide; [lia|done].
  - destruct (decide (j mod n = i mod n)) as [Hj|Hj].
    + rewrite decide_False by (rewrite <- Hj; apply mod_ne; lia).
      pose proof (Hst j). unfold dib in *. rewrite (slot_eq bs j i) in * by done. lia.
    + destruct (decide ((j + 1) mod n = i mod n)) as [Hj'|Hj']; [|done].
      assert (E : slot bs j = slot bs (i - 1)).
      { apply slot_eq; [done|]. replace j with (j + 1 + -1) by lia.
        by rewrite <- mod_step, Hj', mod_step. }
      unfold dib in *. rewrite E. lia.
  - rewrite slot_upd by done. case_decide as Hj; [|apply Hh]. intros _.
    rewrite E3. rewrite Zminus_mod, <- Hj, <- Zminus_mod. done.
Qed.

(** The distance stays below the size of the table, hence inside its 16
    bits. *)
Lemma seeks_bound bs e i t :
  robin bs -> seeks bs e i -> dib bs (i + t) = 0 -> 0 <= t < n -> b_dib e + t <= n.
Proof.
  intros R S H0 Ht. pose proof (robin_back bs (i + t - n) (n - t - 1) R ltac:(lia)) as Hb.
  replace (i + t - n + (n - t - 1)) with (i - 1) in Hb by lia.
  assert (E : slot bs (i + t - n) = slot bs (i + t)).
  { apply slot_eq; [apply R|]. replace (i + t - n) with (i + t + -1 * n) by lia.
    apply Z.mod_add. lia. }
  unfold dib in *. rewrite E in Hb. pose proof (seeks_step _ _ _ S). unfold dib in *. lia.
Qed.

(** An entry displaced from or passing by [i] goes on to [i + 1]. *)
Lemma seeks_next bs e i :
  0 < b_dib e < 65535 -> b_dib e <= dib bs i -> b_hash e mod n = (i - (b_dib e - 1)) mod n ->
  seeks bs (set_dib e (b_dib e + 1)) (i + 1).
Proof.
  intros He Hle Hh. split; simpl; rewrite (Z.mod_small (b_dib e + 1)) by lia; [lia| |].
  - replace (i + 1 - 1) with i by lia. lia.
  - rewrite Hh. f_equal. lia.
Qed.

Lemma content_entry (e : bucket I) : 1 <= b_dib e -> content e = [(b_hash e, b_item e)].
Proof. intros. unfold content. by rewrite (proj2 (Z.eqb_neq _ _)) by lia. Qed.

Definition ekey (e : bucket I) : Z * I := (b_hash e, b_item e).

(** One round of the loops at an occupied bucket: the entry, or the one it
    displaces, goes on to the next bucket. *)
Definition pass (bs : list (bucket I)) (e : bucket I) (i : Z) : list (bucket I) * bucket I :=
  if dib bs i <? b_dib e then (upd bs i e, slot bs i) else (bs, e).

Lemma pass_ok bs e i t :
  robin bs -> seeks bs e i -> dib bs (i + t) = 0 -> 0 <= t < n -> dib bs i <> 0 ->
  let (bs1, e1) := pass bs e i in
  let e2 := set_dib e1 (b_dib e1 + 1) in
  robin bs1 /\ seeks bs1 e2 (i + 1) /\ dib bs1 (i + 1 + (t - 1)) = 0 /\ 0 < t /\
  ekey e2 :: items bs1 ≡ₚ ekey e :: items bs.
Proof.
  intros R S H0 Ht E0. pose proof (robin_sized _ R) as Hs. pose proof n_range.
  pose proof (seeks_bound _ _ _ _ R S H0 Ht) as Hb. pose proof (seeks_pos _ _ _ S).
  pose proof (robin_nonneg _ R i).
  assert (t <> 0) by (intros ->; rewrite Z.add_0_r in H0; done).
  replace (i + 1 + (t - 1)) with (i + t) by lia. unfold pass.
  destruct (Z.ltb_spec (dib bs i) (b_dib e)) as [Hlt|Hge].
  - split; [apply robin_place; [done|done|lia]|]. split; [|split; [|split; [lia|]]].
    + fold (dib bs i). split; simpl; rewrite (Z.mod_small (dib bs i + 1)) by lia; [lia| |].
      * replace (i + 1 - 1) with i by lia. rewrite dib_upd, decide_True by done. lia.
      * rewrite (robin_home _ R) by done. f_equal. lia.
    + rewrite dib_upd by done. rewrite decide_False; [done|]. apply mod_ne. lia.
    + pose proof (items_upd bs i e Hs) as Hi.
      rewrite (content_entry e), (content_entry (slot bs i)) in Hi by (try fold (dib bs i); lia).
      change (ekey (set_dib (slot bs i) _)) with (ekey (slot bs i)).
      rewrite (Permutation_cons_append _ (ekey (slot bs i))). unfold ekey. rewrite Hi. solve_Permutation.
  - split; [done|]. split; [apply seeks_next; [lia|lia|apply S]|]. split; [done|]. split; [lia|done].
Qed.

(** The end of the loops, at a free bucket. *)
Lemma place_ok bs e i :
  robin bs -> seeks bs e i -> dib bs i = 0 ->
  robin (upd bs i e) /\ items (upd bs i e) ≡ₚ ekey e :: items bs.
Proof.
  intros R S E0. pose proof (seeks_pos _ _ _ S). split; [apply robin_place; [done|done|lia]|].
  pose proof (items_upd bs i e (robin_sized _ R)) as Hi. rewrite (content_entry e) in Hi by done.
  unfold content in Hi. fold (dib bs i) in Hi. rewrite E0 in Hi. simpl in Hi.
  rewrite app_nil_r in Hi. rewrite Hi. unfold ekey. solve_Permutation.
Qed.

Lemma rehash_ok fuel bs e i t :
  robin bs -> seeks bs e i -> dib bs (i + t) = 0 -> 0 <= t < n -> t < Z.of_nat fuel ->
  exists bs', rehash_loop fuel (n - 1) bs e (i mod n) = Val bs' /\ robin bs' /\
    items bs' ≡ₚ ekey e :: items bs.
Proof.
  revert bs e i t. induction fuel as [|fuel IH]; intros bs e i t R S H0 Ht Hf; [lia|].
  pose proof (robin_sized _ R) as Hs.
  cbn [rehash_loop]. rewrite bucket_at_ok by done. cbn [rbind]. fold (dib bs i).
  destruct (Z.eqb_spec (dib bs i) 0) as [E0|E0].
  { rewrite put_bucket_ok by done. eauto using place_ok. }
  rewrite put_bucket_ok by done. cbn [rbind].
  pose proof (pass_ok bs e i t R S H0 Ht E0) as Hp. unfold pass in Hp.
  rewrite next_index. destruct (dib bs i <? b_dib e); cbn [rbind];
    destruct Hp as (R1 & S1 & H1 & Ht1 & P1);
    (destruct (IH _ _ (i + 1) (t - 1) R1 S1 H1) as (bs' & E & R2 & P2); [lia|lia|]);
    exists bs'; (split; [exact E|split; [done|by rewrite P2, P1]]).
Qed.

Lemma items_full bs :
  Forall (fun b => b_dib b <> 0) bs -> length (items bs) = length bs.
Proof.
  induction 1 as [|b bs Hb _ IH]; [done|]. unfold items. simpl. rewrite length_app.
  unfold content at 1. rewrite (proj2 (Z.eqb_neq _ _) Hb). simpl. by rewrite <- IH.
Qed.

Lemma exists_free bs i :
  sized bs -> Z.of_nat (length (items bs)) < n -> exists t, 0 <= t < n /\ dib bs (i + t) = 0.
Proof.
  intros Hs Hl. destruct (decide (Exists (fun b => b_dib b = 0) bs)) as [He|He].
  - apply Exists_exists in He as (b & Hb & E). apply list_elem_of_lookup_1 in Hb as [p Hp].
    exists ((Z.of_nat p - i) mod n). split; [apply Z.mod_pos_bound; lia|].
    pose proof (lookup_lt_Some _ _ _ Hp).
    assert (X : bs !! Z.to_nat ((i + (Z.of_nat p - i) mod n) mod n) = Some b).
    { rewrite Zplus_mod_idemp_r. replace (i + (Z.of_nat p - i)) with (Z.of_nat p) by lia.
      unfold sized in Hs. by rewrite Z.mod_small, Nat2Z.id by lia. }
    rewrite slot_lookup in X by done. unfold dib. congruence.
  - exfalso. unfold sized in Hs. rewrite items_full in Hl; [lia|].
    apply Forall_forall. intros b Hb E. apply He, Exists_exists. eauto.
Qed.

Lemma rehash_all_ok old bs :
  robin bs -> Z.of_nat (length (items old)) + Z.of_nat (length (items bs)) < n ->
  exists bs', rehash_all (n - 1) old bs = Val bs' /\ robin bs' /\ items bs' ≡ₚ items old ++ items bs.
Proof.
  revert bs. induction old as [|e old IH]; intros bs R Hl; [by exists bs|].
  change (items (e :: old)) with (content e ++ items old) in *. unfold content in *. cbn [rehash_all].
  destruct (Z.eqb_spec (b_dib e) 0) as [E0|E0]; [by apply IH|]. simpl in Hl.
  rewrite land_mask. set (e1 := set_dib e 1).
  destruct (exists_free bs (b_hash e1) (robin_sized _ R)) as (t & Ht & H0); [lia|].
  pose proof (robin_sized _ R) as Hs. unfold sized in Hs.
  destruct (rehash_ok (S (length bs)) bs e1 (b_hash e1) t) as (bs1 & E1 & R1 & P1); try done; try lia.
  { by apply seeks_start. }
  rewrite E1. cbn [rbind]. pose proof (Permutation_length P1) as Hl1. simpl in Hl1.
  destruct (IH bs1 R1) as (bs2 & E2 & R2 & P2); [lia|].
  exists bs2. split; [done|]. split; [done|]. rewrite P2, P1. simpl. solve_Permutation.
Qed.

Lemma robin_fresh : robin (replicate (Z.to_nat n) free_bucket).
Proof.
  assert (Hs : sized (replicate (Z.to_nat n) free_bucket)) by (unfold sized; rewrite length_replicate; lia).
  assert (D : forall j, dib (replicate (Z.to_nat n) free_bucket) j = 0).
  { intros j. pose proof (slot_lookup _ j Hs) as Hl. apply lookup_replicate in Hl as [E _].
    unfold dib. by rewrite E. }
  split; [done| | |]; intros j; rewrite ?D; lia.
Qed.

Lemma items_fresh m : items (replicate m free_bucket) = [].
Proof. induction m; [done|]. by simpl. Qed.

(** *** Keys in the table *)

Context (compare : option (I -> I -> Z)) `{!MatchLaws compare}.
Local Abbreviation same := (same compare).
Local Abbreviation distinct := (distinct compare).

Definition key (bs : list (bucket I)) (j : Z) : Z * I := (b_hash (slot bs j), b_item (slot bs j)).

Lemma items_clear bs j b :
  sized bs -> dib bs j <> 0 -> b_dib b = 0 -> items bs ≡ₚ key bs j :: items (upd bs j b).
Proof.
  intros Hs Hd Hb. pose proof (items_upd bs j b Hs) as P. unfold content in P.
  fold (dib bs j) in P. rewrite (proj2 (Z.eqb_neq _ _) Hd), Hb in P. simpl in P.
  rewrite app_nil_r in P. rewrite <- P. unfold key. solve_Permutation.
Qed.

Lemma distinct_slots bs j1 j2 :
  sized bs -> distinct (items bs) -> dib bs j1 <> 0 -> dib bs j2 <> 0 ->
  same (key bs j1) (key bs j2) = true -> j1 mod n = j2 mod n.
Proof.
  intros Hs Hd H1 H2 Hk'. destruct (decide (j1 mod n = j2 mod n)) as [|Hne]; [done|]. exfalso.
  rewrite (items_clear bs j1 free_bucket) in Hd by done. pose proof (upd_sized bs j1 free_bucket Hs) as Hs1.
  assert (E : slot (upd bs j1 free_bucket) j2 = slot bs j2) by (apply slot_upd_ne; [done|congruence]).
  rewrite (items_clear (upd bs j1 free_bucket) j2 free_bucket) in Hd; [|done|unfold dib; by rewrite E|done].
  destruct Hd as [Hf _]. apply Forall_cons in Hf as [Hf _]. unfold key in *. rewrite E in Hf. congruence.
Qed.

(** *** The search *)

Lemma find_test bs j x h :
  (b_hash (slot bs j) =? h) && matches compare x (b_item (slot bs j)) = same (h, x) (key bs j).
Proof. unfold same, key. simpl. by rewrite Z.eqb_sym. Qed.

Lemma find_None fuel bs x h i t :
  sized bs -> Forall (fun a => same (h, x) a = false) (items bs) ->
  dib bs (i + t) = 0 -> 0 <= t -> t < Z.of_nat fuel ->
  find_loop compare fuel (n - 1) bs x h (i mod n) = Val None.
Proof.
  intros Hs Hf. revert i t. induction fuel as [|fuel IH]; intros i t H0 Ht Hfu; [lia|].
  cbn [find_loop]. rewrite bucket_at_ok by done. cbn [rbind]. fold (dib bs i).
  destruct (Z.eqb_spec (dib bs i) 0) as [|E0]; [done|].
  pose proof (items_slot bs i Hs E0) as Hin. rewrite find_test.
  eapply Forall_forall in Hf as Hfi; [|exact Hin]. fold (key bs i) in Hfi. rewrite Hfi, next_index.
  assert (t <> 0) by (intros ->; rewrite Z.add_0_r in H0; done).
  apply (IH (i + 1) (t - 1)); [by replace (i + 1 + (t - 1)) with (i + t) by lia|lia|lia].
Qed.

Lemma find_Some fuel bs x h p s :
  robin bs -> distinct (items bs) -> dib bs p <> 0 -> same (h, x) (key bs p) = true ->
  0 <= s < dib bs p -> s < Z.of_nat fuel ->
  find_loop compare fuel (n - 1) bs x h ((p - s) mod n) = Val (Some (p mod n)).
Proof.
  intros R Hd Hp Hk'. pose proof (robin_sized _ R) as Hs. revert s.
  induction fuel as [|fuel IH]; intros s Hsd Hfu; [lia|].
  cbn [find_loop]. rewrite bucket_at_ok by done. cbn [rbind]. fold (dib bs (p - s)).
  pose proof (robin_back bs (p - s) s R ltac:(lia)) as Hb. replace (p - s + s) with p in Hb by lia.
  rewrite (proj2 (Z.eqb_neq (dib bs (p - s)) 0)) by lia.
  rewrite find_test. destruct (same (h, x) (key bs (p - s))) eqn:E.
  - do 2 f_equal. apply (distinct_slots bs); [done|done|lia|done|].
    rewrite <- (same_l _ _ _ _ E). done.
  - rewrite next_index. replace (p - s + 1) with (p - (s - 1)) by lia.
    destruct (decide (s = 0)) as [->|]; [rewrite Z.sub_0_r in E; congruence|].
    apply IH; lia.
Qed.

(** *** The loop of [hashmap_set] *)

Lemma set_fresh fuel bs e i t :
  robin bs -> seeks bs e i -> dib bs (i + t) = 0 -> 0 <= t < n -> t < Z.of_nat fuel ->
  distinct (ekey e :: items bs) ->
  exists bs', set_loop compare fuel (n - 1) bs e (i mod n) = Val (bs', None) /\ robin bs' /\
    items bs' ≡ₚ ekey e :: items bs.
Proof.
  revert bs e i t. induction fuel as [|fuel IH]; intros bs e i t R S H0 Ht Hf Hd; [lia|].
  pose proof (robin_sized _ R) as Hs.
  cbn [set_loop]. rewrite bucket_at_ok by done. cbn [rbind]. fold (dib bs i).
  destruct (Z.eqb_spec (dib bs i) 0) as [E0|E0].
  { rewrite put_bucket_ok by done. cbn [rbind]. destruct (place_ok bs e i R S E0). eauto. }
  pose proof (items_slot bs i Hs E0) as Hin. pose proof (proj1 Hd) as Hfa.
  eapply Forall_forall in Hfa as Hi; [|exact Hin]. unfold same in Hi. cbn [fst snd ekey] in Hi.
  rewrite Hi, !put_bucket_ok by done. cbn [rbind].
  pose proof (pass_ok bs e i t R S H0 Ht E0) as Hp. unfold pass in Hp.
  rewrite next_index. destruct (dib bs i <? b_dib e); cbn [rbind];
    destruct Hp as (R1 & S1 & H1 & Ht1 & P1);
    (destruct (IH _ _ (i + 1) (t - 1) R1 S1 H1) as (bs' & E & R2 & P2); [lia|lia|by rewrite P1|]);
    exists bs'; (split; [exact E|split; [done|by rewrite P2, P1]]).
Qed.

(** Replacing the item of an occupied bucket by one with its key. *)
Lemma replace_ok bs p x :
  robin bs -> dib bs p <> 0 ->
  let bs' := upd bs p (set_item (slot bs p) x) in
  robin bs' /\ exists rest, items bs ≡ₚ key bs p :: rest /\
    items bs' ≡ₚ (b_hash (slot bs p), x) :: rest.
Proof.
  intros R Hp bs'. pose proof R as [Hs Hn0 Hst Hh]. split.
  - split; [by apply upd_sized| | |]; intros j; unfold bs'; rewrite ?dib_upd by done.
    + case_decide; [apply Hn0|apply Hn0].
    + assert (E : forall j', (if decide (j' mod n = p mod n) then b_dib (set_item (slot bs p) x) else dib bs j')
        = dib bs j').
      { intros j'. case_decide as Hd; [|done]. unfold dib. by rewrite (slot_eq bs j' p). }
      rewrite !E. apply Hst.
    + rewrite slot_upd by done. case_decide as Hd; [|apply Hh]. simpl. intros Hj.
      rewrite (Hh p) by done. fold (dib bs p). by rewrite Zminus_mod, <- Hd, <- Zminus_mod.
  - exists (items (upd bs p free_bucket)). split; [by apply items_clear|].
    pose proof (items_upd bs p (set_item (slot bs p) x) Hs) as P. fold bs' in P.
    rewrite (items_clear bs p free_bucket) in P by done.
    unfold content in P. simpl in P. fold (dib bs p) in P. rewrite (proj2 (Z.eqb_neq _ _) Hp) in P.
    fold (key bs p) in P. apply (Permutation_cons_inv (a := key bs p)).
    rewrite (Permutation_cons_append (items bs')), P. solve_Permutation.
Qed.

Lemma set_found fuel bs e p s :
  robin bs -> distinct (items bs) -> dib bs p <> 0 -> same (ekey e) (key bs p) = true ->
  0 <= s < dib bs p -> b_dib e = dib bs p - s -> dib bs p < 65536 -> s < Z.of_nat fuel ->
  set_loop compare fuel (n - 1) bs e ((p - s) mod n) =
    Val (upd bs p (set_item (slot bs p) (b_item e)), Some (b_item (slot bs p))).
Proof.
  intros R Hd Hp. pose proof (robin_sized _ R) as Hs. revert e s.
  induction fuel as [|fuel IH]; intros e s Hk' Hsd He H16 Hfu; [lia|].
  cbn [set_loop]. rewrite bucket_at_ok by done. cbn [rbind]. fold (dib bs (p - s)).
  pose proof (robin_back bs (p - s) s R ltac:(lia)) as Hb. replace (p - s + s) with p in Hb by lia.
  rewrite (proj2 (Z.eqb_neq (dib bs (p - s)) 0)) by lia.
  fold (same (ekey e) (key bs (p - s))).
  destruct (same (ekey e) (key bs (p - s))) eqn:E; unfold same, ekey, key in E; cbn [fst snd] in E; rewrite E.
  - assert (Ep : (p - s) mod n = p mod n).
    { apply (distinct_slots bs); [done|done|lia|done|].
      change (same (ekey e) (key bs (p - s)) = true) in E. by rewrite <- (same_l _ _ _ _ E). }
    rewrite Ep, put_bucket_ok, (slot_eq bs _ _ Hs Ep) by done. done.
  - rewrite put_bucket_ok by done. rewrite (proj2 (Z.ltb_ge (dib bs (p - s)) (b_dib e))) by lia.
    cbn [rbind]. rewrite next_index. replace (p - s + 1) with (p - (s - 1)) by lia.
    destruct (decide (s = 0)) as [->|].
    { rewrite Z.sub_0_r in E. unfold same, ekey, key in Hk'. cbn [fst snd] in Hk'. congruence. }
    rewrite (IH (set_dib e (b_dib e + 1)) (s - 1)); [done|done|lia| |done|lia].
    simpl. rewrite Z.mod_small by lia. lia.
Qed.

(** *** The shift after a deletion

    While it runs, the bucket at [h] is a hole whose content no longer
    counts. *)

Definition gap (bs : list (bucket I)) (h j : Z) : Z :=
  if decide (j mod n = h mod n) then 0 else dib bs j.

Record holed (bs : list (bucket I)) (h : Z) : Prop := {
  holed_sized : sized bs;
  holed_nonneg : forall j, 0 <= gap bs h j;
  holed_step : forall j, j mod n <> h mod n -> gap bs h (j + 1) <= gap bs h j + 1;
  holed_over : gap bs h (h + 1) <= gap bs h (h - 1) + 2;
  holed_home : forall j, j mod n <> h mod n -> dib bs j <> 0 ->
    b_hash (slot bs j) mod n = (j - (dib bs j - 1)) mod n;
}.

Lemma gap_ne bs h j : j mod n <> h mod n -> gap bs h j = dib bs j.
Proof. intros. unfold gap. by rewrite decide_False. Qed.
Lemma gap_eq bs h j : j mod n = h mod n -> gap bs h j = 0.
Proof. intros. unfold gap. by rewrite decide_True. Qed.
Lemma dib_eq bs j j' : sized bs -> j mod n = j' mod n -> dib bs j = dib bs j'.
Proof. intros. unfold dib. by rewrite (slot_eq bs j j'). Qed.
Lemma gap_cong bs h j j' : sized bs -> j mod n = j' mod n -> gap bs h j = gap bs h j'.
Proof. intros Hs E. unfold gap. rewrite E, (dib_eq bs j j') by done. done. Qed.
Lemma mod_shift j j' d : j mod n = j' mod n -> (j + d) mod n = (j' + d) mod n.
Proof. intros E. by rewrite <- mod_step, E, mod_step. Qed.
Lemma mod_unshift j j' d : (j + d) mod n = (j' + d) mod n -> j mod n = j' mod n.
Proof. intros E. apply (mod_shift _ _ (- d)) in E. by rewrite !Z.add_opp_r, !Z.add_simpl_r in E. Qed.

Lemma robin_holed bs h : robin bs -> holed bs h.
Proof.
  intros R. pose proof R as [Hs Hp Hst Hh]. pose proof n_range.
  assert (G : forall j, 0 <= gap bs h j <= dib bs j).
  { intros j. unfold gap. pose proof (Hp j). case_decide; lia. }
  split; [done|intros j; apply G| | |auto].
  - intros j Hj. rewrite (gap_ne _ _ j Hj). pose proof (G (j + 1)). pose proof (Hst j). lia.
  - rewrite (gap_ne _ _ (h - 1)).
    + pose proof (G (h + 1)). pose proof (Hst h). pose proof (Hst (h - 1)).
      replace (h - 1 + 1) with h in * by lia. lia.
    + intros E. symmetry in E. revert E. replace h with (h - 1 + 1) at 1 by lia. apply mod_ne. lia.
Qed.

(** What is in the table besides the hole. *)
Definition others (bs : list (bucket I)) (h : Z) : list (Z * I) := items (upd bs h free_bucket).

Lemma others_items bs h : sized bs -> others bs h ++ content (slot bs h) ≡ₚ items bs.
Proof. intros Hs. unfold others. rewrite (items_upd bs h free_bucket Hs). simpl. by rewrite app_nil_r. Qed.

Lemma close_ok bs h :
  holed bs h -> dib bs (h + 1) <= 1 ->
  robin (upd bs h (set_dib (slot bs h) 0)) /\ items (upd bs h (set_dib (slot bs h) 0)) ≡ₚ others bs h.
Proof.
  intros [Hs Hp Hst Ho Hh] H1. set (z := set_dib (slot bs h) 0). split.
  - assert (D : forall j, dib (upd bs h z) j = gap bs h j).
    { intros j. rewrite dib_upd by done. done. }
    split; [by apply upd_sized| | |]; intros j; rewrite ?D; [apply Hp| |].
    + destruct (decide (j mod n = h mod n)) as [E|E]; [|by apply Hst].
      rewrite (gap_eq _ _ j) by done. rewrite (gap_cong _ _ (j + 1) (h + 1)) by (done || by apply mod_shift).
      unfold gap. pose proof (Hp (h + 1)). unfold gap in *. case_decide; lia.
    + intros Hj. unfold gap in *. case_decide as E; [done|].
      rewrite slot_upd_ne by done. by apply Hh.
  - pose proof (items_upd bs h z Hs) as P. rewrite app_nil_r in P. rewrite <- (others_items bs h Hs) in P.
    by apply Permutation_app_inv_r in P.
Qed.

Lemma move_ok bs h :
  holed bs h -> 2 <= dib bs (h + 1) < 65536 ->
  let bs1 := upd bs h (set_dib (slot bs (h + 1)) (dib bs (h + 1) - 1)) in
  holed bs1 (h + 1) /\ others bs1 (h + 1) ≡ₚ others bs h.
Proof.
  intros [Hs Hp Hst Ho Hh] H1. pose proof n_range. set (b := set_dib _ _). intros bs1.
  assert (Db : b_dib b = dib bs (h + 1) - 1) by (simpl; apply Z.mod_small; lia).
  assert (N1 : (h + 1) mod n <> h mod n) by (apply mod_ne; lia).
  assert (N2 : (h - 1) mod n <> h mod n).
  { intros E. symmetry in E. revert E. replace h with (h - 1 + 1) at 1 by lia. apply mod_ne. lia. }
  assert (N3 : (h - 1) mod n <> (h + 1) mod n).
  { intros E. symmetry in E. revert E. replace (h + 1) with (h - 1 + 2) by lia. apply mod_ne. lia. }
  assert (N4 : (h + 1 + 1) mod n <> h mod n) by (rewrite <- Z.add_assoc; apply mod_ne; lia).
  assert (N5 : (h + 1 + 1) mod n <> (h + 1) mod n) by (apply mod_ne; lia).
  pose proof (upd_sized bs h b Hs) as Hs1. fold bs1 in Hs1.
  assert (G : forall j, gap bs1 (h + 1) j =
    if decide (j mod n = (h + 1) mod n) then 0 else if decide (j mod n = h mod n) then dib bs (h + 1) - 1 else dib bs j).
  { intros j. unfold gap. case_decide; [done|]. unfold bs1. rewrite dib_upd by done. case_decide; lia. }
  rewrite (gap_ne _ _ _ N1), (gap_ne _ _ _ N2) in Ho. split.
  - split; [done| | | |].
    + intros j. rewrite G. repeat case_decide; try lia. pose proof (Hp j). by rewrite gap_ne in * by done.
    + intros j Hj. rewrite !G, (decide_False (P := j mod n = (h + 1) mod n)) by done.
      destruct (decide (j mod n = h mod n)) as [Ej|Ej].
      { rewrite decide_True by by apply mod_shift. lia. }
      rewrite (decide_False (P := (j + 1) mod n = (h + 1) mod n)) by (intros E; by apply mod_unshift in E).
      destruct (decide ((j + 1) mod n = h mod n)) as [Ej'|Ej'].
      * assert (E : j mod n = (h - 1) mod n).
        { apply (mod_unshift _ _ 1). by replace (h - 1 + 1) with h by lia. }
        rewrite (dib_eq bs j (h - 1)) by done. lia.
      * specialize (Hst j Ej). by rewrite !gap_ne in Hst by done.
    + rewrite !G, (decide_False (P := (h + 1 + 1) mod n = (h + 1) mod n)),
        (decide_False (P := (h + 1 + 1) mod n = h mod n)) by done.
      replace (h + 1 - 1) with h by lia. rewrite decide_False, decide_True by (done || congruence).
      specialize (Hst (h + 1) N1). rewrite !gap_ne in Hst by done. lia.
    + intros j Hj Hd. unfold bs1 in *. rewrite dib_upd in * by done. rewrite slot_upd by done.
      case_decide as Ej; [|by apply Hh]. rewrite Db in *. simpl.
      rewrite (Hh (h + 1)) by (done || lia). 
      replace (h + 1 - (dib bs (h + 1) - 1)) with (h - (dib bs (h + 1) - 1 - 1)) by lia.
      by rewrite Zminus_mod, <- Ej, <- Zminus_mod.
  - pose proof (items_upd bs h b Hs) as P1. fold bs1 in P1.
    pose proof (others_items bs1 (h + 1) Hs1) as P2.
    assert (E : slot bs1 (h + 1) = slot bs (h + 1)) by (by apply slot_upd_ne). rewrite E in P2.
    rewrite <- P2, <- (others_items bs h Hs) in P1.
    rewrite (content_entry b), (content_entry (slot bs (h + 1))) in P1 by (fold (dib bs (h + 1)) || idtac; lia).
    change (b_hash b, b_item b) with (key bs (h + 1)) in P1. fold (key bs (h + 1)) in P1.
    apply (Permutation_app_inv_r ([key bs (h + 1)] ++ content (slot bs h))).
    rewrite app_assoc, P1. rewrite (Permutation_app_comm [_] (content _)). by rewrite app_assoc.
Qed.

Lemma shift_ok fuel bs h t :
  holed bs h -> dib bs (h + t) = 0 -> 0 < t < n -> t <= Z.of_nat fuel ->
  (forall j, dib bs j < 65536) ->
  exists bs', shift_loop fuel (n - 1) bs (h mod n) = Val bs' /\ robin bs' /\ items bs' ≡ₚ others bs h.
Proof.
  revert bs h t. induction fuel as [|fuel IH]; intros bs h t Hh H0 Ht Hf H16; [lia|].
  pose proof (holed_sized _ _ Hh) as Hs. pose proof n_range.
  cbn [shift_loop]. rewrite next_index, bucket_at_ok by done. cbn [rbind]. fold (dib bs (h + 1)).
  destruct (Z.leb_spec (dib bs (h + 1)) 1) as [Hle|Hgt].
  { rewrite bucket_at_ok by done. cbn [rbind]. rewrite put_bucket_ok by done.
    eexists. split; [done|]. by apply close_ok. }
  rewrite put_bucket_ok by done. cbn [rbind].
  destruct (move_ok bs h Hh) as [Hh1 P1]; [by split; [lia|]|].
  assert (t <> 1) by (intros ->; lia).
  destruct (IH _ (h + 1) (t - 1) Hh1) as (bs' & E & R & P).
  - rewrite dib_upd by done. replace (h + 1 + (t - 1)) with (h + t) by lia.
    rewrite decide_False; [done|]. apply mod_ne. lia.
  - lia.
  - lia.
  - intros j. rewrite dib_upd by done. case_decide; [|done]. simpl. apply Z.mod_pos_bound. lia.
  - exists bs'. split; [done|]. split; [done|]. by rewrite P.
Qed.
End Table.

(** ** The map *)

(** The thresholds for the sizes a map has. *)
Lemma thresholds k :
  4 <= k <= 15 ->
  let n := 2 ^ k in
  times_grow_at n = n * 3 / 5 /\ times_0_75 n = n * 3 / 4 /\ times_shrink_at n = n / 10 /\ 16 <= n <= 32768.
Proof.
  intros Hk. cbv zeta.
  pose (P := fun k => let n := 2 ^ k in
    (times_grow_at n =? n * 3 / 5) && (times_0_75 n =? n * 3 / 4) && (times_shrink_at n =? n / 10) &&
    (16 <=? n) && (n <=? 32768)).
  assert (E : P k = true) by (apply (forall_range P 4 12); [by vm_compute|lia]).
  unfold P in E. rewrite !andb_true_iff in E. destruct E as [[[[E1 E2] E3] E4] E5]. lia.
Qed.

(** The doubling finds the first power of two that is large enough. *)
Lemma cap_loop_ok fuel a c :
  0 <= a <= 31 -> c <= 2 ^ 31 -> 31 - a < Z.of_nat fuel ->
  exists k, a <= k <= 31 /\ cap_loop fuel (2 ^ a) c = Val (2 ^ k) /\ c <= 2 ^ k /\
    (k = a \/ 2 ^ (k - 1) < c).
Proof.
  revert a. induction fuel as [|fuel IH]; intros a Ha Hc Hf; [lia|]. cbn [cap_loop].
  destruct (Z.ltb_spec (2 ^ a) c) as [Hlt|Hge].
  - assert (a < 31). { destruct (decide (a = 31)) as [->|]; lia. }
    replace (u32 (2 ^ a * 2)) with (2 ^ (a + 1)).
    + destruct (IH (a + 1)) as (k & Hk & E & Hle & Hor); [lia|lia|lia|].
      exists k. split; [lia|]. split; [done|]. split; [done|]. right.
      destruct Hor as [->|]; [|done]. by replace (a + 1 - 1) with a by lia.
    + rewrite Z.pow_add_r by lia. rewrite u32_id; [lia|].
      assert (2 ^ a <= 2 ^ 30) by (apply Z.pow_le_mono_r; lia). lia.
  - exists a. split; [lia|]. split; [done|]. split; [done|]. by left.
Qed.

(** Beyond 2^31 it reaches zero and never ends. *)
Lemma cap_loop_spin fuel c : 0 < c -> cap_loop fuel 0 c = Spin.
Proof.
  intros Hc. induction fuel as [|fuel IH]; [done|]. cbn [cap_loop].
  rewrite (proj2 (Z.ltb_lt 0 c)) by lia. exact IH.
Qed.

Lemma cap_loop_pow a k : 4 <= a <= k -> k <= 31 -> cap_loop 64 (2 ^ a) (2 ^ k) = Val (2 ^ k).
Proof.
  intros Ha Hk. destruct (cap_loop_ok 64 a (2 ^ k)) as (k' & Hk' & E & Hle & Hor);
    [lia|apply Z.pow_le_mono_r; lia|lia|].
  rewrite E. do 2 f_equal. apply Z.pow_le_mono_r_iff in Hle; [|lia|lia].
  destruct Hor as [->|Hlt]; [lia|]. apply Z.pow_lt_mono_r_iff in Hlt; lia.
Qed.

Section Map.
Context {I : Type} (compare : option (I -> I -> Z)) (zero_item : I).
Context `{!MatchLaws compare}.

(** The items of a map, with their hashes. *)
Definition contents (m : hashmap I) : list (Z * I) := items (buckets m).

Record inv (m : hashmap I) : Prop := {
  inv_pow : exists k, 4 <= k <= 15 /\ nbuckets m = 2 ^ k;
  inv_cap : exists c, 4 <= c /\ cap m = 2 ^ c /\ cap m <= nbuckets m;
  inv_mask : mask m = nbuckets m - 1;
  inv_align : align_loop 4 (u32 (8 + elsize m)) = Val (bucketsz m);
  inv_fits : 0 < bucketsz m /\ bucketsz m * nbuckets m < 4294967296;
  inv_robin : robin zero_item (nbuckets m) (buckets m);
  inv_distinct : distinct compare (contents m);
  inv_count : count m = Z.of_nat (length (contents m));
  inv_grow : growat m = times_grow_at (nbuckets m) \/ growat m = times_0_75 (nbuckets m);
  inv_load : count m <= growat m;
  inv_shrink : shrinkat m = times_shrink_at (nbuckets m);
  inv_power : 1 <= growpower m <= 16;
}.

Lemma inv_facts m : inv m -> 16 <= nbuckets m <= 32768 /\ 0 <= count m < nbuckets m /\
  0 < growat m < nbuckets m /\ shrinkat m = nbuckets m / 10.
Proof.
  intros V. destruct (inv_pow _ V) as (k & Hk & E). destruct (thresholds k Hk) as (T1 & T2 & T3 & T4).
  rewrite <- E in *. pose proof (inv_load _ V). pose proof (inv_count _ V). pose proof (inv_shrink _ V).
  rewrite T3 in *. destruct (inv_grow _ V) as [G|G]; rewrite ?T1, ?T2 in G;
    (split; [lia|]; split; [|split; [|lia]]; Z.div_mod_to_equations; lia).
Qed.

Lemma fresh_full bsz n :
  0 < bsz -> 0 <= n -> bsz * n < 4294967296 -> fresh_buckets zero_item bsz n = replicate (Z.to_nat n) (free_bucket zero_item).
Proof.
  intros Hb Hn Hf. unfold fresh_buckets. rewrite u32_id by nia. by rewrite Z.mul_comm, Z.div_mul by lia.
Qed.

(** What an operation keeps of the map. *)
Definition kin (m m' : hashmap I) : Prop :=
  seed0 m' = seed0 m /\ seed1 m' = seed1 m /\ growpower m' = growpower m /\ bucketsz m' = bucketsz m.

(** A resize to a power of two that leaves a bucket free keeps the contents
    and the invariant. *)
Lemma resize_ok m k :
  inv m -> 4 <= k <= 15 -> bucketsz m * 2 ^ k < 4294967296 -> cap m <= 2 ^ k ->
  count m <= times_grow_at (2 ^ k) ->
  exists m', resize zero_item m (2 ^ k) true true = Val (Some m') /\ inv m' /\
    contents m' ≡ₚ contents m /\ count m' = count m /\ growat m' = times_grow_at (2 ^ k) /\
    nbuckets m' = 2 ^ k /\ oom m' = oom m /\ kin m m'.
Proof.
  intros V Hk Hf Hc Hg. destruct (thresholds k Hk) as (T1 & _ & _ & T4).
  unfold resize, resize0, hashmap_new_with_allocator.
  assert (E : (if 2 ^ k <? 16 then Val 16 else cap_loop 64 16 (2 ^ k)) = Val (2 ^ k)).
  { rewrite (proj2 (Z.ltb_ge (2 ^ k) 16)) by lia. apply (cap_loop_pow 4 k); lia. }
  rewrite E. cbn [rbind]. rewrite (inv_align _ V). cbn [rbind negb nbuckets mask buckets growat shrinkat].
  destruct (inv_fits _ V) as [Hb Hbn].
  rewrite fresh_full by lia. rewrite u32_id by lia. pose proof (inv_facts _ V) as (F1 & F2 & F3 & F4).
  pose proof (robin_sized _ _ _ (inv_robin _ V)) as Hs. unfold sized in Hs.
  rewrite take_ge by lia.
  destruct (rehash_all_ok zero_item (2 ^ k) ltac:(lia) k ltac:(lia) eq_refl (buckets m)
    (replicate (Z.to_nat (2 ^ k)) (free_bucket zero_item))) as (bs & Eb & R & P).
  { apply (robin_fresh zero_item (2 ^ k) ltac:(lia) k). lia. }
  { rewrite items_fresh. pose proof (inv_count _ V) as Ec. unfold contents in Ec. rewrite <- Ec.
    simpl length. rewrite T1 in Hg. Z.div_mod_to_equations. lia. }
  rewrite Eb. cbn [rbind]. eexists. split; [done|]. rewrite items_fresh, app_nil_r in P.
  split; [|cbn [contents count growat nbuckets oom seed0 seed1 buckets]; by repeat split].
  split; unfold contents; cbn [elsize cap seed0 seed1 bucketsz nbuckets count mask growat shrinkat growpower buckets];
    try done; try apply V.
  - by exists k.
  - destruct (inv_cap _ V) as (c & Hc1 & Hc2 & _). by exists c.
  - rewrite P. apply V.
  - rewrite P. apply V.
  - by left.
Qed.

Local Abbreviation slot := (slot zero_item).
Local Abbreviation dib := (dib zero_item).

(** Where an item with the key of [(h, x)] is, and how far a free bucket. *)
Lemma locate n k bs h x y :
  n = 2 ^ k -> 2 <= k <= 15 -> robin zero_item n bs ->
  lookup_item compare (h, x) (items bs) = Some y ->
  exists p, dib bs p <> 0 /\ same compare (h, x) (key zero_item bs p) = true /\
    b_item (slot bs p) = y /\ b_hash (slot bs p) = h /\ Z.land h (n - 1) = (p - (dib bs p - 1)) mod n /\
    0 < dib bs p.
Proof.
  intros Hn Hk R Hl. pose proof (n_range n k Hk Hn).
  apply lookup_Some in Hl as ([h' x'] & Hin & Hq & <-).
  apply (items_elem zero_item n) in Hin as (p & _ & Hd & <- & <-); [|apply R].
  exists p. split; [done|]. split; [done|]. split; [done|].
  assert (Eh : b_hash (slot bs p) = h).
  { unfold same in Hq. simpl in Hq. apply andb_true_iff in Hq as [Hq _]. lia. }
  split; [done|]. split; [|pose proof (robin_nonneg _ _ _ R p); lia].
  rewrite (land_mask n k), <- (robin_home _ _ _ R p Hd) by done. by rewrite Eh.
Qed.

Lemma dib_bound n k bs p :
  n = 2 ^ k -> 2 <= k <= 15 -> robin zero_item n bs -> Z.of_nat (length (items bs)) < n -> dib bs p < n.
Proof.
  intros Hn Hk R Hl. pose proof (n_range n k Hk Hn).
  destruct (exists_free zero_item n ltac:(lia) k Hk bs (p - n + 1) (robin_sized _ _ _ R) Hl) as (t & Ht & H0).
  pose proof (robin_back zero_item n bs (p - n + 1 + t) (n - 1 - t) R ltac:(lia)) as Hb.
  replace (p - n + 1 + t + (n - 1 - t)) with p in Hb by lia. lia.
Qed.

Lemma find_ok n k bs h x :
  n = 2 ^ k -> 2 <= k <= 15 -> robin zero_item n bs -> distinct compare (items bs) ->
  Z.of_nat (length (items bs)) < n ->
  match lookup_item compare (h, x) (items bs) with
  | None => find_loop compare (S (Z.to_nat n)) (n - 1) bs x h (Z.land h (n - 1)) = Val None
  | Some y => exists p, dib bs p <> 0 /\ same compare (h, x) (key zero_item bs p) = true /\
      b_item (slot bs p) = y /\
      find_loop compare (S (Z.to_nat n)) (n - 1) bs x h (Z.land h (n - 1)) = Val (Some (p mod n))
  end.
Proof.
  intros Hn Hk R Hd Hl. pose proof (n_range n k Hk Hn).
  destruct (lookup_item compare (h, x) (items bs)) as [y|] eqn:El.
  - destruct (locate n k bs h x y Hn Hk R El) as (p & Hp & Hq & Hy & _ & Hi & Hpos).
    exists p. split; [done|]. split; [done|]. split; [done|]. rewrite Hi.
    pose proof (dib_bound n k bs p Hn Hk R Hl).
    apply (find_Some zero_item n ltac:(lia) k Hk Hn); try done; lia.
  - apply lookup_None in El.
    destruct (exists_free zero_item n ltac:(lia) k Hk bs h (robin_sized _ _ _ R) Hl) as (t & Ht & H0).
    rewrite (land_mask n k) by done.
    apply (find_None zero_item n ltac:(lia) k Hk Hn compare _ bs x h h t); try done; [apply R|lia..].
Qed.

Lemma get_ok m x h :
  inv m -> hashmap_get_with_hash compare m x h = Val (lookup_item compare (clip_hash h, x) (contents m)).
Proof.
  intros V. destruct (inv_pow _ V) as (k & Hk & Hn). pose proof (inv_facts _ V) as (F1 & F2 & _).
  pose proof (inv_count _ V) as Ec. unfold hashmap_get_with_hash. rewrite (inv_mask _ V).
  pose proof (find_ok (nbuckets m) k (buckets m) (clip_hash h) x Hn ltac:(lia) (inv_robin _ V) (inv_distinct _ V)) as F.
  unfold contents in *. specialize (F ltac:(lia)).
  destruct (lookup_item compare (clip_hash h, x) (items (buckets m))) as [y|].
  - destruct F as (p & _ & _ & <- & ->). cbn [rbind].
    rewrite (bucket_at_ok zero_item (nbuckets m)) by (lia || apply (inv_robin _ V)). done.
  - by rewrite F.
Qed.

(** The loop of [hashmap_set] on a table with room. *)
Lemma set_loop_ok n k bs h x :
  n = 2 ^ k -> 2 <= k <= 15 -> robin zero_item n bs -> distinct compare (items bs) ->
  Z.of_nat (length (items bs)) < n ->
  exists bs', set_loop compare (S (Z.to_nat n)) (n - 1) bs (mkBucket h 1 x) (Z.land h (n - 1)) =
      Val (bs', lookup_item compare (h, x) (items bs)) /\ robin zero_item n bs' /\
    items bs' ≡ₚ insert_item compare (h, x) (items bs) /\
    length (items bs') = match lookup_item compare (h, x) (items bs) with
      None => S (length (items bs)) | Some _ => length (items bs) end.
Proof.
  intros Hn Hk R Hd Hl. pose proof (n_range n k Hk Hn).
  destruct (lookup_item compare (h, x) (items bs)) as [y|] eqn:El.
  - destruct (locate n k bs h x y Hn Hk R El) as (p & Hp & Hq & Hy & Hh & Hi & Hpos).
    pose proof (dib_bound n k bs p Hn Hk R Hl).
    destruct (replace_ok zero_item n ltac:(lia) bs p x R Hp) as (R' & rest & P1 & P2).
    eexists. split; [|split; [exact R'|]].
    + rewrite Hi, <- Hy. apply (set_found zero_item n ltac:(lia) k Hk Hn); simpl; try done; lia.
    + split; [|by rewrite (Permutation_length P1), (Permutation_length P2)].
      unfold insert_item. by rewrite (delete_found compare (h, x) _ _ rest Hd P1 Hq), P2, Hh.
  - apply lookup_None in El.
    destruct (exists_free zero_item n ltac:(lia) k Hk bs h (robin_sized _ _ _ R) Hl) as (t & Ht & H0).
    destruct (set_fresh zero_item n ltac:(lia) k Hk Hn compare (S (Z.to_nat n)) bs (mkBucket h 1 x) h t)
      as (bs' & E & R' & P); try done; try lia.
    { by apply (seeks_start zero_item n k bs (mkBucket h 1 x)). }
    exists bs'. rewrite (land_mask n k) by done. split; [done|]. split; [done|].
    unfold insert_item. rewrite delete_fresh by done. split; [done|]. by rewrite (Permutation_length P).
Qed.

Lemma distinct_insert q l : distinct compare l -> distinct compare (insert_item compare q l).
Proof. intros Hd. destruct (distinct_delete compare q l Hd). by split. Qed.

(** Putting an item into a map that need not grow first. *)
Lemma put_ok m x h :
  inv m -> count m < growat m -> 
  exists bs, set_loop compare (S (Z.to_nat (nbuckets m))) (mask m) (buckets m)
      (mkBucket (clip_hash h) 1 x) (Z.land (clip_hash h) (mask m)) =
      Val (bs, lookup_item compare (clip_hash h, x) (contents m)) /\
    let m' := with_table m (oom m)
      (match lookup_item compare (clip_hash h, x) (contents m) with
       None => u32 (count m + 1) | Some _ => count m end) bs in
    inv m' /\ contents m' ≡ₚ insert_item compare (clip_hash h, x) (contents m).
Proof.
  intros V Hlt. destruct (inv_pow _ V) as (k & Hk & Hn). pose proof (inv_facts _ V) as (F1 & F2 & F3 & _).
  pose proof (inv_count _ V) as Ec. unfold contents in *.
  destruct (set_loop_ok (nbuckets m) k (buckets m) (clip_hash h) x) as (bs & E & R & P & L);
    [done|lia|apply V|apply V|lia|].
  exists bs. rewrite (inv_mask _ V), E. split; [done|]. cbn [with_table buckets]. split; [|done].
  rewrite u32_id by lia.
  split; unfold contents; cbn [with_table elsize cap bucketsz nbuckets count mask growat shrinkat growpower buckets];
    try done; try apply V.
  - rewrite P. apply distinct_insert, V.
  - rewrite L. destruct (lookup_item compare (clip_hash h, x) (items (buckets m))); lia.
  - destruct (lookup_item compare (clip_hash h, x) (items (buckets m))); lia.
Qed.

Lemma inv_oom m o : inv m -> inv (with_table m o (count m) (buckets m)).
Proof. intros V. split; apply V. Qed.

Lemma resize_fails m k ok1 ok2 :
  inv m -> 4 <= k <= 15 -> ok1 && ok2 = false -> resize zero_item m (2 ^ k) ok1 ok2 = Val None.
Proof.
  intros V Hk Hok. destruct (thresholds k Hk) as (_ & _ & _ & T).
  unfold resize, resize0, hashmap_new_with_allocator.
  rewrite (proj2 (Z.ltb_ge (2 ^ k) 16)) by lia. change 16 with (2 ^ 4) at 1.
  rewrite cap_loop_pow by lia. cbn [rbind]. rewrite (inv_align _ V). by destruct ok1, ok2.
Qed.

(** The table can double as the code asks: its buckets stay within 2^15 and
    its bytes within the address space. *)
Definition can_grow (m : hashmap I) : Prop :=
  count m = growat m ->
  nbuckets m * 2 ^ growpower m <= 32768 /\
  bucketsz m * (nbuckets m * 2 ^ growpower m) < 4294967296.

Lemma grow_size m :
  inv m -> nbuckets m * 2 ^ growpower m <= 32768 ->
  exists k, 4 <= k <= 15 /\ nbuckets m * 2 ^ growpower m = 2 ^ k /\
    u32 (nbuckets m * Z.shiftl 1 (growpower m)) = 2 ^ k /\ 2 * nbuckets m <= 2 ^ k.
Proof.
  intros V Hle. destruct (inv_pow _ V) as (k & Hk & E). pose proof (inv_power _ V).
  exists (k + growpower m). rewrite Z.shiftl_1_l, E in *. rewrite <- Z.pow_add_r in * by lia.
  assert (k + growpower m <= 15).
  { change 32768 with (2 ^ 15) in Hle. apply Z.pow_le_mono_r_iff in Hle; lia. }
  split; [lia|]. split; [done|]. split; [apply u32_id; lia|].
  replace (2 * 2 ^ k) with (2 ^ (k + 1)) by (rewrite Z.pow_add_r; lia). apply Z.pow_le_mono_r; lia.
Qed.

Lemma set_ok m x h ok1 ok2 :
  inv m -> can_grow m ->
  let q := (clip_hash h, x) in
  if (count m =? growat m) && negb (ok1 && ok2)
  then hashmap_set_with_hash compare zero_item m x h ok1 ok2 =
    Val (None, with_table m true (count m) (buckets m))
  else exists m', hashmap_set_with_hash compare zero_item m x h ok1 ok2 =
      Val (lookup_item compare q (contents m), m') /\ inv m' /\ oom m' = false /\ kin m m' /\
    contents m' ≡ₚ insert_item compare q (contents m).
Proof.
  intros V Hg q. pose proof (inv_facts _ V) as (F1 & F2 & F3 & F4).
  unfold hashmap_set_with_hash. set (m0 := with_table m false (count m) (buckets m)).
  assert (V0 : inv m0) by by apply inv_oom.
  change (count m0 =? growat m0) with (count m =? growat m).
  destruct (Z.eqb_spec (count m) (growat m)) as [E|E]; cbn [andb].
  - destruct (Hg E) as [Hg1 Hg2]. destruct (grow_size m V Hg1) as (k & Hk & Ek & Eu & H2).
    change (nbuckets m0) with (nbuckets m). change (growpower m0) with (growpower m). rewrite Eu.
    destruct (ok1 && ok2) eqn:Eok; cbn [negb]; [|by rewrite resize_fails].
    apply andb_true_iff in Eok as [-> ->]. destruct (thresholds k Hk) as (T1 & _).
    destruct (resize_ok m0 k V0 Hk) as (m1 & E1 & V1 & P1 & C1 & G1 & N1 & O1 & S1).
    { cbn [m0 with_table bucketsz]. by rewrite <- Ek. }
    { destruct (inv_cap _ V) as (? & _ & _ & ?). cbn [m0 with_table cap]. lia. }
    { cbn [m0 with_table count]. rewrite T1. Z.div_mod_to_equations. lia. }
    rewrite E1. cbn [rbind]. change (count m0) with (count m) in C1.
    destruct (put_ok m1 x h V1) as (bs & E2 & V2 & P2).
    { rewrite C1, G1, T1. Z.div_mod_to_equations. lia. }
    rewrite E2. cbn [rbind]. fold q in V2, P2 |- *. change (contents m0) with (contents m) in P1.
    rewrite <- (lookup_perm compare q _ _ (inv_distinct _ V1) P1). eexists. split; [done|].
    split; [done|]. split; [exact O1|]. split; [exact S1|]. rewrite P2. unfold insert_item.
    by rewrite (delete_perm compare q _ _ P1).
  - cbn [rbind]. pose proof (inv_load _ V).
    destruct (put_ok m0 x h V0) as (bs & E2 & V2 & P2); [cbn [m0 with_table count growat]; lia|].
    rewrite E2. cbn [rbind]. fold q in V2, P2 |- *. eexists. split; [done|].
    split; [exact V2|]. split; [done|]. split; [by split|]. exact P2.
Qed.

(** Removing the item found at [p] from the table. *)
Lemma remove_ok n k bs p :
  n = 2 ^ k -> 2 <= k <= 15 -> robin zero_item n bs -> Z.of_nat (length (items bs)) < n -> dib bs p <> 0 ->
  exists bs', (let! bs1 := put_bucket bs (p mod n) (set_dib (slot bs p) 0) in
      shift_loop (S (Z.to_nat n)) (n - 1) bs1 (p mod n)) = Val bs' /\ robin zero_item n bs' /\
    items bs ≡ₚ key zero_item bs p :: items bs'.
Proof.
  intros Hn Hk R Hl Hp. pose proof (n_range n k Hk Hn) as Hr. pose proof (robin_sized _ _ _ R) as Hs.
  rewrite (put_bucket_ok n) by (done || lia). cbn [rbind]. set (z := set_dib (slot bs p) 0).
  destruct (exists_free zero_item n ltac:(lia) k Hk bs p Hs Hl) as (t & Ht & H0).
  assert (t <> 0) by (intros ->; rewrite Z.add_0_r in H0; done).
  assert (Hh : holed zero_item n (upd bs p z) p).
  { pose proof (robin_holed zero_item n ltac:(lia) k Hk Hn bs p R) as [h1 h2 h3 h4 h5].
    assert (G : forall j, gap zero_item n (upd bs p z) p j = gap zero_item n bs p j).
    { intros j. unfold gap. case_decide; [done|]. rewrite (dib_upd zero_item n) by (done || lia).
      by rewrite decide_False. }
    split; [by apply upd_sized|intros j; rewrite G; auto|intros j Hj; rewrite !G; auto|by rewrite !G|].
    intros j Hj. rewrite (dib_upd zero_item n) by (done || lia). rewrite decide_False by done.
    rewrite (slot_upd_ne zero_item n) by (done || lia). auto. }
  destruct (shift_ok zero_item n ltac:(lia) k Hk Hn (S (Z.to_nat n)) (upd bs p z) p t Hh) as (bs' & E & R' & P).
  - rewrite (dib_upd zero_item n) by (done || lia). case_decide as Hd; [done|done].
  - lia.
  - lia.
  - intros j. rewrite (dib_upd zero_item n) by (done || lia). case_decide; [done|].
    pose proof (dib_bound n k bs j Hn Hk R Hl). lia.
  - exists bs'. split; [done|]. split; [done|]. rewrite P.
    rewrite (items_clear zero_item n ltac:(lia) bs p z Hs Hp ltac:(done)). constructor.
    pose proof (others_items zero_item n ltac:(lia) (upd bs p z) p (upd_sized _ _ _ _ Hs)) as Po.
    rewrite (slot_upd_eq zero_item n) in Po by (done || lia). change (content z) with (@nil (Z * I)) in Po.
    by rewrite app_nil_r in Po.
Qed.

(** Shrinking to half the size, whether or not there is memory for it. *)
Lemma shrink_ok m ok1 ok2 :
  inv m -> cap m < nbuckets m -> count m <= shrinkat m ->
  exists r, resize zero_item m (nbuckets m / 2) ok1 ok2 = Val r /\
    let m' := match r with Some m' => m' | None => m end in
    inv m' /\ oom m' = oom m /\ kin m m' /\ contents m' ≡ₚ contents m.
Proof.
  intros V Hc Hs. destruct (inv_pow _ V) as (k & Hk & En). destruct (inv_cap _ V) as (c & Hc1 & Ec & _).
  pose proof (inv_facts _ V) as (F1 & F2 & F3 & F4). destruct (inv_fits _ V).
  assert (Hck : c < k). { rewrite Ec, En in Hc. apply Z.pow_lt_mono_r_iff in Hc; lia. }
  assert (E2 : nbuckets m = 2 * 2 ^ (k - 1)).
  { rewrite En, <- Z.pow_succ_r by lia. f_equal. lia. }
  assert (E : nbuckets m / 2 = 2 ^ (k - 1)) by (rewrite E2, Z.mul_comm; apply Z.div_mul; lia).
  rewrite E. destruct (ok1 && ok2) eqn:Eok.
  - apply andb_true_iff in Eok as [-> ->].
    destruct (thresholds (k - 1) ltac:(lia)) as (T1 & _).
    destruct (resize_ok m (k - 1) V ltac:(lia)) as (m1 & E1 & V1 & P1 & C1 & G1 & N1 & O1 & S1); [nia| | |].
    + rewrite Ec. apply Z.pow_le_mono_r; lia.
    + rewrite T1. Z.div_mod_to_equations. lia.
    + exists (Some m1). repeat (split; [done|]). done.
  - exists None. split; [apply resize_fails; [done|lia|done]|]. repeat (split; [done|]). done.
Qed.

Lemma delete_ok m x h ok1 ok2 :
  inv m ->
  let q := (clip_hash h, x) in
  exists m', hashmap_delete_with_hash compare zero_item m x h ok1 ok2 =
      Val (lookup_item compare q (contents m), m') /\ inv m' /\ oom m' = false /\ kin m m' /\
    contents m' ≡ₚ delete_item compare q (contents m).
Proof.
  intros V q. destruct (inv_pow _ V) as (k & Hk & Hn). pose proof (inv_facts _ V) as (F1 & F2 & F3 & F4).
  pose proof (inv_count _ V) as Ec. unfold hashmap_delete_with_hash.
  set (m0 := with_table m false (count m) (buckets m)). assert (V0 : inv m0) by by apply inv_oom.
  change (nbuckets m0) with (nbuckets m). change (mask m0) with (mask m).
  change (buckets m0) with (buckets m). rewrite (inv_mask _ V).
  pose proof (find_ok (nbuckets m) k (buckets m) (clip_hash h) x Hn ltac:(lia) (inv_robin _ V) (inv_distinct _ V)) as F.
  unfold contents in *. specialize (F ltac:(lia)). fold q in F |- *.
  destruct (lookup_item compare q (items (buckets m))) as [y|] eqn:El.
  2: { rewrite F. cbn [rbind]. exists m0. split; [done|]. split; [done|]. split; [done|]. split; [done|].
       apply lookup_None in El. by rewrite delete_fresh. }
  destruct F as (p & Hp & Hq & <- & ->). cbn [rbind].
  pose proof (robin_sized _ _ _ (inv_robin _ V)) as Hs.
  rewrite (bucket_at_ok zero_item (nbuckets m)) by (done || lia). cbn [rbind].
  destruct (remove_ok (nbuckets m) k (buckets m) p Hn ltac:(lia) (inv_robin _ V) ltac:(lia) Hp) as (bs & E & R & P).
  rewrite (put_bucket_ok (nbuckets m)) in E |- * by (done || lia). cbn [rbind] in E |- *. rewrite E. cbn [rbind].
  set (m1 := with_table m0 (oom m0) (u32 (count m0 - 1)) bs).
  pose proof (Permutation_length P) as L. simpl in L.
  assert (Ec1 : count m1 = Z.of_nat (length (items bs))).
  { cbn [m1 m0 with_table count]. rewrite u32_id by lia. lia. }
  pose proof (delete_found compare q _ _ _ (inv_distinct _ V) P Hq) as Pd.
  assert (V1 : inv m1).
  { pose proof (inv_load _ V).
    split; unfold contents; cbn [m1 m0 with_table elsize cap bucketsz nbuckets count mask growat shrinkat growpower buckets];
      try done; try apply V.
    - rewrite <- Pd. apply distinct_delete, V.
    - cbn [m1 m0 with_table count] in Ec1. lia. }
  destruct ((cap m1 <? nbuckets m1) && (count m1 <=? shrinkat m1)) eqn:Eb.
  - apply andb_true_iff in Eb as [Eb1 Eb2].
    destruct (shrink_ok m1 ok1 ok2 V1) as (r & Er & V2 & O2 & K2 & P2); [lia|lia|].
    rewrite Er. cbn [rbind]. eexists. split; [done|]. split; [exact V2|]. split; [exact O2|].
    split; [exact K2|]. unfold contents in P2. rewrite P2. cbn [m1 with_table buckets]. by rewrite Pd.
  - cbn [rbind]. exists m1. split; [done|]. split; [done|]. split; [done|]. split; [done|].
    cbn [m1 with_table buckets]. by rewrite Pd.
Qed.

(** ** New and cleared maps *)

Lemma align_step fuel b :
  0 <= b < 4294967295 ->
  align_loop (S fuel) b = if b mod 4 =? 0 then Val b else align_loop fuel (b + 1).
Proof.
  intros Hb. cbn [align_loop]. change (Z.land b 3) with (Z.land b (Z.ones 2)).
  rewrite Z.land_ones, u32_id by lia. change (2 ^ 2) with 4. by destruct (b mod 4 =? 0).
Qed.

Lemma align_ok esize :
  0 <= esize <= 4294967200 ->
  exists bsz, align_loop 4 (u32 (8 + esize)) = Val bsz /\ 8 + esize <= bsz < 8 + esize + 4 /\ bsz mod 4 = 0.
Proof.
  intros He. rewrite u32_id by lia. set (b := 8 + esize). assert (0 <= b < 4294967210) by lia.
  do 4 (rewrite align_step by lia;
    match goal with |- context [?x mod 4 =? 0] => destruct (Z.eqb_spec (x mod 4) 0) end;
    [eexists; split; [done|]; split; [lia|done]|]).
  exfalso. Z.div_mod_to_equations. lia.
Qed.

(** What [hashmap_new] makes of a capacity. *)
Lemma new_cap_ok ncap :
  0 <= ncap <= 2 ^ 31 ->
  exists k, 4 <= k <= 31 /\ (if ncap <? 16 then Val 16 else cap_loop 64 16 ncap) = Val (2 ^ k) /\
    ncap <= 2 ^ k /\ (k = 4 \/ 2 ^ (k - 1) < ncap).
Proof.
  intros Hc. destruct (Z.ltb_spec ncap 16) as [Hlt|Hge].
  - exists 4. split; [lia|]. split; [done|]. split; [lia|]. by left.
  - destruct (cap_loop_ok 64 4 ncap) as (k & Hk & E & Hle & Hor); [lia|lia|lia|].
    exists k. split; [lia|]. by repeat split.
Qed.

Lemma new_ok esize ncap s0 s1 efree :
  0 <= esize <= 131000 -> 0 <= ncap <= 32768 ->
  exists m, hashmap_new zero_item esize ncap s0 s1 efree true true = Val (Some m) /\ inv m /\
    contents m = [] /\ count m = 0 /\ oom m = false /\ seed0 m = s0 /\ seed1 m = s1 /\ growpower m = 1 /\
    elfree m = efree /\ bucketsz m < 131072.
Proof.
  intros He Hc. destruct (new_cap_ok ncap) as (k & Hk & E & Hle & Hor); [lia|].
  assert (Hk15 : k <= 15).
  { destruct Hor as [->|Hlt]; [lia|]. change 32768 with (2 ^ 15) in Hc.
    assert (2 ^ (k - 1) < 2 ^ 15) as Hx by lia. apply Z.pow_lt_mono_r_iff in Hx; lia. }
  destruct (align_ok esize) as (bsz & Eb & Hb & _); [lia|].
  destruct (thresholds k ltac:(lia)) as (T1 & T2 & T3 & T4).
  unfold hashmap_new, hashmap_new_with_allocator. rewrite E. cbn [rbind]. rewrite Eb. cbn [rbind negb].
  rewrite fresh_full by nia. rewrite (u32_id (2 ^ k - 1)) by lia. eexists. split; [done|].
  split; [|unfold contents; cbn [buckets count oom seed0 seed1 growpower elfree bucketsz];
           rewrite items_fresh; repeat (split; [done|]); lia].
  split; unfold contents; cbn [elsize cap bucketsz nbuckets count mask growat shrinkat growpower buckets];
    rewrite ?items_fresh; try done; try lia.
  - exists k. split; [lia|done].
  - exists k. split; [lia|]. by split.
  - nia.
  - apply (robin_fresh zero_item (2 ^ k) ltac:(lia) k). lia.
  - rewrite T1. Z.div_mod_to_equations. lia.
Qed.

Lemma clear_ok m uc ok :
  inv m ->
  let '(freed, m') := hashmap_clear zero_item m uc ok in
  freed = (if elfree m then snd <$> contents m else []) /\
  inv m' /\ contents m' = [] /\ kin m m'.
Proof.
  intros V. destruct (inv_pow _ V) as (k & Hk & En). destruct (inv_cap _ V) as (c & Hc & Ec & Hle).
  pose proof (inv_facts _ V) as (F1 & F2 & F3 & F4). destruct (inv_fits _ V) as [Hb Hbn].
  pose proof (robin_sized _ _ _ (inv_robin _ V)) as Hs. unfold sized in Hs.
  assert (Hc15 : c <= 15). { rewrite Ec, En in Hle. apply Z.pow_le_mono_r_iff in Hle; lia. }
  unfold hashmap_clear. set (t := if uc then _ else _).
  assert (Ht : exists k', 4 <= k' <= 15 /\ t.1.2 = 2 ^ k' /\ Z.of_nat (length t.2) = 2 ^ k' /\
    (exists c', 4 <= c' /\ t.1.1 = 2 ^ c' /\ t.1.1 <= 2 ^ k') /\ 2 ^ k' <= nbuckets m).
  { unfold t. destruct uc; cbn [fst snd].
    { exists k. rewrite <- En. split; [lia|]. split; [done|]. split; [done|]. split; [|lia].
      exists k. rewrite En. split; [lia|done]. }
    destruct (Z.eqb_spec (nbuckets m) (cap m)) as [E|E]; cbn [negb fst snd].
    { exists k. rewrite <- En. split; [lia|]. split; [done|]. split; [done|]. split; [|lia]. exists c. split; [lia|done]. }
    exists c. rewrite <- Ec. split; [lia|]. split; [done|]. split; [|split; [|lia]].
    - destruct ok; [rewrite fresh_full by nia; rewrite length_replicate; lia|]. rewrite length_take. lia.
    - exists c. split; [lia|done]. }
  destruct Ht as (k' & Hk' & E1 & E2 & E3 & E4). destruct t as [[cap' nb] block]. cbn [fst snd] in *.
  subst nb. destruct (thresholds k' Hk') as (T1 & T2 & T3 & T4).
  split; [|split; [|unfold contents; cbn [buckets]; rewrite items_fresh; by repeat split]].
  - unfold free_elements. destruct (elfree m); [|done]. rewrite take_ge by lia. clear.
    unfold contents, items. induction (buckets m) as [|b bs IH]; [done|].
    rewrite filter_cons. cbn [mbind list_bind]. rewrite fmap_app, <- IH. unfold content.
    case_decide as Hd; [by rewrite (proj2 (Z.eqb_neq _ _) Hd)|].
    assert (b_dib b = 0) as -> by lia. done.
  - split; unfold contents; cbn [elsize cap bucketsz nbuckets count mask growat shrinkat growpower buckets];
      rewrite ?items_fresh; try done; try apply V; try lia.
    + by exists k'.
    + rewrite u32_id; lia.
    + nia.
    + replace (length block) with (Z.to_nat (2 ^ k')) by lia.
      apply (robin_fresh zero_item (2 ^ k') ltac:(lia) k'). lia.
    + rewrite T2. Z.div_mod_to_equations. lia.
Qed.

(** ** Sequences of operations *)

Context (hash : I -> Z -> Z -> Z).

Inductive op := Set_ (x : I) | Get (x : I) | Delete (x : I) | Clear.

(** An operation of the map; [ok1] and [ok2] tell whether the allocations it
    may need succeed. *)
Definition exec (m : hashmap I) (o : op) (ok1 ok2 : bool) : result (option I * hashmap I) :=
  match o with
  | Set_ x => hashmap_set hash compare zero_item m x ok1 ok2
  | Get x => let! r := hashmap_get hash compare m x in Val (r, m)
  | Delete x => hashmap_delete hash compare zero_item m x ok1 ok2
  | Clear => Val (None, snd (hashmap_clear zero_item m false ok1))
  end.

Fixpoint exec_all (m : hashmap I) (ops : list (op * bool * bool)) : result (list (option I) * hashmap I) :=
  match ops with
  | [] => Val ([], m)
  | (o, ok1, ok2) :: ops =>
      let! (r, m) := exec m o ok1 ok2 in
      let! (rs, m) := exec_all m ops in
      Val (r :: rs, m)
  end.

Definition keyed (s0 s1 : Z) (x : I) : Z * I := (clip_hash (hash x s0 s1), x).

(** The reference: a list of items and the flag [hashmap_oom] returns.  An
    item is stored, replacing the one with its key, which is the answer; only
    when an allocation fails may it be refused, with the flag set and nothing
    else changed. *)
Inductive ref (s0 s1 : Z) (l : list (Z * I)) (b : bool)
    : op -> bool -> option I -> list (Z * I) -> bool -> Prop :=
  | ref_set x ok :
      ref s0 s1 l b (Set_ x) ok (lookup_item compare (keyed s0 s1 x) l)
        (insert_item compare (keyed s0 s1 x) l) false
  | ref_refused x : ref s0 s1 l b (Set_ x) false None l true
  | ref_get x ok : ref s0 s1 l b (Get x) ok (lookup_item compare (keyed s0 s1 x) l) l b
  | ref_delete x ok :
      ref s0 s1 l b (Delete x) ok (lookup_item compare (keyed s0 s1 x) l)
        (delete_item compare (keyed s0 s1 x) l) false
  | ref_clear ok : ref s0 s1 l b Clear ok None [] b.

Inductive ref_all (s0 s1 : Z) : list (Z * I) -> bool -> list (op * bool * bool) ->
    list (option I) -> list (Z * I) -> bool -> Prop :=
  | ref_nil l b : ref_all s0 s1 l b [] [] l b
  | ref_cons l b o ok1 ok2 r l1 b1 ops rs l2 b2 :
      ref s0 s1 l b o (ok1 && ok2) r l1 b1 -> ref_all s0 s1 l1 b1 ops rs l2 b2 ->
      ref_all s0 s1 l b ((o, ok1, ok2) :: ops) (r :: rs) l2 b2.

Lemma clip_clip h : clip_hash (clip_hash h) = clip_hash h.
Proof. unfold clip_hash. by rewrite <- Z.land_assoc, Z.land_diag. Qed.

Lemma delete_length q l : (length (delete_item compare q l) <= length l)%nat.
Proof.
  unfold delete_item. induction l as [|a l IH]; [done|]. simpl. destruct (negb _); simpl; lia.
Qed.

(** While there are fewer than 19660 items the table can always grow. *)
Lemma small_can_grow m :
  inv m -> growpower m = 1 -> bucketsz m < 131072 -> count m < 19660 -> can_grow m.
Proof.
  intros V Hp Hb Hc Heq. rewrite Hp. change (2 ^ 1) with 2.
  destruct (inv_pow _ V) as (k & Hk & E). destruct (thresholds k Hk) as (T1 & T2 & _ & _).
  rewrite <- E in *. destruct (inv_fits _ V).
  assert (Hk14 : k <= 14).
  { destruct (decide (k = 15)) as [->|]; [|lia]. change (2 ^ 15) with 32768 in E. rewrite E in *.
    change (32768 * 3 / 5) with 19660 in T1. change (32768 * 3 / 4) with 24576 in T2.
    destruct (inv_grow _ V) as [G|G]; rewrite E in G; lia. }
  assert (nbuckets m <= 16384) by (rewrite E; change 16384 with (2 ^ 14); apply Z.pow_le_mono_r; lia).
  split; [lia|nia].
Qed.

Lemma exec_ok m l o ok1 ok2 :
  inv m -> contents m ≡ₚ l -> growpower m = 1 -> bucketsz m < 131072 -> Z.of_nat (length l) < 19660 ->
  exists r m' l', exec m o ok1 ok2 = Val (r, m') /\
    ref (seed0 m) (seed1 m) l (oom m) o (ok1 && ok2) r l' (oom m') /\ inv m' /\ kin m m' /\ contents m' ≡ₚ l'.
Proof.
  intros V P Hp Hb Hl. pose proof (inv_distinct _ V) as Hd.
  assert (E : forall x, lookup_item compare (keyed (seed0 m) (seed1 m) x) (contents m) =
    lookup_item compare (keyed (seed0 m) (seed1 m) x) l) by (intros x; by apply lookup_perm).
  destruct o as [x|x|x|]; cbn [exec].
  - pose proof (set_ok m x (get_hash hash m x) ok1 ok2 V) as H. unfold get_hash in H. rewrite clip_clip in H.
    assert (G : can_grow m) by (apply small_can_grow; try done; rewrite (inv_count _ V), P; done).
    specialize (H G). unfold hashmap_set, get_hash. destruct ((count m =? growat m) && negb (ok1 && ok2)) eqn:F.
    + apply andb_true_iff in F as [_ F%negb_true_iff]. rewrite H, F. eexists _, _, l. split; [done|].
      split; [apply ref_refused|]. split; [by apply inv_oom|]. by split.
    + destruct H as (m' & E' & V' & O & K & P'). rewrite E'. eexists _, m', _. split; [done|].
      fold (keyed (seed0 m) (seed1 m) x). rewrite E, O. split; [apply ref_set|]. split; [done|]. split; [done|].
      rewrite P'. unfold insert_item. by rewrite (delete_perm compare _ _ _ P).
  - eexists _, m, l. unfold hashmap_get. rewrite get_ok by done. unfold get_hash. rewrite clip_clip. cbn [rbind].
    fold (keyed (seed0 m) (seed1 m) x). rewrite E.
    split; [done|]. split; [apply ref_get|]. split; [done|]. split; [by repeat split|done].
  - pose proof (delete_ok m x (get_hash hash m x) ok1 ok2 V) as H. unfold get_hash in H. rewrite clip_clip in H.
    destruct H as (m' & E' & V' & O & K & P'). unfold hashmap_delete, get_hash. rewrite E'.
    eexists _, m', _. split; [done|]. fold (keyed (seed0 m) (seed1 m) x). rewrite E, O.
    split; [apply ref_delete|]. split; [done|]. split; [done|]. rewrite P'. by apply delete_perm.
  - pose proof (clear_ok m false ok1 V) as H.
    assert (O : oom (snd (hashmap_clear zero_item m false ok1)) = oom m).
    { unfold hashmap_clear. by destruct (negb _), ok1. }
    destruct (hashmap_clear zero_item m false ok1) as [fr m']. cbn [snd] in *.
    destruct H as (_ & V' & C & K). eexists _, m', []. rewrite C, O. split; [done|].
    split; [apply ref_clear|]. by repeat (split; [done|]).
Qed.

Lemma ref_length s0 s1 l b o ok r l' b' : ref s0 s1 l b o ok r l' b' -> (length l' <= S (length l))%nat.
Proof.
  intros R. destruct R as [x| |x|x|]; simpl; try lia; pose proof (delete_length (keyed s0 s1 x) l); lia.
Qed.

Lemma exec_all_ok ops m l :
  inv m -> contents m ≡ₚ l -> growpower m = 1 -> bucketsz m < 131072 ->
  Z.of_nat (length l) + Z.of_nat (length ops) <= 19660 ->
  exists rs m' l', exec_all m ops = Val (rs, m') /\
    ref_all (seed0 m) (seed1 m) l (oom m) ops rs l' (oom m') /\ inv m' /\ contents m' ≡ₚ l'.
Proof.
  revert m l. induction ops as [|[[o ok1] ok2] ops IH]; intros m l V P Hp Hb Hl.
  { exists [], m, l. split; [done|]. split; [constructor|done]. }
  cbn [exec_all]. simpl length in Hl.
  destruct (exec_ok m l o ok1 ok2 V P Hp Hb ltac:(lia)) as (r & m1 & l1 & E1 & R1 & V1 & (K1 & K2 & K3 & K4) & P1).
  pose proof (ref_length _ _ _ _ _ _ _ _ _ R1).
  rewrite E1. cbn [rbind].
  destruct (IH m1 l1 V1 P1) as (rs & m2 & l2 & E2 & R2 & V2 & P2); [lia|lia|lia|].
  rewrite E2. cbn [rbind]. exists (r :: rs), m2, l2. split; [done|]. split; [|done].
  rewrite K1, K2 in R2. by econstructor.
Qed.
End Map.

(** C3: A new map for items of up to 131000 bytes and a capacity of up to
    32768, and any sequence of up to 19660 operations [hashmap_set],
    [hashmap_get], [hashmap_delete] and [hashmap_clear] on it, whether the
    allocations they need succeed or not: every operation returns, never
    leaves the buckets, gives the answer that the list of items with distinct
    keys gives (an item being refused, with [hashmap_oom] true and nothing
    else changed, only when an allocation fails), and leaves a map that holds
    exactly that list, in an order of its own, and satisfies the invariant.
    The hash function is arbitrary; the comparison need only be an
    equivalence, and may be missing. *)
Theorem hashmap_refines {I} (hash : I -> Z -> Z -> Z) compare `{!MatchLaws compare} (zero_item : I)
    esize ncap s0 s1 efree ops :
  0 <= esize <= 131000 -> 0 <= ncap <= 32768 -> Z.of_nat (length ops) <= 19660 ->
  exists m rs m' l, hashmap_new zero_item esize ncap s0 s1 efree true true = Val (Some m) /\
    exec_all compare zero_item hash m ops = Val (rs, m') /\
    ref_all compare hash s0 s1 [] false ops rs l (hashmap_oom m') /\
    inv compare zero_item m' /\ contents m' ≡ₚ l.
Proof.
  intros He Hc Ho. destruct (new_ok compare zero_item esize ncap s0 s1 efree He Hc)
    as (m & E & V & C & _ & O & <- & <- & Hp & _ & Hb).
  destruct (exec_all_ok compare zero_item hash ops m [] V) as (rs & m' & l & E' & R & V' & P);
    [by rewrite C|done|done|simpl; lia|].
  rewrite O in R. exists m, rs, m', l. by repeat (split; [done|]).
Qed.

(** Whatever the outcome of the allocations, [hashmap_set] on a map that
    satisfies the invariant either stores the item, replacing the one with its
    key, which it returns, or, when the table is full to its threshold and
    there is no memory for a larger one, returns NULL, sets [oom] and changes
    nothing else; [hashmap_delete] removes and returns the item even when
    there is no memory to shrink the table, and both clear [oom] otherwise and
    keep the invariant; [hashmap_get] finds exactly the item with the key. *)
Theorem hashmap_memory {I} (hash : I -> Z -> Z -> Z) compare `{!MatchLaws compare} (zero_item : I) m x ok1 ok2 :
  inv compare zero_item m -> can_grow m ->
  let q := keyed hash (seed0 m) (seed1 m) x in
  hashmap_get hash compare m x = Val (lookup_item compare q (contents m)) /\
  (if (count m =? growat m) && negb (ok1 && ok2)
   then hashmap_set hash compare zero_item m x ok1 ok2 =
     Val (None, with_table m true (count m) (buckets m))
   else exists m', hashmap_set hash compare zero_item m x ok1 ok2 =
       Val (lookup_item compare q (contents m), m') /\ inv compare zero_item m' /\
     oom m' = false /\ contents m' ≡ₚ insert_item compare q (contents m)) /\
  (exists m', hashmap_delete hash compare zero_item m x ok1 ok2 =
       Val (lookup_item compare q (contents m), m') /\ inv compare zero_item m' /\
     oom m' = false /\ contents m' ≡ₚ delete_item compare q (contents m)).
Proof.
  intros V G q. unfold hashmap_get, hashmap_set, hashmap_delete. split; [|split].
  - rewrite (get_ok compare zero_item) by done. unfold get_hash. by rewrite clip_clip.
  - pose proof (set_ok compare zero_item m x (get_hash hash m x) ok1 ok2 V G) as H.
    unfold get_hash in *. rewrite clip_clip in H. destruct ((count m =? growat m) && negb (ok1 && ok2)); [done|].
    destruct H as (m' & E & V' & O & _ & P). exists m'. by repeat (split; [done|]).
  - pose proof (delete_ok compare zero_item m x (get_hash hash m x) ok1 ok2 V) as H.
    unfold get_hash in *. rewrite clip_clip in H. destruct H as (m' & E & V' & O & _ & P).
    exists m'. by repeat (split; [done|]).
Qed.

(** ** Iteration *)

Section Iteration.
Context {I : Type} (compare : option (I -> I -> Z)) (zero_item : I).

Lemma items_drop (bs : list (bucket I)) i b :
  bs !! i = Some b -> items (drop i bs) = content b ++ items (drop (S i) bs).
Proof. intros Hb. by rewrite (drop_S _ b i Hb). Qed.

Lemma scan_ok (bs : list (bucket I)) f i :
  (i <= length bs)%nat ->
  scan_loop (length bs - i) bs (Z.of_nat i) f = Val (forallb f (snd <$> items (drop i bs))).
Proof.
  intros Hi. remember (length bs - i)%nat as n eqn:Hn. revert i Hi Hn.
  induction n as [|n IH]; intros i Hi Hn.
  - by rewrite drop_ge by lia.
  - destruct (lookup_lt_is_Some_2 bs i) as [b Hb]; [lia|]. cbn [scan_loop].
    unfold bucket_at. rewrite Nat2Z.id, Hb. cbn [rbind]. rewrite (items_drop bs i b Hb).
    replace (Z.of_nat i + 1) with (Z.of_nat (S i)) by lia. rewrite (IH (S i)) by lia.
    unfold content. destruct (b_dib b =? 0); [done|]. simpl. by destruct (f (b_item b)).
Qed.

(** The first answer of [f]. *)
Fixpoint first_some {A} (f : I -> option A) (l : list I) : option A :=
  match l with
  | [] => None
  | x :: l => match f x with Some a => Some a | None => first_some f l end
  end.

Lemma scan_item_ok {A} (bs : list (bucket I)) (f : I -> option A) i :
  (i <= length bs)%nat ->
  scan_item_loop (length bs - i) bs (Z.of_nat i) f = Val (first_some f (snd <$> items (drop i bs))).
Proof.
  intros Hi. remember (length bs - i)%nat as n eqn:Hn. revert i Hi Hn.
  induction n as [|n IH]; intros i Hi Hn.
  - by rewrite drop_ge by lia.
  - destruct (lookup_lt_is_Some_2 bs i) as [b Hb]; [lia|]. cbn [scan_item_loop].
    unfold bucket_at. rewrite Nat2Z.id, Hb. cbn [rbind]. rewrite (items_drop bs i b Hb).
    replace (Z.of_nat i + 1) with (Z.of_nat (S i)) by lia. rewrite (IH (S i)) by lia.
    unfold content. destruct (b_dib b =? 0); [done|]. simpl. by destruct (f (b_item b)).
Qed.

(** The items [hashmap_iter] gives from a cursor on, and how often it is called. *)
Fixpoint iterate (fuel : nat) (m : hashmap I) (i : Z) : result (list I) :=
  match fuel with
  | O => Spin
  | S fuel =>
      let! (r, i) := hashmap_iter m i in
      match r with
      | None => Val []
      | Some x => let! l := iterate fuel m i in Val (x :: l)
      end
  end.

Lemma iter_ok (m : hashmap I) fuel i :
  Z.of_nat (length (buckets m)) = nbuckets m -> nbuckets m < 4294967296 ->
  (i <= length (buckets m))%nat -> (length (buckets m) - i < fuel)%nat ->
  match items (drop i (buckets m)) with
  | [] => exists j, iter_loop fuel m (Z.of_nat i) = Val (None, j)
  | (_, x) :: l => exists j, (j <= length (buckets m))%nat /\ l = items (drop j (buckets m)) /\
      iter_loop fuel m (Z.of_nat i) = Val (Some x, Z.of_nat j)
  end.
Proof.
  intros Hn Hb. revert i. induction fuel as [|fuel IH]; intros i Hi Hf; [lia|]. cbn [iter_loop].
  destruct (Z.leb_spec (nbuckets m) (Z.of_nat i)) as [Hle|Hlt].
  { rewrite drop_ge by lia. by exists (Z.of_nat i). }
  destruct (lookup_lt_is_Some_2 (buckets m) i) as [b Hbi]; [lia|].
  unfold bucket_at. rewrite Nat2Z.id, Hbi. cbn [rbind]. rewrite (items_drop _ i b Hbi).
  rewrite u32_id by lia. replace (Z.of_nat i + 1) with (Z.of_nat (S i)) by lia.
  unfold content. destruct (b_dib b =? 0); simpl; [apply IH; lia|].
  exists (S i). split; [lia|done].
Qed.

Lemma iterate_ok (m : hashmap I) fuel i :
  Z.of_nat (length (buckets m)) = nbuckets m -> nbuckets m < 4294967296 ->
  (i <= length (buckets m))%nat -> (length (items (drop i (buckets m))) < fuel)%nat ->
  iterate fuel m (Z.of_nat i) = Val (snd <$> items (drop i (buckets m))).
Proof.
  intros Hn Hb. revert i. induction fuel as [|fuel IH]; intros i Hi Hf; [lia|]. cbn [iterate].
  unfold hashmap_iter. pose proof (iter_ok m (S (Z.to_nat (nbuckets m))) i Hn Hb Hi ltac:(lia)) as H.
  destruct (items (drop i (buckets m))) as [|[h x] l].
  - destruct H as (j & E). by rewrite E.
  - destruct H as (j & Hj & -> & E). rewrite E. cbn [rbind]. simpl in Hf. rewrite IH by lia. done.
Qed.
End Iteration.

(** On a map that satisfies the invariant, calling [hashmap_iter] from
    cursor 0 until it returns false gives every item exactly once, as many as
    [hashmap_count] says; [hashmap_scan] returns whether the callback accepts
    them all, [hashmap_scan_item] the first answer of its callback, and
    [hashmap_clear] hands each to the freeing function, if there is one, and
    leaves an empty map that satisfies the invariant, even when the smaller
    block cannot be allocated. *)
Theorem hashmap_iteration {I} compare (zero_item : I) {A} m f (g : I -> option A) uc ok :
  inv compare zero_item m ->
  let xs := snd <$> contents m in
  iterate (S (length xs)) m 0 = Val xs /\ hashmap_count m = Z.of_nat (length xs) /\
  hashmap_scan m f = Val (forallb f xs) /\
  hashmap_scan_item m g = Val (first_some g xs) /\
  (let (freed, m') := hashmap_clear zero_item m uc ok in
   freed = (if elfree m then xs else []) /\ inv compare zero_item m' /\ contents m' = []).
Proof.
  intros V xs. pose proof (inv_facts _ _ _ V) as (F & _).
  pose proof (robin_sized _ _ _ (inv_robin _ _ _ V)) as Hs. unfold sized in Hs.
  assert (Ed : items (drop 0 (buckets m)) = contents m) by by rewrite drop_0.
  split; [|split; [|split; [|split]]].
  - change 0 with (Z.of_nat 0). rewrite iterate_ok by (rewrite ?Ed; subst xs; rewrite ?length_fmap; lia).
    by rewrite Ed.
  - unfold hashmap_count, xs. rewrite length_fmap. apply V.
  - unfold hashmap_scan. replace (Z.to_nat (nbuckets m)) with (length (buckets m) - 0)%nat by lia.
    pose proof (scan_ok (buckets m) f 0 ltac:(lia)) as E. by rewrite Ed in E.
  - unfold hashmap_scan_item. replace (Z.to_nat (nbuckets m)) with (length (buckets m) - 0)%nat by lia.
    pose proof (scan_item_ok (buckets m) g 0 ltac:(lia)) as E. by rewrite Ed in E.
  - pose proof (clear_ok compare zero_item m uc ok V) as H.
    destruct (hashmap_clear zero_item m uc ok) as [freed m']. destruct H as (E & V' & C & _).
    by repeat (split; [done|]).
Qed.

(** [hashmap_new] rounds the capacity up to a power of two of at least 16
    and returns a map for every capacity up to 2^31 when there is memory, NULL
    when an allocation fails; for a larger capacity its loop never ends,
    whatever the number of rounds allowed. *)
Theorem hashmap_new_capacity {I} (zero_item : I) esize ncap s0 s1 efree ok1 ok2 :
  0 <= esize <= 4294967200 -> 0 <= ncap < 4294967296 ->
  (ncap <= 2 ^ 31 ->
   exists k r, 4 <= k <= 31 /\ ncap <= 2 ^ k /\ (k = 4 \/ 2 ^ (k - 1) < ncap) /\
     hashmap_new zero_item esize ncap s0 s1 efree ok1 ok2 = Val r /\
     (ok1 && ok2 = false -> r = None) /\
     (ok1 && ok2 = true -> exists m, r = Some m /\ nbuckets m = 2 ^ k /\ cap m = 2 ^ k /\
        count m = 0 /\ 8 + esize <= bucketsz m /\ bucketsz m mod 4 = 0)) /\
  (2 ^ 31 < ncap -> forall fuel, cap_loop fuel 16 ncap = Spin).
Proof.
  intros He Hn. split.
  - intros Hle. destruct (new_cap_ok ncap) as (k & Hk & E & Hle' & Hor); [lia|].
    destruct (align_ok esize He) as (bsz & Eb & Hb & Hm).
    unfold hashmap_new, hashmap_new_with_allocator. rewrite E. cbn [rbind]. rewrite Eb. cbn [rbind].
    destruct (ok1 && ok2) eqn:Eok.
    + apply andb_true_iff in Eok as [-> ->]. cbn [negb]. eexists k, _. split; [done|]. split; [done|].
      split; [done|]. split; [done|]. split; [done|]. intros _. eexists. split; [done|].
      cbn [nbuckets cap count bucketsz]. repeat (split; [done|]). split; [lia|done].
    + exists k, None. repeat (split; [done|]). split; [|done]. by destruct ok1, ok2.
  - intros Hgt fuel. assert (L : forall fuel a, 4 <= a <= 31 -> cap_loop fuel (2 ^ a) ncap = Spin).
    { clear fuel. induction fuel as [|fuel IH]; intros a Ha; [done|]. cbn [cap_loop].
      assert (2 ^ a <= 2 ^ 31) by (apply Z.pow_le_mono_r; lia).
      rewrite (proj2 (Z.ltb_lt (2 ^ a) ncap)) by lia. destruct (decide (a = 31)) as [->|].
      - change (u32 (2 ^ 31 * 2)) with 0. apply cap_loop_spin. lia.
      - replace (u32 (2 ^ a * 2)) with (2 ^ (a + 1)); [apply IH; lia|].
        assert (2 ^ a <= 2 ^ 30) by (apply Z.pow_le_mono_r; lia).
        rewrite Z.pow_add_r, u32_id by lia. lia. }
    apply (L fuel 4). lia.
Qed.

(** *** Instances and samples

    A map of numbers keyed by their value modulo 100, with a hash that
    collides often. *)
Definition sample_hash (x : Z) (s0 s1 : Z) : Z := x mod 100 mod 7 + s0.
Definition sample_compare (a b : Z) : Z := a mod 100 - b mod 100.

#[export] Instance sample_laws : MatchLaws (Some sample_compare).
Proof.
  split; unfold matches, sample_compare; intros *; rewrite ?Z.eqb_eq; lia.
Qed.

#[export] Instance hash_only_laws {I} : MatchLaws (@None (I -> I -> Z)).
Proof. by split. Qed.

Definition sample_ops : list (@op Z * bool * bool) :=
  (fun o => (o, true, true)) <$>
  (Set_ <$> seqZ 1 40) ++ [Get 105; Set_ 305; Get 5; Delete 7; Delete 207; Get 107] ++
  (Delete <$> seqZ 10 25) ++ [Get 40; Clear; Get 40; Set_ 3; Get 103].

Lemma hashmap_refines_witness :
  exists m rs m' l, hashmap_new 0 4 0 0 0 false true true = Val (Some m) /\
    exec_all (Some sample_compare) 0 sample_hash m sample_ops = Val (rs, m') /\
    ref_all (Some sample_compare) sample_hash 0 0 [] false sample_ops rs l (hashmap_oom m').
Proof.
  destruct (hashmap_refines sample_hash (Some sample_compare) 0 4 0 0 0 false sample_ops)
    as (m & rs & m' & l & E & E' & R & _).
  - lia.
  - lia.
  - vm_compute. congruence.
  - exists m, rs, m', l. split; [exact E|]. split; [exact E'|exact R].
Defined.

(** Nine items fill a map of 16 buckets to its threshold; without memory the
    tenth is refused. *)
Example refused_items :
  match hashmap_new 0 4 0 0 0 false true true with
  | Val (Some m) =>
      match exec_all (Some sample_compare) 0 sample_hash m
        (((fun x => (Set_ x, true, true)) <$> seqZ 1 9) ++
         [(Set_ 10, false, true); (Get 10, true, true); (Set_ 10, true, true); (Get 10, true, true)]) with
      | Val (rs, m') => drop 9 rs
      | _ => []
      end
  | _ => []
  end = [None; None; None; Some 10].
Proof. vm_compute. reflexivity. Qed.

(** A map of sixteen buckets with one item, in its home bucket. *)
Definition sample_map : hashmap Z :=
  mkMap 4 16 0 0 true 12 16 1 15 9 1 1 false
    (<[5%nat := mkBucket 5 1 5]> (replicate 16 (free_bucket 0))).

Lemma sample_inv : inv (Some sample_compare) 0 sample_map.
Proof.
  assert (D : forall j, dib 0 (buckets sample_map) j = if decide (j mod 16 = 5 mod 16) then 1 else 0).
  { intros j. change (buckets sample_map) with (upd (replicate 16 (free_bucket 0)) 5 (mkBucket 5 1 5)).
    rewrite (dib_upd 0 16) by (lia || done). case_decide; [done|].
    pose proof (slot_lookup 0 16 ltac:(lia) (replicate 16 (free_bucket 0)) j ltac:(done)) as Hl.
    apply lookup_replicate in Hl as [E _]. unfold dib. by rewrite E. }
  split; try (vm_compute; repeat split; congruence).
  - by exists 4.
  - by exists 4.
  - split; [done|intros j..]; rewrite ?D.
    + case_decide; lia.
    + repeat case_decide; lia.
    + change (nbuckets sample_map) with 16. case_decide as Hj; [|done]. intros _.
      change (1 - 1) with 0. rewrite Z.sub_0_r, Hj.
      rewrite (slot_eq 0 16 ltac:(lia) _ j 5) by done. done.
  - repeat constructor.
  - by left.
Qed.

Lemma hashmap_memory_witness :
  hashmap_get sample_hash (Some sample_compare) sample_map 205 = Val (Some 5) /\
  exists m', hashmap_delete sample_hash (Some sample_compare) 0 sample_map 105 false false = Val (Some 5, m') /\
    contents m' ≡ₚ [].
Proof.
  destruct (hashmap_memory sample_hash (Some sample_compare) 0 sample_map 205 true true) as [E _].
  - apply sample_inv.
  - intros H. vm_compute in H. congruence.
  - destruct (hashmap_memory sample_hash (Some sample_compare) 0 sample_map 105 false false) as (_ & _ & m' & E' & _ & _ & P).
    + apply sample_inv.
    + intros H. vm_compute in H. congruence.
    + split; [exact E|]. exists m'. split; [exact E'|exact P].
Defined.

Lemma hashmap_iteration_witness :
  iterate 2 sample_map 0 = Val [5] /\ hashmap_scan sample_map (fun x => x <? 9) = Val true.
Proof.
  destruct (hashmap_iteration (Some sample_compare) 0 sample_map (fun x => x <? 9) (fun x => Some x) true true) as (E & _ & S & _).
  - apply sample_inv.
  - split; [exact E|exact S].
Defined.

Lemma hashmap_new_capacity_witness :
  (exists k r, 4 <= k <= 31 /\ 100 <= 2 ^ k /\ hashmap_new 0 4 100 0 0 false true false = Val r /\ r = None) /\
  cap_loop 100 16 2147483649 = Spin.
Proof.
  split.
  - destruct (hashmap_new_capacity 0 4 100 0 0 false true false) as [H _]; [lia|lia|].
    destruct H as (k & r & Hk & Hle & _ & E & Hr & _); [lia|]. exists k, r.
    split; [exact Hk|]. split; [exact Hle|]. split; [exact E|]. by apply Hr.
  - apply (hashmap_new_capacity 0 4 2147483649 0 0 false true true); lia.
Defined.
