(* ===== verification/WMem.v ===== *)
(** * The block allocator behind [malloc] ([library/wmem/wmem_allocator_block.c],
      [wmem_core.c], [library/stdlib/malloc.c])

    The default allocator cuts blocks of 8 megabytes into chunks.  A chunk
    starts with a header of two words (the length of the chunk before it; the
    flags [last], [used], [jumbo] and its own length); a free chunk with room
    for it holds two links, of the stack of master chunks or of the circular
    recycler.  Every access of the allocator is to a whole 32-bit word, so its
    memory is a map from addresses to words; an access to an unmapped word
    fails. *)

From S2P Require Import Prelude.

(** ** The machine of the allocator *)

(** The services of exec.library the allocator gets its blocks from: they
    keep a state of their own and change what is mapped. *)
Class OsMem := {
  OsState : Type;
  AllocVec : Z -> OsState -> gmap Z Z -> Z * OsState * gmap Z Z;
  FreeVec : Z -> OsState -> gmap Z Z -> OsState * gmap Z Z;
}.

(** The words of memory, the state of the system and the fields of
    [wmem_block_allocator_t]. *)
Record heap `{OsMem} := mkHeap {
  words : gmap Z Z;
  os : OsState;
  block_list : Z;
  master_head : Z;
  recycler_head : Z;
}.

Section Allocator.
Context `{OsMem}.

Definition W (A : Type) : Type := heap -> option (A * heap).
Definition wret {A} (a : A) : W A := fun h => Some (a, h).
Definition wbind {A B} (c : W A) (k : A -> W B) : W B := fun h =>
  match c h with Some (a, h') => k a h' | None => None end.

#[local] Notation "'let*' x ':=' c 'in' k" := (wbind c (fun x => k))
  (at level 10, x pattern, c at level 100, k at level 200,
   format "'[v' 'let*'  x  ':='  c  'in' '/' k ']'").
#[local] Notation "c1 ;; c2" := (wbind c1 (fun _ => c2))
  (at level 100, right associativity).

Definition rd (k : Z) : W Z := fun h =>
  match words h !! k with Some v => Some (v, h) | None => None end.
Definition wr (k v : Z) : W unit := fun h =>
  match words h !! k with
  | Some _ => Some (tt, mkHeap _ (<[k := v]> (words h)) (os h) (block_list h) (master_head h) (recycler_head h))
  | None => None
  end.

Definition get_block_list : W Z := fun h => Some (block_list h, h).
Definition get_master : W Z := fun h => Some (master_head h, h).
Definition get_recycler : W Z := fun h => Some (recycler_head h, h).
Definition set_block_list (v : Z) : W unit := fun h =>
  Some (tt, mkHeap _ (words h) (os h) v (master_head h) (recycler_head h)).
Definition set_master (v : Z) : W unit := fun h =>
  Some (tt, mkHeap _ (words h) (os h) (block_list h) v (recycler_head h)).
Definition set_recycler (v : Z) : W unit := fun h =>
  Some (tt, mkHeap _ (words h) (os h) (block_list h) (master_head h) v).

Definition NULL : Z := 0.

(** ** The code *)

Definition WMEM_ALIGN_SIZE (size : Z) : Z := Z.land 0xFFFFFFF8 (u32 (size + 7)).
Definition WMEM_BLOCK_SIZE : Z := 8388608.

(** The second word of a chunk header. *)
Record flags := mkFlags { last : bool; used : bool; jumbo : bool; len : Z }.
Definition pack (f : flags) : Z :=
  Z.b2z (last f) * 2 ^ 31 + Z.b2z (used f) * 2 ^ 30 + Z.b2z (jumbo f) * 2 ^ 29 + len f.
Definition unpack (w : Z) : flags :=
  mkFlags (Z.testbit w 31) (Z.testbit w 30) (Z.testbit w 29) (w mod 2 ^ 29).

Definition WMEM_CHUNK_HEADER_SIZE : Z := WMEM_ALIGN_SIZE 8.
Definition WMEM_BLOCK_HEADER_SIZE : Z := WMEM_ALIGN_SIZE 8.
Definition WMEM_BLOCK_MAX_ALLOC_SIZE : Z :=
  WMEM_BLOCK_SIZE - (WMEM_BLOCK_HEADER_SIZE + WMEM_CHUNK_HEADER_SIZE).
Definition SIZEOF_FREE : Z := 8.

(** The fields of a chunk: [prev] is the first word, the others are bit
    fields of the second. *)
Definition chunk_flags (c : Z) : W flags := let* w := rd (c + 4) in wret (unpack w).
Definition chunk_prev (c : Z) : W Z := rd c.
Definition set_prev (c v : Z) : W unit := wr c v.
Definition set_flags (c : Z) (g : flags -> flags) : W unit :=
  let* w := rd (c + 4) in wr (c + 4) (pack (g (unpack w))).
Definition set_len (c v : Z) : W unit :=
  set_flags c (fun f => mkFlags (last f) (used f) (jumbo f) (v mod 2 ^ 29)).
Definition set_last (c : Z) (v : bool) : W unit :=
  set_flags c (fun f => mkFlags v (used f) (jumbo f) (len f)).
Definition set_used (c : Z) (v : bool) : W unit :=
  set_flags c (fun f => mkFlags (last f) v (jumbo f) (len f)).
Definition set_jumbo (c : Z) (v : bool) : W unit :=
  set_flags c (fun f => mkFlags (last f) (used f) v (len f)).

Definition chunk_len (c : Z) : W Z := let* f := chunk_flags c in wret (len f).
Definition chunk_last (c : Z) : W bool := let* f := chunk_flags c in wret (last f).
Definition chunk_used (c : Z) : W bool := let* f := chunk_flags c in wret (used f).
Definition chunk_jumbo (c : Z) : W bool := let* f := chunk_flags c in wret (jumbo f).

Definition WMEM_CHUNK_PREV (c : Z) : W Z :=
  let* p := chunk_prev c in wret (if p =? 0 then NULL else u32 (c - p)).
Definition WMEM_CHUNK_NEXT (c : Z) : W Z :=
  let* f := chunk_flags c in wret (if last f then NULL else u32 (c + len f)).
Definition WMEM_CHUNK_TO_DATA (c : Z) : Z := u32 (c + WMEM_CHUNK_HEADER_SIZE).
Definition WMEM_DATA_TO_CHUNK (p : Z) : Z := u32 (p - WMEM_CHUNK_HEADER_SIZE).
Definition WMEM_CHUNK_DATA_LEN (c : Z) : W Z :=
  let* n := chunk_len c in wret (u32 (n - WMEM_CHUNK_HEADER_SIZE)).
Definition WMEM_BLOCK_TO_CHUNK (b : Z) : Z := u32 (b + WMEM_BLOCK_HEADER_SIZE).
Definition WMEM_CHUNK_TO_BLOCK (c : Z) : Z := u32 (c - WMEM_BLOCK_HEADER_SIZE).

(** The links of a free chunk ([WMEM_GET_FREE]). *)
Definition free_prev (c : Z) : W Z := rd (WMEM_CHUNK_TO_DATA c).
Definition free_next (c : Z) : W Z := rd (u32 (WMEM_CHUNK_TO_DATA c + 4)).
Definition set_free_prev (c v : Z) : W unit := wr (WMEM_CHUNK_TO_DATA c) v.
Definition set_free_next (c v : Z) : W unit := wr (u32 (WMEM_CHUNK_TO_DATA c + 4)) v.

(** *** Master and recycler *)

Definition wmem_block_cycle_recycler : W unit :=
  let* chunk := get_recycler in
  if chunk =? NULL then wret tt
  else
    let* next := free_next chunk in
    let* nlen := chunk_len next in
    let* clen := chunk_len chunk in
    if nlen <? clen then
      let* next := free_next chunk in
      let* prev := free_prev chunk in
      set_free_prev next prev ;;
      let* prev := free_prev chunk in
      let* next := free_next chunk in
      set_free_next prev next ;;
      let* next := free_next chunk in
      set_free_prev chunk next ;;
      let* next := free_next chunk in
      let* nn := free_next next in
      set_free_next chunk nn ;;
      let* next := free_next chunk in
      set_free_prev next chunk ;;
      let* prev := free_prev chunk in
      set_free_next prev chunk
    else
      let* next := free_next chunk in
      set_recycler next.

Definition wmem_block_add_to_recycler (chunk : Z) : W unit :=
  let* n := WMEM_CHUNK_DATA_LEN chunk in
  if n <? SIZEOF_FREE then wret tt
  else
    let* head := get_recycler in
    if head =? NULL then
      set_free_next chunk chunk ;;
      set_free_prev chunk chunk ;;
      set_recycler chunk
    else
      let* head := get_recycler in
      set_free_next chunk head ;;
      let* prev := free_prev head in
      set_free_prev chunk prev ;;
      let* next := free_next chunk in
      set_free_prev next chunk ;;
      let* prev := free_prev chunk in
      set_free_next prev chunk ;;
      let* n := chunk_len chunk in
      let* head := get_recycler in
      let* hlen := chunk_len head in
      if hlen <? n then set_recycler chunk else wret tt.

Definition wmem_block_remove_from_recycler (chunk : Z) : W unit :=
  let* prev := free_prev chunk in
  let* next := free_next chunk in
  if (prev =? chunk) && (next =? chunk) then set_recycler NULL
  else
    let* prev := free_prev chunk in
    let* next := free_next chunk in
    set_free_next prev next ;;
    let* next := free_next chunk in
    let* prev := free_prev chunk in
    set_free_prev next prev ;;
    let* head := get_recycler in
    if head =? chunk then let* next := free_next chunk in set_recycler next else wret tt.

Definition wmem_block_push_master (chunk : Z) : W unit :=
  set_free_prev chunk NULL ;;
  let* head := get_master in
  set_free_next chunk head ;;
  let* next := free_next chunk in
  (if negb (next =? NULL) then set_free_prev next chunk else wret tt) ;;
  set_master chunk.

Definition wmem_block_pop_master : W unit :=
  let* chunk := get_master in
  let* next := free_next chunk in
  set_master next ;;
  let* next := free_next chunk in
  if negb (next =? NULL) then set_free_prev next NULL else wret tt.

(** *** Chunks *)

Definition wmem_block_merge_free (chunk : Z) : W unit :=
  let* tmp := WMEM_CHUNK_NEXT chunk in
  let* right_free :=
    if tmp =? NULL then wret NULL
    else
      let* u := chunk_used tmp in
      if u then wret NULL
      else
        let* d := WMEM_CHUNK_DATA_LEN tmp in
        let right_free := if SIZEOF_FREE <=? d then tmp else NULL in
        let* cl := chunk_len chunk in
        let* tl := chunk_len tmp in
        set_len chunk (cl + tl) ;;
        let* l := chunk_last tmp in
        set_last chunk l ;;
        wret right_free in
  let* tmp := WMEM_CHUNK_PREV chunk in
  let* (left_free, chunk) :=
    if tmp =? NULL then wret (NULL, chunk)
    else
      let* u := chunk_used tmp in
      if u then wret (NULL, chunk)
      else
        let* d := WMEM_CHUNK_DATA_LEN tmp in
        let left_free := if SIZEOF_FREE <=? d then tmp else NULL in
        let* tl := chunk_len tmp in
        let* cl := chunk_len chunk in
        set_len tmp (tl + cl) ;;
        let* l := chunk_last chunk in
        set_last tmp l ;;
        wret (left_free, tmp) in
  let* l := chunk_last chunk in
  (if negb l then
     let* next := WMEM_CHUNK_NEXT chunk in
     let* n := chunk_len chunk in
     set_prev next n
   else wret tt) ;;
  let* master := get_master in
  if negb (right_free =? NULL) && (right_free =? master) then
    (if negb (left_free =? NULL) then wmem_block_remove_from_recycler left_free else wret tt) ;;
    set_free_prev chunk NULL ;;
    let* next := free_next right_free in
    set_free_next chunk next ;;
    set_master chunk ;;
    let* next := free_next chunk in
    if negb (next =? NULL) then set_free_prev next chunk else wret tt
  else
    (if negb (right_free =? NULL) then wmem_block_remove_from_recycler right_free else wret tt) ;;
    if left_free =? NULL then wmem_block_add_to_recycler chunk else wret tt.

Definition wmem_block_split_free_chunk (chunk size : Z) : W unit :=
  let aligned_size := u32 (WMEM_ALIGN_SIZE size + WMEM_CHUNK_HEADER_SIZE) in
  let* d := WMEM_CHUNK_DATA_LEN chunk in
  if d <? u32 (aligned_size + SIZEOF_FREE) then
    let* master := get_master in
    if chunk =? master then wmem_block_pop_master
    else
      let* d := WMEM_CHUNK_DATA_LEN chunk in
      if SIZEOF_FREE <=? d then wmem_block_remove_from_recycler chunk else wret tt
  else
    let* last := chunk_last chunk in
    let* n := chunk_len chunk in
    let available := u32 (n - aligned_size) in
    set_len chunk aligned_size ;;
    set_last chunk false ;;
    let* extra := WMEM_CHUNK_NEXT chunk in
    let* master := get_master in
    (if master =? chunk then
       let* p := free_prev chunk in
       set_free_prev extra p ;;
       let* n := free_next chunk in
       set_free_next extra n ;;
       let* next := free_next chunk in
       (if negb (next =? NULL) then set_free_prev next extra else wret tt) ;;
       set_master extra
     else
       let* p := free_prev chunk in
       (if p =? chunk then
          set_free_prev extra extra ;;
          set_free_next extra extra
        else
          let* p := free_prev chunk in
          set_free_prev extra p ;;
          let* n := free_next chunk in
          set_free_next extra n ;;
          let* p := free_prev chunk in
          set_free_next p extra ;;
          let* n := free_next chunk in
          set_free_prev n extra) ;;
       let* r := get_recycler in
       if r =? chunk then set_recycler extra else wret tt) ;;
    set_len extra available ;;
    set_last extra last ;;
    let* n := chunk_len chunk in
    set_prev extra n ;;
    set_used extra false ;;
    set_jumbo extra false ;;
    if negb last then
      let* next := WMEM_CHUNK_NEXT extra in
      let* n := chunk_len extra in
      set_prev next n
    else wret tt.

Definition wmem_block_split_used_chunk (chunk size : Z) : W unit :=
  let aligned_size := u32 (WMEM_ALIGN_SIZE size + WMEM_CHUNK_HEADER_SIZE) in
  let* d := WMEM_CHUNK_DATA_LEN chunk in
  if d <? aligned_size then wret tt
  else
    let* last := chunk_last chunk in
    let* n := chunk_len chunk in
    let available := u32 (n - aligned_size) in
    set_len chunk aligned_size ;;
    set_last chunk false ;;
    let* extra := WMEM_CHUNK_NEXT chunk in
    set_len extra available ;;
    set_last extra last ;;
    let* n := chunk_len chunk in
    set_prev extra n ;;
    set_used extra false ;;
    set_jumbo extra false ;;
    (if negb last then
       let* next := WMEM_CHUNK_NEXT extra in
       let* n := chunk_len extra in
       set_prev next n
     else wret tt) ;;
    wmem_block_merge_free extra.

(** *** Blocks *)

Definition os_alloc (size : Z) : W Z := fun h =>
  let '(p, o, m) := AllocVec size (os h) (words h) in
  Some (p, mkHeap _ m o (block_list h) (master_head h) (recycler_head h)).
Definition os_free (p : Z) : W unit := fun h =>
  let '(o, m) := FreeVec p (os h) (words h) in
  Some (tt, mkHeap _ m o (block_list h) (master_head h) (recycler_head h)).

(** The links of a block are its first two words. *)
Definition wmem_block_add_to_block_list (block : Z) : W unit :=
  wr block NULL ;;
  let* l := get_block_list in
  wr (block + 4) l ;;
  let* next := rd (block + 4) in
  (if negb (next =? NULL) then wr next block else wret tt) ;;
  set_block_list block.

Definition wmem_block_remove_from_block_list (block : Z) : W unit :=
  let* prev := rd block in
  (if negb (prev =? NULL) then
     let* prev := rd block in
     let* next := rd (block + 4) in
     wr (prev + 4) next
   else
     let* next := rd (block + 4) in
     set_block_list next) ;;
  let* next := rd (block + 4) in
  if negb (next =? NULL) then
    let* next := rd (block + 4) in
    let* prev := rd block in
    wr next prev
  else wret tt.

Definition wmem_block_init_block (block : Z) : W unit :=
  let chunk := WMEM_BLOCK_TO_CHUNK block in
  set_used chunk false ;;
  set_jumbo chunk false ;;
  set_last chunk true ;;
  set_prev chunk 0 ;;
  set_len chunk (WMEM_BLOCK_SIZE - WMEM_BLOCK_HEADER_SIZE) ;;
  wmem_block_push_master chunk.

Definition wmem_block_new_block : W unit :=
  let* block := os_alloc WMEM_BLOCK_SIZE in
  wmem_block_add_to_block_list block ;;
  wmem_block_init_block block.

(** *** Jumbo allocations *)

Definition wmem_block_alloc_jumbo (size : Z) : W Z :=
  let* block := os_alloc (u32 (size + WMEM_BLOCK_HEADER_SIZE + WMEM_CHUNK_HEADER_SIZE)) in
  wmem_block_add_to_block_list block ;;
  let chunk := WMEM_BLOCK_TO_CHUNK block in
  set_last chunk true ;;
  set_used chunk true ;;
  set_jumbo chunk true ;;
  set_len chunk 0 ;;
  set_prev chunk 0 ;;
  wret (WMEM_CHUNK_TO_DATA chunk).

Definition wmem_block_free_jumbo (chunk : Z) : W unit :=
  let block := WMEM_CHUNK_TO_BLOCK chunk in
  wmem_block_remove_from_block_list block ;;
  os_free block.

(** [wmem_realloc(NULL, ptr, size)] frees the old block and allocates
    another; it copies nothing. *)
Definition wmem_block_realloc_jumbo (chunk size : Z) : W Z :=
  let block := WMEM_CHUNK_TO_BLOCK chunk in
  os_free block ;;
  let* block := os_alloc (u32 (size + WMEM_BLOCK_HEADER_SIZE + WMEM_CHUNK_HEADER_SIZE)) in
  let* next := rd (block + 4) in
  (if negb (next =? NULL) then wr next block else wret tt) ;;
  let* prev := rd block in
  (if negb (prev =? NULL) then wr (prev + 4) block else set_block_list block) ;;
  wret (WMEM_CHUNK_TO_DATA (WMEM_BLOCK_TO_CHUNK block)).

(** *** The interface of the allocator *)

Definition wmem_block_alloc (size : Z) : W Z :=
  if WMEM_BLOCK_MAX_ALLOC_SIZE <? size then wmem_block_alloc_jumbo size
  else
    let* r := get_recycler in
    let* fits := if r =? NULL then wret false
                 else let* d := WMEM_CHUNK_DATA_LEN r in wret (size <=? d) in
    let* chunk :=
      if fits then get_recycler
      else
        let* m := get_master in
        let* short := if m =? NULL then wret false
                      else let* d := WMEM_CHUNK_DATA_LEN m in wret (d <? size) in
        (if short then
           let* chunk := get_master in
           wmem_block_pop_master ;;
           wmem_block_add_to_recycler chunk
         else wret tt) ;;
        let* m := get_master in
        (if m =? NULL then wmem_block_new_block else wret tt) ;;
        get_master in
    wmem_block_split_free_chunk chunk size ;;
    wmem_block_cycle_recycler ;;
    set_used chunk true ;;
    wret (WMEM_CHUNK_TO_DATA chunk).

Definition wmem_block_free (ptr : Z) : W unit :=
  let chunk := WMEM_DATA_TO_CHUNK ptr in
  let* j := chunk_jumbo chunk in
  if j then wmem_block_free_jumbo chunk
  else
    set_used chunk false ;;
    wmem_block_merge_free chunk ;;
    wmem_block_cycle_recycler.

(** [memcpy] of [n] bytes, a multiple of a word. *)
Fixpoint copy_words (n : nat) (dst src : Z) : W unit :=
  match n with
  | O => wret tt
  | S n => let* v := rd src in wr dst v ;; copy_words n (dst + 4) (src + 4)
  end.

Definition wmem_block_realloc (ptr size : Z) : W Z :=
  let chunk := WMEM_DATA_TO_CHUNK ptr in
  let* j := chunk_jumbo chunk in
  if j then wmem_block_realloc_jumbo chunk size
  else
    let* d := WMEM_CHUNK_DATA_LEN chunk in
    if d <? size then
      let* tmp := WMEM_CHUNK_NEXT chunk in
      let* grow :=
        if tmp =? NULL then wret false
        else
          let* u := chunk_used tmp in
          if u then wret false
          else let* n := chunk_len tmp in wret (size <? u32 (d + n)) in
      if grow then
        let split_size := u32 (size - d) in
        let split_size := if split_size <? WMEM_CHUNK_HEADER_SIZE then 0
                          else split_size - WMEM_CHUNK_HEADER_SIZE in
        wmem_block_split_free_chunk tmp split_size ;;
        let* cl := chunk_len chunk in
        let* tl := chunk_len tmp in
        set_len chunk (cl + tl) ;;
        let* l := chunk_last tmp in
        set_last chunk l ;;
        let* tmp := WMEM_CHUNK_NEXT chunk in
        (if negb (tmp =? NULL) then let* n := chunk_len chunk in set_prev tmp n else wret tt) ;;
        wmem_block_cycle_recycler ;;
        wret ptr
      else
        let* newptr := wmem_block_alloc size in
        let* d := WMEM_CHUNK_DATA_LEN chunk in
        copy_words (Z.to_nat (d / 4)) newptr ptr ;;
        wmem_block_free ptr ;;
        wret newptr
    else if size <? d then
      wmem_block_split_used_chunk chunk size ;;
      wmem_block_cycle_recycler ;;
      wret ptr
    else wret ptr.

(** [wmem_alloc], [wmem_free] and [wmem_realloc] with the block allocator. *)
Definition wmem_alloc (size : Z) : W Z :=
  if size =? 0 then wret NULL else wmem_block_alloc size.
Definition wmem_free (ptr : Z) : W unit :=
  if ptr =? NULL then wret tt else wmem_block_free ptr.
Definition wmem_realloc (ptr size : Z) : W Z :=
  if ptr =? NULL then wmem_alloc size
  else if size =? 0 then wmem_free ptr ;; wret NULL
  else wmem_block_realloc ptr size.
End Allocator.
