(* ===== verification/WMemLogic.v ===== *)
(** * A program logic for the block allocator

    The proofs about [WMem] follow the memory through a typed view of it: the
    chunk headers [C], the previous and next links [P] and [N] of the free
    chunks, and a set [D] of words that must not change.  [wp] runs a piece of
    the allocator on this view; a second layer, [wpl], replaces the links by
    the lists they form, the stack [M] of master chunks and the ring [R] of
    recycled ones. *)

From S2P Require Import Prelude WMem.

(** ** Headers *)

Lemma header_sizes :
  WMEM_CHUNK_HEADER_SIZE = 8 /\ WMEM_BLOCK_HEADER_SIZE = 8 /\ WMEM_BLOCK_MAX_ALLOC_SIZE = 8388592.
Proof. by vm_compute. Qed.

Lemma testbit_top w n : 0 <= n -> Z.testbit w n = (w / 2 ^ n mod 2 =? 1).
Proof. intros. by rewrite Z.testbit_eqb. Qed.

Lemma unpack_pack f : 0 <= len f < 2 ^ 29 -> unpack (pack f) = f.
Proof.
  destruct f as [l u j n]. cbn [len]. intros Hn. unfold unpack, pack. cbn [last used jumbo len].
  rewrite !testbit_top by lia. change (2 ^ 31) with 2147483648. change (2 ^ 30) with 1073741824.
  change (2 ^ 29) with 536870912 in *.
  f_equal; [..|destruct l, u, j; cbn [Z.b2z]; Z.to_euclidean_division_equations; lia];
    destruct l, u, j; cbn [Z.b2z];
    first [apply Z.eqb_eq; Z.to_euclidean_division_equations; lia
          |apply Z.eqb_neq; Z.to_euclidean_division_equations; lia].
Qed.

Lemma unpack_len w : 0 <= len (unpack w) < 2 ^ 29.
Proof. simpl. apply Z.mod_pos_bound. lia. Qed.

(** The header of a chunk, with the block it lies in. *)
Record hdr := mkHdr { k_prev : Z; k_flags : flags; k_blk : Z }.
Definition k_len (k : hdr) : Z := len (k_flags k).
Definition k_last (k : hdr) : bool := last (k_flags k).
Definition k_used (k : hdr) : bool := used (k_flags k).

Definition put_prev (k : hdr) (v : Z) : hdr := mkHdr v (k_flags k) (k_blk k).
Definition put_flags (k : hdr) (f : flags) : hdr := mkHdr (k_prev k) f (k_blk k).
Definition put_len (k : hdr) (v : Z) : hdr :=
  put_flags k (mkFlags (k_last k) (k_used k) (jumbo (k_flags k)) v).
Definition put_last (k : hdr) (v : bool) : hdr :=
  put_flags k (mkFlags v (k_used k) (jumbo (k_flags k)) (k_len k)).
Definition put_used (k : hdr) (v : bool) : hdr :=
  put_flags k (mkFlags (k_last k) v (jumbo (k_flags k)) (k_len k)).
Definition put_jumbo (k : hdr) (v : bool) : hdr :=
  put_flags k (mkFlags (k_last k) (k_used k) v (k_len k)).

(** ** The typed view of the memory *)

Record view := mkView {
  vC : gmap Z hdr; vP : gmap Z Z; vN : gmap Z Z; v_master : Z; v_recycler : Z }.

(** ** Linked lists *)

(** Following [f] from each element of [l] but the last gives the next one. *)
Fixpoint linked (f : Z -> option Z) (l : list Z) : Prop :=
  match l with
  | x :: ((y :: _) as l') => f x = Some y /\ linked f l'
  | _ => True
  end.
(** Following [f] from each element but the first gives the one before. *)
Fixpoint back (f : Z -> option Z) (l : list Z) : Prop :=
  match l with
  | x :: ((y :: _) as l') => f y = Some x /\ back f l'
  | _ => True
  end.

Lemma linked_app f l1 x l2 : linked f (l1 ++ x :: l2) <-> linked f (l1 ++ [x]) /\ linked f (x :: l2).
Proof.
  induction l1 as [|a l1 IH]; [simpl; tauto|].
  destruct l1 as [|b l1]; [simpl; tauto|].
  change ((a :: b :: l1) ++ x :: l2) with (a :: b :: (l1 ++ x :: l2)).
  change ((a :: b :: l1) ++ [x]) with (a :: b :: (l1 ++ [x])).
  cbn [linked]. simpl app in IH. rewrite IH. tauto.
Qed.
Lemma back_app f l1 x l2 : back f (l1 ++ x :: l2) <-> back f (l1 ++ [x]) /\ back f (x :: l2).
Proof.
  induction l1 as [|a l1 IH]; [simpl; tauto|].
  destruct l1 as [|b l1]; [simpl; tauto|].
  change ((a :: b :: l1) ++ x :: l2) with (a :: b :: (l1 ++ x :: l2)).
  change ((a :: b :: l1) ++ [x]) with (a :: b :: (l1 ++ [x])).
  cbn [back]. simpl app in IH. rewrite IH. tauto.
Qed.

Lemma linked_ext f g l z :
  linked f (l ++ [z]) -> (forall x, x ∈ l -> g x = f x) -> linked g (l ++ [z]).
Proof.
  induction l as [|a l IH]; [done|]. intros Hl Hg.
  destruct l as [|b l]; simpl in *.
  - split; [|done]. rewrite Hg by set_solver. tauto.
  - split; [rewrite Hg by set_solver; tauto|]. apply IH; [tauto|]. intros. apply Hg. set_solver.
Qed.
Lemma back_ext f g x l :
  back f (x :: l) -> (forall y, y ∈ l -> g y = f y) -> back g (x :: l).
Proof.
  revert x. induction l as [|b l IH]; intros x; [done|]. intros [H1 H2] Hg.
  split; [rewrite Hg by set_solver; done|]. apply IH; [done|]. intros. apply Hg. set_solver.
Qed.

Lemma linked_insert (N : gmap Z Z) l z k v :
  linked (fun x => N !! x) (l ++ [z]) -> k ∉ l -> linked (fun x => <[k := v]> N !! x) (l ++ [z]).
Proof. intros Hl Hk. eapply linked_ext; [done|]. intros x Hx. apply lookup_insert_ne. set_solver. Qed.
Lemma back_insert (P : gmap Z Z) x l k v :
  back (fun x => P !! x) (x :: l) -> k ∉ l -> back (fun x => <[k := v]> P !! x) (x :: l).
Proof. intros Hl Hk. eapply back_ext; [done|]. intros y Hy. apply lookup_insert_ne. set_solver. Qed.

(** The stack of master chunks ends in null both ways; the recycler closes
    on itself. *)
Definition stack (N P : gmap Z Z) (M : list Z) : Prop :=
  linked (fun x => N !! x) (M ++ [0]) /\ back (fun x => P !! x) (0 :: M).
Definition ring (N P : gmap Z Z) (R : list Z) : Prop :=
  match R with
  | [] => True
  | r :: _ => linked (fun x => N !! x) (R ++ [r]) /\ back (fun x => P !! x) (R ++ [r])
  end.

Lemma ring_turn N P x l : ring N P (x :: l) -> ring N P (l ++ [x]).
Proof.
  destruct l as [|y l]; [done|]. intros [[H1 H2] [H3 H4]].
  cbn [app ring]. rewrite <- app_assoc.
  change (y :: l ++ [x] ++ [y]) with ((y :: l) ++ x :: [y]). rewrite linked_app, back_app.
  repeat split; done.
Qed.
Lemma ring_rotate N P l1 l2 : ring N P (l1 ++ l2) -> ring N P (l2 ++ l1).
Proof.
  revert l2. induction l1 as [|x l1 IH]; intros l2; [by rewrite app_nil_r|].
  simpl. intros Hr. apply ring_turn in Hr. rewrite <- app_assoc in Hr. apply IH in Hr.
  by rewrite <- app_assoc in Hr.
Qed.

Lemma snoc_cases {A} (x : A) l : exists l' z, x :: l = l' ++ [z].
Proof. destruct (exists_last (l := x :: l)) as (l' & z & E); [done|]. eauto. Qed.

Lemma ring_ends N P r R : ring N P (r :: R) ->
  exists l z, r :: R = l ++ [z] /\ P !! r = Some z /\ N !! z = Some r /\ N !! r = Some (hd r R).
Proof.
  intros Hr. destruct (snoc_cases r R) as (l & z & E). exists l, z. split; [done|].
  unfold ring in Hr. destruct Hr as [H1 H2].
  assert (H3 : N !! r = Some (hd r R)) by (destruct R; apply H1).
  rewrite E, <- app_assoc in H1, H2. change ([z] ++ [r]) with [z; r] in *.
  apply linked_app in H1 as [_ [H1 _]]. apply back_app in H2 as [_ [H2 _]]. done.
Qed.

(** The ring is unchanged by writes elsewhere. *)
Lemma ring_frame N P N' P' R :
  ring N P R -> (forall x, x ∈ R -> N' !! x = N !! x /\ P' !! x = P !! x) -> ring N' P' R.
Proof.
  destruct R as [|r R]; [done|]. intros [H1 H2] Hx. split.
  - eapply linked_ext; [done|]. intros x Hi. by apply Hx.
  - eapply back_ext; [done|]. intros x Hi. apply Hx. set_solver.
Qed.
Lemma stack_frame N P N' P' M :
  stack N P M -> (forall x, x ∈ M -> N' !! x = N !! x /\ P' !! x = P !! x) -> stack N' P' M.
Proof.
  intros [H1 H2] Hx. split.
  - eapply linked_ext; [done|]. intros x Hi. by apply Hx.
  - eapply back_ext; [done|]. intros x Hi. by apply Hx.
Qed.

Ltac lk := repeat first [rewrite lookup_insert_eq | rewrite lookup_insert_ne by (congruence || set_solver)].

(** A ring as its elements in order and the two links that close it. *)
Lemma ring_open N P r R l z : r :: R = l ++ [z] ->
  ring N P (r :: R) <->
  linked (fun i => N !! i) (l ++ [z]) /\ back (fun i => P !! i) (r :: R) /\
  N !! z = Some r /\ P !! r = Some z.
Proof.
  intros E. unfold ring. rewrite E, <- app_assoc. change ([z] ++ [r]) with (z :: [r]).
  rewrite linked_app, back_app. cbn [linked back]. tauto.
Qed.

Lemma ring_last_in N P c l1 y l2 z :
  ring N P (c :: l1 ++ y :: l2) -> P !! c = Some z -> z ∈ y :: l2.
Proof.
  intros Hr Hz. destruct (snoc_cases y l2) as (l & z' & E). rewrite E in *.
  apply (ring_open _ _ c (l1 ++ l ++ [z']) (c :: l1 ++ l) z') in Hr; [|simpl; by rewrite <- app_assoc].
  destruct Hr as (_ & _ & _ & Hr). set_solver.
Qed.

(** A new element before the head. *)
Lemma ring_insert N P r R x z : NoDup (r :: R) -> x ∉ r :: R ->
  ring N P (r :: R) -> P !! r = Some z ->
  ring (<[z := x]> (<[x := r]> N)) (<[r := x]> (<[x := z]> P)) (r :: R ++ [x]).
Proof.
  intros Hnd Hx Hr Hz. destruct (snoc_cases r R) as (l & z' & E).
  apply (ring_open _ _ _ _ _ _ E) in Hr as (H1 & H2 & H3 & H4).
  assert (z' = z) as -> by congruence.
  pose proof Hnd as Hnd'. rewrite E in Hnd'. apply NoDup_app in Hnd' as (_ & Hzl & _).
  assert (A2 : r <> x) by set_solver.
  assert (A1 : z <> x /\ x ∉ l) by (rewrite E in Hx; set_solver). destruct A1 as [A1 A3]. apply NoDup_cons in Hnd as [Hrn _].
  apply (ring_open _ _ r (R ++ [x]) (r :: R) x eq_refl).
  repeat split; [..|by lk|by lk].
  - rewrite E, <- app_assoc. apply linked_app. split; [|cbn; by lk].
    apply linked_insert; [by apply linked_insert|]. set_solver.
  - change (r :: R ++ [x]) with ((r :: R) ++ [x]). rewrite E, <- app_assoc. apply back_app.
    split; [|cbn; by lk]. rewrite <- E. apply back_insert; [|done]. apply back_insert; [done|set_solver].
Qed.

(** The head taken out. *)
Lemma ring_remove N P x y R z : NoDup (x :: y :: R) ->
  ring N P (x :: y :: R) -> P !! x = Some z ->
  ring (<[z := y]> N) (<[y := z]> P) (y :: R).
Proof.
  intros Hnd Hr Hz. destruct (snoc_cases y R) as (l & z' & E).
  assert (E2 : x :: y :: R = (x :: l) ++ [z']) by (by rewrite E).
  apply (ring_open _ _ _ _ _ _ E2) in Hr as (H1 & H2 & H3 & H4).
  assert (z' = z) as -> by congruence.
  rewrite !NoDup_cons in Hnd. destruct Hnd as (_ & Hy & Hnd).
  apply (ring_open _ _ _ _ _ _ E). 
  assert (Hzl : z ∉ l).
  { assert (Hnd2 : NoDup (l ++ [z])) by (rewrite <- E; by apply NoDup_cons).
    apply NoDup_app in Hnd2. set_solver. }
  repeat split; [..|by lk|by lk].
  - apply linked_insert; [|done]. destruct l; [done|apply H1].
  - apply back_insert; [|done]. apply H2.
Qed.

(** [ring] on maps that agree pointwise. *)
Ltac ring_maps H :=
  eapply ring_frame; [exact H|];
  intros ? _; rewrite !lookup_insert; repeat case_decide; subst; split; congruence.

(** The head replaced. *)
Lemma ring_replace N P x y R z e : NoDup (x :: y :: R) -> e ∉ x :: y :: R ->
  ring N P (x :: y :: R) -> P !! x = Some z ->
  ring (<[z := e]> (<[e := y]> N)) (<[y := e]> (<[e := z]> P)) (e :: y :: R).
Proof.
  intros Hnd He Hr Hz. pose proof (ring_remove _ _ _ _ _ _ Hnd Hr Hz) as Hr2.
  eapply (ring_insert _ _ _ _ e z) in Hr2;
    [|by apply NoDup_cons in Hnd; apply Hnd|set_solver|by rewrite lookup_insert_eq].
  change (y :: R ++ [e]) with ((y :: R) ++ [e]) in Hr2. apply ring_rotate in Hr2.
  ring_maps Hr2.
Qed.

Lemma NoDup_second {A} (c n : A) l : NoDup (c :: n :: l) -> NoDup (c :: l) /\ n ∉ c :: l.
Proof. rewrite !NoDup_cons, !not_elem_of_cons. naive_solver. Qed.

(** The element after the head moved before it: the rotation that holds the
    head. *)
Lemma ring_hold N P c n d R z : NoDup (c :: n :: d :: R) ->
  ring N P (c :: n :: d :: R) -> P !! c = Some z ->
  ring (<[n := c]> (<[c := d]> (<[z := n]> N))) (<[d := c]> (<[c := n]> (<[n := z]> P)))
    (c :: d :: R ++ [n]).
Proof.
  intros Hnd Hr Hz. assert (Hz2 : z <> c /\ z <> n /\ c <> n /\ c <> d /\ n <> d).
  { destruct (ring_ends _ _ _ _ Hr) as (l & z' & E & E2 & _). assert (z' = z) as -> by congruence.
    rewrite E in Hnd. destruct l as [|a [|b l]]; simplify_eq/=. rewrite !NoDup_cons in Hnd.
    destruct l; simplify_eq/=; set_solver. }
  destruct Hz2 as (A1 & A2 & A3 & A4 & A5).
  assert (Hpn : P !! n = Some c) by (destruct Hr as [_ [Hb _]]; exact Hb).
  pose proof (ring_turn _ _ _ _ Hr) as Hr1.
  assert (Hnd1 : NoDup ((n :: d :: R) ++ [c])).
  { change (c :: n :: d :: R) with ([c] ++ n :: d :: R) in Hnd. by rewrite (Permutation_app_comm [c]) in Hnd. }
  pose proof (ring_remove _ _ _ _ _ _ Hnd1 Hr1 Hpn) as Hr2.
  apply (ring_rotate _ _ (d :: R) [c]) in Hr2.
  eapply (ring_insert _ _ _ _ n z) in Hr2.
  - ring_maps Hr2.
  - by apply NoDup_second in Hnd as [].
  - by apply NoDup_second in Hnd as [].
  - rewrite lookup_insert_ne by congruence. done.
Qed.

(** The same with two elements. *)
Lemma ring_pair N P c n : ring N P [c; n] <->
  N !! c = Some n /\ N !! n = Some c /\ P !! n = Some c /\ P !! c = Some n.
Proof. unfold ring. cbn. tauto. Qed.

(** The links of the free chunks form the stack [M] and the ring [R], and
    there are no others. *)
Record lists (P N : gmap Z Z) (M R : list Z) : Prop := {
  l_stack : stack N P M;
  l_ring : ring N P R;
  l_nodup : NoDup (M ++ R);
  l_dom x : is_Some (P !! x) \/ is_Some (N !! x) -> x ∈ M ++ R;
  l_null : 0 ∉ M ++ R;
}.

Lemma linked_is_Some f l z x : linked f (l ++ [z]) -> x ∈ l -> is_Some (f x).
Proof.
  induction l as [|a l IH]; [by intros _ ?%elem_of_nil|]. intros Hl [->|Hx]%elem_of_cons.
  - destruct l; destruct Hl as [Hl _]; eauto.
  - apply IH; [|done]. destruct l; [done|apply Hl].
Qed.
Lemma back_is_Some f z l x : back f (z :: l) -> x ∈ l -> is_Some (f x).
Proof.
  revert z. induction l as [|a l IH]; intros z; [by intros _ ?%elem_of_nil|].
  intros [Ha Hl] [->|Hx]%elem_of_cons; eauto.
Qed.

Lemma lists_links P N M R x : lists P N M R -> x ∈ M ++ R -> is_Some (P !! x) /\ is_Some (N !! x).
Proof.
  intros [[H1 H2] H3 _ _ _] [Hx|Hx]%elem_of_app.
  - split; [by eapply (back_is_Some _ _ _ _ H2)|by eapply (linked_is_Some _ _ _ _ H1)].
  - destruct R as [|r R]; [by apply elem_of_nil in Hx|]. destruct H3 as [H3 H4].
    split; [|by eapply (linked_is_Some _ _ _ _ H3)].
    eapply (back_is_Some _ _ _ _ H4). set_solver.
Qed.

Lemma lists_nodup P N M R : lists P N M R -> NoDup M /\ NoDup R /\ (forall x, x ∈ M -> x ∉ R).
Proof. intros [_ _ Hn _ _]. apply NoDup_app in Hn. tauto. Qed.

(** Another ring in place of the old one; the links outside the two rings
    stay. *)
Lemma lists_change P N M R P' N' R' :
  lists P N M R -> ring N' P' R' -> NoDup R' -> (forall x, x ∈ R' -> (x ∉ M) /\ x <> 0) ->
  (forall x, x ∉ R -> x ∉ R' -> N' !! x = N !! x /\ P' !! x = P !! x) ->
  (forall x, x ∈ R -> x ∉ R' -> N' !! x = None /\ P' !! x = None) ->
  lists P' N' M R'.
Proof.
  intros HL Hr Hn HM Ho Hd. destruct (lists_nodup _ _ _ _ HL) as (Hnm & _ & Hmr).
  destruct HL as [H1 H2 H3 H4 H5]. split; [|done| | |].
  - eapply stack_frame; [done|]. intros x Hm. apply Ho; [auto|]. intros Hx. by apply HM in Hx as [].
  - apply NoDup_app. split; [done|]. split; [|done]. intros x Hm Hx. by apply HM in Hx as [].
  - intros x Hx. apply elem_of_app. destruct (decide (x ∈ R')) as [|Hn']; [by right|]. left.
    destruct (decide (x ∈ R)) as [Hi|Hi].
    + destruct (Hd x Hi Hn') as [E1 E2]. rewrite E1, E2 in Hx. by destruct Hx as [[]|[]].
    + destruct (Ho x Hi Hn') as [E1 E2]. rewrite E1, E2 in Hx. apply H4 in Hx.
      by apply elem_of_app in Hx as [].
  - intros [Hx|Hx]%elem_of_app; [apply H5, elem_of_app; by left|]. by apply HM in Hx as [].
Qed.

Lemma lists_ring P N M R P' N' R' :
  lists P N M R -> ring N' P' R' -> R' ≡ₚ R ->
  (forall x, x ∉ R -> N' !! x = N !! x /\ P' !! x = P !! x) -> lists P' N' M R'.
Proof.
  intros HL Hr Hp Hx. destruct (lists_nodup _ _ _ _ HL) as (Hnm & Hnr & Hmr).
  eapply lists_change; [done|done|by rewrite Hp| |by auto|].
  - intros x. rewrite Hp. intros Hi. split; [intros Hm; by apply (Hmr x)|]. intros ->.
    apply (l_null _ _ _ _ HL), elem_of_app. by right.
  - intros x Hi Hi'. by rewrite Hp in Hi'.
Qed.

Lemma lists_remove P N M R P' N' R' x :
  lists P N M R -> ring N' P' R' -> R ≡ₚ x :: R' ->
  (forall y, y ∉ R -> N' !! y = N !! y /\ P' !! y = P !! y) ->
  lists (delete x P') (delete x N') M R'.
Proof.
  intros HL Hr Hp Hx. destruct (lists_nodup _ _ _ _ HL) as (Hnm & Hnr & Hmr).
  rewrite Hp in Hnr. apply NoDup_cons in Hnr as [Hxr Hnr].
  eapply lists_change; [done| |done| | |].
  - eapply ring_frame; [done|]. intros y Hy. rewrite !lookup_delete_ne by congruence. done.
  - intros y Hy. split; [intros Hm; apply (Hmr y Hm); rewrite Hp; by right|].
    intros ->. apply (l_null _ _ _ _ HL), elem_of_app. right. rewrite Hp. by right.
  - intros y Hy Hy'. assert (x <> y) by (intros ->; apply Hy; rewrite Hp; by left).
    rewrite !lookup_delete_ne by done. auto.
  - intros y Hy Hy'. rewrite Hp in Hy. apply elem_of_cons in Hy as [->|]; [|done].
    by rewrite !lookup_delete_eq.
Qed.

(** Another stack in place of the old one. *)
Lemma lists_change_stack P N M R P' N' M' :
  lists P N M R -> stack N' P' M' -> NoDup M' -> (forall x, x ∈ M' -> (x ∉ R) /\ x <> 0) ->
  (forall x, x ∉ M -> x ∉ M' -> N' !! x = N !! x /\ P' !! x = P !! x) ->
  (forall x, x ∈ M -> x ∉ M' -> N' !! x = None /\ P' !! x = None) ->
  lists P' N' M' R.
Proof.
  intros HL Hr Hn HM Ho Hd. destruct (lists_nodup _ _ _ _ HL) as (Hnm & Hnr & Hmr).
  destruct HL as [H1 H2 H3 H4 H5]. split; [done| | | |].
  - eapply ring_frame; [done|]. intros x Hm. apply Ho; [intros Hx; by apply (Hmr x)|].
    intros Hx. by apply HM in Hx as [].
  - apply NoDup_app. split; [done|]. split; [|done]. intros x Hm Hx. by apply HM in Hm as [].
  - intros x Hx. apply elem_of_app. destruct (decide (x ∈ M')) as [|Hn']; [by left|]. right.
    destruct (decide (x ∈ M)) as [Hi|Hi].
    + destruct (Hd x Hi Hn') as [E1 E2]. rewrite E1, E2 in Hx. by destruct Hx as [[]|[]].
    + destruct (Ho x Hi Hn') as [E1 E2]. rewrite E1, E2 in Hx. apply H4 in Hx.
      by apply elem_of_app in Hx as [].
  - intros [Hx|Hx]%elem_of_app; [by apply HM in Hx as []|]. apply H5, elem_of_app. by right.
Qed.

(** The previous link of the top of a stack. *)
Definition set_top (M : list Z) (v : Z) (P : gmap Z Z) : gmap Z Z :=
  match M with [] => P | y :: _ => <[y := v]> P end.

Lemma set_top_ne M v P x : x ∉ M -> set_top M v P !! x = P !! x.
Proof. intros Hx. destruct M as [|y M]; [done|]. apply lookup_insert_ne. set_solver. Qed.

Lemma stack_cons N P x M : stack N P (x :: M) <->
  N !! x = Some (hd 0 M) /\ P !! x = Some 0 /\
  linked (fun i => N !! i) (M ++ [0]) /\ back (fun i => P !! i) (x :: M).
Proof. unfold stack. destruct M; cbn; tauto. Qed.

Lemma back_top P x y M : NoDup M -> back (fun i => P !! i) (x :: M) ->
  back (fun i => set_top M y P !! i) (y :: M).
Proof.
  destruct M as [|a M]; [done|]. intros [Ha _]%NoDup_cons [_ Hb]. split; [by apply lookup_insert_eq|].
  by apply back_insert.
Qed.

Lemma stack_pop N P x M : NoDup (x :: M) -> stack N P (x :: M) -> stack N (set_top M 0 P) M.
Proof.
  intros [_ Hnd]%NoDup_cons (_ & _ & H1 & H2)%stack_cons. split; [done|]. by eapply back_top.
Qed.

Lemma stack_push N P x M : NoDup M -> x ∉ M -> stack N P M ->
  stack (<[x := hd 0 M]> N) (set_top M x (<[x := 0]> P)) (x :: M).
Proof.
  intros Hnd Hx [H1 H2]. apply stack_cons. rewrite set_top_ne by done. rewrite !lookup_insert_eq.
  repeat split; [by apply linked_insert|].
  eapply back_top; [done|]. by apply back_insert.
Qed.

(** The top of the stack replaced. *)
Lemma stack_replace N P x e M : NoDup (x :: M) -> e ∉ x :: M -> stack N P (x :: M) ->
  stack (<[e := hd 0 M]> N) (set_top M e (<[e := 0]> P)) (e :: M).
Proof.
  intros Hnd He Hs. apply stack_pop in Hs; [|done]. apply NoDup_cons in Hnd as [_ Hnd].
  assert (He' : e ∉ M) by set_solver.
  apply (stack_push _ _ e) in Hs; [|done..]. eapply stack_frame; [exact Hs|].
  intros i _. split; [done|]. destruct M as [|y M]; [done|]. cbn [set_top].
  rewrite !lookup_insert. repeat case_decide; congruence.
Qed.

Section Logic.
Context `{OsMem}.
Context (D : gmap Z Z) (mapped : Z -> Prop) (bl : Z) (o : OsState).

Definition hdr_addr (a : Z) : Prop := a mod 8 = 0 /\ 0 < a /\ a + 8 < 4294967296.
Definition link_addr (x : Z) : Prop := x mod 8 = 0 /\ 0 < x /\ x + 16 < 4294967296.

Record rep (g : view) (h : heap) : Prop := {
  rep_hdr a k : vC g !! a = Some k ->
    words h !! a = Some (k_prev k) /\
    exists w, words h !! (a + 4) = Some w /\ unpack w = k_flags k;
  rep_prev x v : vP g !! x = Some v -> words h !! (x + 8) = Some v;
  rep_next x v : vN g !! x = Some v -> words h !! (x + 12) = Some v;
  rep_data w v : D !! w = Some v -> words h !! w = Some v;
  rep_mapped w : mapped w -> is_Some (words h !! w);
  rep_block_list : block_list h = bl;
  rep_os : os h = o;
  rep_master : master_head h = v_master g;
  rep_recycler : recycler_head h = v_recycler g;
  rep_addr a : is_Some (vC g !! a) -> hdr_addr a;
  rep_addrP x : is_Some (vP g !! x) -> link_addr x;
  rep_addrN x : is_Some (vN g !! x) -> link_addr x;
  rep_sepP x : is_Some (vP g !! x) -> vC g !! (x + 8) = None;
  rep_sepN x : is_Some (vN g !! x) -> vC g !! (x + 8) = None;
  rep_sepD a : is_Some (vC g !! a) -> D !! a = None /\ D !! (a + 4) = None;
  rep_sepDP x : is_Some (vP g !! x) -> D !! (x + 8) = None;
  rep_sepDN x : is_Some (vN g !! x) -> D !! (x + 12) = None;
}.

(** [wp c g Q]: from every heap of view [g], [c] runs without a fault to a
    heap of some view that [Q] accepts. *)
Definition wp {A} (c : W A) (g : view) (Q : A -> view -> Prop) : Prop :=
  forall h, rep g h -> exists a h' g', c h = Some (a, h') /\ rep g' h' /\ Q a g'.

Lemma wp_ret {A} (a : A) g (Q : A -> view -> Prop) : Q a g -> wp (wret a) g Q.
Proof. intros HQ h Hh. by exists a, h, g. Qed.

Lemma wp_bind {A B} (c : W A) (k : A -> W B) g Q :
  wp c g (fun a g' => wp (k a) g' Q) -> wp (wbind c k) g Q.
Proof.
  intros Hc h Hh. destruct (Hc h Hh) as (a & h1 & g1 & E & H1 & Hk).
  destruct (Hk h1 H1) as (b & h2 & g2 & E2 & H2 & HQ).
  exists b, h2, g2. unfold wbind. by rewrite E, E2.
Qed.

Lemma wp_mono {A} (c : W A) g (Q Q' : A -> view -> Prop) :
  wp c g Q -> (forall a g', Q a g' -> Q' a g') -> wp c g Q'.
Proof.
  intros Hc HQ h Hh. destruct (Hc h Hh) as (a & h1 & g1 & E & H1 & Hk). exists a, h1, g1. auto.
Qed.

(** Ghost steps: the view may change without the heap. *)
Lemma wp_ghost {A} (c : W A) g g' Q :
  (forall h, rep g h -> rep g' h) -> wp c g' Q -> wp c g Q.
Proof. intros Hg Hc h Hh. by apply Hc, Hg. Qed.

(** *** Reading *)

Lemma rd_run k v h : words h !! k = Some v -> rd k h = Some (v, h).
Proof. intros E. unfold rd. by rewrite E. Qed.

Lemma wp_chunk_prev a k C P N m r Q :
  C !! a = Some k -> Q (k_prev k) (mkView C P N m r) -> wp (chunk_prev a) (mkView C P N m r) Q.
Proof.
  intros E HQ h Hh. destruct (rep_hdr _ _ Hh a k E) as [E1 _].
  exists (k_prev k), h, (mkView C P N m r). split; [by apply rd_run|done].
Qed.

Lemma wp_chunk_flags a k C P N m r Q :
  C !! a = Some k -> Q (k_flags k) (mkView C P N m r) -> wp (chunk_flags a) (mkView C P N m r) Q.
Proof.
  intros E HQ h Hh. destruct (rep_hdr _ _ Hh a k E) as (_ & w & E2 & E3).
  exists (k_flags k), h, (mkView C P N m r).
  split; [|done]. unfold chunk_flags, wbind. rewrite (rd_run _ _ _ E2). unfold wret. congruence.
Qed.

Lemma wp_flag {A} (f : flags -> A) a k C P N m r (Q : A -> view -> Prop) :
  C !! a = Some k -> Q (f (k_flags k)) (mkView C P N m r) ->
  wp (wbind (chunk_flags a) (fun x => wret (f x))) (mkView C P N m r) Q.
Proof.
  intros E HQ. apply wp_bind. eapply wp_chunk_flags; [done|]. by apply wp_ret.
Qed.

Lemma wp_chunk_len a k C P N m r Q :
  C !! a = Some k -> Q (k_len k) (mkView C P N m r) -> wp (chunk_len a) (mkView C P N m r) Q.
Proof. intros. by eapply wp_flag. Qed.
Lemma wp_chunk_last a k C P N m r Q :
  C !! a = Some k -> Q (k_last k) (mkView C P N m r) -> wp (chunk_last a) (mkView C P N m r) Q.
Proof. intros. by eapply wp_flag. Qed.
Lemma wp_chunk_used a k C P N m r Q :
  C !! a = Some k -> Q (k_used k) (mkView C P N m r) -> wp (chunk_used a) (mkView C P N m r) Q.
Proof. intros. by eapply wp_flag. Qed.

Lemma wp_data_len a k C P N m r Q :
  C !! a = Some k -> 8 <= k_len k < 536870912 ->
  Q (k_len k - 8) (mkView C P N m r) -> wp (WMEM_CHUNK_DATA_LEN a) (mkView C P N m r) Q.
Proof.
  intros E Hl HQ. apply wp_bind. eapply wp_chunk_len; [done|]. apply wp_ret.
  rewrite (proj1 header_sizes), u32_id; [done|lia].
Qed.

Lemma wp_chunk_next a k C P N m r Q :
  C !! a = Some k -> 0 <= a + k_len k < 4294967296 ->
  Q (if k_last k then NULL else a + k_len k) (mkView C P N m r) ->
  wp (WMEM_CHUNK_NEXT a) (mkView C P N m r) Q.
Proof.
  intros E Hl HQ. apply wp_bind. eapply wp_chunk_flags; [done|]. apply wp_ret.
  unfold k_last, k_len in *. by rewrite u32_id.
Qed.

Lemma wp_chunk_before a k C P N m r Q :
  C !! a = Some k -> 0 <= a - k_prev k < 4294967296 ->
  Q (if k_prev k =? 0 then NULL else a - k_prev k) (mkView C P N m r) ->
  wp (WMEM_CHUNK_PREV a) (mkView C P N m r) Q.
Proof.
  intros E Hl HQ. apply wp_bind. eapply wp_chunk_prev; [done|]. apply wp_ret. by rewrite u32_id.
Qed.

Lemma link_words x : link_addr x ->
  WMEM_CHUNK_TO_DATA x = x + 8 /\ u32 (WMEM_CHUNK_TO_DATA x + 4) = x + 12.
Proof.
  intros (_ & Hx & Hb). unfold WMEM_CHUNK_TO_DATA. rewrite (proj1 header_sizes).
  rewrite !u32_id by (rewrite ?u32_id; lia). lia.
Qed.

Lemma wp_free_prev x v C P N m r Q :
  P !! x = Some v -> Q v (mkView C P N m r) -> wp (free_prev x) (mkView C P N m r) Q.
Proof.
  intros E HQ h Hh. destruct (link_words x) as [E1 _]; [by apply (rep_addrP _ _ Hh)|].
  exists v, h, (mkView C P N m r). split; [|done]. unfold free_prev. rewrite E1.
  apply rd_run. by apply (rep_prev _ _ Hh).
Qed.

Lemma wp_free_next x v C P N m r Q :
  N !! x = Some v -> Q v (mkView C P N m r) -> wp (free_next x) (mkView C P N m r) Q.
Proof.
  intros E HQ h Hh. destruct (link_words x) as [_ E1]; [by apply (rep_addrN _ _ Hh)|].
  exists v, h, (mkView C P N m r). split; [|done]. unfold free_next. rewrite E1.
  apply rd_run. by apply (rep_next _ _ Hh).
Qed.

Lemma wp_get_master C P N m r Q :
  Q m (mkView C P N m r) -> wp get_master (mkView C P N m r) Q.
Proof.
  intros HQ h Hh. exists m, h, (mkView C P N m r). split; [|done].
  unfold get_master. by rewrite (rep_master _ _ Hh).
Qed.
Lemma wp_get_recycler C P N m r Q :
  Q r (mkView C P N m r) -> wp get_recycler (mkView C P N m r) Q.
Proof.
  intros HQ h Hh. exists r, h, (mkView C P N m r). split; [|done].
  unfold get_recycler. by rewrite (rep_recycler _ _ Hh).
Qed.

(** *** Writing *)

Definition with_words (h : heap) (w : gmap Z Z) : heap :=
  mkHeap _ w (os h) (block_list h) (master_head h) (recycler_head h).

Lemma wr_run k v h : is_Some (words h !! k) -> wr k v h = Some (tt, with_words h (<[k := v]> (words h))).
Proof. intros [x E]. unfold wr. by rewrite E. Qed.

(** A word written at [k] is harmless to every part of the view that does
    not hold [k]. *)
Lemma rep_write g g' h k v :
  rep g h ->
  (forall a x, vC g' !! a = Some x ->
     <[k := v]> (words h) !! a = Some (k_prev x) /\
     exists w, <[k := v]> (words h) !! (a + 4) = Some w /\ unpack w = k_flags x) ->
  (forall x y, vP g' !! x = Some y -> <[k := v]> (words h) !! (x + 8) = Some y) ->
  (forall x y, vN g' !! x = Some y -> <[k := v]> (words h) !! (x + 12) = Some y) ->
  D !! k = None ->
  (forall a, is_Some (vC g' !! a) <-> is_Some (vC g !! a)) ->
  (forall x, is_Some (vP g' !! x) <-> is_Some (vP g !! x)) ->
  (forall x, is_Some (vN g' !! x) <-> is_Some (vN g !! x)) ->
  v_master g' = v_master g -> v_recycler g' = v_recycler g ->
  rep g' (with_words h (<[k := v]> (words h))).
Proof.
  intros Hh HC HP HN Hk EC EP EN Em Er.
  assert (None_iff : forall a, vC g !! a = None -> vC g' !! a = None).
  { intros a Ha. apply eq_None_not_Some. rewrite EC, Ha. apply is_Some_None. }
  split; try done; cbn [with_words words os block_list master_head recycler_head].
  - intros w y Hw. rewrite lookup_insert_ne by congruence. by apply (rep_data _ _ Hh).
  - intros w Hw. apply lookup_insert_is_Some'. right. by apply (rep_mapped _ _ Hh).
  - by rewrite (rep_block_list _ _ Hh).
  - by rewrite (rep_os _ _ Hh).
  - by rewrite Em, (rep_master _ _ Hh).
  - by rewrite Er, (rep_recycler _ _ Hh).
  - intros a. rewrite EC. apply (rep_addr _ _ Hh).
  - intros a. rewrite EP. apply (rep_addrP _ _ Hh).
  - intros a. rewrite EN. apply (rep_addrN _ _ Hh).
  - intros a. rewrite EP. intros Ha. by apply None_iff, (rep_sepP _ _ Hh).
  - intros a. rewrite EN. intros Ha. by apply None_iff, (rep_sepN _ _ Hh).
  - intros a. rewrite EC. apply (rep_sepD _ _ Hh).
  - intros a. rewrite EP. apply (rep_sepDP _ _ Hh).
  - intros a. rewrite EN. apply (rep_sepDN _ _ Hh).
Qed.

Lemma insert_dom_same {A} (m : gmap Z A) k v x :
  is_Some (m !! k) -> is_Some (<[k := v]> m !! x) <-> is_Some (m !! x).
Proof.
  intros Hk. rewrite lookup_insert_is_Some'. split; [|by right].
  intros [<-|Hx]; done.
Qed.

Lemma wp_set_prev a k v C P N m r Q :
  C !! a = Some k ->
  Q tt (mkView (<[a := put_prev k v]> C) P N m r) -> wp (set_prev a v) (mkView C P N m r) Q.
Proof.
  intros E HQ h Hh. destruct (rep_hdr _ _ Hh a k E) as [Ea (w & Ew & Eu)].
  assert (Ha : is_Some (C !! a)) by eauto.
  pose proof (rep_addr _ _ Hh a Ha) as Hal.
  eexists tt, _, (mkView (<[a := put_prev k v]> C) P N m r).
  split; [apply wr_run; eauto|]. split; [|done].
  eapply rep_write; try done; cbn [vC vP vN].
  - intros b x. rewrite lookup_insert_Some. intros [[<- <-]|[Hne Hb]].
    + rewrite lookup_insert_eq. split; [done|]. rewrite lookup_insert_ne by lia. eauto.
    + pose proof (rep_addr _ _ Hh b ltac:(eauto)) as Hbl.
      rewrite !lookup_insert_ne; [by apply (rep_hdr _ _ Hh)| |done].
      unfold hdr_addr in *. Z.div_mod_to_equations. lia.
  - intros x y Hx. rewrite lookup_insert_ne; [by apply (rep_prev _ _ Hh)|].
    intros ->. pose proof (rep_sepP _ _ Hh x ltac:(eauto)). simpl in *. congruence.
  - intros x y Hx. rewrite lookup_insert_ne; [by apply (rep_next _ _ Hh)|].
    pose proof (rep_addrN _ _ Hh x ltac:(eauto)). unfold hdr_addr, link_addr in *.
    Z.div_mod_to_equations. lia.
  - by apply (rep_sepD _ _ Hh).
  - intros b. by apply insert_dom_same.
Qed.

Lemma wp_set_flags a k g C P N m r Q :
  C !! a = Some k -> 0 <= len (g (k_flags k)) < 2 ^ 29 ->
  Q tt (mkView (<[a := put_flags k (g (k_flags k))]> C) P N m r) ->
  wp (set_flags a g) (mkView C P N m r) Q.
Proof.
  intros E Hlen HQ h Hh. destruct (rep_hdr _ _ Hh a k E) as [Ea (w & Ew & Eu)].
  assert (Ha : is_Some (C !! a)) by eauto.
  pose proof (rep_addr _ _ Hh a Ha) as Hal.
  eexists tt, _, (mkView (<[a := put_flags k (g (k_flags k))]> C) P N m r).
  split; [unfold set_flags, wbind; rewrite (rd_run _ _ _ Ew); apply wr_run; eauto|]. split; [|done].
  rewrite Eu. eapply rep_write; try done; cbn [vC vP vN].
  - intros b x. rewrite lookup_insert_Some. intros [[<- <-]|[Hne Hb]].
    + rewrite lookup_insert_eq. rewrite lookup_insert_ne by lia. split; [done|].
      eexists. split; [done|]. by rewrite unpack_pack.
    + pose proof (rep_addr _ _ Hh b ltac:(eauto)) as Hbl.
      rewrite !lookup_insert_ne; [by apply (rep_hdr _ _ Hh)|lia|].
      unfold hdr_addr in *. Z.div_mod_to_equations. lia.
  - intros x y Hx. rewrite lookup_insert_ne; [by apply (rep_prev _ _ Hh)|].
    pose proof (rep_addrP _ _ Hh x ltac:(eauto)). unfold hdr_addr, link_addr in *.
    Z.div_mod_to_equations. lia.
  - intros x y Hx. rewrite lookup_insert_ne; [by apply (rep_next _ _ Hh)|].
    intros E'. replace a with (x + 8) in * by lia.
    pose proof (rep_sepN _ _ Hh x ltac:(eauto)). simpl in *. congruence.
  - by apply (rep_sepD _ _ Hh).
  - intros b. by apply insert_dom_same.
Qed.

Lemma wp_set_len a k v C P N m r Q :
  C !! a = Some k -> 0 <= v < 2 ^ 29 ->
  Q tt (mkView (<[a := put_len k v]> C) P N m r) -> wp (set_len a v) (mkView C P N m r) Q.
Proof.
  intros E Hv HQ. eapply wp_set_flags; [done|cbn [len]; apply Z.mod_pos_bound; lia|].
  cbn [len]. rewrite Z.mod_small by done. done.
Qed.

Lemma wp_set_flag a k g C P N m r Q :
  C !! a = Some k -> (forall f, len (g f) = len f) -> 0 <= k_len k < 2 ^ 29 ->
  Q tt (mkView (<[a := put_flags k (g (k_flags k))]> C) P N m r) ->
  wp (set_flags a g) (mkView C P N m r) Q.
Proof. intros E Hg Hv HQ. eapply wp_set_flags; [done| |done]. by rewrite Hg. Qed.

Lemma wp_set_last a k v C P N m r Q :
  C !! a = Some k -> 0 <= k_len k < 2 ^ 29 ->
  Q tt (mkView (<[a := put_last k v]> C) P N m r) -> wp (set_last a v) (mkView C P N m r) Q.
Proof. intros. by eapply wp_set_flag. Qed.
Lemma wp_set_used a k v C P N m r Q :
  C !! a = Some k -> 0 <= k_len k < 2 ^ 29 ->
  Q tt (mkView (<[a := put_used k v]> C) P N m r) -> wp (set_used a v) (mkView C P N m r) Q.
Proof. intros. by eapply wp_set_flag. Qed.
Lemma wp_set_jumbo a k v C P N m r Q :
  C !! a = Some k -> 0 <= k_len k < 2 ^ 29 ->
  Q tt (mkView (<[a := put_jumbo k v]> C) P N m r) -> wp (set_jumbo a v) (mkView C P N m r) Q.
Proof. intros. by eapply wp_set_flag. Qed.

Lemma wp_set_free_prev x u v C P N m r Q :
  P !! x = Some u ->
  Q tt (mkView C (<[x := v]> P) N m r) -> wp (set_free_prev x v) (mkView C P N m r) Q.
Proof.
  intros E HQ h Hh. assert (Hx : is_Some (P !! x)) by eauto.
  pose proof (rep_addrP _ _ Hh x Hx) as Hal. destruct (link_words x Hal) as [E1 _].
  eexists tt, _, (mkView C (<[x := v]> P) N m r). split; [|split; [|done]].
  { unfold set_free_prev. rewrite E1. apply wr_run. eexists. by apply (rep_prev _ _ Hh). }
  eapply rep_write; try done; cbn [vC vP vN].
  - intros b k Hb. pose proof (rep_addr _ _ Hh b ltac:(eauto)) as Hbl.
    rewrite !lookup_insert_ne; [by apply (rep_hdr _ _ Hh)| |].
    + unfold hdr_addr, link_addr in *. Z.div_mod_to_equations. lia.
    + intros <-. pose proof (rep_sepP _ _ Hh x Hx). simpl in *. congruence.
  - intros b y. rewrite lookup_insert_Some. intros [[<- <-]|[Hne Hb]].
    + by rewrite lookup_insert_eq.
    + rewrite lookup_insert_ne by lia. by apply (rep_prev _ _ Hh).
  - intros b y Hb. rewrite lookup_insert_ne; [by apply (rep_next _ _ Hh)|].
    pose proof (rep_addrN _ _ Hh b ltac:(eauto)). unfold link_addr in *.
    Z.div_mod_to_equations. lia.
  - by apply (rep_sepDP _ _ Hh).
  - intros b. by apply insert_dom_same.
Qed.

Lemma wp_set_free_next x u v C P N m r Q :
  N !! x = Some u ->
  Q tt (mkView C P (<[x := v]> N) m r) -> wp (set_free_next x v) (mkView C P N m r) Q.
Proof.
  intros E HQ h Hh. assert (Hx : is_Some (N !! x)) by eauto.
  pose proof (rep_addrN _ _ Hh x Hx) as Hal. destruct (link_words x Hal) as [_ E1].
  eexists tt, _, (mkView C P (<[x := v]> N) m r). split; [|split; [|done]].
  { unfold set_free_next. rewrite E1. apply wr_run. eexists. by apply (rep_next _ _ Hh). }
  eapply rep_write; try done; cbn [vC vP vN].
  - intros b k Hb. pose proof (rep_addr _ _ Hh b ltac:(eauto)) as Hbl.
    rewrite !lookup_insert_ne; [by apply (rep_hdr _ _ Hh)| |].
    + intros E'. replace b with (x + 8) in * by lia.
      pose proof (rep_sepN _ _ Hh x Hx). simpl in *. congruence.
    + unfold hdr_addr, link_addr in *. Z.div_mod_to_equations. lia.
  - intros b y Hb. rewrite lookup_insert_ne; [by apply (rep_prev _ _ Hh)|].
    pose proof (rep_addrP _ _ Hh b ltac:(eauto)). unfold link_addr in *.
    Z.div_mod_to_equations. lia.
  - intros b y. rewrite lookup_insert_Some. intros [[<- <-]|[Hne Hb]].
    + by rewrite lookup_insert_eq.
    + rewrite lookup_insert_ne by lia. by apply (rep_next _ _ Hh).
  - by apply (rep_sepDN _ _ Hh).
  - intros b. by apply insert_dom_same.
Qed.

Lemma wp_set_master v C P N m r Q :
  Q tt (mkView C P N v r) -> wp (set_master v) (mkView C P N m r) Q.
Proof.
  intros HQ h Hh. eexists tt, _, (mkView C P N v r). split; [done|]. split; [|done].
  destruct Hh. by split.
Qed.
Lemma wp_set_recycler v C P N m r Q :
  Q tt (mkView C P N m v) -> wp (set_recycler v) (mkView C P N m r) Q.
Proof.
  intros HQ h Hh. eexists tt, _, (mkView C P N m v). split; [done|]. split; [|done].
  destruct Hh. by split.
Qed.

(** *** Retyping memory *)

(** Eight mapped bytes that nothing else claims: at [a]. *)
Definition room (a : Z) : Prop :=
  mapped a /\ mapped (a + 4) /\ D !! a = None /\ D !! (a + 4) = None.

Lemma wp_new_links {A} (c : W A) x C P N m r Q :
  link_addr x -> room (x + 8) -> C !! (x + 8) = None ->
  (forall u v, wp c (mkView C (<[x := u]> P) (<[x := v]> N) m r) Q) ->
  wp c (mkView C P N m r) Q.
Proof.
  intros Hx (H1 & H2 & H3 & H4) HC Hc h Hh.
  replace (x + 8 + 4) with (x + 12) in * by lia.
  destruct (rep_mapped _ _ Hh _ H1) as [u Hu], (rep_mapped _ _ Hh _ H2) as [v Hv].
  apply (Hc u v). destruct Hh. cbn [vC vP vN v_master v_recycler] in *.
  split; try done; cbn [vC vP vN v_master v_recycler].
  - intros y w. rewrite lookup_insert_Some. intros [[<- <-]|[_ Hy]]; auto.
  - intros y w. rewrite lookup_insert_Some. intros [[<- <-]|[_ Hy]]; auto.
  - intros y. rewrite lookup_insert_is_Some'. intros [<-|Hy]; auto.
  - intros y. rewrite lookup_insert_is_Some'. intros [<-|Hy]; auto.
  - intros y. rewrite lookup_insert_is_Some'. intros [<-|Hy]; auto.
  - intros y. rewrite lookup_insert_is_Some'. intros [<-|Hy]; auto.
  - intros y. rewrite lookup_insert_is_Some'. intros [<-|Hy]; auto.
  - intros y. rewrite lookup_insert_is_Some'. intros [<-|Hy]; auto.
Qed.

Lemma wp_new_hdr {A} (c : W A) b a C P N m r Q :
  hdr_addr a -> room a -> P !! (a - 8) = None -> N !! (a - 8) = None ->
  (forall pv f, 0 <= len f < 2 ^ 29 -> wp c (mkView (<[a := mkHdr pv f b]> C) P N m r) Q) ->
  wp c (mkView C P N m r) Q.
Proof.
  intros Ha (H1 & H2 & H3 & H4) HP HN Hc h Hh.
  destruct (rep_mapped _ _ Hh _ H1) as [u Hu], (rep_mapped _ _ Hh _ H2) as [v Hv].
  apply (Hc u (unpack v) (unpack_len v)). destruct Hh. cbn [vC vP vN v_master v_recycler] in *.
  assert (Hne : forall (L : gmap Z Z) x, L !! (a - 8) = None -> is_Some (L !! x) -> a <> x + 8).
  { intros L x HL HL' ->. replace (x + 8 - 8) with x in HL by lia. rewrite HL in HL'.
    by apply is_Some_None in HL'. }
  split; try done; cbn [vC vP vN v_master v_recycler].
  - intros y k. rewrite lookup_insert_Some. intros [[<- <-]|[_ Hy]]; [|auto].
    cbn [k_prev k_flags]. eauto.
  - intros y. rewrite lookup_insert_is_Some'. intros [<-|Hy]; auto.
  - intros y Hy. rewrite lookup_insert_ne; eauto.
  - intros y Hy. rewrite lookup_insert_ne; eauto.
  - intros y. rewrite lookup_insert_is_Some'. intros [<-|Hy]; auto.
Qed.

Lemma delete_Some {A} (m : gmap Z A) k x : is_Some (delete k m !! x) -> is_Some (m !! x).
Proof. intros [v Hv]. apply lookup_delete_Some in Hv as [_ Hv]. eauto. Qed.

Lemma wp_drop_hdr {A} (c : W A) a C P N m r Q :
  wp c (mkView (delete a C) P N m r) Q -> wp c (mkView C P N m r) Q.
Proof.
  apply wp_ghost. intros h []. split; try done; cbn [vC vP vN v_master v_recycler] in *.
  - intros x k. rewrite lookup_delete_Some. intros [_ Hx]. auto.
  - intros x Hx. apply delete_Some in Hx. auto.
  - intros x Hx. rewrite lookup_delete_None. auto.
  - intros x Hx. rewrite lookup_delete_None. auto.
  - intros x Hx. apply delete_Some in Hx. auto.
Qed.

Lemma wp_drop_links {A} (c : W A) a C P N m r Q :
  wp c (mkView C (delete a P) (delete a N) m r) Q -> wp c (mkView C P N m r) Q.
Proof.
  apply wp_ghost. intros h []. split; try done; cbn [vC vP vN v_master v_recycler] in *.
  - intros x k. rewrite lookup_delete_Some. intros [_ Hx]. auto.
  - intros x k. rewrite lookup_delete_Some. intros [_ Hx]. auto.
  - intros x Hx. apply delete_Some in Hx. auto.
  - intros x Hx. apply delete_Some in Hx. auto.
  - intros x Hx. apply delete_Some in Hx. auto.
  - intros x Hx. apply delete_Some in Hx. auto.
  - intros x Hx. apply delete_Some in Hx. auto.
  - intros x Hx. apply delete_Some in Hx. auto.
Qed.

(** ** The second layer: lists instead of links *)

Definition wpl {A} (c : W A) (C : gmap Z hdr) (M R : list Z)
    (Q : A -> gmap Z hdr -> list Z -> list Z -> Prop) : Prop :=
  forall P N, lists P N M R ->
  wp c (mkView C P N (hd 0 M) (hd 0 R)) (fun a g =>
    exists M' R', lists (vP g) (vN g) M' R' /\ v_master g = hd 0 M' /\
      v_recycler g = hd 0 R' /\ Q a (vC g) M' R').

Lemma wpl_done {A} (a : A) C P N M R m r (Q : A -> gmap Z hdr -> list Z -> list Z -> Prop) :
  lists P N M R -> m = hd 0 M -> r = hd 0 R -> Q a C M R ->
  exists M' R', lists P N M' R' /\ m = hd 0 M' /\ r = hd 0 R' /\ Q a C M' R'.
Proof. intros. exists M, R. auto. Qed.

Ltac wb := apply wp_bind.
Ltac find := first [eassumption | by lk].
Ltac w1 :=
  lazymatch goal with
  | |- wp (wbind _ _) _ _ => apply wp_bind
  | |- wp (wret _) _ _ => apply wp_ret
  | |- wp get_master _ _ => apply wp_get_master
  | |- wp get_recycler _ _ => apply wp_get_recycler
  | |- wp (set_master _) _ _ => apply wp_set_master
  | |- wp (set_recycler _) _ _ => apply wp_set_recycler
  | |- wp (free_prev _) _ _ => eapply wp_free_prev; [find|]
  | |- wp (free_next _) _ _ => eapply wp_free_next; [find|]
  | |- wp (set_free_prev _ _) _ _ => eapply wp_set_free_prev; [find|]
  | |- wp (set_free_next _ _) _ _ => eapply wp_set_free_next; [find|]
  | |- wp (chunk_len _) _ _ => eapply wp_chunk_len; [find|]
  | |- wp (chunk_last _) _ _ => eapply wp_chunk_last; [find|]
  | |- wp (chunk_used _) _ _ => eapply wp_chunk_used; [find|]
  end; cbn beta iota.
Ltac wgo := cbn beta iota; repeat w1.

Lemma wpl_cycle C M R Q :
  (forall x, x ∈ R -> is_Some (C !! x)) ->
  (forall R', R' ≡ₚ R -> Q tt C M R') ->
  wpl wmem_block_cycle_recycler C M R Q.
Proof.
  intros HC HQ P N HL. unfold wmem_block_cycle_recycler. wgo.
  destruct R as [|c R]; [by eapply wp_ret, wpl_done; eauto|]. cbn [hd].
  assert (Hc : c <> 0) by (pose proof (l_null _ _ _ _ HL); set_solver).
  rewrite (proj2 (Z.eqb_neq c NULL)) by done.
  destruct (ring_ends _ _ _ _ (l_ring _ _ _ _ HL)) as (l & z & E & Ez & _ & En).
  destruct (HC c) as [kc Ekc]; [set_solver|].
  destruct (HC (hd c R)) as [kn Ekn]; [destruct R; set_solver|].
  wgo. destruct (k_len kn <? k_len kc) eqn:Hlt.
  - destruct R as [|n R]; cbn [hd] in *; [simplify_eq; lia|].
    assert (Hnd : NoDup (c :: n :: R)) by apply (lists_nodup _ _ _ _ HL).
    assert (Hcn : c <> n) by (apply NoDup_cons in Hnd; set_solver).
    assert (Hzc : z <> c).
    { pose proof (ring_last_in _ _ _ [] _ _ _ (l_ring _ _ _ _ HL) Ez). apply NoDup_cons in Hnd. set_solver. }
    pose proof (l_ring _ _ _ _ HL) as Hr.
    destruct R as [|d R].
    + apply ring_pair in Hr as (E1 & E2 & E3 & E4). assert (z = n) as -> by congruence.
      wgo. eapply (wpl_done _ _ _ _ _ [c; n]); [|done..|by apply HQ].
      eapply lists_ring; [done| |done|]; cbn [vP vN].
      * apply ring_pair. by lk.
      * intros x Hx. by lk.
    + assert (E1 : N !! n = Some d) by (destruct Hr as [[_ [Hb _]] _]; exact Hb).
      assert (Hzn : z ∈ d :: R) by exact (ring_last_in _ _ _ [n] _ _ _ Hr Ez).
      assert (z <> n) by (rewrite !NoDup_cons in Hnd; set_solver).
      pose proof (ring_hold _ _ _ _ _ _ _ Hnd Hr Ez) as Hr2.
      assert (Hd : d <> c /\ d <> n) by (rewrite !NoDup_cons in Hnd; set_solver).
      destruct Hd as [Hdc Hdn].
      destruct (lists_links _ _ _ _ n HL) as [[pn Epn] _]; [set_solver|].
      destruct (lists_links _ _ _ _ z HL) as [_ [nz Enz]]; [set_solver|].
      destruct (lists_links _ _ _ _ d HL) as [[pd Epd] _]; [set_solver|].
      wgo.
      assert (Hp : c :: d :: R ++ [n] ≡ₚ c :: n :: d :: R).
      { apply perm_skip. symmetry. apply (Permutation_cons_append (d :: R) n). }
      eapply (wpl_done _ _ _ _ _ (c :: d :: R ++ [n])); [|done..|by apply HQ].
      eapply lists_ring; [done|exact Hr2|done|]. intros x Hx.
      assert (x <> z /\ x <> c /\ x <> d /\ x <> n) by set_solver. dd. cbn [vP vN]. by lk.
  - pose proof (ring_turn _ _ _ _ (l_ring _ _ _ _ HL)) as Hr. wgo.
    assert (Hp : R ++ [c] ≡ₚ c :: R) by (symmetry; apply Permutation_cons_append).
    eapply (wpl_done _ _ _ _ _ (R ++ [c])); [|reflexivity| |by apply HQ].
    2: { cbn [v_recycler]. by destruct R. }
    by eapply lists_ring.
Qed.

Lemma wpl_remove C M R x Q :
  x ∈ R -> (forall R', R ≡ₚ x :: R' -> Q tt C M R') ->
  wpl (wmem_block_remove_from_recycler x) C M R Q.
Proof.
  intros Hx HQ P N HL. apply list_elem_of_split in Hx as (l1 & l2 & ->).
  pose proof (ring_rotate _ _ _ _ (l_ring _ _ _ _ HL)) as Hr. simpl in Hr.
  destruct (lists_nodup _ _ _ _ HL) as (_ & Hnd & _).
  assert (Hp : l1 ++ x :: l2 ≡ₚ x :: l1 ++ l2) by (symmetry; apply Permutation_middle).
  assert (Hp2 : l1 ++ x :: l2 ≡ₚ x :: l2 ++ l1) by (rewrite Hp, (Permutation_app_comm l1); done).
  assert (Hh : hd 0 (l1 ++ x :: l2) = if decide (l1 = []) then x else hd 0 (l1 ++ l2)).
  { by destruct l1. }
  rewrite Hp2 in Hnd.
  destruct (ring_ends _ _ _ _ Hr) as (l & z & E & Ez & _ & En).
  unfold wmem_block_remove_from_recycler. wgo.
  destruct (l2 ++ l1) as [|y R] eqn:E12.
  - apply app_eq_nil in E12 as [-> ->]. cbn [hd] in *. destruct l as [|? []]; simplify_eq/=.
    rewrite !Z.eqb_refl. cbn [andb]. apply (wp_drop_links _ z). wgo.
    eapply (wpl_done _ _ _ _ _ []); [|done..|by apply HQ]. by eapply lists_remove.
  - cbn [hd] in *. pose proof (ring_remove _ _ _ _ _ _ Hnd Hr Ez) as Hr2. rewrite <- E12 in Hr2.
    apply ring_rotate in Hr2.
    assert (Hzx : z ∈ y :: R) by exact (ring_last_in _ _ _ [] _ _ _ Hr Ez).
    pose proof Hnd as Hnd'. apply NoDup_cons in Hnd' as [Hxn _].
    assert (x <> y /\ x <> z) as [Hxy Hxz] by set_solver.
    rewrite (proj2 (Z.eqb_neq z x)) by congruence. cbn [andb].
    destruct (lists_links _ _ _ _ z HL) as [_ [nz Enz]]; [rewrite Hp2; set_solver|].
    destruct (lists_links _ _ _ _ y HL) as [[py Epy] _]; [rewrite Hp2; set_solver|].
    assert (HL' : lists (delete x (<[y := z]> P)) (delete x (<[z := y]> N)) M (l1 ++ l2)).
    { eapply lists_remove; [done|done|done|]. intros i Hi. rewrite Hp2 in Hi.
      assert (z <> i /\ y <> i) by set_solver. dd. by lk. }
    wgo. rewrite Hh. destruct (decide (l1 = [])) as [->|Hl1].
    + rewrite Z.eqb_refl. do 2 w1. apply (wp_drop_links _ x). wgo.
      eapply (wpl_done _ _ _ _ _ l2); [exact HL'|done| |by apply HQ].
      rewrite app_nil_r in E12. by rewrite E12.
    + rewrite (proj2 (Z.eqb_neq _ x)).
      * apply (wp_drop_links _ x). wgo. eapply (wpl_done _ _ _ _ _ (l1 ++ l2)); [exact HL'|done..|by apply HQ].
      * intros <-. apply Hxn. destruct l1 as [|a l1]; [done|]. cbn [hd app]. rewrite <- E12. set_solver.
Qed.

Lemma wpl_add C M R x k Q :
  C !! x = Some k -> 8 <= k_len k < 536870912 -> x ∉ M ++ R ->
  (16 <= k_len k -> link_addr x /\ room (x + 8) /\ C !! (x + 8) = None) ->
  (forall y, y ∈ R -> is_Some (C !! y)) ->
  (k_len k < 16 -> Q tt C M R) ->
  (16 <= k_len k -> forall R', R' ≡ₚ x :: R -> Q tt C M R') ->
  wpl (wmem_block_add_to_recycler x) C M R Q.
Proof.
  intros Ex Hl Hx Hroom HC HQ1 HQ2 P N HL. unfold wmem_block_add_to_recycler.
  w1. eapply wp_data_len; [done..|]. unfold SIZEOF_FREE.
  destruct (Z.ltb_spec (k_len k - 8) 8) as [Hs|Hs].
  { w1. eapply wpl_done; [done..|]. apply HQ1. lia. }
  assert (Hk : 16 <= k_len k) by lia. destruct (Hroom Hk) as (Hla & Hro & HCx).
  destruct (lists_nodup _ _ _ _ HL) as (_ & Hnd & _).
  assert (HxR : x ∉ R) by set_solver. assert (HxM : x ∉ M) by set_solver.
  assert (H0 : x <> 0) by (destruct Hla; lia).
  apply (wp_new_links _ x); [done..|]. intros u v.
  destruct R as [|r R].
  - wgo. cbn [hd]. change (0 =? NULL) with true. wgo.
    eapply (wpl_done _ _ _ _ _ [x]); [|done..|by apply HQ2].
    eapply lists_change; [done| |apply NoDup_singleton|set_solver| |].
    + unfold ring. cbn. by lk.
    + intros y _ Hy. cbn [vP vN]. assert (x <> y) by set_solver. by lk.
    + intros y []%elem_of_nil.
  - assert (Hr0 : r <> 0) by (pose proof (l_null _ _ _ _ HL); set_solver).
    assert (Hxr : x <> r) by set_solver.
    destruct (ring_ends _ _ _ _ (l_ring _ _ _ _ HL)) as (l & z & E & Ez & Enz & _).
    assert (Hzr : z ∈ r :: R) by (rewrite E; set_solver).
    assert (Hxz : x <> z) by (intros <-; done).
    destruct (HC r) as [kr Ekr]; [set_solver|].
    pose proof (ring_insert _ _ _ _ x z Hnd HxR (l_ring _ _ _ _ HL) Ez) as Hr2.
    assert (Hp : r :: R ++ [x] ≡ₚ x :: r :: R) by (symmetry; apply (Permutation_cons_append (r :: R))).
    wgo. cbn [hd]. rewrite (proj2 (Z.eqb_neq r NULL)) by done. wgo.
    assert (HL' : lists (<[r := x]> (<[x := z]> (<[x := u]> P))) (<[z := x]> (<[x := r]> (<[x := v]> N)))
                    M (r :: R ++ [x])).
    { eapply lists_change; [done| |by rewrite Hp; apply NoDup_cons| | |].
      - ring_maps Hr2.
      - intros y. rewrite Hp. pose proof (l_null _ _ _ _ HL).
        destruct (lists_nodup _ _ _ _ HL) as (_ & _ & Hmr).
        intros [->|Hy]%elem_of_cons; [done|]. split; [intros Hm; by apply (Hmr y)|]. set_solver.
      - intros y Hy. rewrite Hp. intros Hy'. assert (r <> y /\ x <> y /\ z <> y) by set_solver.
        dd. by lk.
      - intros y Hy. rewrite Hp. set_solver. }
    destruct (k_len kr <? k_len k); wgo.
    + eapply (wpl_done _ _ _ _ _ (x :: r :: R)); [|done..|by apply HQ2].
      eapply lists_ring; [exact HL'| |done|done].
      apply (ring_rotate _ _ (r :: R) [x]). apply (l_ring _ _ _ _ HL').
    + eapply wpl_done; [exact HL'|done..|by apply HQ2].
Qed.

Lemma wpl_push C M R x Q :
  link_addr x -> room (x + 8) -> C !! (x + 8) = None -> x ∉ M ++ R ->
  Q tt C (x :: M) R ->
  wpl (wmem_block_push_master x) C M R Q.
Proof.
  intros Hla Hro HCx Hx HQ P N HL. unfold wmem_block_push_master.
  destruct (lists_nodup _ _ _ _ HL) as (Hnd & _ & _).
  assert (HxR : x ∉ R) by set_solver. assert (HxM : x ∉ M) by set_solver.
  assert (H0 : x <> 0) by (destruct Hla; lia).
  apply (wp_new_links _ x); [done..|]. intros u v.
  pose proof (stack_push _ _ x _ Hnd HxM (l_stack _ _ _ _ HL)) as Hs.
  assert (HL' : lists (set_top M x (<[x := NULL]> (<[x := u]> P))) (<[x := hd 0 M]> (<[x := v]> N)) (x :: M) R).
  { eapply lists_change_stack; [done| |by apply NoDup_cons| | |].
    - rewrite !insert_insert_eq. exact Hs.
    - pose proof (l_null _ _ _ _ HL). destruct (lists_nodup _ _ _ _ HL) as (_ & _ & Hmr).
      intros y [->|Hy]%elem_of_cons; [done|]. split; [by apply Hmr|]. set_solver.
    - intros y Hy Hy'. assert (x <> y) by set_solver. rewrite set_top_ne by done. by lk.
    - set_solver. }
  wgo. destruct M as [|y M]; cbn [hd].
  - change (0 =? NULL) with true. cbn [negb]. wgo. by eapply (wpl_done _ _ _ _ [x]).
  - assert (Hy0 : y <> 0) by (pose proof (l_null _ _ _ _ HL); set_solver).
    rewrite (proj2 (Z.eqb_neq y NULL)) by done. cbn [negb].
    destruct (lists_links _ _ _ _ y HL) as [[py Epy] _]; [set_solver|].
    assert (x <> y) by set_solver. wgo. by eapply (wpl_done _ _ _ _ (x :: y :: M)).
Qed.

Lemma wpl_pop C x M R Q :
  Q tt C M R -> wpl wmem_block_pop_master C (x :: M) R Q.
Proof.
  intros HQ P N HL. unfold wmem_block_pop_master. cbn [hd].
  destruct (lists_nodup _ _ _ _ HL) as (Hnd & _ & Hmr).
  pose proof (stack_pop _ _ _ _ Hnd (l_stack _ _ _ _ HL)) as Hs.
  pose proof (l_stack _ _ _ _ HL) as (E1 & E2 & _)%stack_cons.
  apply NoDup_cons in Hnd as [Hx Hnd].
  assert (HL' : lists (delete x (set_top M 0 P)) (delete x N) M R).
  { eapply lists_change_stack; [done| |done| | |].
    - eapply stack_frame; [done|]. intros i Hi. rewrite !lookup_delete_ne by congruence. done.
    - intros y Hy. split; [apply Hmr; by right|]. pose proof (l_null _ _ _ _ HL). set_solver.
    - intros y Hy Hy'. assert (x <> y) by set_solver. rewrite !lookup_delete_ne by done.
      by rewrite set_top_ne.
    - intros y [->|Hy]%elem_of_cons Hy'; [|done]. by rewrite !lookup_delete_eq. }
  wgo. destruct M as [|y M]; cbn [hd].
  - change (0 =? NULL) with true. cbn [negb]. apply (wp_drop_links _ x). wgo. by eapply wpl_done.
  - assert (Hy0 : y <> 0) by (pose proof (l_null _ _ _ _ HL); set_solver).
    rewrite (proj2 (Z.eqb_neq y NULL)) by done. cbn [negb].
    destruct (lists_links _ _ _ _ y HL) as [[py Epy] _]; [set_solver|].
    assert (Hxy : x <> y) by set_solver. apply (wp_drop_links _ x).
    eapply wp_set_free_prev; [by rewrite lookup_delete_ne|].
    eapply (wpl_done _ _ _ _ (y :: M)); [|done..|done]. cbn [vP vN]. by rewrite <- delete_insert_ne.
Qed.

(** The replacement of the head of the master stack, as
    [wmem_block_split_free_chunk] and [wmem_block_merge_free] write it. *)
Lemma lists_replace_top P N x e M R u v :
  lists P N (x :: M) R -> e ∉ x :: M ++ R -> e <> 0 ->
  lists (delete x (set_top M e (<[e := 0]> (<[e := u]> P))))
        (delete x (<[e := hd 0 M]> (<[e := v]> N))) (e :: M) R.
Proof.
  intros HL He He0. destruct (lists_nodup _ _ _ _ HL) as (Hnd & _ & Hmr).
  assert (HeM : e ∉ x :: M) by set_solver.
  pose proof (stack_replace _ _ _ _ _ Hnd HeM (l_stack _ _ _ _ HL)) as Hs.
  apply NoDup_cons in Hnd as [Hx Hnd]. assert (Hex : e <> x) by set_solver.
  eapply lists_change_stack; [done| |apply NoDup_cons; set_solver| | |].
  - rewrite !insert_insert_eq. eapply stack_frame; [exact Hs|]. intros i Hi.
    assert (x <> i) by set_solver. by rewrite !lookup_delete_ne.
  - intros y [->|Hy]%elem_of_cons; [set_solver|]. split; [apply Hmr; by right|].
    pose proof (l_null _ _ _ _ HL). set_solver.
  - intros y Hy Hy'. assert (x <> y /\ e <> y) by set_solver. dd. rewrite !lookup_delete_ne by done.
    rewrite set_top_ne by set_solver. by lk.
  - intros y [->|Hy]%elem_of_cons Hy'; [by rewrite !lookup_delete_eq|set_solver].
Qed.

(** An element of the ring replaced. *)
Lemma lists_replace_ring P N M R P' N' l1 l2 x e :
  lists P N M R -> R = l1 ++ x :: l2 -> e ∉ M ++ R -> e <> 0 ->
  ring N' P' (l1 ++ e :: l2) -> N' !! x = None -> P' !! x = None ->
  (forall y, y ∉ R -> y <> e -> N' !! y = N !! y /\ P' !! y = P !! y) ->
  lists P' N' M (l1 ++ e :: l2).
Proof.
  intros HL -> He He0 Hr E1 E2 Ho. destruct (lists_nodup _ _ _ _ HL) as (Hnd & Hnr & Hmr).
  assert (HeR : e ∉ l1 ++ x :: l2) by set_solver.
  rewrite <- (Permutation_middle l1 l2 x) in Hnr. apply NoDup_cons in Hnr as [Hx Hnr].
  eapply lists_change; [done|done| | | |].
  - rewrite <- (Permutation_middle l1 l2 e). apply NoDup_cons. split; [|done]. set_solver.
  - intros y Hy. destruct (decide (y = e)) as [->|Hye]; [set_solver|].
    assert (y ∈ l1 ++ x :: l2) by set_solver. split; [intros Hm; by apply (Hmr y)|].
    pose proof (l_null _ _ _ _ HL). set_solver.
  - intros y Hy Hy'. apply Ho; [done|]. set_solver.
  - intros y Hy Hy'. assert (y = x) as -> by set_solver. done.
Qed.

Lemma wpl_move_master C c e M R Q :
  link_addr e -> room (e + 8) -> C !! (e + 8) = None -> e ∉ c :: M ++ R ->
  Q tt C (e :: M) R ->
  wpl (wbind (free_prev c) (fun p => wbind (set_free_prev e p) (fun _ =>
       wbind (free_next c) (fun n => wbind (set_free_next e n) (fun _ =>
       wbind (free_next c) (fun next =>
       wbind (if negb (next =? NULL) then set_free_prev next e else wret tt) (fun _ =>
       set_master e)))))))
    C (c :: M) R Q.
Proof.
  intros Hla Hro HC He HQ P N HL. cbn [hd].
  pose proof (l_stack _ _ _ _ HL) as (E1 & E2 & _)%stack_cons.
  assert (He0 : e <> 0) by (destruct Hla; lia).
  assert (Hec : e <> c) by set_solver.
  apply (wp_new_links _ e); [done..|]. intros u v.
  pose proof (lists_replace_top _ _ _ _ _ _ u v HL He He0) as HL'.
  wgo. destruct M as [|y M]; cbn [hd].
  - change (0 =? NULL) with true. cbn [negb]. w1. apply (wp_drop_links _ c). wgo.
    by eapply (wpl_done _ _ _ _ [e]).
  - assert (Hy0 : y <> 0) by (pose proof (l_null _ _ _ _ HL); set_solver).
    rewrite (proj2 (Z.eqb_neq y NULL)) by done. cbn [negb].
    destruct (lists_links _ _ _ _ y HL) as [[py Epy] _]; [set_solver|].
    assert (e <> y) by set_solver. w1. apply (wp_drop_links _ c). wgo.
    by eapply (wpl_done _ _ _ _ (e :: y :: M)).
Qed.

Lemma wpl_swap_master C c e M R Q :
  link_addr e -> room (e + 8) -> C !! (e + 8) = None -> e ∉ c :: M ++ R ->
  Q tt C (e :: M) R ->
  wpl (wbind (set_free_prev e NULL) (fun _ => wbind (free_next c) (fun next =>
       wbind (set_free_next e next) (fun _ => wbind (set_master e) (fun _ =>
       wbind (free_next e) (fun next =>
       if negb (next =? NULL) then set_free_prev next e else wret tt))))))
    C (c :: M) R Q.
Proof.
  intros Hla Hro HC He HQ P N HL. cbn [hd].
  pose proof (l_stack _ _ _ _ HL) as (E1 & E2 & _)%stack_cons.
  assert (He0 : e <> 0) by (destruct Hla; lia).
  assert (Hec : e <> c) by set_solver.
  apply (wp_new_links _ e); [done..|]. intros u v.
  pose proof (lists_replace_top _ _ _ _ _ _ u v HL He He0) as HL'.
  wgo. destruct M as [|y M]; cbn [hd].
  - change (0 =? NULL) with true. cbn [negb]. apply (wp_drop_links _ c). wgo.
    by eapply (wpl_done _ _ _ _ [e]).
  - assert (Hy0 : y <> 0) by (pose proof (l_null _ _ _ _ HL); set_solver).
    rewrite (proj2 (Z.eqb_neq y NULL)) by done. cbn [negb].
    destruct (lists_links _ _ _ _ y HL) as [[py Epy] _]; [set_solver|].
    assert (e <> y) by set_solver. assert (c <> y).
    { destruct (lists_nodup _ _ _ _ HL) as ([Hc _]%NoDup_cons & _). set_solver. }
    apply (wp_drop_links _ c).
    eapply wp_set_free_prev; [by rewrite lookup_delete_ne by done; lk|].
    eapply (wpl_done _ _ _ _ (e :: y :: M)); [|done..|done].
    cbn [vP vN set_top] in *. by rewrite delete_insert_ne in HL' by done.
Qed.

Lemma wpl_move_ring C c e M R Q :
  c ∈ R -> link_addr e -> room (e + 8) -> C !! (e + 8) = None -> e ∉ M ++ R ->
  (forall l1 l2, R = l1 ++ c :: l2 -> Q tt C M (l1 ++ e :: l2)) ->
  wpl (wbind (free_prev c) (fun p => wbind (
         if p =? c then wbind (set_free_prev e e) (fun _ => set_free_next e e)
         else
           wbind (free_prev c) (fun p => wbind (set_free_prev e p) (fun _ =>
           wbind (free_next c) (fun n => wbind (set_free_next e n) (fun _ =>
           wbind (free_prev c) (fun p => wbind (set_free_next p e) (fun _ =>
           wbind (free_next c) (fun n => set_free_prev n e))))))))
       (fun _ => wbind get_recycler (fun r => if r =? c then set_recycler e else wret tt))))
    C M R Q.
Proof.
  intros Hx Hla Hro HC He HQ P N HL. apply list_elem_of_split in Hx as (l1 & l2 & ER).
  specialize (HQ _ _ ER). pose proof (l_ring _ _ _ _ HL) as Hr. rewrite ER in Hr.
  apply ring_rotate in Hr. simpl in Hr.
  assert (He0 : e <> 0) by (destruct Hla; lia).
  assert (HeR : e ∉ R) by set_solver.
  assert (Hec : e <> c) by (intros ->; apply HeR; rewrite ER; set_solver).
  destruct (lists_nodup _ _ _ _ HL) as (_ & Hnd & _).
  assert (Hp : R ≡ₚ c :: l2 ++ l1).
  { rewrite ER, <- Permutation_middle, (Permutation_app_comm l1). done. }
  rewrite Hp in Hnd.
  assert (Hhd : hd 0 (l1 ++ e :: l2) = if hd 0 R =? c then e else hd 0 R).
  { rewrite ER. destruct l1 as [|a l1]; simpl; [by rewrite Z.eqb_refl|].
    rewrite (proj2 (Z.eqb_neq a c)); [done|]. apply NoDup_cons in Hnd as [Hn _]. set_solver. }
  apply (wp_new_links _ e); [done..|]. intros u v.
  destruct (ring_ends _ _ _ _ Hr) as (l & z & El & Ez & _ & En).
  assert (Hfin : forall P' N',
    lists (delete c P') (delete c N') M (l1 ++ e :: l2) ->
    wp (if hd 0 R =? c then set_recycler e else wret tt)
      (mkView C P' N' (hd 0 M) (hd 0 R)) (fun a g =>
       exists M' R', lists (vP g) (vN g) M' R' /\ v_master g = hd 0 M' /\
         v_recycler g = hd 0 R' /\ Q a (vC g) M' R')).
  { intros P' N' HL'. apply (wp_drop_links _ c). wgo.
    destruct (hd 0 R =? c); wgo; by eapply (wpl_done _ _ _ _ _ (l1 ++ e :: l2)). }
  do 2 w1. destruct (l2 ++ l1) as [|y T] eqn:E21.
  - apply app_eq_nil in E21 as [-> ->]. cbn [hd] in *. destruct l as [|? []]; simplify_eq/=.
    rewrite Z.eqb_refl. w1. wgo. apply Hfin.
    eapply (lists_replace_ring _ _ _ _ _ _ [] []); [done|done|done|done| |by rewrite lookup_delete_eq..|].
    + unfold ring. cbn. rewrite !lookup_delete_ne by congruence. by lk.
    + intros y Hy Hye. assert (z <> y) by set_solver. rewrite !lookup_delete_ne by done. by lk.
  - cbn [hd] in *.
    assert (Hzx : z ∈ y :: T) by exact (ring_last_in _ _ _ [] _ _ _ Hr Ez).
    pose proof Hnd as Hnd'. apply NoDup_cons in Hnd' as [Hxn _].
    assert (c <> y /\ c <> z) as [Hcy Hcz] by set_solver.
    assert (e <> y /\ e <> z) as [Hey Hez] by (rewrite Hp in HeR; set_solver).
    assert (He3 : e ∉ c :: y :: T) by (by rewrite Hp in HeR).
    pose proof (ring_replace _ _ _ _ _ _ e Hnd He3 Hr Ez) as Hr2.
    rewrite <- E21 in Hr2. apply (ring_rotate _ _ (e :: l2) l1) in Hr2.
    destruct (lists_links _ _ _ _ z HL) as [_ [nz Enz]]; [rewrite Hp; set_solver|].
    destruct (lists_links _ _ _ _ y HL) as [[py Epy] _]; [rewrite Hp; set_solver|].
    rewrite (proj2 (Z.eqb_neq z c)) by congruence. w1. wgo. apply Hfin.
    eapply lists_replace_ring; [done|done|done|done| |by rewrite lookup_delete_eq..|].
    + eapply ring_frame; [exact Hr2|]. intros i Hi.
      assert (c <> i).
      { intros <-. apply Hxn. rewrite <- E21. set_solver. }
      rewrite !lookup_delete_ne by done. rewrite !lookup_insert. repeat case_decide; subst; split; congruence.
    + intros i Hi Hie. rewrite Hp in Hi. assert (c <> i /\ z <> i /\ y <> i) by set_solver. dd.
      rewrite !lookup_delete_ne by done. by lk.
Qed.

(** *** Header operations on the second layer *)

Lemma wpl_bind {A B} (c : W A) (k : A -> W B) C M R Q :
  wpl c C M R (fun a C' M' R' => wpl (k a) C' M' R' Q) -> wpl (wbind c k) C M R Q.
Proof.
  intros Hc P N HL. apply wp_bind. eapply wp_mono; [by apply Hc|].
  intros a [C' P' N' m' r'] (M' & R' & HL' & Hm & Hr & Hk). cbn in *. subst. by apply Hk.
Qed.

Lemma wpl_ret {A} (a : A) C M R (Q : A -> gmap Z hdr -> list Z -> list Z -> Prop) :
  Q a C M R -> wpl (wret a) C M R Q.
Proof. intros HQ P N HL. apply wp_ret. by eapply wpl_done. Qed.

Lemma wpl_get_master C M R Q : Q (hd 0 M) C M R -> wpl get_master C M R Q.
Proof. intros HQ P N HL. apply wp_get_master. by eapply wpl_done. Qed.
Lemma wpl_get_recycler C M R Q : Q (hd 0 R) C M R -> wpl get_recycler C M R Q.
Proof. intros HQ P N HL. apply wp_get_recycler. by eapply wpl_done. Qed.

Lemma wpl_drop_hdr {A} (c : W A) a C M R Q : wpl c (delete a C) M R Q -> wpl c C M R Q.
Proof. intros Hc P N HL. apply (wp_drop_hdr _ a). by apply Hc. Qed.

Lemma wpl_new_hdr {A} (c : W A) b a C M R Q :
  hdr_addr a -> room a -> (a - 8) ∉ M ++ R ->
  (forall pv f, 0 <= len f < 2 ^ 29 -> wpl c (<[a := mkHdr pv f b]> C) M R Q) ->
  wpl c C M R Q.
Proof.
  intros Ha Hro Hn Hc P N HL. apply (wp_new_hdr _ b a); [done|done|..].
  - apply eq_None_not_Some. intros Hs. apply Hn, (l_dom _ _ _ _ HL). by left.
  - apply eq_None_not_Some. intros Hs. apply Hn, (l_dom _ _ _ _ HL). by right.
  - intros pv f Hf. by apply Hc.
Qed.

Lemma wpl_mono {A} (c : W A) C M R (Q Q' : A -> gmap Z hdr -> list Z -> list Z -> Prop) :
  wpl c C M R Q -> (forall a C' M' R', Q a C' M' R' -> Q' a C' M' R') -> wpl c C M R Q'.
Proof.
  intros Hc HQ P N HL. eapply wp_mono; [by apply Hc|].
  intros a g (M' & R' & HL' & Hm & Hr & Hk). exists M', R'. auto.
Qed.

Section Lift.
Context (a : Z) (k : hdr) (C : gmap Z hdr) (M R : list Z) (E : C !! a = Some k).

Lemma wpl_chunk_len Q : Q (k_len k) C M R -> wpl (chunk_len a) C M R Q.
Proof. intros HQ P N HL. eapply wp_chunk_len; [done|]. by eapply wpl_done. Qed.
Lemma wpl_chunk_last Q : Q (k_last k) C M R -> wpl (chunk_last a) C M R Q.
Proof. intros HQ P N HL. eapply wp_chunk_last; [done|]. by eapply wpl_done. Qed.
Lemma wpl_chunk_used Q : Q (k_used k) C M R -> wpl (chunk_used a) C M R Q.
Proof. intros HQ P N HL. eapply wp_chunk_used; [done|]. by eapply wpl_done. Qed.
Lemma wpl_chunk_jumbo Q : Q (jumbo (k_flags k)) C M R -> wpl (chunk_jumbo a) C M R Q.
Proof. intros HQ P N HL. eapply wp_flag; [done|]. by eapply wpl_done. Qed.
Lemma wpl_data_len Q : 8 <= k_len k < 536870912 ->
  Q (k_len k - 8) C M R -> wpl (WMEM_CHUNK_DATA_LEN a) C M R Q.
Proof. intros Hl HQ P N HL. eapply wp_data_len; [done..|]. by eapply wpl_done. Qed.
Lemma wpl_chunk_next Q : 0 <= a + k_len k < 4294967296 ->
  Q (if k_last k then NULL else a + k_len k) C M R -> wpl (WMEM_CHUNK_NEXT a) C M R Q.
Proof. intros Hl HQ P N HL. eapply wp_chunk_next; [done..|]. by eapply wpl_done. Qed.
Lemma wpl_chunk_before Q : 0 <= a - k_prev k < 4294967296 ->
  Q (if k_prev k =? 0 then NULL else a - k_prev k) C M R -> wpl (WMEM_CHUNK_PREV a) C M R Q.
Proof. intros Hl HQ P N HL. eapply wp_chunk_before; [done..|]. by eapply wpl_done. Qed.

Lemma wpl_set_prev v Q :
  Q tt (<[a := put_prev k v]> C) M R -> wpl (set_prev a v) C M R Q.
Proof. intros HQ P N HL. eapply wp_set_prev; [done..|]. by eapply wpl_done. Qed.
Lemma wpl_set_len v Q : 0 <= v < 536870912 ->
  Q tt (<[a := put_len k v]> C) M R -> wpl (set_len a v) C M R Q.
Proof. intros Hl HQ P N HL. eapply wp_set_len; [done..|]. by eapply wpl_done. Qed.
Lemma wpl_set_last v Q : 0 <= k_len k < 536870912 ->
  Q tt (<[a := put_last k v]> C) M R -> wpl (set_last a v) C M R Q.
Proof. intros Hl HQ P N HL. eapply wp_set_last; [done..|]. by eapply wpl_done. Qed.
Lemma wpl_set_used v Q : 0 <= k_len k < 536870912 ->
  Q tt (<[a := put_used k v]> C) M R -> wpl (set_used a v) C M R Q.
Proof. intros Hl HQ P N HL. eapply wp_set_used; [done..|]. by eapply wpl_done. Qed.
Lemma wpl_set_jumbo v Q : 0 <= k_len k < 536870912 ->
  Q tt (<[a := put_jumbo k v]> C) M R -> wpl (set_jumbo a v) C M R Q.
Proof. intros Hl HQ P N HL. eapply wp_set_jumbo; [done..|]. by eapply wpl_done. Qed.
End Lift.

End Logic.

(** ** Symbolic execution on the second layer *)

Ltac nx :=
  lazymatch goal with
  | |- wpl _ _ _ _ (wbind _ _) _ _ _ _ => apply wpl_bind
  | |- wpl _ _ _ _ (wret _) _ _ _ _ => apply wpl_ret
  | |- wpl _ _ _ _ get_master _ _ _ _ => apply wpl_get_master
  | |- wpl _ _ _ _ get_recycler _ _ _ _ => apply wpl_get_recycler
  | |- wpl _ _ _ _ (chunk_len _) _ _ _ _ => eapply wpl_chunk_len; [find|]
  | |- wpl _ _ _ _ (chunk_last _) _ _ _ _ => eapply wpl_chunk_last; [find|]
  | |- wpl _ _ _ _ (chunk_used _) _ _ _ _ => eapply wpl_chunk_used; [find|]
  | |- wpl _ _ _ _ (chunk_jumbo _) _ _ _ _ => eapply wpl_chunk_jumbo; [find|]
  | |- wpl _ _ _ _ (WMEM_CHUNK_DATA_LEN _) _ _ _ _ => eapply wpl_data_len; [find|kl|]
  | |- wpl _ _ _ _ (WMEM_CHUNK_NEXT _) _ _ _ _ => eapply wpl_chunk_next; [find|kl|]
  | |- wpl _ _ _ _ (WMEM_CHUNK_PREV _) _ _ _ _ => eapply wpl_chunk_before; [find|kl|]
  | |- wpl _ _ _ _ (set_prev _ _) _ _ _ _ => eapply wpl_set_prev; [find|]
  | |- wpl _ _ _ _ (set_len _ _) _ _ _ _ => eapply wpl_set_len; [find|kl|]
  | |- wpl _ _ _ _ (set_last _ _) _ _ _ _ => eapply wpl_set_last; [find|kl|]
  | |- wpl _ _ _ _ (set_used _ _) _ _ _ _ => eapply wpl_set_used; [find|kl|]
  | |- wpl _ _ _ _ (set_jumbo _ _) _ _ _ _ => eapply wpl_set_jumbo; [find|kl|]
  end; cbn beta iota
with find := first [eassumption | by repeat first [rewrite lookup_insert_eq | rewrite lookup_insert_ne by (congruence || lia)]]
with kl := unfold put_len, put_last, put_used, put_jumbo, put_prev, put_flags, k_len in *; cbn in *; lia.
Ltac run := cbn beta iota; repeat nx.
