(* ===== verification/WMemChunks.v ===== *)
(** * The chunks of a block and the operations that cut and join them

    The chunks tile their blocks: [geo] says that each one lies inside its
    block, that the lengths and the previous lengths lead from chunk to chunk,
    and that chunks do not overlap.  [wmem_block_split_free_chunk],
    [wmem_block_split_used_chunk] and [wmem_block_merge_free] are verified
    against the two abstract steps [splits] and [merges]. *)

From S2P Require Import Prelude WMem WMemLogic.

(** Chunk [c], of header [k], cut after [n] bytes. *)
Definition cut_left (k : hdr) (n : Z) : hdr :=
  mkHdr (k_prev k) (mkFlags false (k_used k) (jumbo (k_flags k)) n) (k_blk k).
Definition cut_right (k : hdr) (n : Z) : hdr :=
  mkHdr n (mkFlags (k_last k) false false (k_len k - n)) (k_blk k).
Definition splits (C : gmap Z hdr) (c : Z) (k : hdr) (n : Z) (C' : gmap Z hdr) : Prop :=
  forall a, C' !! a =
    if decide (a = c) then Some (cut_left k n)
    else if decide (a = c + n) then Some (cut_right k n)
    else if decide (a = c + k_len k /\ k_last k = false)
      then (fun t => put_prev t (k_len k - n)) <$> C !! a
    else C !! a.

(** Chunk [c] joined with the chunk [t] after it. *)
Definition join (k t : hdr) : hdr :=
  mkHdr (k_prev k) (mkFlags (k_last t) (k_used k) (jumbo (k_flags k)) (k_len k + k_len t)) (k_blk k).
Definition merges (C : gmap Z hdr) (c : Z) (k t : hdr) (C' : gmap Z hdr) : Prop :=
  forall a, C' !! a =
    if decide (a = c) then Some (join k t)
    else if decide (a = c + k_len k) then None
    else if decide (a = c + k_len k + k_len t /\ k_last t = false)
      then (fun u => put_prev u (k_len k + k_len t)) <$> C !! a
    else C !! a.

Lemma cut_left_len k n : k_len (cut_left k n) = n.
Proof. done. Qed.
Lemma cut_right_len k n : k_len (cut_right k n) = k_len k - n.
Proof. done. Qed.
Lemma join_len k t : k_len (join k t) = k_len k + k_len t.
Proof. done. Qed.

(** Two headers that differ in the previous length at most. *)
Definition like (x y : hdr) : Prop := k_flags x = k_flags y /\ k_blk x = k_blk y.
Lemma like_fields x y : like x y ->
  k_len x = k_len y /\ k_last x = k_last y /\ k_used x = k_used y /\ k_blk x = k_blk y /\
  jumbo (k_flags x) = jumbo (k_flags y).
Proof. intros [E1 E2]. unfold k_len, k_last, k_used. by rewrite E1. Qed.

(** The headers of a split map: the two halves, and those of the old map, of
    which only the one after the chunk has another previous length. *)
Lemma splits_cases C c k n C' a x : splits C c k n C' -> C' !! a = Some x ->
  (a = c /\ x = cut_left k n) \/ (a = c + n /\ x = cut_right k n) \/
  (a <> c /\ a <> c + n /\ exists y, C !! a = Some y /\ like x y /\
    (a = c + k_len k /\ k_last k = false /\ k_prev x = k_len k - n \/
     ~ (a = c + k_len k /\ k_last k = false) /\ k_prev x = k_prev y)).
Proof.
  intros HS. rewrite HS. repeat case_decide; intros Ex; simplify_eq; auto; right; right.
  - apply fmap_Some in Ex as (y & Ey & ->). split; [done|]. split; [done|]. exists y.
    split; [done|]. split; [done|]. left. tauto.
  - split; [done|]. split; [done|]. exists x. split; [done|]. split; [done|]. right. tauto.
Qed.

Lemma splits_old C c k n C' a y : splits C c k n C' -> C !! a = Some y -> a <> c -> a <> c + n ->
  exists x, C' !! a = Some x /\ like x y.
Proof.
  intros HS Ey H1 H2. rewrite HS. repeat case_decide; try done; rewrite Ey; simpl; eexists; done.
Qed.

Ltac fields H := apply like_fields in H as (? & ? & ? & ? & ?).

Lemma merges_cases C c k t C' a x : merges C c k t C' -> C' !! a = Some x ->
  (a = c /\ x = join k t) \/
  (a <> c /\ a <> c + k_len k /\ exists y, C !! a = Some y /\ like x y /\
    (a = c + k_len k + k_len t /\ k_last t = false /\ k_prev x = k_len k + k_len t \/
     ~ (a = c + k_len k + k_len t /\ k_last t = false) /\ k_prev x = k_prev y)).
Proof.
  intros HS. rewrite HS. repeat case_decide; intros Ex; simplify_eq; auto; right.
  - apply fmap_Some in Ex as (y & Ey & ->). split; [done|]. split; [done|]. exists y.
    split; [done|]. split; [done|]. left. tauto.
  - split; [done|]. split; [done|]. exists x. split; [done|]. split; [done|]. right. tauto.
Qed.

Lemma merges_old C c k t C' a y : merges C c k t C' -> C !! a = Some y -> a <> c -> a <> c + k_len k ->
  exists x, C' !! a = Some x /\ like x y.
Proof.
  intros HS Ey H1 H2. rewrite HS. repeat case_decide; try done; rewrite Ey; simpl; eexists; done.
Qed.

(** The used chunks, with their lengths. *)
Definition used_at (C : gmap Z hdr) (a n : Z) : Prop :=
  exists x, C !! a = Some x /\ k_used x = true /\ k_len x = n.

Lemma merge_used C c k t C' a n :
  C !! c = Some k -> k_used k = false -> C !! (c + k_len k) = Some t -> k_used t = false ->
  merges C c k t C' -> used_at C' a n <-> used_at C a n.
Proof.
  intros Ek Hu Et Hut HM. split; intros (x & Ex & Hx & Hl).
  - destruct (merges_cases _ _ _ _ _ _ _ HM Ex) as [[-> ->]|(H1 & H2 & y & Ey & Hy & Hp)].
    + change (k_used k = true) in Hx. congruence.
    + fields Hy. exists y. repeat (split; [congruence|]). congruence.
  - destruct (merges_old _ _ _ _ _ _ _ HM Ex) as (y & Ey & Hy); [congruence..|].
    fields Hy. exists y. repeat (split; [congruence|]). congruence.
Qed.

(** A list without one of its elements. *)
Definition without (x : Z) (l : list Z) : list Z := filter (fun y => y <> x) l.
Lemma elem_of_without x y l : y ∈ without x l <-> y ∈ l /\ y <> x.
Proof. unfold without. rewrite list_elem_of_filter. tauto. Qed.
Lemma elem_of_without_app x y l1 l2 : y ∈ without x l1 ++ without x l2 <-> y ∈ l1 ++ l2 /\ y <> x.
Proof. rewrite !elem_of_app, !elem_of_without. tauto. Qed.
Lemma tail_without x y l : y ∈ tail (without x l) -> y ∈ tail l.
Proof.
  unfold without. destruct l as [|z l]; [done|]. rewrite filter_cons. cbn [tail].
  case_decide; cbn [tail].
  - intros Hy. by apply list_elem_of_filter in Hy as [].
  - intros Hy. assert (Hy' : y ∈ filter (fun i => i <> x) l) by (destruct (filter _ l); [done|by right]).
    by apply list_elem_of_filter in Hy' as [].
Qed.
(** The map in which the chunk after [c] knows the length of [c]. *)
Definition fix_next (C : gmap Z hdr) (c : Z) (k : hdr) : gmap Z hdr :=
  if k_last k then C
  else match C !! (c + k_len k) with
       | Some u => <[c + k_len k := put_prev u (k_len k)]> C
       | None => C
       end.

Lemma lookup_fix_next C c k a : fix_next C c k !! a =
  if decide (a = c + k_len k /\ k_last k = false)
  then (fun u => put_prev u (k_len k)) <$> C !! a else C !! a.
Proof.
  unfold fix_next. destruct (k_last k); [by rewrite decide_False by naive_solver|].
  destruct (C !! (c + k_len k)) as [u|] eqn:E.
  - rewrite lookup_insert. destruct (decide (c + k_len k = a)) as [<-|Hne].
    + rewrite decide_True by done. by rewrite E.
    + by rewrite decide_False by naive_solver.
  - case_decide as Hd; [|done]. destruct Hd as [-> _]. by rewrite E.
Qed.

Lemma fix_next_right C c k t : 8 <= k_len k -> 8 <= k_len t ->
  merges C c k t (fix_next (<[c := join k t]> (delete (c + k_len k) C)) c (join k t)).
Proof.
  intros Hk Ht a. rewrite lookup_fix_next. change (k_last (join k t)) with (k_last t).
  rewrite join_len. rewrite lookup_insert, lookup_delete.
  repeat case_decide; dd; subst; try lia; try done; exfalso; lia || naive_solver lia.
Qed.

Lemma fix_next_left C p kp c kc : 8 <= k_len kp -> 8 <= k_len kc -> c = p + k_len kp ->
  merges (fix_next C c kc) p kp kc (fix_next (<[p := join kp kc]> (delete c C)) p (join kp kc)).
Proof.
  intros Hk Ht -> a. rewrite !lookup_fix_next. change (k_last (join kp kc)) with (k_last kc).
  rewrite join_len. rewrite lookup_insert, lookup_delete.
  repeat case_decide; dd; subst; try lia; try done;
    first [by destruct (C !! _) | exfalso; naive_solver lia].
Qed.

Lemma align_size n : 0 <= n <= 2147483648 ->
  n <= WMEM_ALIGN_SIZE n <= n + 7 /\ WMEM_ALIGN_SIZE n mod 8 = 0.
Proof.
  intros Hn. unfold WMEM_ALIGN_SIZE. rewrite u32_id by lia.
  assert (E : Z.land 0xFFFFFFF8 (n + 7) = 8 * ((n + 7) / 8)).
  { change 0xFFFFFFF8 with (Z.shiftl (Z.ones 29) 3). rewrite Z.land_comm.
    apply Z.bits_inj_iff. intros i. destruct (Z_lt_dec i 0); [by rewrite !Z.testbit_neg_r by lia|].
    change (8 * ((n + 7) / 8)) with (2 ^ 3 * ((n + 7) / 2 ^ 3)).
    rewrite Z.land_spec, (Z.mul_comm (2 ^ 3)), Z.mul_pow2_bits by lia.
    rewrite Z.shiftl_spec by lia. destruct (Z_lt_dec i 3).
    - rewrite !Z.testbit_neg_r with (n := i - 3) by lia. by rewrite andb_false_r.
    - rewrite Z.div_pow2_bits by lia. replace (i - 3 + 3) with i by lia.
      destruct (Z_lt_dec i 32).
      + rewrite Z.ones_spec_low by lia. apply andb_true_r.
      + rewrite Z.ones_spec_high by lia. rewrite andb_false_r. symmetry.
        rewrite Z.testbit_eqb by lia. rewrite Z.div_small; [done|].
        split; [lia|]. eapply Z.lt_le_trans with (2 ^ 32); [lia|]. apply Z.pow_le_mono_r; lia. }
  rewrite E. Z.div_mod_to_equations. lia.
Qed.

Section Chunks.
Context (blk : Z -> Prop).

Record geo (C : gmap Z hdr) : Prop := {
  g_block b : blk b -> 0 < b /\ b mod 8 = 0 /\ b + 8388608 < 4294967296;
  g_chunk a k : C !! a = Some k ->
    blk (k_blk k) /\ a mod 8 = 0 /\ k_len k mod 8 = 0 /\ 8 <= k_len k /\
    k_blk k + 8 <= a /\ a + k_len k <= k_blk k + 8388608 /\ 0 <= k_prev k;
  g_jumbo a k : C !! a = Some k -> jumbo (k_flags k) = false;
  g_first a k : C !! a = Some k -> k_prev k = 0 <-> a = k_blk k + 8;
  g_last a k : C !! a = Some k -> k_last k = true <-> a + k_len k = k_blk k + 8388608;
  g_next a k : C !! a = Some k -> k_last k = false ->
    exists k', C !! (a + k_len k) = Some k' /\ k_prev k' = k_len k /\ k_blk k' = k_blk k;
  g_prev a k : C !! a = Some k -> k_prev k <> 0 ->
    exists k', C !! (a - k_prev k) = Some k' /\ k_len k' = k_prev k /\ k_blk k' = k_blk k;
  g_disj a k a' k' : C !! a = Some k -> C !! a' = Some k' -> a < a' -> a + k_len k <= a';
  g_cover b : blk b -> exists k, C !! (b + 8) = Some k /\ k_blk k = b;
}.

Section Split.
Context (C : gmap Z hdr) (c : Z) (k : hdr) (n : Z) (C' : gmap Z hdr).
Context (G : geo C) (Ek : C !! c = Some k) (Hn8 : n mod 8 = 0) (Hn : 8 <= n) (Hnk : n + 8 <= k_len k).
Context (HS : splits C c k n C').

Lemma split_inside a x : C !! a = Some x -> (a < c /\ a + k_len x <= c) \/ a = c \/ c + k_len k <= a.
Proof using G Ek.
  intros Ea. destruct (Z.lt_trichotomy a c) as [Hl|[->|Hl]]; [|auto|].
  - left. split; [done|]. by eapply (g_disj _ G a x c k).
  - right; right. by eapply (g_disj _ G c k a x).
Qed.

Lemma split_chunk a x : C' !! a = Some x ->
    blk (k_blk x) /\ a mod 8 = 0 /\ k_len x mod 8 = 0 /\ 8 <= k_len x /\
    k_blk x + 8 <= a /\ a + k_len x <= k_blk x + 8388608 /\ 0 <= k_prev x.
Proof using All.
  intros Ex. pose proof (g_chunk _ G _ _ Ek) as (A1 & A2 & A3 & A4 & A5 & A6 & A7).
  destruct (splits_cases _ _ _ _ _ _ _ HS Ex) as [[-> ->]|[[-> ->]|(H1 & H2 & y & Ey & Hy & Hp)]].
  - rewrite cut_left_len. cbn [cut_left k_blk k_prev]. repeat (split; [done || lia|]). done.
  - rewrite cut_right_len. cbn [cut_right k_blk k_prev].
    repeat (split; [done || lia || (Z.div_mod_to_equations; lia)|]). lia.
  - pose proof (g_chunk _ G _ _ Ey) as (B1 & B2 & B3 & B4 & B5 & B6 & B7). fields Hy.
    replace (k_blk x) with (k_blk y) by done. replace (k_len x) with (k_len y) by done.
    repeat (split; [done|]). destruct Hp as [(? & ? & ->)|[? ->]]; lia.
Qed.

Lemma split_first a x : C' !! a = Some x -> k_prev x = 0 <-> a = k_blk x + 8.
Proof using All.
  intros Ex. pose proof (g_chunk _ G _ _ Ek) as (A1 & A2 & A3 & A4 & A5 & A6 & A7).
  destruct (splits_cases _ _ _ _ _ _ _ HS Ex) as [[-> ->]|[[-> ->]|(H1 & H2 & y & Ey & Hy & Hp)]].
  - exact (g_first _ G _ _ Ek).
  - cbn. lia.
  - fields Hy. destruct Hp as [(-> & Hl & ->)|[? ->]].
    + destruct (g_next _ G _ _ Ek Hl) as (y' & Ey' & _ & Eb). simplify_eq. lia.
    + rewrite (g_first _ G _ _ Ey). by replace (k_blk x) with (k_blk y) by done.
Qed.

Lemma split_last a x : C' !! a = Some x -> k_last x = true <-> a + k_len x = k_blk x + 8388608.
Proof using All.
  intros Ex. pose proof (g_chunk _ G _ _ Ek) as (A1 & A2 & A3 & A4 & A5 & A6 & A7).
  destruct (splits_cases _ _ _ _ _ _ _ HS Ex) as [[-> ->]|[[-> ->]|(H1 & H2 & y & Ey & Hy & Hp)]].
  - rewrite cut_left_len. cbn [cut_left k_blk]. split; [done|lia].
  - rewrite cut_right_len. replace (c + n + (k_len k - n)) with (c + k_len k) by lia.
    exact (g_last _ G _ _ Ek).
  - pose proof (g_last _ G _ _ Ey) as Hl. fields Hy. congruence.
Qed.

Lemma split_next a x : C' !! a = Some x -> k_last x = false ->
    exists x', C' !! (a + k_len x) = Some x' /\ k_prev x' = k_len x /\ k_blk x' = k_blk x.
Proof using All.
  intros Ex Hl. pose proof (g_chunk _ G _ _ Ek) as (A1 & A2 & A3 & A4 & A5 & A6 & A7).
  destruct (splits_cases _ _ _ _ _ _ _ HS Ex) as [[-> ->]|[[-> ->]|(H1 & H2 & y & Ey & Hy & Hp)]].
  - exists (cut_right k n). rewrite cut_left_len, HS.
    rewrite decide_False by lia. by rewrite decide_True by lia.
  - cbn in Hl. destruct (g_next _ G _ _ Ek Hl) as (t & Et & Ep & Eb).
    exists (put_prev t (k_len k - n)). rewrite cut_right_len, HS.
    replace (c + n + (k_len k - n)) with (c + k_len k) by lia.
    rewrite decide_False by lia. rewrite decide_False by lia. rewrite decide_True by done.
    by rewrite Et.
  - pose proof (split_inside _ _ Ey) as Hin. fields Hy.
    destruct (g_next _ G a y Ey) as (t & Et & Ep & Eb); [congruence|].
    pose proof (split_inside _ _ Et) as Hin'.
    pose proof (g_chunk _ G _ _ Ey) as (B1 & B2 & B3 & B4 & _).
    replace (k_len x) with (k_len y) by done. replace (k_blk x) with (k_blk y) by done.
    destruct (decide (a + k_len y = c)) as [Hc|Hc].
    + rewrite Hc in *. simplify_eq. exists (cut_left k n). rewrite HS, decide_True by done. done.
    + exists t. rewrite HS. rewrite decide_False by done. rewrite decide_False by lia.
      rewrite decide_False by lia. done.
Qed.

Lemma split_prev a x : C' !! a = Some x -> k_prev x <> 0 ->
    exists x', C' !! (a - k_prev x) = Some x' /\ k_len x' = k_prev x /\ k_blk x' = k_blk x.
Proof using All.
  intros Ex Hp0. pose proof (g_chunk _ G _ _ Ek) as (A1 & A2 & A3 & A4 & A5 & A6 & A7).
  destruct (splits_cases _ _ _ _ _ _ _ HS Ex) as [[-> ->]|[[-> ->]|(H1 & H2 & y & Ey & Hy & Hp)]].
  - cbn in *. destruct (g_prev _ G _ _ Ek Hp0) as (t & Et & El & Eb).
    destruct (splits_old _ _ _ _ _ _ _ HS Et) as (x' & Ex' & Hx'); [lia..|].
    exists x'. fields Hx'. repeat (split; [congruence|]). congruence.
  - exists (cut_left k n). cbn. replace (c + n - n) with c by lia. rewrite HS, decide_True by done. done.
  - pose proof (split_inside _ _ Ey) as Hin. fields Hy.
    destruct Hp as [(-> & Hl & Ep)|[Hnot Ep]]; rewrite Ep in *.
    + exists (cut_right k n). replace (c + k_len k - (k_len k - n)) with (c + n) by lia.
      rewrite HS, decide_False by lia. rewrite decide_True by done.
      destruct (g_next _ G _ _ Ek Hl) as (y' & Ey' & _ & Eb). simplify_eq. split; [done|]. split; [done|].
      cbn. congruence.
    + destruct (g_prev _ G _ _ Ey Hp0) as (t & Et & El & Eb).
      pose proof (split_inside _ _ Et) as Hin'.
      pose proof (g_chunk _ G _ _ Ey) as (B1 & B2 & B3 & B4 & B5 & B6 & B7).
      destruct (splits_old _ _ _ _ _ _ _ HS Et) as (x' & Ex' & Hx').
      * intros Hc. rewrite Hc in Et. simplify_eq. apply Hnot. split; [lia|].
        destruct (k_last k) eqn:Hl; [|done]. apply (g_last _ G _ _ Ek) in Hl. lia.
      * lia.
      * exists x'. fields Hx'. repeat (split; [congruence|]). congruence.
Qed.

Lemma split_disj a x a' x' : C' !! a = Some x -> C' !! a' = Some x' -> a < a' -> a + k_len x <= a'.
Proof using All.
  intros Ex Ex' Hlt. pose proof (g_chunk _ G _ _ Ek) as (A1 & A2 & A3 & A4 & A5 & A6 & A7).
  assert (Hold : forall b y, C' !! b = Some y -> b <> c -> b <> c + n ->
            exists z, C !! b = Some z /\ k_len y = k_len z).
  { intros b y Ey H1 H2.
    destruct (splits_cases _ _ _ _ _ _ _ HS Ey) as [[-> _]|[[-> _]|(_ & _ & z & Ez & Hz & _)]]; [done..|].
    exists z. fields Hz. done. }
  assert (Hnew : forall b y, C' !! b = Some y -> b = c \/ b = c + n ->
            (b = c -> k_len y = n) /\ (b = c + n -> k_len y = k_len k - n)).
  { intros b y Ey Hb. rewrite HS in Ey. repeat case_decide; simplify_eq; split; intros; try lia; done. }
  destruct (decide (a = c \/ a = c + n)) as [Ha|Ha];
    destruct (decide (a' = c \/ a' = c + n)) as [Ha'|Ha'].
  - pose proof (Hnew _ _ Ex Ha). lia.
  - destruct (Hold _ _ Ex') as (z & Ez & _); [tauto..|]. pose proof (split_inside _ _ Ez).
    pose proof (Hnew _ _ Ex Ha). lia.
  - destruct (Hold _ _ Ex) as (z & Ez & ->); [tauto..|]. pose proof (split_inside _ _ Ez).
    pose proof (Hnew _ _ Ex' Ha'). lia.
  - destruct (Hold _ _ Ex) as (z & Ez & ->); [tauto..|].
    destruct (Hold _ _ Ex') as (z' & Ez' & _); [tauto..|]. by eapply (g_disj _ G).
Qed.

Lemma split_cover b : blk b -> exists x, C' !! (b + 8) = Some x /\ k_blk x = b.
Proof using All.
  intros Hb. destruct (g_cover _ G b Hb) as (y & Ey & Eb).
  destruct (decide (b + 8 = c)) as [Hc|Hc].
  - exists (cut_left k n). rewrite HS, decide_True by done. split; [done|]. rewrite Hc in *. by simplify_eq.
  - pose proof (split_inside _ _ Ey). destruct (splits_old _ _ _ _ _ _ _ HS Ey) as (x & Ex & Hx); [lia..|].
    exists x. fields Hx. split; [done|congruence].
Qed.

Lemma geo_split : geo C'.
Proof using All.
  split; [exact (g_block _ G)|exact split_chunk| |exact split_first|exact split_last
         |exact split_next|exact split_prev|exact split_disj|exact split_cover].
  intros a x Ex. pose proof (g_jumbo _ G _ _ Ek).
  destruct (splits_cases _ _ _ _ _ _ _ HS Ex) as [[-> ->]|[[-> ->]|(H1 & H2 & y & Ey & Hy & Hp)]]; [done..|].
  fields Hy. pose proof (g_jumbo _ G _ _ Ey). congruence.
Qed.
End Split.

Section Merge.
Context (C : gmap Z hdr) (c : Z) (k t : hdr) (C' : gmap Z hdr).
Context (G : geo C) (Ek : C !! c = Some k) (Hk : k_last k = false) (Et : C !! (c + k_len k) = Some t).
Context (HM : merges C c k t C').

Lemma merge_next : k_prev t = k_len k /\ k_blk t = k_blk k.
Proof using All.
  destruct (g_next _ G _ _ Ek Hk) as (t' & Et' & Ep & Eb). by simplify_eq.
Qed.

Lemma merge_inside a x : C !! a = Some x ->
  (a < c /\ a + k_len x <= c) \/ a = c \/ a = c + k_len k \/ c + k_len k + k_len t <= a.
Proof using G Ek Et.
  intros Ea. pose proof (g_chunk _ G _ _ Ek) as (_ & _ & _ & A4 & _).
  destruct (split_inside _ _ _ G Ek _ _ Ea) as [|[]]; [auto..|].
  destruct (split_inside _ _ _ G Et _ _ Ea) as [|[]]; [lia|auto|auto].
Qed.

Lemma merge_chunk a x : C' !! a = Some x ->
    blk (k_blk x) /\ a mod 8 = 0 /\ k_len x mod 8 = 0 /\ 8 <= k_len x /\
    k_blk x + 8 <= a /\ a + k_len x <= k_blk x + 8388608 /\ 0 <= k_prev x.
Proof using All.
  intros Ex. pose proof (g_chunk _ G _ _ Ek) as (A1 & A2 & A3 & A4 & A5 & A6 & A7).
  pose proof (g_chunk _ G _ _ Et) as (B1 & B2 & B3 & B4 & B5 & B6 & B7). destruct merge_next as [Ep Eb].
  destruct (merges_cases _ _ _ _ _ _ _ HM Ex) as [[-> ->]|(H1 & H2 & y & Ey & Hy & Hp)].
  - rewrite join_len. cbn [join k_blk k_prev].
    repeat (split; [done || lia || (Z.div_mod_to_equations; lia)|]). done.
  - pose proof (g_chunk _ G _ _ Ey) as (D1 & D2 & D3 & D4 & D5 & D6 & D7). fields Hy.
    replace (k_blk x) with (k_blk y) by done. replace (k_len x) with (k_len y) by done.
    repeat (split; [done|]). destruct Hp as [(? & ? & ->)|[? ->]]; lia.
Qed.

Lemma merge_first a x : C' !! a = Some x -> k_prev x = 0 <-> a = k_blk x + 8.
Proof using All.
  intros Ex. pose proof (g_chunk _ G _ _ Ek) as (A1 & A2 & A3 & A4 & A5 & A6 & A7).
  pose proof (g_chunk _ G _ _ Et) as (B1 & B2 & B3 & B4 & _). destruct merge_next as [Ep Eb].
  destruct (merges_cases _ _ _ _ _ _ _ HM Ex) as [[-> ->]|(H1 & H2 & y & Ey & Hy & Hp)].
  - exact (g_first _ G _ _ Ek).
  - fields Hy. destruct Hp as [(-> & Hl & ->)|[? ->]].
    + destruct (g_next _ G _ _ Et Hl) as (y' & Ey' & _ & Eb'). simplify_eq. lia.
    + rewrite (g_first _ G _ _ Ey). by replace (k_blk x) with (k_blk y) by done.
Qed.

Lemma merge_last a x : C' !! a = Some x -> k_last x = true <-> a + k_len x = k_blk x + 8388608.
Proof using All.
  intros Ex. destruct merge_next as [Ep Eb].
  destruct (merges_cases _ _ _ _ _ _ _ HM Ex) as [[-> ->]|(H1 & H2 & y & Ey & Hy & Hp)].
  - rewrite join_len. pose proof (g_last _ G _ _ Et) as Hl. rewrite Eb in Hl.
    rewrite Z.add_assoc. exact Hl.
  - pose proof (g_last _ G _ _ Ey) as Hl. fields Hy. congruence.
Qed.

Lemma merge_next_ok a x : C' !! a = Some x -> k_last x = false ->
    exists x', C' !! (a + k_len x) = Some x' /\ k_prev x' = k_len x /\ k_blk x' = k_blk x.
Proof using All.
  intros Ex Hl. pose proof (g_chunk _ G _ _ Ek) as (A1 & A2 & A3 & A4 & A5 & A6 & A7).
  pose proof (g_chunk _ G _ _ Et) as (B1 & B2 & B3 & B4 & _). destruct merge_next as [Ep Eb].
  destruct (merges_cases _ _ _ _ _ _ _ HM Ex) as [[-> ->]|(H1 & H2 & y & Ey & Hy & Hp)].
  - change (k_last t = false) in Hl. destruct (g_next _ G _ _ Et Hl) as (u & Eu & Epu & Ebu).
    exists (put_prev u (k_len k + k_len t)). rewrite join_len, HM, Z.add_assoc.
    rewrite decide_False by lia. rewrite decide_False by lia. rewrite decide_True by done.
    rewrite Eu. split; [done|]. split; [done|]. cbn. congruence.
  - pose proof (merge_inside _ _ Ey) as Hin. fields Hy.
    destruct (g_next _ G a y Ey) as (u & Eu & Epu & Ebu); [congruence|].
    pose proof (merge_inside _ _ Eu) as Hin'.
    pose proof (g_chunk _ G _ _ Ey) as (_ & _ & _ & D4 & _).
    replace (k_len x) with (k_len y) by done. replace (k_blk x) with (k_blk y) by done.
    destruct (decide (a + k_len y = c)) as [Hc|Hc].
    + rewrite Hc in *. simplify_eq. exists (join k t). rewrite HM, decide_True by done. done.
    + exists u. rewrite HM. rewrite decide_False by done. rewrite decide_False by lia.
      rewrite decide_False by lia. done.
Qed.

Lemma merge_prev a x : C' !! a = Some x -> k_prev x <> 0 ->
    exists x', C' !! (a - k_prev x) = Some x' /\ k_len x' = k_prev x /\ k_blk x' = k_blk x.
Proof using All.
  intros Ex Hp0. pose proof (g_chunk _ G _ _ Ek) as (A1 & A2 & A3 & A4 & A5 & A6 & A7).
  pose proof (g_chunk _ G _ _ Et) as (B1 & B2 & B3 & B4 & B5 & B6 & _). destruct merge_next as [Ep Eb].
  destruct (merges_cases _ _ _ _ _ _ _ HM Ex) as [[-> ->]|(H1 & H2 & y & Ey & Hy & Hp)].
  - cbn in *. destruct (g_prev _ G _ _ Ek Hp0) as (u & Eu & El & Ebu).
    destruct (merges_old _ _ _ _ _ _ _ HM Eu) as (x' & Ex' & Hx'); [lia..|].
    exists x'. fields Hx'. repeat (split; [congruence|]). congruence.
  - pose proof (merge_inside _ _ Ey) as Hin. fields Hy.
    destruct Hp as [(-> & Hl & Epx)|[Hnot Epx]]; rewrite Epx in *.
    + exists (join k t). replace (c + k_len k + k_len t - (k_len k + k_len t)) with c by lia.
      rewrite HM, decide_True by done.
      destruct (g_next _ G _ _ Et Hl) as (y' & Ey' & _ & Eb'). simplify_eq. split; [done|]. split; [done|].
      cbn. congruence.
    + destruct (g_prev _ G _ _ Ey Hp0) as (u & Eu & El & Ebu).
      pose proof (merge_inside _ _ Eu) as Hin'.
      pose proof (g_chunk _ G _ _ Ey) as (_ & _ & _ & D4 & D5 & D6 & D7).
      destruct (merges_old _ _ _ _ _ _ _ HM Eu) as (x' & Ex' & Hx').
      * intros Hc. assert (u = k) as -> by (rewrite Hc in Eu; congruence). lia.
      * intros Hc. assert (u = t) as -> by (rewrite Hc in Eu; congruence). apply Hnot. split; [lia|].
        destruct (k_last t) eqn:Hl; [|done]. apply (g_last _ G _ _ Et) in Hl. lia.
      * exists x'. fields Hx'. repeat (split; [congruence|]). congruence.
Qed.

Lemma merge_disj a x a' x' : C' !! a = Some x -> C' !! a' = Some x' -> a < a' -> a + k_len x <= a'.
Proof using All.
  intros Ex Ex' Hlt. pose proof (g_chunk _ G _ _ Ek) as (_ & _ & _ & A4 & _).
  pose proof (g_chunk _ G _ _ Et) as (_ & _ & _ & B4 & _).
  destruct (merges_cases _ _ _ _ _ _ _ HM Ex) as [[-> ->]|(H1 & H2 & y & Ey & Hy & _)];
    destruct (merges_cases _ _ _ _ _ _ _ HM Ex') as [[-> ->]|(H1' & H2' & y' & Ey' & _)].
  - lia.
  - rewrite join_len. pose proof (merge_inside _ _ Ey'). lia.
  - fields Hy. pose proof (merge_inside _ _ Ey). lia.
  - fields Hy. replace (k_len x) with (k_len y) by done. by eapply (g_disj _ G).
Qed.

Lemma merge_cover b : blk b -> exists x, C' !! (b + 8) = Some x /\ k_blk x = b.
Proof using All.
  intros Hb. destruct (g_cover _ G b Hb) as (y & Ey & Eb).
  destruct (decide (b + 8 = c)) as [Hc|Hc].
  - exists (join k t). rewrite HM, decide_True by done. split; [done|]. rewrite Hc in *. by simplify_eq.
  - destruct (merges_old _ _ _ _ _ _ _ HM Ey) as (x & Ex & Hx); [lia| |].
    + intros Hr. rewrite Hr in Ey. simplify_eq. pose proof (g_first _ G _ _ Et).
      pose proof (g_chunk _ G _ _ Ek). pose proof merge_next. lia.
    + exists x. fields Hx. split; [done|congruence].
Qed.

Lemma geo_merge : geo C'.
Proof using All.
  split; [exact (g_block _ G)|exact merge_chunk| |exact merge_first|exact merge_last
         |exact merge_next_ok|exact merge_prev|exact merge_disj|exact merge_cover].
  intros a x Ex. pose proof (g_jumbo _ G _ _ Ek).
  destruct (merges_cases _ _ _ _ _ _ _ HM Ex) as [[-> ->]|(H1 & H2 & y & Ey & Hy & Hp)]; [done..|].
  fields Hy. pose proof (g_jumbo _ G _ _ Ey). congruence.
Qed.
End Merge.

(** ** The invariant of the allocator *)

(** [D] are the words that must not change, [e] is the one chunk (if any)
    that is being worked on: it is free but in no list. *)
Record inv (D : gmap Z Z) (e : Z) (C : gmap Z hdr) (M R : list Z) : Prop := {
  i_geo : geo C;
  i_free w a k : is_Some (D !! w) -> C !! a = Some k ->
    (w < a \/ a + 8 <= w) /\ (k_used k = false -> w < a \/ a + k_len k <= w);
  i_listed x : x ∈ M ++ R -> exists k, C !! x = Some k /\ k_used k = false /\ 16 <= k_len k;
  i_all a k : C !! a = Some k -> k_used k = false -> 16 <= k_len k -> a <> e -> a ∈ M ++ R;
  i_notin : e ∉ M ++ R;
  i_master x k : x ∈ M -> C !! x = Some k -> k_last k = true;
  i_tail x k : x ∈ tail M -> C !! x = Some k -> k_prev k = 0;
  i_coal a k k' : C !! a = Some k -> k_last k = false -> C !! (a + k_len k) = Some k' ->
    k_used k = false -> k_used k' = false -> a = e \/ a + k_len k = e;
}.

Lemma inv_pos D e C M R a k : inv D e C M R -> C !! a = Some k ->
  0 < a /\ a mod 8 = 0 /\ k_len k mod 8 = 0 /\ 8 <= k_len k <= 8388600 /\
  a + k_len k < 4294967296 /\ 0 <= k_prev k /\ hdr_addr a.
Proof.
  intros HI Ek. pose proof (i_geo _ _ _ _ _ HI) as G.
  destruct (g_chunk _ G _ _ Ek) as (A1 & A2 & A3 & A4 & A5 & A6 & A7).
  destruct (g_block _ G _ A1) as (B1 & B2 & B3). unfold hdr_addr. repeat split; try done; lia.
Qed.

(** A chunk removed from the lists to be worked on. *)
Lemma inv_take D C M R M' R' c :
  inv D 0 C M R -> is_Some (C !! c) -> c ∉ M' ++ R' ->
  (forall x, x ∈ M ++ R -> x <> c -> x ∈ M' ++ R') -> (forall x, x ∈ M' ++ R' -> x ∈ M ++ R) ->
  (forall x, x ∈ M' -> x ∈ M) -> (forall x, x ∈ tail M' -> x ∈ tail M) ->
  inv D c C M' R'.
Proof.
  intros HI Hc Hn H1 H2 H3 H4. pose proof HI as [I1 I2 I3 I4 I5 I6 I7 I8]. split; auto.
  - intros a k Ek Hu Hl Hne. apply H1; [|done]. apply (I4 _ _ Ek); [done..|].
    pose proof (inv_pos _ _ _ _ _ _ _ HI Ek). lia.
  - intros x k Hx. apply I6. auto.
  - intros x k Hx. apply I7. auto.
  - intros a k k' Ek Hl Ek' Hu Hu'. pose proof (inv_pos _ _ _ _ _ _ _ HI Ek).
    destruct (I8 _ _ _ Ek Hl Ek' Hu Hu'); lia.
Qed.

(** A free chunk split, its right part in the place it had in the lists. *)
Lemma inv_split D C M R M' R' c k n C' :
  inv D 0 C M R -> C !! c = Some k -> k_used k = false ->
  n mod 8 = 0 -> 8 <= n -> n + 16 <= k_len k -> splits C c k n C' ->
  (forall x, x ∈ M' ++ R' <-> x = c + n \/ (x ∈ M ++ R /\ x <> c)) ->
  (M' = M /\ c ∉ M \/ exists M0, M = c :: M0 /\ M' = (c + n) :: M0) ->
  inv D c C' M' R'.
Proof.
  intros HI Ek Hu Hn8 Hn Hnk HS Hmem HM. pose proof HI as [G I2 I3 I4 I5 I6 I7 I8].
  pose proof (inv_pos _ _ _ _ _ _ _ HI Ek) as (A1 & A2 & A3 & A4 & A5 & A6 & _).
  assert (Hnk' : n + 8 <= k_len k) by lia.
  assert (Hin : forall x y, C !! x = Some y -> x <> c -> x <> c + n /\ x <> 0).
  { intros x y Ey Hne. pose proof (inv_pos _ _ _ _ _ _ _ HI Ey).
    pose proof (split_inside _ _ _ G Ek _ _ Ey). lia. }
  split.
  - exact (geo_split C c k n C' G Ek Hn8 Hn Hnk' HS).
  - intros w a x Hw Ex. pose proof (I2 _ _ _ Hw Ek) as [W1 W2]. specialize (W2 Hu).
    destruct (splits_cases _ _ _ _ _ _ _ HS Ex) as [[-> ->]|[[-> ->]|(H1 & H2 & y & Ey & Hy & Hp)]].
    + rewrite cut_left_len. lia.
    + rewrite cut_right_len. lia.
    + destruct (I2 _ _ _ Hw Ey) as [V1 V2]. fields Hy. split; [done|]. intros Hx.
      replace (k_len x) with (k_len y) by done. apply V2. congruence.
  - intros x [->|[Hx Hne]]%Hmem.
    + exists (cut_right k n). rewrite HS, decide_False by lia. rewrite decide_True by done.
      split; [done|]. split; [done|]. rewrite cut_right_len. lia.
    + destruct (I3 x Hx) as (y & Ey & Hy & Hl). destruct (Hin _ _ Ey Hne).
      destruct (splits_old _ _ _ _ _ _ _ HS Ey) as (x' & Ex' & Hx'); [done..|].
      exists x'. fields Hx'. repeat (split; [congruence|]). lia.
  - intros a x Ex Hux Hlx Hne. apply Hmem.
    destruct (splits_cases _ _ _ _ _ _ _ HS Ex) as [[-> ->]|[[-> ->]|(H1 & H2 & y & Ey & Hy & Hp)]];
      [done|by left|]. right. split; [|done]. fields Hy. destruct (Hin _ _ Ey H1).
    apply (I4 _ _ Ey); [congruence|lia|done].
  - intros [|[_ ?]]%Hmem; [lia|done].
  - intros x y Hx Ey. destruct HM as [[-> HM]|(M0 & -> & ->)].
    + destruct (splits_cases _ _ _ _ _ _ _ HS Ey) as [[-> ->]|[[-> ->]|(H1 & H2 & z & Ez & Hz & Hp)]];
        [done| |fields Hz; pose proof (I6 _ _ Hx Ez); congruence].
      destruct (I3 (c + n)) as (z & Ez & _); [set_solver|]. destruct (Hin _ _ Ez); lia.
    + assert (Hlk : k_last k = true) by (apply (I6 c); [by left|done]).
      destruct (splits_cases _ _ _ _ _ _ _ HS Ey) as [[-> ->]|[[-> ->]|(H1 & H2 & z & Ez & Hz & Hp)]].
      * apply elem_of_cons in Hx as [|Hx]; [lia|]. exfalso.
        assert (Hc : c ∈ (c + n :: M0) ++ R') by set_solver. apply Hmem in Hc as [|[_ ?]]; [lia|done].
      * done.
      * apply elem_of_cons in Hx as [|Hx]; [done|]. fields Hz.
        assert (k_last z = true) by (apply (I6 x); [by right|done]). congruence.
  - intros x y Hx Ey.
    assert (Hxt : x ∈ tail M) by (destruct HM as [[-> _]|(M0 & -> & ->)]; done).
    assert (HxM : x ∈ M ++ R) by (destruct M; [by apply elem_of_nil in Hxt|set_solver]).
    assert (Hxc : x ∈ M' ++ R') by (destruct M'; [by apply elem_of_nil in Hx|set_solver]).
    destruct (splits_cases _ _ _ _ _ _ _ HS Ey) as [[-> ->]|[[-> ->]|(H1 & H2 & z & Ez & Hz & Hp)]].
    + apply Hmem in Hxc as [|[_ ?]]; [lia|done].
    + destruct (I3 _ HxM) as (z & Ez & _). destruct (Hin _ _ Ez); lia.
    + pose proof (I7 _ _ Hxt Ez). destruct Hp as [(-> & Hl & _)|[_ ->]]; [|done].
      destruct (g_next _ G _ _ Ek Hl) as (z' & Ez' & Epz & _). simplify_eq. lia.
  - intros a x x' Ex Hl Ex' Hux Hux'.
    destruct (decide (a = c)) as [|Hac]; [by left|]. destruct (decide (a + k_len x = c)) as [|Hac']; [by right|].
    exfalso.
    destruct (splits_cases _ _ _ _ _ _ _ HS Ex) as [[-> ->]|[[-> ->]|(H1 & H2 & y & Ey & Hy & Hp)]]; [done| |].
    + rewrite cut_right_len in Ex'. replace (c + n + (k_len k - n)) with (c + k_len k) in Ex' by lia.
      destruct (splits_cases _ _ _ _ _ _ _ HS Ex') as [[? ->]|[[? ->]|(_ & _ & z & Ez & Hz & _)]]; [lia..|].
      fields Hz. destruct (I8 _ _ _ Ek Hl Ez Hu); [congruence|lia..].
    + fields Hy. pose proof (inv_pos _ _ _ _ _ _ _ HI Ey).
      replace (k_len x) with (k_len y) in * by done.
      destruct (splits_cases _ _ _ _ _ _ _ HS Ex') as [[? _]|[[Hc _]|(_ & _ & z & Ez & Hz & _)]]; [done| |].
      * pose proof (split_inside _ _ _ G Ek _ _ Ey). lia.
      * fields Hz. destruct (I8 a y z); [done|congruence|done|congruence|congruence|lia|lia].
Qed.

(** A free chunk joined with the free chunk after it; the lists hold neither. *)
Lemma inv_merge D e C M R M' R' c k t C' :
  inv D e C M R -> C !! c = Some k -> k_used k = false -> k_last k = false ->
  C !! (c + k_len k) = Some t -> k_used t = false -> merges C c k t C' ->
  e = c \/ e = c + k_len k ->
  (forall x, x ∈ M' ++ R' <-> x ∈ M ++ R /\ x <> c /\ x <> c + k_len k) ->
  (forall x, x ∈ M' -> x ∈ M) -> (forall x, x ∈ tail M' -> x ∈ tail M) ->
  inv D c C' M' R'.
Proof.
  intros HI Ek Hu Hk Et Hut HM He Hmem HM1 HM2. pose proof HI as [G I2 I3 I4 I5 I6 I7 I8].
  pose proof (inv_pos _ _ _ _ _ _ _ HI Ek) as (A1 & A2 & A3 & A4 & A5 & A6 & _).
  pose proof (inv_pos _ _ _ _ _ _ _ HI Et) as (B1 & B2 & B3 & B4 & B5 & B6 & _).
  assert (Old : forall x, x ∈ M' ++ R' -> exists y z, C !! x = Some y /\ C' !! x = Some z /\ like z y /\
                  k_used y = false /\ 16 <= k_len y /\ x <> c).
  { intros x (Hx & H1 & H2)%Hmem. destruct (I3 x Hx) as (y & Ey & Hy & Hl).
    destruct (merges_old _ _ _ _ _ _ _ HM Ey) as (z & Ez & Hz); [done..|]. exists y, z. auto 10. }
  split.
  - exact (geo_merge C c k t C' G Ek Hk Et HM).
  - intros w a x Hw Ex. pose proof (I2 _ _ _ Hw Ek) as [W1 W2]. pose proof (I2 _ _ _ Hw Et) as [V1 V2].
    specialize (W2 Hu). specialize (V2 Hut).
    destruct (merges_cases _ _ _ _ _ _ _ HM Ex) as [[-> ->]|(H1 & H2 & y & Ey & Hy & Hp)].
    + rewrite join_len. lia.
    + destruct (I2 _ _ _ Hw Ey) as [U1 U2]. fields Hy. split; [done|]. intros Hx.
      replace (k_len x) with (k_len y) by done. apply U2. congruence.
  - intros x Hx. destruct (Old x Hx) as (y & z & Ey & Ez & Hz & Hy & Hl & _). exists z. fields Hz.
    repeat (split; [congruence|]). lia.
  - intros a x Ex Hux Hlx Hne.
    destruct (merges_cases _ _ _ _ _ _ _ HM Ex) as [[-> ->]|(H1 & H2 & y & Ey & Hy & Hp)]; [done|].
    fields Hy. apply Hmem. split; [|done]. apply (I4 _ _ Ey); [congruence|lia|]. destruct He; congruence.
  - intros (_ & ? & _)%Hmem. done.
  - intros x z Hx Ez. destruct (Old x) as (y & z' & Ey & Ez' & Hz & _); [apply elem_of_app; by left|].
    simplify_eq. fields Hz. pose proof (I6 _ _ (HM1 _ Hx) Ey). congruence.
  - intros x z Hx Ez. assert (Hx' : x ∈ M' ++ R') by (destruct M'; [by apply elem_of_nil in Hx|set_solver]).
    destruct (Old x Hx') as (y & z' & Ey & Ez' & Hz & _ & _ & Hxc). simplify_eq.
    pose proof (I7 _ _ (HM2 _ Hx) Ey) as Hp0.
    destruct (merges_cases _ _ _ _ _ _ _ HM Ez) as [[-> ->]|(H1 & H2 & y' & Ey' & Hy & Hp)]; [done|].
    simplify_eq. destruct Hp as [(-> & Hl & _)|[_ ->]]; [|done].
    destruct (g_next _ G _ _ Et Hl) as (z' & Ez'' & Epz & _). simplify_eq. lia.
  - intros a x x' Ex Hl Ex' Hux Hux'.
    destruct (decide (a = c)) as [|Hac]; [by left|]. destruct (decide (a + k_len x = c)) as [|Hac']; [by right|].
    exfalso.
    destruct (merges_cases _ _ _ _ _ _ _ HM Ex) as [[-> ->]|(H1 & H2 & y & Ey & Hy & Hp)]; [done|].
    fields Hy. pose proof (inv_pos _ _ _ _ _ _ _ HI Ey).
    replace (k_len x) with (k_len y) in * by done.
    destruct (merges_cases _ _ _ _ _ _ _ HM Ex') as [[? _]|(_ & Hn3 & z & Ez & Hz & _)]; [done|].
    fields Hz. destruct (I8 a y z); [done|congruence|done|congruence|congruence| |]; destruct He; congruence.
Qed.

(** Whole blocks that are not joined stay whole. *)
Definition whole (C : gmap Z hdr) (x : Z) : Prop :=
  forall y, C !! x = Some y -> k_prev y = 0 /\ k_last y = true.

Lemma merge_whole C c k t C' x :
  geo C -> C !! c = Some k -> C !! (c + k_len k) = Some t -> merges C c k t C' ->
  x <> c -> whole C x -> whole C' x.
Proof.
  intros G Ek Et HM Hne Hw y Ey.
  destruct (merges_cases _ _ _ _ _ _ _ HM Ey) as [[-> ->]|(H1 & H2 & y' & Ey' & Hy & Hp)]; [done|].
  destruct (Hw _ Ey') as [Hp0 Hl]. fields Hy. split; [|congruence].
  destruct Hp as [(-> & Hlt & _)|[_ ->]]; [|done].
  destruct (g_next _ G _ _ Et Hlt) as (z' & Ez & Epz & _). simplify_eq.
  pose proof (g_chunk _ G _ _ Et). lia.
Qed.

(** The chunk that was worked on, between used neighbours, back in a list. *)
Lemma inv_put D C M R M' R' c k :
  inv D c C M R -> C !! c = Some k -> k_used k = false ->
  (forall x, x ∈ M' ++ R' <-> x ∈ M ++ R \/ (x = c /\ 16 <= k_len k)) ->
  (forall x, x ∈ M' -> x ∈ M \/ (x = c /\ k_last k = true)) ->
  (forall x y, x ∈ tail M' -> C !! x = Some y -> k_prev y = 0) ->
  (forall t, k_last k = false -> C !! (c + k_len k) = Some t -> k_used t = true) ->
  (forall p, k_prev k <> 0 -> C !! (c - k_prev k) = Some p -> k_used p = true) ->
  inv D 0 C M' R'.
Proof.
  intros HI Ek Hu Hmem HM HT Hright Hleft. pose proof HI as [G I2 I3 I4 I5 I6 I7 I8].
  pose proof (inv_pos _ _ _ _ _ _ _ HI Ek) as Hpos.
  split; [done|done| | | | |done|].
  - intros x [Hx|[-> Hx]]%Hmem; [auto|]. exists k. auto.
  - intros a x Ex Hux Hlx _. apply Hmem. destruct (decide (a = c)) as [->|Hne].
    + right. split; [done|]. congruence.
    + left. by eapply I4.
  - intros [Hx|[Hx _]]%Hmem; [|lia]. destruct (I3 0 Hx) as (y & Ey & _).
    pose proof (inv_pos _ _ _ _ _ _ _ HI Ey). lia.
  - intros x y Hx Ey. apply HM in Hx as [Hx|[-> Hx]]; [eauto|]. congruence.
  - intros a x x' Ex Hl Ex' Hux Hux'. exfalso. destruct (I8 _ _ _ Ex Hl Ex' Hux Hux') as [->|E].
    + simplify_eq. specialize (Hright _ Hl Ex'). congruence.
    + rewrite E in Ex'. pose proof (inv_pos _ _ _ _ _ _ _ HI Ex).
      destruct (g_next _ G _ _ Ex Hl) as (z & Ez & Ep & _). rewrite E in Ez.
      assert (z = k) as -> by congruence. specialize (Hleft x). rewrite Hleft in Hux; [done|lia|]. rewrite Ep.
      by replace (c - k_len x) with a by lia.
Qed.

Lemma inv_ext D e C M R M' R' :
  inv D e C M R -> (forall x, x ∈ M' ++ R' <-> x ∈ M ++ R) ->
  (forall x, x ∈ M' -> x ∈ M) -> (forall x, x ∈ tail M' -> x ∈ tail M) -> inv D e C M' R'.
Proof.
  intros [I1 I2 I3 I4 I5 I6 I7 I8] H1 H2 H3. split; eauto.
  - intros x Hx. apply I3. by apply H1.
  - intros a k Ek Hu Hl Hne. apply H1. eauto.
  - by rewrite H1.
Qed.

Lemma inv_null D e C M R : inv D e C M R -> 0 ∉ M ++ R.
Proof.
  intros HI Hx. destruct (i_listed _ _ _ _ _ HI 0 Hx) as (y & Ey & _).
  pose proof (inv_pos _ _ _ _ _ _ _ HI Ey). lia.
Qed.

Lemma inv_without0 D e C M R : inv D e C M R -> inv D e C (without 0 M) (without 0 R).
Proof.
  intros HI. eapply inv_ext; [done|..].
  - intros x. rewrite elem_of_without_app. pose proof (inv_null _ _ _ _ _ HI). split; [tauto|].
    intros Hx. split; [done|]. congruence.
  - intros x Hx. by apply elem_of_without in Hx as [].
  - intros x. apply tail_without.
Qed.

Lemma fix_next_id C c k : geo C -> C !! c = Some k -> fix_next C c k = C.
Proof.
  intros G Ek. unfold fix_next. destruct (k_last k) eqn:Hl; [done|].
  destruct (g_next _ G _ _ Ek Hl) as (u & Eu & Ep & _). rewrite Eu. apply insert_id.
  rewrite Eu, <- Ep. by destruct u.
Qed.

(** ** Cutting a free chunk *)

Section Ops.
Context `{OsMem} (D : gmap Z Z) (mapped : Z -> Prop) (bl : Z) (o : OsState).
Hypothesis Hmap : forall b w, blk b -> b <= w < b + 8388608 -> w mod 4 = 0 -> mapped w.

#[local] Abbreviation wpl := (wpl D mapped bl o).
#[local] Abbreviation room := (room D mapped).
#[local] Abbreviation inv := (inv D).

Lemma wpl_nodup {A} (c : W A) C M R Q : (NoDup (M ++ R) -> 0 ∉ M ++ R -> wpl c C M R Q) -> wpl c C M R Q.
Proof. intros Hc P N HL. apply Hc; [apply (l_nodup _ _ _ _ HL)|apply (l_null _ _ _ _ HL)|done]. Qed.

(** Eight bytes inside a free chunk, behind its header. *)
Lemma room_inside e C M R c k a :
  inv e C M R -> C !! c = Some k -> k_used k = false -> a mod 8 = 0 ->
  c <= a -> a + 8 <= c + k_len k -> room a.
Proof using Hmap.
  intros HI Ek Hu H8 Hlo Hhi. pose proof (i_geo _ _ _ _ _ HI) as G.
  destruct (g_chunk _ G _ _ Ek) as (A1 & _ & _ & _ & A5 & A6 & _).
  assert (HD : forall w, c <= w < c + k_len k -> D !! w = None).
  { intros w Hw. apply eq_None_not_Some. intros HD.
    destruct (i_free _ _ _ _ _ HI w c k HD Ek) as [_ Hf]. specialize (Hf Hu). lia. }
  unfold WMemLogic.room. split; [|split; [|split; apply HD; lia]].
  - eapply Hmap; [done|lia|Z.div_mod_to_equations; lia].
  - eapply Hmap; [done|lia|Z.div_mod_to_equations; lia].
Qed.

(** The header of the right part of a cut chunk is written ... *)
Lemma right_header C M R c kc e b l av (K : W unit) Q :
  C !! c = Some kc -> hdr_addr e -> room e -> e <> c -> (e - 8) ∉ M ++ R ->
  0 <= av < 536870912 ->
  wpl K (<[e := mkHdr (k_len kc) (mkFlags l false false av) b]> C) M R Q ->
  wpl (wbind (set_len e av) (fun _ => wbind (set_last e l) (fun _ =>
       wbind (chunk_len c) (fun n => wbind (set_prev e n) (fun _ =>
       wbind (set_used e false) (fun _ => wbind (set_jumbo e false) (fun _ => K))))))) C M R Q.
Proof.
  intros Ec Ha Hro Hne Hn Hav HK. apply (wpl_new_hdr _ _ _ _ _ b e); [done..|]. intros pv f Hf.
  run. by rewrite !insert_insert_eq.
Qed.

(** ... and the chunk after it gets its length. *)
Lemma right_next C0 C M R c k n e Q :
  geo C0 -> C0 !! c = Some k -> e = c + n -> 8 <= n -> n + 8 <= k_len k ->
  (forall a, C !! a = if decide (a = c) then Some (cut_left k n)
             else if decide (a = c + n) then Some (cut_right k n) else C0 !! a) ->
  (forall C', splits C0 c k n C' -> Q tt C' M R) ->
  wpl (if negb (k_last k) then
         wbind (WMEM_CHUNK_NEXT e) (fun next => wbind (chunk_len e) (fun n => set_prev next n))
       else wret tt) C M R Q.
Proof.
  intros G Ek -> Hn Hnk HC HQ.
  destruct (g_chunk _ G _ _ Ek) as (A1 & A2 & A3 & A4 & A5 & A6 & A7).
  destruct (g_block _ G _ A1) as (B1 & B2 & B3).
  assert (Ee : C !! (c + n) = Some (cut_right k n)).
  { rewrite HC, decide_False by lia. by rewrite decide_True. }
  destruct (k_last k) eqn:Hl; cbn [negb].
  - apply wpl_ret, HQ. intros a. rewrite HC. repeat case_decide; try done; dd; congruence.
  - destruct (g_next _ G _ _ Ek Hl) as (t & Et & Ep & Eb).
    assert (Et' : C !! (c + k_len k) = Some t).
    { rewrite HC, !decide_False by lia. done. }
    apply wpl_bind. eapply wpl_chunk_next; [done|rewrite cut_right_len; lia|].
    rewrite cut_right_len. change (k_last (cut_right k n)) with (k_last k). rewrite Hl.
    replace (c + n + (k_len k - n)) with (c + k_len k) by lia. run.
    apply HQ. intros a. rewrite lookup_insert, HC.
    destruct (decide (c + k_len k = a)) as [<-|Hne].
    + rewrite decide_False by lia. rewrite decide_False by lia. rewrite decide_True by done. by rewrite Et.
    + repeat case_decide; try done. lia.
Qed.

Lemma split_free_spec C M R c k size Q :
  inv 0 C M R -> C !! c = Some k -> k_used k = false ->
  (c ∈ R \/ hd 0 M = c \/ k_len k < 16) ->
  0 <= size <= 16777216 ->
  (forall s C' M' R', s = WMEM_ALIGN_SIZE size + 8 -> inv c C' M' R' ->
     C' = C /\ k_len k - 8 < s + 8 \/ splits C c k s C' /\ s + 16 <= k_len k ->
     Q tt C' M' R') ->
  wpl (wmem_block_split_free_chunk c size) C M R Q.
Proof using Hmap.
  intros HI Ek Hu Hwhere Hsize HQ. apply wpl_nodup. intros Hnd H0.
  pose proof (inv_pos _ _ _ _ _ _ _ HI Ek) as (A1 & A2 & A3 & A4 & A5 & A6 & A7).
  destruct (align_size size) as [Hal Hal8]; [lia|].
  unfold wmem_block_split_free_chunk. rewrite (proj1 header_sizes).
  rewrite !u32_id by (rewrite ?u32_id; unfold SIZEOF_FREE; lia).
  remember (WMEM_ALIGN_SIZE size + 8) as s eqn:Es. unfold SIZEOF_FREE.
  assert (Hs8 : s mod 8 = 0) by (Z.div_mod_to_equations; lia).
  run. destruct (Z.ltb_spec (k_len k - 8) (s + 8)) as [Hlt|Hge].
  - (* too small to cut *)
    run. destruct (Z.eqb_spec c (hd 0 M)) as [Em|Em].
    + destruct M as [|x M]; cbn [hd] in Em; [lia|]. subst x. apply wpl_pop. apply (HQ s); [done| |by left].
      apply NoDup_cons in Hnd as [Hc _].
      eapply inv_take; [done|by eexists|done|set_solver|set_solver|set_solver|]. intros x Hx. destruct M; [done|set_solver].
    + run. destruct (Z.leb_spec 8 (k_len k - 8)) as [H8|H8].
      * assert (HcR : c ∈ R) by (destruct Hwhere as [|[|]]; [done|congruence|lia]).
        apply wpl_remove; [done|]. intros R' Hp. apply (HQ s); [done| |by left].
        assert (Hnd' : c ∉ M ++ R').
        { rewrite Hp, <- Permutation_middle in Hnd. by apply NoDup_cons in Hnd as []. }
        eapply inv_take; [done|by eexists|done| | |done|done].
        -- intros x. rewrite Hp. set_solver.
        -- intros x. rewrite Hp. set_solver.
      * apply wpl_ret. apply (HQ s); [done| |by left].
        eapply inv_take; [done|by eexists| |done|done|done|done].
        intros Hx. destruct (i_listed _ _ _ _ _ HI c Hx) as (k' & Ek' & _ & Hl). simplify_eq. lia.
  - assert (Hin : forall x y, C !! x = Some y -> x <= c \/ c + k_len k <= x).
    { intros x y Ey. pose proof (split_inside _ _ _ (i_geo _ _ _ _ _ HI) Ek _ _ Ey). lia. }
    assert (Hmem : forall x, c < x -> x < c + k_len k -> x ∉ M ++ R).
    { intros x H1 H2 Hx. destruct (i_listed _ _ _ _ _ HI x Hx) as (y & Ey & _). specialize (Hin _ _ Ey). lia. }
    assert (Hl : link_addr (c + s)) by (unfold link_addr; Z.div_mod_to_equations; lia).
    assert (Hr : forall a, a mod 8 = 0 -> c <= a -> a + 8 <= c + k_len k -> room a).
    { intros. by eapply room_inside. }
    assert (Hin8 : forall y, C !! y = None -> y <> c ->
      <[c := put_last (put_len k s) false]> (<[c := put_len k s]> C) !! y = None).
    { intros y Hy Hne. by rewrite !lookup_insert_ne by done. }
    assert (HNone : forall y, c < y -> y < c + k_len k -> C !! y = None).
    { intros y H1 H2. apply eq_None_not_Some. intros [z Hz]. specialize (Hin _ _ Hz). lia. }
    run. cbn [k_last k_len put_last put_len put_flags k_flags last len].
    rewrite (u32_id (k_len k - s)) by lia.
    (* the rest, once the links have moved *)
    assert (Hrest : forall M' R',
      (forall x, x ∈ M' ++ R' <-> x = c + s \/ (x ∈ M ++ R /\ x <> c)) ->
      (M' = M /\ c ∉ M \/ exists M0, M = c :: M0 /\ M' = (c + s) :: M0) ->
      wpl (wbind (set_len (c + s) (k_len k - s)) (fun _ =>
           wbind (set_last (c + s) (k_last k)) (fun _ =>
           wbind (chunk_len c) (fun n => wbind (set_prev (c + s) n) (fun _ =>
           wbind (set_used (c + s) false) (fun _ => wbind (set_jumbo (c + s) false) (fun _ =>
           if negb (k_last k) then
             wbind (WMEM_CHUNK_NEXT (c + s)) (fun next => wbind (chunk_len (c + s)) (fun n => set_prev next n))
           else wret tt)))))))
        (<[c := put_last (put_len k s) false]> (<[c := put_len k s]> C)) M' R' Q).
    { intros M' R' Hm HM. eapply right_header; [by lk| | | | | |].
      - unfold hdr_addr, link_addr in *. lia.
      - apply Hr; [Z.div_mod_to_equations; lia|lia..].
      - lia.
      - intros [|[Hx Hne]]%Hm; [lia|]. destruct (Z.eqb_spec s 8); [lia|].
        apply (Hmem (c + s - 8)); [lia..|done].
      - lia.
      - eapply (right_next C); [exact (i_geo _ _ _ _ _ HI)|done|done|lia|lia| |].
        + intros a. rewrite !lookup_insert. repeat case_decide; subst; try lia; try done.
        + intros C' HS. apply (HQ s); [done| |right; split; [done|lia]].
          exact (inv_split D C M R M' R' c k s C' HI Ek Hu Hs8 ltac:(lia) ltac:(lia) HS Hm HM). }
    assert (HE8 : <[c := put_last (put_len k s) false]> (<[c := put_len k s]> C) !! (c + s + 8) = None).
    { apply Hin8; [apply HNone; lia|lia]. }
    assert (HeM : c + s ∉ M ++ R) by (apply Hmem; lia).
    destruct (Z.eqb_spec (hd 0 M) c) as [Em|Em].
    + destruct M as [|x M]; cbn [hd] in Em; [lia|]. subst x. apply NoDup_cons in Hnd as [Hc _].
      apply wpl_move_master; [done|apply Hr; [Z.div_mod_to_equations; lia|lia..]|done|set_solver|].
      apply Hrest; [|right; by exists M]. intros x. cbn [app]. rewrite !elem_of_cons.
      split; [intros [|Hx]; [by left|right]|intros [|[[->|Hx] Hne]]; auto; done].
      split; [by right|]. intros ->. done.
    + assert (HcR : c ∈ R) by (destruct Hwhere as [|[|]]; [done|congruence|lia]).
      apply wpl_move_ring; [done|done|apply Hr; [Z.div_mod_to_equations; lia|lia..]|done|done|].
      intros l1 l2 ER. assert (Hc : c ∉ M ++ l1 ++ l2).
      { rewrite ER, <- (Permutation_middle l1), <- (Permutation_middle M) in Hnd.
        by apply NoDup_cons in Hnd as []. }
      apply Hrest; [|left; split; [done|set_solver]]. intros x.
      assert (Hxc : x ∈ M \/ x ∈ l1 \/ x ∈ l2 -> x <> c) by (intros Hx ->; apply Hc; rewrite !elem_of_app; tauto).
      rewrite ER, !elem_of_app, !elem_of_cons. tauto.
Qed.

(** ** Joining free chunks *)

(** What [wmem_block_merge_free] knows of the chunk [c] it works on: [C] is
    the map up to the length the next chunk has of it, [M1] and [R1] are the
    lists without the chunks that were joined. *)
Record merging (C0 : gmap Z hdr) (M : list Z) (c : Z) (C : gmap Z hdr) (k : hdr) (M1 R1 : list Z) : Prop := {
  m_at : C !! c = Some k;
  m_free : k_used k = false;
  m_inv : inv c (fix_next C c k) M1 R1;
  m_used a n : used_at (fix_next C c k) a n <-> used_at C0 a n;
  m_right t : k_last k = false -> fix_next C c k !! (c + k_len k) = Some t -> k_used t = true;
  m_whole x : x ∈ tail M -> whole (fix_next C c k) x;
}.

Lemma merging_at C0 M c C k M1 R1 : merging C0 M c C k M1 R1 ->
  fix_next C c k !! c = Some k /\ 8 <= k_len k <= 8388600 /\ 0 < c /\ c + k_len k < 4294967296.
Proof.
  intros [E Hf HI _ _ _]. assert (E' : fix_next C c k !! c = Some k).
  { rewrite lookup_fix_next. case_decide as Hd; [|done]. exfalso. destruct Hd as [Hd _].
    assert (k_len k = 0) by lia. destruct (fix_next C c k !! c) as [k'|] eqn:E'.
    - pose proof (inv_pos _ _ _ _ _ _ _ HI E') as Hp. rewrite lookup_fix_next in E'.
      case_decide; rewrite E in E'; cbn in E'; simplify_eq; unfold k_len in *; cbn in *; lia.
    - rewrite lookup_fix_next, E in E'. by case_decide. }
  pose proof (inv_pos _ _ _ _ _ _ _ HI E'). split; [done|]. lia.
Qed.

Lemma right_part C M R c k Q :
  inv c C M R -> C !! c = Some k -> k_used k = false ->
  (forall rf C1 k1, merging C M c C1 k1 (without rf M) (without rf R) -> k_prev k1 = k_prev k ->
     rf = 0 \/ (rf ∈ M ++ R /\ c < rf /\ 24 <= k_len k1 /\ (rf ∈ M -> hd 0 M = rf /\ k_last k1 = true)) ->
     Q rf C1 M R) ->
  forall tmp, tmp = (if k_last k then NULL else c + k_len k) ->
  wpl (if tmp =? NULL then wret NULL
       else wbind (chunk_used tmp) (fun u =>
         if u then wret NULL
         else wbind (WMEM_CHUNK_DATA_LEN tmp) (fun d =>
           wbind (chunk_len c) (fun cl => wbind (chunk_len tmp) (fun tl =>
           wbind (set_len c (cl + tl)) (fun _ => wbind (chunk_last tmp) (fun l =>
           wbind (set_last c l) (fun _ => wret (if SIZEOF_FREE <=? d then tmp else NULL))))))))) C M R Q.
Proof.
  intros HI Ek Hu HQ tmp ->.
  pose proof (inv_pos _ _ _ _ _ _ _ HI Ek) as (A1 & A2 & A3 & A4 & A5 & A6 & _).
  pose proof (i_geo _ _ _ _ _ HI) as G.
  assert (Hwhole : forall x, x ∈ tail M -> whole C x).
  { intros x Hx y Ey. split; [exact (i_tail _ _ _ _ _ HI _ _ Hx Ey)|].
    apply (i_master _ _ _ _ _ HI x); [destruct M; [done|by right]|done]. }
  assert (Hnone : (forall t, k_last k = false -> C !! (c + k_len k) = Some t -> k_used t = true) ->
            Q NULL C M R).
  { intros Ht. apply (HQ _ _ k); [|done|by left].
    split; rewrite ?(fix_next_id _ _ _ G Ek); try done. by apply inv_without0. }
  destruct (k_last k) eqn:Hl.
  { change (NULL =? NULL) with true. apply wpl_ret, Hnone. done. }
  rewrite (proj2 (Z.eqb_neq (c + k_len k) NULL)) by (unfold NULL; lia).
  destruct (g_next _ G _ _ Ek Hl) as (t & Et & Ep & Eb).
  pose proof (inv_pos _ _ _ _ _ _ _ HI Et) as (B1 & B2 & B3 & B4 & B5 & B6 & _).
  assert (Hne : c <> c + k_len k) by lia.
  do 2 nx. destruct (k_used t) eqn:Hut.
  { apply wpl_ret, Hnone. intros t' _ Et'. congruence. }
  repeat (first [apply wpl_ret; fail 1|nx]).
  apply (wpl_drop_hdr _ _ _ _ _ (c + k_len k)). apply wpl_ret.
  rewrite insert_insert_eq, delete_insert_ne by done.
  change (put_last (put_len k (k_len k + k_len t)) (k_last t)) with (join k t).
  pose proof (fix_next_right C c k t ltac:(lia) ltac:(lia)) as HM.
  remember (<[c := join k t]> (delete (c + k_len k) C)) as C1 eqn:EC1.
  assert (Mg : forall rf, rf = (if SIZEOF_FREE <=? k_len t - 8 then c + k_len k else NULL) ->
            merging C M c C1 (join k t) (without rf M) (without rf R)).
  { intros rf Erf. assert (HI' : inv c (fix_next C1 c (join k t)) (without rf M) (without rf R)).
    { eapply inv_merge; [exact HI|done..|by left| | |].
      - intros x. rewrite elem_of_without_app. pose proof (i_notin _ _ _ _ _ HI).
        unfold SIZEOF_FREE in Erf. destruct (Z.leb_spec 8 (k_len t - 8)); subst rf.
        + split; [|tauto]. intros [Hx ?]. split; [done|]. split; [congruence|done].
        + split; [|intros (Hx & _); split; [done|]; intros ->; by apply (inv_null _ _ _ _ _ HI)].
          intros [Hx _]. split; [done|]. split; [congruence|].
          intros ->. destruct (i_listed _ _ _ _ _ HI _ Hx) as (t' & Et' & _ & ?). simplify_eq. lia.
      - intros x Hx. by apply elem_of_without in Hx as [].
      - intros x. apply tail_without. }
    split; [subst C1; by lk|done|done| | |].
    - intros a n. exact (merge_used C c k t _ a n Ek Hu Et Hut HM).
    - intros u Hlu Eu. destruct (k_used u) eqn:Huu; [done|]. exfalso.
      rewrite HM, join_len in Eu. rewrite decide_False in Eu by lia. rewrite decide_False in Eu by lia.
      rewrite decide_True in Eu by (split; [lia|done]). apply fmap_Some in Eu as (v & Ev & ->).
      change (k_last t = false) in Hlu. rewrite Z.add_assoc in Ev.
      destruct (i_coal _ _ _ _ _ HI _ _ _ Et Hlu Ev Hut Huu); lia.
    - intros x Hx. refine (merge_whole C c k t _ x G Ek Et HM _ (Hwhole x Hx)). intros ->.
      apply (i_notin _ _ _ _ _ HI). destruct M; [by apply elem_of_nil in Hx|]. apply elem_of_app. left. by right. }
  apply (HQ _ _ _ (Mg _ eq_refl)); [done|]. unfold SIZEOF_FREE.
  destruct (Z.leb_spec 8 (k_len t - 8)); [right|by left].
  assert (Hin : c + k_len k ∈ M ++ R) by (apply (i_all _ _ _ _ _ HI _ t); [done|done|lia|lia]).
  split; [done|]. split; [lia|]. split; [rewrite join_len; lia|]. intros HiM.
  split; [|exact (i_master _ _ _ _ _ HI _ _ HiM Et)]. destruct M as [|m M]; [by apply elem_of_nil in HiM|].
  apply elem_of_cons in HiM as [->|HiM]; [done|].
  pose proof (i_tail _ _ _ _ _ HI _ _ HiM Et). lia.
Qed.

Lemma left_part C0 C M R M1 R1 c k Q :
  merging C0 M c C k M1 R1 ->
  (forall lf ch C2 k2, merging C0 M ch C2 k2 (without lf M1) (without lf R1) ->
     (forall p, k_prev k2 <> 0 -> fix_next C2 ch k2 !! (ch - k_prev k2) = Some p -> k_used p = true) ->
     k_len k <= k_len k2 -> k_last k2 = k_last k -> ch <= c ->
     lf = 0 \/ (lf = ch /\ lf ∈ R1 /\ 16 <= k_len k2) ->
     Q (lf, ch) C2 M R) ->
  forall tmp, tmp = (if k_prev k =? 0 then NULL else c - k_prev k) ->
  wpl (if tmp =? NULL then wret (NULL, c)
       else wbind (chunk_used tmp) (fun u =>
         if u then wret (NULL, c)
         else wbind (WMEM_CHUNK_DATA_LEN tmp) (fun d =>
           wbind (chunk_len tmp) (fun tl => wbind (chunk_len c) (fun cl =>
           wbind (set_len tmp (tl + cl)) (fun _ => wbind (chunk_last c) (fun l =>
           wbind (set_last tmp l) (fun _ => wret (if SIZEOF_FREE <=? d then tmp else NULL, tmp))))))))) C M R Q.
Proof.
  intros Mg HQ tmp ->. pose proof Mg as [Ec Hu HI Hused Hright Hwhole].
  destruct (merging_at _ _ _ _ _ _ _ Mg) as (EG & Hl1 & Hc0 & Hl2).
  pose proof (i_geo _ _ _ _ _ HI) as G.
  assert (Hnone : (forall p, k_prev k <> 0 -> fix_next C c k !! (c - k_prev k) = Some p -> k_used p = true) ->
            Q (NULL, c) C M R).
  { intros Ht. apply (HQ _ _ _ k); [|done|done|done|done|by left].
    split; try done. by apply inv_without0. }
  destruct (Z.eqb_spec (k_prev k) 0) as [Hp|Hp].
  { change (NULL =? NULL) with true. apply wpl_ret, Hnone. done. }
  destruct (g_prev _ G _ _ EG Hp) as (kp & Ekp & Elp & Eb).
  pose proof (inv_pos _ _ _ _ _ _ _ HI Ekp) as (B1 & B2 & B3 & B4 & B5 & B6 & _).
  assert (Ep : C !! (c - k_prev k) = Some kp).
  { rewrite lookup_fix_next in Ekp. case_decide as Hd; [|done]. destruct Hd. lia. }
  rewrite (proj2 (Z.eqb_neq (c - k_prev k) NULL)) by (unfold NULL; lia).
  do 2 nx. destruct (k_used kp) eqn:Hup.
  { apply wpl_ret, Hnone. intros t' _ Et'. congruence. }
  assert (Hne : c - k_prev k <> c) by lia.
  repeat (first [apply wpl_ret; fail 1|nx]).
  apply (wpl_drop_hdr _ _ _ _ _ c). apply wpl_ret.
  rewrite insert_insert_eq, delete_insert_ne by done.
  change (put_last (put_len kp (k_len kp + k_len k)) (k_last k)) with (join kp k).
  remember (c - k_prev k) as p eqn:Edp. assert (Ecp : c = p + k_len kp) by lia.
  pose proof (fix_next_left C p kp c k ltac:(lia) ltac:(lia) Ecp) as HM.
  remember (<[p := join kp k]> (delete c C)) as C2 eqn:EC2.
  assert (Hlkp : k_last kp = false).
  { destruct (k_last kp) eqn:E; [|done]. apply (g_last _ G _ _ Ekp) in E.
    pose proof (g_chunk _ G _ _ EG) as (_ & _ & _ & ? & ? & ? & _). lia. }
  assert (EG' : fix_next C c k !! (p + k_len kp) = Some k) by (by rewrite <- Ecp).
  assert (Mg2 : forall lf, lf = (if SIZEOF_FREE <=? k_len kp - 8 then p else NULL) ->
            merging C0 M p C2 (join kp k) (without lf M1) (without lf R1)).
  { intros lf Elf. assert (HI' : inv p (fix_next C2 p (join kp k)) (without lf M1) (without lf R1)).
    { eapply (inv_merge _ c _ M1 R1 _ _ p kp k); [done..|by right| | |].
      - intros x. rewrite elem_of_without_app. pose proof (i_notin _ _ _ _ _ HI) as Hcn. rewrite <- Ecp.
        unfold SIZEOF_FREE in Elf. destruct (Z.leb_spec 8 (k_len kp - 8)); subst lf.
        + split; [|tauto]. intros [Hx ?]. split; [done|]. split; [done|]. congruence.
        + split; [|intros (Hx & _); split; [done|]; intros ->; by apply (inv_null _ _ _ _ _ HI)].
          intros [Hx _]. split; [done|]. split; [|congruence].
          intros ->. destruct (i_listed _ _ _ _ _ HI _ Hx) as (t' & Et' & _ & ?). simplify_eq. lia.
      - intros x Hx. by apply elem_of_without in Hx as [].
      - intros x. apply tail_without. }
    split; [subst C2; by lk|done|done| | |].
    - intros a n. rewrite <- Hused. exact (merge_used _ p kp k _ a n Ekp Hup EG' Hu HM).
    - intros u Hlu Eu. rewrite HM, join_len in Eu. rewrite decide_False in Eu by lia.
      rewrite decide_False in Eu by lia. rewrite decide_True in Eu by (split; [lia|done]).
      apply fmap_Some in Eu as (v & Ev & ->). change (k_last k = false) in Hlu.
      apply (Hright v); [done|]. by replace (c + k_len k) with (p + (k_len kp + k_len k)) by lia.
    - intros x Hx. refine (merge_whole _ p kp k _ x G Ekp EG' HM _ (Hwhole x Hx)). intros ->.
      destruct (Hwhole _ Hx _ Ekp). congruence. }
  apply (HQ _ _ _ _ (Mg2 _ eq_refl)); [|rewrite join_len; lia|done|lia|].
  - intros pp Hpp Epp. destruct (k_used pp) eqn:Huu; [done|]. exfalso.
    change (k_prev (join kp k)) with (k_prev kp) in *.
    destruct (g_prev _ G _ _ Ekp Hpp) as (kpp & Ekpp & Elpp & Ebpp).
    pose proof (inv_pos _ _ _ _ _ _ _ HI Ekpp).
    rewrite HM in Epp. rewrite decide_False in Epp by lia. rewrite decide_False in Epp by lia.
    rewrite decide_False in Epp by lia. assert (kpp = pp) as -> by congruence.
    assert (Hlpp : k_last pp = false).
    { destruct (k_last pp) eqn:E; [|done]. apply (g_last _ G _ _ Ekpp) in E.
      pose proof (g_chunk _ G _ _ Ekp) as (_ & _ & _ & ? & ? & ? & _). lia. }
    destruct (i_coal _ _ _ _ _ HI _ pp kp Ekpp Hlpp); [|done|done|lia|lia].
    by replace (p - k_prev kp + k_len pp) with p by lia.
  - unfold SIZEOF_FREE. destruct (Z.leb_spec 8 (k_len kp - 8)); [right|by left].
    assert (Hin : p ∈ M1 ++ R1) by (apply (i_all _ _ _ _ _ HI _ kp); [done|done|lia|lia]).
    split; [done|]. split; [|rewrite join_len; lia]. apply elem_of_app in Hin as [Hin|]; [|done].
    pose proof (i_master _ _ _ _ _ HI _ _ Hin Ekp). congruence.
Qed.

(** The chunk after the joined ones gets its length. *)
Lemma next_part C0 C M R M1 R1 c k Q :
  merging C0 M c C k M1 R1 -> Q tt (fix_next C c k) M R ->
  wpl (if negb (k_last k) then
         wbind (WMEM_CHUNK_NEXT c) (fun next => wbind (chunk_len c) (fun n => set_prev next n))
       else wret tt) C M R Q.
Proof.
  intros Mg HQ. destruct (merging_at _ _ _ _ _ _ _ Mg) as (EG & Hl1 & Hc0 & Hl2). pose proof (m_at _ _ _ _ _ _ _ Mg) as E.
  unfold fix_next in *. destruct (k_last k) eqn:Hl; cbn [negb]; [by apply wpl_ret|].
  destruct (C !! (c + k_len k)) as [u|] eqn:Eu.
  - apply wpl_bind. eapply wpl_chunk_next; [done|lia|]. rewrite Hl. run. done.
  - exfalso. pose proof (m_inv _ _ _ _ _ _ _ Mg) as HI. unfold fix_next in HI. rewrite Hl, Eu in HI.
    destruct (g_next _ (i_geo _ _ _ _ _ HI) _ _ EG Hl) as (t & Et & _). congruence.
Qed.

Lemma merge_free_spec C M R c k Q :
  inv c C M R -> C !! c = Some k -> k_used k = false ->
  (forall C' M' R', inv 0 C' M' R' -> (forall a n, used_at C' a n <-> used_at C a n) -> Q tt C' M' R') ->
  wpl (wmem_block_merge_free c) C M R Q.
Proof.
  intros HI Ek Hu HQ. apply wpl_nodup. intros Hnd _. 
  pose proof (inv_pos _ _ _ _ _ _ _ HI Ek) as (A1 & A2 & A3 & A4 & A5 & A6 & _).
  unfold wmem_block_merge_free. apply wpl_bind. eapply wpl_chunk_next; [done|lia|].
  apply wpl_bind. eapply right_part; [done..| |reflexivity]. intros rf C1 k1 Mg1 Hprev Hrf.
  pose proof (m_at _ _ _ _ _ _ _ Mg1) as E1.
  apply wpl_bind. eapply wpl_chunk_before; [exact E1| |].
  { rewrite Hprev. destruct (Z.eqb_spec (k_prev k) 0) as [->|Hp]; [lia|].
    destruct (g_prev _ (i_geo _ _ _ _ _ HI) _ _ Ek Hp) as (kp & Ekp & _).
    pose proof (inv_pos _ _ _ _ _ _ _ HI Ekp). lia. }
  apply wpl_bind. eapply left_part; [done| |reflexivity]. intros lf ch C2 k2 Mg2 Hleft Hlen Hlast Hch Hlf.
  cbn beta iota. pose proof (m_at _ _ _ _ _ _ _ Mg2) as E2. apply wpl_bind. eapply wpl_chunk_last; [done|].
  apply wpl_bind. eapply next_part; [done|].
  destruct (merging_at _ _ _ _ _ _ _ Mg2) as (EG & Hl1 & Hc0 & Hl2).
  destruct Mg2 as [_ Hu2 HI2 Hused2 Hright2 Hwhole].
  remember (fix_next C2 ch k2) as G eqn:EGd. clear EGd E2 Mg1 E1.
  assert (HQ' : forall M' R',
    (forall x, x ∈ M' ++ R' <-> x ∈ without lf (without rf M) ++ without lf (without rf R) \/ (x = ch /\ 16 <= k_len k2)) ->
    (forall x, x ∈ M' -> x ∈ without lf (without rf M) \/ (x = ch /\ k_last k2 = true)) ->
    (forall x y, x ∈ tail M' -> G !! x = Some y -> k_prev y = 0) ->
    Q tt G M' R').
  { intros M' R' H1 H2 H3. apply HQ; [|done].
    exact (inv_put D G _ _ M' R' ch k2 HI2 EG Hu2 H1 H2 H3 Hright2 Hleft). }
  clear HQ. run.
  assert (HW : forall x, x ∈ without lf (without rf M) ++ without lf (without rf R) <->
            x ∈ M ++ R /\ x <> rf /\ x <> lf) by (intros x; rewrite !elem_of_without_app; tauto).
  assert (HWM : forall x, x ∈ without lf (without rf M) <-> x ∈ M /\ x <> rf /\ x <> lf)
    by (intros x; rewrite !elem_of_without; tauto).
  pose proof (i_notin _ _ _ _ _ HI2) as Hchn. rewrite HW in Hchn.
  pose proof (inv_null _ _ _ _ _ HI) as Hnull.
  assert (Hmr : forall x, x ∈ M -> x ∉ R) by (apply NoDup_app in Hnd; tauto).
  assert (HlfR : lf <> 0 -> lf = ch /\ lf ∈ R /\ lf <> rf).
  { intros Hn. destruct Hlf as [|(-> & Hr & _)]; [done|]. apply elem_of_without in Hr. tauto. }
  assert (Hroom : 16 <= k_len k2 -> link_addr ch /\ room (ch + 8) /\ G !! (ch + 8) = None).
  { intros Hl. pose proof (inv_pos _ _ _ _ _ _ _ HI2 EG) as (D1 & D2 & D3 & D4 & D5 & _).
    split; [unfold link_addr; lia|]. split.
    - eapply room_inside; [exact HI2|done|done|Z.div_mod_to_equations; lia|lia|lia].
    - apply eq_None_not_Some. intros [z Hz].
      pose proof (split_inside _ _ _ (i_geo _ _ _ _ _ HI2) EG _ _ Hz). lia. }
  assert (HdomR : forall x, x ∈ R -> x <> rf -> is_Some (G !! x)).
  { intros x Hx Hne. destruct (decide (x = ch)) as [->|]; [by eexists|].
    destruct (i_listed _ _ _ _ _ HI2 x) as (y & Ey & _); [|by eexists].
    apply HW. split; [apply elem_of_app; by right|]. split; [done|]. intros ->.
    destruct (decide (lf = 0)) as [->|Hn]; [apply Hnull, elem_of_app; by right|].
    destruct (HlfR Hn); done. }
  destruct (negb (rf =? NULL) && (rf =? hd 0 M)) eqn:Hcond.
  - apply andb_true_iff in Hcond as [H1 H2]. apply Z.eqb_eq in H2. apply negb_true_iff, Z.eqb_neq in H1.
    change (rf <> 0) in H1.
    destruct Hrf as [|(Hrf & Hcrf & Hlen24 & Hlm)]; [done|]. destruct M as [|m M]; [done|]. cbn [hd] in H2. subst m.
    destruct Hlm as [_ Hlast1]; [by left|].
    assert (Hswap : forall R', (forall x, x ∈ R' <-> x ∈ R /\ x <> lf) ->
      wpl (wbind (set_free_prev ch NULL) (fun _ => wbind (free_next rf) (fun next =>
           wbind (set_free_next ch next) (fun _ => wbind (set_master ch) (fun _ =>
           wbind (free_next ch) (fun next =>
           if negb (next =? NULL) then set_free_prev next ch else wret tt)))))) G (rf :: M) R' Q).
    { intros R' HR'. destruct Hroom as (Hla & Hro & HNone); [lia|].
      apply NoDup_cons in Hnd as [Hrfn _].
      assert (HchM : ch ∉ rf :: M ++ R').
      { intros [|[Hx|Hx]%elem_of_app]%elem_of_cons; [lia| |].
        - apply Hchn. split; [apply elem_of_app; left; by right|]. split; [lia|]. intros Hc.
          destruct (HlfR ltac:(lia)) as (_ & Hr & _). apply (Hmr ch); [by right|]. by rewrite Hc.
        - apply HR' in Hx as [Hx Hne]. apply Hchn. split; [apply elem_of_app; by right|]. split; [lia|done]. }
      apply wpl_swap_master; [done..|]. apply HQ'.
      - intros x. rewrite HW. cbn [app]. rewrite ?elem_of_cons, ?elem_of_app, ?elem_of_cons, HR'.
        rewrite elem_of_app in Hrfn. assert (HlfM : x ∈ M -> x <> lf).
        { intros Hx ->. destruct (decide (lf = 0)) as [->|Hn]; [apply Hnull; apply elem_of_app; left; by right|].
          destruct (HlfR Hn) as (_ & Hr & _). apply (Hmr lf); [by right|done]. }
        assert (x ∈ M \/ x ∈ R -> x <> rf) by (intros Hx ->; tauto).
        assert (16 <= k_len k2) by lia. naive_solver.
      - intros x Hx. rewrite HWM. apply elem_of_cons in Hx as [->|Hx]; [right; split; [done|congruence]|].
        left. split; [by right|]. split; [intros ->; apply Hrfn, elem_of_app; by left|].
        intros ->. destruct (decide (lf = 0)) as [->|Hn]; [apply Hnull; apply elem_of_app; left; by right|].
        destruct (HlfR Hn) as (_ & Hr & _). apply (Hmr lf); [by right|done].
      - intros x y Hx Ey. by apply (Hwhole x Hx). }
    apply wpl_bind. destruct (Z.eqb_spec lf NULL) as [Hn|Hn]; cbn [negb].
    + apply wpl_ret. apply Hswap. intros x. split; [|tauto]. intros Hx. split; [done|]. rewrite Hn. intros ->.
      apply Hnull, elem_of_app. by right.
    + destruct (HlfR Hn) as (_ & HlR & _). apply wpl_remove; [done|]. intros R' Hp. apply Hswap.
      assert (Hn' : lf ∉ R').
      { apply NoDup_app in Hnd as (_ & _ & Hnd). rewrite Hp in Hnd. by apply NoDup_cons in Hnd as []. }
      intros x. rewrite Hp, elem_of_cons. split; [intros Hx; split; [by right|congruence]|naive_solver].
  - assert (Hrf' : rf = 0 \/ rf ∈ R).
    { destruct Hrf as [|(Hrf & _ & _ & Hlm)]; [by left|]. right. apply elem_of_app in Hrf as [HrM|]; [|done].
      destruct (Hlm HrM) as [Hhd _]. rewrite Hhd, Z.eqb_refl, andb_true_r in Hcond.
      apply negb_false_iff, Z.eqb_eq in Hcond. exfalso. apply Hnull. change (rf = 0) in Hcond. rewrite <- Hcond. apply elem_of_app. by left. }
    assert (HM2 : forall x, x ∈ M -> x <> rf /\ x <> lf).
    { intros x Hx. split; intros ->.
      - destruct Hrf' as [->|Hr]; [apply Hnull, elem_of_app; by left|by apply (Hmr rf)].
      - destruct (decide (lf = 0)) as [->|Hn]; [apply Hnull, elem_of_app; by left|].
        destruct (HlfR Hn) as (_ & Hr & _). by apply (Hmr lf). }
    assert (HR0 : forall x, x ∈ R -> x <> 0) by (intros x Hx ->; apply Hnull, elem_of_app; by right).
    assert (Hch0 : ch <> 0) by lia.
    assert (Hchrf : ch <> rf) by (destruct Hrf as [|(_ & ? & _)]; lia).
    assert (Hput : forall R', (forall x, x ∈ R' <-> (x ∈ R /\ x <> rf /\ x <> lf) \/ (x = ch /\ 16 <= k_len k2)) ->
              Q tt G M R').
    { intros R' HR'. apply HQ'.
      - intros x. rewrite HW, !elem_of_app, HR'. specialize (HM2 x). tauto.
      - intros x Hx. rewrite HWM. left. specialize (HM2 x Hx). tauto.
      - intros x y Hx Ey. by apply (Hwhole x Hx). }
    assert (Hfin : forall R', (forall x, x ∈ R' <-> x ∈ R /\ x <> rf) ->
      wpl (if lf =? NULL then wmem_block_add_to_recycler ch else wret tt) G M R' Q).
    { intros R' HR'. destruct (Z.eqb_spec lf NULL) as [->|Hn].
      - change NULL with 0 in *. assert (HchR : ch ∉ M ++ R').
        { intros Hx. apply Hchn. rewrite elem_of_app, HR' in Hx. rewrite elem_of_app. tauto. }
        eapply wpl_add; [exact EG|lia|done|done| | |].
        + intros y Hy. apply HR' in Hy as []. auto.
        + intros Hl. apply Hput. intros x. rewrite HR'. specialize (HR0 x). split; [tauto|].
          intros [|[_ ?]]; [tauto|lia].
        + intros Hl R'' Hp. apply Hput. intros x. rewrite Hp, elem_of_cons, HR'. specialize (HR0 x). tauto.
      - apply wpl_ret, Hput. intros x. rewrite HR'. destruct (HlfR Hn) as (Elf & HlR & Hne).
        destruct Hlf as [|(_ & _ & Hl)]; [done|]. rewrite <- Elf.
        destruct (decide (x = lf)) as [->|]; tauto. }
    apply wpl_bind. destruct (Z.eqb_spec rf NULL) as [Hn|Hn]; cbn [negb].
    + apply wpl_ret, Hfin. intros x. change NULL with 0 in Hn. specialize (HR0 x). rewrite Hn. tauto.
    + destruct Hrf' as [|Hr]; [done|]. apply wpl_remove; [done|]. intros R' Hp. apply Hfin.
      assert (Hn' : rf ∉ R').
      { apply NoDup_app in Hnd as (_ & _ & Hnd). rewrite Hp in Hnd. by apply NoDup_cons in Hnd as []. }
      intros x. rewrite Hp, elem_of_cons. split; [intros Hx; split; [by right|congruence]|naive_solver].
Qed.

End Ops.
End Chunks.
