(* ===== verification/WMemOps.v ===== *)
(** * The operations of the block allocator on its chunks

    [wmem_block_alloc], [wmem_block_free] and [wmem_block_realloc], as far as
    they work on the chunks of the blocks the allocator has: what becomes of
    the used chunks, and that the invariant of [WMemChunks] holds again. *)

From S2P Require Import Prelude WMem WMemLogic WMemChunks.

Section Ops.
Context (blk : Z -> Prop).

(** ** The used flag *)

(** A header with another used flag. *)
Definition same_place (x y : hdr) : Prop :=
  k_prev x = k_prev y /\ k_len x = k_len y /\ k_last x = k_last y /\ k_blk x = k_blk y /\
  jumbo (k_flags x) = jumbo (k_flags y).

Lemma geo_used C c k u : geo blk C -> C !! c = Some k -> geo blk (<[c := put_used k u]> C).
Proof.
  intros G Ek.
  assert (Fwd : forall a x, <[c := put_used k u]> C !! a = Some x -> exists y, C !! a = Some y /\ same_place x y).
  { intros a x. rewrite lookup_insert. case_decide; [|by eexists]. intros [= <-]. subst. by exists k. }
  assert (Bwd : forall a y, C !! a = Some y -> exists x, <[c := put_used k u]> C !! a = Some x /\ same_place x y).
  { intros a y Ey. rewrite lookup_insert. case_decide; [|by eexists]. subst. simplify_eq. by eexists. }
  remember (<[c := put_used k u]> C) as C' eqn:EC. clear EC.
  destruct G as [G0 G1 G2 G3 G4 G5 G6 G7 G8]. split; [done|..].
  - intros a x Ex. destruct (Fwd _ _ Ex) as (y & Ey & -> & -> & _ & -> & _). auto.
  - intros a x Ex. destruct (Fwd _ _ Ex) as (y & Ey & _ & _ & _ & _ & ->). eauto.
  - intros a x Ex. destruct (Fwd _ _ Ex) as (y & Ey & -> & _ & _ & -> & _). auto.
  - intros a x Ex. destruct (Fwd _ _ Ex) as (y & Ey & _ & -> & -> & -> & _). auto.
  - intros a x Ex. destruct (Fwd _ _ Ex) as (y & Ey & _ & -> & -> & -> & _). intros Hl.
    destruct (G5 _ _ Ey Hl) as (z & Ez & E1 & E2). destruct (Bwd _ _ Ez) as (z' & Ez' & E3 & _ & _ & E4 & _).
    exists z'. split; [done|]. split; congruence.
  - intros a x Ex. destruct (Fwd _ _ Ex) as (y & Ey & -> & _ & _ & -> & _). intros Hl.
    destruct (G6 _ _ Ey Hl) as (z & Ez & E1 & E2). destruct (Bwd _ _ Ez) as (z' & Ez' & _ & E3 & _ & E4 & _).
    exists z'. split; [done|]. split; congruence.
  - intros a x a' x' Ex Ex'. destruct (Fwd _ _ Ex) as (y & Ey & _ & -> & _).
    destruct (Fwd _ _ Ex') as (y' & Ey' & _). eauto.
  - intros b Hb. destruct (G8 b Hb) as (y & Ey & Eb). destruct (Bwd _ _ Ey) as (x & Ex & _ & _ & _ & E & _).
    exists x. split; [done|congruence].
Qed.

(** A chunk that was worked on given to the program. *)
Lemma inv_use D C M R c k :
  inv blk D c C M R -> C !! c = Some k -> inv blk D 0 (<[c := put_used k true]> C) M R.
Proof.
  intros HI Ek. pose proof HI as [G I2 I3 I4 I5 I6 I7 I8]. pose proof (inv_pos _ _ _ _ _ _ _ _ HI Ek) as Hc.
  assert (Ne : forall x, x ∈ M ++ R -> c <> x) by (intros x Hx ->; done).
  split.
  - by apply geo_used.
  - intros w a x Hw. rewrite lookup_insert. case_decide; [|by eapply I2]. intros [= <-]. subst a.
    split; [by apply (I2 w c k)|done].
  - intros x Hx. rewrite lookup_insert_ne by auto. auto.
  - intros a x. rewrite lookup_insert. case_decide; [by intros [= <-]|]. intros. by eapply I4.
  - exact (inv_null _ _ _ _ _ _ HI).
  - intros x y Hx. rewrite lookup_insert_ne; [by apply I6|]. apply Ne, elem_of_app. by left.
  - intros x y Hx. rewrite lookup_insert_ne; [by apply I7|]. apply Ne.
    destruct M; [by apply elem_of_nil in Hx|]. apply elem_of_app. left. by right.
  - intros a x x'. rewrite !lookup_insert. case_decide; [by intros [= <-]|].
    intros Ex Hl. case_decide; [by intros [= <-]|]. intros Ex' Hu Hu'. exfalso.
    destruct (I8 _ _ _ Ex Hl Ex' Hu Hu'); congruence.
Qed.

(** A used chunk given back: the words of [D] are not in it. *)
Lemma inv_unuse D C M R c k :
  inv blk D 0 C M R -> C !! c = Some k -> k_used k = true ->
  (forall w, is_Some (D !! w) -> w < c \/ c + k_len k <= w) ->
  inv blk D c (<[c := put_used k false]> C) M R.
Proof.
  intros HI Ek Hu HD. pose proof HI as [G I2 I3 I4 I5 I6 I7 I8]. pose proof (inv_pos _ _ _ _ _ _ _ _ HI Ek) as Hc.
  assert (Hn : c ∉ M ++ R).
  { intros Hx. destruct (I3 _ Hx) as (y & Ey & Hy & _). congruence. }
  assert (Ne : forall x, x ∈ M ++ R -> c <> x) by (intros x Hx ->; done).
  split; [by apply geo_used| | | |done|..].
  - intros w a x Hw. rewrite lookup_insert. case_decide; [|by eapply I2]. intros [= <-]. subst a.
    specialize (HD w Hw). change (k_len (put_used k false)) with (k_len k). split; [lia|auto].
  - intros x Hx. rewrite lookup_insert_ne by auto. auto.
  - intros a x. rewrite lookup_insert. case_decide; [congruence|]. intros Ex Hux Hlx Hne.
    eapply I4; [done..|]. pose proof (inv_pos _ _ _ _ _ _ _ _ HI Ex). lia.
  - intros x y Hx. rewrite lookup_insert_ne; [by apply I6|]. apply Ne, elem_of_app. by left.
  - intros x y Hx. rewrite lookup_insert_ne; [by apply I7|]. apply Ne.
    destruct M; [by apply elem_of_nil in Hx|]. apply elem_of_app. left. by right.
  - intros a x x'. rewrite !lookup_insert. case_decide; [intros; by left|].
    intros Ex Hl. case_decide; [intros; by right|]. intros Ex' Hux Hux'. exfalso.
    pose proof (inv_pos _ _ _ _ _ _ _ _ HI Ex). destruct (I8 _ _ _ Ex Hl Ex' Hux Hux'); lia.
Qed.

(** A used chunk cut: its right part is worked on. *)
Lemma inv_split_used D C M R c k n C' :
  inv blk D 0 C M R -> C !! c = Some k -> k_used k = true ->
  n mod 8 = 0 -> 8 <= n -> n + 8 <= k_len k -> splits C c k n C' ->
  (forall w, is_Some (D !! w) -> w < c + n \/ c + k_len k <= w) ->
  inv blk D (c + n) C' M R.
Proof.
  intros HI Ek Hu Hn8 Hn Hnk HS HD. pose proof HI as [G I2 I3 I4 I5 I6 I7 I8].
  pose proof (inv_pos _ _ _ _ _ _ _ _ HI Ek) as (A1 & A2 & A3 & A4 & A5 & A6 & _).
  assert (Hin : forall x y, C !! x = Some y -> x <> c -> x <> c + n /\ x <> 0).
  { intros x y Ey Hne. pose proof (inv_pos _ _ _ _ _ _ _ _ HI Ey).
    pose proof (split_inside _ _ _ _ G Ek _ _ Ey). lia. }
  assert (Old : forall x, x ∈ M ++ R -> exists y z, C !! x = Some y /\ C' !! x = Some z /\ like z y /\
                  k_used y = false /\ 16 <= k_len y /\ x <> c).
  { intros x Hx. destruct (I3 x Hx) as (y & Ey & Hy & Hl). assert (x <> c) by congruence.
    destruct (Hin _ _ Ey) as [? _]; [done|].
    destruct (splits_old _ _ _ _ _ _ _ HS Ey) as (z & Ez & Hz); [done..|]. exists y, z. auto 10. }
  split.
  - exact (geo_split _ C c k n C' G Ek Hn8 Hn Hnk HS).
  - intros w a x Hw Ex. specialize (HD w Hw). pose proof (I2 _ _ _ Hw Ek) as [W1 _].
    destruct (splits_cases _ _ _ _ _ _ _ HS Ex) as [[-> ->]|[[-> ->]|(H1 & H2 & y & Ey & Hy & Hp)]].
    + split; [done|]. change (k_used (cut_left k n)) with (k_used k). congruence.
    + rewrite cut_right_len. lia.
    + destruct (I2 _ _ _ Hw Ey) as [V1 V2]. fields Hy. split; [done|]. intros Hx.
      replace (k_len x) with (k_len y) by done. apply V2. congruence.
  - intros x Hx. destruct (Old x Hx) as (y & z & Ey & Ez & Hz & Hy & Hl & _). exists z. fields Hz.
    repeat (split; [congruence|]). lia.
  - intros a x Ex Hux Hlx Hne.
    destruct (splits_cases _ _ _ _ _ _ _ HS Ex) as [[-> ->]|[[-> ->]|(H1 & H2 & y & Ey & Hy & Hp)]]; [|done|].
    + change (k_used (cut_left k n)) with (k_used k) in Hux. congruence.
    + fields Hy. destruct (Hin _ _ Ey H1). apply (I4 _ _ Ey); [congruence|lia|done].
  - intros Hx. destruct (Old _ Hx) as (y & z & Ey & _ & _ & _ & _ & Hne). destruct (Hin _ _ Ey Hne). done.
  - intros x z Hx Ez. destruct (Old x) as (y & z' & Ey & Ez' & Hz & _); [apply elem_of_app; by left|].
    simplify_eq. fields Hz. pose proof (I6 _ _ Hx Ey). congruence.
  - intros x z Hx Ez. assert (Hx' : x ∈ M ++ R) by (destruct M; [by apply elem_of_nil in Hx|set_solver]).
    destruct (Old x Hx') as (y & z' & Ey & Ez' & Hz & _ & _ & Hxc). simplify_eq.
    pose proof (I7 _ _ Hx Ey) as Hp0. destruct (Hin _ _ Ey Hxc).
    destruct (splits_cases _ _ _ _ _ _ _ HS Ez) as [[-> ->]|[[-> ->]|(H1 & H2 & y' & Ey' & Hy & Hp)]]; [done..|].
    simplify_eq. destruct Hp as [(-> & Hl & _)|[_ ->]]; [|done].
    destruct (g_next _ _ G _ _ Ek Hl) as (u & Eu & Epu & _). simplify_eq. lia.
  - intros a x x' Ex Hl Ex' Hux Hux'.
    destruct (decide (a = c + n)) as [|Hac]; [by left|]. destruct (decide (a + k_len x = c + n)) as [|Hac']; [by right|].
    exfalso.
    destruct (splits_cases _ _ _ _ _ _ _ HS Ex) as [[-> ->]|[[-> ->]|(H1 & H2 & y & Ey & Hy & Hp)]]; [|done|].
    + change (k_used (cut_left k n)) with (k_used k) in Hux. congruence.
    + fields Hy. pose proof (inv_pos _ _ _ _ _ _ _ _ HI Ey).
      replace (k_len x) with (k_len y) in * by done.
      destruct (splits_cases _ _ _ _ _ _ _ HS Ex') as [[_ ->]|[[Hc _]|(_ & _ & z & Ez & Hz & _)]]; [|done|].
      * change (k_used (cut_left k n)) with (k_used k) in Hux'. congruence.
      * fields Hz. destruct (I8 a y z); [done|congruence|done|congruence|congruence|lia|lia].
Qed.

(** A used chunk joined with the chunk after it that is worked on. *)
Lemma inv_grow D C M R c k t C' :
  inv blk D (c + k_len k) C M R -> C !! c = Some k -> k_used k = true -> k_last k = false ->
  C !! (c + k_len k) = Some t -> k_used t = false -> merges C c k t C' ->
  inv blk D 0 C' M R.
Proof.
  intros HI Ek Hu Hk Et Hut HM. pose proof HI as [G I2 I3 I4 I5 I6 I7 I8].
  pose proof (inv_pos _ _ _ _ _ _ _ _ HI Ek) as (A1 & A2 & A3 & A4 & A5 & A6 & _).
  pose proof (inv_pos _ _ _ _ _ _ _ _ HI Et) as (B1 & B2 & B3 & B4 & B5 & B6 & _).
  assert (Old : forall x, x ∈ M ++ R -> exists y z, C !! x = Some y /\ C' !! x = Some z /\ like z y /\
                  k_used y = false /\ 16 <= k_len y /\ x <> c).
  { intros x Hx. destruct (I3 x Hx) as (y & Ey & Hy & Hl). assert (x <> c) by congruence.
    destruct (merges_old _ _ _ _ _ _ _ HM Ey) as (z & Ez & Hz); [done|congruence|]. exists y, z. auto 10. }
  split.
  - exact (geo_merge _ C c k t C' G Ek Hk Et HM).
  - intros w a x Hw Ex. pose proof (I2 _ _ _ Hw Ek) as [W1 _].
    destruct (merges_cases _ _ _ _ _ _ _ HM Ex) as [[-> ->]|(H1 & H2 & y & Ey & Hy & Hp)].
    + split; [done|]. change (k_used (join k t)) with (k_used k). congruence.
    + destruct (I2 _ _ _ Hw Ey) as [U1 U2]. fields Hy. split; [done|]. intros Hx.
      replace (k_len x) with (k_len y) by done. apply U2. congruence.
  - intros x Hx. destruct (Old x Hx) as (y & z & Ey & Ez & Hz & Hy & Hl & _). exists z. fields Hz.
    repeat (split; [congruence|]). lia.
  - intros a x Ex Hux Hlx _.
    destruct (merges_cases _ _ _ _ _ _ _ HM Ex) as [[-> ->]|(H1 & H2 & y & Ey & Hy & Hp)].
    + change (k_used (join k t)) with (k_used k) in Hux. congruence.
    + fields Hy. apply (I4 _ _ Ey); [congruence|lia|done].
  - exact (inv_null _ _ _ _ _ _ HI).
  - intros x z Hx Ez. destruct (Old x) as (y & z' & Ey & Ez' & Hz & _); [apply elem_of_app; by left|].
    simplify_eq. fields Hz. pose proof (I6 _ _ Hx Ey). congruence.
  - intros x z Hx Ez. assert (Hx' : x ∈ M ++ R) by (destruct M; [by apply elem_of_nil in Hx|set_solver]).
    destruct (Old x Hx') as (y & z' & Ey & Ez' & Hz & _ & _ & Hxc). simplify_eq.
    assert (Hw : whole C x).
    { intros y' Ey'. split; [by eapply I7|]. apply (I6 x); [destruct M; [done|by right]|done]. }
    by apply (merge_whole _ _ _ _ _ _ _ G Ek Et HM Hxc Hw).
  - intros a x x' Ex Hl Ex' Hux Hux'. exfalso.
    destruct (merges_cases _ _ _ _ _ _ _ HM Ex) as [[-> ->]|(H1 & H2 & y & Ey & Hy & Hp)].
    { change (k_used (join k t)) with (k_used k) in Hux. congruence. }
    fields Hy. replace (k_len x) with (k_len y) in * by done.
    destruct (merges_cases _ _ _ _ _ _ _ HM Ex') as [[_ ->]|(_ & Hn3 & z & Ez & Hz & _)].
    { change (k_used (join k t)) with (k_used k) in Hux'. congruence. }
    fields Hz. destruct (I8 a y z); [done|congruence|done|congruence|congruence| |]; congruence.
Qed.

(** ** The used chunks after each step *)

Lemma used_at_used C c k u a m : C !! c = Some k ->
  used_at (<[c := put_used k u]> C) a m <->
  (a = c /\ u = true /\ m = k_len k) \/ (a <> c /\ used_at C a m).
Proof.
  intros Ek. unfold used_at. rewrite lookup_insert. case_decide as Hc.
  - subst a. split.
    + intros (x & [= <-] & Hx & <-). by left.
    + intros [(_ & -> & ->)|[? _]]; [|done]. by exists (put_used k true).
  - split; [by right|]. intros [(? & _)|[_ Hx]]; [congruence|done].
Qed.

Lemma used_at_split C c k n C' a m : C !! c = Some k -> splits C c k n C' -> C !! (c + n) = None ->
  used_at C' a m <-> (a = c /\ k_used k = true /\ m = n) \/ (a <> c /\ used_at C a m).
Proof.
  intros Ek HS Hn. split.
  - intros (x & Ex & Hx & <-).
    destruct (splits_cases _ _ _ _ _ _ _ HS Ex) as [[-> ->]|[[-> ->]|(H1 & H2 & y & Ey & Hy & Hp)]]; [by left|done|].
    right. split; [done|]. fields Hy. exists y. repeat (split; [congruence|]). congruence.
  - intros [(-> & Hu & ->)|(Hne & x & Ex & Hx & <-)].
    + exists (cut_left k n). rewrite HS, decide_True by done. done.
    + destruct (splits_old _ _ _ _ _ _ _ HS Ex) as (y & Ey & Hy); [done|congruence|].
      fields Hy. exists y. repeat (split; [congruence|]). congruence.
Qed.

Lemma used_at_grow C c k t C' a m :
  C !! c = Some k -> k_used k = true -> C !! (c + k_len k) = Some t -> k_used t = false ->
  merges C c k t C' ->
  used_at C' a m <-> (a = c /\ m = k_len k + k_len t) \/ (a <> c /\ used_at C a m).
Proof.
  intros Ek Hu Et Hut HM. split.
  - intros (x & Ex & Hx & <-).
    destruct (merges_cases _ _ _ _ _ _ _ HM Ex) as [[-> ->]|(H1 & H2 & y & Ey & Hy & Hp)]; [by left|].
    right. split; [done|]. fields Hy. exists y. repeat (split; [congruence|]). congruence.
  - intros [(-> & ->)|(Hne & x & Ex & Hx & <-)].
    + exists (join k t). rewrite HM, decide_True by done. done.
    + destruct (merges_old _ _ _ _ _ _ _ HM Ex) as (y & Ey & Hy); [done|congruence|].
      fields Hy. exists y. repeat (split; [congruence|]). congruence.
Qed.

Section Run.
Context `{OsMem} (D : gmap Z Z) (mapped : Z -> Prop) (bl : Z) (o : OsState).
Hypothesis Hmap : forall b w, blk b -> b <= w < b + 8388608 -> w mod 4 = 0 -> mapped w.

#[local] Abbreviation wpl := (wpl D mapped bl o).
#[local] Abbreviation inv := (inv blk D).

(** ** Cycling *)

Lemma cycle_spec e C M R Q : inv e C M R -> (forall R', inv e C M R' -> Q tt C M R') ->
  wpl wmem_block_cycle_recycler C M R Q.
Proof.
  intros HI HQ. apply wpl_cycle.
  - intros x Hx. destruct (i_listed _ _ _ _ _ _ HI x) as (y & Ey & _); [apply elem_of_app; by right|by eexists].
  - intros R' Hp. apply HQ. eapply inv_ext; [done| |done|done]. intros x. by rewrite Hp.
Qed.

(** ** Allocating from a chunk *)

Lemma alloc_chunk_spec C M R c k size Q :
  inv 0 C M R -> C !! c = Some k -> k_used k = false -> (c ∈ R \/ hd 0 M = c) ->
  0 < size -> size + 8 <= k_len k ->
  (forall C' M' R' n, inv 0 C' M' R' -> size + 8 <= n <= k_len k ->
     (forall a m, used_at C' a m <-> (a = c /\ m = n) \/ used_at C a m) -> Q (c + 8) C' M' R') ->
  wpl (wbind (wmem_block_split_free_chunk c size) (fun _ =>
       wbind wmem_block_cycle_recycler (fun _ => wbind (set_used c true) (fun _ =>
       wret (WMEM_CHUNK_TO_DATA c))))) C M R Q.
Proof using Hmap.
  intros HI Ek Hu Hwhere Hs Hl HQ.
  pose proof (inv_pos _ _ _ _ _ _ _ _ HI Ek) as (A1 & A2 & A3 & A4 & A5 & A6 & A7).
  assert (Hnot : ~ exists m, used_at C c m) by (intros (m & x & Ex & Hx & _); congruence).
  destruct (align_size size) as [Hal Hal8]; [lia|].
  assert (Hdata : WMEM_CHUNK_TO_DATA c = c + 8).
  { unfold WMEM_CHUNK_TO_DATA. rewrite (proj1 header_sizes). apply u32_id. lia. }
  apply wpl_bind. eapply split_free_spec; [done|done|done|done|tauto|lia|].
  intros s C1 M1 R1 Es HI1 HC1. apply wpl_bind. eapply cycle_spec; [done|]. intros R2 HI2.
  assert (Hex : exists k1, C1 !! c = Some k1 /\ size + 8 <= k_len k1 <= k_len k /\
             forall a m, a <> c -> used_at C1 a m <-> used_at C a m).
  { destruct HC1 as [[-> Hsmall]|[HS Hbig]].
    - exists k. split; [done|]. split; [lia|done].
    - exists (cut_left k s). rewrite HS, decide_True by done. split; [done|].
      split; [rewrite cut_left_len; lia|]. intros a m Hne.
      rewrite (used_at_split _ _ _ _ _ _ _ Ek HS); [tauto|]. apply eq_None_not_Some. intros [z Hz].
      pose proof (split_inside _ _ _ _ (i_geo _ _ _ _ _ _ HI) Ek _ _ Hz). lia. }
  destruct Hex as (k1 & Ek1 & Hl1 & Hu1).
  pose proof (inv_pos _ _ _ _ _ _ _ _ HI2 Ek1) as Hp1.
  apply wpl_bind. eapply wpl_set_used; [done|lia|]. apply wpl_ret. rewrite Hdata.
  apply (HQ _ _ _ (k_len k1)); [by apply inv_use|done|]. intros a m.
  rewrite (used_at_used _ _ _ _ _ _ Ek1). destruct (decide (a = c)) as [->|Hne].
  - split; [intros [(_ & _ & ->)|[? _]]; [by left|done]|].
    intros [[_ ->]|Hx]; [by left|]. exfalso. eauto.
  - rewrite (Hu1 a m Hne). tauto.
Qed.

(** ** Freeing a chunk *)

Lemma free_chunk_spec C M R c k Q :
  inv 0 C M R -> C !! c = Some k -> k_used k = true ->
  (forall w, is_Some (D !! w) -> w < c \/ c + k_len k <= w) ->
  (forall C' M' R', inv 0 C' M' R' ->
     (forall a m, used_at C' a m <-> a <> c /\ used_at C a m) -> Q tt C' M' R') ->
  wpl (wbind (set_used c false) (fun _ => wbind (wmem_block_merge_free c) (fun _ =>
       wmem_block_cycle_recycler))) C M R Q.
Proof using Hmap.
  intros HI Ek Hu HD HQ. pose proof (inv_pos _ _ _ _ _ _ _ _ HI Ek) as Hp.
  apply wpl_bind. eapply wpl_set_used; [done|lia|].
  apply wpl_bind. eapply (merge_free_spec blk); [done|by apply inv_unuse|by rewrite lookup_insert_eq|done|].
  intros C' M' R' HI' Hused. eapply cycle_spec; [done|]. intros R'' HI''. apply HQ; [done|].
  intros a m. rewrite Hused, (used_at_used _ _ _ _ _ _ Ek). naive_solver.
Qed.

(** ** Shrinking a used chunk *)

Lemma shrink_spec C M R c k size (p : Z) Q :
  inv 0 C M R -> C !! c = Some k -> k_used k = true -> 0 < size -> size + 8 <= k_len k ->
  (forall w, is_Some (D !! w) -> w < c + (WMEM_ALIGN_SIZE size + 8) \/ c + k_len k <= w) ->
  (forall C' M' R' n, inv 0 C' M' R' -> size + 8 <= n <= k_len k ->
     (forall a m, used_at C' a m <-> (a = c /\ m = n) \/ (a <> c /\ used_at C a m)) -> Q p C' M' R') ->
  wpl (wbind (wmem_block_split_used_chunk c size) (fun _ =>
       wbind wmem_block_cycle_recycler (fun _ => wret p))) C M R Q.
Proof using Hmap.
  intros HI Ek Hu Hsz Hl HD HQ.
  pose proof (inv_pos _ _ _ _ _ _ _ _ HI Ek) as (A1 & A2 & A3 & A4 & A5 & A6 & A7).
  destruct (align_size size) as [Hal Hal8]; [lia|].
  unfold wmem_block_split_used_chunk. rewrite (proj1 header_sizes).
  rewrite !u32_id by lia. remember (WMEM_ALIGN_SIZE size + 8) as s eqn:Es.
  assert (Hs8 : s mod 8 = 0) by (Z.div_mod_to_equations; lia).
  apply wpl_bind. run. destruct (Z.ltb_spec (k_len k - 8) s) as [Hlt|Hge].
  { apply wpl_ret, wpl_bind. eapply cycle_spec; [done|]. intros R' HI'. apply wpl_ret.
    apply (HQ _ _ _ (k_len k)); [done|lia|].
    intros a m. destruct (decide (a = c)) as [->|]; [|tauto]. split.
    - intros (x & Ex & _ & <-). left. split; congruence.
    - intros [[_ ->]|[? _]]; [|done]. by exists k. }
  pose proof (i_geo _ _ _ _ _ _ HI) as G.
  destruct (g_chunk _ _ G _ _ Ek) as (B1 & _ & _ & _ & B5 & B6 & _).
  assert (Hin : forall x y, C !! x = Some y -> x <= c \/ c + k_len k <= x).
  { intros x y Ey. pose proof (split_inside _ _ _ _ G Ek _ _ Ey). lia. }
  do 10 nx. cbn [k_last k_len put_last put_len put_flags k_flags last len].
  rewrite (u32_id (k_len k - s)) by lia.
  apply right_header with (kc := put_last (put_len k s) false) (b := k_blk k);
    [by lk|unfold hdr_addr in *; Z.div_mod_to_equations; lia| |lia| |lia|].
  { unfold room. split; [|split; [|split; apply eq_None_not_Some; intros Hw; specialize (HD _ Hw); lia]].
    - eapply Hmap; [done|lia|Z.div_mod_to_equations; lia].
    - eapply Hmap; [done|lia|Z.div_mod_to_equations; lia]. }
  { intros Hx. destruct (i_listed _ _ _ _ _ _ HI _ Hx) as (y & Ey & Hy & _).
    destruct (Hin _ _ Ey); [|lia]. assert (c + s - 8 = c) by lia. lia. }
  apply wpl_bind. eapply (right_next blk _ _ _ _ C); [done|done|done|lia|lia| |].
  { intros a. rewrite !lookup_insert. repeat case_decide; subst; try lia; try done. }
  intros C' HS.
  assert (HI' : inv (c + s) C' M R).
  { exact (inv_split_used D C M R c k s C' HI Ek Hu Hs8 ltac:(lia) ltac:(lia) HS HD). }
  assert (Ee : C' !! (c + s) = Some (cut_right k s)).
  { rewrite HS, decide_False by lia. by rewrite decide_True. }
  eapply (merge_free_spec blk); [done|done|done|done|]. intros C2 M2 R2 HI2 Hused2.
  apply wpl_bind. eapply cycle_spec; [done|]. intros R3 HI3. apply wpl_ret.
  apply (HQ _ _ _ s); [done|lia|]. intros a m.
  rewrite Hused2, (used_at_split _ _ _ _ _ _ _ Ek HS); [naive_solver|].
  apply eq_None_not_Some. intros [z Hz]. specialize (Hin _ _ Hz). lia.
Qed.

(** ** Growing a used chunk into the free chunk after it *)

Lemma grow_spec C M R c k t size (p : Z) Q :
  inv 0 C M R -> C !! c = Some k -> k_used k = true -> k_last k = false ->
  C !! (c + k_len k) = Some t -> k_used t = false ->
  k_len k - 8 < size -> size < k_len k - 8 + k_len t ->
  (forall C' M' R' n, inv 0 C' M' R' -> size + 8 <= n <= 8388600 ->
     (forall a m, used_at C' a m <-> (a = c /\ m = n) \/ (a <> c /\ used_at C a m)) -> Q p C' M' R') ->
  forall split_size,
  split_size = (if u32 (size - (k_len k - 8)) <? 8 then 0 else u32 (size - (k_len k - 8)) - 8) ->
  wpl (wbind (wmem_block_split_free_chunk (c + k_len k) split_size) (fun _ =>
       wbind (chunk_len c) (fun cl => wbind (chunk_len (c + k_len k)) (fun tl =>
       wbind (set_len c (cl + tl)) (fun _ => wbind (chunk_last (c + k_len k)) (fun l =>
       wbind (set_last c l) (fun _ => wbind (WMEM_CHUNK_NEXT c) (fun tmp =>
       wbind (if negb (tmp =? NULL) then wbind (chunk_len c) (fun n => set_prev tmp n) else wret tt) (fun _ =>
       wbind wmem_block_cycle_recycler (fun _ => wret p))))))))))
    C M R Q.
Proof using Hmap.
  intros HI Ek Hu Hlk Et Hut Hs1 Hs2 HQ split_size Esp.
  pose proof (inv_pos _ _ _ _ _ _ _ _ HI Ek) as (A1 & A2 & A3 & A4 & A5 & A6 & A7).
  pose proof (inv_pos _ _ _ _ _ _ _ _ HI Et) as (B1 & B2 & B3 & B4 & B5 & B6 & B7).
  rewrite u32_id in Esp by lia.
  assert (Hsp : 0 <= split_size /\ size <= k_len k + split_size /\ split_size <= size).
  { destruct (Z.ltb_spec (size - (k_len k - 8)) 8); lia. }
  destruct (align_size split_size) as [Hal Hal8]; [lia|].
  apply wpl_bind. eapply (split_free_spec blk); [done|done|done|done| |lia|].
  { destruct (Z_lt_dec (k_len t) 16); [tauto|].
    assert (Hin : c + k_len k ∈ M ++ R) by (apply (i_all _ _ _ _ _ _ HI _ t); [done|done|lia|lia]).
    apply elem_of_app in Hin as [Hin|]; [|by left]. right; left.
    destruct M as [|m M]; [by apply elem_of_nil in Hin|]. apply elem_of_cons in Hin as [->|Hin]; [done|].
    pose proof (i_tail _ _ _ _ _ _ HI _ _ Hin Et).
    destruct (g_next _ _ (i_geo _ _ _ _ _ _ HI) _ _ Ek Hlk) as (t' & Et' & Ep & _). simplify_eq. lia. }
  intros s C1 M1 R1 Es HI1 HC1. pose proof (i_geo _ _ _ _ _ _ HI1) as G1.
  assert (Hex : exists t1, C1 !! (c + k_len k) = Some t1 /\ C1 !! c = Some k /\ k_used t1 = false /\
            size + 8 <= k_len k + k_len t1 /\
            forall a m, used_at C1 a m <-> used_at C a m).
  { destruct HC1 as [[-> Hsmall]|[HS Hbig]].
    - exists t. repeat (split; [done|]). split; [lia|done].
    - exists (cut_left t s). rewrite !HS, decide_True by done. rewrite !decide_False by lia.
      repeat (split; [done|]). split; [rewrite cut_left_len; lia|]. intros a m.
      rewrite (used_at_split _ _ _ _ _ _ _ Et HS).
      + split; [intros [(_ & ? & _)|[_ ?]]; congruence|]. intros Hx. right. split; [|done]. intros ->.
        destruct Hx as (x & Ex & Hx & _). congruence.
      + apply eq_None_not_Some. intros [z Hz].
        pose proof (split_inside _ _ _ _ (i_geo _ _ _ _ _ _ HI) Et _ _ Hz). lia. }
  destruct Hex as (t1 & Et1 & Ek1 & Hut1 & Hfit & Hused).
  pose proof (inv_pos _ _ _ _ _ _ _ _ HI1 Et1) as (D1 & D2 & D3 & D4 & D5 & D6 & D7).
  assert (Hne : c <> c + k_len k) by lia.
  do 8 nx. apply (wpl_drop_hdr _ _ _ _ _ (c + k_len k)).
  rewrite delete_insert_ne by done. do 2 nx. rewrite insert_insert_eq.
  change (put_last (put_len k (k_len k + k_len t1)) (k_last t1)) with (join k t1).
  pose proof (fix_next_right C1 c k t1 ltac:(lia) ltac:(lia)) as HM.
  assert (HI2 : inv 0 (fix_next (<[c := join k t1]> (delete (c + k_len k) C1)) c (join k t1)) M1 R1).
  { by eapply (inv_grow D C1 M1 R1 c k t1). }
  assert (Hu2 := fun a m => used_at_grow C1 c k t1 _ a m Ek1 Hu Et1 Hut1 HM).
  assert (Hsum : k_len k + k_len t1 <= 8388600).
  { destruct (g_chunk _ _ G1 _ _ Ek1) as (_ & _ & _ & _ & ? & _).
    destruct (g_chunk _ _ G1 _ _ Et1) as (_ & _ & _ & _ & _ & ? & _).
    destruct (g_next _ _ G1 _ _ Ek1 Hlk) as (t' & Et' & _ & ?). simplify_eq. lia. }
  assert (Hend : wpl (wbind wmem_block_cycle_recycler (fun _ => wret p))
    (fix_next (<[c := join k t1]> (delete (c + k_len k) C1)) c (join k t1)) M1 R1 Q).
  { apply wpl_bind. eapply cycle_spec; [done|]. intros R2 HI3. apply wpl_ret.
    apply (HQ _ _ _ (k_len k + k_len t1)); [done|lia|].
    intros a m. rewrite Hu2, Hused. done. }
  apply wpl_bind. eapply wpl_chunk_next; [by rewrite lookup_insert_eq|rewrite join_len; lia|].
  rewrite join_len. change (k_last (join k t1)) with (k_last t1). unfold fix_next in Hend.
  change (k_last (join k t1)) with (k_last t1) in Hend. rewrite join_len in Hend.
  destruct (k_last t1) eqn:Hl1.
  - change (NULL =? NULL) with true. cbn [negb]. do 2 nx. done.
  - destruct (g_next _ _ G1 _ _ Et1 Hl1) as (u & Eu & Epu & Ebu).
    assert (Eu' : <[c := join k t1]> (delete (c + k_len k) C1) !! (c + (k_len k + k_len t1)) = Some u).
    { rewrite lookup_insert_ne, lookup_delete_ne by lia. by rewrite Z.add_assoc. }
    rewrite Eu' in Hend. rewrite (proj2 (Z.eqb_neq _ NULL)) by (unfold NULL; lia). cbn [negb].
    do 4 nx. done.
Qed.

End Run.
End Ops.
