(* ===== verification/WMemSpec.v ===== *)
(** * What the block allocator promises

    The heap as a program sees it is a map from the addresses it was given to
    the number of bytes it may use there.  [Heap I h A] says that the machine
    state [h] implements the map [A] with the blocks [I]; [malloc], [free] and
    [realloc] are shown to be the expected operations on [A]. *)

From S2P Require Import Prelude WMem WMemLogic WMemChunks WMemOps.

(** ** What the allocator relies on

    The documented behaviour of [AllocVecTags] and [FreeVec] of exec.library:
    an allocation either fails and changes nothing, or takes a range of the
    system's free memory, aligned to 8 bytes, and maps it; freeing gives back
    the range that was allocated at that address.  [vec_avail] tells whether
    the system has a range of that size left, [vec_size] what it has
    allocated, [vec_free] which addresses are its free memory. *)
Class OsLaws `{OsMem} := {
  vec_avail : OsState -> Z -> bool;
  vec_size : OsState -> Z -> option Z;
  vec_free : OsState -> Z -> Prop;
  AllocVec_fails n o m : vec_avail o n = false -> exists o', AllocVec n o m = (0, o', m);
  AllocVec_works n o m : 0 < n < 4294967296 -> vec_avail o n = true ->
    exists p o' m', AllocVec n o m = (p, o', m') /\
      0 < p /\ p mod 8 = 0 /\ p + n < 4294967296 /\
      (forall w, p <= w < p + n -> vec_free o w) /\
      (forall w, vec_free o' w -> vec_free o w /\ ~ (p <= w < p + n)) /\
      (forall w, p <= w < p + n -> w mod 4 = 0 -> is_Some (m' !! w)) /\
      (forall w, ~ (p <= w < p + n) -> m' !! w = m !! w) /\
      (forall q, vec_size o' q = if decide (q = p) then Some n else vec_size o q);
  FreeVec_works p o m n : vec_size o p = Some n ->
    exists o' m', FreeVec p o m = (o', m') /\
      (forall w, ~ (p <= w < p + n) -> m' !! w = m !! w) /\
      (forall w, p <= w < p + n -> m' !! w = None) /\
      (forall w, vec_free o' w -> vec_free o w \/ p <= w < p + n) /\
      (forall q, vec_size o' q = if decide (q = p) then None else vec_size o q);
}.

(** ** The state of the allocator *)

(** The blocks: [None] for a block of chunks, [Some n] for a jumbo block of
    [n] bytes. *)
Abbreviation blocks := (gmap Z (option Z)).
Definition extent (i : option Z) : Z := match i with None => 8388608 | Some n => n end.
Definition normal (I : blocks) (b : Z) : Prop := I !! b = Some None.
Definition in_chunks (I : blocks) (w : Z) : Prop :=
  exists b, normal I b /\ b <= w < b + 8388608 /\ w mod 4 = 0.

(** The allocations: the data of the used chunks and of the jumbo blocks. *)
Definition allocated (I : blocks) (C : gmap Z hdr) (p n : Z) : Prop :=
  (exists a, used_at C a (n + 8) /\ p = a + 8) \/
  (exists b m, I !! b = Some (Some m) /\ p = b + 16 /\ n = m - 16).

(** ** Code that leaves the system alone *)

Section Tame.
Context `{OsMem}.

(** [c] neither calls the system nor maps or unmaps a word. *)
Definition tame {A} (c : W A) : Prop := forall h a h', c h = Some (a, h') ->
  os h' = os h /\ forall w, is_Some (words h' !! w) <-> is_Some (words h !! w).

Lemma tame_ret {A} (a : A) : tame (wret a).
Proof. by intros h a' h' [= <- <-]. Qed.
Lemma tame_bind {A B} (c : W A) (k : A -> W B) : tame c -> (forall a, tame (k a)) -> tame (wbind c k).
Proof.
  intros Hc Hk h b h'. unfold wbind. destruct (c h) as [[a h1]|] eqn:E; [|done]. intros E2.
  destruct (Hc _ _ _ E) as [E1 D1]. destruct (Hk _ _ _ _ E2) as [E3 D2]. split; [congruence|].
  intros w. by rewrite D2.
Qed.
Lemma tame_rd k : tame (rd k).
Proof. intros h v h'. unfold rd. destruct (words h !! k); [|done]. by intros [= <- <-]. Qed.
Lemma tame_wr k v : tame (wr k v).
Proof.
  intros h x h'. unfold wr. destruct (words h !! k) eqn:E; [|done]. intros [= <- <-]. split; [done|].
  intros w. cbn. apply insert_dom_same. by eexists.
Qed.
Lemma tame_get_block_list : tame get_block_list.
Proof. by intros h v h' [= <- <-]. Qed.
Lemma tame_set_block_list v : tame (set_block_list v).
Proof. by intros h x h' [= <- <-]. Qed.
Lemma tame_get_master : tame get_master.
Proof. by intros h v h' [= <- <-]. Qed.
Lemma tame_get_recycler : tame get_recycler.
Proof. by intros h v h' [= <- <-]. Qed.
Lemma tame_set_master v : tame (set_master v).
Proof. by intros h x h' [= <- <-]. Qed.
Lemma tame_set_recycler v : tame (set_recycler v).
Proof. by intros h x h' [= <- <-]. Qed.

End Tame.

Create HintDb tame.
Ltac tame1 := first
  [ solve [eauto with tame] | apply tame_bind; [|intros ?] | case_match
  | match goal with |- tame ?c => let f := get_head c in unfold f end ].
#[export] Hint Resolve tame_ret tame_rd tame_wr tame_get_block_list tame_set_block_list tame_get_master tame_get_recycler tame_set_master
  tame_set_recycler : tame.

Section TameCode.
Context `{OsMem}.

Lemma tame_set_flags c g : tame (set_flags c g).
Proof. repeat tame1. Qed.
Lemma tame_add c : tame (wmem_block_add_to_recycler c).
Proof. repeat tame1. Qed.
Lemma tame_remove c : tame (wmem_block_remove_from_recycler c).
Proof. repeat tame1. Qed.
Lemma tame_cycle : tame wmem_block_cycle_recycler.
Proof. repeat tame1. Qed.
#[local] Hint Resolve tame_set_flags tame_add tame_remove tame_cycle : tame.
Lemma tame_push c : tame (wmem_block_push_master c).
Proof. repeat tame1. Qed.
Lemma tame_pop : tame wmem_block_pop_master.
Proof. repeat tame1. Qed.
#[local] Hint Resolve tame_push tame_pop : tame.
Lemma tame_merge c : tame (wmem_block_merge_free c).
Proof. repeat tame1. Qed.
Lemma tame_split_free c n : tame (wmem_block_split_free_chunk c n).
Proof. repeat tame1. Qed.
#[local] Hint Resolve tame_merge tame_split_free : tame.
Lemma tame_split_used c n : tame (wmem_block_split_used_chunk c n).
Proof. repeat tame1. Qed.
Lemma tame_init_block b : tame (wmem_block_init_block b).
Proof. repeat tame1. Qed.
End TameCode.
#[export] Hint Resolve tame_set_flags tame_add tame_remove tame_cycle tame_push tame_pop tame_merge
  tame_split_free tame_split_used tame_init_block : tame.

Section Spec.
Context `{OsLaws}.

Record ghost (I : blocks) (L : list Z) (C : gmap Z hdr) (M R : list Z) (h : heap) : Prop := {
  h_view : exists P N, lists P N M R /\
    rep ∅ (in_chunks I) (hd 0 L) (os h) (mkView C P N (hd 0 M) (hd 0 R)) h;
  h_inv : inv (normal I) ∅ 0 C M R;
  h_nodup : NoDup L;
  h_dom b : b ∈ L <-> is_Some (I !! b);
  h_next : linked (fun b => words h !! (b + 4)) (L ++ [0]);
  h_prev : back (fun b => words h !! b) (0 :: L);
  h_block b i : I !! b = Some i ->
    0 < b /\ b mod 8 = 0 /\ 16 <= extent i /\ b + extent i < 4294967296 /\
    vec_size (os h) b = Some (extent i);
  h_mapped b i w : I !! b = Some i -> b <= w < b + extent i -> w mod 4 = 0 -> is_Some (words h !! w);
  h_jumbo b n : I !! b = Some (Some n) ->
    8388608 < n /\ exists w, words h !! (b + 12) = Some w /\ jumbo (unpack w) = true;
  h_disj b i b' i' : I !! b = Some i -> I !! b' = Some i' -> b < b' -> b + extent i <= b';
  h_unmapped w : vec_free (os h) w -> words h !! w = None;
}.

(** [h] implements the allocations [A]. *)
Definition Heap (I : blocks) (h : heap) (A : gmap Z Z) : Prop :=
  exists L C M R, ghost I L C M R h /\ forall p n, A !! p = Some n <-> allocated I C p n.

(** *** Words that a step keeps *)

(** A word that is neither in a header nor inside a free chunk. *)
Definition prot (C : gmap Z hdr) (w : Z) : Prop :=
  map_Forall (fun a k => (w < a \/ a + 8 <= w) /\ (k_used k = false -> w < a \/ a + k_len k <= w)) C.
#[global] Instance prot_dec C w : Decision (prot C w).
Proof. unfold prot. apply _. Defined.

(** The words of [h] that are protected, less those from [lo] to [hi]. *)
Definition kept (C : gmap Z hdr) (h : heap) (lo hi : Z) : gmap Z Z :=
  filter (fun x => prot C x.1 /\ (x.1 < lo \/ hi <= x.1)) (words h).

Lemma lookup_kept C h lo hi w v :
  kept C h lo hi !! w = Some v <-> words h !! w = Some v /\ prot C w /\ (w < lo \/ hi <= w).
Proof. unfold kept. by rewrite map_lookup_filter_Some. Qed.

Lemma inv_weaken blk D D' e C M R :
  inv blk D e C M R ->
  (forall w a k, is_Some (D' !! w) -> C !! a = Some k ->
    (w < a \/ a + 8 <= w) /\ (k_used k = false -> w < a \/ a + k_len k <= w)) ->
  inv blk D' e C M R.
Proof. intros [] HD. by split. Qed.

Lemma inv_kept blk D C M R h lo hi : inv blk D 0 C M R -> inv blk (kept C h lo hi) 0 C M R.
Proof.
  intros HI. eapply inv_weaken; [done|]. intros w a k [v Hv] Ek.
  apply lookup_kept in Hv as (_ & Hp & _). exact (Hp a k Ek).
Qed.

Lemma inv_empty blk D e C M R : inv blk D e C M R -> inv blk ∅ e C M R.
Proof. intros HI. eapply inv_weaken; [done|]. intros w a k [v Hv]. done. Qed.

Lemma rep_empty D mapped bl o g h : rep D mapped bl o g h -> rep ∅ mapped bl o g h.
Proof. intros []. by split. Qed.

Lemma rep_keep D blk mapped bl o C P N M R e h :
  inv blk D e C M R -> lists P N M R -> (forall w v, D !! w = Some v -> words h !! w = Some v) ->
  rep ∅ mapped bl o (mkView C P N (hd 0 M) (hd 0 R)) h ->
  rep D mapped bl o (mkView C P N (hd 0 M) (hd 0 R)) h.
Proof.
  intros HI HL HD [].
  assert (Hlink : forall x w, x ∈ M ++ R -> x <= w < x + 16 -> D !! w = None).
  { intros x w Hx Hw. destruct (i_listed _ _ _ _ _ _ HI x Hx) as (k & Ek & Hu & Hl).
    apply eq_None_not_Some. intros Hd. destruct (i_free _ _ _ _ _ _ HI w x k Hd Ek) as [_ Hf].
    specialize (Hf Hu). lia. }
  split; try done; cbn [vC vP vN] in *.
  - intros a [k Ek]. split; apply eq_None_not_Some; intros Hd;
      destruct (i_free _ _ _ _ _ _ HI _ a k Hd Ek) as [Hf _]; lia.
  - intros x Hx. apply (Hlink x); [apply (l_dom _ _ _ _ HL); by left|lia].
  - intros x Hx. apply (Hlink x); [apply (l_dom _ _ _ _ HL); by right|lia].
Qed.

(** *** Running a step of the chunks on the whole state *)

(** What such a step leaves: the words of [D], and the view of new chunks. *)
Lemma lift {A} (c : W A) D I L C M R h Q :
  ghost I L C M R h -> (forall w v, D !! w = Some v -> words h !! w = Some v) ->
  inv (normal I) D 0 C M R ->
  wpl D (in_chunks I) (hd 0 L) (os h) c C M R Q ->
  exists a h' C' M' R' P N, c h = Some (a, h') /\ Q a C' M' R' /\ lists P N M' R' /\
    rep D (in_chunks I) (hd 0 L) (os h) (mkView C' P N (hd 0 M') (hd 0 R')) h'.
Proof.
  intros HG HD HI Hc. destruct (h_view _ _ _ _ _ _ HG) as (P & N & HL & Hrep).
  pose proof (rep_keep _ _ _ _ _ _ _ _ _ _ _ _ HI HL HD Hrep) as Hrep'.
  destruct (Hc P N HL h Hrep') as (a & h' & [C' P' N' m' r'] & E & Hrep2 & M' & R' & HL' & Hm & Hr & HQ).
  cbn in *. subst. exists a, h', C', M', R', P', N'. done.
Qed.

Lemma unmapped_same (m m' : gmap Z Z) w :
  (forall w, is_Some (m' !! w) <-> is_Some (m !! w)) -> m !! w = None -> m' !! w = None.
Proof. intros Hd Hw. apply eq_None_not_Some. rewrite Hd, Hw. apply is_Some_None. Qed.

(** Outside the chunk areas of [I]. *)
Definition outside (I : blocks) (w : Z) : Prop :=
  forall b, normal I b -> w < b + 8 \/ b + 8388608 <= w.

Lemma ghost_step D I L C M R h C' M' R' P N h' :
  ghost I L C M R h -> lists P N M' R' ->
  rep D (in_chunks I) (hd 0 L) (os h) (mkView C' P N (hd 0 M') (hd 0 R')) h' ->
  inv (normal I) D 0 C' M' R' ->
  (forall w v, words h !! w = Some v -> outside I w -> words h' !! w = Some v) ->
  (forall w, is_Some (words h' !! w) <-> is_Some (words h !! w)) ->
  ghost I L C' M' R' h'.
Proof.
  intros HG HL Hrep HI Hout Hdom. pose proof HG as [_ _ H3 H4 H5 H6 H7 H8 H9 H10 H11].
  assert (Eos : os h' = os h) by apply (rep_os _ _ _ _ _ _ Hrep).
  assert (Hdr : forall b w, is_Some (I !! b) -> b <= w < b + 8 -> outside I w).
  { intros b w [i Ei] Hw b' Hb'. destruct (H7 _ _ Ei) as (? & ? & ? & ? & _).
    destruct (Z.lt_trichotomy b b') as [Hl|[->|Hl]]; [|lia|].
    - pose proof (H10 _ _ _ _ Ei Hb' Hl). lia.
    - pose proof (H10 _ _ _ _ Hb' Ei Hl) as Hx. cbn in Hx. lia. }
  assert (Hjumbo : forall b n w, I !! b = Some (Some n) -> b <= w < b + n -> outside I w).
  { intros b n w Ei Hw b' Hb'. destruct (Z.lt_trichotomy b b') as [Hl|[->|Hl]].
    - pose proof (H10 _ _ _ _ Ei Hb' Hl) as Hx. cbn in Hx. lia.
    - unfold normal in Hb'. congruence.
    - pose proof (H10 _ _ _ _ Hb' Ei Hl) as Hx. cbn in Hx. lia. }
  assert (Hsame : forall b w v, is_Some (I !! b) -> b <= w < b + 8 -> words h !! w = Some v -> words h' !! w = words h !! w).
  { intros b w v Hb Hw Hv. rewrite Hv. apply Hout; [done|]. by eapply Hdr. }
  split; try done.
  - exists P, N. split; [done|]. rewrite Eos. by eapply rep_empty.
  - by eapply inv_empty.
  - eapply linked_ext; [done|]. intros b Hb. apply H4 in Hb. destruct Hb as [i Ei].
    destruct (H7 _ _ Ei) as (? & ? & ? & ? & _).
    destruct (H8 _ _ (b + 4) Ei) as [v Hv]; [lia|Z.div_mod_to_equations; lia|].
    eapply Hsame; [by eexists|lia|done].
  - eapply back_ext; [done|]. intros b Hb. apply H4 in Hb. destruct Hb as [i Ei].
    destruct (H7 _ _ Ei) as (? & ? & ? & ? & _).
    destruct (H8 _ _ b Ei) as [v Hv]; [lia|Z.div_mod_to_equations; lia|].
    eapply Hsame; [by eexists|lia|done].
  - intros b i Ei. rewrite Eos. auto.
  - intros b i w Ei Hw Hw4. destruct i as [n|].
    + destruct (H8 _ _ w Ei Hw Hw4) as [v Hv]. exists v. apply Hout; [done|]. by eapply Hjumbo.
    + apply (rep_mapped _ _ _ _ _ _ Hrep). by exists b.
  - intros b n Ei. destruct (H9 _ _ Ei) as (Hn & w & Ew & Hw). split; [done|]. exists w. split; [|done].
    apply Hout; [done|]. eapply Hjumbo; [done|]. destruct (H7 _ _ Ei) as (? & ? & ? & _). cbn in *. lia.
  - intros w. rewrite Eos. intros Hf%H11. by apply unmapped_same with (words h).
Qed.

Lemma prot_outside I D C M R w : inv (normal I) D 0 C M R -> outside I w -> prot C w.
Proof.
  intros HI Ho a k Ek. destruct (g_chunk _ _ (i_geo _ _ _ _ _ _ HI) _ _ Ek) as (A1 & _ & _ & A4 & A5 & A6 & _).
  specialize (Ho _ A1). lia.
Qed.

Lemma prot_data blk D C M R a k w : inv blk D 0 C M R -> C !! a = Some k -> k_used k = true ->
  a + 8 <= w < a + k_len k -> prot C w.
Proof.
  intros HI Ek Hu Hw a' k' Ek'. destruct (inv_pos _ _ _ _ _ _ _ _ HI Ek') as (_ & _ & _ & ? & _).
  destruct (split_inside _ _ _ _ (i_geo _ _ _ _ _ _ HI) Ek _ _ Ek') as [|[->|]]; [lia| |lia].
  simplify_eq. split; [lia|congruence].
Qed.

(** ** The list of blocks *)

Lemma add_block_run h L b :
  block_list h = hd 0 L -> NoDup (b :: L) -> 0 < b -> b mod 8 = 0 ->
  (forall x, x ∈ L -> 0 < x /\ x mod 8 = 0 /\ is_Some (words h !! x)) ->
  is_Some (words h !! b) -> is_Some (words h !! (b + 4)) ->
  linked (fun x => words h !! (x + 4)) (L ++ [0]) -> back (fun x => words h !! x) (0 :: L) ->
  exists h', wmem_block_add_to_block_list b h = Some (tt, h') /\
    block_list h' = b /\ os h' = os h /\ master_head h' = master_head h /\ recycler_head h' = recycler_head h /\
    linked (fun x => words h' !! (x + 4)) (b :: L ++ [0]) /\ back (fun x => words h' !! x) (0 :: b :: L) /\
    (forall w, w <> b -> w <> b + 4 -> (forall x, x ∈ L -> w <> x) -> words h' !! w = words h !! w) /\
    (forall w, is_Some (words h' !! w) <-> is_Some (words h !! w)).
Proof.
  intros Ebl Hnd Hb0 Hb8 HL Hmb Hmb4 Hn Hp. apply NoDup_cons in Hnd as [HbL Hnd].
  set (m1 := <[b := 0]> (words h)). set (m2 := <[b + 4 := hd 0 L]> m1).
  set (m3 := match L with [] => m2 | y :: _ => <[y := b]> m2 end).
  exists (mkHeap _ m3 (os h) b (master_head h) (recycler_head h)).
  assert (Hm1 : is_Some (m1 !! (b + 4))) by (unfold m1; by rewrite lookup_insert_ne by lia).
  assert (Hrun : wmem_block_add_to_block_list b h = Some (tt, mkHeap _ m3 (os h) b (master_head h) (recycler_head h))).
  { unfold wmem_block_add_to_block_list, wbind. rewrite wr_run by done. cbn [get_block_list with_words block_list].
    rewrite Ebl. rewrite wr_run by done. cbn [with_words words].
    rewrite (rd_run _ (hd 0 L)) by (cbn; by rewrite lookup_insert_eq).
    unfold m3. destruct L as [|y L]; cbn [hd].
    - change (0 =? NULL) with true. cbn [negb]. unfold wret, set_block_list. done.
    - destruct (HL y) as (Hy0 & Hy8 & Hmy); [by left|].
      rewrite (proj2 (Z.eqb_neq y NULL)) by (unfold NULL; lia). cbn [negb]. rewrite wr_run; [done|].
      cbn. rewrite !lookup_insert_is_Some'. auto. }
  split; [done|]. cbn [words block_list os master_head recycler_head]. repeat (split; [done|]).
  assert (Hm2 : forall w, w <> b -> w <> b + 4 -> m2 !! w = words h !! w).
  { intros w H1 H2. unfold m2, m1. by rewrite !lookup_insert_ne by congruence. }
  assert (Hm3 : forall w, w <> b -> w <> b + 4 -> w <> hd 0 L -> m3 !! w = words h !! w).
  { intros w H1 H2 H3. unfold m3. destruct L as [|y L]; [by apply Hm2|].
    rewrite lookup_insert_ne by (cbn in H3; congruence). by apply Hm2. }
  assert (Hb4 : m3 !! (b + 4) = Some (hd 0 L)).
  { unfold m3. destruct L as [|y L]; cbn [hd].
    - unfold m2. by rewrite lookup_insert_eq.
    - destruct (HL y) as (? & ? & _); [by left|].
      rewrite lookup_insert_ne by (Z.div_mod_to_equations; lia). unfold m2. by rewrite lookup_insert_eq. }
  assert (Hb : m3 !! b = Some 0).
  { assert (E : m2 !! b = Some 0) by (unfold m2; rewrite lookup_insert_ne by lia; unfold m1; by rewrite lookup_insert_eq).
    unfold m3. destruct L as [|y L]; [done|]. rewrite lookup_insert_ne; [done|]. set_solver. }
  split; [|split; [|split]].
  - assert (Hl : linked (fun x => m3 !! (x + 4)) (L ++ [0])).
    { eapply linked_ext; [done|]. intros x Hx. destruct (HL x Hx) as (? & ? & _).
      assert (x <> b) by (intros ->; done). apply Hm3; [Z.div_mod_to_equations; lia|lia|].
      destruct L as [|y L]; cbn [hd]; [lia|]. destruct (HL y) as (? & ? & _); [by left|].
      Z.div_mod_to_equations; lia. }
    destruct L; [by split|]. by split.
  - split; [done|]. destruct L as [|y L]; [done|]. destruct Hp as [Hy Hp]. split.
    + unfold m3. by rewrite lookup_insert_eq.
    + eapply back_ext; [exact Hp|]. intros x Hx. apply NoDup_cons in Hnd as [HyL _].
      destruct (HL x) as (? & ? & _); [by right|].
      assert (x <> b) by (intros ->; apply HbL; by right).
      apply Hm3; [done|Z.div_mod_to_equations; lia|]. cbn [hd]. congruence.
  - intros w H1 H2 H3. unfold m3. destruct L as [|y L]; [by apply Hm2|].
    rewrite lookup_insert_ne; [by apply Hm2|]. intros ->. by apply (H3 w); [left|].
  - intros w. assert (E2 : is_Some (m2 !! w) <-> is_Some (words h !! w)).
    { unfold m2. rewrite insert_dom_same by done. unfold m1. by apply insert_dom_same. }
    unfold m3. destruct L as [|y L]; [done|]. rewrite insert_dom_same; [done|].
    destruct (HL y) as (? & ? & Hmy); [by left|]. unfold m2, m1. rewrite !lookup_insert_is_Some'. auto.
Qed.

(** *** The chunks notice only changes of their headers and links *)

Lemma rep_same I L C M R P N h h' mapped' bl' o' :
  ghost I L C M R h -> lists P N M R ->
  rep ∅ (in_chunks I) (hd 0 L) (os h) (mkView C P N (hd 0 M) (hd 0 R)) h ->
  (forall a k w, C !! a = Some k -> w = a \/ w = a + 4 -> words h' !! w = words h !! w) ->
  (forall a k w, C !! a = Some k -> k_used k = false -> 16 <= k_len k -> w = a + 8 \/ w = a + 12 ->
     words h' !! w = words h !! w) ->
  (forall w, mapped' w -> is_Some (words h' !! w)) ->
  block_list h' = bl' -> os h' = o' ->
  master_head h' = master_head h -> recycler_head h' = recycler_head h ->
  rep ∅ mapped' bl' o' (mkView C P N (hd 0 M) (hd 0 R)) h'.
Proof.
  intros HG HL Hrep Hhdr Hfree Hmap Ebl Eo Em Er. pose proof (h_inv _ _ _ _ _ _ HG) as HI.
  assert (Hlink : forall x w, x ∈ M ++ R -> w = x + 8 \/ w = x + 12 -> words h' !! w = words h !! w).
  { intros x w Hx Hw. destruct (i_listed _ _ _ _ _ _ HI x Hx) as (k & Ek & Hu & Hl). by eapply Hfree. }
  destruct Hrep. split; try done; cbn [vC vP vN v_master v_recycler] in *.
  - intros a k Ek. rewrite !(Hhdr a k) by auto. auto.
  - intros x v Hx. rewrite (Hlink x); [auto| |by left]. apply (l_dom _ _ _ _ HL). left. by eexists.
  - intros x v Hx. rewrite (Hlink x); [auto| |by right]. apply (l_dom _ _ _ _ HL). right. by eexists.
  - by rewrite Em.
  - by rewrite Er.
Qed.

Lemma rep_agree I L C M R P N h h' mapped' bl' o' :
  ghost I L C M R h -> lists P N M R ->
  rep ∅ (in_chunks I) (hd 0 L) (os h) (mkView C P N (hd 0 M) (hd 0 R)) h ->
  (forall b w, normal I b -> b + 8 <= w < b + 8388608 -> words h' !! w = words h !! w) ->
  (forall w, mapped' w -> is_Some (words h' !! w)) ->
  block_list h' = bl' -> os h' = o' ->
  master_head h' = master_head h -> recycler_head h' = recycler_head h ->
  rep ∅ mapped' bl' o' (mkView C P N (hd 0 M) (hd 0 R)) h'.
Proof.
  intros HG HL Hrep Hsame. pose proof (h_inv _ _ _ _ _ _ HG) as HI.
  eapply rep_same; [done..| |].
  - intros a k w Ek Hw. destruct (g_chunk _ _ (i_geo _ _ _ _ _ _ HI) _ _ Ek) as (A1 & _ & _ & A4 & A5 & A6 & _).
    eapply Hsame; [done|lia].
  - intros a k w Ek _ Hl Hw. destruct (g_chunk _ _ (i_geo _ _ _ _ _ _ HI) _ _ Ek) as (A1 & _ & _ & A4 & A5 & A6 & _).
    eapply Hsame; [done|lia].
Qed.

(** Writes of the program to its own data, [X], leave the allocator alone. *)
Lemma ghost_data I L C M R h h' (X : Z -> Prop) :
  ghost I L C M R h -> (forall w, ~ X w -> words h' !! w = words h !! w) ->
  (forall w, is_Some (words h' !! w) <-> is_Some (words h !! w)) ->
  os h' = os h -> block_list h' = block_list h ->
  master_head h' = master_head h -> recycler_head h' = recycler_head h ->
  (forall w, X w -> prot C w /\ forall b i, I !! b = Some i -> ~ (b <= w < b + 8) /\
     forall n, i = Some n -> w <> b + 12) ->
  ghost I L C M R h'.
Proof.
  intros HG Hsame Hdom Eo Ebl Em Er HX. pose proof HG as [(P & N & HL & Hrep) H2 H3 H4 H5 H6 H7 H8 H9 H10 H11].
  assert (Hhdr : forall b w, is_Some (I !! b) -> b <= w < b + 8 -> words h' !! w = words h !! w).
  { intros b w [i Ei] Hw. apply Hsame. intros Hx. by apply (HX w Hx) in Ei as []. }
  split; try done.
  - exists P, N. split; [done|].
    eapply rep_same; [exact HG|done|exact Hrep| | | |rewrite Ebl; exact (rep_block_list _ _ _ _ _ _ Hrep)|done|done|done].
    + intros a k w Ek Hw. apply Hsame. intros Hx. destruct (HX w Hx) as [Hp _]. destruct (Hp a k Ek). lia.
    + intros a k w Ek Hu Hl Hw. apply Hsame. intros Hx. destruct (HX w Hx) as [Hp _].
      destruct (Hp a k Ek) as [_ Hf]. specialize (Hf Hu). lia.
    + intros w Hw. apply Hdom. by apply (rep_mapped _ _ _ _ _ _ Hrep).
  - eapply linked_ext; [done|]. intros b Hb. apply (Hhdr b); [by apply H4|lia].
  - eapply back_ext; [done|]. intros b Hb. apply (Hhdr b); [by apply H4|lia].
  - intros b i Ei. rewrite Eo. auto.
  - intros b i w Ei Hw Hw4. apply Hdom. eauto.
  - intros b n Ei. destruct (H9 _ _ Ei) as (Hn & w & Ew & Hw). split; [done|]. exists w. split; [|done].
    rewrite Hsame; [done|]. intros Hx. destruct (HX _ Hx) as [_ Hx']. by apply (Hx' _ _ Ei) with (n := n).
  - intros w. rewrite Eo. intros Hf%H11. by apply unmapped_same with (words h).
Qed.

(** The copy of [memcpy]. *)
Lemma copy_run n : forall dst src h,
  (forall i, 0 <= i < Z.of_nat n -> is_Some (words h !! (src + 4 * i)) /\ is_Some (words h !! (dst + 4 * i))) ->
  (forall i j, 0 <= i < Z.of_nat n -> 0 <= j < Z.of_nat n -> src + 4 * i <> dst + 4 * j) ->
  exists m, copy_words n dst src h = Some (tt, with_words h m) /\
    (forall i, 0 <= i < Z.of_nat n -> m !! (dst + 4 * i) = words h !! (src + 4 * i)) /\
    (forall w, (forall i, 0 <= i < Z.of_nat n -> w <> dst + 4 * i) -> m !! w = words h !! w) /\
    (forall w, is_Some (m !! w) <-> is_Some (words h !! w)).
Proof.
  induction n as [|n IH]; intros dst src h Hm Hd.
  - exists (words h). split; [by destruct h|]. split; [lia|]. by split.
  - destruct (Hm 0) as [[v Hv] Hd0]; [lia|]. replace (src + 4 * 0) with src in Hv by lia.
    replace (dst + 4 * 0) with dst in Hd0 by lia.
    destruct (IH (dst + 4) (src + 4) (with_words h (<[dst := v]> (words h)))) as (m & E & H1 & H2 & H3).
    { intros i Hi. cbn. replace (src + 4 + 4 * i) with (src + 4 * (i + 1)) by lia.
      replace (dst + 4 + 4 * i) with (dst + 4 * (i + 1)) by lia.
      rewrite !insert_dom_same by done. apply Hm. lia. }
    { intros i j Hi Hj. replace (src + 4 + 4 * i) with (src + 4 * (i + 1)) by lia.
      replace (dst + 4 + 4 * j) with (dst + 4 * (j + 1)) by lia. apply Hd; lia. }
    cbn [with_words words] in *. exists m. split; [|split; [|split]].
    + cbn [copy_words]. unfold wbind. rewrite (rd_run _ _ _ Hv). rewrite wr_run by done. rewrite E. done.
    + intros i Hi. destruct (decide (i = 0)) as [->|Hi0].
      * replace (dst + 4 * 0) with dst by lia. rewrite H2 by lia. rewrite lookup_insert_eq.
        by replace (src + 4 * 0) with src by lia.
      * replace (dst + 4 * i) with (dst + 4 + 4 * (i - 1)) by lia. rewrite H1 by lia.
        replace (src + 4 + 4 * (i - 1)) with (src + 4 * i) by lia. apply lookup_insert_ne.
        specialize (Hd i 0). lia.
    + intros w Hw. rewrite H2; [apply lookup_insert_ne; specialize (Hw 0); lia|].
      intros i Hi. specialize (Hw (i + 1)). lia.
    + intros w. rewrite H3. by apply insert_dom_same.
Qed.

(** ** A new block *)

Definition fresh_chunk (b : Z) : hdr := mkHdr 0 (mkFlags true false false 8388600) b.

Lemma geo_new I C b : geo (normal I) C -> I !! b = None -> 0 < b -> b mod 8 = 0 -> b + 8388608 < 4294967296 ->
  (forall b', normal I b' -> b + 8388608 <= b' \/ b' + 8388608 <= b) ->
  geo (normal (<[b := None]> I)) (<[b + 8 := fresh_chunk b]> C).
Proof.
  intros [G0 G1 G2 G3 G4 G5 G6 G7 G8] Hb Hb0 Hb8 Hb32 Hd.
  assert (Hn : forall b', normal (<[b := None]> I) b' <-> b' = b \/ normal I b').
  { intros b'. unfold normal. rewrite lookup_insert. case_decide; subst; [naive_solver|]. naive_solver. }
  assert (Hout : forall a x, C !! a = Some x -> a + k_len x <= b \/ b + 8388608 + 8 <= a).
  { intros a x Ex. destruct (G1 _ _ Ex) as (A1 & _ & _ & _ & A5 & A6 & _). specialize (Hd _ A1). lia. }
  assert (Hnew : forall a x, <[b + 8 := fresh_chunk b]> C !! a = Some x ->
            a = b + 8 /\ x = fresh_chunk b \/ a <> b + 8 /\ C !! a = Some x).
  { intros a x. rewrite lookup_insert. case_decide; [intros [= <-]; by left|right; split; [congruence|done]]. }
  assert (Hold : forall a x, C !! a = Some x -> <[b + 8 := fresh_chunk b]> C !! a = Some x).
  { intros a x Ex. destruct (G1 _ _ Ex) as (A1 & _ & _ & A4 & A5 & A6 & _). pose proof (Hout _ _ Ex).
    rewrite lookup_insert_ne by lia. done. }
  split.
  - intros b' [->|Hb']%Hn; [done|auto].
  - intros a x [[-> ->]|[_ Ex]]%Hnew.
    + change (k_len (fresh_chunk b)) with 8388600. cbn [fresh_chunk k_blk k_prev]. rewrite Hn.
      repeat (split; [by left || lia || (Z.div_mod_to_equations; lia)|]). lia.
    + rewrite Hn. destruct (G1 _ _ Ex) as (A1 & A2 & A3 & A4 & A5 & A6 & A7).
      repeat (split; [done || by right|]). done.
  - intros a x [[-> ->]|[_ Ex]]%Hnew; [done|eauto].
  - intros a x [[-> ->]|[_ Ex]]%Hnew; [cbn; lia|auto].
  - intros a x [[-> ->]|[_ Ex]]%Hnew; [|auto].
    change (k_len (fresh_chunk b)) with 8388600. change (k_last (fresh_chunk b)) with true. cbn. lia.
  - intros a x [[-> ->]|[_ Ex]]%Hnew Hl; [done|]. destruct (G5 _ _ Ex Hl) as (y & Ey & Hy). eauto.
  - intros a x [[-> ->]|[_ Ex]]%Hnew Hl; [done|]. destruct (G6 _ _ Ex Hl) as (y & Ey & Hy). eauto.
  - intros a x a' x' [[-> ->]|[_ Ex]]%Hnew [[-> ->]|[_ Ex']]%Hnew Hlt; [lia| | |eauto].
    + change (k_len (fresh_chunk b)) with 8388600. pose proof (Hout _ _ Ex').
      destruct (G1 _ _ Ex') as (_ & _ & _ & A4 & _). lia.
    + pose proof (Hout _ _ Ex). lia.
  - intros b' [->|Hb']%Hn; [exists (fresh_chunk b); by rewrite lookup_insert_eq|].
    destruct (G8 _ Hb') as (y & Ey & Hy). eauto.
Qed.

Lemma inv_new I C R b : inv (normal I) ∅ 0 C [] R -> I !! b = None -> 0 < b -> b mod 8 = 0 ->
  b + 8388608 < 4294967296 ->
  (forall b', normal I b' -> b + 8388608 <= b' \/ b' + 8388608 <= b) ->
  inv (normal (<[b := None]> I)) ∅ 0 (<[b + 8 := fresh_chunk b]> C) [b + 8] R.
Proof.
  intros HI Hb Hb0 Hb8 Hb32 Hd. pose proof HI as [G I2 I3 I4 I5 I6 I7 I8].
  assert (Hout : forall a x, C !! a = Some x -> a <> b + 8 /\ a <> b + 8388608 /\ a + k_len x <> b + 8).
  { intros a x Ex. destruct (g_chunk _ _ G _ _ Ex) as (A1 & _ & _ & A4 & A5 & A6 & _). specialize (Hd _ A1). lia. }
  split.
  - by apply geo_new.
  - intros w a k [v Hv]. done.
  - intros x [->|Hx]%elem_of_cons.
    + exists (fresh_chunk b). rewrite lookup_insert_eq. done.
    + destruct (I3 x Hx) as (y & Ey & Hy). destruct (Hout _ _ Ey) as [? _].
      exists y. by rewrite lookup_insert_ne by congruence.
  - intros a x. rewrite lookup_insert. case_decide; [intros; subst; by left|].
    intros Ex Hu Hl Hn. right. by eapply I4.
  - intros [|Hx]%elem_of_cons; [lia|done].
  - intros x y Hx. apply list_elem_of_singleton in Hx as ->. rewrite lookup_insert_eq. by intros [= <-].
  - intros x y Hx. by apply elem_of_nil in Hx.
  - intros a x x'. rewrite lookup_insert. case_decide; [by intros [= <-]|].
    intros Ex Hl. destruct (Hout _ _ Ex) as (_ & _ & ?). rewrite lookup_insert_ne by congruence.
    intros. by eapply I8.
Qed.

(** The system gives a range that none of the blocks has. *)
Lemma os_alloc_run I L C M R h n :
  ghost I L C M R h -> 16 <= n < 4294967296 -> vec_avail (os h) n = true ->
  exists b h1, os_alloc n h = Some (b, h1) /\ I !! b = None /\ 0 < b /\ b mod 8 = 0 /\ b + n < 4294967296 /\
    block_list h1 = block_list h /\ master_head h1 = master_head h /\ recycler_head h1 = recycler_head h /\
    (forall w, b <= w < b + n -> words h !! w = None) /\
    (forall w, b <= w < b + n -> w mod 4 = 0 -> is_Some (words h1 !! w)) /\
    (forall w, ~ (b <= w < b + n) -> words h1 !! w = words h !! w) /\
    (forall q, vec_size (os h1) q = if decide (q = b) then Some n else vec_size (os h) q) /\
    (forall b' i, I !! b' = Some i -> b + n <= b' \/ b' + extent i <= b) /\
    (forall w, vec_free (os h1) w -> words h1 !! w = None).
Proof.
  intros HG Hn Hav.
  destruct (AllocVec_works n (os h) (words h)) as (p & o' & m' & E & Hp0 & Hp8 & Hp32 & Hvf & Hvf' & Hin & Hout & Hsz); [lia|done|].
  assert (Hfree : forall w, p <= w < p + n -> words h !! w = None) by (intros w Hw; apply (h_unmapped _ _ _ _ _ _ HG), Hvf, Hw).
  assert (Hd : forall b' i, I !! b' = Some i -> p + n <= b' \/ b' + extent i <= p).
  { intros b' i Ei. destruct (h_block _ _ _ _ _ _ HG _ _ Ei) as (B1 & B2 & B3 & B4 & _).
    destruct (Z_le_gt_dec (p + n) b') as [|Hgt]; [by left|]. destruct (Z_le_gt_dec (b' + extent i) p) as [|Hgt']; [by right|].
    exfalso. set (w := Z.max p b'). assert (Hw : w mod 4 = 0).
    { unfold w. destruct (Z.max_spec p b') as [[_ ->]|[_ ->]]; Z.div_mod_to_equations; lia. }
    assert (Hno : words h !! w = None) by (apply Hfree; unfold w; lia).
    destruct (h_mapped _ _ _ _ _ _ HG _ _ w Ei) as [v Hv]; [unfold w; lia|done|]. congruence. }
  exists p, (mkHeap _ m' o' (block_list h) (master_head h) (recycler_head h)).
  split; [unfold os_alloc; by rewrite E|].
  split.
  { apply eq_None_not_Some. intros [i Ei]. destruct (h_block _ _ _ _ _ _ HG _ _ Ei) as (_ & _ & B3 & _).
    specialize (Hd _ _ Ei). lia. }
  cbn. repeat (split; [done|]). intros w Hw. destruct (Hvf' w Hw) as [Hw1 Hw2]. rewrite Hout by done.
  by apply (h_unmapped _ _ _ _ _ _ HG).
Qed.

(** The list of the blocks of [I], ready for another one. *)
Lemma ghost_blocks I L C M R h b :
  ghost I L C M R h -> I !! b = None ->
  block_list h = hd 0 L /\ NoDup (b :: L) /\
  (forall x, x ∈ L -> 0 < x /\ x mod 8 = 0 /\ is_Some (words h !! x) /\ is_Some (words h !! (x + 4))) /\
  (forall x w, x ∈ L -> x <= w < x + 8 -> outside I w).
Proof.
  intros HG Hb. destruct (h_view _ _ _ _ _ _ HG) as (P & N & HL & Hrep).
  split; [exact (rep_block_list _ _ _ _ _ _ Hrep)|]. split.
  { apply NoDup_cons. split; [|exact (h_nodup _ _ _ _ _ _ HG)]. rewrite (h_dom _ _ _ _ _ _ HG), Hb.
    apply is_Some_None. }
  split.
  - intros x [i Ei]%(h_dom _ _ _ _ _ _ HG). destruct (h_block _ _ _ _ _ _ HG _ _ Ei) as (B1 & B2 & B3 & B4 & _).
    split; [done|]. split; [done|].
    split; eapply (h_mapped _ _ _ _ _ _ HG); eauto; try lia; Z.div_mod_to_equations; lia.
  - intros x w [i Ei]%(h_dom _ _ _ _ _ _ HG) Hw b' Hb'.
    destruct (h_block _ _ _ _ _ _ HG _ _ Ei) as (B1 & B2 & B3 & B4 & _).
    destruct (Z.lt_trichotomy x b') as [Hl|[->|Hl]]; [|lia|].
    + pose proof (h_disj _ _ _ _ _ _ HG _ _ _ _ Ei Hb' Hl). lia.
    + pose proof (h_disj _ _ _ _ _ _ HG _ _ _ _ Hb' Ei Hl) as Hx. cbn in Hx. lia.
Qed.

(** A block got from the system and put on the list. *)
Lemma get_block_run I L C M R h n :
  ghost I L C M R h -> 16 <= n < 4294967296 -> vec_avail (os h) n = true ->
  exists b h1 h2, os_alloc n h = Some (b, h1) /\ wmem_block_add_to_block_list b h1 = Some (tt, h2) /\
    I !! b = None /\ 0 < b /\ b mod 8 = 0 /\ b + n < 4294967296 /\
    block_list h2 = b /\ master_head h2 = master_head h /\ recycler_head h2 = recycler_head h /\
    linked (fun x => words h2 !! (x + 4)) (b :: L ++ [0]) /\ back (fun x => words h2 !! x) (0 :: b :: L) /\
    (forall q, vec_size (os h2) q = if decide (q = b) then Some n else vec_size (os h) q) /\
    (forall b' i, I !! b' = Some i -> b + n <= b' \/ b' + extent i <= b) /\
    (forall w, b <= w < b + n -> words h !! w = None) /\
    (forall w, b <= w < b + n -> w mod 4 = 0 -> is_Some (words h2 !! w)) /\
    (forall w, ~ (b <= w < b + n) -> w ∉ L -> words h2 !! w = words h !! w) /\
    (forall w, is_Some (words h !! w) -> is_Some (words h2 !! w)) /\
    (forall w, vec_free (os h2) w -> words h2 !! w = None).
Proof.
  intros HG Hn Hav.
  destruct (os_alloc_run _ _ _ _ _ _ n HG Hn Hav)
    as (b & h1 & E1 & Hb & Hb0 & Hb8 & Hb32 & F1 & F2 & F3 & Hfree & Hin & Hout & Hsz & Hd & Hun).
  destruct (ghost_blocks _ _ _ _ _ _ b HG Hb) as (Ebl & Hnd & HL & _).
  assert (HoutL : forall x w, x ∈ L -> x <= w < x + 8 -> ~ (b <= w < b + n)).
  { intros x w [i Ei]%(h_dom _ _ _ _ _ _ HG) Hw. specialize (Hd _ _ Ei).
    destruct (h_block _ _ _ _ _ _ HG _ _ Ei) as (_ & _ & B3 & _). lia. }
  destruct (add_block_run h1 L b) as (h2 & E2 & K1 & K2 & K3 & K4 & K5 & K6 & K7 & K8); [congruence|done|done|done|..].
  - intros x Hx. destruct (HL x Hx) as (? & ? & ? & _). rewrite Hout by (apply (HoutL x); [done|lia]). done.
  - apply Hin; [lia|Z.div_mod_to_equations; lia].
  - apply Hin; [lia|Z.div_mod_to_equations; lia].
  - eapply linked_ext; [exact (h_next _ _ _ _ _ _ HG)|]. intros x Hx. apply Hout. apply (HoutL x); [done|lia].
  - eapply back_ext; [exact (h_prev _ _ _ _ _ _ HG)|]. intros x Hx. apply Hout. apply (HoutL x); [done|lia].
  - exists b, h1, h2. repeat (split; [first [done|congruence]|]).
    split; [intros q; rewrite K2; apply Hsz|]. split; [done|]. split; [done|]. split; [|split; [|split]].
    + intros w Hw Hw4. rewrite K8. by apply Hin.
    + intros w Hw HwL. rewrite <- (Hout w Hw). apply K7; [lia..|]. congruence.
    + intros w Hw. rewrite K8. destruct (decide (b <= w < b + n)) as [Hi|Ho]; [|by rewrite Hout].
      rewrite Hfree in Hw by done. by apply is_Some_None in Hw.
    + intros w. rewrite K2. intros Hw%Hun. by apply unmapped_same with (words h1).
Qed.

Lemma outside_block I L C M R h b i w :
  ghost I L C M R h -> I !! b = Some i -> b <= w < b + extent i -> (i = None -> w < b + 8) -> outside I w.
Proof.
  intros HG Ei Hw Hi b' Hb'. destruct (h_block _ _ _ _ _ _ HG _ _ Ei) as (_ & _ & B3 & _).
  destruct (Z.lt_trichotomy b b') as [Hl|[->|Hl]].
  - pose proof (h_disj _ _ _ _ _ _ HG _ _ _ _ Ei Hb' Hl). lia.
  - unfold normal in Hb'. left. apply Hi. congruence.
  - pose proof (h_disj _ _ _ _ _ _ HG _ _ _ _ Hb' Ei Hl) as Hx. cbn in Hx. lia.
Qed.

Lemma init_block_spec I C R b D bl o Q :
  inv (normal I) D 0 C [] R -> 0 < b -> b mod 8 = 0 -> b + 8388608 < 4294967296 ->
  (forall b', normal I b' -> b + 8388608 <= b' \/ b' + 8388608 <= b) ->
  (forall w, b + 8 <= w < b + 8388608 -> D !! w = None) ->
  Q tt (<[b + 8 := fresh_chunk b]> C) [b + 8] R ->
  wpl D (in_chunks (<[b := None]> I)) bl o (wmem_block_init_block b) C [] R Q.
Proof.
  intros HI Hb0 Hb8 Hb32 Hd HD HQ.
  assert (HC : forall a x, C !! a = Some x -> a + 8 <= b \/ b + 8388608 <= a).
  { intros a x Ex. destruct (g_chunk _ _ (i_geo _ _ _ _ _ _ HI) _ _ Ex) as (A1 & _ & _ & A4 & A5 & A6 & _).
    specialize (Hd _ A1). lia. }
  assert (HR : forall a, a ∈ R -> a + 8 <= b \/ b + 8388608 <= a).
  { intros a Ha. destruct (i_listed _ _ _ _ _ _ HI a Ha) as (x & Ex & _). eauto. }
  assert (Hroom : forall a, a mod 8 = 0 -> b + 8 <= a -> a + 8 <= b + 8388608 ->
            room D (in_chunks (<[b := None]> I)) a).
  { intros a Ha8 Hlo Hhi. unfold room, in_chunks.
    split; [|split; [|split; apply HD; lia]]; exists b; (split; [by apply lookup_insert_eq|]);
      (split; [lia|Z.div_mod_to_equations; lia]). }
  assert (Et : WMEM_BLOCK_TO_CHUNK b = b + 8).
  { unfold WMEM_BLOCK_TO_CHUNK. rewrite (proj1 (proj2 header_sizes)). apply u32_id. lia. }
  unfold wmem_block_init_block. rewrite Et, (proj1 (proj2 header_sizes)).
  change (WMEM_BLOCK_SIZE - 8) with 8388600.
  apply (wpl_new_hdr _ _ _ _ _ b (b + 8)).
  - unfold hdr_addr. Z.div_mod_to_equations. lia.
  - apply Hroom; [Z.div_mod_to_equations; lia|lia..].
  - intros Hx. cbn in Hx. specialize (HR _ Hx). lia.
  - intros pv f Hf. run. rewrite !insert_insert_eq. apply wpl_push.
    + unfold link_addr. Z.div_mod_to_equations. lia.
    + apply Hroom; [Z.div_mod_to_equations; lia|lia..].
    + rewrite lookup_insert_ne by lia. apply eq_None_not_Some. intros [x Hx]. specialize (HC _ _ Hx). lia.
    + intros Hx. cbn in Hx. specialize (HR _ Hx). lia.
    + exact HQ.
Qed.

(** The state with one more block. *)
Lemma ghost_more I L C M R h b i C' M' R' h' :
  ghost I L C M R h -> I !! b = None -> 0 < b -> b mod 8 = 0 -> 16 <= extent i -> b + extent i < 4294967296 ->
  (exists P N, lists P N M' R' /\
    rep ∅ (in_chunks (<[b := i]> I)) b (os h') (mkView C' P N (hd 0 M') (hd 0 R')) h') ->
  inv (normal (<[b := i]> I)) ∅ 0 C' M' R' ->
  linked (fun x => words h' !! (x + 4)) (b :: L ++ [0]) -> back (fun x => words h' !! x) (0 :: b :: L) ->
  (forall q, vec_size (os h') q = if decide (q = b) then Some (extent i) else vec_size (os h) q) ->
  (forall b' i', I !! b' = Some i' -> b + extent i <= b' \/ b' + extent i' <= b) ->
  (forall w, b <= w < b + extent i -> w mod 4 = 0 -> is_Some (words h' !! w)) ->
  (forall n, i = Some n -> 8388608 < n /\ exists w, words h' !! (b + 12) = Some w /\ jumbo (unpack w) = true) ->
  (forall w v, words h !! w = Some v -> outside I w -> w ∉ L -> words h' !! w = Some v) ->
  (forall w, is_Some (words h !! w) -> w ∈ L -> is_Some (words h' !! w)) ->
  (forall w, vec_free (os h') w -> words h' !! w = None) ->
  ghost (<[b := i]> I) (b :: L) C' M' R' h'.
Proof.
  intros HG Hb Hb0 Hb8 Hn Hb32 Hview HI Hnext Hprev Hsz Hd Hin Hj Hold HoldL Hun.
  destruct (ghost_blocks _ _ _ _ _ _ b HG Hb) as (Ebl & Hnd & HL & HLo).
  assert (Hcase : forall b' i', <[b := i]> I !! b' = Some i' -> b' = b /\ i' = i \/ b' <> b /\ I !! b' = Some i').
  { intros b' i'. rewrite lookup_insert. case_decide; [intros [= <-]; by left|right; split; [congruence|done]]. }
  assert (HjL : forall b' n w, I !! b' = Some (Some n) -> b' < w -> w < b' + n -> outside I w /\ w ∉ L).
  { intros b' n w Ei Hlo Hhi. split.
    - eapply outside_block; [done|done|cbn; lia|done].
    - intros [j Ej]%(h_dom _ _ _ _ _ _ HG). pose proof (h_disj _ _ _ _ _ _ HG _ _ _ _ Ei Ej Hlo) as Hx.
      cbn in Hx. lia. }
  split; try done.
  - intros x. rewrite elem_of_cons, (h_dom _ _ _ _ _ _ HG), lookup_insert_is_Some'. naive_solver.
  - intros b' i' [[-> ->]|[Hne Ei]]%Hcase.
    + rewrite Hsz, decide_True by done. repeat (split; [done|]). done.
    + rewrite Hsz, decide_False by done. exact (h_block _ _ _ _ _ _ HG _ _ Ei).
  - intros b' i' w [[-> ->]|[Hne Ei]]%Hcase Hw Hw4; [auto|]. destruct i' as [n|].
    + destruct (h_mapped _ _ _ _ _ _ HG _ _ w Ei Hw Hw4) as [v Hv].
      destruct (decide (w ∈ L)) as [HwL|HwL]; [apply HoldL; [by eexists|done]|].
      exists v. apply Hold; [done| |done]. eapply outside_block; [done|done|cbn in *; lia|done].
    + destruct Hview as (P & N & _ & Hrep). apply (rep_mapped _ _ _ _ _ _ Hrep). exists b'.
      unfold normal. by rewrite lookup_insert_ne by congruence.
  - intros b' n [[-> Ei]|[Hne Ei]]%Hcase; [by apply Hj|].
    destruct (h_jumbo _ _ _ _ _ _ HG _ _ Ei) as (Hn8 & w & Ew & Hw). split; [done|]. exists w. split; [|done].
    destruct (HjL _ _ (b' + 12) Ei) as [Ho HoL]; [lia..|]. by apply Hold.
  - intros b1 i1 b2 i2 [[-> ->]|[_ E1]]%Hcase [[-> ->]|[_ E2]]%Hcase Hlt; [lia| | |].
    + destruct (Hd _ _ E2); [done|]. destruct (h_block _ _ _ _ _ _ HG _ _ E2) as (_ & _ & ? & _). lia.
    + destruct (Hd _ _ E1); [lia|done].
    + exact (h_disj _ _ _ _ _ _ HG _ _ _ _ E1 E2 Hlt).
Qed.

Lemma new_block_run I L C R h :
  ghost I L C [] R h -> vec_avail (os h) 8388608 = true ->
  exists b h', wmem_block_new_block h = Some (tt, h') /\ I !! b = None /\
    ghost (<[b := None]> I) (b :: L) (<[b + 8 := fresh_chunk b]> C) [b + 8] R h' /\
    (forall w v, words h !! w = Some v -> prot C w -> w ∉ L ->
       words h' !! w = Some v /\ ~ (b <= w < b + 8388608)).
Proof.
  intros HG Hav. pose proof (h_inv _ _ _ _ _ _ HG) as HI.
  destruct (get_block_run _ _ _ _ _ _ 8388608 HG) as (b & h1 & h2 & E1 & E2 & Hb & Hb0 & Hb8 & Hb32 & K1 & K2 & K3 &
    K4 & K5 & K6 & Hd & Hfree & Hin & Hout & Hdom & Hun); [lia|done|].
  destruct (ghost_blocks _ _ _ _ _ _ b HG Hb) as (Ebl & Hnd & HL & HLo).
  assert (Hdn : forall b', normal I b' -> b + 8388608 <= b' \/ b' + 8388608 <= b).
  { intros b' Hb'. exact (Hd _ _ Hb'). }
  set (D := kept C h2 (b + 8) (b + 8388608)).
  destruct (h_view _ _ _ _ _ _ HG) as (P & N & HLs & Hrep).
  assert (Hrep2 : rep ∅ (in_chunks (<[b := None]> I)) b (os h2) (mkView C P N (hd 0 []) (hd 0 R)) h2).
  { eapply rep_agree; [exact HG|done|exact Hrep| | |done|done|done|done].
    - intros b' w Hb' Hw. apply Hout; [specialize (Hdn _ Hb'); lia|].
      intros HwL. pose proof (HLo w w HwL ltac:(lia) _ Hb'). lia.
    - intros w (b' & Hb' & Hw & Hw4). unfold normal in Hb'. rewrite lookup_insert in Hb'. case_decide.
      + subst b'. by apply Hin.
      + apply Hdom. by eapply (h_mapped _ _ _ _ _ _ HG). }
  assert (HID : inv (normal I) D 0 C [] R) by (by eapply inv_kept).
  assert (HD : forall w v, D !! w = Some v -> words h2 !! w = Some v) by (intros w v Hw; by apply lookup_kept in Hw as []).
  pose proof (rep_keep _ _ _ _ _ _ _ _ _ _ _ _ HID HLs HD Hrep2) as Hrep3.
  destruct (init_block_spec I C R b D b (os h2) (fun _ C' M' R' =>
      C' = <[b + 8 := fresh_chunk b]> C /\ M' = [b + 8] /\ R' = R) HID Hb0 Hb8 Hb32 Hdn)
    with (P := P) (N := N) (h := h2) as ([] & h3 & [C' P' N' m' r'] & E3 & Hrep4 & M' & R' & HL' & Hm & Hr & EC & EM & ER);
    [|done|done|done|].
  { intros w Hw. apply eq_None_not_Some. intros [v Hv]. apply lookup_kept in Hv as (_ & _ & ?). lia. }
  cbn in Hm, Hr, HL', EC. subst C' M' R' m' r'.
  exists b, h3. assert (Hkeep : forall w v, words h2 !! w = Some v -> prot C w -> w < b + 8 \/ b + 8388608 <= w ->
    words h3 !! w = Some v).
  { intros w v Hv Hp Hw. apply (rep_data _ _ _ _ _ _ Hrep4). by apply lookup_kept. }
  split; [unfold wmem_block_new_block, wbind; change WMEM_BLOCK_SIZE with 8388608; by rewrite E1, E2|].
  split; [done|].
  assert (Ho : forall w, w < b + 8 \/ b + 8388608 <= w -> outside I w -> is_Some (words h2 !! w) -> words h3 !! w = words h2 !! w).
  { intros w Hw Hwo [v Hv]. rewrite Hv. apply Hkeep; [done| |done]. by eapply prot_outside. }
  assert (Hbo : forall w, b <= w < b + 8388608 -> outside I w) by (intros w Hw b' Hb'; specialize (Hdn _ Hb'); lia).
  assert (Eos : os h3 = os h2) by exact (rep_os _ _ _ _ _ _ Hrep4).
  assert (HL8 : forall x, x ∈ b :: L -> x mod 8 = 0).
  { intros x [->|Hx]%elem_of_cons; [done|]. by apply HL. }
  assert (Hhd : forall x w, x ∈ b :: L -> x <= w < x + 8 -> w mod 4 = 0 -> words h3 !! w = words h2 !! w).
  { intros x w [->|Hx]%elem_of_cons Hw Hw4.
    - apply Ho; [lia|apply Hbo; lia|]. apply Hin; [lia|done].
    - pose proof Hx as [i Ei]%(h_dom _ _ _ _ _ _ HG). destruct (h_block _ _ _ _ _ _ HG _ _ Ei) as (_ & _ & B3 & _).
      specialize (Hd _ _ Ei). apply Ho; [lia|by eapply HLo|]. apply Hdom.
      eapply (h_mapped _ _ _ _ _ _ HG); [done|lia|done]. }
  split.
  - eapply ghost_more; [exact HG|done|done|done|cbn; lia|done| | | | |intros q; rewrite Eos; apply K6|exact Hd| |done| | |].
    + exists P', N'. split; [done|]. rewrite Eos. by eapply rep_empty.
    + by apply inv_new.
    + eapply (linked_ext _ _ (b :: L) 0); [exact K4|]. intros x Hx.
      apply (Hhd x); [done|lia|]. pose proof (HL8 x Hx). Z.div_mod_to_equations. lia.
    + eapply (back_ext _ _ 0 (b :: L)); [exact K5|]. intros x Hx.
      apply (Hhd x); [done|lia|]. pose proof (HL8 x Hx). Z.div_mod_to_equations. lia.
    + intros w Hw Hw4. apply (rep_mapped _ _ _ _ _ _ Hrep4). exists b. split; [by apply lookup_insert_eq|]. done.
    + intros w v Hv Hwo HwL. destruct (decide (b <= w < b + 8388608)) as [Hi|Hi].
      { rewrite Hfree in Hv by done. done. }
      rewrite Ho; [by rewrite Hout|lia|done|]. apply Hdom. by eexists.
    + intros w Hw HwL. rewrite (Hhd w); [by apply Hdom|by right|lia|].
      pose proof (HL8 w ltac:(by right)). Z.div_mod_to_equations. lia.
    + intros w. rewrite Eos. intros Hw%Hun. destruct (tame_init_block _ _ _ _ E3) as [_ Hd3].
      by apply unmapped_same with (words h2).
  - intros w v Hv Hp HwL. destruct (decide (b <= w < b + 8388608)) as [Hi|Hi].
    { rewrite Hfree in Hv by done. done. }
    split; [|done]. apply Hkeep; [by rewrite Hout|done|lia].
Qed.

(** ** Allocating *)

Lemma in_chunks_mapped I b w : normal I b -> b <= w < b + 8388608 -> w mod 4 = 0 -> in_chunks I w.
Proof. intros Hb Hw H4. by exists b. Qed.

Lemma data_len_run I L C M R h a k : ghost I L C M R h -> C !! a = Some k ->
  WMEM_CHUNK_DATA_LEN a h = Some (k_len k - 8, h).
Proof.
  intros HG Ek. destruct (h_view _ _ _ _ _ _ HG) as (P & N & _ & Hrep).
  destruct (inv_pos _ _ _ _ _ _ _ _ (h_inv _ _ _ _ _ _ HG) Ek) as (_ & _ & _ & Hl & _).
  destruct (rep_hdr _ _ _ _ _ _ Hrep a k Ek) as (_ & w & Ew & Eu).
  unfold WMEM_CHUNK_DATA_LEN, chunk_len, chunk_flags, wbind. rewrite (rd_run _ _ _ Ew), Eu. unfold wret.
  rewrite (proj1 header_sizes). fold (k_len k). rewrite u32_id by lia. done.
Qed.

Lemma heads_run I L C M R h : ghost I L C M R h ->
  get_master h = Some (hd 0 M, h) /\ get_recycler h = Some (hd 0 R, h).
Proof.
  intros HG. destruct (h_view _ _ _ _ _ _ HG) as (P & N & _ & Hrep).
  unfold get_master, get_recycler. by rewrite (rep_master _ _ _ _ _ _ Hrep), (rep_recycler _ _ _ _ _ _ Hrep).
Qed.

(** A step on the chunks of the blocks there are, with what it keeps. *)
Lemma chunk_step {A} (c : W A) I L C M R h lo hi Q :
  ghost I L C M R h -> tame c ->
  (forall w, lo <= w < hi -> ~ outside I w) ->
  wpl (kept C h lo hi) (in_chunks I) (hd 0 L) (os h) c C M R
    (fun a C' M' R' => inv (normal I) (kept C h lo hi) 0 C' M' R' /\ Q a C' M' R') ->
  exists a h' C' M' R', c h = Some (a, h') /\ Q a C' M' R' /\ ghost I L C' M' R' h' /\ os h' = os h /\
    (forall w v, words h !! w = Some v -> prot C w -> w < lo \/ hi <= w -> words h' !! w = Some v).
Proof.
  intros HG Ht Hlo Hc. pose proof (h_inv _ _ _ _ _ _ HG) as HI.
  assert (HD : forall w v, kept C h lo hi !! w = Some v -> words h !! w = Some v).
  { intros w v Hw. by apply lookup_kept in Hw as []. }
  destruct (lift c _ I L C M R h _ HG HD (inv_kept _ _ _ _ _ _ _ _ HI) Hc)
    as (a & h' & C' & M' & R' & P & N & E & [HI' HQ] & HL & Hrep).
  exists a, h', C', M', R'. split; [done|]. split; [done|].
  assert (Hk : forall w v, words h !! w = Some v -> prot C w -> w < lo \/ hi <= w -> words h' !! w = Some v).
  { intros w v Hv Hp Hw. apply (rep_data _ _ _ _ _ _ Hrep). by apply lookup_kept. }
  split; [|split; [exact (rep_os _ _ _ _ _ _ Hrep)|done]].
  eapply ghost_step; [done|done|done|done| |exact (proj2 (Ht _ _ _ E))]. intros w v Hv Ho. apply Hk; [done|by eapply prot_outside|].
  destruct (decide (lo <= w < hi)) as [Hi|]; [|lia]. exfalso. by apply (Hlo w).
Qed.

(** The head of the master stack moved to the recycler. *)
Lemma recycle_head_run I L C c M R h : ghost I L C (c :: M) R h ->
  exists h' R', wbind get_master (fun chunk => wbind wmem_block_pop_master (fun _ =>
      wmem_block_add_to_recycler chunk)) h = Some (tt, h') /\
    ghost I L C M R' h' /\ os h' = os h /\
    (forall w v, words h !! w = Some v -> prot C w -> words h' !! w = Some v).
Proof.
  intros HG. pose proof (h_inv _ _ _ _ _ _ HG) as HI.
  destruct (i_listed _ _ _ _ _ _ HI c) as (k & Ek & Hu & Hl); [by left|].
  pose proof (inv_pos _ _ _ _ _ _ _ _ HI Ek) as (A1 & A2 & A3 & A4 & A5 & _).
  destruct (chunk_step (wbind get_master (fun chunk => wbind wmem_block_pop_master (fun _ =>
      wmem_block_add_to_recycler chunk))) I L C (c :: M) R h 0 0 (fun _ C' M' R' => C' = C /\ M' = M) HG)
    as ([] & h' & C' & M' & R' & E & [-> ->] & HG' & Eo & Hk); [repeat tame1|lia| |].
  - pose proof (inv_kept _ _ _ _ _ h 0 0 HI) as HIk.
    apply wpl_nodup. intros Hnd _. apply NoDup_cons in Hnd as [Hc _].
    apply wpl_bind, wpl_get_master, wpl_bind, wpl_pop. cbn [hd].
    eapply wpl_add; [exact Ek|lia|done| | |lia|].
    + intros _. split; [unfold link_addr; lia|]. split.
      * eapply (room_inside (normal I)); [apply in_chunks_mapped|exact HIk|exact Ek|done|Z.div_mod_to_equations; lia|lia|lia].
      * apply eq_None_not_Some. intros [z Hz].
        pose proof (split_inside _ _ _ _ (i_geo _ _ _ _ _ _ HI) Ek _ _ Hz). lia.
    + intros y Hy. destruct (i_listed _ _ _ _ _ _ HI y) as (z & Ez & _); [|by eexists].
      apply elem_of_app. by right.
    + intros _ R' Hp. split; [|done]. eapply inv_ext; [exact HIk| | |].
      * intros x. rewrite !elem_of_app, Hp, !elem_of_cons. tauto.
      * intros x Hx. by right.
      * intros x Hx. cbn. by destruct M; [|right].
  - exists h', R'. split; [done|]. split; [done|]. split; [done|]. intros w v Hv Hpr. apply Hk; [done|done|lia].
Qed.

(** The blocks after a step that may get one more. *)
Definition grown (I I' : blocks) : Prop := I' = I \/ exists b, I !! b = None /\ I' = <[b := None]> I.

(** The word is not in a block that the step has got. *)
Definition not_new (I I' : blocks) (w : Z) : Prop :=
  forall b i, I' !! b = Some i -> I !! b = None -> ~ (b <= w < b + extent i).

Lemma not_new_refl I w : not_new I I w.
Proof. intros b i E1 E2. congruence. Qed.

Lemma not_new_insert I b i w : ~ (b <= w < b + extent i) -> not_new I (<[b := i]> I) w.
Proof. intros Hw b' i' E1 E2. rewrite lookup_insert in E1. case_decide; [by simplify_eq|congruence]. Qed.

(** Where a step that allocates [n] bytes at [p] and may get a block keeps the
    words of [h]. *)
Definition keeps (I : blocks) (C : gmap Z hdr) (L : list Z) (h : heap) (I' : blocks) (h' : heap) (p n : Z) : Prop :=
  forall w v, words h !! w = Some v -> prot C w -> w ∉ L ->
    words h' !! w = Some v /\ ~ (p <= w < p + n) /\ not_new I I' w.

(** A whole chunk of the master stack serves every request. *)
Lemma whole_chunk blk D C M R x k : inv blk D 0 C M R -> C !! x = Some k -> k_prev k = 0 -> k_last k = true ->
  k_len k = 8388600.
Proof.
  intros HI Ek Hp Hl. pose proof (i_geo _ _ _ _ _ _ HI) as G.
  apply (g_first _ _ G _ _ Ek) in Hp. apply (g_last _ _ G _ _ Ek) in Hl. lia.
Qed.

(** The chunk that [wmem_block_alloc] chooses. *)
Record chosen (I : blocks) (L : list Z) (C : gmap Z hdr) (h : heap) (size : Z)
    (c : Z) (I' : blocks) (L' : list Z) (C' : gmap Z hdr) (M' R' : list Z) (h' : heap) : Prop := {
  c_ghost : ghost I' L' C' M' R' h';
  c_chunk : exists k, C' !! c = Some k /\ k_used k = false /\ size + 8 <= k_len k;
  c_where : c ∈ R' \/ hd 0 M' = c;
  c_used a m : used_at C' a m <-> used_at C a m;
  c_blocks : grown I I';
  c_list x : x ∈ L -> x ∈ L';
  c_keeps w v : words h !! w = Some v -> prot C w -> w ∉ L ->
    words h' !! w = Some v /\ prot C' w /\ (w ∉ L') /\ not_new I I' w;
}.

(** The master stack is not empty any more. *)
Lemma master_run I L C M R h size :
  ghost I L C M R h -> 0 < size <= 8388592 -> vec_avail (os h) 8388608 = true ->
  (forall k, C !! hd 0 M = Some k -> M <> [] -> size + 8 <= k_len k) ->
  exists c I' L' C' M' h',
    wbind get_master (fun m => wbind (if m =? NULL then wmem_block_new_block else wret tt) (fun _ =>
      get_master)) h = Some (c, h') /\
    chosen I L C h size c I' L' C' M' R h'.
Proof.
  intros HG Hs Hav Hfit. pose proof (h_inv _ _ _ _ _ _ HG) as HI.
  destruct (heads_run _ _ _ _ _ _ HG) as [Em _]. unfold wbind at 1. rewrite Em. destruct M as [|m M]; cbn [hd].
  - change (0 =? NULL) with true. cbn beta iota.
    destruct (new_block_run _ _ _ _ _ HG Hav) as (b & h' & E & Hb & HG' & Hk).
    unfold wbind. rewrite E. destruct (heads_run _ _ _ _ _ _ HG') as [-> _]. cbn [hd].
    exists (b + 8), (<[b := None]> I), (b :: L), (<[b + 8 := fresh_chunk b]> C), [b + 8], h'. split; [done|].
    pose proof (i_geo _ _ _ _ _ _ (h_inv _ _ _ _ _ _ HG')) as G'.
    assert (HbC : C !! (b + 8) = None).
    { apply eq_None_not_Some. intros [x Ex].
      destruct (g_chunk _ _ (i_geo _ _ _ _ _ _ HI) _ _ Ex) as (A1 & _ & _ & A4 & A5 & A6 & _).
      assert (k_blk x <> b) by (intros Hx; unfold normal in A1; congruence).
      assert (E1 : <[b := None]> I !! k_blk x = Some None) by (by rewrite lookup_insert_ne by congruence).
      assert (E2 : <[b := None]> I !! b = Some None) by (by rewrite lookup_insert_eq).
      destruct (Z.lt_trichotomy b (k_blk x)) as [Hl|[Hx|Hl]]; [|congruence|].
      - pose proof (h_disj _ _ _ _ _ _ HG' _ _ _ _ E2 E1 Hl) as Hx. cbn in Hx. lia.
      - pose proof (h_disj _ _ _ _ _ _ HG' _ _ _ _ E1 E2 Hl) as Hx. cbn in Hx. lia. }
    split; [done| |by right| |right; by exists b|by right|].
    + exists (fresh_chunk b). rewrite lookup_insert_eq. split; [done|]. split; [done|].
      change (k_len (fresh_chunk b)) with 8388600. lia.
    + intros a m. unfold used_at. rewrite lookup_insert. case_decide; [|done]. subst a. split.
      * intros (x & [= <-] & Hx & _). done.
      * intros (x & Ex & _). congruence.
    + intros w v Hv Hp HwL. destruct (Hk w v Hv Hp HwL) as [Hw Hout]. split; [done|]. split.
      * intros a k. rewrite lookup_insert. case_decide; [intros [= <-]; subst a|apply Hp].
        change (k_len (fresh_chunk b)) with 8388600. lia.
      * split; [intros [->|]%elem_of_cons; [lia|done]|by apply not_new_insert].
  - assert (Hm0 : m <> 0).
    { intros ->. apply (inv_null _ _ _ _ _ _ HI). by left. }
    rewrite (proj2 (Z.eqb_neq m NULL)) by done. cbn beta iota. unfold wbind, wret. rewrite Em. cbn [hd].
    exists m, I, L, C, (m :: M), h. split; [done|].
    destruct (i_listed _ _ _ _ _ _ HI m) as (k & Ek & Hu & _); [by left|].
    split; [done| |by right|done|by left|done|by auto using not_new_refl].
    exists k. split; [done|]. split; [done|]. by apply Hfit.
Qed.

Lemma select_run I L C M R h size :
  ghost I L C M R h -> 0 < size <= 8388592 -> vec_avail (os h) 8388608 = true ->
  exists c I' L' C' M' R' h',
    wbind get_recycler (fun r => wbind (
      if r =? NULL then wret false
      else wbind (WMEM_CHUNK_DATA_LEN r) (fun d => wret (size <=? d))) (fun fits =>
      if fits then get_recycler
      else wbind get_master (fun m => wbind (
        if m =? NULL then wret false
        else wbind (WMEM_CHUNK_DATA_LEN m) (fun d => wret (d <? size))) (fun short =>
        wbind (if short then wbind get_master (fun chunk => wbind wmem_block_pop_master (fun _ =>
                 wmem_block_add_to_recycler chunk)) else wret tt) (fun _ =>
        wbind get_master (fun m => wbind (if m =? NULL then wmem_block_new_block else wret tt) (fun _ =>
          get_master))))))) h = Some (c, h') /\
    chosen I L C h size c I' L' C' M' R' h'.
Proof.
  intros HG Hs Hav. pose proof (h_inv _ _ _ _ _ _ HG) as HI.
  destruct (heads_run _ _ _ _ _ _ HG) as [Em Er].
  unfold wbind at 1. rewrite Er.
  (* not from the recycler *)
  assert (Hmaster : exists c I' L' C' M' R' h',
    wbind get_master (fun m => wbind (
        if m =? NULL then wret false
        else wbind (WMEM_CHUNK_DATA_LEN m) (fun d => wret (d <? size))) (fun short =>
        wbind (if short then wbind get_master (fun chunk => wbind wmem_block_pop_master (fun _ =>
                 wmem_block_add_to_recycler chunk)) else wret tt) (fun _ =>
        wbind get_master (fun m => wbind (if m =? NULL then wmem_block_new_block else wret tt) (fun _ =>
          get_master))))) h = Some (c, h') /\
    chosen I L C h size c I' L' C' M' R' h').
  { unfold wbind at 1. rewrite Em. destruct M as [|m M]; cbn [hd].
    - change (0 =? NULL) with true. cbn beta iota.
      destruct (master_run _ _ _ _ _ _ size HG Hs Hav) as (c & I' & L' & C' & M' & h' & E & Hc); [done|].
      exists c, I', L', C', M', R, h'. split; [|done]. unfold wbind at 1. cbn [wret]. unfold wbind at 1. exact E.
    - assert (Hm0 : m <> 0).
      { intros ->. apply (inv_null _ _ _ _ _ _ HI). by left. }
      rewrite (proj2 (Z.eqb_neq m NULL)) by done. cbn beta iota.
      destruct (i_listed _ _ _ _ _ _ HI m) as (k & Ek & Hu & Hl); [by left|].
      unfold wbind at 1, wbind at 1. rewrite (data_len_run _ _ _ _ _ _ _ _ HG Ek). unfold wret at 1.
      destruct (Z.ltb_spec (k_len k - 8) size) as [Hlt|Hge].
      + destruct (recycle_head_run _ _ _ _ _ _ _ HG) as (h1 & R1 & E1 & HG1 & Eo & Hk1).
        unfold wbind at 1. rewrite E1.
        destruct (master_run _ _ _ _ _ _ size HG1 Hs) as (c & I' & L' & C' & M' & h' & E & Hc); [by rewrite Eo| |].
        { intros x Ex HM. destruct M as [|y M]; [done|]. cbn [hd] in Ex.
          rewrite (whole_chunk _ _ _ _ _ _ _ HI Ex); [lia| |].
          - apply (i_tail _ _ _ _ _ _ HI y); [by left|done].
          - apply (i_master _ _ _ _ _ _ HI y); [right; by left|done]. }
        exists c, I', L', C', M', R1, h'. split; [exact E|]. destruct Hc as [F1 F2 F3 F4 F5 F6 F7]. split; auto.
      + destruct (master_run _ _ _ _ _ _ size HG Hs Hav) as (c & I' & L' & C' & M' & h' & E & Hc).
        { cbn [hd]. intros x Ex _. simplify_eq. lia. }
        exists c, I', L', C', M', R, h'. split; [|done]. unfold wbind at 1, wret at 1. exact E. }
  destruct R as [|r R]; cbn [hd].
  - change (0 =? NULL) with true. cbn beta iota. unfold wbind at 1, wret at 1. exact Hmaster.
  - assert (Hr0 : r <> 0).
    { intros ->. apply (inv_null _ _ _ _ _ _ HI), elem_of_app. right. by left. }
    rewrite (proj2 (Z.eqb_neq r NULL)) by done. cbn beta iota.
    destruct (i_listed _ _ _ _ _ _ HI r) as (k & Ek & Hu & Hl); [apply elem_of_app; right; by left|].
    unfold wbind at 1, wbind at 1. rewrite (data_len_run _ _ _ _ _ _ _ _ HG Ek). unfold wret at 1.
    destruct (Z.leb_spec size (k_len k - 8)) as [Hle|Hgt]; [|exact Hmaster].
    exists r, I, L, C, M, (r :: R), h. split; [exact Er|].
    split; [done| |left; by left|done|by left|done|by auto using not_new_refl].
    exists k. split; [done|]. split; [done|]. lia.
Qed.

Lemma wbind_assoc {A B D} (a : W A) (f : A -> W B) (g : B -> W D) h :
  wbind (wbind a f) g h = wbind a (fun x => wbind (f x) g) h.
Proof. unfold wbind. by destruct (a h) as [[]|]. Qed.

Lemma wbind_ext {A B} (a : W A) (f g : A -> W B) h : (forall x h', f x h' = g x h') -> wbind a f h = wbind a g h.
Proof. intros E. unfold wbind. by destruct (a h) as [[]|]. Qed.

Lemma alloc_run I L C M R h size :
  ghost I L C M R h -> 0 < size <= 8388592 -> vec_avail (os h) 8388608 = true ->
  exists I' L' C' M' R' h' a n, wmem_block_alloc size h = Some (a + 8, h') /\
    ghost I' L' C' M' R' h' /\ grown I I' /\ a mod 8 = 0 /\ 0 < a /\ size <= n /\
    (forall x m, used_at C' x m <-> (x = a /\ m = n + 8) \/ used_at C x m) /\
    (forall m, ~ used_at C a m) /\
    keeps I C L h I' h' (a + 8) n.
Proof.
  intros HG Hs Hav.
  destruct (select_run _ _ _ _ _ _ size HG Hs Hav) as (c & I1 & L1 & C1 & M1 & R1 & h1 & E1 & Hc).
  destruct Hc as [HG1 (k & Ek & Hu & Hl) Hw Hused Hb HL Hk].
  pose proof (h_inv _ _ _ _ _ _ HG1) as HI1.
  destruct (chunk_step (wbind (wmem_block_split_free_chunk c size) (fun _ =>
       wbind wmem_block_cycle_recycler (fun _ => wbind (set_used c true) (fun _ =>
       wret (WMEM_CHUNK_TO_DATA c))))) I1 L1 C1 M1 R1 h1 0 0
       (fun p C' _ _ => p = c + 8 /\ exists n, size + 8 <= n <= k_len k /\
          forall x m, used_at C' x m <-> (x = c /\ m = n) \/ used_at C1 x m) HG1)
    as (p & h2 & C2 & M2 & R2 & E2 & (-> & n & Hn & Hu2) & HG2 & Eo & Hk2); [repeat tame1|lia| |].
  { eapply (alloc_chunk_spec (normal I1)); [apply in_chunks_mapped|by eapply inv_kept|exact Ek|done|done|lia|lia|].
    intros C' M' R' n HI' Hn Hu'. split; [done|]. split; [done|]. exists n. split; [lia|done]. }
  exists I1, L1, C2, M2, R2, h2, c, (n - 8).
  pose proof (inv_pos _ _ _ _ _ _ _ _ HI1 Ek) as (A1 & A2 & _).
  split; [|split; [done|split; [done|split; [done|split; [done|split; [lia|split; [|split]]]]]]].
  - unfold wmem_block_alloc. rewrite (proj2 (proj2 header_sizes)).
    destruct (Z.ltb_spec 8388592 size); [lia|].
    transitivity (wbind (wbind get_recycler (fun r => wbind (
      if r =? NULL then wret false
      else wbind (WMEM_CHUNK_DATA_LEN r) (fun d => wret (size <=? d))) (fun fits =>
      if fits then get_recycler
      else wbind get_master (fun m => wbind (
        if m =? NULL then wret false
        else wbind (WMEM_CHUNK_DATA_LEN m) (fun d => wret (d <? size))) (fun short =>
        wbind (if short then wbind get_master (fun chunk => wbind wmem_block_pop_master (fun _ =>
                 wmem_block_add_to_recycler chunk)) else wret tt) (fun _ =>
        wbind get_master (fun m => wbind (if m =? NULL then wmem_block_new_block else wret tt) (fun _ =>
          get_master))))))))
      (fun c => wbind (wmem_block_split_free_chunk c size) (fun _ =>
       wbind wmem_block_cycle_recycler (fun _ => wbind (set_used c true) (fun _ =>
       wret (WMEM_CHUNK_TO_DATA c))))) h).
    + rewrite wbind_assoc. apply wbind_ext. intros r h'. rewrite wbind_assoc. done.
    + unfold wbind at 1. rewrite E1. exact E2.
  - intros x m. rewrite Hu2, Hused. replace (n - 8 + 8) with n by lia. done.
  - intros m Hm. apply Hused in Hm as (x & Ex & Hx & _). congruence.
  - intros w v Hv Hp HwL. destruct (Hk w v Hv Hp HwL) as (Hv1 & Hp1 & _ & Hnn). split; [apply Hk2; [done|done|lia]|].
    split; [|done]. destruct (Hp1 _ _ Ek) as [_ Hf]. specialize (Hf Hu). lia.
Qed.

(** *** Jumbo blocks *)

Lemma set_flags_run c g h w : words h !! (c + 4) = Some w ->
  set_flags c g h = Some (tt, with_words h (<[c + 4 := pack (g (unpack w))]> (words h))).
Proof.
  intros E. unfold set_flags, wbind. rewrite (rd_run _ _ _ E). apply wr_run. by eexists.
Qed.

Lemma set_flags_again c g h m w :
  set_flags c g (with_words h (<[c + 4 := w]> m)) =
  Some (tt, with_words h (<[c + 4 := pack (g (unpack w))]> m)).
Proof.
  rewrite (set_flags_run _ _ _ w) by (cbn; apply lookup_insert_eq). unfold with_words. cbn.
  by rewrite insert_insert_eq.
Qed.

(** The header of a jumbo chunk is written. *)
Lemma jumbo_header_run c h : is_Some (words h !! c) -> is_Some (words h !! (c + 4)) ->
  exists w, jumbo (unpack w) = true /\
    wbind (set_last c true) (fun _ => wbind (set_used c true) (fun _ => wbind (set_jumbo c true) (fun _ =>
      wbind (set_len c 0) (fun _ => wbind (set_prev c 0) (fun _ => wret (WMEM_CHUNK_TO_DATA c)))))) h =
    Some (WMEM_CHUNK_TO_DATA c, with_words h (<[c := 0]> (<[c + 4 := w]> (words h)))).
Proof.
  intros Hc [w0 E0]. set (f := mkFlags true true true 0). exists (pack f).
  split; [by rewrite unpack_pack by (cbn; lia)|].
  pose proof (unpack_len w0) as Hl0.
  unfold wbind, set_last, set_used, set_jumbo, set_len, set_prev.
  rewrite (set_flags_run _ _ _ _ E0).
  do 3 (rewrite set_flags_again, unpack_pack by exact Hl0; cbn [last used jumbo len]).
  rewrite wr_run; [done|]. cbn. rewrite lookup_insert_ne by lia. done.
Qed.

Lemma alloc_jumbo_run I L C M R h size :
  ghost I L C M R h -> 8388592 < size -> size + 16 < 4294967296 -> vec_avail (os h) (size + 16) = true ->
  exists b h', wmem_block_alloc size h = Some (b + 16, h') /\
    I !! b = None /\ ghost (<[b := Some (size + 16)]> I) (b :: L) C M R h' /\
    (forall w v, words h !! w = Some v -> w ∉ L ->
       words h' !! w = Some v /\ ~ (b <= w < b + (size + 16))).
Proof.
  intros HG Hs Hs32 Hav. pose proof (h_inv _ _ _ _ _ _ HG) as HI.
  destruct (get_block_run _ _ _ _ _ _ (size + 16) HG) as (b & h1 & h2 & E1 & E2 & Hb & Hb0 & Hb8 & Hb32 & K1 & K2 & K3 &
    K4 & K5 & K6 & Hd & Hfree & Hin & Hout & Hdom & Hun); [lia|done|].
  destruct (ghost_blocks _ _ _ _ _ _ b HG Hb) as (Ebl & Hnd & HL & HLo).
  destruct (jumbo_header_run (b + 8) h2) as (w & Hw & E3);
    [apply Hin; [lia|Z.div_mod_to_equations; lia]|apply Hin; [lia|Z.div_mod_to_equations; lia]|].
  assert (Et : WMEM_BLOCK_TO_CHUNK b = b + 8).
  { unfold WMEM_BLOCK_TO_CHUNK. rewrite (proj1 (proj2 header_sizes)). apply u32_id. lia. }
  assert (Et2 : WMEM_CHUNK_TO_DATA (b + 8) = b + 16).
  { unfold WMEM_CHUNK_TO_DATA. rewrite (proj1 header_sizes), u32_id by lia. lia. }
  rewrite Et2 in E3. replace (b + 8 + 4) with (b + 12) in E3 by lia.
  remember (with_words h2 (<[b + 8 := 0]> (<[b + 12 := w]> (words h2)))) as h3 eqn:Eh3.
  assert (Hw3 : forall x, x <> b + 8 -> x <> b + 12 -> words h3 !! x = words h2 !! x).
  { intros x H1 H2. subst h3. cbn. by rewrite !lookup_insert_ne by congruence. }
  assert (Hdom3 : forall x, is_Some (words h3 !! x) <-> is_Some (words h2 !! x)).
  { intros x. subst h3. cbn. rewrite !insert_dom_same; [done|..].
    - apply Hin; [lia|Z.div_mod_to_equations; lia].
    - rewrite lookup_insert_ne by lia. apply Hin; [lia|Z.div_mod_to_equations; lia]. }
  assert (Hkeep : forall x v, words h !! x = Some v -> x ∉ L ->
    words h3 !! x = Some v /\ ~ (b <= x < b + (size + 16))).
  { intros x v Hv HxL. assert (Hx : ~ (b <= x < b + (size + 16))).
    { intros Hx. rewrite Hfree in Hv by done. done. }
    split; [|done]. rewrite Hw3 by lia. by rewrite Hout. }
  assert (HLb : forall x, x ∈ L -> x + 8 <= b \/ b + (size + 16) <= x).
  { intros x [i Ei]%(h_dom _ _ _ _ _ _ HG). destruct (h_block _ _ _ _ _ _ HG _ _ Ei) as (_ & _ & ? & _).
    specialize (Hd _ _ Ei). lia. }
  assert (Hn : forall b', normal (<[b := Some (size + 16)]> I) b' <-> normal I b').
  { intros b'. unfold normal. rewrite lookup_insert. case_decide; [|done]. subst. split; congruence. }
  exists b, h3. split; [|split; [done|split; [|done]]].
  - unfold wmem_block_alloc. rewrite (proj2 (proj2 header_sizes)). destruct (Z.ltb_spec 8388592 size); [|lia].
    unfold wmem_block_alloc_jumbo. rewrite (proj1 header_sizes), (proj1 (proj2 header_sizes)).
    rewrite (u32_id (size + 8 + 8)) by lia. replace (size + 8 + 8) with (size + 16) by lia.
    unfold wbind at 1. rewrite E1. unfold wbind at 1. rewrite E2, Et, Et2. exact E3.
  - assert (Ho3 : os h3 = os h2) by (by subst h3).
    eapply ghost_more; [exact HG|done|done|done|cbn; lia|done| | | | |intros q; rewrite Ho3; apply K6|exact Hd| | | | |].
    + destruct (h_view _ _ _ _ _ _ HG) as (P & N & HLs & Hrep). exists P, N. split; [done|].
      eapply rep_agree; [exact HG|done|exact Hrep| | |by subst h3|done|by subst h3|by subst h3].
      * intros b' x Hb' Hx. pose proof (Hd _ _ Hb') as Hdb. cbn in Hdb. rewrite Hw3 by lia. apply Hout; [lia|].
        intros HxL. pose proof (HLo x x HxL ltac:(lia) _ Hb'). lia.
      * intros x (b' & Hb' & Hx & Hx4). apply Hn in Hb'. apply Hdom3, Hdom. by eapply (h_mapped _ _ _ _ _ _ HG).
    + pose proof HI as [G]. split; try done. destruct G as [G0 G1 G2 G3 G4 G5 G6 G7 G8]. split; try done.
      * intros b' Hb'. by apply G0, Hn.
      * intros a x Ex. rewrite Hn. auto.
      * intros b' Hb'. by apply G8, Hn.
    + eapply (linked_ext _ _ (b :: L) 0); [exact K4|]. intros x [->|Hx]%elem_of_cons; [apply Hw3; lia|].
      specialize (HLb _ Hx). apply Hw3; lia.
    + eapply (back_ext _ _ 0 (b :: L)); [exact K5|]. intros x [->|Hx]%elem_of_cons; [apply Hw3; lia|].
      specialize (HLb _ Hx). apply Hw3; lia.
    + intros x Hx Hx4. apply Hdom3. by apply Hin.
    + intros n [= <-]. split; [lia|]. exists w. split; [|done]. subst h3. cbn.
      rewrite lookup_insert_ne by lia. by rewrite lookup_insert_eq.
    + intros x v Hv _ HxL. by apply Hkeep.
    + intros x Hx HxL. apply Hdom3, Hdom, Hx.
    + intros x. rewrite Ho3. intros Hx%Hun. by apply unmapped_same with (words h2).
Qed.

(** ** Freeing *)

Lemma remove_block_run h l1 b l2 :
  block_list h = hd 0 (l1 ++ b :: l2) -> NoDup (l1 ++ b :: l2) ->
  (forall x, x ∈ l1 ++ b :: l2 -> 0 < x /\ x mod 8 = 0 /\ is_Some (words h !! x) /\ is_Some (words h !! (x + 4))) ->
  linked (fun x => words h !! (x + 4)) ((l1 ++ b :: l2) ++ [0]) ->
  back (fun x => words h !! x) (0 :: l1 ++ b :: l2) ->
  exists h', wmem_block_remove_from_block_list b h = Some (tt, h') /\
    block_list h' = hd 0 (l1 ++ l2) /\ os h' = os h /\ master_head h' = master_head h /\ recycler_head h' = recycler_head h /\
    linked (fun x => words h' !! (x + 4)) ((l1 ++ l2) ++ [0]) /\ back (fun x => words h' !! x) (0 :: l1 ++ l2) /\
    (forall w, (forall x, x ∈ l1 ++ l2 -> w <> x /\ w <> x + 4) -> words h' !! w = words h !! w) /\
    (forall w, is_Some (words h' !! w) <-> is_Some (words h !! w)).
Proof.
  intros Ebl Hnd HL Hn Hp.
  rewrite <- app_assoc in Hn. change ((b :: l2) ++ [0]) with (b :: (l2 ++ [0])) in Hn.
  change (0 :: l1 ++ b :: l2) with ((0 :: l1) ++ b :: l2) in Hp.
  assert (Hnb : words h !! (b + 4) = Some (hd 0 l2)).
  { apply linked_app in Hn as [_ Hn]. destruct l2; by destruct Hn. }
  assert (Hn2 : linked (fun x => words h !! (x + 4)) (l2 ++ [0])).
  { apply linked_app in Hn as [_ Hn]. destruct l2; by destruct Hn. }
  pose proof (proj1 (back_app _ _ _ _) Hp) as [Hp1 Hp2].
  destruct (HL b) as (Hb0 & Hb8 & _); [apply elem_of_app; right; by left|].
  (* the address the previous link of [b] holds *)
  assert (Hnd' : (b ∉ l1 ++ l2) /\ NoDup (l1 ++ l2)).
  { rewrite <- Permutation_middle in Hnd. by apply NoDup_cons in Hnd. }
  destruct Hnd' as [Hbn Hnd'].
  set (m2 := fun (p : Z) (m : gmap Z Z) => match l2 with [] => m | y :: _ => <[y := p]> m end).
  assert (Hm2 : forall p m w, (forall x, x ∈ l2 -> w <> x) -> m2 p m !! w = m !! w).
  { intros p m w Hw. unfold m2. destruct l2 as [|y l2]; [done|]. apply lookup_insert_ne. intros ->.
    by apply (Hw w); [left|]. }
  assert (Hm24 : forall p m x, x mod 8 = 0 -> m2 p m !! (x + 4) = m !! (x + 4)).
  { intros p m x Hx. apply Hm2. intros y Hy. destruct (HL y) as (? & ? & _); [set_solver|].
    Z.div_mod_to_equations. lia. }
  assert (Hdom2 : forall p m w, (forall x, is_Some (m !! x) <-> is_Some (words h !! x)) ->
            is_Some (m2 p m !! w) <-> is_Some (words h !! w)).
  { intros p m w Hm. unfold m2. destruct l2 as [|y l2]; [done|]. rewrite insert_dom_same; [done|].
    apply Hm. apply HL. set_solver. }
  (* the end of the run: the next block gets the previous link [p] *)
  assert (Hend : forall p g, words g !! b = Some p -> words g !! (b + 4) = Some (hd 0 l2) ->
     (forall x, x ∈ l2 -> is_Some (words g !! x)) ->
     wbind (rd (b + 4)) (fun next => if negb (next =? NULL) then
       wbind (rd (b + 4)) (fun next => wbind (rd b) (fun prev => wr next prev)) else wret tt) g =
     Some (tt, with_words g (m2 p (words g)))).
  { intros p g Eb En Hm. unfold wbind. rewrite (rd_run _ _ _ En). unfold m2. destruct l2 as [|y l2]; cbn [hd].
    - change (0 =? NULL) with true. cbn [negb]. unfold wret, with_words. by destruct g.
    - destruct (HL y) as (Hy0 & _); [set_solver|].
      rewrite (proj2 (Z.eqb_neq y NULL)) by (unfold NULL; lia). cbn [negb].
      rewrite (rd_run _ _ _ En), (rd_run _ _ _ Eb). rewrite wr_run; [done|]. apply Hm. by left. }
  assert (Hback2 : forall p m, (forall x, x ∈ l2 -> m !! x = words h !! x) ->
            back (fun x => m2 p m !! x) (p :: l2)).
  { intros p m Hm. unfold m2. destruct l2 as [|y l2]; [done|]. split; [by rewrite lookup_insert_eq|].
    destruct Hp2 as [_ Hp2]. eapply back_ext; [exact Hp2|]. intros x Hx.
    rewrite lookup_insert_ne; [apply Hm; by right|]. intros ->.
    apply NoDup_app in Hnd' as (_ & _ & Hnd'). by apply NoDup_cons in Hnd' as []. }
  destruct l1 as [|p0 l1].
  - destruct Hp as [Hpb _]. cbn [app] in *.
    exists (mkHeap _ (m2 0 (words h)) (os h) (hd 0 l2) (master_head h) (recycler_head h)).
    split; [|repeat (split; [done|]); split; [|split; [|split]]].
    + unfold wmem_block_remove_from_block_list. unfold wbind at 1. rewrite (rd_run _ _ _ Hpb).
      change (0 =? NULL) with true. cbn [negb]. unfold wbind at 1, wbind at 1. rewrite (rd_run _ _ _ Hnb).
      unfold set_block_list. rewrite (Hend 0); [done|done|done|]. intros x Hx. apply HL. by right.
    + cbn [words]. eapply linked_ext; [exact Hn2|]. intros x Hx. apply Hm24. apply HL. by right.
    + cbn [words]. by apply Hback2.
    + cbn [words]. intros w Hw. apply Hm2. intros x Hx. by apply Hw.
    + cbn [words]. intros w. by apply Hdom2.
  - destruct (snoc_cases p0 l1) as (l1' & p & El). rewrite El in *. clear El p0 l1.
    rewrite <- app_assoc in Hn. cbn [app] in Hn. pose proof Hn as Hn'. apply linked_app in Hn' as [Hn1 [Hpb _]].
    assert (Epb : words h !! b = Some p).
    { change (0 :: l1' ++ [p]) with ((0 :: l1') ++ [p]) in Hp. rewrite <- app_assoc in Hp.
      change ([p] ++ b :: l2) with (p :: b :: l2) in Hp. apply back_app in Hp as [_ [Hp _]]. exact Hp. }
    destruct (HL p) as (Hp0 & Hp8 & _ & Hmp4); [set_solver|].
    assert (Hpl : (p ∉ l1') /\ (p ∉ l2)).
    { rewrite <- app_assoc in Hnd'. cbn [app] in Hnd'. rewrite <- Permutation_middle in Hnd'.
      apply NoDup_cons in Hnd' as [Hx _]. set_solver. }
    set (m1 := <[p + 4 := hd 0 l2]> (words h)).
    assert (Hm18 : forall x, x mod 8 = 0 -> m1 !! x = words h !! x).
    { intros x Hx. unfold m1. apply lookup_insert_ne. Z.div_mod_to_equations. lia. }
    exists (mkHeap _ (m2 p m1) (os h) (block_list h) (master_head h) (recycler_head h)).
    split; [|split; [|repeat (split; [done|]); split; [|split; [|split]]]].
    + unfold wmem_block_remove_from_block_list. unfold wbind at 1. rewrite (rd_run _ _ _ Epb).
      rewrite (proj2 (Z.eqb_neq p NULL)) by (unfold NULL; lia). cbn [negb].
      assert (Hw : wbind (rd b) (fun prev => wbind (rd (b + 4)) (fun next => wr (prev + 4) next)) h =
                   Some (tt, with_words h m1)).
      { unfold wbind. rewrite (rd_run _ _ _ Epb), (rd_run _ _ _ Hnb). by rewrite wr_run. }
      unfold wbind at 1. rewrite Hw. rewrite (Hend p); [done|..]; cbn [with_words words].
      * by rewrite Hm18.
      * unfold m1. rewrite lookup_insert_ne; [done|]. intros E. assert (p = b) by lia. subst. set_solver.
      * intros x Hx. destruct (HL x) as (? & Hx8 & Hmx & _); [set_solver|]. by rewrite Hm18.
    + cbn [block_list]. rewrite Ebl. by destruct l1'.
    + cbn [words]. rewrite <- !app_assoc. cbn [app].
      assert (Hnew : linked (fun x => m2 p m1 !! (x + 4)) (l1' ++ p :: (l2 ++ [0]))).
      { apply linked_app. split.
        - eapply linked_ext; [exact Hn1|]. intros x Hx. destruct (HL x) as (_ & Hx8 & _); [set_solver|].
          rewrite Hm24 by done. unfold m1. apply lookup_insert_ne. intros E. assert (p = x) by lia. set_solver.
        - assert (Hl2 : linked (fun x => m2 p m1 !! (x + 4)) (l2 ++ [0])).
          { eapply linked_ext; [exact Hn2|]. intros x Hx. destruct (HL x) as (_ & Hx8 & _); [set_solver|].
            rewrite Hm24 by done. unfold m1. apply lookup_insert_ne. intros E. assert (p = x) by lia. set_solver. }
          assert (Ep : m2 p m1 !! (p + 4) = Some (hd 0 l2)) by (rewrite Hm24 by done; unfold m1; by rewrite lookup_insert_eq).
          destruct l2; by split. }
      done.
    + cbn [words]. rewrite <- app_assoc. cbn [app]. change (0 :: l1' ++ p :: l2) with ((0 :: l1') ++ p :: l2).
      apply back_app. split.
      * apply (back_ext (fun x => words h !! x) _ 0 (l1' ++ [p])).
        { change (0 :: (l1' ++ [p])) with ((0 :: l1' ++ [p])). change ((0 :: l1' ++ [p]) ++ [b]) with (0 :: (l1' ++ [p]) ++ [b]) in Hp1.
          rewrite <- app_assoc in Hp1. change (0 :: l1' ++ [p] ++ [b]) with ((0 :: l1') ++ p :: [b]) in Hp1.
          by apply back_app in Hp1 as [Hp1 _]. }
        intros x Hx. destruct (HL x) as (_ & Hx8 & _); [set_solver|]. rewrite Hm2; [by apply Hm18|].
        intros y Hy ->. apply NoDup_app in Hnd' as (_ & Hnd' & _). by apply (Hnd' y).
      * apply Hback2. intros x Hx. apply Hm18. apply HL. set_solver.
    + cbn [words]. intros w Hw. rewrite Hm2.
      * unfold m1. apply lookup_insert_ne. destruct (Hw p); [set_solver|]. congruence.
      * intros x Hx. apply Hw. set_solver.
    + cbn [words]. intros w. apply Hdom2. intros x. unfold m1. by apply insert_dom_same.
Qed.

Lemma to_chunk a : 0 <= a -> a + 8 < 4294967296 -> WMEM_DATA_TO_CHUNK (a + 8) = a.
Proof. intros H1 H2. unfold WMEM_DATA_TO_CHUNK. rewrite (proj1 header_sizes), u32_id by lia. lia. Qed.

Lemma chunk_jumbo_run I L C M R h a k : ghost I L C M R h -> C !! a = Some k ->
  chunk_jumbo a h = Some (false, h).
Proof.
  intros HG Ek. destruct (h_view _ _ _ _ _ _ HG) as (P & N & _ & Hrep).
  destruct (rep_hdr _ _ _ _ _ _ Hrep a k Ek) as (_ & w & Ew & Eu).
  unfold chunk_jumbo, chunk_flags, wbind. rewrite (rd_run _ _ _ Ew), Eu. unfold wret.
  by rewrite (g_jumbo _ _ (i_geo _ _ _ _ _ _ (h_inv _ _ _ _ _ _ HG)) _ _ Ek).
Qed.

Lemma chunk_not_outside I D C M R a k w : inv (normal I) D 0 C M R -> C !! a = Some k ->
  a <= w < a + k_len k -> ~ outside I w.
Proof.
  intros HI Ek Hw Ho. destruct (g_chunk _ _ (i_geo _ _ _ _ _ _ HI) _ _ Ek) as (A1 & _ & _ & _ & A5 & A6 & _).
  specialize (Ho _ A1). lia.
Qed.

Lemma free_run I L C M R h a k :
  ghost I L C M R h -> C !! a = Some k -> k_used k = true ->
  exists h' C' M' R', wmem_block_free (a + 8) h = Some (tt, h') /\ ghost I L C' M' R' h' /\ os h' = os h /\
    (forall x m, used_at C' x m <-> x <> a /\ used_at C x m) /\
    (forall w v, words h !! w = Some v -> prot C w -> w < a \/ a + k_len k <= w -> words h' !! w = Some v).
Proof.
  intros HG Ek Hu. pose proof (h_inv _ _ _ _ _ _ HG) as HI.
  pose proof (inv_pos _ _ _ _ _ _ _ _ HI Ek) as (A1 & A2 & A3 & A4 & A5 & _).
  destruct (chunk_step (wbind (set_used a false) (fun _ => wbind (wmem_block_merge_free a) (fun _ =>
       wmem_block_cycle_recycler))) I L C M R h a (a + k_len k)
       (fun _ C' _ _ => forall x m, used_at C' x m <-> x <> a /\ used_at C x m) HG)
    as ([] & h' & C' & M' & R' & E & Hused & HG' & Eo & Hk).
  - repeat tame1.
  - intros w Hw. by eapply chunk_not_outside.
  - eapply (free_chunk_spec (normal I)); [apply in_chunks_mapped|by eapply inv_kept|exact Ek|done| |].
    + intros w [v Hv]. by apply lookup_kept in Hv as (_ & _ & ?).
    + intros C' M' R' HI' Hused. done.
  - exists h', C', M', R'. split; [|by auto].
    unfold wmem_block_free. rewrite to_chunk by lia. unfold wbind at 1.
    rewrite (chunk_jumbo_run _ _ _ _ _ _ _ _ HG Ek). exact E.
Qed.

Lemma free_jumbo_run I L C M R h b n :
  ghost I L C M R h -> I !! b = Some (Some n) ->
  exists L' h', wmem_block_free (b + 16) h = Some (tt, h') /\ ghost (delete b I) L' C M R h' /\
    (forall x, x ∈ L' <-> x ∈ L /\ x <> b) /\
    (forall w v, words h !! w = Some v -> ~ (b <= w < b + n) ->
       (forall x, x ∈ L -> w <> x /\ w <> x + 4) -> words h' !! w = Some v).
Proof.
  intros HG Ei. pose proof (h_inv _ _ _ _ _ _ HG) as HI.
  destruct (h_block _ _ _ _ _ _ HG _ _ Ei) as (B1 & B2 & B3 & B4 & B5). cbn in B3, B4, B5.
  destruct (h_jumbo _ _ _ _ _ _ HG _ _ Ei) as (Hn & w0 & Ew & Hw0).
  assert (HbL : b ∈ L) by (apply (h_dom _ _ _ _ _ _ HG); by eexists).
  assert (HL : forall x, x ∈ L -> 0 < x /\ x mod 8 = 0 /\ is_Some (words h !! x) /\ is_Some (words h !! (x + 4))).
  { intros x [i Ex]%(h_dom _ _ _ _ _ _ HG). destruct (h_block _ _ _ _ _ _ HG _ _ Ex) as (D1 & D2 & D3 & D4 & _).
    split; [done|]. split; [done|].
    split; eapply (h_mapped _ _ _ _ _ _ HG); eauto; try lia; Z.div_mod_to_equations; lia. }
  assert (Hdis : forall b' i w, I !! b' = Some i -> b' <> b -> b' <= w < b' + extent i -> ~ (b <= w < b + n)).
  { intros b' i w Ex Hne Hw Hw'. destruct (Z.lt_trichotomy b b') as [Hl|[?|Hl]]; [|congruence|].
    - pose proof (h_disj _ _ _ _ _ _ HG _ _ _ _ Ei Ex Hl) as Hx. cbn in Hx. lia.
    - pose proof (h_disj _ _ _ _ _ _ HG _ _ _ _ Ex Ei Hl). lia. }
  destruct (h_view _ _ _ _ _ _ HG) as (P & N & HLs & Hrep).
  apply list_elem_of_split in HbL as (l1 & l2 & ->).
  destruct (remove_block_run h l1 b l2) as (h1 & E1 & K1 & K2 & K3 & K4 & K5 & K6 & K7 & K8);
    [exact (rep_block_list _ _ _ _ _ _ Hrep)|exact (h_nodup _ _ _ _ _ _ HG)|done
    |exact (h_next _ _ _ _ _ _ HG)|exact (h_prev _ _ _ _ _ _ HG)|].
  destruct (FreeVec_works b (os h1) (words h1) n) as (o' & m' & E2 & F1 & F2 & F4 & F3); [by rewrite K2|].
  assert (Hnd : (b ∉ l1 ++ l2) /\ NoDup (l1 ++ l2)).
  { pose proof (h_nodup _ _ _ _ _ _ HG) as Hx. rewrite <- Permutation_middle in Hx. by apply NoDup_cons in Hx. }
  destruct Hnd as [Hbn Hnd].
  assert (Hmem : forall x, x ∈ l1 ++ l2 <-> x ∈ l1 ++ b :: l2 /\ x <> b).
  { intros x. rewrite <- Permutation_middle, elem_of_cons. split; [intros Hx; split; [by right|congruence]|tauto]. }
  assert (Hkeep : forall w v, words h !! w = Some v -> ~ (b <= w < b + n) ->
       (forall x, x ∈ l1 ++ b :: l2 -> w <> x /\ w <> x + 4) -> m' !! w = Some v).
  { intros w v Hv Hw Hx. rewrite F1 by done. rewrite K7; [done|]. intros x Hxi. apply Hx, Hmem. done. }
  exists (l1 ++ l2), (mkHeap _ m' o' (block_list h1) (master_head h1) (recycler_head h1)).
  split; [|split; [|split; [done|done]]].
  - unfold wmem_block_free. replace (b + 16) with (b + 8 + 8) by lia. rewrite to_chunk by lia.
    unfold wbind at 1, chunk_jumbo, chunk_flags. unfold wbind at 1 2. replace (b + 8 + 4) with (b + 12) by lia.
    rewrite (rd_run _ _ _ Ew). unfold wret at 1 2. rewrite Hw0. unfold wmem_block_free_jumbo.
    assert (Eb : WMEM_CHUNK_TO_BLOCK (b + 8) = b).
    { unfold WMEM_CHUNK_TO_BLOCK. rewrite (proj1 (proj2 header_sizes)), u32_id by lia. lia. }
    rewrite Eb. unfold wbind. rewrite E1. unfold os_free. by rewrite E2.
  - assert (Hn' : forall b', normal (delete b I) b' <-> normal I b').
    { intros b'. unfold normal. rewrite lookup_delete_Some. split; [tauto|]. intros Hb'. split; [congruence|done]. }
    assert (Hcase : forall b' i, delete b I !! b' = Some i -> b' <> b /\ I !! b' = Some i).
    { intros b' i. rewrite lookup_delete_Some. intros [? ?]. split; [congruence|done]. }
    assert (Hhdr : forall x w, x ∈ l1 ++ l2 -> x <= w < x + 8 -> m' !! w = words h1 !! w).
    { intros x w [Hx Hne]%Hmem Hw. apply F1. apply (h_dom _ _ _ _ _ _ HG) in Hx as [i Ex].
      destruct (h_block _ _ _ _ _ _ HG _ _ Ex) as (_ & _ & D3 & _). eapply Hdis; [done|done|lia]. }
    split; cbn [words os block_list master_head recycler_head].
    + exists P, N. split; [done|].
      eapply rep_agree; [exact HG|done|exact Hrep| | |exact K1|done|exact K3|exact K4]; cbn [words].
      * intros b' w Hb' Hw. assert (Hne : b' <> b) by (intros ->; unfold normal in Hb'; congruence).
        rewrite F1 by (eapply Hdis; [exact Hb'|done|cbn; lia]). apply K7. intros x [Hx Hxb]%Hmem.
        destruct (HL _ Hx) as (_ & Hx8 & _). apply (h_dom _ _ _ _ _ _ HG) in Hx as [i Ex].
        destruct (h_block _ _ _ _ _ _ HG _ _ Ex) as (_ & _ & D3 & _).
        assert (Hd : ~ (x <= w < x + 8)); [|lia]. intros Hxw.
        assert (Ho : outside I w) by (eapply outside_block; [exact HG|exact Ex|lia|lia]). specialize (Ho _ Hb'). lia.
      * intros w (b' & Hb' & Hw & Hw4). apply Hn' in Hb'.
        assert (Hne : b' <> b) by (intros ->; unfold normal in Hb'; congruence).
        rewrite F1 by (eapply Hdis; [exact Hb'|done|cbn; lia]). apply K8. by eapply (h_mapped _ _ _ _ _ _ HG).
    + pose proof HI as [G]. split; try done. destruct G as [G0 G1 G2 G3 G4 G5 G6 G7 G8]. split; try done.
      * intros b' Hb'. by apply G0, Hn'.
      * intros a x Ex. rewrite Hn'. auto.
      * intros b' Hb'. by apply G8, Hn'.
    + done.
    + intros x. rewrite Hmem, (h_dom _ _ _ _ _ _ HG), lookup_delete_is_Some. naive_solver.
    + eapply linked_ext; [exact K5|]. intros x Hx. apply (Hhdr x); [done|lia].
    + eapply back_ext; [exact K6|]. intros x Hx. apply (Hhdr x); [done|lia].
    + intros b' i [Hne Ex]%Hcase. rewrite F3, decide_False, K2 by done. exact (h_block _ _ _ _ _ _ HG _ _ Ex).
    + intros b' i w [Hne Ex]%Hcase Hw Hw4. rewrite F1 by (by eapply Hdis). apply K8.
      by eapply (h_mapped _ _ _ _ _ _ HG).
    + intros b' n' [Hne Ex]%Hcase. destruct (h_jumbo _ _ _ _ _ _ HG _ _ Ex) as (Hn1 & w & Ew1 & Hw1).
      split; [done|]. exists w. split; [|done]. apply Hkeep; [done|eapply Hdis; [done|done|cbn; lia]|].
      intros x Hx. destruct (HL _ Hx) as (_ & Hx8 & _). apply (h_dom _ _ _ _ _ _ HG) in Hx as [i Ex'].
      destruct (decide (x = b')) as [->|Hxb]; [lia|].
      destruct (h_block _ _ _ _ _ _ HG _ _ Ex') as (_ & _ & D3 & _).
      destruct (Z.lt_trichotomy x b') as [Hl|[?|Hl]]; [|congruence|].
      * pose proof (h_disj _ _ _ _ _ _ HG _ _ _ _ Ex' Ex Hl). lia.
      * pose proof (h_disj _ _ _ _ _ _ HG _ _ _ _ Ex Ex' Hl) as Hx. cbn in Hx. lia.
    + intros b1 i1 b2 i2 [_ Hx1]%Hcase [_ Hx2]%Hcase. exact (h_disj _ _ _ _ _ _ HG _ _ _ _ Hx1 Hx2).
    + intros w Hw. destruct (decide (b <= w < b + n)) as [Hi|Ho]; [by apply F2|]. rewrite F1 by done.
      apply unmapped_same with (words h); [done|]. apply (h_unmapped _ _ _ _ _ _ HG).
      destruct (F4 w Hw); [by rewrite <- K2|done].
Qed.

(** ** The allocations *)

(** Where an allocation lies: in one block, behind the headers. *)
Lemma alloc_place I L C M R h p n : ghost I L C M R h -> allocated I C p n ->
  p mod 8 = 0 /\ 0 < p /\ 0 <= n /\ p + n < 4294967296 /\
  exists b i, I !! b = Some i /\ b + 16 <= p /\ p + n <= b + extent i.
Proof.
  intros HG [(a & (k & Ek & Hu & Hl) & ->)|(b & m & Ei & -> & ->)].
  - pose proof (h_inv _ _ _ _ _ _ HG) as HI.
    destruct (inv_pos _ _ _ _ _ _ _ _ HI Ek) as (A1 & A2 & A3 & A4 & A5 & _).
    destruct (g_chunk _ _ (i_geo _ _ _ _ _ _ HI) _ _ Ek) as (B1 & _ & _ & _ & B5 & B6 & _).
    split; [Z.div_mod_to_equations; lia|]. repeat (split; [lia|]).
    exists (k_blk k), None. split; [done|]. cbn. lia.
  - destruct (h_block _ _ _ _ _ _ HG _ _ Ei) as (B1 & B2 & B3 & B4 & _).
    destruct (h_jumbo _ _ _ _ _ _ HG _ _ Ei) as (Hn & _). cbn in *.
    split; [Z.div_mod_to_equations; lia|]. repeat (split; [lia|]).
    exists b, (Some m). split; [done|]. cbn. lia.
Qed.

Lemma alloc_disj I L C M R h p n q m : ghost I L C M R h -> allocated I C p n -> allocated I C q m ->
  p <> q -> p + n <= q \/ q + m <= p.
Proof.
  intros HG Hp Hq Hne. pose proof (h_inv _ _ _ _ _ _ HG) as HI.
  destruct (alloc_place _ _ _ _ _ _ _ _ HG Hp) as (_ & _ & _ & _ & b & i & Eb & H1 & H2).
  destruct (alloc_place _ _ _ _ _ _ _ _ HG Hq) as (_ & _ & _ & _ & b' & i' & Eb' & H3 & H4).
  destruct (Z.lt_trichotomy b b') as [Hl|[->|Hl]].
  - pose proof (h_disj _ _ _ _ _ _ HG _ _ _ _ Eb Eb' Hl). lia.
  - simplify_eq. destruct Hp as [(a & (k & Ek & Hu & Hl) & ->)|(b1 & m1 & Ei & -> & ->)];
      destruct Hq as [(a' & (k' & Ek' & Hu' & Hl') & ->)|(b2 & m2 & Ei' & -> & ->)].
    + destruct (split_inside _ _ _ _ (i_geo _ _ _ _ _ _ HI) Ek _ _ Ek') as [|[|]]; lia.
    + destruct (g_chunk _ _ (i_geo _ _ _ _ _ _ HI) _ _ Ek) as (B1 & _ & _ & A4 & B5 & B6 & _).
      assert (Hb2 : k_blk k <> b2) by (intros E; unfold normal in B1; congruence).
      destruct (Z.lt_trichotomy (k_blk k) b2) as [Hlt|[|Hlt]]; [|done|].
      * pose proof (h_disj _ _ _ _ _ _ HG _ _ _ _ B1 Ei' Hlt) as Hx. cbn in Hx. lia.
      * pose proof (h_disj _ _ _ _ _ _ HG _ _ _ _ Ei' B1 Hlt) as Hx. cbn in Hx. lia.
    + destruct (g_chunk _ _ (i_geo _ _ _ _ _ _ HI) _ _ Ek') as (B1 & _ & _ & A4 & B5 & B6 & _).
      assert (Hb2 : k_blk k' <> b1) by (intros E; unfold normal in B1; congruence).
      destruct (Z.lt_trichotomy (k_blk k') b1) as [Hlt|[|Hlt]]; [|done|].
      * pose proof (h_disj _ _ _ _ _ _ HG _ _ _ _ B1 Ei Hlt) as Hx. cbn in Hx. lia.
      * pose proof (h_disj _ _ _ _ _ _ HG _ _ _ _ Ei B1 Hlt) as Hx. cbn in Hx. lia.
    + destruct (h_jumbo _ _ _ _ _ _ HG _ _ Ei) as (Hn & _). destruct (h_jumbo _ _ _ _ _ _ HG _ _ Ei') as (Hn' & _).
      assert (b1 <> b2) by congruence. destruct (Z.lt_trichotomy b1 b2) as [Hlt|[|Hlt]]; [|done|].
      * pose proof (h_disj _ _ _ _ _ _ HG _ _ _ _ Ei Ei' Hlt) as Hx. cbn in Hx. lia.
      * pose proof (h_disj _ _ _ _ _ _ HG _ _ _ _ Ei' Ei Hlt) as Hx. cbn in Hx. lia.
  - pose proof (h_disj _ _ _ _ _ _ HG _ _ _ _ Eb' Eb Hl). lia.
Qed.

(** The kind of an allocation is told by its block. *)
Lemma alloc_kind I L C M R h a k b m : ghost I L C M R h -> C !! a = Some k -> I !! b = Some (Some m) ->
  a + k_len k <= b \/ b + m <= a.
Proof.
  intros HG Ek Ei. pose proof (h_inv _ _ _ _ _ _ HG) as HI.
  destruct (g_chunk _ _ (i_geo _ _ _ _ _ _ HI) _ _ Ek) as (B1 & _ & _ & A4 & B5 & B6 & _).
  assert (Hb : k_blk k <> b) by (intros E; unfold normal in B1; congruence).
  destruct (Z.lt_trichotomy (k_blk k) b) as [Hlt|[|Hlt]]; [|done|].
  - pose proof (h_disj _ _ _ _ _ _ HG _ _ _ _ B1 Ei Hlt) as Hx. cbn in Hx. lia.
  - pose proof (h_disj _ _ _ _ _ _ HG _ _ _ _ Ei B1 Hlt) as Hx. cbn in Hx. lia.
Qed.

Lemma alloc_data I L C M R h p n w : ghost I L C M R h -> allocated I C p n -> p <= w < p + n ->
  prot C w /\ (forall x, x ∈ L -> w <> x /\ w <> x + 4) /\
  (forall b i, I !! b = Some i -> ~ (b <= w < b + 8) /\ forall m, i = Some m -> w <> b + 12) /\
  (w mod 4 = 0 -> is_Some (words h !! w)).
Proof.
  intros HG Hp Hw. pose proof (h_inv _ _ _ _ _ _ HG) as HI.
  destruct (alloc_place _ _ _ _ _ _ _ _ HG Hp) as (_ & _ & _ & _ & b & i & Eb & H1 & H2).
  assert (Hblk : forall b' i', I !! b' = Some i' -> ~ (b' <= w < b' + 16)).
  { intros b' i' Ei Hx. destruct (h_block _ _ _ _ _ _ HG _ _ Ei) as (_ & _ & ? & _).
    destruct (Z.lt_trichotomy b b') as [Hl|[->|Hl]].
    - pose proof (h_disj _ _ _ _ _ _ HG _ _ _ _ Eb Ei Hl). lia.
    - lia.
    - pose proof (h_disj _ _ _ _ _ _ HG _ _ _ _ Ei Eb Hl). lia. }
  split; [|split; [|split]].
  - destruct Hp as [(a & (k & Ek & Hu & Hl) & ->)|(b1 & m1 & Ei & -> & ->)].
    + eapply prot_data; [done|exact Ek|done|lia].
    + eapply prot_outside; [done|]. eapply outside_block; [done|exact Ei|cbn; lia|done].
  - intros x [i' Ei]%(h_dom _ _ _ _ _ _ HG). specialize (Hblk _ _ Ei). lia.
  - intros b' i' Ei. specialize (Hblk _ _ Ei). split; [lia|]. intros; lia.
  - intros Hw4. eapply (h_mapped _ _ _ _ _ _ HG); [exact Eb|lia|done].
Qed.

(** What the system must have left for a request. *)
Definition need (size : Z) : Z := if size <=? 8388592 then 8388608 else size + 16.

Lemma alloc_any I L C M R h size :
  ghost I L C M R h -> 0 < size -> size + 16 < 4294967296 -> vec_avail (os h) (need size) = true ->
  exists I' L' C' M' R' h' p n, wmem_block_alloc size h = Some (p, h') /\ ghost I' L' C' M' R' h' /\
    size <= n /\ (size <= 8388592 -> n <= 8388592) /\
    (forall x m, allocated I' C' x m <-> (x = p /\ m = n) \/ allocated I C x m) /\
    (forall m, ~ allocated I C p m) /\
    (forall b i, I !! b = Some i -> I' !! b = Some i) /\
    (forall x m, used_at C x m -> used_at C' x m) /\
    keeps I C L h I' h' p n.
Proof.
  intros HG Hs Hs32 Hav. unfold need in Hav. destruct (Z.leb_spec size 8388592) as [Hle|Hgt].
  - destruct (alloc_run _ _ _ _ _ _ size HG) as (I' & L' & C' & M' & R' & h' & a & n & E & HG' & Hg & Ha8 & Ha0 & Hn & Hu & Hnew & Hk);
      [lia|done|].
    exists I', L', C', M', R', h', (a + 8), n. split; [done|]. split; [done|]. split; [done|]. split.
    { intros _. destruct (proj2 (Hu a (n + 8))) as (k & Ek & _ & Hk'); [by left|].
      destruct (inv_pos _ _ _ _ _ _ _ _ (h_inv _ _ _ _ _ _ HG') Ek) as (_ & _ & _ & ? & _). lia. }
    assert (HI' : forall b m, I' !! b = Some (Some m) <-> I !! b = Some (Some m)).
    { destruct Hg as [->|(b0 & Hb0 & ->)]; [done|]. intros b m. rewrite lookup_insert. case_decide; [|done].
      subst. split; congruence. }
    assert (Hsub : forall b i, I !! b = Some i -> I' !! b = Some i).
    { destruct Hg as [->|(b0 & Hb0 & ->)]; [done|]. intros b i Ei. rewrite lookup_insert_ne; [done|]. congruence. }
    assert (Hua : exists k, C' !! a = Some k /\ k_len k = n + 8).
    { destruct (proj2 (Hu a (n + 8))) as (k & Ek & _ & Hk'); [by left|]. by exists k. }
    destruct Hua as (k & Ek & Hkl).
    split; [|split; [|split; [done|split; [|done]]]].
    + intros x m. unfold allocated. setoid_rewrite Hu. setoid_rewrite HI'. split.
      * intros [(a' & [[-> Hm]|Hm] & ->)|Hj]; [left; split; [done|lia]|right; left; by exists a'|by right; right].
      * intros [[-> ->]|[(a' & Hm & ->)|Hj]]; [left; exists a; auto|left; exists a'; auto|by right].
    + intros m [(a' & Hm & Ea)|(b & m' & Ei & Ea & _)].
      * assert (a' = a) as -> by lia. by apply (Hnew _ Hm).
      * apply HI' in Ei. pose proof (alloc_kind _ _ _ _ _ _ _ _ _ _ HG' Ek Ei).
        destruct (h_jumbo _ _ _ _ _ _ HG' _ _ Ei) as [? _]. lia.
    + intros x m Hx. apply Hu. by right.
  - destruct (alloc_jumbo_run _ _ _ _ _ _ size HG Hgt Hs32 Hav) as (b & h' & E & Hb & HG' & Hk).
    exists (<[b := Some (size + 16)]> I), (b :: L), C, M, R, h', (b + 16), size.
    split; [done|]. split; [done|]. split; [lia|]. split; [lia|].
    assert (Hsub : forall b' i, I !! b' = Some i -> <[b := Some (size + 16)]> I !! b' = Some i).
    { intros b' i Ei. rewrite lookup_insert_ne; [done|]. congruence. }
    split; [|split; [|split; [done|split; [done|]]]].
    + intros x m. unfold allocated. split.
      * intros [Hx|(b' & m' & Ei & -> & ->)]; [by right; left|]. rewrite lookup_insert in Ei. case_decide.
        -- simplify_eq. left. split; [done|lia].
        -- right; right. by exists b', m'.
      * intros [[-> ->]|[Hx|(b' & m' & Ei & -> & ->)]]; [|by left|right; exists b', m'; auto].
        right. exists b, (size + 16). rewrite lookup_insert_eq. split; [done|]. split; [done|lia].
    + intros m [(a' & (k & Ek & _ & _) & Ea)|(b' & m' & Ei & Ea & _)].
      * assert (Eb : <[b := Some (size + 16)]> I !! b = Some (Some (size + 16))) by (by rewrite lookup_insert_eq).
        pose proof (alloc_kind _ _ _ _ _ _ _ _ _ _ HG' Ek Eb).
        destruct (inv_pos _ _ _ _ _ _ _ _ (h_inv _ _ _ _ _ _ HG) Ek) as (_ & _ & _ & ? & _). lia.
      * assert (b' = b) by lia. congruence.
    + intros w v Hv _ HwL. destruct (Hk w v Hv HwL). split; [done|]. split; [lia|by apply not_new_insert].
Qed.

End Spec.
