(* ===== verification/WMemHeap.v ===== *)
(** * [malloc], [free] and [realloc] as operations on the allocations

    The refinement theorems of the block allocator: each operation of
    [wmem_core.c] on a state that implements the map [A] of allocations
    returns, and leaves a state that implements the expected map; what the
    program stored elsewhere is kept. *)

From S2P Require Import Prelude WMem WMemLogic WMemChunks WMemOps WMemSpec.

Section Heap.
Context `{OsLaws}.

(** ** Reallocating *)

(** The allocations other than [p], and the memory that is not the
    allocator's, are as before. *)
Definition others_same (I : blocks) (C : gmap Z hdr) (h h' : heap) (p : Z) : Prop :=
  forall x m w, allocated I C x m -> x <> p -> x <= w < x + m -> w mod 4 = 0 -> words h' !! w = words h !! w.

(** Outside the blocks. *)
Definition foreign (I : blocks) (w : Z) : Prop :=
  forall b i, I !! b = Some i -> ~ (b <= w < b + extent i).
Definition foreign_same (I : blocks) (h : heap) (I' : blocks) (h' : heap) : Prop :=
  forall w v, words h !! w = Some v -> foreign I w -> words h' !! w = Some v /\ foreign I' w.

Lemma foreign_prot I L C M R h w : ghost I L C M R h -> foreign I w ->
  prot C w /\ forall x, x ∈ L -> w <> x /\ w <> x + 4.
Proof.
  intros HG Hw. split.
  - eapply prot_outside; [exact (h_inv _ _ _ _ _ _ HG)|]. intros b Hb. specialize (Hw _ _ Hb). cbn in Hw. lia.
  - intros x [i Ei]%(h_dom _ _ _ _ _ _ HG). specialize (Hw _ _ Ei).
    destruct (h_block _ _ _ _ _ _ HG _ _ Ei) as (_ & _ & ? & _). lia.
Qed.

(** A step that keeps the protected words but those from [lo] to [hi], inside
    the allocation [p]. *)
Lemma keeps_others I L C M R h h' p n lo hi :
  ghost I L C M R h -> allocated I C p n -> (lo < hi -> p <= lo /\ hi <= p + n) ->
  (forall w v, words h !! w = Some v -> prot C w -> w < lo \/ hi <= w ->
     (forall x, x ∈ L -> w <> x /\ w <> x + 4) -> words h' !! w = Some v) ->
  others_same I C h h' p /\ foreign_same I h I h'.
Proof.
  intros HG Hp Hlo Hk. split.
  - intros x m w Hx Hne Hw Hw4. destruct (alloc_data _ _ _ _ _ _ _ _ w HG Hx Hw) as (Hpr & HL & Hb & Hm).
    destruct (Hm Hw4) as [v Hv]. rewrite Hv. apply Hk; [done|done| |done].
    destruct (decide (lo < hi)) as [Hlh|]; [|lia]. destruct (Hlo Hlh).
    destruct (alloc_disj _ _ _ _ _ _ _ _ _ _ HG Hp Hx) as [|]; [congruence|lia|lia].
  - intros w v Hv Hw. destruct (foreign_prot _ _ _ _ _ _ w HG Hw) as [Hpr HL]. split; [|done]. apply Hk; [done|done| |done].
    destruct (alloc_place _ _ _ _ _ _ _ _ HG Hp) as (_ & _ & _ & _ & b & i & Eb & H1' & H2').
    specialize (Hw _ _ Eb). destruct (decide (lo < hi)) as [Hlh|]; [|lia]. specialize (Hlo Hlh). lia.
Qed.

(** A used chunk that changes its length in place. *)
Lemma allocated_resize I L C C' M R h a k n x m :
  ghost I L C M R h -> C !! a = Some k -> k_used k = true ->
  (forall x m, used_at C' x m <-> (x = a /\ m = n) \/ (x <> a /\ used_at C x m)) ->
  allocated I C' x m <-> (x = a + 8 /\ m = n - 8) \/ (x <> a + 8 /\ allocated I C x m).
Proof.
  intros HG Ek Hu Hused. unfold allocated. setoid_rewrite Hused.
  assert (Hj : forall b m', I !! b = Some (Some m') -> b + 16 <> a + 8).
  { intros b m' Ei. pose proof (alloc_kind _ _ _ _ _ _ _ _ _ _ HG Ek Ei).
    destruct (h_jumbo _ _ _ _ _ _ HG _ _ Ei) as [? _].
    destruct (inv_pos _ _ _ _ _ _ _ _ (h_inv _ _ _ _ _ _ HG) Ek) as (_ & _ & _ & ? & _). lia. }
  split.
  - intros [(y & [[-> Hm]|[Hne Hy]] & ->)|(b & m' & Ei & -> & ->)].
    + left. split; [done|lia].
    + right. split; [lia|]. left. by exists y.
    + right. split; [by eapply Hj|]. right. by exists b, m'.
  - intros [[-> ->]|[Hne [(y & Hy & ->)|Hb]]].
    + left. exists a. split; [left; split; [done|lia]|done].
    + left. exists y. split; [right; split; [lia|done]|done].
    + by right.
Qed.

(** The result of [realloc] on the chunk [a], of header [k]. *)
Record moved (I : blocks) (C : gmap Z hdr) (h : heap) (a : Z) (k : hdr) (size : Z)
    (I' : blocks) (C' : gmap Z hdr) (h' : heap) (p n : Z) : Prop := {
  mv_size : size <= n;
  mv_small : size <= 8388592 -> n <= 8388592;
  mv_alloc x m : allocated I' C' x m <-> (x = p /\ m = n) \/ (x <> a + 8 /\ allocated I C x m);
  mv_new : p = a + 8 \/ forall m, ~ allocated I C p m;
  mv_data i : 0 <= i -> i < size -> i < k_len k - 8 -> i mod 4 = 0 -> words h' !! (p + i) = words h !! (a + 8 + i);
  mv_others : others_same I C h h' (a + 8);
  mv_foreign : foreign_same I h I' h';
}.

Lemma chunk_flags_run I L C M R h a k : ghost I L C M R h -> C !! a = Some k ->
  chunk_flags a h = Some (k_flags k, h).
Proof.
  intros HG Ek. destruct (h_view _ _ _ _ _ _ HG) as (P & N & _ & Hrep).
  destruct (rep_hdr _ _ _ _ _ _ Hrep a k Ek) as (_ & w & Ew & Eu).
  unfold chunk_flags, wbind. rewrite (rd_run _ _ _ Ew), Eu. done.
Qed.

Lemma chunk_next_run I L C M R h a k : ghost I L C M R h -> C !! a = Some k ->
  WMEM_CHUNK_NEXT a h = Some (if k_last k then NULL else a + k_len k, h).
Proof.
  intros HG Ek. destruct (inv_pos _ _ _ _ _ _ _ _ (h_inv _ _ _ _ _ _ HG) Ek) as (A1 & _ & _ & A4 & A5 & _).
  unfold WMEM_CHUNK_NEXT, wbind. rewrite (chunk_flags_run _ _ _ _ _ _ _ _ HG Ek). unfold wret.
  fold (k_last k) (k_len k). rewrite u32_id by lia. done.
Qed.

(** In place: the step keeps all protected words but those past the new end. *)
Lemma moved_in_place I L C M R h a k size C' h' n lo :
  ghost I L C M R h -> C !! a = Some k -> k_used k = true -> size + 8 <= n <= 8388600 ->
  0 <= size -> a + 8 + size <= lo ->
  (forall x m, used_at C' x m <-> (x = a /\ m = n) \/ (x <> a /\ used_at C x m)) ->
  (forall w v, words h !! w = Some v -> prot C w -> w < lo \/ a + k_len k <= w -> words h' !! w = Some v) ->
  moved I C h a k size I C' h' (a + 8) (n - 8).
Proof.
  intros HG Ek Hu Hn Hs0 Hlo Hused Hk.
  assert (Hal : allocated I C (a + 8) (k_len k - 8)).
  { left. exists a. split; [|done]. exists k. split; [done|]. split; [done|lia]. }
  destruct (keeps_others _ _ _ _ _ _ h' _ _ lo (a + k_len k) HG Hal) as [Ho Hf]; [lia|by auto|].
  split; [lia|lia| |by left| |done|done].
  - intros x m. by eapply allocated_resize.
  - intros i Hi Hs Hl H4. destruct (alloc_data _ _ _ _ _ _ _ _ (a + 8 + i) HG Hal) as (Hpr & _ & _ & Hm); [lia|].
    destruct Hm as [v Hv].
    { destruct (inv_pos _ _ _ _ _ _ _ _ (h_inv _ _ _ _ _ _ HG) Ek) as (_ & ? & _). Z.div_mod_to_equations; lia. }
    rewrite Hv. apply Hk; [done|done|lia].
Qed.

(** Allocations of a state are data: a step that keeps the protected words
    keeps them. *)
Lemma keeps_data I I' L C M R h h' p n x m w :
  ghost I L C M R h -> keeps I C L h I' h' p n -> allocated I C x m -> x <= w < x + m -> w mod 4 = 0 ->
  words h' !! w = words h !! w.
Proof.
  intros HG Hk Hx Hw H4. destruct (alloc_data _ _ _ _ _ _ _ _ w HG Hx Hw) as (Hpr & HL & _ & Hm).
  destruct (Hm H4) as [v Hv]. rewrite Hv. apply Hk; [done|done|]. intros HwL. by apply HL in HwL as [].
Qed.

Lemma foreign_more I I' w :
  (forall b i, I !! b = Some i -> I' !! b = Some i) -> not_new I I' w ->
  foreign I w -> foreign I' w.
Proof.
  intros Hsub Hnn Hw b i Ei. destruct (I !! b) as [j|] eqn:Ej; [|by apply (Hnn b)].
  assert (i = j) as -> by (apply Hsub in Ej; congruence). by apply Hw.
Qed.

(** Copying between two allocations. *)
Lemma copy_alloc_run I L C M R h p n q m d :
  ghost I L C M R h -> allocated I C p n -> allocated I C q m -> p <> q ->
  0 <= d -> d <= n -> d <= m -> d mod 4 = 0 ->
  exists h', copy_words (Z.to_nat (d / 4)) p q h = Some (tt, h') /\ ghost I L C M R h' /\ os h' = os h /\
    (forall i, 0 <= i < d -> i mod 4 = 0 -> words h' !! (p + i) = words h !! (q + i)) /\
    (forall w, ~ (p <= w < p + n) -> words h' !! w = words h !! w).
Proof.
  intros HG Hp Hq Hne Hd0 Hdn Hdm Hd4.
  assert (Ed : d = 4 * (d / 4)) by (Z.div_mod_to_equations; lia).
  assert (HN : Z.of_nat (Z.to_nat (d / 4)) = d / 4) by (Z.div_mod_to_equations; lia).
  destruct (alloc_place _ _ _ _ _ _ _ _ HG Hp) as (P8 & _). destruct (alloc_place _ _ _ _ _ _ _ _ HG Hq) as (Q8 & _).
  destruct (copy_run (Z.to_nat (d / 4)) p q h) as (m' & E & H1 & H2 & H3).
  - rewrite HN. intros i Hi.
    destruct (alloc_data _ _ _ _ _ _ _ _ (q + 4 * i) HG Hq) as (_ & _ & _ & Hm1); [lia|].
    destruct (alloc_data _ _ _ _ _ _ _ _ (p + 4 * i) HG Hp) as (_ & _ & _ & Hm2); [lia|].
    split; [apply Hm1|apply Hm2]; Z.div_mod_to_equations; lia.
  - rewrite HN. intros i j Hi Hj. destruct (alloc_disj _ _ _ _ _ _ _ _ _ _ HG Hp Hq Hne); lia.
  - rewrite HN in H1, H2. exists (with_words h m'). split; [done|].
    assert (Hout : forall w, ~ (p <= w < p + n) -> m' !! w = words h !! w) by (intros w Hw; apply H2; lia).
    split; [|split; [done|split; [|done]]].
    + eapply (ghost_data _ _ _ _ _ h _ (fun w => p <= w < p + n)); [done|done|exact H3|done..|].
      intros w Hw. destruct (alloc_data _ _ _ _ _ _ _ _ w HG Hp Hw) as (Hpr & _ & Hb & _). done.
    + intros i Hi Hi4. cbn. replace i with (4 * (i / 4)) by (Z.div_mod_to_equations; lia).
      apply H1. Z.div_mod_to_equations; lia.
Qed.

Lemma used_allocated I C a k : C !! a = Some k -> k_used k = true -> allocated I C (a + 8) (k_len k - 8).
Proof. intros Ek Hu. left. exists a. split; [|done]. exists k. split; [done|]. split; [done|lia]. Qed.

(** What freeing leaves allocated. *)
Lemma allocated_free I L C C' M R h a k x m :
  ghost I L C M R h -> C !! a = Some k ->
  (forall x m, used_at C' x m <-> x <> a /\ used_at C x m) ->
  allocated I C' x m <-> x <> a + 8 /\ allocated I C x m.
Proof.
  intros HG Ek Hu. unfold allocated. setoid_rewrite Hu. split.
  - intros [(y & [Hy1 Hy2] & ->)|(b' & m' & Ei & -> & ->)]; [split; [lia|]; left; by exists y|].
    split; [|right; by exists b', m']. pose proof (alloc_kind _ _ _ _ _ _ _ _ _ _ HG Ek Ei).
    destruct (h_jumbo _ _ _ _ _ _ HG _ _ Ei) as [? _].
    destruct (inv_pos _ _ _ _ _ _ _ _ (h_inv _ _ _ _ _ _ HG) Ek) as (_ & _ & _ & ? & _). lia.
  - intros [Hxa [(y & Hy & ->)|Hj]]; [left; exists y; split; [split; [lia|done]|done]|by right].
Qed.

Lemma alloc_not_jumbo I L C M R h b n x m w :
  ghost I L C M R h -> I !! b = Some (Some n) -> allocated I C x m -> x <> b + 16 -> x <= w < x + m ->
  ~ (b <= w < b + n).
Proof.
  intros HG Ei [(a & (k & Ek & _ & Hl) & ->)|(b' & m' & Ei' & -> & ->)] Hne Hw.
  - pose proof (alloc_kind _ _ _ _ _ _ _ _ _ _ HG Ek Ei). lia.
  - destruct (Z.lt_trichotomy b b') as [Hlt|[->|Hlt]]; [|lia|].
    + pose proof (h_disj _ _ _ _ _ _ HG _ _ _ _ Ei Ei' Hlt) as Hq. cbn in Hq. lia.
    + pose proof (h_disj _ _ _ _ _ _ HG _ _ _ _ Ei' Ei Hlt) as Hq. cbn in Hq. lia.
Qed.

Lemma allocated_free_jumbo I L C M R h b n x m :
  ghost I L C M R h -> I !! b = Some (Some n) ->
  allocated (delete b I) C x m <-> x <> b + 16 /\ allocated I C x m.
Proof.
  intros HG Ei. destruct (h_jumbo _ _ _ _ _ _ HG _ _ Ei) as [Hn _]. unfold allocated.
  setoid_rewrite lookup_delete_Some. split.
  - intros [(a & (k & Ek & Hu & Hl) & ->)|(b' & m' & [Hb' Ei'] & -> & ->)].
    + pose proof (alloc_kind _ _ _ _ _ _ _ _ _ _ HG Ek Ei).
      destruct (inv_pos _ _ _ _ _ _ _ _ (h_inv _ _ _ _ _ _ HG) Ek) as (_ & _ & _ & ? & _).
      split; [lia|]. left. exists a. split; [by exists k|done].
    + split; [lia|]. right. by exists b', m'.
  - intros [Hne [Ha|(b' & m' & Ei' & -> & ->)]]; [by left|]. right. exists b', m'.
    split; [split; [lia|done]|done].
Qed.

(** Another allocation, the contents copied, the old one freed. *)
Lemma move_run I L C M R h a k size :
  ghost I L C M R h -> C !! a = Some k -> k_used k = true ->
  k_len k - 8 < size -> size + 16 < 4294967296 -> vec_avail (os h) (need size) = true ->
  exists I' L' C' M' R' h' p n,
    wbind (wmem_block_alloc size) (fun newptr => wbind (WMEM_CHUNK_DATA_LEN a) (fun d =>
      wbind (copy_words (Z.to_nat (d / 4)) newptr (a + 8)) (fun _ =>
      wbind (wmem_block_free (a + 8)) (fun _ => wret newptr)))) h = Some (p, h') /\
    ghost I' L' C' M' R' h' /\ moved I C h a k size I' C' h' p n.
Proof.
  intros HG Ek Hu Hlt Hs32 Hav.
  destruct (inv_pos _ _ _ _ _ _ _ _ (h_inv _ _ _ _ _ _ HG) Ek) as (A1 & A2 & A3 & A4 & _).
  pose proof (used_allocated I _ _ _ Ek Hu) as Ha.
  destruct (alloc_any _ _ _ _ _ _ size HG) as (I1 & L1 & C1 & M1 & R1 & h1 & p & n & E1 & HG1 & Hn & Hsmall & Hal & Hnew & Hsub & Hu1 & Hk1);
    [lia|done|done|].
  destruct (Hu1 a (k_len k)) as (k1 & Ek1 & Hk1u & Hl1); [by exists k|].
  assert (Ha1 : allocated I1 C1 (a + 8) (k_len k - 8)) by (apply Hal; by right).
  assert (Hp1 : allocated I1 C1 p n) by (apply Hal; by left).
  assert (Hne : p <> a + 8) by (intros ->; by apply (Hnew (k_len k - 8))).
  destruct (copy_alloc_run _ _ _ _ _ _ _ _ _ _ (k_len k - 8) HG1 Hp1 Ha1 Hne) as (h2 & E2 & HG2 & Eo2 & Hcp & Hout);
    [lia|lia|lia|Z.div_mod_to_equations; lia|].
  destruct (free_run _ _ _ _ _ _ _ _ HG2 Ek1 Hk1u) as (h3 & C3 & M3 & R3 & E3 & HG3 & Eo3 & Hu3 & Hk3).
  rewrite Hl1 in Hk3.
  (* what an allocation other than the old one keeps when that is freed *)
  assert (Hfree : forall x m w, allocated I1 C1 x m -> x <> a + 8 -> x <= w < x + m -> w mod 4 = 0 ->
    words h3 !! w = words h2 !! w).
  { intros x m w Hx Hxa Hw H4. destruct (alloc_data _ _ _ _ _ _ _ _ w HG2 Hx Hw) as (Hpr & _ & _ & Hm).
    destruct (Hm H4) as [v Hv]. rewrite Hv. apply Hk3; [done|done|].
    destruct (Hpr _ _ Ek1) as [Hh _]. destruct (alloc_disj _ _ _ _ _ _ _ _ _ _ HG2 Hx Ha1 Hxa); lia. }
  exists I1, L1, C3, M3, R3, h3, p, n. split; [|split; [done|]].
  { unfold wbind. rewrite E1, (data_len_run _ _ _ _ _ _ _ _ HG1 Ek1), Hl1, E2, E3. done. }
  destruct (alloc_place _ _ _ _ _ _ _ _ HG1 Hp1) as (P8 & _ & _ & _ & b & i & Eb & Hb1 & Hb2).
  split; [done|done| |by right|..].
  - intros x m. transitivity (x <> a + 8 /\ allocated I1 C1 x m).
    + exact (allocated_free _ _ _ _ _ _ _ _ _ x m HG1 Ek1 Hu3).
    + rewrite Hal. split.
      * intros [Hxa [[-> ->]|Hx]]; [by left|by right].
      * intros [[-> ->]|[Hxa Hx]]; [split; [done|by left]|split; [done|by right]].
  - intros i' Hi Hs Hl H4. rewrite (Hfree p n) by (done || Z.div_mod_to_equations; lia).
    rewrite Hcp by (done || lia). eapply keeps_data; [exact HG|exact Hk1|exact Ha|lia|Z.div_mod_to_equations; lia].
  - intros x m w Hx Hxa Hw H4. assert (Hx1 : allocated I1 C1 x m) by (apply Hal; by right).
    rewrite (Hfree x m) by done. rewrite Hout; [by eapply keeps_data|].
    assert (Hxp : x <> p) by (intros ->; by apply (Hnew m)).
    destruct (alloc_disj _ _ _ _ _ _ _ _ _ _ HG1 Hx1 Hp1 Hxp); lia.
  - intros w v Hv Hw. destruct (foreign_prot _ _ _ _ _ _ w HG Hw) as [Hpr HL].
    destruct (Hk1 w v Hv Hpr) as (Hv1 & Hwp & Hnn); [intros HwL; by apply HL in HwL as []|].
    assert (Hw1 : foreign I1 w) by (by apply (foreign_more I I1)). split; [|done].
    apply Hk3; [by rewrite (Hout w Hwp)| |].
    + by apply (foreign_prot _ _ _ _ _ _ w HG1).
    + destruct (alloc_place _ _ _ _ _ _ _ _ HG Ha) as (_ & _ & _ & _ & b' & i' & Eb' & Hb1' & Hb2').
      specialize (Hw _ _ Eb'). lia.
Qed.

Lemma chunk_used_run I L C M R h a k : ghost I L C M R h -> C !! a = Some k ->
  chunk_used a h = Some (k_used k, h).
Proof. intros HG Ek. unfold chunk_used, wbind. by rewrite (chunk_flags_run _ _ _ _ _ _ _ _ HG Ek). Qed.

Lemma chunk_len_run I L C M R h a k : ghost I L C M R h -> C !! a = Some k ->
  chunk_len a h = Some (k_len k, h).
Proof. intros HG Ek. unfold chunk_len, wbind. by rewrite (chunk_flags_run _ _ _ _ _ _ _ _ HG Ek). Qed.

(** A step that gives the chunk [a] another length, and touches its data from
    [lo] on at most. *)
Lemma in_place_run (c : W Z) I L C M R h a k size lo :
  ghost I L C M R h -> tame c -> C !! a = Some k -> k_used k = true -> 0 < size ->
  a + 8 <= lo -> a + 8 + size <= lo ->
  wpl (kept C h lo (a + k_len k)) (in_chunks I) (hd 0 L) (os h) c C M R
    (fun p C' M' R' => inv (normal I) (kept C h lo (a + k_len k)) 0 C' M' R' /\ p = a + 8 /\
       exists n, size + 8 <= n <= 8388600 /\ forall x m, used_at C' x m <-> (x = a /\ m = n) \/ (x <> a /\ used_at C x m)) ->
  exists I' L' C' M' R' h' p n, c h = Some (p, h') /\
    ghost I' L' C' M' R' h' /\ moved I C h a k size I' C' h' p n.
Proof.
  intros HG Ht Ek Hu Hs Hlo Hlo' Hc.
  assert (Hin : forall w, lo <= w < a + k_len k -> ~ outside I w).
  { intros w Hw. eapply chunk_not_outside; [exact (h_inv _ _ _ _ _ _ HG)|exact Ek|lia]. }
  destruct (chunk_step c I L C M R h lo (a + k_len k) (fun p C' _ _ => p = a + 8 /\
     exists n, size + 8 <= n <= 8388600 /\ forall x m, used_at C' x m <-> (x = a /\ m = n) \/
       (x <> a /\ used_at C x m)) HG Ht Hin Hc)
    as (p & h' & C' & M' & R' & E & (-> & n & Hn & Hused) & HG' & _ & Hk).
  exists I, L, C', M', R', h', (a + 8), (n - 8). split; [exact E|]. split; [done|].
  by apply moved_in_place with L M R lo; try lia.
Qed.

(** In place, into the free chunk behind. *)
Lemma grow_run I L C M R h a k t size split_size :
  ghost I L C M R h -> C !! a = Some k -> k_used k = true -> k_last k = false ->
  C !! (a + k_len k) = Some t -> k_used t = false -> 0 < size ->
  k_len k - 8 < size -> size < k_len k - 8 + k_len t ->
  split_size = (if u32 (size - (k_len k - 8)) <? 8 then 0 else u32 (size - (k_len k - 8)) - 8) ->
  exists I' L' C' M' R' h' p n,
    wbind (wmem_block_split_free_chunk (a + k_len k) split_size) (fun _ =>
       wbind (chunk_len a) (fun cl => wbind (chunk_len (a + k_len k)) (fun tl =>
       wbind (set_len a (cl + tl)) (fun _ => wbind (chunk_last (a + k_len k)) (fun l =>
       wbind (set_last a l) (fun _ => wbind (WMEM_CHUNK_NEXT a) (fun tmp =>
       wbind (if negb (tmp =? NULL) then wbind (chunk_len a) (fun n => set_prev tmp n) else wret tt) (fun _ =>
       wbind wmem_block_cycle_recycler (fun _ => wret (a + 8)))))))))) h = Some (p, h') /\
    ghost I' L' C' M' R' h' /\ moved I C h a k size I' C' h' p n.
Proof.
  intros HG Ek Hu Hl Et Hut Hs0 Hs1 Hs2 Esp.
  apply (in_place_run _ I L C M R h a k size (Z.max (a + 8 + size) (a + k_len k))); [done|repeat tame1|done|done|lia|lia|lia|].
  eapply (grow_spec (normal I)) with (split_size := split_size) (p := a + 8);
    [apply in_chunks_mapped|eapply inv_kept; exact (h_inv _ _ _ _ _ _ HG)|exact Ek|done|done|exact Et|done|exact Hs1|exact Hs2| |exact Esp].
  intros C' M' R' n HI' Hn Hused. split; [done|]. split; [done|]. exists n. split; [lia|done].
Qed.

(** In place, giving back the end. *)
Lemma shrink_run I L C M R h a k size :
  ghost I L C M R h -> C !! a = Some k -> k_used k = true -> 0 < size -> size + 8 < k_len k ->
  exists I' L' C' M' R' h' p n,
    wbind (wmem_block_split_used_chunk a size) (fun _ =>
       wbind wmem_block_cycle_recycler (fun _ => wret (a + 8))) h = Some (p, h') /\
    ghost I' L' C' M' R' h' /\ moved I C h a k size I' C' h' p n.
Proof.
  intros HG Ek Hu Hs Hlt. pose proof (h_inv _ _ _ _ _ _ HG) as HI.
  destruct (inv_pos _ _ _ _ _ _ _ _ HI Ek) as (A1 & A2 & A3 & A4 & A5 & _).
  destruct (align_size size) as [Hal Hal8]; [lia|].
  apply (in_place_run _ I L C M R h a k size (a + (WMEM_ALIGN_SIZE size + 8))); [done|repeat tame1|done|done|lia|lia|lia|].
  eapply (shrink_spec (normal I)) with (p := a + 8);
    [apply in_chunks_mapped|by eapply inv_kept|exact Ek|done|done|lia| |].
  - intros w [v Hv]. by apply lookup_kept in Hv as (_ & _ & ?).
  - intros C' M' R' n HI' Hn Hused. split; [done|]. split; [done|]. exists n. split; [lia|done].
Qed.

(** [realloc] of a chunk. *)
Lemma realloc_run I L C M R h a k size :
  ghost I L C M R h -> C !! a = Some k -> k_used k = true ->
  0 < size -> size + 16 < 4294967296 -> vec_avail (os h) (need size) = true ->
  exists I' L' C' M' R' h' p n, wmem_block_realloc (a + 8) size h = Some (p, h') /\
    ghost I' L' C' M' R' h' /\ moved I C h a k size I' C' h' p n.
Proof.
  intros HG Ek Hu Hs Hs32 Hav. pose proof (h_inv _ _ _ _ _ _ HG) as HI.
  destruct (inv_pos _ _ _ _ _ _ _ _ HI Ek) as (A1 & A2 & A3 & A4 & A5 & _).
  unfold wmem_block_realloc. rewrite to_chunk by lia. unfold wbind at 1.
  rewrite (chunk_jumbo_run _ _ _ _ _ _ _ _ HG Ek). cbn beta iota. unfold wbind at 1.
  rewrite (data_len_run _ _ _ _ _ _ _ _ HG Ek). cbn beta iota.
  destruct (Z.ltb_spec (k_len k - 8) size) as [Hlt|Hge].
  - pose proof (move_run _ _ _ _ _ _ _ _ size HG Ek Hu Hlt Hs32 Hav) as Hmove.
    unfold wbind at 1. rewrite (chunk_next_run _ _ _ _ _ _ _ _ HG Ek). cbn beta iota.
    destruct (k_last k) eqn:Hl.
    { change (NULL =? NULL) with true. cbn beta iota. unfold wbind at 1, wret at 1. exact Hmove. }
    rewrite (proj2 (Z.eqb_neq (a + k_len k) NULL)) by (unfold NULL; lia). cbn beta iota.
    destruct (g_next _ _ (i_geo _ _ _ _ _ _ HI) _ _ Ek Hl) as (t & Et & _).
    unfold wbind at 1, wbind at 1. rewrite (chunk_used_run _ _ _ _ _ _ _ _ HG Et).
    destruct (k_used t) eqn:Hut; [unfold wret at 1; exact Hmove|].
    unfold wbind at 1. rewrite (chunk_len_run _ _ _ _ _ _ _ _ HG Et). unfold wret at 1.
    destruct (inv_pos _ _ _ _ _ _ _ _ HI Et) as (_ & _ & _ & B4 & B5 & _). rewrite u32_id by lia.
    destruct (Z.ltb_spec size (k_len k - 8 + k_len t)) as [Hfit|]; [|exact Hmove].
    exact (grow_run _ _ _ _ _ _ _ _ _ _ _ HG Ek Hu Hl Et Hut Hs Hlt Hfit eq_refl).
  - destruct (Z.ltb_spec size (k_len k - 8)) as [Hlt|Heq]; [eapply shrink_run; (done || lia)|].
    exists I, L, C, M, R, h, (a + 8), (k_len k - 8). split; [done|]. split; [done|].
    apply moved_in_place with L M R (a + k_len k); try done; try lia.
    intros x m. split.
    + intros Hx. destruct (decide (x = a)) as [->|]; [left|by right].
      destruct Hx as (k' & Ek' & _ & <-). split; congruence.
    + intros [[-> ->]|[_ Hx]]; [by exists k|done].
Qed.

(** ** The operations on the allocations *)

(** What the program stored in its allocations, but that at [p], is kept. *)
Definition data_same (A : gmap Z Z) (h h' : heap) (p : Z) : Prop :=
  forall x m w, A !! x = Some m -> x <> p -> x <= w < x + m -> w mod 4 = 0 -> words h' !! w = words h !! w.

Lemma others_data I C A h h' p : (forall x m, A !! x = Some m <-> allocated I C x m) ->
  others_same I C h h' p -> data_same A h h' p.
Proof. intros HA Ho x m w Hx. apply HA in Hx. by apply Ho. Qed.

Lemma insert_alloc (A : gmap Z Z) I C I' C' p n :
  (forall x m, A !! x = Some m <-> allocated I C x m) -> (forall m, ~ allocated I C p m) ->
  (forall x m, allocated I' C' x m <-> (x = p /\ m = n) \/ allocated I C x m) ->
  forall x m, <[p := n]> A !! x = Some m <-> allocated I' C' x m.
Proof.
  intros HA Hp Hal x m. rewrite Hal, lookup_insert_Some, HA. split; [naive_solver|].
  intros [[-> ->]|Hx]; [by left|]. right. split; [|done]. intros ->. by apply (Hp m).
Qed.

(** The empty allocator. *)
Lemma Heap_empty h : block_list h = NULL -> master_head h = NULL -> recycler_head h = NULL ->
  (forall w, vec_free (os h) w -> words h !! w = None) -> Heap ∅ h ∅.
Proof.
  intros E1 E2 E3 E4. exists [], ∅, [], []. split.
  - split; try done; try (intros *; rewrite lookup_empty; done).
    + exists ∅, ∅. split.
      * split; try done; try (by apply NoDup_nil); try set_solver.
        intros x [[v Hv]|[v Hv]]; by rewrite lookup_empty in Hv.
      * split; try done; cbn [vC vP vN]; try (by intros * [? Hx]; rewrite lookup_empty in Hx).
        intros w (b & Hb & _). unfold normal in Hb. by rewrite lookup_empty in Hb.
    + split; try done; try set_solver; try (by intros * Hx; rewrite lookup_empty in Hx).
    + by apply NoDup_nil.
    + intros b. rewrite lookup_empty. split; [by intros ?%elem_of_nil|by intros ?%is_Some_None].
  - intros p n. rewrite lookup_empty. split; [done|].
    intros [(a & (k & Ek & _) & _)|(b & m & Ei & _)]; [by rewrite lookup_empty in Ek|by rewrite lookup_empty in Ei].
Qed.

(** Live allocations are aligned, in the address space, mapped, and do not
    overlap. *)
Lemma Heap_wf I h A : Heap I h A ->
  (forall p n, A !! p = Some n -> 0 < p /\ p mod 8 = 0 /\ 0 <= n /\ p + n < 4294967296 /\
     forall w, p <= w < p + n -> w mod 4 = 0 -> is_Some (words h !! w)) /\
  (forall p n q m, A !! p = Some n -> A !! q = Some m -> p <> q -> p + n <= q \/ q + m <= p).
Proof.
  intros (L & C & M & R & HG & HA). split.
  - intros p n Hp%HA. destruct (alloc_place _ _ _ _ _ _ _ _ HG Hp) as (P8 & P0 & Pn & P32 & _).
    repeat (split; [done|]). intros w Hw H4. by apply (alloc_data _ _ _ _ _ _ _ _ w HG Hp Hw).
  - intros p n q m Hp%HA Hq%HA Hne. by eapply alloc_disj.
Qed.

Lemma alloc_heap I h A size : Heap I h A -> 0 < size -> size + 16 < 4294967296 ->
  vec_avail (os h) (need size) = true ->
  exists I' h' p n, wmem_block_alloc size h = Some (p, h') /\ Heap I' h' (<[p := n]> A) /\ A !! p = None /\
    size <= n /\ (size <= 8388592 -> n <= 8388592) /\ data_same A h h' p /\ foreign_same I h I' h'.
Proof.
  intros (L & C & M & R & HG & HA) Hs Hs32 Hav.
  destruct (alloc_any _ _ _ _ _ _ size HG Hs Hs32 Hav)
    as (I' & L' & C' & M' & R' & h' & p & n & E & HG' & Hn & Hsm & Hal & Hnew & Hsub & Hu & Hk).
  exists I', h', p, n. split; [done|]. split.
  { exists L', C', M', R'. split; [done|]. by eapply insert_alloc. }
  split; [apply eq_None_not_Some; intros [m Hm%HA]; by apply (Hnew m)|]. split; [done|]. split; [done|]. split.
  - intros x m w Hx%HA _ Hw H4. by eapply keeps_data.
  - intros w v Hv Hw. destruct (foreign_prot _ _ _ _ _ _ w HG Hw) as [Hpr HL].
    destruct (Hk w v Hv Hpr) as (Hv' & _ & Hnn); [intros HwL; by apply HL in HwL as []|].
    split; [done|]. by apply (foreign_more I I').
Qed.

Lemma delete_alloc (A : gmap Z Z) I C I' C' p :
  (forall x m, A !! x = Some m <-> allocated I C x m) ->
  (forall x m, allocated I' C' x m <-> x <> p /\ allocated I C x m) ->
  forall x m, delete p A !! x = Some m <-> allocated I' C' x m.
Proof. intros HA Hal x m. rewrite Hal, lookup_delete_Some, HA. naive_solver. Qed.

Lemma free_heap I h A p n : Heap I h A -> A !! p = Some n ->
  exists I' h', wmem_block_free p h = Some (tt, h') /\ Heap I' h' (delete p A) /\
    data_same A h h' p /\ foreign_same I h I' h'.
Proof.
  intros (L & C & M & R & HG & HA) Hp%HA. pose proof Hp as Hp0.
  destruct Hp as [(a & (k & Ek & Hu & Hl) & ->)|(b & m & Ei & -> & ->)].
  - destruct (free_run _ _ _ _ _ _ _ _ HG Ek Hu) as (h' & C' & M' & R' & E & HG' & _ & Hused & Hk).
    exists I, h'. split; [done|].
    destruct (keeps_others _ _ _ _ _ _ h' _ _ (a + 8) (a + 8 + n) HG Hp0) as [Ho Hf]; [lia| |].
    { intros w v Hv Hpr Hw _. apply Hk; [done|done|]. destruct (Hpr _ _ Ek) as [? _]. lia. }
    split; [|split; [by eapply others_data|done]]. exists L, C', M', R'. split; [done|].
    eapply delete_alloc; [done|]. intros x m. exact (allocated_free _ _ _ _ _ _ _ _ _ x m HG Ek Hused).
  - destruct (free_jumbo_run _ _ _ _ _ _ _ _ HG Ei) as (L' & h' & E & HG' & HL & Hk).
    destruct (h_jumbo _ _ _ _ _ _ HG _ _ Ei) as [Hm _].
    exists (delete b I), h'. split; [done|].
    assert (Hal : forall x m', allocated (delete b I) C x m' <-> x <> b + 16 /\ allocated I C x m')
      by (intros x m'; exact (allocated_free_jumbo _ _ _ _ _ _ _ _ x m' HG Ei)).
    split; [exists L', C, M, R; split; [done|]; by eapply delete_alloc|]. split.
    + intros x m' w Hx%HA Hne Hw H4. destruct (alloc_data _ _ _ _ _ _ _ _ w HG Hx Hw) as (_ & HwL & _ & Hmp).
      destruct (Hmp H4) as [v Hv]. rewrite Hv. apply Hk; [done| |done].
      exact (alloc_not_jumbo _ _ _ _ _ _ _ _ x m' w HG Ei Hx Hne Hw).
    + intros w v Hv Hw. destruct (foreign_prot _ _ _ _ _ _ w HG Hw) as [_ HwL].
      split; [apply Hk; [done| |done]; by apply (Hw _ _ Ei)|].
      intros b' i' [_ Ei']%lookup_delete_Some. by apply Hw.
Qed.

Lemma move_alloc (A : gmap Z Z) I C I' C' p q n :
  (forall x m, A !! x = Some m <-> allocated I C x m) ->
  (q = p \/ forall m, ~ allocated I C q m) ->
  (forall x m, allocated I' C' x m <-> (x = q /\ m = n) \/ (x <> p /\ allocated I C x m)) ->
  forall x m, <[q := n]> (delete p A) !! x = Some m <-> allocated I' C' x m.
Proof.
  intros HA Hq Hal x m. rewrite Hal, lookup_insert_Some, lookup_delete_Some, HA. split; [naive_solver|].
  intros [[-> ->]|[Hne Hx]]; [by left|]. right. split; [|by split].
  destruct Hq as [->|Hq]; [congruence|]. intros ->. by apply (Hq m).
Qed.

Lemma realloc_heap I h A p n size : Heap I h A -> A !! p = Some n -> n <= 8388592 ->
  0 < size -> size + 16 < 4294967296 -> vec_avail (os h) (need size) = true ->
  exists I' h' q m, wmem_block_realloc p size h = Some (q, h') /\ Heap I' h' (<[q := m]> (delete p A)) /\
    (q = p \/ A !! q = None) /\ size <= m /\ (size <= 8388592 -> m <= 8388592) /\
    (forall i, 0 <= i -> i < size -> i < n -> i mod 4 = 0 -> words h' !! (q + i) = words h !! (p + i)) /\
    data_same A h h' p /\ foreign_same I h I' h'.
Proof.
  intros (L & C & M & R & HG & HA) Hp%HA Hn Hs Hs32 Hav.
  destruct Hp as [(a & (k & Ek & Hu & Hl) & ->)|(b & m & Ei & -> & ->)];
    [|destruct (h_jumbo _ _ _ _ _ _ HG _ _ Ei); lia].
  destruct (realloc_run _ _ _ _ _ _ _ _ size HG Ek Hu Hs Hs32 Hav)
    as (I' & L' & C' & M' & R' & h' & q & m & E & HG' & [V1 V2 V3 V4 V5 V6 V7]).
  exists I', h', q, m. split; [done|]. split.
  { exists L', C', M', R'. split; [done|]. by eapply move_alloc. }
  split.
  { destruct V4 as [|V4]; [by left|right]. apply eq_None_not_Some. intros [m' Hm%HA]. by apply (V4 m'). }
  split; [done|]. split; [done|]. split; [|split; [by eapply others_data|done]].
  intros i Hi Hi1 Hi2 Hi4. apply V5; [done|done|lia|done].
Qed.

(** ** Programs that use the allocator

    A program allocates, frees, reallocates and writes to what it was given;
    the state is the machine and the live pointers with the sizes asked for.
    Two things that a program can do are not steps.  It asks for memory only
    while the system has it ([vec_avail]): the allocator writes through the
    null pointer otherwise.  And it does not reallocate a jumbo allocation,
    one asked for with more than 8388592 bytes: [wmem_block_realloc_jumbo]
    gives it new memory without its contents or its place in the list of
    jumbo blocks. *)
Inductive prog_step : heap * gmap Z Z -> heap * gmap Z Z -> Prop :=
  | step_alloc h A size p h' : 0 < size -> size + 16 < 4294967296 -> vec_avail (os h) (need size) = true ->
      wmem_alloc size h = Some (p, h') -> prog_step (h, A) (h', <[p := size]> A)
  | step_free h A p n h' : A !! p = Some n ->
      wmem_free p h = Some (tt, h') -> prog_step (h, A) (h', delete p A)
  | step_realloc h A p n size q h' : A !! p = Some n -> n <= 8388592 ->
      0 < size -> size + 16 < 4294967296 -> vec_avail (os h) (need size) = true ->
      wmem_realloc p size h = Some (q, h') -> prog_step (h, A) (h', <[q := size]> (delete p A))
  | step_write h A p n i v : A !! p = Some n -> 0 <= i -> i + 4 <= n -> i mod 4 = 0 ->
      prog_step (h, A) (with_words h (<[p + i := v]> (words h)), A).

(** What was asked for is within what was given. *)
Definition served (A B : gmap Z Z) : Prop :=
  forall p, option_Forall2 (fun n m => n <= m /\ (n <= 8388592 -> m <= 8388592)) (A !! p) (B !! p).

Lemma served_lookup A B p n : served A B -> A !! p = Some n ->
  exists m, B !! p = Some m /\ n <= m /\ (n <= 8388592 -> m <= 8388592).
Proof. intros HS Hp. specialize (HS p). rewrite Hp in HS. inversion HS; subst. eauto. Qed.

Lemma served_insert A B p n m : served A B -> n <= m -> (n <= 8388592 -> m <= 8388592) ->
  served (<[p := n]> A) (<[p := m]> B).
Proof. intros HS H1 H2 q. rewrite !lookup_insert. case_decide; [by constructor|apply HS]. Qed.

Lemma served_delete A B p : served A B -> served (delete p A) (delete p B).
Proof. intros HS q. rewrite !lookup_delete. case_decide; [constructor|apply HS]. Qed.

(** The invariant of the states a program reaches. *)
Definition safe (s : heap * gmap Z Z) : Prop := exists I B, Heap I s.1 B /\ served s.2 B.

Lemma write_heap I h A p n i v : Heap I h A -> A !! p = Some n -> 0 <= i -> i + 4 <= n -> i mod 4 = 0 ->
  Heap I (with_words h (<[p + i := v]> (words h))) A.
Proof.
  intros (L & C & M & R & HG & HA) Hp%HA Hi Hin Hi4. exists L, C, M, R. split; [|done].
  destruct (alloc_place _ _ _ _ _ _ _ _ HG Hp) as (P8 & _).
  eapply (ghost_data _ _ _ _ _ h _ (fun w => w = p + i)); [done| | |done..|].
  - intros w Hw. cbn. apply lookup_insert_ne. congruence.
  - intros w. cbn. apply insert_dom_same. apply (alloc_data _ _ _ _ _ _ _ _ (p + i) HG Hp); [lia|].
    Z.div_mod_to_equations; lia.
  - intros w ->. destruct (alloc_data _ _ _ _ _ _ _ _ (p + i) HG Hp) as (Hpr & _ & Hb & _); [lia|done].
Qed.

(** Writes to memory that is not the allocator's. *)
Lemma write_foreign I h A w v : Heap I h A -> is_Some (words h !! w) -> foreign I w ->
  Heap I (with_words h (<[w := v]> (words h))) A.
Proof.
  intros (L & C & M & R & HG & HA) Hm Hf. exists L, C, M, R. split; [|done].
  eapply (ghost_data _ _ _ _ _ h _ (fun x => x = w)); [done| | |done..|].
  - intros x Hx. cbn. apply lookup_insert_ne. congruence.
  - intros x. cbn. by apply insert_dom_same.
  - intros x ->. destruct (foreign_prot _ _ _ _ _ _ w HG Hf) as [Hpr _]. split; [done|].
    intros b i Ei. specialize (Hf _ _ Ei). destruct (h_block _ _ _ _ _ _ HG _ _ Ei) as (_ & _ & ? & _).
    split; [lia|]. intros n ->. cbn in *. lia.
Qed.

Lemma alloc_not_foreign I h A p n w : Heap I h A -> A !! p = Some n -> p <= w < p + n -> ~ foreign I w.
Proof.
  intros (L & C & M & R & HG & HA) Hp%HA Hw Hf.
  destruct (alloc_place _ _ _ _ _ _ _ _ HG Hp) as (_ & _ & _ & _ & b & i & Eb & H1 & H2).
  specialize (Hf _ _ Eb). lia.
Qed.

Lemma ptr_not_null I h A p n : Heap I h A -> A !! p = Some n -> (p =? NULL) = false.
Proof. intros HH Hp. apply Z.eqb_neq. unfold NULL. destruct (proj1 (Heap_wf _ _ _ HH) _ _ Hp). lia. Qed.

Lemma prog_step_safe s s' : prog_step s s' -> safe s -> safe s'.
Proof.
  intros Hst (I & B & HH & HS). destruct Hst as [h A size p h' Hs Hs32 Hav E|h A p n h' Hp E|
    h A p n size q h' Hp Hn Hs Hs32 Hav E|h A p n i v Hp Hi Hin Hi4]; cbn [fst snd] in *.
  - unfold wmem_alloc in E. rewrite (proj2 (Z.eqb_neq size 0)) in E by lia.
    destruct (alloc_heap _ _ _ _ HH Hs Hs32 Hav) as (I' & h1 & p1 & m & E1 & HH' & _ & H1 & H2 & _).
    rewrite E1 in E. injection E as -> ->. exists I', (<[p := m]> B). split; [done|by apply served_insert].
  - destruct (served_lookup _ _ _ _ HS Hp) as (m & Hm & _).
    unfold wmem_free in E. rewrite (ptr_not_null _ _ _ _ _ HH Hm) in E.
    destruct (free_heap _ _ _ _ _ HH Hm) as (I' & h1 & E1 & HH' & _).
    rewrite E1 in E. injection E as ->. exists I', (delete p B). split; [done|by apply served_delete].
  - destruct (served_lookup _ _ _ _ HS Hp) as (m & Hm & _ & Hsm).
    unfold wmem_realloc in E. rewrite (ptr_not_null _ _ _ _ _ HH Hm), (proj2 (Z.eqb_neq size 0)) in E by lia.
    destruct (realloc_heap _ _ _ _ _ _ HH Hm (Hsm Hn) Hs Hs32 Hav) as (I' & h1 & q1 & m1 & E1 & HH' & _ & H1 & H2 & _).
    rewrite E1 in E. injection E as -> ->. exists I', (<[q := m1]> (delete p B)). split; [done|].
    apply served_insert; [by apply served_delete|done|done].
  - destruct (served_lookup _ _ _ _ HS Hp) as (m & Hm & Hnm & _).
    exists I, B. split; [|done]. cbn. eapply write_heap; [done|done|done|lia|done].
Qed.

Lemma prog_steps_safe s s' : rtc prog_step s s' -> safe s -> safe s'.
Proof. induction 1; eauto using prog_step_safe. Qed.

(** ** The blocks and chunks in memory *)

(** The blocks of the list, and the chunks of a block, as a walk finds them. *)
Inductive in_blocks (h : heap) : Z -> Prop :=
  | blocks_head : block_list h <> NULL -> in_blocks h (block_list h)
  | blocks_next b b' : in_blocks h b -> rd (b + 4) h = Some (b', h) -> b' <> NULL -> in_blocks h b'.
Inductive in_block (h : heap) (b : Z) : Z -> Prop :=
  | chunk_first : in_block h b (WMEM_BLOCK_TO_CHUNK b)
  | chunk_after c d : in_block h b c -> WMEM_CHUNK_NEXT c h = Some (d, h) -> d <> NULL -> in_block h b d.

Lemma linked_to f l x y : linked f (l ++ [0]) -> x ∈ l -> f x = Some y -> y = 0 \/ y ∈ l.
Proof.
  intros Hl (l1 & l2 & ->)%list_elem_of_split Hf. rewrite <- app_assoc in Hl. cbn in Hl.
  apply linked_app in Hl as [_ Hl]. destruct l2 as [|z l2]; destruct Hl as [Hx _]; rewrite Hx in Hf; simplify_eq; [by left|].
  right. set_solver.
Qed.

Lemma in_blocks_list I L C M R h b : ghost I L C M R h -> in_blocks h b -> b ∈ L.
Proof.
  intros HG. destruct (h_view _ _ _ _ _ _ HG) as (P & N & _ & Hrep).
  induction 1 as [Hb|b b' _ IH E Hb].
  - rewrite (rep_block_list _ _ _ _ _ _ Hrep) in *. destruct L; [done|]. by left.
  - unfold rd in E. destruct (words h !! (b + 4)) as [v|] eqn:Ev; [|done]. injection E as ->.
    destruct (linked_to _ _ b b' (h_next _ _ _ _ _ _ HG) IH Ev); done.
Qed.

Lemma in_block_chunk I L C M R h b c : ghost I L C M R h -> I !! b = Some None -> in_block h b c ->
  exists k, C !! c = Some k /\ k_blk k = b.
Proof.
  intros HG Hb. pose proof (i_geo _ _ _ _ _ _ (h_inv _ _ _ _ _ _ HG)) as G.
  induction 1 as [|c d _ (k & Ek & Hk) E Hd].
  - destruct (h_block _ _ _ _ _ _ HG _ _ Hb) as (? & _ & _ & Hb32 & _). cbn in Hb32.
    unfold WMEM_BLOCK_TO_CHUNK. rewrite (proj1 (proj2 header_sizes)), u32_id by lia. by apply (g_cover _ _ G).
  - rewrite (chunk_next_run _ _ _ _ _ _ _ _ HG Ek) in E. injection E as <-.
    destruct (k_last k) eqn:Hl; [done|]. destruct (g_next _ _ G _ _ Ek Hl) as (k' & Ek' & _ & Hk').
    exists k'. split; [done|congruence].
Qed.

Lemma chunk_prev_run I L C M R h a k : ghost I L C M R h -> C !! a = Some k ->
  chunk_prev a h = Some (k_prev k, h).
Proof.
  intros HG Ek. destruct (h_view _ _ _ _ _ _ HG) as (P & N & _ & Hrep).
  destruct (rep_hdr _ _ _ _ _ _ Hrep a k Ek) as (Ew & _). unfold chunk_prev. by rewrite (rd_run _ _ _ Ew).
Qed.

Lemma block_kind I L C M R h b : ghost I L C M R h -> b ∈ L -> chunk_jumbo (b + 8) h = Some (false, h) ->
  I !! b = Some None.
Proof.
  intros HG [i Ei]%(h_dom _ _ _ _ _ _ HG) E. destruct i as [n|]; [|done].
  destruct (h_jumbo _ _ _ _ _ _ HG _ _ Ei) as (_ & w & Ew & Hw). exfalso.
  unfold chunk_jumbo, chunk_flags, wbind in E. replace (b + 8 + 4) with (b + 12) in E by lia.
  rewrite (rd_run _ _ _ Ew) in E. unfold wret in E. congruence.
Qed.

(** The headers of a block fit together, and of two chunks next to each other
    one is used. *)
Lemma block_chunks I L C M R h b c : ghost I L C M R h -> I !! b = Some None -> in_block h b c ->
  exists f d, chunk_flags c h = Some (f, h) /\ WMEM_CHUNK_NEXT c h = Some (d, h) /\
    8 <= len f /\ b + 8 <= c /\ c + len f <= b + WMEM_BLOCK_SIZE /\
    (last f = true <-> c + len f = b + WMEM_BLOCK_SIZE) /\
    (d <> NULL -> chunk_prev d h = Some (len f, h) /\ (used f = false -> chunk_used d h = Some (true, h))).
Proof.
  intros HG Hb Hc. pose proof (h_inv _ _ _ _ _ _ HG) as HI. pose proof (i_geo _ _ _ _ _ _ HI) as G.
  destruct (in_block_chunk _ _ _ _ _ _ _ _ HG Hb Hc) as (k & Ek & <-).
  destruct (g_chunk _ _ G _ _ Ek) as (_ & _ & _ & A4 & A5 & A6 & _).
  exists (k_flags k), (if k_last k then NULL else c + k_len k).
  split; [by apply (chunk_flags_run _ _ _ _ _ _ _ _ HG)|]. split; [by apply (chunk_next_run _ _ _ _ _ _ _ _ HG)|].
  fold (k_len k) (k_last k) (k_used k). change WMEM_BLOCK_SIZE with 8388608.
  repeat (split; [done|]). split; [by apply (g_last _ _ G)|]. destruct (k_last k) eqn:Hl; [done|]. intros _.
  destruct (g_next _ _ G _ _ Ek Hl) as (k' & Ek' & Hp & _).
  rewrite (chunk_prev_run _ _ _ _ _ _ _ _ HG Ek'), Hp. split; [done|]. intros Hu.
  rewrite (chunk_used_run _ _ _ _ _ _ _ _ HG Ek'). destruct (k_used k') eqn:Hu'; [done|]. exfalso.
  destruct (inv_pos _ _ _ _ _ _ _ _ HI Ek) as (? & _). destruct (i_coal _ _ _ _ _ _ HI _ _ _ Ek Hl Ek' Hu Hu'); lia.
Qed.
End Heap.
