(* ===== verification/Malloc.v ===== *)
(** * The contract of [malloc], [free] and [realloc]

    The theorems on the operations of [wmem_core.c] with the block allocator,
    and a system that satisfies what they ask of exec.library. *)

From S2P Require Import Prelude WMem WMemLogic WMemChunks WMemOps WMemSpec WMemHeap.

(** ** A system with a bump allocator

    Free memory is everything from an address on; a range that is freed is
    unmapped and not used again. *)
Module Bump.
Definition range (p n : Z) : gset Z := list_to_set (seqZ p n).
Definition avail (o : Z * gmap Z Z) (n : Z) : bool :=
  (0 <? o.1) && (o.1 mod 8 =? 0) && (0 <? n) && (o.1 + n + 8 <? 4294967296).
Definition alloc (n : Z) (o : Z * gmap Z Z) (m : gmap Z Z) : Z * (Z * gmap Z Z) * gmap Z Z :=
  if avail o n
  then (o.1, (o.1 + 8 * ((n + 7) / 8), <[o.1 := n]> o.2), gset_to_gmap 0 (range o.1 n) ∪ m)
  else (0, o, m).
Definition free (p : Z) (o : Z * gmap Z Z) (m : gmap Z Z) : (Z * gmap Z Z) * gmap Z Z :=
  ((o.1, delete p o.2), filter (fun x => x.1 ∉ range p (default 0 (o.2 !! p))) m).

Lemma elem_of_range p n w : w ∈ range p n <-> p <= w < p + n.
Proof. unfold range. by rewrite elem_of_list_to_set, elem_of_seqZ. Qed.

#[global] Instance bump_os : OsMem := {| OsState := Z * gmap Z Z; AllocVec := alloc; FreeVec := free |}.

Lemma avail_spec o n : avail o n = true <-> 0 < o.1 /\ o.1 mod 8 = 0 /\ 0 < n /\ o.1 + n + 8 < 4294967296.
Proof. unfold avail. rewrite !andb_true_iff, !Z.ltb_lt, Z.eqb_eq. tauto. Qed.

Lemma alloc_state n o m : avail o n = true -> (alloc n o m).1.2 = (o.1 + 8 * ((n + 7) / 8), <[o.1 := n]> o.2).
Proof. intros Ha. unfold alloc. by rewrite Ha. Qed.

Lemma lookup_alloc p n m w : (gset_to_gmap 0 (range p n) ∪ m) !! w = if decide (p <= w < p + n) then Some 0 else m !! w.
Proof.
  rewrite lookup_union, lookup_gset_to_gmap. destruct (decide (p <= w < p + n)) as [Hw|Hw].
  - rewrite option_guard_True by (by apply elem_of_range). by destruct (m !! w).
  - rewrite option_guard_False by (by rewrite elem_of_range). by destruct (m !! w).
Qed.

#[global] Instance bump_laws : OsLaws.
Proof.
  refine {| vec_avail := avail; vec_size o q := o.2 !! q; vec_free o w := o.1 <= w |}.
  - intros n o m Hf. exists o. cbn. unfold alloc. by rewrite Hf.
  - intros n o m Hn Ha. cbn. unfold alloc. rewrite Ha. apply avail_spec in Ha as (H1 & H2 & H3 & H4).
    eexists _, _, _. split; [done|]. cbn. split; [done|]. split; [done|]. split; [lia|].
    split; [lia|]. split; [intros w Hw; Z.div_mod_to_equations; lia|]. split; [|split].
    + intros w Hw _. rewrite lookup_alloc, decide_True by done. by eexists.
    + intros w Hw. by rewrite lookup_alloc, decide_False.
    + intros q. rewrite lookup_insert. repeat case_decide; congruence.
  - intros p o m n Hp. cbn. unfold free. rewrite Hp. eexists _, _. split; [done|]. cbn. split; [|split; [|split]].
    + intros w Hw. apply option_eq. intros v. rewrite map_lookup_filter_Some. cbn. rewrite elem_of_range. tauto.
    + intros w Hw. apply map_lookup_filter_None. right. intros v _. cbn. rewrite elem_of_range. tauto.
    + intros w Hw. by left.
    + intros q. rewrite lookup_delete. repeat case_decide; congruence.
Defined.

(** The system at start, and the allocator of a program that starts. *)
Definition start : heap := mkHeap _ ∅ (8, ∅) 0 0 0.
End Bump.

Section Contract.
Context `{OsLaws}.

Lemma start_safe h : block_list h = NULL -> master_head h = NULL -> recycler_head h = NULL ->
  (forall w, vec_free (os h) w -> words h !! w = None) -> safe (h, ∅).
Proof.
  intros E1 E2 E3 E4. exists ∅, ∅. split; [by apply Heap_empty|]. intros p. rewrite !lookup_empty. constructor.
Qed.

(** C19: [wmem_alloc] of 0 bytes is [NULL]; of any other size, as long as the
    system has the memory a new block would need, it returns a new allocation
    of at least that many bytes, aligned to 8, that overlaps no other; what
    the program stored elsewhere, in its allocations or in memory that is not
    the allocator's, is kept. *)
Theorem wmem_alloc_correct I h A size :
  Heap I h A -> 0 <= size -> size + 16 < 4294967296 -> vec_avail (os h) (need size) = true ->
  wmem_alloc 0 h = Some (NULL, h) /\
  (0 < size -> exists I' h' p n, wmem_alloc size h = Some (p, h') /\ Heap I' h' (<[p := n]> A) /\
     A !! p = None /\ p <> NULL /\ p mod 8 = 0 /\ size <= n /\
     (forall q m, A !! q = Some m -> p + n <= q \/ q + m <= p) /\
     data_same A h h' p /\ foreign_same I h I' h').
Proof.
  intros HH Hs0 Hs32 Hav. split; [done|]. intros Hs. unfold wmem_alloc.
  rewrite (proj2 (Z.eqb_neq size 0)) by lia.
  destruct (alloc_heap _ _ _ _ HH Hs Hs32 Hav) as (I' & h' & p & n & E & HH' & Hp & Hn & _ & Hd & Hf).
  destruct (Heap_wf _ _ _ HH') as [Hwf Hdis].
  destruct (Hwf p n) as (P0 & P8 & _); [by rewrite lookup_insert_eq|].
  exists I', h', p, n. repeat (split; [done|]). split; [unfold NULL; lia|]. split; [done|]. split; [done|].
  split; [|done]. intros q m Hq. assert (p <> q) by congruence.
  apply Hdis; [by rewrite lookup_insert_eq|by rewrite lookup_insert_ne|done].
Qed.

(** C20: [wmem_free] of an allocation returns, takes exactly that one from the
    allocations and keeps what is stored elsewhere; of [NULL] it does
    nothing. *)
Theorem wmem_free_correct I h A p n :
  Heap I h A -> A !! p = Some n ->
  wmem_free NULL h = Some (tt, h) /\
  exists I' h', wmem_free p h = Some (tt, h') /\ Heap I' h' (delete p A) /\
    data_same A h h' p /\ foreign_same I h I' h'.
Proof.
  intros HH Hp. split; [done|]. unfold wmem_free. rewrite (ptr_not_null _ _ _ _ _ HH Hp). by eapply free_heap.
Qed.

(** C21: [wmem_realloc] of an allocation of at most 8388592 bytes, in place or
    not, returns an allocation of at least the new size that begins with the
    old contents, up to the smaller of the two sizes, in place of the old one;
    what is stored elsewhere is kept.  With size 0 it frees, with [NULL] it
    allocates. *)
Theorem wmem_realloc_correct I h A p n size :
  Heap I h A -> A !! p = Some n -> n <= 8388592 ->
  0 < size -> size + 16 < 4294967296 -> vec_avail (os h) (need size) = true ->
  wmem_realloc NULL size h = wmem_alloc size h /\
  (exists I' h', wmem_realloc p 0 h = Some (NULL, h') /\ Heap I' h' (delete p A)) /\
  exists I' h' q m, wmem_realloc p size h = Some (q, h') /\ Heap I' h' (<[q := m]> (delete p A)) /\
    (q = p \/ A !! q = None) /\ size <= m /\
    (forall i, 0 <= i -> i < size -> i < n -> i mod 4 = 0 -> words h' !! (q + i) = words h !! (p + i)) /\
    data_same A h h' p /\ foreign_same I h I' h'.
Proof.
  intros HH Hp Hn Hs Hs32 Hav. split; [done|]. pose proof (ptr_not_null _ _ _ _ _ HH Hp) as Hnull. split.
  - destruct (free_heap _ _ _ _ _ HH Hp) as (I' & h' & E & HH' & _). exists I', h'. split; [|done].
    unfold wmem_realloc. rewrite Hnull. change (0 =? 0) with true. cbn beta iota.
    unfold wbind, wmem_free. by rewrite Hnull, E.
  - destruct (realloc_heap _ _ _ _ _ _ HH Hp Hn Hs Hs32 Hav) as (I' & h' & q & m & E & F1 & F2 & F3 & _ & F5 & F6 & F7).
    exists I', h', q, m. unfold wmem_realloc. rewrite Hnull, (proj2 (Z.eqb_neq size 0)) by lia.
    repeat (split; [done|]). done.
Qed.

(** C5: However a program allocates, frees, reallocates and writes to what it
    was given, from the empty allocator on, under two conditions: the system
    has memory for each request it makes (without it the allocator faults, see
    [wmem_alloc_out_of_memory]), and what it reallocates was asked for with at
    most 8388592 bytes (the allocator does not keep a larger, jumbo,
    allocation on reallocation).  Then its live allocations, jumbo ones
    included, are aligned, inside the address space, mapped and do not
    overlap, and no later call under these conditions runs into an unmapped
    word, an allocation being new each time. *)
Theorem heap_safety h0 h A :
  block_list h0 = NULL -> master_head h0 = NULL -> recycler_head h0 = NULL ->
  (forall w, vec_free (os h0) w -> words h0 !! w = None) ->
  rtc prog_step (h0, ∅) (h, A) ->
  (forall p n, A !! p = Some n -> 0 < p /\ p mod 8 = 0 /\ p + n < 4294967296 /\
     forall w, p <= w < p + n -> w mod 4 = 0 -> is_Some (words h !! w)) /\
  (forall p n q m, A !! p = Some n -> A !! q = Some m -> p <> q -> p + n <= q \/ q + m <= p) /\
  (forall size, 0 < size -> size + 16 < 4294967296 -> vec_avail (os h) (need size) = true ->
     exists p h', wmem_alloc size h = Some (p, h') /\ A !! p = None) /\
  (forall p n, A !! p = Some n -> exists h', wmem_free p h = Some (tt, h')) /\
  (forall p n size, A !! p = Some n -> n <= 8388592 -> 0 < size -> size + 16 < 4294967296 ->
     vec_avail (os h) (need size) = true -> exists q h', wmem_realloc p size h = Some (q, h')).
Proof.
  intros E1 E2 E3 E4 Hr.
  destruct (prog_steps_safe _ _ Hr (start_safe _ E1 E2 E3 E4)) as (I & B & HH & HS). cbn [fst snd] in *.
  destruct (Heap_wf _ _ _ HH) as [Hwf Hdis]. split; [|split; [|split; [|split]]].
  - intros p n Hp. destruct (served_lookup _ _ _ _ HS Hp) as (m & Hm & Hnm & _).
    destruct (Hwf _ _ Hm) as (P1 & P2 & P3 & P4 & P5). repeat (split; [done || lia|]). intros w Hw. apply P5. lia.
  - intros p n q m Hp Hq Hne. destruct (served_lookup _ _ _ _ HS Hp) as (n' & Hp' & ? & _).
    destruct (served_lookup _ _ _ _ HS Hq) as (m' & Hq' & ? & _). destruct (Hdis _ _ _ _ Hp' Hq' Hne); lia.
  - intros size Hs Hs32 Hav. destruct (alloc_heap _ _ _ _ HH Hs Hs32 Hav) as (I' & h' & p & n & E & _ & Hp & _).
    exists p, h'. unfold wmem_alloc. rewrite (proj2 (Z.eqb_neq size 0)) by lia. split; [done|].
    specialize (HS p). rewrite Hp in HS. by inversion HS.
  - intros p n Hp. destruct (served_lookup _ _ _ _ HS Hp) as (m & Hm & _).
    destruct (free_heap _ _ _ _ _ HH Hm) as (I' & h' & E & _). exists h'. unfold wmem_free.
    by rewrite (ptr_not_null _ _ _ _ _ HH Hm).
  - intros p n size Hp Hn Hs Hs32 Hav. destruct (served_lookup _ _ _ _ HS Hp) as (m & Hm & _ & Hsm).
    destruct (realloc_heap _ _ _ _ _ _ HH Hm (Hsm Hn) Hs Hs32 Hav) as (I' & h' & q & m' & E & _).
    exists q, h'. unfold wmem_realloc. by rewrite (ptr_not_null _ _ _ _ _ HH Hm), (proj2 (Z.eqb_neq size 0)) by lia.
Qed.

(** C38: The result of [AllocVec] is not tested: with the system out of memory,
    the first allocation writes through the null pointer instead of returning
    [NULL], so that where address 0 is not mapped it faults. *)
Theorem wmem_alloc_out_of_memory h size :
  master_head h = NULL -> recycler_head h = NULL -> words h !! 0 = None ->
  0 < size -> size + 16 < 4294967296 -> vec_avail (os h) (need size) = false ->
  wmem_alloc size h = None.
Proof.
  intros Em Er Hw Hs Hs32 Hav. unfold wmem_alloc. rewrite (proj2 (Z.eqb_neq size 0)) by lia.
  unfold wmem_block_alloc. rewrite (proj2 (proj2 header_sizes)). unfold need in Hav.
  assert (Hos : forall n, vec_avail (os h) n = false -> exists h', os_alloc n h = Some (0, h') /\ words h' = words h).
  { intros n Hn. destruct (AllocVec_fails _ _ (words h) Hn) as [o' E]. eexists. unfold os_alloc. rewrite E. done. }
  assert (Hadd : forall n h', os_alloc n h = Some (0, h') -> words h' = words h ->
    wmem_block_add_to_block_list 0 h' = None).
  { intros n h' _ E. unfold wmem_block_add_to_block_list, wbind, wr. by rewrite E, Hw. }
  destruct (Z.ltb_spec 8388592 size) as [Hlt|Hge].
  - destruct (Z.leb_spec size 8388592); [lia|].
    unfold wmem_block_alloc_jumbo. rewrite (proj1 header_sizes), (proj1 (proj2 header_sizes)), u32_id by lia.
    replace (size + 8 + 8) with (size + 16) by lia. destruct (Hos _ Hav) as (h' & E & Ew).
    unfold wbind. by rewrite E, (Hadd _ _ E Ew).
  - destruct (Z.leb_spec size 8388592); [|lia]. destruct (Hos _ Hav) as (h' & E & Ew).
    assert (Hnew : wmem_block_new_block h = None).
    { unfold wmem_block_new_block, wbind. change WMEM_BLOCK_SIZE with 8388608. by rewrite E, (Hadd _ _ E Ew). }
    unfold wbind at 1, get_recycler at 1. rewrite Er. change (NULL =? NULL) with true. cbn beta iota.
    unfold wbind, wret, get_master. rewrite !Em. change (NULL =? NULL) with true. cbn beta iota.
    rewrite Em. change (NULL =? NULL) with true. cbn beta iota. by rewrite Hnew.
Qed.

(** C22: In every state a program reaches (while the system has memory for what
    it asks for, and it reallocates no jumbo allocation), the chunks of each
    block, as a walk
    from its first one finds them, tile the block: every length is at least
    a header, each chunk but the last is followed by one that knows its
    length, the last one ends the block, and no free chunk is followed by
    another, as the design notes of the allocator claim. *)
Theorem heap_coalesced h0 h A b c :
  block_list h0 = NULL -> master_head h0 = NULL -> recycler_head h0 = NULL ->
  (forall w, vec_free (os h0) w -> words h0 !! w = None) ->
  rtc prog_step (h0, ∅) (h, A) ->
  in_blocks h b -> chunk_jumbo (b + 8) h = Some (false, h) -> in_block h b c ->
  exists f d, chunk_flags c h = Some (f, h) /\ WMEM_CHUNK_NEXT c h = Some (d, h) /\
    8 <= len f /\ b + 8 <= c /\ c + len f <= b + WMEM_BLOCK_SIZE /\
    (last f = true <-> c + len f = b + WMEM_BLOCK_SIZE) /\
    (d <> NULL -> chunk_prev d h = Some (len f, h) /\ (used f = false -> chunk_used d h = Some (true, h))).
Proof.
  intros E1 E2 E3 E4 Hr Hb Hj Hc.
  destruct (prog_steps_safe _ _ Hr (start_safe _ E1 E2 E3 E4)) as (I & B & (L & C & M & R & HG & _) & _).
  eapply block_chunks; [exact HG| |done]. eapply block_kind; [exact HG| |done]. by eapply in_blocks_list.
Qed.
End Contract.

(** ** How often the system is asked *)

Section Once.
Context `{OsMem}.

(** [c] asks the system for at most one block. *)
Definition asks_once {A} (c : W A) : Prop := forall h a h', c h = Some (a, h') ->
  os h' = os h \/ exists m, os h' = (AllocVec WMEM_BLOCK_SIZE (os h) m).1.2.

Lemma asks_tame {A} (c : W A) : tame c -> asks_once c.
Proof. intros Hc h a h' E. left. by apply (Hc _ _ _ E). Qed.
Lemma asks_then {A B} (c : W A) (k : A -> W B) : tame c -> (forall a, asks_once (k a)) -> asks_once (wbind c k).
Proof.
  intros Hc Hk h b h'. unfold wbind. destruct (c h) as [[a h1]|] eqn:E; [|done]. intros E2.
  destruct (Hc _ _ _ E) as [<- _]. by eapply Hk.
Qed.
Lemma asks_first {A B} (c : W A) (k : A -> W B) : asks_once c -> (forall a, tame (k a)) -> asks_once (wbind c k).
Proof.
  intros Hc Hk h b h'. unfold wbind. destruct (c h) as [[a h1]|] eqn:E; [|done]. intros E2.
  destruct (Hk _ _ _ _ E2) as [-> _]. by eapply Hc.
Qed.

Lemma new_block_asks : asks_once wmem_block_new_block.
Proof.
  apply asks_first.
  - intros h a h'. unfold os_alloc. destruct (AllocVec WMEM_BLOCK_SIZE (os h) (words h)) as [[q o'] m'] eqn:E.
    intros [= <- <-]. right. exists (words h). by rewrite E.
  - intros b. repeat tame1.
Qed.

Lemma alloc_asks size : size <= 8388592 -> asks_once (wmem_block_alloc size).
Proof.
  intros Hs. unfold wmem_block_alloc. rewrite (proj2 (proj2 header_sizes)). destruct (Z.ltb_spec 8388592 size); [lia|].
  apply asks_then; [repeat tame1|intros r]. apply asks_then; [repeat tame1|intros fits].
  apply asks_first; [|intros c; repeat tame1]. destruct fits; [apply asks_tame; repeat tame1|].
  apply asks_then; [repeat tame1|intros m]. apply asks_then; [repeat tame1|intros short].
  apply asks_then; [repeat tame1|intros []]. apply asks_then; [repeat tame1|intros m'].
  apply asks_first; [|intros []; repeat tame1]. destruct (m' =? NULL); [apply new_block_asks|apply asks_tame, tame_ret].
Qed.
End Once.

(** A state with one allocation, and the system not out of memory. *)
Lemma one_allocation : exists I h p n, wmem_alloc 24 Bump.start = Some (p, h) /\ Heap I h {[p := n]} /\
  24 <= n <= 8388592 /\ vec_avail (os h) (need 100) = true.
Proof.
  assert (Hstart : Heap ∅ Bump.start ∅) by (by apply Heap_empty).
  destruct (alloc_heap ∅ Bump.start ∅ 24 Hstart) as (I & h & p & n & E & HH & _ & Hn & Hsm & _); [lia|lia|done|].
  rewrite insert_empty in HH. exists I, h, p, n. split; [done|]. split; [done|]. split; [lia|].
  destruct (alloc_asks 24 ltac:(lia) _ _ _ E) as [->|[m Em]]; [done|].
  assert (Ha : Bump.avail (os Bump.start) 8388608 = true) by reflexivity.
  assert (Eh : os h = (8 + 8 * ((8388608 + 7) / 8), <[8 := 8388608]> ∅)).
  { transitivity (Bump.alloc 8388608 (os Bump.start) m).1.2; [exact Em|exact (Bump.alloc_state _ _ m Ha)]. }
  by rewrite Eh.
Qed.

(** With one small allocation there is a block, and it is one of chunks. *)
Lemma small_block `{OsLaws} I h p n : Heap I h {[p := n]} -> n <= 8388592 ->
  block_list h <> NULL /\ chunk_jumbo (block_list h + 8) h = Some (false, h).
Proof.
  intros (L & C & M & R & HG & HA) Hn. destruct (h_view _ _ _ _ _ _ HG) as (P & N & _ & Hrep).
  rewrite (rep_block_list _ _ _ _ _ _ Hrep).
  destruct (alloc_place _ _ _ _ _ _ p n HG) as (_ & _ & _ & _ & b & i & Eb & _); [apply HA, lookup_singleton_eq|].
  assert (HbL : b ∈ L) by (apply (h_dom _ _ _ _ _ _ HG); by eexists).
  destruct L as [|b0 L]; [by apply elem_of_nil in HbL|]. cbn [hd].
  destruct (proj1 (h_dom _ _ _ _ _ _ HG b0)) as [i0 E0]; [by left|].
  destruct (h_block _ _ _ _ _ _ HG _ _ E0) as (? & _). split; [unfold NULL; lia|].
  destruct i0 as [m|].
  - destruct (h_jumbo _ _ _ _ _ _ HG _ _ E0) as [Hm _].
    assert (Ha : allocated I C (b0 + 16) (m - 16)) by (right; by exists b0, m).
    apply HA in Ha. apply lookup_singleton_Some in Ha as [_ ?]. lia.
  - destruct (g_cover _ _ (i_geo _ _ _ _ _ _ (h_inv _ _ _ _ _ _ HG)) _ E0) as (k & Ek & _).
    exact (chunk_jumbo_run _ _ _ _ _ _ _ _ HG Ek).
Qed.

(** ** The theorems on a state *)

Lemma start_heap : Heap ∅ Bump.start ∅.
Proof. by apply Heap_empty. Qed.

Lemma wmem_alloc_correct_witness :
  vec_avail (os Bump.start) (need 24) = true /\ exists I h p n, wmem_alloc 24 Bump.start = Some (p, h) /\
    Heap I h {[p := n]} /\ 24 <= n.
Proof.
  split; [done|].
  destruct (proj2 (wmem_alloc_correct ∅ Bump.start ∅ 24 start_heap ltac:(lia) ltac:(lia) eq_refl) ltac:(lia))
    as (I & h & p & n & E & HH & _ & _ & _ & Hn & _).
  rewrite insert_empty in HH. exists I, h, p, n. exact (conj E (conj HH Hn)).
Defined.

Lemma wmem_free_correct_witness :
  exists p h h', wmem_alloc 24 Bump.start = Some (p, h) /\ wmem_free p h = Some (tt, h') /\ exists I, Heap I h' ∅.
Proof.
  destruct one_allocation as (I & h & p & n & E & HH & _ & _).
  destruct (proj2 (wmem_free_correct I h {[p := n]} p n HH (lookup_singleton_eq p n))) as (I' & h' & E' & HH' & _).
  rewrite delete_singleton_eq in HH'. exists p, h, h'. split; [exact E|]. split; [exact E'|]. exists I'. exact HH'.
Defined.

Lemma wmem_realloc_correct_witness :
  exists p h q h', wmem_alloc 24 Bump.start = Some (p, h) /\ wmem_realloc p 100 h = Some (q, h') /\
    words h' !! (q + 20) = words h !! (p + 20).
Proof.
  destruct one_allocation as (I & h & p & n & E & HH & Hn & Hav).
  destruct (proj2 (proj2 (wmem_realloc_correct I h {[p := n]} p n 100 HH (lookup_singleton_eq p n)
    (proj2 Hn) ltac:(lia) ltac:(lia) Hav))) as (I' & h' & q & m & E' & _ & _ & _ & Hdata & _).
  exists p, h, q, h'. split; [exact E|]. split; [exact E'|]. apply Hdata; [lia..|reflexivity].
Defined.

Lemma heap_safety_witness :
  exists p h h', wmem_alloc 24 Bump.start = Some (p, h) /\ p mod 8 = 0 /\ wmem_free p h = Some (tt, h').
Proof.
  destruct one_allocation as (I & h & p & n & E & _).
  assert (Hr : rtc prog_step (Bump.start, ∅) (h, {[p := 24]})).
  { apply rtc_once. rewrite <- insert_empty. apply (step_alloc _ _ 24); [lia|lia|reflexivity|exact E]. }
  destruct (heap_safety Bump.start h {[p := 24]} eq_refl eq_refl eq_refl (fun w _ => eq_refl) Hr) as (H1 & _ & _ & H4 & _).
  destruct (H1 p 24 (lookup_singleton_eq p 24)) as (_ & H8 & _).
  destruct (H4 p 24 (lookup_singleton_eq p 24)) as [h' E']. exists p, h, h'.
  exact (conj E (conj H8 E')).
Defined.

Lemma wmem_alloc_out_of_memory_witness :
  wmem_alloc 24 (mkHeap Bump.bump_os ∅ (4294967288, ∅) 0 0 0) = None.
Proof. exact (wmem_alloc_out_of_memory (mkHeap Bump.bump_os ∅ (4294967288, ∅) 0 0 0) 24 eq_refl eq_refl eq_refl eq_refl eq_refl eq_refl). Defined.

Lemma heap_coalesced_witness :
  exists p h f d, wmem_alloc 24 Bump.start = Some (p, h) /\
    chunk_flags (WMEM_BLOCK_TO_CHUNK (block_list h)) h = Some (f, h) /\
    WMEM_CHUNK_NEXT (WMEM_BLOCK_TO_CHUNK (block_list h)) h = Some (d, h) /\ 8 <= len f.
Proof.
  destruct one_allocation as (I & h & p & n & E & HH & Hn & _).
  assert (Hr : rtc prog_step (Bump.start, ∅) (h, {[p := 24]})).
  { apply rtc_once. rewrite <- insert_empty. apply (step_alloc _ _ 24); [lia|lia|reflexivity|exact E]. }
  destruct (small_block I h p n HH (proj2 Hn)) as [Hb Hj].
  destruct (heap_coalesced Bump.start h {[p := 24]} (block_list h) (WMEM_BLOCK_TO_CHUNK (block_list h))
    eq_refl eq_refl eq_refl (fun w _ => eq_refl) Hr (blocks_head _ Hb) Hj (chunk_first _ _))
    as (f & d & H1 & H2 & H3 & _).
  exists p, h, f, d. exact (conj E (conj H1 (conj H2 H3))).
Defined.
