(* ===== verification/Alloc.v ===== *)
(** * The allocator as its clients see it

    The functions of the library that build structures in allocated memory
    call [malloc] and [free] and rely on little: the contract is the class
    [MallocLaws].  The block allocator, through the theorems on [Heap],
    satisfies it. *)

From S2P Require Import Prelude WMem WMemLogic WMemSpec WMemHeap.

Class Malloc `{OsMem} := {
  malloc : Z -> W Z;
  free : Z -> W unit;
}.

(** [owns h A X]: in the state [h] the live allocations are [A], by address
    and size, and the words [X] are the program's own, outside of the
    allocator's memory.  [room h n]: a request of [n] bytes may be made. *)
Class MallocLaws `{Malloc} := {
  owns : heap -> gmap Z Z -> (Z -> Prop) -> Prop;
  room : heap -> Z -> Prop;
  owns_place h A X p n : owns h A X -> A !! p = Some n ->
    0 < p /\ p mod 8 = 0 /\ p + n < 4294967296 /\
    forall w, p <= w < p + n -> w mod 4 = 0 -> is_Some (words h !! w) /\ ~ X w;
  owns_disj h A X p n q m : owns h A X -> A !! p = Some n -> A !! q = Some m -> p <> q ->
    p + n <= q \/ q + m <= p;
  owns_own h A X w : owns h A X -> X w -> is_Some (words h !! w);
  owns_write h A X w v : owns h A X ->
    X w \/ (exists p n, A !! p = Some n /\ p <= w /\ w + 4 <= p + n /\ w mod 4 = 0) ->
    owns (with_words h (<[w := v]> (words h))) A X;
  malloc_works h A X n : owns h A X -> 0 < n -> n <= 8388592 -> room h n ->
    exists p h', malloc n h = Some (p, h') /\
      (p = NULL /\ owns h' A X \/
       p <> NULL /\ A !! p = None /\ exists m, n <= m /\ owns h' (<[p := m]> A) X) /\
      (forall x m w, A !! x = Some m -> x <= w < x + m -> w mod 4 = 0 -> words h' !! w = words h !! w) /\
      (forall w, X w -> words h' !! w = words h !! w);
  free_works h A X p n : owns h A X -> A !! p = Some n ->
    exists h', free p h = Some (tt, h') /\ owns h' (delete p A) X /\
      (forall x m w, A !! x = Some m -> x <> p -> x <= w < x + m -> w mod 4 = 0 -> words h' !! w = words h !! w) /\
      (forall w, X w -> words h' !! w = words h !! w);
}.

(** ** The block allocator is one *)

#[global] Instance wmem_malloc `{OsMem} : Malloc := {| malloc := wmem_alloc; free := wmem_free |}.

Section Wmem.
Context `{OsLaws}.

Definition wmem_owns (h : heap) (A : gmap Z Z) (X : Z -> Prop) : Prop :=
  exists I, Heap I h A /\ forall w, X w -> is_Some (words h !! w) /\ foreign I w.

Lemma foreign_kept I h I' h' (X : Z -> Prop) :
  foreign_same I h I' h' -> (forall w, X w -> is_Some (words h !! w) /\ foreign I w) ->
  forall w, X w -> words h' !! w = words h !! w /\ is_Some (words h' !! w) /\ foreign I' w.
Proof.
  intros Hf HX w Hw. destruct (HX w Hw) as [[v Hv] Hfw]. destruct (Hf w v Hv Hfw) as [Hv' Hf'].
  rewrite Hv, Hv'. eauto.
Qed.

Lemma wmem_owns_alloc h A X size : wmem_owns h A X -> 0 < size -> size <= 8388592 ->
  vec_avail (os h) (need size) = true ->
  exists p h', wmem_alloc size h = Some (p, h') /\
    (p = NULL /\ wmem_owns h' A X \/
     p <> NULL /\ A !! p = None /\ exists m, size <= m /\ wmem_owns h' (<[p := m]> A) X) /\
    (forall x m w, A !! x = Some m -> x <= w < x + m -> w mod 4 = 0 -> words h' !! w = words h !! w) /\
    (forall w, X w -> words h' !! w = words h !! w).
Proof.
  intros (I & HH & HX) Hs Hs8 Hav.
  destruct (alloc_heap _ _ _ _ HH Hs ltac:(lia) Hav) as (I' & h' & p & n & E & HH' & Hp & Hn & _ & Hd & Hf).
  pose proof (foreign_kept _ _ _ _ _ Hf HX) as HX'. exists p, h'. split.
  { unfold wmem_alloc. by rewrite (proj2 (Z.eqb_neq size 0)) by lia. }
  split; [right|split].
  - split; [|split; [done|]].
    + destruct (proj1 (Heap_wf _ _ _ HH') p n) as [? _]; [by rewrite lookup_insert_eq|unfold NULL; lia].
    + exists n. split; [done|]. exists I'. split; [done|]. intros w Hw. by apply HX'.
  - intros x m w Hx Hw H4. apply (Hd x m w Hx); [congruence|done|done].
  - intros w Hw. by apply HX'.
Qed.

Lemma wmem_owns_free h A X p n : wmem_owns h A X -> A !! p = Some n ->
  exists h', wmem_free p h = Some (tt, h') /\ wmem_owns h' (delete p A) X /\
    (forall x m w, A !! x = Some m -> x <> p -> x <= w < x + m -> w mod 4 = 0 -> words h' !! w = words h !! w) /\
    (forall w, X w -> words h' !! w = words h !! w).
Proof.
  intros (I & HH & HX) Hp. destruct (free_heap _ _ _ _ _ HH Hp) as (I' & h' & E & HH' & Hd & Hf).
  pose proof (foreign_kept _ _ _ _ _ Hf HX) as HX'. exists h'. split.
  { unfold wmem_free. by rewrite (ptr_not_null _ _ _ _ _ HH Hp). }
  split; [exists I'; split; [done|]; intros w Hw; by apply HX'|]. split; [done|]. intros w Hw. by apply HX'.
Qed.

(** Words of the program are neither headers nor links. *)
Lemma wmem_owns_write h A X w v : wmem_owns h A X ->
  X w \/ (exists p n, A !! p = Some n /\ p <= w /\ w + 4 <= p + n /\ w mod 4 = 0) ->
  wmem_owns (with_words h (<[w := v]> (words h))) A X.
Proof.
  intros (I & HH & HX) Hw. exists I. split.
  - destruct Hw as [Hw|(p & n & Hp & Hlo & Hhi & H4)].
    + destruct (HX w Hw) as [Hm Hf]. by apply write_foreign.
    + replace w with (p + (w - p)) by lia. eapply write_heap; [done|done|lia|lia|].
      destruct (proj1 (Heap_wf _ _ _ HH) p n Hp) as (_ & P8 & _). Z.div_mod_to_equations; lia.
  - intros x Hx. destruct (HX x Hx) as [Hm Hf]. split; [|done]. cbn. rewrite lookup_insert.
    case_decide; [by eexists|done].
Qed.

#[global] Instance wmem_laws : MallocLaws.
Proof.
  refine {| owns := wmem_owns; room h n := vec_avail (os h) (need n) = true |}.
  - intros h A X p n (I & HH & HX) Hp. destruct (proj1 (Heap_wf _ _ _ HH) p n Hp) as (P1 & P2 & _ & P4 & P5).
    repeat (split; [done|]). intros w Hw H4. split; [by apply P5|]. intros Hx. destruct (HX w Hx) as [_ Hf].
    by eapply alloc_not_foreign.
  - intros h A X p n q m (I & HH & _). by apply (Heap_wf _ _ _ HH).
  - intros h A X w (I & _ & HX) Hw. by apply HX.
  - exact wmem_owns_write.
  - exact wmem_owns_alloc.
  - exact wmem_owns_free.
Defined.
End Wmem.
