(* ===== verification/Tree.v ===== *)
(** * Search trees ([library/search/tsearch.c], [tfind.c], [tdelete.c],
      [twalk.c], [tdestroy.c])

    Unbalanced binary search trees in allocated memory.  A node is three
    words, the key and the two links; the caller holds the root in a word of
    his own.  The functions walk with a pointer to the link they came by.
    The tree is proved against the list of its keys in order, over any
    allocator that keeps the contract of [Alloc]. *)

From Stdlib Require Import Sorted.
From S2P Require Import Prelude WMem WMemLogic WMemSpec WMemHeap Malloc Alloc.

#[local] Notation "'let*' x ':=' c 'in' k" := (wbind c (fun x => k))
  (at level 10, x pattern, c at level 100, k at level 200,
   format "'[v' 'let*'  x  ':='  c  'in' '/' k ']'").
#[local] Notation "c1 ;; c2" := (wbind c1 (fun _ => c2))
  (at level 100, right associativity).

(** ** The code *)

Section Code.
Context `{OsMem, !Malloc}.

(** The comparison the caller gives, of the keys' addresses. *)
Variable compar : Z -> Z -> Z.

(** The fields of [node_t]. *)
Definition SIZEOF_node : Z := 12.
Definition key_of (p : Z) : Z := p.
Definition llink (p : Z) : Z := p + 4.
Definition rlink (p : Z) : Z := p + 8.

(** The loops take as many rounds as their fuel allows. *)
Definition out_of_fuel {A} : W A := fun _ => None.

(** The loop of [tsearch] and [tfind]: the node found, or the link where the
    key belongs. *)
Fixpoint search_loop (fuel : nat) (vkey rootp : Z) : W (Z + Z) :=
  match fuel with
  | O => out_of_fuel
  | S fuel =>
      let* root := rd rootp in
      if root =? NULL then wret (inr rootp)
      else
        let* k := rd (key_of root) in
        let r := compar vkey k in
        if r =? 0 then wret (inl root)
        else search_loop fuel vkey (if r <? 0 then llink root else rlink root)
  end.

Definition tsearch (fuel : nat) (vkey vrootp : Z) : W Z :=
  if vrootp =? NULL then wret NULL
  else
    let* found := search_loop fuel vkey vrootp in
    match found with
    | inl node => wret node
    | inr rootp =>
        let* q := malloc SIZEOF_node in
        (if negb (q =? NULL) then
           wr rootp q ;;
           wr (key_of q) vkey ;;
           wr (rlink q) NULL ;;
           wr (llink q) NULL
         else wret tt) ;;
        wret q
    end.

Definition tfind (fuel : nat) (vkey vrootp : Z) : W Z :=
  if vrootp =? NULL then wret NULL
  else
    let* found := search_loop fuel vkey vrootp in
    wret (match found with inl node => node | inr _ => NULL end).

(** The loop of [tdelete]: the link to the node and the node before it. *)
Fixpoint seek_loop (fuel : nat) (vkey rootp p : Z) : W (option (Z * Z)) :=
  match fuel with
  | O => out_of_fuel
  | S fuel =>
      let* root := rd rootp in
      let* k := rd (key_of root) in
      let cmp := compar vkey k in
      if cmp =? 0 then wret (Some (rootp, p))
      else
        let rootp' := if cmp <? 0 then llink root else rlink root in
        let* next := rd rootp' in
        if next =? NULL then wret None
        else seek_loop fuel vkey rootp' root
  end.

(** The loop at D3: down the left links, one node behind. *)
Fixpoint left_loop (fuel : nat) (r q : Z) : W (Z * Z) :=
  match fuel with
  | O => out_of_fuel
  | S fuel =>
      let* ql := rd (llink q) in
      if ql =? NULL then wret (r, q)
      else
        let* q' := rd (llink q) in
        left_loop fuel q q'
  end.

(** D1 to D3: the tree that takes the place of the node [root], whose right
    and left links are [r] and [q]. *)
Definition splice (fuel : nat) (root r q : Z) : W Z :=
  if q =? NULL then wret r
  else if negb (r =? NULL) then
    let* rl := rd (llink r) in
    if rl =? NULL then
      wr (llink r) q ;;
      wret r
    else
      let* q := rd (llink r) in
      let* (r, q) := left_loop fuel r q in
      let* qr := rd (rlink q) in
      wr (llink r) qr ;;
      let* l := rd (llink root) in
      wr (llink q) l ;;
      let* rr := rd (rlink root) in
      wr (rlink q) rr ;;
      wret q
  else wret q.

Definition tdelete (fuel : nat) (vkey vrootp : Z) : W Z :=
  if vrootp =? NULL then wret NULL
  else
    let* p := rd vrootp in
    if p =? NULL then wret NULL
    else
      let* found := seek_loop fuel vkey vrootp p in
      match found with
      | None => wret NULL
      | Some (rootp, p) =>
          let* root := rd rootp in
          let* r := rd (rlink root) in
          let* q := rd (llink root) in
          let* q := splice fuel root r q in
          free root ;;
          wr rootp q ;;
          wret p
      end.

(** The visits of [twalk], in the order of the calls of [action]: the node,
    the kind of visit and the level. *)
Inductive VISIT := preorder | postorder | endorder | leaf.
#[global] Instance VISIT_eq_dec : EqDecision VISIT.
Proof. solve_decision. Defined.

Fixpoint walk_trecurse (fuel : nat) (root level : Z) : W (list (Z * VISIT * Z)) :=
  match fuel with
  | O => out_of_fuel
  | S fuel =>
      let* l := rd (llink root) in
      let* r := rd (rlink root) in
      if (l =? NULL) && (r =? NULL) then wret [(root, leaf, level)]
      else
        let* l := rd (llink root) in
        let* vl := if negb (l =? NULL) then walk_trecurse fuel l (level + 1) else wret [] in
        let* r := rd (rlink root) in
        let* vr := if negb (r =? NULL) then walk_trecurse fuel r (level + 1) else wret [] in
        wret ([(root, preorder, level)] ++ vl ++ [(root, postorder, level)] ++ vr ++ [(root, endorder, level)])
  end.

Definition twalk (fuel : nat) (vroot : Z) (action : bool) : W (list (Z * VISIT * Z)) :=
  if negb (vroot =? NULL) && action then walk_trecurse fuel vroot 0 else wret [].

(** The keys [tdestroy] hands to [free_action], in order. *)
Fixpoint destroy_trecurse (fuel : nat) (root : Z) : W (list Z) :=
  match fuel with
  | O => out_of_fuel
  | S fuel =>
      let* l := rd (llink root) in
      let* vl := if negb (l =? NULL) then destroy_trecurse fuel l else wret [] in
      let* r := rd (rlink root) in
      let* vr := if negb (r =? NULL) then destroy_trecurse fuel r else wret [] in
      let* k := rd (key_of root) in
      free root ;;
      wret (vl ++ vr ++ [k])
  end.

Definition tdestroy (fuel : nat) (vroot : Z) : W (list Z) :=
  if negb (vroot =? NULL) then destroy_trecurse fuel vroot else wret [].
End Code.

(** ** Trees *)

(** A tree with the address and the key of each node. *)
Inductive tree := Leaf | Node (p k : Z) (l r : tree).

Fixpoint items (t : tree) : list (Z * Z) :=
  match t with Leaf => [] | Node p k l r => items l ++ (p, k) :: items r end.

(** The words of the nodes. *)
Fixpoint fp (t : tree) : list Z :=
  match t with Leaf => [] | Node p _ l r => p :: p + 4 :: p + 8 :: fp l ++ fp r end.

Fixpoint height (t : tree) : nat :=
  match t with Leaf => 0 | Node _ _ l r => S (Nat.max (height l) (height r)) end.

(** [tree_at m p t]: the pointer [p] leads to the tree [t]. *)
Fixpoint tree_at (m : gmap Z Z) (p : Z) (t : tree) : Prop :=
  match t with
  | Leaf => p = 0
  | Node q k l r => p = q /\ q <> 0 /\ m !! q = Some k /\
      exists pl pr, m !! (q + 4) = Some pl /\ m !! (q + 8) = Some pr /\ tree_at m pl l /\ tree_at m pr r
  end.

(** The link [c] holds [t]. *)
Definition holds (m : gmap Z Z) (c : Z) (t : tree) : Prop := exists p, m !! c = Some p /\ tree_at m p t.

Lemma tree_at_node m q k l r pl pr : q <> 0 -> m !! q = Some k -> m !! (q + 4) = Some pl -> m !! (q + 8) = Some pr ->
  tree_at m pl l -> tree_at m pr r -> tree_at m q (Node q k l r).
Proof. cbn. eauto 10. Qed.

Lemma tree_at_frame m m' p t : tree_at m p t -> (forall w, w ∈ fp t -> m' !! w = m !! w) -> tree_at m' p t.
Proof.
  revert p. induction t as [|q k l IHl r IHr]; intros p; [done|]. cbn.
  intros (-> & Hq & Hk & pl & pr & Hl & Hr & Tl & Tr) Hf. split; [done|]. split; [done|].
  rewrite !Hf by set_solver. split; [done|]. exists pl, pr. split; [done|]. split; [done|].
  split; [apply IHl|apply IHr]; try done; intros w Hw; apply Hf; set_solver.
Qed.

Lemma holds_frame m m' c t : holds m c t -> (forall w, w ∈ c :: fp t -> m' !! w = m !! w) -> holds m' c t.
Proof.
  intros (p & Hp & Ht) Hf. exists p. rewrite Hf by set_solver. split; [done|].
  eapply tree_at_frame; [done|]. set_solver.
Qed.

Lemma tree_at_null m p t : tree_at m p t -> p = 0 <-> t = Leaf.
Proof. destruct t; cbn; [done|]. intros (-> & Hq & _). split; [lia|done]. Qed.

Lemma holds_node m c p k l r : holds m c (Node p k l r) <->
  m !! c = Some p /\ p <> 0 /\ m !! p = Some k /\ holds m (p + 4) l /\ holds m (p + 8) r.
Proof.
  unfold holds. cbn. split.
  - intros (p' & Hc & -> & H0 & Hk & pl & pr & Hl & Hr & Tl & Tr). eauto 10.
  - intros (Hc & H0 & Hk & (pl & Hl & Tl) & (pr & Hr & Tr)). exists p. eauto 10.
Qed.

(** The items a tree loses at its least node, and at its root. *)
Fixpoint pop_min (p k : Z) (l r : tree) : Z * Z * tree :=
  match l with
  | Leaf => (p, k, r)
  | Node p' k' l' r' => let '(q, qk, l2) := pop_min p' k' l' r' in (q, qk, Node p k l2 r)
  end.
Definition remove_root (t : tree) : tree :=
  match t with
  | Leaf => Leaf
  | Node _ _ Leaf r => r
  | Node _ _ l Leaf => l
  | Node _ _ l (Node rp rk rl rr) => let '(q, qk, r') := pop_min rp rk rl rr in Node q qk l r'
  end.

Lemma pop_min_items l : forall p k r q qk t, pop_min p k l r = (q, qk, t) -> items l ++ (p, k) :: items r = (q, qk) :: items t.
Proof.
  induction l as [|p' k' l' IH r' _]; intros p k r q qk t; cbn; [by intros [= <- <- <-]|].
  destruct (pop_min p' k' l' r') as [[q' qk'] l2] eqn:E. intros [= <- <- <-]. cbn.
  by rewrite (IH _ _ _ _ _ _ E).
Qed.

Lemma remove_root_items p k l r : items (remove_root (Node p k l r)) = items l ++ items r.
Proof.
  destruct l as [|lp lk ll lr]; [done|]. destruct r as [|rp rk rl rr]; [cbn; by rewrite app_nil_r|].
  unfold remove_root. destruct (pop_min rp rk rl rr) as [[q qk] r'] eqn:E.
  change (items (Node rp rk rl rr)) with (items rl ++ (rp, rk) :: items rr).
  by rewrite (pop_min_items _ _ _ _ _ _ _ E).
Qed.

Lemma pop_min_fp l : forall p k r q qk t, pop_min p k l r = (q, qk, t) ->
  fp (Node p k l r) ≡ₚ q :: q + 4 :: q + 8 :: fp t.
Proof.
  induction l as [|p' k' l' IH r' _]; intros p k r q qk t; cbn [pop_min]; [by intros [= <- <- <-]|].
  destruct (pop_min p' k' l' r') as [[q' qk'] l2] eqn:E. intros [= <- <- <-].
  change (fp (Node p k (Node p' k' l' r') r)) with (p :: p + 4 :: p + 8 :: fp (Node p' k' l' r') ++ fp r).
  rewrite (IH _ _ _ _ _ _ E). cbn [fp]. cbn [app]. solve_Permutation.
Qed.

(** ** Where a key belongs *)

(** What the caller's comparison must be: an order on the keys. *)
Class OrderLaws (compar : Z -> Z -> Z) : Prop := {
  compar_sym x y : Z.sgn (compar y x) = - Z.sgn (compar x y);
  compar_trans x y z : compar x y <= 0 -> compar y z <= 0 -> compar x z <= 0;
}.

Section Order.
Context (compar : Z -> Z -> Z).

Definition less (x y : Z * Z) : Prop := compar x.2 y.2 < 0.
Definition ordered (t : tree) : Prop := StronglySorted less (items t).

(** The link where the search for [vkey] ends, the node before, and the
    subtree there; and the tree with that subtree changed by [f]. *)
Fixpoint target (vkey c par : Z) (t : tree) : Z * Z * tree :=
  match t with
  | Leaf => (c, par, t)
  | Node p k l r =>
      if compar vkey k =? 0 then (c, par, t)
      else if compar vkey k <? 0 then target vkey (p + 4) p l else target vkey (p + 8) p r
  end.
Fixpoint modify (vkey : Z) (f : tree -> tree) (t : tree) : tree :=
  match t with
  | Leaf => f t
  | Node p k l r =>
      if compar vkey k =? 0 then f t
      else if compar vkey k <? 0 then Node p k (modify vkey f l) r else Node p k l (modify vkey f r)
  end.

Lemma target_sub vkey m t : forall c par c' par' s,
  NoDup (c :: fp t) -> holds m c t -> target vkey c par t = (c', par', s) ->
  holds m c' s /\ NoDup (c' :: fp s) /\ forall w, w ∈ c' :: fp s -> w ∈ c :: fp t.
Proof.
  induction t as [|p k l IHl r IHr]; intros c par c' par' s Hnd Hh; [by intros [= <- <- <-]|]. cbn [target].
  destruct (compar vkey k =? 0); [by intros [= <- <- <-]|].
  apply holds_node in Hh as (_ & _ & _ & Hl & Hr). cbn [fp] in Hnd. rewrite !NoDup_cons, NoDup_app in Hnd.
  destruct Hnd as (N1 & N2 & N3 & N4 & N5 & N6 & N7). rewrite !not_elem_of_cons, !not_elem_of_app in *.
  destruct (compar vkey k <? 0); intros E.
  - assert (Nl : NoDup (p + 4 :: fp l)) by (apply NoDup_cons; tauto).
    destruct (IHl _ _ _ _ _ Nl Hl E) as (K1 & K2 & K3). split; [done|]. split; [done|].
    intros w Hw%K3. cbn [fp]. rewrite !elem_of_cons, elem_of_app in *. tauto.
  - assert (Nr : NoDup (p + 8 :: fp r)) by (apply NoDup_cons; tauto).
    destruct (IHr _ _ _ _ _ Nr Hr E) as (K1 & K2 & K3). split; [done|]. split; [done|].
    intros w Hw%K3. cbn [fp]. rewrite !elem_of_cons, elem_of_app in *. tauto.
Qed.

(** Memory changed at the target holds the changed tree. *)
Lemma modify_holds vkey f m m' t : forall c par c' par' s,
  NoDup (c :: fp t) -> holds m c t -> target vkey c par t = (c', par', s) -> holds m' c' (f s) ->
  (forall w, w ∈ c :: fp t -> w ∉ c' :: fp s -> m' !! w = m !! w) -> holds m' c (modify vkey f t).
Proof.
  induction t as [|p k l IHl r IHr]; intros c par c' par' s Hnd Hh; [by intros [= <- <- <-]|]. cbn [target modify].
  destruct (compar vkey k =? 0); [by intros [= <- <- <-]|].
  apply holds_node in Hh as (Hc & Hp & Hk & Hl & Hr). cbn [fp] in Hnd. rewrite !NoDup_cons, NoDup_app in Hnd.
  destruct Hnd as (N1 & N2 & N3 & N4 & N5 & N6 & N7). rewrite !not_elem_of_cons, !not_elem_of_app in *.
  destruct (compar vkey k <? 0); intros E Hs Hf.
  - assert (Nl : NoDup (p + 4 :: fp l)) by (apply NoDup_cons; tauto).
    destruct (target_sub _ _ _ _ _ _ _ _ Nl Hl E) as (_ & _ & K3).
    assert (Hout : forall w, w ∈ c :: fp (Node p k l r) -> w ∉ p + 4 :: fp l -> m' !! w = m !! w).
    { intros w Hw Hn. apply Hf; [done|]. intros Hx. by apply K3 in Hx. }
    apply holds_node. rewrite !Hout by (cbn [fp]; rewrite ?elem_of_cons, ?not_elem_of_cons; tauto || (split; [lia|tauto])).
    repeat (split; [done|]). split.
    + eapply IHl; [done|done|done|done|]. intros w Hw Hn. apply Hf; [|done]. cbn [fp].
      rewrite !elem_of_cons, elem_of_app in *. tauto.
    + eapply holds_frame; [done|]. intros w Hw. apply Hout.
      * cbn [fp]. rewrite !elem_of_cons, elem_of_app in *. tauto.
      * rewrite elem_of_cons in Hw. rewrite not_elem_of_cons. destruct Hw as [->|Hw]; [split; [lia|tauto]|].
        split; [intros ->; tauto|]. intros Hx. by apply (N6 w).
  - assert (Nr : NoDup (p + 8 :: fp r)) by (apply NoDup_cons; tauto).
    destruct (target_sub _ _ _ _ _ _ _ _ Nr Hr E) as (_ & _ & K3).
    assert (Hout : forall w, w ∈ c :: fp (Node p k l r) -> w ∉ p + 8 :: fp r -> m' !! w = m !! w).
    { intros w Hw Hn. apply Hf; [done|]. intros Hx. by apply K3 in Hx. }
    apply holds_node. rewrite !Hout by (cbn [fp]; rewrite ?elem_of_cons, ?not_elem_of_cons; tauto || (split; [lia|tauto])).
    repeat (split; [done|]). split.
    + eapply holds_frame; [done|]. intros w Hw. apply Hout.
      * cbn [fp]. rewrite !elem_of_cons, elem_of_app in *. tauto.
      * rewrite elem_of_cons in Hw. rewrite not_elem_of_cons. destruct Hw as [->|Hw]; [split; [lia|tauto]|].
        split; [intros ->; tauto|]. intros Hx. by apply (N6 w).
    + eapply IHr; [done|done|done|done|]. intros w Hw Hn. apply Hf; [|done]. cbn [fp].
      rewrite !elem_of_cons, elem_of_app in *. tauto.
Qed.

Lemma target_fp vkey t : forall c par c' par' s, target vkey c par t = (c', par', s) ->
  exists l, fp t ≡ₚ l ++ fp s /\ forall f, fp (modify vkey f t) ≡ₚ l ++ fp (f s).
Proof.
  induction t as [|p k l IHl r IHr]; intros c par c' par' s; cbn [target modify]; [intros [= <- <- <-]; by exists []|].
  destruct (compar vkey k =? 0); [intros [= <- <- <-]; by exists []|]. destruct (compar vkey k <? 0); intros E.
  - destruct (IHl _ _ _ _ _ E) as (x & H1 & H2). exists (p :: p + 4 :: p + 8 :: x ++ fp r). cbn [fp].
    split; [rewrite H1|intros f; rewrite H2]; solve_Permutation.
  - destruct (IHr _ _ _ _ _ E) as (x & H1 & H2). exists (p :: p + 4 :: p + 8 :: fp l ++ x). cbn [fp].
    split; [rewrite H1|intros f; rewrite H2]; solve_Permutation.
Qed.

Lemma target_split vkey t : forall c par c' par' s, target vkey c par t = (c', par', s) ->
  exists l1 l2, items t = l1 ++ items s ++ l2 /\ forall f, items (modify vkey f t) = l1 ++ items (f s) ++ l2.
Proof.
  induction t as [|p k l IHl r IHr]; intros c par c' par' s; cbn [target modify].
  { intros [= <- <- <-]. exists [], []. cbn. split; [done|]. intros f. by rewrite app_nil_r. }
  destruct (compar vkey k =? 0).
  { intros [= <- <- <-]. exists [], []. cbn. split; [by rewrite app_nil_r|]. intros f. by rewrite app_nil_r. }
  destruct (compar vkey k <? 0); intros E.
  - destruct (IHl _ _ _ _ _ E) as (l1 & l2 & H1 & H2). exists l1, (l2 ++ (p, k) :: items r). cbn [items].
    split; [|intros f]; by rewrite ?H1, ?H2, <- !app_assoc.
  - destruct (IHr _ _ _ _ _ E) as (l1 & l2 & H1 & H2). exists (items l ++ (p, k) :: l1), l2. cbn [items].
    split; [|intros f]; by rewrite ?H1, ?H2, <- !app_assoc.
Qed.

Lemma items_sorted_app (l1 l2 : list (Z * Z)) : StronglySorted less (l1 ++ l2) <->
  StronglySorted less l1 /\ StronglySorted less l2 /\ forall x y, x ∈ l1 -> y ∈ l2 -> less x y.
Proof.
  induction l1 as [|a l1 IH]; cbn.
  - split; [|tauto]. intros Hs. split; [constructor|]. split; [done|]. by intros x y ?%elem_of_nil.
  - split.
    + intros Hs. apply StronglySorted_inv in Hs as [Hs Ha]. apply IH in Hs as (H1 & H2 & H3).
      rewrite Forall_forall in Ha. split; [constructor; [done|]|].
      * apply Forall_forall. intros x Hx. apply Ha. set_solver.
      * split; [done|]. intros x y [->|Hx]%elem_of_cons Hy; [apply Ha; set_solver|by apply H3].
    + intros (H1 & H2 & H3). apply StronglySorted_inv in H1 as [H1 Ha]. constructor.
      * apply IH. split; [done|]. split; [done|]. intros x y Hx. apply H3. set_solver.
      * rewrite Forall_forall in *. intros x [Hx|Hx]%elem_of_app; [by apply Ha|]. apply H3; set_solver.
Qed.

Context `{!OrderLaws compar}.

Lemma compar_zero x y : compar x y = 0 <-> compar y x = 0.
Proof using All. pose proof (compar_sym x y). lia. Qed.
Lemma compar_neg x y : compar x y < 0 <-> 0 < compar y x.
Proof using All. pose proof (compar_sym x y). lia. Qed.
Lemma less_trans x y z : compar x y <= 0 -> compar y z < 0 -> compar x z < 0.
Proof.
  intros H1 H2. pose proof (compar_trans x y z H1 ltac:(lia)). destruct (Z.eq_dec (compar x z) 0) as [E|]; [|lia].
  apply compar_zero in E. pose proof (compar_trans (compar := compar) z x y ltac:(lia) H1). apply compar_neg in H2. lia.
Qed.
Lemma less_trans' x y z : compar x y < 0 -> compar y z <= 0 -> compar x z < 0.
Proof.
  intros H1 H2. pose proof (compar_trans (compar := compar) x y z ltac:(lia) H2). destruct (Z.eq_dec (compar x z) 0) as [E|]; [|lia].
  apply compar_zero in E. pose proof (compar_trans y z x H2 ltac:(lia)). apply compar_neg in H1. lia.
Qed.

(** The items before the target are less than the key, those after it
    greater. *)
Lemma target_items vkey t : forall c par c' par' s, ordered t -> target vkey c par t = (c', par', s) ->
  exists l1 l2, items t = l1 ++ items s ++ l2 /\ (forall f, items (modify vkey f t) = l1 ++ items (f s) ++ l2) /\
    (forall x, x ∈ l1 -> compar x.2 vkey < 0) /\ (forall x, x ∈ l2 -> compar vkey x.2 < 0).
Proof using All.
  assert (Hnil : forall x s, items s = [] ++ items s ++ [] /\ (forall f, items (f s) = [] ++ items (f s) ++ []) /\
    (forall y : Z * Z, y ∈ [] -> compar y.2 x < 0) /\ (forall y : Z * Z, y ∈ [] -> compar x y.2 < 0)).
  { intros x s. cbn. rewrite app_nil_r. split; [done|]. split; [intros f; by rewrite app_nil_r|].
    split; by intros y ?%elem_of_nil. }
  induction t as [|p k l IHl r IHr]; intros c par c' par' s Ho; cbn [target modify].
  { intros [= <- <- <-]. exists [], []. apply Hnil. }
  destruct (compar vkey k =? 0) eqn:E0; [intros [= <- <- <-]; exists [], []; apply Hnil|].
  apply Z.eqb_neq in E0. unfold ordered in Ho. cbn [items] in Ho. apply items_sorted_app in Ho as (Hl & Hr & Hlr).
  apply StronglySorted_inv in Hr as [Hr Hk]. rewrite Forall_forall in Hk.
  destruct (compar vkey k <? 0) eqn:E1; intros E.
  - apply Z.ltb_lt in E1. destruct (IHl _ _ _ _ _ Hl E) as (l1 & l2 & H1 & H2 & H3 & H4).
    exists l1, (l2 ++ (p, k) :: items r). cbn [items]. rewrite H1, <- !app_assoc. split; [done|].
    split; [intros f; by rewrite H2, <- !app_assoc|]. split; [done|].
    intros x [Hx|[->|Hx]%elem_of_cons]%elem_of_app; [by apply H4|done|].
    eapply less_trans; [|exact (Hk x Hx)]. cbn. lia.
  - apply Z.ltb_ge in E1. destruct (IHr _ _ _ _ _ Hr E) as (l1 & l2 & H1 & H2 & H3 & H4).
    exists (items l ++ (p, k) :: l1), l2. cbn [items]. rewrite H1, <- !app_assoc. split; [done|].
    split; [intros f; by rewrite H2, <- !app_assoc|]. split; [|done].
    assert (Hkv : compar k vkey < 0) by (apply compar_neg; lia).
    intros x [Hx|[->|Hx]%elem_of_cons]%elem_of_app; [|done|by apply H3].
    eapply less_trans'; [apply (Hlr x (p, k) Hx); by left|cbn; lia].
Qed.
End Order.

Lemma elem_of_fp t w : w ∈ fp t <-> exists x, x ∈ items t /\ (w = x.1 \/ w = x.1 + 4 \/ w = x.1 + 8).
Proof.
  induction t as [|p k l IHl r IHr]; cbn [fp items].
  - split; [by intros ?%elem_of_nil|by intros (x & ?%elem_of_nil & _)].
  - rewrite !elem_of_cons, elem_of_app, IHl, IHr. setoid_rewrite elem_of_app. setoid_rewrite elem_of_cons. split.
    + intros [->|[->|[->|[(x & Hx & Hw)|(x & Hx & Hw)]]]]; [exists (p, k); cbn; tauto..|exists x; tauto|exists x; tauto].
    + intros (x & [Hx|[->|Hx]] & Hw); [right; right; right; left; by exists x|cbn in Hw; tauto|].
      right; right; right; right. by exists x.
Qed.

Lemma fp_nodup_inv p k l r : NoDup (fp (Node p k l r)) ->
  NoDup (fp l) /\ NoDup (fp r) /\ (forall w, w ∈ fp l -> w ∉ fp r) /\
  (forall w, w ∈ fp l \/ w ∈ fp r -> w <> p /\ w <> p + 4 /\ w <> p + 8).
Proof.
  cbn [fp]. rewrite !NoDup_cons, NoDup_app, !not_elem_of_cons, !not_elem_of_app.
  intros (N1 & N2 & N3 & N4 & N5 & N6). split; [done|]. split; [done|]. split; [done|].
  intros w Hw. repeat split; intros ->; tauto.
Qed.

(** ** The functions on trees in memory *)

Section Run.
Context `{MallocLaws} (compar : Z -> Z -> Z).

(** In the state [h], the caller's word [rootp] holds the tree [t], whose
    nodes are allocations. *)
Record tree_in (h : heap) (A : gmap Z Z) (X : Z -> Prop) (rootp : Z) (t : tree) : Prop := {
  t_owns : owns h A X;
  t_root : X rootp;
  t_holds : holds (words h) rootp t;
  t_nodes x : x ∈ items t -> exists n, A !! x.1 = Some n /\ 12 <= n;
  t_nodup : NoDup (rootp :: fp t);
}.

(** What is not the tree's is as before. *)
Definition rest_same (h h' : heap) (A : gmap Z Z) (X : Z -> Prop) (rootp : Z) (t : tree) : Prop :=
  (forall x m w, A !! x = Some m -> x ∉ (items t).*1 -> x <= w < x + m -> w mod 4 = 0 -> words h' !! w = words h !! w) /\
  (forall w, X w -> w <> rootp -> words h' !! w = words h !! w).

(** The words a client may write. *)
Definition writable (A : gmap Z Z) (X : Z -> Prop) (w : Z) : Prop :=
  X w \/ (exists p n, A !! p = Some n /\ p <= w /\ w + 4 <= p + n /\ w mod 4 = 0).

Lemma node_word h A X rootp t w : tree_in h A X rootp t -> w ∈ fp t ->
  exists x n, x ∈ items t /\ A !! x.1 = Some n /\ x.1 <= w /\ w + 4 <= x.1 + n /\ w mod 4 = 0.
Proof.
  intros HT (x & Hx & Hw)%elem_of_fp. destruct (t_nodes _ _ _ _ _ HT x Hx) as (n & Hn & Hn12).
  destruct (owns_place _ _ _ _ _ (t_owns _ _ _ _ _ HT) Hn) as (_ & P8 & _).
  exists x, n. split; [done|]. split; [done|]. Z.div_mod_to_equations; lia.
Qed.

Lemma tree_writable h A X rootp t w : tree_in h A X rootp t -> w ∈ rootp :: fp t -> writable A X w.
Proof.
  intros HT [->|Hw]%elem_of_cons; [left; by apply (t_root _ _ _ _ _ HT)|right].
  destruct (node_word _ _ _ _ _ _ HT Hw) as (x & n & _ & ?). by exists x.1, n.
Qed.

Lemma own_word h A X rootp t w : tree_in h A X rootp t -> X w -> w <> rootp -> w ∉ rootp :: fp t.
Proof.
  intros HT Hw Hne [|Hf]%elem_of_cons; [done|].
  destruct (node_word _ _ _ _ _ _ HT Hf) as (y & n & _ & Hn & Hlo & Hhi & H4).
  destruct (owns_place _ _ _ _ _ (t_owns _ _ _ _ _ HT) Hn) as (_ & _ & _ & Hx).
  destruct (Hx w) as [_ Hx']; [lia|done|done].
Qed.

Lemma other_word h A X rootp t x n w : tree_in h A X rootp t -> A !! x = Some n -> x ∉ (items t).*1 ->
  x <= w < x + n -> w mod 4 = 0 -> w ∉ rootp :: fp t.
Proof.
  intros HT Hx Hxt Hw H4 [->|Hf]%elem_of_cons.
  - destruct (owns_place _ _ _ _ _ (t_owns _ _ _ _ _ HT) Hx) as (_ & _ & _ & Hp).
    destruct (Hp rootp Hw H4) as [_ Hn]. apply Hn, (t_root _ _ _ _ _ HT).
  - destruct (node_word _ _ _ _ _ _ HT Hf) as (y & n' & Hy & Hn & Hlo & Hhi & _).
    assert (x <> y.1) by (intros ->; apply Hxt, list_elem_of_fmap; by exists y).
    destruct (owns_disj _ _ _ _ _ _ _ (t_owns _ _ _ _ _ HT) Hx Hn); [done|lia|lia].
Qed.

Lemma search_loop_run vkey h t : forall c par fuel, holds (words h) c t -> (height t < fuel)%nat ->
  search_loop compar fuel vkey c h =
    Some (match (target compar vkey c par t).2 with
          | Leaf => inr (target compar vkey c par t).1.1
          | Node p _ _ _ => inl p
          end, h).
Proof.
  induction t as [|p k l IHl r IHr]; intros c par [|fuel] Hh Hf; cbn [height] in Hf; [lia| |lia|]; cbn [search_loop target].
  - destruct Hh as (x & Hx & ->). unfold wbind. by rewrite (rd_run _ _ _ Hx).
  - apply holds_node in Hh as (Hc & Hp & Hk & Hl & Hr). unfold wbind. rewrite (rd_run _ _ _ Hc).
    rewrite (proj2 (Z.eqb_neq p NULL)) by done. unfold key_of. rewrite (rd_run _ _ _ Hk).
    destruct (compar vkey k =? 0); [done|]. unfold llink, rlink.
    destruct (compar vkey k <? 0); [apply IHl|apply IHr]; try done; lia.
Qed.

Lemma seek_loop_run vkey h t : forall c par fuel, holds (words h) c t -> t <> Leaf -> (height t < fuel)%nat ->
  seek_loop compar fuel vkey c par h =
    Some (match (target compar vkey c par t).2 with
          | Leaf => None
          | Node _ _ _ _ => Some ((target compar vkey c par t).1)
          end, h).
Proof.
  induction t as [|p k l IHl r IHr]; intros c par [|fuel] Hh Ht Hf; cbn [height] in Hf; [done|done|lia|]; cbn [seek_loop target].
  apply holds_node in Hh as (Hc & Hp & Hk & Hl & Hr). unfold wbind. rewrite (rd_run _ _ _ Hc).
  unfold key_of. rewrite (rd_run _ _ _ Hk). destruct (compar vkey k =? 0); [done|]. unfold llink, rlink.
  assert (Hsub : forall c' s, holds (words h) c' s -> exists x, words h !! c' = Some x /\ (x =? NULL) = match s with Leaf => true | _ => false end).
  { intros c' s (x & Hx & Hs). exists x. split; [done|]. apply tree_at_null in Hs. destruct s.
    - by apply Z.eqb_eq, Hs.
    - apply Z.eqb_neq. intros E. by apply Hs in E. }
  destruct (compar vkey k <? 0).
  - destruct (Hsub _ _ Hl) as (x & Hx & Ex). rewrite (rd_run _ _ _ Hx), Ex. destruct l; [done|].
    apply IHl; [done|done|lia].
  - destruct (Hsub _ _ Hr) as (x & Hx & Ex). rewrite (rd_run _ _ _ Hx), Ex. destruct r; [done|].
    apply IHr; [done|done|lia].
Qed.

(** *** Insertion *)

Definition graft (q vkey : Z) (_ : tree) : tree := Node q vkey Leaf Leaf.

(** The words of a new node are none of the tree's. *)
Lemma new_node_apart h A X rootp t h' q m :
  tree_in h A X rootp t -> A !! q = None -> 12 <= m -> owns h' (<[q := m]> A) X ->
  forall w, w ∈ rootp :: fp t -> w <> q /\ w <> q + 4 /\ w <> q + 8.
Proof.
  intros HT Hq Hm Ho w Hw.
  destruct (owns_place _ _ _ q m Ho) as (_ & Q8 & _ & Qw); [by rewrite lookup_insert_eq|].
  apply elem_of_cons in Hw as [->|Hw].
  - pose proof (t_root _ _ _ _ _ HT) as HX.
    assert (HQ : forall d, d = 0 \/ d = 4 \/ d = 8 -> rootp <> q + d).
    { intros d Hd ->. destruct (Qw (q + d)) as [_ Hx]; [lia|Z.div_mod_to_equations; lia|done]. }
    pose proof (HQ 0). pose proof (HQ 4). pose proof (HQ 8). lia.
  - destruct (node_word _ _ _ _ _ _ HT Hw) as (x & n & Hx & Hn & Hlo & Hhi & _).
    assert (Hxq : x.1 <> q) by (intros E; congruence).
    destruct (owns_disj _ _ _ x.1 n q m Ho) as [|]; [by rewrite lookup_insert_ne|by rewrite lookup_insert_eq|done|lia|lia].
Qed.

(** The tree with a new node at the target. *)
Lemma graft_in h A X rootp t vkey c par h' q m :
  tree_in h A X rootp t -> target compar vkey rootp 0 t = (c, par, Leaf) ->
  q <> NULL -> A !! q = None -> 12 <= m -> owns h' (<[q := m]> A) X ->
  (forall w, w ∈ rootp :: fp t -> w <> c -> words h' !! w = words h !! w) ->
  words h' !! c = Some q /\ words h' !! q = Some vkey /\ words h' !! (q + 4) = Some 0 /\ words h' !! (q + 8) = Some 0 ->
  tree_in h' (<[q := m]> A) X rootp (modify compar vkey (graft q vkey) t).
Proof.
  intros HT Et Hq0 HqA Hm Ho Hkeep (Wc & Wq & W4 & W8). pose proof HT as [T1 T2 T3 T4 T5].
  pose proof (new_node_apart _ _ _ _ _ _ _ _ HT HqA Hm Ho) as Hap.
  destruct (target_fp _ _ _ _ _ _ _ _ Et) as (l & F1 & F2). cbn [fp] in F1. rewrite app_nil_r in F1.
  assert (Hgraft : fp (modify compar vkey (graft q vkey) t) ≡ₚ q :: q + 4 :: q + 8 :: fp t).
  { rewrite F2, F1. cbn. solve_Permutation. }
  split; [done|done| | |].
  - eapply modify_holds; [exact T5|exact T3|exact Et| |].
    + apply holds_node. repeat (split; [done|]). split; by exists 0.
    + intros w Hw Hn. apply Hkeep; [done|set_solver].
  - intros x Hx. destruct (target_split _ _ _ _ _ _ _ _ Et) as (l1 & l2 & I1 & I2). rewrite I2 in Hx.
    cbn [graft items app] in Hx. assert (Hx' : x = (q, vkey) \/ x ∈ items t).
    { rewrite I1. cbn. rewrite elem_of_app, elem_of_cons in Hx. rewrite elem_of_app. tauto. }
    destruct Hx' as [->|Hx']; [exists m; cbn; by rewrite lookup_insert_eq|].
    destruct (T4 x Hx') as (n & Hn & Hn12). exists n. rewrite lookup_insert_ne by congruence. done.
  - rewrite Hgraft. rewrite !NoDup_cons, !not_elem_of_cons in *.
    destruct T5 as [T5 T6]. destruct (Hap rootp) as (? & ? & ?); [by left|].
    assert (Hnot : forall d, d = 0 \/ d = 4 \/ d = 8 -> q + d ∉ fp t).
    { intros d Hd' Hx. destruct (Hap (q + d)) as (? & ? & ?); [by right|lia]. }
    pose proof (Hnot 0 ltac:(lia)) as Hn0. rewrite Z.add_0_r in Hn0.
    repeat split; try done; try lia; apply Hnot; lia.
Qed.

(** The four writes that make and link a node. *)
Definition linked_words (m : gmap Z Z) (c q vkey : Z) : gmap Z Z :=
  <[q + 4 := 0]> (<[q + 8 := 0]> (<[q := vkey]> (<[c := q]> m))).

Lemma make_node_run h A X c q vkey m :
  owns h (<[q := m]> A) X -> 12 <= m -> writable (<[q := m]> A) X c -> is_Some (words h !! c) ->
  wbind (wr c q) (fun _ => wbind (wr (key_of q) vkey) (fun _ => wbind (wr (rlink q) NULL) (fun _ => wr (llink q) NULL))) h =
    Some (tt, with_words h (linked_words (words h) c q vkey)) /\
  owns (with_words h (linked_words (words h) c q vkey)) (<[q := m]> A) X.
Proof.
  intros Ho Hm Hc Hmc. destruct (owns_place _ _ _ q m Ho) as (_ & Q8 & _ & Qw); [by rewrite lookup_insert_eq|].
  assert (Hw : forall d, d = 0 \/ d = 4 \/ d = 8 -> writable (<[q := m]> A) X (q + d) /\ is_Some (words h !! (q + d))).
  { intros d Hd. split.
    - right. exists q, m. rewrite lookup_insert_eq. split; [done|]. Z.div_mod_to_equations; lia.
    - apply Qw; [lia|Z.div_mod_to_equations; lia]. }
  destruct (Hw 0) as [W0 M0]; [lia|]. destruct (Hw 4) as [W4 M4]; [lia|]. destruct (Hw 8) as [W8 M8]; [lia|].
  rewrite Z.add_0_r in W0, M0. unfold linked_words, key_of, rlink, llink, wbind. split.
  - rewrite wr_run by done. rewrite wr_run by (cbn; by rewrite insert_dom_same). cbn [with_words words].
    rewrite wr_run by (cbn; rewrite insert_dom_same; [by rewrite insert_dom_same|by rewrite insert_dom_same]).
    cbn [with_words words]. rewrite wr_run; [done|].
    cbn. rewrite !lookup_insert_is_Some'. tauto.
  - pose proof (owns_write _ _ _ c q Ho Hc) as O1. pose proof (owns_write _ _ _ q vkey O1 W0) as O2.
    pose proof (owns_write _ _ _ (q + 8) 0 O2 W8) as O3. exact (owns_write _ _ _ (q + 4) 0 O3 W4).
Qed.

Lemma tsearch_run h A X rootp t vkey fuel :
  tree_in h A X rootp t -> rootp <> NULL -> (height t < fuel)%nat -> room h SIZEOF_node ->
  exists q h', tsearch compar fuel vkey rootp h = Some (q, h') /\
    match (target compar vkey rootp 0 t).2 with
    | Node p _ _ _ => q = p /\ h' = h
    | Leaf => rest_same h h' A X rootp t /\
        (q = NULL /\ tree_in h' A X rootp t \/
         q <> NULL /\ A !! q = None /\
         exists m, 12 <= m /\ tree_in h' (<[q := m]> A) X rootp (modify compar vkey (graft q vkey) t))
    end.
Proof.
  intros HT Hr Hf Hroom. pose proof HT as [T1 T2 T3 T4 T5]. unfold tsearch.
  rewrite (proj2 (Z.eqb_neq rootp NULL)) by done. unfold wbind at 1.
  rewrite (search_loop_run vkey h t rootp 0 fuel T3 Hf).
  destruct (target compar vkey rootp 0 t) as [[c par] s] eqn:Et. cbn [fst snd].
  destruct s as [|p k l r]; [|by exists p, h].
  destruct (target_sub _ _ _ _ _ _ _ _ _ T5 T3 Et) as (Hs & _ & Hsub).
  assert (Hc : c ∈ rootp :: fp t) by (apply Hsub; by left).
  destruct (malloc_works _ _ _ SIZEOF_node T1) as (q & h1 & E1 & Hq & Hd & HX); [done|done|done|].
  assert (Hkeep : forall w, w ∈ rootp :: fp t -> words h1 !! w = words h !! w).
  { intros w [->|Hw]%elem_of_cons; [by apply HX|].
    destruct (node_word _ _ _ _ _ _ HT Hw) as (x & n & Hx & Hn & Hlo & Hhi & H4). apply (Hd x.1 n); [done|lia|done]. }
  unfold wbind at 1. rewrite E1. destruct Hq as [[-> Ho]|(Hq0 & HqA & m & Hm & Ho)].
  - change (NULL =? NULL) with true. cbn [negb]. exists NULL, h1. split; [done|]. split; [split|].
    + intros x n w Hx _. by apply (Hd x n).
    + intros w Hw _. by apply HX.
    + left. split; [done|]. split; try done. by eapply holds_frame.
  - rewrite (proj2 (Z.eqb_neq q NULL)) by done. cbn [negb]. unfold SIZEOF_node in Hm.
    pose proof (new_node_apart _ _ _ _ _ _ _ _ HT HqA Hm Ho) as Hap.
    assert (Hwc : writable (<[q := m]> A) X c).
    { destruct (tree_writable _ _ _ _ _ _ HT Hc) as [|(x & n & Hx & ?)]; [by left|]. right. exists x, n.
      rewrite lookup_insert_ne by congruence. done. }
    assert (Hmc : is_Some (words h1 !! c)).
    { rewrite Hkeep by done. destruct Hs as (x & -> & _). by eexists. }
    destruct (make_node_run _ _ _ c q vkey m Ho Hm Hwc Hmc) as [E2 O2]. unfold wbind at 1. rewrite E2.
    remember (with_words h1 (linked_words (words h1) c q vkey)) as h2 eqn:Eh2.
    assert (Hw2 : forall w, w <> c -> w <> q -> w <> q + 4 -> w <> q + 8 -> words h2 !! w = words h1 !! w).
    { intros w N1 N2 N3 N4. subst h2. cbn. unfold linked_words. by rewrite !lookup_insert_ne by congruence. }
    exists q, h2. split; [done|]. destruct (Hap c Hc) as (Hc0 & Hc4 & Hc8).
    destruct (owns_place _ _ _ q m Ho) as (Q0 & Q8 & _ & Qw); [by rewrite lookup_insert_eq|].
    split; [split|right; split; [done|split; [done|exists m; split; [done|]]]].
    + intros x n w Hx Hxt Hw H4. assert (Hqw : w < q \/ q + m <= w).
      { assert (Hne : x <> q) by congruence.
        destruct (owns_disj _ _ _ x n q m Ho); [by rewrite lookup_insert_ne|by rewrite lookup_insert_eq|done|lia|lia]. }
      rewrite Hw2; [by apply (Hd x n)| |lia..]. intros ->. by eapply other_word.
    + intros w Hw Hwr. assert (HQ : forall d, d = 0 \/ d = 4 \/ d = 8 -> w <> q + d).
      { intros d Hd' ->. destruct (Qw (q + d)) as [_ Hx]; [lia|Z.div_mod_to_equations; lia|done]. }
      rewrite Hw2; [by apply HX| |pose proof (HQ 0); lia|pose proof (HQ 4); lia|pose proof (HQ 8); lia]. intros ->.
      by eapply own_word.
    + eapply graft_in; [exact HT|exact Et|done|done|exact Hm|exact O2| |].
      * intros w Hw. destruct (Hap w Hw) as (? & ? & ?). intros Hwc'. rewrite Hw2 by done. by apply Hkeep.
      * subst h2. cbn. unfold linked_words, holds. rewrite lookup_insert_eq.
        rewrite (lookup_insert_ne _ (q + 4) c), (lookup_insert_ne _ (q + 8) c), (lookup_insert_ne _ q c) by congruence.
        rewrite (lookup_insert_ne _ (q + 4) q), (lookup_insert_ne _ (q + 8) q), (lookup_insert_ne _ (q + 4) (q + 8)) by lia.
        by rewrite !lookup_insert_eq.
Qed.

(** *** Deletion *)

Lemma tree_at_insert m p t w v : tree_at m p t -> w ∉ fp t -> tree_at (<[w := v]> m) p t.
Proof. intros Ht Hw. eapply tree_at_frame; [done|]. intros x Hx. apply lookup_insert_ne. by intros ->. Qed.

Lemma left_loop_run h l : forall rp rk p' k' r' rr fuel,
  tree_at (words h) rp (Node rp rk (Node p' k' l r') rr) -> NoDup (fp (Node rp rk (Node p' k' l r') rr)) ->
  (height l < fuel)%nat ->
  exists r1 q qk qr t, left_loop fuel rp p' h = Some ((r1, q), h) /\
    pop_min rp rk (Node p' k' l r') rr = (q, qk, t) /\ words h !! q = Some qk /\ words h !! (q + 8) = Some qr /\
    tree_at (<[r1 + 4 := qr]> (words h)) rp t /\ r1 + 4 ∈ fp t /\ q <> 0.
Proof.
  induction l as [|p2 k2 l2 IH r2 _]; intros rp rk p' k' r' rr [|fuel] Ht Hnd Hf; cbn [height] in Hf; [lia| |lia|];
    cbn [tree_at] in Ht; destruct Ht as (_ & Hrp0 & Hrk & pl & pr & Hl & Hr & (-> & Hp0 & Hk' & pl' & pr' & Hl' & Hr' & Tl & Tr) & Trr);
    cbn [left_loop]; unfold wbind, llink; rewrite (rd_run _ _ _ Hl').
  - cbn in Tl. subst pl'. change (0 =? NULL) with true. exists rp, p', k', pr', (Node rp rk r' rr).
    split; [done|]. split; [done|]. split; [done|]. split; [done|]. split; [|split; [cbn; set_solver|done]].
    destruct (fp_nodup_inv _ _ _ _ Hnd) as (_ & _ & _ & N4).
    assert (Nr : rp + 4 ∉ fp r') by (intros Hx; destruct (N4 (rp + 4)); [left; cbn; set_solver|lia]).
    assert (Nrr : rp + 4 ∉ fp rr) by (intros Hx; destruct (N4 (rp + 4)); [by right|lia]).
    cbn [tree_at]. split; [done|]. split; [done|]. rewrite lookup_insert_ne by lia. split; [done|].
    exists pr', pr. rewrite lookup_insert_eq, lookup_insert_ne by lia. split; [done|]. split; [done|].
    split; by apply tree_at_insert.
  - assert (Tl' := Tl). destruct Tl as (-> & Hp2 & _). rewrite (proj2 (Z.eqb_neq p2 NULL)) by done.
    destruct (IH p' k' p2 k2 r2 r' fuel) as (r1 & q & qk & qr & t & E & Ep & Hq & Hqr & Ht1 & Hin & Hq0).
    + cbn [tree_at]. eauto 20.
    + by apply fp_nodup_inv in Hnd as [Hnd _].
    + lia.
    + exists r1, q, qk, qr, (Node rp rk t rr). split; [by rewrite (rd_run _ _ _ Hl')|].
      assert (Epop : pop_min rp rk (Node p' k' (Node p2 k2 l2 r2) r') rr = (q, qk, Node rp rk t rr)).
      { change (pop_min rp rk (Node p' k' (Node p2 k2 l2 r2) r') rr) with
          (let '(q, qk, x) := pop_min p' k' (Node p2 k2 l2 r2) r' in (q, qk, Node rp rk x rr)). by rewrite Ep. }
      split; [exact Epop|]. split; [done|]. split; [done|].
      pose proof (pop_min_fp _ _ _ _ _ _ _ Ep) as Hfp.
      assert (Hsep : r1 + 4 <> rp /\ r1 + 4 <> rp + 4 /\ r1 + 4 <> rp + 8 /\ r1 + 4 ∉ fp rr).
      { assert (Hin' : r1 + 4 ∈ fp (Node p' k' (Node p2 k2 l2 r2) r')) by (rewrite Hfp; set_solver).
        destruct (fp_nodup_inv _ _ _ _ Hnd) as (_ & _ & N3 & N4).
        destruct (N4 (r1 + 4)) as (? & ? & ?); [by left|]. auto. }
      destruct Hsep as (S1 & S2 & S3 & S4). split; [|split; [cbn; set_solver|done]].
      cbn [tree_at]. split; [done|]. split; [done|]. rewrite !lookup_insert_ne by done. split; [done|].
      exists p', pr. split; [done|]. split; [done|]. split; [done|]. by apply tree_at_insert.
Qed.

Lemma remove_root_fp p k l r : fp (remove_root (Node p k l r)) ≡ₚ fp l ++ fp r.
Proof.
  destruct l as [|lp lk ll lr]; [done|]. destruct r as [|rp rk rl rr]; [cbn; by rewrite app_nil_r|].
  unfold remove_root. destruct (pop_min rp rk rl rr) as [[q qk] r'] eqn:E.
  rewrite (pop_min_fp _ _ _ _ _ _ _ E). cbn [fp]. solve_Permutation.
Qed.

(** A write to a mapped, writable word. *)
Lemma write_run h A X w v : owns h A X -> writable A X w ->
  wr w v h = Some (tt, with_words h (<[w := v]> (words h))) /\
  owns (with_words h (<[w := v]> (words h))) A X.
Proof.
  intros Ho Hw. split; [apply wr_run|by apply owns_write].
  destruct Hw as [Hw|(p & n & Hp & H1' & H2' & H4)]; [by eapply owns_own|].
  destruct (owns_place _ _ _ _ _ Ho Hp) as (_ & _ & _ & Hx). apply Hx; [lia|done].
Qed.

Lemma splice_run h A X fuel root k l r lp rp :
  words h !! (root + 4) = Some lp -> words h !! (root + 8) = Some rp ->
  tree_at (words h) lp l -> tree_at (words h) rp r ->
  NoDup (fp (Node root k l r)) -> (height r < fuel)%nat ->
  owns h A X -> (forall w, w ∈ fp l \/ w ∈ fp r -> writable A X w) ->
  exists q h', splice fuel root rp lp h = Some (q, h') /\
    tree_at (words h') q (remove_root (Node root k l r)) /\ owns h' A X /\
    (forall w, w ∉ fp l -> w ∉ fp r -> words h' !! w = words h !! w).
Proof.
  intros Hlp Hrp Tl Tr Hnd Hf Ho Hwr. unfold splice.
  destruct (fp_nodup_inv _ _ _ _ Hnd) as (Nl & Nr & Nlr & Nroot).
  destruct l as [|lq lk ll lr].
  { cbn in Tl. subst lp. exists rp, h. done. }
  assert (Hlp0 : lp <> NULL) by (destruct Tl as (-> & ? & _); done). rewrite (proj2 (Z.eqb_neq lp NULL)) by done.
  destruct r as [|rq rk rl rr].
  { cbn in Tr. subst rp. exists lp, h. done. }
  assert (Tr' := Tr). destruct Tr as (-> & Hrq0 & Hrk & rlp & rrp & Hrl & Hrr & Trl & Trr).
  rewrite (proj2 (Z.eqb_neq rq NULL)) by done. cbn [negb]. unfold wbind at 1, llink at 1. rewrite (rd_run _ _ _ Hrl).
  destruct (fp_nodup_inv _ _ _ _ Nr) as (Nrl & Nrr & Nrlr & Nrq).
  remember (Node lq lk ll lr) as l eqn:El.
  destruct rl as [|p' k' l' r'].
  - (* the root of the right subtree has no left one *)
    cbn in Trl. subst rlp. change (0 =? NULL) with true. cbn beta iota.
    assert (Hin : rq + 4 ∈ fp (Node rq rk Leaf rr)) by (cbn; set_solver).
    destruct (write_run h A X (rq + 4) lp Ho) as [E O]; [apply Hwr; by right|].
    unfold wbind, llink. rewrite E. eexists rq, _. split; [done|]. cbn [with_words words].
    split; [|split; [done|]].
    + assert (Erem : remove_root (Node root k l (Node rq rk Leaf rr)) = Node rq rk l rr) by (by subst l).
      rewrite Erem. apply tree_at_node with lp rrp; [done|..].
      * by rewrite lookup_insert_ne by lia.
      * by rewrite lookup_insert_eq.
      * by rewrite lookup_insert_ne by lia.
      * apply tree_at_insert; [done|]. intros Hx. by apply (Nlr _ Hx).
      * apply tree_at_insert; [done|]. intros Hx. destruct (Nrq (rq + 4)) as (_ & ? & _); [by right|done].
    + intros w _ Hw. apply lookup_insert_ne. by intros <-.
  - (* the least node of the right subtree takes the place *)
    assert (Hrlp : rlp = p') by (by destruct Trl as (-> & _)). subst rlp.
    assert (Hp0 : p' <> NULL) by (destruct Trl as (_ & ? & _); done).
    rewrite (proj2 (Z.eqb_neq p' NULL)) by done. cbn beta iota.
    unfold wbind at 1, llink at 1. rewrite (rd_run _ _ _ Hrl).
    destruct (left_loop_run h l' rq rk p' k' r' rr fuel Tr' Nr) as (r1 & q & qk & qr & t & E & Ep & Hq & Hqr & Ht & Hin & Hq0);
      [cbn [height] in Hf; lia|].
    pose proof (pop_min_fp _ _ _ _ _ _ _ Ep) as Hfp.
    assert (Hft : forall w, w ∈ fp t -> w ∈ fp (Node rq rk (Node p' k' l' r') rr)) by (intros w Hw; rewrite Hfp; set_solver).
    assert (Hfq : q ∈ fp (Node rq rk (Node p' k' l' r') rr) /\ q + 4 ∈ fp (Node rq rk (Node p' k' l' r') rr) /\
                  q + 8 ∈ fp (Node rq rk (Node p' k' l' r') rr)) by (rewrite Hfp; set_solver).
    destruct Hfq as (Fq & Fq4 & Fq8).
    assert (Hqt : (q ∉ fp t) /\ (q + 4 ∉ fp t) /\ (q + 8 ∉ fp t)).
    { rewrite Hfp in Nr. rewrite !NoDup_cons, !not_elem_of_cons in Nr. tauto. }
    destruct Hqt as (Q0 & Q4 & Q8).
    unfold wbind at 1. rewrite E. unfold wbind at 1, rlink at 1. rewrite (rd_run _ _ _ Hqr).
    destruct (write_run h A X (r1 + 4) qr Ho) as [E1 O1]; [apply Hwr; right; by apply Hft|].
    unfold wbind at 1, llink at 1. rewrite E1. remember (with_words h (<[r1 + 4 := qr]> (words h))) as h1 eqn:Eh1.
    assert (Hlp1 : words h1 !! (root + 4) = Some lp).
    { subst h1. cbn. rewrite lookup_insert_ne; [done|]. destruct (Nroot (r1 + 4)) as (_ & ? & _); [right; by apply Hft|done]. }
    unfold wbind at 1, llink at 1. rewrite (rd_run _ _ _ Hlp1).
    destruct (write_run h1 A X (q + 4) lp O1) as [E2 O2]; [apply Hwr; by right|].
    unfold wbind at 1, llink at 1. rewrite E2. remember (with_words h1 (<[q + 4 := lp]> (words h1))) as h2 eqn:Eh2.
    assert (Hrp2 : words h2 !! (root + 8) = Some rq).
    { subst h2 h1. cbn. destruct (Nroot (r1 + 4)) as (_ & _ & ?); [right; by apply Hft|].
      destruct (Nroot (q + 4)) as (_ & _ & ?); [by right|]. by rewrite !lookup_insert_ne. }
    unfold wbind at 1, rlink at 1. rewrite (rd_run _ _ _ Hrp2).
    destruct (write_run h2 A X (q + 8) rq O2) as [E3 O3]; [apply Hwr; by right|].
    unfold wbind, rlink. rewrite E3. eexists q, _. split; [done|]. split; [|split; [done|]]; cbn [with_words words].
    + assert (Erem : remove_root (Node root k l (Node rq rk (Node p' k' l' r') rr)) = Node q qk l t).
      { subst l. unfold remove_root. by rewrite Ep. }
      assert (Nr1 : r1 + 4 <> q) by (intros <-; done).
      rewrite Erem. subst h2 h1. cbn [with_words words].
      apply tree_at_node with lp rq; [done|..].
      * by rewrite !lookup_insert_ne by lia.
      * rewrite lookup_insert_ne by lia. by rewrite lookup_insert_eq.
      * by rewrite lookup_insert_eq.
      * repeat apply tree_at_insert; [done|..]; intros Hx; by apply (Nlr _ Hx); auto.
      * apply tree_at_insert; [by apply tree_at_insert|done].
    + intros w _ Hw. subst h2 h1. cbn. rewrite !lookup_insert_ne; [done|..]; intros <-; auto.
Qed.

Definition root_of (t : tree) : Z := match t with Leaf => 0 | Node p _ _ _ => p end.

Lemma target_height vkey t : forall c par c' par' s, target compar vkey c par t = (c', par', s) -> (height s <= height t)%nat.
Proof.
  induction t as [|p k l IHl r IHr]; intros c par c' par' s; cbn [target]; [by intros [= <- <- <-]|].
  destruct (compar vkey k =? 0); [by intros [= <- <- <-]|]. cbn [height].
  destruct (compar vkey k <? 0); intros E; [apply IHl in E|apply IHr in E]; lia.
Qed.

Lemma target_node vkey t c par c' par' x k l r : target compar vkey c par t = (c', par', Node x k l r) -> (x, k) ∈ items t.
Proof.
  intros Et. destruct (target_split _ _ _ _ _ _ _ _ Et) as (l1 & l2 & I1 & _). rewrite I1. cbn [items].
  rewrite !elem_of_app, elem_of_cons. tauto.
Qed.

(** A word of the tree that is not of the node [x] outlives it. *)
Lemma other_node_word h A X rootp t x n w :
  tree_in h A X rootp t -> A !! x = Some n -> 12 <= n -> w ∈ fp t -> w <> x -> w <> x + 4 -> w <> x + 8 ->
  exists y m, y <> x /\ A !! y = Some m /\ y <= w /\ w + 4 <= y + m /\ w mod 4 = 0.
Proof.
  intros HT Hx Hn (y & Hy & Ey)%elem_of_fp N0 N4 N8. destruct (t_nodes _ _ _ _ _ HT y Hy) as (m & Hm & Hm12).
  destruct (owns_place _ _ _ _ _ (t_owns _ _ _ _ _ HT) Hm) as (_ & Y8 & _). exists y.1, m.
  split; [intros E; rewrite E in Ey; tauto|]. split; [done|]. Z.div_mod_to_equations; lia.
Qed.

(** The tree without the node at the target, after it is freed. *)
Lemma remove_in h A X rootp t vkey c par x k l r h' q :
  tree_in h A X rootp t -> target compar vkey rootp (root_of t) t = (c, par, Node x k l r) ->
  owns h' (delete x A) X -> words h' !! c = Some q -> tree_at (words h') q (remove_root (Node x k l r)) ->
  (forall w, w ∈ rootp :: fp t -> w ∉ c :: fp (Node x k l r) -> words h' !! w = words h !! w) ->
  tree_in h' (delete x A) X rootp (modify compar vkey remove_root t).
Proof.
  intros HT Et Ho Hc Tq Hkeep. pose proof HT as [T1 T2 T3 T4 T5].
  destruct (target_fp _ _ _ _ _ _ _ _ Et) as (f & F1 & F2).
  destruct (target_split _ _ _ _ _ _ _ _ Et) as (l1 & l2 & I1 & I2).
  assert (Hfp : fp t ≡ₚ x :: x + 4 :: x + 8 :: fp (modify compar vkey remove_root t)).
  { rewrite F1, F2, remove_root_fp. cbn [fp]. solve_Permutation. }
  split; [done|done| | |].
  - eapply modify_holds; [exact T5|exact T3|exact Et|by exists q|exact Hkeep].
  - intros y Hy. assert (Hyt : y ∈ items t).
    { rewrite I1. rewrite I2, remove_root_items in Hy. cbn [items].
      rewrite !elem_of_app, elem_of_cons in *. tauto. }
    assert (Hyx : y.1 <> x).
    { intros E. rewrite Hfp in T5. rewrite !NoDup_cons, !not_elem_of_cons in T5.
      assert (x ∈ fp (modify compar vkey remove_root t)); [|tauto]. apply elem_of_fp. exists y. auto. }
    destruct (T4 y Hyt) as (n & Hn & H12). exists n. by rewrite lookup_delete_ne.
  - rewrite Hfp in T5. rewrite !NoDup_cons, !not_elem_of_cons in T5. apply NoDup_cons. tauto.
Qed.

Lemma tdelete_run h A X rootp t vkey fuel :
  tree_in h A X rootp t -> rootp <> NULL -> (height t < fuel)%nat ->
  exists p h', tdelete compar fuel vkey rootp h = Some (p, h') /\
    match target compar vkey rootp (root_of t) t with
    | (_, _, Leaf) => p = NULL /\ h' = h
    | (_, par, Node x _ _ _) => p = par /\ tree_in h' (delete x A) X rootp (modify compar vkey remove_root t) /\
        rest_same h h' A X rootp t
    end.
Proof.
  intros HT Hr Hf. pose proof HT as [T1 T2 T3 T4 T5]. unfold tdelete.
  rewrite (proj2 (Z.eqb_neq rootp NULL)) by done. destruct T3 as (rp & Erp & Trp). assert (T3 : holds (words h) rootp t) by (by exists rp).
  unfold wbind at 1. rewrite (rd_run _ _ _ Erp). destruct (Z.eqb_spec rp NULL) as [->|Hrp].
  { assert (t = Leaf) as -> by (by apply (tree_at_null _ _ _ Trp)). cbn [target]. by exists NULL, h. }
  assert (Hleaf : t <> Leaf) by (intros ->; done).
  assert (Ert : rp = root_of t) by (destruct t; [done|]; by destruct Trp as (-> & _)). subst rp.
  unfold wbind at 1. rewrite (seek_loop_run vkey h t rootp (root_of t) fuel T3 Hleaf Hf).
  destruct (target compar vkey rootp (root_of t) t) as [[c par] s] eqn:Et. cbn [fst snd].
  destruct s as [|x k l r]; [by exists NULL, h|].
  destruct (target_sub _ _ _ _ _ _ _ _ _ T5 T3 Et) as (Hs & Nds & Hsub).
  apply holds_node in Hs as (Hc & Hx0 & Hk & (lp & Hlp & Tl) & (rp & Hrp' & Tr)).
  unfold wbind at 1. rewrite (rd_run _ _ _ Hc). unfold wbind at 1, rlink at 1. rewrite (rd_run _ _ _ Hrp').
  unfold wbind at 1, llink at 1. rewrite (rd_run _ _ _ Hlp).
  apply NoDup_cons in Nds as [Ncs Nds]. destruct (fp_nodup_inv _ _ _ _ Nds) as (_ & _ & _ & Nx).
  destruct (splice_run h A X fuel x k l r lp rp Hlp Hrp' Tl Tr Nds) as (q & h1 & E1 & Tq & O1 & K1).
  { pose proof (target_height _ _ _ _ _ _ _ Et) as Hh. cbn [height] in Hh. lia. }
  { done. }
  { intros w Hw. eapply tree_writable; [exact HT|]. apply Hsub. cbn [fp]. rewrite !elem_of_cons, elem_of_app. tauto. }
  unfold wbind at 1. rewrite E1.
  pose proof (target_node _ _ _ _ _ _ _ _ _ _ Et) as Hxt. destruct (T4 _ Hxt) as (n & Hn & Hn12). cbn [fst] in Hn. destruct (free_works _ _ _ _ _ O1 Hn) as (h2 & E2 & O2 & D2 & X2).
  unfold wbind at 1. rewrite E2.
  (* words of the tree that are not in the freed node *)
  assert (Hw2 : forall w, w ∈ rootp :: fp t -> w <> x -> w <> x + 4 -> w <> x + 8 -> words h2 !! w = words h1 !! w).
  { intros w [->|Hw]%elem_of_cons N0 N4 N8; [by apply X2|].
    destruct (other_node_word _ _ _ _ _ _ _ _ HT Hn Hn12 Hw N0 N4 N8) as (y & m & Hy & Hm & ? & ? & ?).
    apply (D2 y m); [done|done|lia|done]. }
  assert (Hcx : c <> x /\ c <> x + 4 /\ c <> x + 8) by (cbn [fp] in Ncs; rewrite !not_elem_of_cons in Ncs; tauto).
  assert (Hcw : writable (delete x A) X c).
  { assert (Hct : c ∈ rootp :: fp t) by (apply Hsub; by left). apply elem_of_cons in Hct as [->|Hct]; [by left|].
    destruct (other_node_word _ _ _ _ _ _ _ _ HT Hn Hn12 Hct) as (y & m & Hy & Hm & ?); [tauto..|].
    right. exists y, m. by rewrite lookup_delete_ne. }
  destruct (write_run h2 _ X c q O2 Hcw) as [E3 O3]. unfold wbind. rewrite E3.
  eexists par, _. split; [done|]. split; [done|]. split.
  - eapply remove_in; [exact HT|exact Et|exact O3|cbn; by rewrite lookup_insert_eq| |].
    + cbn [with_words words]. apply tree_at_insert.
      * eapply tree_at_frame; [exact Tq|]. intros w Hw. rewrite remove_root_fp, elem_of_app in Hw.
        destruct (Nx w Hw) as (? & ? & ?). apply Hw2; [|done..]. apply Hsub. cbn [fp].
        rewrite !elem_of_cons, elem_of_app. tauto.
      * rewrite remove_root_fp, elem_of_app. cbn [fp] in Ncs. rewrite !not_elem_of_cons, not_elem_of_app in Ncs. tauto.
    + intros w Hw Hn'. cbn [with_words words]. cbn [fp] in Hn'. rewrite !not_elem_of_cons, not_elem_of_app in Hn'.
      rewrite lookup_insert_ne by (intros <-; tauto). rewrite Hw2 by tauto. apply K1; tauto.
  - assert (Hrest : forall w, w ∉ rootp :: fp t -> words h2 !! w = words h1 !! w ->
      <[c := q]> (words h2) !! w = words h !! w).
    { intros w Hw E. rewrite lookup_insert_ne by (intros <-; apply Hw, Hsub; by left). rewrite E.
      apply K1; intros Hx; apply Hw, Hsub; cbn [fp]; rewrite !elem_of_cons, elem_of_app; tauto. }
    split.
    + intros y m w Hy Hyt Hw H4. apply Hrest; [by eapply other_word|]. apply (D2 y m); [done| |done|done].
      intros ->. apply Hyt, list_elem_of_fmap. by exists (x, k).
    + intros w Hw Hne. apply Hrest; [by eapply own_word|by apply X2].
Qed.

(** *** The contract of the search *)

Lemma target_equal vkey t : forall c par c' par' x k l r,
  target compar vkey c par t = (c', par', Node x k l r) -> compar vkey k = 0.
Proof.
  induction t as [|p k0 l0 IHl r0 IHr]; intros c par c' par' x k l r; cbn [target]; [done|].
  destruct (compar vkey k0 =? 0) eqn:E; [intros [= <- <- <- <- <- <-]; by apply Z.eqb_eq|].
  destruct (compar vkey k0 <? 0); eauto.
Qed.

Lemma target_par vkey t : forall c par c' par' s,
  target compar vkey c par t = (c', par', s) -> par' = par \/ par' ∈ (items t).*1.
Proof.
  induction t as [|p k l IHl r IHr]; intros c par c' par' s; cbn [target]; [intros [= <- <- <-]; auto|].
  destruct (compar vkey k =? 0); [intros [= <- <- <-]; auto|]. cbn [items]. rewrite fmap_app, fmap_cons.
  rewrite elem_of_app, elem_of_cons. cbn [fst].
  destruct (compar vkey k <? 0); intros E; [destruct (IHl _ _ _ _ _ E)|destruct (IHr _ _ _ _ _ E)]; subst; auto.
Qed.

Context `{!OrderLaws compar}.

Lemma target_absent vkey t c par c' par' : ordered compar t -> target compar vkey c par t = (c', par', Leaf) ->
  forall x, x ∈ items t -> compar vkey x.2 <> 0.
Proof.
  intros Hord Et x Hx. destruct (target_items _ _ _ _ _ _ _ _ Hord Et) as (l1 & l2 & I1 & _ & H1' & H2').
  rewrite I1 in Hx. apply elem_of_app in Hx as [Hx|Hx].
  - specialize (H1' x Hx). apply (compar_neg compar) in H1'; lia.
  - specialize (H2' x Hx). lia.
Qed.

Lemma graft_ordered vkey t c par c' par' q : ordered compar t -> target compar vkey c par t = (c', par', Leaf) ->
  exists l1 l2, items t = l1 ++ l2 /\ items (modify compar vkey (graft q vkey) t) = l1 ++ (q, vkey) :: l2 /\
    ordered compar (modify compar vkey (graft q vkey) t).
Proof.
  intros Hord Et. destruct (target_items _ _ _ _ _ _ _ _ Hord Et) as (l1 & l2 & I1 & I2 & H1' & H2').
  exists l1, l2. split; [done|]. split; [by rewrite I2|]. unfold ordered in *. rewrite I2. rewrite I1 in Hord. cbn [items app] in *.
  apply items_sorted_app in Hord as (S1 & S2 & S3). apply items_sorted_app. split; [done|]. split.
  - constructor; [done|]. apply Forall_forall. exact H2'.
  - intros x y Hx [->|Hy]%elem_of_cons; [by apply H1'|by apply S3].
Qed.

Lemma remove_ordered vkey t c par c' par' x k l r : ordered compar t -> target compar vkey c par t = (c', par', Node x k l r) ->
  exists l1 l2, items t = l1 ++ (x, k) :: l2 /\ items (modify compar vkey remove_root t) = l1 ++ l2 /\
    ordered compar (modify compar vkey remove_root t).
Proof.
  intros Hord Et. destruct (target_split _ _ _ _ _ _ _ _ Et) as (l1 & l2 & I1 & I2).
  exists (l1 ++ items l), (items r ++ l2). cbn [items] in I1.
  assert (E1 : items t = (l1 ++ items l) ++ (x, k) :: (items r ++ l2)) by (rewrite I1, <- !app_assoc; done).
  assert (E2 : items (modify compar vkey remove_root t) = (l1 ++ items l) ++ (items r ++ l2)).
  { rewrite I2, remove_root_items, <- !app_assoc. done. }
  split; [done|]. split; [done|]. unfold ordered in *. rewrite E1 in Hord. rewrite E2.
  apply items_sorted_app in Hord as (S1 & S2 & S3). apply StronglySorted_inv in S2 as [S2 _]. apply items_sorted_app.
  split; [done|]. split; [done|]. intros y z Hy Hz. apply S3; [done|]. by right.
Qed.

(** C34: On a search tree whose nodes are allocations, [tfind] returns the node
    whose key compares equal, or [NULL] when there is none, and changes
    nothing.  [tsearch] returns it too; when there is none it puts a new node
    with the key in its place among the others, or, when [malloc] fails,
    leaves the tree as it is.  Nothing outside the tree changes.  A null
    pointer instead of the root is answered with [NULL]. *)
Theorem tsearch_correct h A X rootp t vkey fuel :
  tree_in h A X rootp t -> ordered compar t -> rootp <> NULL -> (height t < fuel)%nat -> room h SIZEOF_node ->
  (tsearch compar fuel vkey NULL h = Some (NULL, h) /\ tfind compar fuel vkey NULL h = Some (NULL, h)) /\
  (exists p, tfind compar fuel vkey rootp h = Some (p, h) /\
     ((exists k, (p, k) ∈ items t /\ compar vkey k = 0) \/
      p = NULL /\ forall x, x ∈ items t -> compar vkey x.2 <> 0)) /\
  exists q h', tsearch compar fuel vkey rootp h = Some (q, h') /\
    ((exists k, (q, k) ∈ items t /\ compar vkey k = 0 /\ h' = h) \/
     (forall x, x ∈ items t -> compar vkey x.2 <> 0) /\ rest_same h h' A X rootp t /\
     (q = NULL /\ tree_in h' A X rootp t \/
      exists m t' l1 l2, A !! q = None /\ tree_in h' (<[q := m]> A) X rootp t' /\ ordered compar t' /\
        items t = l1 ++ l2 /\ items t' = l1 ++ (q, vkey) :: l2)).
Proof.
  intros HT Hord Hr Hf Hroom. split; [done|].
  destruct (tsearch_run h A X rootp t vkey fuel HT Hr Hf Hroom) as (q & h' & E & Hres).
  pose proof (search_loop_run vkey h t rootp 0 fuel (t_holds _ _ _ _ _ HT) Hf) as Efind.
  destruct (target compar vkey rootp 0 t) as [[c par] s] eqn:Et. cbn [fst snd] in *. split.
  - unfold tfind. rewrite (proj2 (Z.eqb_neq rootp NULL)) by done. unfold wbind. rewrite Efind.
    destruct s as [|p k l r].
    + exists NULL. split; [done|]. right. split; [done|]. by eapply target_absent.
    + exists p. split; [done|]. left. exists k. split; [by eapply target_node|by eapply target_equal].
  - exists q, h'. split; [done|]. destruct s as [|p k l r].
    + right. destruct Hres as [Hrest Hq]. split; [by eapply target_absent|]. split; [done|].
      destruct Hq as [|(_ & HqA & m & Hm & HT')]; [by left|]. right.
      destruct (graft_ordered vkey t _ _ _ _ q Hord Et) as (l1 & l2 & I1 & I2 & Ho').
      by exists m, (modify compar vkey (graft q vkey) t), l1, l2.
    + destruct Hres as [-> ->]. left. exists k. split; [by eapply target_node|]. split; [by eapply target_equal|done].
Qed.

(** C35: [tdelete] of a key that is in the tree takes its node out, frees it,
    keeps the others in order and returns the address a node of the tree has
    or had; of one that is not in the tree it returns [NULL] and changes
    nothing.  Nothing outside the tree changes. *)
Theorem tdelete_correct h A X rootp t vkey fuel :
  tree_in h A X rootp t -> ordered compar t -> rootp <> NULL -> (height t < fuel)%nat ->
  tdelete compar fuel vkey NULL h = Some (NULL, h) /\
  exists p h', tdelete compar fuel vkey rootp h = Some (p, h') /\
    (p = NULL /\ h' = h /\ (forall x, x ∈ items t -> compar vkey x.2 <> 0) \/
     p ∈ (items t).*1 /\ p <> NULL /\ exists x k l1 l2 t', compar vkey k = 0 /\ items t = l1 ++ (x, k) :: l2 /\
       tree_in h' (delete x A) X rootp t' /\ ordered compar t' /\ items t' = l1 ++ l2 /\
       rest_same h h' A X rootp t).
Proof.
  intros HT Hord Hr Hf. split; [done|].
  destruct (tdelete_run h A X rootp t vkey fuel HT Hr Hf) as (p & h' & E & Hres).
  destruct (target compar vkey rootp (root_of t) t) as [[c par] s] eqn:Et. exists p, h'. split; [done|].
  destruct s as [|x k l r].
  - left. destruct Hres as [-> ->]. repeat (split; [done|]). by eapply target_absent.
  - right. destruct Hres as (-> & HT' & Hrest).
    assert (Hpar : par ∈ (items t).*1).
    { destruct (target_par _ _ _ _ _ _ _ Et) as [->|]; [|done].
      destruct t as [|p k' l' r']; [done|]. cbn [root_of items]. rewrite fmap_app, fmap_cons, elem_of_app, elem_of_cons. tauto. }
    split; [done|]. split.
    { apply list_elem_of_fmap in Hpar as (y & -> & Hy). destruct (t_nodes _ _ _ _ _ HT y Hy) as (n & Hn & _).
      destruct (owns_place _ _ _ _ _ (t_owns _ _ _ _ _ HT) Hn). unfold NULL. lia. }
    destruct (remove_ordered vkey t _ _ _ _ _ _ _ _ Hord Et) as (l1 & l2 & I1 & I2 & Ho').
    exists x, k, l1, l2, (modify compar vkey remove_root t). split; [by eapply target_equal|].
    repeat (split; [done|]). done.
Qed.

End Run.

Section Walk.
Context `{MallocLaws}.

(** *** Walking and destroying *)

Fixpoint visits (t : tree) (level : Z) : list (Z * VISIT * Z) :=
  match t with
  | Leaf => []
  | Node p _ Leaf Leaf => [(p, leaf, level)]
  | Node p _ l r =>
      [(p, preorder, level)] ++ visits l (level + 1) ++ [(p, postorder, level)] ++ visits r (level + 1) ++
      [(p, endorder, level)]
  end.

Lemma child_test m p t : tree_at m p t -> (p =? NULL) = match t with Leaf => true | _ => false end.
Proof.
  destruct t; cbn; [intros ->; done|]. intros (-> & Hp & _). by apply Z.eqb_neq.
Qed.

Lemma walk_run h t : forall p level fuel, tree_at (words h) p t -> t <> Leaf -> (height t <= fuel)%nat ->
  walk_trecurse fuel p level h = Some (visits t level, h).
Proof.
  induction t as [|p k l IHl r IHr]; intros p' level [|fuel] Ht Hn Hf; cbn [height] in Hf; try done; [lia|].
  destruct Ht as (-> & Hp & Hk & pl & pr & Hl & Hr & Tl & Tr). cbn [walk_trecurse].
  assert (Hsub : forall t' q, (t' = l /\ q = pl \/ t' = r /\ q = pr) ->
    (if negb (q =? NULL) then walk_trecurse fuel q (level + 1) else wret []) h = Some (visits t' (level + 1), h)).
  { intros t' q [[-> ->]|[-> ->]].
    - rewrite (child_test _ _ _ Tl). destruct l; [done|]. cbn [negb]. apply IHl; [done|done|lia].
    - rewrite (child_test _ _ _ Tr). destruct r; [done|]. cbn [negb]. apply IHr; [done|done|lia]. }
  unfold wbind, llink, rlink. rewrite (rd_run _ _ _ Hl), (rd_run _ _ _ Hr), (child_test _ _ _ Tl), (child_test _ _ _ Tr).
  assert (El := Hsub l pl ltac:(auto)). assert (Er := Hsub r pr ltac:(auto)).
  rewrite (child_test _ _ _ Tl) in El. rewrite (child_test _ _ _ Tr) in Er.
  destruct l as [|lp lk ll lr], r as [|rp rk rl rr]; cbn [andb]; [done|..];
    rewrite (rd_run _ _ _ Hl), (child_test _ _ _ Tl), El, (rd_run _ _ _ Hr), (child_test _ _ _ Tr), Er; done.
Qed.

(** The kinds of the visits of one node, and the nodes in the order of their
    visits between the subtrees. *)
Definition kinds_of (p : Z) (vs : list (Z * VISIT * Z)) : list VISIT :=
  (filter (fun e => e.1.1 = p) vs).*1.*2.
Definition inorder_of (vs : list (Z * VISIT * Z)) : list Z :=
  (filter (fun e => e.1.2 = postorder \/ e.1.2 = leaf) vs).*1.*1.

Lemma visits_node p k l r level : visits (Node p k l r) level = [(p, leaf, level)] /\ l = Leaf /\ r = Leaf \/
  visits (Node p k l r) level = [(p, preorder, level)] ++ visits l (level + 1) ++ [(p, postorder, level)] ++
    visits r (level + 1) ++ [(p, endorder, level)].
Proof. destruct l, r; cbn [visits]; auto. Qed.

Lemma visits_inorder t : forall level, inorder_of (visits t level) = (items t).*1.
Proof.
  unfold inorder_of. induction t as [|p k l IHl r IHr]; intros level; [done|].
  destruct (visits_node p k l r level) as [(-> & -> & ->)| ->]; [done|].
  rewrite !filter_app, !fmap_app, IHl, IHr. cbn [items]. rewrite !fmap_app. cbn. by rewrite app_nil_r.
Qed.

Lemma visits_other t p : forall level, p ∉ (items t).*1 -> kinds_of p (visits t level) = [].
Proof.
  unfold kinds_of. induction t as [|q k l IHl r IHr]; intros level Hp; [done|].
  cbn [items] in Hp. rewrite fmap_app, fmap_cons, not_elem_of_app, not_elem_of_cons in Hp. cbn in Hp.
  destruct (visits_node q k l r level) as [(-> & _ & _)| ->].
  - rewrite filter_cons_False; [done|]. cbn. intros ->. tauto.
  - rewrite !filter_app, !fmap_app, IHl, IHr by tauto.
    rewrite !filter_cons_False by (cbn; intros ->; tauto). done.
Qed.

Lemma visits_kinds t p : forall level, NoDup (items t).*1 -> p ∈ (items t).*1 ->
  kinds_of p (visits t level) = [leaf] \/ kinds_of p (visits t level) = [preorder; postorder; endorder].
Proof.
  induction t as [|q k l IHl r IHr]; intros level Hnd Hp; [by apply elem_of_nil in Hp|].
  cbn [items] in Hnd, Hp. rewrite fmap_app, fmap_cons in Hnd, Hp. cbn [fst] in *.
  rewrite elem_of_app, elem_of_cons in Hp. apply NoDup_app in Hnd as (Nl & Nlr & Nqr). apply NoDup_cons in Nqr as [Nq Nr].
  destruct (visits_node q k l r level) as [(-> & -> & ->)| ->].
  { left. unfold kinds_of. rewrite filter_cons_True; [done|]. cbn. set_solver. }
  assert (Happ : forall a b, kinds_of p (a ++ b) = kinds_of p a ++ kinds_of p b).
  { intros a b. unfold kinds_of. by rewrite filter_app, !fmap_app. }
  assert (Hone : forall v, kinds_of p [(q, v, level)] = if decide (q = p) then [v] else []).
  { intros v. unfold kinds_of. case_decide; [by rewrite filter_cons_True|by rewrite filter_cons_False]. }
  rewrite !Happ, !Hone. case_decide as Hq.
  - subst q. rewrite !visits_other; [by right|done|]. intros Hx. apply (Nlr p Hx). by left.
  - cbn [app]. rewrite app_nil_r. destruct Hp as [Hp|[->|Hp]]; [|done|].
    + rewrite (visits_other r); [rewrite app_nil_r; auto|]. intros Hx. apply (Nlr p Hp). by right.
    + rewrite (visits_other l); [cbn [app]; by apply IHr|]. intros Hx. apply (Nlr p Hx). by right.
Qed.

(** The keys in the order [tdestroy] meets them. *)
Fixpoint postorder_keys (t : tree) : list Z :=
  match t with Leaf => [] | Node _ k l r => postorder_keys l ++ postorder_keys r ++ [k] end.

Lemma postorder_keys_perm t : postorder_keys t ≡ₚ (items t).*2.
Proof.
  induction t as [|p k l IHl r IHr]; [done|]. cbn [postorder_keys items]. rewrite IHl, IHr, fmap_app, fmap_cons.
  cbn. solve_Permutation.
Qed.

(** The allocations that are not nodes of the tree. *)
Definition without_nodes (t : tree) (A : gmap Z Z) : gmap Z Z := filter (fun x => x.1 ∉ (items t).*1) A.

Lemma lookup_without t A x m : without_nodes t A !! x = Some m <-> A !! x = Some m /\ x ∉ (items t).*1.
Proof. unfold without_nodes. by rewrite map_lookup_filter_Some. Qed.

Lemma without_node p k l r A : delete p (without_nodes r (without_nodes l A)) = without_nodes (Node p k l r) A.
Proof.
  apply map_eq. intros x. apply option_eq. intros m. rewrite lookup_delete_Some, !lookup_without. cbn [items].
  rewrite fmap_app, fmap_cons, not_elem_of_app, not_elem_of_cons. cbn. naive_solver.
Qed.

Lemma fp_ptrs t x : x ∈ (items t).*1 -> x ∈ fp t.
Proof. intros (y & -> & Hy)%list_elem_of_fmap. apply elem_of_fp. exists y. auto. Qed.

Lemma destroy_run t : forall h A X p fuel, tree_at (words h) p t -> t <> Leaf -> (height t <= fuel)%nat ->
  owns h A X -> (forall x, x ∈ items t -> exists n, A !! x.1 = Some n /\ 12 <= n) -> NoDup (fp t) ->
  exists h', destroy_trecurse fuel p h = Some (postorder_keys t, h') /\ owns h' (without_nodes t A) X /\
    (forall x m w, A !! x = Some m -> x ∉ (items t).*1 -> x <= w < x + m -> w mod 4 = 0 -> words h' !! w = words h !! w) /\
    (forall w, X w -> words h' !! w = words h !! w).
Proof.
  induction t as [|p k l IHl r IHr]; intros h A X p' [|fuel] Ht Hn Hf Ho Hal Hnd; cbn [height] in Hf; try done; [lia|].
  destruct (fp_nodup_inv _ _ _ _ Hnd) as (Nl & Nr & Nlr & Np).
  assert (Hp' : tree_at (words h) p (Node p k l r)) by (by destruct Ht as (-> & ?)).
  destruct Ht as (-> & Hp & Hk & pl & pr & Hl & Hr & Tl & Tr). cbn [destroy_trecurse].
  (* a subtree, freed if there is one *)
  assert (Hsub : forall h A t' q, t' = l \/ t' = r -> tree_at (words h) q t' -> owns h A X ->
    (forall x, x ∈ items t' -> exists n, A !! x.1 = Some n /\ 12 <= n) ->
    exists h', (if negb (q =? NULL) then destroy_trecurse fuel q else wret []) h = Some (postorder_keys t', h') /\
      owns h' (without_nodes t' A) X /\
      (forall x m w, A !! x = Some m -> x ∉ (items t').*1 -> x <= w < x + m -> w mod 4 = 0 -> words h' !! w = words h !! w) /\
      (forall w, X w -> words h' !! w = words h !! w)).
  { intros h0 A0 t' q Ht' Tq O0 Hal0. rewrite (child_test _ _ _ Tq).
    destruct t' as [|tp tk tl tr] eqn:Et'.
    - exists h0. split; [done|]. split; [|done]. unfold without_nodes. rewrite map_filter_id; [done|]. cbn. set_solver.
    - cbn [negb]. rewrite <- Et' in *. destruct Ht' as [->| ->]; [apply IHl|apply IHr]; try done; try lia; by rewrite Et'. }
  assert (Hpl : p ∉ (items l).*1) by (intros Hx%fp_ptrs; destruct (Np p); [by left|done]).
  assert (Hpr : p ∉ (items r).*1) by (intros Hx%fp_ptrs; destruct (Np p); [by right|done]).
  assert (Hrl : forall x, x ∈ (items r).*1 -> x ∉ (items l).*1).
  { intros x Hx%fp_ptrs Hx'%fp_ptrs. by apply (Nlr x). }
  destruct (Hal (p, k)) as (n & HnA & Hn12); [cbn [items]; rewrite elem_of_app, elem_of_cons; tauto|]. cbn [fst] in HnA.
  assert (Hall : forall x, x ∈ items l \/ x ∈ items r -> exists n, A !! x.1 = Some n /\ 12 <= n).
  { intros x Hx. apply Hal. cbn [items]. rewrite elem_of_app, elem_of_cons. tauto. }
  destruct (owns_place _ _ _ _ _ Ho HnA) as (_ & P8 & _).
  destruct (Hsub h A l pl) as (h1 & E1 & O1 & D1 & X1); [auto|done|done|auto|].
  assert (Hpw : forall d, d = 0 \/ d = 4 \/ d = 8 -> words h1 !! (p + d) = words h !! (p + d)).
  { intros d Hd. apply (D1 p n); [done|done|lia|Z.div_mod_to_equations; lia]. }
  assert (Tr1 : tree_at (words h1) pr r).
  { eapply tree_at_frame; [exact Tr|]. intros w (x & Hx & Ew)%elem_of_fp. destruct (Hall x) as (m & Hm & Hm12); [auto|].
    destruct (owns_place _ _ _ _ _ Ho Hm) as (_ & X8 & _).
    apply (D1 x.1 m); [done| |lia|Z.div_mod_to_equations; lia]. apply Hrl, list_elem_of_fmap. by exists x. }
  destruct (Hsub h1 (without_nodes l A) r pr) as (h2 & E2 & O2 & D2 & X2); [auto|done|done| |].
  { intros x Hx. destruct (Hall x) as (m & Hm & Hm12); [auto|]. exists m. split; [|done]. apply lookup_without.
    split; [done|]. apply Hrl, list_elem_of_fmap. by exists x. }
  assert (HnA2 : without_nodes r (without_nodes l A) !! p = Some n) by (by rewrite !lookup_without).
  assert (Hpw2 : forall d, d = 0 \/ d = 4 \/ d = 8 -> words h2 !! (p + d) = words h !! (p + d)).
  { intros d Hd. rewrite <- Hpw by done. apply (D2 p n); [by apply lookup_without|done|lia|Z.div_mod_to_equations; lia]. }
  destruct (free_works _ _ _ _ _ O2 HnA2) as (h3 & E3 & O3 & D3 & X3). rewrite (without_node p k l r) in O3.
  exists h3. split; [|split; [done|split]].
  - unfold wbind, llink, rlink, key_of. rewrite (rd_run _ _ _ Hl), E1.
    rewrite (rd_run _ pr) by (rewrite Hpw; auto). rewrite E2.
    rewrite (rd_run _ k) by (pose proof (Hpw2 0) as Hz; rewrite !Z.add_0_r in Hz; rewrite Hz; auto). by rewrite E3.
  - intros x m w Hx Hxt Hw H4. cbn [items] in Hxt. rewrite fmap_app, fmap_cons, not_elem_of_app, not_elem_of_cons in Hxt.
    cbn [fst] in Hxt. rewrite (D3 x m), (D2 x m), (D1 x m); rewrite ?lookup_without; tauto.
  - intros w Hw. by rewrite X3, X2, X1.
Qed.

Lemma ptrs_nodup t : NoDup (fp t) -> NoDup (items t).*1.
Proof.
  induction t as [|p k l IHl r IHr]; intros Hnd; [constructor|].
  destruct (fp_nodup_inv _ _ _ _ Hnd) as (Nl & Nr & Nlr & Np). cbn [items]. rewrite fmap_app, fmap_cons.
  apply NoDup_app. split; [auto|]. split.
  - intros x Hx%fp_ptrs. rewrite not_elem_of_cons. split; [by apply Np; left|]. intros Hx'%fp_ptrs. by apply (Nlr x).
  - apply NoDup_cons. split; [|auto]. intros Hx%fp_ptrs. destruct (Np p); [by right|done].
Qed.

(** [twalk] visits the nodes in the order of their keys between the two
    subtrees: every node either once, as a leaf, or before, between and after
    its subtrees.  [tdestroy] hands every key to the caller's function once
    and frees exactly the nodes; with a null tree both do nothing. *)
Theorem twalk_tdestroy_correct h A X rootp t fuel :
  tree_in h A X rootp t -> (height t <= fuel)%nat ->
  exists root, words h !! rootp = Some root /\
    (exists vs, twalk fuel root true h = Some (vs, h) /\ inorder_of vs = (items t).*1 /\
       forall p, p ∈ (items t).*1 -> kinds_of p vs = [leaf] \/ kinds_of p vs = [preorder; postorder; endorder]) /\
    exists ks h', tdestroy fuel root h = Some (ks, h') /\ ks ≡ₚ (items t).*2 /\
      owns h' (without_nodes t A) X /\
      (forall x m w, A !! x = Some m -> x ∉ (items t).*1 -> x <= w < x + m -> w mod 4 = 0 ->
         words h' !! w = words h !! w) /\
      (forall w, X w -> words h' !! w = words h !! w).
Proof.
  intros HT Hf. destruct HT as [T1 T2 (root & Er & Tr) T4 T5]. exists root. split; [done|].
  apply NoDup_cons in T5 as [_ Hnd]. unfold twalk, tdestroy. rewrite (child_test _ _ _ Tr).
  destruct t as [|p k l r] eqn:Et.
  - cbn [negb andb]. split; [exists []; split; [done|]; split; [done|]; by intros p ?%elem_of_nil|].
    exists [], h. split; [done|]. split; [done|]. split; [|done]. unfold without_nodes.
    rewrite map_filter_id; [done|]. cbn. set_solver.
  - rewrite <- Et in *. cbn [negb andb]. assert (Hleaf : t <> Leaf) by (by rewrite Et). split.
    + exists (visits t 0). split; [by apply walk_run|]. split; [apply visits_inorder|].
      intros q Hq. apply visits_kinds; [by apply ptrs_nodup|done].
    + destruct (destroy_run t h A X root fuel Tr Hleaf Hf T1 T4 Hnd) as (h' & E & O & D & HX).
      exists (postorder_keys t), h'. split; [done|]. split; [apply postorder_keys_perm|done].
Qed.
End Walk.

(** ** With the block allocator *)

(** Keys are compared as numbers; the root is the word at address 4. *)
#[global] Instance sub_order : OrderLaws Z.sub.
Proof. split; intros; lia. Qed.

Definition start_root : heap := mkHeap Bump.bump_os {[4 := 0]} (8, ∅) 0 0 0.
Definition only_root (w : Z) : Prop := w = 4.

Lemma start_tree : tree_in start_root ∅ only_root 4 Leaf.
Proof.
  split.
  - exists ∅. split.
    + apply Heap_empty; [done|done|done|]. intros w Hw. cbn in Hw. cbn.
      apply lookup_singleton_ne. lia.
    + intros w ->. split; [cbn; rewrite lookup_singleton_eq; by eexists|]. intros b i Hb. by rewrite lookup_empty in Hb.
  - done.
  - exists 0. split; [apply lookup_singleton_eq|done].
  - by intros x ?%elem_of_nil.
  - apply NoDup_singleton.
Qed.

Lemma tsearch_correct_witness :
  exists q h', tsearch Z.sub 1 5 4 start_root = Some (q, h') /\ forall x, x ∈ items Leaf -> 5 - x.2 <> 0.
Proof.
  destruct (proj2 (proj2 (tsearch_correct Z.sub start_root ∅ only_root 4 Leaf 5 1 start_tree (SSorted_nil _)
    ltac:(done) ltac:(cbn; lia) eq_refl))) as (q & h' & E & [(k & Hk & _)|(Hx & _)]).
  - exfalso. exact (proj1 (elem_of_nil _) Hk).
  - exists q, h'. split; [exact E|exact Hx].
Defined.

(** The block allocator does not answer [NULL]. *)
Lemma wmem_tsearch_works `{OsLaws} compar h A X rootp vkey q h' :
  tree_in h A X rootp Leaf -> rootp <> NULL -> room h SIZEOF_node ->
  tsearch compar 1 vkey rootp h = Some (q, h') -> q <> NULL.
Proof.
  intros HT Hr Hroom E. destruct (t_owns _ _ _ _ _ HT) as (I & HH & _).
  destruct (t_holds _ _ _ _ _ HT) as (p0 & Hp0 & ->).
  destruct (alloc_heap I h A SIZEOF_node HH) as (I' & h1 & p & n & E1 & HH' & _); [done|done|done|].
  assert (Hp : 0 < p) by (apply (proj1 (Heap_wf _ _ _ HH') p n); by rewrite lookup_insert_eq).
  unfold tsearch in E. rewrite (proj2 (Z.eqb_neq rootp NULL)) in E by done. cbn [search_loop] in E.
  unfold wbind at 1 2 in E. rewrite (rd_run _ _ _ Hp0) in E. change (0 =? NULL) with true in E. cbn beta iota in E.
  unfold wret at 1 in E. unfold wbind at 1 in E. change (malloc SIZEOF_node h) with (wmem_block_alloc SIZEOF_node h) in E.
  rewrite E1 in E. unfold wbind at 1 in E.
  match type of E with match ?c with _ => _ end = _ => destruct c as [[[] h2]|]; [|discriminate E] end.
  injection E as <- _. unfold NULL. lia.
Qed.

(** A tree of one node. *)
Lemma one_node : exists q h A t, tsearch Z.sub 1 5 4 start_root = Some (q, h) /\
  tree_in h A only_root 4 t /\ ordered Z.sub t /\ items t = [(q, 5)] /\ height t = 1%nat.
Proof.
  assert (Hr : room start_root SIZEOF_node) by reflexivity. assert (H4 : 4 <> NULL) by (unfold NULL; lia).
  destruct (tsearch_run Z.sub start_root ∅ only_root 4 Leaf 5 1 start_tree H4 ltac:(cbn; lia) Hr) as (q & h & E & Hq).
  cbn [target snd] in Hq. destruct Hq as [_ Hq].
  pose proof (wmem_tsearch_works Z.sub start_root ∅ only_root 4 5 q h start_tree H4 Hr E) as Hq0.
  destruct Hq as [[Hq _]|(_ & _ & m & _ & HT)]; [exfalso; exact (Hq0 Hq)|].
  exists q, h, (<[q := m]> ∅), (Node q 5 Leaf Leaf). split; [exact E|]. split; [exact HT|].
  split; [repeat constructor|]. split; reflexivity.
Qed.

Lemma tdelete_correct_witness : exists q h p h', tsearch Z.sub 1 5 4 start_root = Some (q, h) /\
  tdelete Z.sub 2 5 4 h = Some (p, h') /\ p <> NULL.
Proof.
  destruct one_node as (q & h & A & t & E & HT & Ho & Hi & Hh).
  destruct (proj2 (tdelete_correct Z.sub h A only_root 4 t 5 2 HT Ho ltac:(done) ltac:(rewrite Hh; lia)))
    as (p & h' & E' & [(_ & _ & Hx)|(_ & Hp & _)]).
  - exfalso. apply (Hx (q, 5)); [rewrite Hi; by left|done].
  - exists q, h, p, h'. exact (conj E (conj E' Hp)).
Defined.

Lemma twalk_tdestroy_correct_witness : exists q h root vs, tsearch Z.sub 1 5 4 start_root = Some (q, h) /\
  words h !! 4 = Some root /\ twalk 1 root true h = Some (vs, h) /\ inorder_of vs = [q].
Proof.
  destruct one_node as (q & h & A & t & E & HT & _ & Hi & Hh).
  destruct (twalk_tdestroy_correct h A only_root 4 t 1 HT ltac:(rewrite Hh; lia)) as (root & Er & (vs & Ev & Hv & _) & _).
  rewrite Hi in Hv. exists q, h, root, vs. exact (conj E (conj Er (conj Ev Hv))).
Defined.
