(* ===== verification/Stdio.v ===== *)
(** * Buffered output ([library/stdio], [fcntl/write.c])

    The streams of the C library: [struct iob] with its write buffer, the
    action function the buffer is emptied through (a file descriptor, or a
    string for the [sprintf] family), and the functions that put characters
    into a stream: the [putc] macros, [fputc], [fputs], [puts], [fwrite],
    [fflush] and [write].  A stream is passed and returned, since the
    functions change it; its buffer is in memory. *)

From S2P Require Import Prelude CMem Cells CType Words StrScan StrCopy.

(** ** Data *)

Definition OK : Z := 0.
Definition ERROR : Z := -1.
Definition EBADF : Z := 9.
Definition SIGPIPE : Z := 13.

(** [_IOFBF], [_IOLBF], [_IONBF] *)
Definition IOBF_BUFFER_MODE_FULL : Z := 0.
Definition IOBF_BUFFER_MODE_LINE : Z := 1.
Definition IOBF_BUFFER_MODE_NONE : Z := 2.
Definition IOBF_BUFFER_MODE : Z := 3.
Definition IOBF_EOF_REACHED : Z := 4.
Definition IOBF_READ : Z := 8.
Definition IOBF_WRITE : Z := 16.
Definition IOBF_IN_USE : Z := 32.
Definition IOBF_ERROR : Z := 64.
Definition IOBF_NO_NUL : Z := 256.
Definition IOBF_INTERNAL : Z := 512.
Definition SERR : Z := 4096.

Definition FLAG_IS_SET (v f : Z) : bool := Z.land v f =? f.
Definition FLAG_IS_CLEAR (v f : Z) : bool := Z.land v f =? 0.

(** The values of [iob_Action]. *)
Inductive action := iob_hook_entry | vsprintf_hook_entry | vsnprintf_hook_entry.

Record iob := mkIob {
  iob_Flags : Z;
  iob_Flags2 : Z;
  iob_Buffer : Z;
  iob_BufferSize : Z;
  iob_BufferPosition : Z;
  iob_BufferReadBytes : Z;
  iob_BufferWriteBytes : Z;
  iob_Action : action;
  iob_Descriptor : Z;
  iob_String : Z;
  iob_StringSize : Z;
  iob_StringPosition : Z;
}.

Definition set_Flags (f : iob) (v : Z) : iob :=
  mkIob v (iob_Flags2 f) (iob_Buffer f) (iob_BufferSize f) (iob_BufferPosition f) (iob_BufferReadBytes f)
    (iob_BufferWriteBytes f) (iob_Action f) (iob_Descriptor f) (iob_String f)
    (iob_StringSize f) (iob_StringPosition f).
Definition SET_FLAG (f : iob) (v : Z) : iob := set_Flags f (Z.lor (iob_Flags f) v).
Definition SET_FLAG2 (f : iob) (v : Z) : iob :=
  mkIob (iob_Flags f) (Z.lor (iob_Flags2 f) v) (iob_Buffer f) (iob_BufferSize f)
    (iob_BufferPosition f) (iob_BufferReadBytes f) (iob_BufferWriteBytes f) (iob_Action f)
    (iob_Descriptor f) (iob_String f) (iob_StringSize f) (iob_StringPosition f).
Definition CLEAR_FLAG (f : iob) (v : Z) : iob := set_Flags f (Z.land (iob_Flags f) (not32 v)).
Definition set_WriteBytes (f : iob) (n : Z) : iob :=
  mkIob (iob_Flags f) (iob_Flags2 f) (iob_Buffer f) (iob_BufferSize f) (iob_BufferPosition f)
    (iob_BufferReadBytes f) n (iob_Action f) (iob_Descriptor f) (iob_String f)
    (iob_StringSize f) (iob_StringPosition f).
Definition set_StringPosition (f : iob) (n : Z) : iob :=
  mkIob (iob_Flags f) (iob_Flags2 f) (iob_Buffer f) (iob_BufferSize f) (iob_BufferPosition f)
    (iob_BufferReadBytes f) (iob_BufferWriteBytes f) (iob_Action f) (iob_Descriptor f)
    (iob_String f) (iob_StringSize f) n.
Definition drop_read (f : iob) : iob :=
  mkIob (iob_Flags f) (iob_Flags2 f) (iob_Buffer f) (iob_BufferSize f) 0 0 (iob_BufferWriteBytes f)
    (iob_Action f) (iob_Descriptor f) (iob_String f) (iob_StringSize f) (iob_StringPosition f).

(** [struct file_action_message], for the actions reading and writing need. *)
Inductive file_action_message :=
  | file_action_read (fam_Data fam_Size : Z)
  | file_action_write (fam_Data fam_Size : Z)
  | file_action_seek (fam_Offset : Z).

(** [struct fd]: an entry of [__clib4->__fd].  An alias made by [dup] points
    to the entry it duplicates, given here by its index. *)
Record fd := mkFd { fd_Flags : Z; fd_Original : option Z }.

Definition FDF_READ : Z := 1.
Definition FDF_WRITE : Z := 2.
Definition FDF_IS_SOCKET : Z := 32.
Definition FDF_IN_USE : Z := 128.
Definition FDF_IS_INTERACTIVE : Z := 2048.
Definition FDF_PIPE : Z := 524288.

(** The system below the descriptors: the table, the action functions of its
    entries (which call dos.library), [send] of bsdsocket.library, and the
    error number [IoErr] stands for. *)
Class Dos := {
  fds : list (option fd);
  fd_Action : Z -> file_action_message -> M (Z * Z);   (** result, [fam_Error] *)
  send : Z -> Z -> Z -> M Z;
  IoErr : M Z;
}.

(** ** The code *)

Section Code.
Context `{SysMem} `{Dos}.

Definition fd_at (d : Z) : option fd :=
  if (d <? 0) || (Z.of_nat (length fds) <=? d) then None
  else match fds !! Z.to_nat d with Some e => e | None => None end.

(** [__clib4->__fd[d]], which nothing checks against [__num_fd]. *)
Definition fd_slot (d : Z) : M (option fd) :=
  if (d <? 0) || (Z.of_nat (length fds) <=? d) then fault else ret (fd_at d).

(** The index of the entry found; [resolve] is [resolution_mode_alias]. *)
Definition get_file_descriptor (d : Z) (resolve : bool) : option Z :=
  match fd_at d with
  | None => None
  | Some e =>
      if FLAG_IS_CLEAR (fd_Flags e) FDF_IN_USE then None
      else match fd_Original e with
           | Some o => if resolve then Some o else Some d
           | None => Some d
           end
  end.

(** [fam_Size] is an [int]; the result is compared as a [size_t]. *)
Definition write_r (file_descriptor buffer num_bytes : Z) : M Z :=
  if buffer =? NULL then set_errno EFAULT ;; ret EOF
  else
    match get_file_descriptor file_descriptor true with
    | None => set_errno EBADF ;; ret EOF
    | Some i =>
        match fd_at i with
        | None => fault
        | Some e =>
            if FLAG_IS_CLEAR (fd_Flags e) FDF_IN_USE && FLAG_IS_SET (fd_Flags e) FDF_PIPE
            then set_errno SIGPIPE ;; ret EOF
            else if FLAG_IS_CLEAR (fd_Flags e) FDF_WRITE then set_errno EBADF ;; ret EOF
            else if 0 <? num_bytes then
              if negb (FLAG_IS_SET (fd_Flags e) FDF_IS_SOCKET) then
                let* (r, fam_Error) := fd_Action i (file_action_write buffer (s32 num_bytes)) in
                if r =? EOF then set_errno fam_Error ;; ret EOF
                else if negb (u32 r =? num_bytes) then
                  (let* e' := IoErr in set_errno e') ;; ret r
                else ret r
              else send file_descriptor buffer num_bytes
            else ret 0
        end
    end.
Definition write (file_descriptor buffer num_bytes : Z) : M Z :=
  write_r file_descriptor buffer num_bytes.

(** The action functions: result, [fam_Error] and the stream. *)
Definition iob_hook (f : iob) (fam : file_action_message) : M (Z * Z * iob) :=
  let* entry := fd_slot (iob_Descriptor f) in
  match entry with
  | None => ret (EOF, EBADF, f)
  | Some _ =>
      match get_file_descriptor (iob_Descriptor f) true with
      | None => ret (EOF, EBADF, f)
      | Some i => let* (r, e) := fd_Action i fam in ret (r, e, f)
      end
  end.

Definition vsprintf_hook (f : iob) (fam : file_action_message) : M (Z * Z * iob) :=
  match fam with
  | file_action_write data size =>
      memmove (iob_String f + iob_StringPosition f) data size ;;
      ret (size, OK, set_StringPosition f (iob_StringPosition f + size))
  | _ => ret (ERROR, EBADF, f)
  end.

Definition vsnprintf_hook (f : iob) (fam : file_action_message) : M (Z * Z * iob) :=
  match fam with
  | file_action_write data size =>
      if (0 <? size) && (0 <? iob_StringSize f) && (iob_StringPosition f <? iob_StringSize f)
      then
        let num_bytes_left := iob_StringSize f - iob_StringPosition f in
        let num_bytes := if num_bytes_left <? size then num_bytes_left else size in
        memmove (iob_String f + iob_StringPosition f) data num_bytes ;;
        ret (size, OK, set_StringPosition f (iob_StringPosition f + num_bytes))
      else ret (size, OK, f)
  | _ => ret (EOF, EBADF, f)
  end.

(** [( *file->iob_Action)(file, &fam)] *)
Definition iob_action (f : iob) (fam : file_action_message) : M (Z * Z * iob) :=
  match iob_Action f with
  | iob_hook_entry => iob_hook f fam
  | vsprintf_hook_entry => vsprintf_hook f fam
  | vsnprintf_hook_entry => vsnprintf_hook f fam
  end.

Definition iob_write_buffer_is_full (f : iob) : bool :=
  (0 <? iob_BufferSize f) && (iob_BufferWriteBytes f =? iob_BufferSize f).
Definition iob_write_buffer_is_valid (f : iob) : bool := 0 <? iob_BufferWriteBytes f.
Definition iob_read_buffer_is_valid (f : iob) : bool := 0 <? iob_BufferReadBytes f.
Definition iob_num_unread_bytes (f : iob) : Z :=
  if (0 <? iob_BufferReadBytes f) && (iob_BufferPosition f <? iob_BufferReadBytes f)
  then iob_BufferReadBytes f - iob_BufferPosition f else 0.

Definition flush_iob_write_buffer (f : iob) : M (Z * iob) :=
  if FLAG_IS_SET (iob_Flags f) IOBF_IN_USE && (0 <? iob_BufferWriteBytes f) then
    let* (r, fam_Error, f) :=
      iob_action f (file_action_write (iob_Buffer f) (iob_BufferWriteBytes f)) in
    if r =? EOF then set_errno fam_Error ;; ret (ERROR, SET_FLAG f IOBF_ERROR)
    else ret (OK, set_WriteBytes f 0)
  else ret (OK, f).

Definition drop_iob_read_buffer (f : iob) : M (Z * iob) :=
  if FLAG_IS_SET (iob_Flags f) IOBF_IN_USE then
    let f := CLEAR_FLAG f IOBF_EOF_REACHED in
    if iob_read_buffer_is_valid f then
      let n := iob_num_unread_bytes f in
      if 0 <? n then
        let* (position, fam_Error, f) := iob_action f (file_action_seek (- n)) in
        if negb (fam_Error =? OK) then
          set_errno fam_Error ;; ret (ERROR, SET_FLAG f IOBF_ERROR)
        else
          (if position <? 0 then set_errno OK else ret tt) ;; ret (OK, drop_read f)
      else ret (OK, drop_read f)
    else ret (OK, f)
  else ret (OK, f).

(** [__flush_r] and [__flush]: the last character of the buffer, flushed. *)
Definition flush_r (f : iob) : M (Z * iob) :=
  let* last_c := load8 (iob_Buffer f + (iob_BufferWriteBytes f - 1)) in
  let* (r, f) := flush_iob_write_buffer f in
  if r <? 0 then ret (EOF, set_WriteBytes f (iob_BufferWriteBytes f - 1))
  else ret (last_c, f).

(** [iob_Buffer[iob_BufferWriteBytes++] = c] *)
Definition push (c : Z) (f : iob) : M iob :=
  store8 (iob_Buffer f + iob_BufferWriteBytes f) c ;;
  ret (set_WriteBytes f (iob_BufferWriteBytes f + 1)).

Definition fputc_check (f : iob) : M (Z * iob) :=
  if FLAG_IS_CLEAR (iob_Flags f) IOBF_IN_USE then
    set_errno EBADF ;; ret (EOF, SET_FLAG f IOBF_ERROR)
  else if FLAG_IS_CLEAR (iob_Flags f) IOBF_WRITE then
    set_errno EBADF ;; ret (EOF, SET_FLAG f IOBF_ERROR)
  else if iob_read_buffer_is_valid f then
    let* (r, f) := drop_iob_read_buffer f in
    if r <? 0 then ret (EOF, f) else ret (OK, f)
  else ret (OK, f).

Definition fputc_mode (c : Z) (f : iob) (buffer_mode : Z) : M (Z * iob) :=
  let* (r, f) := if iob_write_buffer_is_full f then flush_iob_write_buffer f else ret (OK, f) in
  if r <? 0 then ret (EOF, f)
  else
    let* f := push c f in
    if (buffer_mode =? IOBF_BUFFER_MODE_NONE) ||
       ((buffer_mode =? IOBF_BUFFER_MODE_LINE) && (c =? 10))
    then
      let* (r, f) := flush_iob_write_buffer f in
      if r <? 0 then ret (EOF, set_WriteBytes f (iob_BufferWriteBytes f - 1))
      else ret (Z.land c 255, f)
    else ret (Z.land c 255, f).

(** The null check of the functions that take a [FILE *]. *)
Definition checked {A} (stream : option iob) (bad : A) (k : iob -> M (A * iob))
    : M (A * option iob) :=
  match stream with
  | None => set_errno EFAULT ;; ret (bad, None)
  | Some f => let* (r, f) := k f in ret (r, Some f)
  end.

Definition fputc_file (c : Z) (f : iob) : M (Z * iob) :=
  let* (r, f) := fputc_check f in
  if r <? 0 then ret (EOF, f)
  else fputc_mode c f (Z.land (iob_Flags f) IOBF_BUFFER_MODE).
Definition fputc (c : Z) (stream : option iob) : M (Z * option iob) :=
  checked stream EOF (fputc_file c).

(** The macro [__putc]. *)
Definition putc_mode (c : Z) (f : iob) (m : Z) : M (Z * iob) :=
  if iob_BufferWriteBytes f <? iob_BufferSize f then
    let* f := push c f in
    if (m =? IOBF_BUFFER_MODE_LINE) && (c =? 10) then flush_r f
    else ret (Z.land c 255, f)
  else fputc_mode c f m.

(** The macro [__putc_fully_buffered]. *)
Definition putc_fully_buffered (c : Z) (f : iob) : M (Z * iob) :=
  if iob_BufferWriteBytes f <? iob_BufferSize f then
    let* f := push c f in ret (u8 c, f)
  else fputc_mode c f IOBF_BUFFER_MODE_FULL.

(** The macro [__putc_line_buffered]. *)
Definition putc_line_buffered (c : Z) (f : iob) : M (Z * iob) :=
  if iob_BufferWriteBytes f <? iob_BufferSize f then
    let* f := push c f in
    if c =? 10 then flush_r f else ret (Z.land c 255, f)
  else fputc_mode c f IOBF_BUFFER_MODE_LINE.

(** The macro [__putc_unlocked] of [stdio.h]. *)
Definition putc_unlocked (c : Z) (f : iob) : M (Z * iob) :=
  if (Z.land (iob_Flags f) (Z.lor IOBF_IN_USE IOBF_WRITE) =? Z.lor IOBF_IN_USE IOBF_WRITE) &&
     negb (Z.land (iob_Flags f) IOBF_BUFFER_MODE =? IOBF_BUFFER_MODE_NONE) &&
     (iob_BufferWriteBytes f <? iob_BufferSize f)
  then
    let* f := push c f in
    if (Z.land (iob_Flags f) IOBF_BUFFER_MODE =? IOBF_BUFFER_MODE_LINE) && (u8 c =? 10)
    then flush_r f
    else ret (u8 c, f)
  else fputc_file c f.

(** [fflush] of a stream. *)
Definition fflush_file (f : iob) : M (Z * iob) :=
  let* (r, f) :=
    if iob_write_buffer_is_valid f then flush_iob_write_buffer f else ret (OK, f) in
  if r <? 0 then ret (EOF, f) else ret (OK, f).

(** The buffering a stream of text gets: unbuffered interactive streams are
    line buffered. *)
Definition text_mode (f : iob) : M Z :=
  let mode := Z.land (iob_Flags f) IOBF_BUFFER_MODE in
  if mode =? IOBF_BUFFER_MODE_NONE then
    let* entry := fd_slot (iob_Descriptor f) in
    match entry with
    | None => fault
    | Some e => ret (if FLAG_IS_SET (fd_Flags e) FDF_IS_INTERACTIVE
                     then IOBF_BUFFER_MODE_LINE else mode)
    end
  else ret mode.

(** The bytes that fit into the write buffer, of [total]. *)
Definition buffer_room (f : iob) (total : Z) : Z :=
  let n := iob_BufferSize f - iob_BufferWriteBytes f in
  if total <? n then total else n.

(** [memmove] of [n] bytes behind those in the buffer. *)
Definition append (copy : Z -> Z -> Z -> M Z) (f : iob) (s n : Z) : M iob :=
  copy (iob_Buffer f + iob_BufferWriteBytes f) s n ;;
  ret (set_WriteBytes f (iob_BufferWriteBytes f + n)).

(** [c = *s++] and one of the [putc] macros; [None] is an error. *)
Definition put_next (putc : Z -> iob -> M (Z * iob)) (s : Z) (f : iob) : M (bool * iob) :=
  let* c := load8 s in
  let* (r, f) := putc c f in
  ret (negb (r =? EOF), f).

(** The loop of [fputs] for line buffered streams. *)
Definition fputs_line_body : Z * Z * iob -> M (Z * Z * iob + Z * iob) :=
  fun '(s, total, f) =>
  let single s total f :=
    let* (ok, f) := put_next putc_line_buffered s f in
    if ok : bool then again (s + 1, total - 1, f) else leave (EOF, f) in
  if negb (0 <? total) then leave (OK, f)
  else if iob_BufferWriteBytes f <? iob_BufferSize f then
    let n := buffer_room f total in
    let* lf := memchr s 10 n in
    let n := if negb (lf =? NULL) then lf + 1 - s else n in
    let* f := append memmove f s n in
    let* (r, f) :=
      if negb (lf =? NULL) || iob_write_buffer_is_full f then flush_iob_write_buffer f
      else ret (OK, f) in
    if r <? 0 then leave (EOF, f)
    else if total - n =? 0 then leave (OK, f)
    else if iob_BufferWriteBytes f <? iob_BufferSize f then again (s + n, total - n, f)
    else single (s + n) (total - n) f
  else single s total f.

(** The loop of [fputs] for fully buffered streams. *)
Definition fputs_full_body : Z * Z * iob -> M (Z * Z * iob + Z * iob) :=
  fun '(s, total, f) =>
  let single s total f :=
    let* (ok, f) := put_next putc_fully_buffered s f in
    if ok : bool then again (s + 1, total - 1, f) else leave (EOF, f) in
  if negb (0 <? total) then leave (OK, f)
  else if (iob_BufferWriteBytes f =? 0) && (iob_BufferSize f <=? total) then
    let* n := write_r (iob_Descriptor f) s total in
    if n =? -1 then leave (EOF, SET_FLAG f IOBF_ERROR) else leave (OK, f)
  else if iob_BufferWriteBytes f <? iob_BufferSize f then
    let n := buffer_room f total in
    let* f := append memmove f s n in
    let* (r, f) :=
      if iob_write_buffer_is_full f then flush_iob_write_buffer f else ret (OK, f) in
    if r <? 0 then leave (EOF, f)
    else if total - n =? 0 then leave (OK, f)
    else if iob_BufferWriteBytes f <? iob_BufferSize f then again (s + n, total - n, f)
    else single (s + n) (total - n) f
  else single s total f.

(** What [fputs] and [puts] do at the end for unbuffered streams. *)
Definition flush_unbuffered (result : Z) (f : iob) : M (Z * iob) :=
  if (result =? OK) &&
     (Z.land (iob_Flags f) IOBF_BUFFER_MODE =? IOBF_BUFFER_MODE_NONE) &&
     iob_write_buffer_is_valid f
  then
    let* (r, f) := flush_iob_write_buffer f in
    if r <? 0 then ret (EOF, f) else ret (result, f)
  else ret (result, f).

Definition fputs_file (s : Z) (f : iob) : M (Z * iob) :=
  let* (r, f) := fputc_check f in
  let* (result, f) :=
    if r <? 0 then ret (EOF, f)
    else
      let* total_size := strlen s in
      if 0 <? total_size then
        let* mode := text_mode f in
        if mode =? IOBF_BUFFER_MODE_LINE then loop fputs_line_body (s, total_size, f)
        else if mode =? IOBF_BUFFER_MODE_NONE then
          let* n := write (iob_Descriptor f) s total_size in
          if n =? -1 then ret (EOF, SET_FLAG f IOBF_ERROR) else ret (OK, f)
        else loop fputs_full_body (s, total_size, f)
      else ret (OK, f) in
  flush_unbuffered result f.
Definition fputs (s : Z) (stream : option iob) : M (Z * option iob) :=
  if s =? NULL then set_errno EFAULT ;; ret (EOF, stream)
  else checked stream EOF (fputs_file s).

(** [puts] writes to [stdout], the stream given here. *)
Definition puts_body (mode : Z) : Z * iob -> M (Z * iob + Z * iob) := fun '(s, f) =>
  let* c := load8 s in
  if negb (c =? 0) then
    let* (r, f) := putc_mode c f mode in
    if r =? EOF then leave (EOF, f) else again (s + 1, f)
  else leave (OK, f).

Definition puts_file (s : Z) (f : iob) : M (Z * iob) :=
  let* mode := text_mode f in
  let* (r, f) := fputc_check f in
  let* (result, f) :=
    if r <? 0 then ret (EOF, f)
    else
      let* (r, f) := loop (puts_body mode) (s, f) in
      if r =? EOF then ret (EOF, f)
      else
        let* (r, f) := putc_mode 10 f mode in
        if r =? EOF then ret (EOF, f) else ret (OK, f) in
  flush_unbuffered result f.
Definition puts (s : Z) (stdout : option iob) : M (Z * option iob) :=
  if s =? NULL then set_errno EFAULT ;; ret (EOF, stdout)
  else checked stdout EOF (puts_file s).

(** The loops of [fwrite]; [inr] is [goto out], [inl] the end of the loop
    with [total_bytes_written]. *)
Definition fwrite_line_body : Z * Z * Z * iob -> M (Z * Z * Z * iob + Z * iob) :=
  fun '(s, total, written, f) =>
  let single s total written f :=
    let* (ok, f) := put_next putc_line_buffered s f in
    if ok : bool then again (s + 1, total - 1, written + 1, f) else leave (written, f) in
  if negb (0 <? total) then leave (written, f)
  else if iob_BufferWriteBytes f <? iob_BufferSize f then
    let n := buffer_room f total in
    let* lf := memchr s 10 n in
    let n := if negb (lf =? NULL) then lf + 1 - s else n in
    let* f := append memmove f s n in
    let* (r, f) :=
      if negb (lf =? NULL) || iob_write_buffer_is_full f then flush_iob_write_buffer f
      else ret (OK, f) in
    if r <? 0 then leave (written, f)
    else if total - n =? 0 then leave (written + n, f)
    else if iob_BufferWriteBytes f <? iob_BufferSize f
    then again (s + n, total - n, written + n, f)
    else single (s + n) (total - n) (written + n) f
  else single s total written f.

Definition fwrite_full_body : Z * Z * Z * iob -> M (Z * Z * Z * iob + option Z * iob) :=
  fun '(s, total, written, f) =>
  let single s total written f :=
    let* (ok, f) := put_next putc_fully_buffered s f in
    if ok : bool then again (s + 1, total, written + 1, f) else leave (None, f) in
  if negb (0 <? total) then leave (Some written, f)
  else if (iob_BufferWriteBytes f =? 0) && (iob_BufferSize f <=? total) then
    let* n := write_r (iob_Descriptor f) s total in
    if n =? -1 then leave (None, SET_FLAG f IOBF_ERROR) else leave (Some (written + n), f)
  else if iob_BufferWriteBytes f <? iob_BufferSize f then
    let n := buffer_room f total in
    let* f := append memcpy f s n in
    let* (r, f) :=
      if iob_write_buffer_is_full f then flush_iob_write_buffer f else ret (OK, f) in
    if r <? 0 then leave (Some written, f)
    else if total - n =? 0 then leave (Some (written + n), f)
    else if iob_BufferWriteBytes f <? iob_BufferSize f
    then again (s + n, total - n, written + n, f)
    else single (s + n) (total - n) (written + n) f
  else single s total written f.

Definition fwrite_file (ptr element_size count : Z) (f : iob) : M (Z * iob) :=
  if FLAG_IS_CLEAR (iob_Flags f) IOBF_IN_USE || FLAG_IS_CLEAR (iob_Flags f) IOBF_WRITE then
    set_errno EBADF ;; ret (0, SET_FLAG2 (SET_FLAG f IOBF_ERROR) SERR)
  else if (0 <? element_size) && (0 <? count) then
    let total_size := u32 (element_size * count) in
    if negb (element_size =? total_size / count) then ret (0, f)
    else
      let* mode := text_mode f in
      if mode =? IOBF_BUFFER_MODE_LINE then
        let* (written, f) := loop fwrite_line_body (ptr, total_size, 0, f) in
        ret (written / element_size, f)
      else if mode =? IOBF_BUFFER_MODE_NONE then
        let* n := write_r (iob_Descriptor f) ptr total_size in
        if n =? -1 then ret (0, SET_FLAG f IOBF_ERROR)
        else
          let* (_, f) :=
            if iob_write_buffer_is_valid f then flush_iob_write_buffer f else ret (OK, f) in
          ret (n / element_size, f)
      else
        let* (r, f) := loop fwrite_full_body (ptr, total_size, 0, f) in
        match r with
        | Some written => ret (written / element_size, f)
        | None => ret (0, f)
        end
  else ret (0, f).
Definition fwrite (ptr element_size count : Z) (stream : option iob) : M (Z * option iob) :=
  if ptr =? NULL then set_errno EFAULT ;; ret (0, stream)
  else checked stream 0 (fwrite_file ptr element_size count).

(** [fflush (NULL)]: every stream of the table [__clib4->__iob] in turn, up
    to the first that fails. *)
Definition pending (f : iob) : bool :=
  FLAG_IS_SET (iob_Flags f) IOBF_IN_USE && FLAG_IS_SET (iob_Flags f) IOBF_WRITE &&
  iob_write_buffer_is_valid f.

Fixpoint fflush_all (table : list (option iob)) : M (Z * list (option iob)) :=
  match table with
  | [] => ret (OK, [])
  | None :: rest => let* (r, rest) := fflush_all rest in ret (r, None :: rest)
  | Some f :: rest =>
      let* (r, f) := if pending f then flush_iob_write_buffer f else ret (OK, f) in
      if r <? 0 then ret (EOF, Some f :: rest)
      else let* (r, rest) := fflush_all rest in ret (r, Some f :: rest)
  end.
End Code.
