(* ===== verification/Streams.v ===== *)
(** * What the output functions do to a stream

    [Stream cap s f sent held]: in state [s] the stream [f] has sent [sent]
    to its destination and holds [held] in its buffer.  The destination is a
    file, the string of [sprintf] (of which [cap] bytes may be written) or
    that of [snprintf].  The lemmas follow the code from the flush of the
    buffer up to [fputs] and [fwrite]; each says that the characters put into
    the stream are added to [sent ++ held], and that nothing else changes. *)

From S2P Require Import Prelude CMem Cells CType Words StrScan StrCopy Stdio.

(** ** What is asked of dos.library

    A file that accepts data is one with an entry in [files]: a write of some
    bytes appends them.  Any other fails, with some error number. *)

Definition put_file (s : state) (i : Z) (l : list Z) : state :=
  mkState (mem s) (errno s) (<[i := l]> (files s)).

Class DosLaws `(Dos) : Prop := {
  fd_Action_write i s p l w :
    bytes_at (mem s) p l -> l <> [] -> files s !! i = Some w ->
    fd_Action i (file_action_write p (Z.of_nat (length l))) s =
    Ok (Z.of_nat (length l), OK) (put_file s i (w ++ l));
  fd_Action_fails i s p n :
    files s !! i = None ->
    exists e, fd_Action i (file_action_write p n) s = Ok (EOF, e) s;
}.

(** ** Memory seen from outside *)

Lemma bytes_at_same m m' p l :
  bytes_at m p l -> (forall a, p <= a < p + Z.of_nat (length l) -> m' !! a = m !! a) ->
  bytes_at m' p l.
Proof.
  intros Hb He. apply bytes_at_intro. intros i x Hi.
  pose proof (lookup_lt_Some _ _ _ Hi). rewrite He by lia. by eapply bytes_at_lookup.
Qed.

Lemma bytes_at_take m p n l : bytes_at m p l -> bytes_at m p (take n l).
Proof. intros Hb. apply (bytes_at_app m p (take n l) (drop n l)). by rewrite take_drop. Qed.

Lemma bytes_at_drop m p n l :
  bytes_at m p l -> (n <= length l)%nat -> bytes_at m (p + Z.of_nat n) (drop n l).
Proof.
  intros Hb Hn. rewrite <- (take_drop n l), bytes_at_app, length_take_le in Hb by done.
  apply Hb.
Qed.

Lemma cstr_same m m' p l :
  cstr m p l -> (forall a, p <= a < p + Z.of_nat (length l) + 1 -> m' !! a = m !! a) ->
  cstr m' p l.
Proof.
  intros (Hb & Hc & Hs) He. split; [|done]. eapply bytes_at_same; [done|].
  intros a Ha. apply He. rewrite length_app in Ha. simpl in Ha. lia.
Qed.

Lemma write_bytes_after m p l1 l2 :
  bytes_at m p l1 -> bytes_at (write_bytes m (p + Z.of_nat (length l1)) l2) p (l1 ++ l2).
Proof.
  intros H. apply bytes_at_app. split; [|apply write_bytes_at].
  apply write_bytes_frame; [done|]. unfold disj. lia.
Qed.

Lemma padded_length k l : length (padded k l) = k.
Proof. unfold padded. rewrite length_app, length_take, length_replicate. lia. Qed.

Lemma padded_full k l : (k <= length l)%nat -> padded k l = take k l.
Proof. intros Hk. unfold padded. replace (k - length l)%nat with 0%nat by lia. apply app_nil_r. Qed.

(** Writing behind the text of a zero-filled area. *)
Lemma padded_more m p k u l :
  (length u < k)%nat -> bytes_at m p (padded k u) ->
  bytes_at (write_bytes m (p + Z.of_nat (length u)) (take (k - length u) l)) p (padded k (u ++ l)).
Proof.
  intros Hu Hb. unfold padded in *. rewrite take_ge in Hb by lia. rewrite take_app, (take_ge u k) by lia.
  set (w := take (k - length u) l). assert (Hw : length w = ((k - length u) `min` length l)%nat) by apply length_take.
  rewrite length_app. apply bytes_at_app in Hb as [Hb1 Hb2].
  rewrite <- app_assoc. apply bytes_at_app. split; [apply write_bytes_frame; [done|unfold disj; lia]|].
  apply bytes_at_app. split; [apply write_bytes_at|].
  apply write_bytes_frame; [|rewrite length_replicate; unfold disj; lia].
  replace (k - length u)%nat with (length w + (k - (length u + length l)))%nat in Hb2 by lia.
  rewrite replicate_add, bytes_at_app, length_replicate in Hb2. apply Hb2.
Qed.

(** ** Flags *)

Lemma flag_set v f : Z.land v f = f -> f <> 0 -> FLAG_IS_SET v f = true /\ FLAG_IS_CLEAR v f = false.
Proof. intros H Hf. unfold FLAG_IS_SET, FLAG_IS_CLEAR. rewrite H. lia. Qed.

(** Open for writing. *)
Definition writable (v : Z) : Prop := Z.land v 48 = 48.

Lemma land_sub v m f : Z.land v m = m -> Z.land m f = f -> Z.land v f = f.
Proof. intros H1 H2. rewrite <- H2 at 1. by rewrite Z.land_assoc, H1. Qed.

Lemma writable_flags v :
  writable v ->
  FLAG_IS_SET v IOBF_IN_USE = true /\ FLAG_IS_CLEAR v IOBF_IN_USE = false /\
  FLAG_IS_CLEAR v IOBF_WRITE = false.
Proof.
  intros H. destruct (flag_set v IOBF_IN_USE); [by eapply land_sub|done|].
  destruct (flag_set v IOBF_WRITE); [by eapply land_sub|done|]. done.
Qed.

(** The buffering mode. *)
Definition mode (f : iob) : Z := Z.land (iob_Flags f) IOBF_BUFFER_MODE.

(** ** Streams *)

Section Streams.
Context `{HM : SysMem} `{HD : Dos}.

(** The bytes of memory that belong to the destination. *)
Definition out_len (cap : Z) (f : iob) : Z :=
  match iob_Action f with
  | iob_hook_entry => 0
  | vsprintf_hook_entry => cap
  | vsnprintf_hook_entry => iob_StringSize f
  end.

(** The file a stream writes to. *)
Definition target (f : iob) : option Z :=
  match iob_Action f with
  | iob_hook_entry => get_file_descriptor (iob_Descriptor f) true
  | _ => None
  end.

(** What has arrived. *)
Definition sink (cap : Z) (s : state) (f : iob) (l : list Z) : Prop :=
  match iob_Action f with
  | iob_hook_entry => exists i, target f = Some i /\ files s !! i = Some l
  | vsprintf_hook_entry =>
      0 < iob_String f /\ mapped (mem s) (iob_String f) cap /\ Z.of_nat (length l) <= cap /\
      bytes_at (mem s) (iob_String f) l /\ iob_StringPosition f = Z.of_nat (length l)
  | vsnprintf_hook_entry =>
      let k := Z.to_nat (iob_StringSize f) in
      (0 < iob_StringSize f -> 0 < iob_String f) /\ 0 <= iob_StringSize f /\
      mapped (mem s) (iob_String f) (iob_StringSize f) /\
      bytes_at (mem s) (iob_String f) (padded k l) /\
      iob_StringPosition f = Z.of_nat (length (take k l))
  end.

Record Stream (cap : Z) (s : state) (f : iob) (sent held : list Z) : Prop := {
  st_flags : writable (iob_Flags f);
  st_read : iob_BufferReadBytes f = 0;
  st_buffer : 0 < iob_Buffer f;
  st_size : Z.of_nat (length held) <= iob_BufferSize f /\ 0 < iob_BufferSize f;
  st_mapped : mapped (mem s) (iob_Buffer f) (iob_BufferSize f);
  st_apart : disj (iob_Buffer f) (iob_BufferSize f) (iob_String f) (out_len cap f);
  st_held : bytes_at (mem s) (iob_Buffer f) held;
  st_bytes : Forall is_byte held;
  st_count : iob_BufferWriteBytes f = Z.of_nat (length held);
  st_sent : sink cap s f sent;
}.

(** The memory a stream may write. *)
Definition foot (cap : Z) (f : iob) (a : Z) : Prop :=
  iob_Buffer f <= a < iob_Buffer f + iob_BufferSize f \/
  iob_String f <= a < iob_String f + out_len cap f.

(** From [s] and [f] to [s'] and [f'], only the stream has moved. *)
Record moved (cap : Z) (s : state) (f : iob) (s' : state) (f' : iob) : Prop := {
  mv_mem a : ~ foot cap f a -> mem s' !! a = mem s !! a;
  mv_mapped a : is_Some (mem s !! a) -> is_Some (mem s' !! a);
  mv_errno : errno s' = errno s;
  mv_files i : target f <> Some i -> files s' !! i = files s !! i;
  mv_iob : exists w p, f' = set_StringPosition (set_WriteBytes f w) p;
}.

Lemma moved_refl cap s f : moved cap s f s f.
Proof. split; try done. exists (iob_BufferWriteBytes f), (iob_StringPosition f). by destruct f. Qed.

Lemma moved_trans cap s1 f1 s2 f2 s3 f3 :
  moved cap s1 f1 s2 f2 -> moved cap s2 f2 s3 f3 -> moved cap s1 f1 s3 f3.
Proof.
  intros [A1 B1 C1 D1 (w1 & p1 & ->)] [A2 B2 C2 D2 (w2 & p2 & ->)]. split.
  - intros a Ha. rewrite A2 by done. by apply A1.
  - auto.
  - congruence.
  - intros i Hi. rewrite D2 by done. by apply D1.
  - by exists w2, p2.
Qed.

Lemma moved_foot cap s f s' f' a : moved cap s f s' f' -> foot cap f' a <-> foot cap f a.
Proof. by intros [_ _ _ _ (w & p & ->)]. Qed.

Lemma moved_mode cap s f s' f' : moved cap s f s' f' -> mode f' = mode f.
Proof. by intros [_ _ _ _ (w & p & ->)]. Qed.

Lemma moved_fields cap s f s' f' :
  moved cap s f s' f' ->
  iob_Buffer f' = iob_Buffer f /\ iob_BufferSize f' = iob_BufferSize f /\
  iob_Flags f' = iob_Flags f /\ iob_Descriptor f' = iob_Descriptor f /\
  iob_String f' = iob_String f /\ iob_Action f' = iob_Action f /\ target f' = target f.
Proof. by intros [_ _ _ _ (w & p & ->)]. Qed.

(** Data beside the stream stays as it is. *)
Definition aside (cap : Z) (f : iob) (p n : Z) : Prop :=
  forall a, p <= a < p + n -> ~ foot cap f a.

Lemma moved_bytes cap s f s' f' p l :
  moved cap s f s' f' -> aside cap f p (Z.of_nat (length l)) ->
  bytes_at (mem s) p l -> bytes_at (mem s') p l.
Proof. intros Hm Ha Hb. eapply bytes_at_same; [done|]. intros a Hin. eapply mv_mem; eauto. Qed.

Lemma moved_aside cap s f s' f' p n :
  moved cap s f s' f' -> aside cap f p n -> aside cap f' p n.
Proof. intros Hm Ha a Hin Hf. apply (Ha a Hin). by apply (moved_foot _ _ _ _ _ a Hm). Qed.

Lemma aside_sub cap f p n q k : aside cap f p n -> p <= q -> q + k <= p + n -> aside cap f q k.
Proof. intros Ha ?? a Hin. apply Ha. lia. Qed.

Lemma aside_disj cap f p n :
  aside cap f p n -> 0 < n -> 0 < iob_BufferSize f ->
  disj (iob_Buffer f) (iob_BufferSize f) p n.
Proof.
  intros Ha Hn Hs. unfold disj. unfold aside, foot in Ha.
  destruct (decide (iob_Buffer f + iob_BufferSize f <= p)); [by left|].
  destruct (decide (p + n <= iob_Buffer f)); [by right|].
  exfalso. refine (Ha (Z.max p (iob_Buffer f)) _ (or_introl _)); lia.
Qed.

(** ** Emptying the buffer *)

Context `{!SysMemLaws HM} `{!DosLaws HD}.

Lemma wrote_moved cap s f q l g :
  (forall a, q <= a < q + Z.of_nat (length l) -> foot cap f a) ->
  (exists w p, g = set_StringPosition (set_WriteBytes f w) p) ->
  moved cap s f (wrote s q l) g.
Proof.
  intros Hf Hg. split; [| |done|done|done].
  - intros a Ha. apply write_bytes_outside. naive_solver.
  - intros a Ha. rewrite mem_wrote, write_bytes_lookup. case_decide; [|done].
    apply lookup_lt_is_Some. lia.
Qed.

Lemma string_write cap s f sent l p n :
  iob_Action f = vsprintf_hook_entry \/ iob_Action f = vsnprintf_hook_entry ->
  0 < iob_String f -> 0 < p -> bytes_at (mem s) p l -> Forall is_byte l -> l <> [] ->
  bytes_at (mem s) (iob_String f) sent -> n = Z.of_nat (length sent) ->
  mapped (mem s) (iob_String f) (out_len cap f) ->
  Z.of_nat (length sent) + Z.of_nat (length l) <= out_len cap f ->
  disj p (Z.of_nat (length l)) (iob_String f) (out_len cap f) ->
  exists s', memmove (iob_String f + n) p (Z.of_nat (length l)) s = Ok (iob_String f + n) s' /\
    moved cap s f s' (set_StringPosition f (n + Z.of_nat (length l))) /\
    s' = wrote s (iob_String f + n) l /\ bytes_at (mem s') (iob_String f) (sent ++ l) /\
    only_in (mem s) (mem s') (iob_String f) (out_len cap f).
Proof.
  intros Ha Hs Hp Hb HF Hne Hsent -> Hm Hlen Hd.
  assert (0 < Z.of_nat (length l)) by (destruct l; [done|simpl; lia]). unfold disj in Hd.
  eexists. split; [apply memmove_ok; try done; try lia; eapply mapped_sub; [done|lia|lia]|].
  split; [|split; [done|split]].
  - apply wrote_moved; [right; lia|]. by exists (iob_BufferWriteBytes f), (Z.of_nat (length sent) + Z.of_nat (length l)).
  - by apply write_bytes_after.
  - apply only_in_write; lia.
Qed.

Lemma descriptor_entry d b i :
  get_file_descriptor d b = Some i -> exists e, fd_at d = Some e /\ fd_slot d = ret (Some e).
Proof.
  unfold get_file_descriptor, fd_slot. destruct (fd_at d) as [e|] eqn:E; [|done].
  intros _. exists e. split; [done|]. unfold fd_at in E. by destruct (_ || _).
Qed.

Lemma iob_same f : set_StringPosition f (iob_StringPosition f) = f.
Proof. by destruct f. Qed.

Lemma vsnprintf_write cap s f sent l p :
  iob_Action f = vsnprintf_hook_entry ->
  sink cap s f sent -> bytes_at (mem s) p l -> Forall is_byte l -> l <> [] -> 0 < p ->
  disj p (Z.of_nat (length l)) (iob_String f) (out_len cap f) ->
  exists s' q, vsnprintf_hook f (file_action_write p (Z.of_nat (length l))) s =
      Ok (Z.of_nat (length l), OK, set_StringPosition f q) s' /\
    moved cap s f s' (set_StringPosition f q) /\
    sink cap s' (set_StringPosition f q) (sent ++ l) /\
    only_in (mem s) (mem s') (iob_String f) (out_len cap f).
Proof.
  intros EA Hs Hb HF Hne Hp Hd. unfold sink, out_len in *. simpl. rewrite EA in *.
  destruct Hs as (Hpos & Hsz & Hm & Hsent & Hn). set (k := Z.to_nat (iob_StringSize f)) in *.
  assert (0 < Z.of_nat (length l)) by (destruct l; [done|simpl; lia]).
  rewrite take_app. rewrite length_take in Hn.
  destruct (decide (length sent < k)%nat) as [Hlt|Hge].
  - rewrite take_ge by lia. pose proof Hsent as Hpad. unfold padded in Hsent.
    rewrite take_ge in Hsent by lia. apply bytes_at_app in Hsent as [Hsent _].
    assert (Hmin : (if iob_StringSize f - iob_StringPosition f <? Z.of_nat (length l)
                    then iob_StringSize f - iob_StringPosition f else Z.of_nat (length l))
                   = Z.of_nat (length (take (k - length sent) l))).
    { rewrite length_take. destruct (Z.ltb_spec (iob_StringSize f - iob_StringPosition f) (Z.of_nat (length l))); lia. }
    destruct (string_write cap s f sent (take (k - length sent) l) p (iob_StringPosition f))
      as (s' & Hr & Hmv & Es & Hb' & Ho); unfold out_len; rewrite ?EA, ?length_take; try done; try lia.
    { by right. }
    { by apply bytes_at_take. }
    { by apply Forall_take. }
    { destruct (k - length sent)%nat eqn:E; [lia|]. by destruct l. }
    { unfold disj in *. lia. }
    exists s', (iob_StringPosition f + Z.of_nat (length (take (k - length sent) l))).
    rewrite !(proj2 (Z.ltb_lt _ _)) by lia. simpl. cbv zeta. rewrite Hmin.
    erewrite bind_ok by done. split; [done|]. split; [done|].
    unfold out_len in Ho. rewrite EA in Ho. split; [|done].
    split; [done|]. split; [done|].
    split; [intros a Ha; by apply (mv_mapped _ _ _ _ _ Hmv), Hm|].
    split; [|rewrite length_app; lia]. subst s'. rewrite mem_wrote, Hn.
    replace (k `min` length sent)%nat with (length sent) by lia. by apply padded_more.
  - exists s, (iob_StringPosition f). rewrite iob_same.
    replace (k - length sent)%nat with 0%nat by lia. rewrite take_0, app_nil_r.
    rewrite (padded_full k (sent ++ l)), take_app_le, <- (padded_full k sent) by (rewrite ?length_app; lia).
    split; [|split; [apply moved_refl|split; [|done]]].
    + destruct (Z.ltb_spec (iob_StringPosition f) (iob_StringSize f)); [lia|].
      by rewrite andb_false_r.
    + split; [done|]. split; [done|]. split; [done|]. split; [done|]. by rewrite padded_full, length_take by lia.
Qed.

(** The action of a stream takes all of a buffer of its own. *)
Lemma iob_action_write cap s f sent l p :
  sink cap s f sent -> bytes_at (mem s) p l -> Forall is_byte l -> l <> [] -> 0 < p ->
  disj p (Z.of_nat (length l)) (iob_String f) (out_len cap f) ->
  Z.of_nat (length (sent ++ l)) <= cap ->
  exists s' q, iob_action f (file_action_write p (Z.of_nat (length l))) s =
      Ok (Z.of_nat (length l), OK, set_StringPosition f q) s' /\
    moved cap s f s' (set_StringPosition f q) /\
    sink cap s' (set_StringPosition f q) (sent ++ l) /\
    only_in (mem s) (mem s') (iob_String f) (out_len cap f).
Proof.
  intros Hs Hb HF Hne Hp Hd Hc. unfold iob_action, sink in *.
  rewrite length_app in Hc.
  change (iob_Action (set_StringPosition f ?q)) with (iob_Action f).
  change (iob_String (set_StringPosition f ?q)) with (iob_String f).
  change (iob_StringSize (set_StringPosition f ?q)) with (iob_StringSize f).
  change (target (set_StringPosition f ?q)) with (target f).
  destruct (iob_Action f) eqn:EA.
  - destruct Hs as (i & Ht & Hf). unfold iob_hook. unfold target in Ht. rewrite EA in Ht.
    destruct (descriptor_entry _ _ _ Ht) as (e & _ & Hsl). rewrite Hsl.
    erewrite bind_ok by reflexivity. cbv beta iota. rewrite Ht.
    erewrite bind_ok by (by apply fd_Action_write). cbv beta iota.
    exists (put_file s i (sent ++ l)), (iob_StringPosition f). rewrite iob_same.
    split; [done|]. split; [|split; [|done]].
    + split; try done; [|by exists (iob_BufferWriteBytes f), (iob_StringPosition f); destruct f].
      intros j Hj. simpl. rewrite lookup_insert_ne; [done|]. intros ->. apply Hj.
      unfold target. by rewrite EA.
    + exists i. unfold target. rewrite EA. split; [done|]. apply lookup_insert_eq.
  - destruct Hs as (Hpos & Hm & _ & Hsent & Hn). unfold out_len in *. rewrite EA in *.
    destruct (string_write cap s f sent l p (iob_StringPosition f)) as (s' & Hr & Hmv & _ & Hb' & Ho);
      unfold out_len; rewrite ?EA; try done; try lia; [by left|].
    exists s', (iob_StringPosition f + Z.of_nat (length l)). simpl. unfold vsprintf_hook.
    erewrite bind_ok by done. split; [done|]. split; [done|].
    unfold out_len in Ho. rewrite EA in Ho. split; [|done]. split; [done|].
    split; [intros a Ha; by apply (mv_mapped _ _ _ _ _ Hmv), Hm|].
    rewrite length_app. split; [lia|]. split; [done|]. lia.
  - destruct (vsnprintf_write cap s f sent l p) as (s' & q & Hr & Hmv & Hs' & Ho); try done.
    { unfold sink. by rewrite EA. }
    exists s', q. split; [done|]. split; [done|]. unfold sink in Hs'. simpl in Hs'.
    by rewrite EA in Hs'.
Qed.

(** What a buffering mode promises between two calls. *)
Definition calm (m : Z) (held : list Z) : Prop :=
  (m = IOBF_BUFFER_MODE_NONE -> held = []) /\ (m = IOBF_BUFFER_MODE_LINE -> 10 ∉ held).

(** The outcome [o] of a call returns [r] and leaves a stream into which [L]
    has been put in all. *)
Definition emits (cap m : Z) (s : state) (f : iob) (L : list Z) (r : Z)
    (o : outcome (Z * iob)) : Prop :=
  exists s' f' sent held, o = Ok (r, f') s' /\ L = sent ++ held /\
    Stream cap s' f' sent held /\ moved cap s f s' f' /\ calm m held.

Lemma calm_nil m : calm m [].
Proof. split; [done|]. intros _ H. inversion H. Qed.

Lemma emits_move cap m s f s1 f1 L r o :
  moved cap s f s1 f1 -> emits cap m s1 f1 L r o -> emits cap m s f L r o.
Proof.
  intros Hm (s' & f' & sent & held & Ho & HL & Hst & Hm' & Hc).
  exists s', f', sent, held. split_and!; eauto using moved_trans.
Qed.

Lemma sink_same cap s s' f f' l :
  sink cap s f l -> (exists w, f' = set_WriteBytes f w) ->
  (forall a, iob_String f <= a < iob_String f + out_len cap f -> mem s' !! a = mem s !! a) ->
  files s' = files s -> sink cap s' f' l.
Proof.
  intros Hs (w & ->) Hm Hf. unfold sink, out_len, target in *. simpl.
  destruct (iob_Action f); rewrite ?Hf; [done| |].
  - destruct Hs as (? & Hmp & ? & Hb & ?). split_and!; try done.
    + intros a Ha. rewrite Hm by lia. by apply Hmp.
    + eapply bytes_at_same; [done|]. intros a Ha. apply Hm. lia.
  - destruct Hs as (? & ? & Hmp & Hb & ?). split_and!; try done.
    + intros a Ha. rewrite Hm by lia. by apply Hmp.
    + eapply bytes_at_same; [done|]. intros a Ha. apply Hm. rewrite padded_length in Ha. lia.
Qed.

Lemma flush_ok cap s f sent held :
  Stream cap s f sent held -> Z.of_nat (length (sent ++ held)) <= cap ->
  exists s' f', flush_iob_write_buffer f s = Ok (OK, f') s' /\
    Stream cap s' f' (sent ++ held) [] /\ moved cap s f s' f'.
Proof.
  intros Hst Hc. pose proof Hst as [Hfl Hrd Hbuf [Hsz Hpos] Hmp Hap Hh Hby Hct Hsk].
  unfold flush_iob_write_buffer. rewrite (proj1 (writable_flags _ Hfl)). simpl. rewrite Hct.
  destruct held as [|c held].
  { exists s, f. rewrite app_nil_r. split; [done|]. split; [done|apply moved_refl]. }
  rewrite (proj2 (Z.ltb_lt _ _)) by (simpl; lia).
  destruct (iob_action_write cap s f sent (c :: held) (iob_Buffer f)) as
    (s' & q & Hr & Hmv & Hsk' & Ho); try done.
  { unfold disj in *. lia. }
  erewrite bind_ok by exact Hr. cbv beta iota.
  rewrite (proj2 (Z.eqb_neq _ EOF)) by (unfold EOF; lia).
  exists s', (set_WriteBytes (set_StringPosition f q) 0). split; [done|]. split.
  - split; try done; [simpl; lia|].
    intros a Ha. by apply (mv_mapped _ _ _ _ _ Hmv), Hmp.
  - destruct Hmv as [A B C D _]. split; try done. by exists 0, q.
Qed.

Lemma push_ok cap s f sent held c :
  Stream cap s f sent held -> is_byte c -> iob_BufferWriteBytes f < iob_BufferSize f ->
  exists s' f', push c f s = Ok f' s' /\ Stream cap s' f' sent (held ++ [c]) /\
    moved cap s f s' f' /\ iob_BufferWriteBytes f' = iob_BufferWriteBytes f + 1.
Proof.
  intros [Hfl Hrd Hbuf [Hsz Hpos] Hmp Hap Hh Hby Hct Hsk] Hc Hlt. unfold push.
  erewrite bind_ok by (apply store8_wrote; [done|apply Hmp; lia]).
  eexists _, _. split; [done|]. rewrite Hct in *.
  assert (Hmv : moved cap s f (wrote s (iob_Buffer f + Z.of_nat (length held)) [c])
    (set_WriteBytes f (Z.of_nat (length held) + 1))).
  { apply wrote_moved; [simpl; left; lia|].
    exists (Z.of_nat (length held) + 1), (iob_StringPosition f). by destruct f. }
  split; [|done]. split; try done; simpl.
  - rewrite length_app. simpl. lia.
  - intros a Ha. by apply (mv_mapped _ _ _ _ _ Hmv), Hmp.
  - by apply (write_bytes_after _ _ _ [c]).
  - apply Forall_app. split; [done|]. by apply Forall_singleton.
  - rewrite length_app. simpl. lia.
  - eapply sink_same; [done|by eexists| |done]. intros a Ha. rewrite mem_wrote.
    apply write_bytes_outside. simpl. unfold disj in Hap. lia.
Qed.

(** [append] copies [l] behind what is held. *)
Lemma append_ok cap s f sent held copy p l :
  copy = memmove \/ copy = memcpy ->
  Stream cap s f sent held -> bytes_at (mem s) p l -> Forall is_byte l -> l <> [] -> 0 < p ->
  aside cap f p (Z.of_nat (length l)) ->
  iob_BufferWriteBytes f + Z.of_nat (length l) <= iob_BufferSize f ->
  exists s' f', append copy f p (Z.of_nat (length l)) s = Ok f' s' /\
    Stream cap s' f' sent (held ++ l) /\ moved cap s f s' f' /\
    iob_BufferWriteBytes f' = iob_BufferWriteBytes f + Z.of_nat (length l).
Proof.
  intros Hcp [Hfl Hrd Hbuf [Hsz Hpos] Hmp Hap Hh Hby Hct Hsk] Hb HF Hne Hp Has Hle. unfold append.
  assert (0 < Z.of_nat (length l)) by (destruct l; [done|simpl; lia]).
  pose proof (aside_disj _ _ _ _ Has ltac:(lia) Hpos) as Hd. unfold disj in Hd.
  rewrite Hct in *.
  assert (Hr : copy (iob_Buffer f + Z.of_nat (length held)) p (Z.of_nat (length l)) s =
    Ok (iob_Buffer f + Z.of_nat (length held)) (wrote s (iob_Buffer f + Z.of_nat (length held)) l)).
  { assert (mapped (mem s) (iob_Buffer f + Z.of_nat (length held)) (Z.of_nat (length l)))
      by (eapply mapped_sub; [done|lia|lia]).
    destruct Hcp as [-> | ->]; [apply memmove_ok|apply memcpy_ok]; try done; try lia.
    split_and!; try done. unfold disj. lia. }
  erewrite bind_ok by exact Hr. eexists _, _. split; [done|].
  assert (Hmv : moved cap s f (wrote s (iob_Buffer f + Z.of_nat (length held)) l)
    (set_WriteBytes f (Z.of_nat (length held) + Z.of_nat (length l)))).
  { apply wrote_moved; [simpl; left; lia|].
    exists (Z.of_nat (length held) + Z.of_nat (length l)), (iob_StringPosition f). by destruct f. }
  split; [|done]. split; try done; simpl.
  - rewrite length_app. lia.
  - intros a Ha. by apply (mv_mapped _ _ _ _ _ Hmv), Hmp.
  - by apply write_bytes_after.
  - by apply Forall_app.
  - rewrite length_app. lia.
  - eapply sink_same; [done|by eexists| |done]. intros a Ha. apply write_bytes_outside.
    unfold disj in Hap. lia.
Qed.

(** ** Putting characters *)

Lemma emits_flush cap m s f sent held :
  Stream cap s f sent held -> Z.of_nat (length (sent ++ held)) <= cap ->
  emits cap m s f (sent ++ held) OK (flush_iob_write_buffer f s).
Proof.
  intros Hst Hc. destruct (flush_ok _ _ _ _ _ Hst Hc) as (s' & f' & Hr & Hst' & Hm).
  exists s', f', (sent ++ held), []. rewrite app_nil_r. auto using calm_nil.
Qed.

(** The buffer is emptied when [b] holds, otherwise what is held suits the
    mode already. *)
Lemma emits_flush_if cap m s f sent held (b : bool) :
  Stream cap s f sent held -> Z.of_nat (length (sent ++ held)) <= cap ->
  (b = false -> calm m held) ->
  emits cap m s f (sent ++ held) OK ((if b then flush_iob_write_buffer f else ret (OK, f)) s).
Proof.
  intros Hst Hc Hb. destruct b; [by apply emits_flush|].
  exists s, f, sent, held. split_and!; auto using moved_refl.
Qed.

Lemma emits_ret cap m s f L r o g r' :
  emits cap m s f L r o -> (forall f' s', g (r, f') s' = Ok (r', f') s') ->
  emits cap m s f L r' (match o with Ok a s' => g a s' | Fault => Fault | Timeout => Timeout end).
Proof.
  intros (s' & f' & sent & held & -> & HL & Hst & Hm & Hcm) Hg.
  exists s', f', sent, held. by rewrite Hg.
Qed.

Lemma land255 c : is_byte c -> Z.land c 255 = c.
Proof. intros Hc. change 255 with (Z.ones 8). rewrite Z.land_ones by lia. apply Z.mod_small. zlia. Qed.

(** A full buffer is emptied first. *)
Lemma make_room cap s f sent held :
  Stream cap s f sent held -> Z.of_nat (length (sent ++ held)) <= cap ->
  exists s' f' sent' held',
    (if iob_write_buffer_is_full f then flush_iob_write_buffer f else ret (OK, f)) s = Ok (OK, f') s' /\
    Stream cap s' f' sent' held' /\ sent ++ held = sent' ++ held' /\
    moved cap s f s' f' /\ iob_BufferWriteBytes f' < iob_BufferSize f' /\
    (held' = held \/ held' = []).
Proof.
  intros Hst Hc. pose proof Hst as [Hfl Hrd Hbuf [Hsz Hpos] Hmp Hap Hh Hby Hct Hsk].
  unfold iob_write_buffer_is_full. rewrite (proj2 (Z.ltb_lt _ _)) by lia. simpl.
  destruct (Z.eqb_spec (iob_BufferWriteBytes f) (iob_BufferSize f)).
  - destruct (flush_ok _ _ _ _ _ Hst Hc) as (s' & f' & Hr & Hst' & Hm).
    exists s', f', (sent ++ held), []. rewrite app_nil_r. split_and!; auto.
    destruct Hst' as [_ _ _ [_ ?] _ _ _ _ -> _]. simpl. lia.
  - exists s, f, sent, held. split_and!; auto using moved_refl. lia.
Qed.

(** The [putc] macros fill the buffer before they look at the mode: between
    two of them an unbuffered stream may hold characters. *)
Definition lazy_mode (m : Z) : Z := if m =? IOBF_BUFFER_MODE_NONE then IOBF_BUFFER_MODE_FULL else m.

Lemma calm_lazy m held : calm m held -> calm (lazy_mode m) held.
Proof.
  unfold lazy_mode. destruct (Z.eqb_spec m IOBF_BUFFER_MODE_NONE); [|done].
  by intros _; split.
Qed.

Lemma emits_weaken cap m s f L r o : emits cap m s f L r o -> emits cap (lazy_mode m) s f L r o.
Proof.
  intros (s' & f' & sent & held & H). exists s', f', sent, held. naive_solver eauto using calm_lazy.
Qed.

Lemma calm_snoc m held c :
  calm (lazy_mode m) held -> (m =? IOBF_BUFFER_MODE_LINE) && (c =? 10) = false ->
  calm (lazy_mode m) (held ++ [c]).
Proof.
  unfold lazy_mode. destruct (Z.eqb_spec m IOBF_BUFFER_MODE_NONE); [by split|].
  intros [H1 H2] Hb. split; [done|]. intros Hm. specialize (H2 Hm).
  assert (c <> 10) by lia. intros Hin%elem_of_app.
  destruct Hin as [Hin|Hin%list_elem_of_singleton]; done.
Qed.

Lemma calm_eager m held :
  calm (lazy_mode m) held -> (m =? IOBF_BUFFER_MODE_NONE) = false -> calm m held.
Proof. unfold lazy_mode. intros H E. by rewrite E in H. Qed.

Lemma fputc_mode_ok cap m s f sent held c :
  Stream cap s f sent held -> is_byte c -> calm (lazy_mode m) held ->
  Z.of_nat (length (sent ++ held)) + 1 <= cap ->
  emits cap m s f ((sent ++ held) ++ [c]) c (fputc_mode c f m s).
Proof.
  intros Hst Hc Hcm Hcap. unfold fputc_mode.
  destruct (make_room cap s f sent held) as (s1 & f1 & sent1 & held1 & Hr & Hst1 & HL & Hm1 & Hlt & Hh);
    [done|lia|].
  erewrite bind_ok by exact Hr. cbv beta iota. change (OK <? 0) with false. cbv iota.
  destruct (push_ok cap s1 f1 sent1 held1 c) as (s2 & f2 & Hr2 & Hst2 & Hm2 & _); [done..|].
  erewrite bind_ok by exact Hr2. cbv beta.
  rewrite HL, <- app_assoc. rewrite land255 by done.
  apply (emits_move _ _ _ _ s2 f2); [by eapply moved_trans|].
  destruct ((m =? IOBF_BUFFER_MODE_NONE) || _) eqn:Eb.
  - eapply emits_ret; [apply emits_flush; [done|rewrite app_assoc, <- HL, length_app; simpl; lia]|].
    done.
  - exists s2, f2, sent1, (held1 ++ [c]). split_and!; auto using moved_refl.
    apply orb_false_iff in Eb as [E1 E2]. apply calm_eager; [|done]. apply calm_snoc; [|done].
    by destruct Hh as [-> | ->]; auto using calm_nil.
Qed.

Lemma flush_r_ok cap m s f sent held c :
  Stream cap s f sent (held ++ [c]) -> is_byte c ->
  Z.of_nat (length (sent ++ held)) + 1 <= cap ->
  emits cap m s f ((sent ++ held) ++ [c]) c (flush_r f s).
Proof.
  intros Hst Hc Hcap. unfold flush_r.
  erewrite bind_ok.
  2:{ apply load8_ok. pose proof (st_held _ _ _ _ _ Hst) as Hb.
      rewrite (st_count _ _ _ _ _ Hst). apply (bytes_at_lookup _ _ _ (length held) c) in Hb;
        [|by apply list_lookup_middle].
      rewrite length_app. simpl.
      replace (iob_Buffer f + (Z.of_nat (length held + 1) - 1))
        with (iob_Buffer f + Z.of_nat (length held)) by lia. exact Hb. }
  cbv beta. rewrite <- app_assoc.
  eapply emits_ret; [apply emits_flush; [done|rewrite app_assoc, length_app; simpl; lia]|]. done.
Qed.

Lemma fputc_check_ok cap s f sent held :
  Stream cap s f sent held -> fputc_check f s = Ok (OK, f) s.
Proof.
  intros [Hfl Hrd _ _ _ _ _ _ _ _]. unfold fputc_check.
  destruct (writable_flags _ Hfl) as (_ & -> & ->).
  unfold iob_read_buffer_is_valid. by rewrite Hrd.
Qed.

Lemma fputc_file_ok cap s f sent held c :
  Stream cap s f sent held -> is_byte c -> calm (mode f) held ->
  Z.of_nat (length (sent ++ held)) + 1 <= cap ->
  emits cap (mode f) s f ((sent ++ held) ++ [c]) c (fputc_file c f s).
Proof.
  intros Hst. intros. unfold fputc_file.
  erewrite bind_ok by (by eapply fputc_check_ok). change (OK <? 0) with false. cbv beta iota.
  apply fputc_mode_ok; auto using calm_lazy.
Qed.

(** A character pushed into a buffer with room, flushed when [b] holds. *)
Lemma push_emits cap m s f sent held c (b : bool) (k : iob -> M (Z * iob)) :
  Stream cap s f sent held -> is_byte c -> iob_BufferWriteBytes f < iob_BufferSize f ->
  Z.of_nat (length (sent ++ held)) + 1 <= cap ->
  (b = false -> calm m (held ++ [c])) ->
  (forall f', mode f' = mode f -> k f' = if b then flush_r f' else ret (c, f')) ->
  emits cap m s f ((sent ++ held) ++ [c]) c ((let* f' := push c f in k f') s).
Proof.
  intros Hst Hc Hlt Hcap Hcm Hk.
  destruct (push_ok cap s f sent held c) as (s2 & f2 & Hr2 & Hst2 & Hm2 & _); [done..|].
  erewrite bind_ok by exact Hr2. rewrite Hk by (by eapply moved_mode).
  apply (emits_move _ _ _ _ s2 f2); [done|]. destruct b.
  - by apply flush_r_ok.
  - exists s2, f2, sent, (held ++ [c]). rewrite app_assoc. split_and!; auto using moved_refl.
Qed.

Lemma putc_mode_ok cap m s f sent held c :
  Stream cap s f sent held -> is_byte c -> calm (lazy_mode m) held ->
  Z.of_nat (length (sent ++ held)) + 1 <= cap ->
  emits cap (lazy_mode m) s f ((sent ++ held) ++ [c]) c (putc_mode c f m s).
Proof.
  intros Hst Hc Hcm Hcap. unfold putc_mode.
  destruct (Z.ltb_spec (iob_BufferWriteBytes f) (iob_BufferSize f)).
  - eapply push_emits; try done; [by apply calm_snoc|]. intros f' _. by rewrite land255.
  - by apply emits_weaken, fputc_mode_ok.
Qed.

Lemma putc_line_buffered_ok cap s f sent held c :
  Stream cap s f sent held -> is_byte c -> calm IOBF_BUFFER_MODE_LINE held ->
  Z.of_nat (length (sent ++ held)) + 1 <= cap ->
  emits cap IOBF_BUFFER_MODE_LINE s f ((sent ++ held) ++ [c]) c (putc_line_buffered c f s).
Proof.
  intros Hst Hc Hcm Hcap. exact (putc_mode_ok cap IOBF_BUFFER_MODE_LINE s f sent held c Hst Hc Hcm Hcap).
Qed.

Lemma putc_fully_buffered_ok cap s f sent held c :
  Stream cap s f sent held -> is_byte c ->
  Z.of_nat (length (sent ++ held)) + 1 <= cap ->
  emits cap IOBF_BUFFER_MODE_FULL s f ((sent ++ held) ++ [c]) c (putc_fully_buffered c f s).
Proof.
  intros Hst Hc Hcap. unfold putc_fully_buffered.
  destruct (Z.ltb_spec (iob_BufferWriteBytes f) (iob_BufferSize f)).
  - eapply (push_emits _ _ _ _ _ _ _ false); try done. intros f' _. by rewrite u8_id.
  - by apply fputc_mode_ok.
Qed.

Lemma putc_unlocked_ok cap s f sent held c :
  Stream cap s f sent held -> is_byte c -> calm (mode f) held ->
  Z.of_nat (length (sent ++ held)) + 1 <= cap ->
  emits cap (mode f) s f ((sent ++ held) ++ [c]) c (putc_unlocked c f s).
Proof.
  intros Hst Hc Hcm Hcap. unfold putc_unlocked.
  destruct (_ && _ && _) eqn:Eb; [|by apply fputc_file_ok].
  apply andb_true_iff in Eb as [[_ Hn]%andb_true_iff Hlt%Z.ltb_lt]. apply negb_true_iff in Hn.
  eapply (push_emits _ _ _ _ _ _ _ ((mode f =? IOBF_BUFFER_MODE_LINE) && (c =? 10))); try done.
  - intros. apply calm_eager; [|done]. apply calm_snoc; [by apply calm_lazy|done].
  - intros f' Hf. fold (mode f'). by rewrite Hf, u8_id.
Qed.

(** ** Writing behind the buffer *)

(** The stream of a file that can be written to. *)
Definition direct (f : iob) : Prop :=
  iob_Action f = iob_hook_entry /\
  exists i e, target f = Some i /\ fd_at i = Some e /\
    FLAG_IS_CLEAR (fd_Flags e) FDF_IN_USE = false /\
    FLAG_IS_CLEAR (fd_Flags e) FDF_WRITE = false /\
    FLAG_IS_SET (fd_Flags e) FDF_IS_SOCKET = false.

Lemma moved_direct cap s f s' f' : moved cap s f s' f' -> direct f -> direct f'.
Proof. by intros [_ _ _ _ (w & p & ->)]. Qed.

Lemma write_r_ok cap m s f sent p l :
  Stream cap s f sent [] -> direct f -> bytes_at (mem s) p l -> l <> [] -> 0 < p ->
  Z.of_nat (length l) < 2147483648 ->
  exists s', write_r (iob_Descriptor f) p (Z.of_nat (length l)) s = Ok (Z.of_nat (length l)) s' /\
    Stream cap s' f (sent ++ l) [] /\ moved cap s f s' f /\ calm m [].
Proof.
  intros Hst (HA & i & e & Ht & He & Hu & Hw & Hsk) Hb Hl Hp H31. unfold write_r.
  rewrite (proj2 (Z.eqb_neq p NULL)) by (unfold NULL; lia).
  assert (Hg : get_file_descriptor (iob_Descriptor f) true = Some i) by (unfold target in Ht; by rewrite HA in Ht).
  rewrite Hg, He, Hu, Hw, Hsk. cbv [andb negb].
  assert (0 < Z.of_nat (length l)) by (destruct l; [done|simpl; lia]).
  rewrite (proj2 (Z.ltb_lt _ _)) by done.
  destruct Hst as [Hfl Hrd Hbuf Hsz Hmp Hap Hh Hby Hct Hs].
  assert (Hfs : files s !! i = Some sent).
  { unfold sink in Hs. rewrite HA in Hs. destruct Hs as (i' & Hi' & Hf). by simplify_eq. }
  rewrite s32_id by lia. erewrite bind_ok by (by apply fd_Action_write). cbv beta iota.
  rewrite (proj2 (Z.eqb_neq _ EOF)) by (unfold EOF; lia). rewrite u32_id, Z.eqb_refl by lia.
  exists (put_file s i (sent ++ l)). split; [done|]. split_and!; [| |apply calm_nil].
  - split; try done. unfold sink. rewrite HA. exists i. split; [done|]. apply lookup_insert_eq.
  - split; try done; [|exists (iob_BufferWriteBytes f), (iob_StringPosition f); by destruct f].
    intros j Hj. simpl. rewrite lookup_insert_ne; [done|]. congruence.
Qed.

Lemma text_mode_ok f s :
  direct f -> exists m, text_mode f s = Ok m s /\
    (m = mode f \/ (mode f = IOBF_BUFFER_MODE_NONE /\ m = IOBF_BUFFER_MODE_LINE)).
Proof.
  intros (HA & i & e & Ht & _). unfold text_mode. fold (mode f).
  destruct (Z.eqb_spec (mode f) IOBF_BUFFER_MODE_NONE) as [E|E]; [|exists (mode f); by split; [|left]].
  unfold target in Ht. rewrite HA in Ht. destruct (descriptor_entry _ _ _ Ht) as (e' & _ & ->).
  erewrite bind_ok by reflexivity. cbv beta iota.
  destruct (FLAG_IS_SET _ _); eexists; (split; [done|]); auto.
Qed.

(** ** Runs of bytes *)

(** Into the stream of [s] and [f], [L] has been put in all. *)
Definition emitted (cap m : Z) (s : state) (f : iob) (L : list Z) (s' : state) (f' : iob) : Prop :=
  exists sent held, L = sent ++ held /\ Stream cap s' f' sent held /\
    moved cap s f s' f' /\ calm m held.

Lemma emits_emitted cap m s f L r o :
  emits cap m s f L r o <-> exists s' f', o = Ok (r, f') s' /\ emitted cap m s f L s' f'.
Proof. unfold emits, emitted. naive_solver. Qed.

(** The bytes [l] at [p], beside the stream. *)
Record source (cap : Z) (s : state) (f : iob) (p : Z) (l : list Z) : Prop := {
  src_at : bytes_at (mem s) p l;
  src_bytes : Forall is_byte l;
  src_space : in_space p (Z.of_nat (length l));
  src_aside : aside cap f p (Z.of_nat (length l));
  src_int : Z.of_nat (length l) < 2147483648;
}.

Lemma source_move cap s f s' f' p l :
  moved cap s f s' f' -> source cap s f p l -> source cap s' f' p l.
Proof. intros Hm [A B C D E]. split; eauto using moved_bytes, moved_aside. Qed.

Lemma source_app cap s f p l1 l2 :
  source cap s f p (l1 ++ l2) ->
  source cap s f p l1 /\ source cap s f (p + Z.of_nat (length l1)) l2.
Proof.
  intros [A B [C1 C2] D E]. apply bytes_at_app in A as [A1 A2]. apply Forall_app in B as [B1 B2].
  rewrite length_app in *. split; (split; [done|done| | |lia]).
  - split; lia.
  - eapply aside_sub; [done|lia|lia].
  - split; lia.
  - eapply aside_sub; [done|lia|lia].
Qed.

(** A part of the data goes into the buffer, which is emptied when [b]. *)
Lemma chunk_ok cap m s f sent held copy p l (b : iob -> bool) :
  copy = memmove \/ copy = memcpy ->
  Stream cap s f sent held -> source cap s f p l -> l <> [] ->
  iob_BufferWriteBytes f + Z.of_nat (length l) <= iob_BufferSize f ->
  Z.of_nat (length (sent ++ held ++ l)) <= cap ->
  (forall f', iob_BufferWriteBytes f' = iob_BufferWriteBytes f + Z.of_nat (length l) ->
     iob_BufferSize f' = iob_BufferSize f -> b f' = false -> calm m (held ++ l)) ->
  exists s1 f1 s' f', append copy f p (Z.of_nat (length l)) s = Ok f1 s1 /\
    (if b f1 then flush_iob_write_buffer f1 else ret (OK, f1)) s1 = Ok (OK, f') s' /\
    emitted cap m s f ((sent ++ held) ++ l) s' f' /\
    (b f1 = true -> iob_BufferWriteBytes f' = 0) /\
    iob_BufferWriteBytes f1 = iob_BufferWriteBytes f + Z.of_nat (length l) /\
    iob_BufferSize f1 = iob_BufferSize f.
Proof.
  intros Hcp Hst [Hb HF [Hp _] Ha _] Hl Hroom Hcap Hcm.
  destruct (append_ok cap s f sent held copy p l) as (s1 & f1 & Hr & Hst1 & Hm1 & Hw); try done.
  assert (Hsz : iob_BufferSize f1 = iob_BufferSize f) by (by destruct (moved_fields _ _ _ _ _ Hm1) as (_ & ? & _)).
  destruct (b f1) eqn:Eb.
  - destruct (flush_ok cap s1 f1 sent (held ++ l)) as (s' & f' & Hf & Hst' & Hm'); [done..|].
    exists s1, f1, s', f'. rewrite Eb. split_and!; try done.
    + exists (sent ++ held ++ l), []. rewrite app_nil_r, app_assoc.
      split_and!; eauto using moved_trans, calm_nil. by rewrite <- app_assoc.
    + intros _. by rewrite (st_count _ _ _ _ _ Hst').
  - exists s1, f1, s1, f1. rewrite Eb. split_and!; try done.
    exists sent, (held ++ l). rewrite app_assoc. split_and!; eauto.
Qed.

Lemma buffer_room_ok f (l : list Z) :
  iob_BufferWriteBytes f < iob_BufferSize f -> l <> [] ->
  exists n, buffer_room f (Z.of_nat (length l)) = Z.of_nat n /\ (0 < n <= length l)%nat /\
    iob_BufferWriteBytes f + Z.of_nat n <= iob_BufferSize f /\
    ((n < length l)%nat -> iob_BufferWriteBytes f + Z.of_nat n = iob_BufferSize f).
Proof.
  intros Hlt Hl. unfold buffer_room.
  assert (0 < length l)%nat by (destruct l; [done|simpl; lia]).
  exists (Z.to_nat (if Z.of_nat (length l) <? iob_BufferSize f - iob_BufferWriteBytes f
                    then Z.of_nat (length l) else iob_BufferSize f - iob_BufferWriteBytes f)).
  destruct (Z.ltb_spec (Z.of_nat (length l)) (iob_BufferSize f - iob_BufferWriteBytes f));
    split_and!; lia.
Qed.

(** What the line loops put into a buffer with room: up to a line feed, or
    as much as fits. *)
Lemma line_part s f p l :
  iob_BufferWriteBytes f < iob_BufferSize f -> l <> [] ->
  bytes_at (mem s) p l -> Forall is_byte l -> in_space p (Z.of_nat (length l)) ->
  exists l1 l2 lf, l = l1 ++ l2 /\ l1 <> [] /\
    memchr p 10 (buffer_room f (Z.of_nat (length l))) s = Ok lf s /\
    (if negb (lf =? NULL) then lf + 1 - p else buffer_room f (Z.of_nat (length l))) =
      Z.of_nat (length l1) /\
    iob_BufferWriteBytes f + Z.of_nat (length l1) <= iob_BufferSize f /\
    (lf = NULL -> 10 ∉ l1) /\
    (lf = NULL -> l2 <> [] -> iob_BufferWriteBytes f + Z.of_nat (length l1) = iob_BufferSize f).
Proof.
  intros Hlt Hl Hb HF [Hp Hsp]. destruct (buffer_room_ok f l Hlt Hl) as (n & -> & Hn & Hfit & Hfull).
  assert (Hlen : length (take n l) = n) by (rewrite length_take; lia).
  assert (Hmc : memchr p 10 (Z.of_nat n) s = Ok (ptr_at p (find_byte 10 (take n l))) s).
  { rewrite <- Hlen at 1. change 10 with (u8 10) at 2. apply memchr_ok.
    - by apply bytes_at_take.
    - by apply Forall_take.
    - destruct n; [lia|]. by destruct l.
    - split; lia. }
  destruct (find_byte 10 (take n l)) as [i|] eqn:Ef; simpl in Hmc.
  - apply find_byte_Some in Ef as [Hi Hbefore]. pose proof (lookup_lt_Some _ _ _ Hi).
    assert (Hl1 : length (take (S i) l) = S i) by (rewrite length_take; lia).
    exists (take (S i) l), (drop (S i) l), (p + Z.of_nat i). rewrite Hl1.
    rewrite (proj2 (Z.eqb_neq _ NULL)) by (unfold NULL; lia). simpl negb. cbv iota.
    split_and!; try done; try (unfold NULL; lia); [by rewrite take_drop|by destruct l].
  - apply find_byte_None in Ef. exists (take n l), (drop n l), NULL. rewrite Hlen.
    split_and!; try done; [by rewrite take_drop|by destruct n, l; try lia|].
    intros _ Hd. apply Hfull. destruct (decide (n < length l)%nat); [done|].
    by rewrite drop_ge in Hd by lia.
Qed.

Lemma line_chunk cap s f sent held p l :
  Stream cap s f sent held -> calm IOBF_BUFFER_MODE_LINE held -> source cap s f p l -> l <> [] ->
  iob_BufferWriteBytes f < iob_BufferSize f -> Z.of_nat (length (sent ++ held ++ l)) <= cap ->
  exists l1 l2 lf s1 f1 s' f', l = l1 ++ l2 /\ l1 <> [] /\
    memchr p 10 (buffer_room f (Z.of_nat (length l))) s = Ok lf s /\
    (if negb (lf =? NULL) then lf + 1 - p else buffer_room f (Z.of_nat (length l))) =
      Z.of_nat (length l1) /\
    append memmove f p (Z.of_nat (length l1)) s = Ok f1 s1 /\
    (if negb (lf =? NULL) || iob_write_buffer_is_full f1 then flush_iob_write_buffer f1
     else ret (OK, f1)) s1 = Ok (OK, f') s' /\
    emitted cap IOBF_BUFFER_MODE_LINE s f ((sent ++ held) ++ l1) s' f' /\
    (l2 <> [] -> iob_BufferWriteBytes f' < iob_BufferSize f').
Proof.
  intros Hst Hcm Hsrc Hl Hlt Hcap.
  destruct (line_part s f p l Hlt Hl (src_at _ _ _ _ _ Hsrc) (src_bytes _ _ _ _ _ Hsrc)
    (src_space _ _ _ _ _ Hsrc)) as (l1 & l2 & lf & -> & Hl1 & Hmc & Hn & Hfit & Hno & Hfull).
  destruct (source_app _ _ _ _ _ _ Hsrc) as [Hs1 _].
  destruct (chunk_ok cap IOBF_BUFFER_MODE_LINE s f sent held memmove p l1
    (fun f1 => negb (lf =? NULL) || iob_write_buffer_is_full f1))
    as (s1 & f1 & s' & f' & Hap & Hfl & Hem & Hz & Hw & Hsz); try done; [by left| | |].
  { rewrite !length_app in *. lia. }
  { intros f' Hw' Hs' Hb. split; [done|]. intros _ [Hin|Hin]%elem_of_app.
    - by apply (proj2 Hcm).
    - apply Hno; [|done]. destruct (Z.eqb_spec lf NULL); [done|]. by simpl in Hb. }
  exists l1, l2, lf, s1, f1, s', f'. split_and!; try done.
  intros Hl2. pose proof (st_size _ _ _ _ _ Hst) as [_ Hpos].
  destruct Hem as (sent' & held' & _ & Hst' & _ & _). pose proof (st_size _ _ _ _ _ Hst') as [_ Hpos'].
  rewrite Hz; [done|]. destruct (Z.eqb_spec lf NULL) as [E|E]; [|done]. simpl.
  unfold iob_write_buffer_is_full. specialize (Hfull E Hl2). lia.
Qed.

Lemma put_next_ok cap m s f L putc p c :
  mem s !! p = Some c -> is_byte c -> emits cap m s f L c (putc c f s) ->
  exists s' f', put_next putc p f s = Ok (true, f') s' /\ emitted cap m s f L s' f'.
Proof.
  intros Hp Hc (s' & f' & Hr & Hem)%emits_emitted. exists s', f'. split; [|done].
  unfold put_next. erewrite bind_ok by (by apply load8_ok). erewrite bind_ok by exact Hr.
  cbv beta iota. rewrite (proj2 (Z.eqb_neq c EOF)) by (unfold EOF; zlia). done.
Qed.

Lemma source_first cap s f p c l :
  source cap s f p (c :: l) -> mem s !! p = Some c /\ is_byte c.
Proof. intros [[Hb _] HF _ _]. fcons. done. Qed.

(** One round of the loops for line buffered streams puts the beginning [l1]
    of the data into the stream. *)
Lemma line_step cap s f sent held p l :
  Stream cap s f sent held -> calm IOBF_BUFFER_MODE_LINE held -> source cap s f p l -> l <> [] ->
  Z.of_nat (length (sent ++ held ++ l)) <= cap ->
  exists l1 l2 s' f', l = l1 ++ l2 /\ l1 <> [] /\
    emitted cap IOBF_BUFFER_MODE_LINE s f ((sent ++ held) ++ l1) s' f' /\
    ((fputs_line_body (p, Z.of_nat (length l), f) s =
        Ok (inl (p + Z.of_nat (length l1), Z.of_nat (length l2), f')) s' /\
      forall w, fwrite_line_body (p, Z.of_nat (length l), w, f) s =
        Ok (inl (p + Z.of_nat (length l1), Z.of_nat (length l2), w + Z.of_nat (length l1), f')) s')
     \/ l2 = [] /\ fputs_line_body (p, Z.of_nat (length l), f) s = Ok (inr (OK, f')) s' /\
      forall w, fwrite_line_body (p, Z.of_nat (length l), w, f) s =
        Ok (inr (w + Z.of_nat (length l1), f')) s').
Proof.
  intros Hst Hcm Hsrc Hl Hcap. unfold fputs_line_body, fwrite_line_body. cbv zeta beta iota.
  assert (0 < Z.of_nat (length l)) by (destruct l; [done|simpl; lia]).
  rewrite (proj2 (Z.ltb_lt 0 _)) by done. change (negb true) with false. cbv iota.
  destruct (Z.ltb_spec (iob_BufferWriteBytes f) (iob_BufferSize f)) as [Hlt|Hge].
  - destruct (line_chunk cap s f sent held p l) as
      (l1 & l2 & lf & s1 & f1 & s' & f' & -> & Hl1 & Hmc & Hn & Hap & Hfl & Hem & Hroom); try done.
    exists l1, l2, s', f'. split_and!; try done.
    destruct (decide (l2 = [])) as [->|Hl2].
    + right. split; [done|]. split; [|intros w];
        (erewrite bind_ok by exact Hmc; cbv beta; rewrite Hn;
         erewrite bind_ok by exact Hap; cbv beta; erewrite bind_ok by exact Hfl;
         cbv beta iota; change (OK <? 0) with false; cbv iota;
         rewrite app_nil_r, Z.sub_diag; done).
    + left. specialize (Hroom Hl2).
      assert (Z.of_nat (length (l1 ++ l2)) - Z.of_nat (length l1) = Z.of_nat (length l2)) as Hlen
        by (rewrite length_app; lia).
      assert ((Z.of_nat (length l2) =? 0) = false) as Hnz
        by (apply Z.eqb_neq; destruct l2; [done|simpl length; lia]).
      split; [|intros w];
        (erewrite bind_ok by exact Hmc; cbv beta; rewrite Hn;
         erewrite bind_ok by exact Hap; cbv beta; erewrite bind_ok by exact Hfl;
         cbv beta iota; change (OK <? 0) with false; cbv iota;
         rewrite Hlen, Hnz, (proj2 (Z.ltb_lt _ _) Hroom); done).
  - destruct l as [|c l]; [done|]. destruct (source_first _ _ _ _ _ _ Hsrc) as [Hc Hbc].
    destruct (put_next_ok cap IOBF_BUFFER_MODE_LINE s f ((sent ++ held) ++ [c]) putc_line_buffered p c)
      as (s' & f' & Hr & Hem); [done|done| |].
    { apply putc_line_buffered_ok; try done. rewrite !length_app in *. simpl in Hcap. lia. }
    exists [c], l, s', f'. split_and!; try done. left.
    assert (Z.of_nat (length (c :: l)) - 1 = Z.of_nat (length l)) as Hlen by (simpl; lia).
    split; [|intros w]; (erewrite bind_ok by exact Hr; cbv beta iota; rewrite Hlen; done).
Qed.

(** Several rounds. *)
Lemma emitted_trans cap m s f L s1 f1 l s' f' :
  emitted cap m s f L s1 f1 ->
  (forall sent held, Stream cap s1 f1 sent held -> calm m held -> L = sent ++ held ->
    moved cap s f s1 f1 -> emitted cap m s1 f1 ((sent ++ held) ++ l) s' f') ->
  emitted cap m s f (L ++ l) s' f'.
Proof.
  intros (sent & held & -> & Hst & Hm & Hc) H. specialize (H sent held Hst Hc eq_refl Hm).
  destruct H as (sent' & held' & HL & Hst' & Hm' & Hc').
  exists sent', held'. split_and!; eauto using moved_trans.
Qed.

Lemma emitted_nil cap m s f sent held :
  Stream cap s f sent held -> calm m held -> emitted cap m s f (sent ++ held) s f.
Proof. intros. exists sent, held. split_and!; auto using moved_refl. Qed.

Lemma line_loop n : forall cap l s f sent held p,
  (length l <= n)%nat ->
  Stream cap s f sent held -> calm IOBF_BUFFER_MODE_LINE held -> source cap s f p l ->
  Z.of_nat (length (sent ++ held ++ l)) <= cap ->
  exists s' f', emitted cap IOBF_BUFFER_MODE_LINE s f ((sent ++ held) ++ l) s' f' /\
    lrun fputs_line_body (Z.of_nat (length l) + 1) (p, Z.of_nat (length l), f) s (OK, f') s' /\
    (forall w, lrun fwrite_line_body (Z.of_nat (length l) + 1) (p, Z.of_nat (length l), w, f) s
       (w + Z.of_nat (length l), f') s').
Proof.
  induction n as [|n IH]; intros cap l s f sent held p Hn Hst Hcm Hsrc Hcap;
    (destruct (decide (l = [])) as [->|Hl]; [|try (by destruct l; simpl in Hn; [|lia])]).
  1,2: exists s, f; rewrite app_nil_r; split; [by apply emitted_nil|];
    split; [|intros w; rewrite Z.add_0_r]; (apply lrun_done; [done|simpl; lia]).
  destruct (line_step cap s f sent held p l) as
    (l1 & l2 & s1 & f1 & -> & Hl1 & Hem & Hstep); try done.
  assert (0 < length l1)%nat by (destruct l1; [done|simpl; lia]).
  rewrite (app_assoc (sent ++ held)), length_app in *.
  destruct Hstep as [[H1 H2]|(-> & H1 & H2)].
  - pose proof Hem as (sent1 & held1 & HL1 & Hst1 & Hm1 & Hc1).
    destruct (source_app _ _ _ _ _ _ Hsrc) as [_ Hs2].
    destruct (IH cap l2 s1 f1 sent1 held1 (p + Z.of_nat (length l1))) as (s' & f' & Hem' & H3 & H4).
    { lia. } { done. } { done. } { by eapply source_move. }
    { rewrite app_assoc, <- HL1. rewrite !length_app in *. lia. }
    exists s', f'. split; [|split].
    + destruct Hem' as (sent2 & held2 & HL2 & Hst2 & Hm2 & Hc2).
      exists sent2, held2. rewrite HL1, HL2. split_and!; eauto using moved_trans.
    + eapply lrun_next; [exact H1|]. eapply lrun_weaken; [exact H3|lia].
    + intros w. eapply lrun_next; [exact (H2 w)|]. eapply lrun_weaken; [|shelve].
      rewrite Nat2Z.inj_add, Z.add_assoc. exact (H4 (w + Z.of_nat (length l1))).
      Unshelve. lia.
  - exists s1, f1. change (length (@nil Z)) with 0%nat in *. rewrite Nat.add_0_r in *.
    rewrite app_nil_r. split; [done|]. split; [|intros w]; (apply lrun_done; [auto|lia]).
Qed.

Lemma append_copy cap s f sent held p l :
  Stream cap s f sent held -> source cap s f p l -> l <> [] ->
  iob_BufferWriteBytes f + Z.of_nat (length l) <= iob_BufferSize f ->
  append memcpy f p (Z.of_nat (length l)) s = append memmove f p (Z.of_nat (length l)) s.
Proof.
  intros Hst [Hb HF [Hp _] Ha] Hl Hroom. pose proof Hst as [_ _ Hbuf [Hsz Hpos] Hmp _ _ _ Hct _].
  assert (0 < Z.of_nat (length l)) by (destruct l; [done|simpl; lia]).
  pose proof (aside_disj _ _ _ _ Ha ltac:(lia) Hpos) as Hd. unfold disj in Hd.
  assert (mapped (mem s) (iob_Buffer f + iob_BufferWriteBytes f) (Z.of_nat (length l)))
    by (eapply mapped_sub; [done|lia|lia]).
  unfold append. erewrite bind_ok; [erewrite bind_ok; [reflexivity|]|].
  - apply memmove_ok; try done; lia.
  - apply memcpy_ok; try done; try lia. split_and!; try done. unfold disj. lia.
Qed.

Lemma full_chunk cap s f sent held p l :
  Stream cap s f sent held -> source cap s f p l -> l <> [] ->
  iob_BufferWriteBytes f < iob_BufferSize f -> Z.of_nat (length (sent ++ held ++ l)) <= cap ->
  exists l1 l2 s1 f1 s' f', l = l1 ++ l2 /\ l1 <> [] /\
    buffer_room f (Z.of_nat (length l)) = Z.of_nat (length l1) /\
    append memmove f p (Z.of_nat (length l1)) s = Ok f1 s1 /\
    append memcpy f p (Z.of_nat (length l1)) s = Ok f1 s1 /\
    (if iob_write_buffer_is_full f1 then flush_iob_write_buffer f1 else ret (OK, f1)) s1 =
      Ok (OK, f') s' /\
    emitted cap IOBF_BUFFER_MODE_FULL s f ((sent ++ held) ++ l1) s' f' /\
    (l2 <> [] -> iob_BufferWriteBytes f' < iob_BufferSize f').
Proof.
  intros Hst Hsrc Hl Hlt Hcap. destruct (buffer_room_ok f l Hlt Hl) as (n & Hn & Hle & Hfit & Hfull).
  pose proof Hsrc as Hsrc'. rewrite <- (take_drop n l) in Hsrc'.
  destruct (source_app _ _ _ _ _ _ Hsrc') as [Hs1 _].
  assert (Hlen : length (take n l) = n) by (rewrite length_take; lia).
  assert (take n l <> []) by (destruct n, l; try done; lia).
  destruct (chunk_ok cap IOBF_BUFFER_MODE_FULL s f sent held memmove p (take n l)
    iob_write_buffer_is_full) as (s1 & f1 & s' & f' & Hap & Hfl & Hem & Hz & Hw & Hsz); try done.
  { by left. } { by rewrite Hlen. } { rewrite !length_app, Hlen in *. lia. }
  exists (take n l), (drop n l), s1, f1, s', f'. rewrite take_drop, Hlen in *.
  split_and!; try done.
  - rewrite <- Hlen at 1. erewrite append_copy; rewrite ?Hlen; try done.
  - intros Hl2. destruct Hem as (sent' & held' & _ & Hst' & _ & _).
    pose proof (st_size _ _ _ _ _ Hst') as [_ Hpos']. rewrite Hz; [done|].
    unfold iob_write_buffer_is_full. pose proof (st_size _ _ _ _ _ Hst) as [_ Hpos].
    assert (n < length l)%nat; [|lia].
    destruct (decide (n < length l)%nat); [done|]. by rewrite drop_ge in Hl2 by lia.
Qed.

(** One round of the loops for fully buffered streams; that of [fwrite] is
    like that of [fputs] only while the buffer has room. *)
Lemma full_step cap s f sent held p l :
  Stream cap s f sent held -> direct f -> source cap s f p l -> l <> [] ->
  Z.of_nat (length (sent ++ held ++ l)) <= cap ->
  exists l1 l2 s' f', l = l1 ++ l2 /\ l1 <> [] /\
    emitted cap IOBF_BUFFER_MODE_FULL s f ((sent ++ held) ++ l1) s' f' /\
    ((fputs_full_body (p, Z.of_nat (length l), f) s =
        Ok (inl (p + Z.of_nat (length l1), Z.of_nat (length l2), f')) s' /\
      (iob_BufferWriteBytes f < iob_BufferSize f -> iob_BufferWriteBytes f' < iob_BufferSize f' /\
       forall w, fwrite_full_body (p, Z.of_nat (length l), w, f) s =
        Ok (inl (p + Z.of_nat (length l1), Z.of_nat (length l2), w + Z.of_nat (length l1), f')) s'))
     \/ l2 = [] /\ fputs_full_body (p, Z.of_nat (length l), f) s = Ok (inr (OK, f')) s' /\
      (iob_BufferWriteBytes f < iob_BufferSize f ->
       forall w, fwrite_full_body (p, Z.of_nat (length l), w, f) s =
        Ok (inr (Some (w + Z.of_nat (length l1)), f')) s')).
Proof.
  intros Hst Hdir Hsrc Hl Hcap. unfold fputs_full_body, fwrite_full_body. cbv zeta beta iota.
  assert (0 < Z.of_nat (length l)) by (destruct l; [done|simpl; lia]).
  rewrite (proj2 (Z.ltb_lt 0 _)) by done. change (negb true) with false. cbv iota.
  destruct ((iob_BufferWriteBytes f =? 0) && (iob_BufferSize f <=? Z.of_nat (length l))) eqn:Eb.
  - apply andb_true_iff in Eb as [Hz%Z.eqb_eq _].
    assert (held = []) as ->.
    { rewrite (st_count _ _ _ _ _ Hst) in Hz. destruct held; [done|simpl in Hz; lia]. }
    destruct (write_r_ok cap IOBF_BUFFER_MODE_FULL s f sent p l) as (s' & Hr & Hst' & Hm & Hcm); try done.
    { apply Hsrc. } { apply (src_space _ _ _ _ _ Hsrc). } { apply Hsrc. }
    exists l, [], s', f. rewrite !app_nil_r. split_and!; try done.
    { exists (sent ++ l), []. by rewrite app_nil_r. }
    right. split; [done|].
    split; [|intros _ w]; (erewrite bind_ok by exact Hr; cbv beta;
      rewrite (proj2 (Z.eqb_neq _ (-1))) by lia; done).
  - destruct (Z.ltb_spec (iob_BufferWriteBytes f) (iob_BufferSize f)) as [Hlt|Hge].
    + destruct (full_chunk cap s f sent held p l) as
        (l1 & l2 & s1 & f1 & s' & f' & -> & Hl1 & Hn & Hap & Hap' & Hfl & Hem & Hroom); try done.
      exists l1, l2, s', f'. split_and!; try done. rewrite Hn.
      destruct (decide (l2 = [])) as [->|Hl2].
      * right. split; [done|]. split; [|intros _ w];
          (first [erewrite bind_ok by exact Hap|erewrite bind_ok by exact Hap'];
           cbv beta; erewrite bind_ok by exact Hfl;
           cbv beta iota; change (OK <? 0) with false; cbv iota;
           rewrite app_nil_r, Z.sub_diag; done).
      * left. specialize (Hroom Hl2).
        assert (Z.of_nat (length (l1 ++ l2)) - Z.of_nat (length l1) = Z.of_nat (length l2)) as Hlen
          by (rewrite length_app; lia).
        assert ((Z.of_nat (length l2) =? 0) = false) as Hnz
          by (apply Z.eqb_neq; destruct l2; [done|simpl length; lia]).
        split; [|intros _; split; [done|intros w]];
          (first [erewrite bind_ok by exact Hap|erewrite bind_ok by exact Hap'];
           cbv beta; erewrite bind_ok by exact Hfl;
           cbv beta iota; change (OK <? 0) with false; cbv iota;
           rewrite Hlen, Hnz, (proj2 (Z.ltb_lt _ _) Hroom); done).
    + destruct l as [|c l]; [done|]. destruct (source_first _ _ _ _ _ _ Hsrc) as [Hc Hbc].
      destruct (put_next_ok cap IOBF_BUFFER_MODE_FULL s f ((sent ++ held) ++ [c]) putc_fully_buffered p c)
        as (s' & f' & Hr & Hem); [done|done| |].
      { apply putc_fully_buffered_ok; try done. rewrite !length_app in *. simpl in Hcap. lia. }
      exists [c], l, s', f'. split_and!; try done. left.
      assert (Z.of_nat (length (c :: l)) - 1 = Z.of_nat (length l)) as Hlen by (simpl; lia).
      split; [|lia]. erewrite bind_ok by exact Hr. cbv beta iota. rewrite Hlen. done.
Qed.

Lemma full_loop n : forall cap l s f sent held p,
  (length l <= n)%nat ->
  Stream cap s f sent held -> direct f -> source cap s f p l ->
  Z.of_nat (length (sent ++ held ++ l)) <= cap ->
  exists s' f', emitted cap IOBF_BUFFER_MODE_FULL s f ((sent ++ held) ++ l) s' f' /\
    lrun fputs_full_body (Z.of_nat (length l) + 1) (p, Z.of_nat (length l), f) s (OK, f') s' /\
    (iob_BufferWriteBytes f < iob_BufferSize f ->
     forall w, lrun fwrite_full_body (Z.of_nat (length l) + 1) (p, Z.of_nat (length l), w, f) s
       (Some (w + Z.of_nat (length l)), f') s').
Proof.
  induction n as [|n IH]; intros cap l s f sent held p Hn Hst Hdir Hsrc Hcap;
    (destruct (decide (l = [])) as [->|Hl]; [|try (by destruct l; simpl in Hn; [|lia])]).
  1,2: exists s, f; rewrite app_nil_r; split; [by apply emitted_nil|];
    split; [|intros _ w; rewrite Z.add_0_r]; (apply lrun_done; [done|simpl; lia]).
  destruct (full_step cap s f sent held p l) as
    (l1 & l2 & s1 & f1 & -> & Hl1 & Hem & Hstep); try done.
  assert (0 < length l1)%nat by (destruct l1; [done|simpl; lia]).
  rewrite (app_assoc (sent ++ held)), length_app in *.
  destruct Hstep as [[H1 H2]|(-> & H1 & H2)].
  - pose proof Hem as (sent1 & held1 & HL1 & Hst1 & Hm1 & Hc1).
    destruct (source_app _ _ _ _ _ _ Hsrc) as [_ Hs2].
    destruct (IH cap l2 s1 f1 sent1 held1 (p + Z.of_nat (length l1))) as (s' & f' & Hem' & H3 & H4).
    { lia. } { done. } { by eapply moved_direct. } { by eapply source_move. }
    { rewrite app_assoc, <- HL1. rewrite !length_app in *. lia. }
    exists s', f'. split; [|split].
    + destruct Hem' as (sent2 & held2 & HL2 & Hst2 & Hm2 & Hc2).
      exists sent2, held2. rewrite HL1, HL2. split_and!; eauto using moved_trans.
    + eapply lrun_next; [exact H1|]. eapply lrun_weaken; [exact H3|lia].
    + intros Hlt w. destruct (H2 Hlt) as [Hlt' H2'].
      eapply lrun_next; [exact (H2' w)|]. eapply lrun_weaken; [|shelve].
      rewrite Nat2Z.inj_add, Z.add_assoc. exact (H4 Hlt' (w + Z.of_nat (length l1))).
      Unshelve. lia.
  - exists s1, f1. change (length (@nil Z)) with 0%nat in *. rewrite Nat.add_0_r in *.
    rewrite app_nil_r. split; [done|]. split; [|intros ? w]; (apply lrun_done; [auto|lia]).
Qed.

(** ** The functions *)

Lemma flush_unbuffered_ok cap m s f sent held :
  Stream cap s f sent held -> Z.of_nat (length (sent ++ held)) <= cap ->
  (mode f <> IOBF_BUFFER_MODE_NONE -> m = mode f) -> calm m held ->
  emits cap (mode f) s f (sent ++ held) OK (flush_unbuffered OK f s).
Proof.
  intros Hst Hcap Hm Hcm. unfold flush_unbuffered. fold (mode f). simpl.
  destruct (Z.eqb_spec (mode f) IOBF_BUFFER_MODE_NONE) as [E|E]; simpl.
  - unfold iob_write_buffer_is_valid. rewrite (st_count _ _ _ _ _ Hst).
    destruct (Z.ltb_spec 0 (Z.of_nat (length held))).
    + eapply emits_ret; [by apply emits_flush|]. done.
    + destruct held; [|simpl in *; lia]. apply emits_emitted. exists s, f. split; [done|].
      apply emitted_nil; auto using calm_nil.
  - apply emits_emitted. exists s, f. split; [done|]. apply emitted_nil; [done|].
    by rewrite <- (Hm E).
Qed.

Lemma mode_three f : mode f <> IOBF_BUFFER_MODE_LINE -> mode f <> IOBF_BUFFER_MODE_NONE ->
  forall held, calm (mode f) held.
Proof. by intros ?? held; split. Qed.

(** The bytes of a whole call, by the loop for the mode. *)
Lemma emitted_calm cap m m' s f L s' f' :
  emitted cap m s f L s' f' -> (forall held, calm m held -> calm m' held) ->
  emitted cap m' s f L s' f'.
Proof. intros (sent & held & HL & Hst & Hm & Hc) Himp. exists sent, held. auto. Qed.

Lemma emits_then cap m m' s f L r r' (c : M (Z * iob)) (k : Z * iob -> M (Z * iob)) :
  emits cap m s f L r (c s) ->
  (forall s1 f1 sent held, Stream cap s1 f1 sent held -> moved cap s f s1 f1 -> L = sent ++ held ->
     calm m held -> emits cap m' s1 f1 L r' (k (r, f1) s1)) ->
  emits cap m' s f L r' (bind c k s).
Proof.
  intros (s1 & f1 & sent & held & Hr & HL & Hst & Hm & Hc) Hk.
  erewrite bind_ok by exact Hr. eapply emits_move; [done|]. by eapply Hk.
Qed.

(** A string or buffer of less than 2^32 bytes is written before the loops
    reach their bound. *)
Lemma source_short cap s f p l : source cap s f p l -> Z.of_nat (length l) + 1 <= 1099511627776.
Proof. intros [_ _ [? Hs] _ _]. unfold ADDR_MAX in Hs. lia. Qed.

Lemma fputs_body_ok cap m s f sent held p l :
  Stream cap s f sent held -> direct f -> calm (mode f) held -> source cap s f p l -> l <> [] ->
  Z.of_nat (length (sent ++ held ++ l)) <= cap ->
  m = mode f \/ (mode f = IOBF_BUFFER_MODE_NONE /\ m = IOBF_BUFFER_MODE_LINE) ->
  emits cap m s f ((sent ++ held) ++ l) OK
    ((if m =? IOBF_BUFFER_MODE_LINE then loop fputs_line_body (p, Z.of_nat (length l), f)
      else if m =? IOBF_BUFFER_MODE_NONE then
        let* n := write (iob_Descriptor f) p (Z.of_nat (length l)) in
        if n =? -1 then ret (EOF, SET_FLAG f IOBF_ERROR) else ret (OK, f)
      else loop fputs_full_body (p, Z.of_nat (length l), f)) s).
Proof.
  intros Hst Hdir Hcm Hsrc Hl Hcap Hm. apply emits_emitted.
  destruct (Z.eqb_spec m IOBF_BUFFER_MODE_LINE) as [E1|E1];
    [|destruct (Z.eqb_spec m IOBF_BUFFER_MODE_NONE) as [E2|E2]].
  - assert (Hcl : calm IOBF_BUFFER_MODE_LINE held).
    { destruct Hm as [Hm|[Hm _]]; [by rewrite <- E1, Hm|].
      rewrite (proj1 Hcm Hm). apply calm_nil. }
    destruct (line_loop (length l) cap l s f sent held p) as (s' & f' & Hem & Hr & _); try done.
    exists s', f'. split; [|by rewrite E1]. eapply loop_lrun; [exact Hr|].
    by eapply source_short.
  - assert (mode f = IOBF_BUFFER_MODE_NONE) as Hf by (destruct Hm as [<-|[? ?]]; done).
    rewrite (proj1 Hcm Hf) in *.
    destruct (write_r_ok cap m s f sent p l) as (s' & Hr & Hst' & Hmv & Hc'); try done.
    { apply Hsrc. } { apply (src_space _ _ _ _ _ Hsrc). } { apply Hsrc. }
    exists s', f. unfold write. erewrite bind_ok by exact Hr. cbv beta.
    rewrite (proj2 (Z.eqb_neq _ (-1))) by lia. split; [done|].
    exists (sent ++ l), []. rewrite !app_nil_r. done.
  - destruct (full_loop (length l) cap l s f sent held p) as (s' & f' & Hem & Hr & _); try done.
    exists s', f'. split; [eapply loop_lrun; [exact Hr|by eapply source_short]|].
    eapply emitted_calm; [exact Hem|]. intros held' _. split; done.
Qed.

Lemma emits_same cap m s f sent held r :
  Stream cap s f sent held -> calm m held -> emits cap m s f (sent ++ held) r (Ok (r, f) s).
Proof. intros. apply emits_emitted. exists s, f. split; [done|]. by apply emitted_nil. Qed.

Lemma fputs_file_ok cap s f sent held p l :
  Stream cap s f sent held -> direct f -> calm (mode f) held ->
  cstr (mem s) p l -> word_readable (mem s) p (Z.of_nat (length l) + 1) ->
  source cap s f p l -> Z.of_nat (length (sent ++ held ++ l)) <= cap ->
  emits cap (mode f) s f ((sent ++ held) ++ l) OK (fputs_file p f s).
Proof.
  intros Hst Hdir Hcm Hs Hw Hsrc Hcap. unfold fputs_file.
  erewrite bind_ok by (by eapply fputc_check_ok). cbv beta iota. change (OK <? 0) with false. cbv iota.
  destruct (text_mode_ok f s Hdir) as (m & Hmode & Hm).
  apply (emits_then cap m _ _ _ _ OK).
  - erewrite bind_ok by (by apply strlen_ok). cbv beta.
    destruct (decide (l = [])) as [->|Hl].
    + rewrite app_nil_r. simpl. apply emits_same; [done|].
      destruct Hm as [-> |[Hn ->]]; [done|]. rewrite (proj1 Hcm Hn). apply calm_nil.
    + assert (0 < Z.of_nat (length l)) by (destruct l; [done|simpl; lia]).
      rewrite (proj2 (Z.ltb_lt 0 _)) by done. erewrite bind_ok by exact Hmode. cbv beta.
      by apply fputs_body_ok.
  - intros s1 f1 sent1 held1 Hst1 Hm1 HL Hcm1. cbv beta iota.
    rewrite HL. rewrite <- (moved_mode _ _ _ _ _ Hm1). eapply flush_unbuffered_ok; [done| | |done].
    + rewrite <- HL, <- app_assoc. lia.
    + rewrite (moved_mode _ _ _ _ _ Hm1). intros Hn. by destruct Hm as [-> |[? _]].
Qed.

Lemma puts_loop cap m l : forall s f sent held p,
  Stream cap s f sent held -> calm (lazy_mode m) held -> bytes_at (mem s) p (l ++ [0]) ->
  Forall is_char l -> aside cap f p (Z.of_nat (length l) + 1) ->
  Z.of_nat (length (sent ++ held ++ l)) <= cap ->
  exists s' f', emitted cap (lazy_mode m) s f ((sent ++ held) ++ l) s' f' /\
    lrun (puts_body m) (Z.of_nat (length l) + 1) (p, f) s (OK, f') s'.
Proof.
  induction l as [|c l IH]; intros s f sent held p Hst Hcm [Hp Hb] HF Ha Hcap.
  { exists s, f. rewrite app_nil_r. split; [by apply emitted_nil|].
    apply lrun_done; [|simpl; lia]. unfold puts_body. simpl in Hp.
    by erewrite bind_ok by (by apply load8_ok). }
  fcons. simpl length in *. rewrite !length_app in Hcap. simpl length in Hcap.
  destruct (putc_mode_ok cap m s f sent held c) as
    (s1 & f1 & sent1 & held1 & Hr & HL & Hst1 & Hm1 & Hc1); try done.
  { zlia. } { rewrite length_app. lia. }
  destruct (IH s1 f1 sent1 held1 (p + 1)) as (s' & f' & Hem & Hl); try done.
  { eapply moved_bytes; [done| |exact Hb]. eapply aside_sub; [done|lia|].
    rewrite length_app. simpl. lia. }
  { eapply moved_aside; [done|]. eapply aside_sub; [done|lia|lia]. }
  { rewrite app_assoc, <- HL, !length_app. simpl. lia. }
  exists s', f'. split.
  - destruct Hem as (sent2 & held2 & HL2 & Hst2 & Hm2 & Hc2).
    exists sent2, held2. rewrite <- HL, <- app_assoc in HL2. split_and!; eauto using moved_trans.
  - eapply lrun_next; [|eapply lrun_weaken; [exact Hl|lia]].
    unfold puts_body. simpl in Hp. erewrite bind_ok by (by apply load8_ok). cbv beta.
    rewrite (proj2 (Z.eqb_neq c 0)) by zlia. simpl. erewrite bind_ok by exact Hr. cbv beta iota.
    rewrite (proj2 (Z.eqb_neq c EOF)) by (unfold EOF; zlia). done.
Qed.

Lemma puts_file_ok cap s f sent held p l :
  Stream cap s f sent held -> direct f -> calm (mode f) held ->
  cstr (mem s) p l -> aside cap f p (Z.of_nat (length l) + 1) ->
  Z.of_nat (length (sent ++ held ++ l)) + 1 <= cap ->
  emits cap (mode f) s f ((sent ++ held) ++ l ++ [10]) OK (puts_file p f s).
Proof.
  intros Hst Hdir Hcm Hs Ha Hcap. unfold puts_file.
  destruct (text_mode_ok f s Hdir) as (m & Hmode & Hm).
  assert (Hcl : calm (lazy_mode m) held).
  { apply calm_lazy. destruct Hm as [-> |[Hn ->]]; [done|]. rewrite (proj1 Hcm Hn). apply calm_nil. }
  erewrite bind_ok by exact Hmode. cbv beta.
  erewrite bind_ok by (by eapply fputc_check_ok). cbv beta iota. change (OK <? 0) with false. cbv iota.
  apply (emits_then cap (lazy_mode m) _ _ _ _ OK).
  - destruct Hs as (Hb & HF & Hsp). unfold in_space, ADDR_MAX in Hsp.
    destruct (puts_loop cap m l s f sent held p) as (s1 & f1 & Hem & Hl); try done; [lia|].
    erewrite bind_ok by (eapply loop_lrun; [exact Hl|lia]). cbv beta iota. change (OK =? EOF) with false.
    cbv iota. destruct Hem as (sent1 & held1 & HL & Hst1 & Hm1 & Hc1).
    eapply emits_move; [exact Hm1|]. rewrite app_assoc, HL.
    destruct (putc_mode_ok cap m s1 f1 sent1 held1 10) as
      (s2 & f2 & sent2 & held2 & Hr & HL2 & Hst2 & Hm2 & Hc2); try done.
    { rewrite <- HL, <- app_assoc. lia. }
    erewrite bind_ok by exact Hr. cbv beta iota. rewrite HL2.
    eapply emits_move; [exact Hm2|]. by apply emits_same.
  - intros s1 f1 sent1 held1 Hst1 Hm1 HL Hcm1. cbv beta iota.
    rewrite HL. rewrite <- (moved_mode _ _ _ _ _ Hm1).
    eapply (flush_unbuffered_ok _ (lazy_mode m)); [done| | |done].
    + rewrite <- HL, !length_app in *. simpl. lia.
    + rewrite (moved_mode _ _ _ _ _ Hm1). intros Hn. destruct Hm as [-> |[? _]]; [|done].
      unfold lazy_mode. by destruct (Z.eqb_spec (mode f) IOBF_BUFFER_MODE_NONE).
Qed.

Lemma fwrite_file_ok cap s f sent held p l sz n :
  Stream cap s f sent held -> direct f -> calm (mode f) held -> source cap s f p l ->
  0 < sz -> 0 < n -> Z.of_nat (length l) = sz * n ->
  (iob_BufferWriteBytes f < iob_BufferSize f \/ mode f = IOBF_BUFFER_MODE_LINE) ->
  text_mode f s = Ok (mode f) s -> Z.of_nat (length (sent ++ held ++ l)) <= cap ->
  emits cap (mode f) s f ((sent ++ held) ++ l) n (fwrite_file p sz n f s).
Proof.
  intros Hst Hdir Hcm Hsrc Hsz Hn Hlen Hroom Hmode Hcap. unfold fwrite_file.
  destruct (writable_flags _ (st_flags _ _ _ _ _ Hst)) as (_ & -> & ->). cbn [orb].
  assert (Hl : l <> []) by (destruct l; [simpl in Hlen; nia|done]).
  assert (0 < Z.of_nat (length l)) by (rewrite Hlen; nia).
  assert (Hu : u32 (sz * n) = Z.of_nat (length l)).
  { rewrite <- Hlen. unfold u32. apply Z.mod_small.
    destruct (src_space _ _ _ _ _ Hsrc). zlia. }
  rewrite (proj2 (Z.ltb_lt 0 sz)), (proj2 (Z.ltb_lt 0 n)) by done. cbn [andb]. cbv zeta.
  rewrite Hu, Hlen, Z.div_mul, Z.eqb_refl by lia. rewrite <- Hlen. cbn [negb].
  assert (Hdiv : Z.of_nat (length l) / sz = n) by (rewrite Hlen, Z.mul_comm; apply Z.div_mul; lia).
  erewrite bind_ok by exact Hmode. cbv beta. apply emits_emitted.
  destruct (Z.eqb_spec (mode f) IOBF_BUFFER_MODE_LINE) as [E1|E1];
    [|destruct (Z.eqb_spec (mode f) IOBF_BUFFER_MODE_NONE) as [E2|E2]].
  - destruct (line_loop (length l) cap l s f sent held p) as (s' & f' & Hem & _ & Hr);
      [done|done|by rewrite <- E1|done|done|].
    exists s', f'. split; [|by rewrite E1].
    erewrite bind_ok by (eapply loop_lrun; [apply Hr|by eapply source_short]).
    cbv beta iota. by rewrite Z.add_0_l, Hdiv.
  - rewrite (proj1 Hcm E2) in *.
    destruct (write_r_ok cap (mode f) s f sent p l) as (s' & Hr & Hst' & Hmv & Hc'); try done.
    { apply Hsrc. } { apply (src_space _ _ _ _ _ Hsrc). } { apply Hsrc. }
    exists s', f. erewrite bind_ok by exact Hr. cbv beta.
    rewrite (proj2 (Z.eqb_neq _ (-1))) by lia.
    unfold iob_write_buffer_is_valid. rewrite (st_count _ _ _ _ _ Hst'). simpl. rewrite Hdiv.
    split; [done|]. exists (sent ++ l), []. rewrite !app_nil_r. done.
  - destruct (full_loop (length l) cap l s f sent held p) as (s' & f' & Hem & _ & Hr); try done.
    exists s', f'. split; [|eapply emitted_calm; [exact Hem|intros held' _; by split]].
    destruct Hroom as [Hroom|]; [|done].
    erewrite bind_ok by (eapply loop_lrun; [by apply Hr|by eapply source_short]).
    cbv beta iota. by rewrite Z.add_0_l, Hdiv.
Qed.

Lemma fflush_file_ok cap m s f sent held :
  Stream cap s f sent held -> Z.of_nat (length (sent ++ held)) <= cap ->
  exists s' f', fflush_file f s = Ok (OK, f') s' /\ Stream cap s' f' (sent ++ held) [] /\
    moved cap s f s' f' /\ calm m [].
Proof.
  intros Hst Hcap. unfold fflush_file, iob_write_buffer_is_valid. rewrite (st_count _ _ _ _ _ Hst).
  destruct held as [|c held].
  - exists s, f. rewrite app_nil_r. simpl. split_and!; auto using moved_refl, calm_nil.
  - rewrite (proj2 (Z.ltb_lt _ _)) by (simpl; lia).
    destruct (flush_ok _ _ _ _ _ Hst Hcap) as (s' & f' & Hr & Hst' & Hm).
    exists s', f'. erewrite bind_ok by exact Hr. auto using calm_nil.
Qed.
End Streams.
