(* ===== verification/Output.v ===== *)
(** * Output to files

    The calls that write to a stream, as a program makes them one after the
    other: what reaches the file is what was put in, in order, whatever the
    buffering; what the calls return; and where they go wrong. *)

From Stdlib Require Import String.
From S2P Require Import Prelude CMem Cells CType Words StrScan StrCopy Stdio Streams.

(** ** The calls *)

Inductive call :=
  | Putc (c : Z)            (** the macro, [putc_unlocked] and, with a lock, [putc] *)
  | Fputc (c : Z)
  | Fputs (p : Z)
  | Puts (p : Z)
  | Fwrite (p size n : Z)
  | Fflush.

Section Output.
Context `{HM : SysMem} `{HD : Dos}.

Definition exec (c : call) (f : iob) : M (Z * iob) :=
  match c with
  | Putc c => putc_unlocked c f
  | Fputc c => fputc_file c f
  | Fputs p => fputs_file p f
  | Puts p => puts_file p f
  | Fwrite p size n => fwrite_file p size n f
  | Fflush => fflush_file f
  end.

(** [says cap s f c l r]: in state [s] the call is a proper one; it is to put
    [l] into the stream and to return [r]. *)
Inductive says (cap : Z) (s : state) (f : iob) : call -> list Z -> Z -> Prop :=
  | says_putc c : is_byte c -> says cap s f (Putc c) [c] c
  | says_fputc c : is_byte c -> says cap s f (Fputc c) [c] c
  | says_fputs p l :
      cstr (mem s) p l -> word_readable (mem s) p (Z.of_nat (length l) + 1) ->
      Z.of_nat (length l) < 2147483648 ->
      aside cap f p (Z.of_nat (length l)) -> says cap s f (Fputs p) l OK
  | says_puts p l :
      cstr (mem s) p l -> aside cap f p (Z.of_nat (length l) + 1) ->
      says cap s f (Puts p) (l ++ [10]) OK
  | says_fwrite p size n l :
      bytes_at (mem s) p l -> Forall is_byte l -> in_space p (Z.of_nat (length l)) ->
      aside cap f p (Z.of_nat (length l)) -> 0 < size -> 0 < n ->
      Z.of_nat (length l) = size * n -> Z.of_nat (length l) < 2147483648 ->
      (iob_BufferWriteBytes f < iob_BufferSize f \/ mode f = IOBF_BUFFER_MODE_LINE) ->
      text_mode f s = Ok (mode f) s ->
      says cap s f (Fwrite p size n) l n
  | says_fwrite_over p size n l x :    (** a full buffer: the byte behind goes out too *)
      source cap s f p (l ++ [x]) -> 0 < size -> 0 < n -> Z.of_nat (length l) = size * n ->
      mode f = IOBF_BUFFER_MODE_FULL -> iob_BufferWriteBytes f = iob_BufferSize f ->
      2 <= iob_BufferSize f ->
      says cap s f (Fwrite p size n) (l ++ [x]) ((size * n + 1) / size)
  | says_fflush : says cap s f Fflush [] OK.

(** The calls of a program on one stream, and all they put into it. *)
Inductive session (cap : Z) : state -> iob -> list Z -> state -> iob -> Prop :=
  | session_nil s f : session cap s f [] s f
  | session_call s f c l r r' s1 f1 L s' f' :
      says cap s f c l r -> exec c f s = Ok (r', f1) s1 ->
      session cap s1 f1 L s' f' -> session cap s f (l ++ L) s' f'.

Context `{!SysMemLaws HM} `{!DosLaws HD}.

(** ** A full buffer

    [putc] leaves a buffer it has just filled as it is.  The next [fwrite]
    puts one character after the flush, without counting it. *)

Lemma fwrite_full_first cap s f sent held p c l w :
  Stream cap s f sent held -> source cap s f p (c :: l) ->
  iob_BufferWriteBytes f = iob_BufferSize f -> 2 <= iob_BufferSize f ->
  Z.of_nat (length (sent ++ held)) + 1 <= cap ->
  exists s1 f1, fwrite_full_body (p, Z.of_nat (length (c :: l)), w, f) s =
      Ok (inl (p + 1, Z.of_nat (length (c :: l)), w + 1, f1)) s1 /\
    emitted cap IOBF_BUFFER_MODE_FULL s f ((sent ++ held) ++ [c]) s1 f1 /\
    iob_BufferWriteBytes f1 < iob_BufferSize f1.
Proof.
  intros Hst Hsrc Hfull Hsz Hcap. destruct (source_first _ _ _ _ _ _ Hsrc) as [Hc Hbc].
  unfold fwrite_full_body. cbv zeta beta iota.
  rewrite (proj2 (Z.ltb_lt 0 _)) by (simpl length; lia). change (negb true) with false. cbv iota.
  rewrite Hfull, (proj2 (Z.eqb_neq (iob_BufferSize f) 0)), Z.ltb_irrefl by lia. cbn [andb].
  destruct (flush_ok cap s f sent held) as (s0 & f0 & Hf & Hst0 & Hm0); [done|lia|].
  destruct (moved_fields _ _ _ _ _ Hm0) as (_ & Hs0 & _).
  destruct (push_ok cap s0 f0 (sent ++ held) [] c) as (s1 & f1 & Hr & Hst1 & Hm1 & Hw); [done|done| |].
  { rewrite (st_count _ _ _ _ _ Hst0). simpl. lia. }
  assert (Hput : put_next putc_fully_buffered p f s = Ok (true, f1) s1).
  { unfold put_next. erewrite bind_ok by (by apply load8_ok). unfold putc_fully_buffered.
    rewrite Hfull, Z.ltb_irrefl. unfold fputc_mode, iob_write_buffer_is_full.
    rewrite Hfull, Z.eqb_refl, (proj2 (Z.ltb_lt _ _)) by lia. cbn [andb].
    erewrite bind_ok; [|erewrite bind_ok by exact Hf; cbv beta iota; change (OK <? 0) with false;
      cbv iota; erewrite bind_ok by exact Hr; reflexivity].
    cbv beta iota. rewrite land255 by done.
    rewrite (proj2 (Z.eqb_neq c EOF)) by (unfold EOF; zlia). done. }
  exists s1, f1. split; [by erewrite bind_ok by exact Hput|]. split.
  - exists (sent ++ held), [c]. split_and!; eauto using moved_trans. by split.
  - destruct (moved_fields _ _ _ _ _ Hm1) as (_ & Hs1 & _).
    rewrite Hw, (st_count _ _ _ _ _ Hst0), Hs1, Hs0. simpl. lia.
Qed.

(** When the buffer of a fully buffered stream is exactly full, as a run
    of [putc] leaves it, [fwrite] writes the data and the byte behind it, which
    it counts too. *)
Lemma fwrite_over_ok cap s f sent held p l x sz n :
  Stream cap s f sent held -> direct f -> mode f = IOBF_BUFFER_MODE_FULL ->
  iob_BufferWriteBytes f = iob_BufferSize f -> 2 <= iob_BufferSize f ->
  source cap s f p (l ++ [x]) -> 0 < sz -> 0 < n -> Z.of_nat (length l) = sz * n ->
  Z.of_nat (length (sent ++ held ++ l ++ [x])) <= cap ->
  emits cap (mode f) s f ((sent ++ held) ++ l ++ [x]) ((sz * n + 1) / sz) (fwrite_file p sz n f s).
Proof.
  intros Hst Hdir Hmode Hfull Hsz Hsrc Hz Hn Hlen Hcap.
  destruct l as [|c l]; [simpl in Hlen; nia|]. simpl app in Hsrc, Hcap |- *.
  destruct (fwrite_full_first cap s f sent held p c l 0) as (s1 & f1 & Hb1 & Hem1 & Hlt); try done.
  { destruct (source_app _ _ _ _ (c :: l) [x] Hsrc) as [? _]. done. }
  { rewrite !length_app in *. simpl in Hcap. lia. }
  destruct Hem1 as (sent1 & held1 & HL1 & Hst1 & Hm1 & _).
  assert (Hcap2 : Z.of_nat (length ((sent1 ++ held1) ++ l ++ [x])) <= cap).
  { rewrite <- HL1. rewrite !length_app in *. simpl in *. rewrite length_app in Hcap. simpl in *. lia. }
  destruct (full_loop (length (l ++ [x])) cap (l ++ [x]) s1 f1 sent1 held1 (p + 1)) as
    (s' & f' & Hem & _ & Hr); try done.
  { by eapply moved_direct. }
  { eapply source_move; [done|]. apply (source_app cap s f p [c] (l ++ [x])), Hsrc. }
  { by rewrite app_assoc. }
  specialize (Hr Hlt 1). destruct Hem as (sent2 & held2 & HL2 & Hst2 & Hm2 & _).
  assert (Hlen' : Z.of_nat (length (l ++ [x])) = Z.of_nat (length (c :: l)))
    by (rewrite length_app; simpl; lia).
  rewrite Hlen' in Hr. apply emits_emitted. exists s', f'. split.
  - unfold fwrite_file. destruct (writable_flags _ (st_flags _ _ _ _ _ Hst)) as (_ & -> & ->).
    cbn [orb]. rewrite (proj2 (Z.ltb_lt 0 sz)), (proj2 (Z.ltb_lt 0 n)) by done. cbn [andb]. cbv zeta.
    assert (Hu : u32 (sz * n) = sz * n).
    { apply u32_id. pose proof (src_int _ _ _ _ _ Hsrc) as Hi. simpl length in *. rewrite length_app in Hi.
      simpl in Hi. lia. }
    rewrite Hu, Z.div_mul, Z.eqb_refl by lia. cbn [negb]. cbv iota.
    assert (Ht : text_mode f s = Ok (mode f) s) by (unfold text_mode; fold (mode f); by rewrite Hmode).
    erewrite bind_ok by exact Ht. cbv beta. rewrite Hmode.
    change (IOBF_BUFFER_MODE_FULL =? IOBF_BUFFER_MODE_LINE) with false.
    change (IOBF_BUFFER_MODE_FULL =? IOBF_BUFFER_MODE_NONE) with false. cbv iota. rewrite <- Hlen.
    erewrite bind_ok.
    2:{ eapply loop_lrun.
        { eapply (lrun_next _ (Z.of_nat (length (c :: l)) + 2)); [exact Hb1|].
          eapply lrun_weaken; [exact Hr|lia]. }
        pose proof (source_short _ _ _ _ _ Hsrc) as Hsh. simpl length in *.
        rewrite length_app in Hsh. simpl in Hsh. lia. }
    cbv beta iota. by rewrite Z.add_comm.
  - exists sent2, held2. split_and!; eauto using moved_trans; [|by rewrite Hmode; split].
    rewrite <- HL2, <- HL1, <- !app_assoc. done.
Qed.

Lemma call_emits cap s f sent held c l r :
  Stream cap s f sent held -> direct f -> calm (mode f) held -> says cap s f c l r ->
  Z.of_nat (length (sent ++ held ++ l)) <= cap ->
  emits cap (mode f) s f ((sent ++ held) ++ l) r (exec c f s).
Proof.
  intros Hst Hdir Hcm Hs Hcap.
  destruct Hs as [c Hc|c Hc|p l Hp Hw Hi Ha|p l Hp Ha|p size n l Hb HF Hsp Ha Hsz Hn Hlen Hi Hroom Hmode
    |p size n l x Hsrc Hsz Hn Hlen Hmode Hfull Hsize|]; simpl.
  - apply putc_unlocked_ok; try done. rewrite !length_app in *. simpl in *. lia.
  - apply fputc_file_ok; try done. rewrite !length_app in *. simpl in *. lia.
  - apply fputs_file_ok; try done. destruct Hp as (Hb & HF & Hsp). split; try done.
    + by apply bytes_at_app in Hb as [Hb _].
    + eapply Forall_impl; [exact HF|]. intros. zlia.
    + destruct Hsp. split; lia.
  - apply puts_file_ok; try done. rewrite !length_app in *. simpl in *. lia.
  - by apply fwrite_file_ok.
  - by apply fwrite_over_ok.
  - rewrite app_nil_r in *.
    destruct (fflush_file_ok cap (mode f) s f sent held) as (s' & f' & Hr & Hst' & Hm & Hc'); try done.
    exists s', f', (sent ++ held), []. rewrite app_nil_r. done.
Qed.

Lemma session_emits cap s f L s' f' :
  session cap s f L s' f' -> forall sent held,
  Stream cap s f sent held -> direct f -> calm (mode f) held ->
  Z.of_nat (length (sent ++ held ++ L)) <= cap ->
  emitted cap (mode f) s f ((sent ++ held) ++ L) s' f'.
Proof.
  induction 1 as [s f|s f c l r r' s1 f1 L s' f' Hs Hx Hss IH]; intros sent held Hst Hdir Hcm Hcap.
  { rewrite app_nil_r. by apply emitted_nil. }
  destruct (call_emits cap s f sent held c l r) as (s2 & f2 & sent1 & held1 & Hr & HL & Hst1 & Hm1 & Hc1);
    try done. { rewrite !length_app in *. lia. }
  rewrite Hx in Hr. simplify_eq.
  destruct (IH sent1 held1) as (sent2 & held2 & HL2 & Hst2 & Hm2 & Hc2); try done.
  { by eapply moved_direct. } { by rewrite (moved_mode _ _ _ _ _ Hm1). }
  { rewrite app_assoc, <- HL. rewrite !length_app in *. lia. }
  exists sent2, held2. rewrite (moved_mode _ _ _ _ _ Hm1) in Hc2.
  split_and!; eauto using moved_trans. by rewrite app_assoc, HL.
Qed.

(** The contents of the file of a stream. *)
Definition contents (s : state) (f : iob) : option (list Z) :=
  match target f with Some i => files s !! i | None => None end.

Lemma direct_contents cap s f sent held :
  Stream cap s f sent held -> direct f -> contents s f = Some sent.
Proof.
  intros Hst (HA & i & e & Ht & _). pose proof (st_sent _ _ _ _ _ Hst) as Hs.
  unfold sink in Hs. rewrite HA in Hs. destruct Hs as (j & Hj & Hf). unfold contents. by rewrite Hj.
Qed.

(** C6: After any sequence of output calls ([putc], [fputc], [fputs], [puts],
    [fwrite], [fflush]) on the stream of an open file that takes what it is
    given, in any buffering mode, with strings and data below 2 GiB that are
    not in the stream's buffer: what the file has received, followed by what
    the buffer still holds, is what was there before followed by everything
    the calls put in, in order; the buffer of an unbuffered stream is empty
    and that of a line buffered one holds no line feed; every further such
    call returns, with the value [says] gives it, and a flush then leaves all
    of it in the file and nothing else changed.  An [fwrite] that finds the
    buffer of a fully buffered stream exactly full puts in, and counts, the
    byte behind its data as well ([says_fwrite_over]).  The sequence has no
    [fwrite] on an unbuffered interactive stream, whose data is left in the
    buffer up to the next line feed, nor one that finds a full buffer of one
    byte, which never returns. *)
Theorem stream_refines cap s f sent held L s' f' :
  Stream cap s f sent held -> direct f -> calm (mode f) held ->
  session cap s f L s' f' -> Z.of_nat (length (sent ++ held ++ L)) <= cap ->
  (exists sent' held', Stream cap s' f' sent' held' /\ sent' ++ held' = sent ++ held ++ L /\
     contents s' f' = Some sent' /\ calm (mode f') held') /\
  moved cap s f s' f' /\
  (forall c l r, says cap s' f' c l r -> Z.of_nat (length (sent ++ held ++ L ++ l)) <= cap ->
     exists s2 f2, exec c f' s' = Ok (r, f2) s2) /\
  (exists s2 f2, fflush_file f' s' = Ok (OK, f2) s2 /\
     contents s2 f2 = Some (sent ++ held ++ L)).
Proof.
  intros Hst Hdir Hcm Hss Hcap.
  destruct (session_emits _ _ _ _ _ _ Hss sent held Hst Hdir Hcm Hcap) as
    (sent' & held' & HL & Hst' & Hm & Hc).
  rewrite <- (moved_mode _ _ _ _ _ Hm) in Hc. rewrite <- app_assoc in HL.
  assert (Hdir' : direct f') by (by eapply moved_direct).
  split; [|split; [done|split]].
  - exists sent', held'. eauto using direct_contents.
  - intros c l r Hs Hl. destruct (call_emits cap s' f' sent' held' c l r) as (s2 & f2 & ? & ? & Hr & _);
      try done; [|by exists s2, f2].
    rewrite app_assoc, <- HL, <- !app_assoc. done.
  - destruct (fflush_file_ok cap (mode f') s' f' sent' held') as (s2 & f2 & Hr & Hst2 & Hm2 & _);
      [done|by rewrite <- HL|].
    exists s2, f2. split; [done|]. rewrite HL. eapply direct_contents; [done|by eapply moved_direct].
Qed.

(** When the buffer of a fully buffered stream is exactly full, [fwrite] of
    [n] bytes writes [n + 1]: the byte behind the caller's data is read and
    written too, and the count returned is [n + 1]. *)
Theorem fwrite_full_buffer cap s f sent held p l x :
  Stream cap s f sent held -> direct f -> mode f = IOBF_BUFFER_MODE_FULL ->
  iob_BufferWriteBytes f = iob_BufferSize f -> 2 <= iob_BufferSize f ->
  source cap s f p (l ++ [x]) -> l <> [] ->
  Z.of_nat (length (sent ++ held ++ l ++ [x])) <= cap ->
  exists s' f', fwrite_file p 1 (Z.of_nat (length l)) f s = Ok (Z.of_nat (length l) + 1, f') s' /\
    exists s2 f2, fflush_file f' s' = Ok (OK, f2) s2 /\
      contents s2 f2 = Some (sent ++ held ++ l ++ [x]).
Proof.
  intros Hst Hdir Hmode Hfull Hsz Hsrc Hl Hcap.
  assert (0 < Z.of_nat (length l)) by (destruct l; [done|simpl; lia]).
  destruct (fwrite_over_ok cap s f sent held p l x 1 (Z.of_nat (length l))) as
    (s' & f' & sent' & held' & Hr & HL & Hst' & Hm & _); try done; [lia|].
  exists s', f'. rewrite Z.div_1_r, Z.mul_1_l in Hr. split; [done|].
  destruct (fflush_file_ok cap (mode f') s' f' sent' held') as (s2 & f2 & Hf & Hst2 & Hm2 & _).
  { done. } { rewrite <- HL, <- app_assoc. done. }
  exists s2, f2. split; [done|]. rewrite <- app_assoc in HL. rewrite HL.
  eapply direct_contents; [done|]. do 2 (eapply moved_direct; [eassumption|]). done.
Qed.

(** ** Errors *)

(** [refuses s f p n e]: the device of the stream, asked to take the [n] bytes
    at [p], reports the error [e]. *)
Definition refuses (s : state) (f : iob) (p n e : Z) : Prop :=
  exists i, target f = Some i /\ fd_Action i (file_action_write p n) s = Ok (EOF, e) s.

Lemma flush_fails s f e :
  writable (iob_Flags f) -> iob_Action f = iob_hook_entry -> 0 < iob_BufferWriteBytes f ->
  refuses s f (iob_Buffer f) (iob_BufferWriteBytes f) e ->
  flush_iob_write_buffer f s = Ok (ERROR, SET_FLAG f IOBF_ERROR) (put_errno s e).
Proof.
  intros Hfl HA Hw (i & Ht & He). unfold flush_iob_write_buffer.
  rewrite (proj1 (writable_flags _ Hfl)), (proj2 (Z.ltb_lt _ _) Hw). cbn [andb].
  unfold iob_action, iob_hook. rewrite HA. unfold target in Ht. rewrite HA in Ht.
  destruct (descriptor_entry _ _ _ Ht) as (d & _ & Hsl). erewrite bind_ok.
  2:{ rewrite Hsl. erewrite bind_ok by reflexivity. cbv beta iota. rewrite Ht.
      erewrite bind_ok by exact He. reflexivity. }
  done.
Qed.

Lemma fputc_start c s f :
  writable (iob_Flags f) -> iob_BufferReadBytes f = 0 -> fputc_file c f s = fputc_mode c f (mode f) s.
Proof.
  intros Hfl Hrd. unfold fputc_file, fputc_check. destruct (writable_flags _ Hfl) as (_ & -> & ->).
  unfold iob_read_buffer_is_valid. rewrite Hrd. done.
Qed.

(** A character for a buffer that is full and cannot be emptied. *)
Lemma fputc_full_fails c s f e :
  writable (iob_Flags f) -> iob_Action f = iob_hook_entry -> iob_BufferReadBytes f = 0 ->
  0 < iob_BufferSize f -> iob_BufferWriteBytes f = iob_BufferSize f ->
  refuses s f (iob_Buffer f) (iob_BufferWriteBytes f) e ->
  fputc_file c f s = Ok (EOF, SET_FLAG f IOBF_ERROR) (put_errno s e).
Proof.
  intros Hfl HA Hrd Hsz Hfull He. rewrite fputc_start by done. unfold fputc_mode, iob_write_buffer_is_full.
  rewrite (proj2 (Z.ltb_lt _ _) Hsz), (proj2 (Z.eqb_eq _ _) Hfull). cbn [andb].
  erewrite bind_ok by (apply flush_fails; [done|done|lia|done]). done.
Qed.

(** A character for an unbuffered stream. *)
Lemma fputc_direct_fails c s f e :
  writable (iob_Flags f) -> iob_Action f = iob_hook_entry -> iob_BufferReadBytes f = 0 ->
  is_byte c -> mode f = IOBF_BUFFER_MODE_NONE -> iob_BufferWriteBytes f = 0 -> 0 < iob_BufferSize f ->
  is_Some (mem s !! iob_Buffer f) ->
  refuses (wrote s (iob_Buffer f) [c]) f (iob_Buffer f) 1 e ->
  fputc_file c f s = Ok (EOF, SET_FLAG f IOBF_ERROR) (put_errno (wrote s (iob_Buffer f) [c]) e).
Proof.
  intros Hfl HA Hrd Hc Hmode Hw Hsz Hmp He. rewrite fputc_start, Hmode by done.
  unfold fputc_mode, iob_write_buffer_is_full. rewrite Hw.
  rewrite (proj2 (Z.eqb_neq 0 _)), andb_false_r by lia.
  erewrite bind_ok by reflexivity. cbv beta iota. change (OK <? 0) with false. cbv iota.
  unfold push. rewrite Hw, Z.add_0_r. erewrite bind_ok.
  2:{ erewrite bind_ok by (by apply store8_wrote). reflexivity. }
  cbv beta. change ((IOBF_BUFFER_MODE_NONE =? IOBF_BUFFER_MODE_NONE) || _) with true. cbv iota.
  change (0 + 1) with 1.
  erewrite bind_ok by (apply (flush_fails _ (set_WriteBytes f 1) e); done). cbv beta iota. destruct f.
  simpl in *. by subst.
Qed.

(** C39: What the calls do when they cannot write.  Without a stream or
    without a string or data they set [EFAULT] and do nothing else; on a
    stream that is not open for writing they set [EBADF] and the error
    indicator, and write nothing.  When the device reports an error, that
    error becomes [errno] and the indicator is set: a flush keeps every held
    character; a character that finds the buffer full is not taken, and the
    held ones are kept; a character put into an unbuffered stream is taken
    back. *)
Theorem output_errors :
  (forall c p size n f s,
     fputc c None s = Ok (EOF, None) (put_errno s EFAULT) /\
     fputs p None s = Ok (EOF, None) (put_errno s EFAULT) /\
     puts p None s = Ok (EOF, None) (put_errno s EFAULT) /\
     fwrite p size n None s = Ok (0, None) (put_errno s EFAULT) /\
     fputs NULL (Some f) s = Ok (EOF, Some f) (put_errno s EFAULT) /\
     puts NULL (Some f) s = Ok (EOF, Some f) (put_errno s EFAULT) /\
     fwrite NULL size n (Some f) s = Ok (0, Some f) (put_errno s EFAULT)) /\
  (forall c p size n f s, FLAG_IS_CLEAR (iob_Flags f) IOBF_WRITE = true ->
     fputc_file c f s = Ok (EOF, SET_FLAG f IOBF_ERROR) (put_errno s EBADF) /\
     fputs_file p f s = Ok (EOF, SET_FLAG f IOBF_ERROR) (put_errno s EBADF) /\
     (mode f <> IOBF_BUFFER_MODE_NONE ->
      puts_file p f s = Ok (EOF, SET_FLAG f IOBF_ERROR) (put_errno s EBADF)) /\
     fwrite_file p size n f s = Ok (0, SET_FLAG2 (SET_FLAG f IOBF_ERROR) SERR) (put_errno s EBADF)) /\
  (forall s f e, writable (iob_Flags f) -> iob_Action f = iob_hook_entry ->
     0 < iob_BufferWriteBytes f -> refuses s f (iob_Buffer f) (iob_BufferWriteBytes f) e ->
     fflush_file f s = Ok (EOF, SET_FLAG f IOBF_ERROR) (put_errno s e) /\
     (iob_BufferReadBytes f = 0 -> iob_BufferWriteBytes f = iob_BufferSize f ->
      forall c, fputc_file c f s = Ok (EOF, SET_FLAG f IOBF_ERROR) (put_errno s e))) /\
  (forall s f e c, writable (iob_Flags f) -> iob_Action f = iob_hook_entry -> iob_BufferReadBytes f = 0 ->
     is_byte c -> mode f = IOBF_BUFFER_MODE_NONE -> iob_BufferWriteBytes f = 0 -> 0 < iob_BufferSize f ->
     is_Some (mem s !! iob_Buffer f) ->
     refuses (wrote s (iob_Buffer f) [c]) f (iob_Buffer f) 1 e ->
     fputc_file c f s = Ok (EOF, SET_FLAG f IOBF_ERROR) (put_errno (wrote s (iob_Buffer f) [c]) e)).
Proof.
  split; [|split; [|split]].
  - intros c p size n f s. unfold fputs, puts, fwrite. by destruct (p =? NULL).
  - intros c p size n f s Hw.
    assert (Hc : fputc_check f s = Ok (EOF, SET_FLAG f IOBF_ERROR) (put_errno s EBADF)).
    { unfold fputc_check. rewrite Hw. by destruct (FLAG_IS_CLEAR (iob_Flags f) IOBF_IN_USE). }
    split; [unfold fputc_file; by erewrite bind_ok by exact Hc|].
    split; [unfold fputs_file; by erewrite bind_ok by exact Hc|]. split.
    + intros Hm. unfold puts_file, text_mode. fold (mode f). apply Z.eqb_neq in Hm. rewrite Hm.
      erewrite bind_ok by reflexivity. by erewrite bind_ok by exact Hc.
    + unfold fwrite_file. rewrite Hw, orb_true_r. done.
  - intros s f e Hfl HA Hw He. split.
    + unfold fflush_file, iob_write_buffer_is_valid. rewrite (proj2 (Z.ltb_lt _ _) Hw).
      by erewrite bind_ok by (by apply flush_fails).
    + intros Hrd Hfull c. apply fputc_full_fails; try done. lia.
  - intros. by apply fputc_direct_fails.
Qed.
End Output.

(** ** A system with one file, and a session on it *)

#[export] Instance sample_dos : Dos := {|
  fds := [Some (mkFd 130 None)];
  fd_Action i fam s :=
    match fam, files s !! i with
    | file_action_write p n, Some w => Ok (n, OK) (put_file s i (w ++ peek (mem s) p n))
    | _, _ => Ok (EOF, EBADF) s
    end;
  send _ _ _ := ret EOF;
  IoErr := ret EBADF;
|}.

#[export] Instance sample_dos_laws : DosLaws sample_dos.
Proof.
  split; simpl.
  - intros i s p l w Hb Hl Hf. rewrite Hf. by rewrite peek_bytes.
  - intros i s p n Hf. rewrite Hf. by eexists.
Qed.

(** A fully buffered stream with a buffer of four bytes at 1000, of which
    [n] are in use. *)
Definition sample_stream (n : Z) : iob := mkIob 304 0 1000 4 0 0 n iob_hook_entry 0 0 0 0.

Definition sample_state : state :=
  mkState (memory [(1000, [0; 0; 0; 0]); (2000, zstr "hello" ++ [0; 0]); (3000, bytes "abc!")]) 0
    (<[0 := bytes "> "]> ∅).

(** The same with the buffer filled by "wxyz". *)
Definition full_state : state := wrote sample_state 1000 (bytes "wxyz").

Lemma sample_direct n : direct (sample_stream n).
Proof. split; [done|]. by exists 0, (mkFd 130 None). Qed.

Lemma sample_streams : Stream 100 sample_state (sample_stream 0) (bytes "> ") [] /\
  Stream 100 full_state (sample_stream 4) (bytes "> ") (bytes "wxyz").
Proof.
  split; (split; try done; try (simpl; lia); try ground; try (by right)).
  - by exists 0.
  - repeat constructor; done.
  - by exists 0.
Qed.

Lemma sample_aside p n k : 1004 <= p -> aside 100 (sample_stream k) p n.
Proof. intros Hp a Ha [?|?]; unfold out_len in *; simpl in *; lia. Qed.

Lemma sample_session :
  exists s' f', session 100 sample_state (sample_stream 0) (bytes "ahelloabc") s' f'.
Proof.
  change (bytes "ahelloabc") with (bytes "a" ++ bytes "hello" ++ bytes "abc" ++ []).
  eexists _, _.
  eapply session_call; [apply (says_putc _ _ _ 97); zlia|vm_compute; reflexivity|].
  eapply session_call;
    [apply (says_fputs _ _ _ 2000); [ground|ground_words|done|by apply sample_aside]|vm_compute; reflexivity|].
  eapply (session_call _ _ _ (Fwrite 3000 1 3)); [|vm_compute; reflexivity|apply session_nil].
  apply says_fwrite with (p := 3000) (size := 1) (n := 3); try done; try ground.
  - repeat constructor; done.
  - by apply (sample_aside 3000 3 2).
  - left. done.
Qed.

Lemma stream_refines_witness :
  exists s' f', session 100 sample_state (sample_stream 0) (bytes "ahelloabc") s' f' /\
    exists s2 f2, fflush_file f' s' = Ok (OK, f2) s2 /\ contents s2 f2 = Some (bytes "> ahelloabc").
Proof.
  destruct sample_session as (s' & f' & Hs). exists s', f'. split; [exact Hs|].
  apply (stream_refines 100 sample_state (sample_stream 0) (bytes "> ") [] _ _ _
    (proj1 sample_streams) (sample_direct 0)); [by split|exact Hs|done].
Defined.

Lemma fwrite_full_buffer_witness :
  exists s' f', fwrite_file 3000 1 3 (sample_stream 4) full_state = Ok (4, f') s' /\
    exists s2 f2, fflush_file f' s' = Ok (OK, f2) s2 /\
      contents s2 f2 = Some (bytes "> wxyzabc!").
Proof.
  apply (fwrite_full_buffer 100 full_state (sample_stream 4) (bytes "> ") (bytes "wxyz") 3000
    (bytes "abc") 33 (proj2 sample_streams) (sample_direct 4)); try done.
  split; [ground|repeat constructor; done|split; vm_compute; congruence|by apply sample_aside|done].
Defined.

Lemma output_errors_witness :
  let s := mkState (mem sample_state) 0 ∅ in
  fflush_file (sample_stream 1) s = Ok (EOF, SET_FLAG (sample_stream 1) IOBF_ERROR) (put_errno s EBADF) /\
  fputc_file 65 (set_Flags (sample_stream 0) 306) s =
    Ok (EOF, SET_FLAG (set_Flags (sample_stream 0) 306) IOBF_ERROR) (put_errno (wrote s 1000 [65]) EBADF) /\
  fputs_file 2000 (set_Flags (sample_stream 0) 40) s =
    Ok (EOF, SET_FLAG (set_Flags (sample_stream 0) 40) IOBF_ERROR) (put_errno s EBADF).
Proof.
  destruct (output_errors (HD := sample_dos)) as (_ & B & C & D). cbv zeta. split; [|split].
  - refine (proj1 (C _ (sample_stream 1) EBADF eq_refl eq_refl eq_refl _)). exists 0. split; reflexivity.
  - apply (D _ (set_Flags (sample_stream 0) 306)); try reflexivity; [done|by eexists|].
    exists 0. split; reflexivity.
  - exact (proj1 (proj2 (B 0 2000 0 0 (set_Flags (sample_stream 0) 40) _ eq_refl))).
Defined.
