(* ===== verification/Printf.v ===== *)
(** * Formatted output ([library/stdio/vfprintf.c] and its callers)

    [printf_core] interprets a format twice: first without a stream, to find
    errors and the types of numbered arguments, then to write.  A pointer to
    the characters of a conversion is a [text]: bytes of a local array or
    literal, or an address in memory.  Floating-point conversions and
    [strerror] are parameters; the former is one in the source too. *)

From Stdlib Require Import String.
From S2P Require Import Prelude CMem CType Words StrScan StrCopy Stdio.

(** ** Integers *)

Definition s64 (x : Z) : Z :=
  (x + 9223372036854775808) mod 18446744073709551616 - 9223372036854775808.
Definition u16 (x : Z) : Z := x mod 65536.
Definition s16 (x : Z) : Z := (x + 32768) mod 65536 - 32768.
Definition s8 (x : Z) : Z := (x + 128) mod 256 - 128.
Definition INT_MAX : Z := 2147483647.
Definition ULONG_MAX : Z := 4294967295.
Definition INTMAX_MAX : Z := 9223372036854775807.

(** ** The state machine of conversion specifiers ([wchar_wprintf_core.h]) *)

Module Spec.
Definition BARE : Z := 0.
Definition LPRE : Z := 1.
Definition LLPRE : Z := 2.
Definition HPRE : Z := 3.
Definition HHPRE : Z := 4.
Definition BIGLPRE : Z := 5.
Definition ZTPRE : Z := 6.
Definition JPRE : Z := 7.
Definition STOP : Z := 8.
Definition PTR : Z := 9.
Definition INT : Z := 10.
Definition UINT : Z := 11.
Definition ULLONG : Z := 12.
Definition LONG : Z := 13.
Definition ULONG : Z := 14.
Definition SHORT : Z := 15.
Definition USHORT : Z := 16.
Definition CHAR : Z := 17.
Definition UCHAR : Z := 18.
Definition LLONG : Z := 19.
Definition SIZET : Z := 20.
Definition IMAX : Z := 21.
Definition UMAX : Z := 22.
Definition PDIFF : Z := 23.
Definition UIPTR : Z := 24.
Definition DBL : Z := 25.
Definition LDBL : Z := 26.
Definition NOARG : Z := 27.
Definition MAXSTATE : Z := 28.

(** [S(c)] of every character of [cs] is [st]. *)
Definition all_to (cs : string) (st : Z) : list (Z * Z) := map (fun c => (c, st)) (bytes cs).

Definition states : list (list (Z * Z)) := [
  (* 0: bare types *)
  all_to "di" INT ++ all_to "ouxX" UINT ++ all_to "efgaEFGA" DBL ++ all_to "c" CHAR ++
  all_to "C" INT ++ all_to "sS" PTR ++ all_to "p" UIPTR ++ all_to "n" PTR ++
  all_to "m" NOARG ++ all_to "l" LPRE ++ all_to "h" HPRE ++ all_to "L" BIGLPRE ++
  all_to "z" ZTPRE ++ all_to "j" JPRE ++ all_to "t" ZTPRE;
  (* 1: l-prefixed *)
  all_to "di" LONG ++ all_to "ouxX" ULONG ++ all_to "efgaEFGA" DBL ++ all_to "c" INT ++
  all_to "sn" PTR ++ all_to "l" LLPRE;
  (* 2: ll-prefixed *)
  all_to "di" LLONG ++ all_to "ouxX" ULLONG ++ all_to "n" PTR;
  (* 3: h-prefixed *)
  all_to "di" SHORT ++ all_to "ouxX" USHORT ++ all_to "n" PTR ++ all_to "h" HHPRE;
  (* 4: hh-prefixed *)
  all_to "di" CHAR ++ all_to "ouxX" UCHAR ++ all_to "n" PTR;
  (* 5: L-prefixed *)
  all_to "efgaEFGA" LDBL ++ all_to "n" PTR;
  (* 6: z- or t-prefixed *)
  all_to "di" PDIFF ++ all_to "ouxX" SIZET ++ all_to "n" PTR;
  (* 7: j-prefixed *)
  all_to "di" IMAX ++ all_to "ouxX" UMAX ++ all_to "n" PTR ].

Fixpoint assoc (c : Z) (row : list (Z * Z)) : Z :=
  match row with
  | [] => 0
  | (k, st) :: row' => if c =? k then st else assoc c row'
  end.

(** [states[st]S(c)] *)
Definition spec_state (st c : Z) : Z := assoc c (nth (Z.to_nat st) states []).

Definition ALT_FORM : Z := 8.
Definition ZERO_PAD : Z := 65536.
Definition LEFT_ADJ : Z := 8192.
Definition PAD_POS : Z := 1.
Definition MARK_POS : Z := 2048.
Definition GROUPED : Z := 128.
Definition FLAGMASK : Z := 75913.
End Spec.
Import Spec.

(** [OOB(x)] *)
Definition OOB (c : Z) : bool := 57 <? u32 (c - 65).

Definition NL_ARGMAX : nat := 127.

(** The digits, upper case. *)
Definition xdigits : list Z := bytes "0123456789ABCDEF".

(** [sizeof(uintmax_t) * 3 + 3 + LDBL_MANT_DIG / 4] *)
Definition BUF_SIZE : nat := 40.

(** A pointer to characters. *)
Inductive text :=
  | Arr (l : list Z)    (** the rest of a local array or literal *)
  | Mem (p : Z).

Definition deref (t : text) (i : Z) : M Z :=
  match t with
  | Arr l => match l !! Z.to_nat i with Some c => ret c | None => fault end
  | Mem p => load8 (p + i)
  end.

(** Writing [*--s = c] into [buf], of which the characters [acc] are used. *)
Definition before (c : Z) (acc : list Z) : M (list Z) :=
  if decide (length acc < BUF_SIZE)%nat then ret (u8 c :: acc) else fault.

Definition fmt_x_body (lower : Z) : Z * list Z -> M (Z * list Z + list Z) := fun '(x, acc) =>
  if x =? 0 then leave acc
  else
    let* acc := before (Z.lor (nth (Z.to_nat (Z.land x 15)) xdigits 0) lower) acc in
    again (Z.shiftr x 4, acc).
Definition fmt_x (x lower : Z) : M (list Z) := loop (fmt_x_body lower) (x, []).

Definition fmt_o_body : Z * list Z -> M (Z * list Z + list Z) := fun '(x, acc) =>
  if x =? 0 then leave acc
  else let* acc := before (48 + Z.land x 7) acc in again (Z.shiftr x 3, acc).
Definition fmt_o (x : Z) : M (list Z) := loop fmt_o_body (x, []).

Definition fmt_u_long_body : Z * list Z -> M (Z * list Z + Z * list Z) := fun '(x, acc) =>
  if ULONG_MAX <? x then let* acc := before (48 + x mod 10) acc in again (x / 10, acc)
  else leave (x, acc).
Definition fmt_u_body : Z * list Z -> M (Z * list Z + list Z) := fun '(y, acc) =>
  if y =? 0 then leave acc
  else let* acc := before (48 + y mod 10) acc in again (y / 10, acc).
Definition fmt_u (x : Z) : M (list Z) :=
  let* (x, acc) := loop fmt_u_long_body (x, []) in loop fmt_u_body (x, acc).

(** [_out->file] and [_out->buffer_pos]; [vfprintf] always has a file. *)
Record Out := mkOut { o_file : iob; o_pos : Z }.

(** The arguments of a call as it passes them: words (integers up to [long]
    and pointers), [long long]s and floating-point numbers. *)
Inductive value (F : Type) :=
  | Word (w : Z)
  | Long (w : Z)
  | Float (d : F).
Arguments Word {F} w.
Arguments Long {F} w.
Arguments Float {F} d.

(** [union arg] *)
Inductive uarg (F : Type) :=
  | arg_i (i : Z)
  | arg_f (d : F)
  | arg_p (p : Z).
Arguments arg_i {F} i.
Arguments arg_f {F} d.
Arguments arg_p {F} p.

Section Code.
Context `{SysMem} `{Dos} {F : Type}.
(** [__locale_table[LC_CTYPE]], for [isdigit] *)
Context (lc : option Locale).
(** [_wctomb_r], [strerror] *)
Context (wctomb : Z -> M (Z * list Z)) (strerror : Z -> M Z).

Definition va_word (ap : list (value F)) : M (Z * list (value F)) :=
  match ap with Word w :: ap => ret (w, ap) | _ => fault end.
Definition va_long (ap : list (value F)) : M (Z * list (value F)) :=
  match ap with Long w :: ap => ret (w, ap) | _ => fault end.
Definition va_float (ap : list (value F)) : M (F * list (value F)) :=
  match ap with Float d :: ap => ret (d, ap) | _ => fault end.

(** The member of the union a conversion reads. *)
Definition get_i (a : uarg F) : M Z := match a with arg_i i => ret i | _ => fault end.
Definition get_p (a : uarg F) : M Z := match a with arg_p p => ret p | _ => fault end.
Definition get_f (a : uarg F) : M F := match a with arg_f d => ret d | _ => fault end.

Definition pop_arg (a : uarg F) (type : Z) (ap : list (value F)) : M (uarg F * list (value F)) :=
  let word (conv : Z -> Z) := let* (w, ap) := va_word ap in ret (arg_i (u64 (conv w)), ap) in
  let long := let* (w, ap) := va_long ap in ret (arg_i (u64 w), ap) in
  if type =? PTR then let* (w, ap) := va_word ap in ret (arg_p (u32 w), ap)
  else if type =? INT then word s32
  else if type =? UINT then word u32
  else if type =? LONG then word s32
  else if type =? ULONG then word u32
  else if type =? ULLONG then long
  else if type =? SHORT then word s16
  else if type =? USHORT then word u16
  else if type =? CHAR then word s8
  else if type =? UCHAR then word u8
  else if type =? LLONG then long
  else if type =? SIZET then word u32
  else if type =? IMAX then long
  else if type =? UMAX then long
  else if type =? PDIFF then word s32
  else if type =? UIPTR then word u32
  else if type =? DBL then let* (d, ap) := va_float ap in ret (arg_f d, ap)
  else if type =? LDBL then let* (d, ap) := va_float ap in ret (arg_f d, ap)
  else ret (a, ap).

(** *** Writing *)

Definition out_body (t : text) : Z * Z * iob -> M (Z * Z * iob + iob) := fun '(i, length, f) =>
  if length =? 0 then leave f
  else
    let* c := deref t i in
    let* (_, f) := putc_unlocked c f in
    again (i + 1, length - 1, f).

Definition out (o : Out) (t : text) (l : Z) : M Out :=
  if l =? 0 then ret o
  else
    let* f := loop (out_body t) (0, l, o_file o) in
    ret (mkOut f (u32 (o_pos o + l))).

Definition pad_body (_pad : list Z) : Out * Z -> M (Out * Z + Out * Z) := fun '(f, l) =>
  if 256 <=? l then let* f := out f (Arr _pad) 256 in again (f, l - 256) else leave (f, l).

Definition pad (f : Out) (c w l fl : Z) : M Out :=
  if negb (Z.land fl (Z.lor LEFT_ADJ ZERO_PAD) =? 0) || (w <=? l) then ret f
  else
    let l := w - l in
    let _pad := replicate (Z.to_nat (if 256 <? l then 256 else l)) c in
    let* (f, l) := loop (pad_body _pad) (f, l) in
    out f (Arr _pad) l.

(** *** Reading a conversion specification *)

(** [goto inval], [goto overflow] and [return r]. *)
Inductive stop := inval | overflow | return_ (r : Z).

Definition try {A B} (c : M (stop + A)) (k : A -> M (stop + B)) : M (stop + B) :=
  let* r := c in match r with inl e => ret (inl e) | inr a => k a end.
Notation "'let?' x ':=' c 'in' k" := (try c (fun x => k))
  (at level 10, x pattern, c at level 100, k at level 200) : c_scope.
Definition give {A} (a : A) : M (stop + A) := ret (inr a).
Definition quit {A} (e : stop) : M (stop + A) := ret (inl e).

Definition digit_r (c : Z) : bool := negb (isdigit_r lc c =? 0).

(** The variables of [printf_core] that live from one round of its loop to
    the next. *)
Record core := mkCore {
  k_s : Z;  k_cnt : Z;  k_l : Z;  k_l10n : bool;
  k_ap : list (value F);
  k_out : option Out;               (** [f] *)
  k_args : list (uarg F);           (** [nl_arg] *)
  k_types : list Z;                 (** [nl_type] *)
}.
Definition set_s (k : core) (s : Z) : core :=
  mkCore s (k_cnt k) (k_l k) (k_l10n k) (k_ap k) (k_out k) (k_args k) (k_types k).
Definition set_cnt (k : core) (n : Z) : core :=
  mkCore (k_s k) n (k_l k) (k_l10n k) (k_ap k) (k_out k) (k_args k) (k_types k).
Definition set_l (k : core) (n : Z) : core :=
  mkCore (k_s k) (k_cnt k) n (k_l10n k) (k_ap k) (k_out k) (k_args k) (k_types k).
Definition set_l10n (k : core) : core :=
  mkCore (k_s k) (k_cnt k) (k_l k) true (k_ap k) (k_out k) (k_args k) (k_types k).
Definition set_ap (k : core) (ap : list (value F)) : core :=
  mkCore (k_s k) (k_cnt k) (k_l k) (k_l10n k) ap (k_out k) (k_args k) (k_types k).
Definition set_out (k : core) (o : Out) : core :=
  mkCore (k_s k) (k_cnt k) (k_l k) (k_l10n k) (k_ap k) (Some o) (k_args k) (k_types k).
Definition set_types (k : core) (l : list Z) : core :=
  mkCore (k_s k) (k_cnt k) (k_l k) (k_l10n k) (k_ap k) (k_out k) (k_args k) l.

(** [nl_type[i] = st] and [nl_arg[i]] *)
Definition set_type (k : core) (i st : Z) : M core :=
  if (0 <=? i) && (i <? Z.of_nat (length (k_types k)))
  then ret (set_types k (<[Z.to_nat i := st]> (k_types k))) else fault.
Definition numbered (k : core) (i : Z) : M (uarg F) :=
  match k_args k !! Z.to_nat i with Some a => ret a | None => fault end.

Definition getint_body : Z * Z -> M (Z * Z + Z * Z) := fun '(i, s) =>
  let* c := load8 s in
  if digit_r c then
    again (if (INT_MAX / 10 <? u32 i) || (INT_MAX - 10 * i <? c - 48) then -1
           else 10 * i + (c - 48), s + 1)
  else leave (i, s).
Definition getint (s : Z) : M (Z * Z) := loop getint_body (0, s).

(** [isdigit(s[n]) && s[n + 1] == '$'], and the digit *)
Definition dollar (s n : Z) : M (option Z) :=
  let* c := load8 (s + n) in
  if digit_r c then
    let* d := load8 (s + n + 1) in ret (if d =? 36 then Some (c - 48) else None)
  else ret None.

Definition read_argpos (k : core) : M (core * Z) :=
  let* d := dollar (k_s k) 1 in
  match d with
  | Some argpos => ret (set_s (set_l10n k) (k_s k + 3), argpos)
  | None => ret (set_s k (k_s k + 1), -1)
  end.

Definition flags_body : Z * Z -> M (Z * Z + Z * Z) := fun '(s, fl) =>
  let* c := load8 s in
  if (u32 (c - 32) <? 32) && negb (Z.land FLAGMASK (Z.shiftl 1 (c - 32)) =? 0)
  then again (s + 1, Z.lor fl (Z.shiftl 1 (c - 32)))
  else leave (s, fl).
Definition read_flags (k : core) : M (core * Z) :=
  let* (s, fl) := loop flags_body (k_s k, 0) in ret (set_s k s, fl).

(** The next argument, an [int]; 0 while only checking. *)
Definition star (k : core) : M (core * Z) :=
  match k_out k with
  | Some _ => let* (w, ap) := va_word (k_ap k) in ret (set_ap k ap, s32 w)
  | None => ret (k, 0)
  end.
Definition star_numbered (k : core) (i : Z) : M (core * Z) :=
  match k_out k with
  | Some _ => let* a := numbered k i in let* w := get_i a in ret (k, s32 w)
  | None => let* k := set_type k i INT in ret (k, 0)
  end.

Definition read_width (k : core) (fl : Z) : M (stop + core * Z * Z) :=
  let* c := load8 (k_s k) in
  if c =? 42 then
    let* d := dollar (k_s k) 1 in
    let? (k, w) :=
      match d with
      | Some i =>
          let* (k', w) := star_numbered (set_l10n k) i in give (set_s k' (k_s k + 3), w)
      | None =>
          if negb (k_l10n k) then
            let* (k', w) := star k in give (set_s k' (k_s k + 1), w)
          else quit inval
      end in
    if w <? 0 then give (k, Z.lor fl LEFT_ADJ, s32 (- w)) else give (k, fl, w)
  else
    let* (w, s) := getint (k_s k) in
    if w <? 0 then quit overflow else give (set_s k s, fl, w).

(** The precision, and whether one was given. *)
Definition read_precision (k : core) : M (stop + core * Z * bool) :=
  let* c := load8 (k_s k) in
  if c =? 46 then
    let* c1 := load8 (k_s k + 1) in
    if c1 =? 42 then
      let* d := dollar (k_s k) 2 in
      let? (k, p) :=
        match d with
        | Some i => let* (k', p) := star_numbered k i in give (set_s k' (k_s k + 4), p)
        | None =>
            if negb (k_l10n k) then
              let* (k', p) := star k in give (set_s k' (k_s k + 2), p)
            else quit inval
        end in
      give (k, p, 0 <=? p)
    else let* (p, s) := getint (k_s k + 1) in give (set_s k s, p, true)
  else give (k, -1, false).

Definition specifier_body : Z * Z -> M (Z * Z + (stop + Z * Z * Z)) := fun '(st, s) =>
  let* c := load8 s in
  if OOB c then leave (inl inval)
  else
    let st' := spec_state st c in
    if u32 (st' - 1) <? STOP then again (st', s + 1) else leave (inr (st', st, s + 1)).

(** The final state, the one before it, and the character that led there. *)
Definition read_specifier (k : core) : M (stop + core * Z * Z * Z) :=
  let? (st, ps, s) := loop specifier_body (0, k_s k) in
  if st =? 0 then quit inval
  else let* t := load8 (s - 1) in give (set_s k s, st, ps, t).

Definition fetch_arg (k : core) (argpos st : Z) : M (stop + core * uarg F) :=
  if st =? NOARG then (if 0 <=? argpos then quit inval else give (k, arg_i 0))
  else if 0 <=? argpos then
    match k_out k with
    | None => let* k := set_type k argpos st in give (k, arg_i 0)
    | Some _ => let* a := numbered k argpos in give (k, a)
    end
  else
    match k_out k with
    | Some _ => let* (a, ap) := pop_arg (arg_i 0) st (k_ap k) in give (set_ap k ap, a)
    | None => quit (return_ 0)
    end.

(** *** Conversions *)

(** What the conversions hand to the common end of the loop: the characters
    from [a] to [z], the prefix, and the width, precision and flags. *)
Record field := mkField {
  f_a : text;  f_n : Z;  f_prefix : list Z;  f_w : Z;  f_p : Z;  f_fl : Z;
}.

Definition has (fl bit : Z) : bool := negb (Z.land fl bit =? 0).
Definition without (fl bit : Z) : Z := Z.land fl (not32 bit).

(** [pl] characters of the table, from [off] on. *)
Definition prefixes : list Z := bytes "-+   0X0x".
Definition prefix_at (off pl : nat) : list Z := take pl (drop off prefixes).

(** From the digits [ds] of [i] to the field: the tail shared by the integer
    conversions. *)
Definition int_tail (i : Z) (ds prefix : list Z) (w p fl : Z) (xp : bool) : M (stop + field) :=
  if xp && (p <? 0) then quit overflow
  else
    let fl := if xp then without fl ZERO_PAD else fl in
    if (i =? 0) && (p =? 0) then give (mkField (Arr []) 0 prefix w p fl)
    else
      let n := Z.of_nat (length ds) in
      give (mkField (Arr ds) n prefix w (Z.max p (n + Z.b2z (i =? 0))) fl).

Definition conv_hex (i t w p fl : Z) (xp : bool) : M (stop + field) :=
  let* ds := fmt_x i (Z.land t 32) in
  let prefix := if negb (i =? 0) && has fl ALT_FORM
                then prefix_at (Z.to_nat (Z.shiftr t 4)) 2 else [] in
  int_tail i ds prefix w p fl xp.

Definition conv_oct (i w p fl : Z) (xp : bool) : M (stop + field) :=
  let* ds := fmt_o i in
  let n := Z.of_nat (length ds) in
  let p := if has fl ALT_FORM && (p <? n + 1) then n + 1 else p in
  int_tail i ds [] w p fl xp.

Definition conv_dec (i w p fl : Z) (xp : bool) : M (stop + field) :=
  let '(i, prefix) :=
    if INTMAX_MAX <? i then (u64 (- i), prefix_at 0 1)
    else if has fl MARK_POS then (i, prefix_at 1 1)
    else if has fl PAD_POS then (i, prefix_at 2 1)
    else (i, []) in
  let* ds := fmt_u i in
  int_tail i ds prefix w p fl xp.

Definition conv_unsigned (i w p fl : Z) (xp : bool) : M (stop + field) :=
  let* ds := fmt_u i in int_tail i ds [] w p fl xp.

(** [strnlen] of the characters at [a]; a literal ends with its zero byte. *)
Definition text_strnlen (a : text) (n : Z) : M Z :=
  match a with
  | Mem p => strnlen p n
  | Arr l => ret (Z.min n (Z.of_nat (length l) - 1))
  end.

Definition conv_string (a : text) (w p fl : Z) : M (stop + field) :=
  let* n := text_strnlen a (if p <? 0 then INT_MAX else p) in
  let* over := if p <? 0 then let* c := deref a n in ret (negb (c =? 0)) else ret false in
  if over then quit overflow
  else give (mkField a n [] w n (without fl ZERO_PAD)).

(** [%n] *)
Definition store64 (p v : Z) : M unit := store32 p (u32 (v / 4294967296)) ;; store32 (p + 4) (u32 v).
Definition store16 (p v : Z) : M unit :=
  if p mod 2 =? 0 then store8 p (v / 256) ;; store8 (p + 1) v else fault.

Definition conv_count (ps p cnt : Z) : M unit :=
  if ps =? BARE then store32 p cnt
  else if ps =? LPRE then store32 p cnt
  else if ps =? LLPRE then store64 p cnt
  else if ps =? HPRE then store16 p (u16 cnt)
  else if ps =? HHPRE then store8 p cnt
  else if ps =? ZTPRE then store32 p cnt
  else if ps =? JPRE then store64 p cnt
  else ret tt.

(** Wide characters: a local array, or words in memory. *)
Inductive wide := WArr (l : list Z) | WMem (p : Z).
Definition wderef (ws : wide) : M Z :=
  match ws with
  | WArr l => match l with c :: _ => ret c | [] => fault end
  | WMem p => load32 p
  end.
Definition wnext (ws : wide) : wide :=
  match ws with WArr l => WArr (tail l) | WMem p => WMem (p + 4) end.

(** [wctomb] into [mb[4]] *)
Definition wctomb4 (wc : Z) : M (Z * list Z) :=
  let* (l, mb) := wctomb wc in
  if decide (length mb <= 4)%nat then ret (l, mb) else fault.

(** The first loop of [%S]: the bytes that fit into the precision. *)
Definition measure_body (p : Z) : Z * Z * wide -> M (Z * Z * wide + Z * Z) := fun '(i, l, ws) =>
  if negb (i <? u32 p) then leave (i, l)
  else
    let* wc := wderef ws in
    if wc =? 0 then leave (i, l)
    else
      let* (l, _) := wctomb4 wc in
      if (0 <=? l) && (l <=? u32 (p - i)) then again (u32 (i + l), l, wnext ws)
      else leave (i, l).

(** The second one. *)
Definition wide_body (p : Z) : Z * wide * Out -> M (Z * wide * Out + Out) := fun '(i, ws, f) =>
  if negb (i <? u32 p) then leave f
  else
    let* wc := wderef ws in
    if wc =? 0 then leave f
    else
      let* (l, mb) := wctomb4 wc in
      if u32 (i + l) <=? u32 p then
        let* f := out f (Arr mb) l in again (u32 (i + l), wnext ws, f)
      else leave f.

Definition conv_wide (f : Out) (ws : wide) (w p fl : Z) : M (Out * (stop + Z)) :=
  let* (i, l) := loop (measure_body p) (0, 0, ws) in
  if l <? 0 then ret (f, inl (return_ (-1)))
  else if INT_MAX <? i then ret (f, inl overflow)
  else
    let p := i in
    let* f := pad f 32 w p fl in
    let* f := loop (wide_body p) (0, ws, f) in
    let* f := pad f 32 w p (Z.lxor fl LEFT_ADJ) in
    ret (f, inr (if p <? w then w else p)).

(** The common end of the loop. *)
Definition write_field (f : Out) (d : field) (cnt : Z) : M (Out * (stop + Z)) :=
  let n := f_n d in
  let pl := Z.of_nat (length (f_prefix d)) in
  let p := if f_p d <? n then n else f_p d in
  if INT_MAX - pl <? p then ret (f, inl overflow)
  else
    let w := if f_w d <? pl + p then pl + p else f_w d in
    if INT_MAX - cnt <? w then ret (f, inl overflow)
    else
      let* f := pad f 32 w (pl + p) (f_fl d) in
      let* f := out f (Arr (f_prefix d)) pl in
      let* f := pad f 48 w (pl + p) (Z.lxor (f_fl d) ZERO_PAD) in
      let* f := pad f 48 p n 0 in
      let* f := out f (f_a d) n in
      let* f := pad f 32 w (pl + p) (Z.lxor (f_fl d) LEFT_ADJ) in
      ret (f, inr w).

(** [fmt_fp], a parameter of [printf_core]. *)
Context (fmt_fp : Out -> F -> Z -> Z -> Z -> Z -> M (Z * Out)).

(** The [switch] on the conversion character, and what follows it; with the
    count of characters it writes. *)
Definition convert (k : core) (f : Out) (a : uarg F) (ps t w p fl : Z) (xp : bool)
    : M (Out * (stop + Z)) :=
  let field (c : M (stop + field)) :=
    let* r := c in
    match r with inl e => ret (f, inl e) | inr d => write_field f d (k_cnt k) end in
  if t =? 110 (* n *) then
    let* ptr := get_p a in conv_count ps ptr (k_cnt k) ;; ret (f, inr (k_l k))
  else if t =? 112 (* p *) then
    let* i := get_i a in
    field (conv_hex i 120 w (if 8 <? u32 p then p else 8) (Z.lor fl ALT_FORM) xp)
  else if (t =? 120) || (t =? 88) (* x X *) then
    let* i := get_i a in field (conv_hex i t w p fl xp)
  else if t =? 111 (* o *) then
    let* i := get_i a in field (conv_oct i w p fl xp)
  else if (t =? 100) || (t =? 105) (* d i *) then
    let* i := get_i a in field (conv_dec i w p fl xp)
  else if t =? 117 (* u *) then
    let* i := get_i a in field (conv_unsigned i w p fl xp)
  else if t =? 99 (* c *) then
    let* i := get_i a in field (give (mkField (Arr [u8 i]) 1 [] w 1 (without fl ZERO_PAD)))
  else if t =? 109 (* m *) then
    let* e := (fun s => Ok (errno s) s) in
    let* msg := strerror e in field (conv_string (Mem msg) w p fl)
  else if t =? 115 (* s *) then
    let* ptr := get_p a in
    field (conv_string (if ptr =? NULL then Arr (zstr "(null)") else Mem ptr) w p fl)
  else if t =? 67 (* C *) then
    let* i := get_i a in conv_wide f (WArr [u32 i; 0]) w (-1) fl
  else if t =? 83 (* S *) then
    let* ptr := get_p a in conv_wide f (WMem ptr) w p fl
  else (* e f g a E F G A *)
    let* d := get_f a in
    if xp && (p <? 0) then ret (f, inl overflow)
    else
      let* (l, f) := fmt_fp f d w p fl t in
      ret (f, if l <? 0 then inl overflow else inr l).

(** *** The loop *)

Definition text_body : Z -> M (Z + Z) := fun s =>
  let* c := load8 s in
  if negb (c =? 0) && negb (c =? 37) then again (s + 1) else leave s.
Definition percents_body : Z * Z -> M (Z * Z + Z * Z) := fun '(z, s) =>
  let* c := load8 s in
  if c =? 37 then
    let* c1 := load8 (s + 1) in
    if c1 =? 37 then again (z + 1, s + 2) else leave (z, s)
  else leave (z, s).

(** A conversion specification and its argument. *)
Definition read_conversion (k : core) : M (stop + core * uarg F * (Z * Z * Z * Z * Z * bool)) :=
  let* (k, argpos) := read_argpos k in
  let* (k, fl) := read_flags k in
  let? (k, fl, w) := read_width k fl in
  let? (k, p, xp) := read_precision k in
  let? (k, st, ps, t) := read_specifier k in
  let? (k, a) := fetch_arg k argpos st in
  give (k, a, (ps, t, w, p, fl, xp)).

Definition directive (k : core) : M ((stop + unit) * core) :=
  let* r := read_conversion k in
  match r with
  | inl e => ret (inl e, k)
  | inr (k, a, (ps, t, w, p, fl, xp)) =>
      match k_out k with
      | None => ret (inr tt, k)
      | Some f =>
          let t := if negb (ps =? 0) && (Z.land t 15 =? 3) then without t 32 else t in
          let fl := if has fl LEFT_ADJ then without fl ZERO_PAD else fl in
          let* (f, r) := convert k f a ps t w p fl xp in
          match r with
          | inl e => ret (inl e, set_out k f)
          | inr l => ret (inr tt, set_l (set_out k f) l)
          end
      end
  end.

Definition core_body : core -> M (core + (stop + unit) * core) := fun k =>
  if INT_MAX - k_cnt k <? k_l k then leave (inl overflow, k)
  else
    let k := set_cnt k (k_cnt k + k_l k) in
    let* c := load8 (k_s k) in
    if c =? 0 then leave (inr tt, k)
    else
      let a := k_s k in
      let* s := loop text_body a in
      let* (z, s) := loop percents_body (s, s) in
      if INT_MAX - k_cnt k <? z - a then leave (inl overflow, k)
      else
        let k := set_s (set_l k (z - a)) s in
        let* k := match k_out k with
                  | Some f => let* f := out f (Mem a) (z - a) in ret (set_out k f)
                  | None => ret k
                  end in
        if negb (z - a =? 0) then again k
        else
          let* (r, k) := directive k in
          match r with
          | inl e => leave (inl e, k)
          | inr _ => again k
          end.

(** The arguments of numbered conversions, in order. *)
Definition pop_body : nat * core -> M (nat * core + nat * core) := fun '(i, k) =>
  if decide (i <= NL_ARGMAX)%nat then
    match k_types k !! i with
    | None => fault
    | Some ty =>
        if ty =? 0 then leave (i, k)
        else
          let* (a, ap) := pop_arg (arg_i 0) ty (k_ap k) in
          match k_args k !! i with
          | None => fault
          | Some _ =>
              again (S i, mkCore (k_s k) (k_cnt k) (k_l k) (k_l10n k) ap (k_out k)
                            (<[i := a]> (k_args k)) (k_types k))
          end
    end
  else leave (i, k).
Definition gap_body (types : list Z) : nat -> M (nat + nat) := fun i =>
  if decide (i <= NL_ARGMAX)%nat then
    match types !! i with
    | None => fault
    | Some ty => if ty =? 0 then again (S i) else leave i
    end
  else leave i.

(** The result, with the variables the caller keeps. *)
Definition printf_core (f : option Out) (fmt : Z) (ap : list (value F))
    (nl_arg : list (uarg F)) (nl_type : list Z) : M (Z * core) :=
  let* (r, k) := loop core_body (mkCore fmt 0 0 false ap f nl_arg nl_type) in
  match r with
  | inl inval => set_errno EINVAL ;; ret (-1, k)
  | inl overflow => set_errno EOVERFLOW ;; ret (-1, k)
  | inl (return_ v) => ret (v, k)
  | inr _ =>
      match k_out k with
      | Some _ => ret (k_cnt k, k)
      | None =>
          if negb (k_l10n k) then ret (0, k)
          else
            let* (i, k) := loop pop_body (1%nat, k) in
            let* i := loop (gap_body (k_types k)) i in
            if decide (i <= NL_ARGMAX)%nat then set_errno EINVAL ;; ret (-1, k)
            else ret (1, k)
      end
  end.

Definition vfprintf (f : iob) (format : Z) (ap : list (value F)) : M (Z * iob) :=
  let nl_type := replicate NL_ARGMAX 0 in
  let nl_arg := replicate NL_ARGMAX (arg_i 0) in
  let* (r, k) := printf_core None format ap nl_arg nl_type in
  if r <? 0 then ret (EOF, f)
  else
    let* (r, k') := printf_core (Some (mkOut f (iob_BufferPosition f))) format (k_ap k)
                      (k_args k) (k_types k) in
    let f := match k_out k' with Some o => o_file o | None => f end in
    let* f :=
      if negb (r =? EOF) && FLAG_IS_CLEAR (iob_Flags f) IOBF_NO_NUL then
        let* (_, f) := putc_mode 0 f (Z.land (iob_Flags f) IOBF_BUFFER_MODE) in ret f
      else ret f in
    let* (_, f) := fflush_file f in
    ret (r, f).

(** [__initialize_iob] for a string stream with the local buffer [buf]. *)
Definition string_iob (act : action) (buf flags string size : Z) : iob :=
  mkIob flags 0 buf 32 0 0 0 act (-1) string size 0.

(** [buf] is the address of the local array of 32 bytes. *)
Definition vsprintf (buf s format : Z) (ap : list (value F)) : M Z :=
  loop fill_body (buf, 32) ;;
  if (s =? NULL) || (format =? NULL) then set_errno EFAULT ;; ret EOF
  else
    let f := string_iob vsprintf_hook_entry buf
               (Z.lor IOBF_IN_USE (Z.lor IOBF_WRITE (Z.lor IOBF_BUFFER_MODE_NONE IOBF_INTERNAL))) s 0 in
    let* (result, f) := vfprintf f format ap in
    let* (r, f) := putc_mode 0 f IOBF_BUFFER_MODE_NONE in
    let result := if r =? EOF then EOF else result in
    let* _ := flush_r f in
    ret result.
Definition sprintf (buf s format : Z) (ap : list (value F)) : M Z :=
  if (s =? NULL) || (format =? NULL) then set_errno EFAULT ;; ret EOF
  else vsprintf buf s format ap.

Definition vsnprintf (buf buffer size format : Z) (ap : list (value F)) : M Z :=
  loop fill_body (buf, 32) ;;
  if (format =? NULL) || ((buffer =? NULL) && (0 <? size)) then set_errno EFAULT ;; ret EOF
  else
    memset buffer 0 size ;;
    let f := string_iob vsnprintf_hook_entry buf
               (Z.lor IOBF_IN_USE (Z.lor IOBF_WRITE (Z.lor IOBF_NO_NUL
                 (Z.lor IOBF_BUFFER_MODE_NONE IOBF_INTERNAL))))
               buffer (if 0 <? size then size - 1 else 0) in
    let* (result, f) := vfprintf f format ap in
    let* _ := fflush_file f in
    ret result.
Definition snprintf (buf s size format : Z) (ap : list (value F)) : M Z :=
  if ((0 <? size) && (s =? NULL)) || (format =? NULL) then set_errno EFAULT ;; ret EOF
  else vsnprintf buf s size format ap.

Definition fprintf (stream : option iob) (format : Z) (ap : list (value F)) : M (Z * option iob) :=
  match stream with
  | None => set_errno EFAULT ;; ret (EOF, None)
  | Some f =>
      if format =? NULL then set_errno EFAULT ;; ret (EOF, stream)
      else let* (r, f) := vfprintf f format ap in ret (r, Some f)
  end.
End Code.
