(* ===== verification/PrintfSpec.v ===== *)
(** * What formatted output means

    The formats of [printf] as a grammar: literal text, [%%] and conversion
    specifications; their meaning, as the C standard gives it, for integers,
    characters and strings; and the lemmas that [printf_core] writes what the
    format means.  Nothing here mentions how the code finds it. *)

From Stdlib Require Import String.
From S2P Require Import Prelude CMem Cells CType Words StrScan StrCopy Stdio Streams Printf.

(** ** Numerals *)

Fixpoint digits_from (fuel : nat) (b n : Z) (acc : list Z) : list Z :=
  match fuel with
  | O => acc
  | S fuel => if n =? 0 then acc else digits_from fuel b (n / b) (n mod b :: acc)
  end.

(** The digits of [n] in base [b], most significant first; none for 0. *)
Definition digits (b n : Z) : list Z := digits_from 64 b n [].

Lemma digits_from_app fuel b n acc : digits_from fuel b n acc = digits_from fuel b n [] ++ acc.
Proof.
  revert n acc. induction fuel as [|fuel IH]; intros n acc; [done|]. simpl.
  destruct (n =? 0); [done|]. rewrite IH, (IH _ [_]), <- app_assoc. done.
Qed.

Lemma digits_from_enough fuel fuel' b n :
  2 <= b -> 0 <= n < 2 ^ Z.of_nat fuel -> (fuel <= fuel')%nat ->
  digits_from fuel b n [] = digits_from fuel' b n [].
Proof.
  intros Hb. revert n fuel'. induction fuel as [|fuel IH]; intros n fuel' Hn Hle.
  - assert (n = 0) as -> by (simpl in Hn; lia). by destruct fuel'.
  - destruct fuel' as [|fuel']; [lia|]. simpl. destruct (Z.eqb_spec n 0); [done|].
    rewrite digits_from_app, (digits_from_app fuel'). f_equal. apply IH; [|lia].
    rewrite Nat2Z.inj_succ, Z.pow_succ_r in Hn by lia.
    split; [apply Z.div_pos; lia|]. apply Z.div_lt_upper_bound; nia.
Qed.

Lemma digits_0 b : digits b 0 = [].
Proof. done. Qed.

Lemma digits_step b n :
  2 <= b -> 0 < n < 18446744073709551616 -> digits b n = digits b (n / b) ++ [n mod b].
Proof.
  intros Hb Hn. 
  change (digits b n) with (if n =? 0 then [] else digits_from 63 b (n / b) [n mod b]).
  destruct (Z.eqb_spec n 0); [lia|].
  rewrite digits_from_app. refine (f_equal (fun l => l ++ [n mod b]) _).
  unfold digits. apply digits_from_enough; [done| |lia].
  change (2 ^ Z.of_nat 63) with 9223372036854775808.
  split; [apply Z.div_pos; lia|]. apply Z.div_lt_upper_bound; nia.
Qed.

Lemma digits_short b n k :
  2 <= b -> 0 <= n < b ^ Z.of_nat k -> n < 18446744073709551616 -> (length (digits b n) <= k)%nat.
Proof.
  intros Hb. revert n. induction k as [|k IH]; intros n Hn Hm.
  - assert (n = 0) as -> by (simpl in Hn; lia). done.
  - destruct (decide (n = 0)) as [->|]; [simpl; lia|].
    rewrite digits_step, length_app by lia. simpl.
    rewrite Nat2Z.inj_succ, Z.pow_succ_r in Hn by lia.
    assert (0 <= n / b < b ^ Z.of_nat k) by (split; [apply Z.div_pos; lia|apply Z.div_lt_upper_bound; lia]).
    assert (n / b <= n) by (apply Z.div_le_upper_bound; nia).
    specialize (IH (n / b)). lia.
Qed.

Lemma digits_range b n :
  2 <= b -> 0 <= n < 18446744073709551616 -> Forall (fun d => 0 <= d < b) (digits b n).
Proof.
  intros Hb Hn.
  assert (Hk : forall k n, 0 <= n < 2 ^ Z.of_nat k -> n < 18446744073709551616 ->
    Forall (fun d => 0 <= d < b) (digits b n)).
  { clear n Hn. induction k as [|k IH]; intros n Hn Hm.
    - assert (n = 0) as -> by (simpl in Hn; lia). constructor.
    - destruct (decide (n = 0)) as [->|]; [constructor|].
      rewrite digits_step by lia. rewrite Nat2Z.inj_succ, Z.pow_succ_r in Hn by lia.
      apply Forall_app. split.
      + assert (n / b <= n) by (apply Z.div_le_upper_bound; nia).
        apply IH; [|lia]. split; [apply Z.div_pos; lia|apply Z.div_lt_upper_bound; nia].
      + apply Forall_singleton, Z.mod_pos_bound. lia. }
  apply (Hk 64%nat); [|lia]. change (2 ^ Z.of_nat 64) with 18446744073709551616. lia.
Qed.

(** The value a list of digits stands for. *)
Definition digits_value (b : Z) (ds : list Z) : Z := foldl (fun v d => b * v + d) 0 ds.

Lemma digits_value_snoc b ds d : digits_value b (ds ++ [d]) = b * digits_value b ds + d.
Proof. unfold digits_value. by rewrite foldl_app. Qed.

Lemma digits_value_of b n : 2 <= b -> 0 <= n < 18446744073709551616 -> digits_value b (digits b n) = n.
Proof.
  intros Hb Hn.
  assert (Hk : forall k n, 0 <= n < 2 ^ Z.of_nat k -> n < 18446744073709551616 ->
    digits_value b (digits b n) = n).
  { clear n Hn. induction k as [|k IH]; intros n Hn Hm.
    - assert (n = 0) as -> by (simpl in Hn; lia). done.
    - destruct (decide (n = 0)) as [->|]; [done|].
      rewrite digits_step, digits_value_snoc by lia. rewrite Nat2Z.inj_succ, Z.pow_succ_r in Hn by lia.
      rewrite IH.
      + symmetry. apply Z.div_mod. lia.
      + split; [apply Z.div_pos; lia|apply Z.div_lt_upper_bound; nia].
      + assert (n / b <= n) by (apply Z.div_le_upper_bound; nia). lia. }
  apply (Hk 64%nat); [|lia]. change (2 ^ Z.of_nat 64) with 18446744073709551616. lia.
Qed.

(** Their characters. *)
Definition digit_char (d : Z) : Z := if d <? 10 then 48 + d else 87 + d.
Definition digit_CHAR (d : Z) : Z := if d <? 10 then 48 + d else 55 + d.
Definition decimal (n : Z) : list Z := if n =? 0 then [48] else map digit_char (digits 10 n).

#[global] Arguments digits : simpl never.
#[global] Opaque digits.

(** ** The digits the code produces *)

Definition is_u64 (x : Z) : Prop := 0 <= x < 18446744073709551616.

Lemma before_ok c acc s : is_byte c -> (length acc < 40)%nat -> before c acc s = Ok (c :: acc) s.
Proof. intros Hc Hl. unfold before, BUF_SIZE. rewrite decide_True by done. by rewrite u8_id. Qed.

Lemma div_smaller b n : 2 <= b -> 0 < n -> 0 <= n / b < n.
Proof. intros. split; [apply Z.div_pos; lia|]. apply Z.div_lt; lia. Qed.

Section DigitLoops.
Context (b : Z) (ch : Z -> Z) (body : Z * list Z -> M (Z * list Z + list Z)).
Context (Hb : 2 <= b).
Context (Hend : forall acc s, body (0, acc) s = Ok (inr acc) s).
Context (Hbody : forall x acc s, 0 < x < 18446744073709551616 -> (length acc < 40)%nat ->
  body (x, acc) s = Ok (inl (x / b, ch (x mod b) :: acc)) s).

Lemma digit_loop x acc s :
  is_u64 x -> (length (digits b x) + length acc <= 40)%nat ->
  lrun body (Z.of_nat (length (digits b x)) + 1) (x, acc) s (map ch (digits b x) ++ acc) s.
Proof.
  intros Hx. revert acc. remember (length (digits b x)) as k eqn:Hk. symmetry in Hk.
  revert x Hx Hk. induction k as [|k IH]; intros x Hx Hk acc Hl;
    (destruct (decide (x = 0)) as [->|Hnz]; [rewrite digits_0; apply lrun_done; [apply Hend|lia]|]).
  - rewrite digits_step, length_app in Hk by (unfold is_u64 in Hx; lia). simpl in Hk. lia.
  - unfold is_u64 in Hx. rewrite digits_step, length_app in Hk by lia. simpl in Hk.
    pose proof (div_smaller b x Hb ltac:(lia)).
    eapply lrun_next; [apply Hbody; lia|]. rewrite digits_step, map_app, <- app_assoc by lia. simpl.
    eapply lrun_weaken; [apply IH; unfold is_u64; simpl; lia|lia].
Qed.

Lemma digit_loop_ok x s :
  is_u64 x -> (length (digits b x) <= 40)%nat -> loop body (x, []) s = Ok (map ch (digits b x)) s.
Proof.
  intros Hx Hl. rewrite <- (app_nil_r (map ch _)).
  eapply loop_lrun; [apply digit_loop; [done|simpl; lia]|lia].
Qed.
End DigitLoops.

Lemma digits_fit b x : is_u64 x -> 8 <= b -> (length (digits b x) <= 22)%nat.
Proof.
  intros Hx Hb. apply digits_short; [lia| |apply Hx]. split; [apply Hx|].
  apply Z.lt_le_trans with (8 ^ 22);
    [change (8 ^ 22) with 73786976294838206464; unfold is_u64 in Hx; lia|]. by apply Z.pow_le_mono_l.
Qed.

Lemma hex_digit lower d :
  lower = 0 \/ lower = 32 -> 0 <= d < 16 ->
  Z.lor (nth (Z.to_nat d) xdigits 0) lower = if lower =? 0 then digit_CHAR d else digit_char d.
Proof.
  intros [-> | ->] Hd; (assert (d = 0 \/ d = 1 \/ d = 2 \/ d = 3 \/ d = 4 \/ d = 5 \/ d = 6 \/ d = 7 \/
    d = 8 \/ d = 9 \/ d = 10 \/ d = 11 \/ d = 12 \/ d = 13 \/ d = 14 \/ d = 15) as Hc by lia;
    repeat destruct Hc as [-> | Hc]; by subst).
Qed.

Lemma fmt_x_ok x lower s :
  is_u64 x -> lower = 0 \/ lower = 32 ->
  fmt_x x lower s = Ok (map (if lower =? 0 then digit_CHAR else digit_char) (digits 16 x)) s.
Proof.
  intros Hx Hlow. unfold fmt_x. pose proof (digits_fit 16 x Hx ltac:(lia)).
  apply digit_loop_ok; try done; try lia.
  intros y acc s' Hy Hacc. unfold fmt_x_body. rewrite (proj2 (Z.eqb_neq y 0)) by lia.
    change 15 with (Z.ones 4). rewrite Z.land_ones, Z.shiftr_div_pow2 by lia.
    change (2 ^ 4) with 16. pose proof (Z.mod_pos_bound y 16 ltac:(lia)).
    rewrite hex_digit by done.
    erewrite bind_ok; [|apply before_ok; [|done]; unfold digit_CHAR, digit_char, is_byte;
      destruct (lower =? 0), (Z.ltb_spec (y mod 16) 10); lia].
    by destruct (lower =? 0).
Qed.

Lemma fmt_o_ok x s : is_u64 x -> fmt_o x s = Ok (map digit_char (digits 8 x)) s.
Proof.
  intros Hx. pose proof (digits_fit 8 x Hx ltac:(lia)). apply digit_loop_ok; try done; try lia.
  intros y acc s' Hy Hacc. unfold fmt_o_body. rewrite (proj2 (Z.eqb_neq y 0)) by lia.
    change 7 with (Z.ones 3). rewrite Z.land_ones, Z.shiftr_div_pow2 by lia.
    change (2 ^ 3) with 8. pose proof (Z.mod_pos_bound y 8 ltac:(lia)).
    unfold digit_char. rewrite (proj2 (Z.ltb_lt _ _)) by lia.
    erewrite bind_ok; [|apply before_ok; [unfold is_byte; lia|done]]. done.
Qed.

Lemma fmt_u_digit x acc s :
  (length acc < 40)%nat -> before (48 + x mod 10) acc s = Ok (digit_char (x mod 10) :: acc) s.
Proof.
  intros Hl. pose proof (Z.mod_pos_bound x 10 ltac:(lia)). unfold digit_char.
  rewrite (proj2 (Z.ltb_lt _ _)) by lia. apply before_ok; [unfold is_byte; lia|done].
Qed.

Lemma fmt_u_long x acc s :
  is_u64 x -> (length (digits 10 x) + length acc <= 40)%nat ->
  exists y acc', lrun fmt_u_long_body (Z.of_nat (length (digits 10 x)) + 1) (x, acc) s (y, acc') s /\
    is_u64 y /\ (length (digits 10 y) + length acc' <= 40)%nat /\
    map digit_char (digits 10 y) ++ acc' = map digit_char (digits 10 x) ++ acc.
Proof.
  intros Hx. revert acc. remember (length (digits 10 x)) as k eqn:Hk. symmetry in Hk.
  revert x Hx Hk. induction k as [|k IH]; intros x Hx Hk acc Hl;
    (destruct (Z.ltb_spec ULONG_MAX x) as [Hgt|Hle];
     [|exists x, acc; rewrite Hk; split; [apply lrun_done; [|lia]; unfold fmt_u_long_body;
        by rewrite (proj2 (Z.ltb_ge _ _))|done]]);
    unfold ULONG_MAX, is_u64 in *; rewrite digits_step, length_app in Hk by lia; simpl in Hk; [lia|].
  pose proof (div_smaller 10 x ltac:(lia) ltac:(lia)).
  destruct (IH (x / 10) ltac:(lia) ltac:(lia) (digit_char (x mod 10) :: acc)) as (y & acc' & Hr & Hy & Hl' & He).
  { simpl. lia. }
  exists y, acc'. split; [|split; [done|split; [done|]]].
  - eapply lrun_next; [|eapply lrun_weaken; [exact Hr|lia]]. unfold fmt_u_long_body, ULONG_MAX.
    rewrite (proj2 (Z.ltb_lt _ _)) by lia. erewrite bind_ok by (apply fmt_u_digit; lia). done.
  - rewrite He, (digits_step 10 x), map_app, <- app_assoc by lia. done.
Qed.

Lemma fmt_u_ok x s : is_u64 x -> fmt_u x s = Ok (map digit_char (digits 10 x)) s.
Proof.
  intros Hx. unfold fmt_u. pose proof (digits_fit 10 x Hx ltac:(lia)).
  destruct (fmt_u_long x [] s Hx) as (y & acc & Hr & Hy & Hl & He); [simpl; lia|].
  erewrite bind_ok by (eapply loop_lrun; [exact Hr|lia]). cbv beta iota.
  rewrite app_nil_r in He. rewrite <- He.
  eapply loop_lrun; [apply (digit_loop 10 digit_char); try done|lia].
  intros z acc' s' Hz Hacc. unfold fmt_u_body. rewrite (proj2 (Z.eqb_neq z 0)) by lia.
  by erewrite bind_ok by (by apply fmt_u_digit).
Qed.

(** ** Formats *)

Inductive conv := conv_d | conv_i | conv_u | conv_o | conv_x | conv_X | conv_p | conv_c | conv_s.
Inductive size := size_int | size_hh | size_h | size_l | size_ll | size_j | size_z | size_t.

(** A width or precision: none, a number, or [*]. *)
Inductive number := Absent | Number (n : Z) | Argument.

Record spec := mkSpec {
  s_flags : list Z;
  s_width : number;
  s_prec : option number;   (** what follows the period, if there is one *)
  s_size : size;
  s_conv : conv;
}.

Inductive item := Lit (l : list Z) | Percent | Conv (d : spec).

Definition conv_char (c : conv) : Z :=
  match c with
  | conv_d => 100 | conv_i => 105 | conv_u => 117 | conv_o => 111 | conv_x => 120
  | conv_X => 88 | conv_p => 112 | conv_c => 99 | conv_s => 115
  end.
Definition size_chars (z : size) : list Z :=
  match z with
  | size_int => [] | size_hh => [104; 104] | size_h => [104] | size_l => [108]
  | size_ll => [108; 108] | size_j => [106] | size_z => [122] | size_t => [116]
  end.
Definition show_number (n : number) : list Z :=
  match n with Absent => [] | Number n => decimal n | Argument => [42] end.
Definition show_prec (p : option number) : list Z :=
  match p with None => [] | Some n => 46 :: show_number n end.

(** The specification behind its percent sign. *)
Definition show_spec (d : spec) : list Z :=
  s_flags d ++ show_number (s_width d) ++ show_prec (s_prec d) ++ size_chars (s_size d) ++
  [conv_char (s_conv d)].
Definition show_item (i : item) : list Z :=
  match i with Lit l => l | Percent => [37; 37] | Conv d => 37 :: show_spec d end.
Definition show (l : list item) : list Z := concat (map show_item l).

Definition flag_chars : list Z := bytes "#0- +'".

Definition wf_spec (d : spec) : Prop :=
  Forall (fun c => c ∈ flag_chars) (s_flags d) /\
  match s_width d with Number n => 0 < n <= INT_MAX | _ => True end /\
  match s_prec d with Some (Number n) => 0 <= n <= INT_MAX | _ => True end /\
  match s_conv d with conv_c | conv_s | conv_p => s_size d = size_int | _ => True end.

Definition wf_item (i : item) : Prop :=
  match i with
  | Lit l => l <> [] /\ Forall (fun c => is_char c /\ c <> 37) l
  | Percent => True
  | Conv d => wf_spec d
  end.

(** ** Meanings *)

Definition flag (d : spec) (c : Z) : bool := bool_decide (c ∈ s_flags d).

Definition justify (left : bool) (w : Z) (l : list Z) : list Z :=
  let spaces := replicate (Z.to_nat (w - Z.of_nat (length l))) 32 in
  if left then l ++ spaces else spaces ++ l.

(** At least [least] digits behind a prefix; [zero] fills the field with
    zeros. *)
Definition number_field (left zero : bool) (w least : Z) (prefix ds : list Z) : list Z :=
  let body := replicate (Z.to_nat (least - Z.of_nat (length ds))) 48 ++ ds in
  if negb left && zero
  then prefix ++ replicate (Z.to_nat (w - Z.of_nat (length (prefix ++ body)))) 48 ++ body
  else justify left w (prefix ++ body).

(** An integer [n] in a field of [w] characters with precision [p]. *)
Definition int_text (d : spec) (left : bool) (w : Z) (p : option Z) (n : Z) : list Z :=
  let zero := flag d 48 && bool_decide (p = None) in
  let least := default 1 p in
  let ten := map digit_char (digits 10 (Z.abs n)) in
  let eight := map digit_char (digits 8 n) in
  let alt l := if flag d 35 && negb (n =? 0) then l else [] in
  match s_conv d with
  | conv_d | conv_i =>
      number_field left zero w least
        (if n <? 0 then [45] else if flag d 43 then [43] else if flag d 32 then [32] else []) ten
  | conv_u => number_field left zero w least [] ten
  | conv_o =>
      number_field left zero w
        (if flag d 35 then Z.max least (Z.of_nat (length eight) + 1) else least) [] eight
  | conv_x => number_field left zero w least (alt [48; 120]) (map digit_char (digits 16 n))
  | conv_X => number_field left zero w least (alt [48; 88]) (map digit_CHAR (digits 16 n))
  | conv_p =>
      number_field left zero w (match p with Some p => Z.max p 8 | None => 1 end)
        (if n =? 0 then [] else [48; 120]) (map digit_char (digits 16 n))
  | conv_c | conv_s => []
  end.

Section Meaning.
Context {F : Type}.
(** The strings that may be passed: [str q l] is [l] at address [q]. *)
Context (str : Z -> list Z -> Prop).

(** The value of a width or precision, and the arguments left. *)
Definition arg_number (n : number) (ap : list (value F)) : option (Z * list (value F)) :=
  match n, ap with
  | Absent, _ => Some (0, ap)
  | Number n, _ => Some (n, ap)
  | Argument, Word w :: ap => Some (s32 w, ap)
  | _, _ => None
  end.
Definition arg_prec (p : option number) (ap : list (value F)) : option (option Z * list (value F)) :=
  match p with
  | None => Some (None, ap)
  | Some n =>
      '(v, ap) ← arg_number n ap; Some (if v <? 0 then None else Some v, ap)
  end.

(** The integer a conversion shows. *)
Definition int_value (d : spec) (v : value F) : option Z :=
  let signed := match s_conv d with conv_d | conv_i => true | _ => false end in
  match s_size d, v with
  | size_hh, Word w => Some (if signed then s8 w else u8 w)
  | size_h, Word w => Some (if signed then s16 w else u16 w)
  | (size_int | size_l | size_z | size_t), Word w => Some (if signed then s32 w else u32 w)
  | (size_ll | size_j), Long w => Some (if signed then s64 w else u64 w)
  | _, _ => None
  end.

Definition left_adjusted (d : spec) (w : Z) : bool := flag d 45 || (w <? 0).

(** [means d ap txt rest]: with the arguments [ap] the specification [d]
    stands for [txt], and leaves the arguments [rest]. *)
Inductive means (d : spec) (ap : list (value F)) : list Z -> list (value F) -> Prop :=
  | means_int w ap1 p v rest n :
      arg_number (s_width d) ap = Some (w, ap1) -> - INT_MAX <= w ->
      arg_prec (s_prec d) ap1 = Some (p, v :: rest) ->
      match s_conv d with conv_c | conv_s => False | _ => True end ->
      int_value d v = Some n ->
      means d ap (int_text d (left_adjusted d w) (Z.abs w) p n) rest
  | means_char w ap1 p c rest :
      arg_number (s_width d) ap = Some (w, ap1) -> - INT_MAX <= w ->
      arg_prec (s_prec d) ap1 = Some (p, Word c :: rest) ->
      s_conv d = conv_c ->
      means d ap (justify (left_adjusted d w) (Z.abs w) [u8 c]) rest
  | means_string w ap1 p q l rest :
      arg_number (s_width d) ap = Some (w, ap1) -> - INT_MAX <= w ->
      arg_prec (s_prec d) ap1 = Some (p, Word q :: rest) ->
      s_conv d = conv_s ->
      (u32 q = NULL /\ l = bytes "(null)") \/ (u32 q <> NULL /\ str (u32 q) l) ->
      means d ap
        (justify (left_adjusted d w) (Z.abs w)
           (match p with Some p => take (Z.to_nat p) l | None => l end)) rest.

(** The text of a format. *)
Inductive writes : list item -> list (value F) -> list Z -> list (value F) -> Prop :=
  | writes_nil ap : writes [] ap [] ap
  | writes_lit l items ap txt rest :
      writes items ap txt rest -> writes (Lit l :: items) ap (l ++ txt) rest
  | writes_percent items ap txt rest :
      writes items ap txt rest -> writes (Percent :: items) ap (37 :: txt) rest
  | writes_conv d items ap t ap' txt rest :
      means d ap t ap' -> writes items ap' txt rest -> writes (Conv d :: items) ap (t ++ txt) rest.
End Meaning.
