(* ===== verification/PrintfWrite.v ===== *)
(** * The output side of [printf_core]

    [Has cap s f L]: the stream [f] has been given [L] in all and is in order.
    Each function of the writing half appends a list of characters to it;
    [field_text] is the list for a field. *)

From Stdlib Require Import String.
From S2P Require Import Prelude CMem Cells CType Words StrScan StrCopy Stdio Streams Printf PrintfSpec.

(** ** Flag bits *)

Lemma has_bit fl k : 0 <= k -> has fl (2 ^ k) = Z.testbit fl k.
Proof.
  intros Hk. unfold has. destruct (Z.testbit fl k) eqn:E.
  - destruct (Z.eqb_spec (Z.land fl (2 ^ k)) 0) as [H|]; [|done]. exfalso.
    assert (Z.testbit (Z.land fl (2 ^ k)) k = true) as Ht
      by (rewrite Z.land_spec, E, Z.pow2_bits_true; done).
    by rewrite H, Z.bits_0 in Ht.
  - replace (Z.land fl (2 ^ k)) with 0; [done|]. apply Z.bits_inj. intros j.
    rewrite Z.bits_0, Z.land_spec. destruct (decide (j = k)) as [->|]; [by rewrite E|].
    by rewrite Z.pow2_bits_false, andb_false_r.
Qed.

Lemma has_left fl : has fl Spec.LEFT_ADJ = Z.testbit fl 13.
Proof. by apply (has_bit fl 13). Qed.
Lemma has_zero_pad fl : has fl Spec.ZERO_PAD = Z.testbit fl 16.
Proof. by apply (has_bit fl 16). Qed.

Lemma has_lor x a b : has x (Z.lor a b) = has x a || has x b.
Proof.
  unfold has. rewrite Z.land_lor_distr_r. destruct (Z.eqb_spec (Z.lor (Z.land x a) (Z.land x b)) 0) as [H|H].
  - apply Z.lor_eq_0_iff in H as [-> ->]. done.
  - rewrite Z.lor_eq_0_iff in H. destruct (Z.eqb_spec (Z.land x a) 0), (Z.eqb_spec (Z.land x b) 0); try done.
    by destruct H.
Qed.

Definition fl_left (fl : Z) : bool := has fl Spec.LEFT_ADJ.
Definition fl_zero (fl : Z) : bool := has fl Spec.ZERO_PAD.

Lemma fl_xor_zero fl :
  fl_left (Z.lxor fl Spec.ZERO_PAD) = fl_left fl /\
  fl_zero (Z.lxor fl Spec.ZERO_PAD) = negb (fl_zero fl).
Proof.
  unfold fl_left, fl_zero. rewrite !has_left, !has_zero_pad, !Z.lxor_spec.
  by destruct (Z.testbit fl 13), (Z.testbit fl 16).
Qed.
Lemma fl_xor_left fl :
  fl_left (Z.lxor fl Spec.LEFT_ADJ) = negb (fl_left fl) /\
  fl_zero (Z.lxor fl Spec.LEFT_ADJ) = fl_zero fl.
Proof.
  unfold fl_left, fl_zero. rewrite !has_left, !has_zero_pad, !Z.lxor_spec.
  by destruct (Z.testbit fl 13), (Z.testbit fl 16).
Qed.

Section Write.
Context `{HM : SysMem} `{HD : Dos} `{!SysMemLaws HM} `{!DosLaws HD}.

Definition Has (cap : Z) (s : state) (f : iob) (L : list Z) : Prop :=
  exists sent held, L = sent ++ held /\ Stream cap s f sent held /\ calm (mode f) held.

(** [o'] in [s'] is [o] in [s] with [L] given in all. *)
Definition grown (cap : Z) (s : state) (o : Out) (L : list Z) (s' : state) (o' : Out) : Prop :=
  Has cap s' (o_file o') L /\ moved cap s (o_file o) s' (o_file o').

Lemma grown_refl cap s o L : Has cap s (o_file o) L -> grown cap s o L s o.
Proof. split; [done|apply moved_refl]. Qed.

Lemma grown_trans cap s o L s1 o1 L' s2 o2 :
  grown cap s o L s1 o1 -> grown cap s1 o1 L' s2 o2 -> grown cap s o L' s2 o2.
Proof. intros [_ H1] [H2 H3]. split; [done|by eapply moved_trans]. Qed.

(** The characters [l] at a pointer, which the stream does not write to. *)
Definition text_at (cap : Z) (s : state) (f : iob) (t : text) (l : list Z) : Prop :=
  Forall is_byte l /\
  match t with
  | Arr a => take (length l) a = l
  | Mem p => bytes_at (mem s) p l /\ aside cap f p (Z.of_nat (length l))
  end.

Lemma deref_ok cap s f t l i c :
  text_at cap s f t l -> l !! i = Some c -> deref t (Z.of_nat i) s = Ok c s.
Proof.
  intros [_ Ht] Hi. destruct t as [a|p]; simpl.
  - rewrite Nat2Z.id. rewrite <- Ht in Hi. rewrite lookup_take_Some in Hi. by rewrite (proj1 Hi).
  - apply load8_ok. destruct Ht as [Hb _]. by apply (bytes_at_lookup _ _ _ _ _ Hb).
Qed.

Lemma text_at_moved cap s f t l s' f' :
  moved cap s f s' f' -> text_at cap s f t l -> text_at cap s' f' t l.
Proof.
  intros Hm [HF Ht]. split; [done|]. destruct t; [done|]. destruct Ht.
  split; eauto using moved_bytes, moved_aside.
Qed.

Lemma out_loop cap t l2 : forall l1 s f L,
  Has cap s f L -> text_at cap s f t (l1 ++ l2) -> Z.of_nat (length (L ++ l2)) <= cap ->
  exists s' f', lrun (out_body t) (Z.of_nat (length l2) + 1)
      (Z.of_nat (length l1), Z.of_nat (length l2), f) s f' s' /\
    Has cap s' f' (L ++ l2) /\ moved cap s f s' f'.
Proof.
  induction l2 as [|c l2 IH]; intros l1 s f L HL Ht Hcap.
  { exists s, f. rewrite app_nil_r. split; [by apply lrun_done|]. split; [done|apply moved_refl]. }
  assert (Hi : (l1 ++ c :: l2) !! length l1 = Some c) by (by apply list_lookup_middle).
  assert (Hc : is_byte c) by (destruct Ht as [[_ HF]%Forall_app _]; by inversion HF).
  destruct HL as (sent & held & -> & Hst & Hcm). rewrite !length_app in Hcap. simpl length in Hcap.
  destruct (putc_unlocked_ok cap s f sent held c) as
    (s1 & f1 & sent1 & held1 & Hr & HL1 & Hst1 & Hm1 & Hc1); try done.
  { rewrite length_app. lia. }
  destruct (IH (l1 ++ [c]) s1 f1 (sent1 ++ held1)) as (s' & f' & Hrun & HL' & Hm').
  { exists sent1, held1. rewrite (moved_mode _ _ _ _ _ Hm1). done. }
  { rewrite <- app_assoc. by eapply text_at_moved. }
  { rewrite <- HL1, !length_app. simpl. lia. }
  exists s', f'. split; [|split].
  - eapply lrun_next; [|eapply lrun_weaken; [exact Hrun|simpl; lia]]. unfold out_body.
    rewrite (proj2 (Z.eqb_neq _ 0)) by (simpl length; lia).
    erewrite bind_ok by (by eapply deref_ok). erewrite bind_ok by exact Hr. cbv beta iota.
    rewrite length_app. simpl length. unfold again, ret.
    replace (Z.of_nat (length l1) + 1) with (Z.of_nat (length l1 + 1)) by lia.
    by replace (Z.of_nat (S (length l2)) - 1) with (Z.of_nat (length l2)) by lia.
  - rewrite <- HL1, <- !app_assoc in HL'. by rewrite <- !app_assoc.
  - by eapply moved_trans.
Qed.

Lemma out_ok cap s o t l L :
  Has cap s (o_file o) L -> text_at cap s (o_file o) t l -> Z.of_nat (length (L ++ l)) <= cap ->
  Z.of_nat (length l) <= INT_MAX ->
  exists s' o', out o t (Z.of_nat (length l)) s = Ok o' s' /\ grown cap s o (L ++ l) s' o'.
Proof.
  intros HL Ht Hcap Hl. unfold out. destruct l as [|c l].
  { exists s, o. rewrite app_nil_r. split; [done|by apply grown_refl]. }
  rewrite (proj2 (Z.eqb_neq _ 0)) by (simpl length; lia).
  destruct (out_loop cap t (c :: l) [] s (o_file o) L) as (s' & f' & Hr & HL' & Hm); try done.
  eexists s', _. split.
  - erewrite bind_ok by (eapply loop_lrun; [exact Hr|unfold INT_MAX in Hl; lia]). done.
  - by split.
Qed.

Lemma arr_at cap s f l : Forall is_byte l -> text_at cap s f (Arr l) l.
Proof. intros HF. split; [done|]. apply take_ge. lia. Qed.

Lemma rep_at cap s f n k c :
  is_byte c -> (k <= n)%nat -> text_at cap s f (Arr (replicate n c)) (replicate k c).
Proof.
  intros Hc Hk. split; [by apply Forall_replicate|]. rewrite length_replicate, take_replicate.
  f_equal. lia.
Qed.

(** ** Padding *)

Definition pad_text (c w l fl : Z) : list Z :=
  if negb (Z.land fl (Z.lor Spec.LEFT_ADJ Spec.ZERO_PAD) =? 0) || (w <=? l) then []
  else replicate (Z.to_nat (w - l)) c.

Lemma pad_loop cap c n : is_byte c -> forall k s o L,
  (k = 0%nat \/ n = 256%nat) ->
  Has cap s (o_file o) L -> Z.of_nat (length L) + Z.of_nat (256 * k) <= cap ->
  forall r, (r < 256)%nat ->
  exists s' o', lrun (pad_body (replicate n c)) (Z.of_nat k + 1) (o, Z.of_nat (256 * k + r)) s
      (o', Z.of_nat r) s' /\ grown cap s o (L ++ replicate (256 * k) c) s' o'.
Proof.
  intros Hc. induction k as [|k IH]; intros s o L Hn HL Hcap r Hr.
  - exists s, o. simpl. rewrite app_nil_r. split; [|by apply grown_refl].
    apply lrun_done; [|lia]. unfold pad_body. by rewrite (proj2 (Z.leb_gt _ _)) by lia.
  - destruct Hn as [| ->]; [lia|].
    destruct (out_ok cap s o (Arr (replicate 256 c)) (replicate 256 c) L) as (s1 & o1 & Ho & Hg1);
      try (rewrite ?length_app, ?length_replicate; unfold INT_MAX; lia); [done|by apply rep_at|].
    rewrite length_replicate in Ho. change (Z.of_nat 256) with 256 in Ho.
    destruct (IH s1 o1 (L ++ replicate 256 c)) with (r := r) as (s' & o' & Hrun & Hg).
    { by right. } { apply Hg1. } { rewrite length_app, length_replicate. lia. } { done. }
    exists s', o'. split.
    + eapply lrun_next; [|eapply lrun_weaken; [exact Hrun|lia]]. unfold pad_body.
      rewrite (proj2 (Z.leb_le _ _)) by lia. erewrite bind_ok by exact Ho. cbv beta. unfold again, ret.
      by replace (Z.of_nat (256 * S k + r) - 256) with (Z.of_nat (256 * k + r)) by lia.
    + rewrite <- app_assoc, <- replicate_add in Hg.
      replace (256 + 256 * k)%nat with (256 * S k)%nat in Hg by lia. by eapply grown_trans.
Qed.

Lemma pad_ok cap s o c w l fl L :
  is_byte c -> 0 <= l -> w <= INT_MAX -> Has cap s (o_file o) L ->
  Z.of_nat (length (L ++ pad_text c w l fl)) <= cap ->
  exists s' o', pad o c w l fl s = Ok o' s' /\ grown cap s o (L ++ pad_text c w l fl) s' o'.
Proof.
  intros Hc Hl Hw HL Hcap. unfold pad, pad_text in *.
  destruct (negb _ || (w <=? l)) eqn:Eb.
  { exists s, o. rewrite app_nil_r. split; [done|by apply grown_refl]. }
  apply orb_false_iff in Eb as [_ Hlt%Z.leb_gt]. rewrite length_app, length_replicate in Hcap.
  set (m := Z.to_nat (w - l)) in *. set (k := (m / 256)%nat). set (r := (m mod 256)%nat).
  assert (Hm : m = (256 * k + r)%nat) by (apply Nat.div_mod_eq).
  assert (Hr : (r < 256)%nat) by (apply Nat.mod_upper_bound; lia).
  assert (Hwl : w - l = Z.of_nat (256 * k + r)) by lia.
  set (n := Z.to_nat (if 256 <? w - l then 256 else w - l)).
  assert (Hn : k = 0%nat \/ n = 256%nat).
  { unfold n. destruct (Z.ltb_spec 256 (w - l)); [by right|].
    destruct (decide (k = 0%nat)); [by left|]. right. lia. }
  assert (Hrn : (r <= n)%nat) by (unfold n; destruct (Z.ltb_spec 256 (w - l)); lia).
  destruct (pad_loop cap c n Hc k s o L Hn HL) with (r := r) as (s1 & o1 & Hrun & Hg1); [lia|done|].
  destruct (out_ok cap s1 o1 (Arr (replicate n c)) (replicate r c) (L ++ replicate (256 * k) c))
    as (s' & o' & Ho & Hg); try (rewrite ?length_app, ?length_replicate; unfold INT_MAX; lia);
    [apply Hg1|by apply rep_at|].
  exists s', o'. split.
  - cbv zeta. fold n. rewrite Hwl.
    erewrite bind_ok by (eapply loop_lrun; [exact Hrun|unfold INT_MAX in Hw; lia]).
    cbv beta iota. by rewrite length_replicate in Ho.
  - rewrite <- app_assoc, <- replicate_add, <- Hm in Hg. by eapply grown_trans.
Qed.

Lemma pad_text_flags c w l fl :
  pad_text c w l fl = if fl_left fl || fl_zero fl then [] else replicate (Z.to_nat (w - l)) c.
Proof.
  unfold pad_text. change (negb (Z.land fl (Z.lor Spec.LEFT_ADJ Spec.ZERO_PAD) =? 0))
    with (has fl (Z.lor Spec.LEFT_ADJ Spec.ZERO_PAD)).
  rewrite has_lor. fold (fl_left fl) (fl_zero fl). destruct (fl_left fl || fl_zero fl); [done|].
  simpl. destruct (Z.leb_spec w l); [|done]. by replace (Z.to_nat (w - l)) with 0%nat by lia.
Qed.

(** ** Fields *)

Definition field_prec (d : field) (a : list Z) : Z := Z.max (f_p d) (Z.of_nat (length a)).
Definition field_width (d : field) (a : list Z) : Z :=
  Z.max (f_w d) (Z.of_nat (length (f_prefix d)) + field_prec d a).

(** What a field with the characters [a] looks like. *)
Definition field_text (d : field) (a : list Z) : list Z :=
  let fill := Z.to_nat (field_width d a - (Z.of_nat (length (f_prefix d)) + field_prec d a)) in
  let body := replicate (Z.to_nat (field_prec d a - Z.of_nat (length a))) 48 ++ a in
  let space := if fl_left (f_fl d) || fl_zero (f_fl d) then [] else replicate fill 32 in
  let zeros := if fl_left (f_fl d) || negb (fl_zero (f_fl d)) then [] else replicate fill 48 in
  let after := if negb (fl_left (f_fl d)) || fl_zero (f_fl d) then [] else replicate fill 32 in
  space ++ f_prefix d ++ zeros ++ body ++ after.

Lemma field_text_parts d a :
  let pl := Z.of_nat (length (f_prefix d)) in
  let p := field_prec d a in
  let w := field_width d a in
  field_text d a =
  pad_text 32 w (pl + p) (f_fl d) ++ f_prefix d ++
  pad_text 48 w (pl + p) (Z.lxor (f_fl d) Spec.ZERO_PAD) ++
  pad_text 48 p (Z.of_nat (length a)) 0 ++ a ++
  pad_text 32 w (pl + p) (Z.lxor (f_fl d) Spec.LEFT_ADJ).
Proof.
  cbv zeta. rewrite !pad_text_flags. unfold field_text.
  destruct (fl_xor_zero (f_fl d)) as [-> ->], (fl_xor_left (f_fl d)) as [-> ->].
  change (fl_left 0 || fl_zero 0) with false. cbv iota. by rewrite <- !app_assoc.
Qed.

(** The same, after other steps. *)
Lemma pad_step cap s0 o0 L s o c w l fl :
  grown cap s0 o0 L s o -> is_byte c -> 0 <= l -> w <= INT_MAX ->
  Z.of_nat (length (L ++ pad_text c w l fl)) <= cap ->
  exists s' o', pad o c w l fl s = Ok o' s' /\ grown cap s0 o0 (L ++ pad_text c w l fl) s' o'.
Proof.
  intros G Hc Hl Hw Hcap. destruct (pad_ok cap s o c w l fl L) as (s' & o' & H & G'); try done.
  { apply G. } exists s', o'. eauto using grown_trans.
Qed.

Lemma out_step cap s0 o0 L s o t l :
  grown cap s0 o0 L s o -> text_at cap s0 (o_file o0) t l ->
  Z.of_nat (length (L ++ l)) <= cap -> Z.of_nat (length l) <= INT_MAX ->
  exists s' o', out o t (Z.of_nat (length l)) s = Ok o' s' /\ grown cap s0 o0 (L ++ l) s' o'.
Proof.
  intros G Ht Hcap Hl. destruct (out_ok cap s o t l L) as (s' & o' & H & G'); try done.
  { apply G. } { eapply text_at_moved; [apply G|done]. } exists s', o'. eauto using grown_trans.
Qed.

Lemma write_field_ok cap s o d a cnt L :
  Has cap s (o_file o) L -> text_at cap s (o_file o) (f_a d) a -> f_n d = Z.of_nat (length a) ->
  Forall is_byte (f_prefix d) -> field_width d a <= INT_MAX - cnt -> 0 <= cnt ->
  Z.of_nat (length (L ++ field_text d a)) <= cap ->
  exists s' o', write_field o d cnt s = Ok (o', inr (field_width d a)) s' /\
    grown cap s o (L ++ field_text d a) s' o'.
Proof.
  intros HL Ha Hn Hpre Hw Hcnt Hcap. unfold write_field. cbv zeta. rewrite Hn.
  assert (Hp : (if f_p d <? Z.of_nat (length a) then Z.of_nat (length a) else f_p d) = field_prec d a).
  { unfold field_prec. destruct (Z.ltb_spec (f_p d) (Z.of_nat (length a))); lia. }
  rewrite Hp. set (pl := Z.of_nat (length (f_prefix d))) in *. set (p := field_prec d a) in *.
  assert (HW : (if f_w d <? pl + p then pl + p else f_w d) = field_width d a).
  { unfold field_width. fold pl p. destruct (Z.ltb_spec (f_w d) (pl + p)); lia. }
  rewrite HW. assert (Hpw : pl + p <= field_width d a) by (unfold field_width; fold pl p; lia).
  set (w := field_width d a) in *. assert (Hp0 : Z.of_nat (length a) <= p) by (unfold p, field_prec; lia).
  rewrite (proj2 (Z.ltb_ge _ _)), (proj2 (Z.ltb_ge _ _)) by lia.
  rewrite field_text_parts in Hcap |- *. cbv zeta in *. fold pl p w in Hcap |- *.
  rewrite !length_app in Hcap.
  assert (Hmax : w <= INT_MAX) by lia.
  assert (Hal : Z.of_nat (length a) <= INT_MAX /\ pl <= INT_MAX) by lia.
  destruct (pad_step cap s o L s o 32 w (pl + p) (f_fl d) (grown_refl _ _ _ _ HL)) as (s1 & o1 & H1 & G1);
    [done|lia|done|rewrite !length_app; lia|].
  erewrite bind_ok by exact H1. cbv beta.
  destruct (out_step _ _ _ _ _ _ (Arr (f_prefix d)) (f_prefix d) G1) as (s2 & o2 & H2 & G2);
    [by apply arr_at|rewrite !length_app; lia|lia|].
  erewrite bind_ok by exact H2. cbv beta.
  destruct (pad_step _ _ _ _ _ _ 48 w (pl + p) (Z.lxor (f_fl d) Spec.ZERO_PAD) G2) as (s3 & o3 & H3 & G3);
    [done|lia|done|rewrite !length_app; lia|].
  erewrite bind_ok by exact H3. cbv beta.
  destruct (pad_step _ _ _ _ _ _ 48 p (Z.of_nat (length a)) 0 G3) as (s4 & o4 & H4 & G4);
    [done|lia|lia|rewrite !length_app; lia|].
  erewrite bind_ok by exact H4. cbv beta.
  destruct (out_step _ _ _ _ _ _ (f_a d) a G4) as (s5 & o5 & H5 & G5);
    [done|rewrite !length_app; lia|lia|].
  erewrite bind_ok by exact H5. cbv beta.
  destruct (pad_step _ _ _ _ _ _ 32 w (pl + p) (Z.lxor (f_fl d) Spec.LEFT_ADJ) G5) as (s6 & o6 & H6 & G6);
    [done|lia|done|rewrite !length_app; lia|].
  erewrite bind_ok by exact H6. cbv beta.
  exists s6, o6. split; [done|]. by rewrite <- !app_assoc in G6.
Qed.
End Write.
