(* ===== verification/PrintfParse.v ===== *)
(** * Reading conversion specifications

    [read_conversion] on the text of a specification finds its flags, width, precision
    and conversion, and takes the arguments its meaning takes. *)

From Stdlib Require Import String.
From S2P Require Import Prelude CMem Cells CType Words StrScan StrCopy Stdio Streams Printf.
From S2P Require Import PrintfSpec PrintfWrite.
Import Spec.

(** ** Characters *)

Definition is_digit (c : Z) : bool := between 48 c 57.
Definition is_flag (c : Z) : bool :=
  (u32 (c - 32) <? 32) && negb (Z.land Spec.FLAGMASK (Z.shiftl 1 (c - 32)) =? 0).

Lemma is_flag_spec c : is_byte c -> is_flag c = bool_decide (c ∈ flag_chars).
Proof.
  intros Hc. apply eqb_prop. revert c Hc.
  apply (forall_bytes (fun c => eqb (is_flag c) (bool_decide (c ∈ flag_chars)))). by vm_compute.
Qed.

(** ** Loads at the front of a text *)

Lemma load_first s p c l : bytes_at (mem s) p (c :: l) -> load8 p s = Ok c s.
Proof. intros [H _]. by apply load8_ok. Qed.

Lemma load_nth s p l i c q :
  bytes_at (mem s) p l -> l !! i = Some c -> q = p + Z.of_nat i -> load8 q s = Ok c s.
Proof. intros Hb Hi ->. apply load8_ok. by apply (bytes_at_lookup _ _ _ _ _ Hb). Qed.

(** ** Numbers *)

Definition value_of (cs : list Z) (i : Z) : Z := foldl (fun v c => 10 * v + (c - 48)) i cs.

Lemma value_of_ge cs i : Forall (fun c => is_digit c = true) cs -> 0 <= i -> i <= value_of cs i.
Proof.
  revert i. induction cs as [|c cs IH]; intros i HF Hi; [simpl; lia|].
  apply Forall_cons in HF as [Hc HF]. unfold is_digit, between in Hc. simpl.
  specialize (IH (10 * i + (c - 48)) HF ltac:(lia)). lia.
Qed.

Lemma map_value ds i :
  Forall (fun d => 0 <= d < 10) ds -> value_of (map digit_char ds) i = foldl (fun v d => 10 * v + d) i ds.
Proof.
  revert i. induction ds as [|d ds IH]; intros i HF; [done|]. apply Forall_cons in HF as [Hd HF].
  simpl. rewrite IH by done. f_equal. unfold digit_char. rewrite (proj2 (Z.ltb_lt _ _)) by lia. lia.
Qed.

Lemma decimal_digits n :
  0 <= n <= INT_MAX -> Forall (fun c => is_digit c = true) (decimal n) /\ value_of (decimal n) 0 = n.
Proof.
  unfold INT_MAX. intros Hn. unfold decimal. destruct (Z.eqb_spec n 0) as [->|]; [by repeat constructor|].
  pose proof (digits_range 10 n ltac:(lia) ltac:(lia)) as HF. split.
  - apply Forall_map. eapply Forall_impl; [exact HF|]. intros d Hd. simpl in *.
    unfold is_digit, digit_char, between. rewrite (proj2 (Z.ltb_lt d 10)) by lia. lia.
  - rewrite map_value by done. by apply (digits_value_of 10 n); lia.
Qed.

Lemma decimal_first n : 0 < n <= INT_MAX -> exists c cs, decimal n = c :: cs /\ 49 <= c <= 57.
Proof.
  unfold INT_MAX. intros Hn. unfold decimal. rewrite (proj2 (Z.eqb_neq n 0)) by lia.
  assert (Hk : forall k n, 0 < n < 10 ^ Z.of_nat k -> n <= 2147483647 ->
    exists d ds, digits 10 n = d :: ds /\ 1 <= d <= 9).
  { clear n Hn. induction k as [|k IH]; intros n Hn Hm; [simpl in Hn; lia|].
    rewrite digits_step by lia. destruct (decide (n < 10)) as [Hs|Hs].
    - rewrite Z.div_small, digits_0, Z.mod_small by lia. exists n, []. split; [done|lia].
    - rewrite Nat2Z.inj_succ, Z.pow_succ_r in Hn by lia.
      destruct (IH (n / 10)) as (d & ds & -> & Hd).
      { split; [apply Z.div_str_pos; lia|apply Z.div_lt_upper_bound; lia]. }
      { apply Z.div_le_upper_bound; lia. }
      by eexists d, _. }
  destruct (Hk 10%nat n) as (d & ds & -> & Hd); [simpl; lia|lia|].
  exists (digit_char d), (map digit_char ds). split; [done|].
  unfold digit_char. rewrite (proj2 (Z.ltb_lt _ _)) by lia. lia.
Qed.

(** ** Flags *)

Definition flags_value (cs : list Z) (fl : Z) : Z := foldl (fun fl c => Z.lor fl (Z.shiftl 1 (c - 32))) fl cs.

Lemma flags_testbit cs fl k :
  0 <= k -> Forall (fun c => 32 <= c) cs ->
  Z.testbit (flags_value cs fl) k = Z.testbit fl k || bool_decide (k + 32 ∈ cs).
Proof.
  intros Hk. revert fl. induction cs as [|c cs IH]; intros fl HF.
  - simpl. by rewrite orb_false_r.
  - apply Forall_cons in HF as [Hc HF]. simpl. rewrite IH by done.
    rewrite Z.lor_spec, <- orb_assoc. f_equal. rewrite Z.shiftl_1_l.
    destruct (decide (c = k + 32)) as [->|Hne].
    + replace (k + 32 - 32) with k by lia. rewrite Z.pow2_bits_true by done.
      rewrite (bool_decide_eq_true_2 (_ ∈ _ :: _)); [done|set_solver].
    + rewrite Z.pow2_bits_false by lia. simpl. apply bool_decide_ext. set_solver.
Qed.

(** ** The characters of a specification *)

Definition spec_char (c : Z) : Prop := is_char c /\ c <> 36 /\ c <> 37.

Lemma number_chars n :
  match n with Number n => 0 <= n <= INT_MAX | _ => True end -> Forall spec_char (show_number n).
Proof.
  intros Hn. destruct n as [|n|]; simpl.
  - constructor.
  - destruct (decimal_digits n Hn) as [HF _]. eapply Forall_impl; [exact HF|].
    intros c Hc. unfold is_digit, between in Hc. unfold spec_char, is_char. lia.
  - repeat constructor; done.
Qed.

Lemma show_spec_chars d : wf_spec d -> Forall spec_char (show_spec d).
Proof.
  intros (Hf & Hw & Hp & _). unfold show_spec. rewrite !Forall_app. split_and!.
  - eapply Forall_impl; [exact Hf|]. intros c Hc. unfold flag_chars in Hc. simpl in Hc.
    unfold spec_char, is_char. set_solver by lia.
  - apply number_chars. destruct (s_width d); [done|lia|done].
  - destruct (s_prec d) as [n|]; simpl; [|constructor]. constructor; [done|].
    apply number_chars. by destruct n.
  - destruct (s_size d); repeat constructor; done.
  - destruct (s_conv d); repeat constructor; done.
Qed.

Lemma show_spec_first d rest :
  wf_spec d -> exists c tl, show_spec d ++ rest = c :: tl /\ spec_char c /\
    (is_digit c = true -> exists x tl', tl = x :: tl' /\ x <> 36).
Proof.
  intros Hd. pose proof (show_spec_chars d Hd) as HF. unfold show_spec in *.
  rewrite !app_assoc in *. set (b := (_ ++ _) ++ size_chars _) in *. clearbody b.
  destruct b as [|c b]; simpl in *.
  - apply Forall_cons in HF as [Hc _]. eexists _, _. split; [done|]. split; [done|].
    destruct (s_conv d); done.
  - apply Forall_cons in HF as [Hc HF]. eexists _, _. split; [done|]. split; [done|].
    intros _. destruct b as [|x b]; simpl in *; apply Forall_cons in HF as [(_ & Hx & _) _];
      by eexists _, _.
Qed.

Section Parse.
Context {F : Type} (lc : option Locale).
(** The digits of the locale are those of ASCII. *)
Context (Hdigit : forall c, is_byte c -> digit_r lc c = is_digit c).

Lemma getint_loop cs : forall s p i c rest,
  bytes_at (mem s) p (cs ++ c :: rest) -> Forall (fun c => is_digit c = true) cs ->
  is_byte c -> is_digit c = false -> 0 <= i -> value_of cs i <= INT_MAX ->
  lrun (getint_body lc) (Z.of_nat (length cs) + 1) (i, p) s (value_of cs i, p + Z.of_nat (length cs)) s.
Proof.
  induction cs as [|x cs IH]; intros s p i c rest Hb HF Hc Hnd Hi Hv.
  - apply lrun_done; [|simpl; lia]. unfold getint_body.
    erewrite bind_ok by (by eapply load_first). rewrite Hdigit, Hnd by done.
    simpl. by rewrite Z.add_0_r.
  - apply Forall_cons in HF as [Hx HF]. assert (Hx' := Hx). unfold is_digit, between in Hx'.
    simpl in Hv. pose proof (value_of_ge cs (10 * i + (x - 48)) HF ltac:(lia)).
    unfold INT_MAX in Hv.
    eapply lrun_next.
    + unfold getint_body. erewrite bind_ok by (by eapply load_first).
      rewrite Hdigit, Hx by (unfold is_byte; lia). rewrite (u32_id i) by lia.
      rewrite (proj2 (Z.ltb_ge (INT_MAX / 10) i)), (proj2 (Z.ltb_ge (INT_MAX - 10 * i) (x - 48)))
        by (unfold INT_MAX; change (2147483647 / 10) with 214748364; lia).
      reflexivity.
    + simpl length. eapply lrun_weaken; [|instantiate (1 := Z.of_nat (length cs) + 1); lia].
      simpl. destruct Hb as [_ Hb].
      replace (p + Z.of_nat (S (length cs))) with (p + 1 + Z.of_nat (length cs)) by lia.
      eapply IH; try done. lia.
Qed.

Lemma getint_ok cs s p c rest :
  bytes_at (mem s) p (cs ++ c :: rest) -> Forall (fun c => is_digit c = true) cs ->
  is_byte c -> is_digit c = false -> value_of cs 0 <= INT_MAX -> Z.of_nat (length cs) <= INT_MAX ->
  getint lc p s = Ok (value_of cs 0, p + Z.of_nat (length cs)) s.
Proof.
  intros Hb HF Hc Hnd Hv Hl. unfold getint, INT_MAX in *.
  apply (loop_lrun _ (Z.of_nat (length cs) + 1)); [|lia].
  exact (getint_loop cs s p 0 c rest Hb HF Hc Hnd ltac:(lia) Hv).
Qed.

Lemma getint_none s p c rest :
  bytes_at (mem s) p (c :: rest) -> is_byte c -> is_digit c = false -> getint lc p s = Ok (0, p) s.
Proof.
  intros Hb Hc Hn. rewrite (getint_ok [] s p c rest); try done. simpl. by rewrite Z.add_0_r.
Qed.

Lemma flags_loop cs : forall s p fl c rest,
  bytes_at (mem s) p (cs ++ c :: rest) -> Forall (fun c => c ∈ flag_chars) cs ->
  is_byte c -> c ∉ flag_chars ->
  lrun flags_body (Z.of_nat (length cs) + 1) (p, fl) s (p + Z.of_nat (length cs), flags_value cs fl) s.
Proof.
  assert (Hbytes : forall x, x ∈ flag_chars -> is_byte x).
  { intros x Hx. unfold flag_chars in Hx. simpl in Hx. unfold is_byte. set_solver by lia. }
  induction cs as [|x cs IH]; intros s p fl c rest Hb HF Hc Hnd.
  - apply lrun_done; [|simpl; lia]. unfold flags_body.
    erewrite bind_ok by (by eapply load_first).
    change ((u32 (c - 32) <? 32) && _) with (is_flag c).
    rewrite is_flag_spec, bool_decide_eq_false_2 by done. simpl. by rewrite Z.add_0_r.
  - apply Forall_cons in HF as [Hx HF].
    eapply lrun_next.
    + unfold flags_body. erewrite bind_ok by (by eapply load_first).
      change ((u32 (x - 32) <? 32) && _) with (is_flag x).
      rewrite is_flag_spec, bool_decide_eq_true_2 by auto. reflexivity.
    + simpl length. eapply lrun_weaken; [|instantiate (1 := Z.of_nat (length cs) + 1); lia].
      simpl. destruct Hb as [_ Hb].
      replace (p + Z.of_nat (S (length cs))) with (p + 1 + Z.of_nat (length cs)) by lia.
      by eapply IH.
Qed.

(** ** The pieces of a specification *)

Definition letter (c : Z) : Prop := 88 <= c <= 122.
(** What may follow a width. *)
Definition after_width (c : Z) : Prop := c = 46 \/ letter c.

Lemma after_width_plain c :
  after_width c -> is_byte c /\ is_digit c = false /\ c <> 42 /\ c ∉ flag_chars.
Proof.
  unfold after_width, letter, is_byte, is_digit, between. intros H. split_and!; try lia.
  unfold flag_chars. simpl. set_solver by lia.
Qed.

Lemma dollar_none s p n l c rest q :
  bytes_at (mem s) p (l ++ c :: rest) -> Z.of_nat (length l) = n -> q = p ->
  is_byte c -> (is_digit c = true -> exists d rest', rest = d :: rest' /\ d <> 36) ->
  dollar lc q n s = Ok None s.
Proof.
  intros Hb Hl -> Hc Hd. unfold dollar.
  erewrite bind_ok by (eapply (load_nth _ _ _ (length l)); [exact Hb|by apply list_lookup_middle|lia]).
  rewrite Hdigit by done. destruct (is_digit c); [|done].
  destruct Hd as (d & rest' & -> & Hne); [done|].
  erewrite bind_ok.
  2:{ eapply (load_nth _ _ _ (S (length l))); [exact Hb| |lia].
      rewrite lookup_app_r by lia. by replace (S (length l) - length l)%nat with 1%nat by lia. }
  cbv beta. by rewrite (proj2 (Z.eqb_neq _ _) Hne).
Qed.

Lemma read_flags_ok (k : @core F) s cs c rest :
  bytes_at (mem s) (k_s k) (cs ++ c :: rest) -> Forall (fun c => c ∈ flag_chars) cs ->
  is_byte c -> c ∉ flag_chars -> Z.of_nat (length cs) <= INT_MAX ->
  read_flags (F := F) k s = Ok (set_s k (k_s k + Z.of_nat (length cs)), flags_value cs 0) s.
Proof.
  intros Hb HF Hc Hn Hl. unfold read_flags. erewrite bind_ok.
  2:{ apply (loop_lrun _ (Z.of_nat (length cs) + 1)); [|unfold INT_MAX in Hl; lia].
      exact (flags_loop cs s (k_s k) 0 c rest Hb HF Hc Hn). }
  done.
Qed.

Lemma neg_s32 w : - INT_MAX <= w < 0 -> s32 (- w) = - w.
Proof. unfold s32, INT_MAX. intros. rewrite Z.mod_small; lia. Qed.

Lemma decimal_short n : 0 <= n <= INT_MAX -> Z.of_nat (length (decimal n)) <= INT_MAX.
Proof.
  unfold INT_MAX, decimal. intros Hn. destruct (n =? 0); [simpl; lia|].
  rewrite length_map. assert (length (digits 10 n) <= 10)%nat; [|lia].
  apply digits_short; [lia|simpl; lia|lia].
Qed.

Lemma read_number_ok (k : @core F) s n c rest :
  bytes_at (mem s) (k_s k) (decimal n ++ c :: rest) -> 0 <= n <= INT_MAX ->
  after_width c -> getint lc (k_s k) s = Ok (n, k_s k + Z.of_nat (length (decimal n))) s.
Proof.
  intros Hb Hn Ha. destruct (after_width_plain c Ha) as (Hc & Hnd & _).
  destruct (decimal_digits n Hn) as [HF Hv]. rewrite <- Hv at 1.
  eapply getint_ok; try done; [lia|by apply decimal_short].
Qed.

Lemma star_some (k : @core F) s o v ap :
  k_out k = Some o -> k_ap k = Word v :: ap -> star k s = Ok (set_ap k ap, s32 v) s.
Proof. intros Ho Hap. unfold star. by rewrite Ho, Hap. Qed.
Lemma star_none (k : @core F) s : k_out k = None -> star k s = Ok (k, 0) s.
Proof. intros Ho. unfold star. by rewrite Ho. Qed.

(** A number or a star at the front of [k]: its value, and the state after
    the arguments it takes. *)
Definition number_step (k : @core F) (n : number) (s : state) (k1 : @core F) (v : Z) : Prop :=
  match n with
  | Absent => k1 = k /\ v = 0
  | Number n => k1 = k /\ v = n
  | Argument => star k s = Ok (k1, v) s
  end.

Lemma number_step_some k s o n v ap1 :
  k_out k = Some o -> arg_number n (k_ap k) = Some (v, ap1) -> number_step k n s (set_ap k ap1) v.
Proof.
  intros Ho Harg. destruct n as [|n|]; simpl in *; simplify_eq; [by destruct k|by destruct k|].
  destruct (k_ap k) as [|[w| |] ap] eqn:Eap; try done. simplify_eq. by eapply star_some.
Qed.

Lemma number_step_none k s n : k_out k = None -> exists v, number_step k n s k v.
Proof. intros Ho. destruct n; eexists; [done|done|by apply star_none]. Qed.

Lemma read_width_gen (k : @core F) s n c rest fl k1 w :
  k_l10n k = false ->
  bytes_at (mem s) (k_s k) (show_number n ++ c :: rest) -> after_width c ->
  match n with Number n => 0 < n <= INT_MAX | _ => True end ->
  number_step k n s k1 w ->
  read_width (F := F) lc k fl s =
  Ok (inr (set_s k1 (k_s k + Z.of_nat (length (show_number n))),
           if w <? 0 then Z.lor fl Spec.LEFT_ADJ else fl, if w <? 0 then s32 (- w) else w)) s.
Proof.
  intros Hl Hb Ha Hn Hstep. destruct (after_width_plain c Ha) as (Hc & Hnd & H42 & _).
  unfold read_width. destruct n as [|n|]; simpl in Hstep; cbn [show_number app] in Hb.
  - destruct Hstep as [-> ->]. erewrite bind_ok by (by eapply load_first).
    rewrite (proj2 (Z.eqb_neq c 42)) by done.
    erewrite bind_ok by (by eapply getint_none). simpl. by rewrite Z.add_0_r.
  - destruct Hstep as [-> ->]. destruct (decimal_first n Hn) as (x & xs & Hx & Hxr).
    assert (Hb' := Hb). rewrite Hx in Hb'. cbn [app] in Hb'.
    erewrite bind_ok by (by eapply load_first).
    rewrite (proj2 (Z.eqb_neq x 42)) by lia.
    erewrite bind_ok by (by apply (read_number_ok k s n c rest); [|lia|]). simpl.
    by rewrite (proj2 (Z.ltb_ge n 0)) by lia.
  - erewrite bind_ok by (by eapply load_first). change (42 =? 42) with true. cbv iota.
    erewrite bind_ok by (apply (dollar_none s (k_s k) 1 [42] c rest); try done; by rewrite Hnd).
    rewrite Hl. cbn [negb]. unfold try.
    erewrite bind_ok by (by erewrite bind_ok by exact Hstep).
    cbv beta iota. by destruct (w <? 0).
Qed.

(** How the code represents a precision. *)
Definition prec_code (p : option Z) (pz : Z) (xp : bool) : Prop :=
  match p with
  | None => - INT_MAX - 1 <= pz < 0 /\ xp = false
  | Some v => pz = v /\ xp = true /\ 0 <= v <= INT_MAX
  end.

Lemma letter_after c : letter c -> after_width c.
Proof. by right. Qed.

Lemma core_same (k : @core F) : set_s (set_ap k (k_ap k)) (k_s k + 0) = k.
Proof. destruct k. unfold set_s, set_ap. simpl. by rewrite Z.add_0_r. Qed.

Lemma bytes_at_tail m p x l : bytes_at m p (x :: l) -> bytes_at m (p + 1) l.
Proof. by intros [_ H]. Qed.

Lemma load_second s p x c l : bytes_at (mem s) p (x :: c :: l) -> load8 (p + 1) s = Ok c s.
Proof. intros [_ H]. by eapply load_first. Qed.

Definition prec_step (k : @core F) (pr : option number) (s : state) (k1 : @core F) (v : Z) : Prop :=
  match pr with None => k1 = k /\ v = -1 | Some n => number_step k n s k1 v end.

Lemma read_precision_gen (k : @core F) s pr c rest k1 v :
  k_l10n k = false ->
  bytes_at (mem s) (k_s k) (show_prec pr ++ c :: rest) -> letter c ->
  match pr with Some (Number n) => 0 <= n <= INT_MAX | _ => True end ->
  prec_step k pr s k1 v ->
  read_precision (F := F) lc k s =
  Ok (inr (set_s k1 (k_s k + Z.of_nat (length (show_prec pr))), v,
    match pr with None => false | Some Argument => 0 <=? v | _ => true end)) s.
Proof.
  intros Hl Hb Hlt Hn Hstep. destruct (after_width_plain c (letter_after c Hlt)) as (Hc & Hnd & H42 & _).
  unfold letter in Hlt. unfold read_precision.
  destruct pr as [n|]; cbn [show_prec app length] in *; simpl in Hstep.
  2:{ destruct Hstep as [-> ->]. erewrite bind_ok by (by eapply load_first).
      rewrite (proj2 (Z.eqb_neq c 46)) by lia. rewrite Z.add_0_r. by destruct k. }
  destruct n as [|n|]; cbn [show_number app length] in *; simpl in Hstep.
  - destruct Hstep as [-> ->].
    erewrite bind_ok by (by eapply load_first). change (46 =? 46) with true. cbv iota.
    erewrite bind_ok by (by eapply load_second). rewrite (proj2 (Z.eqb_neq c 42)) by done.
    by erewrite bind_ok by (by eapply getint_none; [eapply bytes_at_tail; exact Hb|..]).
  - destruct Hstep as [-> ->]. destruct (decimal_digits n Hn) as [HF Hv].
    destruct (decimal n ++ c :: rest) as [|x xs] eqn:Ex; [by destruct (decimal n)|].
    assert (Hx : x <> 42).
    { destruct (decimal n) as [|y ys]; simpl in Ex; simplify_eq; [lia|].
      apply Forall_cons in HF as [Hy _]. unfold is_digit, between in Hy. lia. }
    erewrite bind_ok by (by eapply load_first). change (46 =? 46) with true. cbv iota.
    erewrite bind_ok by (by eapply load_second). rewrite (proj2 (Z.eqb_neq x 42)) by done.
    pose proof (bytes_at_tail _ _ _ _ Hb) as Hb'. rewrite <- Ex in Hb'.
    erewrite bind_ok by (apply (read_number_ok (set_s k (k_s k + 1)) s n c rest); [exact Hb'|lia|by right]).
    cbv beta iota. simpl k_s.
    by replace (k_s k + 1 + Z.of_nat (length (decimal n))) with (k_s k + Z.of_nat (S (length (decimal n)))) by lia.
  - erewrite bind_ok by (by eapply load_first). change (46 =? 46) with true. cbv iota.
    erewrite bind_ok by (by eapply load_second). change (42 =? 42) with true. cbv iota.
    erewrite bind_ok by (apply (dollar_none s (k_s k) 2 [46; 42] c rest); try done; by rewrite Hnd).
    rewrite Hl. cbn [negb]. unfold try.
    by erewrite bind_ok by (by erewrite bind_ok by exact Hstep).
Qed.

Lemma s32_int w : - INT_MAX - 1 <= s32 w <= INT_MAX.
Proof. unfold s32, INT_MAX. pose proof (Z.mod_pos_bound (w + 2147483648) 4294967296 ltac:(lia)). lia. Qed.

Lemma prec_step_some k s o pr p ap1 :
  k_out k = Some o -> match pr with Some (Number n) => 0 <= n <= INT_MAX | _ => True end ->
  arg_prec pr (k_ap k) = Some (p, ap1) ->
  exists v, prec_step k pr s (set_ap k ap1) v /\
    prec_code p v (match pr with None => false | Some Argument => 0 <=? v | _ => true end).
Proof.
  intros Ho Hn Harg. destruct pr as [n|]; simpl in *.
  2:{ simplify_eq. exists (-1). unfold INT_MAX. split; [by destruct k|done]. }
  destruct (arg_number n (k_ap k)) as [[v ap]|] eqn:E; simpl in Harg; [|done]. simplify_eq.
  exists v. split; [by eapply number_step_some|].
  destruct n as [|n|]; simpl in E; simplify_eq; simpl.
  - by unfold INT_MAX.
  - rewrite (proj2 (Z.ltb_ge v 0)) by lia. simpl. lia.
  - destruct (k_ap k) as [|[x| |] ap] eqn:Eap; try done. simplify_eq.
    pose proof (s32_int x). destruct (Z.ltb_spec (s32 x) 0); simpl; lia.
Qed.

(** ** Size and conversion *)

Fixpoint walk (st : Z) (cs : list Z) : option Z :=
  match cs with
  | [] => Some st
  | c :: cs =>
      if OOB c then None
      else if u32 (spec_state st c - 1) <? Spec.STOP then walk (spec_state st c) cs else None
  end.

Lemma specifier_run cs : forall st s p x rest st1,
  bytes_at (mem s) p (cs ++ x :: rest) -> walk st cs = Some st1 -> OOB x = false ->
  (u32 (spec_state st1 x - 1) <? Spec.STOP) = false ->
  lrun specifier_body (Z.of_nat (length cs) + 1) (st, p) s
    (inr (spec_state st1 x, st1, p + Z.of_nat (length cs) + 1)) s.
Proof.
  induction cs as [|c cs IH]; intros st s p x rest st1 Hb Hw Hx Hst.
  - simpl in Hw. simplify_eq. apply lrun_done; [|simpl; lia]. unfold specifier_body.
    erewrite bind_ok by (by eapply load_first). rewrite Hx. cbv zeta. rewrite Hst.
    simpl. by rewrite Z.add_0_r.
  - simpl in Hw. destruct (OOB c) eqn:Ec; [done|]. destruct (_ <? _) eqn:Es; [|done].
    eapply lrun_next.
    + unfold specifier_body. erewrite bind_ok by (by eapply load_first). rewrite Ec. cbv zeta.
      rewrite Es. reflexivity.
    + simpl length. eapply lrun_weaken; [|instantiate (1 := Z.of_nat (length cs) + 1); lia].
      replace (p + Z.of_nat (S (length cs)) + 1) with (p + 1 + Z.of_nat (length cs) + 1) by lia.
      eapply IH; try done. by eapply bytes_at_tail.
Qed.

(** The state after a size, and the type of the argument. *)
Definition size_state (z : size) : Z :=
  match z with
  | size_int => 0 | size_hh => 4 | size_h => 3 | size_l => 1 | size_ll => 2
  | size_j => 7 | size_z => 6 | size_t => 6
  end.
Definition arg_type (z : size) (c : conv) : Z := spec_state (size_state z) (conv_char c).

Definition wf_size (z : size) (c : conv) : Prop :=
  match c with conv_c | conv_s | conv_p => z = size_int | _ => True end.

Lemma arg_type_final z c :
  wf_size z c -> (u32 (arg_type z c - 1) <? Spec.STOP) = false /\ arg_type z c <> 0 /\
    arg_type z c <> Spec.NOARG.
Proof. destruct z, c; intros H; try done; by repeat split. Qed.

Lemma read_specifier_ok (k : @core F) s z c rest :
  bytes_at (mem s) (k_s k) (size_chars z ++ conv_char c :: rest) -> wf_size z c ->
  read_specifier (F := F) k s =
  Ok (inr (set_s k (k_s k + Z.of_nat (length (size_chars z)) + 1), arg_type z c, size_state z,
    conv_char c)) s.
Proof.
  intros Hb Hw. unfold read_specifier, try. destruct (arg_type_final z c Hw) as (Hst & Hnz & _).
  erewrite bind_ok.
  2:{ apply (loop_lrun _ (Z.of_nat (length (size_chars z)) + 1)); [|by destruct z].
      eapply (specifier_run (size_chars z) 0 s (k_s k) (conv_char c) rest (size_state z)); try done;
        [by destruct z|by destruct c]. }
  cbv beta iota. fold (arg_type z c). rewrite (proj2 (Z.eqb_neq _ 0)) by done.
  erewrite bind_ok; [reflexivity|].
  eapply (load_nth _ _ _ (length (size_chars z))); [exact Hb|by apply list_lookup_middle|lia].
Qed.

(** ** Arguments *)

Lemma u64_s64 w : u64 (s64 w) = u64 w.
Proof. unfold u64, s64. rewrite Zminus_mod_idemp_l. f_equal. lia. Qed.
Lemma u64_u64 w : u64 (u64 w) = u64 w.
Proof. unfold u64. by rewrite Zmod_mod. Qed.

Lemma pop_int d v n rest s :
  match s_conv d with conv_c | conv_s => False | _ => True end -> wf_size (s_size d) (s_conv d) ->
  int_value d v = Some n ->
  pop_arg (F := F) (arg_i 0) (arg_type (s_size d) (s_conv d)) (v :: rest) s =
  Ok (arg_i (u64 n), rest) s.
Proof.
  intros Hc Hw Hv. destruct d as [fs w pr z c]. simpl in *.
  destruct z, c; try done; destruct v as [x|x|x]; unfold int_value in Hv; simpl in Hv; simplify_eq;
    cbn; rewrite ?u64_s64, ?u64_u64; reflexivity.
Qed.

Lemma pop_char x rest s :
  pop_arg (F := F) (arg_i 0) (arg_type size_int conv_c) (Word x :: rest) s =
  Ok (arg_i (u64 (s8 x)), rest) s.
Proof. reflexivity. Qed.

Lemma pop_string x rest s :
  pop_arg (F := F) (arg_i 0) (arg_type size_int conv_s) (Word x :: rest) s = Ok (arg_p (u32 x), rest) s.
Proof. reflexivity. Qed.

(** ** A whole specification *)

Lemma size_tail z c rest :
  exists x tl, size_chars z ++ conv_char c :: rest = x :: tl /\ letter x.
Proof. unfold letter. destruct z, c; simpl; eexists _, _; (split; [done|lia]). Qed.

Lemma prec_tail pr z c rest :
  exists x tl, show_prec pr ++ size_chars z ++ conv_char c :: rest = x :: tl /\ after_width x.
Proof.
  destruct pr as [n|]; simpl.
  - eexists _, _. split; [done|]. by left.
  - destruct (size_tail z c rest) as (x & tl & -> & Hx). eexists _, _. split; [done|]. by right.
Qed.

Lemma width_tail w pr z c rest :
  match w with Number n => 0 < n <= INT_MAX | _ => True end ->
  exists x tl, show_number w ++ show_prec pr ++ size_chars z ++ conv_char c :: rest = x :: tl /\
    is_byte x /\ x ∉ flag_chars.
Proof.
  intros Hw. destruct w as [|n|]; simpl.
  - destruct (prec_tail pr z c rest) as (x & tl & -> & Hx).
    destruct (after_width_plain x Hx) as (? & _ & _ & ?). by exists x, tl.
  - destruct (decimal_first n Hw) as (x & xs & -> & Hx). simpl. eexists _, _. split; [done|].
    split; [unfold is_byte; lia|]. unfold flag_chars. simpl. set_solver by lia.
  - eexists _, _. split; [done|]. split; [done|]. unfold flag_chars. simpl. set_solver by lia.
Qed.

Definition spec_flags (d : spec) (w : Z) : Z :=
  if w <? 0 then Z.lor (flags_value (s_flags d) 0) LEFT_ADJ else flags_value (s_flags d) 0.

Lemma read_argpos_ok (k : @core F) s d rest :
  wf_spec d -> bytes_at (mem s) (k_s k) (37 :: show_spec d ++ rest) ->
  read_argpos lc k s = Ok (set_s k (k_s k + 1), -1) s.
Proof.
  intros Hd Hb. destruct (show_spec_first d rest Hd) as (c & tl & E & [Hc _] & Hdig).
  rewrite E in Hb. unfold read_argpos.
  assert (is_byte c) by (unfold is_char, is_byte in *; lia).
  by erewrite bind_ok by (by apply (dollar_none s (k_s k) 1 [37] c tl)).
Qed.

(** The front of [read_conversion], up to the argument. *)
Lemma scan_front (k : @core F) s d rest k1 w k2 v (K : Z -> @core F -> Z -> Z -> Z -> bool -> Z -> Z -> Z ->
    M (stop + @core F * uarg F * (Z * Z * Z * Z * Z * bool))) :
  wf_spec d -> k_l10n k = false -> Z.of_nat (length (show_spec d)) <= INT_MAX ->
  bytes_at (mem s) (k_s k) (37 :: show_spec d ++ rest) ->
  number_step (set_s k (k_s k + 1 + Z.of_nat (length (s_flags d)))) (s_width d) s k1 w ->
  prec_step (set_s k1 (k_s k + 1 + Z.of_nat (length (s_flags d)) +
    Z.of_nat (length (show_number (s_width d))))) (s_prec d) s k2 v ->
  k_l10n k1 = false ->
  (let* (k, argpos) := read_argpos lc k in
   let* (k, fl) := read_flags k in
   try (read_width lc k fl) (fun '(k, fl, w) =>
   try (read_precision lc k) (fun '(k, p, xp) =>
   try (read_specifier k) (fun '(k, st, ps, t) => K argpos k fl w p xp st ps t)))) s =
  K (-1) (set_s k2 (k_s k + 1 + Z.of_nat (length (show_spec d)))) (spec_flags d w)
    (if w <? 0 then s32 (- w) else w) v
    (match s_prec d with None => false | Some Argument => 0 <=? v | _ => true end)
    (arg_type (s_size d) (s_conv d)) (size_state (s_size d)) (conv_char (s_conv d)) s.
Proof.
  intros Hd Hl Hlen Hb Hw Hp Hl1. pose proof Hd as (Hf & Hwn & Hpn & Hsz).
  erewrite bind_ok by (by eapply read_argpos_ok). cbv beta iota.
  apply bytes_at_tail in Hb. unfold show_spec in Hb, Hlen |- *. rewrite !length_app in Hlen |- *.
  rewrite <- !app_assoc in Hb. cbn [app] in Hb.
  pose proof Hb as Hb1. destruct (width_tail (s_width d) (s_prec d) (s_size d) (s_conv d) rest Hwn)
    as (c1 & tl1 & E1 & Hc1 & Hn1). rewrite E1 in Hb1.
  erewrite bind_ok by (eapply (read_flags_ok (set_s k (k_s k + 1))); try done; lia).
  cbv beta iota. cbn [k_s set_s].
  apply bytes_at_app in Hb as [_ Hb]. pose proof Hb as Hb2.
  destruct (prec_tail (s_prec d) (s_size d) (s_conv d) rest) as (c2 & tl2 & E2 & Hc2). rewrite E2 in Hb2.
  unfold try at 1.
  erewrite bind_ok by (eapply (read_width_gen (set_s k _)); [exact Hl|exact Hb2|exact Hc2|exact Hwn|exact Hw]).
  cbv beta iota. cbn [k_s set_s].
  apply bytes_at_app in Hb as [_ Hb]. pose proof Hb as Hb3.
  destruct (size_tail (s_size d) (s_conv d) rest) as (c3 & tl3 & E3 & Hc3). rewrite E3 in Hb3.
  unfold try at 1.
  erewrite bind_ok by (eapply (read_precision_gen (set_s k1 _)); [exact Hl1|exact Hb3|exact Hc3|exact Hpn|exact Hp]).
  cbv beta iota. cbn [k_s set_s].
  apply bytes_at_app in Hb as [_ Hb]. unfold try at 1.
  erewrite bind_ok by (eapply (read_specifier_ok (set_s k2 _)); [exact Hb|exact Hsz]).
  cbv beta iota. cbn [k_s set_s]. unfold spec_flags.
  simpl length.
  match goal with |- K _ (set_s _ ?x) _ _ _ _ _ _ _ s = K _ (set_s _ ?y) _ _ _ _ _ _ _ s =>
    replace y with x by lia end.
  reflexivity.
Qed.

Lemma scan_some (k : @core F) s o d rest w ap1 p ap2 a ap3 :
  k_out k = Some o -> k_l10n k = false -> wf_spec d -> Z.of_nat (length (show_spec d)) <= INT_MAX ->
  bytes_at (mem s) (k_s k) (37 :: show_spec d ++ rest) ->
  arg_number (s_width d) (k_ap k) = Some (w, ap1) -> - INT_MAX <= w ->
  arg_prec (s_prec d) ap1 = Some (p, ap2) ->
  pop_arg (arg_i 0) (arg_type (s_size d) (s_conv d)) ap2 s = Ok (a, ap3) s ->
  exists pz xp, prec_code p pz xp /\
    read_conversion lc k s = Ok (inr (set_s (set_ap k ap3) (k_s k + 1 + Z.of_nat (length (show_spec d))), a,
      (size_state (s_size d), conv_char (s_conv d), Z.abs w, pz, spec_flags d w, xp))) s.
Proof.
  intros Ho Hl Hd Hlen Hb Hw Hwr Hp Hpop. pose proof Hd as (_ & _ & Hpn & Hsz).
  assert (Hstep := number_step_some (set_s k (k_s k + 1 + Z.of_nat (length (s_flags d)))) s o (s_width d) w ap1 Ho Hw).
  destruct (prec_step_some (set_s (set_ap (set_s k (k_s k + 1 + Z.of_nat (length (s_flags d)))) ap1)
    (k_s k + 1 + Z.of_nat (length (s_flags d)) + Z.of_nat (length (show_number (s_width d))))) s o
    (s_prec d) p ap2 Ho Hpn Hp) as (v & Hpstep & Hcode).
  eexists v, _. split; [exact Hcode|]. unfold read_conversion.
  etransitivity; [eapply (scan_front k s d rest _ w _ v (fun argpos k fl w p xp st ps t =>
    try (fetch_arg k argpos st) (fun '(k, a) => give (k, a, (ps, t, w, p, fl, xp)))));
    [exact Hd|exact Hl|exact Hlen|exact Hb|exact Hstep|exact Hpstep|exact Hl]|].
  cbv beta. unfold try, fetch_arg. destruct (arg_type_final _ _ Hsz) as (_ & _ & Hna).
  rewrite (proj2 (Z.eqb_neq _ NOARG)) by done. change (0 <=? -1) with false. cbv iota.
  cbn [k_out set_s set_ap]. rewrite Ho.
  erewrite bind_ok by (erewrite bind_ok by exact Hpop; reflexivity). cbv beta iota.
  unfold give, ret. do 3 f_equal. destruct (Z.ltb_spec w 0).
  - rewrite neg_s32 by lia. by rewrite Z.abs_neq by lia.
  - by rewrite Z.abs_eq by lia.
Qed.

Lemma scan_none (k : @core F) s d rest :
  k_out k = None -> k_l10n k = false -> wf_spec d -> Z.of_nat (length (show_spec d)) <= INT_MAX ->
  bytes_at (mem s) (k_s k) (37 :: show_spec d ++ rest) ->
  read_conversion lc k s = Ok (inl (return_ 0)) s.
Proof.
  intros Ho Hl Hd Hlen Hb. pose proof Hd as (_ & _ & _ & Hsz).
  destruct (number_step_none (set_s k (k_s k + 1 + Z.of_nat (length (s_flags d)))) s (s_width d) Ho) as (w & Hw).
  assert (Hps : exists v, prec_step (set_s k (k_s k + 1 + Z.of_nat (length (s_flags d)) +
    Z.of_nat (length (show_number (s_width d))))) (s_prec d) s (set_s k (k_s k + 1 + Z.of_nat (length (s_flags d)) +
    Z.of_nat (length (show_number (s_width d))))) v).
  { unfold prec_step. destruct (s_prec d); [by apply number_step_none|by eexists]. }
  destruct Hps as (v & Hv). unfold read_conversion.
  etransitivity; [eapply (scan_front k s d rest _ w _ v (fun argpos k fl w p xp st ps t =>
    try (fetch_arg k argpos st) (fun '(k, a) => give (k, a, (ps, t, w, p, fl, xp)))));
    [exact Hd|exact Hl|exact Hlen|exact Hb|exact Hw|exact Hv|exact Hl]|].
  cbv beta. unfold try, fetch_arg. destruct (arg_type_final _ _ Hsz) as (_ & _ & Hna).
  rewrite (proj2 (Z.eqb_neq _ NOARG)) by done. change (0 <=? -1) with false. cbv iota.
  cbn [k_out set_s]. by rewrite Ho.
Qed.
End Parse.
