(* ===== verification/PrintfCore.v ===== *)
(** * [printf_core] writes what the format means

    Conversions first, then one round of the loop for a run of literal text
    and one for a conversion, and the two passes of [vfprintf]. *)

From Stdlib Require Import String.
From S2P Require Import Prelude CMem Cells CType Words StrScan StrCopy Stdio Streams Printf.
From S2P Require Import PrintfSpec PrintfWrite PrintfParse.
Import Spec.

(** ** Flags *)

Lemma without_bit fl b k :
  0 <= k < 32 -> Z.testbit (without fl b) k = Z.testbit fl k && negb (Z.testbit b k).
Proof.
  intros Hk. unfold without, not32, u32. rewrite Z.land_spec. f_equal.
  change 4294967296 with (2 ^ 32). rewrite Z.mod_pow2_bits_low by lia. apply Z.lnot_spec. lia.
Qed.

(** The flags once [-] has overruled [0]. *)
Definition final_flags (d : spec) (w : Z) : Z :=
  let fl := spec_flags d w in if has fl LEFT_ADJ then without fl ZERO_PAD else fl.

Section Flags.
Context (d : spec) (w : Z) (Hd : wf_spec d).

Lemma spec_testbit k :
  0 <= k -> Z.testbit (spec_flags d w) k = flag d (k + 32) || ((k =? 13) && (w <? 0)).
Proof.
  intros Hk. destruct Hd as (Hf & _).
  assert (HF : Forall (fun c => 32 <= c) (s_flags d)).
  { eapply Forall_impl; [exact Hf|]. intros c Hc. unfold flag_chars in Hc. simpl in Hc. set_solver by lia. }
  unfold spec_flags, flag. destruct (w <? 0).
  - rewrite Z.lor_spec, flags_testbit by done. rewrite Z.bits_0. simpl orb at 2.
    rewrite andb_true_r. f_equal. change LEFT_ADJ with (2 ^ 13).
    destruct (Z.eqb_spec k 13) as [->|]; [done|]. by rewrite Z.pow2_bits_false by lia.
  - rewrite flags_testbit by done. by rewrite Z.bits_0, andb_false_r, orb_false_r.
Qed.

Lemma spec_left : has (spec_flags d w) LEFT_ADJ = left_adjusted d w.
Proof. rewrite has_left, spec_testbit by lia. done. Qed.

Lemma final_testbit k :
  0 <= k < 32 -> Z.testbit (final_flags d w) k =
  Z.testbit (spec_flags d w) k && negb ((k =? 16) && left_adjusted d w).
Proof.
  intros Hk. unfold final_flags. rewrite spec_left. destruct (left_adjusted d w).
  - rewrite without_bit, andb_true_r by done. do 2 f_equal. change ZERO_PAD with (2 ^ 16).
    destruct (Z.eqb_spec k 16) as [->|]; [done|]. by rewrite Z.pow2_bits_false by lia.
  - by rewrite andb_false_r, andb_true_r.
Qed.

Lemma final_left : fl_left (final_flags d w) = left_adjusted d w.
Proof.
  unfold fl_left. rewrite has_left, final_testbit, <- has_left, spec_left by lia. apply andb_true_r.
Qed.
Lemma final_zero : fl_zero (final_flags d w) = flag d 48 && negb (left_adjusted d w).
Proof.
  unfold fl_zero. rewrite has_zero_pad, final_testbit, spec_testbit by lia. simpl. by rewrite orb_false_r.
Qed.
Lemma final_bit k b :
  0 <= k < 13 -> b = 2 ^ k -> has (final_flags d w) b = flag d (k + 32).
Proof.
  intros Hk ->. rewrite has_bit, final_testbit, spec_testbit by lia.
  rewrite (proj2 (Z.eqb_neq k 16)), (proj2 (Z.eqb_neq k 13)) by lia.
  simpl. by rewrite orb_false_r, andb_true_r.
Qed.
Lemma final_alt : has (final_flags d w) ALT_FORM = flag d 35.
Proof. by apply (final_bit 3). Qed.
Lemma final_mark : has (final_flags d w) MARK_POS = flag d 43.
Proof. by apply (final_bit 11). Qed.
Lemma final_pad : has (final_flags d w) PAD_POS = flag d 32.
Proof. by apply (final_bit 0). Qed.
End Flags.

Lemma without_left fl : fl_left (without fl ZERO_PAD) = fl_left fl.
Proof.
  unfold fl_left. rewrite !has_left, without_bit by lia. apply andb_true_r.
Qed.
Lemma without_zero fl : fl_zero (without fl ZERO_PAD) = false.
Proof. unfold fl_zero. rewrite has_zero_pad, without_bit by lia. apply andb_false_r. Qed.
Lemma lor_alt fl :
  fl_left (Z.lor fl ALT_FORM) = fl_left fl /\ fl_zero (Z.lor fl ALT_FORM) = fl_zero fl /\
  has (Z.lor fl ALT_FORM) ALT_FORM = true.
Proof.
  unfold fl_left, fl_zero. rewrite !has_left, !has_zero_pad, (has_bit _ 3), !Z.lor_spec by lia.
  by rewrite !orb_false_r, orb_true_r.
Qed.

(** ** Fields and their meaning *)

Lemma number_field_eq left zero w least prefix ds p fl t n :
  fl_left fl = left -> fl_zero fl = zero && negb left ->
  Z.max p (Z.of_nat (length ds)) = Z.max least (Z.of_nat (length ds)) -> 0 <= w ->
  let d := mkField t n prefix w p fl in
  field_text d ds = number_field left zero w least prefix ds /\
  field_width d ds = Z.of_nat (length (number_field left zero w least prefix ds)).
Proof.
  intros Hl Hz Hp Hw d. unfold field_text, field_width, field_prec, d, number_field, justify. simpl.
  rewrite Hl, Hz, Hp.
  replace (Z.to_nat (Z.max least (Z.of_nat (length ds)) - Z.of_nat (length ds)))
    with (Z.to_nat (least - Z.of_nat (length ds))) by lia.
  set (m := Z.of_nat (length ds)) in *. set (pl := Z.of_nat (length prefix)) in *.
  assert (Hlen : Z.of_nat (length (prefix ++ replicate (Z.to_nat (least - m)) 48 ++ ds)) = pl + Z.max least m).
  { rewrite !length_app, length_replicate. lia. }
  assert (Hfill : Z.to_nat (Z.max w (pl + Z.max least m) - (pl + Z.max least m)) =
    Z.to_nat (w - Z.of_nat (length (prefix ++ replicate (Z.to_nat (least - m)) 48 ++ ds)))) by lia.
  rewrite Hfill.
  destruct left, zero; simpl; rewrite ?app_nil_r, <- ?app_assoc;
    (split; [done|rewrite !length_app, !length_replicate; lia]).
Qed.

Lemma justify_eq left w l p fl t n :
  fl_left fl = left -> fl_zero fl = false -> p <= Z.of_nat (length l) -> 0 <= w ->
  let d := mkField t n [] w p fl in
  field_text d l = justify left w l /\ field_width d l = Z.of_nat (length (justify left w l)).
Proof.
  intros Hl Hz Hp Hw d.
  destruct (number_field_eq left false w 0 [] l p fl t n) as [E1 E2]; try done; [lia|].
  fold d in E1, E2. rewrite E1, E2. unfold number_field.
  replace (Z.to_nat (0 - Z.of_nat (length l))) with 0%nat by lia. by rewrite andb_false_r.
Qed.

(** ** The fields of the conversions *)

(** A field that shows the characters [a] as [txt]. *)
Record shows (dd : field) (a txt : list Z) : Prop := {
  sh_n : f_n dd = Z.of_nat (length a);
  sh_prefix : Forall is_byte (f_prefix dd);
  sh_text : field_text dd a = txt;
  sh_width : field_width dd a = Z.of_nat (length txt);
}.

Lemma int_tail_ok i ds prefix w pz xp fl left zero least s :
  (i = 0 -> ds = []) -> (xp = true -> 0 <= pz) -> 0 <= w ->
  fl_left fl = left -> fl_zero fl = zero && negb left -> Forall is_byte prefix ->
  Z.max least (Z.of_nat (length ds)) =
    (if (i =? 0) && (pz =? 0) then 0 else Z.max pz (Z.of_nat (length ds) + Z.b2z (i =? 0))) ->
  exists dd, int_tail i ds prefix w pz fl xp s = Ok (inr dd) s /\ f_a dd = Arr ds /\
    shows dd ds (number_field left (zero && negb xp) w least prefix ds).
Proof.
  intros Hds Hxp Hw Hl Hz Hpre Hleast. unfold int_tail.
  assert (Hneg : xp && (pz <? 0) = false).
  { destruct xp; [|done]. apply Z.ltb_ge. auto. }
  rewrite Hneg. set (fl' := if xp then without fl ZERO_PAD else fl).
  assert (Hl' : fl_left fl' = left) by (unfold fl'; destruct xp; by rewrite ?without_left).
  assert (Hz' : fl_zero fl' = (zero && negb xp) && negb left).
  { unfold fl'. destruct xp; [by rewrite without_zero, andb_false_r|by rewrite Hz, andb_true_r]. }
  destruct ((i =? 0) && (pz =? 0)) eqn:E.
  - apply andb_true_iff in E as [->%Z.eqb_eq Hpz%Z.eqb_eq]. rewrite Hds in * by done.
    destruct (number_field_eq left (zero && negb xp) w least prefix [] pz fl' (Arr []) 0 Hl' Hz') as [E1 E2];
      [simpl in *; lia|done|].
    eexists. split; [done|]. split; [done|]. by split.
  - destruct (number_field_eq left (zero && negb xp) w least prefix ds
      (Z.max pz (Z.of_nat (length ds) + Z.b2z (i =? 0))) fl' (Arr ds) (Z.of_nat (length ds)) Hl' Hz') as [E1 E2];
      [destruct (i =? 0); simpl in *; lia|done|].
    eexists. split; [done|]. split; [done|]. by split.
Qed.

Lemma digits_zero_map b n (ch : Z -> Z) : n = 0 -> map ch (digits b n) = [].
Proof. by intros ->. Qed.

Lemma digits_pos b n :
  2 <= b -> is_u64 n -> n <> 0 -> (0 < length (digits b n))%nat.
Proof.
  unfold is_u64. intros Hb Hn Hnz. rewrite digits_step, length_app by lia. simpl. lia.
Qed.

(** The least number of digits that precision [p] asks for. *)
Lemma prec_least b (ch : Z -> Z) n p pz xp :
  2 <= b -> is_u64 n -> prec_code p pz xp ->
  Z.max (default 1 p) (Z.of_nat (length (map ch (digits b n)))) =
  (if (n =? 0) && (pz =? 0) then 0
   else Z.max pz (Z.of_nat (length (map ch (digits b n))) + Z.b2z (n =? 0))).
Proof.
  intros Hb Hn Hp. rewrite length_map.
  assert (Hd : n = 0 /\ length (digits b n) = 0%nat \/ n <> 0 /\ (0 < length (digits b n))%nat).
  { destruct (decide (n = 0)) as [->|]; [by left|]. right. split; [done|by apply digits_pos]. }
  destruct p as [v|]; simpl in *; unfold INT_MAX in *;
    destruct (Z.eqb_spec n 0), (Z.eqb_spec pz 0); simpl; lia.
Qed.

Lemma xp_code p pz xp : prec_code p pz xp -> negb xp = bool_decide (p = None) /\ (xp = true -> 0 <= pz).
Proof. destruct p; simpl; intros H; [destruct H as (-> & -> & ?)|destruct H as [_ ->]]; (split; [done|lia || done]). Qed.

Lemma u64_id n : is_u64 n -> u64 n = n.
Proof. intros H. unfold u64. by apply Z.mod_small. Qed.

Section Ints.
Context (d : spec) (w : Z) (p : option Z) (pz : Z) (xp : bool) (s : state).
Context (Hd : wf_spec d) (Hp : prec_code p pz xp).
Let left := left_adjusted d w.
Let fl := final_flags d w.

Lemma hex_ok n lower :
  is_u64 n -> lower = false /\ s_conv d = conv_X \/ lower = true /\ s_conv d = conv_x ->
  let ch := if lower then digit_char else digit_CHAR in
  exists dd, conv_hex n (conv_char (s_conv d)) (Z.abs w) pz fl xp s = Ok (inr dd) s /\
    f_a dd = Arr (map ch (digits 16 n)) /\
    shows dd (map ch (digits 16 n)) (int_text d left (Z.abs w) p n).
Proof.
  intros Hn Hc ch. destruct (xp_code p pz xp Hp) as [Hx Hpz]. unfold conv_hex.
  assert (Hlow : Z.land (conv_char (s_conv d)) 32 = (if lower then 32 else 0) /\
    prefix_at (Z.to_nat (Z.shiftr (conv_char (s_conv d)) 4)) 2 = (if lower then [48; 120] else [48; 88]) /\
    forall n, int_text d left (Z.abs w) p n = number_field left (flag d 48 && bool_decide (p = None)) (Z.abs w)
      (default 1 p) (if flag d 35 && negb (n =? 0) then if lower then [48; 120] else [48; 88] else [])
      (map ch (digits 16 n))).
  { unfold int_text, ch. by destruct Hc as [[-> ->]|[-> ->]]. }
  destruct Hlow as (-> & -> & ->).
  erewrite bind_ok by (apply fmt_x_ok; [done|destruct lower; auto]). cbv beta zeta.
  replace (if (if lower then 32 else 0) =? 0 then digit_CHAR else digit_char) with ch by (by destruct lower).
  unfold fl at 1. rewrite final_alt, <- Hx by done. rewrite (andb_comm (negb (n =? 0))).
  apply int_tail_ok; [by apply digits_zero_map|done|lia|by apply final_left|by apply final_zero| |].
  - destruct (_ && _); [|done]. destruct lower; by repeat constructor.
  - by apply (prec_least _ _ _ _ _ xp).
Qed.

Lemma ptr_ok n :
  is_u64 n -> s_conv d = conv_p ->
  exists dd, conv_hex n 120 (Z.abs w) (if 8 <? u32 pz then pz else 8) (Z.lor fl ALT_FORM) xp s = Ok (inr dd) s /\
    f_a dd = Arr (map digit_char (digits 16 n)) /\
    shows dd (map digit_char (digits 16 n)) (int_text d left (Z.abs w) p n).
Proof.
  intros Hn Hc. destruct (xp_code p pz xp Hp) as [Hx Hpz]. unfold conv_hex, int_text. rewrite Hc.
  erewrite bind_ok by (apply fmt_x_ok; [done|auto]). cbv beta zeta.
  change (Z.land 120 32 =? 0) with false. cbv iota.
  destruct (lor_alt fl) as (E1 & E2 & E3). rewrite E3, andb_true_r, <- Hx.
  replace (if negb (n =? 0) then prefix_at (Z.to_nat (Z.shiftr 120 4)) 2 else [])
    with (if n =? 0 then [] else [48; 120]) by (by destruct (n =? 0)).
  assert (Hu : (if 8 <? u32 pz then pz else 8) = match p with Some v => Z.max v 8 | None => pz end).
  { destruct p as [v|]; simpl in Hp; unfold INT_MAX, u32 in *.
    - destruct Hp as (-> & _ & ?). rewrite Z.mod_small by lia. destruct (Z.ltb_spec 8 v); lia.
    - destruct Hp as [? _].
      replace (pz mod 4294967296) with (pz + 4294967296);
        [rewrite (proj2 (Z.ltb_lt _ _)) by lia; done|].
      rewrite <- (Z_mod_plus_full pz 1). symmetry. apply Z.mod_small. lia. }
  rewrite Hu.
  apply int_tail_ok; [by apply digits_zero_map| |lia| | | |].
  - intros E. specialize (Hpz E). destruct p; simpl in *; lia.
  - rewrite E1. by apply final_left.
  - rewrite E2. by apply final_zero.
  - destruct (n =? 0); by repeat constructor.
  - destruct p as [v|].
    + rewrite <- (prec_least 16 digit_char n (Some (Z.max v 8)) (Z.max v 8) true);
        [done|lia|done|]. simpl in *. unfold INT_MAX in *. lia.
    + by rewrite <- (prec_least 16 digit_char n None pz xp).
Qed.

Lemma oct_ok n :
  is_u64 n -> s_conv d = conv_o ->
  exists dd, conv_oct n (Z.abs w) pz fl xp s = Ok (inr dd) s /\
    f_a dd = Arr (map digit_char (digits 8 n)) /\
    shows dd (map digit_char (digits 8 n)) (int_text d left (Z.abs w) p n).
Proof.
  intros Hn Hc. destruct (xp_code p pz xp Hp) as [Hx Hpz]. unfold conv_oct, int_text. rewrite Hc.
  erewrite bind_ok by (by apply fmt_o_ok). cbv beta zeta. unfold fl at 1. rewrite final_alt, <- Hx by done.
  pose proof (prec_least 8 digit_char n p pz xp ltac:(lia) Hn Hp) as Hl.
  pose proof (digits_fit 8 n Hn ltac:(lia)) as Hfit.
  apply int_tail_ok; [by apply digits_zero_map| |lia|by apply final_left|by apply final_zero|constructor|].
  - intros E. specialize (Hpz E). clear Hl. case_match; lia.
  - rewrite length_map in *. set (m := Z.of_nat (length (digits 8 n))) in *.
    destruct (flag d 35); simpl andb; [|done].
    destruct p as [v|]; simpl in *; destruct (Z.ltb_spec pz (m + 1)), (Z.eqb_spec n 0);
      cbn [andb Z.b2z] in *; repeat case_match; lia.
Qed.

Lemma dec_ok n :
  - INTMAX_MAX - 1 <= n <= INTMAX_MAX -> s_conv d = conv_d \/ s_conv d = conv_i ->
  exists dd, conv_dec (u64 n) (Z.abs w) pz fl xp s = Ok (inr dd) s /\
    f_a dd = Arr (map digit_char (digits 10 (Z.abs n))) /\
    shows dd (map digit_char (digits 10 (Z.abs n))) (int_text d left (Z.abs w) p n).
Proof.
  intros Hn Hc. destruct (xp_code p pz xp Hp) as [Hx Hpz]. unfold conv_dec.
  set (prefix := if n <? 0 then [45] else if flag d 43 then [43] else if flag d 32 then [32] else []).
  assert (Ht : int_text d left (Z.abs w) p n = number_field left (flag d 48 && bool_decide (p = None)) (Z.abs w)
    (default 1 p) prefix (map digit_char (digits 10 (Z.abs n)))).
  { unfold int_text. by destruct Hc as [-> | ->]. }
  rewrite Ht, <- Hx. unfold fl at 1 2. rewrite final_mark, final_pad by done.
  unfold INTMAX_MAX in *.
  assert (Hi : (if 9223372036854775807 <? u64 n then (u64 (- u64 n), prefix_at 0 1)
    else if flag d 43 then (u64 n, prefix_at 1 1) else if flag d 32 then (u64 n, prefix_at 2 1) else (u64 n, []))
    = (Z.abs n, prefix)).
  { unfold prefix. destruct (Z.ltb_spec n 0).
    - assert (u64 n = n + 18446744073709551616) as ->.
      { unfold u64. rewrite <- (Z_mod_plus_full n 1). apply Z.mod_small. lia. }
      rewrite (proj2 (Z.ltb_lt _ _)) by lia. f_equal. unfold u64.
      replace (- (n + 18446744073709551616)) with (- n + (-1) * 18446744073709551616) by lia.
      rewrite Z_mod_plus_full, Z.mod_small by lia. lia.
    - rewrite u64_id by (unfold is_u64; lia). rewrite (proj2 (Z.ltb_ge _ _)), Z.abs_eq by lia.
      by repeat case_match. }
  rewrite Hi. assert (Hu : is_u64 (Z.abs n)) by (unfold is_u64; lia).
  erewrite bind_ok by (by apply fmt_u_ok). cbv beta.
  apply int_tail_ok; [by apply digits_zero_map|done|lia|by apply final_left|by apply final_zero| |].
  - unfold prefix. repeat case_match; by repeat constructor.
  - by apply (prec_least _ _ _ _ _ xp).
Qed.

Lemma unsigned_ok n :
  is_u64 n -> s_conv d = conv_u ->
  exists dd, conv_unsigned n (Z.abs w) pz fl xp s = Ok (inr dd) s /\
    f_a dd = Arr (map digit_char (digits 10 n)) /\
    shows dd (map digit_char (digits 10 n)) (int_text d left (Z.abs w) p n).
Proof.
  intros Hn Hc. destruct (xp_code p pz xp Hp) as [Hx Hpz]. unfold conv_unsigned, int_text. rewrite Hc.
  erewrite bind_ok by (by apply fmt_u_ok). cbv beta. rewrite <- Hx.
  rewrite (Z.abs_eq n) by apply Hn.
  apply int_tail_ok; [by apply digits_zero_map|done|lia|by apply final_left|by apply final_zero|constructor|].
  by apply (prec_least _ _ _ _ _ xp).
Qed.
End Ints.

(** ** Conversions *)

(** Evaluates comparisons of constants. *)
Ltac consts :=
  repeat match goal with
  | |- context [Z.eqb ?a ?b] =>
      let v := eval vm_compute in (Z.eqb a b) in
      match v with
      | true => change (Z.eqb a b) with true
      | false => change (Z.eqb a b) with false
      end
  end; cbn [orb andb negb]; cbv iota.

(** ** Runs of literal text *)

(** The literal text at the front, and the percent signs behind it. *)
Fixpoint lits (items : list item) : list Z * list item :=
  match items with
  | Lit l :: r => let '(t, r') := lits r in (l ++ t, r')
  | _ => ([], items)
  end.
Fixpoint pcts (items : list item) : nat * list item :=
  match items with
  | Percent :: r => let '(n, r') := pcts r in (S n, r')
  | _ => (0%nat, items)
  end.

Lemma lits_show items t r :
  lits items = (t, r) -> Forall wf_item items ->
  show items = t ++ show r /\ Forall (fun c => is_char c /\ c <> 37) t /\ Forall wf_item r /\
  (length r <= length items)%nat /\ match r with Lit _ :: _ => False | _ => True end.
Proof.
  revert t r. induction items as [|i items IH]; intros t r E HF; [by simplify_eq/=|].
  apply Forall_cons in HF as [Hi HF].
  destruct i as [l| |d]; simpl in E; simplify_eq; try (split_and!; auto; by constructor).
  destruct (lits items) as [t' r']. simplify_eq. destruct (IH _ _ eq_refl HF) as (E1 & E2 & E3 & E4 & E5).
  split_and!; try done; [|apply Forall_app; split; [apply Hi|done]|simpl; lia].
  rewrite <- app_assoc, <- E1. done.
Qed.

Lemma pcts_show items n r :
  pcts items = (n, r) -> Forall wf_item items ->
  show items = replicate (2 * n) 37 ++ show r /\ Forall wf_item r /\
  (length r + n = length items)%nat /\ match r with Percent :: _ => False | _ => True end.
Proof.
  revert n r. induction items as [|i items IH]; intros n r E HF; [by simplify_eq/=|].
  apply Forall_cons in HF as [Hi HF].
  destruct i as [l| |d]; simpl in E; simplify_eq; try (split_and!; auto; constructor; done).
  destruct (pcts items) as [n' r']. simplify_eq. destruct (IH _ _ eq_refl HF) as (E1 & E2 & E3 & E4).
  split_and!; try done; [|simpl; lia].
  replace (2 * S n')%nat with (S (S (2 * n'))) by lia. cbn [replicate app]. rewrite <- E1. done.
Qed.

Section Writes.
Context {F : Type} (str : Z -> list Z -> Prop).

Lemma writes_lits items t r ap txt rest :
  lits items = (t, r) -> writes (F := F) str items ap txt rest ->
  exists txt', txt = t ++ txt' /\ writes str r ap txt' rest.
Proof.
  intros E Hw. revert t r E. induction Hw; intros t0 r0 E; simpl in E; simplify_eq.
  - eexists. split; [done|constructor].
  - destruct (lits items) as [t' r']. simplify_eq. destruct (IHHw _ _ eq_refl) as (txt' & -> & H).
    exists txt'. by rewrite app_assoc.
  - eexists. split; [done|by constructor].
  - eexists. split; [done|by econstructor].
Qed.

Lemma writes_pcts items n r ap txt rest :
  pcts items = (n, r) -> writes (F := F) str items ap txt rest ->
  exists txt', txt = replicate n 37 ++ txt' /\ writes str r ap txt' rest.
Proof.
  intros E Hw. revert n r E. induction Hw; intros n0 r0 E; simpl in E; simplify_eq.
  - eexists. split; [done|constructor].
  - eexists. split; [done|by constructor].
  - destruct (pcts items) as [n' r']. simplify_eq. destruct (IHHw _ _ eq_refl) as (txt' & -> & H).
    by exists txt'.
  - eexists. split; [done|by econstructor].
Qed.
End Writes.

Lemma means_mono {F} (P Q : Z -> list Z -> Prop) d ap txt rest :
  (forall q l, P q l -> Q q l) -> means (F := F) P d ap txt rest -> means Q d ap txt rest.
Proof.
  intros HPQ Hm. destruct Hm; [by eapply means_int|by eapply means_char|].
  eapply means_string; try done. naive_solver.
Qed.

Lemma writes_mono {F} (P Q : Z -> list Z -> Prop) items ap txt rest :
  (forall q l, P q l -> Q q l) -> writes (F := F) P items ap txt rest -> writes Q items ap txt rest.
Proof. intros HPQ Hw. induction Hw; econstructor; eauto using means_mono. Qed.

Lemma text_run l : forall s p c rest,
  bytes_at (mem s) p (l ++ c :: rest) -> Forall (fun c => is_char c /\ c <> 37) l -> c = 0 \/ c = 37 ->
  lrun text_body (Z.of_nat (length l) + 1) p s (p + Z.of_nat (length l)) s.
Proof.
  induction l as [|x l IH]; intros s p c rest Hb HF Hc.
  - apply lrun_done; [|simpl; lia]. unfold text_body. erewrite bind_ok by (by eapply load_first).
    simpl. rewrite Z.add_0_r. by destruct Hc as [-> | ->].
  - apply Forall_cons in HF as [[Hx Hx'] HF]. eapply lrun_next.
    + unfold text_body. erewrite bind_ok by (by eapply load_first). unfold is_char in Hx.
      rewrite (proj2 (Z.eqb_neq x 0)), (proj2 (Z.eqb_neq x 37)) by lia. reflexivity.
    + simpl length. replace (p + Z.of_nat (S (length l))) with (p + 1 + Z.of_nat (length l)) by lia.
      eapply lrun_weaken; [eapply IH; try done; by eapply bytes_at_tail|lia].
Qed.

(** No pair of percent signs comes next. *)
Definition stops (bs : list Z) : Prop :=
  exists c tl, bs = c :: tl /\ (c = 37 -> exists d tl', tl = d :: tl' /\ d <> 37).

Lemma percents_run n : forall s z p bs,
  bytes_at (mem s) p (replicate (2 * n) 37 ++ bs) -> stops bs ->
  lrun percents_body (Z.of_nat n + 1) (z, p) s (z + Z.of_nat n, p + 2 * Z.of_nat n) s.
Proof.
  induction n as [|n IH]; intros s z p bs Hb Hs.
  - simpl in *. rewrite !Z.add_0_r. apply lrun_done; [|lia]. destruct Hs as (c & tl & -> & Hc).
    unfold percents_body. erewrite bind_ok by (by eapply load_first).
    destruct (Z.eqb_spec c 37) as [->|]; [|done]. destruct Hc as (d & tl' & -> & Hd); [done|].
    erewrite bind_ok by (by eapply load_second). by rewrite (proj2 (Z.eqb_neq _ _)) by done.
  - replace (2 * S n)%nat with (S (S (2 * n))) in Hb by lia. cbn [replicate app] in Hb. eapply lrun_next.
    + unfold percents_body. erewrite bind_ok by (by eapply load_first). consts.
      erewrite bind_ok by (by eapply load_second). consts. reflexivity.
    + replace (z + Z.of_nat (S n)) with (z + 1 + Z.of_nat n) by lia.
      replace (p + 2 * Z.of_nat (S n)) with (p + 2 + 2 * Z.of_nat n) by lia.
      eapply lrun_weaken; [eapply IH; try done|lia].
      apply bytes_at_tail, bytes_at_tail in Hb. by replace (p + 2) with (p + 1 + 1) by lia.
Qed.

Lemma show_stops items tl :
  Forall wf_item items -> match items with Percent :: _ => False | _ => True end ->
  stops (show items ++ 0 :: tl).
Proof.
  intros HF Hp. destruct items as [|[l| |d] items]; try done.
  - by eexists _, _.
  - apply Forall_cons in HF as [[Hne Hl] _]. destruct l as [|c l]; [done|].
    apply Forall_cons in Hl as [[_ Hc] _]. by eexists _, _.
  - apply Forall_cons in HF as [Hd _]. unfold show. simpl. rewrite <- app_assoc.
    destruct (show_spec_first d (concat (map show_item items) ++ 0 :: tl) Hd) as (c & t & E & (_ & _ & Hc) & _).
    rewrite E. eexists _, _. split; [done|]. intros _. by eexists _, _.
Qed.

Lemma show_next items tl :
  Forall wf_item items -> match items with Lit _ :: _ => False | _ => True end ->
  exists c rest, show items ++ 0 :: tl = c :: rest /\ (c = 0 \/ c = 37).
Proof.
  intros HF Hp. destruct items as [|[l| |d] items]; try done; eexists _, _; (split; [done|auto]).
Qed.

Section Core.
Context `{HM : SysMem} `{HD : Dos} `{!SysMemLaws HM} `{!DosLaws HD} {F : Type}.
Context (lc : option Locale) (wctomb : Z -> M (Z * list Z)) (strerror : Z -> M Z).
Context (fmt_fp : Out -> F -> Z -> Z -> Z -> Z -> M (Z * Out)).

(** Strings that the stream does not write to. *)
Definition strings (cap : Z) (s : state) (f : iob) (q : Z) (l : list Z) : Prop :=
  cstr (mem s) q l /\ aside cap f q (Z.of_nat (length l) + 1).

Lemma moved_cstr cap s f s' f' p l :
  moved cap s f s' f' -> aside cap f p (Z.of_nat (length l) + 1) -> cstr (mem s) p l -> cstr (mem s') p l.
Proof.
  intros Hm Ha Hs. eapply cstr_same; [done|]. intros a Hr. apply (mv_mem _ _ _ _ _ Hm). apply Ha. lia.
Qed.

Lemma strings_moved cap s f s' f' q l :
  moved cap s f s' f' -> strings cap s f q l -> strings cap s' f' q l.
Proof. intros Hm [H1 H2]. split; [by eapply moved_cstr|by eapply moved_aside]. Qed.

Lemma field_ok cap s o k dd a txt L (c : M (stop + field)) :
  Has cap s (o_file o) L -> c s = Ok (inr dd) s -> text_at cap s (o_file o) (f_a dd) a ->
  shows dd a txt -> 0 <= k_cnt (F := F) k -> Z.of_nat (length txt) <= INT_MAX - k_cnt k ->
  Z.of_nat (length (L ++ txt)) <= cap ->
  exists s' o', (let* r := c in
    match r with inl e => ret (o, inl e) | inr d => write_field o d (k_cnt k) end) s =
      Ok (o', inr (Z.of_nat (length txt))) s' /\ grown cap s o (L ++ txt) s' o'.
Proof.
  intros HL Hc Ha [Hn Hpre Ht Hw] Hcnt Hlen Hcap. erewrite bind_ok by exact Hc. cbv beta iota.
  rewrite <- Ht in Hcap |- *. rewrite <- Hw in Hlen. rewrite <- Ht in Hw. rewrite <- Hw.
  by apply write_field_ok.
Qed.

Lemma digit_char_byte d : 0 <= d < 16 -> is_byte (digit_char d) /\ is_byte (digit_CHAR d).
Proof. intros. unfold digit_char, digit_CHAR, is_byte. destruct (Z.ltb_spec d 10); lia. Qed.

Lemma digits_at cap s f b n (ch : Z -> Z) :
  2 <= b <= 16 -> is_u64 n -> ch = digit_char \/ ch = digit_CHAR ->
  text_at cap s f (Arr (map ch (digits b n))) (map ch (digits b n)).
Proof.
  intros Hb Hn Hch. apply arr_at, Forall_map. eapply Forall_impl; [apply digits_range; [lia|exact Hn]|].
  intros x Hx. simpl in *. destruct (digit_char_byte x ltac:(lia)). by destruct Hch as [-> | ->].
Qed.

Lemma int_value_range d v n :
  int_value (F := F) d v = Some n ->
  match s_conv d with
  | conv_d | conv_i => - INTMAX_MAX - 1 <= n <= INTMAX_MAX
  | _ => is_u64 n
  end.
Proof.
  unfold int_value, INTMAX_MAX, is_u64, s8, s16, s32, s64, u8, u16, u32, u64.
  destruct (s_size d), v, (s_conv d); intros H; simplify_eq;
    match goal with |- context [?x mod ?m] => pose proof (Z.mod_pos_bound x m ltac:(lia)) end; lia.
Qed.

Lemma convert_int cap s o k d w p pz xp v n L :
  wf_spec d -> prec_code p pz xp ->
  match s_conv d with conv_c | conv_s => False | _ => True end ->
  int_value (F := F) d v = Some n ->
  Has cap s (o_file o) L -> 0 <= k_cnt (F := F) k ->
  let txt := int_text d (left_adjusted d w) (Z.abs w) p n in
  Z.of_nat (length txt) <= INT_MAX - k_cnt k -> Z.of_nat (length (L ++ txt)) <= cap ->
  exists s' o', convert wctomb strerror fmt_fp k o (arg_i (u64 n)) (size_state (s_size d))
      (conv_char (s_conv d)) (Z.abs w) pz (final_flags d w) xp s =
      Ok (o', inr (Z.of_nat (length txt))) s' /\ grown cap s o (L ++ txt) s' o'.
Proof.
  intros Hd Hp Hc Hv HL Hcnt txt Hlen Hcap. pose proof (int_value_range d v n Hv) as Hr.
  assert (Hu : match s_conv d with conv_d | conv_i => True | _ => u64 n = n end).
  { destruct (s_conv d); try done; by apply u64_id. }
  unfold convert.
  assert (Hget : get_i (F := F) (arg_i (u64 n)) s = Ok (u64 n) s) by done.
  destruct (s_conv d) eqn:Ec; try done; simpl in Hr; cbn [conv_char]; consts;
    erewrite bind_ok by exact Hget; cbv beta.
  - destruct (dec_ok d w p pz xp s Hd Hp n Hr) as (dd & H1 & H2 & H3); [by left|].
    eapply field_ok; try done. rewrite H2. apply digits_at; auto; [lia|]. unfold is_u64, INTMAX_MAX in *. lia.
  - destruct (dec_ok d w p pz xp s Hd Hp n Hr) as (dd & H1 & H2 & H3); [by right|].
    eapply field_ok; try done. rewrite H2. apply digits_at; auto; [lia|]. unfold is_u64, INTMAX_MAX in *. lia.
  - rewrite Hu. destruct (unsigned_ok d w p pz xp s Hd Hp n Hr Ec) as (dd & H1 & H2 & H3).
    eapply field_ok; try done. rewrite H2. apply digits_at; auto. lia.
  - rewrite Hu. destruct (oct_ok d w p pz xp s Hd Hp n Hr Ec) as (dd & H1 & H2 & H3).
    eapply field_ok; try done. rewrite H2. apply digits_at; auto. lia.
  - rewrite Hu. destruct (hex_ok d w p pz xp s Hd Hp n true Hr) as (dd & H1 & H2 & H3); [by right|].
    rewrite Ec in H1. eapply field_ok; try done. rewrite H2. apply digits_at; auto. lia.
  - rewrite Hu. destruct (hex_ok d w p pz xp s Hd Hp n false Hr) as (dd & H1 & H2 & H3); [by left|].
    rewrite Ec in H1. eapply field_ok; try done. rewrite H2. apply digits_at; auto. lia.
  - rewrite Hu. destruct (ptr_ok d w p pz xp s Hd Hp n Hr Ec) as (dd & H1 & H2 & H3).
    eapply field_ok; try done. rewrite H2. apply digits_at; auto. lia.
Qed.

Lemma text_shows d w l t :
  wf_spec d ->
  shows (mkField t (Z.of_nat (length l)) [] (Z.abs w) (Z.of_nat (length l))
    (without (final_flags d w) ZERO_PAD)) l (justify (left_adjusted d w) (Z.abs w) l).
Proof.
  intros Hd. destruct (justify_eq (left_adjusted d w) (Z.abs w) l (Z.of_nat (length l))
    (without (final_flags d w) ZERO_PAD) t (Z.of_nat (length l))) as [E1 E2];
    [by rewrite without_left, final_left|apply without_zero|lia|lia|].
  by split; [|constructor|..].
Qed.

Lemma justify_length left w l : Z.of_nat (length l) <= Z.of_nat (length (justify left w l)).
Proof. unfold justify. destruct left; rewrite length_app; lia. Qed.

Lemma u8_u64_s8 c : u8 (u64 (s8 c)) = u8 c.
Proof.
  unfold u8, u64, s8. change 18446744073709551616 with (256 * 72057594037927936).
  rewrite Z.rem_mul_r by lia. rewrite Z.mul_comm, Z_mod_plus_full, Zmod_mod.
  rewrite Zminus_mod_idemp_l. f_equal. lia.
Qed.

Lemma convert_char cap s o k d w pz xp c L :
  wf_spec d -> s_conv d = conv_c -> Has cap s (o_file o) L -> 0 <= k_cnt (F := F) k ->
  let txt := justify (left_adjusted d w) (Z.abs w) [u8 c] in
  Z.of_nat (length txt) <= INT_MAX - k_cnt k -> Z.of_nat (length (L ++ txt)) <= cap ->
  exists s' o', convert wctomb strerror fmt_fp k o (arg_i (u64 (s8 c))) (size_state (s_size d))
      (conv_char (s_conv d)) (Z.abs w) pz (final_flags d w) xp s =
      Ok (o', inr (Z.of_nat (length txt))) s' /\ grown cap s o (L ++ txt) s' o'.
Proof.
  intros Hd Ec HL Hcnt txt Hlen Hcap. unfold convert. rewrite Ec. cbn [conv_char]. consts.
  assert (Hget : get_i (F := F) (arg_i (u64 (s8 c))) s = Ok (u64 (s8 c)) s) by done.
  erewrite bind_ok by exact Hget. cbv beta. rewrite u8_u64_s8.
  apply (field_ok cap s o k _ [u8 c] _ L _ HL eq_refl); [|by apply (text_shows d w [u8 c])|done..].
  apply arr_at. constructor; [apply u8_byte|constructor].
Qed.

(** A text that is the string [l]. *)
Definition string_at (cap : Z) (s : state) (f : iob) (t : text) (l : list Z) : Prop :=
  text_at cap s f t l /\ deref t (Z.of_nat (length l)) s = Ok 0 s /\
  forall n, 0 <= n <= INT_MAX -> text_strnlen t n s = Ok (Z.min n (Z.of_nat (length l))) s.

Lemma strings_at cap s f q l : strings cap s f q l -> string_at cap s f (Mem q) l.
Proof.
  intros [Hs Ha]. pose proof Hs as (Hb & Hc & Hsp). split_and!.
  - split; [eapply Forall_impl; [exact Hc|unfold is_char, is_byte; lia]|].
    split; [by apply bytes_at_app in Hb as [? _]|]. eapply aside_sub; [done|lia|lia].
  - apply load8_ok. apply (bytes_at_lookup _ _ _ _ _ Hb). by apply list_lookup_middle.
  - intros n Hn. apply strnlen_ok; [done|]. unfold INT_MAX, is_u32 in *. lia.
Qed.

Lemma null_at cap s f : string_at cap s f (Arr (zstr "(null)")) (bytes "(null)").
Proof.
  split_and!.
  - split; [|done]. repeat constructor; done.
  - done.
  - done.
Qed.

Lemma text_at_take cap s f t l n : text_at cap s f t l -> text_at cap s f t (take n l).
Proof.
  intros [HF Ht]. split; [by apply Forall_take|]. destruct t as [a|q].
  - rewrite length_take. rewrite <- Ht at 2. by rewrite take_take.
  - destruct Ht as [Hb Ha]. split; [by apply bytes_at_take|].
    eapply aside_sub; [done|lia|rewrite length_take; lia].
Qed.

Definition cut (p : option Z) (l : list Z) : list Z :=
  match p with Some p => take (Z.to_nat p) l | None => l end.

Lemma conv_string_ok cap s f t l d w p pz xp :
  wf_spec d -> prec_code p pz xp -> string_at cap s f t l -> Z.of_nat (length (cut p l)) <= INT_MAX ->
  exists dd, conv_string t (Z.abs w) pz (final_flags d w) s = Ok (inr dd) s /\ f_a dd = t /\
    shows dd (cut p l) (justify (left_adjusted d w) (Z.abs w) (cut p l)).
Proof.
  intros Hd Hp (Ht & Hz & Hn) Hlen. eexists. split; [|split; [|by apply text_shows]]; [|done].
  unfold conv_string. destruct p as [v|]; simpl in *.
  - destruct Hp as (-> & _ & Hv). rewrite (proj2 (Z.ltb_ge v 0)) by lia.
    erewrite bind_ok by (apply Hn; lia). cbv beta.
    replace (Z.min v (Z.of_nat (length l))) with (Z.of_nat (length (take (Z.to_nat v) l)))
      by (rewrite length_take; lia). done.
  - destruct Hp as [Hneg _]. rewrite (proj2 (Z.ltb_lt pz 0)) by lia.
    erewrite bind_ok by (apply Hn; unfold INT_MAX; lia). cbv beta.
    rewrite Z.min_r by lia. by erewrite bind_ok by (by erewrite bind_ok by exact Hz).
Qed.

Lemma convert_string cap s o k d w p pz xp q l L :
  wf_spec d -> s_conv d = conv_s -> prec_code p pz xp ->
  (q = NULL /\ l = bytes "(null)") \/ (q <> NULL /\ strings cap s (o_file o) q l) ->
  Has cap s (o_file o) L -> 0 <= k_cnt (F := F) k ->
  let txt := justify (left_adjusted d w) (Z.abs w) (cut p l) in
  Z.of_nat (length txt) <= INT_MAX - k_cnt k -> Z.of_nat (length (L ++ txt)) <= cap ->
  exists s' o', convert wctomb strerror fmt_fp k o (arg_p q) (size_state (s_size d))
      (conv_char (s_conv d)) (Z.abs w) pz (final_flags d w) xp s =
      Ok (o', inr (Z.of_nat (length txt))) s' /\ grown cap s o (L ++ txt) s' o'.
Proof.
  intros Hd Ec Hp Hq HL Hcnt txt Hlen Hcap. unfold convert. rewrite Ec. cbn [conv_char]. consts.
  assert (Hget : get_p (F := F) (arg_p q) s = Ok q s) by done.
  erewrite bind_ok by exact Hget. cbv beta.
  set (t := if q =? NULL then Arr (zstr "(null)") else Mem q).
  assert (Hst : string_at cap s (o_file o) t l).
  { unfold t. destruct Hq as [[-> ->]|[Hne Hs]]; [apply null_at|].
    rewrite (proj2 (Z.eqb_neq _ _)) by done. by apply strings_at. }
  pose proof (justify_length (left_adjusted d w) (Z.abs w) (cut p l)). fold txt in H.
  destruct (conv_string_ok cap s (o_file o) t l d w p pz xp Hd Hp Hst ltac:(lia)) as (dd & H1 & H2 & H3).
  eapply field_ok; try done. rewrite H2. destruct Hst as [Ht _].
  destruct p; [by apply text_at_take|done].
Qed.

(** ** A conversion *)

Context (Hdigit : forall c, is_byte c -> digit_r lc c = is_digit c).

Lemma convert_means cap s o k d txt rest L :
  k_out k = Some o -> wf_spec d -> k_l10n k = false -> Z.of_nat (length (show_spec d)) <= INT_MAX ->
  means (F := F) (strings cap s (o_file o)) d (k_ap k) txt rest ->
  Has cap s (o_file o) L -> 0 <= k_cnt k ->
  Z.of_nat (length txt) <= INT_MAX - k_cnt k -> Z.of_nat (length (L ++ txt)) <= cap ->
  forall tl, bytes_at (mem s) (k_s k) (37 :: show_spec d ++ tl) ->
  exists w a pz xp s' o',
    let k' := set_s (set_ap k rest) (k_s k + 1 + Z.of_nat (length (show_spec d))) in
    read_conversion lc k s = Ok (inr (k', a,
      (size_state (s_size d), conv_char (s_conv d), Z.abs w, pz, spec_flags d w, xp))) s /\
    convert wctomb strerror fmt_fp k' o a (size_state (s_size d)) (conv_char (s_conv d)) (Z.abs w) pz
      (final_flags d w) xp s = Ok (o', inr (Z.of_nat (length txt))) s' /\
    grown cap s o (L ++ txt) s' o'.
Proof.
  intros Ho Hd Hl Hlen Hm HL Hcnt Htxt Hcap tl Hb.
  pose proof (proj2 (proj2 (proj2 Hd))) as Hsz.
  destruct Hm as [w ap1 p v rest n Hw Hwr Hp Hc Hv|w ap1 p c rest Hw Hwr Hp Hc|w ap1 p q l rest Hw Hwr Hp Hc Hq].
  - destruct (scan_some lc Hdigit k s o d tl w ap1 p _ (arg_i (u64 n)) rest Ho Hl Hd Hlen Hb Hw Hwr Hp)
      as (pz & xp & Hcode & Hscan); [by apply pop_int|].
    destruct (convert_int cap s o (set_s (set_ap k rest) (k_s k + 1 + Z.of_nat (length (show_spec d))))
      d w p pz xp v n L Hd Hcode Hc Hv HL Hcnt Htxt Hcap) as (s' & o' & H1 & H2).
    by exists w, (arg_i (u64 n)), pz, xp, s', o'.
  - rewrite Hc in Hsz.
    destruct (scan_some lc Hdigit k s o d tl w ap1 p _ (arg_i (u64 (s8 c))) rest Ho Hl Hd Hlen Hb Hw Hwr Hp)
      as (pz & xp & Hcode & Hscan); [rewrite Hc, Hsz; apply pop_char|].
    destruct (convert_char cap s o (set_s (set_ap k rest) (k_s k + 1 + Z.of_nat (length (show_spec d))))
      d w pz xp c L Hd Hc HL Hcnt Htxt Hcap) as (s' & o' & H1 & H2).
    by exists w, (arg_i (u64 (s8 c))), pz, xp, s', o'.
  - rewrite Hc in Hsz.
    destruct (scan_some lc Hdigit k s o d tl w ap1 p _ (arg_p (u32 q)) rest Ho Hl Hd Hlen Hb Hw Hwr Hp)
      as (pz & xp & Hcode & Hscan); [rewrite Hc, Hsz; apply pop_string|].
    destruct (convert_string cap s o (set_s (set_ap k rest) (k_s k + 1 + Z.of_nat (length (show_spec d))))
      d w p pz xp (u32 q) l L Hd Hc Hcode Hq HL Hcnt Htxt Hcap) as (s' & o' & H1 & H2).
    by exists w, (arg_p (u32 q)), pz, xp, s', o'.
Qed.

(** The conversion character is never turned into that of wide characters. *)
Lemma conv_char_same z c :
  wf_size z c ->
  (if negb (size_state z =? 0) && (Z.land (conv_char c) 15 =? 3) then without (conv_char c) 32
   else conv_char c) = conv_char c.
Proof. by destruct z, c. Qed.

Lemma directive_ok cap s o k d txt rest L tl :
  k_out k = Some o -> wf_spec d -> k_l10n k = false -> Z.of_nat (length (show_spec d)) <= INT_MAX ->
  means (F := F) (strings cap s (o_file o)) d (k_ap k) txt rest ->
  Has cap s (o_file o) L -> 0 <= k_cnt k ->
  Z.of_nat (length txt) <= INT_MAX - k_cnt k -> Z.of_nat (length (L ++ txt)) <= cap ->
  bytes_at (mem s) (k_s k) (37 :: show_spec d ++ tl) ->
  exists s' o',
    directive lc wctomb strerror fmt_fp k s =
      Ok (inr tt, set_l (set_out (set_s (set_ap k rest) (k_s k + 1 + Z.of_nat (length (show_spec d)))) o')
           (Z.of_nat (length txt))) s' /\
    grown cap s o (L ++ txt) s' o'.
Proof.
  intros Ho Hd Hl Hlen Hm HL Hcnt Htxt Hcap Hb.
  destruct (convert_means cap s o k d txt rest L Ho Hd Hl Hlen Hm HL Hcnt Htxt Hcap tl Hb)
    as (w & a & pz & xp & s' & o' & Hscan & Hconv & Hg).
  exists s', o'. split; [|done]. unfold directive. erewrite bind_ok by exact Hscan. cbv beta iota.
  cbn [k_out set_s set_ap]. rewrite Ho. cbv zeta.
  rewrite conv_char_same by apply Hd. fold (final_flags d w).
  erewrite bind_ok by exact Hconv. done.
Qed.

(** ** Rounds of the loop *)

(** The text that a round of the loop takes from the front of a format. *)
Lemma text_front s p items l r1 n r2 :
  bytes_at (mem s) p (show items ++ [0]) -> Forall wf_item items ->
  Z.of_nat (length (show items)) <= INT_MAX ->
  lits items = (l, r1) -> pcts r1 = (n, r2) ->
  let t := l ++ replicate n 37 in
  let q := p + Z.of_nat (length l) + 2 * Z.of_nat n in
  loop text_body p s = Ok (p + Z.of_nat (length l)) s /\
  loop percents_body (p + Z.of_nat (length l), p + Z.of_nat (length l)) s =
    Ok (p + Z.of_nat (length t), q) s /\
  bytes_at (mem s) p t /\ bytes_at (mem s) q (show r2 ++ [0]) /\ Forall is_byte t /\
  (length t + length (show r2) <= length (show items))%nat /\ Forall wf_item r2.
Proof.
  intros Hb HF Hlen El En t q. unfold INT_MAX in Hlen.
  destruct (lits_show items l r1 El HF) as (E1 & Hl & HF1 & _ & Hr1).
  destruct (pcts_show r1 n r2 En HF1) as (E2 & HF2 & _ & Hr2).
  rewrite E1 in Hb, Hlen |- *. rewrite <- app_assoc in Hb. pose proof Hb as Hb1.
  destruct (show_next r1 [] HF1 Hr1) as (c & rest & Ec & Hc). rewrite Ec in Hb1.
  apply bytes_at_app in Hb as [Hbl Hb]. rewrite E2, <- app_assoc in Hb. rewrite E2 in Hlen |- *.
  rewrite !length_app, length_replicate in Hlen |- *.
  assert (Ht : Z.of_nat (length t) = Z.of_nat (length l) + Z.of_nat n)
    by (unfold t; rewrite length_app, length_replicate; lia).
  split_and!; try done; try lia.
  - eapply loop_lrun; [eapply text_run; done|lia].
  - rewrite Ht, Z.add_assoc. eapply loop_lrun; [eapply percents_run; [exact Hb|by apply show_stops]|lia].
  - apply bytes_at_app. split; [done|]. apply bytes_at_app in Hb as [Hb _].
    replace (2 * n)%nat with (n + n)%nat in Hb by lia. rewrite replicate_add in Hb.
    by apply bytes_at_app in Hb as [Hb _].
  - apply bytes_at_app in Hb as [_ Hb]. rewrite length_replicate in Hb. unfold q.
    by replace (p + Z.of_nat (length l) + 2 * Z.of_nat n)
      with (p + Z.of_nat (length l) + Z.of_nat (2 * n)) by lia.
  - apply Forall_app. split; [eapply Forall_impl; [exact Hl|unfold is_char, is_byte; lia]|].
    by apply Forall_replicate.
Qed.

(** A format that starts with text, or with a conversion. *)
Definition starts_text (items : list item) : Prop :=
  match items with Lit _ :: _ | Percent :: _ => True | _ => False end.

Lemma starts_text_front items l r1 n r2 :
  Forall wf_item items -> lits items = (l, r1) -> pcts r1 = (n, r2) -> starts_text items ->
  l ++ replicate n 37 <> [] /\ (length r2 < length items)%nat.
Proof.
  intros HF El En Hs. destruct items as [|[x| |d] items]; simpl in *; try done.
  - apply Forall_cons in HF as [[Hx _] HF]. destruct (lits items) as [t r] eqn:E. simplify_eq.
    destruct (lits_show _ _ _ E HF) as (_ & _ & HF1 & ? & _).
    destruct (pcts_show _ _ _ En HF1) as (_ & _ & ? & _). split; [by destruct x|lia].
  - simplify_eq. simpl in En. destruct (pcts items) as [n' r] eqn:E. simplify_eq.
    apply Forall_cons in HF as [_ HF].
    destruct (pcts_show _ _ _ E HF) as (_ & _ & ? & _). split; [done|lia].
Qed.

Lemma show_first items : starts_text items -> Forall wf_item items ->
  exists c tl, show items ++ [0] = c :: tl /\ c <> 0.
Proof.
  intros Hs HF. destruct items as [|[x| |d] items]; try done.
  - apply Forall_cons in HF as [[Hx Hc] HF]. destruct x as [|c x]; [done|].
    apply Forall_cons in Hc as [[Hc _] _]. eexists _, _. split; [done|]. unfold is_char in Hc. lia.
  - by eexists _, _.
Qed.

(** A round that writes text. *)
Lemma text_round cap s o k items l r1 n r2 L :
  k_out (F := F) k = Some o -> starts_text items -> Forall wf_item items ->
  lits items = (l, r1) -> pcts r1 = (n, r2) ->
  bytes_at (mem s) (k_s k) (show items ++ [0]) ->
  aside cap (o_file o) (k_s k) (Z.of_nat (length (show items)) + 1) ->
  Z.of_nat (length (show items)) <= INT_MAX ->
  let t := l ++ replicate n 37 in
  0 <= k_cnt k + k_l k -> 0 <= k_cnt k -> k_cnt k + k_l k + Z.of_nat (length t) <= INT_MAX ->
  Has cap s (o_file o) L -> Z.of_nat (length (L ++ t)) <= cap ->
  exists s' o',
    core_body lc wctomb strerror fmt_fp k s =
      Ok (inl (set_out (set_s (set_l (set_cnt k (k_cnt k + k_l k)) (Z.of_nat (length t)))
        (k_s k + Z.of_nat (length l) + 2 * Z.of_nat n)) o')) s' /\
    grown cap s o (L ++ t) s' o'.
Proof.
  intros Ho Hst HF El En Hb Has Hlen t H0 H0' Hmax HL Hcap.
  destruct (text_front s (k_s k) items l r1 n r2 Hb HF Hlen El En) as (H1 & H2 & Hbt & _ & Hbytes & Hle & _).
  destruct (starts_text_front items l r1 n r2 HF El En Hst) as [Hne _].
  fold t in Hbt, Hbytes, Hne, H2, Hle.
  destruct (out_ok cap s o (Mem (k_s k)) t L HL) as (s' & o' & Hout & Hg); [|done|lia|].
  { split; [done|]. split; [done|]. eapply aside_sub; [done|lia|lia]. }
  exists s', o'. split; [|done]. unfold core_body.
  rewrite (proj2 (Z.ltb_ge _ _)) by lia. cbv zeta. cbn [k_s set_cnt k_cnt].
  destruct (show_first items Hst HF) as (c & tl & Ec & Hc). rewrite Ec in Hb.
  erewrite bind_ok by (by eapply load_first). rewrite (proj2 (Z.eqb_neq _ _)) by done.
  erewrite bind_ok by exact H1. cbv beta.
  erewrite bind_ok by exact H2. cbv beta iota. cbn [k_s set_cnt k_cnt k_out set_l set_s].
  replace (k_s k + Z.of_nat (length t) - k_s k) with (Z.of_nat (length t)) by lia.
  rewrite (proj2 (Z.ltb_ge _ _)) by lia. rewrite Ho.
  erewrite bind_ok by (by erewrite bind_ok by exact Hout). cbv beta.
  rewrite (proj2 (Z.eqb_neq _ _)); [done|]. destruct t; [done|simpl; lia].
Qed.

(** One that writes a conversion. *)
Lemma conv_round cap s o k d items txt rest L :
  k_out k = Some o -> Forall wf_item (Conv d :: items) -> k_l10n k = false ->
  bytes_at (mem s) (k_s k) (show (Conv d :: items) ++ [0]) ->
  Z.of_nat (length (show (Conv d :: items))) <= INT_MAX ->
  means (F := F) (strings cap s (o_file o)) d (k_ap k) txt rest ->
  0 <= k_cnt k + k_l k -> 0 <= k_cnt k -> k_cnt k + k_l k + Z.of_nat (length txt) <= INT_MAX ->
  Has cap s (o_file o) L -> Z.of_nat (length (L ++ txt)) <= cap ->
  exists s' o' k',
    core_body lc wctomb strerror fmt_fp k s = Ok (inl k') s' /\
    k_out k' = Some o' /\ k_l10n k' = false /\ k_ap k' = rest /\
    k_s k' = k_s k + 1 + Z.of_nat (length (show_spec d)) /\
    k_cnt k' = k_cnt k + k_l k /\ k_l k' = Z.of_nat (length txt) /\
    grown cap s o (L ++ txt) s' o'.
Proof.
  intros Ho HF Hl Hb Hlen Hm H0 H0' Hmax HL Hcap.
  destruct (text_front s (k_s k) (Conv d :: items) [] _ 0 _ Hb HF Hlen eq_refl eq_refl)
    as (H1 & H2 & _ & Hb2 & _ & _ & _).
  simpl in H1, H2, Hb2. rewrite !Z.add_0_r in *.
  assert (Hspec : Z.of_nat (length (show_spec d)) <= INT_MAX).
  { unfold show in Hlen. simpl in Hlen. rewrite length_app in Hlen. lia. }
  pose (k1 := set_out (set_s (set_l (set_cnt k (k_cnt k + k_l k)) 0) (k_s k)) o).
  assert (Hb' : bytes_at (mem s) (k_s k) (37 :: show_spec d ++ concat (map show_item items) ++ [0])).
  { unfold show in Hb. simpl in Hb. by rewrite <- app_assoc in Hb. }
  apply Forall_cons in HF as [Hd _].
  destruct (directive_ok cap s o k1 d txt rest L (concat (map show_item items) ++ [0]) eq_refl Hd Hl Hspec Hm HL)
    as (s' & o' & Hdir & Hg); try done; try (simpl; lia).
  exists s', o', (set_l (set_out (set_s (set_ap k1 rest) (k_s k1 + 1 + Z.of_nat (length (show_spec d)))) o')
    (Z.of_nat (length txt))). split; [|by split_and!].
  unfold core_body. rewrite (proj2 (Z.ltb_ge _ _)) by lia. cbv zeta. cbn [k_s set_cnt k_cnt].
  erewrite bind_ok by (by eapply load_first). consts.
  erewrite bind_ok by exact H1. cbv beta.
  erewrite bind_ok by exact H2. cbv beta iota. cbn [k_s set_cnt k_cnt k_out set_l set_s].
  rewrite Z.sub_diag, (proj2 (Z.ltb_ge _ _)) by lia. rewrite Ho.
  erewrite bind_ok by (by erewrite bind_ok by done). cbv beta. consts.
  erewrite bind_ok by exact Hdir. cbv beta iota. reflexivity.
Qed.

(** *** The whole format *)

Lemma show_length items : Forall wf_item items -> (length items <= length (show items))%nat.
Proof.
  induction items as [|i items IH]; intros HF; [simpl; lia|]. apply Forall_cons in HF as [Hi HF].
  specialize (IH HF). unfold show in *. simpl. rewrite length_app.
  destruct i as [l| |d]; simpl in *; try lia. destruct l; [by destruct Hi|simpl; lia].
Qed.

(** The format of [items] at [p], beside the stream. *)
Record format_at (cap : Z) (s : state) (f : iob) (p : Z) (items : list item) : Prop := {
  fm_wf : Forall wf_item items;
  fm_len : Z.of_nat (length (show items)) <= INT_MAX;
  fm_at : bytes_at (mem s) p (show items ++ [0]);
  fm_aside : aside cap f p (Z.of_nat (length (show items)) + 1);
}.

Lemma format_moved cap s f s' f' p items :
  moved cap s f s' f' -> format_at cap s f p items -> format_at cap s' f' p items.
Proof.
  intros Hm [A B C D]. split; [done|done| |by eapply moved_aside].
  eapply moved_bytes; [done| |done]. rewrite length_app. simpl length.
  by replace (Z.of_nat (length (show items) + 1)) with (Z.of_nat (length (show items)) + 1) by lia.
Qed.

Lemma format_rest cap s f p items pre r q :
  format_at cap s f p items -> show items = pre ++ show r -> Forall wf_item r ->
  q = p + Z.of_nat (length pre) -> format_at cap s f q r.
Proof.
  intros [A B C D] E HF ->. rewrite E in B, C, D. rewrite length_app in B, D. rewrite <- app_assoc in C.
  apply bytes_at_app in C as [_ C]. split; [done|lia|done|]. eapply aside_sub; [done|lia|lia].
Qed.

Lemma core_end s k :
  bytes_at (mem s) (k_s k) [0] -> k_cnt (F := F) k + k_l k <= INT_MAX ->
  core_body lc wctomb strerror fmt_fp k s = Ok (inr (inr tt, set_cnt k (k_cnt k + k_l k))) s.
Proof.
  intros Hb Hmax. unfold core_body. rewrite (proj2 (Z.ltb_ge _ _)) by lia. cbv zeta. cbn [k_s set_cnt].
  by erewrite bind_ok by (by eapply load_first).
Qed.

Lemma fronts_show items l r1 n r2 :
  lits items = (l, r1) -> pcts r1 = (n, r2) -> Forall wf_item items ->
  show items = (l ++ replicate (2 * n) 37) ++ show r2 /\ Forall wf_item r2.
Proof.
  intros El En HF. destruct (lits_show items l r1 El HF) as (E1 & _ & HF1 & _).
  destruct (pcts_show r1 n r2 En HF1) as (E2 & HF2 & _). split; [|done].
  by rewrite <- app_assoc, <- E2.
Qed.

(** A round that writes [t] and leaves the format [items'] to be written. *)
Lemma write_round cap s o k items txt rest L :
  k_out (F := F) k = Some o -> k_l10n k = false -> format_at cap s (o_file o) (k_s k) items -> items <> [] ->
  writes (strings cap s (o_file o)) items (k_ap k) txt rest ->
  0 <= k_cnt k -> 0 <= k_l k -> k_cnt k + k_l k + Z.of_nat (length txt) <= INT_MAX ->
  Has cap s (o_file o) L -> Z.of_nat (length (L ++ txt)) <= cap ->
  exists s' o' k' t txt' items', core_body lc wctomb strerror fmt_fp k s = Ok (inl k') s' /\
    txt = t ++ txt' /\ (length items' < length items)%nat /\
    k_out k' = Some o' /\ k_l10n k' = false /\
    k_cnt k' = k_cnt k + k_l k /\ k_l k' = Z.of_nat (length t) /\ grown cap s o (L ++ t) s' o' /\
    format_at cap s' (o_file o') (k_s k') items' /\
    writes (strings cap s' (o_file o')) items' (k_ap k') txt' rest.
Proof.
  intros Ho Hl Hf Hne Hw H0 H0' Hmax HL Hcap. pose proof Hf as [HF Hlen Hb Has].
  assert (Hfin : forall s' o' t items' q txt' ap', grown cap s o (L ++ t) s' o' ->
    format_at cap s (o_file o) q items' -> writes (strings cap s (o_file o)) items' ap' txt' rest ->
    format_at cap s' (o_file o') q items' /\ writes (strings cap s' (o_file o')) items' ap' txt' rest).
  { intros s' o' t items' q txt' ap' [_ Hm] H1 H2. split; [by eapply format_moved|].
    eapply writes_mono; [|exact H2]. intros q' z. by apply strings_moved. }
  assert (Hcase : (exists d items', items = Conv d :: items') \/ starts_text items).
  { destruct items as [|[| |d] items']; try done; [by right|by right|]. left. by eexists _, _. }
  destruct Hcase as [(d & items' & ->)|Hst].
  - inversion Hw as [| | |d0 its ap t ap1 txt' rest' Hmean Hw']; subst. rewrite !length_app in *.
    destruct (conv_round cap s o k d items' t ap1 L Ho HF Hl Hb Hlen Hmean)
      as (s1 & o1 & k1 & Hr & Ho1 & Hl1 & <- & Hs1 & Hc1 & Hl1' & Hg); try done; try lia.
    { rewrite length_app. lia. }
    destruct (Hfin s1 o1 t items' (k_s k1) txt' (k_ap k1) Hg) as [Hf1 Hw1]; [|done|].
    { eapply (format_rest _ _ _ _ _ (37 :: show_spec d)); [done|done| |simpl; lia].
      by apply Forall_cons in HF as [_ ?]. }
    exists s1, o1, k1, t, txt', items'. split_and!; try done. simpl. lia.
  - destruct (lits items) as [l r1] eqn:El, (pcts r1) as [n r2] eqn:En.
    destruct (writes_lits _ _ _ _ _ _ _ El Hw) as (txt1 & -> & Hw1).
    destruct (writes_pcts _ _ _ _ _ _ _ En Hw1) as (txt2 & -> & Hw2).
    destruct (fronts_show _ _ _ _ _ El En HF) as [Eshow HF2].
    rewrite !length_app, length_replicate in *.
    destruct (text_round cap s o k items l r1 n r2 L Ho Hst HF El En Hb Has Hlen)
      as (s1 & o1 & Hr & Hg); try done; try (rewrite ?length_app, ?length_replicate; lia).
    destruct (starts_text_front items l r1 n r2 HF El En Hst) as [_ Hlt].
    destruct (Hfin s1 o1 (l ++ replicate n 37) r2 (k_s k + Z.of_nat (length l) + 2 * Z.of_nat n) txt2 (k_ap k) Hg)
      as [Hf1 Hw3]; [|done|].
    { eapply format_rest; [exact Hf|exact Eshow|done|]. rewrite length_app, length_replicate. lia. }
    eexists s1, o1, _, (l ++ replicate n 37), txt2, r2. split; [exact Hr|].
    rewrite <- app_assoc. by split_and!.
Qed.

Lemma write_loop cap m : forall items s o k txt rest L,
  (length items <= m)%nat ->
  k_out (F := F) k = Some o -> k_l10n k = false -> format_at cap s (o_file o) (k_s k) items ->
  writes (strings cap s (o_file o)) items (k_ap k) txt rest ->
  0 <= k_cnt k -> 0 <= k_l k -> k_cnt k + k_l k + Z.of_nat (length txt) <= INT_MAX ->
  Has cap s (o_file o) L -> Z.of_nat (length (L ++ txt)) <= cap ->
  exists s' o' k', lrun (core_body lc wctomb strerror fmt_fp) (Z.of_nat (length items) + 1) k s (inr tt, k') s' /\
    k_out k' = Some o' /\ k_cnt k' = k_cnt k + k_l k + Z.of_nat (length txt) /\ grown cap s o (L ++ txt) s' o'.
Proof.
  induction m as [|m IH]; intros items s o k txt rest L Hm Ho Hl Hf Hw H0 H0' Hmax HL Hcap.
  all: destruct (decide (items = [])) as [->|Hne].
  1, 3: inversion Hw; subst; exists s, o, (set_cnt k (k_cnt k + k_l k)); rewrite app_nil_r, Z.add_0_r;
    (split; [|split_and!; try done; by apply grown_refl]);
    apply lrun_done; [|simpl; lia]; apply core_end; [apply Hf|simpl in Hmax; lia].
  { destruct items; [done|simpl in Hm; lia]. }
  destruct (write_round cap s o k items txt rest L Ho Hl Hf Hne Hw H0 H0' Hmax HL Hcap) as
    (s1 & o1 & k1 & t & txt' & items' & Hr & -> & Hlt & Ho1 & Hl1 & Hc1 & Hk1 & Hg & Hf1 & Hw1).
  rewrite !length_app in *.
  destruct (IH items' s1 o1 k1 txt' rest (L ++ t)) as (s' & o' & k' & Hrun & Ho' & Hc' & Hg'); try done; try lia.
  { apply Hg. } { rewrite !length_app. lia. }
  exists s', o', k'. rewrite app_assoc. split_and!; try done; [|lia|by eapply grown_trans].
  eapply lrun_next; [exact Hr|]. eapply lrun_weaken; [exact Hrun|lia].
Qed.

Lemma format_fuel cap s f p items :
  format_at cap s f p items -> Z.of_nat (length items) + 1 <= 1099511627776.
Proof. intros [A B _ _]. pose proof (show_length items A). unfold INT_MAX in B. lia. Qed.

(** The second pass of [vfprintf]: it writes the text and counts it. *)
Lemma printf_core_writes cap s o p items ap txt rest args types L :
  format_at cap s (o_file o) p items -> writes (F := F) (strings cap s (o_file o)) items ap txt rest ->
  Z.of_nat (length txt) <= INT_MAX -> Has cap s (o_file o) L -> Z.of_nat (length (L ++ txt)) <= cap ->
  exists s' o' k', printf_core lc wctomb strerror fmt_fp (Some o) p ap args types s =
      Ok (Z.of_nat (length txt), k') s' /\
    k_out k' = Some o' /\ grown cap s o (L ++ txt) s' o'.
Proof.
  intros Hf Hw Hmax HL Hcap.
  destruct (write_loop cap (length items) items s o (mkCore p 0 0 false ap (Some o) args types) txt rest L)
    as (s' & o' & k' & Hr & Ho' & Hc' & Hg); try done.
  exists s', o', k'. split; [|done]. unfold printf_core.
  erewrite bind_ok by (eapply loop_lrun; [exact Hr|by eapply format_fuel]). cbv beta iota.
  rewrite Ho', Hc'. done.
Qed.

(** The first pass: a format without numbered arguments is found to be in
    order, and nothing is taken from the arguments. *)
Definition same_args (k k' : @core F) : Prop :=
  k_out k' = k_out k /\ k_l10n k' = k_l10n k /\ k_ap k' = k_ap k /\ k_args k' = k_args k /\
  k_types k' = k_types k.

Lemma check_round s k items l r1 n r2 :
  k_out k = None -> Forall wf_item items -> lits items = (l, r1) -> pcts r1 = (n, r2) ->
  starts_text items -> bytes_at (mem s) (k_s k) (show items ++ [0]) ->
  0 <= k_cnt k -> 0 <= k_l k -> k_cnt k + k_l k + Z.of_nat (length (show items)) <= INT_MAX ->
  core_body lc wctomb strerror fmt_fp k s =
    Ok (inl (set_s (set_l (set_cnt k (k_cnt k + k_l k)) (Z.of_nat (length (l ++ replicate n 37))))
      (k_s k + Z.of_nat (length l) + 2 * Z.of_nat n))) s.
Proof.
  intros Ho HF El En Hst Hb H0 H0' Hmax.
  destruct (text_front s (k_s k) items l r1 n r2 Hb HF ltac:(lia) El En) as (H1 & H2 & _ & _ & _ & Hle & _).
  destruct (starts_text_front items l r1 n r2 HF El En Hst) as [Hne _].
  unfold core_body. rewrite (proj2 (Z.ltb_ge _ _)) by lia. cbv zeta. cbn [k_s set_cnt k_cnt].
  destruct (show_first items Hst HF) as (c & tl & Ec & Hc). rewrite Ec in Hb.
  erewrite bind_ok by (by eapply load_first). rewrite (proj2 (Z.eqb_neq _ _)) by done.
  erewrite bind_ok by exact H1. cbv beta.
  erewrite bind_ok by exact H2. cbv beta iota. cbn [k_s set_cnt k_cnt k_out set_l set_s].
  set (t := l ++ replicate n 37) in *.
  replace (k_s k + Z.of_nat (length t) - k_s k) with (Z.of_nat (length t)) by lia.
  rewrite (proj2 (Z.ltb_ge _ _)) by lia. rewrite Ho.
  erewrite bind_ok by done. cbv beta.
  rewrite (proj2 (Z.eqb_neq _ _)); [done|]. destruct t; [done|simpl; lia].
Qed.

Lemma check_conv s k d items :
  k_out k = None -> k_l10n k = false -> Forall wf_item (Conv d :: items) ->
  bytes_at (mem s) (k_s k) (show (Conv d :: items) ++ [0]) ->
  0 <= k_cnt k -> 0 <= k_l k -> k_cnt k + k_l k + Z.of_nat (length (show (Conv d :: items))) <= INT_MAX ->
  exists k', core_body lc wctomb strerror fmt_fp k s = Ok (inr (inl (return_ 0), k')) s /\ same_args k k'.
Proof.
  intros Ho Hl HF Hb H0 H0' Hmax.
  destruct (text_front s (k_s k) (Conv d :: items) [] _ 0 _ Hb HF ltac:(lia) eq_refl eq_refl)
    as (H1 & H2 & _). simpl in H1, H2. rewrite !Z.add_0_r in *.
  unfold show in Hb, Hmax. simpl in Hb, Hmax. rewrite length_app in Hmax. rewrite <- app_assoc in Hb.
  apply Forall_cons in HF as [Hd _].
  pose (k1 := set_s (set_l (set_cnt k (k_cnt k + k_l k)) 0) (k_s k)).
  exists k1. split; [|done]. unfold core_body. rewrite (proj2 (Z.ltb_ge _ _)) by lia.
  cbv zeta. cbn [k_s set_cnt k_cnt].
  erewrite bind_ok by (by eapply load_first). consts.
  erewrite bind_ok by exact H1. cbv beta.
  erewrite bind_ok by exact H2. cbv beta iota. cbn [k_s set_cnt k_cnt k_out set_l set_s].
  rewrite Z.sub_diag, (proj2 (Z.ltb_ge _ _)) by lia. rewrite Ho.
  erewrite bind_ok by done. cbv beta. consts. fold k1.
  assert (Hdir : directive lc wctomb strerror fmt_fp k1 s = Ok (inl (return_ 0), k1) s).
  { unfold directive. by erewrite bind_ok by (eapply (scan_none lc Hdigit k1 s d); try done; lia). }
  erewrite bind_ok by exact Hdir. done.
Qed.

Lemma check_loop m : forall items s k,
  (length items <= m)%nat -> k_out k = None -> k_l10n k = false -> Forall wf_item items ->
  bytes_at (mem s) (k_s k) (show items ++ [0]) ->
  0 <= k_cnt k -> 0 <= k_l k -> k_cnt k + k_l k + Z.of_nat (length (show items)) <= INT_MAX ->
  exists r k', lrun (core_body lc wctomb strerror fmt_fp) (Z.of_nat (length items) + 1) k s (r, k') s /\
    (r = inl (return_ 0) \/ r = inr tt) /\ same_args k k'.
Proof.
  induction m as [|m IH]; intros items s k Hm Ho Hl HF Hb H0 H0' Hmax.
  all: destruct (decide (items = [])) as [->|Hne].
  1, 3: exists (inr tt), (set_cnt k (k_cnt k + k_l k)); (split; [|split; [by right|done]]);
    apply lrun_done; [|simpl; lia]; apply core_end; [done|simpl in Hmax; lia].
  { destruct items; [done|simpl in Hm; lia]. }
  assert (Hcase : (exists d items', items = Conv d :: items') \/ starts_text items).
  { destruct items as [|[| |d] items']; try done; [by right|by right|]. left. by eexists _, _. }
  destruct Hcase as [(d & items' & ->)|Hst].
  { destruct (check_conv s k d items' Ho Hl HF Hb H0 H0' Hmax) as (k' & Hr & Hs).
    exists (inl (return_ 0)), k'. split; [|split; [by left|done]]. apply lrun_done; [exact Hr|lia]. }
  destruct (lits items) as [l r1] eqn:El, (pcts r1) as [n r2] eqn:En.
  pose proof (check_round s k items l r1 n r2 Ho HF El En Hst Hb H0 H0' Hmax) as Hr.
  destruct (text_front s (k_s k) items l r1 n r2 Hb HF ltac:(lia) El En) as (_ & _ & _ & Hb2 & _ & Hle & HF2).
  destruct (starts_text_front items l r1 n r2 HF El En Hst) as [_ Hlt].
  destruct (IH r2 s (set_s (set_l (set_cnt k (k_cnt k + k_l k)) (Z.of_nat (length (l ++ replicate n 37))))
      (k_s k + Z.of_nat (length l) + 2 * Z.of_nat n)) ltac:(lia) Ho Hl HF2 Hb2)
    as (r & k' & Hrun & Hres & Hs).
  1-3: cbn [k_cnt k_l set_s set_l set_cnt]; lia.
  exists r, k'. split; [|done]. eapply lrun_next; [exact Hr|]. eapply lrun_weaken; [exact Hrun|lia].
Qed.

Lemma printf_core_checks cap f s p items ap args types :
  format_at cap s f p items ->
  exists k', printf_core lc wctomb strerror fmt_fp None p ap args types s = Ok (0, k') s /\
    k_ap k' = ap /\ k_args k' = args /\ k_types k' = types.
Proof.
  intros Hf. pose proof Hf as [HF Hlen Hb _].
  destruct (check_loop (length items) items s (mkCore p 0 0 false ap None args types))
    as (r & k' & Hr & Hres & Ho & Hl & Hap & Hargs & Hty); try done.
  exists k'. split; [|done]. unfold printf_core.
  erewrite bind_ok by (eapply loop_lrun; [exact Hr|by eapply format_fuel]). cbv beta iota.
  destruct Hres as [-> | ->]; [done|]. rewrite Ho. simpl in Hl |- *. by rewrite Hl.
Qed.

(** ** [vfprintf] *)

(** What [vfprintf] puts behind the text. *)
Definition nul (f : iob) : list Z := if FLAG_IS_CLEAR (iob_Flags f) IOBF_NO_NUL then [0] else [].

Lemma moved_flags cap s f s' f' : moved cap s f s' f' -> iob_Flags f' = iob_Flags f.
Proof. by intros [_ _ _ _ (w & p & ->)]. Qed.

Lemma vfprintf_ok cap s f p items ap txt rest sent held :
  Stream cap s f sent held -> calm (mode f) held ->
  format_at cap s f p items -> writes (F := F) (strings cap s f) items ap txt rest ->
  Z.of_nat (length txt) <= INT_MAX ->
  Z.of_nat (length (sent ++ held ++ txt ++ nul f)) <= cap ->
  exists s' f', vfprintf lc wctomb strerror fmt_fp f p ap s = Ok (Z.of_nat (length txt), f') s' /\
    Stream cap s' f' (sent ++ held ++ txt ++ nul f) [] /\ moved cap s f s' f'.
Proof.
  intros Hst Hcm Hf Hw Hmax Hcap. unfold vfprintf. cbv zeta.
  destruct (printf_core_checks cap f s p items ap (replicate NL_ARGMAX (arg_i 0)) (replicate NL_ARGMAX 0) Hf)
    as (k & Hk & Hap & Hargs & Hty).
  erewrite bind_ok by exact Hk. cbv beta iota. change (0 <? 0) with false. cbv iota.
  rewrite Hap, Hargs, Hty.
  set (o := mkOut f (iob_BufferPosition f)).
  destruct (printf_core_writes cap s o p items ap txt rest (replicate NL_ARGMAX (arg_i 0))
    (replicate NL_ARGMAX 0) (sent ++ held) Hf Hw Hmax) as (s1 & o1 & k1 & Hk1 & Ho1 & [HL1 Hm1]).
  { by exists sent, held. } { rewrite !length_app in *. lia. }
  erewrite bind_ok by exact Hk1. cbv beta iota. rewrite Ho1.
  destruct HL1 as (sent1 & held1 & HL1 & Hst1 & Hcm1).
  assert (Hnul : exists s2 f2, (if negb (Z.of_nat (length txt) =? EOF) &&
      FLAG_IS_CLEAR (iob_Flags (o_file o1)) IOBF_NO_NUL
    then let* (_, f) := putc_mode 0 (o_file o1) (Z.land (iob_Flags (o_file o1)) IOBF_BUFFER_MODE) in ret f
    else ret (o_file o1)) s1 = Ok f2 s2 /\ moved cap s1 (o_file o1) s2 f2 /\
    exists sent2 held2, sent1 ++ held1 ++ nul f = sent2 ++ held2 /\ Stream cap s2 f2 sent2 held2).
  { unfold nul. rewrite (moved_flags _ _ _ _ _ Hm1).
    rewrite (proj2 (Z.eqb_neq _ EOF)) by (unfold EOF; lia). cbn [negb andb o_file o].
    unfold nul in Hcap. destruct (FLAG_IS_CLEAR (iob_Flags f) IOBF_NO_NUL).
    - destruct (putc_mode_ok cap (mode f) s1 (o_file o1) sent1 held1 0 Hst1) as
        (s2 & f2 & sent2 & held2 & Hr & HL2 & Hst2 & Hm2 & _); [done| | |].
      + apply calm_lazy. by rewrite (moved_mode _ _ _ _ _ Hm1) in Hcm1.
      + rewrite <- HL1. rewrite !length_app in *. simpl in Hcap. lia.
      + exists s2, f2. erewrite bind_ok by exact Hr. split; [done|]. split; [done|].
        exists sent2, held2. by rewrite <- HL2, <- app_assoc.
    - exists s1, (o_file o1). split; [done|]. split; [apply moved_refl|]. exists sent1, held1.
      by rewrite app_nil_r. }
  destruct Hnul as (s2 & f2 & Hr2 & Hm2 & sent2 & held2 & HL2 & Hst2).
  assert (HL : sent2 ++ held2 = sent ++ held ++ txt ++ nul f).
  { rewrite <- HL2, app_assoc, <- HL1. by rewrite <- !app_assoc. }
  erewrite bind_ok by exact Hr2. cbv beta.
  destruct (fflush_file_ok cap (mode f) s2 f2 sent2 held2 Hst2) as (s3 & f3 & Hr3 & Hst3 & Hm3 & _).
  { by rewrite HL. }
  exists s3, f3. erewrite bind_ok by exact Hr3. rewrite <- HL. split_and!; try done.
  eapply moved_trans; [exact Hm1|]. by eapply moved_trans.
Qed.
End Core.
