(* ===== verification/Formatted.v ===== *)
(** * The [printf] functions

    [fprintf] on files, [sprintf] and [snprintf] on memory: what they write
    and return, and that numbers written by them are read back by [strtol]
    and its relatives. *)

From Stdlib Require Import String.
From S2P Require Import Prelude CMem Cells CType Words StrScan StrCopy StrTo Stdio Streams Output Printf.
From S2P Require Import PrintfSpec PrintfWrite PrintfParse PrintfCore.
Import Spec.

(** ** The memory of a call *)

(** The [k] bytes at [q] are apart from the local buffer at [buf] and from
    the [n] bytes at [dst]. *)
Definition apart (buf dst n q k : Z) : Prop := disj q k buf 32 /\ disj q k dst n.

(** A string passed to the call. *)
Definition given (s : state) (buf dst n q : Z) (l : list Z) : Prop :=
  cstr (mem s) q l /\ apart buf dst n q (Z.of_nat (length l) + 1).

Record call_ok (s : state) (buf dst n p : Z) (items : list item) : Prop := {
  co_items : Forall wf_item items;
  co_len : Z.of_nat (length (show items)) <= INT_MAX;
  co_format : given s buf dst n p (show items);
  co_buf : 0 < buf /\ mapped (mem s) buf 32;
  co_dst : 0 <= n /\ (0 < n -> 0 < dst) /\ mapped (mem s) dst n;
  co_apart : disj buf 32 dst n;
}.

(** Memory outside the two areas stays as it is. *)
Definition beyond (buf dst n : Z) (s s' : state) : Prop :=
  (forall a, ~ (buf <= a < buf + 32) -> ~ (dst <= a < dst + n) -> mem s' !! a = mem s !! a) /\
  files s' = files s.

Lemma beyond_trans buf dst n s1 s2 s3 :
  beyond buf dst n s1 s2 -> beyond buf dst n s2 s3 -> beyond buf dst n s1 s3.
Proof. intros [A1 A2] [B1 B2]. split; [|congruence]. intros a H1 H2. rewrite B1 by done. by apply A1. Qed.

Lemma beyond_given buf dst n s s' q l :
  beyond buf dst n s s' -> given s buf dst n q l -> given s' buf dst n q l.
Proof.
  intros [Hm _] [Hs Ha]. split; [|done]. eapply cstr_same; [done|]. destruct Ha as [H1 H2]. unfold disj in *.
  intros a Hr. apply Hm; lia.
Qed.

Lemma beyond_wrote buf dst n s d l :
  (forall a, d <= a < d + Z.of_nat (length l) -> buf <= a < buf + 32 \/ dst <= a < dst + n) ->
  beyond buf dst n s (wrote s d l).
Proof.
  intros H. split; [|done]. intros a H1 H2. apply write_bytes_outside. intros Hr. destruct (H a Hr); tauto.
Qed.

(** The stream of [sprintf] or [snprintf]. *)
Definition on_string (f : iob) (buf dst : Z) : Prop :=
  iob_Buffer f = buf /\ iob_BufferSize f = 32 /\ iob_String f = dst /\ iob_Action f <> iob_hook_entry.

Section Formatted.
Context `{HM : SysMem} `{HD : Dos} `{!SysMemLaws HM} `{!DosLaws HD} {F : Type}.
Context (lc : option Locale) (wctomb : Z -> M (Z * list Z)) (strerror : Z -> M Z).
Context (fmt_fp : Out -> F -> Z -> Z -> Z -> Z -> M (Z * Out)).
Context (Hdigit : forall c, is_byte c -> digit_r lc c = is_digit c).

Lemma moved_beyond cap s f s' f' buf dst n :
  moved cap s f s' f' -> on_string f buf dst -> out_len cap f <= n -> beyond buf dst n s s'.
Proof.
  intros Hm (<- & Hs & <- & Ha) Hn. split.
  - intros a H1 H2. apply (mv_mem _ _ _ _ _ Hm). unfold foot. rewrite Hs. lia.
  - apply map_eq. intros i. apply (mv_files _ _ _ _ _ Hm). unfold target. by destruct (iob_Action f).
Qed.

Lemma apart_aside cap f buf dst n q k :
  on_string f buf dst -> out_len cap f <= n -> apart buf dst n q k -> aside cap f q k.
Proof.
  intros (<- & Hs & <- & _) Hn [H1 H2] a Ha. unfold foot, disj in *. rewrite Hs. lia.
Qed.

(** [vfprintf] on such a stream. *)
Lemma string_vfprintf cap s f buf dst n p items ap txt rest :
  on_string f buf dst -> out_len cap f <= n -> Stream cap s f [] [] ->
  Forall wf_item items -> Z.of_nat (length (show items)) <= INT_MAX -> given s buf dst n p (show items) ->
  writes (F := F) (given s buf dst n) items ap txt rest -> Z.of_nat (length txt) <= INT_MAX ->
  Z.of_nat (length (txt ++ nul f)) <= cap ->
  exists s' f', vfprintf lc wctomb strerror fmt_fp f p ap s = Ok (Z.of_nat (length txt), f') s' /\
    Stream cap s' f' (txt ++ nul f) [] /\ moved cap s f s' f'.
Proof.
  intros Hf Hn Hst HF Hlen [Hp Hap] Hw Hmax Hcap.
  apply (vfprintf_ok lc wctomb strerror fmt_fp Hdigit cap s f p items ap txt rest [] []); try done.
  - apply calm_nil.
  - split; [done|done|apply Hp|by eapply apart_aside].
  - eapply writes_mono; [|exact Hw]. intros q l [H1 H2]. split; [done|by eapply apart_aside].
Qed.

(** The locals of the call are cleared. *)
Lemma clear_local buf dst n s p items :
  call_ok s buf dst n p items ->
  exists s', loop fill_body (buf, 32) s = Ok tt s' /\ beyond buf dst n s s' /\ call_ok s' buf dst n p items /\
    errno s' = errno s.
Proof.
  intros [A B C [D1 D2] (E1 & E2 & E3) G]. exists (wrote s buf (replicate 32 0)).
  assert (Hb : beyond buf dst n s (wrote s buf (replicate 32 0))).
  { apply beyond_wrote. simpl. lia. }
  split; [|split; [done|split; [|done]]].
  - change 32 with (Z.of_nat 32) at 1. eapply loop_lrun; [by apply fill_loop|lia].
  - split; try done; [by eapply beyond_given| |]; split_and!; try done; by apply mapped_write.
Qed.

(** *** [fprintf] *)

(** C11: [fprintf] (and [vfprintf]) on the stream of a file, for every format
    made of text, [%%] and integer, character and string conversions with
    any flags, widths and precisions, also from arguments, and for matching
    arguments: the characters that the format means, and nothing else, reach
    the file behind what was in its buffer; their number is returned, the
    buffer is left empty, and no other file, no other memory and no [errno]
    changes. *)
Theorem fprintf_correct cap s f p items ap txt rest sent held :
  Stream cap s f sent held -> direct f -> calm (mode f) held ->
  FLAG_IS_CLEAR (iob_Flags f) IOBF_NO_NUL = false ->
  format_at cap s f p items -> 0 < p ->
  writes (F := F) (strings cap s f) items ap txt rest -> Z.of_nat (length txt) <= INT_MAX ->
  Z.of_nat (length (sent ++ held ++ txt)) <= cap ->
  exists s' f', fprintf lc wctomb strerror fmt_fp (Some f) p ap s = Ok (Z.of_nat (length txt), Some f') s' /\
    contents s' f' = Some (sent ++ held ++ txt) /\
    Stream cap s' f' (sent ++ held ++ txt) [] /\ moved cap s f s' f'.
Proof.
  intros Hst Hdir Hcm Hnul Hf Hp Hw Hmax Hcap.
  destruct (vfprintf_ok lc wctomb strerror fmt_fp Hdigit cap s f p items ap txt rest sent held)
    as (s' & f' & Hr & Hst' & Hm); try done; unfold nul in *; rewrite Hnul, app_nil_r in *; [done|].
  exists s', f'. split; [|split; [|done]].
  - unfold fprintf. rewrite (proj2 (Z.eqb_neq p NULL)) by (unfold NULL; lia).
    by erewrite bind_ok by exact Hr.
  - eapply direct_contents; [done|]. by eapply moved_direct.
Qed.

(** *** [sprintf] *)

Definition sprintf_iob (buf dst : Z) : iob :=
  string_iob vsprintf_hook_entry buf
    (Z.lor IOBF_IN_USE (Z.lor IOBF_WRITE (Z.lor IOBF_BUFFER_MODE_NONE IOBF_INTERNAL))) dst 0.

Lemma sprintf_stream s buf dst n p items :
  call_ok s buf dst n p items -> 0 < n -> Stream n s (sprintf_iob buf dst) [] [].
Proof.
  intros [_ _ _ [B1 B2] (C1 & C2 & C3) G] Hn. split; try done; simpl; try lia.
  split_and!; try done; first [by apply C2|simpl; lia].
Qed.

(** The NUL that [vsprintf] adds. *)
Lemma last_nul cap s f sent :
  Stream cap s f sent [] -> Z.of_nat (length sent) + 1 <= cap ->
  exists s1 f1 s2 f2, putc_mode 0 f IOBF_BUFFER_MODE_NONE s = Ok (0, f1) s1 /\
    flush_r f1 s1 = Ok (0, f2) s2 /\ Stream cap s2 f2 (sent ++ [0]) [] /\ moved cap s f s2 f2.
Proof.
  intros Hst Hcap. pose proof (st_count _ _ _ _ _ Hst) as Hc. pose proof (st_size _ _ _ _ _ Hst) as [_ Hs].
  simpl in Hc. destruct (push_ok cap s f sent [] 0 Hst) as (s1 & f1 & Hp & Hst1 & Hm1 & _); [done|lia|].
  destruct (flush_r_ok cap IOBF_BUFFER_MODE_NONE s1 f1 sent [] 0 Hst1) as
    (s2 & f2 & sent2 & held2 & Hr & HL & Hst2 & Hm2 & Hcm); [done|by rewrite app_nil_r|].
  destruct Hcm as [Hcm _]. rewrite (Hcm eq_refl) in *. rewrite !app_nil_r in HL. subst sent2.
  exists s1, f1, s2, f2. split_and!; try done; [|by eapply moved_trans].
  unfold putc_mode. rewrite (proj2 (Z.ltb_lt _ _)) by lia. by erewrite bind_ok by exact Hp.
Qed.

Lemma sprintf_ok buf dst p items ap txt rest s :
  let n := Z.of_nat (length txt) + 2 in
  call_ok s buf dst n p items -> writes (F := F) (given s buf dst n) items ap txt rest ->
  Z.of_nat (length txt) <= INT_MAX ->
  exists s', sprintf lc wctomb strerror fmt_fp buf dst p ap s = Ok (Z.of_nat (length txt)) s' /\
    bytes_at (mem s') dst (txt ++ [0; 0]) /\ beyond buf dst n s s' /\ errno s' = errno s.
Proof.
  intros n Hok Hw Hmax. assert (0 < n) as Hn by (unfold n; lia).
  destruct (clear_local _ _ _ _ _ _ Hok) as (s1 & Hfill & Hb1 & Hok1 & He1).
  set (f := sprintf_iob buf dst). assert (Hon : on_string f buf dst) by done.
  pose proof (sprintf_stream _ _ _ _ _ _ Hok1 Hn) as Hst1. pose proof Hok1 as [A B C D (E1 & E2 & E3) G].
  assert (Hpos : 0 < p) by apply C. specialize (E2 Hn).
  destruct (string_vfprintf n s1 f buf dst n p items ap txt rest Hon) as (s2 & f2 & Hr2 & Hst2 & Hm2); try done.
  { eapply writes_mono; [|exact Hw]. intros q l. by apply beyond_given. }
  { rewrite length_app. unfold n. simpl. lia. }
  change (nul f) with [0] in Hst2.
  destruct (last_nul n s2 f2 (txt ++ [0]) Hst2) as (s3 & f3 & s4 & f4 & Hr3 & Hr4 & Hst4 & Hm4).
  { rewrite length_app. unfold n. simpl. lia. }
  rewrite <- app_assoc in Hst4. simpl in Hst4. assert (Hm : moved n s1 f s4 f4) by (by eapply moved_trans).
  exists s4. split_and!.
  - unfold sprintf. rewrite (proj2 (Z.eqb_neq dst NULL)), (proj2 (Z.eqb_neq p NULL)) by (unfold NULL; lia).
    cbn [orb]. cbv iota. unfold vsprintf. erewrite bind_ok by exact Hfill. cbv beta.
    rewrite (proj2 (Z.eqb_neq dst NULL)), (proj2 (Z.eqb_neq p NULL)) by (unfold NULL; lia).
    cbn [orb]. cbv zeta. fold (sprintf_iob buf dst). fold f.
    erewrite bind_ok by exact Hr2. cbv beta iota. erewrite bind_ok by exact Hr3. cbv beta iota zeta.
    by erewrite bind_ok by exact Hr4.
  - pose proof (st_sent _ _ _ _ _ Hst4) as Hsink. unfold sink in Hsink.
    destruct (mv_iob _ _ _ _ _ Hm) as (w & q & ->). simpl in Hsink. apply Hsink.
  - eapply beyond_trans; [exact Hb1|]. by eapply moved_beyond.
  - by rewrite (mv_errno _ _ _ _ _ Hm), He1.
Qed.

(** C10: [sprintf] (and [vsprintf]), for such formats and arguments: the
    characters the format means, and then two NULs, are written to [s] and
    nothing else but the local buffer; the number of characters is returned.
    The second NUL lies outside an array of the documented size. *)
Theorem sprintf_correct buf dst p items ap txt rest s :
  let n := Z.of_nat (length txt) + 2 in
  call_ok s buf dst n p items -> writes (F := F) (given s buf dst n) items ap txt rest ->
  Z.of_nat (length txt) <= INT_MAX ->
  exists s', sprintf lc wctomb strerror fmt_fp buf dst p ap s = Ok (Z.of_nat (length txt)) s' /\
    bytes_at (mem s') dst (txt ++ [0; 0]) /\ beyond buf dst n s s' /\ errno s' = errno s.
Proof. apply sprintf_ok. Qed.

(** *** [snprintf] *)

Definition snprintf_iob (buf dst size : Z) : iob :=
  string_iob vsnprintf_hook_entry buf
    (Z.lor IOBF_IN_USE (Z.lor IOBF_WRITE (Z.lor IOBF_NO_NUL
      (Z.lor IOBF_BUFFER_MODE_NONE IOBF_INTERNAL))))
    dst (if 0 <? size then size - 1 else 0).

Lemma snprintf_stream cap s buf dst size p items :
  call_ok s buf dst size p items -> bytes_at (mem s) dst (replicate (Z.to_nat size) 0) ->
  Stream cap s (snprintf_iob buf dst size) [] [].
Proof.
  intros [_ _ _ [B1 B2] (C1 & C2 & C3) G] Hz. split; try done; simpl; try lia.
  - unfold disj, out_len in *. simpl. destruct (Z.ltb_spec 0 size); lia.
  - unfold sink. simpl. unfold padded. rewrite take_nil, Nat.sub_0_r. simpl.
    destruct (Z.ltb_spec 0 size).
    + split_and!; try lia; [|].
      * eapply mapped_sub; [done|lia|lia].
      * replace (Z.to_nat size) with (Z.to_nat (size - 1) + 1)%nat in Hz by lia.
        rewrite replicate_add in Hz. by apply bytes_at_app in Hz as [Hz _].
    + split_and!; try lia; [intros a Ha; lia|done].
Qed.

(** The array is cleared first; for a null one of no size that is an error
    of [memset] only. *)
Lemma clear_array s buf dst size p items :
  has_utility = true -> call_ok s buf dst size p items -> 0 < dst \/ (dst = NULL /\ size = 0) ->
  exists s' r, memset dst 0 size s = Ok r s' /\ beyond buf dst size s s' /\ call_ok s' buf dst size p items /\
    bytes_at (mem s') dst (replicate (Z.to_nat size) 0) /\
    errno s' = (if dst =? NULL then EFAULT else errno s).
Proof.
  intros Hu [A B C [D1 D2] (E1 & E2 & E3) G] Hd. destruct Hd as [Hd|[-> ->]].
  - exists (wrote s dst (replicate (Z.to_nat size) 0)), dst.
    rewrite <- (Z2Nat.id size) at 1 by done.
    rewrite memset_ok by (rewrite ?Z2Nat.id by done; done). change (u8 0) with 0.
    assert (Hb : beyond buf dst size s (wrote s dst (replicate (Z.to_nat size) 0))).
    { apply beyond_wrote. rewrite length_replicate. lia. }
    rewrite (proj2 (Z.eqb_neq dst NULL)) by (unfold NULL; lia).
    split_and!; try done; [|apply write_bytes_at].
    split; try done; [by eapply beyond_given| |]; split_and!; try done; by apply mapped_write.
  - exists (put_errno s EFAULT), NULL. unfold memset. rewrite Hu. by split_and!.
Qed.

Lemma snprintf_ok buf dst size p items ap txt rest s :
  has_utility = true -> call_ok s buf dst size p items -> 0 < dst \/ (dst = NULL /\ size = 0) ->
  writes (F := F) (given s buf dst size) items ap txt rest -> Z.of_nat (length txt) <= INT_MAX ->
  exists s', snprintf lc wctomb strerror fmt_fp buf dst size p ap s = Ok (Z.of_nat (length txt)) s' /\
    (0 < size -> bytes_at (mem s') dst (padded (Z.to_nat (size - 1)) txt ++ [0])) /\
    beyond buf dst size s s' /\ errno s' = (if dst =? NULL then EFAULT else errno s).
Proof.
  intros Hu Hok Hd Hw Hmax. set (n := Z.of_nat (length txt)).
  destruct (clear_local _ _ _ _ _ _ Hok) as (s1 & Hfill & Hb1 & Hok1 & He1).
  destruct (clear_array _ _ _ _ _ _ Hu Hok1 Hd) as (s2 & r & Hset & Hb2 & Hok2 & Hz & He2).
  set (f := snprintf_iob buf dst size). assert (Hon : on_string f buf dst) by done.
  pose proof (snprintf_stream n _ _ _ _ _ _ Hok2 Hz) as Hst2.
  pose proof Hok2 as [A B C D (E1 & E2 & E3) G].
  assert (Hpos : 0 < p) by apply C.
  assert (Hb12 : beyond buf dst size s s2) by (by eapply beyond_trans).
  assert (Hlen : out_len n f <= size).
  { unfold out_len. simpl. destruct (Z.ltb_spec 0 size); lia. }
  destruct (string_vfprintf n s2 f buf dst size p items ap txt rest Hon) as (s3 & f3 & Hr3 & Hst3 & Hm3); try done.
  { eapply writes_mono; [|exact Hw]. intros q l. by apply beyond_given. }
  { change (nul f) with (@nil Z). by rewrite app_nil_r. }
  change (nul f) with (@nil Z) in Hst3. rewrite app_nil_r in Hst3.
  destruct (fflush_file_ok n 0 s3 f3 txt [] Hst3) as (s4 & f4 & Hr4 & Hst4 & Hm4 & _); [by rewrite app_nil_r|].
  rewrite app_nil_r in Hst4. assert (Hm : moved n s2 f s4 f4) by (by eapply moved_trans).
  assert (Hguard : (0 <? size) && (dst =? NULL) || (p =? NULL) = false).
  { rewrite (proj2 (Z.eqb_neq p NULL)) by (unfold NULL; lia). unfold NULL. lia. }
  exists s4. split_and!.
  - unfold snprintf. rewrite Hguard. unfold vsnprintf. erewrite bind_ok by exact Hfill. cbv beta.
    rewrite andb_comm, orb_comm, Hguard. erewrite bind_ok by exact Hset. cbv beta zeta.
    fold (snprintf_iob buf dst size). fold f.
    erewrite bind_ok by exact Hr3. cbv beta iota. by erewrite bind_ok by exact Hr4.
  - intros Hs. apply bytes_at_app. rewrite padded_length. split.
    + pose proof (st_sent _ _ _ _ _ Hst4) as Hsink. unfold sink in Hsink.
      destruct (mv_iob _ _ _ _ _ Hm) as (w & q & ->). simpl in Hsink.
      rewrite (proj2 (Z.ltb_lt 0 size)) in Hsink by done. apply Hsink.
    + split; [|done]. rewrite (mv_mem _ _ _ _ _ Hm).
      * apply (bytes_at_lookup _ _ _ _ _ Hz). apply lookup_replicate_2. lia.
      * unfold foot, out_len. simpl. unfold disj in G. rewrite (proj2 (Z.ltb_lt 0 size)) by done. lia.
  - eapply beyond_trans; [exact Hb12|]. by eapply moved_beyond.
  - by rewrite (mv_errno _ _ _ _ _ Hm), He2, He1.
Qed.

(** C12: [snprintf] (and [vsnprintf]), for such formats and arguments: of an
    array of [size] bytes, all and no more are written, with as many of the
    characters as leave room for a NUL, and zeros behind them; the number of
    characters the whole text has is returned, also for [size] 0, where a
    null array is allowed (but leaves [EFAULT] in [errno]). *)
Theorem snprintf_correct buf dst size p items ap txt rest s :
  has_utility = true -> call_ok s buf dst size p items -> 0 < dst \/ (dst = NULL /\ size = 0) ->
  writes (F := F) (given s buf dst size) items ap txt rest -> Z.of_nat (length txt) <= INT_MAX ->
  exists s', snprintf lc wctomb strerror fmt_fp buf dst size p ap s = Ok (Z.of_nat (length txt)) s' /\
    (0 < size -> bytes_at (mem s') dst (padded (Z.to_nat (size - 1)) txt ++ [0])) /\
    beyond buf dst size s s' /\ errno s' = (if dst =? NULL then EFAULT else errno s).
Proof. apply snprintf_ok. Qed.

(** *** Reading numbers back *)

(** A conversion of a [long] or [intmax_t], without flags, width or
    precision. *)
Definition plain (z : size) (c : conv) : spec := mkSpec [] Absent None z c.
Definition is_signed (c : conv) : bool := match c with conv_d | conv_i => true | _ => false end.
Definition base_of (c : conv) : Z := match c with conv_o => 8 | conv_x | conv_X => 16 | _ => 10 end.
(** The function that reads it. *)
Definition reader (z : size) (c : conv) : strto_fun :=
  match z with
  | size_j => if is_signed c then Strtoimax else Strtoumax
  | _ => if is_signed c then Strtol else Strtoul
  end.
Definition passed (z : size) (n : Z) : value F := match z with size_j => Long n | _ => Word n end.

Lemma plain_writes str z c n :
  z = size_l \/ z = size_j -> match c with conv_c | conv_s | conv_p => False | _ => True end ->
  (if is_signed c then - max_of (reader z c) else 0) <= n <= max_of (reader z c) ->
  writes (F := F) str [Conv (plain z c)] [passed z n] (int_text (plain z c) false 0 None n) [].
Proof.
  intros Hz Hc Hn. rewrite <- (app_nil_r (int_text _ _ _ _ _)). eapply writes_conv; [|constructor].
  assert (Hv : int_value (F := F) (plain z c) (passed z n) = Some n).
  { unfold int_value, max_of, LONG_MAX, StrTo.ULONG_MAX, LLONG_MAX, ULLONG_MAX in *.
    destruct Hz as [-> | ->], c; simpl in *; try done; f_equal;
      unfold s32, u32, s64, u64; try (rewrite Z.mod_small; lia). }
  refine (means_int str (plain z c) [passed z n] 0 [passed z n] None (passed z n) [] n _ _ _ _ Hv);
    try done; by destruct c.
Qed.
End Formatted.

(** The numeral of a natural number, as it is written and as it is read. *)
Definition numeral_of (b : Z) (ch : Z -> Z) (m : Z) : list Z :=
  replicate (Z.to_nat (1 - Z.of_nat (length (map ch (digits b m))))) 48 ++ map ch (digits b m).

Lemma digit_of_char b ch d :
  b <= 16 -> ch = digit_char \/ ch = digit_CHAR -> 0 <= d < b ->
  digit_of (ch d) = Some d /\ 48 <= ch d <= 102 /\ ch d <> 88 /\ is_space (ch d) = false.
Proof.
  intros Hb Hch Hd. unfold digit_of, is_space, digit_char, digit_CHAR in *.
  destruct Hch as [-> | ->]; destruct (Z.ltb_spec d 10);
    repeat match goal with
    | |- context [Z.leb ?x ?y] => destruct (Z.leb_spec x y); try lia
    | |- context [Z.eqb ?x ?y] => destruct (Z.eqb_spec x y); try lia
    end; cbn [andb orb]; split_and!; try done; try lia; f_equal; lia.
Qed.

Lemma digits_read b ch ds :
  b <= 16 -> ch = digit_char \/ ch = digit_CHAR -> Forall (fun d => 0 <= d < b) ds ->
  StrTo.digits b (map ch ds) = ds.
Proof.
  intros Hb Hch HF. induction HF as [|d ds Hd HF IH]; [done|]. simpl.
  destruct (digit_of_char b ch d Hb Hch Hd) as [-> _]. rewrite (proj2 (Z.ltb_lt _ _)) by lia. by rewrite IH.
Qed.

(** Its digits, with the 0 that a numeral of zero has. *)
Definition shown (b m : Z) : list Z := if m =? 0 then [0] else digits b m.

Lemma numeral_shown b ch m :
  2 <= b <= 16 -> is_u64 m -> ch = digit_char \/ ch = digit_CHAR ->
  numeral_of b ch m = map ch (shown b m) /\ Forall (fun d => 0 <= d < b) (shown b m) /\ shown b m <> [] /\
  StrTo.value b (shown b m) = m.
Proof.
  intros Hb Hm Hch. unfold numeral_of, shown. destruct (Z.eqb_spec m 0) as [->|Hne].
  - split_and!; [by destruct Hch as [-> | ->]|repeat constructor; lia|done|]. unfold StrTo.value. simpl. lia.
  - pose proof (digits_pos b m ltac:(lia) Hm Hne) as Hl. split_and!.
    + rewrite length_map. by replace (Z.to_nat (1 - Z.of_nat (length (digits b m)))) with 0%nat by lia.
    + apply digits_range; [lia|exact Hm].
    + destruct (digits b m); [simpl in Hl; lia|done].
    + apply (digits_value_of b m); [lia|exact Hm].
Qed.

Lemma numeral_parse b ch m (neg : bool) :
  b = 8 \/ b = 10 \/ b = 16 -> is_u64 m -> ch = digit_char \/ ch = digit_CHAR ->
  parse b ((if neg then [45] else []) ++ numeral_of b ch m) =
  {| negative := neg; in_base := b; subject := shown b m; after := [] |}.
Proof.
  intros Hb Hm Hch. assert (Hb' : 2 <= b <= 16) by lia.
  destruct (numeral_shown b ch m Hb' Hm Hch) as (-> & HF & Hne & _).
  destruct (shown b m) as [|d ds] eqn:E; [done|]. apply Forall_cons in HF as [Hd HF].
  destruct (digit_of_char b ch d ltac:(lia) Hch Hd) as (_ & Hr & _ & Hsp).
  assert (Hsign : sign (skip_space ((if neg then [45] else []) ++ map ch (d :: ds))) = (neg, map ch (d :: ds))).
  { destruct neg; simpl; [done|]. rewrite Hsp. simpl.
    by rewrite (proj2 (Z.eqb_neq (ch d) 45)), (proj2 (Z.eqb_neq (ch d) 43)) by lia. }
  assert (Hradix : radix b (map ch (d :: ds)) = (b, map ch (d :: ds))).
  { unfold radix. rewrite (proj2 (Z.eqb_neq b 0)) by lia. destruct ds as [|x ds]; [done|].
    apply Forall_cons in HF as [Hx _]. destruct (digit_of_char b ch x ltac:(lia) Hch Hx) as (_ & Hx1 & Hx2 & _).
    simpl. rewrite (proj2 (Z.eqb_neq (ch x) 120)), (proj2 (Z.eqb_neq (ch x) 88)) by lia.
    by rewrite andb_false_r. }
  unfold parse. rewrite Hsign, Hradix. rewrite (proj2 (Z.leb_le 1 b)), (proj2 (Z.leb_le b 36)) by lia.
  cbn [andb]. rewrite digits_read by (done || lia || by constructor).
  rewrite drop_ge by (by rewrite length_map). done.
Qed.

(** The text of a plain conversion, as sign and numeral. *)
Lemma plain_text z c n :
  match c with conv_c | conv_s | conv_p => False | _ => True end -> (is_signed c = false -> 0 <= n) ->
  exists ch, (ch = digit_char \/ ch = digit_CHAR) /\
    int_text (plain z c) false 0 None n =
    (if n <? 0 then [45] else []) ++ numeral_of (base_of c) ch (Z.abs n).
Proof.
  intros Hc Hn. exists (match c with conv_X => digit_CHAR | _ => digit_char end).
  split; [destruct c; auto|].
  assert (Hj : forall l, justify false 0 l = l).
  { intros l. unfold justify. by replace (Z.to_nat (0 - Z.of_nat (length l))) with 0%nat by lia. }
  unfold int_text, number_field, numeral_of. rewrite !Hj. change (flag (plain z c) _) with false.
  destruct c; simpl; try done; specialize (Hn eq_refl); rewrite (proj2 (Z.ltb_ge n 0)), Z.abs_eq by lia; done.
Qed.

Lemma plain_chars b ch m :
  2 <= b <= 16 -> is_u64 m -> ch = digit_char \/ ch = digit_CHAR ->
  Forall is_char (numeral_of b ch m) /\ (length (numeral_of b ch m) <= 65)%nat.
Proof.
  intros Hb Hm Hch. destruct (numeral_shown b ch m Hb Hm Hch) as (-> & HF & _ & _). split.
  - apply Forall_map. eapply Forall_impl; [exact HF|]. intros d Hd. simpl in *.
    destruct (digit_of_char b ch d ltac:(lia) Hch Hd) as (_ & Hr & _). unfold is_char. lia.
  - rewrite length_map. unfold shown. destruct (m =? 0); [simpl; lia|].
    assert (length (digits b m) <= 64)%nat; [|lia]. unfold is_u64 in Hm.
    apply digits_short; [lia| |lia]. split; [lia|].
    apply Z.lt_le_trans with (2 ^ Z.of_nat 64); [change (2 ^ Z.of_nat 64) with 18446744073709551616; lia|].
    apply Z.pow_le_mono_l. lia.
Qed.

Section RoundTrip.
Context `{HM : SysMem} `{HD : Dos} `{!SysMemLaws HM} `{!DosLaws HD} {F : Type}.
Context (lc : option Locale) (wctomb : Z -> M (Z * list Z)) (strerror : Z -> M Z).
Context (fmt_fp : Out -> F -> Z -> Z -> Z -> Z -> M (Z * Out)).
Context (Hdigit : forall c, is_byte c -> digit_r lc c = is_digit c).

(** C13: A number written by [sprintf] with [%ld], [%lu], [%lo], [%lx] (or
    [%i], [%X] and the [intmax_t] variants) is read back by [strtol],
    [strtoul], [strtoimax] or [strtoumax] with the base of the conversion:
    the result is the number and [errno] is not touched.  This holds for every
    number whose magnitude is at most the largest value of the type, that is,
    for all but the smallest [long] and [intmax_t], whose digits overflow in
    the reading function ([strto_limits]). *)
Theorem printf_strto_roundtrip cs z c n buf dst p s :
  let txt := int_text (plain z c) false 0 None n in
  z = size_l \/ z = size_j -> match c with conv_c | conv_s | conv_p => False | _ => True end ->
  (if is_signed c then - max_of (reader z c) else 0) <= n <= max_of (reader z c) ->
  call_ok s buf dst (Z.of_nat (length txt) + 2) p [Conv (plain z c)] -> dst + 100 <= ADDR_MAX ->
  exists s', sprintf (F := F) lc wctomb strerror fmt_fp buf dst p [passed z n] s =
      Ok (Z.of_nat (length txt)) s' /\
    strto_call cs (reader z c) dst NULL (base_of c) s' = Ok n s' /\ errno s' = errno s.
Proof.
  intros txt Hz Hc Hn Hok Hsp.
  assert (Hmax : max_of (reader z c) <= 18446744073709551615) by (by destruct Hz as [-> | ->], c).
  assert (Hb : base_of c = 8 \/ base_of c = 10 \/ base_of c = 16) by (destruct c; auto).
  assert (Hu : is_u64 (Z.abs n)) by (unfold is_u64; destruct (is_signed c); lia).
  destruct (plain_text z c n Hc) as (ch & Hch & Et); [intros E; rewrite E in Hn; lia|]. fold txt in Et.
  destruct (plain_chars (base_of c) ch (Z.abs n) ltac:(lia) Hu Hch) as [HF Hlen].
  assert (Htxt : (length txt <= 66)%nat) by (rewrite Et, length_app; destruct (n <? 0); simpl; lia).
  destruct (sprintf_ok lc wctomb strerror fmt_fp Hdigit buf dst p [Conv (plain z c)] [passed z n] txt [] s Hok)
    as (s' & Hr & Hb' & _ & He); [by apply plain_writes|unfold INT_MAX; lia|].
  exists s'. split; [done|]. split; [|done].
  assert (Hcstr : cstr (mem s') dst txt).
  { split; [|split].
    - change [0; 0] with ([0] ++ [0]) in Hb'. rewrite app_assoc in Hb'. by apply bytes_at_app in Hb' as [? _].
    - rewrite Et. apply Forall_app. split; [|done]. destruct (n <? 0); by repeat constructor.
    - split; [|lia]. apply (co_dst _ _ _ _ _ _ Hok). lia. }
  assert (Hpar := numeral_parse (base_of c) ch (Z.abs n) (n <? 0) Hb Hu Hch). rewrite <- Et in Hpar.
  destruct (numeral_shown (base_of c) ch (Z.abs n) ltac:(lia) Hu Hch) as (_ & _ & Hne & Hval).
  rewrite (strto_read cs (reader z c) dst txt NULL (base_of c)); [..|by left|]; try done; try lia.
  2:{ rewrite Hpar. simpl. rewrite Hval. destruct (is_signed c); lia. }
  rewrite Hpar. unfold denotes, put_stop. simpl. rewrite Hval.
  destruct (shown (base_of c) (Z.abs n)); [done|]. f_equal.
  destruct (Z.ltb_spec n 0); [|lia].
  replace (is_unsigned (reader z c)) with false; [lia|].
  destruct (is_signed c) eqn:E; [|lia]. unfold reader. rewrite E. by destruct Hz as [-> | ->].
Qed.
End RoundTrip.

(** ** Calls *)

Lemma c_locale_digits c : is_byte c -> digit_r None c = is_digit c.
Proof.
  intros Hc. apply eqb_prop. revert c Hc.
  apply (forall_bytes (fun c => eqb (digit_r None c) (is_digit c))). by vm_compute.
Qed.

Definition no_wctomb (w : Z) : M (Z * list Z) := ret (-1, []).
Definition no_strerror (e : Z) : M Z := ret 3000.
Definition no_fmt_fp (o : Out) (d : Empty_set) (w p fl t : Z) : M (Z * Out) := ret (-1, o).

(** ["n=%-4d|%%%.3s"] *)
Definition sample_items : list item :=
  [Lit (bytes "n="); Conv (mkSpec [45] (Number 4) None size_int conv_d); Lit (bytes "|"); Percent;
   Conv (mkSpec [] Absent (Some (Number 3)) size_int conv_s)].
Definition sample_args : list (value Empty_set) := [Word 42; Word 3000].
Definition sample_call : state :=
  boot [(1000, replicate 32 9); (2000, zstr "n=%-4d|%%%.3s"); (3000, zstr "world"); (4000, replicate 40 7)].

Lemma sample_wf : Forall wf_item sample_items.
Proof.
  repeat constructor; simpl; unfold INT_MAX; try done; try lia; set_solver.
Qed.

Lemma sample_writes (str : Z -> list Z -> Prop) :
  str 3000 (bytes "world") -> writes str sample_items sample_args (bytes "n=42  |%wor") [].
Proof.
  intros Hs. change (bytes "n=42  |%wor") with (bytes "n=" ++ bytes "42  " ++ bytes "|" ++ 37 :: bytes "wor" ++ []).
  unfold sample_items, sample_args. constructor.
  eapply writes_conv; [|do 2 constructor; eapply writes_conv; [|constructor]].
  - exact (means_int str (mkSpec [45] (Number 4) None size_int conv_d) [Word 42; Word 3000] 4
      [Word 42; Word 3000] None (Word 42) [Word 3000] 42 eq_refl ltac:(done) eq_refl I eq_refl).
  - apply (means_string str (mkSpec [] Absent (Some (Number 3)) size_int conv_s) [Word 3000] 0
      [Word 3000] (Some 3) 3000 (bytes "world") []); try done. by right.
Qed.

Lemma sample_given n q l :
  cstrb (mem sample_call) q l = true -> 2000 <= q -> q + Z.of_nat (length l) + 1 <= 4000 ->
  given sample_call 1000 4000 n q l.
Proof. intros Hc H1 H2. split; [by apply cstrb_spec|]. split; unfold disj; lia. Qed.

Lemma sample_call_ok n : 0 <= n <= 40 -> call_ok sample_call 1000 4000 n 2000 sample_items.
Proof.
  intros Hn. split; [apply sample_wf|by vm_compute| | | |].
  - apply sample_given; [by vm_compute|lia|by vm_compute].
  - split; [lia|ground].
  - split; [lia|]. split; [lia|]. eapply (mapped_sub _ 4000 40); [ground|lia|lia].
  - unfold disj. lia.
Qed.

Lemma sprintf_correct_witness :
  exists s', sprintf None no_wctomb no_strerror no_fmt_fp 1000 4000 2000 sample_args sample_call = Ok 11 s' /\
    bytes_at (mem s') 4000 (bytes "n=42  |%wor" ++ [0; 0]).
Proof.
  destruct (sprintf_correct None no_wctomb no_strerror no_fmt_fp c_locale_digits 1000 4000 2000 sample_items
    sample_args (bytes "n=42  |%wor") [] sample_call) as (s' & H1 & H2 & _).
  - by apply sample_call_ok.
  - apply sample_writes, sample_given; [by vm_compute|lia|by vm_compute].
  - done.
  - exists s'. split; [exact H1|exact H2].
Defined.

Lemma snprintf_correct_witness :
  exists s', snprintf None no_wctomb no_strerror no_fmt_fp 1000 4000 6 2000 sample_args sample_call = Ok 11 s' /\
    bytes_at (mem s') 4000 (bytes "n=42 " ++ [0]).
Proof.
  destruct (snprintf_correct None no_wctomb no_strerror no_fmt_fp c_locale_digits 1000 4000 6 2000 sample_items
    sample_args (bytes "n=42  |%wor") [] sample_call) as (s' & H1 & H2 & _).
  - done.
  - by apply sample_call_ok.
  - by left.
  - apply sample_writes, sample_given; [by vm_compute|lia|by vm_compute].
  - done.
  - exists s'. split; [exact H1|exact (H2 eq_refl)].
Defined.

Lemma printf_strto_roundtrip_witness :
  let s := boot [(1000, replicate 32 9); (2000, zstr "%ld"); (4000, replicate 40 7)] in
  exists s', sprintf (F := Empty_set) None no_wctomb no_strerror no_fmt_fp 1000 4000 2000 [Word (-345)] s = Ok 4 s' /\
    strto_call true (reader size_l conv_d) 4000 NULL (base_of conv_d) s' = Ok (-345) s'.
Proof.
  intros s.
  destruct (printf_strto_roundtrip None no_wctomb no_strerror no_fmt_fp c_locale_digits true size_l conv_d (-345)
    1000 4000 2000 s) as (s' & H1 & H2 & _).
  - by left.
  - done.
  - done.
  - split; [repeat constructor|by vm_compute| | | |by left].
    + split; [ground|]. split; [by right|by left].
    + split; [lia|ground].
    + split; [done|]. split; [done|ground].
  - done.
  - exists s'. split; [exact H1|exact H2].
Defined.

(** The fully buffered stream of [Output], with the format and the string. *)
Definition file_call : state :=
  mkState (memory [(1000, [0; 0; 0; 0]); (2000, zstr "n=%-4d|%%%.3s"); (3000, zstr "world")]) 0
    (<[0 := bytes "> "]> ∅).

Lemma fprintf_correct_witness :
  exists s' f', fprintf None no_wctomb no_strerror no_fmt_fp (Some (sample_stream 0)) 2000 sample_args file_call =
      Ok (11, Some f') s' /\
    contents s' f' = Some (bytes "> n=42  |%wor").
Proof.
  destruct (fprintf_correct None no_wctomb no_strerror no_fmt_fp c_locale_digits 100 file_call (sample_stream 0) 2000
    sample_items sample_args (bytes "n=42  |%wor") [] (bytes "> ") []) as (s' & f' & H1 & H2 & _).
  - split; try done; try (simpl; lia); try ground; try (by right). by exists 0.
  - apply sample_direct.
  - apply calm_nil.
  - done.
  - split; [apply sample_wf|by vm_compute|ground|by apply sample_aside].
  - done.
  - apply sample_writes. split; [ground|by apply sample_aside].
  - done.
  - done.
  - exists s', f'. split; [exact H1|exact H2].
Defined.
