(* ===== verification/StrAsm.v ===== *)
(** * Copying whole strings ([library/string], [library/cpu/generic])

    [strcpy] and [strcat] call the assembly routines of
    [cpu/generic/strcpy.S] and [cpu/generic/strcat.S].  A register holds a
    32-bit value; one definition per label of the source, named after it. *)

From Stdlib Require Import String.
From S2P Require Import Prelude CMem Words StrScan StrCopy.
Import Ppc.

(** ** The code *)

(** [add rTMP, rFEFE, w; nor rNEG, r7F7F, w; and. rTMP, rTMP, rNEG] *)
Definition ppc_test (w : Z) : Z := Z.land (u32 (rFEFE + w)) (nor32 r7F7F w).

(** The loop of [strcpy.S] from [L(g2)] round to [L(g0)] over [rSRC], [rDEST]
    and [rWORD].  It leaves for [L(g1)] with [rALT] and [rDEST]. *)
Definition strcpy_g2_body : Z * Z * Z -> M (Z * Z * Z + Z * Z) := fun '(rSRC, rDEST, rWORD) =>
  if negb (ppc_test rWORD =? 0) then leave (rWORD, rDEST)
  else
    let* rALT := load32 (rSRC + 4) in
    store32 (rDEST + 4) rWORD ;;
    if negb (ppc_test rALT =? 0) then leave (rALT, rDEST + 4)
    else
      let* rWORD := load32 (rSRC + 8) in
      store32 (rDEST + 8) rALT ;;
      again (rSRC + 8, rDEST + 8, rWORD).

(** [L(g1)]: the bytes of the last word, up to the first that is zero. *)
Definition strcpy_g1 (rALT rDEST : Z) : M unit :=
  let rTMP := rlwinm rALT 8 24 31 in
  store8 (rDEST + 4) rTMP ;;
  if rTMP =? 0 then ret tt else
  let rTMP := rlwinm rALT 16 24 31 in
  store8 (rDEST + 5) rTMP ;;
  if rTMP =? 0 then ret tt else
  let rTMP := rlwinm rALT 24 24 31 in
  store8 (rDEST + 6) rTMP ;;
  if rTMP =? 0 then ret tt else
  store8 (rDEST + 7) rALT.

(** [L(u0)]: it leaves for [L(u1)] or [L(u2)] with the byte to store and
    [rDEST]. *)
Definition strcpy_u0_body : Z * Z * Z -> M (Z * Z * Z + Z * Z) := fun '(rSRC, rDEST, rWORD) =>
  let* rALT := load8 (rSRC + 1) in
  store8 (rDEST + 1) rWORD ;;
  if rALT =? 0 then leave (rALT, rDEST + 1)
  else
    let* rWORD := load8 (rSRC + 2) in
    store8 (rDEST + 2) rALT ;;
    if rWORD =? 0 then leave (rWORD, rDEST + 2)
    else again (rSRC + 2, rDEST + 2, rWORD).

Definition strcpy_ppc (rRTN rSRC : Z) : M Z :=
  if rlwinm (Z.lor rSRC rRTN) 0 30 31 =? 0 then
    let* rWORD := load32 rSRC in
    let* (rALT, rDEST) := loop strcpy_g2_body (rSRC, rRTN - 4, rWORD) in
    strcpy_g1 rALT rDEST ;; ret rRTN
  else
    let* rWORD := load8 rSRC in
    let* (b, rDEST) :=
      if rWORD =? 0 then ret (rWORD, rRTN - 1)
      else loop strcpy_u0_body (rSRC, rRTN - 1, rWORD) in
    store8 (rDEST + 1) b ;; ret rRTN.

Definition strcpy (dest src : Z) : M Z := strcpy_ppc dest src.

(** The two loops of [strcat.S]; the first leaves with [r5] at the
    terminator, the second stores the byte after it has tested it. *)
Definition strcat_find_body : Z -> M (Z + Z) := fun r5 =>
  let* r0 := load8 (r5 + 1) in
  if negb (r0 =? 0) then again (r5 + 1) else leave (r5 + 1).
Definition strcat_copy_body : Z * Z -> M (Z * Z + unit) := fun '(r5, r4) =>
  let* r0 := load8 (r4 + 1) in
  store8 (r5 + 1) r0 ;;
  if negb (r0 =? 0) then again (r5 + 1, r4 + 1) else leave tt.

Definition strcat_ppc (r3 r4 : Z) : M Z :=
  let* r5 := loop strcat_find_body (r3 - 1) in
  loop strcat_copy_body (r5 - 1, r4 - 1) ;; ret r3.

Definition strcat (dest src : Z) : M Z := strcat_ppc dest src.

(** ** Registers *)

Lemma ppc_test_zero b0 b1 b2 b3 :
  is_byte b0 -> is_byte b1 -> is_byte b2 -> is_byte b3 ->
  (no_zero b0 b1 b2 b3 -> (ppc_test (word_of b0 b1 b2 b3) =? 0) = true) /\
  (~ no_zero b0 b1 b2 b3 -> (ppc_test (word_of b0 b1 b2 b3) =? 0) = false).
Proof.
  intros. unfold ppc_test. rewrite ppc_zero_test.
  split; intros; [by apply zero_test_yes|by apply zero_test_no].
Qed.

Lemma rotl32_0 x : is_u32 x -> rotl32 x 0 = x.
Proof.
  intros Hx. unfold rotl32. rewrite Z.shiftl_0_r, u32_id by zlia.
  rewrite Z.shiftr_div_pow2 by lia. rewrite Z.div_small; [apply Z.lor_0_r|].
  change (2 ^ (32 - 0)) with 4294967296. zlia.
Qed.

Lemma rotl32_24 a0 a1 a2 a3 :
  is_byte a0 -> is_byte a1 -> is_byte a2 -> is_byte a3 ->
  rotl32 (word_of a0 a1 a2 a3) 24 = word_of a3 a0 a1 a2.
Proof.
  intros. unfold rotl32.
  replace (u32 _) with (word_of a3 0 0 0).
  - replace (Z.shiftr _ _) with (word_of 0 a0 a1 a2).
    + rewrite lor_word by auto with clib. by rewrite !Z.lor_0_r, !Z.lor_0_l.
    + rewrite Z.shiftr_div_pow2 by lia. change (2 ^ (32 - 24)) with 256.
      unfold word_of, is_byte in *. Z.div_mod_to_equations. lia.
  - rewrite Z.shiftl_mul_pow2 by lia. change (2 ^ 24) with 16777216.
    unfold u32, word_of, is_byte in *. Z.div_mod_to_equations. lia.
Qed.

(** The low byte of a word, and its two low bits. *)
Lemma land_low_byte a0 a1 a2 a3 : is_byte a3 -> Z.land (word_of a0 a1 a2 a3) (mask32 24 31) = a3.
Proof.
  intros. change (mask32 24 31) with (Z.ones 8). rewrite Z.land_ones by lia.
  change (2 ^ 8) with 256. unfold word_of, is_byte in *. Z.div_mod_to_equations. lia.
Qed.

Lemma rlwinm_bytes a0 a1 a2 a3 :
  is_byte a0 -> is_byte a1 -> is_byte a2 -> is_byte a3 ->
  rlwinm (word_of a0 a1 a2 a3) 8 24 31 = a0 /\ rlwinm (word_of a0 a1 a2 a3) 16 24 31 = a1 /\
  rlwinm (word_of a0 a1 a2 a3) 24 24 31 = a2.
Proof.
  intros. unfold rlwinm. rewrite rotl32_8, rotl32_16, rotl32_24 by done.
  by rewrite !land_low_byte by done.
Qed.

Lemma low_bits_zero p d :
  is_u32 p -> is_u32 d ->
  rlwinm (Z.lor p d) 0 30 31 = 0 <-> p mod 4 = 0 /\ d mod 4 = 0.
Proof.
  intros Hp Hd. unfold rlwinm. rewrite rotl32_0.
  - change (mask32 30 31) with 3. rewrite Z.land_lor_distr_l, Z.lor_eq_0_iff, !land3 by zlia. done.
  - split; [apply Z.lor_nonneg; zlia|]. destruct (Z.eq_dec (Z.lor p d) 0) as [->|]; [lia|].
    assert (0 <= Z.lor p d) by (apply Z.lor_nonneg; zlia).
    change 4294967296 with (2 ^ 32). apply Z.log2_lt_pow2; [lia|]. rewrite Z.log2_lor by zlia.
    destruct (Z.eq_dec p 0) as [->|]; destruct (Z.eq_dec d 0) as [->|]; simpl; try lia;
    apply Z.max_lub_lt; try (simpl; lia); apply Z.log2_lt_pow2; zlia.
Qed.

(** ** [strcpy] *)

(** The bytes [v], a terminator and [tl] fill whole words at [p], and [v] and
    its terminator fit at [d], a word address beside them. *)
Record word_source (s : state) (d p : Z) (v tl : list Z) : Prop := {
  ws_chars : Forall is_char v;
  ws_tail : Forall is_byte tl;
  ws_bytes : bytes_at (mem s) p (v ++ 0 :: tl);
  ws_src : p mod 4 = 0;
  ws_dst : d mod 4 = 0;
  ws_len : Z.of_nat (length (v ++ 0 :: tl)) mod 4 = 0;
  ws_room : mapped (mem s) d (Z.of_nat (length v) + 1);
  ws_disj : disj d (Z.of_nat (length v) + 1) p (Z.of_nat (length (v ++ 0 :: tl)));
}.

(** The first word of such a source. *)
Lemma ws_word s d p v tl :
  word_source s d p v tl ->
  exists b0 b1 b2 b3 r, v ++ 0 :: tl = b0 :: b1 :: b2 :: b3 :: r /\
    is_byte b0 /\ is_byte b1 /\ is_byte b2 /\ is_byte b3 /\
    load32 p s = Ok (word_of b0 b1 b2 b3) s.
Proof.
  intros [Hc Ht Hb Hp Hd Hl Hm Hx].
  destruct (list4_split (v ++ 0 :: tl)) as (b0 & b1 & b2 & b3 & r & E & _);
    [apply Nat2Z.inj; by rewrite Nat2Z.inj_mod|by destruct v|].
  assert (HF : Forall is_byte (v ++ 0 :: tl)).
  { apply Forall_app. split; [by apply chars_bytes|]. constructor; [zlia|done]. }
  rewrite E in HF, Hb. fcons. exists b0, b1, b2, b3, r. do 5 (split; [done|]).
  apply load32_ok; [done|]. destruct Hb as (? & ? & ? & ? & _). done.
Qed.

(** A word without a zero byte: it is stored, the next one could be loaded
    before or after, and the source goes on. *)
Lemma ws_next s d p b0 b1 b2 b3 v tl :
  word_source s d p (b0 :: b1 :: b2 :: b3 :: v) tl ->
  store32 d (word_of b0 b1 b2 b3) s = Ok tt (wrote s d [b0; b1; b2; b3]) /\
  word_source (wrote s d [b0; b1; b2; b3]) (d + 4) (p + 4) v tl /\
  exists c0 c1 c2 c3 r, v ++ 0 :: tl = c0 :: c1 :: c2 :: c3 :: r /\
    is_byte c0 /\ is_byte c1 /\ is_byte c2 /\ is_byte c3 /\
    load32 (p + 4) s = Ok (word_of c0 c1 c2 c3) s.
Proof.
  intros [Hc Ht Hb Hp Hd Hl Hm Hx]. pose proof Hc as Hc'. fcons.
  change ((b0 :: b1 :: b2 :: b3 :: v) ++ 0 :: tl)
    with ([b0; b1; b2; b3] ++ (v ++ 0 :: tl)) in *.
  apply bytes_at_app in Hb as [Hb Hb']. simpl length in *. rewrite length_app in *.
  simpl length in *. unfold disj in *.
  assert (Hw : word_source (wrote s d [b0; b1; b2; b3]) (d + 4) (p + 4) v tl).
  { constructor; try done.
    - rewrite mem_wrote. apply write_bytes_frame; [exact Hb'|].
      rewrite length_app. unfold disj. simpl. lia.
    - by apply add4_mod.
    - by apply add4_mod.
    - rewrite length_app. simpl length. Z.div_mod_to_equations. lia.
    - rewrite mem_wrote. apply mapped_write. eapply mapped_sub; [done|lia|lia].
    - rewrite length_app. unfold disj. simpl. lia. }
  split; [apply store32_wrote; auto using char_byte; eapply mapped_sub; [done|lia|lia]|].
  split; [done|]. destruct (ws_word _ _ _ _ _ Hw) as (c0 & c1 & c2 & c3 & r & E & ? & ? & ? & ? & _).
  exists c0, c1, c2, c3, r. do 5 (split; [done|]). apply load32_ok; [by apply add4_mod|].
  rewrite E in Hb'. destruct Hb' as (? & ? & ? & ? & _). done.
Qed.

(** One turn from [L(g2)], when the first word is the last, when the second
    is, and when neither is. *)
Lemma g2_stop p q b0 b1 b2 b3 s :
  is_byte b0 -> is_byte b1 -> is_byte b2 -> is_byte b3 -> ~ no_zero b0 b1 b2 b3 ->
  strcpy_g2_body (p, q, word_of b0 b1 b2 b3) s = Ok (inr (word_of b0 b1 b2 b3, q)) s.
Proof.
  intros. unfold strcpy_g2_body.
  destruct (ppc_test_zero b0 b1 b2 b3) as [_ T]; try done. by rewrite T.
Qed.

Section G2.
Context (p d b0 b1 b2 b3 c0 c1 c2 c3 : Z) (s s1 : state).
Context (B : is_byte b0 /\ is_byte b1 /\ is_byte b2 /\ is_byte b3) (Nb : no_zero b0 b1 b2 b3).
Context (HL : load32 (p + 4) s = Ok (word_of c0 c1 c2 c3) s).
Context (HS : store32 d (word_of b0 b1 b2 b3) s = Ok tt s1).
Context (C : is_byte c0 /\ is_byte c1 /\ is_byte c2 /\ is_byte c3).

Lemma g2_half :
  ~ no_zero c0 c1 c2 c3 ->
  strcpy_g2_body (p, d - 4, word_of b0 b1 b2 b3) s = Ok (inr (word_of c0 c1 c2 c3, d - 4 + 4)) s1.
Proof.
  intros Nc. destruct B as (?&?&?&?), C as (?&?&?&?). unfold strcpy_g2_body.
  rewrite (proj1 (ppc_test_zero b0 b1 b2 b3 ltac:(done) ltac:(done) ltac:(done) ltac:(done)) Nb).
  cbn beta iota delta [negb]. rewrite (bind_ok _ _ _ _ _ HL). replace (d - 4 + 4) with d by lia.
  rewrite (bind_ok _ _ _ _ _ HS).
  by rewrite (proj2 (ppc_test_zero c0 c1 c2 c3 ltac:(done) ltac:(done) ltac:(done) ltac:(done)) Nc).
Qed.

Lemma g2_full w s2 :
  no_zero c0 c1 c2 c3 ->
  load32 (p + 8) s1 = Ok w s1 -> store32 (d + 4) (word_of c0 c1 c2 c3) s1 = Ok tt s2 ->
  strcpy_g2_body (p, d - 4, word_of b0 b1 b2 b3) s = Ok (inl (p + 8, d + 8 - 4, w)) s2.
Proof.
  intros Nc HL1 HS1. destruct B as (?&?&?&?), C as (?&?&?&?). unfold strcpy_g2_body.
  rewrite (proj1 (ppc_test_zero b0 b1 b2 b3 ltac:(done) ltac:(done) ltac:(done) ltac:(done)) Nb).
  cbn beta iota delta [negb]. rewrite (bind_ok _ _ _ _ _ HL). replace (d - 4 + 4) with d by lia.
  rewrite (bind_ok _ _ _ _ _ HS).
  rewrite (proj1 (ppc_test_zero c0 c1 c2 c3 ltac:(done) ltac:(done) ltac:(done) ltac:(done)) Nc).
  cbn beta iota delta [negb]. rewrite (bind_ok _ _ _ _ _ HL1). replace (d - 4 + 8) with (d + 4) by lia.
  rewrite (bind_ok _ _ _ _ _ HS1). unfold again, ret. do 4 f_equal. lia.
Qed.
End G2.

(** The loop from [L(g2)] copies the words before the one with the
    terminator, and leaves with that one. *)
Lemma strcpy_g2 v tl d p b0 b1 b2 b3 r s :
  word_source s d p v tl -> v ++ 0 :: tl = b0 :: b1 :: b2 :: b3 :: r ->
  exists u w c0 c1 c2 c3 r', v = u ++ w /\ w ++ 0 :: tl = c0 :: c1 :: c2 :: c3 :: r' /\
    lrun strcpy_g2_body (Z.of_nat (length v) + 1) (p, d - 4, word_of b0 b1 b2 b3) s
      (word_of c0 c1 c2 c3, d - 4 + Z.of_nat (length u)) (wrote s d u) /\
    word_source (wrote s d u) (d + Z.of_nat (length u)) (p + Z.of_nat (length u)) w tl /\
    (length w < 4)%nat.
Proof.
  remember (length v) as n eqn:Hn. revert v Hn d p b0 b1 b2 b3 r s.
  induction (lt_wf n) as [n _ IH]. intros v -> d p b0 b1 b2 b3 r s Hw E.
  destruct (ws_word _ _ _ _ _ Hw) as (? & ? & ? & ? & ? & E' & B0 & B1 & B2 & B3 & _).
  rewrite E in E'. injection E' as <- <- <- <- <-. pose proof (ws_chars _ _ _ _ _ Hw) as Hch.
  destruct (word_split v tl _ _ _ _ _ Hch E) as [[Nz (v1 & -> & ->)]|[Nz Hz]].
  - destruct (ws_next _ _ _ _ _ _ _ _ _ Hw)
      as (HS & Hw1 & c0 & c1 & c2 & c3 & r1 & E1 & C0 & C1 & C2 & C3 & HL).
    pose proof (ws_chars _ _ _ _ _ Hw1) as Hch1.
    destruct (word_split v1 tl _ _ _ _ _ Hch1 E1) as [[Nz1 (v2 & -> & ->)]|[Nz1 Hz1]].
    + destruct (ws_next _ _ _ _ _ _ _ _ _ Hw1)
        as (HS1 & Hw2 & e0 & e1 & e2 & e3 & r2 & E2 & _ & _ & _ & _ & HL1).
      replace (d + 4 + 4) with (d + 8) in * by lia.
      replace (p + 4 + 4) with (p + 8) in * by lia.
      destruct (IH (length v2) ltac:(simpl; lia) v2 eq_refl (d + 8) (p + 8) e0 e1 e2 e3 r2 _ Hw2 E2)
        as (u & w & f0 & f1 & f2 & f3 & r3 & -> & Ew & HR & HW & Hlw).
      set (b := [b0; b1; b2; b3; c0; c1; c2; c3]).
      pose proof (wrote_app s d [b0; b1; b2; b3] [c0; c1; c2; c3]) as Hs8.
      simpl in Hs8. fold b in Hs8.
      change (d + Z.of_nat 4) with (d + 4) in Hs8. rewrite Hs8 in *.
      pose proof (wrote_app s d b u) as Hsu. change (d + Z.of_nat (length b)) with (d + 8) in Hsu.
      rewrite Hsu in *.
      exists (b ++ u), w, f0, f1, f2, f3, r3. split; [done|]. split; [done|].
      replace (Z.of_nat (length (b ++ u))) with (8 + Z.of_nat (length u))
        by (rewrite length_app; simpl; lia).
      rewrite !Z.add_assoc. split; [|done].
      replace (d - 4 + 8 + Z.of_nat (length u)) with (d + 8 - 4 + Z.of_nat (length u)) by lia.
      eapply lrun_next; [eapply g2_full; eauto|].
      eapply lrun_weaken; [exact HR|simpl; rewrite length_app; lia].
    + exists [b0; b1; b2; b3], v1, c0, c1, c2, c3, r1. split; [done|]. split; [done|].
      split; [apply lrun_done; [by apply g2_half|lia]|].
      split; [exact Hw1|unfold first_zero, no_zero in *; zb; lia].
  - exists [], v, b0, b1, b2, b3, r. split; [done|]. split; [done|].
    rewrite wrote_nil, !Z.add_0_r. split; [apply lrun_done; [by apply g2_stop|lia]|].
    split; [done|unfold first_zero, no_zero in *; zb; lia].
Qed.

(** [L(g1)] writes what remains of the string, and its terminator. *)
Lemma strcpy_g1_ok d p w tl c0 c1 c2 c3 r s :
  word_source s d p w tl -> w ++ 0 :: tl = c0 :: c1 :: c2 :: c3 :: r -> (length w < 4)%nat ->
  strcpy_g1 (word_of c0 c1 c2 c3) (d - 4) s = Ok tt (wrote s d (w ++ [0])).
Proof.
  intros Hw E Hl. destruct (ws_word _ _ _ _ _ Hw) as (? & ? & ? & ? & ? & E' & ? & ? & ? & ? & _).
  rewrite E in E'. injection E' as <- <- <- <- <-. unfold strcpy_g1.
  destruct (rlwinm_bytes c0 c1 c2 c3) as (-> & -> & ->); try done.
  replace (d - 4 + 4) with (d + Z.of_nat 0) by lia.
  replace (d - 4 + 5) with (d + Z.of_nat 1) by lia.
  replace (d - 4 + 6) with (d + Z.of_nat 2) by lia.
  replace (d - 4 + 7) with (d + Z.of_nat 3) by lia.
  pose proof (ws_chars _ _ _ _ _ Hw) as Hch. pose proof (ws_room _ _ _ _ _ Hw) as Hm.
  assert (K : forall u c x, length u = x -> (x <= length w)%nat -> is_byte c ->
    store8 (d + Z.of_nat x) c (wrote s d u) = Ok tt (wrote s d (u ++ [c]))).
  { intros u c x Hu Hx Hc. rewrite store8_wrote; [by rewrite <- Hu, wrote_app|done|].
    rewrite mem_wrote. eapply (mapped_write _ _ _ d); [exact Hm|lia]. }
  assert (low : forall a b c e st x, is_byte e ->
    store8 x (word_of a b c e) st = store8 x e st).
  { intros. unfold store8. replace (u8 (word_of a b c e)) with (u8 e); [done|].
    unfold u8, word_of. Z.div_mod_to_equations. lia. }
  rewrite <- (wrote_nil s d) at 1.
  destruct w as [|x0 [|x1 [|x2 [|x3 [|]]]]]; simpl in Hl; try lia; simpl in E; simplify_eq; fcons;
    unfold is_char in *;
    repeat (erewrite bind_ok by (apply K; [reflexivity|simpl; lia|zlia]);
      match goal with |- context [?x =? 0] => destruct (Z.eqb_spec x 0) end; try lia);
    try reflexivity.
  rewrite low by done. apply (K [c0; c1; c2] 0 3%nat); [done|simpl; lia|zlia].
Qed.

(** The byte loop, on a string whose first byte is already loaded. *)
Lemma strcpy_u0 l c d p s :
  beside s d (S (S (length l))) p (c :: l) ->
  lrun strcpy_u0_body (Z.of_nat (length l) + 1) (p, d - 1, c) s
    (0, d + Z.of_nat (length l)) (wrote s d (c :: l)).
Proof.
  remember (length l) as n eqn:Hn. revert l Hn c d p s.
  induction (lt_wf n) as [n _ IH]. intros l -> c d p s Hb.
  destruct (beside_load _ _ _ _ _ _ Hb) as [_ Hc]. pose proof (beside_first _ _ _ _ _ Hb) as Hd0.
  pose proof (beside_step _ _ _ _ _ _ c Hb) as Hb1.
  assert (HS : store8 (d - 1 + 1) c s = Ok tt (wrote s d [c])).
  { replace (d - 1 + 1) with d by lia. apply store8_wrote; [zlia|done]. }
  destruct l as [|c1 l].
  - apply lrun_done; [|simpl; lia]. unfold strcpy_u0_body.
    assert (HL : load8 (p + 1) s = Ok 0 s).
    { apply load8_ok. destruct Hb as (Hs & _). by apply cstr_cons in Hs as (_ & _ & Hs%cstr_nil). }
    rewrite (bind_ok _ _ _ _ _ HL), (bind_ok _ _ _ _ _ HS). simpl. unfold leave, ret. do 3 f_equal. lia.
  - destruct (beside_load _ _ _ _ _ _ Hb1) as [_ Hc1].
    assert (HL : load8 (p + 1) s = Ok c1 s).
    { apply load8_ok. destruct Hb as (Hs & _).
      apply cstr_cons in Hs as (_ & _ & Hs). by apply cstr_cons in Hs as (? & _). }
    pose proof (beside_first _ _ _ _ _ Hb1) as Hd1.
    assert (HS1 : store8 (d - 1 + 2) c1 (wrote s d [c]) = Ok tt (wrote s d [c; c1])).
    { replace (d - 1 + 2) with (d + 1) by lia. apply store8_wrote; [zlia|done]. }
    pose proof (beside_step _ _ _ _ _ _ c1 Hb1) as Hb2. rewrite wrote_cons in Hb2.
    replace (d + 1 + 1) with (d + 2) in Hb2 by lia. replace (p + 1 + 1) with (p + 2) in Hb2 by lia.
    assert (HL2 : load8 (p + 2) (wrote s d [c]) = Ok (default 0 (head l)) (wrote s d [c])).
    { apply load8_ok. replace (p + 2) with (p + 1 + 1) by lia. destruct Hb1 as (Hs & _).
      apply cstr_cons in Hs as (_ & _ & Hs). destruct l; [by apply cstr_nil|by apply cstr_cons in Hs as (? & _)]. }
    assert (Step : strcpy_u0_body (p, d - 1, c) s =
      (if default 0 (head l) =? 0 then leave (default 0 (head l), d - 1 + 2)
       else again (p + 2, d + 2 - 1, default 0 (head l))) (wrote s d [c; c1])).
    { unfold strcpy_u0_body. rewrite (bind_ok _ _ _ _ _ HL), (bind_ok _ _ _ _ _ HS).
      rewrite (proj2 (Z.eqb_neq c1 0)) by zlia.
      rewrite (bind_ok _ _ _ _ _ HL2), (bind_ok _ _ _ _ _ HS1). by replace (d + 2 - 1) with (d - 1 + 2) by lia. }
    destruct l as [|c2 l]; cbn [head default from_option id] in Step.
    + apply lrun_done; [|simpl; lia]. rewrite Step. simpl. unfold leave, ret. do 3 f_equal. lia.
    + destruct (beside_load _ _ _ _ _ _ Hb2) as [_ Hc2].
      rewrite (proj2 (Z.eqb_neq c2 0)) in Step by zlia.
      eapply lrun_next; [exact Step|].
      change (c :: c1 :: c2 :: l) with ([c; c1] ++ (c2 :: l)).
      rewrite <- (wrote_app s d [c; c1] (c2 :: l)). simpl length.
      replace (d + Z.of_nat (S (S (length l)))) with (d + 2 + Z.of_nat (length l)) by lia.
      eapply lrun_weaken; [apply (IH (length l)); [simpl; lia|done|exact Hb2]|simpl; lia].
Qed.

Lemma strcpy_ok d p l s :
  is_u32 d -> beside s d (S (length l)) p l -> word_readable (mem s) p (Z.of_nat (length l) + 1) ->
  strcpy d p s = Ok d (wrote s d (l ++ [0])).
Proof.
  intros Hd Hb Hw. pose proof Hb as (Hs & Hm & Hx). pose proof (cstr_len _ _ _ Hs).
  pose proof (cstr_pos _ _ _ Hs). unfold strcpy, strcpy_ppc.
  destruct (Z.eqb_spec (rlwinm (Z.lor p d) 0 30 31) 0) as [A|A].
  - apply low_bits_zero in A as [Ap Ad]; [|zlia|done].
    destruct (string_tail _ _ _ Hs Hw) as (tl & Bt & Ft & Lt & St).
    assert (WS : word_source s d p l tl).
    { fcons. constructor; try done; [by eapply cstr_chars| | |].
      - Z.div_mod_to_equations. lia.
      - by replace (Z.of_nat (length l) + 1) with (Z.of_nat (S (length l))) by lia.
      - unfold disj in *. rewrite length_app in *. simpl length in *.
        destruct Hx; [left; lia|right]. Z.div_mod_to_equations. lia. }
    destruct (ws_word _ _ _ _ _ WS) as (b0 & b1 & b2 & b3 & r & E & _ & _ & _ & _ & HL).
    rewrite (bind_ok _ _ _ _ _ HL).
    destruct (strcpy_g2 _ _ _ _ _ _ _ _ _ _ WS E)
      as (u & w & c0 & c1 & c2 & c3 & r' & -> & Ew & HR & WS' & Hlw).
    erewrite bind_ok; [|eapply loop_lrun; [exact HR|zlia]]. cbv beta iota.
    replace (d - 4 + Z.of_nat (length u)) with (d + Z.of_nat (length u) - 4) by lia.
    rewrite (bind_ok _ _ _ _ _ (strcpy_g1_ok _ _ _ _ _ _ _ _ _ _ WS' Ew Hlw)).
    by rewrite wrote_app, app_assoc.
  - destruct l as [|c l].
    + erewrite bind_ok by (apply load8_ok; by apply cstr_nil).
      change (0 =? 0) with true. cbv iota. rewrite (bind_ok (ret (0, d - 1)) _ s _ _ eq_refl).
      cbv beta iota. replace (d - 1 + 1) with d by lia.
      by erewrite bind_ok by (apply store8_wrote; [zlia|by eapply beside_first]).
    + destruct (beside_load _ _ _ _ _ _ Hb) as [Hc Hch].
      erewrite bind_ok by by apply load8_ok. rewrite (proj2 (Z.eqb_neq c 0)) by zlia.
      erewrite bind_ok; [|eapply loop_lrun; [by apply strcpy_u0|simpl in *; zlia]].
      cbv beta iota.
      erewrite bind_ok.
      2:{ replace (d + Z.of_nat (length l) + 1) with (d + Z.of_nat (length (c :: l))) by (simpl; lia).
          apply (store8_after s d (c :: l) (length (c :: l)) 0 (S (length (c :: l)))); [done|lia|zlia|by left]. }
      by rewrite take_ge by done.
Qed.

(** ** [strcat] *)

Lemma strcat_find l d s :
  cstr (mem s) d l ->
  lrun strcat_find_body (Z.of_nat (length l) + 1) (d - 1) s (d + Z.of_nat (length l)) s.
Proof.
  revert d. induction l as [|c l IH]; intros d Hs.
  - apply lrun_done; [|simpl; lia]. unfold strcat_find_body. replace (d - 1 + 1) with d by lia.
    erewrite bind_ok by by apply load8_ok, cstr_nil. unfold leave, ret. simpl. do 2 f_equal. lia.
  - apply cstr_cons in Hs as (Hc & Hch & Hs). eapply lrun_next.
    { unfold strcat_find_body. erewrite bind_ok.
      2:{ apply load8_ok. by replace (d - 1 + 1) with d by lia. }
      rewrite (proj2 (Z.eqb_neq c 0)) by zlia. simpl. reflexivity. }
    replace (d - 1 + 1) with (d + 1 - 1) by lia.
    replace (d + Z.of_nat (length (c :: l))) with (d + 1 + Z.of_nat (length l)) by (simpl; lia).
    eapply lrun_weaken; [by apply IH|simpl; lia].
Qed.

Lemma strcat_copy l d p s :
  beside s d (S (length l)) p l ->
  lrun strcat_copy_body (Z.of_nat (length l) + 1) (d - 1, p - 1) s tt (wrote s d (l ++ [0])).
Proof.
  assert (K : forall d p x s, mem s !! p = Some x -> is_byte x -> is_Some (mem s !! d) ->
    strcat_copy_body (d - 1, p - 1) s =
    (if negb (x =? 0) then again (d + 1 - 1, p + 1 - 1) else leave tt) (wrote s d [x])).
  { intros d' p' x s' Hp Hx Hd. unfold strcat_copy_body.
    replace (d' - 1 + 1) with d' by lia. replace (p' - 1 + 1) with p' by lia.
    erewrite bind_ok by by apply load8_ok. erewrite bind_ok by by apply store8_wrote.
    by replace (d' + 1 - 1) with d' by lia; replace (p' + 1 - 1) with p' by lia. }
  revert d p s. induction l as [|c l IH]; intros d p s Hb.
  - apply lrun_done; [|simpl; lia].
    rewrite (K d p 0); [done|by eapply beside_end|zlia|by eapply beside_first].
  - destruct (beside_load _ _ _ _ _ _ Hb) as [Hc Hch]. simpl app. eapply lrun_wrote.
    { rewrite (K d p c); [|done|zlia|by eapply beside_first].
      rewrite (proj2 (Z.eqb_neq c 0)) by zlia. reflexivity. }
    eapply lrun_weaken; [apply IH; by eapply beside_step|simpl; lia].
Qed.

Lemma strcat_ok d k p l s :
  cstr (mem s) d k -> beside s (d + Z.of_nat (length k)) (S (length l)) p l ->
  strcat d p s = Ok d (wrote s (d + Z.of_nat (length k)) (l ++ [0])).
Proof.
  intros Hd Hb. pose proof (cstr_len _ _ _ Hd). pose proof (cstr_pos _ _ _ Hd).
  pose proof (cstr_len _ _ _ (proj1 Hb)). pose proof (cstr_pos _ _ _ (proj1 Hb)).
  unfold strcat, strcat_ppc.
  erewrite bind_ok; [|eapply loop_lrun; [by apply strcat_find|zlia]].
  erewrite bind_ok; [|eapply loop_lrun; [by apply strcat_copy|zlia]]. done.
Qed.

(** C29: [strcpy] copies the string at [p] with its terminator to [d] and
    returns [d], by words when both addresses are aligned and by bytes
    otherwise; [strcat] puts the string at [p] after the string [k] at [e].
    Nothing else of the memory changes, although the word loop reads up to
    three bytes past the terminator. *)
Theorem strcpy_strcat_correct d e k p l s :
  is_u32 d -> beside s d (S (length l)) p l -> word_readable (mem s) p (Z.of_nat (length l) + 1) ->
  cstr (mem s) e k -> beside s (e + Z.of_nat (length k)) (S (length l)) p l ->
  strcpy d p s = Ok d (wrote s d (l ++ [0])) /\
  strcat e p s = Ok e (wrote s (e + Z.of_nat (length k)) (l ++ [0])).
Proof. intros. split; [by apply strcpy_ok|by apply strcat_ok]. Qed.

Lemma strcpy_strcat_correct_witness :
  let s := boot [(4096, zstr "clib4 string" ++ [7; 7; 7]); (8192, replicate 16 1);
                 (12289, zstr "a " ++ replicate 16 1)] in
  strcpy 8192 4096 s = Ok 8192 (wrote s 8192 (zstr "clib4 string")) /\
  strcat 12289 4096 s = Ok 12289 (wrote s 12291 (zstr "clib4 string")).
Proof.
  apply (strcpy_strcat_correct 8192 12289 (bytes "a ") 4096 (bytes "clib4 string"));
    [zlia|ground_beside|ground_words|ground|ground_beside].
Defined.
