(* ===== verification/Typed.v ===== *)
(** * What every call keeps of the memory

    A C object is a fixed set of cells, each holding a byte: no command maps
    or unmaps a cell or puts anything but a byte into one, whatever its
    arguments.  These lemmas give the callers of the string and [printf]
    functions the shape of the memory after a call. *)

From Stdlib Require Import String.
From S2P Require Import Prelude CMem Cells CType Words StrScan StrCmp StrCopy StrFind StrTo Stdio Streams Output.
From S2P Require Import Printf PrintfSpec PrintfWrite PrintfParse PrintfCore Formatted StrAsm.

(** ** The relation between the memories before and after *)

Record kept (m m' : gmap Z Z) : Prop := {
  kept_bytes : mem_wf m -> mem_wf m';
  kept_cells a : is_Some (m' !! a) <-> is_Some (m !! a);
}.

#[export] Instance kept_preorder : PreOrder kept.
Proof.
  split.
  - intros m. by split.
  - intros m1 m2 m3 [A1 A2] [B1 B2]. split; [auto|]. intros a. by rewrite B2, A2.
Qed.

Lemma kept_insert m p v : is_byte v -> is_Some (m !! p) -> kept m (<[p := v]> m).
Proof.
  intros Hv Hp. split.
  - intros Hm a b Hb. destruct (decide (p = a)) as [->|].
    + rewrite lookup_insert_eq in Hb. by simplify_eq.
    + rewrite lookup_insert_ne in Hb by done. by eapply Hm.
  - intros a. destruct (decide (p = a)) as [->|].
    + by rewrite lookup_insert_eq.
    + by rewrite lookup_insert_ne.
Qed.

Lemma kept_write m p l :
  (mem_wf m -> Forall is_byte l) -> mapped m p (Z.of_nat (length l)) -> kept m (write_bytes m p l).
Proof.
  intros Hl Hm. split; [intros; apply mem_wf_write; auto|]. intros a. rewrite write_bytes_lookup.
  case_decide; [|done]. split; intros _; [by apply Hm|]. apply lookup_lt_is_Some_2. lia.
Qed.

(** A computation that keeps the memory. *)
Definition Typed {A} (c : M A) : Prop :=
  forall s a s', c s = Ok a s' -> kept (mem s) (mem s').

Lemma typed_same {A} (c : M A) : (forall s a s', c s = Ok a s' -> mem s' = mem s) -> Typed c.
Proof. intros H s a s' Hc. by rewrite (H _ _ _ Hc). Qed.

Lemma typed_ret {A} (a : A) : Typed (ret a).
Proof. apply typed_same. by intros ??? [= _ <-]. Qed.
Lemma typed_again {L A} (x : L) : Typed (again (A := A) x).
Proof. apply typed_ret. Qed.
Lemma typed_leave {L A} (a : A) : Typed (leave (S := L) a).
Proof. apply typed_ret. Qed.
Lemma typed_fault {A} : Typed (fault (A := A)).
Proof. by intros ??? [=]. Qed.
Lemma typed_set_errno e : Typed (set_errno e).
Proof. apply typed_same. by intros ??? [= _ <-]. Qed.
Lemma typed_load8 p : Typed (load8 p).
Proof. apply typed_same. unfold load8. intros s a s'. destruct (mem s !! p); by intros [=->->]. Qed.

Lemma typed_store8 p v : Typed (store8 p v).
Proof.
  unfold store8. intros s a s'. destruct (mem s !! p) eqn:E; intros [= _ <-]. simpl.
  apply kept_insert; [apply u8_range|eauto].
Qed.

Lemma typed_bind {A B} (c : M A) (k : A -> M B) :
  Typed c -> (forall a, Typed (k a)) -> Typed (bind c k).
Proof.
  intros Hc Hk s b s'. unfold bind. destruct (c s) as [a s1| |] eqn:E; intros H; try done.
  etrans; [by eapply Hc|by eapply Hk].
Qed.

Lemma typed_loop_pos {L A} (body : L -> M (L + A)) n x :
  (forall x, Typed (body x)) -> Typed (loop_pos n body x).
Proof.
  intros Hb. revert x. induction n as [n IH|n IH|]; intros x; simpl; [| |apply Hb].
  - apply typed_bind; [apply Hb|]. intros [y|a]; [|apply typed_ret].
    apply typed_bind; [apply IH|]. intros [z|a]; [apply IH|apply typed_ret].
  - apply typed_bind; [apply IH|]. intros [z|a]; [apply IH|apply typed_ret].
Qed.

Lemma typed_loop {L A} (body : L -> M (L + A)) x : (forall x, Typed (body x)) -> Typed (loop body x).
Proof.
  intros Hb. unfold loop. apply typed_bind; [by apply typed_loop_pos|].
  intros [y|a]; [by intros ??? [=]|apply typed_ret].
Qed.

Create HintDb typed discriminated.
#[export] Hint Constants Opaque : typed.
#[export] Hint Variables Opaque : typed.
#[export] Hint Resolve typed_ret typed_again typed_leave typed_fault typed_set_errno typed_load8
  typed_store8 : typed.

Ltac head_of c := lazymatch c with ?f _ => head_of f | _ => c end.

(** Goes through the body of a function: sequencing, loops, tests, and the
    bodies of the functions it calls. *)
Ltac typed :=
  repeat first
    [ progress intros
    | solve [auto with typed nocore]
    | match goal with
      | |- Typed (bind _ _) => apply typed_bind
      | |- Typed (loop _ _) => apply typed_loop
      | |- Typed (match ?x with _ => _ end) => destruct x
      | |- Typed (let _ := _ in _) => cbv zeta
      | |- Typed ?c => let h := head_of c in progress unfold h
      end ].

Lemma typed_load32 p : Typed (load32 p).
Proof. typed. Qed.
Lemma typed_store32 p v : Typed (store32 p v).
Proof. typed. Qed.
Lemma typed_errno : Typed (fun s => Ok (errno s) s).
Proof. apply typed_same. by intros ??? [= _ <-]. Qed.
#[export] Hint Resolve typed_load32 typed_store32 typed_errno : typed.

(** ** The functions *)

(** What is asked of the operating system: its services, too, read and write
    bytes of mapped cells. *)
Class SysTyped `(SysMem) : Prop := {
  CopyMem_typed p d n : Typed (CopyMem p d n);
  MoveMem_typed p d n : Typed (MoveMem p d n);
  SetMem_typed d v n : Typed (SetMem d v n);
  ClearMem_typed d n : Typed (ClearMem d n);
}.
Class DosTyped `(Dos) : Prop := {
  fd_Action_typed i fam : Typed (fd_Action i fam);
  send_typed d p n : Typed (send d p n);
  IoErr_typed : Typed IoErr;
}.

Section Functions.
Context `{HM : SysMem} `{HD : Dos} `{!SysTyped HM} `{!DosTyped HD}.
#[local] Hint Resolve CopyMem_typed MoveMem_typed SetMem_typed ClearMem_typed fd_Action_typed
  send_typed IoErr_typed : typed.

Lemma typed_strcpy d p : Typed (strcpy d p).
Proof. typed. Qed.
Lemma typed_strcat d p : Typed (strcat d p).
Proof. typed. Qed.
Lemma typed_strlen p : Typed (strlen p).
Proof. typed. Qed.
Lemma typed_strchr p c : Typed (strchr p c).
Proof. typed. Qed.
Lemma typed_memcpy d p n : Typed (memcpy d p n).
Proof. typed. Qed.
Lemma typed_memset d v n : Typed (memset d v n).
Proof. typed. Qed.
#[local] Hint Resolve typed_strcpy typed_strcat typed_strlen typed_strchr typed_memcpy typed_memset : typed.

Lemma typed_flush f : Typed (flush_iob_write_buffer f).
Proof. typed. Qed.
#[local] Hint Resolve typed_flush : typed.
Lemma typed_putc_unlocked c f : Typed (putc_unlocked c f).
Proof. typed. Qed.
#[local] Hint Resolve typed_putc_unlocked : typed.
Lemma typed_putc_mode c f m : Typed (putc_mode c f m).
Proof. typed. Qed.
Lemma typed_fflush_file f : Typed (fflush_file f).
Proof. typed. Qed.
#[local] Hint Resolve typed_putc_mode typed_fflush_file : typed.

Section Printf.
Context {F : Type} (lc : option Locale) (wctomb : Z -> M (Z * list Z)) (strerror : Z -> M Z).
Context (fmt_fp : Out -> F -> Z -> Z -> Z -> Z -> M (Z * Out)).
Context (wctomb_typed : forall w, Typed (wctomb w)) (strerror_typed : forall e, Typed (strerror e)).
Context (fmt_fp_typed : forall o d w p fl t, Typed (fmt_fp o d w p fl t)).
#[local] Hint Resolve wctomb_typed strerror_typed fmt_fp_typed : typed.

Lemma typed_out o t l : Typed (out o t l).
Proof. typed. Qed.
#[local] Hint Resolve typed_out : typed.
Lemma typed_pad f c w l fl : Typed (pad f c w l fl).
Proof. typed. Qed.
#[local] Hint Resolve typed_pad : typed.
Lemma typed_pop_arg a ty ap : Typed (pop_arg (F := F) a ty ap).
Proof. typed. Qed.
#[local] Hint Resolve typed_pop_arg : typed.
Lemma typed_read_conversion k : Typed (read_conversion (F := F) lc k).
Proof. typed. Qed.
Lemma typed_write_field f d n : Typed (write_field f d n).
Proof. typed. Qed.
#[local] Hint Resolve typed_read_conversion typed_write_field : typed.
Lemma typed_convert k f a ps t w p fl xp :
  Typed (convert (F := F) wctomb strerror fmt_fp k f a ps t w p fl xp).
Proof. typed. Qed.
#[local] Hint Resolve typed_convert : typed.
Lemma typed_vfprintf f p ap : Typed (vfprintf lc wctomb strerror fmt_fp f p ap).
Proof. typed. Qed.
#[local] Hint Resolve typed_vfprintf : typed.
Lemma typed_sprintf buf d p ap : Typed (sprintf lc wctomb strerror fmt_fp buf d p ap).
Proof. typed. Qed.
Lemma typed_snprintf buf d n p ap : Typed (snprintf lc wctomb strerror fmt_fp buf d n p ap).
Proof. typed. Qed.
#[local] Hint Resolve typed_sprintf typed_snprintf : typed.
End Printf.
End Functions.

(** ** Other consequences *)

Lemma kept_mapped m m' p n : kept m m' -> mapped m p n -> mapped m' p n.
Proof. intros [_ H] Hm a Ha. by apply H, Hm. Qed.

(** The sample system keeps its memory too. *)
Lemma typed_put_mapped {A} d l (r : A) s a s' :
  (mem_wf (mem s) -> Forall is_byte l) -> put_mapped d l r s = Ok a s' -> kept (mem s) (mem s').
Proof.
  intros Hl. unfold put_mapped. destruct (mappedb _ _ _) eqn:E; [|done].
  intros [= _ <-]. apply mappedb_spec in E. by apply kept_write.
Qed.

Lemma peek_wf m p n : mem_wf m -> Forall is_byte (peek m p n).
Proof.
  intros Hm. unfold peek. apply Forall_map, Forall_true. intros a. simpl.
  destruct (m !! a) as [b|] eqn:E; [by apply (Hm a)|simpl; zlia].
Qed.

#[export] Instance sample_mem_typed : SysTyped sample_mem.
Proof.
  split; intros; intros s a s'; simpl; apply typed_put_mapped; intros Hm;
    first [by apply peek_wf|apply Forall_replicate; first [apply u8_range|zlia]].
Qed.

#[export] Instance sample_dos_typed : DosTyped sample_dos.
Proof.
  split; intros; apply typed_same; intros s a s'; simpl;
    repeat case_match; try (by intros [= _ <-]).
Qed.
