(* ===== verification/Inet.v ===== *)
(** * Internet addresses ([library/socket/inet_*.c])

    The conversions between binary addresses and their text: [inet_aton],
    [inet_addr], [inet_network], [inet_ntoa], [inet_ntop] and [inet_pton] for
    both address families, and the class arithmetic of [inet_makeaddr],
    [inet_lnaof] and [inet_netof]. *)

From Stdlib Require Import String.
From S2P Require Import Prelude CMem CType Words StrScan StrCopy StrAsm Stdio Printf.

Definition AF_INET : Z := 2.
Definition AF_INET6 : Z := 10.
Definition NS_INADDRSZ : Z := 4.
Definition NS_IN6ADDRSZ : Z := 16.
Definition NS_INT16SZ : Z := 2.

(** The addresses of the locals and literals the functions pass around. *)
Record frame := mkFrame {
  fr_buf : Z;      (** the 32 bytes of [vsprintf] *)
  fr_tmp4 : Z;     (** [tmp] of [inet_ntop4] *)
  fr_tmp6 : Z;     (** [tmp] of [inet_ntop6] *)
  fr_words : Z;    (** [words] of [inet_ntop6] *)
  fr_fmt4 : Z;     (** ["%u.%u.%u.%u"] *)
  fr_fmtx : Z;     (** ["%x"] *)
}.

(** ** From binary to text *)

Section ToText.
Context `{SysMem} `{Dos} {F : Type}.
Context (lc : option Locale) (wctomb : Z -> M (Z * list Z)) (strerror : Z -> M Z).
Context (fmt_fp : Out -> F -> Z -> Z -> Z -> Z -> M (Z * Out)).
Context (fr : frame).

Definition inet_ntop4 (src dst size : Z) : M Z :=
  let* a0 := load8 src in
  let* a1 := load8 (src + 1) in
  let* a2 := load8 (src + 2) in
  let* a3 := load8 (src + 3) in
  let* len := sprintf lc wctomb strerror fmt_fp (fr_buf fr) (fr_tmp4 fr) (fr_fmt4 fr)
                [Word a0; Word a1; Word a2; Word a3] in
  if len <? 0 then ret NULL
  else if size <? u32 len then set_errno ENOSPC ;; ret NULL
  else strcpy dst (fr_tmp4 fr).

(** [for (i = 0; i < NS_IN6ADDRSZ; i += 2) words[i / 2] = ...] *)
Definition words_body (src : Z) : Z -> M (Z + unit) := fun i =>
  if i <? NS_IN6ADDRSZ then
    let* hi := load8 (src + i) in
    let* lo := load8 (src + (i + 1)) in
    store32 (fr_words fr + 4 * (i / 2)) (Z.lor (Z.shiftl hi 8) lo) ;;
    again (i + 2)
  else leave tt.

(** [struct { int base, len; } best, cur] *)
Record zrun := mkRun { base : Z; len : Z }.

Definition longer (best cur : zrun) : zrun :=
  if (base best =? -1) || (len best <? len cur) then cur else best.

(** The search for the longest run of zeros over [i], [best] and [cur]. *)
Definition best_body : Z * zrun * zrun -> M (Z * zrun * zrun + zrun * zrun) :=
  fun '(i, best, cur) =>
  if i <? NS_IN6ADDRSZ / NS_INT16SZ then
    let* w := load32 (fr_words fr + 4 * i) in
    if w =? 0 then
      if base cur =? -1 then again (i + 1, best, mkRun i 1)
      else again (i + 1, best, mkRun (base cur) (len cur + 1))
    else if negb (base cur =? -1) then again (i + 1, longer best cur, mkRun (-1) (len cur))
    else again (i + 1, best, cur)
  else leave (best, cur).

Definition find_best : M zrun :=
  let* (best, cur) := loop best_body (0, mkRun (-1) 0, mkRun (-1) 0) in
  let best := if negb (base cur =? -1) then longer best cur else best in
  ret (if negb (base best =? -1) && (len best <? 2) then mkRun (-1) (len best) else best).

(** [i == 6 && best.base == 0 && (best.len == 6 || (best.len == 5 && words[5] == 0xffff))] *)
Definition encapsulated (best : zrun) (i : Z) : M bool :=
  if (i =? 6) && (base best =? 0) then
    if len best =? 6 then ret true
    else if len best =? 5 then
      let* w := load32 (fr_words fr + 20) in ret (w =? 0xffff)
    else ret false
  else ret false.

(** [sizeof tmp] *)
Definition TMP6 : Z := 46.

(** The formatting loop over [i] and [tp]: it leaves with [tp], or with
    nothing on [return NULL]. *)
Definition format_body (src : Z) (best : zrun) : Z * Z -> M (Z * Z + option Z) := fun '(i, tp) =>
  if i <? NS_IN6ADDRSZ / NS_INT16SZ then
    if negb (base best =? -1) && (base best <=? i) && (i <? base best + len best) then
      if i =? base best then store8 tp 58 ;; again (i + 1, tp + 1) else again (i + 1, tp)
    else
      let* tp := if negb (i =? 0) then store8 tp 58 ;; ret (tp + 1) else ret tp in
      let* v4 := encapsulated best i in
      if v4 : bool then
        let* r := inet_ntop4 (src + 12) tp (u32 (TMP6 - (tp - fr_tmp6 fr))) in
        if r =? NULL then leave None
        else let* n := strlen tp in leave (Some (tp + n))
      else
        let* w := load32 (fr_words fr + 4 * i) in
        let* len := sprintf lc wctomb strerror fmt_fp (fr_buf fr) tp (fr_fmtx fr) [Word w] in
        if len <? 0 then leave None else again (i + 1, tp + len)
  else leave (Some tp).

Definition inet_ntop6 (src dst size : Z) : M Z :=
  memset (fr_words fr) 0 32 ;;
  loop (words_body src) 0 ;;
  let* best := find_best in
  let* r := loop (format_body src best) (0, fr_tmp6 fr) in
  match r with
  | None => ret NULL
  | Some tp =>
      let* tp :=
        if negb (base best =? -1) && (base best + len best =? NS_IN6ADDRSZ / NS_INT16SZ)
        then store8 tp 58 ;; ret (tp + 1) else ret tp in
      store8 tp 0 ;;
      let tp := tp + 1 in
      if size <? u32 (tp - fr_tmp6 fr) then set_errno ENOSPC ;; ret NULL
      else strcpy dst (fr_tmp6 fr)
  end.

Definition inet_ntop (af src dst cnt : Z) : M Z :=
  if af =? AF_INET then inet_ntop4 src dst cnt
  else if af =? AF_INET6 then inet_ntop6 src dst cnt
  else set_errno EAFNOSUPPORT ;; ret NULL.

(** [in_] is the address of the parameter, [out] that of the static array
    and [fmt] that of ["%d.%d.%d.%d"]. *)
Definition inet_ntoa (in_ out fmt s_addr : Z) : M Z :=
  store32 in_ s_addr ;;
  let* a0 := load8 in_ in
  let* a1 := load8 (in_ + 1) in
  let* a2 := load8 (in_ + 2) in
  let* a3 := load8 (in_ + 3) in
  snprintf lc wctomb strerror fmt_fp (fr_buf fr) out 16 fmt [Word a0; Word a1; Word a2; Word a3] ;;
  ret out.
End ToText.

(** ** From text to binary *)

Section FromText.
Context `{SysMem}.
(** [__locale_table[LC_CTYPE]], for [tolower] and [isxdigit] *)
Context (lc : option Locale).
(** [tmp] of [inet_pton4] and [inet_pton6], and the literal [xdigits] *)
Context (tmp4 tmp6 xdig : Z).

(** [src], [tp], [saw_digit] and [octets]; it leaves with [octets], or with
    nothing on [return 0]. *)
Definition pton4_body : Z * Z * bool * Z -> M (Z * Z * bool * Z + option Z) :=
  fun '(src, tp, saw_digit, octets) =>
  let* ch := load8 src in
  let src := src + 1 in
  if ch =? 0 then leave (Some octets)
  else if (48 <=? ch) && (ch <=? 57) then
    let* v := load8 tp in
    let new := u32 (v * 10 + (ch - 48)) in
    if saw_digit && (v =? 0) then leave None
    else if 255 <? new then leave None
    else
      store8 tp new ;;
      if negb saw_digit then
        let octets := octets + 1 in
        if 4 <? octets then leave None else again (src, tp, true, octets)
      else again (src, tp, saw_digit, octets)
  else if (ch =? 46) && saw_digit then
    if octets =? 4 then leave None
    else store8 (tp + 1) 0 ;; again (src, tp + 1, false, octets)
  else leave None.

Definition inet_pton4 (src dst : Z) : M Z :=
  store8 tmp4 0 ;;
  let* r := loop pton4_body (src, tmp4, false, 0) in
  match r with
  | None => ret 0
  | Some octets =>
      if octets <? 4 then ret 0
      else memcpy dst tmp4 NS_INADDRSZ ;; ret 1
  end.

(** The variables of the loop of [inet_pton6]; [colonp] may be null. *)
Record pton6_vars := mkVars {
  v_src : Z;  v_tp : Z;  v_colonp : Z;  v_curtok : Z;  v_saw_xdigit : bool;  v_val : Z;
}.

(** [*tp++ = (u_char)(val >> 8) & 0xff; *tp++ = (u_char)val & 0xff] *)
Definition put16 (tp val : Z) : M Z :=
  store8 tp (Z.land (u8 (Z.shiftr val 8)) 255) ;;
  store8 (tp + 1) (Z.land (u8 val) 255) ;;
  ret (tp + 2).

(** It leaves with its variables, or with nothing on [return 0]. *)
Definition pton6_body (endp : Z) : pton6_vars -> M (pton6_vars + option pton6_vars) :=
  fun '(mkVars src tp colonp curtok saw_xdigit val) =>
  let* b := load8 src in
  let ch := tolower lc b in
  let src := src + 1 in
  if ch =? 0 then leave (Some (mkVars src tp colonp curtok saw_xdigit val))
  else
    let* pch := strchr xdig ch in
    if negb (pch =? NULL) then
      let val := Z.lor (u32 (Z.shiftl val 4)) (pch - xdig) in
      if 0xffff <? val then leave None
      else again (mkVars src tp colonp curtok true val)
    else if ch =? 58 then
      let curtok := src in
      if negb saw_xdigit then
        if negb (colonp =? NULL) then leave None
        else again (mkVars src tp tp curtok saw_xdigit val)
      else
        let* c := load8 src in
        if c =? 0 then leave None
        else if endp <? tp + NS_INT16SZ then leave None
        else
          let* tp := put16 tp val in
          again (mkVars src tp colonp curtok false 0)
    else
      let* v4 :=
        if (ch =? 46) && (tp + NS_INADDRSZ <=? endp) then
          let* r := inet_pton4 curtok tp in ret (0 <? r)
        else ret false in
      if v4 : bool then leave (Some (mkVars src (tp + NS_INADDRSZ) colonp curtok false val))
      else leave None.

(** [for (i = 1; i <= n; i++) { endp[-i] = colonp[n - i]; colonp[n - i] = 0; }] *)
Definition shift_body (endp colonp n : Z) : Z -> M (Z + unit) := fun i =>
  if i <=? n then
    let* c := load8 (colonp + (n - i)) in
    store8 (endp - i) c ;;
    store8 (colonp + (n - i)) 0 ;;
    again (i + 1)
  else leave tt.

(** What follows the loop. *)
Definition pton6_finish (endp dst : Z) (v : pton6_vars) : M Z :=
  let* r :=
    if v_saw_xdigit v then
      if endp <? v_tp v + NS_INT16SZ then ret None
      else let* tp := put16 (v_tp v) (v_val v) in ret (Some tp)
    else ret (Some (v_tp v)) in
  match r with
  | None => ret 0
  | Some tp =>
      let* r :=
        if negb (v_colonp v =? NULL) then
          if tp =? endp then ret None
          else
            loop (shift_body endp (v_colonp v) (tp - v_colonp v)) 1 ;; ret (Some endp)
        else ret (Some tp) in
      match r with
      | None => ret 0
      | Some tp =>
          if negb (tp =? endp) then ret 0
          else memcpy dst tmp6 NS_IN6ADDRSZ ;; ret 1
      end
  end.

Definition inet_pton6 (src dst : Z) : M Z :=
  let* tp := memset tmp6 0 NS_IN6ADDRSZ in
  let endp := tp + NS_IN6ADDRSZ in
  let* c := load8 src in
  let* r :=
    if c =? 58 then
      let* c1 := load8 (src + 1) in
      ret (if negb (c1 =? 58) then None else Some (src + 1))
    else ret (Some src) in
  match r with
  | None => ret 0
  | Some src =>
      let* r := loop (pton6_body endp) (mkVars src tp NULL src false 0) in
      match r with
      | None => ret 0
      | Some v => pton6_finish endp dst v
      end
  end.

Definition inet_pton (af src dst : Z) : M Z :=
  if af =? AF_INET then inet_pton4 src dst
  else if af =? AF_INET6 then inet_pton6 src dst
  else set_errno EAFNOSUPPORT ;; ret (-1).

(** *** [inet_aton] *)

(** The digits of one part, over [val] and [cp]. *)
Definition aton_digits_body (b : Z) : Z * Z -> M (Z * Z + Z * Z) := fun '(val, cp) =>
  let* c := load8 cp in
  if c =? 0 then leave (val, cp)
  else if negb (isascii c =? 0) && m_isdigit c then
    again (u32 (u32 (val * b) + (c - 48)), cp + 1)
  else if (b =? 16) && negb (isascii c =? 0) && negb (isxdigit lc c =? 0) then
    again (u32 (u32 (Z.shiftl val 4) + (c + 10 - (if m_islower c then 97 else 65))), cp + 1)
  else leave (val, cp).

(** [base] and where the digits start. *)
Definition aton_base (cp : Z) : M (Z * Z) :=
  let* c := load8 cp in
  if c =? 48 then
    let* x := load8 (cp + 1) in
    if (x =? 120) || (x =? 88) then ret (16, cp + 2) else ret (8, cp + 1)
  else ret (10, cp).

(** The loop over the parts, with [parts] up to [pp]; it leaves with [val],
    [cp] and the parts, or with nothing on [goto out]. *)
Definition aton_body : Z * list Z -> M (Z * list Z + option (Z * Z * list Z)) := fun '(cp, parts) =>
  let* (b, cp) := aton_base cp in
  let* (val, cp) := loop (aton_digits_body b) (0, cp) in
  let* c := load8 cp in
  if c =? 46 then
    if (3 <=? Z.of_nat (length parts)) || (0xff <? val) then leave None
    else again (cp + 1, parts ++ [val])
  else leave (Some (val, cp, parts)).

(** The [switch] on the number of parts; [LONG] shifts wrap. *)
Definition concoct (val : Z) (parts : list Z) : option Z :=
  let sh x n := u32 (Z.shiftl x n) in
  match parts with
  | [] => Some val
  | [a] => if 0xffffff <? val then None else Some (Z.lor val (sh a 24))
  | [a; b] => if 0xffff <? val then None else Some (Z.lor val (Z.lor (sh a 24) (sh b 16)))
  | [a; b; c] =>
      if 0xff <? val then None
      else Some (Z.lor val (Z.lor (Z.lor (sh a 24) (sh b 16)) (sh c 8)))
  | _ => None
  end.

Definition inet_aton (cp addr : Z) : M Z :=
  if (cp =? NULL) || (addr =? NULL) then set_errno EFAULT ;; ret 0
  else
    let* r := loop aton_body (cp, []) in
    match r with
    | None => ret 0
    | Some (val, cp, parts) =>
        let* c := load8 cp in
        if negb (c =? 0) && ((isascii c =? 0) || negb (m_isspace c)) then ret 0
        else
          match concoct val parts with
          | None => ret 0
          | Some val => store32 addr val ;; ret 1
          end
    end.

(** [a] is the address of the local [struct in_addr]. *)
Definition inet_addr (a addr : Z) : M Z :=
  if addr =? NULL then set_errno EFAULT ;; ret 0xFFFFFFFF
  else
    let* ok := inet_aton addr a in
    if ok =? 0 then set_errno EFAULT ;; ret 0xFFFFFFFF else load32 a.

(** [ntohl] is the identity. *)
Definition inet_network (a cp : Z) : M Z := inet_addr a cp.
End FromText.

(** ** Classes of networks *)

Definition inet_makeaddr (net host : Z) : Z :=
  if net <? 256 then Z.lor host (u32 (Z.shiftl net 24))
  else if net <? 65536 then Z.lor host (u32 (Z.shiftl net 16))
  else Z.lor host (u32 (Z.shiftl net 8)).

Definition inet_lnaof (h : Z) : Z :=
  if Z.shiftr h 24 <? 128 then Z.land h 0xffffff
  else if Z.shiftr h 24 <? 192 then Z.land h 0xffff
  else Z.land h 0xff.

Definition inet_netof (h : Z) : Z :=
  if Z.shiftr h 24 <? 128 then Z.shiftr h 24
  else if Z.shiftr h 24 <? 192 then Z.shiftr h 16
  else Z.shiftr h 8.
