(* ===== verification/InetSpec.v ===== *)
(** * The text of Internet addresses

    What the conversions mean, on lists: the dotted quad of an IPv4 address,
    the groups of an IPv6 address with [::] for a run of zeros, the languages
    [inet_pton] accepts as functions on strings, and that reading inverts
    writing. *)

From Stdlib Require Import String.
From S2P Require Import Prelude CMem CType Words Stdio Printf PrintfSpec Formatted.

Fixpoint joined (sep : Z) (ls : list (list Z)) : list Z :=
  match ls with
  | [] => []
  | [x] => x
  | x :: ls => x ++ sep :: joined sep ls
  end.

Lemma joined_cons sep x ls : ls <> [] -> joined sep (x :: ls) = x ++ sep :: joined sep ls.
Proof. by destruct ls. Qed.

Lemma joined_app sep ls1 ls2 :
  ls1 <> [] -> ls2 <> [] -> joined sep (ls1 ++ ls2) = joined sep ls1 ++ sep :: joined sep ls2.
Proof.
  intros H1 H2. induction ls1 as [|x [|y ls1] IH]; [done| |].
  - simpl. by destruct ls2.
  - rewrite joined_cons by done. rewrite <- app_comm_cons, joined_cons by done.
    by rewrite IH, <- app_assoc.
Qed.

(** ** Numerals *)

Definition dec (n : Z) : list Z := map digit_char (shown 10 n).
Definition hex (n : Z) : list Z := map digit_char (shown 16 n).

(** What the conversions without flags write. *)
Lemma plain_lower c n :
  c = conv_d \/ c = conv_u \/ c = conv_x -> is_u64 n ->
  int_text (plain size_int c) false 0 None n = map digit_char (shown (base_of c) n).
Proof.
  intros Hc Hn. assert (Hj : forall l, justify false 0 l = l).
  { intros l. unfold justify. by replace (Z.to_nat (0 - Z.of_nat (length l))) with 0%nat by lia. }
  assert (Hb : 2 <= base_of c <= 16) by (destruct Hc as [-> |[-> | ->]]; simpl; lia).
  destruct (numeral_shown (base_of c) digit_char n Hb Hn ltac:(by left)) as (<- & _).
  unfold int_text, number_field, numeral_of. rewrite !Hj. change (flag (plain size_int c) _) with false.
  unfold is_u64 in Hn.
  destruct Hc as [-> |[-> | ->]]; simpl; rewrite ?(proj2 (Z.ltb_ge n 0)), ?Z.abs_eq by lia; done.
Qed.

(** Octets in decimal, by their number of digits. *)
Lemma dec_cases b :
  is_byte b ->
  (b < 10 /\ dec b = [48 + b]) \/
  (10 <= b < 100 /\ dec b = [48 + b / 10; 48 + b mod 10]) \/
  (100 <= b /\ dec b = [48 + b / 100; 48 + b / 10 mod 10; 48 + b mod 10]).
Proof.
  intros Hb. pose proof (forall_bytes (fun b => bool_decide (dec b =
    if b <? 10 then [48 + b] else if b <? 100 then [48 + b / 10; 48 + b mod 10]
    else [48 + b / 100; 48 + b / 10 mod 10; 48 + b mod 10])) ltac:(by vm_compute) b Hb) as H.
  apply bool_decide_eq_true in H. rewrite H.
  destruct (Z.ltb_spec b 10); [auto|]. destruct (Z.ltb_spec b 100); [right; left|right; right]; split; lia || done.
Qed.

(** Another digit. *)
Lemma dec_snoc v d : 1 <= v -> 0 <= d <= 9 -> v * 10 + d <= 255 -> dec v ++ [48 + d] = dec (v * 10 + d).
Proof.
  intros Hv Hd Hle. unfold dec, shown.
  rewrite (proj2 (Z.eqb_neq v 0)), (proj2 (Z.eqb_neq (v * 10 + d) 0)) by lia.
  rewrite (digits_step 10 (v * 10 + d)) by lia.
  replace ((v * 10 + d) / 10) with v by (Z.div_mod_to_equations; lia).
  replace ((v * 10 + d) mod 10) with d by (Z.div_mod_to_equations; lia).
  rewrite map_app. simpl. unfold digit_char at 3. by rewrite (proj2 (Z.ltb_lt d 10)) by lia.
Qed.

Lemma dec_digit d : 0 <= d <= 9 -> dec d = [48 + d].
Proof. intros Hd. destruct (dec_cases d) as [[_ ?]|[[? _]|[? _]]]; [zlia|done|lia|lia]. Qed.

(** ** Dotted quads *)

Definition dotted (b : list Z) : list Z := joined 46 (map dec b).

(** What [inet_pton4] makes of a string: the octets before the current one,
    the current one, and whether it has a digit; and how a character changes
    that. *)
Definition octets (done : list Z) (saw : bool) : Z := Z.of_nat (length done) + Z.b2z saw.

Definition step4 (c : Z) (done : list Z) (cur : Z) (saw : bool) : option (list Z * Z * bool) :=
  if (48 <=? c) && (c <=? 57) then
    if saw && (cur =? 0) then None
    else if 255 <? cur * 10 + (c - 48) then None
    else if negb saw && (4 <? octets done saw + 1) then None
    else Some (done, cur * 10 + (c - 48), true)
  else if (c =? 46) && saw then
    if octets done saw =? 4 then None else Some (done ++ [cur], 0, false)
  else None.

Fixpoint run4 (l done : list Z) (cur : Z) (saw : bool) : option (list Z) :=
  match l with
  | [] => if octets done saw <? 4 then None else Some (done ++ [cur])
  | c :: l =>
      match step4 c done cur saw with
      | Some (done, cur, saw) => run4 l done cur saw
      | None => None
      end
  end.
Definition parse4 (l : list Z) : option (list Z) := run4 l [] 0 false.

(** An octet is read... *)
Lemma run4_octet l done b :
  is_byte b -> (length done < 4)%nat -> run4 (dec b ++ l) done 0 false = run4 l done b true.
Proof.
  intros Hb Hd.
  assert (K : forall c l cur saw, 48 <= c <= 57 -> (saw = true -> cur <> 0) -> 0 <= cur * 10 + (c - 48) <= 255 ->
    run4 (c :: l) done cur saw = run4 l done (cur * 10 + (c - 48)) true).
  { intros c l' cur saw Hc Hs Hn. simpl. unfold step4, octets. rewrite (proj2 (Z.leb_le 48 c)), (proj2 (Z.leb_le c 57)) by lia.
    cbn [andb]. rewrite (proj2 (Z.ltb_ge 255 _)) by lia. destruct saw; cbn [andb negb Z.b2z].
    - by rewrite (proj2 (Z.eqb_neq cur 0)) by auto.
    - by rewrite (proj2 (Z.ltb_ge 4 _)) by lia. }
  destruct (dec_cases b Hb) as [[H E]|[[H E]|[H E]]]; rewrite E; simpl app; unfold is_byte in Hb.
  - rewrite K by (done || lia). f_equal. lia.
  - rewrite K by (done || (Z.div_mod_to_equations; lia)).
    rewrite K by (done || (Z.div_mod_to_equations; lia)). f_equal. Z.div_mod_to_equations. lia.
  - rewrite K by (done || (Z.div_mod_to_equations; lia)).
    rewrite K by (done || (Z.div_mod_to_equations; lia)).
    rewrite K by (done || (Z.div_mod_to_equations; lia)). f_equal. Z.div_mod_to_equations. lia.
Qed.

(** ... and the dot behind it. *)
Lemma run4_dot l done b :
  (length done < 3)%nat -> run4 (46 :: l) done b true = run4 l (done ++ [b]) 0 false.
Proof.
  intros Hd. simpl. unfold step4, octets. change (48 <=? 46) with false. cbn [andb Z.b2z].
  by rewrite (proj2 (Z.eqb_neq _ 4)) by lia.
Qed.

Lemma parse4_dotted b : length b = 4%nat -> Forall is_byte b -> parse4 (dotted b) = Some b.
Proof.
  intros Hl HF. destruct b as [|a [|b [|c [|d [|]]]]]; try done. fcons.
  unfold parse4, dotted. simpl map. rewrite !joined_cons by done. simpl joined.
  rewrite <- (app_nil_r (dec d)).
  do 3 (rewrite run4_octet by (done || simpl; lia); rewrite run4_dot by (simpl; lia)).
  by rewrite run4_octet by (done || simpl; lia).
Qed.

(** Conversely, what has been read so far is known from the state. *)
Definition so_far (done : list Z) (cur : Z) (saw : bool) : list Z :=
  concat (map (fun b => dec b ++ [46]) done) ++ (if saw then dec cur else []).

Lemma so_far_dotted done cur : so_far done cur true = dotted (done ++ [cur]).
Proof.
  unfold so_far, dotted. induction done as [|b done IH]; [done|].
  rewrite <- app_comm_cons. simpl map. rewrite joined_cons by (by destruct done).
  simpl concat. rewrite <- !app_assoc in *. simpl. by rewrite IH.
Qed.

Lemma run4_sound l done cur saw b :
  Forall is_byte done -> is_byte cur -> (saw = false -> cur = 0) -> (length done < 4)%nat ->
  run4 l done cur saw = Some b ->
  so_far done cur saw ++ l = dotted b /\ length b = 4%nat /\ Forall is_byte b.
Proof.
  revert done cur saw. induction l as [|c l IH]; intros done cur saw HF Hc Hs Hlen H; simpl in H; unfold step4, octets in H.
  - destruct (Z.ltb_spec (Z.of_nat (length done) + Z.b2z saw) 4); [done|]. simplify_eq.
    destruct saw; simpl in *; [|lia].
    rewrite app_nil_r, so_far_dotted. split; [done|]. rewrite length_app. simpl. split; [lia|].
    apply Forall_app. by split; [|constructor].
  - destruct ((48 <=? c) && (c <=? 57)) eqn:Ed.
    + destruct (saw && (cur =? 0)) eqn:Ez; [done|].
      destruct (Z.ltb_spec 255 (cur * 10 + (c - 48))); [done|].
      destruct (negb saw && (4 <? Z.of_nat (length done) + Z.b2z saw + 1)); [done|].
      apply IH in H as (E & ? & ?); try done; [|zlia]. split; [|done]. rewrite <- E. unfold so_far.
      rewrite <- !app_assoc. f_equal. replace c with (48 + (c - 48)) by lia.
      change (48 + (c - 48) :: l) with ([48 + (c - 48)] ++ l). replace (48 + (c - 48) - 48) with (c - 48) by lia.
      destruct saw; simpl in Ez.
      * rewrite app_assoc. f_equal. apply dec_snoc; zlia.
      * rewrite (Hs eq_refl). replace (0 * 10 + (c - 48)) with (c - 48) by lia. by rewrite dec_digit by lia.
    + destruct ((c =? 46) && saw) eqn:Edot; [|done]. apply andb_prop in Edot as [Edot ->].
      apply Z.eqb_eq in Edot as ->. cbn [Z.b2z] in H.
      destruct (Z.eqb_spec (Z.of_nat (length done) + 1) 4); [done|].
      apply IH in H as (E & ? & ?); try done.
      * split; [|done]. rewrite <- E. unfold so_far. rewrite map_app, concat_app. simpl.
        by rewrite !app_nil_r, <- !app_assoc.
      * apply Forall_app. by split; [|constructor].
      * rewrite length_app. simpl. lia.
Qed.

(** [parse4] accepts the dotted quads and nothing else. *)
Lemma parse4_spec l b : parse4 l = Some b <-> l = dotted b /\ length b = 4%nat /\ Forall is_byte b.
Proof.
  split.
  - intros H. apply run4_sound in H as (E & ? & ?); [|done..|simpl; lia]. by rewrite <- E.
  - intros (-> & ? & ?). by apply parse4_dotted.
Qed.

(** ** Groups *)

(** The value of a hexadecimal digit in lower case: its place in [xdigits]. *)
Definition xdigit (c : Z) : option Z := Z.of_nat <$> find_byte c (bytes "0123456789abcdef").

Definition lower (c : Z) : Z := if (65 <=? c) && (c <=? 90) then c + 32 else c.

Definition bytes16 (v : Z) : list Z := [v / 256; v mod 256].

(** What [inet_pton6] has made of a string: the bytes stored, where [::] was
    seen among them, the value of the current group if it has digits, and the
    string from its beginning. *)
Record st6 := mkSt6 { out6 : list Z; colon6 : option nat; val6 : Z; saw6 : bool; tok6 : list Z }.

Definition room (st : st6) (n : Z) : bool := Z.of_nat (length (out6 st)) + n <=? 16.

Definition finish6 (st : st6) : option (list Z) :=
  if saw6 st && negb (room st 2) then None
  else
    let out := out6 st ++ (if saw6 st then bytes16 (val6 st) else []) in
    match colon6 st with
    | Some k =>
        if (length out =? 16)%nat then None
        else Some (take k out ++ replicate (16 - length out) 0 ++ drop k out)
    | None => if (length out =? 16)%nat then Some out else None
    end.

(** A character goes on, ends the string (a dotted quad) or spoils it; [l] is
    what follows it. *)
Inductive res6 := Go (st : st6) | Fin (st : st6) | Bad.

Definition step6 (c : Z) (l : list Z) (st : st6) : res6 :=
  let ch := lower c in
  match xdigit ch with
  | Some d =>
      let val := val6 st * 16 + d in
      if 0xffff <? val then Bad else Go (mkSt6 (out6 st) (colon6 st) val true (tok6 st))
  | None =>
      if ch =? 58 then
        if negb (saw6 st) then
          match colon6 st with
          | Some _ => Bad
          | None => Go (mkSt6 (out6 st) (Some (length (out6 st))) (val6 st) false l)
          end
        else if bool_decide (l = []) then Bad
        else if negb (room st 2) then Bad
        else Go (mkSt6 (out6 st ++ bytes16 (val6 st)) (colon6 st) 0 false l)
      else if (ch =? 46) && room st 4 then
        match parse4 (tok6 st) with
        | Some b => Fin (mkSt6 (out6 st ++ b) (colon6 st) (val6 st) false (tok6 st))
        | None => Bad
        end
      else Bad
  end.

Fixpoint run6 (l : list Z) (st : st6) : option (list Z) :=
  match l with
  | [] => finish6 st
  | c :: l =>
      match step6 c l st with Go st => run6 l st | Fin st => finish6 st | Bad => None end
  end.

Definition start6 (l : list Z) : st6 := mkSt6 [] None 0 false l.

Definition parse6 (l : list Z) : option (list Z) :=
  match l with
  | c :: l' =>
      if c =? 58 then
        match l' with
        | c' :: _ => if c' =? 58 then run6 l' (start6 l') else None
        | [] => None
        end
      else run6 l (start6 l)
  | [] => run6 [] (start6 [])
  end.

(** *** Writing *)

(** [n] groups from the [b]th on are zero. *)
Definition zero_run (ws : list Z) (b n : nat) : Prop :=
  forall i, (b <= i < b + n)%nat -> ws !! i = Some 0.

(** The longest run of at least two zero groups, and the first such one. *)
Definition longest (ws : list Z) (o : option (nat * nat)) : Prop :=
  match o with
  | Some (b, n) =>
      (2 <= n)%nat /\ zero_run ws b n /\
      forall j k, (2 <= k)%nat -> zero_run ws j k -> (k < n \/ (k = n /\ b <= j))%nat
  | None => forall j k, (2 <= k)%nat -> ~ zero_run ws j k
  end.

Definition show_groups (ws : list Z) : list Z := joined 58 (map hex ws).

(** The groups around the run, with [::] for it. *)
Definition shortened (ws : list Z) (b n : nat) : list Z :=
  show_groups (take b ws) ++ [58; 58] ++ show_groups (drop (b + n) ws).

(** IPv4 addresses inside IPv6 ones: [::a.b.c.d] and [::ffff:a.b.c.d]. *)
Definition with_v4 (ws : list Z) (o : option (nat * nat)) : bool :=
  match o with
  | Some (O, n) => (n =? 6)%nat || ((n =? 5)%nat && bool_decide (ws !! 5%nat = Some 0xffff))
  | _ => false
  end.

Definition text6 (ws : list Z) (o : option (nat * nat)) : list Z :=
  match o with
  | None => show_groups ws
  | Some (b, n) =>
      if with_v4 ws o then
        [58; 58] ++ concat (map (fun w => hex w ++ [58]) (drop n (take 6 ws))) ++
        dotted (concat (map bytes16 (drop 6 ws)))
      else shortened ws b n
  end.

(** *** Reading what was written *)

Lemma digit_char_cases d : 0 <= d < 16 ->
  xdigit (digit_char d) = Some d /\ lower (digit_char d) = digit_char d /\ digit_char d <> 58.
Proof.
  intros Hd. pose proof (forall_range (fun d => bool_decide (xdigit (digit_char d) = Some d) &&
    (lower (digit_char d) =? digit_char d) && negb (digit_char d =? 58)) 0 16 ltac:(by vm_compute) d Hd) as H.
  apply andb_prop in H as [[H1 H2]%andb_prop H3]. apply bool_decide_eq_true in H1.
  apply Z.eqb_eq in H2. apply negb_true_iff, Z.eqb_neq in H3. done.
Qed.

Lemma shown_hex w : 0 <= w < 65536 ->
  Forall (fun d => 0 <= d < 16) (shown 16 w) /\ shown 16 w <> [] /\
  foldl (fun v d => 16 * v + d) 0 (shown 16 w) = w.
Proof.
  intros Hw. destruct (numeral_shown 16 digit_char w) as (_ & HF & Hne & _); [lia|unfold is_u64; lia|by left|].
  split; [done|]. split; [done|]. unfold shown. destruct (Z.eqb_spec w 0) as [->|]; [done|].
  apply (digits_value_of 16 w); lia.
Qed.

Lemma run6_digits ds l st :
  Forall (fun d => 0 <= d < 16) ds -> 0 <= val6 st ->
  foldl (fun v d => 16 * v + d) (val6 st) ds <= 0xffff ->
  run6 (map digit_char ds ++ l) st =
  run6 l (mkSt6 (out6 st) (colon6 st) (foldl (fun v d => 16 * v + d) (val6 st) ds)
            (saw6 st || negb (bool_decide (ds = []))) (tok6 st)).
Proof.
  intros HF. revert st. induction HF as [|d ds Hd HF IH]; intros st Hv Hmax; simpl map; simpl app.
  - simpl. rewrite orb_false_r. by destruct st.
  - assert (Hmono : forall ds v, Forall (fun d => 0 <= d < 16) ds -> 0 <= v ->
      v <= foldl (fun v d => 16 * v + d) v ds).
    { clear. intros ds. induction ds as [|d ds IH]; intros v HF Hv; simpl; [lia|]. fcons.
      specialize (IH (16 * v + d) H0). lia. }
    destruct (digit_char_cases d Hd) as (E1 & E2 & _). simpl. unfold step6. rewrite E2, E1.
    pose proof (Hmono ds (16 * val6 st + d) HF ltac:(lia)) as Hm. simpl in Hmax.
    rewrite (proj2 (Z.ltb_ge _ _)) by lia. rewrite IH; simpl; [|lia|by replace (val6 st * 16 + d) with (16 * val6 st + d) by lia].
    rewrite orb_true_r. by replace (val6 st * 16 + d) with (16 * val6 st + d) by lia.
Qed.

Lemma run6_hex w l out c tok :
  0 <= w < 65536 -> run6 (hex w ++ l) (mkSt6 out c 0 false tok) = run6 l (mkSt6 out c w true tok).
Proof.
  intros Hw. destruct (shown_hex w Hw) as (HF & Hne & Hv). unfold hex.
  rewrite run6_digits by (simpl; (done || lia)). simpl. rewrite Hv. by rewrite bool_decide_false.
Qed.

(** The colon behind a group. *)
Lemma run6_colon w l out c tok :
  l <> [] -> (length out <= 14)%nat ->
  run6 (58 :: l) (mkSt6 out c w true tok) = run6 l (mkSt6 (out ++ bytes16 w) c 0 false l).
Proof.
  intros Hl Ho. simpl. unfold step6. change (xdigit (lower 58)) with (None (A := Z)).
  change (lower 58 =? 58) with true. cbv iota. simpl negb. rewrite bool_decide_false by done.
  unfold room. simpl. by rewrite (proj2 (Z.leb_le _ 16)) by lia.
Qed.

Lemma run6_group w l out c tok :
  0 <= w < 65536 -> l <> [] -> (length out <= 14)%nat ->
  run6 (hex w ++ 58 :: l) (mkSt6 out c 0 false tok) = run6 l (mkSt6 (out ++ bytes16 w) c 0 false l).
Proof. intros Hw Hl Ho. by rewrite run6_hex, run6_colon. Qed.

(** [::] *)
Lemma run6_double l out tok :
  run6 (58 :: l) (mkSt6 out None 0 false tok) = run6 l (mkSt6 out (Some (length out)) 0 false l).
Proof. done. Qed.

Definition is_u16 (w : Z) : Prop := 0 <= w < 65536.
Definition bytes_of (ws : list Z) : list Z := concat (map bytes16 ws).

Lemma bytes_of_app ws1 ws2 : bytes_of (ws1 ++ ws2) = bytes_of ws1 ++ bytes_of ws2.
Proof. unfold bytes_of. by rewrite map_app, concat_app. Qed.
Lemma bytes_of_length ws : length (bytes_of ws) = (2 * length ws)%nat.
Proof. induction ws as [|w ws IH]; [done|]. simpl. unfold bytes_of in IH. rewrite IH. lia. Qed.
Lemma bytes_of_bytes ws : Forall is_u16 ws -> Forall is_byte (bytes_of ws).
Proof.
  intros HF. unfold bytes_of. induction HF as [|w ws Hw HF IH]; [constructor|].
  unfold is_u16 in Hw. simpl. repeat constructor; try done; Z.div_mod_to_equations; lia.
Qed.

Lemma hex_cons w : 0 <= w < 65536 -> exists d ds, hex w = digit_char d :: ds /\ 0 <= d < 16.
Proof.
  intros Hw. destruct (shown_hex w Hw) as (HF & Hne & _). unfold hex.
  destruct (shown 16 w) as [|d ds]; [done|]. fcons. by exists d, (map digit_char ds).
Qed.

Lemma show_groups_ne ws : Forall is_u16 ws -> ws <> [] -> show_groups ws <> [].
Proof.
  intros HF Hne. unfold show_groups. destruct ws as [|w ws]; [done|]. fcons.
  destruct (hex_cons w ltac:(done)) as (d & ds & E & _). simpl map. rewrite E. by destruct ws.
Qed.

(** Groups are read up to the last one, which may go on. *)
Lemma run6_groups ws w l out c tok :
  Forall is_u16 ws -> is_u16 w -> (length out + 2 * length ws <= 14)%nat ->
  exists tok', run6 (show_groups (ws ++ [w]) ++ l) (mkSt6 out c 0 false tok) =
    run6 l (mkSt6 (out ++ bytes_of ws) c w true tok').
Proof.
  intros HF Hw. revert out tok. induction HF as [|x ws Hx HF IH]; intros out tok Hlen.
  - exists tok. simpl. unfold show_groups. simpl. rewrite app_nil_r. by apply run6_hex.
  - destruct (IH (out ++ bytes16 x) (show_groups (ws ++ [w]) ++ l)) as [tok' E].
    { rewrite length_app. simpl in *. lia. }
    exists tok'. rewrite <- app_comm_cons. unfold show_groups in *. simpl map.
    rewrite joined_cons by (rewrite map_app; by destruct (map hex ws)).
    rewrite <- app_assoc. simpl app. rewrite run6_group; [|done| |simpl in Hlen; lia].
    + rewrite E. simpl. by rewrite <- app_assoc.
    + assert (Hne := show_groups_ne (ws ++ [w])). unfold show_groups in Hne.
      intros [E' _]%app_eq_nil. revert E'. apply Hne; [|by destruct ws].
      apply Forall_app. by split; [|constructor].
Qed.

(** The string ends behind a group, or behind [::]. *)
Lemma finish6_group out c w tok :
  (length out <= 14)%nat -> 
  finish6 (mkSt6 out c w true tok) =
  finish6 (mkSt6 (out ++ bytes16 w) c 0 false tok).
Proof.
  intros Hl. unfold finish6, room. simpl. rewrite (proj2 (Z.leb_le _ 16)) by lia. simpl.
  by rewrite app_nil_r.
Qed.

Lemma finish6_full out v tok :
  length out = 16%nat -> finish6 (mkSt6 out None v false tok) = Some out.
Proof. intros Hl. unfold finish6. simpl. by rewrite app_nil_r, Hl. Qed.

Lemma finish6_run pre post v tok :
  (length pre + length post < 16)%nat ->
  finish6 (mkSt6 (pre ++ post) (Some (length pre)) v false tok) =
  Some (pre ++ replicate (16 - (length pre + length post)) 0 ++ post).
Proof.
  intros Hl. unfold finish6. simpl. rewrite app_nil_r, length_app.
  rewrite (proj2 (Nat.eqb_neq _ 16)) by lia. by rewrite take_app_length, drop_app_length.
Qed.

(** A dotted quad at the end. *)
Lemma run6_dotted b out c :
  length b = 4%nat -> Forall is_byte b -> (length out <= 12)%nat ->
  exists v, run6 (dotted b) (mkSt6 out c 0 false (dotted b)) =
    finish6 (mkSt6 (out ++ b) c v false (dotted b)).
Proof.
  intros Hl HF Ho. pose proof (parse4_dotted b Hl HF) as Hp.
  destruct b as [|b0 [|b1 [|b2 [|b3 [|]]]]]; try done. fcons.
  assert (E : exists l, dotted [b0; b1; b2; b3] = map digit_char (shown 10 b0) ++ 46 :: l) by (by eexists).
  destruct E as [l E]. set (tok := dotted _) in *. clearbody tok.
  eexists. rewrite E at 1. destruct (numeral_shown 10 digit_char b0) as (_ & HF & _ & _); [lia|unfold is_u64; zlia|by left|].
  assert (Hv : foldl (fun v d => 16 * v + d) 0 (shown 10 b0) <= 0xffff).
  { pose proof (forall_bytes (fun b => foldl (fun v d => 16 * v + d) 0 (shown 10 b) <=? 0xffff)
      ltac:(by vm_compute) b0 ltac:(done)) as H'. by apply Z.leb_le in H'. }
  rewrite run6_digits; simpl; [|eapply Forall_impl; [exact HF|simpl; lia]|lia|exact Hv].
  unfold step6. change (xdigit (lower 46)) with (None (A := Z)). change (lower 46 =? 58) with false.
  change (lower 46 =? 46) with true. unfold room. simpl. rewrite (proj2 (Z.leb_le _ 16)) by lia.
  rewrite Hp. reflexivity.
Qed.

(** The part behind [::], with the zero groups it stands for. *)
Lemma run6_tail pre post tok :
  Forall is_u16 post -> (length pre + 2 * length post <= 14)%nat ->
  run6 (show_groups post) (mkSt6 pre (Some (length pre)) 0 false tok) =
  Some (pre ++ replicate (16 - (length pre + 2 * length post)) 0 ++ bytes_of post).
Proof.
  intros HF Hlen. destruct post as [|w post _] using rev_ind.
  - simpl. rewrite <- (app_nil_r pre) at 1. rewrite finish6_run by (simpl; lia). done.
  - rewrite length_app in Hlen. simpl in Hlen. fcons. rewrite <- (app_nil_r (show_groups _)).
    destruct (run6_groups post w [] pre (Some (length pre)) tok) as [tok' ->]; [done|done|lia|].
    simpl run6. rewrite finish6_group by (rewrite length_app, bytes_of_length; lia).
    rewrite <- app_assoc, finish6_run by (rewrite length_app, bytes_of_length; simpl; lia).
    rewrite bytes_of_app. do 4 f_equal. rewrite !length_app, bytes_of_length. simpl. lia.
Qed.

(** The beginning, up to [::]. *)
Lemma parse6_head pre l :
  Forall is_u16 pre -> (length pre <= 7)%nat ->
  parse6 (show_groups pre ++ 58 :: 58 :: l) =
  run6 l (mkSt6 (bytes_of pre) (Some (length (bytes_of pre))) 0 false l).
Proof.
  intros HF Hlen. destruct pre as [|w pre _] using rev_ind; [done|].
  rewrite length_app in Hlen. simpl in Hlen. fcons.
  assert (E : parse6 (show_groups (pre ++ [w]) ++ 58 :: 58 :: l) =
    run6 (show_groups (pre ++ [w]) ++ 58 :: 58 :: l) (start6 (show_groups (pre ++ [w]) ++ 58 :: 58 :: l))).
  { assert (Hx : exists x pre', pre ++ [w] = x :: pre' /\ is_u16 x).
    { destruct pre as [|x pre']; [by exists w, []|]. fcons. by exists x, (pre' ++ [w]). }
    destruct Hx as (x & pre' & -> & Hx). destruct (hex_cons x Hx) as (d & ds & Ed & Hd).
    unfold show_groups. simpl map. destruct (digit_char_cases d Hd) as (_ & _ & Hne).
    destruct pre' as [|y pre']; simpl; rewrite Ed; simpl; by rewrite (proj2 (Z.eqb_neq _ 58)). }
  rewrite E. destruct (run6_groups pre w (58 :: 58 :: l) [] None
    (show_groups (pre ++ [w]) ++ 58 :: 58 :: l)) as [tok' E']; [done|done|simpl; lia|].
  unfold start6. rewrite E'. simpl app. rewrite bytes_of_app.
  rewrite run6_colon by (done || rewrite bytes_of_length; lia). by rewrite run6_double.
Qed.

Lemma zero_run_split ws b n :
  zero_run ws b n -> (b + n <= length ws)%nat -> ws = take b ws ++ replicate n 0 ++ drop (b + n) ws.
Proof.
  intros Hz Hl. rewrite <- (take_drop b ws) at 1. f_equal.
  rewrite <- (take_drop n (drop b ws)) at 1. rewrite drop_drop. f_equal.
  apply list_eq. intros i. destruct (decide (i < n)%nat).
  - rewrite lookup_take, lookup_drop by lia. rewrite lookup_replicate_2 by lia.
    case_decide; [|lia]. apply Hz. lia.
  - rewrite !lookup_ge_None_2; [done|rewrite length_replicate; lia|rewrite length_take; lia].
Qed.

Lemma bytes_of_zeros n : bytes_of (replicate n 0) = replicate (2 * n) 0.
Proof.
  induction n as [|n IH]; [done|]. replace (2 * S n)%nat with (S (S (2 * n))) by lia. simpl replicate.
  change (bytes_of (0 :: replicate n 0)) with (0 :: 0 :: bytes_of (replicate n 0)). by rewrite IH.
Qed.

Lemma Forall_take_drop {A} (P : A -> Prop) n l : Forall P l -> Forall P (take n l) /\ Forall P (drop n l).
Proof. split; [by apply Forall_take|by apply Forall_drop]. Qed.

Lemma parse6_double l : parse6 ([58; 58] ++ l) = run6 l (mkSt6 [] (Some 0%nat) 0 false l).
Proof. done. Qed.

Lemma dotted_ne b : length b = 4%nat -> Forall is_byte b -> dotted b <> [].
Proof.
  intros Hl HF. destruct b as [|b0 [|b1 b]]; try done. fcons. unfold dotted. simpl.
  by destruct (dec_cases b0 ltac:(done)) as [[_ ->]|[[_ ->]|[_ ->]]].
Qed.

(** The two forms with an IPv4 address. *)
Lemma parse6_v4 ws n :
  length ws = 8%nat -> Forall is_u16 ws -> zero_run ws 0 n -> with_v4 ws (Some (0%nat, n)) = true ->
  parse6 (text6 ws (Some (0%nat, n))) = Some (bytes_of ws).
Proof.
  intros Hl HF Hz Ev. unfold text6. rewrite Ev, parse6_double. simpl in Ev.
  assert (Hn : (n <= 8)%nat) by (destruct (Nat.eqb_spec n 6); [lia|]; destruct (Nat.eqb_spec n 5); [lia|done]).
  pose proof (zero_run_split ws 0 n Hz ltac:(lia)) as Ews. rewrite take_0, app_nil_l, Nat.add_0_l in Ews.
  set (v4 := bytes_of (drop 6 ws)). change (concat (map bytes16 (drop 6 ws))) with v4.
  assert (HB : Forall is_byte v4) by (apply bytes_of_bytes; by apply Forall_drop).
  assert (HL : length v4 = 4%nat) by (unfold v4; rewrite bytes_of_length, length_drop; lia).
  destruct (Nat.eqb_spec n 6) as [->|].
  - rewrite drop_ge by (rewrite length_take; lia). simpl.
    destruct (run6_dotted v4 [] (Some 0%nat)) as [v ->]; [done|done|simpl; lia|].
    rewrite (finish6_run [] v4) by (simpl; lia). rewrite Ews, bytes_of_app, HL. done.
  - destruct (Nat.eqb_spec n 5) as [->|]; [|done]. simpl in Ev. apply bool_decide_eq_true in Ev.
    assert (E5 : drop 5 (take 6 ws) = [0xffff]).
    { rewrite (take_S_r ws 5 0xffff Ev). rewrite drop_app_ge by (rewrite length_take; lia).
      rewrite length_take. by replace (5 - 5 `min` length ws)%nat with 0%nat by lia. }
    rewrite E5. simpl map. simpl concat. rewrite app_nil_r, <- app_assoc. simpl app.
    rewrite run6_group by (by apply dotted_ne) || (simpl; lia).
    destruct (run6_dotted v4 ([] ++ bytes16 65535) (Some 0%nat)) as [v ->]; [done|done|simpl; lia|].
    rewrite (finish6_run [] (bytes16 65535 ++ v4)) by (simpl; lia).
    rewrite Ews, (drop_S ws 65535 5 Ev), bytes_of_app. simpl. by rewrite HL.
Qed.

(** Reading inverts writing, whichever run of zeros the writer chose. *)
Lemma parse6_text6 ws o :
  length ws = 8%nat -> Forall is_u16 ws ->
  match o with Some (b, n) => (2 <= n)%nat /\ (b + n <= 8)%nat /\ zero_run ws b n | None => True end ->
  parse6 (text6 ws o) = Some (bytes_of ws).
Proof.
  intros Hl HF Ho. destruct o as [[b n]|].
  - destruct Ho as (Hn & Hbn & Hz). pose proof (zero_run_split ws b n Hz ltac:(lia)) as Ews.
    destruct (with_v4 ws (Some (b, n))) eqn:Ev.
    { destruct b; [by apply parse6_v4|done]. }
    unfold text6. rewrite Ev.
    unfold shortened. destruct (Forall_take_drop is_u16 b ws HF) as [HF1 _].
    destruct (Forall_take_drop is_u16 (b + n) ws HF) as [_ HF2]. simpl app.
    rewrite parse6_head by (done || rewrite length_take; lia).
    rewrite run6_tail; [|done|rewrite bytes_of_length, length_take, length_drop; lia].
    rewrite Ews at 5. rewrite !bytes_of_app, bytes_of_zeros. do 4 f_equal.
    rewrite bytes_of_length, length_take, length_drop. lia.
  - destruct ws as [|w ws _] using rev_ind; [done|]. rewrite length_app in Hl. simpl in Hl. fcons.
    assert (E : parse6 (show_groups (ws ++ [w])) = run6 (show_groups (ws ++ [w])) (start6 (show_groups (ws ++ [w])))).
    { destruct ws as [|x ws]; [done|]. fcons. destruct (hex_cons x ltac:(done)) as (d & ds & Ed & Hd).
      unfold show_groups. destruct (digit_char_cases d Hd) as (_ & _ & Hne). 
      destruct ws; simpl; rewrite Ed; simpl; by rewrite (proj2 (Z.eqb_neq _ 58)). }
    simpl text6. rewrite E, <- (app_nil_r (show_groups _)). unfold start6.
    destruct (run6_groups ws w [] [] None (show_groups (ws ++ [w]) ++ [])) as [tok' ->]; [done|done|simpl; lia|].
    simpl. rewrite finish6_group, finish6_full; rewrite ?length_app, ?bytes_of_length; simpl; try lia.
    by rewrite bytes_of_app.
Qed.
