(* ===== verification/InetRead.v ===== *)
(** * Reading Internet addresses

    [inet_pton4] and [inet_pton6] compute [parse4] and [parse6] of the string
    they are given, and change nothing but their locals and, when they
    succeed, the destination. *)

From Stdlib Require Import String.
From S2P Require Import Prelude CMem Cells CType Words StrScan StrCopy StrAsm Stdio Streams Printf PrintfSpec.
From S2P Require Import Formatted Typed Inet InetSpec.

(** ** Regions of memory *)

(** [only P s s']: between [s] and [s'] nothing changed but bytes at
    addresses in [P]. *)
Record only (P : Z -> Prop) (s s' : state) : Prop := {
  only_mem a : ~ P a -> mem s' !! a = mem s !! a;
  only_kept : kept (mem s) (mem s');
  only_errno : errno s' = errno s;
  only_files : files s' = files s;
}.

#[export] Instance only_preorder P : PreOrder (only P).
Proof.
  split; [intros s; by split|]. intros s1 s2 s3 [A1 A2 A3 A4] [B1 B2 B3 B4].
  split; [|by etrans|congruence|congruence]. intros a Ha. by rewrite B1, A1.
Qed.

Definition area (p n : Z) (a : Z) : Prop := p <= a < p + n.

Lemma only_weaken (P Q : Z -> Prop) s s' : (forall a, P a -> Q a) -> only P s s' -> only Q s s'.
Proof. intros H [A1 A2 A3 A4]. split; try done. intros a Ha. apply A1. auto. Qed.

Lemma only_wrote d l s :
  Forall is_byte l -> mapped (mem s) d (Z.of_nat (length l)) ->
  only (area d (Z.of_nat (length l))) s (wrote s d l).
Proof.
  intros Hl Hm. split; try done; [|by apply kept_write]. intros a Ha. by apply write_bytes_outside.
Qed.

(** What lies outside the region stays. *)
Definition clear_of (P : Z -> Prop) (p n : Z) : Prop := forall a, area p n a -> ~ P a.

Section Only.
Context {P : Z -> Prop} {s s' : state} (H : only P s s').

Lemma only_bytes p l : clear_of P p (Z.of_nat (length l)) -> bytes_at (mem s) p l -> bytes_at (mem s') p l.
Proof. intros Hc Hb. eapply bytes_at_same; [done|]. intros a Ha. apply H, Hc. exact Ha. Qed.

Lemma only_cstr p l : clear_of P p (Z.of_nat (length l) + 1) -> cstr (mem s) p l -> cstr (mem s') p l.
Proof. intros Hc Hs. eapply cstr_same; [done|]. intros a Ha. apply H, Hc. unfold area. lia. Qed.

Lemma only_mapped p n : mapped (mem s) p n -> mapped (mem s') p n.
Proof. apply kept_mapped, H. Qed.

Lemma only_wf : mem_wf (mem s) -> mem_wf (mem s').
Proof. apply (only_kept _ _ _ H). Qed.

Lemma only_words p n : word_readable (mem s) p n -> word_readable (mem s') p n.
Proof. intros (A & B & C). split; [by apply only_wf|]. by split; apply only_mapped. Qed.
End Only.

Lemma clear_area d k p n : disj d k p n -> clear_of (area d k) p n.
Proof. unfold disj, clear_of, area. lia. Qed.

(** A region clear of [P] is apart from the regions in [P]. *)
Lemma clear_disj P d k p n :
  clear_of P p n -> (forall a, area d k a -> P a) -> 0 < k -> 0 < n -> disj d k p n.
Proof.
  intros Hc Hin Hk Hn. destruct (Z_le_dec (d + k) p); [by left|]. destruct (Z_le_dec (p + n) d); [by right|].
  exfalso. apply (Hc (Z.max p d)); [unfold area; lia|]. apply Hin. unfold area. lia.
Qed.

Lemma clear_sub P p n q k : clear_of P p n -> p <= q -> q + k <= p + n -> clear_of P q k.
Proof. intros H ?? a Ha. apply H. unfold area in *. lia. Qed.

(** One byte stored. *)
Lemma store8_only d c s :
  is_byte c -> is_Some (mem s !! d) ->
  store8 d c s = Ok tt (wrote s d [c]) /\ only (area d 1) s (wrote s d [c]).
Proof.
  intros Hc Hd. split; [by apply store8_wrote|]. apply (only_wrote d [c]); [by apply Forall_singleton|].
  intros a Ha. simpl in Ha. by replace a with d by lia.
Qed.

(** ** [inet_pton4] *)

Section Pton4.
Context (tmp4 : Z).

(** The locals of the loop, when [done] and [cur] are in [tmp]. *)
Record in_tmp4 (s : state) (src : Z) (l done : list Z) (cur : Z) : Prop := {
  t4_src : cstr (mem s) src l;
  t4_tmp : bytes_at (mem s) tmp4 (done ++ [cur]);
  t4_room : mapped (mem s) tmp4 4;
  t4_disj : disj tmp4 4 src (Z.of_nat (length l) + 1);
  t4_done : (length done < 4)%nat;
}.

Lemma t4_load s src l done cur : in_tmp4 s src l done cur -> load8 (tmp4 + Z.of_nat (length done)) s = Ok cur s.
Proof. intros H. apply load8_ok. by apply (t4_tmp _ _ _ _ _) in H as [_ [? _]]%bytes_at_app. Qed.

(** A digit: the current octet changes. *)
Lemma t4_digit s src c l done cur v :
  in_tmp4 s src (c :: l) done cur -> is_byte v ->
  store8 (tmp4 + Z.of_nat (length done)) v s = Ok tt (wrote s (tmp4 + Z.of_nat (length done)) [v]) /\
  in_tmp4 (wrote s (tmp4 + Z.of_nat (length done)) [v]) (src + 1) l done v /\
  only (area tmp4 4) s (wrote s (tmp4 + Z.of_nat (length done)) [v]).
Proof.
  intros [A B C D E] Hv. destruct (store8_only (tmp4 + Z.of_nat (length done)) v s) as [HS HO]; [done|apply C; lia|].
  split; [done|]. split; [|eapply only_weaken; [|exact HO]; unfold area; lia].
  simpl in D. unfold disj in D. apply cstr_cons in A as (_ & _ & A). split; try done.
  - eapply (only_cstr HO); [|done]. apply clear_area. unfold disj. lia.
  - apply bytes_at_app in B as [B _]. apply bytes_at_app. split; [|by apply (write_bytes_at _ _ [v])].
    apply write_bytes_frame; [done|]. unfold disj. lia.
  - by apply (only_mapped HO).
  - unfold disj. lia.
Qed.

(** A dot: the next octet begins. *)
Lemma t4_dot s src c l done cur :
  in_tmp4 s src (c :: l) done cur -> (length done < 3)%nat ->
  let s' := wrote s (tmp4 + Z.of_nat (length done) + 1) [0] in
  store8 (tmp4 + Z.of_nat (length done) + 1) 0 s = Ok tt s' /\
  in_tmp4 s' (src + 1) l (done ++ [cur]) 0 /\ only (area tmp4 4) s s'.
Proof.
  intros [A B C D E] Hd s'.
  destruct (store8_only (tmp4 + Z.of_nat (length done) + 1) 0 s) as [HS HO]; [zlia|apply C; lia|].
  split; [done|]. split; [|eapply only_weaken; [|exact HO]; unfold area; lia].
  simpl in D. unfold disj in D. apply cstr_cons in A as (_ & _ & A). split.
  - eapply (only_cstr HO); [|done]. apply clear_area. unfold disj. lia.
  - apply bytes_at_app. split.
    + apply write_bytes_frame; [done|]. rewrite length_app. unfold disj. simpl. lia.
    + rewrite length_app. simpl length. replace (tmp4 + Z.of_nat (length done + 1))
        with (tmp4 + Z.of_nat (length done) + 1) by lia. by apply (write_bytes_at _ _ [0]).
  - by apply (only_mapped HO).
  - unfold disj. lia.
  - rewrite length_app. simpl. lia.
Qed.

Definition pton4_result (r : option Z) (s : state) (o : option (list Z)) : Prop :=
  match o with
  | Some b => r = Some 4 /\ bytes_at (mem s) tmp4 b
  | None => match r with Some n => n < 4 | None => True end
  end.

Definition pton4_at (src : Z) (done : list Z) (saw : bool) : Z * Z * bool * Z :=
  (src, tmp4 + Z.of_nat (length done), saw, octets done saw).

(** One turn of the loop is one step of [run4]. *)
Lemma pton4_step s src c l done cur saw :
  in_tmp4 s src (c :: l) done cur -> is_byte cur ->
  match step4 c done cur saw with
  | None => pton4_body (pton4_at src done saw) s = Ok (inr None) s
  | Some (done', cur', saw') =>
      exists s1, pton4_body (pton4_at src done saw) s = Ok (inl (pton4_at (src + 1) done' saw')) s1 /\
        in_tmp4 s1 (src + 1) l done' cur' /\ only (area tmp4 4) s s1 /\ is_byte cur'
  end.
Proof.
  intros Ht Hcur. pose proof (t4_done _ _ _ _ _ Ht) as Hd. pose proof (t4_load _ _ _ _ _ Ht) as HL.
  destruct (cstr_cons _ _ _ _ (t4_src _ _ _ _ _ Ht)) as (Hc & Hch & _).
  unfold step4, pton4_body, pton4_at. cbv beta iota. erewrite bind_ok by by apply load8_ok. cbv zeta.
  rewrite (proj2 (Z.eqb_neq c 0)) by zlia.
  destruct ((48 <=? c) && (c <=? 57)) eqn:Ed.
  - erewrite bind_ok by exact HL. cbv zeta beta. assert (48 <= c <= 57) by lia.
    rewrite u32_id by zlia. destruct (saw && (cur =? 0)); [done|].
    destruct (Z.ltb_spec 255 (cur * 10 + (c - 48))); [done|].
    destruct (t4_digit s src c l done cur (cur * 10 + (c - 48)) Ht) as (HS & Ht' & Ho); [zlia|].
    unfold octets in *. destruct saw; cbn [negb andb Z.b2z].
    + eexists. erewrite bind_ok by exact HS. split_and!; try done; zlia.
    + rewrite (proj2 (Z.ltb_ge 4 _)) by lia.
      eexists. erewrite bind_ok by exact HS.
      split; [unfold again, ret; do 3 f_equal; simpl; lia|]. split_and!; try done; zlia.
  - destruct ((c =? 46) && saw) eqn:Edot; [|done]. apply andb_prop in Edot as [_ ->]. unfold octets. cbn [Z.b2z].
    destruct (Z.eqb_spec (Z.of_nat (length done) + 1) 4); [done|].
    destruct (t4_dot s src c l done cur Ht) as (HS & Ht' & Ho); [lia|].
    eexists. erewrite bind_ok by exact HS. split_and!; try done; try zlia.
    unfold again, ret. rewrite length_app. simpl. rewrite Nat2Z.inj_add, Z.add_0_r, Z.add_assoc. done.
Qed.

Lemma pton4_loop l done cur saw src s :
  in_tmp4 s src l done cur -> is_byte cur ->
  exists r s', lrun pton4_body (Z.of_nat (length l) + 1) (pton4_at src done saw) s r s' /\
    only (area tmp4 4) s s' /\ pton4_result r s' (run4 l done cur saw).
Proof.
  revert done cur saw src s. induction l as [|c l IH]; intros done cur saw src s Ht Hcur;
    pose proof (t4_done _ _ _ _ _ Ht) as Hd.
  - exists (Some (octets done saw)), s. split; [|split; [done|]].
    + apply lrun_done; [|simpl; lia]. unfold pton4_body, pton4_at. cbv beta iota.
      by erewrite bind_ok by (apply load8_ok, cstr_nil; apply Ht).
    + simpl. destruct (Z.ltb_spec (octets done saw) 4); [done|]. unfold octets in *.
      split; [f_equal; destruct saw; simpl in *; lia|apply Ht].
  - pose proof (pton4_step s src c l done cur saw Ht Hcur) as Hstep. simpl run4.
    destruct (step4 c done cur saw) as [[[done' cur'] saw']|].
    + destruct Hstep as (s1 & Hb & Ht1 & Ho1 & Hc1).
      destruct (IH done' cur' saw' _ _ Ht1 Hc1) as (r & s2 & Hl & Ho2 & Hres).
      exists r, s2. split; [|split; [by etrans|done]].
      eapply lrun_next; [exact Hb|]. eapply lrun_weaken; [exact Hl|simpl; lia].
    + exists None, s. split; [apply lrun_done; [done|simpl; lia]|]. by split.
Qed.
End Pton4.

(** The destination of a conversion, apart from its locals and its source. *)
Record pton4_call (s : state) (tmp4 src dst : Z) (l : list Z) : Prop := {
  p4_src : cstr (mem s) src l;
  p4_tmp : 0 < tmp4 /\ mapped (mem s) tmp4 4 /\ disj tmp4 4 src (Z.of_nat (length l) + 1);
  p4_dst : 0 < dst /\ mapped (mem s) dst 4 /\ disj dst 4 tmp4 4;
}.

Section Pton4Call.
Context `{HM : SysMem} `{!SysMemLaws HM}.

(** [inet_pton4] computes [parse4]. *)
Lemma inet_pton4_ok s tmp4 src dst l :
  pton4_call s tmp4 src dst l ->
  exists s1, only (area tmp4 4) s s1 /\
    inet_pton4 tmp4 src dst s =
    match parse4 l with Some b => Ok 1 (wrote s1 dst b) | None => Ok 0 s1 end.
Proof.
  intros [A (B1 & B2 & B3) (C1 & C2 & C3)]. unfold inet_pton4.
  destruct (store8_only tmp4 0 s) as [HS HO]; [zlia|apply B2; lia|].
  erewrite bind_ok by exact HS. set (s0 := wrote s tmp4 [0]) in *.
  assert (HO' : only (area tmp4 4) s s0) by (eapply only_weaken; [|exact HO]; unfold area; lia).
  assert (Ht : in_tmp4 tmp4 s0 src l [] 0).
  { split; [|by apply (write_bytes_at _ _ [0])|by apply (only_mapped HO)|done|simpl; lia].
    eapply (only_cstr HO'); [by apply clear_area|done]. }
  destruct (pton4_loop tmp4 l [] 0 false src s0 Ht) as (r & s1 & Hl & Ho1 & Hres); [zlia|].
  exists s1. split; [by etrans|]. pose proof (cstr_len _ _ _ A). pose proof (cstr_pos _ _ _ A).
  unfold pton4_at in Hl. simpl length in Hl. rewrite Z.add_0_r in Hl.
  erewrite bind_ok; [|eapply loop_lrun; [exact Hl|zlia]]. fold (parse4 l) in Hres.
  destruct (parse4 l) as [b|] eqn:Ep; simpl in Hres.
  - destruct Hres as [-> Hb]. apply parse4_spec in Ep as (_ & Hlb & HFb). simpl.
    change NS_INADDRSZ with (Z.of_nat 4). rewrite <- Hlb.
    erewrite bind_ok; [reflexivity|]. apply memcpy_ok; [|done|done|by destruct b].
    split; [done|]. split; [done|]. rewrite Hlb. split; [|done].
    apply (only_mapped Ho1), (only_mapped HO'). done.
  - destruct r as [n|]; [|done]. by rewrite (proj2 (Z.ltb_lt n 4)).
Qed.
End Pton4Call.

(** ** [inet_pton6] *)

Lemma bytes_at_update m p l1 x l2 y :
  bytes_at m p (l1 ++ x :: l2) ->
  bytes_at (write_bytes m (p + Z.of_nat (length l1)) [y]) p (l1 ++ y :: l2).
Proof.
  intros H. apply bytes_at_app in H as [H1 [_ H2]]. apply bytes_at_app. split.
  - apply write_bytes_frame; [done|]. unfold disj. simpl. lia.
  - change (y :: l2) with ([y] ++ l2). apply bytes_at_app. split; [apply write_bytes_at|].
    apply write_bytes_frame; [done|]. unfold disj. simpl. lia.
Qed.

Lemma padded_out_app k u : (length u <= k)%nat -> padded k u = u ++ replicate (k - length u) 0.
Proof. intros H. unfold padded. by rewrite take_ge. Qed.

Definition xdigit_chars : list Z := bytes "0123456789abcdef".

Lemma xdigit_high x : 128 <= x < 256 -> xdigit x = None.
Proof.
  intros Hx. pose proof (forall_range (fun x => match xdigit x with None => true | Some _ => false end)
    128 128 eq_refl x ltac:(lia)) as H. cbv beta in H. by destruct (xdigit x).
Qed.

Section Pton6.
Context `{HM : SysMem} `{!SysMemLaws HM} (Hutil : has_utility = true).
Context (lc : option Locale) (tmp4 tmp6 xdig : Z).
(** The locale folds ASCII letters as the C locale does, and leaves other
    characters outside ASCII. *)
Context (Hlower : forall c, is_char c ->
  (c < 128 -> tolower lc c = lower c) /\ (128 <= c -> 128 <= tolower lc c < 256)).
Context (Hnul : tolower lc 0 = 0).

Definition locals6 (a : Z) : Prop := area tmp6 16 a \/ area tmp4 4 a.

Record env6 (s : state) : Prop := {
  e6_xdig : cstr (mem s) xdig xdigit_chars;
  e6_words : word_readable (mem s) xdig 17;
  e6_clear : clear_of locals6 xdig 17;
  e6_tmp6 : 0 < tmp6 /\ mapped (mem s) tmp6 16;
  e6_tmp4 : 0 < tmp4 /\ mapped (mem s) tmp4 4 /\ disj tmp6 16 tmp4 4;
}.

Lemma env6_only s s' : env6 s -> only locals6 s s' -> env6 s'.
Proof.
  intros [A B C (D1 & D2) (E1 & E2 & E3)] Ho.
  split; [by apply (only_cstr Ho)|by apply (only_words Ho)|done| |].
  - split; [done|]. by apply (only_mapped Ho).
  - split; [done|]. split; [by apply (only_mapped Ho)|done].
Qed.

(** What the loop has stored. *)
Record stored (s : state) (v : pton6_vars) (st : st6) : Prop := {
  sd_env : env6 s;
  sd_out : bytes_at (mem s) tmp6 (padded 16 (out6 st));
  sd_len : (length (out6 st) <= 16)%nat;
  sd_bytes : Forall is_byte (out6 st);
  sd_tp : v_tp v = tmp6 + Z.of_nat (length (out6 st));
  sd_colon : match colon6 st with
             | Some k => v_colonp v = tmp6 + Z.of_nat k /\ (k <= length (out6 st))%nat
             | None => v_colonp v = NULL
             end;
  sd_saw : v_saw_xdigit v = saw6 st;
  sd_val : v_val v = val6 st /\ 0 <= val6 st <= 0xffff;
}.

Record in_tmp6 (s : state) (v : pton6_vars) (l : list Z) (st : st6) : Prop := {
  i6_src : cstr (mem s) (v_src v) l;
  i6_src_clear : clear_of locals6 (v_src v) (Z.of_nat (length l) + 1);
  i6_tok : cstr (mem s) (v_curtok v) (tok6 st);
  i6_tok_clear : clear_of locals6 (v_curtok v) (Z.of_nat (length (tok6 st)) + 1);
  i6_stored : stored s v st;
}.

Lemma room_spec s v st n :
  stored s v st -> (tmp6 + 16 <? v_tp v + n) = negb (room st n) /\ (v_tp v + n <=? tmp6 + 16) = room st n.
Proof. intros Hs. rewrite (sd_tp _ _ _ Hs). unfold room. lia. Qed.

(** Bytes added to those stored. *)
Lemma append6 s out b :
  bytes_at (mem s) tmp6 (padded 16 out) -> (length out + length b <= 16)%nat ->
  bytes_at (mem (wrote s (tmp6 + Z.of_nat (length out)) b)) tmp6 (padded 16 (out ++ b)).
Proof.
  intros H Hl. destruct b as [|x b]; [rewrite wrote_nil; by rewrite app_nil_r|].
  pose proof (padded_more (mem s) tmp6 16 out (x :: b) ltac:(simpl in Hl; lia) H) as H'.
  rewrite take_ge in H' by lia. exact H'.
Qed.

Lemma only_append6 s (out b : list Z) :
  env6 s -> Forall is_byte b -> (length out + length b <= 16)%nat ->
  only locals6 s (wrote s (tmp6 + Z.of_nat (length out)) b).
Proof.
  intros He Hb Hl. eapply only_weaken; [|apply only_wrote; [done|]].
  - intros a Ha. left. unfold area in *. lia.
  - eapply mapped_sub; [exact (proj2 (e6_tmp6 _ He))|lia|lia].
Qed.

Lemma put16_ok s (out : list Z) val :
  env6 s -> (length out + 2 <= 16)%nat -> 0 <= val <= 0xffff ->
  put16 (tmp6 + Z.of_nat (length out)) val s =
  Ok (tmp6 + Z.of_nat (length out) + 2) (wrote s (tmp6 + Z.of_nat (length out)) (bytes16 val)).
Proof.
  intros He Hl Hv. unfold put16. set (tp := tmp6 + Z.of_nat (length out)).
  assert (Hm : forall a, tp <= a < tp + 2 -> is_Some (mem s !! a)) by (intros; apply (proj2 (e6_tmp6 _ He)); lia).
  rewrite Z.shiftr_div_pow2 by lia. change (2 ^ 8) with 256.
  rewrite !land_255 by apply u8_range.
  assert (E : u8 (val / 256) = val / 256) by (apply u8_id; Z.div_mod_to_equations; lia). rewrite E.
  erewrite bind_ok by (apply store8_wrote; [Z.div_mod_to_equations; zlia|apply Hm; lia]).
  erewrite bind_ok by (apply store8_wrote; [apply u8_range|apply (mapped_write (mem s) tp [val / 256] tp 2 Hm); lia]).
  done.
Qed.

Lemma bytes16_bytes val : 0 <= val <= 0xffff -> Forall is_byte (bytes16 val).
Proof. intros. repeat constructor; Z.div_mod_to_equations; lia. Qed.

(** *** What follows the loop *)

Lemma shift_loop out k j s :
  env6 s -> Forall is_byte out -> (length out < 16)%nat -> (k + j <= length out)%nat ->
  bytes_at (mem s) tmp6
    (take (length out - j) out ++ replicate (16 - length out) 0 ++ drop (length out - j) out) ->
  exists s', lrun (shift_body (tmp6 + 16) (tmp6 + Z.of_nat k) (Z.of_nat (length out - k)))
      (Z.of_nat (length out - k - j) + 1) (Z.of_nat j + 1) s tt s' /\ only locals6 s s' /\
    bytes_at (mem s') tmp6 (take k out ++ replicate (16 - length out) 0 ++ drop k out).
Proof.
  intros He HF Hl. remember (length out - k - j)%nat as m eqn:Hm. revert j Hm s He.
  induction m as [|m IH]; intros j Hm s He Hk Hb.
  - exists s. replace (length out - j)%nat with k in Hb by lia. split; [|by split].
    apply lrun_done; [|lia]. unfold shift_body. by rewrite (proj2 (Z.leb_gt _ _)) by lia.
  - assert (Hx : exists x, out !! (length out - S j)%nat = Some x) by (apply lookup_lt_is_Some_2; lia).
    destruct Hx as [x Hx]. assert (is_byte x) by (by eapply Forall_lookup_1 in Hx).
    set (A := take (length out - S j) out). set (B := drop (length out - j) out) in *.
    assert (HA : length A = (length out - S j)%nat) by (unfold A; rewrite length_take; lia).
    assert (E : take (length out - j) out = A ++ [x]).
    { replace (length out - j)%nat with (S (length out - S j)) by lia. by apply take_S_r. }
    assert (E2 : drop (length out - S j) out = x :: B).
    { unfold B. replace (length out - j)%nat with (S (length out - S j)) by lia. by apply drop_S. }
    set (g := (15 - length out)%nat).
    replace (16 - length out)%nat with (S g) in * by lia.
    rewrite E, <- app_assoc in Hb. simpl in Hb.
    assert (Hload : load8 (tmp6 + Z.of_nat k + (Z.of_nat (length out - k) - (Z.of_nat j + 1))) s = Ok x s).
    { apply load8_ok. replace (tmp6 + _ + _) with (tmp6 + Z.of_nat (length A)) by lia.
      by apply bytes_at_app in Hb as [_ [? _]]. }
    assert (Hmap : mapped (mem s) tmp6 16) by apply (e6_tmp6 _ He).
    destruct (store8_only (tmp6 + 16 - (Z.of_nat j + 1)) x s) as [HS1 HO1]; [done|apply Hmap; lia|].
    set (s1 := wrote s (tmp6 + 16 - (Z.of_nat j + 1)) [x]) in *.
    assert (Hb1 : bytes_at (mem s1) tmp6 (A ++ x :: replicate g 0 ++ x :: B)).
    { replace (A ++ x :: 0 :: replicate g 0 ++ B) with ((A ++ x :: replicate g 0) ++ 0 :: B) in Hb.
      2:{ rewrite <- app_assoc. simpl. do 2 f_equal. change (0 :: replicate g 0 ++ B) with (replicate (S g) 0 ++ B).
          by rewrite replicate_S_end, <- app_assoc. }
      apply (bytes_at_update _ _ _ _ _ x) in Hb. rewrite <- app_assoc in Hb. simpl app in Hb.
      replace (tmp6 + Z.of_nat (length (A ++ x :: replicate g 0))) with (tmp6 + 16 - (Z.of_nat j + 1)) in Hb; [done|].
      rewrite length_app. simpl. rewrite length_replicate. lia. }
    destruct (store8_only (tmp6 + Z.of_nat (length A)) 0 s1) as [HS2 HO2];
      [zlia|apply (only_mapped HO1 _ _ Hmap); lia|].
    set (s2 := wrote s1 (tmp6 + Z.of_nat (length A)) [0]) in *.
    apply (bytes_at_update _ _ _ _ _ 0) in Hb1.
    assert (Ho : only locals6 s s2).
    { etrans; [eapply only_weaken; [|exact HO1]|eapply only_weaken; [|exact HO2]];
        intros a Ha; left; unfold area in *; lia. }
    destruct (IH (S j) ltac:(lia) s2) as (s' & Hr & Hor & Hbr); [by eapply env6_only|lia| |].
    { rewrite E2. exact Hb1. }
    exists s'. split; [|split; [by etrans|done]].
    eapply lrun_next; [|eapply lrun_weaken; [exact Hr|lia]].
    unfold shift_body. rewrite (proj2 (Z.leb_le _ _)) by lia.
    erewrite bind_ok by exact Hload. erewrite bind_ok by exact HS1. erewrite bind_ok.
    2:{ replace (tmp6 + Z.of_nat k + (Z.of_nat (length out - k) - (Z.of_nat j + 1)))
          with (tmp6 + Z.of_nat (length A)) by lia. exact HS2. }
    unfold again, ret. do 2 f_equal. lia.
Qed.

(** The destination, apart from the locals. *)
Record dest6 (s : state) (dst : Z) : Prop := {
  d6_pos : 0 < dst;
  d6_map : mapped (mem s) dst 16;
  d6_disj : disj dst 16 tmp6 16;
}.

Lemma dest6_only s s' dst : dest6 s dst -> only locals6 s s' -> dest6 s' dst.
Proof. intros [A B C] Ho. split; try done. by apply (only_mapped Ho). Qed.

Lemma copy_out6 s dst b :
  env6 s -> dest6 s dst -> bytes_at (mem s) tmp6 b -> Forall is_byte b -> length b = 16%nat ->
  memcpy dst tmp6 NS_IN6ADDRSZ s = Ok dst (wrote s dst b).
Proof.
  intros He [A B C] Hb HF Hl. change NS_IN6ADDRSZ with (Z.of_nat 16). rewrite <- Hl.
  apply memcpy_ok; [|done|apply He|by destruct b].
  split; [done|]. split; [done|]. rewrite Hl. by split.
Qed.

(** A group in the making is stored. *)
Lemma store_group s v st src :
  stored s v st -> room st 2 = true ->
  let v' := mkVars src (v_tp v + 2) (v_colonp v) (v_curtok v) false 0 in
  let st' := mkSt6 (out6 st ++ bytes16 (val6 st)) (colon6 st) 0 false (tok6 st) in
  exists s1, put16 (v_tp v) (v_val v) s = Ok (v_tp v + 2) s1 /\ only locals6 s s1 /\ stored s1 v' st'.
Proof.
  intros Hs Hr v' st'. pose proof (sd_env _ _ _ Hs) as He. destruct (sd_val _ _ _ Hs) as [Ev Hv].
  unfold room in Hr. assert (Hl : (length (out6 st) + 2 <= 16)%nat) by lia.
  exists (wrote s (tmp6 + Z.of_nat (length (out6 st))) (bytes16 (val6 st))).
  assert (Ho := only_append6 s (out6 st) _ He (bytes16_bytes _ Hv) Hl).
  split; [by rewrite (sd_tp _ _ _ Hs), Ev, put16_ok|]. split; [done|]. split; simpl.
  - by eapply env6_only.
  - exact (append6 s (out6 st) (bytes16 (val6 st)) (sd_out _ _ _ Hs) Hl).
  - rewrite length_app. simpl. lia.
  - apply Forall_app. split; [apply Hs|by apply bytes16_bytes].
  - rewrite (sd_tp _ _ _ Hs), length_app. simpl. lia.
  - pose proof (sd_colon _ _ _ Hs) as Hc. destruct (colon6 st); [|done]. rewrite length_app. split; [apply Hc|lia].
  - done.
  - lia.
Qed.

(** The end of the function, when no group is in the making. *)
Definition finish6_code (dst tp colonp : Z) : M Z :=
  let* r :=
    if negb (colonp =? NULL) then
      if tp =? tmp6 + 16 then ret None
      else loop (shift_body (tmp6 + 16) colonp (tp - colonp)) 1 ;; ret (Some (tmp6 + 16))
    else ret (Some tp) in
  match r with
  | None => ret 0
  | Some tp =>
      if negb (tp =? tmp6 + 16) then ret 0 else memcpy dst tmp6 NS_IN6ADDRSZ ;; ret 1
  end.

Lemma finish6_code_ok s v st dst :
  stored s v st -> dest6 s dst -> saw6 st = false ->
  exists s1, only locals6 s s1 /\
    finish6_code dst (v_tp v) (v_colonp v) s =
    match finish6 st with Some b => Ok 1 (wrote s1 dst b) | None => Ok 0 s1 end.
Proof.
  intros Hs Hd Hsaw. unfold finish6_code, finish6. rewrite Hsaw. cbn [andb]. cbv iota. rewrite app_nil_r.
  pose proof (sd_env _ _ _ Hs) as He. pose proof (sd_colon _ _ _ Hs) as Hc. pose proof (sd_len _ _ _ Hs) as Hl.
  rewrite (sd_tp _ _ _ Hs). destruct (colon6 st) as [k|].
  - destruct Hc as [-> Hk]. rewrite (proj2 (Z.eqb_neq _ NULL)) by (pose proof (e6_tmp6 _ He); unfold NULL; lia).
    cbn [negb]. cbv iota. destruct (Nat.eqb_spec (length (out6 st)) 16) as [E|E].
    { exists s. split; [done|]. rewrite E. by rewrite (proj2 (Z.eqb_eq _ _)) by lia. }
    rewrite (proj2 (Z.eqb_neq _ _)) by lia.
    destruct (shift_loop (out6 st) k 0 s) as (s1 & Hr & Ho & Hb); [done|apply Hs|lia|lia| |].
    { rewrite Nat.sub_0_r, take_ge, drop_ge, app_nil_r by lia. rewrite <- padded_out_app by done. apply Hs. }
    exists s1. split; [done|]. erewrite bind_ok.
    2:{ erewrite bind_ok; [reflexivity|]. replace (tmp6 + Z.of_nat (length (out6 st)) - (tmp6 + Z.of_nat k))
          with (Z.of_nat (length (out6 st) - k)) by lia. eapply loop_lrun; [exact Hr|lia]. }
    cbv beta iota. rewrite Z.eqb_refl. cbn [negb]. cbv iota. erewrite bind_ok; [reflexivity|].
    apply copy_out6; [by eapply env6_only|by eapply dest6_only|done| |].
    + apply Forall_app. split; [apply Forall_take, Hs|]. apply Forall_app.
      split; [apply Forall_replicate; zlia|apply Forall_drop, Hs].
    + rewrite !length_app, length_take, length_replicate, length_drop. lia.
  - exists s. split; [done|]. rewrite Hc. change (negb (NULL =? NULL)) with false. cbv iota.
    unfold ret at 1. unfold bind at 1. destruct (Nat.eqb_spec (length (out6 st)) 16) as [E|E].
    + rewrite E, (proj2 (Z.eqb_eq _ _)) by lia. cbn [negb]. cbv iota. erewrite bind_ok; [reflexivity|].
      apply copy_out6; [done|done| |apply Hs|done]. rewrite <- (app_nil_r (out6 st)).
      replace [] with (replicate (16 - length (out6 st)) 0) by (by rewrite E). rewrite <- padded_out_app by done.
      apply Hs.
    + by rewrite (proj2 (Z.eqb_neq _ _)) by lia.
Qed.

Lemma pton6_finish_ok s v st dst :
  stored s v st -> dest6 s dst ->
  exists s1, only locals6 s s1 /\
    pton6_finish tmp6 (tmp6 + 16) dst v s =
    match finish6 st with Some b => Ok 1 (wrote s1 dst b) | None => Ok 0 s1 end.
Proof.
  intros Hs Hd. unfold pton6_finish. rewrite (sd_saw _ _ _ Hs).
  destruct (room_spec _ _ _ 2 Hs) as [Hroom _]. change NS_INT16SZ with 2. rewrite Hroom.
  destruct (saw6 st) eqn:Hsaw.
  - destruct (room st 2) eqn:Hr; cbn [negb]; cbv iota.
    + destruct (store_group s v st 0 Hs Hr) as (s1 & HP & Ho & Hs1).
      destruct (finish6_code_ok _ _ _ dst Hs1) as (s2 & Ho2 & HF); [by eapply dest6_only|done|].
      exists s2. split; [by etrans|]. erewrite bind_ok; [|erewrite bind_ok by exact HP; reflexivity].
      simpl in HF. unfold finish6_code in HF. cbv beta iota. rewrite HF.
      unfold finish6. rewrite Hsaw, Hr. simpl. by rewrite app_nil_r.
    + exists s. split; [done|]. unfold finish6. by rewrite Hsaw, Hr.
  - destruct (finish6_code_ok _ _ _ dst Hs Hd Hsaw) as (s1 & Ho & HF). exists s1. split; [done|].
    rewrite <- HF. reflexivity.
Qed.

(** *** The loop *)

(** What the loop sees of a character. *)
Lemma folded c :
  is_char c ->
  let ch := tolower lc c in
  is_char ch /\ xdigit ch = xdigit (lower c) /\ (ch =? 58) = (lower c =? 58) /\ (ch =? 46) = (lower c =? 46).
Proof.
  intros Hc ch. destruct (Hlower c Hc) as [H1 H2]. unfold is_char in *.
  destruct (Z_lt_dec c 128) as [L|L].
  - unfold ch. rewrite H1 by done. split; [|done].
    unfold lower. destruct ((65 <=? c) && (c <=? 90)) eqn:E; lia.
  - specialize (H2 ltac:(lia)). fold ch in H2.
    assert (El : lower c = c) by (unfold lower; destruct ((65 <=? c) && (c <=? 90)) eqn:E; lia).
    rewrite El, !xdigit_high by lia. split; [lia|]. split; [done|]. lia.
Qed.

Lemma strchr_xdig s ch :
  env6 s -> is_char ch ->
  strchr xdig ch s = Ok (match xdigit ch with Some d => xdig + d | None => NULL end) s /\
  match xdigit ch with Some d => 0 <= d < 16 | None => True end.
Proof.
  intros He Hc. rewrite (strchr_ok xdig xdigit_chars) by (apply He). rewrite u8_id by zlia.
  unfold xdigit. fold xdigit_chars. rewrite find_byte_app.
  destruct (find_byte ch xdigit_chars) as [i|] eqn:E; simpl.
  - split; [done|]. apply find_byte_Some in E as [E _]. apply lookup_lt_Some in E.
    change (length xdigit_chars) with 16%nat in E. lia.
  - rewrite (proj2 (Z.eqb_neq 0 ch)) by zlia. done.
Qed.

(** The next character. *)
Lemma advance s v c l st :
  in_tmp6 s v (c :: l) st ->
  mem s !! v_src v = Some c /\ is_char c /\ cstr (mem s) (v_src v + 1) l /\
  clear_of locals6 (v_src v + 1) (Z.of_nat (length l) + 1).
Proof.
  intros [A B _ _ _]. apply cstr_cons in A as (? & ? & ?). split_and!; try done.
  eapply clear_sub; [exact B|lia|simpl; lia].
Qed.

(** The variables of the next turn, when the string is not touched. *)
Lemma next_turn s s1 v c l st v1 st1 :
  in_tmp6 s v (c :: l) st -> only locals6 s s1 -> stored s1 v1 st1 -> v_src v1 = v_src v + 1 ->
  (v_curtok v1 = v_curtok v /\ tok6 st1 = tok6 st) \/ (v_curtok v1 = v_src v + 1 /\ tok6 st1 = l) ->
  in_tmp6 s1 v1 l st1.
Proof.
  intros H Ho Hs Esrc Htok. destruct (advance _ _ _ _ _ H) as (_ & _ & Hc & Hcl). destruct H as [A B C D E].
  split; [| | | |done]; rewrite ?Esrc; try done.
  - by apply (only_cstr Ho).
  - destruct Htok as [[-> ->]|[-> ->]]; by apply (only_cstr Ho).
  - by destruct Htok as [[-> ->]|[-> ->]].
Qed.

(** The cases of a turn: a digit... *)
Lemma turn_digit s v st src d :
  stored s v st -> 0 <= d < 16 ->
  let val := Z.lor (u32 (Z.shiftl (v_val v) 4)) d in
  val = val6 st * 16 + d /\
  (val <= 0xffff -> stored s (mkVars src (v_tp v) (v_colonp v) (v_curtok v) true val)
     (mkSt6 (out6 st) (colon6 st) (val6 st * 16 + d) true (tok6 st))).
Proof.
  intros [A B C D E F G [H1 H2]] Hd val.
  assert (Ev : val = val6 st * 16 + d).
  { unfold val. rewrite H1, u32_id.
    - apply (lor_shiftl (val6 st) d 4); [lia|done].
    - rewrite Z.shiftl_mul_pow2 by lia. change (2 ^ 4) with 16. lia. }
  split; [done|]. intros Hmax. split; simpl; try done. lia.
Qed.

(** ... and a dotted quad. *)
Lemma turn_quad s v st src b :
  stored s v st -> room st 4 = true -> length b = 4%nat -> Forall is_byte b ->
  stored (wrote s (v_tp v) b) (mkVars src (v_tp v + 4) (v_colonp v) (v_curtok v) false (v_val v))
    (mkSt6 (out6 st ++ b) (colon6 st) (val6 st) false (tok6 st)).
Proof.
  intros Hs Hr Hlb Hb. pose proof Hs as [A B C D E F G [H1 H2]]. unfold room in Hr.
  assert (Hl : (length (out6 st) + length b <= 16)%nat) by lia. rewrite E.
  split; cbn [out6 colon6 val6 saw6 v_tp v_colonp v_saw_xdigit v_val]; try done.
  - eapply env6_only; [done|]. by apply only_append6.
  - by apply append6.
  - rewrite length_app. lia.
  - by apply Forall_app.
  - rewrite length_app. lia.
  - destruct (colon6 st); [|done]. rewrite length_app. split; [apply F|lia].
Qed.

Definition body6 := pton6_body lc tmp4 xdig (tmp6 + 16).

(** The call of [inet_pton4] on the current token. *)
Lemma quad_call s v l st :
  in_tmp6 s v l st -> room st 4 = true ->
  exists s1, only (area tmp4 4) s s1 /\
    inet_pton4 tmp4 (v_curtok v) (v_tp v) s =
    match parse4 (tok6 st) with Some b => Ok 1 (wrote s1 (v_tp v) b) | None => Ok 0 s1 end.
Proof.
  intros [_ _ C D Hs] Hr. pose proof (sd_env _ _ _ Hs) as [_ _ _ (E1 & E2) (F1 & F2 & F3)].
  pose proof (sd_tp _ _ _ Hs) as Et. unfold room in Hr. unfold disj in F3.
  apply inet_pton4_ok. split; [done| |].
  - split; [done|]. split; [done|]. unfold disj.
    destruct (Z_le_dec (tmp4 + 4) (v_curtok v)); [by left|]. right.
    destruct (Z_le_dec (v_curtok v + (Z.of_nat (length (tok6 st)) + 1)) tmp4); [done|].
    exfalso. apply (D (Z.max tmp4 (v_curtok v))); [unfold area; lia|]. right. unfold area. lia.
  - split; [lia|]. split; [eapply mapped_sub; [exact E2|lia|lia]|]. unfold disj. lia.
Qed.

Section Turn.
Context (s : state) (src tp colonp curtok val c : Z) (saw : bool) (l : list Z) (st : st6).
Let v := mkVars src tp colonp curtok saw val.
Context (Hi : in_tmp6 s v (c :: l) st).
Let ch := tolower lc c.

(** A turn starts: the character is loaded and looked up. *)
Ltac turn :=
  let Hc := fresh in let Hch := fresh in let Hf := fresh in let Hstr := fresh in
  destruct (advance _ _ _ _ _ Hi) as (Hc & Hch & _); destruct (folded c Hch) as (Hf & <- & _);
  destruct (strchr_xdig s _ (sd_env _ _ _ (i6_stored _ _ _ _ Hi)) Hf) as [Hstr _];
  unfold body6, pton6_body, v; cbv beta iota; erewrite bind_ok by (apply load8_ok; exact Hc);
  cbv zeta; fold ch in Hstr, Hf; fold ch; rewrite (proj2 (Z.eqb_neq ch 0)) by zlia;
  erewrite bind_ok by exact Hstr.

Lemma turn_hex d :
  xdigit (lower c) = Some d ->
  body6 v s = (if 0xffff <? val6 st * 16 + d then leave None
               else again (mkVars (src + 1) tp colonp curtok true (val6 st * 16 + d))) s /\
  (val6 st * 16 + d <= 0xffff ->
   in_tmp6 s (mkVars (src + 1) tp colonp curtok true (val6 st * 16 + d)) l
     (mkSt6 (out6 st) (colon6 st) (val6 st * 16 + d) true (tok6 st))).
Proof.
  intros Ex. pose proof (i6_stored _ _ _ _ Hi) as Hs. pose proof (sd_env _ _ _ Hs) as He.
  assert (Hd : 0 <= d < 16).
  { destruct (advance _ _ _ _ _ Hi) as (_ & Hch & _). destruct (folded c Hch) as (Hf & E & _).
    destruct (strchr_xdig s _ He Hf) as [_ Hd]. by rewrite E, Ex in Hd. }
  destruct (turn_digit s v st (src + 1) d Hs Hd) as [Ev Hst]. cbn [v v_val v_tp v_colonp v_curtok] in *. split.
  - revert Ex. turn. intros ->. assert (0 < xdig) by (by eapply cstr_pos, (e6_xdig _ He)).
    rewrite (proj2 (Z.eqb_neq _ NULL)) by (unfold NULL; lia). cbn [negb]. cbv iota zeta.
    replace (xdig + d - xdig) with d by lia. by rewrite Ev.
  - intros Hmax. rewrite Ev in Hst. eapply next_turn; [exact Hi|done|by apply Hst|done|by left].
Qed.

Context (Ex : xdigit (lower c) = None).

Lemma turn_colon :
  ch = 58 ->
  body6 v s =
  (if negb saw then
     if negb (colonp =? NULL) then leave None else again (mkVars (src + 1) tp tp (src + 1) saw val)
   else if bool_decide (l = []) then leave None
   else if negb (room st 2) then leave None
   else let* tp := put16 tp val in again (mkVars (src + 1) tp colonp (src + 1) false 0)) s.
Proof.
  intros E58. pose proof (i6_stored _ _ _ _ Hi) as Hs. destruct (room_spec _ _ _ 2 Hs) as [R2 _].
  destruct (advance _ _ _ _ _ Hi) as (_ & _ & Hl & _). cbn [v v_src v_tp] in *.
  revert Ex. turn. intros ->. rewrite E58. change (58 =? 58) with true. cbn [negb]. cbv iota zeta.
  change (NULL =? NULL) with true. cbn [negb]. cbv iota. destruct saw; [|done]. cbn [negb]. cbv iota.
  change NS_INT16SZ with 2. rewrite R2. destruct l as [|x l'].
  - by erewrite bind_ok by (apply load8_ok; by apply cstr_nil).
  - apply cstr_cons in Hl as (Hx & Hxc & _). erewrite bind_ok by (apply load8_ok; exact Hx).
    by rewrite (proj2 (Z.eqb_neq x 0)) by zlia.
Qed.

Lemma turn_other :
  ch <> 58 ->
  body6 v s =
  (let* v4 := if (ch =? 46) && room st 4 then let* r := inet_pton4 tmp4 curtok tp in ret (0 <? r)
              else ret false in
   if v4 : bool then leave (Some (mkVars (src + 1) (tp + 4) colonp curtok false val)) else leave None) s.
Proof.
  intros E58. pose proof (i6_stored _ _ _ _ Hi) as Hs. destruct (room_spec _ _ _ 4 Hs) as [_ R4].
  cbn [v v_tp] in *. revert Ex. turn. intros ->. change (negb (NULL =? NULL)) with false. cbv iota.
  rewrite (proj2 (Z.eqb_neq ch 58)) by done. change NS_INADDRSZ with 4. by rewrite R4.
Qed.
End Turn.

(** One turn of the loop is one step of [run6]. *)
Definition turn_meets (s : state) (v : pton6_vars) (l : list Z) (r : res6) : Prop :=
  match r with
  | Bad => exists s1, only locals6 s s1 /\ body6 v s = Ok (inr None) s1
  | Fin st1 => exists s1 v1, only locals6 s s1 /\ body6 v s = Ok (inr (Some v1)) s1 /\ stored s1 v1 st1
  | Go st1 => exists s1 v1, only locals6 s s1 /\ body6 v s = Ok (inl v1) s1 /\ in_tmp6 s1 v1 l st1
  end.

Lemma meets_bad s v l : body6 v s = Ok (inr None) s -> turn_meets s v l Bad.
Proof. intros H. exists s. by split. Qed.

(** A colon. *)
Lemma meets_colon s v c l st :
  in_tmp6 s v (c :: l) st -> xdigit (lower c) = None -> tolower lc c = 58 ->
  turn_meets s v l
    (if negb (saw6 st) then
       match colon6 st with
       | Some _ => Bad
       | None => Go (mkSt6 (out6 st) (Some (length (out6 st))) (val6 st) false l)
       end
     else if bool_decide (l = []) then Bad
     else if negb (room st 2) then Bad
     else Go (mkSt6 (out6 st ++ bytes16 (val6 st)) (colon6 st) 0 false l)).
Proof.
  intros Hi Ex E. pose proof (i6_stored _ _ _ _ Hi) as Hs. pose proof (sd_saw _ _ _ Hs) as Esaw.
  pose proof (sd_colon _ _ _ Hs) as Hcol. destruct v as [src tp colonp curtok saw val].
  pose proof (turn_colon _ _ _ _ _ _ _ _ _ _ Hi Ex E) as HT. cbn [v_saw_xdigit v_colonp] in *.
  rewrite <- Esaw. revert HT. destruct saw; cbn [negb] in *.
  - destruct (bool_decide (l = [])); [by intros; apply meets_bad|].
    destruct (room st 2) eqn:Hr; cbn [negb] in *; [intros HT|by intros; apply meets_bad].
    destruct (store_group s _ st (src + 1) Hs Hr) as (s1 & HP & Ho & Hs1). cbn in HP, Hs1.
    erewrite bind_ok in HT by exact HP. eexists s1, _. split; [done|]. split; [exact HT|].
    eapply next_turn; [exact Hi|done| |done|by right]. destruct Hs1. by split.
  - intros HT. destruct (colon6 st) as [k|] eqn:Ecol.
    + apply meets_bad. rewrite HT. destruct Hcol as [-> _].
      by rewrite (proj2 (Z.eqb_neq _ NULL)) by (pose proof (e6_tmp6 _ (sd_env _ _ _ Hs)); unfold NULL; lia).
    + subst colonp. eexists s, _. split; [done|]. split; [exact HT|].
      eapply next_turn; [exact Hi|done| |done|by right].
      pose proof Hs as [A B C D F G H I]. by split; cbn in *.
Qed.

(** A dot, or a character that has no place here. *)
Lemma meets_other s v c l st :
  in_tmp6 s v (c :: l) st -> xdigit (lower c) = None -> tolower lc c <> 58 ->
  turn_meets s v l
    (if (tolower lc c =? 46) && room st 4 then
       match parse4 (tok6 st) with
       | Some b => Fin (mkSt6 (out6 st ++ b) (colon6 st) (val6 st) false (tok6 st))
       | None => Bad
       end
     else Bad).
Proof.
  intros Hi Ex E. pose proof (i6_stored _ _ _ _ Hi) as Hs. destruct v as [src tp colonp curtok saw val].
  pose proof (turn_other _ _ _ _ _ _ _ _ _ _ Hi Ex E) as HT. revert HT.
  destruct ((tolower lc c =? 46) && room st 4) eqn:Eq; intros HT; [|by apply meets_bad].
  apply andb_prop in Eq as [_ Hr]. destruct (quad_call _ _ _ _ Hi Hr) as (s1 & Ho1 & HQ). cbn in HQ.
  assert (Ho : only locals6 s s1) by (eapply only_weaken; [|exact Ho1]; by right).
  destruct (parse4 (tok6 st)) as [b|] eqn:Ep.
  - apply parse4_spec in Ep as (_ & Hlb & HFb).
    assert (Hs1 : stored s1 (mkVars src tp colonp curtok saw val) st).
    { pose proof Hs as [A B C D F G H I]. split; try done; [by eapply env6_only|].
      eapply (only_bytes Ho1); [|done]. rewrite padded_length.
      apply clear_area. destruct (e6_tmp4 _ A) as (_ & _ & X). unfold disj in *. lia. }
    assert (HV : (let* r := inet_pton4 tmp4 curtok tp in ret (0 <? r)) s = Ok true (wrote s1 tp b))
      by (by erewrite bind_ok by exact HQ).
    erewrite bind_ok in HT by exact HV. eexists (wrote s1 tp b), _.
    split; [|split; [exact HT|exact (turn_quad s1 _ st (src + 1) b Hs1 Hr Hlb HFb)]].
    etrans; [done|]. rewrite (sd_tp _ _ _ Hs1 : tp = _). apply only_append6; [apply Hs1|done|].
    unfold room in Hr. lia.
  - exists s1. split; [done|].
    assert (HV : (let* r := inet_pton4 tmp4 curtok tp in ret (0 <? r)) s = Ok false s1)
      by (by erewrite bind_ok by exact HQ).
    by erewrite bind_ok in HT by exact HV.
Qed.

Lemma pton6_step s v c l st : in_tmp6 s v (c :: l) st -> turn_meets s v l (step6 c l st).
Proof.
  intros Hi. destruct (advance _ _ _ _ _ Hi) as (_ & Hch & _ & _). destruct (folded c Hch) as (_ & _ & E58 & E46).
  unfold step6. rewrite <- E58, <- E46. destruct (xdigit (lower c)) as [d|] eqn:Ex.
  - destruct v as [src tp colonp curtok saw val].
    destruct (turn_hex _ _ _ _ _ _ _ _ _ _ Hi d Ex) as [HT Hn]. revert HT.
    destruct (Z.ltb_spec 0xffff (val6 st * 16 + d)); intros HT.
    + by apply meets_bad.
    + eexists s, _. split; [done|]. split; [exact HT|auto].
  - destruct (Z.eqb_spec (tolower lc c) 58); [by apply meets_colon with c|by apply meets_other with (c := c)].
Qed.

Lemma pton6_loop l v st s :
  in_tmp6 s v l st ->
  exists r s', lrun body6 (Z.of_nat (length l) + 1) v s r s' /\ only locals6 s s' /\
    match r with
    | Some v1 => exists st1, stored s' v1 st1 /\ run6 l st = finish6 st1
    | None => run6 l st = None
    end.
Proof.
  revert v st s. induction l as [|c l IH]; intros v st s Hi.
  - destruct v as [src tp colonp curtok saw val]. pose proof Hi as [A _ _ _ Hs].
    exists (Some (mkVars (src + 1) tp colonp curtok saw val)), s. split; [|split; [done|]].
    + apply lrun_done; [|simpl; lia]. unfold body6, pton6_body. cbv beta iota.
      erewrite bind_ok by (apply load8_ok; exact (cstr_nil _ _ A)). cbv zeta. by rewrite Hnul.
    + exists st. split; [|done]. destruct Hs. by split.
  - pose proof (pton6_step _ _ _ _ _ Hi) as Hstep. simpl run6. destruct (step6 c l st) as [st1|st1|].
    + destruct Hstep as (s1 & v1 & Ho1 & Hb & Hi1). destruct (IH _ _ _ Hi1) as (r & s2 & Hr & Ho2 & Hres).
      exists r, s2. split; [|split; [by etrans|done]].
      eapply lrun_next; [exact Hb|]. eapply lrun_weaken; [exact Hr|simpl; lia].
    + destruct Hstep as (s1 & v1 & Ho1 & Hb & Hs1). exists (Some v1), s1.
      split; [apply lrun_done; [done|simpl; lia]|]. split; [done|]. by exists st1.
    + destruct Hstep as (s1 & Ho1 & Hb). exists None, s1.
      split; [apply lrun_done; [done|simpl; lia]|]. by split.
Qed.

(** The loop and what follows it, from a fresh start. *)
Lemma pton6_from s src dst l :
  env6 s -> dest6 s dst -> bytes_at (mem s) tmp6 (replicate 16 0) ->
  cstr (mem s) src l -> clear_of locals6 src (Z.of_nat (length l) + 1) ->
  exists s1, only locals6 s s1 /\
    (let* r := loop body6 (mkVars src tmp6 NULL src false 0) in
     match r with None => ret 0 | Some v => pton6_finish tmp6 (tmp6 + 16) dst v end) s =
    match run6 l (start6 l) with Some b => Ok 1 (wrote s1 dst b) | None => Ok 0 s1 end.
Proof.
  intros He Hd Hz Hs Hcl.
  assert (Hi : in_tmp6 s (mkVars src tmp6 NULL src false 0) l (start6 l)).
  { split; try done. split; try done; simpl; first [lia|constructor]. }
  destruct (pton6_loop l _ _ _ Hi) as (r & s1 & Hr & Ho & Hres).
  pose proof (cstr_len _ _ _ Hs). pose proof (cstr_pos _ _ _ Hs).
  erewrite bind_ok; [|eapply loop_lrun; [exact Hr|zlia]].
  destruct r as [v1|].
  - destruct Hres as (st1 & Hst & ->).
    destruct (pton6_finish_ok s1 v1 st1 dst Hst) as (s2 & Ho2 & HF); [by eapply dest6_only|].
    exists s2. split; [by etrans|done].
  - rewrite Hres. by exists s1.
Qed.

(** [inet_pton6] computes [parse6]. *)
Lemma inet_pton6_ok s src dst l :
  env6 s -> dest6 s dst -> cstr (mem s) src l -> clear_of locals6 src (Z.of_nat (length l) + 1) ->
  exists s1, only locals6 s s1 /\
    inet_pton6 lc tmp4 tmp6 xdig src dst s =
    match parse6 l with Some b => Ok 1 (wrote s1 dst b) | None => Ok 0 s1 end.
Proof.
  intros He Hd Hs Hcl. unfold inet_pton6. destruct (e6_tmp6 _ He) as [Hp Hm].
  set (s0 := wrote s tmp6 (replicate 16 0)).
  assert (Ho : only locals6 s s0).
  { eapply only_weaken; [|apply only_wrote; [apply Forall_replicate; zlia|done]]. by left. }
  assert (Hset : memset tmp6 0 NS_IN6ADDRSZ s = Ok tmp6 s0) by (by apply (memset_ok tmp6 0 16)).
  erewrite bind_ok by exact Hset. change (tmp6 + NS_IN6ADDRSZ) with (tmp6 + 16). cbv zeta.
  apply (only_cstr Ho _ _ Hcl) in Hs. apply (env6_only _ _ He) in Ho as He0. apply (dest6_only _ _ _ Hd) in Ho as Hd0.
  assert (Hz : bytes_at (mem s0) tmp6 (replicate 16 0)) by apply write_bytes_at.
  assert (From : forall q k, cstr (mem s0) q k -> clear_of locals6 q (Z.of_nat (length k) + 1) ->
    exists s1, only locals6 s s1 /\
    (let* r := loop (pton6_body lc tmp4 xdig (tmp6 + 16)) (mkVars q tmp6 NULL q false 0) in
     match r with None => ret 0 | Some v => pton6_finish tmp6 (tmp6 + 16) dst v end) s0 =
    match run6 k (start6 k) with Some b => Ok 1 (wrote s1 dst b) | None => Ok 0 s1 end).
  { intros q k Hq Hqc. destruct (pton6_from s0 q dst k) as (s1 & Ho1 & H1); try done.
    exists s1. split; [by etrans|done]. }
  unfold parse6. destruct l as [|c l].
  - erewrite bind_ok by (apply load8_ok; by apply cstr_nil). change (0 =? 58) with false. cbv iota.
    unfold ret at 1. unfold bind at 1. by apply From.
  - destruct (cstr_cons _ _ _ _ Hs) as (Hc & _ & Hs'). erewrite bind_ok by (apply load8_ok; exact Hc).
    destruct (Z.eqb_spec c 58); [|unfold ret at 1; unfold bind at 1; by apply From].
    assert (Hcl' : clear_of locals6 (src + 1) (Z.of_nat (length l) + 1))
      by (eapply clear_sub; [exact Hcl|lia|simpl; lia]).
    destruct l as [|c' l].
    + exists s0. split; [done|]. erewrite bind_ok; [|by erewrite bind_ok by (apply load8_ok; by apply cstr_nil)]. done.
    + destruct (cstr_cons _ _ _ _ Hs') as (Hc' & _ & _).
      erewrite bind_ok; [|by erewrite bind_ok by (apply load8_ok; exact Hc')].
      destruct (Z.eqb_spec c' 58); cbn [negb]; cbv iota; [by apply From|]. by exists s0.
Qed.
End Pton6.
