(* ===== verification/InetWrite.v ===== *)
(** * Writing Internet addresses

    [inet_ntop4] and [inet_ntoa] write the dotted quad, [inet_ntop6] writes
    [text6] with the longest run of zero groups shortened. *)

From Stdlib Require Import String.
From S2P Require Import Prelude CMem Cells CType Words StrScan StrCopy StrAsm Stdio Streams Output Printf.
From S2P Require Import PrintfSpec PrintfWrite PrintfParse PrintfCore Formatted Typed Inet InetSpec InetRead.

(** ** Regions side by side *)

(** Each region is apart from those that follow it in the list. *)
Fixpoint all_apart (rs : list (Z * Z)) : Prop :=
  match rs with
  | [] => True
  | (p, n) :: rs => Forall (fun r => disj p n r.1 r.2) rs /\ all_apart rs
  end.

Lemma disj_sym p n q k : disj p n q k -> disj q k p n.
Proof. unfold disj. tauto. Qed.

Lemma disj_sub p n q k p' n' q' k' :
  disj p n q k -> p <= p' -> p' + n' <= p + n -> q <= q' -> q' + k' <= q + k -> disj p' n' q' k'.
Proof. unfold disj. lia. Qed.

(** The words that hold the [n] bytes at [p] are mapped. *)
Definition around (m : gmap Z Z) (p n : Z) : Prop := mapped m (p - 3) (n + 6).

Lemma around_words m p n k :
  mem_wf m -> around m p n -> 0 <= k <= n -> word_readable m p k.
Proof.
  intros Hwf Ha Hk. split; [done|].
  split; (eapply mapped_sub; [exact Ha|..]); Z.div_mod_to_equations; lia.
Qed.

Lemma around_mapped m p n : around m p n -> mapped m p n.
Proof. intros H. eapply mapped_sub; [exact H|lia|lia]. Qed.

Lemma dotted_chars b : length b = 4%nat -> Forall is_byte b -> Forall is_char (dotted b).
Proof.
  intros Hl HF. destruct b as [|b0 [|b1 [|b2 [|b3 [|]]]]]; try done. fcons.
  assert (K : forall x, is_byte x -> Forall is_char (dec x)).
  { intros x Hx. unfold is_byte in Hx. destruct (dec_cases x Hx) as [[? ->]|[[? ->]|[? ->]]];
      repeat constructor; Z.div_mod_to_equations; lia. }
  unfold dotted. simpl map. rewrite !joined_cons by done. simpl joined.
  do 3 (apply Forall_app; split; [by apply K|]; constructor; [unfold is_char; lia|]). by apply K.
Qed.

(** ** The longest run of zero groups

    The search of [inet_ntop6] depends only on which groups are zero, so it
    is checked on all 256 patterns. *)

Fixpoint scan (zs : list bool) (i : Z) (best cur : zrun) : zrun * zrun :=
  match zs with
  | [] => (best, cur)
  | z :: zs =>
      if z then
        if base cur =? -1 then scan zs (i + 1) best (mkRun i 1)
        else scan zs (i + 1) best (mkRun (base cur) (len cur + 1))
      else if negb (base cur =? -1) then scan zs (i + 1) (longer best cur) (mkRun (-1) (len cur))
      else scan zs (i + 1) best cur
  end.

Definition best_of (zs : list bool) : zrun :=
  let '(best, cur) := scan zs 0 (mkRun (-1) 0) (mkRun (-1) 0) in
  let best := if negb (base cur =? -1) then longer best cur else best in
  if negb (base best =? -1) && (len best <? 2) then mkRun (-1) (len best) else best.

Definition run_of (r : zrun) : option (nat * nat) :=
  if base r =? -1 then None else Some (Z.to_nat (base r), Z.to_nat (len r)).

Definition runb (zs : list bool) (b n : nat) : bool := forallb (fun i => nth i zs false) (seq b n).

Definition longestb (zs : list bool) (o : option (nat * nat)) : bool :=
  forallb (fun j => forallb (fun k =>
    match o with
    | Some (b, n) => negb (runb zs j k) || (k <? n)%nat || ((k =? n)%nat && (b <=? j)%nat)
    | None => negb (runb zs j k)
    end) (seq 2 7)) (seq 0 8) &&
  match o with Some (b, n) => (2 <=? n)%nat && runb zs b n | None => true end.

Definition run_ok (r : zrun) : bool :=
  (base r =? -1) || ((0 <=? base r) && (2 <=? len r) && (base r + len r <=? 8)).

Fixpoint patterns (n : nat) : list (list bool) :=
  match n with
  | O => [[]]
  | S n => map (cons true) (patterns n) ++ map (cons false) (patterns n)
  end.

Lemma patterns_all zs : zs ∈ patterns (length zs).
Proof.
  induction zs as [|z zs IH]; simpl; [by apply list_elem_of_singleton|].
  apply elem_of_app. destruct z; [left|right]; by apply list_elem_of_fmap_2.
Qed.

Lemma best_of_checked zs :
  length zs = 8%nat -> longestb zs (run_of (best_of zs)) = true /\ run_ok (best_of zs) = true.
Proof.
  intros Hl. assert (H : forallb (fun zs => longestb zs (run_of (best_of zs)) && run_ok (best_of zs)) (patterns 8) = true)
    by (by vm_compute).
  rewrite forallb_forall in H. apply andb_prop, H, list_elem_of_In. rewrite <- Hl. apply patterns_all.
Qed.

Definition zero_pattern (ws : list Z) : list bool := map (fun w => w =? 0) ws.

Lemma runb_spec ws b n : runb (zero_pattern ws) b n = true <-> zero_run ws b n.
Proof.
  unfold runb, zero_run. rewrite forallb_forall. split.
  - intros H i Hi. specialize (H i ltac:(apply in_seq; lia)).
    destruct (ws !! i) as [w|] eqn:E.
    + rewrite (nth_lookup_Some _ _ _ (w =? 0)) in H; [f_equal; lia|]. unfold zero_pattern.
      by rewrite list_lookup_fmap, E.
    + rewrite nth_overflow in H; [done|]. unfold zero_pattern. rewrite length_map. by apply lookup_ge_None_1.
  - intros H i Hi%in_seq. specialize (H i ltac:(lia)).
    rewrite (nth_lookup_Some _ _ _ true); [done|]. unfold zero_pattern. by rewrite list_lookup_fmap, H.
Qed.

Lemma zero_run_bound ws b n : zero_run ws b n -> (0 < n)%nat -> (b + n <= length ws)%nat.
Proof. intros H Hn. specialize (H (b + n - 1)%nat ltac:(lia)). apply lookup_lt_Some in H. lia. Qed.

Lemma best_longest ws :
  length ws = 8%nat -> longest ws (run_of (best_of (zero_pattern ws))).
Proof.
  intros Hl. destruct (best_of_checked (zero_pattern ws)) as [H _]; [by unfold zero_pattern; rewrite length_map|].
  revert H. generalize (run_of (best_of (zero_pattern ws))) as o. intros o H.
  apply andb_prop in H as [H1 H2]. rewrite forallb_forall in H1.
  assert (K : forall j k, (2 <= k)%nat -> zero_run ws j k ->
    match o with Some (b, n) => (k < n \/ (k = n /\ b <= j))%nat | None => False end).
  { intros j k Hk Hz. pose proof (zero_run_bound _ _ _ Hz ltac:(lia)).
    specialize (H1 j ltac:(apply in_seq; lia)). rewrite forallb_forall in H1.
    specialize (H1 k ltac:(apply in_seq; lia)). apply runb_spec in Hz. rewrite Hz in H1.
    destruct o as [[b n]|]; [|done]. cbn [negb orb] in H1.
    by rewrite orb_true_iff, andb_true_iff, Nat.ltb_lt, Nat.eqb_eq, Nat.leb_le in H1. }
  unfold longest. destruct o as [[b n]|].
  - apply andb_prop in H2 as [H2%Nat.leb_le H3]. apply runb_spec in H3. split; [done|]. split; [done|]. exact K.
  - exact K.
Qed.

(** ** The text, piece by piece *)

Definition in_run (r : zrun) (i : Z) : bool :=
  negb (base r =? -1) && (base r <=? i) && (i <? base r + len r).

(** What the formatting loop adds for the [i]th group. *)
Definition piece (ws : list Z) (r : zrun) (i : nat) : list Z :=
  if in_run r (Z.of_nat i) then (if Z.of_nat i =? base r then [58] else [])
  else (if (i =? 0)%nat then [] else [58]) ++ hex (nth i ws 0).

Definition pieces (ws : list Z) (r : zrun) (n : nat) : list Z := concat (map (piece ws r) (seq 0 n)).

Definition encapsulates (ws : list Z) (r : zrun) : bool :=
  (base r =? 0) && ((len r =? 6) || ((len r =? 5) && (nth 5 ws 0 =? 0xffff))).

(** The colon behind a run at the end. *)
Definition last_colon (r : zrun) : list Z :=
  if negb (base r =? -1) && (base r + len r =? 8) then [58] else [].

Definition formatted6 (ws : list Z) (r : zrun) : list Z :=
  (if encapsulates ws r then pieces ws r 6 ++ [58] ++ dotted (bytes_of (drop 6 ws)) else pieces ws r 8) ++
  last_colon r.

Lemma pieces_S ws r n : pieces ws r (S n) = pieces ws r n ++ piece ws r n.
Proof. unfold pieces. rewrite seq_S, map_app, concat_app. simpl. by rewrite app_nil_r. Qed.

Definition runs : list (Z * Z) :=
  [(0,2);(0,3);(0,4);(0,5);(0,6);(0,7);(0,8);(1,2);(1,3);(1,4);(1,5);(1,6);(1,7);
   (2,2);(2,3);(2,4);(2,5);(2,6);(3,2);(3,3);(3,4);(3,5);(4,2);(4,3);(4,4);(5,2);(5,3);(6,2)].

Lemma run_cases r : run_ok r = true -> base r = -1 \/ (base r, len r) ∈ runs.
Proof.
  unfold run_ok. intros H. destruct (Z.eqb_spec (base r) (-1)); [by left|right]. simpl in H.
  assert (K : forallb (fun b => forallb (fun n => negb (b + n <=? 8) || bool_decide ((b, n) ∈ runs))
    (seqZ 2 7)) (seqZ 0 7) = true) by (by vm_compute).
  apply andb_prop in H as [[H1 H2]%andb_prop H3].
  apply Z.leb_le in H1, H2. rewrite forallb_forall in K.
  specialize (K (base r) ltac:(apply list_elem_of_In, elem_of_seqZ; lia)). rewrite forallb_forall in K.
  specialize (K (len r) ltac:(apply list_elem_of_In, elem_of_seqZ; lia)).
  rewrite H3 in K. by apply bool_decide_eq_true in K.
Qed.

Lemma encapsulates_v4 ws r :
  length ws = 8%nat -> run_ok r = true -> encapsulates ws r = with_v4 ws (run_of r).
Proof.
  intros Hl Hr. destruct r as [b n]. unfold encapsulates, with_v4, run_of. cbn [base len].
  assert (E : (nth 5 ws 0 =? 0xffff) = bool_decide (ws !! 5%nat = Some 0xffff)).
  { do 6 (destruct ws as [|? ws]; [done|]). simpl. destruct (Z.eqb_spec z4 0xffff) as [->|].
    - by rewrite bool_decide_true.
    - rewrite bool_decide_false; [done|congruence]. }
  rewrite E. generalize (bool_decide (ws !! 5%nat = Some 0xffff)). intros v. clear E Hl.
  apply run_cases in Hr as [Hb|Hin]; [|unfold runs in Hin]; cbn [base len] in *; [by subst b|].
  repeat (apply elem_of_cons in Hin as [[= -> ->]|Hin]; [by vm_compute|]). by apply elem_of_nil in Hin.
Qed.

Local Ltac apps := repeat (simpl; rewrite ?app_nil_r, <- ?app_assoc; try reflexivity); done.

Lemma formatted6_text6 ws r :
  length ws = 8%nat -> run_ok r = true -> formatted6 ws r = text6 ws (run_of r).
Proof.
  intros Hl Hr. unfold formatted6. rewrite encapsulates_v4 by done.
  assert (Ev : with_v4 ws (run_of r) = true -> base r = 0 /\ (len r = 5 \/ len r = 6)).
  { rewrite <- encapsulates_v4 by done. unfold encapsulates. lia. }
  unfold text6. destruct (run_of r) as [[b n]|] eqn:Er.
  2:{ simpl. unfold run_of in Er. destruct (Z.eqb_spec (base r) (-1)) as [Hb|]; [|done].
      do 8 (destruct ws as [|? ws]; [done|]). destruct ws; [|done].
      unfold last_colon, pieces, piece, in_run, show_groups. rewrite Hb. simpl. rewrite !app_nil_r.
      by rewrite <- ?app_assoc. }
  unfold pieces, piece, shortened, show_groups, bytes_of.
  do 8 (destruct ws as [|? ws]; [done|]). destruct ws; [|done]. revert Ev.
  destruct (with_v4 _ _); intros Ev; destruct r as [b' n']; cbn [base len] in *.
  - destruct (Ev eq_refl) as [-> [-> | ->]]; vm_compute in Er; injection Er as <- <-;
      generalize hex as h; generalize dotted as q; generalize bytes16 as y; intros;
      cbv -[app]; apps.
  - clear Ev. generalize hex as h. intros h.
    apply run_cases in Hr as [Hb|Hin]; [|unfold runs in Hin]; cbn [base len] in *; [by subst b'|].
    repeat (apply elem_of_cons in Hin as [[= -> ->]|Hin];
      [vm_compute in Er; injection Er as <- <-; cbv -[app]; apps|]). by apply elem_of_nil in Hin.
Qed.

Section Write.
Context `{HM : SysMem} `{HD : Dos} `{!SysMemLaws HM} `{!DosLaws HD} `{!SysTyped HM} `{!DosTyped HD} {F : Type}.
Context (lc : option Locale) (wctomb : Z -> M (Z * list Z)) (strerror : Z -> M Z).
Context (fmt_fp : Out -> F -> Z -> Z -> Z -> Z -> M (Z * Out)).
Context (Hdigit : forall c, is_byte c -> digit_r lc c = is_digit c).
Context (wctomb_typed : forall w, Typed (wctomb w)) (strerror_typed : forall e, Typed (strerror e)).
Context (fmt_fp_typed : forall o d w p fl t, Typed (fmt_fp o d w p fl t)).
Context (fr : frame).

(** ** The calls of [sprintf] *)

Definition strings_at (buf dst n : Z) (a : Z) : Prop := area buf 32 a \/ area dst n a.

Lemma sprintf_only buf dst p items ap txt rest s :
  let n := Z.of_nat (length txt) + 2 in
  call_ok s buf dst n p items -> writes (F := F) (given s buf dst n) items ap txt rest ->
  Z.of_nat (length txt) <= INT_MAX ->
  exists s', sprintf lc wctomb strerror fmt_fp buf dst p ap s = Ok (Z.of_nat (length txt)) s' /\
    bytes_at (mem s') dst (txt ++ [0; 0]) /\ only (strings_at buf dst n) s s'.
Proof.
  intros n Hok Hw Hmax.
  destruct (sprintf_ok lc wctomb strerror fmt_fp Hdigit buf dst p items ap txt rest s Hok Hw Hmax)
    as (s' & Hr & Hb & [Hm Hf] & He).
  exists s'. split; [done|]. split; [done|]. split; try done.
  - intros a Ha. apply Hm; intros X; apply Ha; [by left|by right].
  - exact (typed_sprintf lc wctomb strerror fmt_fp wctomb_typed strerror_typed fmt_fp_typed _ _ _ _ _ _ _ Hr).
Qed.

Definition u_conv : item := Conv (plain size_int conv_u).
Definition d_conv : item := Conv (plain size_int conv_d).
Definition x_conv : item := Conv (plain size_int conv_x).
Definition dot : item := Lit [46].
Definition quad_items (i : item) : list item := [i; dot; i; dot; i; dot; i].

Lemma int_writes str c n items ap txt rest :
  c = conv_d \/ c = conv_u \/ c = conv_x -> 0 <= n < 2147483648 ->
  writes (F := F) str items ap txt rest ->
  writes str (Conv (plain size_int c) :: items) (Word n :: ap) (map digit_char (shown (base_of c) n) ++ txt) rest.
Proof.
  intros Hc Hn Hw. rewrite <- plain_lower by (done || (unfold is_u64; lia)). eapply writes_conv; [|exact Hw].
  assert (Hv : int_value (F := F) (plain size_int c) (Word n) = Some n).
  { destruct Hc as [-> |[-> | ->]]; unfold int_value; cbn [plain s_conv s_size]; f_equal;
      first [apply s32_id|apply u32_id]; lia. }
  refine (means_int str (plain size_int c) (Word n :: ap) 0 (Word n :: ap) None (Word n) ap n _ _ _ _ Hv);
    try done; by destruct Hc as [-> |[-> | ->]].
Qed.

Lemma quad_writes str c b :
  c = conv_d \/ c = conv_u -> length b = 4%nat -> Forall is_byte b ->
  writes (F := F) str (quad_items (Conv (plain size_int c))) (map Word b) (dotted b) [].
Proof.
  intros Hc Hl HF. destruct b as [|b0 [|b1 [|b2 [|b3 [|]]]]]; try done. fcons.
  assert (E : base_of c = 10) by (by destruct Hc as [-> | ->]).
  unfold dotted. simpl map. rewrite !joined_cons by done. simpl joined. unfold dec. rewrite <- E.
  assert (Hc' : c = conv_d \/ c = conv_u \/ c = conv_x) by tauto.
  rewrite <- (app_nil_r (map digit_char (shown (base_of c) b3))).
  repeat (apply int_writes; [done|zlia|]; first [apply writes_nil|apply (writes_lit _ [46])]).
Qed.

Lemma dotted_length b : length b = 4%nat -> Forall is_byte b -> (7 <= length (dotted b) <= 15)%nat.
Proof.
  intros Hl HF. destruct b as [|b0 [|b1 [|b2 [|b3 [|]]]]]; try done. fcons.
  assert (K : forall x, is_byte x -> (1 <= length (dec x) <= 3)%nat).
  { intros x Hx. destruct (dec_cases x Hx) as [[_ ->]|[[_ ->]|[_ ->]]]; simpl; lia. }
  unfold dotted. simpl map. rewrite !joined_cons by done. simpl joined.
  rewrite !length_app. simpl length. rewrite !length_app. simpl length. rewrite !length_app. simpl length.
  pose proof (K b0 ltac:(done)). pose proof (K b1 ltac:(done)). pose proof (K b2 ltac:(done)).
  pose proof (K b3 ltac:(done)). lia.
Qed.

(** ** [inet_ntop4] *)

(** [tmp] of [inet_ntop4] has 16 bytes, but [sprintf] ends its text with two
    null characters: 15 characters overrun it by one byte.  [n4] is the number
    of bytes from [tmp] on that a call writes to: 16, or 17 for such a text. *)
Definition tmp4_bytes (b : list Z) : Z := Z.max 16 (Z.of_nat (length (dotted b)) + 2).

Lemma tmp4_bytes_min b : 16 <= tmp4_bytes b.
Proof. unfold tmp4_bytes. lia. Qed.

Section Frame.
Context (n4 : Z) (Hn4 : 16 <= n4).

(** The areas the functions write, and the format strings. *)
Definition frame_regions : list (Z * Z) :=
  [(fr_buf fr, 32); (fr_tmp4 fr, n4); (fr_tmp6 fr, 46); (fr_words fr, 32); (fr_fmt4 fr, 12); (fr_fmtx fr, 3)].

Definition locals (a : Z) : Prop :=
  area (fr_buf fr) 32 a \/ area (fr_tmp4 fr) n4 a \/ area (fr_tmp6 fr) 46 a \/ area (fr_words fr) 32 a.

Record frame_ok (s : state) : Prop := {
  fo_wf : mem_wf (mem s);
  fo_apart : all_apart frame_regions;
  fo_fmt4 : cstr (mem s) (fr_fmt4 fr) (bytes "%u.%u.%u.%u");
  fo_fmtx : cstr (mem s) (fr_fmtx fr) (bytes "%x");
  fo_buf : 0 < fr_buf fr /\ mapped (mem s) (fr_buf fr) 32;
  fo_tmp4 : in_space (fr_tmp4 fr) n4 /\ around (mem s) (fr_tmp4 fr) n4;
  fo_tmp6 : in_space (fr_tmp6 fr) 46 /\ around (mem s) (fr_tmp6 fr) 46;
  fo_words : 0 < fr_words fr /\ fr_words fr mod 4 = 0 /\ mapped (mem s) (fr_words fr) 32;
}.

(** Two different regions of the frame. *)
Local Ltac regions H :=
  let A := fresh in pose proof (fo_apart _ H) as A; unfold frame_regions in A; cbn [all_apart] in A;
  repeat match type of A with _ /\ _ => let B := fresh in destruct A as [B A] end; fcons;
  cbn [fst snd] in *; first [assumption|apply disj_sym; assumption].

Lemma clear_locals p n :
  disj (fr_buf fr) 32 p n -> disj (fr_tmp4 fr) n4 p n -> disj (fr_tmp6 fr) 46 p n -> disj (fr_words fr) 32 p n ->
  clear_of locals p n.
Proof.
  intros H1 H2 H3 H4 a Ha [X|[X|[X|X]]];
    [exact (clear_area _ _ _ _ H1 a Ha X)|exact (clear_area _ _ _ _ H2 a Ha X)
    |exact (clear_area _ _ _ _ H3 a Ha X)|exact (clear_area _ _ _ _ H4 a Ha X)].
Qed.

Lemma frame_only s s' : frame_ok s -> only locals s s' -> frame_ok s'.
Proof.
  intros Hf Ho. pose proof Hf as [A B C D E G H I].
  split; try done; [by apply (only_wf Ho)| | | | | |].
  - apply (only_cstr Ho); [|done]. apply clear_locals; regions Hf.
  - apply (only_cstr Ho); [|done]. apply clear_locals; regions Hf.
  - split; [apply E|]. apply (only_mapped Ho), E.
  - split; [apply G|]. apply (only_mapped Ho), G.
  - split; [apply H|]. apply (only_mapped Ho), H.
  - split; [apply I|]. split; [apply I|]. apply (only_mapped Ho), I.
Qed.

(** What [inet_ntop4] works on: the address [b] at [src], and [dst] with room
    for its text. *)
Record ntop4_call (s : state) (src dst : Z) (b : list Z) : Prop := {
  n4_src : bytes_at (mem s) src b;
  n4_len : length b = 4%nat;
  n4_dst : is_u32 dst /\ mapped (mem s) dst (Z.of_nat (length (dotted b)) + 1);
  n4_apart : disj dst (Z.of_nat (length (dotted b)) + 1) (fr_tmp4 fr) 16;
}.

Lemma load4 s p b0 b1 b2 b3 {A} (k : Z -> Z -> Z -> Z -> M A) :
  bytes_at (mem s) p [b0; b1; b2; b3] ->
  (let* a0 := load8 p in let* a1 := load8 (p + 1) in let* a2 := load8 (p + 2) in
   let* a3 := load8 (p + 3) in k a0 a1 a2 a3) s = k b0 b1 b2 b3 s.
Proof.
  intros (H0 & H1 & H2 & H3 & _).
  replace (p + 1 + 1) with (p + 2) in * by lia. replace (p + 2 + 1) with (p + 3) in * by lia.
  by repeat (erewrite bind_ok by (apply load8_ok; eassumption)).
Qed.

Lemma inet_ntop4_ok s src dst size b :
  frame_ok s -> ntop4_call s src dst b -> Forall is_byte b -> tmp4_bytes b <= n4 ->
  exists s1, only locals s s1 /\ only (strings_at (fr_buf fr) (fr_tmp4 fr) n4) s s1 /\
    bytes_at (mem s1) (fr_tmp4 fr) (dotted b ++ [0; 0]) /\
    inet_ntop4 lc wctomb strerror fmt_fp fr src dst size s =
    (if size <? Z.of_nat (length (dotted b)) then Ok NULL (put_errno s1 ENOSPC)
     else Ok dst (wrote s1 dst (dotted b ++ [0]))).
Proof.
  intros Hf [A B C D] HF Hn. unfold tmp4_bytes in Hn. pose proof (dotted_length b B HF) as Hlen.
  set (n := Z.of_nat (length (dotted b)) + 2).
  assert (Hok : call_ok s (fr_buf fr) (fr_tmp4 fr) n (fr_fmt4 fr) (quad_items u_conv)).
  { pose proof Hf as [E1 E2 E3 _ E5 [E6 E7] _ _]. split.
    - repeat constructor; done.
    - done.
    - split; [exact E3|]. split; [regions Hf|].
      eapply (disj_sub (fr_fmt4 fr) 12 (fr_tmp4 fr) n4); [regions Hf|lia| |lia|lia].
      change (Z.of_nat (length (show (quad_items u_conv)))) with 11. lia.
    - exact E5.
    - split; [lia|]. split; [intros _; apply E6|]. eapply mapped_sub; [by apply around_mapped|lia|lia].
    - eapply (disj_sub (fr_buf fr) 32 (fr_tmp4 fr) n4); [regions Hf|lia|lia|lia|lia]. }
  destruct b as [|b0 [|b1 [|b2 [|b3 [|]]]]]; try done. set (b := [b0; b1; b2; b3]) in *.
  destruct (sprintf_only (fr_buf fr) (fr_tmp4 fr) (fr_fmt4 fr) (quad_items u_conv) (map Word b) (dotted b) [] s)
    as (s1 & Hr & Hb & Ho); [exact Hok|by apply quad_writes; [right|..]|unfold INT_MAX; lia|].
  assert (Ho' : only (strings_at (fr_buf fr) (fr_tmp4 fr) n4) s s1).
  { eapply only_weaken; [|exact Ho]. unfold strings_at, area. lia. }
  assert (Hol : only locals s s1).
  { eapply only_weaken; [|exact Ho']. unfold strings_at, locals. tauto. }
  exists s1. split; [done|]. split; [done|]. split; [done|]. unfold inet_ntop4. rewrite (load4 _ _ _ _ _ _ _ A).
  erewrite bind_ok by exact Hr. rewrite (proj2 (Z.ltb_ge _ 0)), u32_id by lia.
  destruct (Z.ltb_spec size (Z.of_nat (length (dotted b)))); [done|].
  destruct (fo_tmp4 _ Hf) as [Hsp Har].
  apply strcpy_ok.
  - apply C.
  - split; [|split].
    + split; [|split].
      * change [0; 0] with ([0] ++ [0]) in Hb. rewrite app_assoc in Hb. by apply bytes_at_app in Hb as [? _].
      * apply dotted_chars; done.
      * unfold in_space in *. lia.
    + apply (only_mapped Hol). replace (Z.of_nat (S (length (dotted b)))) with (Z.of_nat (length (dotted b)) + 1) by lia.
      apply C.
    + eapply disj_sub; [exact D|lia|lia|lia|lia].
  - eapply around_words; [by apply (only_wf Hol), Hf|by apply (only_mapped Hol)|lia].
Qed.

(** ** [inet_ntop6]: the groups *)

Definition words_at (s : state) (ws : list Z) : Prop :=
  bytes_at (mem s) (fr_words fr) (concat (map word_bytes ws)).

Lemma words_length ws : length (concat (map word_bytes ws)) = (4 * length ws)%nat.
Proof. induction ws as [|w ws IH]; [done|]. simpl. rewrite IH. lia. Qed.

Lemma load_word s ws i w :
  fr_words fr mod 4 = 0 -> words_at s ws -> Forall is_u16 ws -> ws !! i = Some w ->
  load32 (fr_words fr + 4 * Z.of_nat i) s = Ok w s.
Proof.
  intros Ha Hw HF Hi. apply list_elem_of_split_length in Hi as (l1 & l2 & -> & ->).
  unfold words_at in Hw. rewrite map_app, concat_app in Hw. apply bytes_at_app in Hw as [_ Hw].
  rewrite words_length in Hw. cbn [map concat] in Hw. apply bytes_at_app in Hw as [Hw _]. fcons.
  replace (fr_words fr + Z.of_nat (4 * length l1)) with (fr_words fr + 4 * Z.of_nat (length l1)) in Hw by lia.
  erewrite load32_ok; [|Z.div_mod_to_equations; lia|exact Hw].
  by rewrite word_bytes_value by (unfold is_u16, is_u32 in *; lia).
Qed.

(** Each pair of bytes becomes a word. *)
Lemma words_loop src rest done s :
  fr_words fr mod 4 = 0 -> mapped (mem s) (fr_words fr) 32 -> (length done + length rest = 8)%nat ->
  Forall is_u16 rest -> bytes_at (mem s) (src + 2 * Z.of_nat (length done)) (bytes_of rest) ->
  disj (fr_words fr) 32 src 16 -> words_at s done ->
  exists s', lrun (words_body fr src) (Z.of_nat (length rest) + 1) (2 * Z.of_nat (length done)) s tt s' /\
    only (area (fr_words fr) 32) s s' /\ words_at s' (done ++ rest).
Proof.
  intros Ha. revert done s. induction rest as [|w rest IH]; intros done s Hm Hl HF Hb Hd Hw.
  - exists s. rewrite app_nil_r. split; [|by split]. apply lrun_done; [|lia]. unfold words_body.
    by rewrite (proj2 (Z.ltb_ge _ NS_IN6ADDRSZ)) by (unfold NS_IN6ADDRSZ; simpl in Hl; lia).
  - simpl in Hl. fcons. unfold is_u16 in H. destruct Hb as (H1 & H2 & Hb).
    set (a := fr_words fr + 4 * Z.of_nat (length done)).
    set (s1 := wrote s a (word_bytes w)).
    assert (HS : store32 a w s = Ok tt s1).
    { apply store32_ok; [unfold a; Z.div_mod_to_equations; lia|]. eapply mapped_sub; [exact Hm|lia|lia]. }
    assert (Ho1 : only (area a 4) s s1).
    { apply (only_wrote a (word_bytes w)); [repeat constructor; apply u8_range|].
      eapply mapped_sub; [exact Hm|lia|simpl; lia]. }
    assert (Ho : only (area (fr_words fr) 32) s s1) by (eapply only_weaken; [|exact Ho1]; unfold area; lia).
    destruct (IH (done ++ [w]) s1) as (s' & Hr & Ho' & Hw').
    { by apply (only_mapped Ho). }
    { rewrite length_app. simpl. lia. }
    { done. }
    { rewrite length_app. simpl length. replace (src + 2 * Z.of_nat (length done + 1))
        with (src + 2 * Z.of_nat (length done) + 1 + 1) by lia.
      apply (only_bytes Ho); [|exact Hb]. apply clear_area. rewrite bytes_of_length. unfold disj in *. lia. }
    { done. }
    { unfold words_at. rewrite map_app, concat_app. apply bytes_at_app. split.
      - apply (only_bytes Ho1); [|exact Hw]. apply clear_area. rewrite words_length. unfold disj. lia.
      - rewrite words_length. cbn [map concat]. rewrite app_nil_r.
        replace (fr_words fr + Z.of_nat (4 * length done)) with a by lia. apply write_bytes_at. }
    exists s'. rewrite <- app_assoc in Hw'. split; [|split; [by etrans|done]].
    eapply lrun_next; [|eapply lrun_weaken; [exact Hr|simpl; lia]].
    unfold words_body. rewrite (proj2 (Z.ltb_lt _ NS_IN6ADDRSZ)) by (unfold NS_IN6ADDRSZ; lia).
    erewrite bind_ok by (apply load8_ok; exact H1). erewrite bind_ok by (apply load8_ok; rewrite Z.add_assoc; exact H2).
    rewrite (lor_shiftl (w / 256) (w mod 256) 8) by (Z.div_mod_to_equations; lia). change (2 ^ 8) with 256.
    replace (w / 256 * 256 + w mod 256) with w by (Z.div_mod_to_equations; lia).
    replace (2 * Z.of_nat (length done) / 2) with (Z.of_nat (length done)) by (Z.div_mod_to_equations; lia).
    erewrite bind_ok by exact HS. unfold again, ret. do 2 f_equal. rewrite length_app. simpl. lia.
Qed.

Lemma best_loop ws done s best cur :
  fr_words fr mod 4 = 0 -> words_at s (done ++ ws) -> Forall is_u16 (done ++ ws) ->
  (length done + length ws = 8)%nat ->
  lrun (best_body fr) (Z.of_nat (length ws) + 1) (Z.of_nat (length done), best, cur) s
    (scan (zero_pattern ws) (Z.of_nat (length done)) best cur) s.
Proof.
  intros Ha. revert done best cur. induction ws as [|w ws IH]; intros done best cur Hw HF Hl.
  - apply lrun_done; [|simpl; lia]. unfold best_body. simpl. simpl in Hl.
    by rewrite (proj2 (Z.ltb_ge _ _)) by (change (NS_IN6ADDRSZ / NS_INT16SZ) with 8; lia).
  - simpl in Hl. pose proof (load_word s (done ++ w :: ws) (length done) w Ha Hw HF
      (list_lookup_middle done ws w _ eq_refl)) as HL.
    assert (Next : forall b c, best_body fr (Z.of_nat (length done), best, cur) s =
        Ok (inl (Z.of_nat (length done) + 1, b, c)) s ->
        lrun (best_body fr) (Z.of_nat (length (w :: ws)) + 1) (Z.of_nat (length done), best, cur) s
          (scan (zero_pattern ws) (Z.of_nat (length done) + 1) b c) s).
    { intros b c Hb. eapply lrun_next; [exact Hb|].
      replace (done ++ w :: ws) with ((done ++ [w]) ++ ws) in Hw, HF by (by rewrite <- app_assoc).
      pose proof (IH (done ++ [w]) b c Hw HF) as HI. rewrite length_app in HI. simpl in HI.
      replace (Z.of_nat (length done + 1)) with (Z.of_nat (length done) + 1) in HI by lia.
      eapply lrun_weaken; [apply HI; lia|simpl; lia]. }
    assert (Hb : forall r, (if w =? 0 then if base cur =? -1 then again (Z.of_nat (length done) + 1, best, mkRun (Z.of_nat (length done)) 1)
        else again (Z.of_nat (length done) + 1, best, mkRun (base cur) (len cur + 1))
        else if negb (base cur =? -1) then again (Z.of_nat (length done) + 1, longer best cur, mkRun (-1) (len cur))
        else again (Z.of_nat (length done) + 1, best, cur)) s = r ->
      best_body fr (Z.of_nat (length done), best, cur) s = r).
    { intros r <-. unfold best_body. rewrite (proj2 (Z.ltb_lt _ _)) by (change (NS_IN6ADDRSZ / NS_INT16SZ) with 8; lia).
      by erewrite bind_ok by exact HL. }
    simpl. destruct (w =? 0); [destruct (base cur =? -1)|destruct (base cur =? -1)];
      apply Next, Hb; reflexivity.
Qed.

Lemma find_best_ok ws s :
  fr_words fr mod 4 = 0 -> words_at s ws -> Forall is_u16 ws -> length ws = 8%nat ->
  find_best fr s = Ok (best_of (zero_pattern ws)) s.
Proof.
  intros Ha Hw HF Hl. unfold find_best, best_of.
  erewrite bind_ok; [|eapply loop_lrun; [exact (best_loop ws [] s _ _ Ha Hw HF Hl)|lia]].
  simpl. by destruct (scan _ _ _ _).
Qed.

(** ** [inet_ntop6]: the text *)

Definition text_locals (a : Z) : Prop :=
  area (fr_buf fr) 32 a \/ area (fr_tmp4 fr) n4 a \/ area (fr_tmp6 fr) 46 a.

Definition tp (txt : list Z) : Z := fr_tmp6 fr + Z.of_nat (length txt).

Lemma tp_app txt l : tp (txt ++ l) = tp txt + Z.of_nat (length l).
Proof. unfold tp. rewrite length_app. lia. Qed.

Section Format.
Context (src : Z) (ws : list Z).
Context (Hws : length ws = 8%nat) (Hu16 : Forall is_u16 ws) (Hsrc : clear_of locals src 16).

(** [txt] is in [tmp]; the groups and their bytes are where they were. *)
Record at6 (s : state) (txt : list Z) : Prop := {
  a6_frame : frame_ok s;
  a6_words : words_at s ws;
  a6_src : bytes_at (mem s) src (bytes_of ws);
  a6_text : bytes_at (mem s) (fr_tmp6 fr) txt;
}.

Lemma at6_only s s' txt txt' :
  at6 s txt -> only text_locals s s' -> bytes_at (mem s') (fr_tmp6 fr) txt' -> at6 s' txt'.
Proof.
  intros [A B C D] Ho Hb.
  assert (Hol : only locals s s') by (eapply only_weaken; [|exact Ho]; unfold text_locals, locals; tauto).
  split; [by eapply frame_only| | |done].
  - apply (only_bytes Ho); [|exact B]. rewrite words_length, Hws. intros a Ha [X|[X|X]].
    + eapply (clear_area (fr_buf fr) 32); [|exact Ha|exact X]. change (Z.of_nat (4 * 8)) with 32. regions A.
    + eapply (clear_area (fr_tmp4 fr) n4); [|exact Ha|exact X]. change (Z.of_nat (4 * 8)) with 32. regions A.
    + eapply (clear_area (fr_tmp6 fr) 46); [|exact Ha|exact X]. change (Z.of_nat (4 * 8)) with 32. regions A.
  - apply (only_bytes Hol); [|exact C]. rewrite bytes_of_length, Hws. exact Hsrc.
Qed.

(** A character is added. *)
Lemma at6_char s txt c :
  at6 s txt -> (length txt < 46)%nat -> is_byte c ->
  store8 (tp txt) c s = Ok tt (wrote s (tp txt) [c]) /\ at6 (wrote s (tp txt) [c]) (txt ++ [c]) /\
  only text_locals s (wrote s (tp txt) [c]).
Proof.
  intros Ha Hl Hc. pose proof (fo_tmp6 _ (a6_frame _ _ Ha)) as [_ Hm%around_mapped].
  destruct (store8_only (tp txt) c s) as [HS HO]; [done|apply Hm; unfold tp; lia|]. split; [done|].
  assert (Ho : only text_locals s (wrote s (tp txt) [c])).
  { eapply only_weaken; [|exact HO]. intros a Hin. right; right. unfold area, tp in *. lia. }
  split; [|done]. eapply at6_only; [exact Ha|done|]. apply write_bytes_after, Ha.
Qed.

(** Text written by a call to [sprintf] at the end. *)
Lemma at6_more s s' txt l n :
  at6 s txt -> only (strings_at (fr_buf fr) (tp txt) n) s s' -> (length txt + Z.to_nat n <= 46)%nat ->
  bytes_at (mem s') (tp txt) l ->
  only text_locals s s' /\ at6 s' (txt ++ l).
Proof.
  intros Ha Ho Hn Hb.
  assert (Ho' : only text_locals s s').
  { eapply only_weaken; [|exact Ho]. intros a [X|X]; [by left|]. right; right. unfold area, tp in *. lia. }
  split; [done|]. eapply at6_only; [exact Ha|done|]. apply bytes_at_app. split; [|exact Hb].
  apply (only_bytes Ho); [|apply Ha]. intros a Hin [X|X].
  - eapply (clear_area (fr_buf fr) 32 (fr_tmp6 fr) 46); [regions (a6_frame _ _ Ha)| |exact X].
    unfold area in *. lia.
  - unfold area, tp in *. lia.
Qed.

Lemma hex_length w : is_u16 w -> (1 <= length (hex w) <= 4)%nat.
Proof.
  intros Hw. unfold hex. rewrite length_map. unfold shown, is_u16 in *. destruct (Z.eqb_spec w 0); [simpl; lia|].
  split; [apply digits_pos; unfold is_u64; lia|]. apply digits_short; [lia| |lia].
  change (16 ^ Z.of_nat 4) with 65536. lia.
Qed.

(** A group. *)
Lemma at6_hex s txt w :
  at6 s txt -> (length txt <= 40)%nat -> is_u16 w ->
  exists s1, sprintf lc wctomb strerror fmt_fp (fr_buf fr) (tp txt) (fr_fmtx fr) [Word w] s =
      Ok (Z.of_nat (length (hex w))) s1 /\
    at6 s1 (txt ++ hex w) /\ only text_locals s s1.
Proof.
  intros Ha Hl Hw. pose proof (hex_length w Hw) as Hlen. unfold is_u16 in Hw.
  pose proof (a6_frame _ _ Ha) as Hf. destruct (fo_tmp6 _ Hf) as [Hsp Hm%around_mapped].
  set (n := Z.of_nat (length (hex w)) + 2).
  assert (Hok : call_ok s (fr_buf fr) (tp txt) n (fr_fmtx fr) [x_conv]).
  { split.
    - repeat constructor; done.
    - done.
    - split; [apply Hf|]. split; [regions Hf|].
      eapply (disj_sub (fr_fmtx fr) 3 (fr_tmp6 fr) 46); [regions Hf|lia| |unfold tp; lia|unfold tp; lia].
      change (Z.of_nat (length (show [x_conv]))) with 2. lia.
    - apply Hf.
    - split; [lia|]. split; [unfold in_space, tp in *; lia|]. eapply mapped_sub; [exact Hm|unfold tp; lia|unfold tp; lia].
    - eapply (disj_sub (fr_buf fr) 32 (fr_tmp6 fr) 46); [regions Hf|lia|lia|unfold tp; lia|unfold tp; lia]. }
  destruct (sprintf_only (fr_buf fr) (tp txt) (fr_fmtx fr) [x_conv] [Word w] (hex w) [] s)
    as (s1 & Hr & Hb & Ho).
  { exact Hok. }
  { rewrite <- (app_nil_r (hex w)). apply int_writes; [by right; right|lia|apply writes_nil]. }
  { unfold INT_MAX. lia. }
  exists s1. split; [done|]. apply bytes_at_app in Hb as [Hb _].
  destruct (at6_more s s1 txt (hex w) n Ha Ho) as [Ho' Ha']; [lia|done|]. by split.
Qed.

(** The IPv4 address at the end. *)
Definition quad : list Z := bytes_of (drop 6 ws).

Lemma quad_bytes : length quad = 4%nat /\ Forall is_byte quad.
Proof.
  unfold quad. split; [rewrite bytes_of_length, length_drop; lia|]. by apply bytes_of_bytes, Forall_drop.
Qed.

Lemma at6_quad s txt :
  at6 s txt -> (length txt <= 8)%nat -> tmp4_bytes quad <= n4 ->
  exists s1, inet_ntop4 lc wctomb strerror fmt_fp fr (src + 12) (tp txt) (u32 (TMP6 - (tp txt - fr_tmp6 fr))) s =
      Ok (tp txt) s1 /\
    strlen (tp txt) s1 = Ok (Z.of_nat (length (dotted quad))) s1 /\
    at6 s1 (txt ++ dotted quad) /\ only text_locals s s1.
Proof.
  intros Ha Hl Hq. destruct quad_bytes as [HqL HqB]. pose proof (dotted_length quad HqL HqB) as Hlen.
  pose proof (a6_frame _ _ Ha) as Hf. destruct (fo_tmp6 _ Hf) as [Hsp Har].
  pose proof (around_mapped _ _ _ Har) as Hm. unfold in_space in Hsp.
  assert (Hdis : disj (tp txt) (Z.of_nat (length (dotted quad)) + 1) (fr_tmp4 fr) 16).
  { eapply (disj_sub (fr_tmp6 fr) 46 (fr_tmp4 fr) n4); [regions Hf|..]; unfold tp; lia. }
  assert (Hq4 : ntop4_call s (src + 12) (tp txt) quad).
  { split; [|done| |done].
    - pose proof (a6_src _ _ Ha) as Hb. rewrite <- (take_drop 6 ws), bytes_of_app in Hb.
      apply bytes_at_app in Hb as [_ Hb]. rewrite bytes_of_length, length_take, Hws in Hb. exact Hb.
    - split; [unfold tp; zlia|]. eapply mapped_sub; [exact Hm|unfold tp; lia|unfold tp; lia]. }
  destruct (inet_ntop4_ok s (src + 12) (tp txt) (u32 (TMP6 - (tp txt - fr_tmp6 fr))) quad Hf Hq4 HqB Hq)
    as (s1 & Hol & Ho & _ & Hr).
  rewrite u32_id in Hr |- * by (unfold TMP6, tp; lia).
  rewrite (proj2 (Z.ltb_ge _ _)) in Hr by (unfold TMP6, tp; lia).
  set (s2 := wrote s1 (tp txt) (dotted quad ++ [0])) in *. exists s2. split; [done|].
  assert (HF : Forall is_byte (dotted quad ++ [0])).
  { apply Forall_app. split; [by apply chars_bytes, dotted_chars|]. by apply Forall_singleton. }
  assert (Ho2 : only (area (tp txt) 16) s1 s2).
  { eapply only_weaken; [|apply only_wrote; [exact HF|]].
    - intros a. unfold area. rewrite length_app. simpl. lia.
    - apply (only_mapped Hol). rewrite length_app. eapply mapped_sub; [exact Hm|unfold tp; lia|unfold tp; simpl; lia]. }
  assert (Ho' : only text_locals s s2).
  { etrans; [eapply only_weaken; [|exact Ho]|eapply only_weaken; [|exact Ho2]]; intros a;
      unfold strings_at, text_locals, area, tp; lia. }
  assert (Hb2 : bytes_at (mem s2) (tp txt) (dotted quad ++ [0])) by apply write_bytes_at.
  split; [|split; [|done]].
  - apply strlen_ok.
    + split; [done|]. split; [by apply dotted_chars|]. unfold in_space, tp. lia.
    + apply (around_words _ (tp txt) 16); [by apply (only_wf Ho'), Hf| |].
      * apply (only_mapped Ho'). eapply (mapped_sub _ (fr_tmp6 fr - 3) 52 (tp txt - 3) 22); [exact Har|unfold tp; lia..].
      * lia.
  - eapply at6_only; [exact Ha|done|]. apply bytes_at_app in Hb2 as [Hb2 _]. apply bytes_at_app. split; [|done].
    apply (only_bytes Ho2); [apply clear_area; unfold disj, tp; lia|].
    apply (only_bytes Ho); [|apply Ha]. intros a Hin [X|X].
    + eapply (clear_area (fr_buf fr) 32 (fr_tmp6 fr) 46); [regions Hf| |exact X]. unfold area in *. lia.
    + eapply (clear_area (fr_tmp4 fr) n4 (fr_tmp6 fr) 46); [regions Hf| |exact X]. unfold area in *. lia.
Qed.

(** *** The formatting loop *)

Lemma group_u16 i : is_u16 (nth i ws 0).
Proof.
  destruct (ws !! i) as [w|] eqn:E.
  - rewrite (nth_lookup_Some _ _ _ _ E). by eapply Forall_lookup_1 in E.
  - rewrite nth_overflow by (by apply lookup_ge_None_1). unfold is_u16. lia.
Qed.

Lemma piece_length r i : (length (piece ws r i) <= 5)%nat.
Proof.
  unfold piece. destruct (in_run r (Z.of_nat i)); [destruct (_ =? _); simpl; lia|].
  pose proof (hex_length _ (group_u16 i)). rewrite length_app. destruct (i =? 0)%nat; simpl; lia.
Qed.

Lemma pieces_length r i : (length (pieces ws r i) <= 5 * i)%nat.
Proof.
  induction i as [|i IH]; [done|]. rewrite pieces_S, length_app. pose proof (piece_length r i). lia.
Qed.

Lemma load_group s txt i : at6 s txt -> (i < 8)%nat -> load32 (fr_words fr + 4 * Z.of_nat i) s = Ok (nth i ws 0) s.
Proof.
  intros Ha Hi. apply load_word with ws; [apply (a6_frame _ _ Ha)|apply Ha|done|].
  destruct (lookup_lt_is_Some_2 ws i ltac:(lia)) as [w Hw]. by rewrite (nth_lookup_Some _ _ _ _ Hw).
Qed.

Lemma encapsulated_ok s txt r i :
  at6 s txt -> encapsulated fr r (Z.of_nat i) s = Ok ((i =? 6)%nat && encapsulates ws r) s.
Proof.
  intros Ha. unfold encapsulated, encapsulates.
  replace (Z.of_nat i =? 6) with (i =? 6)%nat by (destruct (Nat.eqb_spec i 6); lia).
  destruct (i =? 6)%nat, (base r =? 0); simpl; try done. destruct (len r =? 6); [done|].
  destruct (len r =? 5); [|done]. by erewrite bind_ok by (apply (load_group s txt 5 Ha); lia).
Qed.

(** A group, or a zero of the run. *)
Lemma format_step s r i :
  at6 s (pieces ws r i) -> (i < 8)%nat -> (i =? 6)%nat && encapsulates ws r = false ->
  exists s1, format_body lc wctomb strerror fmt_fp fr src r (Z.of_nat i, tp (pieces ws r i)) s =
      Ok (inl (Z.of_nat (S i), tp (pieces ws r (S i)))) s1 /\
    at6 s1 (pieces ws r (S i)) /\ only text_locals s s1.
Proof.
  intros Ha Hi Henc. pose proof (pieces_length r i) as Hlen. set (txt := pieces ws r i) in *.
  rewrite pieces_S. fold txt. unfold format_body.
  rewrite (proj2 (Z.ltb_lt _ _)) by (change (NS_IN6ADDRSZ / NS_INT16SZ) with 8; lia).
  fold (in_run r (Z.of_nat i)). unfold piece. replace (Z.of_nat (S i)) with (Z.of_nat i + 1) by lia.
  destruct (in_run r (Z.of_nat i)).
  - destruct (Z.of_nat i =? base r).
    + destruct (at6_char s txt 58 Ha) as (HS & Ha1 & Ho1); [lia|zlia|].
      eexists. erewrite bind_ok by exact HS. rewrite tp_app. by split.
    + exists s. rewrite app_nil_r. by split.
  - assert (Hcol : exists s1, (if negb (Z.of_nat i =? 0) then store8 (tp txt) 58 ;; ret (tp txt + 1) else ret (tp txt)) s =
        Ok (tp (txt ++ (if (i =? 0)%nat then [] else [58]))) s1 /\
      at6 s1 (txt ++ (if (i =? 0)%nat then [] else [58])) /\ only text_locals s s1).
    { replace (Z.of_nat i =? 0) with (i =? 0)%nat by (destruct (Nat.eqb_spec i 0); lia).
      destruct (i =? 0)%nat; cbn [negb]; [exists s; rewrite app_nil_r; by split|].
      destruct (at6_char s txt 58 Ha) as (HS & Ha1 & Ho1); [lia|zlia|].
      eexists. erewrite bind_ok by exact HS. rewrite tp_app. by split. }
    destruct Hcol as (s1 & HC & Ha1 & Ho1). set (txt1 := txt ++ (if (i =? 0)%nat then [] else [58])) in *.
    erewrite bind_ok by exact HC. erewrite bind_ok by (by eapply encapsulated_ok). rewrite Henc. cbv iota.
    erewrite bind_ok by (eapply load_group; [exact Ha1|done]).
    destruct (at6_hex s1 txt1 (nth i ws 0) Ha1) as (s2 & Hr & Ha2 & Ho2); [|apply group_u16|].
    { unfold txt1. rewrite length_app. destruct (i =? 0)%nat; simpl; lia. }
    exists s2. erewrite bind_ok by exact Hr. rewrite (proj2 (Z.ltb_ge _ 0)) by lia.
    unfold txt1 in Ha2. rewrite <- app_assoc in Ha2. split; [|split; [done|by etrans]].
    unfold txt1. rewrite app_assoc, (tp_app _ (hex _)). done.
Qed.

Lemma encapsulates_run r :
  encapsulates ws r = true -> in_run r 6 = false /\ (length (pieces ws r 6) <= 6)%nat.
Proof.
  unfold encapsulates. intros H. destruct r as [b n]. cbn [base len] in H.
  assert (b = 0 /\ (n = 6 \/ n = 5)) as [-> [-> | ->]] by lia.
  - split; [done|]. simpl. lia.
  - split; [done|]. pose proof (hex_length _ (group_u16 5)). unfold pieces, piece. simpl. rewrite app_nil_r. lia.
Qed.

Definition body_text (r : zrun) : list Z :=
  if encapsulates ws r then pieces ws r 6 ++ [58] ++ dotted quad else pieces ws r 8.

Lemma format_quad s r :
  at6 s (pieces ws r 6) -> encapsulates ws r = true -> tmp4_bytes quad <= n4 ->
  exists s1, format_body lc wctomb strerror fmt_fp fr src r (6, tp (pieces ws r 6)) s =
      Ok (inr (Some (tp (body_text r)))) s1 /\ at6 s1 (body_text r) /\ only text_locals s s1.
Proof.
  intros Ha He Hq. destruct (encapsulates_run r He) as [Hin Hlen]. unfold body_text. rewrite He.
  set (txt := pieces ws r 6) in *. unfold format_body. fold (in_run r 6). rewrite Hin.
  change (6 <? NS_IN6ADDRSZ / NS_INT16SZ) with true. change (negb (6 =? 0)) with true. cbv iota.
  destruct (at6_char s txt 58 Ha) as (HS & Ha1 & Ho1); [lia|zlia|].
  set (s1 := wrote s (tp txt) [58]) in *. erewrite bind_ok by (by erewrite bind_ok by exact HS).
  erewrite bind_ok by (exact (encapsulated_ok s1 _ r 6 Ha1)). rewrite He. change ((6 =? 6)%nat && true) with true. cbv iota.
  assert (Et : tp txt + 1 = tp (txt ++ [58])) by (by rewrite tp_app). rewrite Et.
  destruct (at6_quad s1 (txt ++ [58]) Ha1) as (s2 & Hr & Hn & Ha2 & Ho2); [rewrite length_app; simpl; lia|done|].
  exists s2. erewrite bind_ok by exact Hr.
  rewrite (proj2 (Z.eqb_neq _ NULL)) by (pose proof (fo_tmp6 _ (a6_frame _ _ Ha)); unfold in_space, tp, NULL in *; lia).
  erewrite bind_ok by exact Hn. rewrite <- app_assoc in Ha2. split; [|split; [done|by etrans]].
  by rewrite <- tp_app, <- app_assoc.
Qed.

Lemma format_from r i s :
  at6 s (pieces ws r i) -> (i <= (if encapsulates ws r then 6 else 8))%nat ->
  (encapsulates ws r = true -> tmp4_bytes quad <= n4) ->
  exists s1, lrun (format_body lc wctomb strerror fmt_fp fr src r) (9 - Z.of_nat i)
      (Z.of_nat i, tp (pieces ws r i)) s (Some (tp (body_text r))) s1 /\
    at6 s1 (body_text r) /\ only text_locals s s1.
Proof.
  intros Ha Hi Hq. remember ((if encapsulates ws r then 6 else 8) - i)%nat as m eqn:Hm.
  revert i Hi Hm s Ha. induction m as [|m IH]; intros i Hi Hm s Ha.
  - destruct (encapsulates ws r) eqn:He.
    + assert (i = 6)%nat as -> by lia. destruct (format_quad s r Ha He (Hq eq_refl)) as (s1 & Hb & Ha1 & Ho1).
      exists s1. split; [|by split]. apply lrun_done; [exact Hb|lia].
    + assert (i = 8)%nat as -> by lia. exists s. unfold body_text. rewrite He. split; [|by split].
      apply lrun_done; [|lia]. done.
  - destruct (format_step s r i Ha) as (s1 & Hb & Ha1 & Ho1).
    { destruct (encapsulates ws r); lia. }
    { destruct (encapsulates ws r); [|apply andb_false_r]. by rewrite (proj2 (Nat.eqb_neq i 6)) by lia. }
    destruct (IH (S i) ltac:(lia) ltac:(lia) s1 Ha1) as (s2 & Hr & Ha2 & Ho2).
    exists s2. split; [|split; [done|by etrans]].
    eapply lrun_next; [exact Hb|]. eapply lrun_weaken; [exact Hr|lia].
Qed.

Lemma body_text_length r : (length (body_text r) <= 40)%nat.
Proof.
  unfold body_text. destruct (encapsulates ws r) eqn:He; [|apply (pieces_length r 8)].
  destruct (encapsulates_run r He) as [_ Hl]. destruct quad_bytes as [HqL HqB].
  pose proof (dotted_length quad HqL HqB). rewrite !length_app. simpl. lia.
Qed.
End Format.

Lemma hex_chars w : is_u16 w -> Forall is_char (hex w).
Proof.
  intros Hw. destruct (shown_hex w Hw) as (HF & _). unfold hex. apply Forall_map.
  eapply Forall_impl; [exact HF|]. intros d Hd. simpl in *. unfold digit_char, is_char.
  destruct (Z.ltb_spec d 10); lia.
Qed.

Lemma formatted6_chars ws r : length ws = 8%nat -> Forall is_u16 ws -> Forall is_char (formatted6 ws r).
Proof.
  intros Hl HF.
  assert (Hp : forall n, Forall is_char (pieces ws r n)).
  { induction n as [|n IH]; [constructor|]. rewrite pieces_S. apply Forall_app. split; [done|].
    unfold piece. destruct (in_run _ _); [destruct (_ =? _); by repeat constructor|].
    apply Forall_app. split; [destruct (_ =? _)%nat; by repeat constructor|]. by apply hex_chars, group_u16. }
  unfold formatted6, last_colon. apply Forall_app. split; [|destruct (_ && _); by repeat constructor].
  destruct (encapsulates ws r); [|done]. apply Forall_app. split; [done|]. constructor; [unfold is_char; lia|].
  apply dotted_chars; [rewrite bytes_of_length, length_drop; lia|by apply bytes_of_bytes, Forall_drop].
Qed.

(** What [inet_ntop6] works on: the address with the groups [ws] at [src],
    and [dst] with room for the text [txt]. *)
Record ntop6_call (s : state) (src dst : Z) (ws txt : list Z) : Prop := {
  n6_len : length ws = 8%nat;
  n6_u16 : Forall is_u16 ws;
  n6_src : bytes_at (mem s) src (bytes_of ws);
  n6_clear : clear_of locals src 16;
  n6_dst : is_u32 dst /\ mapped (mem s) dst (Z.of_nat (length txt) + 1);
  n6_apart : disj dst (Z.of_nat (length txt) + 1) (fr_tmp6 fr) 46;
}.

(** The groups are found. *)
Lemma ntop6_words s src ws :
  has_utility = true -> frame_ok s -> length ws = 8%nat -> Forall is_u16 ws ->
  bytes_at (mem s) src (bytes_of ws) -> clear_of locals src 16 ->
  exists s0 s1, memset (fr_words fr) 0 32 s = Ok (fr_words fr) s0 /\
    loop (words_body fr src) 0 s0 = Ok tt s1 /\ only locals s s1 /\ words_at s1 ws /\
    bytes_at (mem s1) src (bytes_of ws).
Proof.
  intros Hu Hf Hl HF Hb Hcl. destruct (fo_words _ Hf) as (Hp & Ha & Hm).
  set (s0 := wrote s (fr_words fr) (replicate 32 0)).
  assert (Ho0 : only (area (fr_words fr) 32) s s0) by (apply (only_wrote (fr_words fr) (replicate 32 0) s); [apply Forall_replicate; zlia|done]).
  assert (Hset : memset (fr_words fr) 0 32 s = Ok (fr_words fr) s0) by (by apply (memset_ok _ 0 32)).
  assert (Hin : forall a, area (fr_words fr) 32 a -> locals a) by (unfold locals; tauto).
  assert (Hd : disj (fr_words fr) 32 src 16) by (eapply clear_disj; [exact Hcl|done|lia|lia]).
  assert (Hb0 : bytes_at (mem s0) src (bytes_of ws)).
  { apply (only_bytes Ho0); [|done]. apply clear_area. by rewrite bytes_of_length, Hl. }
  clearbody s0.
  destruct (words_loop src ws [] s0) as (s1 & Hr & Ho1 & Hw); [done|by apply (only_mapped Ho0)|done|done| |done|done|].
  { change (2 * Z.of_nat (length [])) with 0. by rewrite Z.add_0_r. }
  exists s0, s1. split; [done|].
  split; [eapply loop_lrun; [exact Hr|lia]|]. assert (Ho : only (area (fr_words fr) 32) s s1) by (by etrans).
  split; [by eapply only_weaken|]. split; [done|].
  apply (only_bytes Ho1); [|done]. apply clear_area. by rewrite bytes_of_length, Hl.
Qed.

(** The last characters and the copy. *)
Lemma ntop6_end s src ws r txt dst size :
  length ws = 8%nat -> Forall is_u16 ws -> clear_of locals src 16 ->
  at6 src ws s (body_text ws r) -> formatted6 ws r = txt ->
  is_u32 dst -> mapped (mem s) dst (Z.of_nat (length txt) + 1) ->
  disj dst (Z.of_nat (length txt) + 1) (fr_tmp6 fr) 46 ->
  exists s1, only text_locals s s1 /\
    (let* tp := if negb (base r =? -1) && (base r + len r =? NS_IN6ADDRSZ / NS_INT16SZ)
       then store8 (tp (body_text ws r)) 58 ;; ret (tp (body_text ws r) + 1) else ret (tp (body_text ws r)) in
     store8 tp 0 ;;
     let tp := tp + 1 in
     if size <? u32 (tp - fr_tmp6 fr) then set_errno ENOSPC ;; ret NULL else strcpy dst (fr_tmp6 fr)) s =
    (if size <? Z.of_nat (length txt) + 1 then Ok NULL (put_errno s1 ENOSPC)
     else Ok dst (wrote s1 dst (txt ++ [0]))).
Proof.
  intros A B D Ha Et Hd1 Hd2 Hd3. pose proof (body_text_length ws A B r) as Hlen.
  change (NS_IN6ADDRSZ / NS_INT16SZ) with 8.
  assert (Hcol : exists s1, (if negb (base r =? -1) && (base r + len r =? 8)
      then store8 (tp (body_text ws r)) 58 ;; ret (tp (body_text ws r) + 1) else ret (tp (body_text ws r))) s =
      Ok (tp txt) s1 /\ at6 src ws s1 txt /\ only text_locals s s1).
  { rewrite <- Et. unfold formatted6. fold (quad ws). fold (body_text ws r). unfold last_colon.
    destruct (negb (base r =? -1) && (base r + len r =? 8)).
    - destruct (at6_char src ws A D s (body_text ws r) 58 Ha) as (HS & Ha1 & Ho1); [lia|zlia|].
      eexists. erewrite bind_ok by exact HS. rewrite tp_app. by split.
    - exists s. rewrite app_nil_r. by split. }
  assert (Htl : (length txt <= 41)%nat).
  { rewrite <- Et. unfold formatted6. fold (quad ws). fold (body_text ws r). unfold last_colon. rewrite length_app.
    destruct (_ && _); simpl; lia. }
  destruct Hcol as (s1 & HC & Ha1 & Ho1). erewrite bind_ok by exact HC.
  destruct (at6_char src ws A D s1 txt 0 Ha1) as (HS & Ha2 & Ho2); [lia|zlia|].
  erewrite bind_ok by exact HS. cbv zeta. set (s2 := wrote s1 (tp txt) [0]) in *.
  assert (Ho : only text_locals s s2) by (by etrans). exists s2. split; [done|].
  replace (tp txt + 1 - fr_tmp6 fr) with (Z.of_nat (length txt) + 1) by (unfold tp; lia). rewrite u32_id by lia.
  destruct (Z.ltb_spec size (Z.of_nat (length txt) + 1)); [done|].
  destruct (fo_tmp6 _ (a6_frame _ _ _ _ Ha2)) as [Hsp Har]. unfold in_space in Hsp.
  apply strcpy_ok; [done| |].
  - split; [|split].
    + split; [apply Ha2|]. split; [rewrite <- Et; by apply formatted6_chars|]. unfold in_space. lia.
    + apply (only_mapped Ho). by replace (Z.of_nat (S (length txt))) with (Z.of_nat (length txt) + 1) by lia.
    + eapply disj_sub; [exact Hd3|lia..].
  - eapply around_words; [apply (a6_frame _ _ _ _ Ha2)|exact Har|lia].
Qed.

(** The bytes [inet_ntop4] writes to when it is called for the end of the
    address. *)
Definition tmp4_bytes6 (ws : list Z) : Z :=
  if encapsulates ws (best_of (zero_pattern ws)) then tmp4_bytes (quad ws) else 16.

Lemma tmp4_bytes6_min ws : 16 <= tmp4_bytes6 ws.
Proof. unfold tmp4_bytes6. destruct (encapsulates _ _); [apply tmp4_bytes_min|lia]. Qed.

Lemma inet_ntop6_ok s src dst size ws :
  has_utility = true -> frame_ok s -> tmp4_bytes6 ws <= n4 ->
  let txt := text6 ws (run_of (best_of (zero_pattern ws))) in
  ntop6_call s src dst ws txt ->
  exists s1, only locals s s1 /\
    inet_ntop6 lc wctomb strerror fmt_fp fr src dst size s =
    (if size <? Z.of_nat (length txt) + 1 then Ok NULL (put_errno s1 ENOSPC)
     else Ok dst (wrote s1 dst (txt ++ [0]))).
Proof.
  intros Hu Hf Hq txt [A B C D E G].
  destruct (ntop6_words s src ws Hu Hf A B C D) as (s0 & s1 & H0 & H1 & Ho1 & Hw1 & Hb1).
  set (r := best_of (zero_pattern ws)) in *.
  destruct (best_of_checked (zero_pattern ws)) as [_ Hrun]; [unfold zero_pattern; by rewrite length_map|].
  fold r in Hrun. assert (Etxt : formatted6 ws r = txt) by (by apply formatted6_text6).
  assert (Hf1 : frame_ok s1) by (by eapply frame_only).
  assert (Ha1 : at6 src ws s1 (pieces ws r 0)) by (by split).
  destruct (format_from src ws A B D r 0 s1 Ha1) as (s2 & Hr2 & Ha2 & Ho2);
    [destruct (encapsulates ws r); lia|intros He; unfold tmp4_bytes6 in Hq; fold r in Hq; by rewrite He in Hq|].
  assert (Ho : only locals s s2).
  { etrans; [done|]. eapply only_weaken; [|exact Ho2]. unfold text_locals, locals. tauto. }
  destruct (ntop6_end s2 src ws r txt dst size A B D Ha2 Etxt) as (s3 & Ho3 & H3);
    [apply E|apply (only_mapped Ho), E|done|].
  exists s3. split.
  - etrans; [done|]. eapply only_weaken; [|exact Ho3]. unfold text_locals, locals. tauto.
  - unfold inet_ntop6. erewrite bind_ok by exact H0. erewrite bind_ok by exact H1.
    erewrite bind_ok by (apply (find_best_ok ws); try done; apply Hf1). fold r.
    assert (HL : loop (format_body lc wctomb strerror fmt_fp fr src r) (0, fr_tmp6 fr) s1 =
      Ok (Some (tp (body_text ws r))) s2).
    { apply loop_lrun with (9 - Z.of_nat 0); [|lia].
      change (pieces ws r 0) with ([] : list Z) in Hr2. unfold tp at 1 in Hr2. by rewrite Z.add_0_r in Hr2. }
    erewrite bind_ok by exact HL. exact H3.
Qed.
End Frame.
End Write.
