(* ===== verification/InetAton.v ===== *)
(** * Addresses in dotted numbers

    [inet_aton] reads one to four numbers in C's notation, with the last one
    filling what the others leave of the 32 bits.  Here are the language it
    accepts, as a function on strings ([parse_aton]: the values of the
    numbers, each modulo 2^32, and the address they make), the proof that it
    computes that function, and what the function is on the numerals of each
    base. *)

From Stdlib Require Import String.
From S2P Require Import Prelude CMem CType Words StrScan StrCopy Stdio Printf PrintfSpec PrintfParse Formatted.
From S2P Require Import Inet InetSpec InetRead.

(** ** The language *)

Definition is_space (c : Z) : bool := (c =? 32) || between 9 c 13.

(** The digits of a number: decimal ones in any base, letters in base 16. *)
Definition digit_of (b c : Z) : option Z :=
  if is_digit c then Some (c - 48)
  else if b =? 16 then
    if between 97 c 102 then Some (c - 87) else if between 65 c 70 then Some (c - 55) else None
  else None.

(** The digits [l] starts with, and what follows them. *)
Fixpoint digits_from (b : Z) (l : list Z) : list Z * list Z :=
  match l with
  | [] => ([], [])
  | c :: l' =>
      match digit_of b c with
      | Some d => let '(ds, r) := digits_from b l' in (d :: ds, r)
      | None => ([], l)
      end
  end.

(** [0x] is the prefix of base 16, [0] that of base 8. *)
Definition base_prefix (l : list Z) : Z * list Z :=
  match l with
  | c :: l' =>
      if c =? 48 then
        match l' with
        | x :: l'' => if (x =? 120) || (x =? 88) then (16, l'') else (8, l')
        | [] => (8, [])
        end
      else (10, l)
  | [] => (10, [])
  end.

(** A number in C's notation: its value, of any size, and what follows. *)
Definition c_number (l : list Z) : Z * list Z :=
  let '(b, l) := base_prefix l in
  let '(ds, r) := digits_from b l in (foldl (fun v d => b * v + d) 0 ds, r).

(** A number and up to [k] more behind dots, and what follows them. *)
Fixpoint c_numbers (k : nat) (l : list Z) : list Z * list Z :=
  let '(v, r) := c_number l in
  match k, r with
  | S k, c :: r' => if c =? 46 then let '(vs, r'') := c_numbers k r' in (v :: vs, r'') else ([v], r)
  | _, _ => ([v], r)
  end.

(** The end of the string, or white space. *)
Definition ends (l : list Z) : bool := match l with [] => true | c :: _ => is_space c end.

(** The value of one to four numbers: all but the last are octets, the last
    fills the remaining bits. *)
Definition address_of (vs : list Z) : option Z :=
  match vs with
  | [v] => Some v
  | [a; v] => if (a <=? 255) && (v <? 2 ^ 24) then Some (a * 2 ^ 24 + v) else None
  | [a; b; v] =>
      if (a <=? 255) && (b <=? 255) && (v <? 2 ^ 16) then Some (a * 2 ^ 24 + b * 2 ^ 16 + v) else None
  | [a; b; c; v] =>
      if (a <=? 255) && (b <=? 255) && (c <=? 255) && (v <? 2 ^ 8)
      then Some (a * 2 ^ 24 + b * 2 ^ 16 + c * 2 ^ 8 + v) else None
  | _ => None
  end.

(** The address of a string: that of its numbers, each modulo 2^32. *)
Definition parse_aton (l : list Z) : option Z :=
  let '(vs, r) := c_numbers 3 l in
  if ends r then address_of (map (fun v => v mod 2 ^ 32) vs) else None.

(** ** How the code reads it *)

(** The value, modulo 2^32, of the digits [l] starts with, after [v], and
    what follows them. *)
Fixpoint number_from (b v : Z) (l : list Z) : Z * list Z :=
  match l with
  | [] => (v, [])
  | c :: l' => match digit_of b c with Some d => number_from b (u32 (v * b + d)) l' | None => (v, l) end
  end.

Definition number (l : list Z) : Z * list Z := let '(b, l) := base_prefix l in number_from b 0 l.

(** Up to [k] further parts may follow. *)
Fixpoint parse_parts (k : nat) (parts l : list Z) : option Z :=
  let '(v, l') := number l in
  match l' with
  | c :: l'' =>
      if c =? 46 then
        match k with
        | O => None
        | S k => if 0xff <? v then None else parse_parts k (parts ++ [v]) l''
        end
      else if ends l' then concoct v parts else None
  | [] => concoct v parts
  end.

(** ** Numerals *)

Definition prefix_of (b : Z) : list Z := if b =? 16 then [48; 120] else if b =? 8 then [48] else [].

(** [n] as a C constant of base 8, 10 or 16. *)
Definition constant (b n : Z) : list Z := prefix_of b ++ map digit_char (shown b n).

Definition c_base (b : Z) : Prop := b = 8 \/ b = 10 \/ b = 16.

(** What may follow a number. *)
Definition stops (l : list Z) : Prop := match l with [] => True | c :: _ => 0 <= c < 48 end.

Lemma part_digit_char b d : c_base b -> 0 <= d < b -> digit_of b (digit_char d) = Some d.
Proof.
  unfold c_base, digit_of, is_digit, digit_char, between. intros Hb Hd. destruct (Z.ltb_spec d 10).
  - rewrite (proj2 (andb_true_iff _ _)) by lia. f_equal. lia.
  - assert (b = 16) as -> by lia. rewrite (proj2 (andb_false_iff _ _)) by lia.
    change (16 =? 16) with true. cbv iota. rewrite (proj2 (andb_true_iff _ _)) by lia. f_equal. lia.
Qed.

Lemma digit_of_stop b c : 0 <= c < 48 -> digit_of b c = None.
Proof.
  intros Hc. unfold digit_of, is_digit, between.
  rewrite (proj2 (andb_false_iff (48 <=? c) _)), (proj2 (andb_false_iff (97 <=? c) _)),
    (proj2 (andb_false_iff (65 <=? c) _)) by lia. by destruct (b =? 16).
Qed.

Lemma number_from_stop b v l : stops l -> number_from b v l = (v, l).
Proof. destruct l as [|c l]; [done|]. intros H. simpl. by rewrite digit_of_stop. Qed.

Lemma fold_grows b ds v :
  2 <= b -> 0 <= v -> Forall (fun d => 0 <= d < b) ds -> v <= foldl (fun v d => b * v + d) v ds.
Proof.
  intros Hb. revert v. induction ds as [|d ds IH]; intros v Hv HF; [done|]. apply Forall_cons in HF as [Hd HF].
  simpl. specialize (IH (b * v + d) ltac:(nia) HF). nia.
Qed.

Lemma number_from_digits b ds v l :
  c_base b -> Forall (fun d => 0 <= d < b) ds -> 0 <= v -> is_u32 (foldl (fun v d => b * v + d) v ds) -> stops l ->
  number_from b v (map digit_char ds ++ l) = (foldl (fun v d => b * v + d) v ds, l).
Proof.
  intros Hb HF Hv Hu Hl. assert (Hb2 : 2 <= b) by (unfold c_base in Hb; lia).
  revert v Hv Hu. induction ds as [|d ds IH]; intros v Hv Hu; [by apply number_from_stop|].
  apply Forall_cons in HF as [Hd HF]. simpl map. rewrite <- app_comm_cons. cbn [number_from foldl].
  rewrite part_digit_char by done. pose proof (fold_grows b ds (b * v + d) Hb2 ltac:(nia) HF) as Hg.
  cbn [foldl] in Hu. unfold is_u32 in Hu.
  replace (u32 (v * b + d)) with (b * v + d) by (rewrite u32_id; nia). apply IH; [done|nia|done].
Qed.

Lemma digits_head b n : 2 <= b -> 0 < n < 18446744073709551616 -> exists d ds, digits b n = d :: ds /\ 0 < d < b.
Proof.
  intros Hb Hn. destruct Hn as [Hn0 Hn]. revert Hn0 Hn.
  assert (Hp : 0 <= n -> 0 < n -> n < 18446744073709551616 -> exists d ds, digits b n = d :: ds /\ 0 < d < b);
    [|intros; apply Hp; lia].
  intros H0. revert n H0. apply (Z_lt_induction (fun n => 0 < n -> n < 18446744073709551616 ->
    exists d ds, digits b n = d :: ds /\ 0 < d < b)).
  intros n IH Hn0 Hn. rewrite digits_step by lia. destruct (Z_lt_le_dec n b).
  - rewrite Z.div_small, Z.mod_small, digits_0 by lia. by exists n, [].
  - destruct (IH (n / b)) as (d & ds & -> & Hd); [|apply Z.div_str_pos; lia|apply Z.div_lt_upper_bound; nia|].
    + split; [apply Z.div_pos; lia|]. apply Z.div_lt; lia.
    + by exists d, (ds ++ [n mod b]).
Qed.

Lemma shown_value b n :
  c_base b -> is_u32 n ->
  Forall (fun d => 0 <= d < b) (shown b n) /\ shown b n <> [] /\
  foldl (fun v d => b * v + d) 0 (shown b n) = n.
Proof.
  intros Hb Hn. unfold c_base, is_u32 in *.
  destruct (numeral_shown b digit_char n) as (_ & HF & Hne & _); [lia|unfold is_u64; lia|by left|].
  split; [done|]. split; [done|]. unfold shown. destruct (Z.eqb_spec n 0) as [->|]; [simpl; lia|].
  apply (digits_value_of b n); lia.
Qed.

(** Each numeral is read as its number. *)
Lemma number_constant b n l : c_base b -> is_u32 n -> stops l -> number (constant b n ++ l) = (n, l).
Proof.
  intros Hb Hn Hl. destruct (shown_value b n Hb Hn) as (HF & Hne & HV).
  assert (HN : number_from b 0 (map digit_char (shown b n) ++ l) = (n, l)).
  { rewrite <- HV at 2. apply number_from_digits; try done. by rewrite HV. }
  unfold constant, number. destruct Hb as [-> |[-> | ->]].
  - simpl app. unfold base_prefix. change (48 =? 48) with true. cbv iota.
    destruct (shown 8 n) as [|d ds]; [done|].
    apply Forall_cons in HF as [Hd _]. simpl map in *. rewrite <- app_comm_cons in *.
    rewrite (proj2 (orb_false_iff _ _)); [done|]. unfold digit_char. destruct (Z.ltb_spec d 10); lia.
  - simpl app. unfold shown in *. unfold is_u32 in Hn. destruct (Z.eqb_spec n 0) as [->|].
    + simpl. destruct l as [|x l]; [done|]. simpl in Hl. rewrite (proj2 (orb_false_iff _ _)) by lia.
      by rewrite number_from_stop.
    + destruct (digits_head 10 n) as (d & ds & E & Hd); [lia|lia|]. rewrite E in *. simpl map in *.
      rewrite <- app_comm_cons in *. unfold base_prefix. rewrite (proj2 (Z.eqb_neq _ 48)); [done|].
      unfold digit_char. destruct (Z.ltb_spec d 10); lia.
  - simpl app. done.
Qed.

Lemma lor_shiftl2 a b n m : 0 <= n -> 0 <= m -> 0 <= b < 2 ^ n ->
  Z.lor (Z.shiftl a (n + m)) (Z.shiftl b m) = Z.shiftl (a * 2 ^ n + b) m.
Proof. intros. by rewrite <- Z.shiftl_shiftl, <- Z.shiftl_lor, lor_shiftl by lia. Qed.

Lemma concoct_address vs v :
  Forall is_u32 vs -> is_u32 v ->
  Forall (fun a => a <= 255) vs -> concoct v vs = address_of (vs ++ [v]).
Proof.
  intros HF Hv Hle. unfold is_u32 in *.
  assert (K : forall x, 0 <= x <= 255 -> forall k, 0 <= k <= 24 -> u32 (Z.shiftl x k) = Z.shiftl x k).
  { intros x Hx k Hk. apply u32_id. rewrite Z.shiftl_mul_pow2 by lia.
    assert (2 ^ k <= 2 ^ 24) by (apply Z.pow_le_mono_r; lia). assert (0 < 2 ^ k) by lia.
    change (2 ^ 24) with 16777216 in *. nia. }
  destruct vs as [|a [|b [|c [|d vs]]]]; fcons; unfold address_of; simpl app; cbv iota; unfold concoct; [done|..];
    [| | |by destruct vs]; rewrite ?K by lia; rewrite ?(proj2 (Z.leb_le _ 255)) by done; cbv [andb].
  - destruct (Z.ltb_spec 0xffffff v), (Z.ltb_spec v (2 ^ 24)); try lia; try done.
    f_equal. rewrite Z.lor_comm, lor_shiftl by lia. lia.
  - destruct (Z.ltb_spec 0xffff v), (Z.ltb_spec v (2 ^ 16)); try lia; try done.
    f_equal. change 24 with (8 + 16) at 1. rewrite lor_shiftl2, Z.lor_comm, lor_shiftl by lia. lia.
  - destruct (Z.ltb_spec 0xff v), (Z.ltb_spec v (2 ^ 8)); try lia; try done.
    f_equal. change 24 with (8 + 16) at 1. rewrite lor_shiftl2 by lia. change 16 with (8 + 8) at 1.
    rewrite lor_shiftl2, Z.lor_comm, lor_shiftl by lia. lia.
Qed.

(** A list of constants, with their bases. *)
Definition constants (ps : list (Z * Z)) : list Z := joined 46 (map (fun p => constant p.1 p.2) ps).

Lemma parse_parts_constants k parts ps l :
  Forall (fun p => c_base p.1 /\ is_u32 p.2) ps -> Forall (fun a => is_u32 a /\ a <= 255) parts ->
  ps <> [] -> (length parts + k = 3)%nat -> stops l -> ends l = true ->
  parse_parts k parts (constants ps ++ l) = address_of (parts ++ map snd ps).
Proof.
  intros HF. revert k parts. induction HF as [|[b n] ps [Hb Hn] HF IH]; intros k parts HP Hne Hk Hl He; [done|].
  simpl in Hb, Hn. assert (HPu : Forall is_u32 parts /\ Forall (fun a => a <= 255) parts).
  { split; (eapply Forall_impl; [exact HP|]; by intros ? [? ?]). }
  destruct ps as [|q ps].
  - unfold constants. simpl joined. simpl map.
    assert (E : parse_parts k parts (constant b n ++ l) = concoct n parts).
    { destruct k; cbn [parse_parts]; rewrite number_constant by done; (destruct l as [|c l]; [done|]); rewrite He;
        (rewrite (proj2 (Z.eqb_neq c 46)); [done|]); unfold ends, is_space, between in He; lia. }
    rewrite E. apply concoct_address; [apply HPu|done|apply HPu].
  - unfold constants. rewrite map_cons, joined_cons by done. fold (constants (q :: ps)).
    rewrite <- app_assoc, <- app_comm_cons.
    assert (Hs : stops (46 :: constants (q :: ps) ++ l)) by (simpl; lia).
    destruct k as [|k]; cbn [parse_parts]; rewrite number_constant by done; change (46 =? 46) with true; cbn beta iota delta [fst snd map].
    + destruct parts as [|a1 [|a2 [|a3 [|]]]]; try (simpl in Hk; lia). simpl. by destruct (map snd ps).
    + destruct (Z.ltb_spec 0xff n).
      * simpl fst. destruct parts as [|a1 [|a2 [|a3 [|]]]]; try (simpl in Hk; lia).
        -- simpl. rewrite (proj2 (Z.leb_gt n 255)) by lia.
           destruct ps as [|? [|? [|? ?]]]; simpl; rewrite ?andb_false_r; try done.
        -- simpl. rewrite (proj2 (Z.leb_gt n 255)) by lia.
           destruct ps as [|? [|? ?]]; simpl; rewrite ?andb_false_r; try done.
        -- simpl. rewrite (proj2 (Z.leb_gt n 255)) by lia.
           destruct ps as [|? ?]; simpl; rewrite ?andb_false_r; try done.
      * rewrite IH; [by rewrite <- app_assoc| |done|rewrite length_app; simpl; lia|done|done].
        apply Forall_app. split; [done|]. by apply Forall_singleton.
Qed.

(** *** The two agree *)

Lemma fold_mod b ds v m :
  m <> 0 -> foldl (fun v d => b * v + d) (v mod m) ds mod m = foldl (fun v d => b * v + d) v ds mod m.
Proof.
  intros Hm. revert v. induction ds as [|d ds IH]; intros v; simpl; [by rewrite Z.mod_mod|].
  rewrite <- (IH (b * (v mod m) + d)), <- (IH (b * v + d)). do 2 f_equal.
  by rewrite <- Z.add_mod_idemp_l, Z.mul_mod_idemp_r, Z.add_mod_idemp_l.
Qed.

Lemma number_from_value b v l :
  is_u32 v ->
  number_from b v l = (foldl (fun v d => b * v + d) v (digits_from b l).1 mod 2 ^ 32, (digits_from b l).2).
Proof.
  revert v. induction l as [|c l IH]; intros v Hv; simpl; [by rewrite Z.mod_small by (unfold is_u32 in Hv; lia)|].
  destruct (digit_of b c) as [d|]; [|simpl; by rewrite Z.mod_small by (unfold is_u32 in Hv; lia)].
  rewrite IH by apply u32_range. destruct (digits_from b l) as [ds r]. simpl.
  change (u32 (v * b + d)) with ((v * b + d) mod 2 ^ 32). by rewrite fold_mod, (Z.mul_comm v) by lia.
Qed.

Lemma number_value l : number l = ((c_number l).1 mod 2 ^ 32, (c_number l).2).
Proof.
  unfold number, c_number. destruct (base_prefix l) as [b l1]. rewrite number_from_value by (unfold is_u32; lia).
  by destruct (digits_from b l1).
Qed.

(** An octet too large, and others behind it. *)
Lemma address_of_large parts v w vs : 255 < v -> address_of (parts ++ v :: w :: vs) = None.
Proof.
  intros Hv. assert (E : (v <=? 255) = false) by lia.
  destruct parts as [|a [|b [|c [|d parts]]]]; [| | | |by destruct parts as [|? [|? ?]]];
    destruct vs as [|? [|? [|? ?]]]; simpl; rewrite ?E, ?andb_false_r; done.
Qed.

Lemma c_numbers_nonempty k l : exists v vs, (c_numbers k l).1 = v :: vs.
Proof.
  destruct k; simpl; destruct (c_number l) as [v [|c r]]; simpl; eauto.
  destruct (c =? 46); [|eauto]. destruct (c_numbers k r). simpl. eauto.
Qed.

Lemma parse_parts_value k parts l :
  Forall (fun a => is_u32 a /\ a <= 255) parts ->
  parse_parts k parts l =
  if ends (c_numbers k l).2 then address_of (parts ++ map (fun v => v mod 2 ^ 32) (c_numbers k l).1) else None.
Proof.
  revert parts l. induction k as [|k IH]; intros parts l HP;
    assert (HPu : Forall is_u32 parts /\ Forall (fun a => a <= 255) parts)
      by (split; (eapply Forall_impl; [exact HP|]; by intros ? [? ?]));
    cbn [parse_parts c_numbers]; rewrite number_value; destruct (c_number l) as [v r]; cbn [fst snd];
    assert (Hv : is_u32 (v mod 2 ^ 32)) by (pose proof (Z.mod_pos_bound v (2 ^ 32) ltac:(lia)); unfold is_u32; lia);
    (assert (HC : concoct (v mod 2 ^ 32) parts = address_of (parts ++ [v mod 2 ^ 32])) by (apply concoct_address; [apply HPu|done|apply HPu]));
    destruct r as [|c r]; try exact HC; cbn [fst snd map].
  - destruct (Z.eqb_spec c 46) as [->|]; [done|]. by destruct (ends (c :: r)).
  - destruct (Z.eqb_spec c 46) as [->|]; [|cbn [fst snd map]; by destruct (ends (c :: r))].
    destruct (c_numbers_nonempty k r) as (w & ws & Ew).
    destruct (Z.ltb_spec 0xff (v mod 2 ^ 32)).
    + destruct (c_numbers k r) as [vs r']. cbn [fst snd] in *. subst vs. cbn [map].
      rewrite address_of_large by lia. by destruct (ends r').
    + rewrite IH by (apply Forall_app; split; [done|by apply Forall_singleton]).
      destruct (c_numbers k r) as [vs r']. cbn [fst snd map]. by rewrite <- app_assoc.
Qed.

Lemma parse_parts_aton l : parse_parts 3 [] l = parse_aton l.
Proof. rewrite parse_parts_value by done. unfold parse_aton. by destruct (c_numbers 3 l). Qed.

(** ** [inet_aton] computes it *)

Section Aton.
Context (lc : option Locale).
(** In the ASCII range the locale's hexadecimal digits are those of C. *)
Context (Hxdigit : forall c, 0 <= c < 128 ->
  negb (isxdigit lc c =? 0) = is_digit c || between 97 c 102 || between 65 c 70).

Lemma u32_add_mul v b d : u32 (u32 (v * b) + d) = u32 (v * b + d).
Proof. unfold u32. by rewrite Z.add_mod_idemp_l. Qed.

Lemma aton_digit b c p v s :
  is_char c -> c_base b -> mem s !! p = Some c ->
  aton_digits_body lc b (v, p) s =
  match digit_of b c with Some d => Ok (inl (u32 (v * b + d), p + 1)) s | None => Ok (inr (v, p)) s end.
Proof.
  intros Hc Hb Hp. unfold aton_digits_body, digit_of. erewrite bind_ok by (by apply load8_ok).
  unfold is_char in Hc. rewrite (proj2 (Z.eqb_neq c 0)) by lia.
  assert (Hdig : m_isdigit c = is_digit c).
  { unfold m_isdigit, is_digit, between. rewrite (u32_id c) by lia. unfold u32. Z.div_mod_to_equations. lia. }
  rewrite Hdig. destruct (Z_lt_le_dec c 128).
  2:{ unfold isascii, is_digit, between. rewrite (proj2 (Z.ltb_ge c 128)), andb_false_r by lia.
      rewrite (proj2 (Z.leb_gt c 57)), (proj2 (Z.leb_gt c 102)), (proj2 (Z.leb_gt c 70)), !andb_false_r by lia.
      change (negb (Z.b2z false =? 0)) with false. cbv iota. by destruct (b =? 16). }
  assert (Has : isascii c = 1) by (unfold isascii; rewrite (proj2 (Z.leb_le 0 c)), (proj2 (Z.ltb_lt c 128)) by lia; done).
  rewrite Has, Hxdigit by lia. change (negb (1 =? 0)) with true. cbn [andb].
  destruct (is_digit c); [by rewrite u32_add_mul|]. rewrite andb_true_r. cbn [orb].
  destruct (Z.eqb_spec b 16) as [->|]; [|done]. cbn [andb].
  rewrite Z.shiftl_mul_pow2, u32_add_mul by lia. change (2 ^ 4) with 16.
  assert (Hlow : m_islower c = between 97 c 122).
  { unfold m_islower, between. rewrite (u32_id c) by lia. unfold u32. Z.div_mod_to_equations. lia. }
  rewrite Hlow. unfold between in *.
  destruct (Z.leb_spec 97 c), (Z.leb_spec c 102), (Z.leb_spec 65 c), (Z.leb_spec c 70), (Z.leb_spec c 122);
    try lia; cbn [andb orb]; try done; unfold again, ret; do 5 f_equal; lia.
Qed.

Lemma aton_digits b l p v s :
  c_base b -> cstr (mem s) p l ->
  exists q, loop (aton_digits_body lc b) (v, p) s = Ok ((number_from b v l).1, q) s /\
    cstr (mem s) q (number_from b v l).2.
Proof.
  intros Hb Hl. pose proof (cstr_len _ _ _ Hl) as Hlen. unfold ADDR_MAX in Hlen.
  assert (Hp0 : 0 < p) by apply Hl.
  assert (H : exists q, lrun (aton_digits_body lc b) (Z.of_nat (length l) + 1) (v, p) s ((number_from b v l).1, q) s /\
    cstr (mem s) q (number_from b v l).2).
  { clear Hlen Hp0. revert p v Hl. induction l as [|c l IH]; intros p v Hl.
    - exists p. split; [|done]. apply lrun_done; [|simpl; lia]. unfold aton_digits_body.
      by erewrite bind_ok by (by apply load8_ok, cstr_nil).
    - pose proof Hl as (Hp & Hc & Hl')%cstr_cons. pose proof (aton_digit b c p v s Hc Hb Hp) as Hs.
      cbn [number_from]. destruct (digit_of b c).
      + destruct (IH (p + 1) (u32 (v * b + z)) Hl') as (q & Hr & Hq). exists q. split; [|done].
        eapply lrun_next; [exact Hs|]. eapply lrun_weaken; [exact Hr|simpl; lia].
      + exists p. split; [|done]. apply lrun_done; [exact Hs|simpl; lia]. }
  destruct H as (q & Hr & Hq). exists q. split; [|done]. eapply loop_lrun; [exact Hr|lia].
Qed.

Lemma aton_base_ok l p s :
  cstr (mem s) p l ->
  exists q, aton_base p s = Ok ((base_prefix l).1, q) s /\ cstr (mem s) q (base_prefix l).2 /\ c_base (base_prefix l).1.
Proof.
  intros Hl. unfold aton_base, c_base. destruct l as [|c l].
  - erewrite bind_ok by (by apply load8_ok, cstr_nil). exists p. simpl. auto.
  - pose proof Hl as (Hp & Hc & Hl')%cstr_cons. erewrite bind_ok by (by apply load8_ok). simpl.
    destruct (c =? 48); [|exists p; simpl; auto].
    destruct l as [|x l].
    + erewrite bind_ok by (by apply load8_ok, cstr_nil). exists (p + 1). simpl. auto.
    + pose proof Hl' as (Hx & _ & Hl'')%cstr_cons. erewrite bind_ok by (by apply load8_ok).
      destruct ((x =? 120) || (x =? 88)); [|exists (p + 1); simpl; auto].
      exists (p + 2). replace (p + 1 + 1) with (p + 2) in Hl'' by lia. simpl. auto.
Qed.

(** What the loop over the parts leaves behind. *)
Definition parts_result (s : state) (o : option Z) (r : option (Z * Z * list Z)) : Prop :=
  match r with
  | None => o = None
  | Some (v, q, parts) => exists l, cstr (mem s) q l /\ o = if ends l then concoct v parts else None
  end.

(** One part is one number. *)
Lemma aton_part parts l p s :
  cstr (mem s) p l ->
  exists q, cstr (mem s) q (number l).2 /\
    aton_body lc (p, parts) s =
    let v := (number l).1 in
    match (number l).2 with
    | [] => Ok (inr (Some (v, q, parts))) s
    | c :: _ =>
        if c =? 46 then
          if (3 <=? Z.of_nat (length parts)) || (0xff <? v) then Ok (inr None) s
          else Ok (inl (q + 1, parts ++ [v])) s
        else Ok (inr (Some (v, q, parts))) s
    end.
Proof.
  intros Hl. destruct (aton_base_ok l p s Hl) as (q & HB & Hq & Hb).
  destruct (aton_digits (base_prefix l).1 (base_prefix l).2 q 0 s Hb Hq) as (q' & HL & Hq').
  unfold number. destruct (base_prefix l) as [b l1]. cbn [fst snd] in *. exists q'. split; [done|].
  unfold aton_body. erewrite bind_ok by exact HB. cbv beta iota. erewrite bind_ok by exact HL. cbv beta iota.
  destruct (number_from b 0 l1) as [v [|c l2]]; cbn [fst snd] in *.
  - by erewrite bind_ok by (by apply load8_ok, cstr_nil).
  - apply cstr_cons in Hq' as (Hc & _ & _). erewrite bind_ok by (by apply load8_ok).
    destruct (c =? 46); [|done]. by destruct (_ || _).
Qed.

Lemma aton_parts k parts l p s :
  cstr (mem s) p l -> (length parts + k = 3)%nat ->
  exists r, lrun (aton_body lc) (Z.of_nat k + 1) (p, parts) s r s /\ parts_result s (parse_parts k parts l) r.
Proof.
  revert parts l p. induction k as [|k IH]; intros parts l p Hl Hk;
    destruct (aton_part parts l p s Hl) as (q & Hq & HS); cbn [parse_parts];
    destruct (number l) as [v l']; cbn [fst snd] in *; cbv zeta in HS;
    (destruct l' as [|c l']; [exists (Some (v, q, parts)); split; [apply lrun_done; [exact HS|lia]|by exists []]|]);
    pose proof Hq as (_ & _ & Hl')%cstr_cons.
  - destruct (c =? 46); [rewrite (proj2 (Z.leb_le 3 _)) in HS by lia; exists None|exists (Some (v, q, parts))];
      (split; [apply lrun_done; [exact HS|lia]|]); [done|by exists (c :: l')].
  - rewrite (proj2 (Z.leb_gt 3 (Z.of_nat (length parts)))) in HS by lia. cbn [orb] in HS.
    destruct (c =? 46); [destruct (0xff <? v)|].
    + exists None. split; [apply lrun_done; [exact HS|lia]|done].
    + destruct (IH (parts ++ [v]) l' (q + 1) Hl') as (r & Hr & HR); [rewrite length_app; simpl; lia|].
      exists r. split; [|done]. eapply lrun_next; [exact HS|]. eapply lrun_weaken; [exact Hr|lia].
    + exists (Some (v, q, parts)). split; [apply lrun_done; [exact HS|lia]|by exists (c :: l')].
Qed.

Lemma inet_aton_ok cp addr l s :
  cstr (mem s) cp l -> 0 < addr -> addr mod 4 = 0 -> mapped (mem s) addr 4 ->
  inet_aton lc cp addr s =
  match parse_aton l with Some v => Ok 1 (wrote s addr (word_bytes v)) | None => Ok 0 s end.
Proof.
  intros Hl Hpos Hal Hm. assert (0 < cp) by apply Hl. unfold inet_aton.
  rewrite (proj2 (Z.eqb_neq cp NULL)), (proj2 (Z.eqb_neq addr NULL)) by (unfold NULL; lia). cbn [orb].
  destruct (aton_parts 3 [] l cp s Hl) as (r & Hr & HR); [done|]. rewrite parse_parts_aton in HR.
  erewrite bind_ok by (eapply loop_lrun; [exact Hr|lia]).
  destruct r as [[[v q] parts]|]; [|by rewrite HR]. destruct HR as (l' & Hq & ->).
  assert (Hst : forall v, (store32 addr v ;; ret 1) s = Ok 1 (wrote s addr (word_bytes v))).
  { intros w. by erewrite bind_ok by (by apply store32_ok). }
  destruct l' as [|c l'].
  - erewrite bind_ok by (by apply load8_ok, cstr_nil). simpl. destruct (concoct v parts); [apply Hst|done].
  - apply cstr_cons in Hq as (Hc & Hch & _). erewrite bind_ok by (by apply load8_ok).
    assert (E : negb (c =? 0) && ((isascii c =? 0) || negb (m_isspace c)) = negb (is_space c)).
    { unfold is_char in Hch. unfold isascii, m_isspace, is_space, between. rewrite (u32_id c) by lia.
      unfold u32. destruct (Z.ltb_spec c 128); [|rewrite andb_false_r; Z.div_mod_to_equations; lia].
      rewrite (proj2 (Z.leb_le 0 c)) by lia. change (Z.b2z (true && true) =? 0) with false.
      Z.div_mod_to_equations. lia. }
    rewrite E. cbn [ends]. destruct (is_space c); cbn [negb]; [|done]. destruct (concoct v parts); [apply Hst|done].
Qed.
End Aton.

(** A dotted quad is read as its four octets. *)
Lemma dotted_constants b : dotted b = constants (map (fun x => (10, x)) b).
Proof. unfold dotted, constants. f_equal. rewrite map_map. apply map_ext. done. Qed.

Lemma parse_aton_dotted v : is_u32 v -> parse_aton (dotted (word_bytes v)) = Some v.
Proof.
  intros Hv. rewrite dotted_constants, <- (app_nil_r (constants _)), <- parse_parts_aton.
  rewrite parse_parts_constants; try done.
  - simpl map. simpl app. unfold address_of.
    pose proof (u8_range (v / 16777216)) as R0. pose proof (u8_range (v / 65536)) as R1.
    pose proof (u8_range (v / 256)) as R2. pose proof (u8_range v) as R3. unfold is_byte in *.
    rewrite !(proj2 (Z.leb_le _ 255)), (proj2 (Z.ltb_lt _ (2 ^ 8))) by lia. cbn [andb]. f_equal.
    rewrite <- (word_bytes_value v Hv) at 5. unfold word_of. lia.
  - unfold word_bytes. simpl map. repeat (apply Forall_cons; split; [|]); try done;
      (split; [right; by left|]); simpl; match goal with |- is_u32 (u8 ?x) => pose proof (u8_range x) end;
      unfold is_byte, is_u32 in *; lia.
Qed.

