(* ===== verification/Addresses.v ===== *)
(** * Internet addresses: the theorems

    What [inet_ntop] writes and [inet_pton] reads, that reading inverts
    writing for both address families, the same for [inet_ntoa] and
    [inet_aton], and the arithmetic of network classes. *)

From Stdlib Require Import String.
From S2P Require Import Prelude CMem Cells CType Words StrScan StrCopy StrAsm Stdio Streams Output Printf.
From S2P Require Import PrintfSpec PrintfWrite PrintfParse PrintfCore Formatted Typed Inet InetSpec InetRead InetWrite InetAton.

(** ** [inet_pton] *)

Section Reading.
Context `{HM : SysMem} `{!SysMemLaws HM} (Hutil : has_utility = true).
Context (lc : option Locale) (tmp4 tmp6 xdig : Z).
Context (Hlower : forall c, is_char c ->
  (c < 128 -> tolower lc c = lower c) /\ (128 <= c -> 128 <= tolower lc c < 256)).
Context (Hnul : tolower lc 0 = 0).

(** A call of [inet_pton]: the string [l] at [src], and 16 bytes at [dst]. *)
Record pton_call (s : state) (src dst : Z) (l : list Z) : Prop := {
  pc_env : env6 tmp4 tmp6 xdig s;
  pc_dst : dest6 tmp6 s dst;
  pc_dst4 : disj dst 16 tmp4 4;
  pc_src : cstr (mem s) src l;
  pc_clear : clear_of (locals6 tmp4 tmp6) src (Z.of_nat (length l) + 1);
}.

Lemma pton4_of_call s src dst l : pton_call s src dst l -> pton4_call s tmp4 src dst l.
Proof.
  intros [[_ _ _ _ (E1 & E2 & _)] [F1 F2 F3] G H I]. split; [done| |].
  - split; [done|]. split; [done|]. eapply clear_disj; [exact I|by right|lia|lia].
  - split; [done|]. split; [eapply mapped_sub; [exact F2|lia|lia]|]. unfold disj in *. lia.
Qed.

Lemma inet_pton_ok af src dst l s :
  pton_call s src dst l -> af = AF_INET \/ af = AF_INET6 ->
  exists s1, only (locals6 tmp4 tmp6) s s1 /\
    inet_pton lc tmp4 tmp6 xdig af src dst s =
    match (if af =? AF_INET then parse4 l else parse6 l) with
    | Some b => Ok 1 (wrote s1 dst b)
    | None => Ok 0 s1
    end.
Proof.
  intros Hc [-> | ->]; unfold inet_pton.
  - destruct (inet_pton4_ok s tmp4 src dst l (pton4_of_call _ _ _ _ Hc)) as (s1 & Ho & Hr).
    exists s1. split; [|exact Hr]. eapply only_weaken; [|exact Ho]. by right.
  - destruct Hc as [A B C D E]. exact (inet_pton6_ok Hutil lc tmp4 tmp6 xdig Hlower Hnul s src dst l A B D E).
Qed.

(** C17: [inet_pton] reads any string, valid or not.  For [AF_INET] it accepts
    the dotted quads of four decimal octets without leading zeros, and
    nothing else; for [AF_INET6] it computes [parse6]: groups of hexadecimal
    digits, [::] at most once, a dotted quad at the end.  An accepted string
    gives 1 and the bytes of the address at [dst]; any other gives 0 and
    [dst] is not touched; in no case does anything else change but the
    function's own arrays.  Other families are [EAFNOSUPPORT]. *)
Theorem inet_pton_correct af src dst l s :
  pton_call s src dst l ->
  (af = AF_INET \/ af = AF_INET6 ->
   exists s1, only (locals6 tmp4 tmp6) s s1 /\
     inet_pton lc tmp4 tmp6 xdig af src dst s =
     match (if af =? AF_INET then parse4 l else parse6 l) with
     | Some b => Ok 1 (wrote s1 dst b)
     | None => Ok 0 s1
     end) /\
  (forall b, parse4 l = Some b <-> l = dotted b /\ length b = 4%nat /\ Forall is_byte b) /\
  (af <> AF_INET -> af <> AF_INET6 ->
   inet_pton lc tmp4 tmp6 xdig af src dst s = Ok (-1) (put_errno s EAFNOSUPPORT)).
Proof.
  intros Hc. split; [by apply inet_pton_ok|]. split; [intros b; apply parse4_spec|].
  intros H1 H2. unfold inet_pton. by rewrite (proj2 (Z.eqb_neq _ _) H1), (proj2 (Z.eqb_neq _ _) H2).
Qed.
End Reading.

(** ** [inet_ntop] *)

Section Writing.
Context `{HM : SysMem} `{HD : Dos} `{!SysMemLaws HM} `{!DosLaws HD} `{!SysTyped HM} `{!DosTyped HD} {F : Type}.
Context (Hutil : has_utility = true).
Context (lc : option Locale) (wctomb : Z -> M (Z * list Z)) (strerror : Z -> M Z).
Context (fmt_fp : Out -> F -> Z -> Z -> Z -> Z -> M (Z * Out)).
Context (Hdigit : forall c, is_byte c -> digit_r lc c = is_digit c).
Context (wctomb_typed : forall w, Typed (wctomb w)) (strerror_typed : forall e, Typed (strerror e)).
Context (fmt_fp_typed : forall o d w p fl t, Typed (fmt_fp o d w p fl t)).
Context (fr : frame).

(** The run of zeros that is shortened. *)
Definition chosen (ws : list Z) : option (nat * nat) := run_of (best_of (zero_pattern ws)).

(** C18: [inet_ntop] writes the text of an address to [dst] and returns
    [dst]: for [AF_INET] the dotted quad, for [AF_INET6] the groups in
    lower-case hexadecimal without leading zeros, with [::] for the longest
    run of at least two zero groups (the first of them if there are several)
    and the last four bytes as a dotted quad behind [::] and [::ffff:].  When
    the text does not fit into [size] the result is null and [errno] is
    [ENOSPC] -- but for [AF_INET] the terminator is not counted, so that a
    text of [size] characters is written with its terminator behind [dst].
    Other families are [EAFNOSUPPORT].

    Only the functions' arrays are written to.  A dotted quad of 15 characters
    is the exception: [sprintf] ends it with two null characters, of which the
    second goes to the byte behind the 16 bytes of [tmp] of [inet_ntop4].  In
    this case the theorem asks for that byte to be mapped and apart from the
    other arrays and the format strings, and counts it to what is written;
    for [AF_INET] it says that the byte becomes zero. *)
Theorem inet_ntop_correct af src dst size s :
  (forall b, frame_ok fr (tmp4_bytes b) s -> ntop4_call fr s src dst b -> Forall is_byte b ->
   exists s1, only (locals fr (tmp4_bytes b)) s s1 /\ bytes_at (mem s1) (fr_tmp4 fr) (dotted b ++ [0; 0]) /\
     inet_ntop lc wctomb strerror fmt_fp fr AF_INET src dst size s =
     (if size <? Z.of_nat (length (dotted b)) then Ok NULL (put_errno s1 ENOSPC)
      else Ok dst (wrote s1 dst (dotted b ++ [0])))) /\
  (forall ws, frame_ok fr (tmp4_bytes6 ws) s -> ntop6_call fr (tmp4_bytes6 ws) s src dst ws (text6 ws (chosen ws)) ->
   longest ws (chosen ws) /\
   exists s1, only (locals fr (tmp4_bytes6 ws)) s s1 /\
     inet_ntop lc wctomb strerror fmt_fp fr AF_INET6 src dst size s =
     (if size <? Z.of_nat (length (text6 ws (chosen ws))) + 1 then Ok NULL (put_errno s1 ENOSPC)
      else Ok dst (wrote s1 dst (text6 ws (chosen ws) ++ [0])))) /\
  (af <> AF_INET -> af <> AF_INET6 ->
   inet_ntop lc wctomb strerror fmt_fp fr af src dst size s = Ok NULL (put_errno s EAFNOSUPPORT)).
Proof.
  split; [|split].
  - intros b Hf Hc HF. destruct (inet_ntop4_ok lc wctomb strerror fmt_fp Hdigit wctomb_typed strerror_typed
      fmt_fp_typed fr _ s src dst size b Hf Hc HF (Z.le_refl _)) as (s1 & Ho & _ & Hb & Hr). by exists s1.
  - intros ws Hf Hc. split; [apply best_longest, Hc|].
    exact (inet_ntop6_ok lc wctomb strerror fmt_fp Hdigit wctomb_typed strerror_typed fmt_fp_typed fr
      _ (tmp4_bytes6_min ws) s src dst size ws Hutil Hf (Z.le_refl _) Hc).
  - intros H1 H2. unfold inet_ntop. by rewrite (proj2 (Z.eqb_neq _ _) H1), (proj2 (Z.eqb_neq _ _) H2).
Qed.

(** ** Reading what was written *)

Context (tmp4 tmp6 xdig : Z).
Context (Hlower : forall c, is_char c ->
  (c < 128 -> tolower lc c = lower c) /\ (128 <= c -> 128 <= tolower lc c < 256)).
Context (Hnul : tolower lc 0 = 0).

(** The text goes to the 46 bytes ([INET6_ADDRSTRLEN]) at [dst], the address
    read back to [out]; the arrays of the two functions may overlap.  The first
    writes to [n4] bytes from its [tmp] on. *)
Record both_calls (n4 : Z) (s : state) (dst out : Z) : Prop := {
  bc_frame : frame_ok fr n4 s;
  bc_env : env6 tmp4 tmp6 xdig s;
  bc_xdig : clear_of (locals fr n4) xdig 17 /\ disj dst 46 xdig 17;
  bc_dst : in_space dst 46 /\ mapped (mem s) dst 46;
  bc_clear : clear_of (locals fr n4) dst 46 /\ clear_of (locals6 tmp4 tmp6) dst 46;
  bc_out : dest6 tmp6 s out /\ disj out 16 tmp4 4;
}.

(** Once the text is written, [inet_pton] can be called. *)
Lemma written_call n4 s s1 dst out txt :
  both_calls n4 s dst out -> only (locals fr n4) s s1 -> Forall is_char txt -> (length txt < 46)%nat ->
  pton_call tmp4 tmp6 xdig (wrote s1 dst (txt ++ [0])) dst out txt.
Proof.
  intros [A [B1 B2 B3 B4 B5] [C1 C2] [D1 D2] [E1 E2] [[F1 F2 F3] F4]] Ho Htxt Hlen.
  assert (Ho2 : only (area dst 46) s1 (wrote s1 dst (txt ++ [0]))).
  { eapply only_weaken; [|apply only_wrote].
    - intros a. unfold area. rewrite length_app. simpl. lia.
    - apply Forall_app. split; [|apply Forall_singleton; zlia]. eapply Forall_impl; [exact Htxt|].
      unfold is_char, is_byte. lia.
    - apply (only_mapped Ho). eapply mapped_sub; [exact D2|lia|rewrite length_app; simpl; lia]. }
  split.
  - split.
    + apply (only_cstr Ho2); [by apply clear_area|]. by apply (only_cstr Ho).
    + by apply (only_words Ho2), (only_words Ho).
    + done.
    + split; [apply B4|]. apply (only_mapped Ho2), (only_mapped Ho), B4.
    + split; [apply B5|]. split; [|apply B5]. apply (only_mapped Ho2), (only_mapped Ho), B5.
  - split; [done|by apply (only_mapped Ho2), (only_mapped Ho)|done].
  - done.
  - split; [apply write_bytes_at|]. split; [done|]. unfold in_space in *. lia.
  - eapply clear_sub; [exact E2|lia|lia].
Qed.

(** The text of an IPv6 address fits, and is read back. *)
Lemma chosen_text ws :
  length ws = 8%nat -> Forall is_u16 ws ->
  Forall is_char (text6 ws (chosen ws)) /\ (length (text6 ws (chosen ws)) <= 41)%nat /\
  parse6 (text6 ws (chosen ws)) = Some (bytes_of ws).
Proof.
  intros Hl HF. unfold chosen. set (r := best_of (zero_pattern ws)).
  destruct (best_of_checked (zero_pattern ws)) as [_ Hrun]; [unfold zero_pattern; by rewrite length_map|].
  fold r in Hrun. pose proof (best_longest ws Hl) as Hlong. fold r in Hlong.
  split; [|split].
  - rewrite <- formatted6_text6 by done. by apply formatted6_chars.
  - rewrite <- formatted6_text6 by done. pose proof (body_text_length ws Hl HF r) as Hb.
    unfold body_text, quad in Hb. unfold formatted6, last_colon. rewrite length_app.
    destruct (negb _ && _); cbn [length]; lia.
  - apply parse6_text6; [done..|]. destruct (run_of r) as [[b n]|]; [|done].
    destruct Hlong as (Hn & Hz & _). split; [done|]. split; [|done].
    pose proof (zero_run_bound _ _ _ Hz ltac:(lia)). lia.
Qed.

Lemma read_back s1 af dst out txt b :
  pton_call tmp4 tmp6 xdig s1 dst out txt -> af = AF_INET \/ af = AF_INET6 ->
  (if af =? AF_INET then parse4 txt else parse6 txt) = Some b ->
  exists s2, inet_pton lc tmp4 tmp6 xdig af dst out s1 = Ok 1 s2 /\ bytes_at (mem s2) out b /\ errno s2 = errno s1.
Proof.
  intros Hp Haf Hb. destruct (inet_pton_ok Hutil lc tmp4 tmp6 xdig Hlower Hnul af dst out txt s1 Hp Haf) as (s2 & Ho & Hr).
  rewrite Hb in Hr. eexists. split; [exact Hr|]. split; [apply write_bytes_at|]. apply (only_errno _ _ _ Ho).
Qed.

(** What holds of every address: where its text goes. *)
Lemma dst_apart n4 s dst out : both_calls n4 s dst out ->
  forall p n k, (forall a, area p n a -> locals fr n4 a) -> 0 < n -> 0 < k <= 46 -> disj dst k p n.
Proof.
  intros Hc p n k Hin Hn Hk. destruct (bc_clear _ _ _ _ Hc) as [Hcl _].
  apply disj_sym. eapply clear_disj; [|exact Hin|lia|lia]. eapply clear_sub; [exact Hcl|lia|lia].
Qed.

(** C16: an address of either family survives [inet_ntop] followed by
    [inet_pton]: for each four bytes, and each eight groups of 16 bits, the
    text of the address fits into 46 bytes ([INET6_ADDRSTRLEN]), both calls
    succeed, and the bytes read back are those of the address; [errno] stays
    as it was.  The two functions' arrays may share memory.  For a dotted quad
    of 15 characters, which overruns the 16 bytes of [tmp] of [inet_ntop4] by
    one, the byte behind [tmp] has to be mapped and apart from the other
    arrays, the format strings and [dst], like [tmp] itself. *)
Theorem inet_ntop_pton_roundtrip s src dst out :
  (forall b, both_calls (tmp4_bytes b) s dst out ->
   length b = 4%nat -> Forall is_byte b -> bytes_at (mem s) src b ->
   exists s1 s2, inet_ntop lc wctomb strerror fmt_fp fr AF_INET src dst 46 s = Ok dst s1 /\
     inet_pton lc tmp4 tmp6 xdig AF_INET dst out s1 = Ok 1 s2 /\
     bytes_at (mem s2) out b /\ errno s2 = errno s) /\
  (forall ws, both_calls (tmp4_bytes6 ws) s dst out ->
   length ws = 8%nat -> Forall is_u16 ws -> bytes_at (mem s) src (bytes_of ws) ->
   clear_of (locals fr (tmp4_bytes6 ws)) src 16 ->
   exists s1 s2, inet_ntop lc wctomb strerror fmt_fp fr AF_INET6 src dst 46 s = Ok dst s1 /\
     inet_pton lc tmp4 tmp6 xdig AF_INET6 dst out s1 = Ok 1 s2 /\
     bytes_at (mem s2) out (bytes_of ws) /\ errno s2 = errno s).
Proof.
  split.
  - intros b Hc Hl HF Hb. destruct (bc_dst _ _ _ _ Hc) as [[Hd1 Hd2] Hd3]. pose proof (dst_apart _ _ _ _ Hc) as Hap.
    pose proof (dotted_length b Hl HF) as Hlen. pose proof (tmp4_bytes_min b) as Hmin.
    destruct (inet_ntop4_ok lc wctomb strerror fmt_fp Hdigit wctomb_typed strerror_typed fmt_fp_typed fr _
      s src dst 46 b (bc_frame _ _ _ _ Hc)) as (s1 & Ho & _ & _ & Hr); [split|done|lia|]; try done.
    { split; [unfold is_u32, ADDR_MAX in *; lia|]. eapply mapped_sub; [exact Hd3|lia|lia]. }
    { eapply (disj_sub dst (Z.of_nat (length (dotted b)) + 1) (fr_tmp4 fr) (tmp4_bytes b)); [apply Hap; [unfold locals; tauto|lia|]|..]; lia. }
    rewrite (proj2 (Z.ltb_ge 46 _)) in Hr by lia.
    destruct (read_back (wrote s1 dst (dotted b ++ [0])) AF_INET dst out (dotted b) b) as (s2 & Hr2 & Hb2 & He2);
      [by eapply written_call; [..|apply dotted_chars|lia]|by left|by apply parse4_dotted|].
    eexists. exists s2. split; [exact Hr|]. split; [done|]. split; [done|]. rewrite He2. apply (only_errno _ _ _ Ho).
  - intros ws Hc Hl HF Hb Hsrc. destruct (bc_dst _ _ _ _ Hc) as [[Hd1 Hd2] Hd3]. pose proof (dst_apart _ _ _ _ Hc) as Hap.
    destruct (chosen_text ws Hl HF) as (Hch & Hlen & Hparse).
    destruct (inet_ntop6_ok lc wctomb strerror fmt_fp Hdigit wctomb_typed strerror_typed fmt_fp_typed fr
      _ (tmp4_bytes6_min ws) s src dst 46 ws Hutil (bc_frame _ _ _ _ Hc) (Z.le_refl _)) as (s1 & Ho & Hr); [split; try done|].
    { split; [unfold is_u32, ADDR_MAX in *; lia|]. eapply mapped_sub; [exact Hd3|lia|fold (chosen ws); lia]. }
    { apply Hap; [unfold locals; tauto|lia|fold (chosen ws); lia]. }
    fold (chosen ws) in Hr. rewrite (proj2 (Z.ltb_ge 46 _)) in Hr by lia.
    destruct (read_back (wrote s1 dst (text6 ws (chosen ws) ++ [0])) AF_INET6 dst out (text6 ws (chosen ws)) (bytes_of ws))
      as (s2 & Hr2 & Hb2 & He2); [by eapply written_call; [..|lia]|by right|done|].
    eexists. exists s2. split; [exact Hr|]. split; [done|]. split; [done|]. rewrite He2. apply (only_errno _ _ _ Ho).
Qed.
End Writing.

(** ** [inet_aton] and [inet_addr] *)

Section Dotted.
Context (lc : option Locale).
Context (Hxdigit : forall c, 0 <= c < 128 ->
  negb (isxdigit lc c =? 0) = is_digit c || between 97 c 102 || between 65 c 70).

(** [a] is the address that gets, or holds, the binary address. *)
Definition addr_cell (s : state) (a : Z) : Prop := 0 < a /\ a mod 4 = 0 /\ mapped (mem s) a 4.

(** C27: [inet_aton] reads any string: it stores the value of [parse_aton]
    and returns 1, or returns 0 and stores nothing; a null pointer gives 0
    and [EFAULT].  The value is that of one to four numbers in C's notation
    (decimal, [0] octal, [0x] hexadecimal), each taken modulo 2^32, joined by
    dots and followed by the end of the string or white space: all but the
    last must be at most 255 and the last must fit into the bits that are
    left.  In particular, of constants below 2^32 exactly those in range are
    accepted, and give the address of their values side by side; larger ones
    are not refused but wrap.  [inet_addr] returns the value, or all ones with
    [EFAULT]. *)
Theorem inet_aton_correct cp addr l s :
  cstr (mem s) cp l -> addr_cell s addr ->
  inet_aton lc cp addr s =
    match parse_aton l with Some v => Ok 1 (wrote s addr (word_bytes v)) | None => Ok 0 s end /\
  inet_addr lc addr cp s =
    match parse_aton l with
    | Some v => Ok (u32 v) (wrote s addr (word_bytes v))
    | None => Ok 0xFFFFFFFF (put_errno s EFAULT)
    end /\
  (forall ps tail, Forall (fun p => c_base p.1 /\ is_u32 p.2) ps -> ps <> [] ->
   l = constants ps ++ tail -> ends tail = true -> parse_aton l = address_of (map snd ps)) /\
  inet_aton lc NULL addr s = Ok 0 (put_errno s EFAULT) /\
  inet_addr lc addr NULL s = Ok 0xFFFFFFFF (put_errno s EFAULT).
Proof.
  intros Hl (H1 & H2 & H3). assert (Hcp : 0 < cp) by apply Hl.
  pose proof (inet_aton_ok lc Hxdigit cp addr l s Hl H1 H2 H3) as HA. split; [done|]. split; [|split; [|done]].
  - unfold inet_addr. rewrite (proj2 (Z.eqb_neq cp NULL)) by (unfold NULL; lia).
    destruct (parse_aton l) as [v|]; erewrite bind_ok by exact HA; [|done].
    change (1 =? 0) with false. cbv iota. apply load32_bytes; [done|apply u32_range|].
    rewrite word_bytes_u32. apply (write_bytes_at _ _ (word_bytes v)).
  - intros ps tail HF Hne -> He. rewrite <- parse_parts_aton. apply (parse_parts_constants 3 [] ps tail); try done.
    destruct tail as [|c tail]; [done|]. simpl in He |- *. unfold is_space, between in He. lia.
Qed.
End Dotted.

(** ** Classes of networks *)

Lemma split_join h n :
  is_u32 h -> 0 <= n <= 24 -> Z.lor (Z.land h (Z.ones n)) (u32 (Z.shiftl (Z.shiftr h n) n)) = h.
Proof.
  intros Hh Hn. unfold is_u32 in Hh. assert (0 < 2 ^ n) by (apply Z.pow_pos_nonneg; lia).
  pose proof (Z.div_mod h (2 ^ n) ltac:(lia)) as E. pose proof (Z.mod_pos_bound h (2 ^ n) ltac:(lia)).
  assert (0 <= h / 2 ^ n) by (apply Z.div_pos; lia).
  rewrite Z.land_ones, Z.shiftr_div_pow2 by lia.
  rewrite u32_id by (rewrite Z.shiftl_mul_pow2 by lia; nia).
  rewrite Z.lor_comm, lor_shiftl by lia. lia.
Qed.

Lemma makeaddr_parts h : is_u32 h -> inet_makeaddr (inet_netof h) (inet_lnaof h) = h.
Proof.
  intros Hh. unfold inet_makeaddr, inet_netof, inet_lnaof.
  pose proof (split_join h 24 Hh ltac:(lia)) as K24. pose proof (split_join h 16 Hh ltac:(lia)) as K16.
  pose proof (split_join h 8 Hh ltac:(lia)) as K8. unfold is_u32 in Hh.
  assert (B24 : Z.shiftr h 24 = h / 16777216) by (by rewrite Z.shiftr_div_pow2 by lia).
  assert (B16 : Z.shiftr h 16 = h / 65536) by (by rewrite Z.shiftr_div_pow2 by lia).
  assert (B8 : Z.shiftr h 8 = h / 256) by (by rewrite Z.shiftr_div_pow2 by lia).
  assert (R24 : 256 * (h / 16777216) <= h / 65536 < 256 * (h / 16777216) + 256) by (Z.div_mod_to_equations; lia).
  assert (R16 : 256 * (h / 65536) <= h / 256) by (Z.div_mod_to_equations; lia).
  assert (R0 : 0 <= h / 16777216) by (by apply Z.div_pos; lia).
  destruct (Z.ltb_spec (Z.shiftr h 24) 128); [|destruct (Z.ltb_spec (Z.shiftr h 24) 192)].
  - by rewrite (proj2 (Z.ltb_lt (Z.shiftr h 24) 256)) by lia.
  - rewrite (proj2 (Z.ltb_ge (Z.shiftr h 16) 256)) by lia. by rewrite (proj2 (Z.ltb_lt (Z.shiftr h 16) 65536)) by lia.
  - rewrite (proj2 (Z.ltb_ge (Z.shiftr h 8) 256)) by lia. by rewrite (proj2 (Z.ltb_ge (Z.shiftr h 8) 65536)) by lia.
Qed.

(** ** [inet_ntoa] *)

Section Ntoa.
Context `{HM : SysMem} `{HD : Dos} `{!SysMemLaws HM} `{!DosLaws HD} `{!SysTyped HM} `{!DosTyped HD} {F : Type}.
Context (Hutil : has_utility = true).
Context (lc : option Locale) (wctomb : Z -> M (Z * list Z)) (strerror : Z -> M Z).
Context (fmt_fp : Out -> F -> Z -> Z -> Z -> Z -> M (Z * Out)).
Context (Hdigit : forall c, is_byte c -> digit_r lc c = is_digit c).
Context (Hxdigit : forall c, 0 <= c < 128 ->
  negb (isxdigit lc c =? 0) = is_digit c || between 97 c 102 || between 65 c 70).
Context (wctomb_typed : forall w, Typed (wctomb w)) (strerror_typed : forall e, Typed (strerror e)).
Context (fmt_fp_typed : forall o d w p fl t, Typed (fmt_fp o d w p fl t)).
Context (fr : frame).

(** The parameter's address, the static array, and the format. *)
Record ntoa_call (s : state) (in_ out fmt : Z) : Prop := {
  na_in : addr_cell s in_ /\ disj in_ 4 fmt 12;
  na_out : in_space out 16;
  na_call : call_ok s (fr_buf fr) out 16 fmt (quad_items d_conv);
}.

Lemma inet_ntoa_ok s in_ out fmt a :
  ntoa_call s in_ out fmt -> is_u32 a ->
  exists s1, inet_ntoa lc wctomb strerror fmt_fp fr in_ out fmt a s = Ok out s1 /\
    cstr (mem s1) out (dotted (word_bytes a)) /\ errno s1 = errno s /\ kept (mem s) (mem s1).
Proof.
  intros [[(A1 & A2 & A3) A4] [B1 B2] C] Ha. set (b := word_bytes a).
  assert (HF : Forall is_byte b) by (unfold b, word_bytes; repeat constructor; apply u8_range).
  pose proof (dotted_length b eq_refl HF) as Hlen.
  set (s0 := wrote s in_ b). assert (Hst : store32 in_ a s = Ok tt s0) by (by apply store32_ok).
  assert (Ho : only (area in_ 4) s s0) by (by apply (only_wrote in_ b)).
  assert (Hb : bytes_at (mem s0) in_ b) by apply write_bytes_at. clearbody s0.
  assert (Hok : call_ok s0 (fr_buf fr) out 16 fmt (quad_items d_conv)).
  { destruct C as [C1 C2 [C3 C4] C5 (C6 & C7 & C8) C9]. split; try done.
    - split; [|done]. apply (only_cstr Ho); [|done]. by apply clear_area.
    - split; [apply C5|]. apply (only_mapped Ho), C5.
    - split; [done|]. split; [done|]. by apply (only_mapped Ho). }
  destruct (snprintf_ok lc wctomb strerror fmt_fp Hdigit (fr_buf fr) out 16 fmt (quad_items d_conv)
    (map Word b) (dotted b) [] s0) as (s1 & Hr & Hout & _ & He); try done;
    [by left|by apply quad_writes; [left|..]|unfold INT_MAX; lia|].
  rewrite (proj2 (Z.eqb_neq out NULL)) in He by (unfold NULL; lia).
  exists s1. split_and!.
  - unfold inet_ntoa. erewrite bind_ok by exact Hst. rewrite (load4 _ _ _ _ _ _ _ Hb). by erewrite bind_ok by exact Hr.
  - split; [|split; [by apply dotted_chars|unfold in_space; lia]].
    specialize (Hout ltac:(lia)). unfold padded in Hout. rewrite take_ge in Hout by lia.
    rewrite <- app_assoc in Hout. apply bytes_at_app in Hout as [H1 H2]. apply bytes_at_app. split; [done|].
    change (Z.to_nat (16 - 1)) with 15%nat in H2. destruct (15 - length (dotted b))%nat; [done|].
    split; [apply H2|done].
  - by rewrite He, (only_errno _ _ _ Ho).
  - etrans; [apply (only_kept _ _ _ Ho)|].
    exact (typed_snprintf lc wctomb strerror fmt_fp wctomb_typed strerror_typed fmt_fp_typed _ _ _ _ _ _ _ _ Hr).
Qed.

(** C28: [inet_ntoa] writes any 32-bit address as its dotted quad, and
    [inet_aton], [inet_addr] and [inet_network] read it back, octets without
    digits after the [0] of base 8 included; and an address is put together
    again by [inet_makeaddr] from its network and host parts [inet_netof] and
    [inet_lnaof], whatever its class. *)
Theorem inet_ntoa_aton_roundtrip s in_ out fmt a addr :
  ntoa_call s in_ out fmt -> is_u32 a -> addr_cell s addr ->
  (exists s1, inet_ntoa lc wctomb strerror fmt_fp fr in_ out fmt a s = Ok out s1 /\
    cstr (mem s1) out (dotted (word_bytes a)) /\
    inet_aton lc out addr s1 = Ok 1 (wrote s1 addr (word_bytes a)) /\
    inet_addr lc addr out s1 = Ok a (wrote s1 addr (word_bytes a)) /\
    inet_network lc addr out s1 = Ok a (wrote s1 addr (word_bytes a)) /\ errno s1 = errno s) /\
  inet_makeaddr (inet_netof a) (inet_lnaof a) = a.
Proof.
  intros Hc Ha (H1 & H2 & H3). split.
  - destruct (inet_ntoa_ok s in_ out fmt a Hc Ha) as (s1 & Hr & Hs & He & Hk).
    assert (HA : inet_aton lc out addr s1 = Ok 1 (wrote s1 addr (word_bytes a))).
    { erewrite inet_aton_ok; [by rewrite parse_aton_dotted|done..|by eapply kept_mapped]. }
    assert (HB : inet_addr lc addr out s1 = Ok a (wrote s1 addr (word_bytes a))).
    { unfold inet_addr. rewrite (proj2 (Z.eqb_neq out NULL)) by (destruct (na_out _ _ _ _ Hc); unfold NULL; lia).
      erewrite bind_ok by exact HA. change (1 =? 0) with false. cbv iota.
      apply load32_bytes; [done|done|]. apply (write_bytes_at _ _ (word_bytes a)). }
    exists s1. by split_and!.
  - apply makeaddr_parts, Ha.
Qed.
End Ntoa.

(** ** A concrete memory *)

Lemma c_locale_lower c : is_char c ->
  (c < 128 -> tolower None c = lower c) /\ (128 <= c -> 128 <= tolower None c < 256).
Proof.
  intros Hc. assert (Hb : is_byte c) by (unfold is_char, is_byte in *; lia).
  pose proof (forall_bytes (fun c => if c <? 128 then tolower None c =? lower c
    else (128 <=? tolower None c) && (tolower None c <? 256)) ltac:(by vm_compute) c Hb) as H.
  cbv beta in H. destruct (Z.ltb_spec c 128); lia.
Qed.

Lemma c_locale_xdigit c : 0 <= c < 128 ->
  negb (isxdigit None c =? 0) = is_digit c || between 97 c 102 || between 65 c 70.
Proof.
  intros Hc. apply eqb_prop. assert (Hb : is_byte c) by (unfold is_byte; lia). clear Hc. revert c Hb.
  apply (forall_bytes (fun c => eqb (negb (isxdigit None c =? 0)) (is_digit c || between 97 c 102 || between 65 c 70))).
  by vm_compute.
Qed.

Definition sample_frame : frame := mkFrame 1000 2000 3000 4000 5000 5100.

(** The address at 6000 is 32.1.13.184, or 2001:db8::1. *)
Definition sample_groups : list Z := [0x2001; 0xdb8; 0; 0; 0; 0; 0; 1].

Lemma sample_groups_u16 : Forall is_u16 sample_groups.
Proof. unfold sample_groups. repeat (apply Forall_cons; split; [unfold is_u16; lia|]). constructor. Qed.

Definition sample_net : state :=
  boot [(1000, replicate 32 9); (1997, replicate 23 9); (2997, replicate 52 9); (4000, replicate 32 9);
    (5000, zstr "%u.%u.%u.%u"); (5100, zstr "%x"); (5200, zstr "%d.%d.%d.%d");
    (6000, bytes_of sample_groups); (6100, [192; 168; 200; 254]); (7000, replicate 46 9); (7100, zstr "10.0.255.1"); (7200, zstr "10.0x10ff ");
    (8000, zstr "0123456789abcdef" ++ [9; 9; 9]); (8100, replicate 4 9); (8200, replicate 16 9); (8300, replicate 16 9);
    (8400, replicate 4 9); (8404, replicate 4 9)].

Lemma sample_frame_ok n4 : 16 <= n4 <= 17 -> frame_ok sample_frame n4 sample_net.
Proof.
  intros Hn4. split; simpl fr_buf; simpl fr_tmp4; simpl fr_tmp6; simpl fr_words; simpl fr_fmt4; simpl fr_fmtx.
  - ground.
  - unfold frame_regions. cbn [all_apart]. repeat split; repeat constructor; unfold disj; simpl; lia.
  - ground.
  - ground.
  - split; [lia|ground].
  - split; [unfold in_space, ADDR_MAX; lia|]. unfold around.
    eapply (mapped_sub _ (2000 - 3) 23); [ground|lia|lia].
  - split; [unfold in_space, ADDR_MAX; lia|]. unfold around. ground.
  - split; [lia|]. split; [done|ground].
Qed.

Lemma sample_env6 : env6 8100 8200 8000 sample_net.
Proof.
  split; [ground|ground_words| | |].
  - intros a. unfold area, locals6, area. lia.
  - split; [lia|ground].
  - split; [lia|]. split; [ground|unfold disj; lia].
Qed.

Lemma sample_dest6 : dest6 8200 sample_net 8300.
Proof. split; [lia|ground|unfold disj; lia]. Qed.

Lemma inet_pton_correct_witness :
  exists s1, only (locals6 8100 8200) sample_net s1 /\
    inet_pton None 8100 8200 8000 AF_INET 7100 8300 sample_net = Ok 1 (wrote s1 8300 [10; 0; 255; 1]).
Proof.
  destruct (inet_pton_correct (HM := sample_mem) eq_refl None 8100 8200 8000 c_locale_lower eq_refl
    AF_INET 7100 8300 (bytes "10.0.255.1") sample_net) as [H _].
  - split; [apply sample_env6|apply sample_dest6|unfold disj; lia|ground|].
    intros a. unfold area, locals6, area. change (Z.of_nat (length (bytes "10.0.255.1"))) with 10. lia.
  - destruct (H (or_introl eq_refl)) as (s1 & Ho & Hr). exists s1. split; [exact Ho|exact Hr].
Defined.

Lemma inet_ntop_correct_witness :
  exists s1, only (locals sample_frame 16) sample_net s1 /\
    inet_ntop None no_wctomb no_strerror no_fmt_fp sample_frame AF_INET6 6000 7000 46 sample_net =
    Ok 7000 (wrote s1 7000 (zstr "2001:db8::1")).
Proof.
  destruct (inet_ntop_correct (HM := sample_mem) (HD := sample_dos) eq_refl None no_wctomb no_strerror no_fmt_fp
    c_locale_digits (fun _ => typed_ret _) (fun _ => typed_ret _) (fun _ _ _ _ _ _ => typed_ret _)
    sample_frame AF_INET6 6000 7000 46 sample_net) as (_ & H & _).
  assert (E : text6 sample_groups (chosen sample_groups) = bytes "2001:db8::1") by (by vm_compute).
  assert (E4 : tmp4_bytes6 sample_groups = 16) by (by vm_compute).
  destruct (H sample_groups) as (_ & s1 & Ho & Hr); rewrite ?E4 in *.
  - apply sample_frame_ok. lia.
  - rewrite E. change (Z.of_nat (length (bytes "2001:db8::1"))) with 11.
    split; [done|apply sample_groups_u16|ground| |split; [unfold is_u32; lia|ground]|unfold disj; simpl; lia].
    intros a. unfold area, locals, area. simpl. lia.
  - exists s1. split; [exact Ho|]. rewrite E in Hr. exact Hr.
Defined.

Lemma sample_both_calls n4 :
  16 <= n4 <= 17 -> both_calls sample_frame 8100 8200 8000 n4 sample_net 7000 8300.
Proof.
  intros Hn4. split; [by apply sample_frame_ok|apply sample_env6| | | |].
  - split; [|unfold disj; lia]. intros a. unfold area, locals, area. simpl. lia.
  - split; [unfold in_space, ADDR_MAX; lia|ground].
  - split; intros a; [unfold area, locals, area; simpl; lia|unfold area, locals6, area; lia].
  - split; [apply sample_dest6|unfold disj; lia].
Qed.

(** Both families; the quad is 192.168.200.254, of 15 characters. *)
Lemma inet_ntop_pton_roundtrip_witness :
  (exists s1 s2, inet_ntop None no_wctomb no_strerror no_fmt_fp sample_frame AF_INET 6100 7000 46 sample_net = Ok 7000 s1 /\
    inet_pton None 8100 8200 8000 AF_INET 7000 8300 s1 = Ok 1 s2 /\
    bytes_at (mem s2) 8300 [192; 168; 200; 254] /\ errno s2 = 0) /\
  (exists s1 s2, inet_ntop None no_wctomb no_strerror no_fmt_fp sample_frame AF_INET6 6000 7000 46 sample_net = Ok 7000 s1 /\
    inet_pton None 8100 8200 8000 AF_INET6 7000 8300 s1 = Ok 1 s2 /\
    bytes_at (mem s2) 8300 (bytes_of sample_groups) /\ errno s2 = 0).
Proof.
  pose proof (fun src => inet_ntop_pton_roundtrip (HM := sample_mem) (HD := sample_dos) eq_refl None no_wctomb no_strerror no_fmt_fp
    c_locale_digits (fun _ => typed_ret _) (fun _ => typed_ret _) (fun _ _ _ _ _ _ => typed_ret _)
    sample_frame 8100 8200 8000 c_locale_lower eq_refl sample_net src 7000 8300) as H. split.
  - apply (H 6100); [|done|by repeat constructor|ground]. apply sample_both_calls. by vm_compute.
  - assert (E4 : tmp4_bytes6 sample_groups = 16) by (by vm_compute).
    apply (H 6000 : _ /\ _); [rewrite E4; by apply sample_both_calls|done|apply sample_groups_u16|ground|].
    rewrite E4. intros a. unfold area, locals, area. simpl. lia.
Defined.

Lemma inet_aton_correct_witness :
  inet_aton None 7200 8400 sample_net = Ok 1 (wrote sample_net 8400 [10; 0; 16; 255]) /\
  inet_aton None NULL 8400 sample_net = Ok 0 (put_errno sample_net EFAULT).
Proof.
  destruct (inet_aton_correct None c_locale_xdigit 7200 8400 (bytes "10.0x10ff ") sample_net)
    as (H1 & _ & H2 & H3 & _); [ground|split; [lia|]; split; [done|ground]|].
  split; [|exact H3]. rewrite (H2 [(10, 10); (16, 0x10ff)] [32]) in H1; [exact H1| |done|by vm_compute|done].
  repeat (apply Forall_cons; split; [split; [unfold c_base; simpl; auto|unfold is_u32; simpl; lia]|]). constructor.
Defined.

Lemma inet_ntoa_aton_roundtrip_witness :
  exists s1, inet_ntoa None no_wctomb no_strerror no_fmt_fp sample_frame 8400 7000 5200 0xC0A800FE sample_net = Ok 7000 s1 /\
    cstr (mem s1) 7000 (bytes "192.168.0.254") /\ inet_addr None 8404 7000 s1 =
      Ok 0xC0A800FE (wrote s1 8404 [192; 168; 0; 254]).
Proof.
  destruct (inet_ntoa_aton_roundtrip (HM := sample_mem) (HD := sample_dos) eq_refl None no_wctomb no_strerror no_fmt_fp
    c_locale_digits c_locale_xdigit (fun _ => typed_ret _) (fun _ => typed_ret _) (fun _ _ _ _ _ _ => typed_ret _)
    sample_frame sample_net 8400 7000 5200 0xC0A800FE 8404) as [(s1 & H1 & H2 & _ & H3 & _) _].
  - split; [split; [split; [lia|]; split; [done|ground]|unfold disj; lia]|unfold in_space, ADDR_MAX; lia|].
    simpl fr_buf. split; [repeat constructor; done|by vm_compute| | | |unfold disj; lia].
    + split; [ground|]. split; unfold disj; simpl; lia.
    + split; [lia|ground].
    + split; [lia|]. split; [lia|ground].
  - unfold is_u32. lia.
  - split; [lia|]. split; [done|ground].
  - exists s1. split; [exact H1|]. split; [exact H2|exact H3].
Defined.
