(* ===== verification/StdioIn.v ===== *)
(** * Buffered input ([library/stdio], [fcntl/read.c])

    The other direction of [Stdio]: filling the buffer of a stream through
    its action, [fgetc] and the [getc] macros, [ungetc], [fgets], [gets],
    [fread] and [read], and the flags [feof] and [ferror] report. *)

From S2P Require Import Prelude CMem Cells CType Words StrScan StrCopy Stdio.

Definition EACCES : Z := 13.
Definition ENOBUFS : Z := 55.

Definition set_Read (f : iob) (position bytes : Z) : iob :=
  mkIob (iob_Flags f) (iob_Flags2 f) (iob_Buffer f) (iob_BufferSize f) position bytes
    (iob_BufferWriteBytes f) (iob_Action f) (iob_Descriptor f) (iob_String f)
    (iob_StringSize f) (iob_StringPosition f).
Definition advance (f : iob) (n : Z) : iob :=
  set_Read f (iob_BufferPosition f + n) (iob_BufferReadBytes f).

(** A stream and the other entries of [__clib4->__iob], which filling a line
    buffered stream flushes.  The stream's own entry has nothing to flush
    then: its write buffer is emptied before anything is read. *)
Record proc := mkProc { own : iob; table : list (option iob) }.
Definition on_own (g : iob -> iob) (p : proc) : proc := mkProc (g (own p)) (table p).

(** [recv] of bsdsocket.library *)
Class Net := { recv : Z -> Z -> Z -> M Z }.

Section Code.
Context `{SysMem} `{Dos} `{Net}.

(** ** The buffer *)

Definition iob_read_buffer_is_empty (f : iob) : bool :=
  (iob_BufferReadBytes f =? 0) || (iob_BufferPosition f =? iob_BufferReadBytes f).

Fixpoint flush_all_files (table : list (option iob)) (buffer_mode : Z) : M (Z * list (option iob)) :=
  match table with
  | [] => ret (OK, [])
  | None :: rest => let* (r, rest) := flush_all_files rest buffer_mode in ret (r, None :: rest)
  | Some f :: rest =>
      let* (r, f) :=
        if FLAG_IS_SET (iob_Flags f) IOBF_IN_USE && FLAG_IS_SET (iob_Flags f) IOBF_WRITE &&
           ((buffer_mode <? 0) || (Z.land (iob_Flags f) IOBF_BUFFER_MODE =? u32 buffer_mode)) &&
           iob_write_buffer_is_valid f
        then flush_iob_write_buffer f else ret (OK, f) in
      if r <? 0 then ret (ERROR, Some f :: rest)
      else let* (r, rest) := flush_all_files rest buffer_mode in ret (r, Some f :: rest)
  end.

Definition fill_iob_read_buffer (p : proc) : M (Z * proc) :=
  let* (r, t) :=
    if Z.land (iob_Flags (own p)) IOBF_BUFFER_MODE =? IOBF_BUFFER_MODE_LINE
    then flush_all_files (table p) IOBF_BUFFER_MODE_LINE else ret (OK, table p) in
  let p := mkProc (own p) t in
  if r <? 0 then ret (ERROR, p)
  else
    let* (num_bytes_read, fam_Error, f) :=
      iob_action (own p) (file_action_read (iob_Buffer (own p)) (s32 (iob_BufferSize (own p)))) in
    let p := mkProc f t in
    if num_bytes_read =? EOF then
      set_errno fam_Error ;; ret (ERROR, on_own (fun f => SET_FLAG f IOBF_ERROR) p)
    else ret (OK, on_own (fun f => set_Read f 0 num_bytes_read) p).

(** [file->iob_Buffer[file->iob_BufferPosition++]] *)
Definition take_byte (p : proc) : M (Z * proc) :=
  let* c := load8 (iob_Buffer (own p) + iob_BufferPosition (own p)) in
  ret (c, on_own (fun f => advance f 1) p).

(** ** Single characters *)

(** [__fgetc] *)
Definition fgetc_fill (p : proc) : M (Z * proc) :=
  if iob_read_buffer_is_empty (own p) then
    let* (r, p) := fill_iob_read_buffer p in
    if r <? 0 then ret (EOF, p)
    else if iob_read_buffer_is_empty (own p) then
      ret (EOF, on_own (fun f => SET_FLAG f IOBF_EOF_REACHED) p)
    else take_byte p
  else take_byte p.

(** The macro [__getc]. *)
Definition getc_buffered (p : proc) : M (Z * proc) :=
  if iob_BufferPosition (own p) <? iob_BufferReadBytes (own p) then take_byte p else fgetc_fill p.

(** What the write buffer still holds goes out first. *)
Definition flush_before_read (p : proc) : M (Z * proc) :=
  if iob_write_buffer_is_valid (own p) then
    let* (r, f) := flush_iob_write_buffer (own p) in ret (r, mkProc f (table p))
  else ret (OK, p).

Definition fgetc_check (p : proc) : M (Z * proc) :=
  if FLAG_IS_CLEAR (iob_Flags (own p)) IOBF_IN_USE then
    set_errno EBADF ;; ret (EOF, on_own (fun f => SET_FLAG f IOBF_ERROR) p)
  else if FLAG_IS_CLEAR (iob_Flags (own p)) IOBF_READ then
    set_errno EBADF ;; ret (EOF, on_own (fun f => SET_FLAG f IOBF_ERROR) p)
  else
    let* (r, p) := flush_before_read p in
    if r <? 0 then ret (EOF, p) else ret (OK, p).

(** The null check of the functions that take a [FILE *]. *)
Definition with_stream {A} (stream : option proc) (bad : A) (k : proc -> M (A * proc))
    : M (A * option proc) :=
  match stream with
  | None => set_errno EFAULT ;; ret (bad, None)
  | Some p => let* (r, p) := k p in ret (r, Some p)
  end.

Definition fgetc_file (p : proc) : M (Z * proc) :=
  let* (r, p) := fgetc_check p in
  if r <? 0 then ret (EOF, p) else getc_buffered p.
Definition fgetc (stream : option proc) : M (Z * option proc) := with_stream stream EOF fgetc_file.
Definition getc (stream : option proc) : M (Z * option proc) :=
  with_stream stream EOF fgetc_file.

(** The macro [__getc_unlocked] of [stdio.h]. *)
Definition getc_unlocked (p : proc) : M (Z * proc) :=
  if (Z.land (iob_Flags (own p)) (Z.lor (Z.lor IOBF_IN_USE IOBF_READ) IOBF_EOF_REACHED) =?
        Z.lor IOBF_IN_USE IOBF_READ) &&
     negb (Z.land (iob_Flags (own p)) IOBF_BUFFER_MODE =? IOBF_BUFFER_MODE_NONE) &&
     (iob_BufferPosition (own p) <? iob_BufferReadBytes (own p))
  then take_byte p
  else fgetc_file p.

Definition ungetc_file (c : Z) (p : proc) : M (Z * proc) :=
  let error e := set_errno e ;; ret (EOF, on_own (fun f => SET_FLAG f IOBF_ERROR) p) in
  if FLAG_IS_CLEAR (iob_Flags (own p)) IOBF_IN_USE then error EBADF
  else if FLAG_IS_CLEAR (iob_Flags (own p)) IOBF_READ then error EACCES
  else if c =? EOF then error EINVAL
  else
    let* (r, p) := flush_before_read p in
    if r <? 0 then ret (EOF, p)
    else if iob_BufferPosition (own p) =? 0 then
      set_errno ENOBUFS ;; ret (EOF, on_own (fun f => SET_FLAG f IOBF_ERROR) p)
    else
      let p := on_own (fun f => advance (CLEAR_FLAG f IOBF_EOF_REACHED) (-1)) p in
      store8 (iob_Buffer (own p) + iob_BufferPosition (own p)) c ;;
      ret (Z.land c 255, p).
Definition ungetc (c : Z) (stream : option proc) : M (Z * option proc) :=
  with_stream stream EOF (ungetc_file c).

(** ** The flags *)

Definition clear_flags (f : iob) : iob :=
  let f := CLEAR_FLAG (CLEAR_FLAG f IOBF_ERROR) IOBF_EOF_REACHED in
  mkIob (iob_Flags f) (Z.land (iob_Flags2 f) (not32 SERR)) (iob_Buffer f) (iob_BufferSize f)
    (iob_BufferPosition f) (iob_BufferReadBytes f) (iob_BufferWriteBytes f) (iob_Action f)
    (iob_Descriptor f) (iob_String f) (iob_StringSize f) (iob_StringPosition f).
Definition clearerr (stream : option proc) : M (option proc) :=
  match stream with
  | None => set_errno EFAULT ;; ret None
  | Some p => ret (Some (on_own clear_flags p))
  end.
Definition ferror (stream : option proc) : M bool :=
  match stream with
  | None => set_errno EFAULT ;; ret false
  | Some p => ret (FLAG_IS_SET (iob_Flags (own p)) IOBF_ERROR)
  end.
Definition feof (stream : option proc) : M bool :=
  match stream with
  | None => set_errno EFAULT ;; ret false
  | Some p => ret (FLAG_IS_SET (iob_Flags (own p)) IOBF_EOF_REACHED)
  end.

(** ** Blocks and lines *)

Definition read (file_descriptor buffer num_bytes : Z) : M Z :=
  set_errno 0 ;;
  if buffer =? NULL then set_errno EFAULT ;; ret EOF
  else
    match get_file_descriptor file_descriptor true with
    | None => set_errno EBADF ;; ret EOF
    | Some i =>
        match fd_at i with
        | None => fault
        | Some e =>
            if FLAG_IS_CLEAR (fd_Flags e) FDF_READ then set_errno EBADF ;; ret EOF
            else if 0 <? num_bytes then
              if negb (FLAG_IS_SET (fd_Flags e) FDF_IS_SOCKET) then
                let* (r, fam_Error) := fd_Action i (file_action_read buffer (s32 num_bytes)) in
                if r =? EOF then set_errno fam_Error ;; ret EOF else ret r
              else recv file_descriptor buffer num_bytes
            else ret 0
        end
    end.

(** [read] past the buffer, with the flags set by its result. *)
Definition read_past (data size : Z) (p : proc) : M (Z * proc) :=
  let* n := read (iob_Descriptor (own p)) data size in
  if n =? -1 then ret (n, on_own (fun f => SET_FLAG f IOBF_ERROR) p)
  else ret (n, if n =? 0 then on_own (fun f => SET_FLAG f IOBF_EOF_REACHED) p else p).

(** Up to [n] bytes of the buffer, copied to [data]: their number. *)
Definition copy_out (data n : Z) (p : proc) : M proc :=
  memmove data (iob_Buffer (own p) + iob_BufferPosition (own p)) n ;;
  ret (on_own (fun f => advance f n) p).

Definition in_buffer (f : iob) (limit : Z) : Z :=
  let n := iob_BufferReadBytes f - iob_BufferPosition f in
  if limit <? n then limit else n.

(** The single character at the end of the loop of [fread]. *)
Definition fread_single (data total_size total : Z) (p : proc) : M (Z * Z * Z * proc + option Z * proc) :=
  let* (c, p) := getc_buffered p in
  if c =? EOF then leave (Some total, p)
  else store8 data c ;; again (data + 1, total_size - 1, total + 1, p).

(** The loop of [fread] over [data], [total_size], [total_bytes_read] and
    the stream; it leaves with [total_bytes_read], or with nothing on
    [goto out]. *)
Definition fread_body : Z * Z * Z * proc -> M (Z * Z * Z * proc + option Z * proc) :=
  fun '(data, total_size, total, p) =>
  if negb (0 <? total_size) then leave (Some total, p)
  else if (iob_BufferReadBytes (own p) =? 0) && (iob_BufferSize (own p) <=? total_size) then
    let* (n, p) := read_past data total_size p in
    if n =? -1 then leave (None, p) else leave (Some (total + n), p)
  else if iob_BufferPosition (own p) <? iob_BufferReadBytes (own p) then
    let n := in_buffer (own p) total_size in
    let* p := copy_out data n p in
    if total_size - n =? 0 then leave (Some (total + n), p)
    else fread_single (data + n) (total_size - n) (total + n) p
  else fread_single data total_size total p.

Definition fread_file (ptr element_size count : Z) (p : proc) : M (Z * proc) :=
  if FLAG_IS_CLEAR (iob_Flags (own p)) IOBF_IN_USE || FLAG_IS_CLEAR (iob_Flags (own p)) IOBF_READ then
    set_errno EBADF ;; ret (0, on_own (fun f => SET_FLAG f IOBF_ERROR) p)
  else
    let p := on_own clear_flags p in
    if (0 <? element_size) && (0 <? count) then
      let* (r, p) := fgetc_check p in
      if r <? 0 then ret (0, p)
      else
        let total_size := u32 (element_size * count) in
        if negb (element_size =? total_size / count) then ret (0, p)
        else
          let* (r, p) :=
            if Z.land (iob_Flags (own p)) IOBF_BUFFER_MODE =? IOBF_BUFFER_MODE_NONE then
              let* (n, p) := read_past ptr total_size p in
              ret (if n =? -1 then None else Some n, p)
            else loop fread_body (ptr, total_size, 0, p) in
          match r with
          | None => ret (0, p)
          | Some total => ret (total / element_size, p)
          end
    else ret (0, p).
Definition fread (ptr element_size count : Z) (stream : option proc) : M (Z * option proc) :=
  if ptr =? NULL then set_errno EFAULT ;; ret (0, stream)
  else with_stream stream 0 (fread_file ptr element_size count).

(** The single character at the end of the loop of [fgets]. *)
Definition fgets_single (buf s n : Z) (p : proc) : M (Z * Z * proc + Z * Z * proc) :=
  let* (c, p) := getc_buffered p in
  if c =? EOF then
    if FLAG_IS_SET (iob_Flags (own p)) IOBF_ERROR then leave (NULL, s, p)
    else leave (if buf =? s then NULL else buf, s, p)
  else
    store8 s c ;;
    if c =? 10 then leave (buf, s + 1, p) else again (s + 1, n - 1, p).

(** The loop of [fgets] over [s], [n] and the stream; it leaves with the
    result, the end of the string and the stream. *)
Definition fgets_body (buf : Z) : Z * Z * proc -> M (Z * Z * proc + Z * Z * proc) :=
  fun '(s, n, p) =>
  if negb (0 <? n) then leave (buf, s, p)
  else if iob_BufferPosition (own p) <? iob_BufferReadBytes (own p) then
    let num_bytes_in_buffer := in_buffer (own p) n in
    let buffer := iob_Buffer (own p) + iob_BufferPosition (own p) in
    let* lf := memchr buffer 10 num_bytes_in_buffer in
    if negb (lf =? NULL) then
      let num_characters_in_line := lf + 1 - buffer in
      let* p := copy_out s num_characters_in_line p in
      leave (buf, s + num_characters_in_line, p)
    else
      let* p := copy_out s num_bytes_in_buffer p in
      let s := s + num_bytes_in_buffer in
      let n := n - num_bytes_in_buffer in
      if n =? 0 then leave (buf, s, p) else fgets_single buf s n p
  else fgets_single buf s n p.

Definition fgets_file (buf n : Z) (p : proc) : M (Z * proc) :=
  let* (r, p) := fgetc_check p in
  if r <? 0 then ret (NULL, p)
  else
    let p := on_own clear_flags p in
    let* (result, s, p) := loop (fgets_body buf) (buf, n - 1, p) in
    store8 s 0 ;;
    ret (result, p).
Definition fgets (buf n : Z) (stream : option proc) : M (Z * option proc) :=
  if buf =? NULL then set_errno EFAULT ;; ret (NULL, stream)
  else
    match stream with
    | None => set_errno EFAULT ;; ret (NULL, None)
    | Some p =>
        if n <=? 0 then ret (NULL, Some p)
        else let* (r, p) := fgets_file buf n p in ret (r, Some p)
    end.

(** The single character at the end of the loop of [gets]. *)
Definition gets_single (buf s : Z) (p : proc) : M (Z * proc + Z * Z * proc) :=
  let* (c, p) := getc_buffered p in
  if c =? EOF then
    if FLAG_IS_SET (iob_Flags (own p)) IOBF_ERROR then leave (NULL, s, p)
    else leave (if s =? buf then NULL else buf, s, p)
  else if c =? 10 then leave (buf, s, p)
  else store8 s c ;; again (s + 1, p).

(** The loop of [gets], which reads [stdin], the stream given here. *)
Definition gets_body (buf : Z) : Z * proc -> M (Z * proc + Z * Z * proc) :=
  fun '(s, p) =>
  if iob_BufferPosition (own p) <? iob_BufferReadBytes (own p) then
    let num_bytes_in_buffer := iob_BufferReadBytes (own p) - iob_BufferPosition (own p) in
    let buffer := iob_Buffer (own p) + iob_BufferPosition (own p) in
    let* lf := memchr buffer 10 num_bytes_in_buffer in
    if negb (lf =? NULL) then
      let num_characters_in_line := lf + 1 - buffer in
      let* p := copy_out s num_characters_in_line p in
      let s := s + num_characters_in_line in
      store8 (s + num_characters_in_line) 0 ;;
      leave (buf, s, p)
    else
      let* p := copy_out s num_bytes_in_buffer p in
      gets_single buf (s + num_bytes_in_buffer) p
  else gets_single buf s p.

Definition gets_file (s : Z) (p : proc) : M (Z * proc) :=
  let* (r, p) := fgetc_check p in
  if r <? 0 then ret (NULL, p)
  else
    let p := on_own clear_flags p in
    let* (result, e, p) := loop (gets_body s) (s, p) in
    store8 e 0 ;;
    ret (result, p).
Definition gets (s : Z) (stdin : option proc) : M (Z * option proc) :=
  if s =? NULL then set_errno EFAULT ;; ret (NULL, stdin)
  else with_stream stdin NULL (gets_file s).
End Code.
