(* ===== verification/Input.v ===== *)
(** * What the input functions do to a stream

    [Input s p unread later]: in state [s] the buffer of the stream [p] holds
    [unread], and [later] is what its file still has to give, so that the
    rest of the input is [unread ++ later].  Each function takes what it
    returns from the front of that list, refilling the buffer when it must,
    and changes nothing else. *)

From S2P Require Import Prelude CMem Cells CType Words StrScan StrCopy Stdio Streams Output Typed StdioIn.

(** ** What is asked of dos.library

    For a descriptor that is read, [files] has what is still to come.  A read
    hands out some of it, [amount], into the memory given: nothing only at
    the end. *)
Class DosReadLaws `(Dos) (amount : Z -> Z -> list Z -> nat) : Prop := {
  amount_most i n l : (amount i n l <= length l)%nat /\ Z.of_nat (amount i n l) <= Z.max 0 n;
  amount_some i n l : 0 < n -> amount i n l = 0%nat -> l = [];
  fd_Action_read i s p n l :
    0 < n < 2147483648 -> mapped (mem s) p n -> files s !! i = Some l -> Forall is_byte l ->
    exists e, fd_Action i (file_action_read p n) s =
      Ok (Z.of_nat (amount i n l), e)
        (put_file (wrote s p (take (amount i n l) l)) i (drop (amount i n l) l));
  fd_Action_read_fails i s p n :
    files s !! i = None -> exists e, fd_Action i (file_action_read p n) s = Ok (EOF, e) s;
}.

(** ** What a call may change *)

(** Only addresses in [P], and of the files only what [i] has left. *)
Record drew (P : Z -> Prop) (i : Z) (s s' : state) : Prop := {
  dw_mem a : ~ P a -> mem s' !! a = mem s !! a;
  dw_kept : kept (mem s) (mem s');
  dw_files j : j <> i -> files s' !! j = files s !! j;
}.

#[export] Instance drew_preorder P i : PreOrder (drew P i).
Proof.
  split; [intros s; by split|]. intros s1 s2 s3 [A1 A2 A3] [B1 B2 B3].
  split; [|by etrans|].
  - intros a Ha. by rewrite B1, A1.
  - intros j Hj. by rewrite B3, A3.
Qed.

Lemma drew_weaken (P Q : Z -> Prop) i s s' : (forall a, P a -> Q a) -> drew P i s s' -> drew Q i s s'.
Proof. intros H [A1 A2 A3]. split; try done. intros a Ha. apply A1. auto. Qed.

Definition within (p n a : Z) : Prop := p <= a < p + n.

Lemma drew_wrote i d l s :
  Forall is_byte l -> mapped (mem s) d (Z.of_nat (length l)) -> drew (within d (Z.of_nat (length l))) i s (wrote s d l).
Proof.
  intros Hl Hm. split; try done; [|by apply kept_write]. intros a Ha. by apply write_bytes_outside.
Qed.

Lemma drew_file i l s : drew (fun _ => False) i s (put_file s i l).
Proof. split; try done. intros j Hj. simpl. by rewrite lookup_insert_ne. Qed.

Lemma drew_bytes P i s s' p l :
  drew P i s s' -> (forall a, within p (Z.of_nat (length l)) a -> ~ P a) ->
  bytes_at (mem s) p l -> bytes_at (mem s') p l.
Proof. intros H Hc Hb. eapply bytes_at_same; [done|]. intros a Ha. by apply H, Hc. Qed.

Lemma drew_mapped P i s s' p n : drew P i s s' -> mapped (mem s) p n -> mapped (mem s') p n.
Proof. intros H. apply kept_mapped, H. Qed.

(** ** Streams open for reading *)

Definition readable (v : Z) : Prop := Z.land v 40 = 40.

Lemma readable_flags v :
  readable v ->
  FLAG_IS_SET v IOBF_IN_USE = true /\ FLAG_IS_CLEAR v IOBF_IN_USE = false /\ FLAG_IS_CLEAR v IOBF_READ = false.
Proof.
  intros H. destruct (flag_set v IOBF_IN_USE); [by eapply land_sub|done|].
  destruct (flag_set v IOBF_READ); [by eapply land_sub|done|]. done.
Qed.

(** Setting and clearing flags that are not among those of [m]. *)
Lemma land_lor_other v w m : Z.land w m = 0 -> Z.land (Z.lor v w) m = Z.land v m.
Proof. intros H. by rewrite Z.land_lor_distr_l, H, Z.lor_0_r. Qed.

Lemma land_clear_other v w m : Z.land (not32 w) m = m -> Z.land (Z.land v (not32 w)) m = Z.land v m.
Proof. intros H. by rewrite <- Z.land_assoc, H. Qed.

Lemma flag_just_set v f : FLAG_IS_SET (Z.lor v f) f = true.
Proof.
  unfold FLAG_IS_SET. apply Z.eqb_eq, Z.bits_inj_iff. intros k. rewrite Z.land_spec, Z.lor_spec.
  by destruct (Z.testbit v k), (Z.testbit f k).
Qed.

(** No other stream is waiting to be flushed. *)
Definition quiet_table (t : list (option iob)) : Prop :=
  Forall (fun o => match o with Some f => iob_BufferWriteBytes f = 0 | None => True end) t.

(** The line [l] starts with: up to a line feed, and at most [n] bytes. *)
Fixpoint line (n : nat) (l : list Z) : list Z :=
  match n, l with
  | S n, c :: l => if c =? 10 then [c] else c :: line n l
  | _, _ => []
  end.

Lemma line_more n w r : 10 ∉ w -> (length w <= n)%nat -> line n (w ++ r) = w ++ line (n - length w) r.
Proof.
  revert n. induction w as [|c w IH]; intros n Hw Hn; [by rewrite Nat.sub_0_r|].
  destruct n as [|n]; [simpl in Hn; lia|]. apply not_elem_of_cons in Hw as [Hc Hw]. simpl.
  rewrite (proj2 (Z.eqb_neq c 10)) by done. by rewrite IH by (simpl in Hn; done || lia).
Qed.

Lemma line_found n u l j :
  find_byte 10 (take n u) = Some j -> line n (u ++ l) = take (S j) u /\ (S j <= length u)%nat /\ (S j <= n)%nat.
Proof.
  revert n j. induction u as [|c u IH]; intros n j Hj; [by rewrite take_nil in Hj|].
  destruct n as [|n]; [done|]. simpl in Hj |- *. rewrite Z.eqb_sym in Hj.
  destruct (Z.eqb_spec 10 c) as [<-|Hc].
  - rewrite Z.eqb_refl. injection Hj as <-. split; [done|]. lia.
  - rewrite (proj2 (Z.eqb_neq c 10)) by congruence. destruct (find_byte 10 (take n u)) as [j'|] eqn:E; [|done].
    injection Hj as <-. destruct (IH n j' E) as (E1 & E2 & E3). rewrite E1. simpl. split; [done|]. lia.
Qed.

Lemma line_length n l : (length (line n l) <= n)%nat /\ exists r, l = line n l ++ r.
Proof.
  revert n. induction l as [|c l IH]; intros n; [by destruct n; (split; [simpl; lia|]); exists []|].
  destruct n as [|n]; [split; [simpl; lia|by exists (c :: l)]|]. simpl. destruct (c =? 10).
  - split; [simpl; lia|]. by exists l.
  - destruct (IH n) as (H & r & E). split; [simpl; lia|]. exists r. by rewrite E at 1.
Qed.

Lemma line_empty n l : (0 < n)%nat -> line n l = [] -> l = [].
Proof. intros Hn. destruct n; [lia|]. destruct l as [|c l]; [done|]. simpl. by destruct (c =? 10). Qed.

Section Input.
Context `{HM : SysMem} `{HD : Dos} `{HN : Net} (amount : Z -> Z -> list Z -> nat).
Context `{!SysMemLaws HM} `{!DosReadLaws HD amount}.

Record Input (s : state) (p : proc) (unread later : list Z) : Prop := {
  in_flags : readable (iob_Flags (own p));
  in_write : iob_BufferWriteBytes (own p) = 0;
  in_room : in_space (iob_Buffer (own p)) (iob_BufferSize (own p));
  in_size : 0 < iob_BufferSize (own p) < 2147483648;
  in_mapped : mapped (mem s) (iob_Buffer (own p)) (iob_BufferSize (own p));
  in_pos : 0 <= iob_BufferPosition (own p) /\
    iob_BufferPosition (own p) + Z.of_nat (length unread) = iob_BufferReadBytes (own p) /\
    iob_BufferReadBytes (own p) <= iob_BufferSize (own p);
  in_unread : bytes_at (mem s) (iob_Buffer (own p) + iob_BufferPosition (own p)) unread;
  in_bytes : Forall is_byte (unread ++ later);
  in_source : exists i, target (own p) = Some i /\ files s !! i = Some later;
  in_quiet : quiet_table (table p);
}.

(** The stream's own memory. *)
Definition buffer_of (p : proc) : Z -> Prop := within (iob_Buffer (own p)) (iob_BufferSize (own p)).

(** What reading never changes of a stream. *)
Definition shape (p : proc) :=
  (iob_Buffer (own p), iob_BufferSize (own p), iob_Action (own p), iob_Descriptor (own p),
   Z.land (iob_Flags (own p)) IOBF_BUFFER_MODE, table p).

Lemma shape_buffer p p' : shape p' = shape p -> buffer_of p' = buffer_of p.
Proof. unfold shape, buffer_of. by intros [= -> -> _ _ _ _]. Qed.

Lemma shape_target p p' : shape p' = shape p -> target (own p') = target (own p).
Proof. unfold shape, target. by intros [= _ _ -> -> _ _]. Qed.

Lemma shape_mode p p' :
  shape p' = shape p -> Z.land (iob_Flags (own p')) IOBF_BUFFER_MODE = Z.land (iob_Flags (own p)) IOBF_BUFFER_MODE.
Proof. unfold shape. by intros [= _ _ _ _ -> _]. Qed.

(** *** The buffer *)

Lemma take_byte_ok s p c u l :
  Input s p (c :: u) l ->
  exists p', take_byte p s = Ok (c, p') s /\ Input s p' u l /\ shape p' = shape p /\
    iob_Flags (own p') = iob_Flags (own p) /\ 0 < iob_BufferPosition (own p').
Proof.
  intros [A B C D E (F1 & F2 & F3) G H I J]. simpl in F2, G. destruct G as [G1 G2].
  exists (on_own (fun f => advance f 1) p). split; [|split; [|split; [done|split; [done|simpl; lia]]]].
  - unfold take_byte. by erewrite bind_ok by (by apply load8_ok).
  - split; try done; simpl.
    + lia.
    + by rewrite Z.add_assoc.
    + by apply Forall_cons in H as [_ ?].
Qed.

Lemma flush_quiet t m s : quiet_table t -> flush_all_files t m s = Ok (OK, t) s.
Proof.
  intros Hq. induction Hq as [|[f|] t Hf Hq IH]; [done| |]; cbn [flush_all_files].
  - assert (Hw : iob_write_buffer_is_valid f = false) by (unfold iob_write_buffer_is_valid; lia).
    rewrite Hw, andb_false_r. erewrite bind_ok by reflexivity. cbv beta iota. change (OK <? 0) with false. cbv iota.
    by erewrite bind_ok by exact IH.
  - by erewrite bind_ok by exact IH.
Qed.

(** Refilling the empty buffer. *)
Lemma fill_ok s p l :
  Input s p [] l ->
  let i := default 0 (target (own p)) in
  let k := amount i (iob_BufferSize (own p)) l in
  exists s' p', fill_iob_read_buffer p s = Ok (OK, p') s' /\ Input s' p' (take k l) (drop k l) /\
    p' = on_own (fun f => set_Read f 0 (Z.of_nat k)) p /\ drew (buffer_of p) i s s' /\ errno s' = errno s.
Proof.
  intros [A B C D E (F1 & F2 & F3) G H (i & I1 & I2) J]. rewrite I1. change (default 0 (Some i)) with i. cbv zeta. simpl app in H.
  set (k := amount i (iob_BufferSize (own p)) l).
  destruct (amount_most i (iob_BufferSize (own p)) l) as [K1 K2]. fold k in K1, K2.
  assert (Hlen : length (take k l) = k) by (rewrite length_take; lia).
  destruct (fd_Action_read i s (iob_Buffer (own p)) (iob_BufferSize (own p)) l D E I2 H) as (e & Hr). fold k in Hr.
  set (s1 := wrote s (iob_Buffer (own p)) (take k l)) in *.
  assert (Hd1 : drew (buffer_of p) i s s1).
  { eapply drew_weaken; [|apply (drew_wrote i _ (take k l))].
    - intros a. unfold buffer_of, within. rewrite Hlen. lia.
    - by apply Forall_take.
    - rewrite Hlen. eapply mapped_sub; [exact E|lia|lia]. }
  assert (Hd : drew (buffer_of p) i s (put_file s1 i (drop k l))).
  { etrans; [exact Hd1|]. eapply drew_weaken; [|apply drew_file]. done. }
  eexists _, _. split; [|split; [|split; [reflexivity|split; [exact Hd|done]]]].
  - unfold fill_iob_read_buffer.
    assert (HF : (if Z.land (iob_Flags (own p)) IOBF_BUFFER_MODE =? IOBF_BUFFER_MODE_LINE
      then flush_all_files (table p) IOBF_BUFFER_MODE_LINE else ret (OK, table p)) s = Ok (OK, table p) s).
    { destruct (_ =? _); [by apply flush_quiet|done]. }
    erewrite bind_ok by exact HF. cbv beta iota zeta. change (OK <? 0) with false. cbv iota. cbn [own].
    assert (HA : iob_action (own p) (file_action_read (iob_Buffer (own p)) (s32 (iob_BufferSize (own p)))) s =
      Ok (Z.of_nat k, e, own p) (put_file s1 i (drop k l))).
    { unfold iob_action. unfold target in I1. destruct (iob_Action (own p)); try done. unfold iob_hook.
      destruct (descriptor_entry _ _ _ I1) as (en & _ & ->). rewrite I1, s32_id by lia.
      erewrite bind_ok by reflexivity. cbv beta iota. by erewrite bind_ok by exact Hr. }
    erewrite bind_ok by exact HA. cbv beta iota zeta. unfold EOF. by rewrite (proj2 (Z.eqb_neq _ (-1))) by lia.
  - split; simpl; try done.
    + by eapply (drew_mapped _ _ _ _ _ _ Hd).
    + rewrite Hlen. lia.
    + rewrite Z.add_0_r. apply write_bytes_at.
    + by rewrite take_drop.
    + exists i. split; [done|]. by rewrite lookup_insert_eq.
Qed.

(** One character. *)
Lemma getc_ok s p u l :
  Input s p u l ->
  let i := default 0 (target (own p)) in
  exists s' p', drew (buffer_of p) i s s' /\ errno s' = errno s /\ shape p' = shape p /\
    match u ++ l with
    | [] => getc_buffered p s = Ok (EOF, p') s' /\ Input s' p' [] [] /\
        iob_Flags (own p') = Z.lor (iob_Flags (own p)) IOBF_EOF_REACHED /\ iob_BufferPosition (own p') = 0
    | c :: rest => getc_buffered p s = Ok (c, p') s' /\
        (exists u' l', u' ++ l' = rest /\ Input s' p' u' l') /\
        iob_Flags (own p') = iob_Flags (own p) /\ 0 < iob_BufferPosition (own p')
    end.
Proof.
  intros Hin i. pose proof (in_pos _ _ _ _ Hin) as (F1 & F2 & F3).
  destruct u as [|c u]; simpl app; simpl length in F2.
  2:{ destruct (take_byte_ok s p c u l Hin) as (p' & Hr & Hin' & Hs & Hf & Hp). exists s, p'.
      split; [done|]. split; [done|]. split; [done|]. split; [|split; [by exists u, l|done]].
      unfold getc_buffered. by rewrite (proj2 (Z.ltb_lt _ _)) by lia. }
  destruct (fill_ok s p l Hin) as (s' & p1 & Hr & Hin' & Ep & Hd & He). fold i in Hr, Hin', Hd, Ep.
  set (k := amount i (iob_BufferSize (own p)) l) in *.
  assert (HG : getc_buffered p s =
    (if iob_read_buffer_is_empty (own p1) then ret (EOF, on_own (fun f => SET_FLAG f IOBF_EOF_REACHED) p1)
     else take_byte p1) s').
  { unfold getc_buffered. rewrite (proj2 (Z.ltb_ge _ _)) by lia. unfold fgetc_fill.
    assert (He0 : iob_read_buffer_is_empty (own p) = true) by (unfold iob_read_buffer_is_empty; lia).
    rewrite He0. by erewrite bind_ok by exact Hr. }
  destruct (decide (k = 0%nat)) as [Ek|Hk].
  - assert (l = []) as -> by (eapply (amount_some i (iob_BufferSize (own p))); [apply Hin|exact Ek]).
    rewrite Ek in *. subst p1. eexists s', _. split; [done|]. split; [done|].
    split; [|split; [exact HG|]]; cbn; [|split; [|done]].
    + unfold shape. cbn. by rewrite land_lor_other by done.
    + destruct Hin' as [A B C D E G H I J K]. cbn in *. split; try done; cbn.
      unfold readable. by rewrite land_lor_other by done.
  - assert (Hne : iob_read_buffer_is_empty (own p1) = false).
    { subst p1. unfold iob_read_buffer_is_empty. cbn. lia. }
    rewrite Hne in HG. clear Hne.
    destruct (take k l) as [|c u] eqn:Et.
    { apply (f_equal length) in Et. rewrite length_take in Et. simpl in Et.
      pose proof (proj1 (amount_most i (iob_BufferSize (own p)) l)) as Hm. fold k in Hm. lia. }
    destruct (take_byte_ok s' _ c u _ Hin') as (p' & Hr' & Hin'' & Hs & Hf & Hp).
    assert (El : l = c :: u ++ drop k l) by (by rewrite <- (take_drop k l) at 1; rewrite Et).
    subst p1. exists s', p'. split; [done|]. split; [done|]. split; [exact Hs|].
    destruct l as [|x l]; [done|]. injection El as -> El. rewrite HG.
    split; [exact Hr'|]. split; [by exists u, (drop k (c :: l))|]. split; [exact Hf|done].
Qed.

Lemma check_ok s p u l : Input s p u l -> fgetc_check p s = Ok (OK, p) s.
Proof.
  intros Hin. destruct (readable_flags _ (in_flags _ _ _ _ Hin)) as (_ & H2 & H3).
  unfold fgetc_check, flush_before_read, iob_write_buffer_is_valid. rewrite H2, H3.
  by rewrite (proj2 (Z.ltb_ge 0 _)) by (rewrite (in_write _ _ _ _ Hin); lia).
Qed.

Lemma clear_flags_ok s p u l :
  Input s p u l -> Input s (on_own clear_flags p) u l /\ shape (on_own clear_flags p) = shape p /\
    FLAG_IS_SET (iob_Flags (own (on_own clear_flags p))) IOBF_ERROR = false.
Proof.
  intros [A B C D E F G H I J]. split; [|split].
  - split; try done. cbn. unfold readable. by rewrite !land_clear_other by done.
  - unfold shape. cbn. by rewrite !land_clear_other by done.
  - cbn. unfold FLAG_IS_SET. rewrite land_clear_other by done. rewrite <- Z.land_assoc.
    change (Z.land (not32 IOBF_ERROR) IOBF_ERROR) with 0. by rewrite Z.land_0_r.
Qed.

(** A place to put [n] bytes, apart from the stream. *)
Definition place (s : state) (p : proc) (d n : Z) : Prop :=
  0 < d /\ mapped (mem s) d n /\ forall a, within d n a -> ~ buffer_of p a.

Lemma place_later P i s s' p p' d n e k :
  place s p d n -> drew P i s s' -> shape p' = shape p -> d <= e -> e + k <= d + n -> place s' p' e k.
Proof.
  intros (A & B & C) Hd Hs H1 H2. split; [lia|]. split; [eapply (drew_mapped _ _ _ _ _ _ Hd), mapped_sub; [exact B|lia|lia]|].
  intros a Ha. rewrite (shape_buffer _ _ Hs). apply C. unfold within in *. lia.
Qed.

Lemma place_store s p u l d n c i :
  Input s p u l -> target (own p) = Some i -> place s p d n -> 0 < n -> is_byte c ->
  store8 d c s = Ok tt (wrote s d [c]) /\ Input (wrote s d [c]) p u l /\ drew (within d 1) i s (wrote s d [c]).
Proof.
  intros Hin Hi (A & B & C) Hn Hc. assert (Hd : drew (within d 1) i s (wrote s d [c])).
  { apply (drew_wrote i d [c]); [by apply Forall_singleton|]. eapply mapped_sub; [exact B|simpl; lia|simpl; lia]. }
  split; [apply store8_wrote; [done|]; apply B; lia|]. split; [|done].
  destruct Hin as [E1 E2 E3 E4 E5 (E6 & E7 & E8) E9 E10 E11 E12]. split; try done.
  - by eapply (drew_mapped _ _ _ _ _ _ Hd).
  - eapply (drew_bytes _ _ _ _ _ _ Hd); [|done]. intros a Ha Hw. apply (C a); unfold within, buffer_of, within in *; lia.
Qed.

(** The copy of the front of the buffer. *)
Lemma copy_out_ok s p u l d n i :
  Input s p u l -> target (own p) = Some i -> place s p d (Z.of_nat n) -> (0 < n <= length u)%nat ->
  exists p', copy_out d (Z.of_nat n) p s = Ok p' (wrote s d (take n u)) /\
    Input (wrote s d (take n u)) p' (drop n u) l /\ shape p' = shape p /\
    iob_Flags (own p') = iob_Flags (own p) /\ 0 < iob_BufferPosition (own p') /\
    drew (within d (Z.of_nat n)) i s (wrote s d (take n u)).
Proof.
  intros Hin Hi (A & B & C) Hn. pose proof Hin as [E1 E2 [E3 E3'] E4 E5 (E6 & E7 & E8) E9 E10 E11 E12].
  apply Forall_app in E10 as [E10 E10']. assert (Hlen : length (take n u) = n) by (rewrite length_take; lia).
  assert (Hd : drew (within d (Z.of_nat n)) i s (wrote s d (take n u))).
  { rewrite <- Hlen at 1. apply drew_wrote; [by apply Forall_take|by rewrite Hlen]. }
  assert (Hb : forall a, within (iob_Buffer (own p)) (iob_BufferSize (own p)) a -> ~ within d (Z.of_nat n) a).
  { intros a Ha Hw. by apply (C a). }
  exists (on_own (fun f => advance f (Z.of_nat n)) p). split_and!; try done.
  - unfold copy_out. set (q := iob_Buffer (own p) + iob_BufferPosition (own p)) in *.
    assert (Hmv : memmove d q (Z.of_nat n) s = Ok d (wrote s d (take n u))).
    { rewrite <- Hlen at 1. apply memmove_ok.
      - by apply bytes_at_take.
      - by apply Forall_take.
      - by rewrite Hlen.
      - done.
      - unfold q. lia.
      - intros ->. apply (Hb q); unfold within, q; lia.
      - intros E0. rewrite E0 in Hlen. simpl in Hlen. lia. }
    by erewrite bind_ok by exact Hmv.
  - split; try done; cbn.
    + by eapply (drew_mapped _ _ _ _ _ _ Hd).
    + rewrite length_drop. lia.
    + rewrite Z.add_assoc. apply bytes_at_drop; [|lia].
      eapply (drew_bytes _ _ _ _ _ _ Hd); [|exact E9]. intros a Ha. apply Hb. unfold within in *. lia.
    + apply Forall_app. split; [by apply Forall_drop|done].
  - cbn. lia.
Qed.

(** *** Lines *)

Definition Reading (s : state) (p : proc) (rest : list Z) : Prop := exists u l, u ++ l = rest /\ Input s p u l.

Lemma reading_target s p rest : Reading s p rest -> exists i, target (own p) = Some i.
Proof. intros (u & l & _ & Hin). destruct (in_source _ _ _ _ Hin) as (i & Hi & _). by exists i. Qed.

Definition no_error (p : proc) : Prop := FLAG_IS_SET (iob_Flags (own p)) IOBF_ERROR = false.

(** The stream's buffer and [n] bytes at [d]. *)
Definition around_read (p : proc) (d n a : Z) : Prop := buffer_of p a \/ within d n a.

Lemma around_read_sub p d n e k i s s' :
  drew (around_read p e k) i s s' -> d <= e -> e + k <= d + n -> drew (around_read p d n) i s s'.
Proof. intros H ??. eapply drew_weaken; [|exact H]. unfold around_read, within. intros a [Ha|Ha]; [by left|right; lia]. Qed.

Lemma around_trans p p1 d n e k i s s1 s2 :
  drew (around_read p d n) i s s1 -> shape p1 = shape p -> drew (around_read p1 e k) i s1 s2 ->
  d <= e -> e + k <= d + n -> drew (around_read p d n) i s s2.
Proof.
  intros H1 Hs H2 ??. etrans; [exact H1|]. eapply around_read_sub; [|done|done].
  eapply drew_weaken; [|exact H2]. unfold around_read. by rewrite (shape_buffer _ _ Hs).
Qed.

(** What was stored before [e] stays. *)
Lemma around_keeps p p1 d n e k i s s1 s2 w :
  place s p d n -> shape p1 = shape p -> drew (around_read p1 e k) i s1 s2 ->
  d + Z.of_nat (length w) <= e -> Z.of_nat (length w) <= n -> bytes_at (mem s1) d w -> bytes_at (mem s2) d w.
Proof.
  intros (_ & _ & Hpl) Hs Hd H1 H2 Hb. eapply (drew_bytes _ _ _ _ _ _ Hd); [|exact Hb].
  intros a Ha [Hx|Hx]; [|unfold within in *; lia]. rewrite (shape_buffer _ _ Hs) in Hx.
  apply (Hpl a); [unfold within in *; lia|done].
Qed.

(** A character read and stored. *)
Lemma getc_store_ok d n p s u l i :
  Input s p u l -> target (own p) = Some i -> place s p d n -> 0 < n ->
  exists s1 p1 s2, shape p1 = shape p /\ drew (around_read p d 1) i s s2 /\ errno s2 = errno s /\
    match u ++ l with
    | [] => getc_buffered p s = Ok (EOF, p1) s2 /\ Reading s2 p1 [] /\
        iob_Flags (own p1) = Z.lor (iob_Flags (own p)) IOBF_EOF_REACHED
    | c :: r => getc_buffered p s = Ok (c, p1) s1 /\ (c =? EOF) = false /\ store8 d c s1 = Ok tt s2 /\
        Reading s2 p1 r /\ bytes_at (mem s2) d [c] /\ iob_Flags (own p1) = iob_Flags (own p)
    end.
Proof.
  intros Hin Hi Hpl Hn. destruct (getc_ok s p u l Hin) as (s1 & p1 & Hd & He & Hs & HG).
  rewrite Hi in Hd. change (default 0 (Some i)) with i in Hd. pose proof (in_bytes _ _ _ _ Hin) as HF.
  assert (Hd' : drew (around_read p d 1) i s s1) by (eapply drew_weaken; [|exact Hd]; by left).
  exists s1, p1. destruct (u ++ l) as [|c r].
  - destruct HG as (Hr & Hin1 & Hf & _). exists s1. split_and!; try done. by exists [], [].
  - destruct HG as (Hr & (u' & l' & Er & Hin1) & Hf & _). apply Forall_cons in HF as [Hc _].
    destruct (place_store s1 p1 u' l' d n c i Hin1) as (Hst & Hin2 & Hd2); try done.
    { by rewrite (shape_target _ _ Hs). }
    { eapply place_later; [exact Hpl|exact Hd|exact Hs|lia|lia]. }
    exists (wrote s1 d [c]). split_and!; try done.
    + etrans; [exact Hd'|]. eapply drew_weaken; [|exact Hd2]. by right.
    + unfold EOF, is_byte in *. lia.
    + by exists u', l'.
    + apply (write_bytes_at _ _ [c]).
Qed.

Lemma fgets_single_ok buf e n p s u l i :
  Input s p u l -> target (own p) = Some i -> place s p e n -> 0 < n -> no_error p ->
  exists s' p', shape p' = shape p /\ no_error p' /\ errno s' = errno s /\ drew (around_read p e 1) i s s' /\
    match u ++ l with
    | [] => Reading s' p' [] /\
        fgets_single buf e n p s = Ok (inr (if buf =? e then NULL else buf, e, p')) s'
    | c :: r => Reading s' p' r /\ bytes_at (mem s') e [c] /\
        fgets_single buf e n p s = Ok (if c =? 10 then inr (buf, e + 1, p') else inl (e + 1, n - 1, p')) s'
    end.
Proof.
  intros Hin Hi Hpl Hn Hne. destruct (getc_store_ok e n p s u l i Hin Hi Hpl Hn) as (s1 & p1 & s2 & Hs & Hd & He & HG).
  unfold no_error in *. exists s2, p1. destruct (u ++ l) as [|c r].
  - destruct HG as (Hr & HR & Hf). assert (Hne1 : FLAG_IS_SET (iob_Flags (own p1)) IOBF_ERROR = false).
    { rewrite Hf. unfold FLAG_IS_SET in *. by rewrite land_lor_other by done. }
    split_and!; try done. unfold fgets_single. erewrite bind_ok by exact Hr. cbv beta iota.
    change (EOF =? EOF) with true. cbv iota. by rewrite Hne1.
  - destruct HG as (Hr & Hc & Hst & HR & Hb & Hf). split_and!; try done; [by rewrite Hf|].
    unfold fgets_single. erewrite bind_ok by exact Hr. cbv beta iota. rewrite Hc. erewrite bind_ok by exact Hst.
    by destruct (c =? 10).
Qed.

(** What one turn of the loop of [fgets] does: it stores [w], the next bytes
    of the line, and goes on unless they complete it. *)
Definition fgets_turn (buf e : Z) (n : nat) (p p' : proc) (rest w rest' : list Z) (s s' : state) : Prop :=
  (w = line n rest /\
   fgets_body buf (e, Z.of_nat n, p) s =
   Ok (inr (if (buf =? e) && bool_decide (w = []) then NULL else buf, e + Z.of_nat (length w), p')) s') \/
  ((0 < length w <= n)%nat /\ line n rest = w ++ line (n - length w) rest' /\
   fgets_body buf (e, Z.of_nat n, p) s = Ok (inl (e + Z.of_nat (length w), Z.of_nat (n - length w), p')) s').

Lemma fgets_at_end s p l buf e n :
  Input s p [] l -> 0 < n -> fgets_body buf (e, n, p) s = fgets_single buf e n p s.
Proof.
  intros Hin Hn. destruct (in_pos _ _ _ _ Hin) as (_ & F & _). simpl in F. unfold fgets_body.
  by rewrite (proj2 (Z.ltb_lt 0 n)), (proj2 (Z.ltb_ge _ _)) by lia.
Qed.

Lemma chunk_of s p u l n :
  Input s p u l -> (0 < n)%nat -> u <> [] ->
  (iob_BufferPosition (own p) <? iob_BufferReadBytes (own p)) = true /\
  in_buffer (own p) (Z.of_nat n) = Z.of_nat (length (take n u)) /\
  memchr (iob_Buffer (own p) + iob_BufferPosition (own p)) 10 (Z.of_nat (length (take n u))) s =
  Ok (ptr_at (iob_Buffer (own p) + iob_BufferPosition (own p)) (find_byte 10 (take n u))) s.
Proof.
  intros Hin Hn Hu. destruct Hin as [_ _ [R1 R2] _ _ (F1 & F2 & F3) G H _ _]. apply Forall_app in H as [H _].
  assert (0 < Z.of_nat (length u)) by (destruct u; [done|simpl; lia]). split; [lia|]. split.
  - unfold in_buffer. rewrite length_take. destruct (Z.ltb_spec (Z.of_nat n) (iob_BufferReadBytes (own p) - iob_BufferPosition (own p))); lia.
  - apply (memchr_ok _ (take n u) 10).
    + by apply bytes_at_take.
    + by apply Forall_take.
    + destruct u; [done|]. by destruct n; [lia|].
    + unfold CMem.in_space. rewrite length_take. lia.
Qed.

(** The effect of one turn. *)
Definition fgets_goes (buf e : Z) (n : nat) (p : proc) (s : state) (rest : list Z) (i : Z) : Prop :=
  exists s' p' w rest', rest = w ++ rest' /\ Reading s' p' rest' /\ shape p' = shape p /\ no_error p' /\
    errno s' = errno s /\ drew (around_read p e (Z.of_nat n)) i s s' /\ bytes_at (mem s') e w /\
    fgets_turn buf e n p p' rest w rest' s s'.

Lemma fgets_step_empty buf e n p s l i :
  Input s p [] l -> target (own p) = Some i -> place s p e (Z.of_nat n) -> (0 < n)%nat -> no_error p ->
  fgets_goes buf e n p s l i.
Proof.
  intros Hin Hi Hpl Hn Hne.
  destruct (fgets_single_ok buf e (Z.of_nat n) p s [] l i Hin Hi Hpl) as (s' & p' & Hs & Hne' & He & Hd & HG); [lia|done|].
  simpl app in *. pose proof (fgets_at_end s p l buf e (Z.of_nat n) Hin ltac:(lia)) as HB.
  assert (Hd' : drew (around_read p e (Z.of_nat n)) i s s') by (eapply around_read_sub; [exact Hd|lia|lia]).
  destruct l as [|c r].
  - destruct HG as (HR & Hr). exists s', p', [], []. split_and!; try done. left. split; [by destruct n|].
    rewrite HB, Hr. simpl. rewrite Z.add_0_r. by rewrite andb_true_r.
  - destruct HG as (HR & Hb & Hr). exists s', p', [c], r. split_and!; try done.
    destruct n as [|n]; [lia|]. unfold fgets_turn. rewrite HB, Hr. cbn [line length]. destruct (c =? 10).
    + left. by rewrite bool_decide_false, andb_false_r.
    + right. split; [lia|]. cbn [Nat.sub]. rewrite Nat.sub_0_r. split; [done|]. do 4 f_equal. lia.
Qed.

(** The loop looks for a line feed in what the buffer has. *)
Lemma fgets_body_chunk buf e n p s u l :
  Input s p u l -> (0 < n)%nat -> u <> [] ->
  let cu := take n u in
  fgets_body buf (e, Z.of_nat n, p) s =
  match find_byte 10 cu with
  | Some j => (let* p := copy_out e (Z.of_nat (S j)) p in leave (buf, e + Z.of_nat (S j), p)) s
  | None =>
      (let* p := copy_out e (Z.of_nat (length cu)) p in
       if Z.of_nat n - Z.of_nat (length cu) =? 0 then leave (buf, e + Z.of_nat (length cu), p)
       else fgets_single buf (e + Z.of_nat (length cu)) (Z.of_nat n - Z.of_nat (length cu)) p) s
  end.
Proof.
  intros Hin Hn Hu cu. destruct (chunk_of s p u l n Hin Hn Hu) as (Hlt & Hbuf' & Hm). fold cu in Hbuf', Hm.
  set (q := iob_Buffer (own p) + iob_BufferPosition (own p)) in *.
  assert (Hq : 0 < q) by (pose proof (in_pos _ _ _ _ Hin); destruct (in_room _ _ _ _ Hin); unfold q; lia).
  unfold fgets_body. rewrite (proj2 (Z.ltb_lt 0 _)), Hlt, Hbuf' by lia. cbn [negb]. cbv zeta. fold q.
  erewrite bind_ok by exact Hm. destruct (find_byte 10 cu) as [j|]; cbn [ptr_at]; [|done].
  rewrite (proj2 (Z.eqb_neq _ NULL)) by (unfold NULL; lia). cbn [negb].
  by replace (q + Z.of_nat j + 1 - q) with (Z.of_nat (S j)) by lia.
Qed.

Lemma fgets_step_found buf e n p s u l i j :
  Input s p u l -> target (own p) = Some i -> place s p e (Z.of_nat n) -> (0 < n)%nat -> no_error p -> u <> [] ->
  find_byte 10 (take n u) = Some j -> fgets_goes buf e n p s (u ++ l) i.
Proof.
  intros Hin Hi Hpl Hn Hne Hu Ej. pose proof (fgets_body_chunk buf e n p s u l Hin Hn Hu) as HB.
  cbv zeta in HB. rewrite Ej in HB. destruct (line_found n u l j Ej) as (El & Hj1 & Hj2).
  destruct (copy_out_ok s p u l e (S j) i Hin Hi) as (p' & Hc & Hin' & Hs & Hf & _ & Hd); [|lia|].
  { eapply (place_later (fun _ => False) i); [exact Hpl|reflexivity|done|lia|lia]. }
  erewrite bind_ok in HB by exact Hc.
  exists (wrote s e (take (S j) u)), p', (take (S j) u), (drop (S j) u ++ l).
  split_and!; try done; [by rewrite app_assoc, take_drop|by exists (drop (S j) u), l|by unfold no_error; rewrite Hf| | |].
  - eapply drew_weaken; [|exact Hd]. unfold around_read, within. intros a Ha. right. lia.
  - apply write_bytes_at.
  - left. split; [done|]. rewrite HB. assert (length (take (S j) u) = S j) as -> by (rewrite length_take; lia).
    rewrite bool_decide_false, andb_false_r; [done|]. by destruct u.
Qed.

Lemma fgets_step_chunk buf e n p s u l i :
  Input s p u l -> target (own p) = Some i -> place s p e (Z.of_nat n) -> (0 < n)%nat -> no_error p -> buf <= e ->
  u <> [] -> find_byte 10 (take n u) = None -> fgets_goes buf e n p s (u ++ l) i.
Proof.
  intros Hin Hi Hpl Hn Hne Hbe Hu Ej. pose proof (fgets_body_chunk buf e n p s u l Hin Hn Hu) as HB.
  cbv zeta in HB. rewrite Ej in HB. apply find_byte_None in Ej. set (cu := take n u) in *.
  assert (Hclen : length cu = Nat.min n (length u)) by (unfold cu; by rewrite length_take).
  assert (Hpos : (0 < length u)%nat) by (destruct u; [done|simpl; lia]).
  assert (Ecu : take (length cu) u = cu) by (rewrite <- (take_drop n u) at 1; apply take_app_length).
  destruct (copy_out_ok s p u l e (length cu) i Hin Hi) as (p1 & Hc & Hin' & Hs & Hf & _ & Hd); [|lia|].
  { eapply (place_later (fun _ => False) i); [exact Hpl|reflexivity|done|lia|lia]. }
  rewrite Ecu in *. erewrite bind_ok in HB by exact Hc. set (s1 := wrote s e cu) in *.
  assert (Hd1 : drew (around_read p e (Z.of_nat n)) i s s1).
  { eapply drew_weaken; [|exact Hd]. unfold around_read, within. intros a Ha. right. lia. }
  assert (Hne1 : no_error p1) by (unfold no_error; by rewrite Hf).
  assert (Hb1 : bytes_at (mem s1) e cu) by apply write_bytes_at. assert (He1 : errno s1 = errno s) by done. clearbody s1.
  destruct (decide (length cu = n)) as [En|Hlt].
  - rewrite (proj2 (Z.eqb_eq _ 0)) in HB by lia. exists s1, p1, cu, (drop (length cu) u ++ l). unfold fgets_goes.
    split_and!; try done; [by rewrite app_assoc, <- Ecu at 1; rewrite take_drop|by exists (drop (length cu) u), l|].
    left. split; [|rewrite HB; rewrite bool_decide_false, andb_false_r; [done|]; intros E0; rewrite E0 in En; simpl in En; lia].
    rewrite <- (take_drop n u) at 1. fold cu. rewrite <- app_assoc, line_more, En, Nat.sub_diag by (done || lia).
    by rewrite app_nil_r.
  - rewrite (proj2 (Z.eqb_neq _ 0)) in HB by lia. assert (Eu : cu = u) by (unfold cu; apply take_ge; lia).
    rewrite Eu in *. clear Eu cu. rewrite drop_all in Hin'.
    replace (Z.of_nat n - Z.of_nat (length u)) with (Z.of_nat (n - length u)) in HB by lia.
    destruct (fgets_single_ok buf (e + Z.of_nat (length u)) (Z.of_nat (n - length u)) p1 s1 [] l i Hin')
      as (s' & p' & Hs' & Hne' & He' & Hd' & HG).
    { by rewrite (shape_target _ _ Hs). }
    { eapply place_later; [exact Hpl|exact Hd|exact Hs|lia|lia]. }
    { lia. }
    { done. }
    assert (Hd2 : drew (around_read p e (Z.of_nat n)) i s s').
    { eapply around_trans; [exact Hd1|exact Hs|exact Hd'|lia|lia]. }
    assert (Hb2 : bytes_at (mem s') e u).
    { eapply around_keeps; [exact Hpl|exact Hs|exact Hd'|lia|lia|exact Hb1]. }
    assert (Hsh : shape p' = shape p) by congruence. assert (Her : errno s' = errno s) by congruence.
    simpl app in HG. unfold fgets_goes. destruct l as [|c r].
    + destruct HG as (HR & Hr). exists s', p', u, []. split_and!; try done. left. rewrite HB, Hr.
      rewrite line_more by (done || lia). assert (E : line (n - length u) [] = []) by (by destruct (n - length u)%nat).
      rewrite E, app_nil_r. split; [done|]. rewrite bool_decide_false, andb_false_r by done.
      by rewrite (proj2 (Z.eqb_neq buf _)) by lia.
    + destruct HG as (HR & Hb & Hr). exists s', p', (u ++ [c]), r. split_and!; try done; [by rewrite <- app_assoc|by apply bytes_at_app|].
      unfold fgets_turn. rewrite HB, Hr, line_more, length_app by (done || lia). simpl length.
      destruct (n - length u)%nat as [|m] eqn:Em; [lia|]. cbn [line]. destruct (c =? 10).
      * left. split; [done|]. rewrite bool_decide_false, andb_false_r by (by destruct u). do 4 f_equal. lia.
      * right. split; [lia|]. replace (n - (length u + 1))%nat with m by lia. split; [by rewrite <- app_assoc|].
        replace (e + Z.of_nat (length u + 1)) with (e + Z.of_nat (length u) + 1) by lia.
        by replace (Z.of_nat (S m) - 1) with (Z.of_nat m) by lia.
Qed.

Lemma fgets_step buf e n p s rest i :
  Reading s p rest -> target (own p) = Some i -> place s p e (Z.of_nat n) -> (0 < n)%nat -> no_error p -> buf <= e ->
  fgets_goes buf e n p s rest i.
Proof.
  intros (u & l & <- & Hin) Hi Hpl Hn Hne Hbe. destruct (decide (u = [])) as [->|Hu]; [by apply fgets_step_empty|].
  destruct (find_byte 10 (take n u)) as [j|] eqn:Ej; [by eapply fgets_step_found|by apply fgets_step_chunk].
Qed.

(** What the whole loop does. *)
Definition fgets_result (buf e : Z) (n : nat) (rest : list Z) : Z :=
  if (buf =? e) && bool_decide ((0 < n)%nat /\ rest = []) then NULL else buf.

Lemma turn_result buf e n rest :
  (0 < n)%nat -> (if (buf =? e) && bool_decide (line n rest = []) then NULL else buf) = fgets_result buf e n rest.
Proof.
  intros Hn. unfold fgets_result. rewrite (bool_decide_ext (line n rest = []) ((0 < n)%nat /\ rest = [])); [done|].
  split; [intros E; split; [done|by eapply line_empty]|]. intros [_ ->]. by destruct n.
Qed.

Lemma fgets_loop m buf e n p s rest i :
  (n <= m)%nat ->
  Reading s p rest -> target (own p) = Some i -> place s p e (Z.of_nat n) -> no_error p -> buf <= e ->
  exists s' p', lrun (fgets_body buf) (Z.of_nat n + 1) (e, Z.of_nat n, p) s
      (fgets_result buf e n rest, e + Z.of_nat (length (line n rest)), p') s' /\
    Reading s' p' (drop (length (line n rest)) rest) /\ shape p' = shape p /\ errno s' = errno s /\
    drew (around_read p e (Z.of_nat n)) i s s' /\ bytes_at (mem s') e (line n rest).
Proof.
  revert e n p s rest. induction m as [|m IH]; intros e n p s rest Hm HR Hi Hpl Hne Hbe.
  - assert (n = 0%nat) as -> by lia. exists s, p. cbn [line length drop Z.of_nat]. rewrite Z.add_0_r.
    split_and!; try done. apply lrun_done; [|lia]. unfold fgets_result. rewrite bool_decide_false by lia.
    by rewrite andb_false_r.
  - destruct (decide (n = 0%nat)) as [->|Hn]; [apply IH; done || lia|].
    destruct (fgets_step buf e n p s rest i HR Hi Hpl ltac:(lia) Hne Hbe)
      as (s1 & p1 & w & rest1 & Er & HR1 & Hs1 & Hne1 & He1 & Hd1 & Hb1 & [(Ew & HB)|(Hw & El & HB)]).
    + exists s1, p1. rewrite <- (turn_result buf e n rest) by lia. rewrite <- Ew. split_and!; try done.
      * apply lrun_done; [exact HB|lia].
      * by rewrite Er, drop_app_length.
    + destruct (IH (e + Z.of_nat (length w)) (n - length w)%nat p1 s1 rest1) as (s' & p' & Hr & HR' & Hs' & He' & Hd' & Hb');
        try done; [lia|by rewrite (shape_target _ _ Hs1)| |lia|].
      { eapply place_later; [exact Hpl|exact Hd1|exact Hs1|lia|lia]. }
      exists s', p'. rewrite El, length_app. split_and!.
      * eapply lrun_next; [exact HB|]. eapply lrun_weaken; [|instantiate (1 := Z.of_nat (n - length w) + 1); lia].
        replace (e + Z.of_nat (length w + length (line (n - length w) rest1)))
          with (e + Z.of_nat (length w) + Z.of_nat (length (line (n - length w) rest1))) by lia.
        assert (E : fgets_result buf e n rest = fgets_result buf (e + Z.of_nat (length w)) (n - length w) rest1).
        { unfold fgets_result. rewrite (proj2 (Z.eqb_neq buf (e + Z.of_nat (length w)))) by lia.
          rewrite (bool_decide_false (_ /\ rest = [])), andb_false_r; [done|].
          intros [_ ->]. destruct w; [simpl in Hw; lia|done]. }
        by rewrite E.
      * by rewrite Er, <- drop_drop, drop_app_length.
      * congruence.
      * congruence.
      * eapply around_trans; [exact Hd1|exact Hs1|exact Hd'|lia|lia].
      * apply bytes_at_app. split; [|done]. eapply around_keeps; [exact Hpl|exact Hs1|exact Hd'|lia|lia|exact Hb1].
Qed.

Lemma fgets_ok s p rest buf n :
  Reading s p rest -> place s p buf n -> 0 < n < 2147483648 ->
  let w := line (Z.to_nat (n - 1)) rest in
  exists s' p', fgets buf n (Some p) s = Ok (if (1 <? n) && bool_decide (rest = []) then NULL else buf, Some p') s' /\
    Reading s' p' (drop (length w) rest) /\ bytes_at (mem s') buf (w ++ [0]) /\
    shape p' = shape p /\ errno s' = errno s /\ drew (around_read p buf n) (default 0 (target (own p))) s s'.
Proof.
  intros HR Hpl Hn w. destruct (reading_target _ _ _ HR) as (i & Hi). rewrite Hi. change (default 0 (Some i)) with i.
  destruct HR as (u & l & <- & Hin). pose proof (check_ok _ _ _ _ Hin) as Hck.
  destruct (clear_flags_ok _ _ _ _ Hin) as (Hin0 & Hs0 & Hne0). set (p0 := on_own clear_flags p) in *.
  destruct (fgets_loop (Z.to_nat (n - 1)) buf buf (Z.to_nat (n - 1)) p0 s (u ++ l) i)
    as (s1 & p1 & Hr & (u1 & l1 & E1 & Hin1) & Hs1 & He1 & Hd1 & Hb1); [lia|by exists u, l| | |done|lia|].
  { by rewrite (shape_target _ _ Hs0). }
  { eapply (place_later (fun _ => False) i); [exact Hpl|reflexivity|exact Hs0|lia|lia]. }
  fold w in Hr, E1, Hb1. destruct (line_length (Z.to_nat (n - 1)) (u ++ l)) as [Hwl _]. fold w in Hwl.
  assert (Hd1' : drew (around_read p buf n) i s s1).
  { eapply drew_weaken; [|exact Hd1]. unfold around_read. rewrite (shape_buffer _ _ Hs0). unfold within.
    intros a [Ha|Ha]; [by left|right; lia]. }
  destruct (place_store s1 p1 u1 l1 (buf + Z.of_nat (length w)) (n - Z.of_nat (length w)) 0 i Hin1) as (Hst & Hin2 & Hd2).
  { by rewrite (shape_target _ _ Hs1), (shape_target _ _ Hs0). }
  { eapply place_later; [exact Hpl|exact Hd1'|congruence|lia|lia]. }
  { lia. }
  { zlia. }
  exists (wrote s1 (buf + Z.of_nat (length w)) [0]), p1. split_and!; try done.
  - unfold fgets. rewrite (proj2 (Z.eqb_neq buf NULL)) by (destruct Hpl; unfold NULL; lia).
    rewrite (proj2 (Z.leb_gt n 0)) by lia.
    assert (HL : loop (fgets_body buf) (buf, n - 1, p0) s =
      Ok (if (1 <? n) && bool_decide (u ++ l = []) then NULL else buf, buf + Z.of_nat (length w), p1) s1).
    { replace (n - 1) with (Z.of_nat (Z.to_nat (n - 1))) by lia. erewrite loop_lrun; [|exact Hr|lia].
      unfold fgets_result. rewrite Z.eqb_refl. cbn [andb]. replace (1 <? n) with (bool_decide (0 < Z.to_nat (n - 1))%nat).
      - by rewrite bool_decide_and.
      - destruct (Z.ltb_spec 1 n); [apply bool_decide_true|apply bool_decide_false]; lia. }
    assert (HF : fgets_file buf n p s = Ok (if (1 <? n) && bool_decide (u ++ l = []) then NULL else buf, p1)
      (wrote s1 (buf + Z.of_nat (length w)) [0])).
    { unfold fgets_file. erewrite bind_ok by exact Hck. cbv beta iota zeta. change (OK <? 0) with false. cbv iota. fold p0.
      erewrite bind_ok by exact HL. cbv beta iota. by erewrite bind_ok by exact Hst. }
    by erewrite bind_ok by exact HF.
  - by exists u1, l1.
  - by apply write_bytes_after.
  - congruence.
  - etrans; [exact Hd1'|]. eapply drew_weaken; [|exact Hd2]. unfold around_read, within. intros a Ha. right. lia.
Qed.

(** *** Blocks *)

(** The descriptor behind the stream can be read, and is not a socket. *)
Definition plain_source (p : proc) : Prop :=
  exists i e, target (own p) = Some i /\ get_file_descriptor (iob_Descriptor (own p)) true = Some i /\
    fd_at i = Some e /\ FLAG_IS_CLEAR (fd_Flags e) FDF_READ = false /\ FLAG_IS_SET (fd_Flags e) FDF_IS_SOCKET = false.

Lemma shape_source p p' : shape p' = shape p -> plain_source p -> plain_source p'.
Proof.
  intros Hs (i & e & H1 & H2 & H3). exists i, e. rewrite (shape_target _ _ Hs). unfold shape in Hs.
  injection Hs as _ _ _ -> _ _. done.
Qed.

(** Reading past the buffer. *)
Lemma read_past_ok s p l d n i :
  Input s p [] l -> plain_source p -> target (own p) = Some i -> place s p d n -> 0 < n < 2147483648 ->
  let k := amount i n l in
  exists s' p', read_past d n p s = Ok (Z.of_nat k, p') s' /\ Input s' p' [] (drop k l) /\ shape p' = shape p /\
    drew (within d n) i s s' /\ bytes_at (mem s') d (take k l).
Proof.
  intros Hin (i1 & e & Hi1 & Hget & Hfd & Hrd & Hsock) Hi (P1 & P2 & P3) Hn k.
  assert (i1 = i) as -> by congruence. pose proof Hin as [A B C D E F G H (i2 & I1 & I2) J].
  assert (i2 = i) as -> by congruence. simpl app in H.
  destruct (amount_most i n l) as [K1 K2]. fold k in K1, K2.
  destruct (fd_Action_read i (put_errno s 0) d n l Hn P2 I2 H) as (er & Hr). fold k in Hr.
  set (s1 := put_file (wrote (put_errno s 0) d (take k l)) i (drop k l)) in *.
  assert (Hlen : length (take k l) = k) by (rewrite length_take; lia).
  assert (Hd : drew (within d n) i s s1).
  { split; simpl.
    - intros a Ha. apply write_bytes_outside. rewrite Hlen. unfold within in Ha. lia.
    - apply kept_write; [intros _; by apply Forall_take|]. rewrite Hlen. eapply mapped_sub; [exact P2|lia|lia].
    - intros j Hj. by rewrite lookup_insert_ne. }
  assert (Hrd1 : read (iob_Descriptor (own p)) d n s = Ok (Z.of_nat k) s1).
  { unfold read. erewrite bind_ok by reflexivity. rewrite (proj2 (Z.eqb_neq d NULL)) by (unfold NULL; lia).
    rewrite Hget, Hfd, Hrd, (proj2 (Z.ltb_lt 0 n)), Hsock, s32_id by lia. cbn [negb].
    erewrite bind_ok by exact Hr. cbv beta iota. unfold EOF. by rewrite (proj2 (Z.eqb_neq _ (-1))) by lia. }
  assert (HI : Input s1 p [] (drop k l)).
  { split; try done.
    - by eapply (drew_mapped _ _ _ _ _ _ Hd).
    - simpl app. by apply Forall_drop.
    - exists i. split; [done|]. simpl. by rewrite lookup_insert_eq. }
  exists s1, (if Z.of_nat k =? 0 then on_own (fun f => SET_FLAG f IOBF_EOF_REACHED) p else p). split_and!.
  - unfold read_past. erewrite bind_ok by exact Hrd1. by rewrite (proj2 (Z.eqb_neq _ (-1))) by lia.
  - destruct (Z.of_nat k =? 0); [|done]. destruct HI as [X1 X2 X3 X4 X5 X6 X7 X8 X9 X10]. split; try done. cbn.
    unfold readable. by rewrite land_lor_other.
  - destruct (Z.of_nat k =? 0); [|done]. unfold shape. cbn. by rewrite land_lor_other.
  - done.
  - apply write_bytes_at.
Qed.

Lemma fread_single_ok d n t p s u l i :
  Input s p u l -> target (own p) = Some i -> place s p d n -> 0 < n ->
  exists s' p', shape p' = shape p /\ drew (around_read p d 1) i s s' /\
    match u ++ l with
    | [] => Reading s' p' [] /\ fread_single d n t p s = Ok (inr (Some t, p')) s'
    | c :: r => Reading s' p' r /\ bytes_at (mem s') d [c] /\
        fread_single d n t p s = Ok (inl (d + 1, n - 1, t + 1, p')) s'
    end.
Proof.
  intros Hin Hi Hpl Hn. destruct (getc_store_ok d n p s u l i Hin Hi Hpl Hn) as (s1 & p1 & s2 & Hs & Hd & _ & HG).
  exists s2, p1. unfold fread_single. destruct (u ++ l) as [|c r].
  - destruct HG as (Hr & HR & _). split_and!; try done. by erewrite bind_ok by exact Hr.
  - destruct HG as (Hr & Hc & Hst & HR & Hb & _). split_and!; try done.
    erewrite bind_ok by exact Hr. cbv beta iota. rewrite Hc. by erewrite bind_ok by exact Hst.
Qed.

(** The effect of one turn of the loop of [fread]: the next bytes [w] are
    stored, and the loop ends when they are all that is wanted or left. *)
Definition fread_goes (d : Z) (n : nat) (t : Z) (p : proc) (s : state) (rest : list Z) (i : Z) : Prop :=
  exists s' p' w rest', rest = w ++ rest' /\ Reading s' p' rest' /\ shape p' = shape p /\
    drew (around_read p d (Z.of_nat n)) i s s' /\ bytes_at (mem s') d w /\
    ((w = take n rest /\
      fread_body (d, Z.of_nat n, t, p) s = Ok (inr (Some (t + Z.of_nat (length w)), p')) s') \/
     ((0 < length w <= n)%nat /\
      fread_body (d, Z.of_nat n, t, p) s =
      Ok (inl (d + Z.of_nat (length w), Z.of_nat (n - length w), t + Z.of_nat (length w), p')) s')).

Lemma fread_goes_single d n t p s p1 s1 w u l i :
  fread_body (d, Z.of_nat n, t, p) s =
    fread_single (d + Z.of_nat (length w)) (Z.of_nat (n - length w)) (t + Z.of_nat (length w)) p1 s1 ->
  Input s1 p1 u l -> target (own p) = Some i -> place s p d (Z.of_nat n) -> (length w < n)%nat ->
  shape p1 = shape p -> drew (around_read p d (Z.of_nat n)) i s s1 -> bytes_at (mem s1) d w ->
  fread_goes d n t p s (w ++ u ++ l) i.
Proof.
  intros HB Hin Hi Hpl Hw Hs Hd Hb.
  destruct (fread_single_ok (d + Z.of_nat (length w)) (Z.of_nat (n - length w)) (t + Z.of_nat (length w)) p1 s1 u l i Hin)
    as (s' & p' & Hs' & Hd' & HG).
  { by rewrite (shape_target _ _ Hs). }
  { eapply place_later; [exact Hpl|exact Hd|exact Hs|lia|lia]. }
  { lia. }
  assert (Hd2 : drew (around_read p d (Z.of_nat n)) i s s').
  { eapply around_trans; [exact Hd|exact Hs|exact Hd'|lia|lia]. }
  assert (Hb2 : bytes_at (mem s') d w).
  { eapply around_keeps; [exact Hpl|exact Hs|exact Hd'|lia|lia|exact Hb]. }
  assert (Hsh : shape p' = shape p) by congruence. unfold fread_goes. rewrite HB.
  destruct (u ++ l) as [|c r].
  - destruct HG as (HR & Hr). exists s', p', w, []. split_and!; try done. left. rewrite app_nil_r, take_ge by lia. done.
  - destruct HG as (HR & Hb' & Hr). exists s', p', (w ++ [c]), r. rewrite <- app_assoc. split_and!; try done.
    { by apply bytes_at_app. }
    right. rewrite length_app. simpl length. split; [lia|]. rewrite Hr.
    replace (Z.of_nat (length w + 1)) with (Z.of_nat (length w) + 1) by lia.
    replace (Z.of_nat (n - (length w + 1))) with (Z.of_nat (n - length w) - 1) by lia. by rewrite !Z.add_assoc.
Qed.

(** The file hands out all that is asked for, as long as it has it. *)
Definition whole (i : Z) : Prop := forall n l, 0 < n -> amount i n l = Nat.min (Z.to_nat n) (length l).

Lemma fread_step_chunk d n t p s u l i :
  Input s p u l -> target (own p) = Some i -> place s p d (Z.of_nat n) -> (0 < n)%nat -> u <> [] ->
  (iob_BufferReadBytes (own p) =? 0) && (iob_BufferSize (own p) <=? Z.of_nat n) = false ->
  fread_goes d n t p s (u ++ l) i.
Proof.
  intros Hin Hi Hpl Hn Hu Hby.
  destruct (chunk_of s p u l n Hin Hn Hu) as (Hlt & Hc & _). set (cu := take n u) in *.
  assert (Hclen : length cu = Nat.min n (length u)) by (unfold cu; by rewrite length_take).
  assert (Hpos : (0 < length u)%nat) by (destruct u; [done|simpl; lia]).
  assert (Ecu : take (length cu) u = cu) by (rewrite <- (take_drop n u) at 1; apply take_app_length).
  destruct (copy_out_ok s p u l d (length cu) i Hin Hi) as (p1 & Hcp & Hin' & Hs & _ & _ & Hd); [|lia|].
  { eapply (place_later (fun _ => False) i); [exact Hpl|reflexivity|done|lia|lia]. }
  rewrite Ecu in *. set (s1 := wrote s d cu) in *. assert (Hb : bytes_at (mem s1) d cu) by apply write_bytes_at.
  assert (Hd' : drew (around_read p d (Z.of_nat n)) i s s1).
  { eapply drew_weaken; [|exact Hd]. unfold around_read, within. intros a Ha. right. lia. }
  assert (HB : fread_body (d, Z.of_nat n, t, p) s =
    (if Z.of_nat n - Z.of_nat (length cu) =? 0 then leave (Some (t + Z.of_nat (length cu)), p1)
     else fread_single (d + Z.of_nat (length cu)) (Z.of_nat n - Z.of_nat (length cu)) (t + Z.of_nat (length cu)) p1) s1).
  { unfold fread_body. rewrite (proj2 (Z.ltb_lt 0 _)), Hby, Hlt, Hc by lia. cbn [negb]. cbv zeta.
    by erewrite bind_ok by exact Hcp. }
  rewrite <- (take_drop (length cu) u), Ecu, <- app_assoc. destruct (Z.eqb_spec (Z.of_nat n - Z.of_nat (length cu)) 0).
  - exists s1, p1, cu, (drop (length cu) u ++ l). split_and!; try done; [by exists (drop (length cu) u), l|].
    left. split; [|exact HB]. by replace n with (length cu) by lia; rewrite take_app_length.
  - apply (fread_goes_single d n t p s p1 s1 cu (drop (length cu) u) l i); try done; [|lia].
    by replace (Z.of_nat (n - length cu)) with (Z.of_nat n - Z.of_nat (length cu)) by lia.
Qed.

Lemma fread_step d n t p s rest i :
  Reading s p rest -> target (own p) = Some i -> plain_source p -> whole i -> place s p d (Z.of_nat n) ->
  (0 < n)%nat -> Z.of_nat n < 2147483648 -> fread_goes d n t p s rest i.
Proof.
  intros (u & l & <- & Hin) Hi Hps Hwh Hpl Hn Hmax. destruct (in_pos _ _ _ _ Hin) as (F1 & F2 & F3).
  destruct ((iob_BufferReadBytes (own p) =? 0) && (iob_BufferSize (own p) <=? Z.of_nat n)) eqn:Hby.
  - assert (u = []) as -> by (destruct u; [done|simpl in F2; lia]). simpl app.
    destruct (read_past_ok s p l d (Z.of_nat n) i Hin Hps Hi Hpl ltac:(lia)) as (s' & p' & Hr & Hin' & Hs & Hd & Hb).
    rewrite Hwh, Nat2Z.id in Hr, Hin', Hb by lia. set (k := Nat.min n (length l)) in *.
    assert (Ek : take n l = take k l).
    { unfold k. destruct (Nat.min_spec n (length l)) as [[_ ->]|[? ->]]; [done|]. by rewrite !take_ge by lia. }
    exists s', p', (take k l), (drop k l). split_and!; try done; [by rewrite take_drop|by exists [], (drop k l)| |].
    + eapply drew_weaken; [|exact Hd]. by right.
    + left. split; [done|]. unfold fread_body. rewrite (proj2 (Z.ltb_lt 0 _)), Hby by lia. cbn [negb].
      erewrite bind_ok by exact Hr. cbv beta iota. rewrite (proj2 (Z.eqb_neq _ (-1))) by lia.
      rewrite length_take. by replace (k `min` length l)%nat with k by (unfold k; lia).
  - destruct (decide (u = [])) as [->|Hu].
    + apply (fread_goes_single d n t p s p s [] [] l i); try done.
      simpl length in *. rewrite Z.add_0_r, Nat.sub_0_r, Z.add_0_r. unfold fread_body.
      by rewrite (proj2 (Z.ltb_lt 0 _)), Hby, (proj2 (Z.ltb_ge _ _)) by lia.
    + by apply fread_step_chunk.
Qed.

Lemma fread_loop m d n t p s rest i :
  (n <= m)%nat ->
  Reading s p rest -> target (own p) = Some i -> plain_source p -> whole i -> place s p d (Z.of_nat n) ->
  Z.of_nat n < 2147483648 ->
  exists s' p', lrun fread_body (Z.of_nat n + 1) (d, Z.of_nat n, t, p) s
      (Some (t + Z.of_nat (length (take n rest))), p') s' /\
    Reading s' p' (drop n rest) /\ shape p' = shape p /\
    drew (around_read p d (Z.of_nat n)) i s s' /\ bytes_at (mem s') d (take n rest).
Proof.
  revert d n t p s rest. induction m as [|m IH]; intros d n t p s rest Hm HR Hi Hps Hwh Hpl Hmax.
  - assert (n = 0%nat) as -> by lia. exists s, p. rewrite take_0. cbn [length drop Z.of_nat]. rewrite Z.add_0_r.
    split_and!; try done. apply lrun_done; [done|lia].
  - destruct (decide (n = 0%nat)) as [->|Hn]; [apply IH; done || lia|].
    destruct (fread_step d n t p s rest i HR Hi Hps Hwh Hpl ltac:(lia) Hmax)
      as (s1 & p1 & w & rest1 & Er & HR1 & Hs1 & Hd1 & Hb1 & [(Ew & HB)|(Hw & HB)]).
    + exists s1, p1. rewrite <- Ew. split_and!; try done.
      * apply lrun_done; [exact HB|lia].
      * assert (rest1 = drop n rest) as <-; [|done].
        apply (app_inv_head w). rewrite <- Er, Ew. symmetry. apply take_drop.
    + destruct (IH (d + Z.of_nat (length w)) (n - length w)%nat (t + Z.of_nat (length w)) p1 s1 rest1)
        as (s' & p' & Hr & HR' & Hs' & Hd' & Hb'); try done; [lia|by rewrite (shape_target _ _ Hs1)
        |by eapply shape_source| |lia|].
      { eapply place_later; [exact Hpl|exact Hd1|exact Hs1|lia|lia]. }
      assert (El : take n rest = w ++ take (n - length w) rest1) by (by rewrite Er, take_app, take_ge by lia).
      exists s', p'. rewrite El, length_app. split_and!.
      * eapply lrun_next; [exact HB|]. eapply lrun_weaken; [|instantiate (1 := Z.of_nat (n - length w) + 1); lia].
        by rewrite Nat2Z.inj_add, Z.add_assoc.
      * by rewrite Er, drop_app, drop_ge by lia.
      * congruence.
      * eapply around_trans; [exact Hd1|exact Hs1|exact Hd'|lia|lia].
      * apply bytes_at_app. split; [|done]. eapply around_keeps; [exact Hpl|exact Hs1|exact Hd'|lia|lia|exact Hb1].
Qed.
End Input.
