(* ===== verification/Reads.v ===== *)
(** * Reading from streams: the theorems

    [fgetc], [getc] and [ungetc] on the rest of the input, lines by [fgets]
    one at a time and all of them, and blocks by [fread]. *)

From Stdlib Require Import String.
From S2P Require Import Prelude CMem Cells CType Words StrScan StrCopy Stdio Streams Output Typed StdioIn Input.

Section Reads.
Context `{HM : SysMem} `{HD : Dos} `{HN : Net} (amount : Z -> Z -> list Z -> nat).
Context `{!SysMemLaws HM} `{!DosReadLaws HD amount}.

(** Only the buffer of the stream changed, and what its file has left. *)
Definition buffer_only (p p' : proc) (s s' : state) : Prop :=
  drew (buffer_of p) (default 0 (target (own p))) s s' /\ errno s' = errno s /\ shape p' = shape p.

(** *** Characters *)

Lemma fgetc_file_getc s p rest : Reading s p rest -> fgetc_file p s = getc_buffered p s.
Proof.
  intros (u & l & _ & Hin). unfold fgetc_file. by erewrite bind_ok by (by eapply check_ok).
Qed.

Lemma getc_unlocked_fgetc s p rest : Reading s p rest -> getc_unlocked p s = fgetc_file p s.
Proof.
  intros HR. rewrite (fgetc_file_getc s p rest HR). unfold getc_unlocked.
  destruct (_ && _) eqn:E; [|by eapply fgetc_file_getc].
  apply andb_prop in E as [_ E]. unfold getc_buffered. by rewrite E.
Qed.

(** A character can be pushed back when one was taken from the buffer. *)
Lemma ungetc_ok s p u l d :
  Input s p u l -> is_byte d -> 0 < iob_BufferPosition (own p) ->
  exists s' p', ungetc d (Some p) s = Ok (d, Some p') s' /\ Input s' p' (d :: u) l /\ buffer_only p p' s s'.
Proof.
  intros Hin Hd Hpos. pose proof Hin as [A B [C1 C2] D E (F1 & F2 & F3) G H (i & I1 & I2) J].
  destruct (readable_flags _ A) as (_ & H2 & H3).
  set (p' := on_own (fun f => advance (CLEAR_FLAG f IOBF_EOF_REACHED) (-1)) p).
  set (q := iob_Buffer (own p) + iob_BufferPosition (own p) - 1).
  assert (Hq : iob_Buffer (own p') + iob_BufferPosition (own p') = q) by (unfold q, p'; cbn; lia).
  assert (Hst : store8 q d s = Ok tt (wrote s q [d])) by (apply store8_wrote; [done|apply E; unfold q; lia]).
  assert (Hdr : drew (buffer_of p) i s (wrote s q [d])).
  { eapply drew_weaken; [|apply (drew_wrote i q [d]); [by apply Forall_singleton|]].
    - intros a. unfold buffer_of, within, q. simpl. lia.
    - eapply mapped_sub; [exact E|unfold q; lia|unfold q; simpl; lia]. }
  exists (wrote s q [d]), p'. split_and!.
  - assert (HF : ungetc_file d p s = Ok (d, p') (wrote s q [d])).
    { unfold ungetc_file. cbv zeta. rewrite H2, H3. unfold EOF.
      rewrite (proj2 (Z.eqb_neq d (-1))) by (unfold is_byte in Hd; lia).
      assert (Hfl : flush_before_read p s = Ok (OK, p) s).
      { unfold flush_before_read, iob_write_buffer_is_valid. by rewrite (proj2 (Z.ltb_ge 0 _)) by lia. }
      erewrite bind_ok by exact Hfl. cbv beta iota. change (OK <? 0) with false. cbv iota.
      rewrite (proj2 (Z.eqb_neq _ 0)) by lia. fold p'. rewrite Hq. erewrite bind_ok by exact Hst.
      unfold ret. do 2 f_equal. change 255 with (Z.ones 8). rewrite Z.land_ones by lia. apply Z.mod_small. exact Hd. }
    unfold ungetc, with_stream. by erewrite bind_ok by exact HF.
  - split; try done.
    + unfold p'. cbn. unfold readable. by rewrite land_clear_other.
    + by eapply (drew_mapped _ _ _ _ _ _ Hdr).
    + unfold p'. cbn. lia.
    + rewrite Hq. change (d :: u) with ([d] ++ u). apply bytes_at_app. split; [apply write_bytes_at|].
      replace (q + Z.of_nat (length [d])) with (iob_Buffer (own p) + iob_BufferPosition (own p)) by (unfold q; simpl; lia).
      apply write_bytes_frame; [done|]. unfold disj, q. simpl. lia.
    + by constructor.
    + by exists i.
  - split; [by rewrite I1|]. split; [done|]. unfold shape, p'. cbn. by rewrite land_clear_other.
Qed.

Lemma ungetc_refused s p u l d :
  Input s p u l -> is_byte d -> iob_BufferPosition (own p) = 0 ->
  ungetc d (Some p) s = Ok (EOF, Some (on_own (fun f => SET_FLAG f IOBF_ERROR) p)) (put_errno s ENOBUFS).
Proof.
  intros Hin Hd Hpos. pose proof (in_write _ _ _ _ Hin) as Hw.
  destruct (readable_flags _ (in_flags _ _ _ _ Hin)) as (_ & H2 & H3).
  unfold ungetc, with_stream, ungetc_file. cbv zeta. rewrite H2, H3. unfold EOF at 1.
  rewrite (proj2 (Z.eqb_neq d (-1))) by (unfold is_byte in Hd; lia).
  unfold flush_before_read, iob_write_buffer_is_valid. rewrite (proj2 (Z.ltb_ge 0 _)) by lia.
  assert (HF : (let* (r, p) := ret (OK, p) in
    if r <? 0 then ret (EOF, p)
    else if iob_BufferPosition (own p) =? 0 then
      set_errno ENOBUFS ;; ret (EOF, on_own (fun f => SET_FLAG f IOBF_ERROR) p)
    else
      let p := on_own (fun f => advance (CLEAR_FLAG f IOBF_EOF_REACHED) (-1)) p in
      store8 (iob_Buffer (own p) + iob_BufferPosition (own p)) d ;;
      ret (Z.land d 255, p)) s =
    Ok (EOF, on_own (fun f => SET_FLAG f IOBF_ERROR) p) (put_errno s ENOBUFS)).
  { erewrite bind_ok by reflexivity. cbv beta iota. change (OK <? 0) with false. cbv iota.
    by rewrite (proj2 (Z.eqb_eq _ 0)). }
  by erewrite bind_ok by exact HF.
Qed.

(** C9: [fgetc] (and [getc], and the macro [getc_unlocked]) on a stream open
    for reading returns the next character of the input, whether it is in
    the buffer or must be read, and leaves the rest to be read; [ungetc] then
    puts any character in front of the rest.  At the end [fgetc] returns
    [EOF] and [feof] is true, and [ungetc] fails with [ENOBUFS].  Nothing but
    the buffer changes.  A null stream is [EFAULT]. *)
Theorem fgetc_ungetc_correct s p rest :
  Reading s p rest ->
  getc_unlocked p s = fgetc_file p s /\ getc (Some p) s = fgetc (Some p) s /\
  fgetc None s = Ok (EOF, None) (put_errno s EFAULT) /\
  exists s' p', buffer_only p p' s s' /\
    match rest with
    | c :: r => fgetc (Some p) s = Ok (c, Some p') s' /\ Reading s' p' r /\
        forall d, is_byte d -> exists s2 p2, ungetc d (Some p') s' = Ok (d, Some p2) s2 /\
          Reading s2 p2 (d :: r) /\ buffer_only p p2 s s2
    | [] => fgetc (Some p) s = Ok (EOF, Some p') s' /\ Reading s' p' [] /\ feof (Some p') s' = Ok true s' /\
        forall d, is_byte d -> exists p2, ungetc d (Some p') s' = Ok (EOF, Some p2) (put_errno s' ENOBUFS)
    end.
Proof.
  intros HR. pose proof (fgetc_file_getc s p rest HR) as HF. split; [by eapply getc_unlocked_fgetc|].
  split; [done|]. split; [done|]. destruct HR as (u & l & E & Hin).
  destruct (getc_ok amount s p u l Hin) as (s' & p' & Hd & He & Hs & HG). exists s', p'. split; [done|].
  rewrite E in HG. destruct rest as [|c r].
  - destruct HG as (Hr & Hin' & Hf & Hp0). split_and!.
    + unfold fgetc, with_stream. rewrite <- HF in Hr. by erewrite bind_ok by exact Hr.
    + by exists [], [].
    + unfold feof. by rewrite Hf, flag_just_set.
    + intros d Hd'. eexists. by eapply ungetc_refused.
  - destruct HG as (Hr & (u' & l' & E' & Hin') & _ & Hp0). split_and!.
    + unfold fgetc, with_stream. rewrite <- HF in Hr. by erewrite bind_ok by exact Hr.
    + by exists u', l'.
    + intros d Hd'. destruct (ungetc_ok s' p' u' l' d Hin' Hd' Hp0) as (s2 & p2 & Hu & Hin2 & Hd2 & He2 & Hs2).
      exists s2, p2. split; [done|]. split; [exists (d :: u'), l'; by rewrite <- E'|].
      split; [|split; congruence]. etrans; [exact Hd|]. rewrite <- (shape_target _ _ Hs).
      by rewrite <- (shape_buffer _ _ Hs).
Qed.

(** *** Lines *)

(** Only the buffer of the stream and [n] bytes at [d] changed. *)
Definition stored_only (p p' : proc) (d n : Z) (s s' : state) : Prop :=
  drew (around_read p d n) (default 0 (target (own p))) s s' /\ shape p' = shape p.

(** [fgets] with room for [n] bytes stores the next line of the input:
    the characters up to and including a line feed, but at most [n - 1] of
    them, ended by a NUL; it takes them from the input, wherever the refills
    of the buffer fall, and returns [buf], or null when the input is at its
    end (and then an empty string is stored).  With [n] 1 it takes nothing.
    A null pointer is [EFAULT], and without room nothing happens. *)
Theorem fgets_correct s p rest buf n :
  Reading s p rest -> place s p buf n -> n < 2147483648 ->
  (0 < n ->
   let w := line (Z.to_nat (n - 1)) rest in
   exists s' p', fgets buf n (Some p) s = Ok (if (1 <? n) && bool_decide (rest = []) then NULL else buf, Some p') s' /\
     Reading s' p' (drop (length w) rest) /\ bytes_at (mem s') buf (w ++ [0]) /\
     stored_only p p' buf n s s' /\ errno s' = errno s) /\
  (n <= 0 -> fgets buf n (Some p) s = Ok (NULL, Some p) s) /\
  fgets NULL n (Some p) s = Ok (NULL, Some p) (put_errno s EFAULT) /\
  fgets buf n None s = Ok (NULL, None) (put_errno s EFAULT).
Proof.
  intros HR Hpl Hn. assert (Hbuf : 0 < buf) by apply Hpl. split_and!.
  - intros Hn0 w. destruct (fgets_ok amount s p rest buf n HR Hpl ltac:(lia)) as (s' & p' & H1 & H2 & H3 & H4 & H5 & H6).
    exists s', p'. by split_and!.
  - intros Hn0. unfold fgets. by rewrite (proj2 (Z.eqb_neq buf NULL)), (proj2 (Z.leb_le n 0)) by (unfold NULL; lia).
  - done.
  - unfold fgets. by rewrite (proj2 (Z.eqb_neq buf NULL)) by (unfold NULL; lia).
Qed.

(** [fgets] called until it returns null, with the lines it stored. *)
Inductive fgets_run (buf n : Z) : state -> proc -> list (list Z) -> state -> proc -> Prop :=
  | fgets_stop s p s' p' : fgets buf n (Some p) s = Ok (NULL, Some p') s' -> fgets_run buf n s p [] s' p'
  | fgets_more s p w s1 p1 ws s' p' :
      fgets buf n (Some p) s = Ok (buf, Some p1) s1 -> bytes_at (mem s1) buf (w ++ [0]) ->
      fgets_run buf n s1 p1 ws s' p' -> fgets_run buf n s p (w :: ws) s' p'.

(** A line: not empty, at most [n] long, with a line feed at the end only. *)
Definition is_line (n : nat) (w : list Z) : Prop :=
  w <> [] /\ (length w <= n)%nat /\ forall i, w !! i = Some 10 -> S i = length w.

Lemma line_is_line n l : (0 < n)%nat -> l <> [] -> is_line n (line n l).
Proof.
  revert n. induction l as [|c l IH]; intros n Hn Hl; [done|]. destruct n as [|n]; [lia|]. cbn [line].
  destruct (Z.eqb_spec c 10) as [->|Hc].
  - split; [done|]. split; [simpl; lia|]. by intros [|i] Hi.
  - split; [done|]. split; [simpl; pose proof (proj1 (line_length n l)); lia|].
    intros [|i] Hi; simpl in Hi; [congruence|]. simpl. f_equal.
    destruct (decide (l = [])) as [->|Hl']; [by destruct n|]. destruct n as [|n]; [done|].
    by apply (IH (S n) ltac:(lia) Hl').
Qed.

(** C7: a program that calls [fgets] until it returns null comes to the end
    of any input, and has been given all of it: the lines stored, each not
    empty, no longer than its room and with a line feed only at its end, are
    the input when put one after another. *)
Theorem fgets_all_lines s p rest buf n :
  Reading s p rest -> place s p buf n -> 1 < n < 2147483648 ->
  exists ws s' p', fgets_run buf n s p ws s' p' /\ concat ws = rest /\ Forall (is_line (Z.to_nat (n - 1))) ws /\
    Reading s' p' [] /\ stored_only p p' buf n s s' /\ errno s' = errno s.
Proof.
  intros HR Hpl Hn. remember (length rest) as m eqn:Hm. revert s p rest HR Hpl Hm.
  induction m as [m IH] using lt_wf_ind. intros s p rest HR Hpl ->.
  destruct (fgets_ok amount s p rest buf n HR Hpl ltac:(lia)) as (s1 & p1 & H1 & H2 & H3 & H4 & H5 & H6).
  rewrite (proj2 (Z.ltb_lt 1 n)) in H1 by lia. cbn [andb] in H1. set (w := line (Z.to_nat (n - 1)) rest) in *.
  destruct (decide (rest = [])) as [->|Hne].
  - exists [], s1, p1. split; [by apply fgets_stop|]. split; [done|]. split; [constructor|].
    unfold w in H2. destruct (Z.to_nat (n - 1)); done.
  - rewrite bool_decide_false in H1 by done. pose proof (line_is_line (Z.to_nat (n - 1)) rest ltac:(lia) Hne) as Hw. fold w in Hw.
    destruct (line_length (Z.to_nat (n - 1)) rest) as (_ & r & Er). fold w in Er.
    assert (Hlen : (length (drop (length w) rest) < length rest)%nat).
    { rewrite length_drop. destruct Hw as (Hw & _). destruct w; [done|]. destruct rest; [done|]. simpl. lia. }
    destruct (IH _ Hlen s1 p1 (drop (length w) rest) H2) as (ws & s' & p' & R1 & R2 & R3 & R4 & [R5 R6] & R7); [|done|].
    { eapply place_later; [exact Hpl|exact H6|exact H4|lia|lia]. }
    exists (w :: ws), s', p'. split_and!; try done.
    + by eapply fgets_more.
    + simpl. rewrite R2. rewrite Er at 2. by rewrite Er at 1; rewrite drop_app_length.
    + by constructor.
    + split; [|congruence]. rewrite (shape_target _ _ H4) in R5.
      eapply around_trans; [exact H6|exact H4|exact R5|lia|lia].
    + congruence.
Qed.

(** *** Blocks *)

Lemma fread_ok s p rest ptr es count :
  Reading s p rest -> plain_source p -> whole amount (default 0 (target (own p))) ->
  Z.land (iob_Flags (own p)) IOBF_BUFFER_MODE <> IOBF_BUFFER_MODE_NONE ->
  0 < es -> 0 < count -> es * count < 2147483648 -> place s p ptr (es * count) ->
  let w := take (Z.to_nat (es * count)) rest in
  exists s' p', fread ptr es count (Some p) s = Ok (Z.of_nat (length w) / es, Some p') s' /\
    Reading s' p' (drop (Z.to_nat (es * count)) rest) /\ bytes_at (mem s') ptr w /\
    stored_only p p' ptr (es * count) s s'.
Proof.
  intros HR Hps Hwh Hmode Hes Hc Hmax Hpl w. destruct (reading_target _ _ _ HR) as (i & Hi).
  unfold stored_only. rewrite Hi in Hwh |- *. change (default 0 (Some i)) with i in *.
  destruct HR as (u & l & <- & Hin). destruct (clear_flags_ok _ _ _ _ Hin) as (Hin0 & Hs0 & _).
  set (p0 := on_own clear_flags p) in *. set (n := Z.to_nat (es * count)) in *.
  assert (En : es * count = Z.of_nat n) by (unfold n; nia). pose proof (check_ok _ _ _ _ Hin0) as Hck.
  destruct (fread_loop amount n ptr n 0 p0 s (u ++ l) i) as (s1 & p1 & Hr & HR1 & Hs1 & Hd1 & Hb1).
  { done. }
  { by exists u, l. }
  { by rewrite (shape_target _ _ Hs0). }
  { by eapply shape_source. }
  { done. }
  { eapply (place_later (fun _ => False) i); [exact Hpl|reflexivity|exact Hs0|lia|lia]. }
  { lia. }
  fold w in Hr, Hb1. exists s1, p1. split_and!; try done.
  - destruct (readable_flags _ (in_flags _ _ _ _ Hin)) as (_ & H2 & H3).
    assert (HF : fread_file ptr es count p s = Ok (Z.of_nat (length w) / es, p1) s1).
    { unfold fread_file. rewrite H2, H3. cbn [orb]. fold p0. cbv zeta.
      rewrite (proj2 (Z.ltb_lt 0 es)), (proj2 (Z.ltb_lt 0 count)) by lia. cbn [andb].
      erewrite bind_ok by exact Hck. cbv beta iota. change (OK <? 0) with false. cbv iota.
      rewrite u32_id, Z.div_mul, Z.eqb_refl by lia. cbn [negb].
      assert (Em : (Z.land (iob_Flags (own p0)) IOBF_BUFFER_MODE =? IOBF_BUFFER_MODE_NONE) = false).
      { apply Z.eqb_neq. by rewrite (shape_mode _ _ Hs0). }
      rewrite Em, En. erewrite bind_ok by (eapply loop_lrun; [exact Hr|lia]). cbv beta iota. by rewrite Z.add_0_l. }
    unfold fread. rewrite (proj2 (Z.eqb_neq ptr NULL)) by (destruct Hpl; unfold NULL; lia).
    unfold with_stream. by erewrite bind_ok by exact HF.
  - rewrite En. eapply drew_weaken; [|exact Hd1]. unfold around_read. by rewrite (shape_buffer _ _ Hs0).
  - congruence.
Qed.

(** The overflow check of [fread]. *)
Lemma product_overflows es count :
  0 < es < 4294967296 -> 0 < count < 4294967296 -> 4294967296 <= es * count -> es <> u32 (es * count) / count.
Proof.
  intros He Hc Ho E. assert (Hd : u32 (es * count) < es * count) by (pose proof (u32_range (es * count)); lia).
  pose proof (Z.mul_div_le (u32 (es * count)) count ltac:(lia)).
  assert (Hm : (es * count) mod 4294967296 = u32 (es * count)) by done.
  rewrite <- E in H. rewrite Z.mul_comm in H. lia.
Qed.

(** C8: [fread] of [count] elements of [es] bytes on a buffered stream of a
    file that gives what is asked for stores the next [es * count] bytes of
    the input, or all that are left, whether they come from the buffer, from
    refills of it, or past it directly, and returns the number of whole
    elements among them; a part of an element at the end is consumed too.
    A product that overflows reads nothing, and so does a stream not open
    for reading, with [EBADF]. *)
Theorem fread_correct s p rest ptr es count :
  Reading s p rest -> plain_source p -> whole amount (default 0 (target (own p))) ->
  Z.land (iob_Flags (own p)) IOBF_BUFFER_MODE <> IOBF_BUFFER_MODE_NONE ->
  0 < es < 4294967296 -> 0 < count < 4294967296 -> 0 < ptr ->
  (es * count < 2147483648 -> place s p ptr (es * count) ->
   let w := take (Z.to_nat (es * count)) rest in
   exists s' p', fread ptr es count (Some p) s = Ok (Z.of_nat (length w) / es, Some p') s' /\
     Reading s' p' (drop (Z.to_nat (es * count)) rest) /\ bytes_at (mem s') ptr w /\
     stored_only p p' ptr (es * count) s s') /\
  (4294967296 <= es * count -> fread ptr es count (Some p) s = Ok (0, Some (on_own clear_flags p)) s) /\
  (forall q, FLAG_IS_CLEAR (iob_Flags (own q)) IOBF_READ = true ->
   exists q', fread ptr es count (Some q) s = Ok (0, Some q') (put_errno s EBADF)).
Proof.
  intros HR Hps Hwh Hmode Hes Hc Hptr. split_and!.
  - intros Hmax Hpl. apply fread_ok; done || lia.
  - intros Ho. pose proof (product_overflows es count Hes Hc Ho) as Hne. destruct HR as (u & l & _ & Hin).
    destruct (readable_flags _ (in_flags _ _ _ _ Hin)) as (_ & H2 & H3). destruct (clear_flags_ok _ _ _ _ Hin) as (Hin0 & _ & _).
    assert (HF : fread_file ptr es count p s = Ok (0, on_own clear_flags p) s).
    { unfold fread_file. rewrite H2, H3. cbn [orb]. cbv zeta. rewrite (proj2 (Z.ltb_lt 0 es)), (proj2 (Z.ltb_lt 0 count)) by lia.
      cbn [andb]. erewrite bind_ok by (by eapply check_ok). cbv beta iota. change (OK <? 0) with false. cbv iota.
      by rewrite (proj2 (Z.eqb_neq _ _) Hne). }
    unfold fread. rewrite (proj2 (Z.eqb_neq ptr NULL)) by (unfold NULL; lia). unfold with_stream.
    by erewrite bind_ok by exact HF.
  - intros q Hq. eexists. unfold fread. rewrite (proj2 (Z.eqb_neq ptr NULL)) by (unfold NULL; lia).
    assert (HF : fread_file ptr es count q s =
      Ok (0, on_own (fun f => SET_FLAG f IOBF_ERROR) q) (put_errno s EBADF)).
    { unfold fread_file. by rewrite Hq, orb_true_r. }
    unfold with_stream. by erewrite bind_ok by exact HF.
Qed.

(** *** [gets] *)

(** One turn of the loop, on a line in the buffer. *)
Lemma gets_line s p u l buf j i :
  Input s p u l -> target (own p) = Some i -> find_byte 10 u = Some j ->
  let n := Z.of_nat (S j) in
  place s p buf (2 * n + 1) ->
  exists s' p', loop (gets_body buf) (buf, p) s = Ok (buf, buf + n, p') s' /\ Input s' p' (drop (S j) u) l /\
    shape p' = shape p /\ drew (within buf (2 * n + 1)) i s s' /\
    bytes_at (mem s') buf (take (S j) u) /\ mem s' !! (buf + 2 * n) = Some 0.
Proof.
  intros Hin Hi Hj n Hpl. assert (Hu : u <> []) by (by intros ->).
  destruct (chunk_of s p u l (length u) Hin) as (Hlt & Hib & Hm); [destruct u; [done|simpl; lia]|done|].
  rewrite take_ge, Hj in Hm by lia. rewrite take_ge in Hib by lia.
  assert (Hju : (S j <= length u)%nat) by (apply find_byte_Some in Hj as [Hj _]; by apply lookup_lt_Some in Hj).
  destruct (copy_out_ok s p u l buf (S j) i Hin Hi) as (p1 & Hc & Hin1 & Hs1 & _ & _ & Hd1); [|lia|].
  { eapply (place_later (fun _ => False) i); [exact Hpl|reflexivity|done|lia|lia]. }
  fold n in Hc, Hd1. set (s1 := wrote s buf (take (S j) u)) in *.
  assert (Hb1 : bytes_at (mem s1) buf (take (S j) u)) by apply write_bytes_at.
  assert (Hlen : length (take (S j) u) = S j) by (rewrite length_take; lia). clearbody s1.
  destruct (place_store s1 p1 _ l (buf + 2 * n) 1 0 i Hin1) as (St1 & Hin2 & Hd2);
    [by rewrite (shape_target _ _ Hs1)|eapply place_later; [exact Hpl|exact Hd1|exact Hs1|lia|lia]|lia|zlia|].
  exists (wrote s1 (buf + 2 * n) [0]), p1. split_and!; try done.
  - apply loop_lrun with 1; [|lia]. apply lrun_done; [|lia]. unfold gets_body. rewrite Hlt. cbv zeta.
    set (q := iob_Buffer (own p) + iob_BufferPosition (own p)) in *. pose proof (in_pos _ _ _ _ Hin) as (F1 & F2 & _).
    assert (Hq : 0 < q) by (destruct (in_room _ _ _ _ Hin); unfold q; lia).
    replace (iob_BufferReadBytes (own p) - iob_BufferPosition (own p)) with (Z.of_nat (length u)) by lia.
    erewrite bind_ok by exact Hm. cbn [ptr_at]. rewrite (proj2 (Z.eqb_neq _ NULL)) by (unfold NULL; lia).
    cbn [negb]. replace (q + Z.of_nat j + 1 - q) with n by (unfold n; lia). erewrite bind_ok by exact Hc.
    replace (buf + n + n) with (buf + 2 * n) by lia. by erewrite bind_ok by exact St1.
  - etrans; (eapply drew_weaken; [|first [exact Hd1|exact Hd2]]); unfold within; lia.
  - eapply (drew_bytes _ _ _ _ _ _ Hd2); [|exact Hb1]. rewrite Hlen. unfold within. intros a Ha. lia.
  - apply (write_bytes_at (mem s1) (buf + 2 * n) [0]).
Qed.

(** when the buffer has a whole line, [gets] stores it with its line
    feed, which it should drop, and a NUL behind it; and it stores another
    NUL as far behind the end of the line as the line is long, outside the
    string: a caller with just enough room for the line is written past. *)
Theorem gets_overruns s p u l buf j :
  Input s p u l -> find_byte 10 u = Some j ->
  let n := Z.of_nat (S j) in
  place s p buf (2 * n + 1) ->
  exists s' p', gets buf (Some p) s = Ok (buf, Some p') s' /\ Input s' p' (drop (S j) u) l /\
    bytes_at (mem s') buf (take (S j) u ++ [0]) /\ mem s' !! (buf + 2 * n) = Some 0.
Proof.
  intros Hin Hj n Hpl. destruct (in_source _ _ _ _ Hin) as (i & Hi & _). pose proof (check_ok _ _ _ _ Hin) as Hck.
  destruct (clear_flags_ok _ _ _ _ Hin) as (Hin0 & Hs0 & _). set (p0 := on_own clear_flags p) in *.
  destruct (gets_line s p0 u l buf j i Hin0) as (s1 & p1 & HL & Hin1 & Hs1 & Hd1 & Hb1 & Hz);
    [by rewrite (shape_target _ _ Hs0)|done| |].
  { fold n. eapply (place_later (fun _ => False) i); [exact Hpl|reflexivity|exact Hs0|lia|lia]. }
  fold n in HL, Hd1, Hz. assert (Hlen : length (take (S j) u) = S j).
  { apply find_byte_Some in Hj as [Hj _]. apply lookup_lt_Some in Hj. rewrite length_take. lia. }
  destruct (place_store s1 p1 _ l (buf + n) 1 0 i Hin1) as (St & Hin2 & Hd2);
    [by rewrite (shape_target _ _ Hs1), (shape_target _ _ Hs0)| |lia|zlia|].
  { eapply place_later; [exact Hpl|exact Hd1|congruence|lia|lia]. }
  exists (wrote s1 (buf + n) [0]), p1. split_and!; [|done| |].
  - assert (HF : gets_file buf p s = Ok (buf, p1) (wrote s1 (buf + n) [0])).
    { unfold gets_file. erewrite bind_ok by exact Hck. cbv beta iota zeta. change (OK <? 0) with false. cbv iota.
      fold p0. erewrite bind_ok by exact HL. cbv beta iota. by erewrite bind_ok by exact St. }
    unfold gets. rewrite (proj2 (Z.eqb_neq buf NULL)) by (destruct Hpl; unfold NULL; lia).
    unfold with_stream. by erewrite bind_ok by exact HF.
  - replace (buf + n) with (buf + Z.of_nat (length (take (S j) u))) by (rewrite Hlen; done). by apply write_bytes_after.
  - by rewrite (dw_mem _ _ _ _ Hd2) by (unfold within; lia).
Qed.
End Reads.

(** ** A file to read *)

Definition sample_amount (_ n : Z) (l : list Z) : nat := Nat.min (Z.to_nat n) (length l).

Definition reading_dos : Dos := {|
  fds := [Some (mkFd 129 None)];
  fd_Action i fam s :=
    match fam, files s !! i with
    | file_action_read p n, Some l =>
        let k := sample_amount i n l in
        Ok (Z.of_nat k, OK) (put_file (wrote s p (take k l)) i (drop k l))
    | _, _ => Ok (EOF, EBADF) s
    end;
  send _ _ _ := ret EOF;
  IoErr := ret EBADF;
|}.

Lemma reading_dos_laws : DosReadLaws reading_dos sample_amount.
Proof.
  split.
  - intros i n l. unfold sample_amount. lia.
  - intros i n l Hn H. unfold sample_amount in H. destruct l; [done|]. simpl in H. lia.
  - intros i s p n l Hn Hm Hf HF. exists OK. simpl. by rewrite Hf.
  - intros i s p n Hf. exists EBADF. simpl. by rewrite Hf.
Qed.

Definition no_net : Net := {| recv _ _ _ := ret EOF |}.

(** A fully buffered stream with a buffer of four bytes at 1000, of which
    [n] were read and [k] taken, and room for strings at 2000. *)
Definition sample_input (k n : Z) : proc := mkProc (mkIob 40 0 1000 4 k n 0 iob_hook_entry 0 0 0 0) [None].
Definition input_state (held later : list Z) : state :=
  mkState (memory [(1000, held); (2000, replicate 20 7)]) 0 (<[0 := later]> ∅).
Definition two_lines : list Z := bytes "ab" ++ [10] ++ bytes "cdef".

#[local] Existing Instances reading_dos no_net reading_dos_laws.

Lemma fresh_input : Reading (HD := reading_dos) (input_state [9; 9; 9; 9] two_lines) (sample_input 0 0) two_lines.
Proof.
  exists [], two_lines. split; [done|]. split; try done; try (simpl; lia); try ground.
  - simpl. repeat constructor; done.
  - by exists 0.
  - by constructor.
Qed.

Lemma sample_place s k n d m : 1004 <= d -> mapped (mem s) d m -> place s (sample_input k n) d m.
Proof. intros Hd Hm. split; [lia|]. split; [done|]. intros a. unfold within, buffer_of, within. simpl. lia. Qed.

Lemma fgetc_ungetc_correct_witness :
  exists s' p' s2 p2, fgetc (Some (sample_input 0 0)) (input_state [9; 9; 9; 9] two_lines) = Ok (97, Some p') s' /\
    ungetc 120 (Some p') s' = Ok (120, Some p2) s2 /\ Reading s2 p2 (120 :: drop 1 two_lines).
Proof.
  destruct (fgetc_ungetc_correct (HM := sample_mem) (HD := reading_dos) sample_amount
    (input_state [9; 9; 9; 9] two_lines) (sample_input 0 0) two_lines fresh_input)
    as (_ & _ & _ & s' & p' & _ & H1 & _ & H2).
  destruct (H2 120) as (s2 & p2 & H3 & H4 & _); [zlia|].
  exists s', p', s2, p2. split; [exact H1|]. split; [exact H3|exact H4].
Defined.

Lemma fgets_correct_witness :
  exists s' p', fgets 2000 20 (Some (sample_input 0 0)) (input_state [9; 9; 9; 9] two_lines) = Ok (2000, Some p') s' /\
    Reading s' p' (bytes "cdef") /\ bytes_at (mem s') 2000 [97; 98; 10; 0].
Proof.
  destruct (fgets_correct (HM := sample_mem) (HD := reading_dos) sample_amount
    (input_state [9; 9; 9; 9] two_lines) (sample_input 0 0) two_lines 2000 20 fresh_input) as (H & _).
  - apply sample_place; [lia|ground].
  - lia.
  - destruct (H ltac:(lia)) as (s' & p' & H1 & H2 & H3 & _). exists s', p'.
    split; [exact H1|]. split; [exact H2|exact H3].
Defined.

Lemma fgets_all_lines_witness :
  exists ws s' p', fgets_run 2000 20 (input_state [9; 9; 9; 9] two_lines) (sample_input 0 0) ws s' p' /\
    concat ws = two_lines.
Proof.
  destruct (fgets_all_lines (HM := sample_mem) (HD := reading_dos) sample_amount
    (input_state [9; 9; 9; 9] two_lines) (sample_input 0 0) two_lines 2000 20 fresh_input)
    as (ws & s' & p' & H1 & H2 & _).
  - apply sample_place; [lia|ground].
  - lia.
  - exists ws, s', p'. split; [exact H1|exact H2].
Defined.

Lemma fread_correct_witness :
  exists s' p', fread 2000 2 4 (Some (sample_input 0 0)) (input_state [9; 9; 9; 9] two_lines) = Ok (3, Some p') s' /\
    Reading s' p' [] /\ bytes_at (mem s') 2000 two_lines.
Proof.
  destruct (fread_correct (HM := sample_mem) (HD := reading_dos) (HN := no_net) sample_amount
    (input_state [9; 9; 9; 9] two_lines) (sample_input 0 0) two_lines 2000 2 4 fresh_input) as (H & _).
  - exists 0, (mkFd 129 None). by split_and!.
  - intros n l Hn. reflexivity.
  - done.
  - lia.
  - lia.
  - lia.
  - destruct H as (s' & p' & H1 & H2 & H3 & _); [lia|apply sample_place; [lia|ground]|].
    exists s', p'. split; [exact H1|]. split; [exact H2|exact H3].
Defined.

Lemma gets_overruns_witness :
  exists s' p', gets 2000 (Some (sample_input 0 4)) (input_state [97; 98; 10; 99] (bytes "def")) = Ok (2000, Some p') s' /\
    bytes_at (mem s') 2000 [97; 98; 10; 0] /\ mem s' !! 2006 = Some 0.
Proof.
  destruct (gets_overruns (HM := sample_mem) (HD := reading_dos) 
    (input_state [97; 98; 10; 99] (bytes "def")) (sample_input 0 4) [97; 98; 10; 99] (bytes "def") 2000 2)
    as (s' & p' & H1 & _ & H2 & H3).
  - split; try done; try (simpl; lia); try ground.
    + simpl. repeat constructor; done.
    + by exists 0.
    + by constructor.
  - done.
  - apply sample_place; [lia|ground].
  - exists s', p'. split; [exact H1|]. split; [exact H2|exact H3].
Defined.
