(* ===== verification/Hashes.v ===== *)
(** * The hash functions of the hash map ([library/misc/map.c])

    [hashmap_sip], [hashmap_murmur] and [hashmap_xxhash3] read a buffer of
    bytes and mix it, with a seed, into 64 bits.  The code is followed by the
    functions it is meant to compute, on lists of bytes, and the theorem that
    it computes them on any buffer, reads nothing else and changes nothing.
    An object of type [uint64_t] has its most significant byte first. *)

From Stdlib Require Import String.
From S2P Require Import Prelude CMem.

(** ** The code *)

(** The bytes of an object of type [uint64_t], and the object with given
    bytes. *)
Definition object64 (x : Z) : list Z :=
  (fun k => u8 (Z.shiftr x k)) <$> [56; 48; 40; 32; 24; 16; 8; 0].
Definition value64 (l : list Z) : Z := foldl (fun v b => v * 256 + b) 0 l.

(** The bytes [p[0]], ..., [p[n - 1]]. *)
Fixpoint loads (n : nat) (p : Z) : M (list Z) :=
  match n with
  | O => ret []
  | S n => let* b := load8 p in let* l := loads n (p + 1) in ret (b :: l)
  end.

Definition shl64 (x n : Z) : Z := u64 (Z.shiftl x n).

(** *** SipHash *)

Definition U8TO64_LE (p : list Z) : Z :=
  Z.lor (Z.lor (Z.lor (Z.lor (Z.lor (Z.lor (Z.lor (p !!! 0%nat)
    (shl64 (p !!! 1%nat) 8)) (shl64 (p !!! 2%nat) 16)) (shl64 (p !!! 3%nat) 24))
    (shl64 (p !!! 4%nat) 32)) (shl64 (p !!! 5%nat) 40)) (shl64 (p !!! 6%nat) 48))
    (shl64 (p !!! 7%nat) 56).

Definition U32TO8_LE (v : Z) : list Z :=
  [u8 v; u8 (Z.shiftr v 8); u8 (Z.shiftr v 16); u8 (Z.shiftr v 24)].
Definition U64TO8_LE (v : Z) : list Z :=
  U32TO8_LE (u32 v) ++ U32TO8_LE (u32 (Z.shiftr v 32)).

Definition ROTL (x b : Z) : Z := Z.lor (shl64 x b) (Z.shiftr x (64 - b)).

Definition SIPROUND (v : Z * Z * Z * Z) : Z * Z * Z * Z :=
  let '(v0, v1, v2, v3) := v in
  let v0 := u64 (v0 + v1) in let v1 := ROTL v1 13 in
  let v1 := Z.lxor v1 v0 in let v0 := ROTL v0 32 in
  let v2 := u64 (v2 + v3) in let v3 := ROTL v3 16 in
  let v3 := Z.lxor v3 v2 in
  let v0 := u64 (v0 + v3) in let v3 := ROTL v3 21 in
  let v3 := Z.lxor v3 v0 in
  let v2 := u64 (v2 + v1) in let v1 := ROTL v1 17 in
  let v1 := Z.lxor v1 v2 in let v2 := ROTL v2 32 in
  (v0, v1, v2, v3).

Definition SIP64_body (end_ : Z) '(inp, v) : M (Z * (Z * Z * Z * Z) + Z * (Z * Z * Z * Z)) :=
  if inp =? end_ then leave (inp, v)
  else
    let* p := loads 8 inp in
    let m := U8TO64_LE p in
    let '(v0, v1, v2, v3) := v in
    let v3 := Z.lxor v3 m in
    let '(v0, v1, v2, v3) := SIPROUND (SIPROUND (v0, v1, v2, v3)) in
    let v0 := Z.lxor v0 m in
    again (inp + 8, (v0, v1, v2, v3)).

(** A label of the switch on [left]: reached when [left] is at least [n]. *)
Definition SIP64_case (left n : Z) (inp b : Z) : M Z :=
  if n <=? left then
    let* x := load8 (inp + (n - 1)) in ret (Z.lor b (shl64 x (8 * (n - 1))))
  else ret b.

Definition SIP64 (inp inlen seed0 seed1 : Z) : M Z :=
  let k0 := U8TO64_LE (object64 seed0) in
  let k1 := U8TO64_LE (object64 seed1) in
  let v3 := Z.lxor 0x7465646279746573 k1 in
  let v2 := Z.lxor 0x6c7967656e657261 k0 in
  let v1 := Z.lxor 0x646f72616e646f6d k1 in
  let v0 := Z.lxor 0x736f6d6570736575 k0 in
  let end_ := inp + inlen - inlen mod 8 in
  let* (inp, v) := loop (SIP64_body end_) (inp, (v0, v1, v2, v3)) in
  let left := Z.land inlen 7 in
  let b := shl64 inlen 56 in
  let* b := SIP64_case left 7 inp b in
  let* b := SIP64_case left 6 inp b in
  let* b := SIP64_case left 5 inp b in
  let* b := SIP64_case left 4 inp b in
  let* b := SIP64_case left 3 inp b in
  let* b := SIP64_case left 2 inp b in
  let* b := SIP64_case left 1 inp b in
  let '(v0, v1, v2, v3) := v in
  let v3 := Z.lxor v3 b in
  let '(v0, v1, v2, v3) := SIPROUND (SIPROUND (v0, v1, v2, v3)) in
  let v0 := Z.lxor v0 b in
  let v2 := Z.lxor v2 0xff in
  let '(v0, v1, v2, v3) :=
    SIPROUND (SIPROUND (SIPROUND (SIPROUND (v0, v1, v2, v3)))) in
  let b := Z.lxor (Z.lxor (Z.lxor v0 v1) v2) v3 in
  ret (value64 (U64TO8_LE b)).

(** *** MurmurHash3 *)

Definition ROTL32 (x r : Z) : Z := Z.lor (u32 (Z.shiftl x r)) (Z.shiftr x (32 - r)).

Definition FMIX32 (h : Z) : Z :=
  let h := Z.lxor h (Z.shiftr h 16) in
  let h := u32 (h * 0x85ebca6b) in
  let h := Z.lxor h (Z.shiftr h 13) in
  let h := u32 (h * 0xc2b2ae35) in
  Z.lxor h (Z.shiftr h 16).

Definition c1 : Z := 0x239b961b.
Definition c2 : Z := 0xab0e9789.
Definition c3 : Z := 0x38b34ae5.
Definition c4 : Z := 0xa1e38b93.

Definition MM86128_body (blocks : Z) '(i, (h1, h2, h3, h4))
    : M (Z * (Z * Z * Z * Z) + Z * Z * Z * Z) :=
  if i =? 0 then leave (h1, h2, h3, h4)
  else
    let* k1 := load32 (blocks + 4 * (i * 4 + 0)) in
    let* k2 := load32 (blocks + 4 * (i * 4 + 1)) in
    let* k3 := load32 (blocks + 4 * (i * 4 + 2)) in
    let* k4 := load32 (blocks + 4 * (i * 4 + 3)) in
    let k1 := u32 (k1 * c1) in let k1 := ROTL32 k1 15 in let k1 := u32 (k1 * c2) in
    let h1 := Z.lxor h1 k1 in let h1 := ROTL32 h1 19 in
    let h1 := u32 (h1 + h2) in let h1 := u32 (h1 * 5 + 0x561ccd1b) in
    let k2 := u32 (k2 * c2) in let k2 := ROTL32 k2 16 in let k2 := u32 (k2 * c3) in
    let h2 := Z.lxor h2 k2 in let h2 := ROTL32 h2 17 in
    let h2 := u32 (h2 + h3) in let h2 := u32 (h2 * 5 + 0x0bcaa747) in
    let k3 := u32 (k3 * c3) in let k3 := ROTL32 k3 17 in let k3 := u32 (k3 * c4) in
    let h3 := Z.lxor h3 k3 in let h3 := ROTL32 h3 15 in
    let h3 := u32 (h3 + h4) in let h3 := u32 (h3 * 5 + 0x96cd1c35) in
    let k4 := u32 (k4 * c4) in let k4 := ROTL32 k4 18 in let k4 := u32 (k4 * c1) in
    let h4 := Z.lxor h4 k4 in let h4 := ROTL32 h4 13 in
    let h4 := u32 (h4 + h1) in let h4 := u32 (h4 * 5 + 0x32ac3b17) in
    again (i + 1, (h1, h2, h3, h4)).

(** A label of the switch on [len & 15]: reached when that is at least [n]. *)
Definition MM86128_case (t n sh : Z) (tail k : Z) : M Z :=
  if n <=? t then
    let* x := load8 (tail + (n - 1)) in ret (Z.lxor k (u32 (Z.shiftl x sh)))
  else ret k.

(** The statements after the last of the bytes of a word. *)
Definition MM86128_mix (t n k h : Z) (c r c' : Z) : Z :=
  if n <=? t then
    let k := u32 (k * c) in let k := ROTL32 k r in let k := u32 (k * c') in
    Z.lxor h k
  else h.

Definition MM86128_tail (t tail : Z) '(h1, h2, h3, h4) : M (Z * Z * Z * Z) :=
  let* k4 := MM86128_case t 15 16 tail 0 in
  let* k4 := MM86128_case t 14 8 tail k4 in
  let* k4 := MM86128_case t 13 0 tail k4 in
  let h4 := MM86128_mix t 13 k4 h4 c4 18 c1 in
  let* k3 := MM86128_case t 12 24 tail 0 in
  let* k3 := MM86128_case t 11 16 tail k3 in
  let* k3 := MM86128_case t 10 8 tail k3 in
  let* k3 := MM86128_case t 9 0 tail k3 in
  let h3 := MM86128_mix t 9 k3 h3 c3 17 c4 in
  let* k2 := MM86128_case t 8 24 tail 0 in
  let* k2 := MM86128_case t 7 16 tail k2 in
  let* k2 := MM86128_case t 6 8 tail k2 in
  let* k2 := MM86128_case t 5 0 tail k2 in
  let h2 := MM86128_mix t 5 k2 h2 c2 16 c3 in
  let* k1 := MM86128_case t 4 24 tail 0 in
  let* k1 := MM86128_case t 3 16 tail k1 in
  let* k1 := MM86128_case t 2 8 tail k1 in
  let* k1 := MM86128_case t 1 0 tail k1 in
  let h1 := MM86128_mix t 1 k1 h1 c1 15 c2 in
  ret (h1, h2, h3, h4).

Definition MM86128_sums '(h1, h2, h3, h4) : Z * Z * Z * Z :=
  let h1 := u32 (h1 + h2) in
  let h1 := u32 (h1 + h3) in
  let h1 := u32 (h1 + h4) in
  (h1, u32 (h2 + h1), u32 (h3 + h1), u32 (h4 + h1)).

Definition MM86128 (key len seed : Z) : M Z :=
  let nblocks := Z.quot len 16 in
  let blocks := key + nblocks * 16 in
  let* h := loop (MM86128_body blocks) (- nblocks, (seed, seed, seed, seed)) in
  let* (h1, h2, h3, h4) := MM86128_tail (Z.land len 15) (key + nblocks * 16) h in
  let h1 := Z.lxor h1 (u32 len) in
  let h2 := Z.lxor h2 (u32 len) in
  let h3 := Z.lxor h3 (u32 len) in
  let h4 := Z.lxor h4 (u32 len) in
  let '(h1, h2, h3, h4) := MM86128_sums (h1, h2, h3, h4) in
  let h1 := FMIX32 h1 in
  let h2 := FMIX32 h2 in
  let h3 := FMIX32 h3 in
  let h4 := FMIX32 h4 in
  let '(h1, h2, h3, h4) := MM86128_sums (h1, h2, h3, h4) in
  ret (Z.lor (shl64 h2 32) h1).

(** *** xxHash *)

Definition XXH_PRIME_1 : Z := 11400714785074694791.
Definition XXH_PRIME_2 : Z := 14029467366897019727.
Definition XXH_PRIME_3 : Z := 1609587929392839161.
Definition XXH_PRIME_4 : Z := 9650029242287828579.
Definition XXH_PRIME_5 : Z := 2870177450012600261.

(** [memcpy] into a local integer, whose bytes are then its value. *)
Definition XXH_read64 (memptr : Z) : M Z := let* l := loads 8 memptr in ret (value64 l).
Definition XXH_read32 (memptr : Z) : M Z := let* l := loads 4 memptr in ret (value64 l).

Definition XXH_rotl64 (x r : Z) : Z := Z.lor (shl64 x r) (Z.shiftr x (64 - r)).

Definition xxh3_stripe_body (limit : Z) '(p, (v1, v2, v3, v4))
    : M (Z * (Z * Z * Z * Z) + Z * (Z * Z * Z * Z)) :=
  let* w := XXH_read64 p in
  let v1 := u64 (v1 + u64 (w * XXH_PRIME_2)) in
  let v1 := XXH_rotl64 v1 31 in
  let v1 := u64 (v1 * XXH_PRIME_1) in
  let* w := XXH_read64 (p + 8) in
  let v2 := u64 (v2 + u64 (w * XXH_PRIME_2)) in
  let v2 := XXH_rotl64 v2 31 in
  let v2 := u64 (v2 * XXH_PRIME_1) in
  let* w := XXH_read64 (p + 16) in
  let v3 := u64 (v3 + u64 (w * XXH_PRIME_2)) in
  let v3 := XXH_rotl64 v3 31 in
  let v3 := u64 (v3 * XXH_PRIME_1) in
  let* w := XXH_read64 (p + 24) in
  let v4 := u64 (v4 + u64 (w * XXH_PRIME_2)) in
  let v4 := XXH_rotl64 v4 31 in
  let v4 := u64 (v4 * XXH_PRIME_1) in
  let p := p + 32 in
  if p <=? limit then again (p, (v1, v2, v3, v4)) else leave (p, (v1, v2, v3, v4)).

(** The five statements that mix a lane into [h64]. *)
Definition xxh3_merge (h64 v : Z) : Z :=
  let v := u64 (v * XXH_PRIME_2) in
  let v := XXH_rotl64 v 31 in
  let v := u64 (v * XXH_PRIME_1) in
  let h64 := Z.lxor h64 v in
  u64 (h64 * XXH_PRIME_1 + XXH_PRIME_4).

Definition xxh3_words_body (end_ : Z) '(p, h64) : M (Z * Z + Z * Z) :=
  if p + 8 <=? end_ then
    let* k1 := XXH_read64 p in
    let k1 := u64 (k1 * XXH_PRIME_2) in
    let k1 := XXH_rotl64 k1 31 in
    let k1 := u64 (k1 * XXH_PRIME_1) in
    let h64 := Z.lxor h64 k1 in
    let h64 := u64 (XXH_rotl64 h64 27 * XXH_PRIME_1 + XXH_PRIME_4) in
    again (p + 8, h64)
  else leave (p, h64).

Definition xxh3_bytes_body (end_ : Z) '(p, h64) : M (Z * Z + Z) :=
  if p <? end_ then
    let* b := load8 p in
    let h64 := Z.lxor h64 (u64 (b * XXH_PRIME_5)) in
    let h64 := u64 (XXH_rotl64 h64 11 * XXH_PRIME_1) in
    again (p + 1, h64)
  else leave h64.

(** What is done with the half word at the end, if there is one, and with the
    bytes that are left. *)
Definition xxh3_finish (end_ p h64 : Z) : M Z :=
  let* (p, h64) :=
    if p + 4 <=? end_ then
      let* w := XXH_read32 p in
      let h64 := Z.lxor h64 (u64 (w * XXH_PRIME_1)) in
      let h64 := u64 (XXH_rotl64 h64 23 * XXH_PRIME_2 + XXH_PRIME_3) in
      ret (p + 4, h64)
    else ret (p, h64) in
  let* h64 := loop (xxh3_bytes_body end_) (p, h64) in
  let h64 := Z.lxor h64 (Z.shiftr h64 33) in
  let h64 := u64 (h64 * XXH_PRIME_2) in
  let h64 := Z.lxor h64 (Z.shiftr h64 29) in
  let h64 := u64 (h64 * XXH_PRIME_3) in
  let h64 := Z.lxor h64 (Z.shiftr h64 32) in
  ret h64.

Definition xxh3 (data len seed : Z) : M Z :=
  let p := data in
  let end_ := p + len in
  let* (p, h64) :=
    if 32 <=? len then
      let limit := end_ - 32 in
      let v1 := u64 (seed + XXH_PRIME_1 + XXH_PRIME_2) in
      let v2 := u64 (seed + XXH_PRIME_2) in
      let v3 := u64 (seed + 0) in
      let v4 := u64 (seed - XXH_PRIME_1) in
      let* (p, (v1, v2, v3, v4)) := loop (xxh3_stripe_body limit) (p, (v1, v2, v3, v4)) in
      let h64 := u64 (XXH_rotl64 v1 1 + XXH_rotl64 v2 7 + XXH_rotl64 v3 12 + XXH_rotl64 v4 18) in
      let h64 := xxh3_merge h64 v1 in
      let h64 := xxh3_merge h64 v2 in
      let h64 := xxh3_merge h64 v3 in
      let h64 := xxh3_merge h64 v4 in
      ret (p, h64)
    else ret (p, u64 (seed + XXH_PRIME_5)) in
  let h64 := u64 (h64 + len) in
  let* (p, h64) := loop (xxh3_words_body end_) (p, h64) in
  xxh3_finish end_ p h64.

(** *** The entry points *)

Definition hashmap_sip (data len seed0 seed1 : Z) : M Z := SIP64 data len seed0 seed1.
(** [len] becomes an [int] and the seed a [uint32_t]. *)
Definition hashmap_murmur (data len seed0 seed1 : Z) : M Z := MM86128 data (s32 len) (u32 seed0).
Definition hashmap_xxhash3 (data len seed0 seed1 : Z) : M Z := xxh3 data len seed0.

(** ** The functions on lists of bytes *)

(** The [k] bytes from index [n] on, with zeros behind the end of the list. *)
Definition field (n k : nat) (l : list Z) : list Z := (fun i => nth i l 0) <$> seq n k.

(** The number with given bytes, least significant or most significant
    first. *)
Definition le_number (l : list Z) : Z := foldr (fun b v => b + 256 * v) 0 l.
Definition be_number (l : list Z) : Z := le_number (reverse l).

(** The number with the bytes of another in reverse order. *)
Definition swapped (x : Z) : Z := le_number (object64 x).

Section SipHash.
Context (c d : nat).

Definition sip_half '(a, b, c, d) (s t : Z) : Z * Z * Z * Z :=
  let a := u64 (a + b) in let c := u64 (c + d) in
  (ROTL a 32, Z.lxor (ROTL b s) a, c, Z.lxor (ROTL d t) c).

Definition sip_round (v : Z * Z * Z * Z) : Z * Z * Z * Z :=
  let '(v0, v1, v2, v3) := sip_half v 13 16 in
  let '(v2, v1, v0, v3) := sip_half (v2, v1, v0, v3) 17 21 in
  (v0, v1, v2, v3).

Definition sip_absorb (v : Z * Z * Z * Z) (m : Z) : Z * Z * Z * Z :=
  let '(v0, v1, v2, v3) := v in
  let '(v0, v1, v2, v3) := Nat.iter c sip_round (v0, v1, v2, Z.lxor v3 m) in
  (Z.lxor v0 m, v1, v2, v3).

(** SipHash-c-d: the words of the message, least significant byte first, are
    absorbed one after the other; the last one is what is left of the message,
    with zeros and the length modulo 256. *)
Definition siphash (k0 k1 : Z) (l : list Z) : Z :=
  let n := (length l / 8)%nat in
  let words := (fun j => le_number (field (8 * j) 8 l)) <$> seq 0 n in
  let last := le_number (field (8 * n) 7 l ++ [Z.of_nat (length l) mod 256]) in
  let '(v0, v1, v2, v3) :=
    foldl sip_absorb
      (Z.lxor 0x736f6d6570736575 k0, Z.lxor 0x646f72616e646f6d k1,
       Z.lxor 0x6c7967656e657261 k0, Z.lxor 0x7465646279746573 k1) (words ++ [last]) in
  let '(v0, v1, v2, v3) := Nat.iter d sip_round (v0, v1, Z.lxor v2 0xff, v3) in
  Z.lxor (Z.lxor (Z.lxor v0 v1) v2) v3.
End SipHash.

(** MurmurHash3 with 128 bits in four words: the constants of a word, the
    scrambling of a word of the message and the step of a word of the state. *)
Definition murmur_scramble (k c r c' : Z) : Z := u32 (ROTL32 (u32 (k * c)) r * c').
Definition murmur_step (h h' k r n : Z) : Z :=
  u32 (u32 (ROTL32 (Z.lxor h k) r + h') * 5 + n).

Definition murmur_words (w1 w2 w3 w4 : Z) : Z * Z * Z * Z :=
  (murmur_scramble w1 c1 15 c2, murmur_scramble w2 c2 16 c3,
   murmur_scramble w3 c3 17 c4, murmur_scramble w4 c4 18 c1).

Definition murmur_block (word : list Z -> Z) (l : list Z) (h : Z * Z * Z * Z) (j : nat) : Z * Z * Z * Z :=
  let '(h1, h2, h3, h4) := h in
  let w i := word (field (16 * j + 4 * i) 4 l) in
  let '(k1, k2, k3, k4) := murmur_words (w 0%nat) (w 1%nat) (w 2%nat) (w 3%nat) in
  let h1 := murmur_step h1 h2 k1 19 0x561ccd1b in
  let h2 := murmur_step h2 h3 k2 17 0x0bcaa747 in
  let h3 := murmur_step h3 h4 k3 15 0x96cd1c35 in
  let h4 := murmur_step h4 h1 k4 13 0x32ac3b17 in
  (h1, h2, h3, h4).

(** The words of whole blocks are taken by [word]; those of the rest, with
    zeros behind it, have their least significant byte first.  Two of the four
    words of the state are returned. *)
Definition murmur (word : list Z -> Z) (seed : Z) (l : list Z) : Z :=
  let n := (length l / 16)%nat in
  let '(h1, h2, h3, h4) := foldl (murmur_block word l) (seed, seed, seed, seed) (seq 0 n) in
  let w i := le_number (field (16 * n + 4 * i) 4 l) in
  let '(k1, k2, k3, k4) := murmur_words (w 0%nat) (w 1%nat) (w 2%nat) (w 3%nat) in
  let len := Z.of_nat (length l) in
  let '(h1, h2, h3, h4) := MM86128_sums
    (Z.lxor (Z.lxor h1 k1) len, Z.lxor (Z.lxor h2 k2) len,
     Z.lxor (Z.lxor h3 k3) len, Z.lxor (Z.lxor h4 k4) len) in
  let '(h1, h2, h3, h4) := MM86128_sums (FMIX32 h1, FMIX32 h2, FMIX32 h3, FMIX32 h4) in
  h2 * 4294967296 + h1.

(** XXH64: a round of a lane, and a lane merged into the hash. *)
Definition xx_round (acc w : Z) : Z :=
  u64 (XXH_rotl64 (u64 (acc + w * XXH_PRIME_2)) 31 * XXH_PRIME_1).
Definition xx_merge (h v : Z) : Z := u64 (Z.lxor h (xx_round 0 v) * XXH_PRIME_1 + XXH_PRIME_4).

Definition xx_stripe (word : list Z -> Z) (l : list Z) (v : Z * Z * Z * Z) (j : nat) : Z * Z * Z * Z :=
  let w i := word (field (32 * j + 8 * i) 8 l) in
  let '(v1, v2, v3, v4) := v in
  (xx_round v1 (w 0%nat), xx_round v2 (w 1%nat), xx_round v3 (w 2%nat), xx_round v4 (w 3%nat)).

Definition xx_word (word : list Z -> Z) (l : list Z) (h : Z) (i : nat) : Z :=
  u64 (XXH_rotl64 (Z.lxor h (xx_round 0 (word (field (8 * i) 8 l)))) 27 * XXH_PRIME_1 + XXH_PRIME_4).
Definition xx_half (word : list Z -> Z) (l : list Z) (h : Z) (i : nat) : Z :=
  u64 (XXH_rotl64 (Z.lxor h (u64 (word (field i 4 l) * XXH_PRIME_1))) 23 * XXH_PRIME_2 + XXH_PRIME_3).
Definition xx_byte (l : list Z) (h : Z) (i : nat) : Z :=
  u64 (XXH_rotl64 (Z.lxor h (u64 (nth i l 0 * XXH_PRIME_5))) 11 * XXH_PRIME_1).

Definition xx_avalanche (h : Z) : Z :=
  let h := u64 (Z.lxor h (Z.shiftr h 33) * XXH_PRIME_2) in
  let h := u64 (Z.lxor h (Z.shiftr h 29) * XXH_PRIME_3) in
  Z.lxor h (Z.shiftr h 32).

(** Stripes of 32 bytes go into four lanes, the whole words behind them, half
    a word and single bytes into the hash. *)
Definition xxh64 (word : list Z -> Z) (seed : Z) (l : list Z) : Z :=
  let n := length l in
  let h :=
    if (32 <=? n)%nat then
      let '(v1, v2, v3, v4) := foldl (xx_stripe word l)
        (u64 (seed + XXH_PRIME_1 + XXH_PRIME_2), u64 (seed + XXH_PRIME_2),
         u64 seed, u64 (seed - XXH_PRIME_1)) (seq 0 (n / 32)) in
      foldl xx_merge
        (u64 (XXH_rotl64 v1 1 + XXH_rotl64 v2 7 + XXH_rotl64 v3 12 + XXH_rotl64 v4 18))
        [v1; v2; v3; v4]
    else u64 (seed + XXH_PRIME_5) in
  let h := foldl (xx_word word l) (u64 (h + Z.of_nat n)) (seq (4 * (n / 32)) (n / 8 - 4 * (n / 32))) in
  let h := if (4 <=? n mod 8)%nat then xx_half word l h (8 * (n / 8)) else h in
  xx_avalanche (foldl (xx_byte l) h (seq (4 * (n / 4)) (n mod 4))).

(** ** Bytes and words *)

Lemma field_length n k l : length (field n k l) = k.
Proof. unfold field. by rewrite length_fmap, length_seq. Qed.

Lemma nth_byte l i : Forall is_byte l -> is_byte (nth i l 0).
Proof.
  intros H. destruct (nth_in_or_default i l 0) as [Hi| ->]; [|zlia].
  rewrite Forall_forall in H. by apply H, list_elem_of_In.
Qed.

Lemma field_bytes n k l : Forall is_byte l -> Forall is_byte (field n k l).
Proof. intros H. apply Forall_fmap, Forall_true. intros. by apply nth_byte. Qed.

Lemma bytes_at_nth m p l i :
  bytes_at m p l -> (i < length l)%nat -> m !! (p + Z.of_nat i) = Some (nth i l 0).
Proof.
  intros H Hi. destruct (lookup_lt_is_Some_2 l i Hi) as [x Hx].
  erewrite bytes_at_lookup; [|done..]. f_equal. symmetry. by apply nth_lookup_Some.
Qed.

Lemma field_at m p l n k :
  bytes_at m p l -> (n + k <= length l)%nat -> bytes_at m (p + Z.of_nat n) (field n k l).
Proof.
  intros H Hn. apply bytes_at_intro. intros i x Hi. unfold field in Hi.
  rewrite list_lookup_fmap in Hi. destruct (seq n k !! i) as [j|] eqn:E; [|done].
  apply lookup_seq in E as [-> Hlt]. simplify_eq/=.
  replace (p + Z.of_nat n + Z.of_nat i) with (p + Z.of_nat (n + i)) by lia.
  apply bytes_at_nth; [done|lia].
Qed.

Lemma loads_ok l p s : bytes_at (mem s) p l -> loads (length l) p s = Ok l s.
Proof.
  revert p. induction l as [|b l IH]; intros p H; [done|]. destruct H as [Hb H]. simpl.
  rewrite (bind_ok _ _ _ _ _ (load8_ok _ _ _ Hb)). by rewrite (bind_ok _ _ _ _ _ (IH _ H)).
Qed.

Lemma loads_field s p l n k q :
  bytes_at (mem s) p l -> (n + k <= length l)%nat -> q = p + Z.of_nat n ->
  loads k q s = Ok (field n k l) s.
Proof.
  intros H Hn ->. pose proof (loads_ok _ _ _ (field_at _ _ _ _ _ H Hn)) as E.
  by rewrite field_length in E.
Qed.

Lemma value64_be l : value64 l = be_number l.
Proof.
  unfold value64, be_number, le_number. induction l as [|b l IH] using rev_ind; [done|].
  rewrite foldl_app, reverse_snoc. simpl. rewrite IH. lia.
Qed.

Lemma read64_ok s p l n q :
  bytes_at (mem s) p l -> (n + 8 <= length l)%nat -> q = p + Z.of_nat n ->
  XXH_read64 q s = Ok (be_number (field n 8 l)) s.
Proof.
  intros. unfold XXH_read64. erewrite bind_ok by by eapply loads_field.
  by rewrite value64_be.
Qed.

Lemma read32_ok s p l n q :
  bytes_at (mem s) p l -> (n + 4 <= length l)%nat -> q = p + Z.of_nat n ->
  XXH_read32 q s = Ok (be_number (field n 4 l)) s.
Proof.
  intros. unfold XXH_read32. erewrite bind_ok by by eapply loads_field.
  by rewrite value64_be.
Qed.

Lemma load32_field s p l n q :
  bytes_at (mem s) p l -> (n + 4 <= length l)%nat -> q = p + Z.of_nat n -> q mod 4 = 0 ->
  load32 q s = Ok (be_number (field n 4 l)) s.
Proof.
  intros H Hn -> Hq. erewrite load32_ok; [|done|exact (field_at _ _ l n 4 H Hn)].
  f_equal. unfold be_number, word_of, le_number. simpl. lia.
Qed.

(** A byte joined to a number by [|] or [^] where the number has no bits. *)
Lemma shl64_byte b k : 0 <= k <= 56 -> is_byte b -> shl64 b k = b * 2 ^ k.
Proof.
  intros Hk Hb. unfold shl64, u64. rewrite Z.shiftl_mul_pow2 by lia. apply Z.mod_small.
  pose proof (Z.pow_le_mono_r 2 k 56 ltac:(lia) ltac:(lia)). unfold is_byte in Hb. nia.
Qed.

Lemma lor_shl64 a b k :
  0 <= k <= 56 -> 0 <= a < 2 ^ k -> is_byte b -> Z.lor a (shl64 b k) = a + b * 2 ^ k.
Proof.
  intros Hk Ha Hb. rewrite shl64_byte, <- Z.shiftl_mul_pow2 by (done || lia).
  rewrite Z.lor_comm, lor_shiftl, Z.shiftl_mul_pow2 by lia. lia.
Qed.

Lemma scaled_byte h b k :
  0 <= k -> is_byte b ->
  Z.lor (h * 2 ^ (k + 8)) (b * 2 ^ k) = (h * 256 + b) * 2 ^ k /\
  Z.lxor (h * 2 ^ (k + 8)) (b * 2 ^ k) = (h * 256 + b) * 2 ^ k.
Proof.
  intros Hk Hb. rewrite Z.pow_add_r, Z.mul_assoc, (Z.mul_shuffle0 h) by lia.
  rewrite <- !Z.shiftl_mul_pow2 by lia. rewrite <- Z.shiftl_lor, <- Z.shiftl_lxor.
  assert (E : Z.lor (Z.shiftl h 8) b = h * 256 + b) by (by rewrite lor_shiftl by (unfold is_byte in Hb; lia)).
  assert (S8 : Z.shiftl h 8 = h * 256) by (by rewrite Z.shiftl_mul_pow2).
  assert (D : Z.land (Z.shiftl h 8) b = 0).
  { pose proof (Z.add_lor_land (Z.shiftl h 8) b). lia. }
  rewrite E, <- (Z.add_nocarry_lxor _ _ D), S8, !Z.shiftl_mul_pow2 by lia. done.
Qed.

Lemma U8TO64_LE_value l : length l = 8%nat -> Forall is_byte l -> U8TO64_LE l = le_number l.
Proof.
  intros Hl Hb. destruct l as [|b0 [|b1 [|b2 [|b3 [|b4 [|b5 [|b6 [|b7 [|]]]]]]]]]; try done.
  fcons. unfold is_byte in *. unfold U8TO64_LE. cbn [lookup_total list_lookup_total].
  rewrite (lor_shl64 b0 b1 8) by zlia. rewrite (lor_shl64 _ b2 16) by zlia.
  rewrite (lor_shl64 _ b3 24) by zlia. rewrite (lor_shl64 _ b4 32) by zlia.
  rewrite (lor_shl64 _ b5 40) by zlia. rewrite (lor_shl64 _ b6 48) by zlia.
  rewrite (lor_shl64 _ b7 56) by zlia. unfold le_number. simpl foldr. lia.
Qed.

(** ** SipHash *)

Lemma SIPROUND_round v : SIPROUND v = sip_round v.
Proof. by destruct v as [[[v0 v1] v2] v3]. Qed.

Lemma absorb_two v m :
  sip_absorb 2 v m =
  let '(v0, v1, v2, v3) := v in
  let '(v0, v1, v2, v3) := SIPROUND (SIPROUND (v0, v1, v2, Z.lxor v3 m)) in
  (Z.lxor v0 m, v1, v2, v3).
Proof. destruct v as [[[v0 v1] v2] v3]. by rewrite !SIPROUND_round. Qed.

Lemma sip_step s p l n j v :
  bytes_at (mem s) p l -> Forall is_byte l -> (8 * n <= length l)%nat -> (j < n)%nat ->
  SIP64_body (p + 8 * Z.of_nat n) (p + 8 * Z.of_nat j, v) s =
  Ok (inl (p + 8 * Z.of_nat (S j), sip_absorb 2 v (le_number (field (8 * j) 8 l)))) s.
Proof.
  intros H Hb Hn Hj. unfold SIP64_body. rewrite (proj2 (Z.eqb_neq _ _)) by lia.
  erewrite bind_ok by (eapply (loads_field s p l (8 * j)); [done|lia|lia]).
  rewrite U8TO64_LE_value by (apply field_length || by apply field_bytes).
  rewrite absorb_two. destruct v as [[[v0 v1] v2] v3].
  destruct (SIPROUND _) as [[[w0 w1] w2] w3]. unfold again, ret. do 3 f_equal. lia.
Qed.

Lemma sip_loop s p l n d v :
  bytes_at (mem s) p l -> Forall is_byte l -> (8 * n <= length l)%nat -> (d <= n)%nat ->
  lrun (SIP64_body (p + 8 * Z.of_nat n)) (Z.of_nat d + 1) (p + 8 * Z.of_nat (n - d), v) s
    (p + 8 * Z.of_nat n,
     foldl (sip_absorb 2) v ((fun j => le_number (field (8 * j) 8 l)) <$> seq (n - d) d)) s.
Proof.
  intros H Hb Hn. revert v. induction d as [|d IH]; intros v Hd.
  - apply lrun_done; [|lia]. rewrite Nat.sub_0_r. unfold SIP64_body. by rewrite Z.eqb_refl.
  - eapply lrun_next; [apply (sip_step s p l n); [done|done|done|lia]|].
    replace (S (n - S d)) with (n - d)%nat by lia.
    simpl seq. rewrite fmap_cons. cbn [foldl]. replace (S (n - S d)) with (n - d)%nat by lia.
    eapply lrun_weaken; [apply IH; lia|lia].
Qed.

Lemma sip_case s p l i n h q :
  bytes_at (mem s) p l -> Forall is_byte l -> q = p + Z.of_nat i -> (n <= 6)%nat ->
  (i <= length l)%nat ->
  SIP64_case (Z.of_nat (length l) - Z.of_nat i) (Z.of_nat (S n)) q (h * 2 ^ (8 * Z.of_nat (S n))) s =
  Ok ((h * 256 + nth (i + n) l 0) * 2 ^ (8 * Z.of_nat n)) s.
Proof.
  intros H Hb -> Hn Hi. pose proof (nth_byte l (i + n) Hb) as Hx. unfold SIP64_case.
  replace (Z.of_nat (S n) - 1) with (Z.of_nat n) by lia.
  replace (8 * Z.of_nat (S n)) with (8 * Z.of_nat n + 8) by lia.
  pose proof (scaled_byte h (nth (i + n) l 0) (8 * Z.of_nat n) ltac:(lia) Hx) as [E _].
  destruct (Z.leb_spec (Z.of_nat (S n)) (Z.of_nat (length l) - Z.of_nat i)).
  - erewrite bind_ok by (apply load8_ok; replace (p + Z.of_nat i + Z.of_nat n) with (p + Z.of_nat (i + n)) by lia;
      apply (bytes_at_nth _ _ l); [done|lia]).
    rewrite shl64_byte by (done || lia). by rewrite E.
  - rewrite (nth_overflow l) in * by lia. rewrite <- E. by rewrite Z.lor_0_r.
Qed.

Lemma object64_bytes x : Forall is_byte (object64 x).
Proof. unfold object64. repeat constructor; apply u8_range. Qed.

Lemma U8TO64_LE_object x : U8TO64_LE (object64 x) = swapped x.
Proof. apply U8TO64_LE_value; [done|apply object64_bytes]. Qed.

Lemma value64_U64TO8_LE v : value64 (U64TO8_LE v) = swapped v.
Proof.
  rewrite value64_be. unfold be_number, swapped. f_equal. unfold U64TO8_LE, U32TO8_LE, object64.
  rewrite <- (Z.shiftr_0_r (u32 v)) at 1. rewrite <- (Z.shiftr_0_r (u32 (Z.shiftr v 32))) at 1.
  rewrite !u8_shiftr_u32, !Z.shiftr_shiftr by lia. done.
Qed.

Lemma shl64_length n : shl64 n 56 = n mod 256 * 2 ^ (8 * Z.of_nat 7).
Proof.
  unfold shl64, u64. rewrite Z.shiftl_mul_pow2 by lia. change 18446744073709551616 with (256 * 2 ^ 56).
  by rewrite Z.mul_mod_distr_r by lia.
Qed.

(** The word that [SIP64] makes of what is left of the message. *)
Lemma sip_last s p l i q (K : Z -> M Z) :
  bytes_at (mem s) p l -> Forall is_byte l -> (i <= length l)%nat -> q = p + Z.of_nat i ->
  let left := Z.of_nat (length l) - Z.of_nat i in
  (let* b := SIP64_case left 7 q (shl64 (Z.of_nat (length l)) 56) in
   let* b := SIP64_case left 6 q b in
   let* b := SIP64_case left 5 q b in
   let* b := SIP64_case left 4 q b in
   let* b := SIP64_case left 3 q b in
   let* b := SIP64_case left 2 q b in
   let* b := SIP64_case left 1 q b in K b) s =
  K (le_number (field i 7 l ++ [Z.of_nat (length l) mod 256])) s.
Proof.
  intros H Hb Hi Hq left. rewrite shl64_length.
  erewrite bind_ok by (apply (sip_case s p l i 6); done || lia).
  erewrite bind_ok by (apply (sip_case s p l i 5); done || lia).
  erewrite bind_ok by (apply (sip_case s p l i 4); done || lia).
  erewrite bind_ok by (apply (sip_case s p l i 3); done || lia).
  erewrite bind_ok by (apply (sip_case s p l i 2); done || lia).
  erewrite bind_ok by (apply (sip_case s p l i 1); done || lia).
  erewrite bind_ok by (apply (sip_case s p l i 0); done || lia).
  f_equal. unfold field, le_number. simpl seq. simpl foldr.
  replace (S i) with (i + 1)%nat by lia. replace (S (i + 1)) with (i + 2)%nat by lia.
  replace (S (i + 2)) with (i + 3)%nat by lia. replace (S (i + 3)) with (i + 4)%nat by lia.
  replace (S (i + 4)) with (i + 5)%nat by lia. replace (S (i + 5)) with (i + 6)%nat by lia.
  rewrite Nat.add_0_r. change (2 ^ (8 * Z.of_nat 0)) with 1.
  generalize (Z.of_nat (length l) mod 256). intros L. ring.
Qed.

Lemma SIP64_ok s p l seed0 seed1 :
  bytes_at (mem s) p l -> Forall is_byte l -> Z.of_nat (length l) < 4294967296 ->
  SIP64 p (Z.of_nat (length l)) seed0 seed1 s =
  Ok (swapped (siphash 2 4 (swapped seed0) (swapped seed1) l)) s.
Proof.
  intros H Hb Hl. unfold SIP64. rewrite !U8TO64_LE_object.
  pose proof (Nat.div_mod_eq (length l) 8) as D. pose proof (Nat.mod_upper_bound (length l) 8 ltac:(lia)).
  set (n := (length l / 8)%nat) in *.
  replace (p + Z.of_nat (length l) - Z.of_nat (length l) mod 8) with (p + 8 * Z.of_nat n).
  2:{ change 8 with (Z.of_nat 8) at 2. rewrite <- Nat2Z.inj_mod. lia. }
  assert (E : forall v, loop (SIP64_body (p + 8 * Z.of_nat n)) (p, v) s = Ok (p + 8 * Z.of_nat n,
    foldl (sip_absorb 2) v ((fun j => le_number (field (8 * j) 8 l)) <$> seq 0 n)) s).
  { intros v. pose proof (sip_loop s p l n n v H Hb ltac:(lia) ltac:(lia)) as L.
    rewrite Nat.sub_diag, Z.mul_0_r, Z.add_0_r in L. eapply loop_lrun; [exact L|lia]. }
  rewrite (bind_ok _ _ _ _ _ (E _)). clear E. cbv beta iota zeta.
  replace (Z.land (Z.of_nat (length l)) 7) with (Z.of_nat (length l) - Z.of_nat (8 * n)).
  2:{ change 7 with (Z.ones 3). rewrite Z.land_ones by lia. change (2 ^ 3) with (Z.of_nat 8).
      rewrite <- Nat2Z.inj_mod. lia. }
  rewrite (sip_last s p l (8 * n)) by (done || lia).
  unfold siphash. fold n. rewrite foldl_app. cbn [foldl]. rewrite absorb_two.
  destruct (foldl _ _ _) as [[[v0 v1] v2] v3].
  destruct (SIPROUND (SIPROUND _)) as [[[w0 w1] w2] w3]. cbn [Nat.iter nat_rect].
  rewrite <- !SIPROUND_round. destruct (SIPROUND _) as [[[u0 u1] u2] u3].
  unfold ret. by rewrite value64_U64TO8_LE.
Qed.

(** ** xxHash *)

Lemma u64_add_r a b : u64 (a + u64 b) = u64 (a + b).
Proof. unfold u64. by rewrite Z.add_mod_idemp_r by lia. Qed.

Lemma merge_ok h v : xxh3_merge h v = xx_merge h v.
Proof. unfold xx_merge, xx_round. by rewrite Z.add_0_l. Qed.

Section Xx.
Context (s : state) (p : Z) (l : list Z).
Context (H : bytes_at (mem s) p l) (Hl : Z.of_nat (length l) < 4294967296).

Lemma stripe_step j v :
  (32 * j + 32 <= length l)%nat ->
  xxh3_stripe_body (p + Z.of_nat (length l) - 32) (p + 32 * Z.of_nat j, v) s =
  Ok ((if (32 * S j + 32 <=? length l)%nat then inl else inr)
        (p + 32 * Z.of_nat (S j), xx_stripe be_number l v j)) s.
Proof.
  intros Hj. destruct v as [[[v1 v2] v3] v4]. unfold xxh3_stripe_body.
  erewrite bind_ok by (apply (read64_ok s p l (32 * j + 8 * 0)); done || lia). cbv zeta.
  erewrite bind_ok by (apply (read64_ok s p l (32 * j + 8 * 1)); done || lia). cbv zeta.
  erewrite bind_ok by (apply (read64_ok s p l (32 * j + 8 * 2)); done || lia). cbv zeta.
  erewrite bind_ok by (apply (read64_ok s p l (32 * j + 8 * 3)); done || lia). cbv zeta.
  rewrite !u64_add_r. replace (p + 32 * Z.of_nat j + 32) with (p + 32 * Z.of_nat (S j)) by lia.
  destruct (Nat.leb_spec (32 * S j + 32) (length l)).
  - by rewrite (proj2 (Z.leb_le _ _)) by lia.
  - by rewrite (proj2 (Z.leb_gt _ _)) by lia.
Qed.

Lemma stripe_loop n d v :
  n = (length l / 32)%nat -> (S d <= n)%nat ->
  lrun (xxh3_stripe_body (p + Z.of_nat (length l) - 32)) (Z.of_nat d + 1)
    (p + 32 * Z.of_nat (n - S d), v) s
    (p + 32 * Z.of_nat n, foldl (xx_stripe be_number l) v (seq (n - S d) (S d))) s.
Proof.
  intros Hn. pose proof (Nat.div_mod_eq (length l) 32). pose proof (Nat.mod_upper_bound (length l) 32 ltac:(lia)).
  revert v. induction d as [|d IH]; intros v Hd.
  - pose proof (stripe_step (n - 1) v ltac:(lia)) as E.
    apply lrun_done; [|lia]. rewrite E. rewrite (proj2 (Nat.leb_gt _ _)) by lia.
    by replace (S (n - 1)) with n by lia.
  - pose proof (stripe_step (n - S (S d)) v ltac:(lia)) as E.
    rewrite (proj2 (Nat.leb_le _ _)) in E by lia. eapply lrun_next; [exact E|].
    change (seq (n - S (S d)) (S (S d))) with ((n - S (S d))%nat :: seq (S (n - S (S d))) (S d)).
    cbn [foldl]. replace (S (n - S (S d))) with (n - S d)%nat by lia.
    eapply lrun_weaken; [apply IH; lia|lia].
Qed.

Lemma xx_words_loop d i h :
  (8 * i + 8 * d <= length l < 8 * i + 8 * d + 8)%nat ->
  lrun (xxh3_words_body (p + Z.of_nat (length l))) (Z.of_nat d + 1) (p + 8 * Z.of_nat i, h) s
    (p + 8 * Z.of_nat (i + d), foldl (xx_word be_number l) h (seq i d)) s.
Proof.
  revert i h. induction d as [|d IH]; intros i h Hd.
  - apply lrun_done; [|lia]. unfold xxh3_words_body. rewrite (proj2 (Z.leb_gt _ _)) by lia.
    by rewrite Nat.add_0_r.
  - eapply lrun_next.
    + unfold xxh3_words_body. rewrite (proj2 (Z.leb_le _ _)) by lia.
      erewrite bind_ok by (apply (read64_ok s p l (8 * i)); done || lia). reflexivity.
    + cbn [seq foldl]. replace (i + S d)%nat with (S i + d)%nat by lia.
      replace (p + 8 * Z.of_nat i + 8) with (p + 8 * Z.of_nat (S i)) by lia.
      unfold xx_word at 2, xx_round. rewrite Z.add_0_l.
      eapply lrun_weaken; [apply IH; lia|lia].
Qed.

Lemma bytes_loop d i h :
  (i + d = length l)%nat ->
  lrun (xxh3_bytes_body (p + Z.of_nat (length l))) (Z.of_nat d + 1) (p + Z.of_nat i, h) s
    (foldl (xx_byte l) h (seq i d)) s.
Proof.
  revert i h. induction d as [|d IH]; intros i h Hd.
  - apply lrun_done; [|lia]. unfold xxh3_bytes_body. by rewrite (proj2 (Z.ltb_ge _ _)) by lia.
  - eapply lrun_next.
    + unfold xxh3_bytes_body. rewrite (proj2 (Z.ltb_lt _ _)) by lia.
      erewrite bind_ok by (apply load8_ok, (bytes_at_nth _ _ l); done || lia). reflexivity.
    + cbn [seq foldl]. replace (p + Z.of_nat i + 1) with (p + Z.of_nat (S i)) by lia.
      eapply lrun_weaken; [apply IH; lia|lia].
Qed.

(** The loop over stripes, entered with at least one, and the merging of its
    lanes. *)
Lemma stripes_ok v :
  (32 <= length l)%nat ->
  loop (xxh3_stripe_body (p + Z.of_nat (length l) - 32)) (p, v) s =
  Ok (p + 32 * Z.of_nat (length l / 32), foldl (xx_stripe be_number l) v (seq 0 (length l / 32))) s.
Proof.
  intros Hn. pose proof (Nat.div_le_lower_bound (length l) 32 1 ltac:(lia) ltac:(lia)).
  pose proof (Nat.Div0.div_le_upper_bound (length l) 32 (length l) ltac:(lia)).
  set (n := (length l / 32)%nat) in *.
  pose proof (stripe_loop n (n - 1) v eq_refl ltac:(lia)) as L.
  replace (S (n - 1)) with n in L by lia. rewrite Nat.sub_diag, Z.mul_0_r, Z.add_0_r in L.
  eapply loop_lrun; [exact L|lia].
Qed.

Lemma words_ok i h q :
  q = p + 8 * Z.of_nat i -> (i <= length l / 8)%nat ->
  loop (xxh3_words_body (p + Z.of_nat (length l))) (q, h) s =
  Ok (p + 8 * Z.of_nat (length l / 8), foldl (xx_word be_number l) h (seq i (length l / 8 - i))) s.
Proof.
  intros -> Hi. pose proof (Nat.div_mod_eq (length l) 8).
  pose proof (Nat.mod_upper_bound (length l) 8 ltac:(lia)).
  pose proof (xx_words_loop (length l / 8 - i) i h ltac:(lia)) as L.
  replace (i + (length l / 8 - i))%nat with (length l / 8)%nat in L by lia.
  eapply loop_lrun; [exact L|lia].
Qed.

Lemma finish_ok h :
  xxh3_finish (p + Z.of_nat (length l)) (p + 8 * Z.of_nat (length l / 8)) h s =
  Ok (xx_avalanche (foldl (xx_byte l)
        (if (4 <=? length l mod 8)%nat then xx_half be_number l h (8 * (length l / 8)) else h)
        (seq (4 * (length l / 4)) (length l mod 4)))) s.
Proof.
  pose proof (Nat.div_mod_eq (length l) 4). pose proof (Nat.mod_upper_bound (length l) 4 ltac:(lia)).
  pose proof (Nat.div_mod_eq (length l) 8). pose proof (Nat.mod_upper_bound (length l) 8 ltac:(lia)).
  unfold xxh3_finish. set (h' := if (4 <=? _)%nat then _ else h).
  erewrite bind_ok with (a := (p + Z.of_nat (4 * (length l / 4)), h')) (s' := s).
  - erewrite bind_ok; [reflexivity|]. eapply loop_lrun; [apply bytes_loop; lia|lia].
  - unfold h'. destruct (Nat.leb_spec 4 (length l mod 8)).
    + rewrite (proj2 (Z.leb_le _ _)) by lia.
      erewrite bind_ok by (apply (read32_ok s p l (8 * (length l / 8))); done || lia).
      unfold ret. do 2 f_equal. lia.
    + rewrite (proj2 (Z.leb_gt _ _)) by lia. unfold ret. do 2 f_equal. lia.
Qed.

Lemma xxh3_ok seed : xxh3 p (Z.of_nat (length l)) seed s = Ok (xxh64 be_number seed l) s.
Proof.
  pose proof (Nat.div_mod_eq (length l) 8). pose proof (Nat.mod_upper_bound (length l) 8 ltac:(lia)).
  pose proof (Nat.div_mod_eq (length l) 32). pose proof (Nat.mod_upper_bound (length l) 32 ltac:(lia)).
  unfold xxh3, xxh64. destruct (Nat.leb_spec 32 (length l)).
  - rewrite (proj2 (Z.leb_le _ _)) by lia. unfold bind at 1. rewrite (bind_ok _ _ _ _ _ (stripes_ok _ ltac:(lia))).
    rewrite Z.add_0_r. destruct (foldl _ _ _) as [[[v1 v2] v3] v4]. cbn [foldl].
    rewrite (merge_ok _ v1), (merge_ok _ v2), (merge_ok _ v3), (merge_ok _ v4). unfold ret at 1.
    erewrite bind_ok by (apply (words_ok (4 * (length l / 32))); lia). apply finish_ok.
  - rewrite (proj2 (Z.leb_gt _ _)) by lia. unfold bind at 1, ret at 1.
    rewrite (Nat.div_small _ 32) by lia.
    erewrite bind_ok by (apply (words_ok 0); lia). apply finish_ok.
Qed.
End Xx.

(** ** MurmurHash3 *)

Section Murmur.
Context (s : state) (p : Z) (l : list Z).
Context (H : bytes_at (mem s) p l) (Hb : Forall is_byte l).

Lemma murmur_block_ok n d h :
  p mod 4 = 0 -> (16 * n <= length l)%nat -> (S d <= n)%nat ->
  MM86128_body (p + 16 * Z.of_nat n) (- Z.of_nat (S d), h) s =
  Ok (inl (- Z.of_nat d, murmur_block be_number l h (n - S d))) s.
Proof.
  intros Hp Hn Hd. destruct h as [[[h1 h2] h3] h4]. unfold MM86128_body.
  rewrite (proj2 (Z.eqb_neq _ _)) by lia.
  assert (A : forall i, (p + 16 * Z.of_nat n + 4 * (- Z.of_nat (S d) * 4 + i)) mod 4 = 0).
  { intros i. Z.div_mod_to_equations. lia. }
  erewrite bind_ok by (apply (load32_field s p l (16 * (n - S d) + 4 * 0)); done || lia).
  erewrite bind_ok by (apply (load32_field s p l (16 * (n - S d) + 4 * 1)); done || lia).
  erewrite bind_ok by (apply (load32_field s p l (16 * (n - S d) + 4 * 2)); done || lia).
  erewrite bind_ok by (apply (load32_field s p l (16 * (n - S d) + 4 * 3)); done || lia).
  replace (- Z.of_nat (S d) + 1) with (- Z.of_nat d) by lia. reflexivity.
Qed.

Lemma murmur_loop n d h :
  p mod 4 = 0 \/ n = 0%nat -> (16 * n <= length l)%nat -> (d <= n)%nat ->
  lrun (MM86128_body (p + 16 * Z.of_nat n)) (Z.of_nat d + 1) (- Z.of_nat d, h) s
    (foldl (murmur_block be_number l) h (seq (n - d) d)) s.
Proof.
  intros Hp Hn. revert h. induction d as [|d IH]; intros h Hd.
  - apply lrun_done; [|lia]. by destruct h as [[[h1 h2] h3] h4].
  - eapply lrun_next; [apply murmur_block_ok; [|done..]; lia|].
    cbn [seq foldl]. replace (S (n - S d)) with (n - d)%nat by lia.
    eapply lrun_weaken; [apply IH; lia|lia].
Qed.

Lemma murmur_case i n h w q k :
  q = p + Z.of_nat i -> w = h * 2 ^ (k + 8) -> 0 <= k <= 24 -> (i <= length l)%nat ->
  MM86128_case (Z.of_nat (length l) - Z.of_nat i) (Z.of_nat (S n)) k q w s =
  Ok ((h * 256 + nth (i + n) l 0) * 2 ^ k) s.
Proof.
  intros -> -> Hk Hi. pose proof (nth_byte l (i + n) Hb) as Hx. unfold MM86128_case.
  replace (Z.of_nat (S n) - 1) with (Z.of_nat n) by lia.
  pose proof (scaled_byte h (nth (i + n) l 0) k ltac:(lia) Hx) as [_ E].
  destruct (Z.leb_spec (Z.of_nat (S n)) (Z.of_nat (length l) - Z.of_nat i)).
  - erewrite bind_ok by (apply load8_ok; replace (p + Z.of_nat i + Z.of_nat n) with (p + Z.of_nat (i + n)) by lia;
      apply (bytes_at_nth _ _ l); [done|lia]).
    rewrite u32_id, Z.shiftl_mul_pow2; [by rewrite E|lia|].
    rewrite Z.shiftl_mul_pow2 by lia. pose proof (Z.pow_le_mono_r 2 k 24 ltac:(lia) ltac:(lia)).
    unfold is_byte in Hx. nia.
  - rewrite (nth_overflow l) in * by lia. rewrite <- E. by rewrite Z.lxor_0_r.
Qed.

(** The four labels of a word. *)
Lemma murmur_word i j q (K : Z -> M (Z * Z * Z * Z)) :
  q = p + Z.of_nat i -> (i <= length l)%nat ->
  let t := Z.of_nat (length l) - Z.of_nat i in
  (let* k := MM86128_case t (Z.of_nat (S (4 * j + 3))) 24 q 0 in
   let* k := MM86128_case t (Z.of_nat (S (4 * j + 2))) 16 q k in
   let* k := MM86128_case t (Z.of_nat (S (4 * j + 1))) 8 q k in
   let* k := MM86128_case t (Z.of_nat (S (4 * j + 0))) 0 q k in K k) s =
  K (le_number (field (i + 4 * j) 4 l)) s.
Proof.
  intros Hq Hi t.
  erewrite bind_ok by (apply (murmur_case i _ 0); done || lia).
  erewrite bind_ok by (eapply (murmur_case i); [done|reflexivity|lia|lia]).
  erewrite bind_ok by (eapply (murmur_case i); [done|reflexivity|lia|lia]).
  erewrite bind_ok by (eapply (murmur_case i); [done|reflexivity|lia|lia]).
  f_equal. unfold field, le_number. cbn [seq fmap list_fmap foldr].
  replace (i + (4 * j + 3))%nat with (S (S (S (i + 4 * j)))) by lia.
  replace (i + (4 * j + 2))%nat with (S (S (i + 4 * j))) by lia.
  replace (i + (4 * j + 1))%nat with (S (i + 4 * j)) by lia.
  replace (i + (4 * j + 0))%nat with (i + 4 * j)%nat by lia. change (2 ^ 0) with 1. ring.
Qed.

(** A word of which nothing is left is zero. *)
Lemma field_rest n k : (length l <= n)%nat -> le_number (field n k l) = 0.
Proof.
  unfold field, le_number. revert n. induction k as [|k IH]; intros n Hn; [done|].
  cbn [seq]. rewrite fmap_cons. cbn [foldr]. rewrite (nth_overflow l), IH by lia. done.
Qed.

Lemma murmur_mix t n k h c r c' :
  (t < n -> k = 0) -> MM86128_mix t n k h c r c' = Z.lxor h (murmur_scramble k c r c').
Proof.
  intros Hk. unfold MM86128_mix. destruct (Z.leb_spec n t); [done|]. rewrite Hk by lia.
  unfold murmur_scramble, ROTL32, u32. by rewrite Z.shiftl_0_l, Z.shiftr_0_l, Z.lxor_0_r.
Qed.

Lemma murmur_tail i q h :
  q = p + Z.of_nat i -> (i <= length l < i + 16)%nat ->
  MM86128_tail (Z.of_nat (length l) - Z.of_nat i) q h s =
  let '(h1, h2, h3, h4) := h in
  let w j := le_number (field (i + 4 * j) 4 l) in
  let '(k1, k2, k3, k4) := murmur_words (w 0%nat) (w 1%nat) (w 2%nat) (w 3%nat) in
  Ok (Z.lxor h1 k1, Z.lxor h2 k2, Z.lxor h3 k3, Z.lxor h4 k4) s.
Proof.
  intros Hq Hi. destruct h as [[[h1 h2] h3] h4]. unfold MM86128_tail, murmur_words. cbv beta zeta.
  set (t := Z.of_nat (length l) - Z.of_nat i).
  transitivity ((let* k := MM86128_case t (Z.of_nat (S (4 * 3 + 3))) 24 q 0 in
    let* k4 := MM86128_case t 15 16 q k in
    let* k4 := MM86128_case t 14 8 q k4 in
    let* k4 := MM86128_case t 13 0 q k4 in
    let h4 := MM86128_mix t 13 k4 h4 c4 18 c1 in
    let* k3 := MM86128_case t 12 24 q 0 in
    let* k3 := MM86128_case t 11 16 q k3 in
    let* k3 := MM86128_case t 10 8 q k3 in
    let* k3 := MM86128_case t 9 0 q k3 in
    let h3 := MM86128_mix t 9 k3 h3 c3 17 c4 in
    let* k2 := MM86128_case t 8 24 q 0 in
    let* k2 := MM86128_case t 7 16 q k2 in
    let* k2 := MM86128_case t 6 8 q k2 in
    let* k2 := MM86128_case t 5 0 q k2 in
    let h2 := MM86128_mix t 5 k2 h2 c2 16 c3 in
    let* k1 := MM86128_case t 4 24 q 0 in
    let* k1 := MM86128_case t 3 16 q k1 in
    let* k1 := MM86128_case t 2 8 q k1 in
    let* k1 := MM86128_case t 1 0 q k1 in
    let h1 := MM86128_mix t 1 k1 h1 c1 15 c2 in
    ret (h1, h2, h3, h4)) s).
  { erewrite (bind_ok (MM86128_case t (Z.of_nat (S (4 * 3 + 3))) 24 q 0)); [reflexivity|].
    unfold MM86128_case. by rewrite (proj2 (Z.leb_gt _ _)) by (unfold t; lia). }
  rewrite (murmur_word i 3 q) by (done || lia). cbv zeta.
  rewrite (murmur_word i 2 q) by (done || lia). cbv zeta.
  rewrite (murmur_word i 1 q) by (done || lia). cbv zeta.
  rewrite (murmur_word i 0 q) by (done || lia). unfold ret.
  by rewrite !murmur_mix by (unfold t; intros; apply field_rest; lia).
Qed.
End Murmur.

Lemma sums_range h : let '(h1, h2, _, _) := MM86128_sums h in is_u32 h1 /\ is_u32 h2.
Proof. destruct h as [[[h1 h2] h3] h4]. split; apply u32_range. Qed.

Lemma MM86128_ok s p l seed :
  bytes_at (mem s) p l -> Forall is_byte l -> Z.of_nat (length l) < 2147483648 ->
  p mod 4 = 0 \/ (length l < 16)%nat ->
  MM86128 p (Z.of_nat (length l)) seed s = Ok (murmur be_number seed l) s.
Proof.
  intros H Hb Hl Hp. unfold MM86128, murmur.
  pose proof (Nat.div_mod_eq (length l) 16). pose proof (Nat.mod_upper_bound (length l) 16 ltac:(lia)).
  set (n := (length l / 16)%nat) in *. rewrite Z.quot_div_nonneg by lia.
  replace (Z.of_nat (length l) / 16) with (Z.of_nat n) by (unfold n; by rewrite Nat2Z.inj_div).
  replace (Z.of_nat n * 16) with (16 * Z.of_nat n) by lia.
  pose proof (murmur_loop s p l H n n (seed, seed, seed, seed) ltac:(lia) ltac:(lia) ltac:(lia)) as L.
  rewrite Nat.sub_diag in L. erewrite bind_ok by (eapply loop_lrun; [exact L|lia]).
  replace (Z.land (Z.of_nat (length l)) 15) with (Z.of_nat (length l) - Z.of_nat (16 * n)).
  2:{ change 15 with (Z.ones 4). rewrite Z.land_ones by lia. change (2 ^ 4) with (Z.of_nat 16).
      rewrite <- Nat2Z.inj_mod. lia. }
  unfold bind. rewrite (murmur_tail s p l H Hb (16 * n)) by lia. cbv zeta.
  destruct (foldl _ _ _) as [[[h1 h2] h3] h4]. cbv zeta beta iota. destruct (murmur_words _ _ _ _) as [[[k1 k2] k3] k4].
  rewrite u32_id by lia. destruct (MM86128_sums _) as [[[g1 g2] g3] g4]. cbv zeta.
  pose proof (sums_range (FMIX32 g1, FMIX32 g2, FMIX32 g3, FMIX32 g4)) as R.
  destruct (MM86128_sums _) as [[[f1 f2] f3] f4]. destruct R as [R1 R2]. unfold is_u32 in *.
  unfold ret, shl64, u64. rewrite Z.shiftl_mul_pow2, Z.mod_small by lia.
  by rewrite <- Z.shiftl_mul_pow2, lor_shiftl by lia.
Qed.

(** ** Sizes *)

Lemma le_number_range l : Forall is_byte l -> 0 <= le_number l < 256 ^ Z.of_nat (length l).
Proof.
  induction 1 as [|b l Hb _ IH]; [done|]. unfold le_number in *. simpl length. cbn [foldr].
  rewrite Nat2Z.inj_succ, Z.pow_succ_r by lia. unfold is_byte in Hb. lia.
Qed.

Lemma lxor_range n a b : 0 <= n -> 0 <= a < 2 ^ n -> 0 <= b < 2 ^ n -> 0 <= Z.lxor a b < 2 ^ n.
Proof.
  intros Hn Ha Hb. replace (Z.lxor a b) with (Z.lxor a b mod 2 ^ n); [apply Z.mod_pos_bound; lia|].
  apply Z.bits_inj'. intros i Hi. destruct (Z.ltb_spec i n).
  - by rewrite Z.mod_pow2_bits_low by lia.
  - rewrite Z.mod_pow2_bits_high, Z.lxor_spec by lia.
    rewrite <- (Z.mod_small a (2 ^ n)), <- (Z.mod_small b (2 ^ n)) by lia.
    by rewrite !Z.mod_pow2_bits_high by lia.
Qed.

Definition is_hash (h : Z) : Prop := 0 <= h < 2 ^ 64.

Lemma swapped_hash x : is_hash (swapped x).
Proof. apply (le_number_range (object64 x)), object64_bytes. Qed.

Lemma murmur_hash word seed l : is_hash (murmur word seed l).
Proof.
  unfold murmur. destruct (foldl _ _ _) as [[[h1 h2] h3] h4].
  destruct (murmur_words _ _ _ _) as [[[k1 k2] k3] k4]. destruct (MM86128_sums _) as [[[g1 g2] g3] g4].
  pose proof (sums_range (FMIX32 g1, FMIX32 g2, FMIX32 g3, FMIX32 g4)) as R.
  destruct (MM86128_sums _) as [[[f1 f2] f3] f4]. unfold is_u32, is_hash in *. lia.
Qed.

Lemma xxh64_hash word seed l : is_hash (xxh64 word seed l).
Proof.
  unfold xxh64, xx_avalanche, is_hash. set (h := u64 (_ * XXH_PRIME_3)).
  assert (0 <= h < 2 ^ 64) by (apply Z.mod_pos_bound; lia).
  apply lxor_range; [lia|done|]. rewrite Z.shiftr_div_pow2 by lia.
  split; [apply Z.div_pos; lia|]. apply Z.div_lt_upper_bound; lia.
Qed.

(** ** What the entry points compute *)

(** C14: On a buffer of bytes in memory (for [hashmap_murmur] one that is 4-byte
    aligned or shorter than 16 bytes, and below 2 GiB) the three hash
    functions return, read nothing outside the buffer, change nothing, and
    give 64 bits: [hashmap_sip] SipHash-2-4 of the message, with the key and the result in
    the order of their bytes in memory; [hashmap_xxhash3] the function XXH64
    (not XXH3) with words in the order of bytes of the machine;
    [hashmap_murmur] two words of MurmurHash3_x86_128, whose blocks are taken
    in the order of the machine and whose rest has its least significant byte
    first, with the low half of the seed. *)
Theorem hash_functions_correct s p l seed0 seed1 :
  bytes_at (mem s) p l -> Forall is_byte l -> in_space p (Z.of_nat (length l)) ->
  (exists h, is_hash h /\ hashmap_sip p (Z.of_nat (length l)) seed0 seed1 s = Ok h s /\
     h = swapped (siphash 2 4 (swapped seed0) (swapped seed1) l)) /\
  (exists h, is_hash h /\ hashmap_xxhash3 p (Z.of_nat (length l)) seed0 seed1 s = Ok h s /\
     h = xxh64 be_number seed0 l) /\
  (p mod 4 = 0 \/ (length l < 16)%nat -> Z.of_nat (length l) < 2147483648 ->
   exists h, is_hash h /\ hashmap_murmur p (Z.of_nat (length l)) seed0 seed1 s = Ok h s /\
     h = murmur be_number (u32 seed0) l).
Proof.
  intros H Hb [Hp Hl]. unfold ADDR_MAX in Hl. split; [|split].
  - eexists. split; [apply swapped_hash|]. split; [|done]. apply SIP64_ok; [done|done|lia].
  - eexists. split; [apply xxh64_hash|]. split; [|done]. apply xxh3_ok; [done|lia].
  - intros Ha Hn. eexists. split; [apply murmur_hash|]. split; [|done].
    unfold hashmap_murmur. rewrite s32_id by lia. by apply MM86128_ok.
Qed.

(** ** Published values *)

(** The key and the messages of the test vectors of SipHash. *)
Definition sip_message : list Z := seqZ 0 63.
Definition sip_memory : state := boot [(4096, sip_message)].

Example siphash_vectors :
  hashmap_sip 4096 0 0x0001020304050607 0x08090a0b0c0d0e0f sip_memory = Ok 0x310e0edd47db6f72 sip_memory /\
  hashmap_sip 4096 63 0x0001020304050607 0x08090a0b0c0d0e0f sip_memory = Ok 0x724506eb4c328a95 sip_memory.
Proof. split; vm_compute; reflexivity. Qed.

(** XXH64 of the empty message and of [abc]. *)
Example xxh64_vectors :
  xxh64 be_number 0 [] = 0xef46db3751d8e999 /\ xxh64 be_number 0 (bytes "abc") = 0x44bc2cf5ad770999.
Proof. split; vm_compute; reflexivity. Qed.

Lemma hash_functions_correct_witness :
  (exists h, is_hash h /\ hashmap_sip 4096 63 1 2 sip_memory = Ok h sip_memory /\
     h = swapped (siphash 2 4 (swapped 1) (swapped 2) sip_message)) /\
  (exists h, is_hash h /\ hashmap_xxhash3 4096 63 1 2 sip_memory = Ok h sip_memory /\
     h = xxh64 be_number 1 sip_message) /\
  (exists h, is_hash h /\ hashmap_murmur 4096 63 1 2 sip_memory = Ok h sip_memory /\
     h = murmur be_number 1 sip_message).
Proof.
  destruct (hash_functions_correct sip_memory 4096 sip_message 1 2) as (A & B & C).
  - ground.
  - apply (bytes_at_wf (mem sip_memory) 4096); ground.
  - split; vm_compute; congruence.
  - split; [exact A|]. split; [exact B|]. apply C; [by left|vm_compute; reflexivity].
Defined.
