(* ===== verification/Tables.v ===== *)
(** * Hash maps as tables with keys

    What the callbacks of a hash map have to do with a key for the map to be
    a finite map from keys to items ([KeyLaws]), and the operations of
    [HashMap] on such a map ([Table]); the resource tables of the library are
    used through these lemmas only. *)

From S2P Require Import Prelude HashMap.

(** The comparison gives zero for items with the same key and for no others,
    and such items have the same hash. *)
Class KeyLaws {I K} (key : I -> K) (hash : I -> Z -> Z -> Z) (compare : I -> I -> Z) : Prop := {
  compare_key : forall a b, compare a b = 0 <-> key a = key b;
  hash_key : forall a b s0 s1, key a = key b -> hash a s0 s1 = hash b s0 s1;
}.

(** [while (hashmap_iter(map, &iter, &item))] up to the first item that has
    the property looked for. *)
Fixpoint iter_find {I} (fuel : nat) (m : hashmap I) (i : Z) (f : I -> bool) : result (option I) :=
  match fuel with
  | O => Spin
  | S fuel =>
      let! (r, i) := hashmap_iter m i in
      match r with
      | None => Val None
      | Some x => if f x then Val (Some x) else iter_find fuel m i f
      end
  end.

(** More rounds than there are buckets. *)
Definition rounds {I} (m : hashmap I) : nat := S (Z.to_nat (nbuckets m)).

Section Tables.
Context {I K : Type} `{Countable K} (key : I -> K) (hash : I -> Z -> Z -> Z) (compare : I -> I -> Z).
Context `{!KeyLaws key hash compare} (zero_item : I).

#[global] Instance key_matches : MatchLaws (Some compare).
Proof.
  split; unfold matches; intros *; rewrite ?Z.eqb_eq.
  - by apply compare_key.
  - apply eq_bool_prop_intro. rewrite !Is_true_true, !Z.eqb_eq, !compare_key. done.
  - rewrite !compare_key. congruence.
Qed.

(** The map [m] holds the items of [g]; there is room in its address space
    for [g] to grow to 19660 items. *)
Record Table (m : hashmap I) (g : gmap K I) : Prop := {
  table_inv : inv (Some compare) zero_item m;
  table_power : growpower m = 1;
  table_size : bucketsz m < 131072;
  table_hashed : Forall (fun a => a = keyed hash (seed0 m) (seed1 m) a.2) (contents m);
  table_items : forall k x, g !! k = Some x <-> key x = k /\ x ∈ (contents m).*2;
}.

Lemma same_keyed s0 s1 x y :
  same (Some compare) (keyed hash s0 s1 x) (keyed hash s0 s1 y) = bool_decide (key x = key y).
Proof.
  unfold same, keyed, matches. simpl. case_bool_decide as E.
  - rewrite (hash_key x y s0 s1 E), Z.eqb_refl. simpl. by apply Z.eqb_eq, compare_key.
  - apply andb_false_iff. right. apply Z.eqb_neq. by rewrite compare_key.
Qed.

Lemma table_same m g x a :
  Table m g -> a ∈ contents m ->
  same (Some compare) (keyed hash (seed0 m) (seed1 m) x) a = bool_decide (key x = key a.2).
Proof.
  intros T Ha. pose proof (table_hashed _ _ T) as F. rewrite Forall_forall in F.
  rewrite (F a Ha) at 1. apply same_keyed.
Qed.

Lemma table_lookup m g x :
  Table m g -> lookup_item (Some compare) (keyed hash (seed0 m) (seed1 m) x) (contents m) = g !! key x.
Proof.
  intros T. destruct (g !! key x) as [y|] eqn:E.
  - apply (table_items _ _ T) in E as [Ek Hy]. apply list_elem_of_fmap in Hy as ([h z] & -> & Hz).
    apply (lookup_elem (Some compare) _ (h, z)); [apply T|done|].
    rewrite (table_same m g) by done. by apply bool_decide_eq_true.
  - apply (lookup_None (Some compare)), Forall_forall. intros a Ha. rewrite (table_same m g) by done.
    apply bool_decide_eq_false. intros Ek. assert (g !! key x = Some a.2); [|congruence].
    apply (table_items _ _ T). split; [done|]. apply list_elem_of_fmap. eauto.
Qed.

Lemma table_entries m g :
  Table m g -> NoDup (key <$> (contents m).*2) /\ g = list_to_map ((fun x => (key x, x)) <$> (contents m).*2).
Proof.
  intros T. assert (N : NoDup (key <$> (contents m).*2)).
  { pose proof (inv_distinct _ _ _ (table_inv _ _ T)) as D. pose proof (table_hashed _ _ T) as F.
    induction (contents m) as [|a l IH]; [by constructor|]. destruct D as [Da D].
    apply Forall_cons in F as [Fa F]. rewrite !fmap_cons. constructor; [|auto].
    rewrite list_elem_of_fmap. intros (x & Ek & Hx).
    apply list_elem_of_fmap in Hx as (b & -> & Hb).
    rewrite Forall_forall in Da, F. specialize (Da b Hb). rewrite (F b Hb), Fa, same_keyed in Da.
    by apply bool_decide_eq_false in Da. }
  split; [done|]. apply map_eq. intros k. apply option_eq. intros x.
  rewrite (table_items _ _ T), <- elem_of_list_to_map.
  - split.
    + intros [<- Hx]. apply list_elem_of_fmap. eauto.
    + intros Hx. apply list_elem_of_fmap in Hx as (y & E & Hy). by simplify_eq.
  - rewrite <- list_fmap_compose. done.
Qed.

Lemma table_count m g : Table m g -> count m = Z.of_nat (size g) /\ length (contents m) = size g.
Proof.
  intros T. destruct (table_entries m g T) as [N ->]. rewrite map_size_list_to_map.
  - rewrite !length_fmap. split; [apply T|done].
  - by rewrite <- list_fmap_compose.
Qed.

Lemma table_empty esize ncap s0 s1 efree :
  0 <= esize <= 131000 -> 0 <= ncap <= 32768 ->
  exists m, hashmap_new zero_item esize ncap s0 s1 efree true true = Val (Some m) /\ Table m ∅.
Proof.
  intros He Hn. destruct (new_ok (Some compare) zero_item esize ncap s0 s1 efree He Hn)
    as (m & E & V & C & _ & _ & _ & _ & Hp & _ & Hb).
  exists m. split; [done|]. split; [done|done|lia|by rewrite C|]. intros k x.
  rewrite C, lookup_empty. split; [done|]. intros [_ Hx]. by apply not_elem_of_nil in Hx.
Qed.

Lemma table_get m g x : Table m g -> hashmap_get hash (Some compare) m x = Val (g !! key x).
Proof.
  intros T. unfold hashmap_get. rewrite (get_ok (Some compare) zero_item) by apply T.
  unfold get_hash. rewrite clip_clip. f_equal. by apply table_lookup.
Qed.

(** A table whose items are those of another, but for one. *)
Lemma table_update m g m' g' l :
  Table m g -> inv (Some compare) zero_item m' -> kin m m' -> contents m' ≡ₚ l ->
  Forall (fun a => a = keyed hash (seed0 m) (seed1 m) a.2) l ->
  (forall k x, g' !! k = Some x <-> key x = k /\ x ∈ l.*2) -> Table m' g'.
Proof.
  intros T V (K1 & K2 & K3 & K4) P F Hg. pose proof (table_power _ _ T). pose proof (table_size _ _ T).
  split; [done|congruence|lia|by rewrite P, K1, K2|].
  intros k x. rewrite Hg. by rewrite P.
Qed.

(** What [delete_item] leaves of the entries. *)
Lemma table_rest m g x k y :
  Table m g ->
  (delete (key x) g !! k = Some y <->
   key y = k /\ y ∈ (delete_item (Some compare) (keyed hash (seed0 m) (seed1 m) x) (contents m)).*2).
Proof.
  intros T. rewrite lookup_delete_Some, (table_items _ _ T). unfold delete_item.
  split.
  - intros (Hk & <- & Hy). split; [done|]. apply list_elem_of_fmap in Hy as (a & -> & Ha).
    apply list_elem_of_fmap. exists a. split; [done|]. apply list_elem_of_In, filter_In.
    split; [by apply list_elem_of_In|]. rewrite (table_same m g) by done. by rewrite bool_decide_eq_false_2.
  - intros (<- & Hy). apply list_elem_of_fmap in Hy as (a & -> & Ha).
    apply list_elem_of_In, filter_In in Ha as [Ha Hs]. apply list_elem_of_In in Ha.
    rewrite (table_same m g), negb_true_iff in Hs by done. apply bool_decide_eq_false in Hs.
    split; [done|]. split; [done|]. apply list_elem_of_fmap. eauto.
Qed.

Lemma hashed_rest m g x :
  Table m g ->
  Forall (fun a => a = keyed hash (seed0 m) (seed1 m) a.2)
    (delete_item (Some compare) (keyed hash (seed0 m) (seed1 m) x) (contents m)).
Proof.
  intros T. apply Forall_forall. intros a Ha. unfold delete_item in Ha.
  apply list_elem_of_In, filter_In in Ha as [Ha _]. apply list_elem_of_In in Ha.
  pose proof (table_hashed _ _ T) as F. rewrite Forall_forall in F. auto.
Qed.

Lemma table_delete m g x :
  Table m g ->
  exists m', hashmap_delete hash (Some compare) zero_item m x true true = Val (g !! key x, m') /\
    Table m' (delete (key x) g).
Proof.
  intros T. pose proof (delete_ok (Some compare) zero_item m x (get_hash hash m x) true true (table_inv _ _ T)) as D.
  unfold get_hash in D. rewrite clip_clip in D. fold (keyed hash (seed0 m) (seed1 m) x) in D.
  destruct D as (m' & E & V & _ & Kn & P). exists m'. rewrite (table_lookup m g) in E by done.
  split; [exact E|]. eapply table_update; [done|done|done|done|by eapply hashed_rest|].
  intros k y. by apply table_rest.
Qed.

Lemma table_set m g x :
  Table m g -> Z.of_nat (size g) < 19660 ->
  exists m', hashmap_set hash (Some compare) zero_item m x true true = Val (g !! key x, m') /\
    Table m' (<[key x := x]> g).
Proof.
  intros T Hs. destruct (table_count m g T) as [_ Hc].
  destruct (exec_ok (Some compare) zero_item hash m (contents m) (Set_ x) true true)
    as (r & m' & l' & E & Rf & V & Kn & P); [apply T|done|apply T|apply T|lia|].
  exists m'. cbn [exec] in E. inversion Rf as [y ok|y| | |]; subst. rewrite (table_lookup m g) in E by done.
  split; [done|]. eapply table_update; [done|done|done|done| |].
  - constructor; [done|by eapply hashed_rest].
  - intros k y. unfold insert_item. rewrite fmap_cons, elem_of_cons. cbn [snd].
    destruct (decide (k = key x)) as [->|Hk].
    + rewrite lookup_insert_eq. split; [intros [= <-]; auto|]. intros (Ey & [->|Hy]); [done|].
      pose proof (proj2 (table_rest m g x (key x) y T) (conj Ey Hy)) as E'. by rewrite lookup_delete_eq in E'.
    + rewrite lookup_insert_ne by done. pose proof (table_rest m g x k y T) as R.
      rewrite lookup_delete_ne in R by done. rewrite R. split; [intros []; auto|].
      intros (Ey & [E'|Hy]); [|done]. destruct Hk. by rewrite <- Ey, E'.
Qed.

(** An item is in the table exactly if it is in the list of its contents. *)
Lemma table_elem m g x : Table m g -> x ∈ (contents m).*2 <-> g !! key x = Some x.
Proof. intros T. rewrite (table_items _ _ T). tauto. Qed.

Lemma table_forall m g (P : I -> Prop) :
  Table m g -> Forall P (contents m).*2 <-> map_Forall (fun _ => P) g.
Proof.
  intros T. rewrite Forall_forall. split.
  - intros HP k x Hx. apply (table_items _ _ T) in Hx as [_ Hx]. auto.
  - intros HP x Hx. eapply HP. by apply (table_elem m).
Qed.

Lemma table_scan m g f :
  Table m g -> exists b, hashmap_scan m f = Val b /\ (b = true <-> map_Forall (fun _ x => f x = true) g).
Proof.
  intros T. destruct (inv_facts _ _ _ (table_inv _ _ T)) as (F & _).
  pose proof (robin_sized _ _ _ (inv_robin _ _ _ (table_inv _ _ T))) as Hs. unfold sized in Hs.
  unfold hashmap_scan. replace (Z.to_nat (nbuckets m)) with (length (buckets m) - 0)%nat by lia.
  eexists. split; [apply (scan_ok (buckets m) f 0); lia|]. rewrite drop_0.
  rewrite forallb_forall, <- (table_forall m g) by done. unfold contents. rewrite Forall_forall.
  by setoid_rewrite list_elem_of_In.
Qed.

Lemma iter_find_ok (m : hashmap I) f fuel i :
  Z.of_nat (length (buckets m)) = nbuckets m -> nbuckets m < 4294967296 ->
  (i <= length (buckets m))%nat -> (length (items (drop i (buckets m))) < fuel)%nat ->
  iter_find fuel m (Z.of_nat i) f = Val (List.find f (items (drop i (buckets m))).*2).
Proof.
  intros Hn Hb. revert i. induction fuel as [|fuel IH]; intros i Hi Hf; [lia|]. cbn [iter_find].
  unfold hashmap_iter. pose proof (iter_ok m (S (Z.to_nat (nbuckets m))) i Hn Hb Hi ltac:(lia)) as E.
  destruct (items (drop i (buckets m))) as [|[h x] l].
  - destruct E as (j & E). by rewrite E.
  - destruct E as (j & Hj & -> & E). rewrite E. cbn [rbind]. simpl in Hf |- *.
    destruct (f x); [done|]. apply IH; lia.
Qed.

Lemma table_find m g f :
  Table m g ->
  exists r, iter_find (rounds m) m 0 f = Val r /\
    match r with
    | Some x => f x = true /\ g !! key x = Some x
    | None => map_Forall (fun _ x => f x = false) g
    end.
Proof.
  intros T. destruct (inv_facts _ _ _ (table_inv _ _ T)) as (F & F2 & _).
  pose proof (robin_sized _ _ _ (inv_robin _ _ _ (table_inv _ _ T))) as Hs. unfold sized in Hs.
  pose proof (inv_count _ _ _ (table_inv _ _ T)) as Hc. unfold contents in Hc.
  eexists. split; [apply (iter_find_ok m f _ 0); rewrite ?drop_0; unfold rounds; lia|].
  rewrite drop_0. destruct (List.find _ _) as [x|] eqn:E.
  - apply List.find_some in E as [Hx Hf]. split; [done|]. apply (table_elem m); [done|]. by apply list_elem_of_In.
  - apply (table_forall m g (fun x => f x = false)); [done|]. apply Forall_forall. intros x Hx.
    apply (List.find_none _ _ E). by apply list_elem_of_In.
Qed.
End Tables.
