(* ===== verification/Resources.v ===== *)
(** * The items of the resource tables ([library/shared_library/clib4.c])

    The library's resource has a table of the processes that opened it, by
    their identifier ([uuid]), each with a table of the processes it spawned,
    by number, and a table of Unix domain sockets, by name.  Here are the
    items of these tables, their places in memory and the callbacks their
    maps are made with: the hash and the comparison of each. *)

From Stdlib Require Import String.
From S2P Require Import Prelude CMem StrScan StrCmp HashMap Hashes Tables.

(** ** The code *)

Record UnixSocket := mkUnixSocket { port : Z; us_fd : Z; name : list Z }.
Record Clib4Node := mkNode {
  pid : Z; pPid : Z; uuid : list Z; undo : Z; errNo : Z; spawnedProcesses : Z }.
Record Clib4Children := mkChildren { c_pid : Z; groupId : Z; returnCode : Z; pipe : Z }.

Definition PATH_MAX : Z := 1024.
Definition UUID4_LEN : Z := 37.

Definition unixSocketHash (item seed0 seed1 : Z) : M Z :=
  let* n := strlen (item + 8) in hashmap_xxhash3 (item + 8) n seed0 seed1.
Definition unixSocketCompare (a b : Z) : M Z := strcmp (a + 8) (b + 8).

Definition clib4NodeHash (item seed0 seed1 : Z) : M Z :=
  let* n := strlen (item + 8) in hashmap_xxhash3 (item + 8) n seed0 seed1.
Definition clib4NodeCompare (a b : Z) : M Z := strcmp (a + 8) (b + 8).

Definition clib4IntHash (item seed0 seed1 : Z) : M Z := hashmap_xxhash3 item 4 seed0 seed1.
(** The difference of two [uint32] becomes an [int]. *)
Definition clib4ProcessCompare (a b : Z) : M Z :=
  let* pa := load32 a in
  let* pb := load32 b in
  ret (s32 (u32 (pa - pb))).

(** ** The callbacks on the items themselves *)

(** The string that is in an array. *)
Fixpoint c_string (l : list Z) : list Z :=
  match l with
  | [] => []
  | b :: l => if b =? 0 then [] else b :: c_string l
  end.

Definition string_hash (l : list Z) (seed0 : Z) : Z := xxh64 be_number seed0 (c_string l).
Definition string_compare (l1 l2 : list Z) : Z := cmp_bytes (c_string l1 ++ [0]) (c_string l2 ++ [0]).

Definition socket_hash (x : UnixSocket) (seed0 seed1 : Z) : Z := string_hash (name x) seed0.
Definition socket_compare (x y : UnixSocket) : Z := string_compare (name x) (name y).
Definition node_hash (x : Clib4Node) (seed0 seed1 : Z) : Z := string_hash (uuid x) seed0.
Definition node_compare (x y : Clib4Node) : Z := string_compare (uuid x) (uuid y).
Definition children_hash (x : Clib4Children) (seed0 seed1 : Z) : Z :=
  xxh64 be_number seed0 (word_bytes (c_pid x)).
Definition children_compare (x y : Clib4Children) : Z := s32 (u32 (c_pid x - c_pid y)).

Definition socket_key (x : UnixSocket) : list Z := c_string (name x).
Definition node_key (x : Clib4Node) : list Z := c_string (uuid x).
Definition children_key (x : Clib4Children) : Z := u32 (c_pid x).

Lemma c_string_nonzero l : Forall (fun b => b <> 0) (c_string l).
Proof. induction l as [|b l IH]; simpl; [done|]. destruct (Z.eqb_spec b 0); [done|]. by constructor. Qed.

Lemma c_string_split l : 0 ∈ l -> exists r, l = c_string l ++ 0 :: r.
Proof.
  induction l as [|b l IH]; intros Hl; [by apply not_elem_of_nil in Hl|]. simpl.
  destruct (Z.eqb_spec b 0) as [->|Hb]; [by exists l|].
  apply elem_of_cons in Hl as [Hl|Hl]; [congruence|]. destruct (IH Hl) as [r E]. exists r.
  simpl. by rewrite <- E.
Qed.

Lemma c_string_app l r : 0 ∈ l -> c_string (l ++ r) = c_string l.
Proof.
  induction l as [|b l IH]; intros Hl; [by apply not_elem_of_nil in Hl|]. simpl.
  destruct (Z.eqb_spec b 0); [done|]. f_equal. apply IH. by apply elem_of_cons in Hl as [|].
Qed.

Lemma string_compare_zero l1 l2 : string_compare l1 l2 = 0 <-> c_string l1 = c_string l2.
Proof.
  unfold string_compare. pose proof (c_string_nonzero l1) as F1. pose proof (c_string_nonzero l2) as F2.
  revert F1 F2. generalize (c_string l1) (c_string l2). clear l1 l2.
  induction l as [|a l1 IH]; intros [|b l2] H1 H2; fcons; simpl; zb; try done; try (split; [lia|done]).
  - rewrite IH by done. subst. split; [by intros ->|by intros [= ->]].
  - split; [lia|by intros [= ->]].
Qed.

#[export] Instance socket_laws : KeyLaws socket_key socket_hash socket_compare.
Proof.
  split; [intros; apply string_compare_zero|]. intros a b s0 s1. unfold socket_hash, string_hash, socket_key.
  by intros ->.
Qed.

#[export] Instance node_laws : KeyLaws node_key node_hash node_compare.
Proof.
  split; [intros; apply string_compare_zero|]. intros a b s0 s1. unfold node_hash, string_hash, node_key.
  by intros ->.
Qed.

#[export] Instance children_laws : KeyLaws children_key children_hash children_compare.
Proof.
  split; intros a b.
  - unfold children_compare, children_key, s32, u32. Z.div_mod_to_equations. lia.
  - intros s0 s1 E. unfold children_hash. rewrite <- (word_bytes_u32 (c_pid a)), <- (word_bytes_u32 (c_pid b)).
    unfold children_key in E. by rewrite E.
Qed.

(** ** Items in memory *)

(** An object with given bytes, aligned as structures are. *)
Record object_at (m : gmap Z Z) (p : Z) (l : list Z) : Prop := {
  object_bytes : bytes_at m p l;
  object_wf : mem_wf m;
  object_aligned : p mod 4 = 0;
  object_space : in_space p (Z.of_nat (length l));
}.

Record socket_at (m : gmap Z Z) (p : Z) (x : UnixSocket) : Prop := {
  socket_object : object_at m p (word_bytes (port x) ++ word_bytes (us_fd x) ++ name x);
  socket_array : Z.of_nat (length (name x)) = PATH_MAX;
  socket_string : 0 ∈ name x;
}.

(** There are two bytes between [uuid] and [undo]. *)
Record node_at (m : gmap Z Z) (p : Z) (x : Clib4Node) : Prop := {
  node_object : exists pad, length pad = 2%nat /\
    object_at m p (word_bytes (pid x) ++ word_bytes (pPid x) ++ (uuid x ++ pad) ++
      word_bytes (undo x) ++ word_bytes (errNo x) ++ word_bytes (spawnedProcesses x));
  node_array : Z.of_nat (length (uuid x)) = UUID4_LEN + 1;
  node_string : 0 ∈ uuid x;
}.

Definition children_at (m : gmap Z Z) (p : Z) (x : Clib4Children) : Prop :=
  object_at m p (word_bytes (c_pid x) ++ word_bytes (groupId x) ++ word_bytes (returnCode x) ++
    word_bytes (pipe x)).

(** The string in an array that ends at a word, behind two words of a
    structure. *)
Lemma string_field m p l1 l2 l3 l4 :
  object_at m p (l1 ++ l2 ++ l3 ++ l4) -> length (l1 ++ l2) = 8%nat -> (length l3 mod 4 = 0)%nat -> 0 ∈ l3 ->
  cstr m (p + 8) (c_string l3) /\ word_readable m (p + 8) (Z.of_nat (length (c_string l3)) + 1).
Proof.
  intros O H8 H4 H0. destruct (c_string_split l3 H0) as [r E].
  pose proof (object_bytes _ _ _ O) as B. pose proof (object_aligned _ _ _ O) as A.
  destruct (object_space _ _ _ O) as [S1 S2]. rewrite app_assoc, bytes_at_app, H8 in B.
  destruct B as [_ B]. apply bytes_at_app in B as [B _]. change (Z.of_nat 8) with 8 in B.
  rewrite !length_app in S2. rewrite length_app in H8. pose proof (bytes_at_mapped _ _ _ B) as Mp.
  assert (L : length l3 = (length (c_string l3) + S (length r))%nat) by (rewrite E at 1; rewrite length_app; done).
  split; [split; [|split]|split; [apply O|split]].
  - rewrite E in B. rewrite cons_middle, app_assoc in B. by apply bytes_at_app in B as [B _].
  - pose proof (bytes_at_wf _ _ _ (object_wf _ _ _ O) B) as F. rewrite E in F. apply Forall_app in F as [F _].
    pose proof (c_string_nonzero l3) as N. rewrite Forall_forall in F, N |- *. intros b Hb.
    specialize (F b Hb). specialize (N b Hb). unfold is_char, is_byte in *. lia.
  - split; [lia|].
    unfold ADDR_MAX in *. lia.
  - intros a Ha. replace ((p + 8) mod 4) with 0 in Ha; [lia|]. Z.div_mod_to_equations; lia.
  - eapply mapped_sub; [exact Mp|lia|]. apply (f_equal Z.of_nat) in H4. rewrite Nat2Z.inj_mod in H4.
    change (Z.of_nat 4) with 4 in H4. change (Z.of_nat 0) with 0 in H4.
    set (n := Z.of_nat (length l3)) in *. set (k := Z.of_nat (length (c_string l3))) in *.
    assert (k + 1 <= n) by lia. Z.div_mod_to_equations. lia.
Qed.

Lemma string_hash_ok s p l1 l2 l3 l4 seed0 seed1 :
  object_at (mem s) p (l1 ++ l2 ++ l3 ++ l4) -> length (l1 ++ l2) = 8%nat -> (length l3 mod 4 = 0)%nat ->
  0 ∈ l3 ->
  (let* n := strlen (p + 8) in hashmap_xxhash3 (p + 8) n seed0 seed1) s = Ok (string_hash l3 seed0) s.
Proof.
  intros O H8 H4 H0. destruct (string_field _ _ _ _ _ _ O H8 H4 H0) as [C W].
  rewrite (bind_ok _ _ _ _ _ (strlen_ok _ _ _ C W)). unfold hashmap_xxhash3.
  pose proof (cstr_bytes _ _ _ C) as B. apply bytes_at_app in B as [B _].
  pose proof (cstr_len _ _ _ C). pose proof (cstr_pos _ _ _ C). unfold ADDR_MAX in *.
  apply xxh3_ok; [done|lia].
Qed.

Lemma word_at m p v l : bytes_at m p (word_bytes v ++ l) -> bytes_at m p (word_bytes v).
Proof. intros B. by apply bytes_at_app in B as [B _]. Qed.

Lemma load_field s p v l :
  bytes_at (mem s) p (word_bytes v ++ l) -> p mod 4 = 0 -> load32 p s = Ok (u32 v) s.
Proof.
  intros B A. apply word_at in B. rewrite <- word_bytes_u32 in B.
  rewrite (load32_ok p s _ _ _ _ A B). by rewrite word_bytes_value by apply u32_range.
Qed.

(** C15: Called on items of the resource tables in memory, the callbacks of
    their maps return, change nothing, and compute functions of the items: a
    hash that depends on the key alone (the string in [name] or [uuid], or the
    number [pid]), and a comparison that is zero exactly for items with the
    same key. *)
Theorem table_callbacks_correct s :
  (forall p q x y seed0 seed1, socket_at (mem s) p x -> socket_at (mem s) q y ->
     exists d, unixSocketHash p seed0 seed1 s = Ok (xxh64 be_number seed0 (socket_key x)) s /\
       unixSocketCompare p q s = Ok d s /\ (d = 0 <-> socket_key x = socket_key y)) /\
  (forall p q x y seed0 seed1, node_at (mem s) p x -> node_at (mem s) q y ->
     exists d, clib4NodeHash p seed0 seed1 s = Ok (xxh64 be_number seed0 (node_key x)) s /\
       clib4NodeCompare p q s = Ok d s /\ (d = 0 <-> node_key x = node_key y)) /\
  (forall p q x y seed0 seed1, children_at (mem s) p x -> children_at (mem s) q y ->
     exists d, clib4IntHash p seed0 seed1 s = Ok (xxh64 be_number seed0 (word_bytes (children_key x))) s /\
       clib4ProcessCompare p q s = Ok d s /\ (d = 0 <-> children_key x = children_key y)).
Proof.
  split; [|split]; intros p q x y seed0 seed1.
  - intros [O1 L1 Z1] [O2 L2 Z2]. unfold PATH_MAX in *. exists (socket_compare x y).
    assert (E1 : (length (name x) mod 4 = 0)%nat) by (by replace (length (name x)) with (1024)%nat by lia).
    assert (E2 : (length (name y) mod 4 = 0)%nat) by (by replace (length (name y)) with (1024)%nat by lia).
    rewrite <- (app_nil_r (name x)) in O1. rewrite <- (app_nil_r (name y)) in O2.
    split; [by apply (string_hash_ok s p _ _ _ _ _ _ O1)|]. split; [|apply compare_key].
    apply strcmp_ok; [apply (string_field _ _ _ _ _ _ O1); done|apply (string_field _ _ _ _ _ _ O2); done].
  - intros [(pad1 & P1 & O1) L1 Z1] [(pad2 & P2 & O2) L2 Z2]. unfold UUID4_LEN in *. exists (node_compare x y).
    assert (E1 : (length (uuid x ++ pad1) mod 4 = 0)%nat)
      by (rewrite length_app; by replace (length (uuid x)) with (38)%nat by lia; rewrite P1).
    assert (E2 : (length (uuid y ++ pad2) mod 4 = 0)%nat)
      by (rewrite length_app; by replace (length (uuid y)) with (38)%nat by lia; rewrite P2).
    assert (S1 : 0 ∈ uuid x ++ pad1) by (apply elem_of_app; by left).
    assert (S2 : 0 ∈ uuid y ++ pad2) by (apply elem_of_app; by left).
    pose proof (c_string_app (uuid x) pad1 Z1) as C1. pose proof (c_string_app (uuid y) pad2 Z2) as C2.
    split; [|split; [|apply compare_key]].
    + pose proof (string_hash_ok s p _ _ _ _ seed0 seed1 O1 eq_refl E1 S1) as E. unfold string_hash in E.
      by rewrite C1 in E.
    + unfold node_compare, string_compare. rewrite <- C1, <- C2.
      apply strcmp_ok; [apply (string_field _ _ _ _ _ _ O1); done|apply (string_field _ _ _ _ _ _ O2); done].
  - intros O1 O2. exists (children_compare x y). pose proof (object_bytes _ _ _ O1) as B1.
    pose proof (object_bytes _ _ _ O2) as B2. split; [|split; [|apply compare_key]].
    + unfold clib4IntHash, hashmap_xxhash3, children_key. rewrite word_bytes_u32.
      change 4 with (Z.of_nat (length (word_bytes (c_pid x)))). apply xxh3_ok; [by eapply word_at|simpl; lia].
    + unfold clib4ProcessCompare.
      rewrite (bind_ok _ _ _ _ _ (load_field _ _ _ _ B1 (object_aligned _ _ _ O1))).
      rewrite (bind_ok _ _ _ _ _ (load_field _ _ _ _ B2 (object_aligned _ _ _ O2))).
      unfold ret, children_compare, u32. by rewrite <- Zminus_mod.
Qed.

(** ** Samples *)

Definition in_array (n : nat) (s : string) : list Z := bytes s ++ replicate (n - String.length s) 0.

Definition socket_a : UnixSocket := mkUnixSocket 30000 20480 (in_array 1024 "/tmp/a").
Definition socket_b : UnixSocket := mkUnixSocket 30001 20484 (in_array 1024 "/tmp/b").
Definition node_a : Clib4Node := mkNode 7 1 (in_array 38 "5f0f2a3c-0000-4000-8000-00000000000a") 0 0 24576.
Definition children_a : Clib4Children := mkChildren 11 1 0x80000000 0.

Definition socket_object_of (x : UnixSocket) : list Z := word_bytes (port x) ++ word_bytes (us_fd x) ++ name x.
Definition node_object_of (x : Clib4Node) : list Z :=
  word_bytes (pid x) ++ word_bytes (pPid x) ++ (uuid x ++ [0; 0]) ++
  word_bytes (undo x) ++ word_bytes (errNo x) ++ word_bytes (spawnedProcesses x).
Definition children_object_of (x : Clib4Children) : list Z :=
  word_bytes (c_pid x) ++ word_bytes (groupId x) ++ word_bytes (returnCode x) ++ word_bytes (pipe x).

Definition resource_memory : state :=
  boot [(4096, socket_object_of socket_a); (8192, socket_object_of socket_b);
        (12288, node_object_of node_a); (16384, children_object_of children_a)].

Ltac ground_object := split; [ground|ground|vm_compute; reflexivity|split; vm_compute; congruence].

Lemma table_callbacks_correct_witness :
  (exists d, unixSocketHash 4096 5 6 resource_memory = Ok (xxh64 be_number 5 (bytes "/tmp/a")) resource_memory /\
     unixSocketCompare 4096 8192 resource_memory = Ok d resource_memory /\
     (d = 0 <-> socket_key socket_a = socket_key socket_b)) /\
  (exists d, clib4NodeHash 12288 5 6 resource_memory = Ok (xxh64 be_number 5 (node_key node_a)) resource_memory /\
     clib4NodeCompare 12288 12288 resource_memory = Ok d resource_memory /\
     (d = 0 <-> node_key node_a = node_key node_a)) /\
  (exists d, clib4IntHash 16384 5 6 resource_memory = Ok (xxh64 be_number 5 [0; 0; 0; 11]) resource_memory /\
     clib4ProcessCompare 16384 16384 resource_memory = Ok d resource_memory /\
     (d = 0 <-> children_key children_a = children_key children_a)).
Proof.
  destruct (table_callbacks_correct resource_memory) as (A & B & C). split; [|split].
  - apply (A 4096 8192 socket_a socket_b).
    + split; [ground_object|reflexivity|]. apply elem_of_app. right. apply elem_of_replicate. by split.
    + split; [ground_object|reflexivity|]. apply elem_of_app. right. apply elem_of_replicate. by split.
  - assert (N : node_at (mem resource_memory) 12288 node_a).
    { split; [|reflexivity|apply elem_of_app; right; apply elem_of_replicate; by split].
      exists [0; 0]. split; [done|ground_object]. }
    exact (B 12288 12288 node_a node_a 5 6 N N).
  - assert (N : children_at (mem resource_memory) 16384 children_a) by ground_object.
    exact (C 16384 16384 children_a children_a 5 6 N N).
Defined.
