(* ===== verification/UnixSockets.v ===== *)
(** * Unix domain sockets ([library/socket/bind.c], [connect.c], [hook_entry.c])

    A socket bound to a path is a socket bound to a port of the loopback
    address; which port belongs to which path is in a table of the library's
    resource.  [bind] chooses the port and enters it, [connect] looks it up,
    closing the socket removes it.  The code is on the hash map; the
    specification is a step relation on a finite map from paths to sockets. *)

From Stdlib Require Import String.
From S2P Require Import Prelude CMem HashMap Hashes Tables Resources.

(** ** The code *)

Definition EADDRINUSE : Z := 48.
Definition ENOTCONN : Z := 57.
Definition START_UX_LOCAL_PORTS : Z := 30000.

(** An address as the caller gives it, and the address the system is asked
    to bind or connect to: a port of the loopback address, or the caller's. *)
Inductive sockaddr := sa_null | sa_local (sun_path : list Z) | sa_other.
Inductive target := loopback (port : Z) | given.

(** The result of a function and the error number it sets, if any. *)
Definition reply : Type := Z * option Z.

Definition zero_socket : UnixSocket := mkUnixSocket 0 0 (replicate 1024 0).

(** [memset] and [strncpy] on a local [struct UnixSocket]. *)
Definition name_array (path : list Z) : list Z :=
  take 1024 path ++ replicate (1024 - length path) 0.
Definition socket_named (path : list Z) : UnixSocket := mkUnixSocket 0 0 (name_array path).

Definition uxPortScan (p : Z) (unixSocket : UnixSocket) : bool :=
  if port unixSocket =? p then false else true.

Fixpoint port_loop (fuel : nat) (m : hashmap UnixSocket) (port : Z) : result Z :=
  match fuel with
  | O => Spin
  | S fuel =>
      if port <? 65535 - START_UX_LOCAL_PORTS then
        let! unused := hashmap_scan m (uxPortScan port) in
        if unused then Val port else port_loop fuel m (port + 1)
      else Val port
  end.

(** The branch of [bind] for [AF_LOCAL] addresses; [reuse] is the result of
    [setsockopt], [sys_bind] that of the system's [bind], [ok1] and [ok2] tell
    whether the map finds memory. *)
Definition bind_local (m : hashmap UnixSocket) (fd : Z) (path : list Z) (reuse : Z)
    (sys_bind : target -> Z) (ok1 ok2 : bool) : result (reply * hashmap UnixSocket) :=
  let newSock := socket_named path in
  let! r := hashmap_get socket_hash (Some socket_compare) m newSock in
  if match r with Some _ => reuse =? -1 | None => false end
  then Val ((-1, Some EADDRINUSE), m)
  else
    let! port := port_loop (Z.to_nat 5536) m START_UX_LOCAL_PORTS in
    let newSock := mkUnixSocket port fd (name newSock) in
    let! (_, m) := hashmap_set socket_hash (Some socket_compare) zero_socket m newSock ok1 ok2 in
    Val ((sys_bind (loopback port), None), m).

(** The table is that of the resource, [None] when the resource is missing;
    [fd] is [None] when there is no such socket. *)
Definition socket_bind (res : option (hashmap UnixSocket)) (fd : option Z) (addr : sockaddr) (reuse : Z)
    (sys_bind : target -> Z) (ok1 ok2 : bool) : result (reply * option (hashmap UnixSocket)) :=
  match addr with
  | sa_null => Val ((-1, Some EFAULT), res)
  | _ =>
      match fd with
      | None => Val ((-1, None), res)
      | Some fd =>
          match addr with
          | sa_local path =>
              match res with
              | Some m => let! (r, m) := bind_local m fd path reuse sys_bind ok1 ok2 in Val (r, Some m)
              | None => Val ((-1, Some EFAULT), res)
              end
          | _ => Val ((sys_bind given, None), res)
          end
      end
  end.

Definition connect (res : option (hashmap UnixSocket)) (fd : option Z) (addr : sockaddr)
    (sys_connect : target -> Z) : result reply :=
  match addr with
  | sa_null => Val (-1, Some EFAULT)
  | _ =>
      match fd with
      | None => Val (-1, None)
      | Some fd =>
          match addr with
          | sa_local path =>
              match res with
              | Some m =>
                  let! r := hashmap_get socket_hash (Some socket_compare) m (socket_named path) in
                  match r with
                  | None => Val (-1, Some ENOTCONN)
                  | Some unixSocket => Val (sys_connect (loopback (port unixSocket)), None)
                  end
              | None => Val (-1, Some EFAULT)
              end
          | _ => Val (sys_connect given, None)
          end
      end
  end.

(** What [file_action_close] does to the table, and its result. *)
Definition close_socket (res : option (hashmap UnixSocket)) (fd : Z) (is_aliased no_close : bool)
    (sys_close : Z) (ok1 ok2 : bool) : result (Z * option (hashmap UnixSocket)) :=
  if is_aliased then Val (0, res)
  else if no_close then Val (0, res)
  else
    match res with
    | None => Val (sys_close, None)
    | Some m =>
        let! found := iter_find (rounds m) m 0 (fun socket => us_fd socket =? fd) in
        match found with
        | None => Val (sys_close, Some m)
        | Some socket =>
            let! (_, m) := hashmap_delete socket_hash (Some socket_compare) zero_socket m socket ok1 ok2 in
            Val (sys_close, Some m)
        end
    end.

(** ** Sequences of calls *)

Inductive call :=
  | Bind (fd : Z) (path : list Z) (reuse : Z) (sys_bind : target -> Z)
  | Connect (fd : Z) (path : list Z) (sys_connect : target -> Z)
  | Close (fd : Z) (sys_close : Z).

Definition run_call (m : hashmap UnixSocket) (c : call) : result (reply * option (hashmap UnixSocket)) :=
  match c with
  | Bind fd path reuse sys_bind => socket_bind (Some m) (Some fd) (sa_local path) reuse sys_bind true true
  | Connect fd path sys_connect =>
      let! r := connect (Some m) (Some fd) (sa_local path) sys_connect in Val (r, Some m)
  | Close fd sys_close =>
      let! (r, m) := close_socket (Some m) fd false false sys_close true true in Val ((r, None), m)
  end.

Fixpoint run_calls (m : hashmap UnixSocket) (cs : list call) : result (list reply * option (hashmap UnixSocket)) :=
  match cs with
  | [] => Val ([], Some m)
  | c :: cs =>
      let! (r, res) := run_call m c in
      match res with
      | None => Val ([r], None)
      | Some m => let! (rs, m) := run_calls m cs in Val (r :: rs, m)
      end
  end.

(** ** The specification *)

Definition used (g : gmap (list Z) UnixSocket) (p : Z) : Prop := exists path x, g !! path = Some x /\ port x = p.

(** The first port above 30000 that no socket has. *)
Definition first_free (g : gmap (list Z) UnixSocket) (p : Z) : Prop :=
  30000 <= p < 35535 /\ ~ used g p /\ forall p', 30000 <= p' < p -> used g p'.

Inductive step (g : gmap (list Z) UnixSocket) : call -> reply -> gmap (list Z) UnixSocket -> Prop :=
  | step_bind fd path reuse sys_bind p :
      g !! path = None \/ reuse <> -1 -> first_free g p ->
      step g (Bind fd path reuse sys_bind) (sys_bind (loopback p), None)
        (<[path := mkUnixSocket p fd (name_array path)]> g)
  | step_in_use fd path sys_bind x :
      g !! path = Some x ->
      step g (Bind fd path (-1) sys_bind) (-1, Some EADDRINUSE) g
  | step_connect fd path sys_connect x :
      g !! path = Some x ->
      step g (Connect fd path sys_connect) (sys_connect (loopback (port x)), None) g
  | step_refused fd path sys_connect :
      g !! path = None ->
      step g (Connect fd path sys_connect) (-1, Some ENOTCONN) g
  | step_close fd sys_close path x :
      g !! path = Some x -> us_fd x = fd ->
      step g (Close fd sys_close) (sys_close, None) (delete path g)
  | step_unnamed fd sys_close :
      map_Forall (fun _ x => us_fd x <> fd) g ->
      step g (Close fd sys_close) (sys_close, None) g.

Inductive steps : gmap (list Z) UnixSocket -> list call -> list reply -> gmap (list Z) UnixSocket -> Prop :=
  | steps_nil g : steps g [] [] g
  | steps_cons g c r g1 cs rs g2 : step g c r g1 -> steps g1 cs rs g2 -> steps g (c :: cs) (r :: rs) g2.

(** Paths are strings that fit into the array with their terminator. *)
Definition is_path (path : list Z) : Prop := Forall is_char path /\ Z.of_nat (length path) < PATH_MAX.
Definition named_call (c : call) : Prop :=
  match c with Bind _ path _ _ => is_path path | Connect _ path _ => is_path path | Close _ _ => True end.

(** No two sockets have the same port, and ports are in their range. *)
Definition ports_ok (g : gmap (list Z) UnixSocket) : Prop :=
  map_Forall (fun _ x => 30000 <= port x < 35535) g /\
  forall path1 path2 x1 x2, g !! path1 = Some x1 -> g !! path2 = Some x2 -> port x1 = port x2 -> path1 = path2.

(** ** Names *)

Lemma c_string_pad l n : Forall is_char l -> c_string (l ++ replicate (S n) 0) = l.
Proof.
  induction 1 as [|b l Hb _ IH]; simpl; [done|]. rewrite (proj2 (Z.eqb_neq b 0)) by zlia. by f_equal.
Qed.

Lemma name_array_key path : is_path path -> c_string (name_array path) = path.
Proof.
  intros [Hc Hl]. unfold PATH_MAX in Hl. unfold name_array. rewrite take_ge by lia.
  destruct (1024 - length path)%nat as [|n] eqn:E; [lia|]. by apply c_string_pad.
Qed.

(** ** Choosing a port *)

Notation SocketTable := (Table socket_key socket_hash socket_compare zero_socket).

Lemma scan_port m g p :
  SocketTable m g -> exists b, hashmap_scan m (uxPortScan p) = Val b /\ if b then ~ used g p else used g p.
Proof.
  intros T. destruct (table_scan _ _ _ _ m g (uxPortScan p) T) as (b & E & Hb). exists b. split; [done|].
  unfold uxPortScan in Hb. destruct b.
  - intros (path & x & Hx & Hp). apply proj1 in Hb. specialize (Hb eq_refl path x Hx). simpl in Hb.
    by rewrite (proj2 (Z.eqb_eq _ _) Hp) in Hb.
  - apply dec_stable. intros Hn. assert (false = true); [|done]. apply Hb. intros path x Hx.
    destruct (Z.eqb_spec (port x) p); [|done]. destruct Hn. by exists path, x.
Qed.

Lemma port_loop_ok m g n p :
  SocketTable m g -> p + Z.of_nat n = 35535 ->
  exists q, port_loop (S n) m p = Val q /\ p <= q <= 35535 /\ (forall p', p <= p' < q -> used g p') /\
    (q < 35535 -> ~ used g q).
Proof.
  intros T. revert p. induction n as [|n IH]; intros p Hp.
  - exists p. cbn [port_loop]. rewrite (proj2 (Z.ltb_ge _ _)) by (unfold START_UX_LOCAL_PORTS; lia).
    split; [done|]. split; [lia|]. split; lia.
  - change (port_loop (S (S n)) m p) with
      (if p <? 65535 - START_UX_LOCAL_PORTS then
         let! unused := hashmap_scan m (uxPortScan p) in
         if unused then Val p else port_loop (S n) m (p + 1)
       else Val p)%map.
    rewrite (proj2 (Z.ltb_lt _ _)) by (unfold START_UX_LOCAL_PORTS; lia).
    destruct (scan_port m g p T) as ([] & E & Hu); rewrite E; cbn [rbind].
    + exists p. split; [done|]. split; [lia|]. split; [lia|done].
    + destruct (IH (p + 1)) as (q & Eq & Hq & Hall & Hn); [lia|]. exists q. split; [done|].
      split; [lia|]. split; [|done]. intros p' Hp'. destruct (decide (p' = p)) as [->|]; [done|]. apply Hall. lia.
Qed.

(** A port is free while there are fewer sockets than ports. *)
Lemma some_free g : Z.of_nat (size g) < 5535 -> ~ (forall p, 30000 <= p < 35535 -> used g p).
Proof.
  intros Hs Hall. assert (L : (length (seqZ 30000 5535) <= length (port <$> (map_to_list g).*2))%nat).
  { apply NoDup_incl_length; [apply NoDup_ListNoDup, NoDup_seqZ|]. intros p Hp.
    apply list_elem_of_In, elem_of_seqZ in Hp. destruct (Hall p ltac:(lia)) as (path & x & Hx & <-).
    apply list_elem_of_In, list_elem_of_fmap. exists x. split; [done|].
    apply list_elem_of_fmap. exists (path, x). split; [done|]. by apply elem_of_map_to_list. }
  rewrite !length_fmap, length_seqZ, length_map_to_list in L. lia.
Qed.

Lemma port_found m g :
  SocketTable m g -> Z.of_nat (size g) < 5535 ->
  exists p, port_loop (Z.to_nat 5536) m START_UX_LOCAL_PORTS = Val p /\ first_free g p.
Proof.
  intros T Hs. destruct (port_loop_ok m g (Z.to_nat 5535) 30000 T) as (q & E & Hq & Hall & Hn); [lia|].
  exists q. replace (S (Z.to_nat 5535)) with (Z.to_nat 5536) in E by lia. split; [done|].
  assert (q < 35535).
  { destruct (decide (q = 35535)) as [->|]; [|lia]. by destruct (some_free g Hs). }
  split; [lia|]. split; [auto|done].
Qed.

(** ** Every call is a step of the specification *)

Lemma bind_step m g fd path reuse sys_bind :
  SocketTable m g -> is_path path -> Z.of_nat (size g) < 5535 ->
  exists r m' g', run_call m (Bind fd path reuse sys_bind) = Val (r, Some m') /\
    step g (Bind fd path reuse sys_bind) r g' /\ SocketTable m' g'.
Proof.
  intros T Hp Hs. pose proof (name_array_key path Hp) as K. cbn [run_call socket_bind]. unfold bind_local.
  pose proof (table_get socket_key socket_hash socket_compare zero_socket m g (socket_named path) T) as G.
  change (socket_key (socket_named path)) with (c_string (name_array path)) in G. rewrite K in G.
  rewrite G. cbn [rbind].
  destruct (match g !! path with Some _ => reuse =? -1 | None => false end) eqn:R.
  - destruct (g !! path) as [x|] eqn:E; [|done]. apply Z.eqb_eq in R as ->.
    eexists _, m, g. split; [reflexivity|]. split; [by eapply step_in_use|done].
  - destruct (port_found m g T Hs) as (p & Ep & Hf). rewrite Ep. cbn [rbind].
    destruct (table_set socket_key socket_hash socket_compare zero_socket m g
      (mkUnixSocket p fd (name_array path)) T) as (m' & Es & T'); [lia|].
    change (name (socket_named path)) with (name_array path). rewrite Es. cbn [rbind].
    eexists _, m', _. split; [reflexivity|]. split; [apply step_bind; [|exact Hf]|].
    + destruct (g !! path); [right|by left]. by apply Z.eqb_neq.
    + unfold socket_key in T'. simpl in T'. by rewrite K in T'.
Qed.

Lemma connect_step m g fd path sys_connect :
  SocketTable m g -> is_path path ->
  exists r m' g', run_call m (Connect fd path sys_connect) = Val (r, Some m') /\
    step g (Connect fd path sys_connect) r g' /\ SocketTable m' g'.
Proof.
  intros T Hp. pose proof (name_array_key path Hp) as K. cbn [run_call connect].
  pose proof (table_get socket_key socket_hash socket_compare zero_socket m g (socket_named path) T) as G.
  change (socket_key (socket_named path)) with (c_string (name_array path)) in G. rewrite K in G.
  rewrite G. cbn [rbind]. destruct (g !! path) as [x|] eqn:E.
  - eexists _, m, g. split; [reflexivity|]. split; [by apply step_connect|done].
  - eexists _, m, g. split; [reflexivity|]. split; [by apply step_refused|done].
Qed.

Lemma close_step m g fd sys_close :
  SocketTable m g ->
  exists r m' g', run_call m (Close fd sys_close) = Val (r, Some m') /\
    step g (Close fd sys_close) r g' /\ SocketTable m' g'.
Proof.
  intros T. cbn [run_call]. unfold close_socket.
  destruct (table_find socket_key socket_hash socket_compare zero_socket m g (fun x => us_fd x =? fd) T)
    as ([x|] & E & F); rewrite E; cbn [rbind].
  - destruct F as [Ef Hx]. apply Z.eqb_eq in Ef.
    destruct (table_delete socket_key socket_hash socket_compare zero_socket m g x T) as (m' & Ed & T').
    rewrite Ed. cbn [rbind]. eexists _, m', _. split; [reflexivity|]. split; [|exact T'].
    by eapply step_close.
  - eexists _, m, g. split; [reflexivity|]. split; [|done]. apply step_unnamed.
    intros path x Hx. by apply Z.eqb_neq, (F path).
Qed.

(** ** Ports stay apart *)

Lemma step_ports g c r g' : step g c r g' -> ports_ok g -> ports_ok g'.
Proof.
  intros S [R D]. destruct S as [fd path reuse sys_bind p _ (Hr & Hu & _)|?|?|?|fd sys_close path x Hx _|?]; try by split.
  - split; [by apply map_Forall_insert_2|]. intros path1 path2 x1 x2.
    rewrite !lookup_insert_Some. intros [[<- <-]|[N1 H1]] [[<- <-]|[N2 H2]] E; try done.
    + destruct Hu. by exists path2, x2.
    + destruct Hu. by exists path1, x1.
    + by eapply D.
  - split; [by apply map_Forall_delete|]. intros path1 path2 x1 x2.
    rewrite !lookup_delete_Some. intros [_ H1] [_ H2]. by apply D.
Qed.

Lemma step_size g c r g' : step g c r g' -> (size g' <= S (size g))%nat.
Proof.
  intros S. destruct S; try lia.
  - rewrite map_size_insert. destruct (g !! path); simpl; lia.
  - rewrite map_size_delete. destruct (g !! path); simpl; lia.
Qed.

Lemma call_step m g c :
  SocketTable m g -> named_call c -> Z.of_nat (size g) < 5535 ->
  exists r m' g', run_call m c = Val (r, Some m') /\ step g c r g' /\ SocketTable m' g'.
Proof.
  destruct c as [fd path reuse sys_bind|fd path sys_connect|fd sys_close]; intros T N Hs.
  - by apply bind_step.
  - by apply connect_step.
  - by apply close_step.
Qed.

Lemma calls_steps cs m g :
  SocketTable m g -> ports_ok g -> Forall named_call cs ->
  Z.of_nat (size g) + Z.of_nat (length cs) <= 5535 ->
  exists rs m' g', run_calls m cs = Val (rs, Some m') /\ steps g cs rs g' /\ SocketTable m' g' /\ ports_ok g'.
Proof.
  revert m g. induction cs as [|c cs IH]; intros m g T P F Hs.
  - exists [], m, g. split; [done|]. split; [constructor|done].
  - apply Forall_cons in F as [Fc F]. simpl length in Hs.
    destruct (call_step m g c T Fc ltac:(lia)) as (r & m1 & g1 & E & S1 & T1).
    pose proof (step_size _ _ _ _ S1). pose proof (step_ports _ _ _ _ S1 P) as P1.
    destruct (IH m1 g1 T1 P1 F ltac:(lia)) as (rs & m2 & g2 & E2 & S2 & T2 & P2).
    exists (r :: rs), m2, g2. cbn [run_calls]. rewrite E. cbn [rbind]. rewrite E2.
    split; [done|]. split; [by econstructor|done].
Qed.

(** C4: From the map the library makes for Unix sockets, any sequence of up to
    5535 calls of [bind], [connect] and close with paths that fit, while there
    is memory, returns and follows the specification: [bind] takes the first
    port that no socket has and enters it under the path, or fails with
    [EADDRINUSE] when the path is taken and the address cannot be reused;
    [connect] goes to the port of the socket last bound to the path and not
    closed since, or fails with [ENOTCONN]; closing a socket removes one path
    of it.  No two paths ever have the same port. *)
Theorem unix_sockets_correct cs :
  Forall named_call cs -> Z.of_nat (length cs) <= 5535 ->
  exists m0 rs m g,
    hashmap_new zero_socket (8 + PATH_MAX) 0 0 0 false true true = Val (Some m0) /\
    run_calls m0 cs = Val (rs, Some m) /\ steps ∅ cs rs g /\ SocketTable m g /\ ports_ok g.
Proof.
  intros F Hl. unfold PATH_MAX.
  destruct (table_empty socket_key socket_hash socket_compare zero_socket (8 + 1024) 0 0 0 false)
    as (m0 & E & T); [lia|lia|].
  destruct (calls_steps cs m0 ∅ T) as (rs & m & g & Er & S & T' & P); [|done|rewrite map_size_empty; lia|].
  - split; [apply map_Forall_empty|]. intros path1 path2 x1 x2 H1. by rewrite lookup_empty in H1.
  - by exists m0, rs, m, g.
Qed.

(** Two sockets, the first path bound again by a third, and a path nobody has
    bound; the first socket closed at last. *)
Definition sample_calls : list call :=
  [Bind 100 (bytes "/tmp/x11") 0 (fun _ => 0); Bind 200 (bytes "/tmp/mysql") 0 (fun _ => 0);
   Connect 300 (bytes "/tmp/mysql") (fun t => match t with loopback p => p | given => 0 end);
   Connect 300 (bytes "/tmp/none") (fun _ => 0);
   Bind 400 (bytes "/tmp/x11") (-1) (fun _ => 0); Close 100 0;
   Bind 400 (bytes "/tmp/x11") (-1) (fun t => match t with loopback p => p | given => 0 end)].

Lemma unix_sockets_correct_witness :
  exists m0 rs m g,
    hashmap_new zero_socket (8 + PATH_MAX) 0 0 0 false true true = Val (Some m0) /\
    run_calls m0 sample_calls = Val (rs, Some m) /\ steps ∅ sample_calls rs g /\
    SocketTable m g /\ ports_ok g.
Proof.
  apply (unix_sockets_correct sample_calls); [|vm_compute; congruence].
  assert (B : forall s, forallb (fun c => (0 <? c) && (c <? 256)) (bytes s) = true ->
    Z.of_nat (length (bytes s)) < 1024 -> is_path (bytes s)).
  { intros s Hs Hl. split; [|done]. apply Forall_forall. intros c Hc. rewrite forallb_forall in Hs.
    apply list_elem_of_In, Hs in Hc. unfold is_char. lia. }
  repeat constructor; apply B; vm_compute; reflexivity.
Defined.

Example sample_replies :
  match hashmap_new zero_socket (8 + PATH_MAX) 0 0 0 false true true with
  | Val (Some m0) => match run_calls m0 sample_calls with Val (rs, _) => rs | _ => [] end
  | _ => []
  end = [(0, None); (0, None); (30001, None); (-1, Some 57); (-1, Some 48); (0, None); (30000, None)].
Proof. vm_compute. reflexivity. Qed.
